(* ===== verification/_CoqProject ===== *)
-Q . S2P
Prelude.v
GoBytes.v
Ordering.v
Sha256.v
GoText.v
GoJSON.v
GoTime.v
Sensitivity.v
Budget.v
Task.v
Scope.v
Authorization.v
Grant.v
Ordinal.v
Roaring.v
Bitmap.v
Portable.v
Weighted.v
FactId.v
FactText.v
FactSet.v
Witness.v
Relation.v
RelationProps.v
RelationJoin.v
JoinProps.v
RelationDemo.v
SqlText.v
QueryPlan.v
CanonicalPlan.v
JoinPlan.v
UnionFind.v
JoinOrder.v
JoinPlanProps.v
RelationalPlan.v
RelationalProps.v
QueryDemo.v
OutcomeSet.v
OutcomeLists.v
OutcomeCodec.v
OutcomeBuild.v
OutcomeVerify.v
OutcomeRadix.v
OutcomeMerge.v
OutcomeLoad.v
OutcomeStore.v
OutcomeProps.v
OutcomeNames.v
LedgerStore.v
AuditChain.v
ExposureLedger.v
ViewBinding.v
ControlTasks.v
Callbacks.v
BudgetLedger.v
BudgetInvariant.v
Results.v
ControlRuns.v
ControlProps.v
HybridSet.v
HybridTheory.v
HybridStore.v
HybridStoreTheory.v
V5Facts.v
OrdinalTables.v
OrdinalLedger.v
OrdinalFrame.v
OrdinalTheory.v
OrdinalOutcomes.v
OrdinalInvariant.v
OrdinalSteps.v
OrdinalHashes.v
OrdinalHashSteps.v
OrdinalRuns.v
OrdinalProps.v
OrdinalDemo.v
OrdinalWitness.v
