(* ===== verification/Prelude.v ===== *)
(** * Bonded Data Gate: verification development

    The Bonded Data Gate lets an agent query a database within a task that a
    human approved, charges every query for the facts it newly reveals, and
    records what it did.  This library models the parts that decide: the domain
    rules ([src/internal/domain]), the facts and their sets
    ([src/internal/exposure], [src/internal/ordinal]), the algebra that carries
    them through a query, the compilers from query plans to SQL
    ([src/internal/queryplan]), the transactions of the Control store
    ([src/internal/control]) and the audit chain ([src/internal/auditchain]).

    ** Files

    Ground: [Prelude] (Go errors and results, machine integers, folds over
    results, tactics), [GoBytes] (strings and bytes, big-endian fields,
    hexadecimal), [Ordering] (Go's order on strings, sorting), [Sha256] (the
    hash itself, computed, so digests evaluate), [GoText] (trimming, case,
    decimal numbers, the JSON text of a string), [GoJSON] (what can be read back
    from JSON text), [GoTime] (the civil calendar and RFC 3339 times).

    Domain: [Sensitivity] (sensitivity.go), [Budget] (budget.go and the
    exchange form in authorization.go), [Task] (task.go), [Scope] and
    [Authorization] (authorization.go), [Grant] (grant.go).

    Facts: [FactId] and [FactSet] (exposure/fact.go, outcome_v3.go,
    observation_digest.go), [FactText] (the hash of a fact of any version); [Ordinal], [Roaring], [Bitmap], [Portable]
    (ordinal/bitmap.go) and [Weighted] (ordinal/weighted.go).

    Annotated relations (exposure/algebra_v2.go): [Witness] (how often a result
    depends on a base fact), [Relation] (validity, scan, select, project, page,
    observe), [RelationJoin] (equijoin, UNION DISTINCT, aggregation); their
    theorems are in [RelationProps] and [JoinProps], examples in [RelationDemo].

    Query plans: [SqlText] (identifiers, literals and a lexer of the SQL written),
    [QueryPlan] (compiler.go), [CanonicalPlan], [JoinPlan] and [RelationalPlan]
    (relational.go, and the helpers of normalform.go and ordinal_program.go it
    calls).  [UnionFind] and [JoinOrder] hold the two algorithms of a join,
    [JoinPlanProps] and [RelationalProps] what is accepted and written, and
    [QueryDemo] examples.

    Control: [LedgerStore] is the tables as one record of finite maps; an
    operation is a function from a store to a result and a store, so a failed
    transaction shows what it left behind.  [ExposureLedger] (exposure.go),
    [ViewBinding] (viewbinding/binding.go), [ControlTasks] (entities.go,
    view_binding.go), [Callbacks] (callback.go), [BudgetLedger] (budget.go,
    recovery.go), [Results] (result.go and result_artifact.go: finalization, which
    settles a query and stores its result, and [SaveEncryptedResult]).
    [BudgetInvariant] relates the tables to each other, [ControlRuns] takes every
    operation as a step and proves what holds after any interleaving,
    [ControlProps] states what a client sees.  A state is reached by all of these
    ([reach]).  The transactions between two events of a theorem ([steps]) are
    all but one: a result stored for a query that had settled without one sets
    the digest of that settled record ([attach]).

    Outcome sets (control/outcome_hashset_v5.go and the statements on its tables
    in ordinal_exposure_v5.go): [OutcomeSet] is the code on slices of hashes,
    leaves, blocks and roots, [OutcomeRadix] the transaction that persists a graph
    and [differenceAndUnionV5Tx].  [OutcomeLists], [OutcomeCodec], [OutcomeBuild]
    and [OutcomeVerify] are the theory of the code, [OutcomeLoad], [OutcomeMerge]
    and [OutcomeStore] of the transaction, [OutcomeProps] what both promise,
    [OutcomeNames] which hashes a digest names in the tables.

    Ordinal ledgers, the V4 and V5 profiles (control/ordinal_exposure.go,
    ordinal_exposure_v5.go, migrations 014 and 018): [HybridSet] and [HybridStore]
    are sets of numbered and hashed facts in memory and in their tables,
    [V5Facts] checks the facts of an outcome, [OrdinalTables] has the heads,
    reservations and observations, [OrdinalLedger] every operation.
    [HybridTheory], [HybridStoreTheory] and [OrdinalTheory] are what the sets and
    heads stand for; [OrdinalFrame] proves the laws the budget ledger asks for;
    [OrdinalInvariant] and [OrdinalSteps] are the invariant and its steps,
    [OrdinalHashes] and [OrdinalHashSteps] the outcome sets of V5 heads,
    [OrdinalRuns] the interleaved histories, [OrdinalProps] and [OrdinalOutcomes]
    the promises, [OrdinalDemo] and [OrdinalWitness] an example.

    [AuditChain] (auditchain.go, control/audit.go, the inclusion proofs of
    gateway/query.go).

    ** How they meet

    A gateway request validates a manifest or grant ([Authorization]), reserves
    a budget and an exposure hold in one transaction ([BudgetLedger.ReserveBudget]
    calls [ExposureLedger] for the profiles V1 to V3 and its ledger interface
    [OrdinalExposure] for V4 and V5), runs the query, and settles both and stores
    the result in one transaction.  The laws an ordinal ledger owes the budget
    ledger are the class [OrdinalLaws] (its tables, its statuses, that an open
    reservation can be released), so the theorems on budgets, recovery included,
    hold for every ledger that keeps them; [OrdinalLedger] does, by the instance [ordinal_ledgers_laws] of
    [OrdinalFrame].

    A settlement of V4 or V5 locks its reservation but not its root's head: it
    reads the head, computes difference and union, and moves the head only if the
    epoch is still the one it read.  The operations take the tables that the two
    unlocked queries saw as arguments ([read], [seen]); a history of
    [OrdinalRuns] lets them be the tables of any earlier state.  [Bitmap] is
    proved against [RoaringLaws], the documented behaviour of the Roaring
    package, with a list implementation as witness.

    ** What the theorems show

    The properties are numbered [C1], [C2] and so on in the comments above them:
    exact accounting and settlement in the store, retries and recovery, errors
    that leave the store alone, history that does not change; the audit chain;
    authority that only narrows; the task state machine; budgets and their
    bounds; bitmap sets as sets; facts identified by their hashes.

    The algebra: the hash join is the nested loop with SQL equality, swapping its
    operands changes nothing observable, an observation is exactly the facts the
    visible result depends on, a page is exactly its window.

    The compilers: exactly which plans are accepted; that the SQL, lexed again, is
    the statement asked for whatever the literals hold; that plans which say the
    same thing canonicalize alike; that a join names every source and every
    equality once and its two algorithms reject no connected graph; that the
    companion statement returns every column the answer depends on.

    Outcome sets: an encoded graph reads back, a graph that verifies is the graph of
    its members, and a transaction charges and records exactly the new hashes,
    whatever the tables hold.

    The ordinal ledgers, over every interleaved history: a head has used exactly
    what its reservations were charged; every settled query's observation is
    inside its head's sets; a settlement charges what its observation adds to the
    head that all earlier settlements left, however old the head it first read;
    a query that repeats a settled observation by reference is free; what was shown
    stays shown; a stored set loads back as it was.  For the outcome hashes of V5,
    which the tables keep as a graph named by digests, this asks that no two of the
    texts hashed so far collide and that limits and estimates stay below 2^30
    ([sound_hashes]).

    A statement that a hash identifies its argument says: the arguments agree or two named
    texts collide under SHA-256 ([Sha256.collides]), never that the hash is
    injective.

    ** Numbers, fuel, time

    Go integers are [Z] with the range checks and wrap-around of the source
    written out.  [json_chars] in [GoText] takes the length of its text as fuel
    and [format_int] the size of its number; both are proved enough by the
    lemmas that use them.  Times are integers (nanoseconds, or microseconds
    where PostgreSQL keeps them).  The union-find of a join takes one more than
    the number of equalities as fuel and its ordering loop the number of sources;
    [unions_spec] and [join_loop_written] prove both enough.  The loop that cuts a
    group of hashes into leaves takes the length of the group.  Outcome sets have
    fewer than 2^31 members, the range in which Go's conversions to [uint32] are
    exact.  A history of [OrdinalRuns] asks of an observation's bitmap set what
    its Go type guarantees: sorted, and no more references than a [uint64] counts.

    ** Not modelled

    Of a stored result: its ciphertext and chunks, the signed receipt, published
    materializations, the JSON of audit payloads, retention and erasure of keys.

    The connection pool, contexts and cancellations, PostgreSQL itself (a
    transaction is atomic; a failed one is rolled back), random identifiers
    (parameters), the JSON decoder and the text PostgreSQL returns for JSONB
    (parameters of [AuditChain]), the Roaring package (an interface), the encoding
    of a PostgreSQL value and [reflect.DeepEqual] on values (classes of
    [Relation]), the program of evidence rules attached to a compiled plan, and the
    parts that only move data: HTTP, files, Parquet and the evaluation harness.

    Of the ordinal ledgers: the publication of dictionaries (its rows are given),
    materialized sets, telemetry and row times.  A foreign key to a row written
    earlier in the same transaction is not checked again.  The triggers of
    migration 014 on the tables of the V1 to V3 ledger are not applied there.
    Normal forms, receipts, the view compiler and the SQL policy are left out;
    they read trees of a PostgreSQL parser that is not part of the repository. *)

From stdpp Require Export base tactics option list list_numbers sorting gmap strings fin_maps.
From Stdlib Require Export ZArith Lia Bool Ascii.
From Stdlib Require String.

#[export] Set Default Goal Selector "!".
#[global] Open Scope string_scope.
#[global] Open Scope list_scope.
#[global] Open Scope Z_scope.

(** ** Go errors

    A Go [error] is a tree of wrapped values.  The constructors follow the
    five ways the source builds one; formatted operands ([%q], [%d]) are not
    part of the value, the format string is. *)
Inductive goerror :=
  | ErrNew (text : string)                     (* errors.New(text) *)
  | ErrW (base : goerror) (text : string)      (* fmt.Errorf("%w: text", base) *)
  | ErrWV (base detail : goerror)              (* fmt.Errorf("%w: %v", base, detail) *)
  | ErrWW (base detail : goerror)              (* an error that unwraps to both *)
  | ErrCtx (text : string) (base : goerror).   (* fmt.Errorf("text: %w", base) *)

#[export] Instance goerror_eq_dec : EqDecision goerror.
Proof. solve_decision. Defined.

(** [errors.Is]: the target occurs in the tree of [%w] wrappings. *)
Fixpoint errors_is (e target : goerror) : bool :=
  bool_decide (e = target) ||
  match e with
  | ErrNew _ => false
  | ErrW b _ | ErrWV b _ | ErrCtx _ b => errors_is b target
  | ErrWW b d => errors_is b target || errors_is d target
  end.

(** [err.Error()]. *)
Fixpoint error_text (e : goerror) : string :=
  match e with
  | ErrNew t => t
  | ErrW b t => error_text b +:+ ": " +:+ t
  | ErrWV b d | ErrWW b d => error_text b +:+ ": " +:+ error_text d
  | ErrCtx t b => t +:+ ": " +:+ error_text b
  end.

(** ** Results: a value or an error *)
Inductive result (A : Type) :=
  | Ok (a : A)
  | Err (e : goerror).
Arguments Ok {A} a.
Arguments Err {A} e.

#[export] Instance result_ret : MRet result := fun A a => Ok a.
#[export] Instance result_bind : MBind result :=
  fun A B f m => match m with Ok a => f a | Err e => Err e end.

#[export] Instance result_eq_dec {A} `{EqDecision A} : EqDecision (result A).
Proof. solve_decision. Defined.

Definition is_ok {A} (r : result A) : bool :=
  match r with Ok _ => true | Err _ => false end.

(** [if b { return e }]. *)
Definition fail_if (b : bool) (e : goerror) : result unit :=
  if b then Err e else Ok tt.

(** [if err := r; err != nil { return f(err) }]. *)
Definition map_err {A} (f : goerror -> goerror) (r : result A) : result A :=
  match r with Ok a => Ok a | Err e => Err (f e) end.

(** [for _, x := range xs { if err := f(x); err != nil { return err } }]. *)
Fixpoint check_all {A} (f : A -> result unit) (xs : list A) : result unit :=
  match xs with
  | [] => Ok tt
  | x :: rest => f x ≫= fun _ => check_all f rest
  end.

(** A fold that stops at the first error. *)
Fixpoint fold_res {A S} (f : S -> A -> result S) (s : S) (xs : list A) : result S :=
  match xs with
  | [] => Ok s
  | x :: rest => f s x ≫= fun s' => fold_res f s' rest
  end.

Lemma bind_ok {A B} (m : result A) (f : A -> result B) b :
  m ≫= f = Ok b <-> exists a, m = Ok a /\ f a = Ok b.
Proof. destruct m; cbn; split; [eauto|intros (? & [= ->] & ?); done|done|intros (? & [=] & ?)]. Qed.

Lemma Ok_inj {A} (a b : A) : Ok a = Ok b -> a = b.
Proof. by intros [= ->]. Qed.

Lemma fail_if_ok b e : fail_if b e = Ok tt <-> b = false.
Proof. by destruct b. Qed.

Lemma fail_if_bind_ok {B} b e (k : unit -> result B) y :
  fail_if b e ≫= k = Ok y <-> b = false /\ k tt = Ok y.
Proof. destruct b; cbn; naive_solver. Qed.

(** A check followed by the rest of the function. *)
Lemma seq_ok {B} (m : result unit) (k : result B) y :
  m ≫= (fun _ => k) = Ok y <-> m = Ok tt /\ k = Ok y.
Proof. destruct m as [[]|]; cbn; naive_solver. Qed.

Lemma map_err_ok {A} f (r : result A) a : map_err f r = Ok a <-> r = Ok a.
Proof. destruct r; cbn; naive_solver. Qed.

Lemma check_all_ok {A} (f : A -> result unit) xs :
  check_all f xs = Ok tt <-> Forall (fun x => f x = Ok tt) xs.
Proof.
  induction xs as [|x xs IH]; cbn; [naive_solver|].
  rewrite Forall_cons, <- IH, bind_ok. split; [intros ([] & ? & ?); done|].
  intros [??]; by exists tt.
Qed.

Lemma unit_ok_iff (r : result unit) : r = Ok tt <-> is_ok r = true.
Proof. destruct r as [[]|]; naive_solver. Qed.

Lemma fold_res_app {A S} (f : S -> A -> result S) s xs ys :
  fold_res f s (xs ++ ys) = fold_res f s xs ≫= fun s' => fold_res f s' ys.
Proof.
  revert s; induction xs as [|x xs IH]; intros s; cbn; [done|].
  destruct (f s x); cbn; [apply IH|done].
Qed.

(** An invariant kept by each step of a fold holds of its result. *)
Lemma fold_res_inv {A S} (f : S -> A -> result S) (P : S -> Prop) s xs s' :
  (forall s x s', x ∈ xs -> P s -> f s x = Ok s' -> P s') ->
  P s -> fold_res f s xs = Ok s' -> P s'.
Proof.
  revert s; induction xs as [|x xs IH]; cbn; intros s Hstep Hs; [by intros [= <-]|].
  rewrite bind_ok; intros (s1 & H1 & H2).
  eapply IH; [|eapply Hstep; [left| |]; eauto|eauto].
  intros; eapply Hstep; eauto; by right.
Qed.

(** ** Automation: turning boolean guards into propositions *)
Create Rewrite HintDb go_bool.
Create Rewrite HintDb go_ok.
#[export] Hint Rewrite orb_false_iff orb_true_iff andb_true_iff negb_false_iff
  negb_true_iff bool_decide_eq_true bool_decide_eq_false
  Z.leb_le Z.ltb_lt Z.leb_gt Z.ltb_ge Z.eqb_eq Z.eqb_neq Z.gtb_ltb Z.geb_leb : go_bool.
#[export] Hint Rewrite @bind_ok @fail_if_ok @fail_if_bind_ok @map_err_ok @check_all_ok : go_ok.

(** [ok_inv H] splits a successful chain of guards into its conditions. *)
Ltac ok_inv H :=
  repeat first
    [ apply fail_if_bind_ok in H; let H1 := fresh "G" in destruct H as [H1 H]
    | apply bind_ok in H; let a := fresh "a" in let H1 := fresh "G" in
      destruct H as (a & H1 & H)
    | apply map_err_ok in H
    | apply fail_if_ok in H ].

Ltac ok_inv_all :=
  repeat match goal with
    | H : _ ≫= _ = Ok _ |- _ => progress (ok_inv H)
    | H : map_err _ _ = Ok _ |- _ => apply map_err_ok in H
    | H : fail_if _ _ = Ok _ |- _ => apply fail_if_ok in H
    | H : Ok _ = Ok _ |- _ => injection H as H
    end.

(** ** 64-bit integers *)
Definition max_int64 : Z := 2 ^ 63 - 1.
Definition max_uint64 : Z := 2 ^ 64 - 1.
Definition int64_range (z : Z) : Prop := - 2 ^ 63 <= z <= max_int64.
Definition uint64_range (z : Z) : Prop := 0 <= z <= max_uint64.
Definition wrap_uint64 (z : Z) : Z := z mod 2 ^ 64.
Definition wrap_int64 (z : Z) : Z := (z + 2 ^ 63) mod 2 ^ 64 - 2 ^ 63.

Lemma wrap_uint64_id z : uint64_range z -> wrap_uint64 z = z.
Proof. unfold uint64_range, max_uint64, wrap_uint64; intros; apply Z.mod_small; lia. Qed.

Lemma wrap_int64_id z : int64_range z -> wrap_int64 z = z.
Proof.
  unfold int64_range, max_int64, wrap_int64; intros.
  rewrite Z.mod_small; lia.
Qed.

Lemma wrap_uint64_add_l a b : wrap_uint64 (wrap_uint64 a + b) = wrap_uint64 (a + b).
Proof. unfold wrap_uint64. by rewrite Z.add_mod_idemp_l. Qed.

Lemma wrap_uint64_add_r a b : wrap_uint64 (a + wrap_uint64 b) = wrap_uint64 (a + b).
Proof. unfold wrap_uint64. by rewrite Z.add_mod_idemp_r. Qed.

Lemma wrap_uint64_range z : uint64_range (wrap_uint64 z).
Proof. unfold uint64_range, wrap_uint64, max_uint64. pose proof (Z.mod_pos_bound z (2 ^ 64)). lia. Qed.

(** ** Lists *)
(** Two strictly sorted lists with the same elements are equal. *)
Lemma strongly_sorted_ext {A} (R : A -> A -> Prop) (l1 l2 : list A) :
  (forall x, ~ R x x) -> (forall x y z, R x y -> R y z -> R x z) ->
  StronglySorted R l1 -> StronglySorted R l2 ->
  (forall x, x ∈ l1 <-> x ∈ l2) -> l1 = l2.
Proof.
  intros Hirr Htr H1; revert l2.
  induction H1 as [|a l1 Hs IH Ha]; intros l2 H2 Hext.
  - destruct l2 as [|b l2]; [done|].
    destruct (not_elem_of_nil b). apply Hext. by left.
  - destruct H2 as [|b l2 Hs2 Hb].
    { destruct (not_elem_of_nil a). apply Hext. by left. }
    rewrite Forall_forall in Ha, Hb.
    assert (a = b) as ->.
    { assert (Hab : a ∈ b :: l2) by (apply Hext; by left).
      assert (Hba : b ∈ a :: l1) by (apply Hext; by left).
      apply elem_of_cons in Hab as [->|Hab]; [done|].
      apply elem_of_cons in Hba as [->|Hba]; [done|].
      exfalso; by eapply (Hirr a), (Htr a b a); auto. }
    f_equal; apply IH; [done|]. intros x; split; intros Hx.
    + destruct (proj1 (elem_of_cons _ _ _) (proj1 (Hext x) (list_elem_of_further _ _ _ Hx))) as [->|?]; [|done].
      by destruct (Hirr b (Ha b Hx)).
    + destruct (proj1 (elem_of_cons _ _ _) (proj2 (Hext x) (list_elem_of_further _ _ _ Hx))) as [->|?]; [|done].
      by destruct (Hirr b (Hb b Hx)).
Qed.

(** ** Finite maps *)
(** A map whose keys are all keys of a map of the same size has its domain. *)
Lemma map_dom_eq `{Countable K} {A C} (m : gmap K A) (m' : gmap K C) :
  (forall k, is_Some (m !! k) -> is_Some (m' !! k)) -> size m = size m' -> dom m = dom m'.
Proof.
  intros Hsub Hs. apply set_eq. intros x. split.
  - rewrite !elem_of_dom. apply Hsub.
  - intros Hx. destruct (decide (x ∈ dom m)) as [|Hn]; [done|exfalso].
    assert (size (dom m) < size (dom m'))%nat as Hlt.
    { apply subset_size. assert (dom m ⊆ dom m') by (intros y; rewrite !elem_of_dom; apply Hsub). set_solver. }
    rewrite !size_dom in Hlt. lia.
Qed.

Lemma bool_iff_eq (a b : bool) : (a = true <-> b = true) -> a = b.
Proof. destruct a, b; naive_solver. Qed.

(** A fold whose steps append to the accumulator. *)
Lemma fold_res_flat_map {A C} (f : list C -> A -> result (list C)) (g : A -> list C) acc xs :
  (forall acc x, x ∈ xs -> f acc x = Ok (acc ++ g x)) ->
  fold_res f acc xs = Ok (acc ++ flat_map g xs).
Proof.
  revert acc; induction xs as [|x xs IH]; intros acc H; cbn.
  - by rewrite app_nil_r.
  - rewrite H by (by left). cbn. rewrite IH by (intros; apply H; by right). by rewrite app_assoc.
Qed.

(** ** Loops over lists *)
(** A loop that refuses a repeated key. *)
Lemma fold_unique {A} (step : list string -> A -> result (list string)) (key : A -> string) (P : A -> Prop) (xs : list A) :
  (forall seen x seen', x ∈ xs -> step seen x = Ok seen' <-> P x /\ key x ∉ seen /\ seen' = key x :: seen) ->
  forall seen seen', fold_res step seen xs = Ok seen' <->
    Forall P xs /\ NoDup (map key xs) /\ (forall x, x ∈ xs -> key x ∉ seen) /\ seen' = rev (map key xs) ++ seen.
Proof.
  induction xs as [|x xs IH]; intros Hstep seen seen'; cbn [fold_res map rev].
  - split; [intros <-%Ok_inj; split; [constructor|]; split; [constructor|]; split; [by intros x ?%elem_of_nil|done]|by intros (_ & _ & _ & ->)].
  - specialize (IH (fun s y s' Hy => Hstep s y s' (list_elem_of_further _ _ _ Hy))).
    rewrite bind_ok, Forall_cons, NoDup_cons. split.
    + intros (s & Es & (HF & Hnd & Hs & ->)%IH). apply Hstep in Es as (HP & Hn & ->); [|by left]. rewrite <- app_assoc. split; [done|]. split.
      * split; [|done]. intros (y & Ey & Hy)%list_elem_of_fmap. apply (Hs y Hy). rewrite <- Ey. by left.
      * split; [|done]. intros y [->|Hy]%elem_of_cons; [done|]. intros Hin. apply (Hs y Hy). by right.
    + intros ((HP & HF) & (Hnot & Hnd) & Hs & ->). exists (key x :: seen). split; [apply Hstep; [by left|]; split; [done|]; split; [apply Hs; by left|done]|].
      apply IH. split; [done|]. split; [done|]. split; [|by rewrite <- app_assoc].
      intros y Hy [E|Hin]%elem_of_cons; [|apply (Hs y); [by right|done]]. apply Hnot. apply list_elem_of_fmap. exists y. done.
Qed.

Lemma sorted_map_inv {A B} (R : B -> B -> Prop) (f : A -> B) l : StronglySorted R (map f l) -> StronglySorted (fun a b => R (f a) (f b)) l.
Proof.
  induction l as [|x l IH]; [constructor|]. cbn [map]. intros E. inversion E as [|? ? Hs HF]; subst. constructor; [by apply IH|].
  apply Forall_forall. intros y Hy. rewrite Forall_forall in HF. apply HF, list_elem_of_fmap. eauto.
Qed.

Lemma fail_if_ok' b e (u : unit) : fail_if b e = Ok u <-> b = false.
Proof. destruct u. apply fail_if_ok. Qed.

Lemma Forall2_impl_in {A B} (P Q : A -> B -> Prop) l k : Forall2 P l k -> (forall x y, x ∈ l -> P x y -> Q x y) -> Forall2 Q l k.
Proof.
  induction 1 as [|x y l k Hxy F IH]; intros HPQ; constructor; [apply HPQ; [by left|done]|]. apply IH. intros a b Ha. apply HPQ. by right.
Qed.

Lemma fold_res_ext {A S} (f g : S -> A -> result S) l : (forall s x, x ∈ l -> f s x = g s x) -> forall s, fold_res f s l = fold_res g s l.
Proof.
  induction l as [|x l IH]; intros Hfg s; [done|]. cbn [fold_res]. rewrite Hfg by (by left). destruct (g s x) as [s'|]; [|done].
  cbn [mbind result_bind]. apply IH. intros s'' y Hy. apply Hfg. by right.
Qed.

Lemma fold_res_map {A B S} (f : S -> B -> result S) (g : A -> B) l : forall s, fold_res f s (map g l) = fold_res (fun s x => f s (g x)) s l.
Proof. induction l as [|x l IH]; intros s; [done|]. cbn [map fold_res]. destruct (f s (g x)) as [s'|e]; [apply IH|done]. Qed.

(** ** Loops *)
Lemma fold_collect_map {A B} (f : A -> result B) xs : forall acc out,
  fold_res (fun ys x => y ← f x; Ok (ys ++ [y])) acc xs = Ok out <-> exists ys, Forall2 (fun x y => f x = Ok y) xs ys /\ out = acc ++ ys.
Proof.
  induction xs as [|x xs IH]; intros acc out; cbn [fold_res].
  - split; [intros <-%Ok_inj; exists []; split; [constructor|by rewrite app_nil_r]|]. intros (ys & F & ->). inversion F; subst. by rewrite app_nil_r.
  - rewrite bind_ok. split.
    + intros (a & (y & Hy & <-%Ok_inj)%bind_ok & (ys & F & ->)%IH). exists (y :: ys). split; [by constructor|by rewrite <- app_assoc].
    + intros (ys & F & ->). inversion F as [|? y ? ys' Hy F']; subst. exists (acc ++ [y]). rewrite Hy. split; [done|]. apply IH.
      exists ys'. split; [done|by rewrite <- app_assoc].
Qed.

Lemma collect_total {A B} (f : A -> result B) xs : (forall x, x ∈ xs -> exists y, f x = Ok y) -> exists ys, Forall2 (fun x y => f x = Ok y) xs ys.
Proof.
  induction xs as [|x xs IH]; intros Hf; [exists []; constructor|]. destruct (Hf x) as [y Hy]; [by left|].
  destruct IH as [ys F]; [intros z Hz; apply Hf; by right|]. exists (y :: ys). by constructor.
Qed.

Lemma fold_res_concat {A B S} (f : S -> B -> result S) (g : A -> list B) xs : forall s,
  fold_res f s (flat_map g xs) = fold_res (fun s x => fold_res f s (g x)) s xs.
Proof.
  induction xs as [|x xs IH]; intros s; [done|]. cbn [flat_map fold_res]. rewrite fold_res_app.
  destruct (fold_res f s (g x)) as [s'|]; [apply IH|done].
Qed.

(** ** Counting rows *)
Section counting.
Context {K V : Type} `{Countable K}.
Implicit Types (m : gmap K V) (P : K * V -> bool).

Definition count_if P m : Z := Z.of_nat (size (filter (fun kv => P kv = true) m)).

Lemma count_if_empty P : count_if P ∅ = 0.
Proof. unfold count_if. by rewrite map_filter_empty, map_size_empty. Qed.

Lemma count_if_insert P m k v : m !! k = None ->
  count_if P (<[k := v]> m) = count_if P m + (if P (k, v) then 1 else 0).
Proof.
  intros Hk. unfold count_if. destruct (P (k, v)) eqn:E.
  - rewrite map_filter_insert_True by done. rewrite map_size_insert_None; [lia|].
    apply map_lookup_filter_None. by left.
  - rewrite map_filter_insert_False by (by rewrite E). rewrite delete_id by done. lia.
Qed.

Lemma count_if_nonneg P m : 0 <= count_if P m.
Proof. unfold count_if. lia. Qed.

Lemma count_if_ext P Q m : (forall k v, m !! k = Some v -> P (k, v) = Q (k, v)) -> count_if P m = count_if Q m.
Proof. intros HPQ. unfold count_if. do 2 f_equal. apply map_filter_ext. intros k v Hk. by rewrite HPQ. Qed.

Lemma count_if_zero P m : (forall k v, m !! k = Some v -> P (k, v) = false) -> count_if P m = 0.
Proof.
  intros HP. unfold count_if. rewrite (proj2 (map_empty_filter _ m)); [by rewrite map_size_empty|].
  intros k v Hk. by rewrite HP.
Qed.
End counting.

(** The sum of a quantity over the rows of a table. *)
Section sums.
Context {K V : Type} `{Countable K}.
Implicit Types (m : gmap K V) (f : V -> Z).

Definition msum f m : Z := map_fold (fun _ v acc => f v + acc) 0 m.

Lemma msum_empty f : msum f ∅ = 0.
Proof. apply map_fold_empty. Qed.

Lemma msum_new f m k v : m !! k = None -> msum f (<[k := v]> m) = f v + msum f m.
Proof. intros Hk. unfold msum. rewrite map_fold_insert_L; [done| |done]. intros. lia. Qed.

Lemma msum_update f m k old v : m !! k = Some old -> msum f (<[k := v]> m) = msum f m - f old + f v.
Proof.
  intros Hk. rewrite <- (insert_delete_id m k old Hk) at 2. rewrite <- insert_delete_eq.
  rewrite !msum_new by apply lookup_delete_eq. lia.
Qed.

Lemma msum_set f m k v : msum f (<[k := v]> m) = msum f m - from_option f 0 (m !! k) + f v.
Proof. destruct (m !! k) as [old|] eqn:E; cbn; [by apply msum_update|rewrite msum_new by done; lia]. Qed.

Lemma msum_ext f g m : (forall k v, m !! k = Some v -> f v = g v) -> msum f m = msum g m.
Proof.
  induction m as [|k v m Hk IH] using map_ind; intros Hfg; [by rewrite !msum_empty|].
  rewrite !msum_new, (Hfg k v) by (done || apply lookup_insert_eq). f_equal. apply IH. intros j w Hj. apply (Hfg j).
  rewrite lookup_insert_ne; [done|]. intros <-. by rewrite Hk in Hj.
Qed.

Lemma msum_zero f m : (forall k v, m !! k = Some v -> f v = 0) -> msum f m = 0.
Proof.
  intros Hf. rewrite (msum_ext f (fun _ => 0) m Hf).
  induction m as [|k v m Hk IH] using map_ind; [apply msum_empty|]. rewrite msum_new by done.
  rewrite IH; [lia|]. intros j w Hj. apply (Hf j). rewrite lookup_insert_ne; [done|]. intros <-. by rewrite Hk in Hj.
Qed.

Lemma msum_nonneg f m : (forall k v, m !! k = Some v -> 0 <= f v) -> 0 <= msum f m.
Proof.
  induction m as [|k v m Hk IH] using map_ind; intros Hf; [by rewrite msum_empty|]. rewrite msum_new by done.
  pose proof (Hf k v (lookup_insert_eq _ _ _)). assert (0 <= msum f m); [|lia]. apply IH. intros j w Hj. apply (Hf j).
  rewrite lookup_insert_ne; [done|]. intros <-. by rewrite Hk in Hj.
Qed.

(** A row contributes at most the whole sum. *)
Lemma msum_member f m k v : (forall k v, m !! k = Some v -> 0 <= f v) -> m !! k = Some v -> f v <= msum f m.
Proof.
  intros Hf Hk. rewrite <- (insert_delete_id m k v Hk), msum_new by apply lookup_delete_eq.
  assert (0 <= msum f (delete k m)); [|lia]. apply msum_nonneg. intros j w [_ Hj]%lookup_delete_Some. by apply (Hf j).
Qed.
End sums.

(** A table that only grows, each row changing as a relation allows. *)
Section tables.
Context {K V : Type} `{Countable K} (R : V -> V -> Prop) `{!PreOrder R}.
Implicit Types m : gmap K V.

Definition table_le m m' : Prop := forall k v, m !! k = Some v -> exists v', m' !! k = Some v' /\ R v v'.

#[export] Instance table_le_preorder : PreOrder table_le.
Proof.
  split; [intros m k v Hk; by exists v|]. intros m1 m2 m3 H12 H23 k v Hk.
  destruct (H12 k v Hk) as (v2 & H2 & R2). destruct (H23 k v2 H2) as (v3 & H3 & R3). exists v3. split; [done|by etrans].
Qed.

Lemma table_le_insert m k v : (forall old, m !! k = Some old -> R old v) -> table_le m (<[k := v]> m).
Proof.
  intros Hv j w Hj. destruct (decide (j = k)) as [->|Hne].
  - rewrite lookup_insert_eq. eauto.
  - rewrite lookup_insert_ne by done. by exists w.
Qed.
End tables.
