(* ===== verification/GoBytes.v ===== *)
(** * Go strings and byte slices

    A Go [string] is a Rocq [string] (a sequence of bytes), a Go [[]byte] is a
    [list ascii].  This file holds the parts of the packages [strings],
    [bytes], [encoding/hex] and [encoding/binary] that the gateway uses, with
    the order and injectivity lemmas the components share. *)

From S2P Require Import Prelude.

Abbreviation bytes := (list ascii).

Definition to_bytes : string -> bytes := String.list_ascii_of_string.
Definition of_bytes : bytes -> string := String.string_of_list_ascii.
Definition str_len (s : string) : Z := Z.of_nat (String.length s).
Definition byte_val (c : ascii) : Z := Z.of_N (N_of_ascii c).
Definition byte_of (z : Z) : ascii := ascii_of_N (Z.to_N (z mod 256)).
Definition bytes_len (b : bytes) : Z := Z.of_nat (length b).

Lemma byte_val_range c : 0 <= byte_val c < 256.
Proof. unfold byte_val. pose proof (N_ascii_bounded c). lia. Qed.

Lemma byte_of_val c : byte_of (byte_val c) = c.
Proof.
  unfold byte_of. rewrite Z.mod_small by apply byte_val_range.
  unfold byte_val. rewrite N2Z.id. apply ascii_N_embedding.
Qed.

Lemma byte_val_of z : byte_val (byte_of z) = z mod 256.
Proof.
  unfold byte_val, byte_of. pose proof (Z.mod_pos_bound z 256).
  rewrite N_ascii_embedding by lia. lia.
Qed.

Lemma byte_val_inj a b : byte_val a = byte_val b -> a = b.
Proof. intros H. by rewrite <- (byte_of_val a), H, byte_of_val. Qed.

Lemma of_to_bytes s : of_bytes (to_bytes s) = s.
Proof. apply String.string_of_list_ascii_of_string. Qed.
Lemma to_of_bytes b : to_bytes (of_bytes b) = b.
Proof. apply String.list_ascii_of_string_of_list_ascii. Qed.
Lemma to_bytes_inj s t : to_bytes s = to_bytes t -> s = t.
Proof. intros H. by rewrite <- (of_to_bytes s), H, of_to_bytes. Qed.
Lemma of_bytes_inj s t : of_bytes s = of_bytes t -> s = t.
Proof. intros H. by rewrite <- (to_of_bytes s), H, to_of_bytes. Qed.
Lemma length_to_bytes s : length (to_bytes s) = String.length s.
Proof. induction s; cbn; auto. Qed.
Lemma length_of_bytes b : String.length (of_bytes b) = length b.
Proof. induction b; cbn; auto. Qed.

(** ** Byte order: [bytes.Compare] and [<] on strings *)
Fixpoint bytes_compare (a b : bytes) : comparison :=
  match a, b with
  | [], [] => Eq
  | [], _ :: _ => Lt
  | _ :: _, [] => Gt
  | x :: a', y :: b' =>
      match Z.compare (byte_val x) (byte_val y) with
      | Eq => bytes_compare a' b'
      | c => c
      end
  end.

Definition bytes_ltb (a b : bytes) : bool :=
  match bytes_compare a b with Lt => true | _ => false end.
Definition str_ltb (a b : string) : bool := bytes_ltb (to_bytes a) (to_bytes b).
Definition str_leb (a b : string) : bool := negb (str_ltb b a).
Definition bytes_lt (a b : bytes) : Prop := bytes_ltb a b = true.

Lemma bytes_compare_eq a b : bytes_compare a b = Eq <-> a = b.
Proof.
  revert b; induction a as [|x a IH]; intros [|y b]; cbn; try done.
  destruct (Z.compare_spec (byte_val x) (byte_val y)) as [E|E|E].
  - apply byte_val_inj in E as ->. rewrite IH. naive_solver.
  - split; [done|]. intros [= -> ->]. lia.
  - split; [done|]. intros [= -> ->]. lia.
Qed.

Lemma bytes_compare_antisym a b : bytes_compare b a = CompOpp (bytes_compare a b).
Proof.
  revert b; induction a as [|x a IH]; intros [|y b]; cbn; try done.
  rewrite (Z.compare_antisym (byte_val x)).
  destruct (Z.compare (byte_val x) (byte_val y)); cbn; auto.
Qed.

Lemma bytes_lt_trans a b c : bytes_lt a b -> bytes_lt b c -> bytes_lt a c.
Proof.
  unfold bytes_lt, bytes_ltb.
  revert b c; induction a as [|x a IH]; intros [|y b] [|z c]; cbn; try done.
  specialize (IH b c).
  destruct (Z.compare_spec (byte_val x) (byte_val y));
    destruct (Z.compare_spec (byte_val y) (byte_val z));
    destruct (Z.compare_spec (byte_val x) (byte_val z)); try done; try lia.
Qed.

Lemma bytes_lt_irrefl a : ~ bytes_lt a a.
Proof.
  unfold bytes_lt, bytes_ltb. by rewrite (proj2 (bytes_compare_eq a a) eq_refl).
Qed.

Lemma bytes_lt_total a b : bytes_lt a b \/ a = b \/ bytes_lt b a.
Proof.
  unfold bytes_lt, bytes_ltb. rewrite (bytes_compare_antisym a b).
  destruct (bytes_compare a b) eqn:E; cbn; auto.
  apply bytes_compare_eq in E; auto.
Qed.

(** [a <= b], the reflexive closure used by the sorting routines. *)
Definition bytes_le (a b : bytes) : Prop := bytes_ltb b a = false.
#[export] Instance bytes_le_dec : RelDecision bytes_le.
Proof. intros a b. unfold bytes_le. apply _. Defined.
#[export] Instance bytes_lt_dec : RelDecision bytes_lt.
Proof. intros a b. unfold bytes_lt. apply _. Defined.

Lemma bytes_le_alt a b : bytes_le a b <-> a = b \/ bytes_lt a b.
Proof.
  unfold bytes_le. rewrite <- not_true_iff_false. fold (bytes_lt b a).
  destruct (bytes_lt_total a b) as [H|[->|H]].
  - split; [auto|]. intros _ H'. by destruct (bytes_lt_irrefl a (bytes_lt_trans _ _ _ H H')).
  - split; [auto|]. intros _. apply bytes_lt_irrefl.
  - split; [done|]. intros [->|H'] _; [by destruct (bytes_lt_irrefl b)|].
    by destruct (bytes_lt_irrefl a (bytes_lt_trans _ _ _ H' H)).
Qed.

#[export] Instance bytes_le_total : Total bytes_le.
Proof.
  intros a b. rewrite !bytes_le_alt.
  destruct (bytes_lt_total a b) as [?|[?|?]]; auto.
Qed.
#[export] Instance bytes_le_trans : Transitive bytes_le.
Proof.
  intros a b c. rewrite !bytes_le_alt.
  intros [->|H1] [->|H2]; eauto using bytes_lt_trans.
Qed.
#[export] Instance bytes_le_refl : Reflexive bytes_le.
Proof. intros a. rewrite bytes_le_alt. auto. Qed.
#[export] Instance bytes_le_antisymm : AntiSymm (@eq bytes) bytes_le.
Proof.
  intros a b. rewrite !bytes_le_alt.
  intros [?|H1] [?|H2]; subst; auto.
  by destruct (bytes_lt_irrefl a (bytes_lt_trans _ _ _ H1 H2)).
Qed.

Lemma str_leb_le a b : str_leb a b = true <-> bytes_le (to_bytes a) (to_bytes b).
Proof. unfold str_leb, str_ltb, bytes_le. apply negb_true_iff. Qed.
Lemma str_leb_refl a : str_leb a a = true.
Proof. rewrite str_leb_le. reflexivity. Qed.
Lemma str_leb_trans a b c : str_leb a b = true -> str_leb b c = true -> str_leb a c = true.
Proof. rewrite !str_leb_le. apply bytes_le_trans. Qed.
Lemma str_leb_total a b : str_leb a b = true \/ str_leb b a = true.
Proof. rewrite !str_leb_le. apply bytes_le_total. Qed.
Lemma str_leb_antisym a b : str_leb a b = true -> str_leb b a = true -> a = b.
Proof. rewrite !str_leb_le. intros ??. apply to_bytes_inj, (anti_symm bytes_le); done. Qed.
Lemma str_ltb_leb a b : str_ltb a b = negb (str_leb b a).
Proof. unfold str_leb. by rewrite negb_involutive. Qed.
Lemma str_ltb_lt a b : str_ltb a b = true <-> bytes_lt (to_bytes a) (to_bytes b).
Proof. done. Qed.

(** ** [strings.TrimSpace]

    The white space of [unicode.IsSpace]: the ASCII blanks, U+0085, U+00A0,
    U+1680, U+2000-U+200A, U+2028, U+2029, U+202F, U+205F and U+3000, each as
    the bytes of its UTF-8 form. *)
Definition space1 (a : ascii) : bool :=
  let x := byte_val a in ((9 <=? x) && (x <=? 13)) || (x =? 32).
Definition space2 (a b : ascii) : bool :=
  (byte_val a =? 194) && ((byte_val b =? 133) || (byte_val b =? 160)).
Definition space3 (a b c : ascii) : bool :=
  let x := byte_val a in let y := byte_val b in let z := byte_val c in
  ((x =? 225) && (y =? 154) && (z =? 128)) ||
  ((x =? 226) && (y =? 128) && (((128 <=? z) && (z <=? 138)) || (z =? 168) || (z =? 169) || (z =? 175))) ||
  ((x =? 226) && (y =? 129) && (z =? 159)) ||
  ((x =? 227) && (y =? 128) && (z =? 128)).

Section trim.
  Context (two : ascii -> ascii -> bool) (three : ascii -> ascii -> ascii -> bool).

(** Drop white-space runes from the front. *)
Fixpoint trim_front (l : bytes) : bytes :=
    match l with
    | [] => []
    | a :: l1 =>
        if space1 a then trim_front l1 else
        match l1 with
        | [] => l
        | b :: l2 =>
            if two a b then trim_front l2 else
            match l2 with
            | [] => l
            | c :: l3 => if three a b c then trim_front l3 else l
            end
        end
    end.
End trim.

Definition trim_left : bytes -> bytes := trim_front space2 space3.
Definition trim_right (l : bytes) : bytes :=
  rev (trim_front (fun a b => space2 b a) (fun a b c => space3 c b a) (rev l)).
Definition TrimSpace (s : string) : string :=
  of_bytes (trim_right (trim_left (to_bytes s))).

(** [strings.TrimSpace(s) == ""]. *)
Definition blank (s : string) : bool := bool_decide (TrimSpace s = ""%string).

Lemma blank_empty : blank "" = true.
Proof. reflexivity. Qed.
Lemma not_blank_nonempty s : blank s = false -> s <> ""%string.
Proof. by intros H ->. Qed.

(** ** [encoding/hex] *)
Definition hex_digit (v : Z) : ascii :=
  if v <? 10 then byte_of (48 + v) else byte_of (87 + v).
Definition hex_value (c : ascii) : option Z :=
  let x := byte_val c in
  if (48 <=? x) && (x <=? 57) then Some (x - 48)
  else if (97 <=? x) && (x <=? 102) then Some (x - 87)
  else if (65 <=? x) && (x <=? 70) then Some (x - 55)
  else None.

Fixpoint hex_encode_bytes (b : bytes) : bytes :=
  match b with
  | [] => []
  | c :: b' => hex_digit (byte_val c / 16) :: hex_digit (byte_val c mod 16) :: hex_encode_bytes b'
  end.
Fixpoint hex_decode_bytes (b : bytes) : option bytes :=
  match b with
  | [] => Some []
  | [_] => None
  | h :: l :: b' =>
      x ← hex_value h; y ← hex_value l; r ← hex_decode_bytes b'; Some (byte_of (x * 16 + y) :: r)
  end.
(** [hex.EncodeToString] and [hex.DecodeString] (upper case is accepted). *)
Definition hex_encode (b : bytes) : string := of_bytes (hex_encode_bytes b).
Definition hex_decode (s : string) : option bytes := hex_decode_bytes (to_bytes s).

(** A decidable property of the sixteen nibbles is checked by evaluation. *)
Lemma nibble_dec_ind (P : Z -> Prop) `{forall v, Decision (P v)} v :
  forallb (fun v => bool_decide (P v)) (seqZ 0 16) = true -> 0 <= v < 16 -> P v.
Proof.
  rewrite forallb_forall. intros Hall Hv.
  apply (bool_decide_eq_true_1 (P v)), Hall, list_elem_of_In, elem_of_seqZ. lia.
Qed.

Lemma hex_value_digit v : 0 <= v < 16 -> hex_value (hex_digit v) = Some v.
Proof.
  intros H. apply (nibble_dec_ind (fun v => hex_value (hex_digit v) = Some v)); [vm_compute; reflexivity|done].
Qed.

Lemma hex_decode_encode_bytes b : hex_decode_bytes (hex_encode_bytes b) = Some b.
Proof.
  induction b as [|c b IH]; cbn [hex_encode_bytes hex_decode_bytes]; [done|].
  pose proof (byte_val_range c).
  pose proof (Z.mod_pos_bound (byte_val c) 16 ltac:(lia)).
  assert (0 <= byte_val c / 16 < 16) by (split; [apply Z.div_pos; lia|apply Z.div_lt_upper_bound; lia]).
  rewrite !hex_value_digit, IH by lia. cbn.
  rewrite Z.mul_comm, <- Z.div_mod, byte_of_val by lia. done.
Qed.

Lemma hex_decode_encode b : hex_decode (hex_encode b) = Some b.
Proof. unfold hex_decode, hex_encode. rewrite to_of_bytes. apply hex_decode_encode_bytes. Qed.
Lemma hex_encode_inj a b : hex_encode a = hex_encode b -> a = b.
Proof. intros H. enough (Some a = Some b) by congruence. by rewrite <- !hex_decode_encode, H. Qed.
Lemma length_hex_encode b : String.length (hex_encode b) = (2 * length b)%nat.
Proof.
  unfold hex_encode. rewrite length_of_bytes.
  induction b as [|c b IH]; [done|]. cbn [hex_encode_bytes length]. rewrite IH. lia.
Qed.

(** A lower-case hexadecimal digit. *)
Definition lower_hex (c : ascii) : bool :=
  let x := byte_val c in ((48 <=? x) && (x <=? 57)) || ((97 <=? x) && (x <=? 102)).
(** [strings.ToLower] on the bytes the gateway applies it to: the callers
    compare the result with the argument and require hexadecimal digits, so
    only the ASCII letters matter. *)
Definition to_lower_byte (c : ascii) : ascii :=
  let x := byte_val c in if (65 <=? x) && (x <=? 90) then byte_of (x + 32) else c.
Definition ToLower (s : string) : string := of_bytes (map to_lower_byte (to_bytes s)).

(** The idiom [len(v) == 64 && strings.ToLower(v) == v && hex.DecodeString(v)
    succeeds], used by [validDigest], [isSHA256] and [validateHash]. *)
Definition valid_sha256_text (v : string) : bool :=
  negb (negb (str_len v =? 64) || negb (bool_decide (ToLower v = v))) &&
  match hex_decode v with Some _ => true | None => false end.

Lemma hex_digit_lower v : 0 <= v < 16 -> lower_hex (hex_digit v) = true.
Proof.
  intros H. apply (nibble_dec_ind (fun v => lower_hex (hex_digit v) = true)); [vm_compute; reflexivity|done].
Qed.
Lemma lower_hex_fixed c : lower_hex c = true -> to_lower_byte c = c.
Proof.
  unfold lower_hex, to_lower_byte. intros H.
  destruct ((65 <=? byte_val c) && (byte_val c <=? 90)) eqn:E; [lia|done].
Qed.
Lemma hex_encode_bytes_lower b : Forall (fun c => lower_hex c = true) (hex_encode_bytes b).
Proof.
  induction b as [|c b IH]; cbn [hex_encode_bytes]; [constructor|].
  pose proof (byte_val_range c).
  repeat constructor; [| |done]; apply hex_digit_lower.
  - split; [apply Z.div_pos; lia|apply Z.div_lt_upper_bound; lia].
  - apply Z.mod_pos_bound; lia.
Qed.
Lemma ToLower_hex b : ToLower (hex_encode b) = hex_encode b.
Proof.
  unfold ToLower, hex_encode. rewrite to_of_bytes. f_equal.
  induction (hex_encode_bytes_lower b) as [|c l Hc Hl IH]; [done|].
  cbn. by rewrite lower_hex_fixed, IH.
Qed.
Lemma valid_sha256_text_encode b : length b = 32%nat -> valid_sha256_text (hex_encode b) = true.
Proof.
  intros Hb. unfold valid_sha256_text, str_len.
  rewrite length_hex_encode, Hb, ToLower_hex, hex_decode_encode.
  by rewrite bool_decide_eq_true_2.
Qed.

(** ** [encoding/binary]: big-endian integers *)
Fixpoint be_bytes (n : nat) (v : Z) : bytes :=
  match n with
  | O => []
  | S n' => byte_of (v / 2 ^ (8 * Z.of_nat n')) :: be_bytes n' v
  end.
Definition be_uint16 := be_bytes 2.
Definition be_uint32 := be_bytes 4.
Definition be_uint64 := be_bytes 8.

Fixpoint be_value_acc (acc : Z) (b : bytes) : Z :=
  match b with [] => acc | c :: b' => be_value_acc (acc * 256 + byte_val c) b' end.
Definition be_value : bytes -> Z := be_value_acc 0.

Lemma length_be_bytes n v : length (be_bytes n v) = n.
Proof. induction n; cbn; auto. Qed.

Lemma be_value_acc_bytes n acc v :
  be_value_acc acc (be_bytes n v) = acc * 2 ^ (8 * Z.of_nat n) + v mod 2 ^ (8 * Z.of_nat n).
Proof.
  revert acc; induction n as [|n IH]; intros acc; cbn [be_bytes be_value_acc].
  { change (8 * Z.of_nat 0) with 0. rewrite Z.pow_0_r, Z.mod_1_r. lia. }
  rewrite IH, byte_val_of.
  replace (8 * Z.of_nat (S n)) with (8 * Z.of_nat n + 8) by lia.
  rewrite Z.pow_add_r by lia. change (2 ^ 8) with 256.
  set (p := 2 ^ (8 * Z.of_nat n)). assert (0 < p) by (apply Z.pow_pos_nonneg; lia).
  rewrite (Z.rem_mul_r v p 256) by lia. lia.
Qed.

Lemma be_value_bytes n v : 0 <= v < 2 ^ (8 * Z.of_nat n) -> be_value (be_bytes n v) = v.
Proof. intros H. unfold be_value. rewrite be_value_acc_bytes, Z.mod_small by done. lia. Qed.

Lemma be_bytes_inj n v w :
  0 <= v < 2 ^ (8 * Z.of_nat n) -> 0 <= w < 2 ^ (8 * Z.of_nat n) ->
  be_bytes n v = be_bytes n w -> v = w.
Proof. intros Hv Hw H. by rewrite <- (be_value_bytes n v), H, be_value_bytes. Qed.

(** Length-prefixed fields: [uint64(len)] big-endian, then the bytes. *)
Definition be_field (b : bytes) : bytes := be_uint64 (bytes_len b) ++ b.
Definition be_string (s : string) : bytes := be_field (to_bytes s).

(** A Go length is an [int]. *)
Definition go_bytes (b : bytes) : Prop := bytes_len b <= max_int64.
Definition go_string (s : string) : Prop := str_len s <= max_int64.

Lemma go_string_bytes s : go_string s -> go_bytes (to_bytes s).
Proof. unfold go_string, go_bytes, str_len, bytes_len. by rewrite length_to_bytes. Qed.

Lemma app_inj_len {A} (a b x y : list A) :
  length a = length b -> a ++ x = b ++ y -> a = b /\ x = y.
Proof. intros; by apply app_inj_1. Qed.

Lemma be_bytes_app_inj n v w x y :
  0 <= v < 2 ^ (8 * Z.of_nat n) -> 0 <= w < 2 ^ (8 * Z.of_nat n) ->
  be_bytes n v ++ x = be_bytes n w ++ y -> v = w /\ x = y.
Proof.
  intros Hv Hw H. apply app_inj_len in H as [H ?]; [|by rewrite !length_be_bytes].
  apply be_bytes_inj in H; auto.
Qed.

(** A length-prefixed field is self-delimiting. *)
Lemma be_field_inj a b x y :
  go_bytes a -> go_bytes b -> be_field a ++ x = be_field b ++ y -> a = b /\ x = y.
Proof.
  unfold be_field, go_bytes, max_int64. rewrite <- !app_assoc. intros Ha Hb H.
  apply be_bytes_app_inj in H as [Hl H]; [|unfold bytes_len in *; lia..].
  apply app_inj_len; [|done]. unfold bytes_len in Hl. lia.
Qed.

Lemma be_string_inj s t x y :
  go_string s -> go_string t -> be_string s ++ x = be_string t ++ y -> s = t /\ x = y.
Proof.
  intros Hs Ht H. apply be_field_inj in H as [H ?]; [|by apply go_string_bytes..].
  by apply to_bytes_inj in H.
Qed.

Lemma be_string_inj1 s t : go_string s -> go_string t -> be_string s = be_string t -> s = t.
Proof.
  intros Hs Ht H. apply (be_string_inj s t [] []); [done..|]. by rewrite !app_nil_r.
Qed.
Lemma be_bytes_inj_app_nil n v w x :
  0 <= v < 2 ^ (8 * Z.of_nat n) -> 0 <= w < 2 ^ (8 * Z.of_nat n) ->
  be_bytes n v = be_bytes n w ++ x -> v = w.
Proof. intros Hv Hw H. rewrite <- (app_nil_r (be_bytes n v)) in H. by apply be_bytes_app_inj in H as [? _]. Qed.
