(* ===== verification/Ordering.v ===== *)
(** * Comparison and sorting

    [sort.Slice] with a lexicographic [less] occurs all over the gateway.  A
    key type is given a three-way comparison with three laws; lexicographic
    products and injective images inherit them, and every sorting lemma is
    proved once, for the class. *)

From S2P Require Import Prelude GoBytes.

Class Compare (A : Type) := compare : A -> A -> comparison.

Class CompareLaws (A : Type) `{!Compare A} : Prop := {
  compare_eq (a b : A) : compare a b = Eq <-> a = b;
  compare_antisym (a b : A) : compare b a = CompOpp (compare a b);
  compare_trans (a b c : A) : compare a b = Lt -> compare b c = Lt -> compare a c = Lt;
}.

(** ** Instances *)
#[export] Instance Z_compare : Compare Z := Z.compare.
#[export] Instance Z_compare_laws : CompareLaws Z.
Proof.
  split; unfold compare, Z_compare; intros.
  - apply Z.compare_eq_iff.
  - apply Z.compare_antisym.
  - rewrite Z.compare_lt_iff in *. lia.
Qed.

#[export] Instance bytes_Compare : Compare bytes := bytes_compare.
#[export] Instance bytes_compare_laws : CompareLaws bytes.
Proof.
  split; unfold compare, bytes_Compare.
  - apply bytes_compare_eq.
  - apply bytes_compare_antisym.
  - intros a b c H1 H2. pose proof (bytes_lt_trans a b c) as H.
    unfold bytes_lt, bytes_ltb in H. rewrite H1, H2 in H.
    by destruct (bytes_compare a c); (reflexivity || discriminate (H eq_refl eq_refl)).
Qed.

(** Comparing through an injective image. *)
Definition compare_on {A B} `{Compare B} (f : A -> B) : A -> A -> comparison :=
  fun a b => compare (f a) (f b).
Lemma compare_on_laws {A B} `{!Compare B, !CompareLaws B} (f : A -> B) :
  (forall a b, f a = f b -> a = b) -> @CompareLaws A (compare_on f).
Proof.
  intros Hinj. split; unfold compare, compare_on; intros.
  - rewrite compare_eq. split; [apply Hinj|congruence].
  - apply compare_antisym.
  - by eapply compare_trans.
Qed.

#[export] Instance string_compare : Compare string := compare_on to_bytes.
#[export] Instance string_compare_laws : CompareLaws string.
Proof. apply compare_on_laws, to_bytes_inj. Qed.

(** The lexicographic product: the second component decides a tie. *)
#[export] Instance prod_compare {A B} `{Compare A, Compare B} : Compare (A * B) :=
  fun a b => match compare a.1 b.1 with Eq => compare a.2 b.2 | c => c end.
#[export] Instance prod_compare_laws {A B} `{!Compare A, !CompareLaws A, !Compare B, !CompareLaws B} :
  CompareLaws (A * B).
Proof.
  split; unfold compare, prod_compare.
  - intros [a b] [c d]; cbn. destruct (compare a c) eqn:E; [|split; [done|]..].
    + apply compare_eq in E as ->. rewrite compare_eq. naive_solver.
    + intros [= -> ->]. by rewrite (proj2 (compare_eq c c) eq_refl) in E.
    + intros [= -> ->]. by rewrite (proj2 (compare_eq c c) eq_refl) in E.
  - intros [a b] [c d]; cbn. rewrite (compare_antisym a c).
    destruct (compare a c); cbn; [apply compare_antisym|done..].
  - intros [a1 a2] [b1 b2] [c1 c2]; cbn.
    destruct (compare a1 b1) eqn:E1, (compare b1 c1) eqn:E2; try done.
    + apply compare_eq in E1 as ->, E2 as ->.
      rewrite (proj2 (compare_eq c1 c1) eq_refl). apply compare_trans.
    + apply compare_eq in E1 as ->. by rewrite E2.
    + apply compare_eq in E2 as ->. by rewrite E1.
    + by rewrite (compare_trans _ _ _ E1 E2).
Qed.

(** ** The orders *)
Section orders.
Context {A : Type} `{!Compare A, !CompareLaws A}.

Definition clt (a b : A) : Prop := compare a b = Lt.
Definition cle (a b : A) : Prop := compare a b <> Gt.

#[export] Instance clt_dec : RelDecision clt.
Proof. intros a b. unfold clt. apply _. Defined.
#[export] Instance cle_dec : RelDecision cle.
Proof. intros a b. unfold cle. apply _. Defined.

Lemma clt_irrefl a : ~ clt a a.
Proof. unfold clt. by rewrite (proj2 (compare_eq a a) eq_refl). Qed.
Lemma clt_trans a b c : clt a b -> clt b c -> clt a c.
Proof. apply compare_trans. Qed.
Lemma cle_alt a b : cle a b <-> a = b \/ clt a b.
Proof. unfold cle, clt. rewrite <- compare_eq. destruct (compare a b); naive_solver. Qed.
Lemma clt_total a b : clt a b \/ a = b \/ clt b a.
Proof.
  unfold clt. rewrite (compare_antisym a b), <- (compare_eq a b). destruct (compare a b); cbn; auto.
Qed.
Lemma clt_not_cle a b : clt a b <-> ~ cle b a.
Proof. unfold clt, cle. rewrite (compare_antisym a b). destruct (compare a b); naive_solver. Qed.

#[export] Instance cle_total : Total cle.
Proof.
  intros a b. rewrite !cle_alt. destruct (clt_total a b) as [?|[->|?]]; auto.
Qed.
#[export] Instance cle_trans : Transitive cle.
Proof.
  intros a b c. rewrite !cle_alt. intros [->|H1] [->|H2]; auto. right. by eapply clt_trans.
Qed.
#[export] Instance cle_antisymm : AntiSymm (=) cle.
Proof.
  intros a b. rewrite !cle_alt. intros [?|H1] [?|H2]; auto.
  destruct (clt_irrefl a). by eapply clt_trans.
Qed.
#[export] Instance cle_refl : Reflexive cle.
Proof. intros a. rewrite cle_alt. by left. Qed.

(** [sort.Slice(xs, less)] where [less] is the strict order. *)
Definition go_sort (l : list A) : list A := merge_sort cle l.

Lemma go_sort_perm l : go_sort l ≡ₚ l.
Proof. apply merge_sort_Permutation. Qed.
Lemma go_sort_sorted l : StronglySorted cle (go_sort l).
Proof. apply Sorted_StronglySorted; [apply _|]. apply Sorted_merge_sort, _. Qed.
Lemma elem_go_sort x l : x ∈ go_sort l <-> x ∈ l.
Proof. by rewrite go_sort_perm. Qed.

Lemma strict_of_nodup l : NoDup l -> StronglySorted cle l -> StronglySorted clt l.
Proof.
  induction 2 as [|a l Hs IH Ha]; [constructor|]. inversion_clear H as [|?? Hn Hd].
  constructor; [by apply IH|]. rewrite Forall_forall in *. intros x Hx.
  destruct (proj1 (cle_alt a x) (Ha x Hx)) as [->|?]; done.
Qed.
Lemma nodup_of_strict l : StronglySorted clt l -> NoDup l.
Proof.
  induction 1 as [|a l Hs IH Ha]; constructor; [|done].
  rewrite Forall_forall in Ha. intros Hin. by apply (clt_irrefl a), Ha.
Qed.
Lemma strict_sorted l : StronglySorted clt l -> StronglySorted cle l.
Proof.
  induction 1 as [|a l Hs IH Ha]; constructor; [done|]. eapply Forall_impl; [exact Ha|].
  intros. apply cle_alt. by right.
Qed.
Lemma go_sort_strict l : NoDup l -> StronglySorted clt (go_sort l).
Proof. intros. apply strict_of_nodup; [by rewrite go_sort_perm|apply go_sort_sorted]. Qed.

(** A sorted slice is a fixed point, so sorting is idempotent and the order of
    the input does not matter. *)
Lemma go_sort_unique l k : StronglySorted cle k -> k ≡ₚ l -> go_sort l = k.
Proof.
  intros Hk Hp. apply (StronglySorted_unique cle); [apply go_sort_sorted|done|].
  by rewrite go_sort_perm.
Qed.
Lemma go_sort_id l : StronglySorted cle l -> go_sort l = l.
Proof. intros. by apply go_sort_unique. Qed.
Lemma go_sort_proper l k : l ≡ₚ k -> go_sort l = go_sort k.
Proof. intros H. apply go_sort_unique; [apply go_sort_sorted|]. by rewrite go_sort_perm. Qed.

(** Strictly sorted lists with the same elements are equal. *)
Lemma strict_sorted_ext l k :
  StronglySorted clt l -> StronglySorted clt k -> (forall x, x ∈ l <-> x ∈ k) -> l = k.
Proof. apply strongly_sorted_ext; [apply clt_irrefl|apply clt_trans]. Qed.
End orders.

#[export] Hint Resolve go_sort_sorted clt_irrefl : core.
#[export] Instance go_sort_Proper {A} `{!Compare A, !CompareLaws A} : Proper ((≡ₚ) ==> (=)) (go_sort (A := A)).
Proof. intros l k. apply go_sort_proper. Qed.
