(* ===== verification/Sha256.v ===== *)
(** * SHA-256

    The standard library's [crypto/sha256] as an executable function on bytes
    (FIPS 180-4).  The components compute real digests with it: their theorems
    never assume that two inputs with one digest are equal, they exhibit the
    two inputs instead. *)

From S2P Require Import Prelude GoBytes.

Module Sha256.

Definition mask32 : Z := 0xffffffff.
Definition add32 (a b : Z) : Z := Z.land (a + b) mask32.
Definition rotr (x n : Z) : Z :=
  Z.lor (Z.shiftr x n) (Z.land (Z.shiftl x (32 - n)) mask32).
Definition bsig0 x := Z.lxor (Z.lxor (rotr x 2) (rotr x 13)) (rotr x 22).
Definition bsig1 x := Z.lxor (Z.lxor (rotr x 6) (rotr x 11)) (rotr x 25).
Definition ssig0 x := Z.lxor (Z.lxor (rotr x 7) (rotr x 18)) (Z.shiftr x 3).
Definition ssig1 x := Z.lxor (Z.lxor (rotr x 17) (rotr x 19)) (Z.shiftr x 10).
Definition ch x y z := Z.lxor (Z.land x y) (Z.land (Z.lxor x mask32) z).
Definition maj x y z := Z.lxor (Z.lxor (Z.land x y) (Z.land x z)) (Z.land y z).

(** The constants are computed as the standard defines them: the first 32 bits
    of the fractional parts of the cube roots (rounds) and square roots
    (initial state) of the first primes. *)
Definition is_prime (n : Z) : bool :=
  (1 <? n) && forallb (fun d => negb (n mod d =? 0)) (seqZ 2 (Z.sqrt n - 1)).
Definition primes_below (n : Z) : list Z := filter (fun p => is_prime p = true) (seqZ 0 n).

(** Largest [r] with [r^3 <= n], one bit at a time from bit [k-1] down. *)
Fixpoint cube_root (k : nat) (r n : Z) : Z :=
  match k with
  | O => r
  | S k' => let r' := r + 2 ^ Z.of_nat k' in
            cube_root k' (if r' ^ 3 <=? n then r' else r) n
  end.

(** 311 is the 64th prime, 19 the eighth; the roots are below 2^36. *)
Definition round_constants : list Z :=
  Eval vm_compute in
  map (fun p => Z.land (cube_root 36 0 (p * 2 ^ 96)) mask32) (primes_below 312).

Record state := State { sa : Z; sb : Z; sc : Z; sd : Z; se : Z; sf : Z; sg : Z; sh : Z }.

Definition initial : state :=
  Eval vm_compute in
  match map (fun p => Z.land (Z.sqrt (p * 2 ^ 64)) mask32) (primes_below 20) with
  | [a; b; c; d; e; f; g; h] => State a b c d e f g h
  | _ => State 0 0 0 0 0 0 0 0
  end.

Definition round (s : state) (k w : Z) : state :=
  let t1 := add32 (add32 (add32 (sh s) (bsig1 (se s))) (ch (se s) (sf s) (sg s))) (add32 k w) in
  let t2 := add32 (bsig0 (sa s)) (maj (sa s) (sb s) (sc s)) in
  State (add32 t1 t2) (sa s) (sb s) (sc s) (add32 (sd s) t1) (se s) (sf s) (sg s).

(** The message schedule is kept as a window of sixteen words. *)
Definition next_word (w : list Z) : Z :=
  add32 (add32 (ssig1 (nth 14 w 0)) (nth 9 w 0)) (add32 (ssig0 (nth 1 w 0)) (nth 0 w 0)).

Fixpoint rounds (ks : list Z) (w : list Z) (s : state) : state :=
  match ks with
  | [] => s
  | k :: ks' => rounds ks' (tail w ++ [next_word w]) (round s k (nth 0 w 0))
  end.

Definition compress (s : state) (w : list Z) : state :=
  let r := rounds round_constants w s in
  State (add32 (sa s) (sa r)) (add32 (sb s) (sb r)) (add32 (sc s) (sc r)) (add32 (sd s) (sd r))
        (add32 (se s) (se r)) (add32 (sf s) (sf r)) (add32 (sg s) (sg r)) (add32 (sh s) (sh r)).

Fixpoint words (n : nat) (b : bytes) : list Z :=
  match n with O => [] | S n' => be_value (take 4 b) :: words n' (drop 4 b) end.

Fixpoint blocks (n : nat) (b : bytes) (s : state) : state :=
  match n with O => s | S n' => blocks n' (drop 64 b) (compress s (words 16 (take 64 b))) end.

Definition pad (m : bytes) : bytes :=
  let zeros := Z.to_nat ((55 - bytes_len m) mod 64) in
  m ++ byte_of 128 :: replicate zeros (byte_of 0) ++ be_uint64 (8 * bytes_len m).

Definition Sum256 (m : bytes) : bytes :=
  let p := pad m in
  let s := blocks (length p / 64) p initial in
  be_uint32 (sa s) ++ be_uint32 (sb s) ++ be_uint32 (sc s) ++ be_uint32 (sd s) ++
  be_uint32 (se s) ++ be_uint32 (sf s) ++ be_uint32 (sg s) ++ be_uint32 (sh s).

(** [hex.EncodeToString(sha256.Sum256(m))]. *)
Definition hex_sum (m : bytes) : string := hex_encode (Sum256 m).

Arguments Sum256 : simpl never.
Arguments hex_sum : simpl never.

Lemma length_Sum256 m : length (Sum256 m) = 32%nat.
Proof.
  unfold Sum256. cbv zeta. set (s := blocks _ _ _). clearbody s.
  by rewrite !length_app; unfold be_uint32; rewrite !length_be_bytes.
Qed.

Lemma hex_sum_inj a b : hex_sum a = hex_sum b -> Sum256 a = Sum256 b.
Proof. apply hex_encode_inj. Qed.

Lemma hex_sum_valid m : valid_sha256_text (hex_sum m) = true.
Proof. apply valid_sha256_text_encode, length_Sum256. Qed.

(** A known collision: two of the byte strings hashed, one of each list. *)
Definition collides (xs ys : list bytes) : Prop :=
  exists x y, x ∈ xs /\ y ∈ ys /\ x <> y /\ Sum256 x = Sum256 y.

Lemma collides_hex x y : x <> y -> hex_sum x = hex_sum y -> collides [x] [y].
Proof. intros Hne H%hex_sum_inj. exists x, y. split; [by left|]. by split; [left|]. Qed.

Lemma collides_sub xs ys xs' ys' : xs ⊆ xs' -> ys ⊆ ys' -> collides xs ys -> collides xs' ys'.
Proof. intros Hx Hy (x & y & ? & ? & ?). exists x, y. auto. Qed.

Lemma collides_sym xs ys : collides xs ys -> collides ys xs.
Proof. intros (x & y & ? & ? & ? & ?). exists y, x. auto. Qed.

Lemma hex_sum_eq x y : hex_sum x = hex_sum y -> x = y \/ collides [x] [y].
Proof. intros H. destruct (decide (x = y)); [by left|right; by apply collides_hex]. Qed.

(** The padded message is a whole number of blocks, so no byte is dropped. *)
Lemma pad_blocks m : length (pad m) = (64 * (length (pad m) / 64))%nat.
Proof.
  unfold pad. rewrite length_app. cbn [length]. rewrite length_app, length_replicate.
  unfold be_uint64. rewrite length_be_bytes. unfold bytes_len.
  pose proof (Z.mod_pos_bound (55 - Z.of_nat (length m)) 64 ltac:(lia)) as Hb.
  set (n := length m) in *. set (z := (55 - Z.of_nat n) mod 64) in *.
  pose proof (Z.div_mod (55 - Z.of_nat n) 64 ltac:(lia)) as Hd. fold z in Hd.
  set (q := (55 - Z.of_nat n) / 64) in *.
  replace (n + S (Z.to_nat z + 8))%nat with (Z.to_nat (1 - q) * 64)%nat by lia.
  rewrite Nat.div_mul by lia. lia.
Qed.

(** Test vectors of FIPS 180-4. *)
Example sum_abc :
  hex_sum (to_bytes "abc") = "ba7816bf8f01cfea414140de5dae2223b00361a396177a9cb410ff61f20015ad"%string.
Proof. vm_compute. reflexivity. Qed.
Example sum_two_blocks :
  hex_sum (to_bytes "abcdbcdecdefdefgefghfghighijhijkijkljklmklmnlmnomnopnopq") =
  "248d6a61d20638b8e5c026930c3e6039a33ce45964ff2167f6ecedd419db06c1"%string.
Proof. vm_compute. reflexivity. Qed.

End Sha256.
