(* ===== verification/GoText.v ===== *)
(** * Go text functions

    [strings.Fields], [strings.ToLower] as far as it can reach ASCII,
    [unicode/utf8] and the string and object encoding of [encoding/json], as
    the exposure and audit packages use them. *)

From stdpp Require Import pretty.
From S2P Require Import Prelude GoBytes.

Module GoText.

(** ** [strings.Fields] *)
Definition flush_word (cur : bytes) (rest : list bytes) : list bytes :=
  match cur with [] => rest | _ => rev cur :: rest end.

Fixpoint fields_from (cur : bytes) (l : bytes) : list bytes :=
  match l with
  | [] => flush_word cur []
  | a :: l1 =>
      if space1 a then flush_word cur (fields_from [] l1) else
      match l1 with
      | [] => flush_word (a :: cur) []
      | b :: l2 =>
          if space2 a b then flush_word cur (fields_from [] l2) else
          match l2 with
          | [] => fields_from (a :: cur) l1
          | c :: l3 => if space3 a b c then flush_word cur (fields_from [] l3) else fields_from (a :: cur) l1
          end
      end
  end.
Definition Fields (s : string) : list string := map of_bytes (fields_from [] (to_bytes s)).

(** [strings.Join]. *)
Fixpoint Join (words : list string) (sep : string) : string :=
  match words with
  | [] => ""
  | [w] => w
  | w :: rest => w +:+ sep +:+ Join rest sep
  end.

(** [strings.ToLower]: ASCII letters, and the two other runes whose lower case
    is ASCII, U+0130 (to [i]) and U+212A (to [k]).  Further runes map to
    non-ASCII runes and are left alone here.  The callers compare the result with
    ASCII constants, which decides alike, but for the aggregate of a relational
    plan, which is looked up in the functions its product permits: those are
    taken to be ASCII. *)
Fixpoint lower_bytes (l : bytes) : bytes :=
  match l with
  | [] => []
  | a :: l1 =>
      match l1 with
      | b :: l2 =>
          if (byte_val a =? 196) && (byte_val b =? 176) then "i"%char :: lower_bytes l2
          else match l2 with
               | c :: l3 =>
                   if (byte_val a =? 226) && (byte_val b =? 132) && (byte_val c =? 170) then "k"%char :: lower_bytes l3
                   else to_lower_byte a :: lower_bytes l1
               | [] => to_lower_byte a :: lower_bytes l1
               end
      | [] => to_lower_byte a :: lower_bytes l1
      end
  end.
Definition LowerText (s : string) : string := of_bytes (lower_bytes (to_bytes s)).

(** ** UTF-8: the size of the valid rune a byte sequence starts with *)
Definition continuation (c : ascii) : bool := (128 <=? byte_val c) && (byte_val c <=? 191).
Definition rune_size (l : bytes) : option nat :=
  match l with
  | [] => None
  | a :: r =>
      let x := byte_val a in
      if x <? 128 then Some 1%nat
      else match r with
      | [] => None
      | b :: r2 =>
          let y := byte_val b in
          if (194 <=? x) && (x <=? 223) then (if continuation b then Some 2%nat else None)
          else match r2 with
          | [] => None
          | c :: r3 =>
              if (224 <=? x) && (x <=? 239) then
                let lo := if x =? 224 then 160 else 128 in
                let hi := if x =? 237 then 159 else 191 in
                if (lo <=? y) && (y <=? hi) && continuation c then Some 3%nat else None
              else match r3 with
              | [] => None
              | d :: _ =>
                  if (240 <=? x) && (x <=? 244) then
                    let lo := if x =? 240 then 144 else 128 in
                    let hi := if x =? 244 then 143 else 191 in
                    if (lo <=? y) && (y <=? hi) && continuation c && continuation d then Some 4%nat else None
                  else None
              end
          end
      end
  end.

Fixpoint valid_utf8 (fuel : nat) (l : bytes) : bool :=
  match l, fuel with
  | [], _ => true
  | _, O => false
  | _, S fuel' => match rune_size l with Some n => valid_utf8 fuel' (drop n l) | None => false end
  end.
Definition ValidString (s : string) : bool := valid_utf8 (String.length s) (to_bytes s).

(** ** [encoding/json]: strings, with HTML escaping, and integers *)
Definition json_u00 (c : ascii) : bytes :=
  to_bytes "\u00" ++ [hex_digit (byte_val c / 16); hex_digit (byte_val c mod 16)].
Definition json_ascii (c : ascii) : bytes :=
  let x := byte_val c in
  if (x =? 92) || (x =? 34) then ["\"%char; c]
  else if x =? 8 then to_bytes "\b" else if x =? 12 then to_bytes "\f"
  else if x =? 10 then to_bytes "\n" else if x =? 13 then to_bytes "\r" else if x =? 9 then to_bytes "\t"
  else if (x <? 32) || (x =? 60) || (x =? 62) || (x =? 38) then json_u00 c
  else [c].

Fixpoint json_chars (fuel : nat) (l : bytes) : bytes :=
  match l, fuel with
  | [], _ => []
  | _, O => []
  | a :: rest, S fuel' =>
      if byte_val a <? 128 then json_ascii a ++ json_chars fuel' rest
      else match rune_size l with
           | None => to_bytes "\ufffd" ++ json_chars fuel' rest
           | Some n =>
               let rune := take n l in
               (if bool_decide (map byte_val rune = [226; 128; 168]) then to_bytes "\u2028"
                else if bool_decide (map byte_val rune = [226; 128; 169]) then to_bytes "\u2029"
                else rune) ++ json_chars fuel' (drop n l)
           end
  end.
Definition quote : ascii := ascii_of_nat 34.
Definition json_string (s : string) : bytes := quote :: json_chars (String.length s) (to_bytes s) ++ [quote].

Definition format_int (z : Z) : string := pretty z.
Definition json_int (z : Z) : bytes := to_bytes (format_int z).

(** A struct with [omitempty] fields: only the present ones are written. *)
Definition json_member (kv : string * bytes) : bytes := json_string kv.1 ++ [":"%char] ++ kv.2.
Fixpoint json_join (items : list bytes) : bytes :=
  match items with
  | [] => []
  | [x] => x
  | x :: rest => x ++ [","%char] ++ json_join rest
  end.
Definition json_object (fields : list (string * option bytes)) : bytes :=
  ["{"%char] ++ json_join (map json_member (omap (fun f => v ← f.2; Some (f.1, v)) fields)) ++ ["}"%char].
Definition json_array (items : list bytes) : bytes := ["["%char] ++ json_join items ++ ["]"%char].

Definition omit_string (s : string) : option bytes := if bool_decide (s = "") then None else Some (json_string s).
Definition omit_int (z : Z) : option bytes := if z =? 0 then None else Some (json_int z).

Example json_escapes :
  of_bytes (json_string (of_bytes (map byte_of [97; 34; 60; 10; 1; 195; 169; 255; 226; 128; 168]))) =
  of_bytes (map byte_of [34; 97; 92; 34; 92; 117; 48; 48; 51; 99; 92; 110; 92; 117; 48; 48; 48; 49; 195; 169;
    92; 117; 102; 102; 102; 100; 92; 117; 50; 48; 50; 56; 34]).
Proof. vm_compute. reflexivity. Qed.
Example fields_words : Fields (of_bytes (map byte_of [32; 97; 98; 194; 160; 99; 10])) = ["ab"; "c"].
Proof. vm_compute. reflexivity. Qed.
Example format_negative : format_int (-105) = "-105".
Proof. vm_compute. reflexivity. Qed.

(** The fuel is the length, which no rune exceeds. *)
Lemma json_chars_fuel n m l : (length l <= n)%nat -> (length l <= m)%nat -> json_chars n l = json_chars m l.
Proof.
  revert m l; induction n as [|n IH]; intros [|m] [|a l] Hn Hm; cbn [length] in *; try lia; try done.
  cbn [json_chars]. destruct (byte_val a <? 128); [f_equal; apply IH; lia|].
  destruct (rune_size (a :: l)) as [k|] eqn:E; [|f_equal; apply IH; lia].
  assert (Hk : (1 <= k)%nat).
  { revert E. unfold rune_size. repeat case_match; intros [= <-]; lia. }
  f_equal. apply IH; rewrite length_drop; cbn [length]; lia.
Qed.
(** ** Injectivity of the encoding of plain text *)
(** A byte JSON writes as it is. *)
Definition plain_byte (c : ascii) : bool :=
  let x := byte_val c in
  (32 <=? x) && (x <? 127) && negb ((x =? 34) || (x =? 92) || (x =? 60) || (x =? 62) || (x =? 38)).
Definition plain (s : string) : Prop := Forall (fun c => plain_byte c = true) (to_bytes s).

Lemma plain_chars n l : (length l <= n)%nat -> Forall (fun c => plain_byte c = true) l -> json_chars n l = l.
Proof.
  revert l; induction n as [|n IH]; intros [|c l] Hn Hl; cbn [length] in Hn; [done|lia|done|].
  apply Forall_cons in Hl as [Hc Hl]. cbn [json_chars]. unfold plain_byte in Hc. rewrite !andb_true_iff, negb_true_iff in Hc.
  destruct Hc as [[H1%Z.leb_le H2%Z.ltb_lt] H3]. rewrite !orb_false_iff, !Z.eqb_neq in H3.
  rewrite (proj2 (Z.ltb_lt (byte_val c) 128)) by lia. rewrite IH by (done || lia).
  unfold json_ascii. cbv zeta. repeat (case_match; [lia|]). done.
Qed.

Lemma plain_json s : plain s -> json_string s = quote :: to_bytes s ++ [quote].
Proof. intros Hs. unfold json_string. rewrite plain_chars; [done|by rewrite length_to_bytes|done]. Qed.

Lemma quoted_inj a b x y : Forall (fun c => plain_byte c = true) a -> Forall (fun c => plain_byte c = true) b ->
  a ++ quote :: x = b ++ quote :: y -> a = b /\ x = y.
Proof.
  assert (Hq : plain_byte quote = false) by reflexivity.
  intros Ha; revert b; induction Ha as [|c a Hc _ IH]; intros b Hb E; destruct Hb as [|d b Hd Hb]; cbn in E;
    injection E; intros; subst; try congruence; [done|].
  destruct (IH b Hb) as [-> ->]; done.
Qed.

Lemma json_string_inj s t x y : plain s -> plain t -> json_string s ++ x = json_string t ++ y -> s = t /\ x = y.
Proof.
  intros Hs Ht. rewrite !plain_json by done. cbn [app]. rewrite <- !app_assoc. cbn [app]. intros [= E].
  apply quoted_inj in E as [E ->]; [|done..]. split; [by apply to_bytes_inj|done].
Qed.

Lemma lower_hex_plain c : lower_hex c = true -> plain_byte c = true.
Proof. unfold lower_hex, plain_byte. lia. Qed.

Lemma hex_decoded_plain n l b : (length l <= n)%nat -> hex_decode_bytes l = Some b -> Forall (fun c => plain_byte c = true) l.
Proof.
  assert (Hv : forall c v, hex_value c = Some v -> plain_byte c = true).
  { intros c v. unfold hex_value, plain_byte. cbv zeta. pose proof (byte_val_range c). repeat case_match; try done; intros _; lia. }
  revert l b; induction n as [|n IH]; intros l b Hn E; [by destruct l; [constructor|cbn in Hn; lia]|].
  destruct l as [|h [|l r]]; [constructor|done|]. cbn [hex_decode_bytes] in E.
  apply bind_Some in E as (x & Hx & E). apply bind_Some in E as (y & Hy & E). apply bind_Some in E as (z & Hz & _).
  constructor; [by eapply Hv|]. constructor; [by eapply Hv|]. apply (IH r z); [cbn in Hn; lia|done].
Qed.

Lemma sha256_text_plain d : valid_sha256_text d = true -> plain d.
Proof.
  unfold valid_sha256_text. intros [_ H]%andb_true_iff. destruct (hex_decode d) as [b|] eqn:E; [|done].
  by apply (hex_decoded_plain _ _ b (Nat.le_refl _)).
Qed.

(** Text without blanks is trimmed. *)
Definition visible (c : ascii) : bool := (32 <? byte_val c) && (byte_val c <? 128).

Lemma trim_front_visible two three c l : visible c = true ->
  (forall b, two c b = false) -> (forall b d, three c b d = false) -> trim_front two three (c :: l) = c :: l.
Proof.
  intros Hc H2 H3. unfold visible in Hc. assert (Hs : space1 c = false) by (unfold space1; cbv zeta; lia).
  cbn [trim_front]. rewrite Hs. destruct l as [|b [|d l]]; [done|by rewrite H2|by rewrite H2, H3].
Qed.

Lemma visible_trimmed s : Forall (fun c => visible c = true) (to_bytes s) -> TrimSpace s = s.
Proof.
  intros Hs. unfold TrimSpace. assert (E : trim_right (trim_left (to_bytes s)) = to_bytes s); [|by rewrite E, of_to_bytes].
  assert (El : trim_left (to_bytes s) = to_bytes s).
  { destruct (to_bytes s) as [|c l]; [done|]. apply Forall_cons in Hs as [Hc _]. unfold visible in Hc.
    apply trim_front_visible; [done|..]; intros; unfold space2, space3; cbv zeta; lia. }
  rewrite El. unfold trim_right. destruct (rev (to_bytes s)) as [|c l] eqn:Er.
  { apply (f_equal (@rev ascii)) in Er. rewrite rev_involutive in Er. by rewrite Er. }
  assert (Hc : visible c = true). { apply Forall_rev in Hs. rewrite Er in Hs. by apply Forall_cons in Hs as [? _]. }
  rewrite trim_front_visible; [by rewrite <- Er, rev_involutive|done|..]; unfold visible in Hc; intros; unfold space2, space3; cbv zeta; lia.
Qed.

Lemma visible_not_blank s : s <> "" -> Forall (fun c => visible c = true) (to_bytes s) -> blank s = false.
Proof. intros Hne Hs. unfold blank. rewrite visible_trimmed by done. by apply bool_decide_eq_false. Qed.
End GoText.
