(* ===== verification/GoJSON.v ===== *)
(** * What JSON text tells

    [encoding/json] writes every string so that its end can be found and, when
    the string is valid UTF-8, the string read back: an invalid byte is written
    as the replacement character.  Integers are decimal; the members of an
    object and the items of an array can be told apart, also when empty members
    are left out. *)

From stdpp Require Import pretty.
From S2P Require Import Prelude GoBytes GoText.
Import GoText.

Module GoJSON.

Definition backslash : ascii := "\"%char.

(** Text without a closing quote, whose escapes are complete. *)
Fixpoint inert (l : bytes) : bool :=
  match l with
  | [] => true
  | c :: r => if bool_decide (c = backslash) then match r with [] => false | _ :: r' => inert r' end
              else negb (bool_decide (c = quote)) && inert r
  end.

(** The character a [\u] escape stands for. *)
Definition unescape_u (a b c d : ascii) : bytes :=
  match hex_value a, hex_value b, hex_value c, hex_value d with
  | Some a, Some b, Some c, Some d =>
      let n := a * 4096 + b * 256 + c * 16 + d in
      if n <? 128 then [byte_of n] else map byte_of [224 + n / 4096; 128 + n / 64 mod 64; 128 + n mod 64]
  | _, _, _, _ => []
  end.
Definition unescape_1 (c : ascii) : ascii :=
  if bool_decide (c = "b"%char) then byte_of 8 else if bool_decide (c = "f"%char) then byte_of 12
  else if bool_decide (c = "n"%char) then byte_of 10 else if bool_decide (c = "r"%char) then byte_of 13
  else if bool_decide (c = "t"%char) then byte_of 9 else c.

Fixpoint unescape (l : bytes) : bytes :=
  match l with
  | [] => []
  | c :: r =>
      if bool_decide (c = backslash) then
        match r with
        | [] => []
        | e :: r' => if bool_decide (e = "u"%char)
                     then match r' with a :: b :: c :: d :: rest => unescape_u a b c d ++ unescape rest | _ => [] end
                     else unescape_1 e :: unescape r'
        end
      else c :: unescape r
  end.

(** Two strings JSON writes alike: one string, if both are valid UTF-8. *)
Definition same_text (s t : string) : Prop := json_string s = json_string t /\ (ValidString s = true -> ValidString t = true -> s = t).

(** ** The end of a string *)
Lemma inert_app a b : inert a = true -> inert b = true -> inert (a ++ b) = true.
Proof.
  intros Ha Hb. remember (length a) as n eqn:En. assert (Hn : (length a <= n)%nat) by lia. clear En.
  revert a Ha Hn; induction n as [|n IH]; intros [|c a] Ha Hn; cbn [length] in Hn; try done; try lia.
  cbn [inert app] in *. case_bool_decide.
  - destruct a as [|d a]; [done|]. cbn [app length] in *. apply IH; [done|lia].
  - apply andb_true_iff in Ha as [-> Ha]. apply IH; [done|lia].
Qed.

Lemma inert_end a b x y : inert a = true -> inert b = true -> a ++ quote :: x = b ++ quote :: y -> a = b /\ x = y.
Proof.
  remember (length a) as n eqn:En. assert (Hn : (length a <= n)%nat) by lia. clear En.
  revert a b Hn; induction n as [|n IH]; intros a b Hn Ha Hb E.
  { destruct a; [|cbn in Hn; lia]. destruct b as [|d b]; [by injection E|]. injection E as <- E. discriminate Hb. }
  destruct a as [|c a], b as [|d b]; cbn [app] in E.
  { by injection E. }
  { injection E as <- _. discriminate Hb. }
  { injection E as -> _. discriminate Ha. }
  injection E as -> E2.
  cbn [inert length] in *. case_bool_decide.
  - destruct a as [|e a], b as [|f b]; try done. cbn [app length] in *. injection E2 as -> E2.
    destruct (IH a b ltac:(lia) Ha Hb E2) as [-> ->]. done.
  - apply andb_true_iff in Ha as [_ Ha], Hb as [_ Hb]. destruct (IH a b ltac:(lia) Ha Hb E2) as [-> ->]. done.
Qed.

Lemma high_not_special c : 128 <= byte_val c -> c <> backslash /\ c <> quote.
Proof. intros Hc. split; intros ->; vm_compute in Hc; by apply Hc. Qed.

Lemma high_inert l : Forall (fun c => 128 <= byte_val c) l -> inert l = true.
Proof.
  induction 1 as [|c l Hc _ IH]; [done|]. cbn [inert]. destruct (high_not_special c Hc). by rewrite !bool_decide_false.
Qed.

Lemma json_ascii_inert c : inert (json_ascii c) = true.
Proof. by destruct c as [[] [] [] [] [] [] [] []]; vm_compute. Qed.

(** A rune beyond ASCII has no ASCII byte. *)
Lemma rune_high l n : rune_size l = Some n -> (forall c r, l = c :: r -> 128 <= byte_val c) ->
  (1 <= n <= length l)%nat /\ Forall (fun c => 128 <= byte_val c) (take n l).
Proof.
  intros E Hfirst. destruct l as [|a l]; [done|]. specialize (Hfirst a l eq_refl). unfold rune_size in E. cbv zeta in E.
  rewrite (proj2 (Z.ltb_ge _ _)) in E by done. destruct l as [|b l]; [done|].
  destruct ((194 <=? byte_val a) && (byte_val a <=? 223)).
  { destruct (continuation b) eqn:Eb; [|done]. injection E as <-. unfold continuation in Eb. cbn [take length]. split; [lia|].
    repeat (constructor; [lia|]). constructor. }
  destruct l as [|c l]; [done|]. destruct ((224 <=? byte_val a) && (byte_val a <=? 239)).
  { destruct (byte_val a =? 224), (byte_val a =? 237), (continuation c) eqn:Ec; rewrite ?andb_false_r in E; try done;
      (destruct (_ && _) eqn:G in E; [|done]); injection E as <-; unfold continuation in Ec; cbn [take length]; (split; [lia|]);
      repeat (constructor; [lia|]); constructor. }
  destruct l as [|d l]; [done|]. destruct ((240 <=? byte_val a) && (byte_val a <=? 244)); [|done].
  destruct (continuation d) eqn:Ed; [|by rewrite andb_false_r in E]. destruct (continuation c) eqn:Ec; [|by rewrite andb_false_r in E].
  unfold continuation in Ec, Ed. destruct (byte_val a =? 240), (byte_val a =? 244); (destruct (_ && _) eqn:G in E; [|done]);
    injection E as <-; cbn [take length]; (split; [lia|]); repeat (constructor; [lia|]); constructor.
Qed.

(** The text of a rune. *)
Definition rune_text (rune : bytes) : bytes :=
  if bool_decide (map byte_val rune = [226; 128; 168]) then to_bytes "\u2028"
  else if bool_decide (map byte_val rune = [226; 128; 169]) then to_bytes "\u2029" else rune.

Lemma json_chars_inert n l : inert (json_chars n l) = true.
Proof.
  revert l; induction n as [|n IH]; intros [|a l]; try done. cbn [json_chars]. destruct (byte_val a <? 128) eqn:Ea.
  { apply inert_app; [apply json_ascii_inert|apply IH]. }
  destruct (rune_size (a :: l)) as [k|] eqn:Ek; [|apply inert_app; [by vm_compute|apply IH]].
  apply inert_app; [|apply IH]. case_bool_decide; [by vm_compute|]. case_bool_decide; [by vm_compute|].
  apply high_inert. apply (rune_high (a :: l)); [done|]. intros c r [= <- _]. by apply Z.ltb_ge.
Qed.

(** What follows a JSON string does not change where it ends. *)
Lemma json_string_end s t x y : json_string s ++ x = json_string t ++ y -> json_string s = json_string t /\ x = y.
Proof.
  unfold json_string. cbn [app]. rewrite <- !app_assoc. cbn [app]. intros [= E].
  apply inert_end in E as [E ->]; [by rewrite E|apply json_chars_inert..].
Qed.

(** ** The string read back *)
Lemma unescape_ascii c r : byte_val c < 128 -> unescape (json_ascii c ++ r) = c :: unescape r.
Proof. intros Hc. destruct c as [[] [] [] [] [] [] [] []]; first [reflexivity|exfalso; vm_compute in Hc; discriminate Hc]. Qed.

Lemma unescape_high l r : Forall (fun c => 128 <= byte_val c) l -> unescape (l ++ r) = l ++ unescape r.
Proof. induction 1 as [|c l Hc _ IH]; [done|]. cbn [app unescape]. destruct (high_not_special c Hc). by rewrite bool_decide_false, IH. Qed.

Lemma byte_vals l vals : map byte_val l = vals -> l = map byte_of vals.
Proof. intros <-. rewrite map_map. symmetry. rewrite <- (map_id l) at 2. apply map_ext. apply byte_of_val. Qed.

Lemma unescape_rune rune r : Forall (fun c => 128 <= byte_val c) rune -> unescape (rune_text rune ++ r) = rune ++ unescape r.
Proof.
  intros H. unfold rune_text. case_bool_decide as E1; [rewrite (byte_vals _ _ E1); reflexivity|].
  case_bool_decide as E2; [rewrite (byte_vals _ _ E2); reflexivity|]. by apply unescape_high.
Qed.

Lemma unescape_chars n l : (length l <= n)%nat -> valid_utf8 n l = true -> unescape (json_chars n l) = l.
Proof.
  revert l; induction n as [|n IH]; intros [|a l] Hn Hv; cbn [length] in Hn; try done; try lia. cbn [json_chars valid_utf8] in *.
  destruct (rune_size (a :: l)) as [k|] eqn:Ek; [|done]. destruct (byte_val a <? 128) eqn:Ea.
  - assert (k = 1%nat) as ->. { unfold rune_size in Ek. cbv zeta in Ek. rewrite Ea in Ek. by injection Ek. }
    apply Z.ltb_lt in Ea. rewrite unescape_ascii by done. f_equal. apply IH; [lia|done].
  - apply Z.ltb_ge in Ea. destruct (rune_high (a :: l) k Ek) as [Hk Hhigh]; [by intros c r [= <- _]|].
    change (if bool_decide _ then _ else _) with (rune_text (take k (a :: l))). rewrite unescape_rune by done.
    rewrite IH; [apply take_drop| |done]. rewrite length_drop. cbn [length] in *. lia.
Qed.

Lemma json_string_valid s t : ValidString s = true -> ValidString t = true -> json_string s = json_string t -> s = t.
Proof.
  unfold json_string, ValidString. intros Hs Ht [= E]. apply app_inv_tail in E. apply (f_equal unescape) in E.
  rewrite !unescape_chars in E; [by apply to_bytes_inj|by rewrite length_to_bytes|done|by rewrite length_to_bytes|done].
Qed.

Lemma json_string_same s t x y : json_string s ++ x = json_string t ++ y -> same_text s t /\ x = y.
Proof. intros [E ->]%json_string_end. split; [|done]. split; [done|]. intros Hs Ht. by apply json_string_valid. Qed.

(** ** Integers *)
Definition decimal (c : ascii) : bool := (48 <=? byte_val c) && (byte_val c <=? 57).

Lemma decimal_char x : decimal (pretty_N_char x) = true.
Proof. unfold pretty_N_char. by repeat case_match. Qed.

Lemma decimal_go x : forall s, forallb decimal (to_bytes s) = true ->
  forallb decimal (to_bytes (pretty_N_go x s)) = true /\ (x <> 0%N \/ s <> "" -> pretty_N_go x s <> "").
Proof.
  induction (N.lt_wf_0 x) as [x _ IH]; intros s Hs. destruct (decide (x = 0)%N) as [->|Hx]; [rewrite pretty_N_go_0; split; [done|naive_solver]|].
  rewrite pretty_N_go_step by lia. destruct (IH (x `div` 10)%N) with (s := String.String (pretty_N_char (x `mod` 10)) s) as [H1 H2].
  - apply N.div_lt; lia.
  - change (decimal (pretty_N_char (x `mod` 10)) && forallb decimal (to_bytes s) = true). by rewrite decimal_char.
  - split; [done|]. intros _. apply H2. by right.
Qed.

Lemma decimal_int n : 0 <= n -> forallb decimal (to_bytes (format_int n)) = true /\ format_int n <> "".
Proof.
  intros Hn. destruct n as [|p|p]; [done| |lia]. change (format_int (Z.pos p)) with (pretty (N.pos p)). unfold pretty, pretty_N.
  destruct (decide _); [done|]. destruct (decimal_go (N.pos p) "") as [H1 H2]; [done|]. split; [done|]. apply H2. by left.
Qed.

Definition number_byte (c : ascii) : bool := decimal c || bool_decide (c = "-"%char).

Lemma json_int_bytes z : Forall (fun c => number_byte c = true) (json_int z).
Proof.
  assert (H : forall n, 0 <= n -> Forall (fun c => number_byte c = true) (to_bytes (format_int n))).
  { intros n [Hd _]%decimal_int. rewrite forallb_forall in Hd. apply Forall_forall. intros c Hc. unfold number_byte.
    by rewrite (Hd c) by by apply list_elem_of_In. }
  unfold json_int. destruct z as [|p|p]; [by apply H|apply H; lia|].
  change (to_bytes (format_int (Z.neg p))) with ("-"%char :: to_bytes (format_int (Z.pos p))). constructor; [done|]. apply H. lia.
Qed.

(** ** JSON objects with optional members *)
Definition comma : ascii := ","%char.
Definition brace : ascii := "}"%char.
Definition separated (items : list bytes) : bytes := flat_map (fun m => comma :: m) items.
Definition members (fields : list (string * option bytes)) : list bytes :=
  map json_member (omap (fun f => v ← f.2; Some (f.1, v)) fields).

Lemma cons_tail {A} (a b : A) l k : a :: l = b :: k -> l = k.
Proof. by intros [= _ ->]. Qed.

(** A text that ends a member. *)
Definition ends (x : bytes) : Prop := exists c r, x = c :: r /\ (c = comma \/ c = brace).

(** Two values of a member are told apart by what is written. *)
Definition alike (v w : option bytes) : Prop :=
  match v, w with
  | Some v, Some w => forall x y, ends x -> ends y -> v ++ x = w ++ y -> v = w /\ x = y
  | _, _ => True
  end.

Lemma member_quote kv : exists r, json_member kv = quote :: r.
Proof. unfold json_member, json_string. cbn [app]. eauto. Qed.

#[local] Opaque json_string.

Lemma join_separated l : json_join l = match l with [] => [] | a :: r => a ++ separated r end.
Proof.
  induction l as [|a [|b l] IH]; [done|by rewrite app_nil_r|]. change (json_join (a :: b :: l)) with (a ++ [comma] ++ json_join (b :: l)).
  rewrite IH. done.
Qed.

Lemma separated_ends l x : ends (separated l ++ brace :: x).
Proof. destruct l as [|a l]; eexists _, _; (split; [reflexivity|]); auto. Qed.

Lemma members_cons k v fs : members ((k, v) :: fs) = match v with Some v => json_member (k, v) :: members fs | None => members fs end.
Proof. by destruct v. Qed.

Lemma first_key k r fs x : plain k -> Forall plain (map fst fs) ->
  separated (members fs) ++ brace :: x = comma :: json_string k ++ r -> k ∈ map fst fs.
Proof.
  intros Hk. induction fs as [|[k' v'] fs IH]; [done|]. cbn [map fst]. rewrite Forall_cons, members_cons. intros [Hk' Hp] E.
  destruct v' as [v'|]; [|apply elem_of_cons; right; by apply IH]. apply elem_of_cons. left. unfold json_member in E. cbn [separated flat_map fst snd] in E.
  rewrite <- !app_comm_cons, <- !app_assoc in E. apply cons_tail in E. by apply json_string_inj in E as [-> _].
Qed.

Lemma members_inj fs gs x y : map fst fs = map fst gs -> NoDup (map fst fs) -> Forall plain (map fst fs) ->
  Forall2 alike (map snd fs) (map snd gs) ->
  separated (members fs) ++ brace :: x = separated (members gs) ++ brace :: y -> fs = gs /\ x = y.
Proof.
  revert gs; induction fs as [|[k v] fs IH]; intros [|[k' w] gs] Hk Hnd Hp Ha E; try discriminate Hk; [by injection E|].
  cbn [map fst snd] in *. injection Hk as <- Hk. apply NoDup_cons in Hnd as [Hnin Hnd]. apply Forall_cons in Hp as [Hpk Hp].
  apply Forall2_cons in Ha as [Hvw Ha]. rewrite !members_cons in E.
  destruct v as [v|], w as [w|].
  - cbn [separated flat_map] in E. unfold json_member in E. cbn [fst snd] in E. rewrite <- !app_comm_cons, <- !app_assoc in E.
    apply cons_tail in E. apply json_string_end in E as [_ E]. apply cons_tail in E.
    apply Hvw in E as [-> E]; [|apply separated_ends..]. destruct (IH gs Hk Hnd Hp Ha E) as [-> ->]. done.
  - exfalso. apply Hnin. rewrite Hk. eapply (first_key k _ gs y Hpk); [by rewrite <- Hk|].
    symmetry in E. cbn [separated flat_map] in E. unfold json_member in E. cbn [fst snd] in E.
    rewrite <- !app_comm_cons, <- !app_assoc in E. etrans; [exact E|]. reflexivity.
  - exfalso. apply Hnin. eapply (first_key k _ fs x Hpk); [done|]. cbn [separated flat_map] in E.
    unfold json_member in E. cbn [fst snd] in E. rewrite <- !app_comm_cons, <- !app_assoc in E. etrans; [exact E|]. reflexivity.
  - destruct (IH gs Hk Hnd Hp Ha E) as [-> ->]. done.
Qed.

Lemma object_members fs x : json_object fs ++ x = "{"%char :: json_join (members fs) ++ brace :: x.
Proof. unfold json_object. cbn [app]. by rewrite <- app_assoc. Qed.

Lemma object_inj fs gs x y : map fst fs = map fst gs -> NoDup (map fst fs) -> Forall plain (map fst fs) ->
  Forall2 alike (map snd fs) (map snd gs) -> json_object fs ++ x = json_object gs ++ y -> fs = gs /\ x = y.
Proof.
  intros Hk Hnd Hp Ha. rewrite !object_members. intros E%cons_tail. apply members_inj; [done..|]. rewrite !join_separated in E.
  assert (Hq : forall hs a r z z', members hs = a :: r -> a ++ z = brace :: z' -> False).
  { intros hs a r z z' Em. assert (Ha' : a ∈ members hs) by (rewrite Em; by left). apply list_elem_of_fmap in Ha' as (kv & -> & _).
    destruct (member_quote kv) as [t ->]. discriminate. }
  destruct (members fs) as [|a l] eqn:Ef, (members gs) as [|b k] eqn:Eg; cbn [separated flat_map]; [done| | |].
  - exfalso. rewrite <- app_assoc in E. by eapply (Hq gs b k).
  - exfalso. rewrite <- app_assoc in E. by eapply (Hq fs a l).
  - rewrite <- !app_assoc in E. rewrite <- !app_comm_cons, <- !app_assoc. by f_equal.
Qed.

(** ** Values *)
Lemma alike_text s t : alike (omit_string s) (omit_string t).
Proof. unfold omit_string. repeat case_bool_decide; try done. intros x y _ _ E. by apply json_string_end. Qed.

Lemma number_end a b x y : Forall (fun c => number_byte c = true) a -> Forall (fun c => number_byte c = true) b -> ends x -> ends y ->
  a ++ x = b ++ y -> a = b /\ x = y.
Proof.
  assert (Hend : forall c r, number_byte c = true -> ends (c :: r) -> False) by (intros c r Hc (d & k & [= -> ->] & [->| ->]); discriminate Hc).
  intros Ha Hb Hx Hy. revert b Hb; induction Ha as [|c a Hc _ IH]; intros b Hb E; destruct Hb as [|d b Hd Hb]; cbn [app] in E.
  - done.
  - subst x. exfalso. by eapply Hend.
  - subst y. exfalso. by eapply Hend.
  - injection E as -> E. destruct (IH b Hb E) as [-> ->]. done.
Qed.

Lemma alike_int a b : alike (omit_int a) (omit_int b).
Proof. unfold omit_int. repeat case_match; try done. intros x y Hx Hy. by apply number_end; [apply json_int_bytes..| |]. Qed.

(** Arrays of items that open with a brace and can be told apart. *)
Lemma array_inj {A} (item : A -> bytes) (R : A -> A -> Prop) l k x y :
  (forall a, exists r, item a = "{"%char :: r) -> (forall a b x y, item a ++ x = item b ++ y -> R a b /\ x = y) ->
  json_array (map item l) ++ x = json_array (map item k) ++ y -> Forall2 R l k /\ x = y.
Proof.
  intros Hopen Hinj. assert (Hsep : forall l k, separated (map item l) ++ "]"%char :: x = separated (map item k) ++ "]"%char :: y -> Forall2 R l k /\ x = y).
  { clear l k. induction l as [|a l IH]; intros [|b k] E; cbn [map separated flat_map app] in E; try done; [by injection E|].
    apply cons_tail in E. rewrite <- !app_assoc in E. apply Hinj in E as [Rab E]. destruct (IH k E) as [F ->]. by split; [constructor|]. }
  intros E. apply Hsep. unfold json_array in E. cbn [app] in E. apply cons_tail in E. rewrite !join_separated, <- !app_assoc in E. cbn [app] in E.
  destruct l as [|a l], k as [|b k]; cbn [map separated flat_map app] in *; [done| | |].
  - destruct (Hopen b) as [r Hr]. rewrite Hr in E. discriminate E.
  - destruct (Hopen a) as [r Hr]. rewrite Hr in E. discriminate E.
  - f_equal. rewrite <- !app_assoc in *. exact E.
Qed.

Example two_invalid_bytes : json_string (of_bytes [byte_of 255]) = json_string (of_bytes [byte_of 254]).
Proof. vm_compute. reflexivity. Qed.
End GoJSON.
