(* ===== verification/GoTime.v ===== *)
(** * Times as text

    [time.Time.Format(time.RFC3339Nano)] in UTC, truncated to microseconds
    ([auditchain.FormatTime]).  A time is its distance in nanoseconds from the
    zero time, 1 January of year 1. *)

From S2P Require Import Prelude GoBytes GoText.

Module GoTime.

#[local] Ltac Zify.zify_post_hook ::= Z.to_euclidean_division_equations.

(** ** The civil calendar

    Days are counted from 1 January of year 1; the computation counts from
    1 March of year 0, in cycles of 400, 100, 4 and 1 years: a leap day is the
    last of its year. *)
Definition month_start (mp : Z) : Z := (153 * mp + 2) / 5.

(** Year and day of the year, both from 0. *)
Definition march_year (z : Z) : Z * Z :=
  let d400 := z mod 146097 in
  let n100 := d400 / 36524 - d400 / 36524 / 4 in
  let d100 := d400 - 36524 * n100 in
  let d4 := d100 mod 1461 in
  let n1 := d4 / 365 - d4 / 365 / 4 in
  (z / 146097 * 400 + n100 * 100 + d100 / 1461 * 4 + n1, d4 - 365 * n1).

Definition march_days (year doy : Z) : Z :=
  let y := year mod 400 in
  year / 400 * 146097 + y / 100 * 36524 + y mod 100 / 4 * 1461 + y mod 4 * 365 + doy.

(** The number of whole years, centuries, ... of a cycle whose last one is a day longer. *)
Lemma clamp4 d k : 0 < k -> 0 <= d <= 4 * k -> let n := d / k - d / k / 4 in 0 <= n <= 3 /\ 0 <= d - k * n <= k.
Proof.
  intros Hk Hd. cbv zeta. pose proof (Z.div_mod d k ltac:(lia)) as E. pose proof (Z.mod_pos_bound d k Hk) as Hm. set (q := d / k) in *.
  set (r := d mod k) in *. clearbody q r. assert (Hq : 0 <= q <= 4) by nia.
  assert (Hn : (q = 4 /\ q - q / 4 = 3) \/ (q - q / 4 = q /\ q <= 3)) by (clear -Hq; lia).
  destruct Hn as [[-> ->]|[-> Hn]]; lia.
Qed.

Lemma year_digits n400 n100 n4 n1 : 0 <= n100 <= 3 -> 0 <= n4 <= 24 -> 0 <= n1 <= 3 ->
  let y := n400 * 400 + n100 * 100 + n4 * 4 + n1 in
  y / 400 = n400 /\ y mod 400 / 100 = n100 /\ y mod 400 mod 100 / 4 = n4 /\ y mod 400 mod 4 = n1.
Proof.
  cbv zeta. intros H1 H2 H3. set (y := n400 * 400 + n100 * 100 + n4 * 4 + n1). set (r := n100 * 100 + n4 * 4 + n1).
  assert (E : y mod 400 = r) by (symmetry; apply (Z.mod_unique _ _ n400); unfold y, r; lia).
  assert (E2 : r mod 100 = n4 * 4 + n1) by (symmetry; apply (Z.mod_unique _ _ n100); unfold r; lia).
  rewrite E, E2. split_and!.
  - symmetry. apply (Z.div_unique _ _ _ r); unfold y, r; lia.
  - symmetry. apply (Z.div_unique _ _ _ (n4 * 4 + n1)); unfold r; lia.
  - symmetry. apply (Z.div_unique _ _ _ n1); lia.
  - symmetry. apply (Z.mod_unique _ _ (n100 * 25 + n4)); unfold r; lia.
Qed.

Lemma march_year_days z : let '(y, doy) := march_year z in march_days y doy = z /\ 0 <= doy <= 365 /\ (0 <= z -> 0 <= y).
Proof.
  unfold march_year. cbv zeta. pose proof (Z.mod_pos_bound z 146097 ltac:(lia)) as H400.
  pose proof (Z.div_mod z 146097 ltac:(lia)) as Hz. assert (H0 : 0 <= z -> 0 <= z / 146097) by (intros; apply Z.div_pos; lia).
  generalize dependent (z mod 146097). generalize dependent (z / 146097). intros n400 H0 d400 H400 Hz.
  pose proof (clamp4 d400 36524 ltac:(lia) ltac:(lia)) as H100. cbv zeta in H100. generalize dependent (d400 / 36524 - d400 / 36524 / 4).
  intros n100 [H100 Hd100]. remember (d400 - 36524 * n100) as d100 eqn:E100.
  assert (Hn4 : 0 <= d100 / 1461 <= 24) by (clear -Hd100; lia). pose proof (Z.mod_pos_bound d100 1461 ltac:(lia)) as H4.
  pose proof (Z.div_mod d100 1461 ltac:(lia)) as Hd4. generalize dependent (d100 mod 1461). generalize dependent (d100 / 1461).
  intros n4 Hn4 d4 H4 Hd4. pose proof (clamp4 d4 365 ltac:(lia) ltac:(lia)) as H1. cbv zeta in H1.
  generalize dependent (d4 / 365 - d4 / 365 / 4). intros n1 [H1 Hd1].
  destruct (year_digits n400 n100 n4 n1 H100 Hn4 H1) as (Y1 & Y2 & Y3 & Y4). unfold march_days. cbv zeta. rewrite Y1, Y2, Y3, Y4. lia.
Qed.

Definition civil (days : Z) : Z * Z * Z :=
  let '(y, doy) := march_year (days + 306) in
  let mp := (5 * doy + 2) / 153 in
  let month := if mp <? 10 then mp + 3 else mp - 9 in
  (y + (if month <=? 2 then 1 else 0), month, doy - month_start mp + 1).

Definition days_from (year month day : Z) : Z :=
  march_days (if month <=? 2 then year - 1 else year) (month_start (if 2 <? month then month - 3 else month + 9) + day - 1) - 306.

(** Months of the March year, from 0. *)
Lemma month_of_day doy : 0 <= doy <= 365 -> let mp := (5 * doy + 2) / 153 in 0 <= mp <= 11 /\ 1 <= doy - month_start mp + 1 <= 31.
Proof. cbv zeta. unfold month_start. lia. Qed.

Lemma civil_days days : let '(y, m, d) := civil days in
  days_from y m d = days /\ 1 <= m <= 12 /\ 1 <= d <= 31 /\ (0 <= days -> 0 <= y).
Proof.
  unfold civil. pose proof (march_year_days (days + 306)) as H. destruct (march_year (days + 306)) as [y doy]. cbv zeta.
  destruct H as (Hz & Hd & Hy). destruct (month_of_day doy Hd) as [Hm Hday]. generalize dependent ((5 * doy + 2) / 153). intros mp Hm Hday.
  unfold days_from. destruct (mp <? 10) eqn:Emp; [apply Z.ltb_lt in Emp|apply Z.ltb_ge in Emp].
  - rewrite (proj2 (Z.leb_gt (mp + 3) 2)), (proj2 (Z.ltb_lt 2 (mp + 3))) by lia. replace (mp + 3 - 3) with mp by lia.
    replace (y + 0) with y by lia. replace (month_start mp + (doy - month_start mp + 1) - 1) with doy by lia. split_and!; lia.
  - rewrite (proj2 (Z.leb_le (mp - 9) 2)), (proj2 (Z.ltb_ge 2 (mp - 9))) by lia. replace (mp - 9 + 9) with mp by lia.
    replace (y + 1 - 1) with y by lia. replace (month_start mp + (doy - month_start mp + 1) - 1) with doy by lia. split_and!; lia.
Qed.

Lemma civil_inj a b : civil a = civil b -> a = b.
Proof.
  intros E. pose proof (civil_days a) as Ha. pose proof (civil_days b) as Hb. rewrite E in Ha.
  destruct (civil b) as [[y m] d]. destruct Ha as [<- _], Hb as [Hb _]. by rewrite Hb.
Qed.

(** ** Digits *)
Definition digit (z : Z) : ascii := byte_of (48 + z mod 10).
Definition digit_char (c : ascii) : bool := (48 <=? byte_val c) && (byte_val c <=? 57).

(** The last [n] decimal digits. *)
Fixpoint pad (n : nat) (z : Z) : bytes :=
  match n with O => [] | S n' => pad n' (z / 10) ++ [digit z] end.

Lemma byte_digit z : byte_val (digit z) = 48 + z mod 10.
Proof. unfold digit. rewrite byte_val_of. pose proof (Z.mod_pos_bound z 10). apply Z.mod_small. lia. Qed.

Lemma pad_digits n z : Forall (fun c => digit_char c = true) (pad n z).
Proof.
  revert z; induction n as [|n IH]; intros z; cbn [pad]; [constructor|]. apply Forall_app; split; [apply IH|]. repeat constructor.
  unfold digit_char. rewrite byte_digit. pose proof (Z.mod_pos_bound z 10). lia.
Qed.

Lemma length_pad n z : length (pad n z) = n.
Proof. revert z; induction n as [|n IH]; intros z; cbn [pad]; [done|]. rewrite length_app, IH. cbn. lia. Qed.

Lemma pad_inj n a b : 0 <= a < 10 ^ Z.of_nat n -> 0 <= b < 10 ^ Z.of_nat n -> pad n a = pad n b -> a = b.
Proof.
  revert a b; induction n as [|n IH]; intros a b Ha Hb E; [cbn in *; lia|]. cbn [pad] in E.
  apply app_inj_tail in E as [E Ed]. rewrite Nat2Z.inj_succ, Z.pow_succ_r in * by lia.
  assert (a / 10 = b / 10) by (apply IH; [lia|lia|done]). assert (a mod 10 = b mod 10).
  { apply (f_equal byte_val) in Ed. rewrite !byte_digit in Ed. lia. }
  lia.
Qed.

(** [strings.TrimRight(digits, "0")]: the fraction of [RFC3339Nano]. *)
Fixpoint drop_zeros (l : bytes) : bytes :=
  match l with [] => [] | c :: r => if bool_decide (c = "0"%char) then drop_zeros r else l end.
Definition trim_zeros (l : bytes) : bytes := rev (drop_zeros (rev l)).

Lemma drop_zeros_spec l : exists k, l = replicate k "0"%char ++ drop_zeros l.
Proof.
  induction l as [|c l [k IH]]; [by exists 0%nat|]. cbn [drop_zeros]. case_bool_decide as Hc; [|by exists 0%nat].
  exists (S k). subst c. cbn [replicate app]. by f_equal.
Qed.
Lemma rev_replicate_zero k : rev (replicate k "0"%char) = replicate k "0"%char.
Proof. induction k as [|k IH]; [done|]. cbn [replicate rev]. rewrite IH. symmetry. apply (replicate_cons_app k). Qed.
Lemma trim_zeros_spec l : exists k, l = trim_zeros l ++ replicate k "0"%char.
Proof.
  destruct (drop_zeros_spec (rev l)) as [k Hk]. exists k. unfold trim_zeros. rewrite <- (rev_involutive l) at 1.
  rewrite Hk at 1. by rewrite rev_app_distr, rev_replicate_zero.
Qed.
Lemma trim_zeros_inj a b : length a = length b -> trim_zeros a = trim_zeros b -> a = b.
Proof.
  intros Hl E. destruct (trim_zeros_spec a) as [j Ha], (trim_zeros_spec b) as [k Hb].
  rewrite Ha, Hb, E, !length_app, !length_replicate in Hl. rewrite Ha, Hb, E. by replace j with k by lia.
Qed.

(** ** [FormatTime] *)
Definition microseconds (t : Z) : Z := t / 1000.
Definition day_us : Z := 86400000000.

Definition year_text (y : Z) : bytes := if y <? 10000 then pad 4 y else to_bytes (GoText.format_int y).
Definition fraction (us : Z) : bytes := if us =? 0 then [] else "."%char :: trim_zeros (pad 6 us).

Definition FormatTime (t : Z) : bytes :=
  let us := microseconds t in
  let '(y, m, d) := civil (us / day_us) in
  let clock := us mod day_us in
  let seconds := clock / 1000000 in
  year_text y ++ ["-"%char] ++ pad 2 m ++ ["-"%char] ++ pad 2 d ++ ["T"%char] ++
  pad 2 (seconds / 3600) ++ [":"%char] ++ pad 2 (seconds / 60 mod 60) ++ [":"%char] ++ pad 2 (seconds mod 60) ++
  fraction (clock mod 1000000) ++ ["Z"%char].

Lemma app_inj_pad n a b x y : pad n a ++ x = pad n b ++ y -> pad n a = pad n b /\ x = y.
Proof. apply app_inj_1. by rewrite !length_pad. Qed.

Lemma byte_split (P : ascii -> bool) c a b x y : P c = false -> Forall (fun c => P c = true) a -> Forall (fun c => P c = true) b ->
  a ++ c :: x = b ++ c :: y -> a = b /\ x = y.
Proof.
  intros Hc Ha; revert b; induction Ha as [|d a Hd _ IH]; intros b Hb E; destruct Hb as [|e b He Hb]; cbn in E;
    injection E; intros; subst; try congruence; [done|]. destruct (IH b Hb) as [-> ->]; done.
Qed.

(** The times before the year 10000, which RFC 3339 can write. *)
Definition last_day : Z := 3652058.
Definition writable (t : Z) : Prop := 0 <= t < (last_day + 1) * day_us * 1000.

Lemma civil_year days : 0 <= days <= last_day -> let '(y, m, d) := civil days in 0 <= y < 10000.
Proof.
  intros H. pose proof (civil_days days) as Hc. destruct (civil days) as [[y m] d]. destruct Hc as (E & Hm & Hd & Hy).
  split; [apply Hy; lia|]. destruct (decide (y < 10000)) as [|Hge]; [done|exfalso]. unfold days_from, march_days, month_start, last_day in *.
  cbv zeta in E. destruct (m <=? 2) eqn:Em; [apply Z.leb_le in Em|apply Z.leb_gt in Em].
  - rewrite (proj2 (Z.ltb_ge 2 m)) in E by lia. clear Hy. destruct (decide (y - 1 = 9999)) as [Ey|]; [rewrite Ey in E; cbn -[Z.div Z.mul Z.add Z.sub] in E; lia|].
    assert (25 <= (y - 1) / 400) by lia. assert (0 <= (y - 1) mod 400) by lia. generalize dependent ((y - 1) / 400). intros; lia.
  - rewrite (proj2 (Z.ltb_lt 2 m)) in E by lia. clear Hy. assert (25 <= y / 400) by lia. assert (0 <= y mod 400) by lia.
    generalize dependent (y / 400). intros; lia.
Qed.

Lemma two_digits a b x y : 0 <= a < 100 -> 0 <= b < 100 -> pad 2 a ++ x = pad 2 b ++ y -> a = b /\ x = y.
Proof. intros Ha Hb [E ->]%app_inj_pad. apply pad_inj in E; [done|cbn; lia..]. Qed.

Lemma fraction_inj a b : 0 <= a < 1000000 -> 0 <= b < 1000000 -> fraction a ++ ["Z"%char] = fraction b ++ ["Z"%char] -> a = b.
Proof.
  intros Ha Hb [E _]%app_inj_tail. unfold fraction in E.
  destruct (a =? 0) eqn:Ea, (b =? 0) eqn:Eb; [apply Z.eqb_eq in Ea, Eb; lia|done..|].
  assert (E' : trim_zeros (pad 6 a) = trim_zeros (pad 6 b)) by congruence.
  apply trim_zeros_inj in E'; [|by rewrite !length_pad]. apply pad_inj in E'; [done|cbn; lia..].
Qed.

(** The text of a time gives its microseconds. *)
Lemma FormatTime_inj a b : writable a -> writable b -> FormatTime a = FormatTime b -> microseconds a = microseconds b.
Proof.
  unfold writable, FormatTime. cbv zeta. set (ua := microseconds a). set (ub := microseconds b). intros Ha Hb.
  assert (Ra : 0 <= ua / day_us <= last_day) by (unfold ua, microseconds, day_us, last_day in *; lia).
  assert (Rb : 0 <= ub / day_us <= last_day) by (unfold ub, microseconds, day_us, last_day in *; lia).
  pose proof (civil_days (ua / day_us)) as Ca. pose proof (civil_days (ub / day_us)) as Cb.
  pose proof (civil_year _ Ra) as Ya. pose proof (civil_year _ Rb) as Yb. pose proof (civil_inj (ua / day_us) (ub / day_us)) as Hci.
  destruct (civil (ua / day_us)) as [[y m] d], (civil (ub / day_us)) as [[y' m'] d'].
  pose proof (Z.mod_pos_bound ua day_us ltac:(done)) as Ma. pose proof (Z.mod_pos_bound ub day_us ltac:(done)) as Mb.
  pose proof (Z.div_mod ua day_us ltac:(done)) as Da. pose proof (Z.div_mod ub day_us ltac:(done)) as Db.
  generalize dependent (ua mod day_us). intros ca Ma Da. generalize dependent (ub mod day_us). intros cb Mb Db.
  assert (Hc : 0 <= ca / 1000000 < 86400 /\ 0 <= cb / 1000000 < 86400) by (unfold day_us in *; lia).
  assert (Hca : ca = 1000000 * (ca / 1000000) + ca mod 1000000) by (apply Z.div_mod; done).
  assert (Hcb : cb = 1000000 * (cb / 1000000) + cb mod 1000000) by (apply Z.div_mod; done).
  pose proof (Z.mod_pos_bound ca 1000000 ltac:(done)) as Fa. pose proof (Z.mod_pos_bound cb 1000000 ltac:(done)) as Fb.
  generalize dependent (ca mod 1000000). intros fa Hca Fa. generalize dependent (cb mod 1000000). intros fb Hcb Fb.
  generalize dependent (ca / 1000000). intros sa. generalize dependent (cb / 1000000). intros sb Hcb [Hsa Hsb] Hca E.
  destruct Ca as (_ & ? & ? & _), Cb as (_ & ? & ? & _). unfold year_text in E. rewrite !(proj2 (Z.ltb_lt _ 10000)) in E by lia.
  apply app_inj_pad in E as [Ey E]. apply pad_inj in Ey as <-; [|cbn; lia..]. apply app_inv_head in E.
  apply two_digits in E as [<- E]; [|lia..]. apply app_inv_head in E. apply two_digits in E as [<- E]; [|lia..]. apply app_inv_head in E.
  apply two_digits in E as [Eh E]; [|lia..]. apply app_inv_head in E. apply two_digits in E as [Em E]; [|lia..]. apply app_inv_head in E.
  apply two_digits in E as [Es E]; [|lia..]. apply fraction_inj in E as <-; [|lia..]. rewrite (Hci eq_refl) in Da. clear Hci.
  assert (sa = sb) as <- by lia. lia.
Qed.

(** The text of a time needs no escape in JSON. *)
Lemma digit_plain c : digit_char c = true -> GoText.plain_byte c = true.
Proof. unfold digit_char, GoText.plain_byte. cbv zeta. lia. Qed.
Lemma pad_plain n z : Forall (fun c => GoText.plain_byte c = true) (pad n z).
Proof. eapply Forall_impl; [apply pad_digits|]. intros c. apply digit_plain. Qed.
Lemma FormatTime_plain t : writable t -> Forall (fun c => GoText.plain_byte c = true) (FormatTime t).
Proof.
  intros Ht. unfold FormatTime. cbv zeta. pose proof (civil_year (microseconds t / day_us)) as Hy.
  destruct (civil (microseconds t / day_us)) as [[y m] d].
  assert (Hr : 0 <= y < 10000) by (apply Hy; unfold writable, microseconds, day_us, last_day in *; lia).
  unfold year_text. rewrite (proj2 (Z.ltb_lt y 10000)) by lia.
  assert (Hf : forall u, Forall (fun c => GoText.plain_byte c = true) (fraction u)).
  { intros u. unfold fraction. destruct (u =? 0); constructor; [done|]. destruct (trim_zeros_spec (pad 6 u)) as [k Hk].
    pose proof (pad_plain 6 u) as Hp. rewrite Hk in Hp. by apply Forall_app in Hp as [? _]. }
  rewrite !Forall_app. split_and!; first [apply pad_plain|apply Hf|by repeat constructor].
Qed.

Example format_epoch : of_bytes (FormatTime 62135596800000000000) = "1970-01-01T00:00:00Z".
Proof. vm_compute. reflexivity. Qed.
Example format_leap : of_bytes (FormatTime ((62135596800 + 951827696) * 1000000000 + 120500999)) = "2000-02-29T12:34:56.1205Z".
Proof. vm_compute. reflexivity. Qed.
End GoTime.
