(* ===== verification/Sensitivity.v ===== *)
(** * Sensitivity classes and approval modes

    [src/internal/domain/sensitivity.go]: the ordered data classification and
    the approval mode of the catalog. *)

From S2P Require Import Prelude GoBytes.

Module Sensitivity.

Definition ErrInvalidSensitivity := ErrNew "invalid sensitivity".
Definition ErrInvalidApprovalMode := ErrNew "invalid approval mode".

Definition SensitivityPublic := "public".
Definition SensitivityLow := "low".
Definition SensitivityMedium := "medium".
Definition SensitivityHigh := "high".
Definition SensitivityRestricted := "restricted".

Definition sensitivityRank : gmap string Z :=
  list_to_map [ (SensitivityPublic, 0); (SensitivityLow, 1); (SensitivityMedium, 2);
                (SensitivityHigh, 3); (SensitivityRestricted, 4) ].

Definition Validate (s : string) : result unit :=
  match sensitivityRank !! s with
  | None => Err (ErrW ErrInvalidSensitivity "%q")
  | Some _ => Ok tt
  end.

Definition Rank (s : string) : result Z :=
  match sensitivityRank !! s with
  | None => Err (ErrW ErrInvalidSensitivity "%q")
  | Some rank => Ok rank
  end.

Definition AtMost (s ceiling : string) : bool :=
  match sensitivityRank !! s, sensitivityRank !! ceiling with
  | Some sRank, Some cRank => sRank <=? cRank
  | _, _ => false
  end.

(** The loop of [HighestSensitivity] over [values[1:]]. *)
Fixpoint highest_from (highest : string) (highestRank : Z) (values : list string) : result string :=
  match values with
  | [] => Ok highest
  | value :: rest =>
      rank ← Rank value;
      if highestRank <? rank then highest_from value rank rest
      else highest_from highest highestRank rest
  end.

Definition HighestSensitivity (values : list string) : result string :=
  match values with
  | [] => Err (ErrW ErrInvalidSensitivity "no values")
  | first :: rest => highestRank ← Rank first; highest_from first highestRank rest
  end.

Definition ApprovalModeManual := "manual".
Definition ApprovalMode_Validate (m : string) : result unit :=
  if decide (m = ApprovalModeManual) then Ok tt else Err (ErrW ErrInvalidApprovalMode "%q").

(** ** The order *)
Lemma Sensitivity_Validate_ok s : Validate s = Ok tt <-> is_Some (sensitivityRank !! s).
Proof. unfold Validate. destruct (_ !! s) eqn:E; split; try done; by intros []. Qed.

Lemma Rank_ok s r : Rank s = Ok r <-> sensitivityRank !! s = Some r.
Proof. unfold Rank. destruct (_ !! s); naive_solver. Qed.

Lemma AtMost_iff s c :
  AtMost s c = true <->
  exists rs rc, sensitivityRank !! s = Some rs /\ sensitivityRank !! c = Some rc /\ rs <= rc.
Proof.
  unfold AtMost. destruct (_ !! s) as [rs|], (_ !! c) as [rc|]; try naive_solver.
  rewrite Z.leb_le. naive_solver.
Qed.

Lemma AtMost_refl s : Validate s = Ok tt -> AtMost s s = true.
Proof. rewrite Sensitivity_Validate_ok, AtMost_iff. intros [r ?]. exists r, r. auto with lia. Qed.

Lemma AtMost_trans a b c : AtMost a b = true -> AtMost b c = true -> AtMost a c = true.
Proof.
  rewrite !AtMost_iff. intros (ra & rb & ? & ? & ?) (rb' & rc & ? & ? & ?).
  exists ra, rc. simplify_eq. auto with lia.
Qed.

Lemma highest_from_ok h r vs x :
  sensitivityRank !! h = Some r -> highest_from h r vs = Ok x ->
  x ∈ h :: vs /\ Forall (fun v => AtMost v x = true) (h :: vs).
Proof.
  revert h r; induction vs as [|v vs IH]; intros h r Hh; cbn.
  { intros [= ->]. split; [by left|]. repeat constructor. apply AtMost_refl, Sensitivity_Validate_ok. by rewrite Hh. }
  rewrite bind_ok. intros (rv & Hv%Rank_ok & Hx).
  destruct (Z.ltb_spec r rv) as [Hlt|Hge]; (eapply IH in Hx as [Hin Hall]; [|eassumption]).
  - split; [by right|]. constructor; [|done]. apply Forall_inv in Hall.
    eapply AtMost_trans; [|done]. rewrite AtMost_iff. exists r, rv. auto with lia.
  - split; [set_solver|]. inversion_clear Hall. constructor; [done|]. constructor; [|done].
    eapply AtMost_trans; [|done]. rewrite AtMost_iff. exists rv, r. auto with lia.
Qed.

Lemma highest_from_total h r vs :
  Forall (fun v => Validate v = Ok tt) vs -> is_ok (highest_from h r vs) = true.
Proof.
  intros Hall; revert h r.
  induction Hall as [|v vs [rv Hv]%Sensitivity_Validate_ok _ IH]; intros h r; cbn; [done|].
  unfold Rank. rewrite Hv; cbn. destruct (r <? rv); apply IH.
Qed.

(** [HighestSensitivity] answers exactly on the non-empty lists of valid
    classes, with a member of the list that is an upper bound of it. *)
Lemma HighestSensitivity_max values h :
  HighestSensitivity values = Ok h ->
  h ∈ values /\ Forall (fun v => AtMost v h = true) values.
Proof.
  destruct values as [|f rest]; cbn; [done|]. rewrite bind_ok. intros (r & Hr%Rank_ok & H).
  by eapply highest_from_ok.
Qed.

Lemma HighestSensitivity_total values :
  values <> [] -> Forall (fun v => Validate v = Ok tt) values ->
  is_ok (HighestSensitivity values) = true.
Proof.
  destruct values as [|f rest]; [done|]. intros _ [[r Hr]%Sensitivity_Validate_ok Hrest]%Forall_cons. cbn.
  unfold Rank. rewrite Hr. cbn. by apply highest_from_total.
Qed.

End Sensitivity.
