(* ===== verification/Budget.v ===== *)
(** * Task budgets

    [src/internal/domain/budget.go] (hard limits of a task grant),
    [AuthorizationBudgetV1] of [src/internal/domain/authorization.go] (its
    integer-millisecond exchange form) and the conversion and delegation clamp
    of [src/internal/gateway/tasks.go].  A [time.Duration] is a number of
    nanoseconds, an [int64]. *)

From S2P Require Import Prelude GoBytes.

Module Budget.

Definition ErrInvalidBudget := ErrNew "invalid budget".
Definition ErrBudgetExpansion := ErrNew "budget expansion".

Definition PredicateFootprintV1 := "taskgate-predicate-footprint-v1".
Definition MaxPredicateAtomsHardLimit : Z := 65536.
Definition ProfileV3 := "taskgate-exposure-v3".
Definition ProfileV4 := "taskgate-exposure-v4".
Definition ProfileV5 := "taskgate-exposure-v5".

Record PredicateFootprintLimitsV1 := {
  Version : string;
  MaxRawLiteralsPerQuery : Z;
  MaxUniqueAtomsPerQuery : Z;
  MaxAtomPayloadBytes : Z;
  MaxTotalAtomPayloadBytes : Z;
}.

Definition footprint_Validate (p : PredicateFootprintLimitsV1) : result unit :=
  fail_if (negb (bool_decide (Version p = PredicateFootprintV1)) || (MaxRawLiteralsPerQuery p <=? 0) ||
           (MaxUniqueAtomsPerQuery p <=? 0) || (MaxPredicateAtomsHardLimit <? MaxUniqueAtomsPerQuery p) ||
           (MaxRawLiteralsPerQuery p <? MaxUniqueAtomsPerQuery p) || (MaxAtomPayloadBytes p <=? 0) ||
           (MaxTotalAtomPayloadBytes p <? MaxAtomPayloadBytes p))
    (ErrW ErrInvalidBudget "invalid V5 predicate_footprint limits").

Record Budget := {
  MaxQueries : Z;
  MaxRows : Z;
  MaxDBTime : Z;
  PerQueryTimeout : Z;
  TaskTTL : Z;
  MaxReleaseFacts : Z;
  MaxInfluenceFacts : Z;
  MaxOutcomeFacts : Z;
  ExposureProfileVersion : string;
  PredicateFootprint : option PredicateFootprintLimitsV1;
}.

Definition isOutcomeExposureProfile (profile : string) : bool :=
  bool_decide (profile = ProfileV3) || bool_decide (profile = ProfileV4) || bool_decide (profile = ProfileV5).

Definition is_nil {A} (o : option A) : bool := match o with None => true | Some _ => false end.

Definition invalid (text : string) : goerror := ErrW ErrInvalidBudget text.

(** [Budget.Validate]: the first matching case of the switch decides. *)
Definition Validate (b : Budget) : result unit :=
  let r := MaxReleaseFacts b in let i := MaxInfluenceFacts b in
  let o := MaxOutcomeFacts b in let v := ExposureProfileVersion b in
  if MaxQueries b <=? 0 then Err (invalid "max_queries must be positive")
  else if MaxRows b <=? 0 then Err (invalid "max_rows must be positive")
  else if MaxDBTime b <=? 0 then Err (invalid "max_db_time must be positive")
  else if PerQueryTimeout b <=? 0 then Err (invalid "per_query_timeout must be positive")
  else if MaxDBTime b <? PerQueryTimeout b then Err (invalid "per_query_timeout exceeds max_db_time")
  else if TaskTTL b <=? 0 then Err (invalid "task_ttl must be positive")
  else if (r <? 0) || (i <? 0) || (o <? 0) then Err (invalid "exposure limits cannot be negative")
  else if xorb (r =? 0) (i =? 0) then Err (invalid "release and influence limits must both be enabled or disabled")
  else if (0 <? r) && blank v then Err (invalid "exposure_profile_version is required")
  else if (r =? 0) && negb (bool_decide (v = "")) then Err (invalid "exposure_profile_version requires exposure limits")
  else if isOutcomeExposureProfile v && (o <=? 0) then Err (invalid "V3/V4/V5 requires a positive outcome limit")
  else if negb (isOutcomeExposureProfile v) && negb (o =? 0) then Err (invalid "outcome limit requires V3/V4/V5")
  else if bool_decide (v = ProfileV5) && is_nil (PredicateFootprint b) then Err (invalid "V5 requires predicate_footprint limits")
  else if negb (bool_decide (v = ProfileV5)) && negb (is_nil (PredicateFootprint b)) then Err (invalid "predicate_footprint limits require V5")
  else match PredicateFootprint b with
       | Some p => footprint_Validate p
       | None => Ok tt
       end.

Definition predicateFootprintWithin (child parent : option PredicateFootprintLimitsV1) : bool :=
  match child, parent with
  | Some c, Some p =>
      bool_decide (Version c = Version p) && (MaxRawLiteralsPerQuery c <=? MaxRawLiteralsPerQuery p) &&
      (MaxUniqueAtomsPerQuery c <=? MaxUniqueAtomsPerQuery p) &&
      (MaxAtomPayloadBytes c <=? MaxAtomPayloadBytes p) &&
      (MaxTotalAtomPayloadBytes c <=? MaxTotalAtomPayloadBytes p)
  | None, None => true
  | _, _ => false
  end.

Definition Within (b parent : Budget) : bool :=
  (MaxQueries b <=? MaxQueries parent) && (MaxRows b <=? MaxRows parent) &&
  (MaxDBTime b <=? MaxDBTime parent) && (PerQueryTimeout b <=? PerQueryTimeout parent) &&
  (TaskTTL b <=? TaskTTL parent) && (MaxReleaseFacts b <=? MaxReleaseFacts parent) &&
  (MaxInfluenceFacts b <=? MaxInfluenceFacts parent) && (MaxOutcomeFacts b <=? MaxOutcomeFacts parent) &&
  bool_decide (ExposureProfileVersion b = ExposureProfileVersion parent) &&
  predicateFootprintWithin (PredicateFootprint b) (PredicateFootprint parent).

Definition EnsureWithin (b parent : Budget) : result unit :=
  Validate b ≫= fun _ =>
  map_err (ErrCtx "parent") (Validate parent) ≫= fun _ =>
  fail_if (negb (Within b parent)) ErrBudgetExpansion.

(** ** The meaning of a valid budget *)

Definition footprint_ok (p : PredicateFootprintLimitsV1) : Prop :=
  Version p = PredicateFootprintV1 /\
  0 < MaxUniqueAtomsPerQuery p <= MaxPredicateAtomsHardLimit /\
  MaxUniqueAtomsPerQuery p <= MaxRawLiteralsPerQuery p /\
  0 < MaxAtomPayloadBytes p <= MaxTotalAtomPayloadBytes p.

Lemma footprint_Validate_ok p : footprint_Validate p = Ok tt <-> footprint_ok p.
Proof.
  unfold footprint_Validate, footprint_ok. rewrite fail_if_ok.
  autorewrite with go_bool. split; intros; repeat split; try tauto; lia.
Qed.

(** The exposure profiles a budget can carry, and the limits each requires. *)
Inductive exposure_class (v : string) (r i o : Z) (p : option PredicateFootprintLimitsV1) : Prop :=
  | class_none : v = "" -> r = 0 -> i = 0 -> o = 0 -> p = None -> exposure_class v r i o p
  | class_legacy : blank v = false -> isOutcomeExposureProfile v = false ->
      0 < r -> 0 < i -> o = 0 -> p = None -> exposure_class v r i o p
  | class_outcome : v = ProfileV3 \/ v = ProfileV4 ->
      0 < r -> 0 < i -> 0 < o -> p = None -> exposure_class v r i o p
  | class_predicate q : v = ProfileV5 ->
      0 < r -> 0 < i -> 0 < o -> p = Some q -> footprint_ok q -> exposure_class v r i o p.

Definition resources_ok (queries rows db timeout ttl : Z) : Prop :=
  0 < queries /\ 0 < rows /\ 0 < timeout <= db /\ 0 < ttl.

(** The checks on the exposure fields, which both budget forms perform. *)
Definition exposure_checks (v : string) (r i o : Z) (p : option PredicateFootprintLimitsV1) : bool :=
  negb ((r <? 0) || (i <? 0) || (o <? 0)) && negb (xorb (r =? 0) (i =? 0)) &&
  negb ((0 <? r) && blank v) && negb ((r =? 0) && negb (bool_decide (v = ""))) &&
  negb (isOutcomeExposureProfile v && (o <=? 0)) && negb (negb (isOutcomeExposureProfile v) && negb (o =? 0)) &&
  negb (bool_decide (v = ProfileV5) && is_nil p) && negb (negb (bool_decide (v = ProfileV5)) && negb (is_nil p)) &&
  match p with Some q => is_ok (footprint_Validate q) | None => true end.

Lemma isOutcome_iff v :
  isOutcomeExposureProfile v = true <-> v = ProfileV3 \/ v = ProfileV4 \/ v = ProfileV5.
Proof. unfold isOutcomeExposureProfile. autorewrite with go_bool. tauto. Qed.

Lemma exposure_checks_class v r i o p :
  exposure_checks v r i o p = true <-> exposure_class v r i o p.
Proof.
  assert (Hp : forall q, is_ok (footprint_Validate q) = true <-> footprint_ok q)
    by (intros q; rewrite <- unit_ok_iff; apply footprint_Validate_ok).
  unfold exposure_checks. split.
  - intros H. rewrite !andb_true_iff, !negb_true_iff in H.
    destruct H as ((((((((H1 & H2) & H3) & H4) & H5) & H6) & H7) & H8) & H9).
    destruct (isOutcomeExposureProfile v) eqn:Ev.
    + destruct (bool_decide_reflect (v = ProfileV5)) as [->|Hv].
      * destruct p as [q|]; [|done]. apply Hp in H9.
        assert (r <> 0 /\ i <> 0) as [] by (destruct (Z.eqb_spec r 0), (Z.eqb_spec i 0); done).
        apply (class_predicate _ _ _ _ _ q); try done; lia.
      * destruct p as [q|]; [done|]. apply isOutcome_iff in Ev.
        assert (v <> "") by (destruct Ev as [->|[->| ->]]; done).
        assert (r <> 0 /\ i <> 0) as [].
        { destruct (Z.eqb_spec r 0), (Z.eqb_spec i 0); try done.
          rewrite bool_decide_eq_false_2 in H4 by done. done. }
        apply class_outcome; [tauto|lia..|done].
    + destruct (bool_decide_reflect (v = ProfileV5)) as [->|Hv]; [done|].
      destruct p as [q|]; [done|].
      destruct (Z.eqb_spec r 0) as [->|Hr], (Z.eqb_spec i 0) as [->|Hi]; try done.
      * assert (v = "") by (by destruct (bool_decide_reflect (v = ""))).
        apply class_none; (done || lia).
      * assert (blank v = false) by (destruct (blank v); [lia|done]).
        apply class_legacy; (done || lia).
  - intros [-> -> -> -> ->| Hb Ho ? ? -> ->| Hv ? ? ? ->| q -> ? ? ? -> Hq].
    + reflexivity.
    + assert (v <> ProfileV5) by (intros ->; done).
      rewrite Hb, Ho, (bool_decide_eq_false_2 (v = ProfileV5)) by done.
      rewrite (proj2 (Z.eqb_neq r 0)), (proj2 (Z.eqb_neq i 0)) by lia. cbn [xorb is_nil negb andb]. lia.
    + rewrite (proj2 (isOutcome_iff v)) by tauto.
      assert (v <> ProfileV5) by (destruct Hv as [->| ->]; done).
      assert (blank v = false) as -> by (destruct Hv as [->| ->]; reflexivity).
      rewrite (bool_decide_eq_false_2 (v = ProfileV5)) by done.
      rewrite (proj2 (Z.eqb_neq r 0)), (proj2 (Z.eqb_neq i 0)) by lia. cbn [xorb is_nil negb andb]. lia.
    + rewrite (proj2 (Hp q) Hq). change (isOutcomeExposureProfile ProfileV5) with true.
      change (blank ProfileV5) with false.
      change (bool_decide (ProfileV5 = ProfileV5)) with true.
      rewrite (proj2 (Z.eqb_neq r 0)), (proj2 (Z.eqb_neq i 0)) by lia. cbn [xorb is_nil negb andb]. lia.
Qed.

Lemma budget_Validate_iff b :
  Validate b = Ok tt <->
  resources_ok (MaxQueries b) (MaxRows b) (MaxDBTime b) (PerQueryTimeout b) (TaskTTL b) /\
  exposure_class (ExposureProfileVersion b) (MaxReleaseFacts b) (MaxInfluenceFacts b)
    (MaxOutcomeFacts b) (PredicateFootprint b).
Proof.
  rewrite <- exposure_checks_class. unfold Validate, resources_ok, exposure_checks.
  repeat (case_match; [split; [done|]; intros [? ?]; exfalso; simpl in *; lia|]).
  cbn [negb andb].
  destruct (PredicateFootprint b); rewrite ?unit_ok_iff; cbn [is_ok]; intuition (lia || done).
Qed.
End Budget.

(** ** The exchange form: whole milliseconds *)
Module AuthorizationBudget.
Import Budget.

Record AuthorizationBudgetV1 := {
  aMaxQueries : Z;
  aMaxResultRows : Z;
  aMaxDBMS : Z;
  aPerQueryTimeoutMS : Z;
  aTaskTTLMS : Z;
  aMaxReleaseFacts : Z;
  aMaxInfluenceFacts : Z;
  aMaxOutcomeFacts : Z;
  aExposureProfileVersion : string;
  aPredicateFootprint : option PredicateFootprintLimitsV1;
}.

Definition Millisecond : Z := 1000000.
Definition maxDurationMilliseconds : Z := max_int64 / Millisecond.
Definition maxSafeJSONInteger : Z := 2 ^ 53 - 1.

Definition Validate (b : AuthorizationBudgetV1) : result unit :=
  let r := aMaxReleaseFacts b in let i := aMaxInfluenceFacts b in
  let o := aMaxOutcomeFacts b in let v := aExposureProfileVersion b in
  fail_if ((aMaxQueries b <=? 0) || (aMaxResultRows b <=? 0) || (aMaxDBMS b <=? 0) ||
           (aPerQueryTimeoutMS b <=? 0) || (aTaskTTLMS b <=? 0))
    (ErrNew "all authorization budget limits must be positive") ≫= fun _ =>
  fail_if (aMaxDBMS b <? aPerQueryTimeoutMS b)
    (ErrNew "per_query_timeout_ms cannot exceed max_db_ms") ≫= fun _ =>
  fail_if ((r <? 0) || (i <? 0) || (o <? 0) || xorb (r =? 0) (i =? 0))
    (ErrNew "release and influence limits must both be positive or both be disabled") ≫= fun _ =>
  fail_if ((0 <? r) && blank v)
    (ErrNew "exposure_profile_version is required when exposure accounting is enabled") ≫= fun _ =>
  fail_if ((r =? 0) && negb (bool_decide (v = "")))
    (ErrNew "exposure_profile_version requires exposure limits") ≫= fun _ =>
  fail_if (isOutcomeExposureProfile v && (o <=? 0))
    (ErrNew "V3/V4/V5 requires a positive outcome limit") ≫= fun _ =>
  fail_if (negb (isOutcomeExposureProfile v) && negb (o =? 0))
    (ErrNew "outcome limit requires V3/V4/V5") ≫= fun _ =>
  fail_if (bool_decide (v = ProfileV5) && is_nil (aPredicateFootprint b))
    (ErrNew "V5 requires predicate_footprint limits") ≫= fun _ =>
  fail_if (negb (bool_decide (v = ProfileV5)) && negb (is_nil (aPredicateFootprint b)))
    (ErrNew "predicate_footprint limits require V5") ≫= fun _ =>
  match aPredicateFootprint b with Some p => footprint_Validate p | None => Ok tt end ≫= fun _ =>
  fail_if ((maxSafeJSONInteger <? aMaxQueries b) || (maxSafeJSONInteger <? aMaxResultRows b) ||
           (maxSafeJSONInteger <? r) || (maxSafeJSONInteger <? i) || (maxSafeJSONInteger <? o) ||
           (maxDurationMilliseconds <? aMaxDBMS b) || (maxDurationMilliseconds <? aPerQueryTimeoutMS b) ||
           (maxDurationMilliseconds <? aTaskTTLMS b))
    (ErrNew "authorization budget exceeds the V1 interoperable integer or duration range").

Definition EnsureWithin (b parent : AuthorizationBudgetV1) : result unit :=
  Validate b ≫= fun _ =>
  map_err (ErrCtx "parent budget") (Validate parent) ≫= fun _ =>
  fail_if ((aMaxQueries parent <? aMaxQueries b) || (aMaxResultRows parent <? aMaxResultRows b) ||
           (aMaxDBMS parent <? aMaxDBMS b) || (aPerQueryTimeoutMS parent <? aPerQueryTimeoutMS b) ||
           (aTaskTTLMS parent <? aTaskTTLMS b) || (aMaxReleaseFacts parent <? aMaxReleaseFacts b) ||
           (aMaxInfluenceFacts parent <? aMaxInfluenceFacts b) || (aMaxOutcomeFacts parent <? aMaxOutcomeFacts b) ||
           negb (bool_decide (aExposureProfileVersion b = aExposureProfileVersion parent)) ||
           negb (predicateFootprintWithin (aPredicateFootprint b) (aPredicateFootprint parent)))
    (ErrNew "authorization budget exceeds parent").

(** [time.Duration.Milliseconds] and [Duration.Truncate], rounding toward zero. *)
Definition Milliseconds (d : Z) : Z := Z.quot d Millisecond.
Definition Truncate (d m : Z) : Z := if m <=? 0 then d else d - Z.rem d m.
(** [time.Duration(ms) * time.Millisecond]. *)
Definition from_ms (ms : Z) : Z := wrap_int64 (ms * Millisecond).

Arguments Milliseconds : simpl never.
Arguments from_ms : simpl never.

(** [authorizationBudget] of the gateway. *)
Definition authorizationBudget (b : Budget) : AuthorizationBudgetV1 := {|
  aMaxQueries := MaxQueries b; aMaxResultRows := MaxRows b;
  aMaxDBMS := Milliseconds (MaxDBTime b); aPerQueryTimeoutMS := Milliseconds (PerQueryTimeout b);
  aTaskTTLMS := Milliseconds (TaskTTL b); aMaxReleaseFacts := MaxReleaseFacts b;
  aMaxInfluenceFacts := MaxInfluenceFacts b; aMaxOutcomeFacts := MaxOutcomeFacts b;
  aExposureProfileVersion := ExposureProfileVersion b; aPredicateFootprint := PredicateFootprint b |}.

(** ** Lemmas *)
Definition interoperable (b : AuthorizationBudgetV1) : Prop :=
  aMaxQueries b <= maxSafeJSONInteger /\ aMaxResultRows b <= maxSafeJSONInteger /\
  aMaxReleaseFacts b <= maxSafeJSONInteger /\ aMaxInfluenceFacts b <= maxSafeJSONInteger /\
  aMaxOutcomeFacts b <= maxSafeJSONInteger /\ aMaxDBMS b <= maxDurationMilliseconds /\
  aPerQueryTimeoutMS b <= maxDurationMilliseconds /\ aTaskTTLMS b <= maxDurationMilliseconds.

Lemma exchange_Validate_iff b :
  Validate b = Ok tt <->
  resources_ok (aMaxQueries b) (aMaxResultRows b) (aMaxDBMS b) (aPerQueryTimeoutMS b) (aTaskTTLMS b) /\
  exposure_class (aExposureProfileVersion b) (aMaxReleaseFacts b) (aMaxInfluenceFacts b)
    (aMaxOutcomeFacts b) (aPredicateFootprint b) /\ interoperable b.
Proof.
  rewrite <- exposure_checks_class. unfold Validate, resources_ok, exposure_checks, interoperable.
  cbv zeta. rewrite !fail_if_bind_ok.
  assert (Hp : (match aPredicateFootprint b with Some p => footprint_Validate p | None => Ok tt end = Ok tt)
    <-> match aPredicateFootprint b with Some q => is_ok (footprint_Validate q) | None => true end = true).
  { destruct (aPredicateFootprint b); [apply unit_ok_iff|done]. }
  rewrite seq_ok, fail_if_ok, !andb_true_iff, !negb_true_iff, <- Hp.
  split.
  - intros (H1 & H2 & H3 & H4 & H5 & H6 & H7 & H8 & H9 & H10 & H11).
    apply orb_false_iff in H3 as [H3 ?]. repeat split; (done || lia).
  - intros H; decompose [and] H. repeat split; try (done || lia).
    by apply orb_false_iff.
Qed.

Lemma EnsureWithin_iff b parent :
  EnsureWithin b parent = Ok tt <->
  Validate b = Ok tt /\ Validate parent = Ok tt /\
  aMaxQueries b <= aMaxQueries parent /\ aMaxResultRows b <= aMaxResultRows parent /\
  aMaxDBMS b <= aMaxDBMS parent /\ aPerQueryTimeoutMS b <= aPerQueryTimeoutMS parent /\
  aTaskTTLMS b <= aTaskTTLMS parent /\ aMaxReleaseFacts b <= aMaxReleaseFacts parent /\
  aMaxInfluenceFacts b <= aMaxInfluenceFacts parent /\ aMaxOutcomeFacts b <= aMaxOutcomeFacts parent /\
  aExposureProfileVersion b = aExposureProfileVersion parent /\
  predicateFootprintWithin (aPredicateFootprint b) (aPredicateFootprint parent) = true.
Proof.
  unfold EnsureWithin. rewrite !seq_ok, map_err_ok, fail_if_ok.
  autorewrite with go_bool. tauto.
Qed.

Lemma predicateFootprintWithin_refl p : predicateFootprintWithin p p = true.
Proof. destruct p; cbn; [|done]. rewrite bool_decide_eq_true_2 by done. lia. Qed.

Lemma predicateFootprintWithin_trans a b c :
  predicateFootprintWithin a b = true -> predicateFootprintWithin b c = true ->
  predicateFootprintWithin a c = true.
Proof.
  destruct a, b, c; cbn; try done. autorewrite with go_bool. intuition (congruence || lia).
Qed.

Lemma EnsureWithin_refl b : Validate b = Ok tt -> EnsureWithin b b = Ok tt.
Proof.
  intros H. rewrite EnsureWithin_iff. repeat split; try (done || lia).
  apply predicateFootprintWithin_refl.
Qed.

Lemma EnsureWithin_trans a b c :
  EnsureWithin a b = Ok tt -> EnsureWithin b c = Ok tt -> EnsureWithin a c = Ok tt.
Proof.
  rewrite !EnsureWithin_iff. intros H1 H2.
  decompose [and] H1; decompose [and] H2. repeat split; try (done || lia || congruence).
  eapply predicateFootprintWithin_trans; eauto.
Qed.

(** The native form of an exchanged budget. *)
Definition to_native (b : AuthorizationBudgetV1) : Budget := {|
  MaxQueries := aMaxQueries b; MaxRows := aMaxResultRows b;
  MaxDBTime := from_ms (aMaxDBMS b); PerQueryTimeout := from_ms (aPerQueryTimeoutMS b);
  TaskTTL := from_ms (aTaskTTLMS b); MaxReleaseFacts := aMaxReleaseFacts b;
  MaxInfluenceFacts := aMaxInfluenceFacts b; MaxOutcomeFacts := aMaxOutcomeFacts b;
  ExposureProfileVersion := aExposureProfileVersion b; PredicateFootprint := aPredicateFootprint b |}.

Lemma from_ms_exact ms : 0 <= ms <= maxDurationMilliseconds -> from_ms ms = ms * Millisecond.
Proof.
  intros H. apply wrap_int64_id. unfold int64_range, maxDurationMilliseconds in *.
  pose proof (Z.mul_div_le max_int64 Millisecond). unfold Millisecond, max_int64 in *. lia.
Qed.

Lemma Milliseconds_from_ms ms : 0 <= ms <= maxDurationMilliseconds -> Milliseconds (from_ms ms) = ms.
Proof. intros H. rewrite from_ms_exact by done. unfold Milliseconds. apply Z.quot_mul. done. Qed.

(** the exchange form loses nothing.  An exchanged budget that its
    validator accepts converts to nanoseconds without overflow, the native
    validator accepts the result, and converting back gives the same budget. *)
Theorem authorization_budget_roundtrip b :
  Validate b = Ok tt ->
  Budget.Validate (to_native b) = Ok tt /\ authorizationBudget (to_native b) = b.
Proof.
  rewrite exchange_Validate_iff, Budget.budget_Validate_iff.
  unfold resources_ok, interoperable. intros (Hr & He & Hi).
  assert (Hm : 0 < Millisecond) by done. split.
  - split; [|exact He]. unfold resources_ok. cbn.
    rewrite !from_ms_exact by lia. nia.
  - destruct b; unfold authorizationBudget; cbn in *.
    by rewrite !Milliseconds_from_ms by lia.
Qed.

(** A sub-millisecond limit is truncated to zero by the conversion, so its
    exchange form is refused: budgets must be whole milliseconds. *)
Definition whole_ms (b : Budget) : Prop :=
  Forall (fun d => Z.rem d Millisecond = 0) [MaxDBTime b; PerQueryTimeout b; TaskTTL b].

Lemma whole_ms_exact d : Z.rem d Millisecond = 0 -> d = Milliseconds d * Millisecond.
Proof. intros H. unfold Milliseconds. pose proof (Z.quot_rem' d Millisecond). lia. Qed.

Lemma authorizationBudget_valid x :
  whole_ms x -> interoperable (authorizationBudget x) ->
  (Validate (authorizationBudget x) = Ok tt <-> Budget.Validate x = Ok tt).
Proof.
  intros Hw Hi. rewrite exchange_Validate_iff, Budget.budget_Validate_iff.
  inversion_clear Hw as [|?? H1 Hw']. inversion_clear Hw' as [|?? H2 Hw''].
  inversion_clear Hw'' as [|?? H3 _]. apply whole_ms_exact in H1, H2, H3.
  unfold resources_ok; cbn. revert H1 H2 H3.
  generalize (Milliseconds (MaxDBTime x)), (Milliseconds (PerQueryTimeout x)), (Milliseconds (TaskTTL x)).
  unfold Millisecond. intuition lia.
Qed.

(** on whole-millisecond budgets inside the interoperable range the two
    validators accept the same budgets, and the two orders agree. *)
Theorem authorization_budget_agrees b parent :
  whole_ms b -> whole_ms parent ->
  interoperable (authorizationBudget b) -> interoperable (authorizationBudget parent) ->
  (EnsureWithin (authorizationBudget b) (authorizationBudget parent) = Ok tt <->
   Budget.EnsureWithin b parent = Ok tt).
Proof.
  intros Hb Hp Ib Ip. rewrite EnsureWithin_iff, !authorizationBudget_valid by done.
  unfold Budget.EnsureWithin, Within. rewrite !seq_ok, map_err_ok, fail_if_ok.
  autorewrite with go_bool.
  assert (Ho : forall d e, Z.rem d Millisecond = 0 -> Z.rem e Millisecond = 0 ->
    Milliseconds d <= Milliseconds e <-> d <= e).
  { intros d e H1%whole_ms_exact H2%whole_ms_exact. revert H1 H2.
    generalize (Milliseconds d), (Milliseconds e). unfold Millisecond. lia. }
  inversion_clear Hb as [|?? B1 Hb']; inversion_clear Hb' as [|?? B2 Hb'']; inversion_clear Hb'' as [|?? B3 _].
  inversion_clear Hp as [|?? P1 Hp']; inversion_clear Hp' as [|?? P2 Hp'']; inversion_clear Hp'' as [|?? P3 _].
  cbn. rewrite !Ho by done. tauto.
Qed.

(** Witnesses *)
Definition demo_footprint : PredicateFootprintLimitsV1 := {|
  Version := PredicateFootprintV1; MaxRawLiteralsPerQuery := 8; MaxUniqueAtomsPerQuery := 4;
  MaxAtomPayloadBytes := 100; MaxTotalAtomPayloadBytes := 400 |}.
Definition demo_exchange : AuthorizationBudgetV1 := {|
  aMaxQueries := 10; aMaxResultRows := 1000; aMaxDBMS := 5000; aPerQueryTimeoutMS := 1000;
  aTaskTTLMS := 60000; aMaxReleaseFacts := 5; aMaxInfluenceFacts := 5; aMaxOutcomeFacts := 5;
  aExposureProfileVersion := ProfileV5; aPredicateFootprint := Some demo_footprint |}.

Lemma authorization_budget_roundtrip_witness :
  Budget.Validate (to_native demo_exchange) = Ok tt /\
  authorizationBudget (to_native demo_exchange) = demo_exchange.
Proof. apply authorization_budget_roundtrip. vm_compute. reflexivity. Defined.

Lemma authorization_budget_agrees_witness :
  EnsureWithin (authorizationBudget (to_native demo_exchange)) (authorizationBudget (to_native demo_exchange)) = Ok tt.
Proof.
  apply (authorization_budget_agrees (to_native demo_exchange) (to_native demo_exchange)).
  - repeat constructor.
  - repeat constructor.
  - vm_compute. repeat split; discriminate.
  - vm_compute. repeat split; discriminate.
  - vm_compute. reflexivity.
Defined.
End AuthorizationBudget.
