(* ===== verification/Task.v ===== *)
(** * The task state machine

    [src/internal/domain/task.go].  States, terminal reasons and events are
    Go strings, so values outside the declared constants exist and are refused
    by the validators.  A [time.Time] is its distance in nanoseconds from the
    zero time: [IsZero] is [= 0], [Before] is [<]. *)

From S2P Require Import Prelude GoBytes.

Module Task.

Abbreviation time := Z.
Definition IsZero (t : time) : bool := t =? 0.
Definition Before (a b : time) : bool := a <? b.

Definition TaskStateAwaitingSubmission := "AWAITING_SUBMISSION".
Definition TaskStateAwaitingApproval := "AWAITING_APPROVAL".
Definition TaskStateActive := "ACTIVE".
Definition TaskStateArchived := "ARCHIVED".

Definition TerminalReasonCompleted := "completed".
Definition TerminalReasonBudgetExhausted := "budget_exhausted".
Definition TerminalReasonRejected := "rejected".
Definition TerminalReasonExpired := "expired".
Definition TerminalReasonRevoked := "revoked".
Definition TerminalReasonFailed := "failed".

Definition TaskEventSubmit := "submit".
Definition TaskEventApprove := "approve".
Definition TaskEventReject := "reject".
Definition TaskEventComplete := "complete".
Definition TaskEventBudgetExhausted := "budget_exhausted".
Definition TaskEventExpire := "expire".
Definition TaskEventRevoke := "revoke".
Definition TaskEventFail := "fail".

Definition ErrInvalidTask := ErrNew "invalid task".
Definition ErrInvalidTaskState := ErrNew "invalid task state".
Definition ErrInvalidTransition := ErrNew "invalid task transition".
Definition ErrDuplicateTransition := ErrNew "duplicate task transition".
Definition ErrTerminalTask := ErrNew "task is terminal".
Definition ErrStaleTransition := ErrNew "stale task transition".
Definition ErrTransitionExpired := ErrNew "task transition after expiry".

Record Task := {
  ID : string;
  Subject : string;
  Purpose : string;
  RequestedProducts : list string;
  Sensitivity : string;
  CatalogVersion : string;
  State : string;
  TerminalReason : string;
  LastEvent : string;
  CreatedAt : time;
  UpdatedAt : time;
  ExpiresAt : time;
}.

Definition TaskState_Validate (s : string) : result unit :=
  if decide (s ∈ [TaskStateAwaitingSubmission; TaskStateAwaitingApproval; TaskStateActive; TaskStateArchived])
  then Ok tt else Err (ErrW ErrInvalidTaskState "%q").

Definition TerminalReason_Validate (r : string) : result unit :=
  if decide (r ∈ [TerminalReasonCompleted; TerminalReasonBudgetExhausted; TerminalReasonRejected;
                  TerminalReasonExpired; TerminalReasonRevoked; TerminalReasonFailed])
  then Ok tt else Err (ErrW ErrInvalidTask "invalid terminal reason %q").

Definition Validate (t : Task) : result unit :=
  fail_if (blank (ID t) || blank (Subject t) || blank (Purpose t) || blank (CatalogVersion t))
    (ErrW ErrInvalidTask "id, subject, purpose, and catalog_version are required") ≫= fun _ =>
  fail_if (IsZero (CreatedAt t) || IsZero (UpdatedAt t) || Before (UpdatedAt t) (CreatedAt t))
    (ErrW ErrInvalidTask "invalid timestamps") ≫= fun _ =>
  TaskState_Validate (State t) ≫= fun _ =>
  if decide (State t = TaskStateArchived) then TerminalReason_Validate (TerminalReason t)
  else fail_if (negb (bool_decide (TerminalReason t = "")))
         (ErrW ErrInvalidTask "non-terminal task has terminal_reason").

Definition NewTask (id subject purpose catalogVersion : string) (now : time) : result Task :=
  let task := {| ID := id; Subject := subject; Purpose := purpose; RequestedProducts := [];
                 Sensitivity := ""; CatalogVersion := catalogVersion;
                 State := TaskStateAwaitingSubmission; TerminalReason := ""; LastEvent := "";
                 CreatedAt := now; UpdatedAt := now; ExpiresAt := 0 |} in
  Validate task ≫= fun _ => Ok task.

Definition IsTerminal (t : Task) : bool := bool_decide (State t = TaskStateArchived).

Definition invalidTransition (state event : string) : goerror :=
  ErrW ErrInvalidTransition "event %q from %q".

(** The next state and terminal reason of an event; [from s k] is the guard
    [if state != s { return invalidTransition(state, event) }]. *)
Definition transitionFor (state event : string) : result (string * string) :=
  let from required next :=
    if decide (state = required) then Ok next else Err (invalidTransition state event) in
  if decide (event = TaskEventSubmit) then from TaskStateAwaitingSubmission (TaskStateAwaitingApproval, "")
  else if decide (event = TaskEventApprove) then from TaskStateAwaitingApproval (TaskStateActive, "")
  else if decide (event = TaskEventReject) then from TaskStateAwaitingApproval (TaskStateArchived, TerminalReasonRejected)
  else if decide (event = TaskEventComplete) then from TaskStateActive (TaskStateArchived, TerminalReasonCompleted)
  else if decide (event = TaskEventBudgetExhausted) then from TaskStateActive (TaskStateArchived, TerminalReasonBudgetExhausted)
  else if decide (event = TaskEventExpire) then Ok (TaskStateArchived, TerminalReasonExpired)
  else if decide (event = TaskEventRevoke) then Ok (TaskStateArchived, TerminalReasonRevoked)
  else if decide (event = TaskEventFail) then Ok (TaskStateArchived, TerminalReasonFailed)
  else Err (invalidTransition state event).

Definition with_transition (t : Task) (next reason event : string) (at_ : time) : Task := {|
  ID := ID t; Subject := Subject t; Purpose := Purpose t; RequestedProducts := RequestedProducts t;
  Sensitivity := Sensitivity t; CatalogVersion := CatalogVersion t;
  State := next; TerminalReason := reason; LastEvent := event;
  CreatedAt := CreatedAt t; UpdatedAt := at_; ExpiresAt := ExpiresAt t |}.

(** [Transition] on a pointer: [None] is the nil receiver, the result is the
    value the pointer holds afterwards; on an error it is unchanged. *)
Definition Transition (t : option Task) (event : string) (at_ : time) : result Task :=
  match t with
  | None => Err (ErrW ErrInvalidTask "nil task")
  | Some t =>
      fail_if (IsZero at_) (ErrW ErrInvalidTransition "event time is required") ≫= fun _ =>
      fail_if (bool_decide (event = LastEvent t) && negb (bool_decide (event = "")))
        (ErrW ErrDuplicateTransition "%s") ≫= fun _ =>
      fail_if (IsTerminal t) ErrTerminalTask ≫= fun _ =>
      fail_if (negb (IsZero (UpdatedAt t)) && Before at_ (UpdatedAt t)) ErrStaleTransition ≫= fun _ =>
      fail_if (negb (bool_decide (event = TaskEventExpire)) && negb (IsZero (ExpiresAt t)) &&
               negb (Before at_ (ExpiresAt t))) ErrTransitionExpired ≫= fun _ =>
      '(next, reason) ← transitionFor (State t) event;
      Ok (with_transition t next reason event at_)
  end.

(** ** Runs

    A run starts from a created task; the owner applies events and may set the
    deadline between them.  [reach t evs] lists the accepted events, in order. *)
Definition with_expiry (t : Task) (e : time) : Task := {|
  ID := ID t; Subject := Subject t; Purpose := Purpose t; RequestedProducts := RequestedProducts t;
  Sensitivity := Sensitivity t; CatalogVersion := CatalogVersion t; State := State t;
  TerminalReason := TerminalReason t; LastEvent := LastEvent t; CreatedAt := CreatedAt t;
  UpdatedAt := UpdatedAt t; ExpiresAt := e |}.

Inductive reach : Task -> list string -> Prop :=
  | reach_new id s p c now t : NewTask id s p c now = Ok t -> reach t []
  | reach_event t evs event at_ t' :
      reach t evs -> Transition (Some t) event at_ = Ok t' -> reach t' (evs ++ [event])
  | reach_deadline t evs e : reach t evs -> reach (with_expiry t e) evs.

(** The reason recorded by each terminal event. *)
Definition terminal_events : list (string * string) :=
  [ (TaskEventExpire, TerminalReasonExpired); (TaskEventRevoke, TerminalReasonRevoked);
    (TaskEventFail, TerminalReasonFailed) ].

(** The lives of a task: state, terminal reason and accepted events. *)
Inductive life : string -> string -> list string -> Prop :=
  | life_new : life TaskStateAwaitingSubmission "" []
  | life_submitted : life TaskStateAwaitingApproval "" [TaskEventSubmit]
  | life_active : life TaskStateActive "" [TaskEventSubmit; TaskEventApprove]
  | life_rejected : life TaskStateArchived TerminalReasonRejected [TaskEventSubmit; TaskEventReject]
  | life_completed :
      life TaskStateArchived TerminalReasonCompleted [TaskEventSubmit; TaskEventApprove; TaskEventComplete]
  | life_exhausted :
      life TaskStateArchived TerminalReasonBudgetExhausted
        [TaskEventSubmit; TaskEventApprove; TaskEventBudgetExhausted]
  | life_stopped s evs event reason :
      life s "" evs -> s <> TaskStateArchived -> (event, reason) ∈ terminal_events ->
      life TaskStateArchived reason (evs ++ [event]).

Lemma Transition_ok t event at_ t' :
  Transition (Some t) event at_ = Ok t' <->
  at_ <> 0 /\ ~ (event = LastEvent t /\ event <> "") /\ State t <> TaskStateArchived /\
  (UpdatedAt t = 0 \/ UpdatedAt t <= at_) /\
  (event = TaskEventExpire \/ ExpiresAt t = 0 \/ at_ < ExpiresAt t) /\
  exists next reason, transitionFor (State t) event = Ok (next, reason) /\
    t' = with_transition t next reason event at_.
Proof.
  unfold Transition. rewrite !fail_if_bind_ok, bind_ok. unfold IsZero, Before, IsTerminal.
  rewrite !andb_false_iff, !negb_false_iff, !bool_decide_eq_false, !bool_decide_eq_true,
    !Z.eqb_neq, !Z.eqb_eq, !Z.ltb_ge, !Z.ltb_lt.
  split.
  - intros (? & ? & ? & ? & ? & ([n r] & ? & [= <-])). repeat split; try tauto. eauto.
  - intros (? & ? & ? & ? & ? & (n & r & ? & ->)).
    split; [done|]. split; [destruct (decide (event = "")); tauto|].
    split; [done|]. split; [tauto|]. split; [tauto|]. by exists (n, r).
Qed.

(** The guard on the source state, event by event. *)
Lemma transitionFor_ok s event next reason :
  transitionFor s event = Ok (next, reason) ->
  (event = TaskEventSubmit /\ s = TaskStateAwaitingSubmission /\ next = TaskStateAwaitingApproval /\ reason = "") \/
  (event = TaskEventApprove /\ s = TaskStateAwaitingApproval /\ next = TaskStateActive /\ reason = "") \/
  (event = TaskEventReject /\ s = TaskStateAwaitingApproval /\ next = TaskStateArchived /\ reason = TerminalReasonRejected) \/
  (event = TaskEventComplete /\ s = TaskStateActive /\ next = TaskStateArchived /\ reason = TerminalReasonCompleted) \/
  (event = TaskEventBudgetExhausted /\ s = TaskStateActive /\ next = TaskStateArchived /\ reason = TerminalReasonBudgetExhausted) \/
  (next = TaskStateArchived /\ (event, reason) ∈ terminal_events).
Proof.
  unfold transitionFor, terminal_events. repeat case_decide; intros [= <- <-]; subst; try tauto.
  all: do 5 right; split; [done|set_solver].
Qed.

Lemma life_step s r evs event next reason :
  life s r evs -> s <> TaskStateArchived -> transitionFor s event = Ok (next, reason) ->
  life next reason (evs ++ [event]).
Proof.
  intros Hl Hs Ht. assert (r = "") as -> by (destruct Hl; done).
  apply transitionFor_ok in Ht. destruct_or!; destruct_and!; subst.
  1-5: inversion Hl; subst; try done; constructor.
  by eapply life_stopped.
Qed.

Lemma life_valid s r evs :
  life s r evs ->
  s ∈ [TaskStateAwaitingSubmission; TaskStateAwaitingApproval; TaskStateActive; TaskStateArchived] /\
  (s = TaskStateArchived ->
   r ∈ [TerminalReasonCompleted; TerminalReasonBudgetExhausted; TerminalReasonRejected;
        TerminalReasonExpired; TerminalReasonRevoked; TerminalReasonFailed]) /\
  (s <> TaskStateArchived -> r = "").
Proof.
  destruct 1 as [| | | | | |? ? ? ? ? ? He]; repeat split; try done; try set_solver.
Qed.

Lemma Task_Validate_ok t :
  Validate t = Ok tt <->
  (blank (ID t) = false /\ blank (Subject t) = false /\ blank (Purpose t) = false /\ blank (CatalogVersion t) = false) /\
  (CreatedAt t <> 0 /\ UpdatedAt t <> 0 /\ CreatedAt t <= UpdatedAt t) /\
  State t ∈ [TaskStateAwaitingSubmission; TaskStateAwaitingApproval; TaskStateActive; TaskStateArchived] /\
  (State t = TaskStateArchived ->
   TerminalReason t ∈ [TerminalReasonCompleted; TerminalReasonBudgetExhausted; TerminalReasonRejected;
        TerminalReasonExpired; TerminalReasonRevoked; TerminalReasonFailed]) /\
  (State t <> TaskStateArchived -> TerminalReason t = "").
Proof.
  unfold Validate, TaskState_Validate, TerminalReason_Validate, IsZero, Before.
  rewrite !seq_ok, !fail_if_ok. autorewrite with go_bool.
  destruct (decide (State t ∈ _)); [|naive_solver].
  destruct (decide (State t = TaskStateArchived)); [case_decide; naive_solver|].
  rewrite fail_if_ok. autorewrite with go_bool. naive_solver.
Qed.

Lemma reach_life t evs : reach t evs -> life (State t) (TerminalReason t) evs.
Proof.
  induction 1 as [id s p c now t Hnew|t evs event at_ t' _ IH Ht|]; [|..|done].
  - unfold NewTask in Hnew. apply seq_ok in Hnew as [_ [= <-]]. constructor.
  - apply Transition_ok in Ht as (_ & _ & Hs & _ & _ & next & reason & Hf & ->).
    by eapply life_step.
Qed.

Lemma reach_valid t evs : reach t evs -> Validate t = Ok tt.
Proof.
  intros H; pose proof (reach_life _ _ H) as Hl; revert Hl.
  induction H as [id s p c now t Hnew|t evs event at_ t' Hr IH Ht|t evs e Hr IH]; intros Hl.
  - unfold NewTask in Hnew. by apply seq_ok in Hnew as [? [= <-]].
  - specialize (IH (reach_life _ _ Hr)). apply Task_Validate_ok in IH as (Hid & Htime & _).
    apply Transition_ok in Ht as (H0 & _ & _ & Hst & _ & next & reason & _ & ->).
    apply life_valid in Hl. apply Task_Validate_ok; cbn in *. repeat split; try tauto; lia.
  - specialize (IH Hl). apply Task_Validate_ok in IH. by apply Task_Validate_ok.
Qed.

Lemma expire_archived t evs :
  reach t evs -> LastEvent t = TaskEventExpire -> State t = TaskStateArchived.
Proof.
  induction 1 as [id s p c now t Hnew|t evs event at_ t' _ IH Ht|]; [|..|done].
  - unfold NewTask in Hnew. by apply seq_ok in Hnew as [_ [= <-]].
  - apply Transition_ok in Ht as (_ & _ & Hs & _ & _ & next & reason & Hf & ->). cbn.
    intros ->. by injection Hf as <- <-.
Qed.

(** the lives of a task.  In every reachable task the state, the terminal
    reason and the accepted events are one of the declared lives: ACTIVE is
    reached only by submission and then approval, a completed or exhausted
    task was approved first, and no life has more than three events. *)
Theorem reach_lives t evs :
  reach t evs ->
  life (State t) (TerminalReason t) evs /\ (length evs <= 3)%nat /\
  (State t = TaskStateActive -> evs = [TaskEventSubmit; TaskEventApprove]).
Proof.
  intros H%reach_life. split; [done|]. split.
  - destruct H as [| | | | | |? ? ? ? H]; cbn; try lia. rewrite length_app.
    destruct H; cbn; try lia; done.
  - by destruct H.
Qed.

(** C27: the invariant of the aggregate.  Every reachable task satisfies the
    validator: its timestamps are ordered and it carries a terminal reason
    exactly when it is archived. *)
Theorem reach_validates t evs :
  reach t evs ->
  Validate t = Ok tt /\ (TerminalReason t <> "" <-> State t = TaskStateArchived).
Proof.
  intros H. split; [by eapply reach_valid|]. apply reach_life in H.
  split; [by destruct H|]. destruct H as [| | | | | |? ? ? ? ? ? He]; intros; try done.
  unfold terminal_events in He. set_solver.
Qed.

(** archived is final.  Every event on an archived task is refused. *)
Theorem archived_final t event at_ :
  State t = TaskStateArchived -> is_ok (Transition (Some t) event at_) = false.
Proof.
  intros H. destruct (Transition _ _ _) eqn:E; [|done].
  apply Transition_ok in E as (_ & _ & ? & _). done.
Qed.

(** a task can always be closed.  On a reachable task that is not archived
    the expiry event is accepted at every time that is not stale, whatever the
    deadline, and after the deadline it is the only accepted event. *)
Theorem expiry_progress t evs at_ :
  reach t evs -> State t <> TaskStateArchived -> at_ <> 0 -> UpdatedAt t <= at_ ->
  Transition (Some t) TaskEventExpire at_ =
    Ok (with_transition t TaskStateArchived TerminalReasonExpired TaskEventExpire at_) /\
  (forall event t', ExpiresAt t <> 0 -> ExpiresAt t <= at_ ->
     Transition (Some t) event at_ = Ok t' -> event = TaskEventExpire).
Proof.
  intros Hr Hs H0 Hu. split.
  - apply Transition_ok. repeat split; try tauto.
    + intros [He _]. apply Hs, (expire_archived _ _ Hr). done.
    + exists TaskStateArchived, TerminalReasonExpired. done.
  - intros event t' He Hd Ht. apply Transition_ok in Ht as (_ & _ & _ & _ & ? & _).
    destruct_or!; [done|done|lia].
Qed.

(** Witnesses: a task approved at time 30 with a deadline at 50. *)
Definition demo_new : Task := {|
  ID := "t"; Subject := "s"; Purpose := "p"; RequestedProducts := []; Sensitivity := "";
  CatalogVersion := "c"; State := TaskStateAwaitingSubmission; TerminalReason := ""; LastEvent := "";
  CreatedAt := 10; UpdatedAt := 10; ExpiresAt := 0 |}.
Definition demo_active : Task :=
  with_expiry
    (with_transition (with_transition demo_new TaskStateAwaitingApproval "" TaskEventSubmit 20)
       TaskStateActive "" TaskEventApprove 30) 50.
Definition demo_reach : reach demo_active [TaskEventSubmit; TaskEventApprove] :=
  reach_deadline _ _ 50
    (reach_event _ [TaskEventSubmit] TaskEventApprove 30 _
       (reach_event _ [] TaskEventSubmit 20 _ (reach_new "t" "s" "p" "c" 10 demo_new eq_refl) eq_refl)
       eq_refl).

Lemma reach_lives_witness :
  State demo_active = TaskStateActive /\
  life (State demo_active) (TerminalReason demo_active) [TaskEventSubmit; TaskEventApprove].
Proof. split; [reflexivity|]. exact (proj1 (reach_lives _ _ demo_reach)). Defined.

Lemma reach_validates_witness : Validate demo_active = Ok tt.
Proof. exact (proj1 (reach_validates _ _ demo_reach)). Defined.

Lemma archived_final_witness :
  is_ok (Transition (Some (with_transition demo_active TaskStateArchived TerminalReasonExpired TaskEventExpire 60))
           TaskEventComplete 70) = false.
Proof. apply archived_final. reflexivity. Defined.

Lemma expiry_progress_witness :
  Transition (Some demo_active) TaskEventExpire 60 =
    Ok (with_transition demo_active TaskStateArchived TerminalReasonExpired TaskEventExpire 60) /\
  is_ok (Transition (Some demo_active) TaskEventComplete 60) = false.
Proof.
  split; [|reflexivity].
  apply (expiry_progress demo_active _ 60 demo_reach); [discriminate|discriminate|].
  vm_compute; discriminate.
Defined.

End Task.
