(* ===== verification/Scope.v ===== *)
(** * Mandatory scope values and authorization envelopes

    The scope part of [src/internal/domain/authorization.go] and the list
    helpers of [src/internal/domain/grant.go]: which dynamic values are scope
    values, when one scope narrows another, and the checks on products and
    columns shared by the manifest and the grant core. *)

From S2P Require Import Prelude GoBytes.

(** Insertion sort of strings: [sort.Strings] (any sort gives this list). *)
Definition sort_strings (l : list string) : list string :=
  map of_bytes (merge_sort bytes_le (map to_bytes l)).

Lemma sort_strings_perm l : sort_strings l ≡ₚ l.
Proof.
  unfold sort_strings. rewrite merge_sort_Permutation, map_map.
  rewrite (map_ext _ id), map_id; [done|]. intros; apply of_to_bytes.
Qed.

Lemma sort_strings_sorted l :
  StronglySorted (fun a b => str_leb a b = true) (sort_strings l).
Proof.
  unfold sort_strings.
  assert (H : StronglySorted bytes_le (merge_sort bytes_le (map to_bytes l)))
    by (apply Sorted_StronglySorted, Sorted_merge_sort; apply _).
  induction H as [|a m _ IH Ha]; cbn; constructor; [done|].
  rewrite Forall_map. eapply Forall_impl; [exact Ha|]. intros b Hb.
  cbn. rewrite str_leb_le, !to_of_bytes. done.
Qed.

Module Scope.

(** ** List helpers of grant.go *)
Definition contains (values : list string) (target : string) : bool :=
  existsb (fun value => bool_decide (value = target)) values.

(** The loop of [firstDuplicate]: the first element equal to its predecessor. *)
Fixpoint adjacent_duplicate (previous : string) (values : list string) : string :=
  match values with
  | [] => ""
  | value :: rest => if decide (value = previous) then value else adjacent_duplicate value rest
  end.
Definition firstDuplicate (values : list string) : string :=
  match sort_strings values with
  | [] => ""
  | first :: rest => adjacent_duplicate first rest
  end.

Lemma contains_iff l x : contains l x = true <-> x ∈ l.
Proof.
  unfold contains. rewrite existsb_exists. setoid_rewrite bool_decide_eq_true.
  setoid_rewrite <- list_elem_of_In. naive_solver.
Qed.

Lemma adjacent_duplicate_empty p l :
  "" ∉ p :: l -> StronglySorted (fun a b => str_leb a b = true) (p :: l) ->
  (adjacent_duplicate p l = "" <-> NoDup (p :: l)).
Proof.
  revert p; induction l as [|x l IH]; intros p Hne Hs; cbn [adjacent_duplicate].
  { split; [|done]. intros _. apply NoDup_singleton. }
  inversion_clear Hs as [|?? Hs' Hp]. rewrite Forall_forall in Hp.
  destruct (decide (x = p)) as [->|Hxp].
  - split; [intros ->; set_solver|]. intros H. inversion_clear H. set_solver.
  - rewrite IH by (done || set_solver). rewrite (NoDup_cons p). split; [|tauto].
    intros Hnd. split; [|done]. intros [->|Hin]%elem_of_cons; [done|].
    inversion_clear Hs' as [|?? _ Hx]. rewrite Forall_forall in Hx.
    apply Hxp, str_leb_antisym; [by apply Hx|]. apply Hp. by left.
Qed.

(** An empty element makes [firstDuplicate] answer "no duplicate"; its callers
    refuse empty elements next. *)
Lemma firstDuplicate_NoDup l : "" ∉ l -> (firstDuplicate l = "" <-> NoDup l).
Proof.
  intros Hne. unfold firstDuplicate. pose proof (sort_strings_perm l) as Hp.
  pose proof (sort_strings_sorted l) as Hs.
  assert (Hne' : "" ∉ sort_strings l) by (by rewrite Hp).
  assert (NoDup (sort_strings l) <-> NoDup l) as <- by (by rewrite Hp).
  destruct (sort_strings l); [split; [constructor|done]|].
  by apply adjacent_duplicate_empty.
Qed.

(** ** Dynamic scope values

    A scope value is a Go [any].  The code inspects its dynamic type one level
    deep: strings, string slices, slices of [any], and maps to strings or to
    [any].  Every other dynamic value (numbers, booleans, nil, nested
    containers, nil maps) is an element of [Other], compared by
    [reflect.DeepEqual]. *)
Section scope.
Context {Other : Type} `{EqDecision Other}.

Inductive item := IString (s : string) | IOther (o : Other).
Inductive any :=
  | AString (s : string)
  | AStrings (l : list string)
  | AList (l : list item)
  | AStringMap (m : gmap string string)
  | AMap (m : gmap string item)
  | AOther (o : Other).

#[export] Instance item_eq_dec : EqDecision item.
Proof. solve_decision. Defined.
#[export] Instance any_eq_dec : EqDecision any.
Proof. solve_decision. Defined.

(** [anyStrings]: every element must be a string. *)
Fixpoint anyStrings (values : list item) : option (list string) :=
  match values with
  | [] => Some []
  | IString text :: rest => r ← anyStrings rest; Some (text :: r)
  | IOther _ :: _ => None
  end.

(** The same conversion for a map's values. *)
Definition item_string (i : item) : option string :=
  match i with IString s => Some s | IOther _ => None end.
Definition mapStrings (m : gmap string item) : option (gmap string string) :=
  if forallb (fun kv => match kv.2 with IString _ => true | IOther _ => false end) (map_to_list m)
  then Some (omap item_string m) else None.

Fixpoint unique_from (seen : list string) (values : list string) : bool :=
  match values with
  | [] => true
  | value :: rest =>
      if bool_decide (value = "") then false
      else if contains seen value then false
      else unique_from (value :: seen) rest
  end.
Definition uniqueNonemptyStrings (values : list string) : bool :=
  match values with [] => false | _ => unique_from [] values end.

Definition validRangeMap (values : gmap string string) : bool :=
  if bool_decide (values = ∅) then false
  else if negb (forallb (fun kv => (bool_decide (kv.1 = "from") || bool_decide (kv.1 = "to")) &&
                                    negb (bool_decide (kv.2 = ""))) (map_to_list values)) then false
  else match values !! "from", values !! "to" with
       | Some from, Some to => str_leb from to
       | _, _ => true
       end.

Definition validAuthorizationScopeValue (value : any) : bool :=
  match value with
  | AString typed => negb (bool_decide (typed = ""))
  | AStrings typed => uniqueNonemptyStrings typed
  | AList typed => match anyStrings typed with Some values => uniqueNonemptyStrings values | None => false end
  | AStringMap typed => validRangeMap typed
  | AMap typed => match mapStrings typed with Some values => validRangeMap values | None => false end
  | AOther _ => false
  end.

Definition scopeStrings (value : any) : option (list string) :=
  match value with
  | AStrings typed => Some typed
  | AList typed => anyStrings typed
  | _ => None
  end.

Definition scopeRange (value : any) : option (gmap string string) :=
  match value with
  | AStringMap typed => if validRangeMap typed then Some typed else None
  | AMap typed =>
      r ← mapStrings typed; if validRangeMap r then Some r else None
  | _ => None
  end.

(** The loop over the parent's bounds in [scopeValueNarrower]. *)
Definition bound_narrower (candidateRange : gmap string string) (kv : string * string) : bool :=
  let '(key, parentBound) := kv in
  match candidateRange !! key with
  | None => false
  | Some candidateBound =>
      negb (bool_decide (key = "from") && str_ltb candidateBound parentBound) &&
      negb (bool_decide (key = "to") && str_ltb parentBound candidateBound)
  end.

Definition scopeValueNarrower (parent candidate : any) : bool :=
  match parent with
  | AString parentText =>
      match candidate with AString candidateText => bool_decide (candidateText = parentText) | _ => false end
  | _ =>
      match scopeStrings parent with
      | Some parentValues =>
          match scopeStrings candidate with
          | Some (v :: vs) => forallb (contains parentValues) (v :: vs)
          | _ => false
          end
      | None =>
          match scopeRange parent with
          | None => bool_decide (parent = candidate)
          | Some parentRange =>
              match scopeRange candidate with
              | None => false
              | Some candidateRange =>
                  forallb (bound_narrower candidateRange) (map_to_list parentRange) &&
                  validRangeMap candidateRange
              end
          end
      end
  end.

Definition scopeMapNarrower (parent candidate : gmap string any) : bool :=
  if negb (bool_decide (size parent = size candidate)) then false
  else forallb (fun kv => match candidate !! kv.1 with
                          | Some candidateValue => scopeValueNarrower kv.2 candidateValue
                          | None => false
                          end) (map_to_list parent).

(** ** Meaning: the strings a scope value admits *)
Definition in_range (m : gmap string string) (x : string) : Prop :=
  (forall b, m !! "from" = Some b -> str_leb b x = true) /\ (forall b, m !! "to" = Some b -> str_leb x b = true).

Definition admits (v : any) (x : string) : Prop :=
  match v with
  | AString s => x = s
  | _ => match scopeStrings v with
         | Some l => x ∈ l
         | None => match scopeRange v with Some m => in_range m x | None => False end
         end
  end.

(** A binding of the scope names to strings is inside a scope when every
    scope value admits the string bound to its name. *)
Definition scope_admits (scope : gmap string any) (binding : string -> string) : Prop :=
  forall name v, scope !! name = Some v -> admits v (binding name).

Lemma scopeMapNarrower_iff p c :
  scopeMapNarrower p c = true <->
  size p = size c /\ forall name pv, p !! name = Some pv -> exists cv, c !! name = Some cv /\ scopeValueNarrower pv cv = true.
Proof.
  unfold scopeMapNarrower. case_bool_decide as Hs; cbn; [|naive_solver].
  rewrite forallb_forall. split.
  - intros H. split; [done|]. intros name pv Hp.
    specialize (H (name, pv)). cbn in H. destruct (c !! name) eqn:E; [|exfalso].
    + eexists. split; [done|]. apply H, list_elem_of_In. by apply elem_of_map_to_list.
    + discriminate H. apply list_elem_of_In. by apply elem_of_map_to_list.
  - intros [_ H] [name pv] Hin%list_elem_of_In%elem_of_map_to_list. cbn.
    destruct (H _ _ Hin) as (cv & -> & ?). done.
Qed.

Lemma validRangeMap_bounds m f t :
  validRangeMap m = true -> m !! "from" = Some f -> m !! "to" = Some t -> str_leb f t = true.
Proof. unfold validRangeMap. intros H Hf Ht. rewrite Hf, Ht in H. repeat case_match; done. Qed.

Lemma bound_narrower_all pr cr :
  forallb (bound_narrower cr) (map_to_list pr) = true <->
  forall key pb, pr !! key = Some pb -> exists cb, cr !! key = Some cb /\ (key = "from" -> str_leb pb cb = true) /\ (key = "to" -> str_leb cb pb = true).
Proof.
  rewrite forallb_forall. split.
  - intros H key pb Hp. specialize (H (key, pb)). cbn in H.
    rewrite <- list_elem_of_In, elem_of_map_to_list in H. specialize (H Hp).
    destruct (cr !! key) as [cb|]; [|done]. exists cb. split; [done|].
    unfold str_leb. revert H. do 2 case_bool_decide; cbn; destruct (str_ltb _ _), (str_ltb _ _); naive_solver.
  - intros H [key pb] Hin%list_elem_of_In%elem_of_map_to_list. cbn.
    destruct (H _ _ Hin) as (cb & -> & Hf & Ht). unfold str_leb in *.
    do 2 case_bool_decide; cbn; destruct (str_ltb _ _), (str_ltb _ _); naive_solver.
Qed.

Lemma scopeStrings_string s : scopeStrings (AString s) = None.
Proof. done. Qed.

Lemma scopeRange_valid v r : scopeRange v = Some r -> validRangeMap r = true.
Proof.
  destruct v; cbn; try done; [case_match; naive_solver|].
  destruct (mapStrings m); cbn; [case_match; naive_solver|done].
Qed.

(** Inversion of a narrowing, one case per kind of parent value. *)
Inductive narrower : any -> any -> Prop :=
  | narrower_text s : narrower (AString s) (AString s)
  | narrower_enum p c lp lc : scopeStrings p = Some lp -> scopeStrings c = Some lc ->
      lc <> [] -> lc ⊆ lp -> narrower p c
  | narrower_range p c rp rc : scopeRange p = Some rp -> scopeRange c = Some rc ->
      (forall key pb, rp !! key = Some pb -> exists cb, rc !! key = Some cb /\ (key = "from" -> str_leb pb cb = true) /\ (key = "to" -> str_leb cb pb = true)) ->
      narrower p c
  | narrower_same v : scopeStrings v = None -> scopeRange v = None -> narrower v v.

Lemma scope_exclusive v l r : scopeStrings v = Some l -> scopeRange v = Some r -> False.
Proof. by destruct v. Qed.

Lemma scopeValueNarrower_narrower p c : scopeValueNarrower p c = true <-> narrower p c.
Proof.
  split.
  - intros H.
    assert (Hgen : (exists s, p = AString s) \/
      (match scopeStrings p with
       | Some lp => match scopeStrings c with Some (v :: vs) => forallb (contains lp) (v :: vs) | _ => false end
       | None => match scopeRange p with
          | None => bool_decide (p = c)
          | Some rp => match scopeRange c with None => false
             | Some rc => forallb (bound_narrower rc) (map_to_list rp) && validRangeMap rc end end end) = true)
      by (destruct p; eauto).
    destruct Hgen as [[s ->]|Hgen].
    + cbn in H. destruct c; try done. apply bool_decide_eq_true in H as ->. constructor.
    + destruct (scopeStrings p) as [lp|] eqn:Ep.
      * destruct (scopeStrings c) as [[|v vs]|] eqn:Ec; try done.
        eapply narrower_enum; try done. intros x Hx. apply contains_iff.
        rewrite forallb_forall in Hgen. by apply Hgen, list_elem_of_In.
      * destruct (scopeRange p) as [rp|] eqn:Er.
        -- destruct (scopeRange c) as [rc|] eqn:Erc; [|done].
           apply andb_true_iff in Hgen as [Hgen _].
           eapply narrower_range; try done. by apply bound_narrower_all.
        -- apply bool_decide_eq_true in Hgen as ->. by constructor.
  - destruct 1 as [s|p c lp lc Hp Hc Hne Hsub|p c rp rc Hp Hc Hb|v Hs Hr].
    + cbn. by rewrite bool_decide_eq_true_2.
    + assert (forallb (contains lp) lc = true).
      { apply forallb_forall. intros x Hx%list_elem_of_In. apply contains_iff, Hsub, Hx. }
      destruct p; cbn in Hp; try done; unfold scopeValueNarrower; cbn [scopeStrings];
        rewrite ?Hp, Hc; destruct lc; try done; by simplify_eq.
    + apply bound_narrower_all in Hb. pose proof (scopeRange_valid _ _ Hc).
      destruct p; try done; unfold scopeValueNarrower; cbn [scopeStrings]; rewrite Hp, Hc, Hb; done.
    + destruct v; unfold scopeValueNarrower; rewrite ?Hs, ?Hr; try done;
        by rewrite bool_decide_eq_true_2.
Qed.

Lemma narrower_trans a b c : narrower a b -> narrower b c -> narrower a c.
Proof.
  intros H1 H2; destruct H1 as [s|p b lp lb Hp Hb Hne Hsub|p b rp rb Hp Hb Hr|v ??]; try done.
  - destruct H2 as [s|b c lb' lc Hb' Hc Hne' Hsub'|b c rb' rc Hb' Hc Hr'|v ??]; try done.
    + simplify_eq. eapply narrower_enum; eauto. by etransitivity.
    + exfalso; eauto using scope_exclusive.
    + by eapply narrower_enum.
  - destruct H2 as [s|b c lb' lc Hb' Hc Hne' Hsub'|b c rb' rc Hb' Hc Hr'|v ??]; try done.
    + exfalso; eauto using scope_exclusive.
    + simplify_eq. eapply narrower_range; eauto. intros key pb Hk.
      destruct (Hr _ _ Hk) as (bb & Hk' & F1 & T1). destruct (Hr' _ _ Hk') as (cb & ? & F2 & T2).
      exists cb. split; [done|]. split; intros ->; eauto using str_leb_trans.
    + by eapply narrower_range.
Qed.

(** A narrower value admits fewer strings. *)
Lemma narrower_admits p c x : narrower p c -> admits c x -> admits p x.
Proof.
  destruct 1 as [s|p c lp lc Hp Hc Hne Hsub|p c rp rc Hp Hc Hb|v ??]; try done.
  - intros Hx. assert (x ∈ lc) by (destruct c; cbn in Hc; try done; unfold admits in Hx; cbn in Hx; by simplify_eq/=; rewrite ?Hc in Hx).
    destruct p; cbn in Hp; try done; unfold admits; cbn [scopeStrings]; rewrite ?Hp; simplify_eq; auto.
  - intros Hx. assert (Hi : in_range rc x)
      by (destruct c; try done; unfold admits in Hx; cbn [scopeStrings] in Hx; by rewrite Hc in Hx).
    assert (in_range rp x) as Hrp.
    { destruct Hi as [Hf Ht]. split; intros b Hk; destruct (Hb _ _ Hk) as (cb & Hk' & F & T).
      - eapply str_leb_trans; [by apply F|by apply Hf].
      - eapply str_leb_trans; [by apply Ht|by apply T]. }
    destruct p; try done; unfold admits; cbn [scopeStrings]; by rewrite Hp.
Qed.

Lemma unique_nonempty l : uniqueNonemptyStrings l = true -> l <> [].
Proof. by destruct l. Qed.

Lemma narrower_refl v : validAuthorizationScopeValue v = true -> narrower v v.
Proof.
  intros Hv.
  assert (Hr : forall rp, scopeRange v = Some rp -> narrower v v).
  { intros rp Hrp. eapply narrower_range; try done. intros key pb Hk. exists pb.
    auto using str_leb_refl. }
  destruct v as [s|l|l|m|m|o]; cbn in Hv; try done.
  - constructor.
  - eapply narrower_enum; [done..|by apply unique_nonempty|done].
  - destruct (anyStrings l) as [r|] eqn:E; [|done].
    eapply narrower_enum; [done..|by apply unique_nonempty|done].
  - eapply Hr. cbn. by rewrite Hv.
  - destruct (mapStrings m) as [r|] eqn:E; [|done]. eapply Hr. cbn. by rewrite E; cbn; rewrite Hv.
Qed.

Definition scope_valid (scope : gmap string any) : Prop :=
  forall name v, scope !! name = Some v -> blank name = false /\ validAuthorizationScopeValue v = true.

Lemma scopeMapNarrower_refl s : scope_valid s -> scopeMapNarrower s s = true.
Proof.
  intros H. apply scopeMapNarrower_iff. split; [done|]. intros name v Hn. exists v.
  split; [done|]. apply scopeValueNarrower_narrower, narrower_refl. by destruct (H _ _ Hn).
Qed.

Lemma scopeMapNarrower_trans a b c :
  scopeMapNarrower a b = true -> scopeMapNarrower b c = true -> scopeMapNarrower a c = true.
Proof.
  rewrite !scopeMapNarrower_iff. intros [S1 H1] [S2 H2]. split; [congruence|].
  intros name av Ha. destruct (H1 _ _ Ha) as (bv & Hb & N1). destruct (H2 _ _ Hb) as (cv & Hc & N2).
  exists cv. split; [done|]. rewrite scopeValueNarrower_narrower in *. by eapply narrower_trans.
Qed.

(** A narrower scope names the same keys and admits fewer bindings. *)
Lemma scopeMapNarrower_admits p c binding :
  scopeMapNarrower p c = true -> scope_admits c binding -> scope_admits p binding.
Proof.
  rewrite scopeMapNarrower_iff. intros [_ H] Hc name pv Hp.
  destruct (H _ _ Hp) as (cv & Hcv & N%scopeValueNarrower_narrower).
  eapply narrower_admits; eauto.
Qed.

Lemma scopeMapNarrower_dom p c : scopeMapNarrower p c = true -> dom p = dom c.
Proof.
  rewrite scopeMapNarrower_iff. intros [Hs H]. apply map_dom_eq; [|done].
  intros name [pv Hp]. destruct (H _ _ Hp) as (cv & Hc & _). by exists cv.
Qed.

(** ** The envelope of products, columns and scope *)
Definition validateAuthorizationEnvelope (products : list string)
    (columns : gmap string (list string)) (scope : gmap string any) : result unit :=
  fail_if (bool_decide (products = [])) (ErrNew "at least one product is required") ≫= fun _ =>
  fail_if (negb (bool_decide (firstDuplicate products = ""))) (ErrNew "duplicate product %q") ≫= fun _ =>
  check_all (fun product =>
    fail_if (blank product) (ErrNew "product cannot be empty") ≫= fun _ =>
    match columns !! product with
    | None | Some [] => Err (ErrNew "approved columns missing for %q")
    | Some values =>
        fail_if (negb (bool_decide (firstDuplicate values = ""))) (ErrNew "duplicate approved column %q.%q") ≫= fun _ =>
        check_all (fun column => fail_if (blank column) (ErrNew "approved column is empty for %q")) values
    end) products ≫= fun _ =>
  check_all (fun kv => fail_if (negb (contains products kv.1))
    (ErrNew "columns supplied for unapproved product %q")) (map_to_list columns) ≫= fun _ =>
  fail_if (bool_decide (size scope = 0%nat)) (ErrNew "mandatory_scope is required") ≫= fun _ =>
  check_all (fun kv => fail_if (blank kv.1 || negb (validAuthorizationScopeValue kv.2))
    (ErrNew "mandatory_scope %q has an invalid value")) (map_to_list scope).

(** A list of distinct non-blank names. *)
Definition names_ok (l : list string) : Prop :=
  l <> [] /\ NoDup l /\ Forall (fun x => blank x = false) l.

Definition envelope_ok (products : list string) (columns : gmap string (list string))
    (scope : gmap string any) : Prop :=
  names_ok products /\
  (forall product, product ∈ products <-> is_Some (columns !! product)) /\
  (forall product cs, columns !! product = Some cs -> names_ok cs) /\
  scope <> ∅ /\ scope_valid scope.

Lemma names_nonempty l : Forall (fun x => blank x = false) l -> "" ∉ l.
Proof. rewrite Forall_forall. intros H Hin. by specialize (H _ Hin). Qed.

Lemma validateAuthorizationEnvelope_ok products columns scope :
  validateAuthorizationEnvelope products columns scope = Ok tt <-> envelope_ok products columns scope.
Proof.
  unfold validateAuthorizationEnvelope, envelope_ok, names_ok.
  rewrite !seq_ok, !fail_if_ok, !check_all_ok.
  rewrite bool_decide_eq_false, negb_false_iff, bool_decide_eq_true.
  split.
  - intros (Hne & Hd & Hp & Hc & Hs & Hv).
    rewrite Forall_forall in Hp. rewrite Forall_forall in Hc. rewrite Forall_forall in Hv.
    assert (Hpb : forall p, p ∈ products -> blank p = false /\ exists cs, columns !! p = Some cs /\
      cs <> [] /\ firstDuplicate cs = "" /\ Forall (fun x => blank x = false) cs).
    { intros p Hin. specialize (Hp p Hin). cbn in Hp. rewrite seq_ok, fail_if_ok in Hp.
      destruct Hp as [? Hp]. split; [done|].
      destruct (columns !! p) as [[|c cs]|] eqn:E; try done. exists (c :: cs).
      rewrite seq_ok, fail_if_ok, negb_false_iff, bool_decide_eq_true, check_all_ok in Hp.
      destruct Hp as [? Hp]. repeat split; try done.
      eapply Forall_impl; [exact Hp|]. intros ? Hx. by apply fail_if_ok in Hx. }
    assert (Hcol : forall p cs, columns !! p = Some cs -> p ∈ products).
    { intros p cs Hin%elem_of_map_to_list. specialize (Hc _ Hin). cbn in Hc.
      apply fail_if_ok in Hc. apply negb_false_iff in Hc. by apply contains_iff. }
    assert (Hnb : Forall (fun x => blank x = false) products)
      by (apply Forall_forall; intros p Hin; by apply Hpb).
    split; [|split; [|split; [|split]]].
    + split; [done|]. split; [|done]. by apply firstDuplicate_NoDup; [apply names_nonempty|].
    + intros p. split; [|intros [cs ?]; by eapply Hcol]. intros Hin.
      destruct (Hpb _ Hin) as (_ & cs & -> & _). eauto.
    + intros p cs E. destruct (Hpb p) as (_ & cs' & E' & ? & ? & ?); [by eapply Hcol|].
      simplify_eq. split; [done|]. split; [|done].
      by apply firstDuplicate_NoDup; [apply names_nonempty|].
    + intros ->. by rewrite bool_decide_eq_false in Hs.
    + intros name v Hin%elem_of_map_to_list. specialize (Hv _ Hin). cbn in Hv.
      apply fail_if_ok in Hv. apply orb_false_iff in Hv as [? ?%negb_false_iff]. done.
  - intros ((Hne & Hd & Hb) & Hdom & Hcs & Hs & Hv).
    split; [done|]. split; [by apply firstDuplicate_NoDup; [apply names_nonempty|]|].
    split; [|split; [|split]].
    + apply Forall_forall. intros p Hin. rewrite seq_ok, fail_if_ok.
      split; [by eapply Forall_forall in Hb|].
      destruct (proj1 (Hdom p) Hin) as [cs E]. rewrite E.
      destruct (Hcs _ _ E) as (Hne' & Hd' & Hb'). destruct cs as [|c cs]; [done|].
      rewrite seq_ok, fail_if_ok, negb_false_iff, bool_decide_eq_true, check_all_ok.
      split; [by apply firstDuplicate_NoDup; [apply names_nonempty|]|].
      eapply Forall_impl; [exact Hb'|]. intros ? Hx. by apply fail_if_ok.
    + apply Forall_forall. intros [p cs] E%elem_of_map_to_list. cbn. apply fail_if_ok, negb_false_iff.
      apply contains_iff, Hdom. eauto.
    + apply bool_decide_eq_false. intros Hz%map_size_empty_iff. done.
    + apply Forall_forall. intros [name v] E%elem_of_map_to_list. cbn. apply fail_if_ok.
      destruct (Hv _ _ E) as [-> ->]. done.
Qed.
End scope.
Arguments any Other : clear implicits.
Arguments item Other : clear implicits.
End Scope.
