(* ===== verification/Authorization.v ===== *)
(** * Authorization manifests, grant cores and receipts

    [src/internal/domain/authorization.go]: the manifest a task requests, the
    grant core the approver selects, the approval receipt, and the checks that
    a grant is only ever narrowed or delegated downwards; with the delegation
    clamp of [src/internal/gateway/tasks.go]. *)

From S2P Require Import Prelude GoBytes Sensitivity Budget Scope.
Import Budget.AuthorizationBudget.

Module Authorization.
Import Scope.

Definition ErrInvalidAuthorizationManifest := ErrNew "invalid authorization manifest".
Definition ErrInvalidTaskGrantCore := ErrNew "invalid task grant core".
Definition ErrInvalidTaskGrant := ErrNew "invalid task grant".
Definition ErrInvalidApprovalReceipt := ErrNew "invalid approval receipt".
Definition ErrGrantExpired := ErrNew "task grant expired".
Definition ErrGrantExpansion := ErrNew "task grant expansion".
Definition grantExpansion (message : string) : goerror := ErrW ErrGrantExpansion message.

Definition AuthorizationManifestV1Version := "1".
Definition TaskGrantCoreV1Version := "1".
Definition TaskGrantV1Version := "1".
Definition ApprovalReceiptV1Version := "1".

Definition isLowerHex (value : string) : bool :=
  forallb lower_hex (to_bytes value) && negb (bool_decide (value = "")).
Definition isSHA256Hex (value : string) : bool :=
  if negb (str_len value =? 64) then false else forallb lower_hex (to_bytes value).

Definition ApprovalDecisionApprove := "approve".
Definition ApprovalDecisionReject := "reject".
Definition ApprovalDecisionNarrow := "narrow".

(** ** Receipts *)
Record ApprovalReceiptV1 := {
  rVersion : string;
  rReceiptID : string;
  rTaskID : string;
  rDecision : string;
  rManifestDigest : string;
  rApprovedGrantDigest : string;
  rApproverID : string;
  rIssuedAt : Z;
  rKeyID : string;
  rSignature : string;
}.

Definition Receipt_ValidateUnsigned (r : ApprovalReceiptV1) : result unit :=
  fail_if (negb (bool_decide (rVersion r = ApprovalReceiptV1Version)) || blank (rReceiptID r) ||
           blank (rTaskID r) || negb (isSHA256Hex (rManifestDigest r)) ||
           blank (rApproverID r) || (rIssuedAt r =? 0) || blank (rKeyID r))
    (ErrW ErrInvalidApprovalReceipt "required receipt field is missing or invalid") ≫= fun _ =>
  if decide (rDecision r = ApprovalDecisionApprove \/ rDecision r = ApprovalDecisionNarrow) then
    fail_if (negb (isSHA256Hex (rApprovedGrantDigest r)))
      (ErrW ErrInvalidApprovalReceipt "approved grant digest is required")
  else if decide (rDecision r = ApprovalDecisionReject) then
    fail_if (negb (bool_decide (rApprovedGrantDigest r = "")))
      (ErrW ErrInvalidApprovalReceipt "rejected receipt cannot bind a grant")
  else Err (ErrW ErrInvalidApprovalReceipt "unsupported decision %q").

Definition Receipt_Validate (r : ApprovalReceiptV1) : result unit :=
  Receipt_ValidateUnsigned r ≫= fun _ =>
  fail_if (blank (rSignature r)) (ErrW ErrInvalidApprovalReceipt "signature is required").

Section authorization.
Context {Other : Type} `{EqDecision Other}.
Abbreviation scope_map := (gmap string (any Other)).

(** ** Manifests *)
Record AuthorizationManifestV1 := {
  mVersion : string;
  mTaskID : string;
  mRootTaskID : string;
  mParentTaskID : string;
  mHumanSubject : string;
  mAgentID : string;
  mDeclaredObjective : string;
  mProducts : list string;
  mApprovedColumns : gmap string (list string);
  mMandatoryScope : scope_map;
  mSensitivity : string;
  mBudget : AuthorizationBudgetV1;
  mCatalogVersion : string;
  mCatalogSHA256 : string;
  mDatasourceID : string;
  mSchemaDigest : string;
  mViewBindingDigest : string;
  mCallbackContext : string;
  mNonce : string;
}.

(** The delegated-lineage test shared by manifests and cores. *)
Definition lineage_invalid (task root parent : string) : bool :=
  xorb (bool_decide (root = "")) (bool_decide (parent = "")) ||
  (negb (bool_decide (parent = "")) && (bool_decide (root = task) || bool_decide (parent = task))).

Definition Manifest_Validate (m : AuthorizationManifestV1) : result unit :=
  let E := ErrInvalidAuthorizationManifest in
  fail_if (negb (bool_decide (mVersion m = AuthorizationManifestV1Version))) (ErrW E "unsupported version %q") ≫= fun _ =>
  fail_if (blank (mTaskID m) || blank (mHumanSubject m) || blank (mAgentID m) || blank (mDeclaredObjective m))
    (ErrW E "task_id, human_subject, agent_id, and declared_objective are required") ≫= fun _ =>
  fail_if (lineage_invalid (mTaskID m) (mRootTaskID m) (mParentTaskID m))
    (ErrW E "delegated task lineage is invalid") ≫= fun _ =>
  map_err (ErrWV E) (validateAuthorizationEnvelope (mProducts m) (mApprovedColumns m) (mMandatoryScope m)) ≫= fun _ =>
  map_err (ErrWV E) (Sensitivity.Validate (mSensitivity m)) ≫= fun _ =>
  map_err (ErrWV E) (AuthorizationBudget.Validate (mBudget m)) ≫= fun _ =>
  fail_if (blank (mCatalogVersion m) || negb (isSHA256Hex (mCatalogSHA256 m)) || blank (mDatasourceID m) ||
           negb (isSHA256Hex (mSchemaDigest m)) ||
           (negb (bool_decide (mViewBindingDigest m = "")) && negb (isSHA256Hex (mViewBindingDigest m))) ||
           blank (mCallbackContext m) || negb (str_len (mNonce m) =? 32) || negb (isLowerHex (mNonce m)))
    (ErrW E "catalog, datasource, callback_context, and nonce are required").

(** ** Grant cores *)
Record TaskGrantCoreV1 := {
  gVersion : string;
  gTaskID : string;
  gRootTaskID : string;
  gParentTaskID : string;
  gHumanSubject : string;
  gAgentID : string;
  gDeclaredObjective : string;
  gApprovedProducts : list string;
  gApprovedColumns : gmap string (list string);
  gMandatoryScope : scope_map;
  gSensitivityCeiling : string;
  gBudget : AuthorizationBudgetV1;
  gExpiresAt : Z;
  gCatalogVersion : string;
  gCatalogSHA256 : string;
  gDatasourceID : string;
  gSchemaDigest : string;
  gViewBindingDigest : string;
  gManifestDigest : string;
}.

Definition Core_Validate (g : TaskGrantCoreV1) : result unit :=
  let E := ErrInvalidTaskGrantCore in
  fail_if (negb (bool_decide (gVersion g = TaskGrantCoreV1Version))) (ErrW E "unsupported version %q") ≫= fun _ =>
  fail_if (blank (gTaskID g) || blank (gHumanSubject g) || blank (gAgentID g) || blank (gDeclaredObjective g))
    (ErrW E "task and identity fields are required") ≫= fun _ =>
  fail_if (lineage_invalid (gTaskID g) (gRootTaskID g) (gParentTaskID g))
    (ErrW E "delegated task lineage is invalid") ≫= fun _ =>
  map_err (ErrWV E) (validateAuthorizationEnvelope (gApprovedProducts g) (gApprovedColumns g) (gMandatoryScope g)) ≫= fun _ =>
  map_err (ErrWV E) (Sensitivity.Validate (gSensitivityCeiling g)) ≫= fun _ =>
  map_err (ErrWV E) (AuthorizationBudget.Validate (gBudget g)) ≫= fun _ =>
  fail_if ((gExpiresAt g =? 0) || blank (gCatalogVersion g) || negb (isSHA256Hex (gCatalogSHA256 g)) ||
           blank (gDatasourceID g) || negb (isSHA256Hex (gSchemaDigest g)) ||
           (negb (bool_decide (gViewBindingDigest g = "")) && negb (isSHA256Hex (gViewBindingDigest g))) ||
           negb (isSHA256Hex (gManifestDigest g)))
    (ErrW E "expiry, catalog, datasource, and manifest digests are required").

Definition Core_ValidateAt (g : TaskGrantCoreV1) (now : Z) : result unit :=
  Core_Validate g ≫= fun _ =>
  fail_if (now =? 0) (ErrW ErrInvalidTaskGrantCore "current time is required") ≫= fun _ =>
  fail_if (negb (now <? gExpiresAt g)) ErrGrantExpired.

(** [g.ApprovedColumns[product]]: a missing key reads as an empty slice. *)
Definition columns_of (columns : gmap string (list string)) (product : string) : list string :=
  default [] (columns !! product).

(** The checks on the authority itself, the same statements in
    [CheckNarrowing] and [CheckDelegation]. *)
Definition check_authority (g candidate : TaskGrantCoreV1) : result unit :=
  fail_if (negb (Sensitivity.AtMost (gSensitivityCeiling candidate) (gSensitivityCeiling g)))
    (grantExpansion "sensitivity ceiling increased") ≫= fun _ =>
  fail_if (gExpiresAt g <? gExpiresAt candidate) (grantExpansion "expiry extended") ≫= fun _ =>
  map_err (fun _ => grantExpansion "budget increased") (AuthorizationBudget.EnsureWithin (gBudget candidate) (gBudget g)) ≫= fun _ =>
  check_all (fun product =>
    fail_if (negb (contains (gApprovedProducts g) product)) (grantExpansion "product added") ≫= fun _ =>
    check_all (fun column =>
      fail_if (negb (contains (columns_of (gApprovedColumns g) product) column)) (grantExpansion "column added"))
      (columns_of (gApprovedColumns candidate) product)) (gApprovedProducts candidate) ≫= fun _ =>
  fail_if (negb (scopeMapNarrower (gMandatoryScope g) (gMandatoryScope candidate)))
    (grantExpansion "mandatory scope weakened or changed incompatibly").

Definition differs (a b : string) : bool := negb (bool_decide (a = b)).

Definition CheckNarrowing (g candidate : TaskGrantCoreV1) : result unit :=
  map_err (ErrCtx "parent") (Core_Validate g) ≫= fun _ =>
  map_err (ErrCtx "candidate") (Core_Validate candidate) ≫= fun _ =>
  fail_if (differs (gTaskID candidate) (gTaskID g) || differs (gRootTaskID candidate) (gRootTaskID g) ||
           differs (gParentTaskID candidate) (gParentTaskID g) || differs (gHumanSubject candidate) (gHumanSubject g) ||
           differs (gAgentID candidate) (gAgentID g) || differs (gDeclaredObjective candidate) (gDeclaredObjective g) ||
           differs (gCatalogVersion candidate) (gCatalogVersion g) || differs (gCatalogSHA256 candidate) (gCatalogSHA256 g) ||
           differs (gDatasourceID candidate) (gDatasourceID g) || differs (gSchemaDigest candidate) (gSchemaDigest g) ||
           differs (gViewBindingDigest candidate) (gViewBindingDigest g) ||
           differs (gManifestDigest candidate) (gManifestDigest g))
    (grantExpansion "identity or authorization provenance changed") ≫= fun _ =>
  check_authority g candidate.

Definition expected_root (g : TaskGrantCoreV1) : string :=
  if decide (gRootTaskID g = "") then gTaskID g else gRootTaskID g.

Definition CheckDelegation (g candidate : TaskGrantCoreV1) : result unit :=
  map_err (ErrCtx "parent") (Core_Validate g) ≫= fun _ =>
  map_err (ErrCtx "candidate") (Core_Validate candidate) ≫= fun _ =>
  fail_if (bool_decide (gTaskID candidate = gTaskID g) || differs (gParentTaskID candidate) (gTaskID g) ||
           differs (gRootTaskID candidate) (expected_root g) ||
           differs (gHumanSubject candidate) (gHumanSubject g) || differs (gCatalogVersion candidate) (gCatalogVersion g) ||
           differs (gCatalogSHA256 candidate) (gCatalogSHA256 g) || differs (gDatasourceID candidate) (gDatasourceID g) ||
           differs (gSchemaDigest candidate) (gSchemaDigest g) ||
           differs (gViewBindingDigest candidate) (gViewBindingDigest g))
    (grantExpansion "task family, human, catalog, or datasource changed") ≫= fun _ =>
  check_authority g candidate.

(** Deep copies: the values are the same, the containers are new. *)
Definition cloneAuthorizationColumns (source : gmap string (list string)) : gmap string (list string) :=
  list_to_map (map_to_list source).
Definition cloneAuthorizationScope (source : scope_map) : scope_map :=
  list_to_map (map_to_list source).

Definition CoreFromManifest (manifest : AuthorizationManifestV1) (manifestDigest : string) (issuedAt : Z) :
    result TaskGrantCoreV1 :=
  Manifest_Validate manifest ≫= fun _ =>
  fail_if (negb (isSHA256Hex manifestDigest) || (issuedAt =? 0))
    (ErrW ErrInvalidTaskGrantCore "manifest digest and issue time are required") ≫= fun _ =>
  Ok {| gVersion := TaskGrantCoreV1Version; gTaskID := mTaskID manifest;
        gRootTaskID := mRootTaskID manifest; gParentTaskID := mParentTaskID manifest;
        gHumanSubject := mHumanSubject manifest; gAgentID := mAgentID manifest;
        gDeclaredObjective := mDeclaredObjective manifest;
        gApprovedProducts := mProducts manifest;
        gApprovedColumns := cloneAuthorizationColumns (mApprovedColumns manifest);
        gMandatoryScope := cloneAuthorizationScope (mMandatoryScope manifest);
        gSensitivityCeiling := mSensitivity manifest; gBudget := mBudget manifest;
        gExpiresAt := issuedAt + from_ms (aTaskTTLMS (mBudget manifest));
        gCatalogVersion := mCatalogVersion manifest; gCatalogSHA256 := mCatalogSHA256 manifest;
        gDatasourceID := mDatasourceID manifest; gSchemaDigest := mSchemaDigest manifest;
        gViewBindingDigest := mViewBindingDigest manifest; gManifestDigest := manifestDigest |}.

(** ** Approved grants *)
Record TaskGrantV1 := {
  tVersion : string;
  tCore : TaskGrantCoreV1;
  tApprovalReceipt : ApprovalReceiptV1;
}.

Definition Grant_Validate (g : TaskGrantV1) : result unit :=
  let E := ErrInvalidTaskGrant in
  fail_if (differs (tVersion g) TaskGrantV1Version) (ErrW E "unsupported version %q") ≫= fun _ =>
  map_err (ErrWV E) (Core_Validate (tCore g)) ≫= fun _ =>
  map_err (ErrWV E) (Receipt_Validate (tApprovalReceipt g)) ≫= fun _ =>
  fail_if (differs (gTaskID (tCore g)) (rTaskID (tApprovalReceipt g)) ||
           differs (gManifestDigest (tCore g)) (rManifestDigest (tApprovalReceipt g)))
    (ErrW E "core and receipt provenance differ") ≫= fun _ =>
  fail_if (differs (rDecision (tApprovalReceipt g)) ApprovalDecisionApprove &&
           differs (rDecision (tApprovalReceipt g)) ApprovalDecisionNarrow)
    (ErrW E "receipt does not approve a grant").

(** [time.Time.Sub], which saturates at the limits of a [time.Duration]. *)
Definition time_Sub (a b : Z) : Z := Z.max (- 2 ^ 63) (Z.min max_int64 (a - b)).

(** ** The clamp applied to a delegated budget before it is requested *)
Definition min64 (left right : Z) : Z := if left <? right then left else right.
Definition minTaskDuration (left right : Z) : Z := if left <? right then left else right.

Definition constrainDelegatedBudget (candidate : Budget.Budget) (parent : TaskGrantCoreV1) (now : Z) :
    result Budget.Budget :=
  Core_ValidateAt parent now ≫= fun _ =>
  let remainingTTL := time_Sub (gExpiresAt parent) now in
  fail_if (remainingTTL <? Millisecond) ErrGrantExpired ≫= fun _ =>
  let pb := gBudget parent in
  let queries := min64 (Budget.MaxQueries candidate) (aMaxQueries pb) in
  let rows := min64 (Budget.MaxRows candidate) (aMaxResultRows pb) in
  let db := minTaskDuration (Budget.MaxDBTime candidate) (from_ms (aMaxDBMS pb)) in
  let timeout := minTaskDuration (Budget.PerQueryTimeout candidate) (from_ms (aPerQueryTimeoutMS pb)) in
  let ttl := minTaskDuration (Budget.TaskTTL candidate) (Truncate remainingTTL Millisecond) in
  let build r i o v p := {|
    Budget.MaxQueries := queries; Budget.MaxRows := rows; Budget.MaxDBTime := db;
    Budget.PerQueryTimeout := timeout; Budget.TaskTTL := ttl; Budget.MaxReleaseFacts := r;
    Budget.MaxInfluenceFacts := i; Budget.MaxOutcomeFacts := o; Budget.ExposureProfileVersion := v;
    Budget.PredicateFootprint := p |} in
  result_budget ←
    (if aMaxReleaseFacts pb =? 0 then Ok (build 0 0 0 "" None)
     else
       fail_if (differs (Budget.ExposureProfileVersion candidate) (aExposureProfileVersion pb))
         Budget.ErrBudgetExpansion ≫= fun _ =>
       let b := build (min64 (Budget.MaxReleaseFacts candidate) (aMaxReleaseFacts pb))
                      (min64 (Budget.MaxInfluenceFacts candidate) (aMaxInfluenceFacts pb))
                      (min64 (Budget.MaxOutcomeFacts candidate) (aMaxOutcomeFacts pb))
                      (Budget.ExposureProfileVersion candidate) (Budget.PredicateFootprint candidate) in
       fail_if (negb (Budget.predicateFootprintWithin (Budget.PredicateFootprint candidate) (aPredicateFootprint pb)))
         Budget.ErrBudgetExpansion ≫= fun _ => Ok b);
  Budget.Validate result_budget ≫= fun _ => Ok result_budget.

(** ** Authority *)
Definition authorizes (g : TaskGrantCoreV1) (product column : string) : Prop :=
  product ∈ gApprovedProducts g /\ column ∈ columns_of (gApprovedColumns g) product.

(** [c] carries no more authority than [g], in every dimension. *)
Definition authority_le (c g : TaskGrantCoreV1) : Prop :=
  Sensitivity.AtMost (gSensitivityCeiling c) (gSensitivityCeiling g) = true /\
  gExpiresAt c <= gExpiresAt g /\
  AuthorizationBudget.EnsureWithin (gBudget c) (gBudget g) = Ok tt /\
  (forall product, product ∈ gApprovedProducts c -> product ∈ gApprovedProducts g) /\
  (forall product column, authorizes c product column -> authorizes g product column) /\
  dom (gMandatoryScope c) = dom (gMandatoryScope g) /\
  (forall binding, scope_admits (gMandatoryScope c) binding -> scope_admits (gMandatoryScope g) binding).

Lemma check_authority_iff g c :
  check_authority g c = Ok tt <->
  Sensitivity.AtMost (gSensitivityCeiling c) (gSensitivityCeiling g) = true /\
  gExpiresAt c <= gExpiresAt g /\
  AuthorizationBudget.EnsureWithin (gBudget c) (gBudget g) = Ok tt /\
  (forall product, product ∈ gApprovedProducts c -> product ∈ gApprovedProducts g /\
     columns_of (gApprovedColumns c) product ⊆ columns_of (gApprovedColumns g) product) /\
  scopeMapNarrower (gMandatoryScope g) (gMandatoryScope c) = true.
Proof.
  unfold check_authority. rewrite !seq_ok, !fail_if_ok, map_err_ok, check_all_ok.
  rewrite !negb_false_iff, Z.ltb_ge, Forall_forall.
  assert (Hp : forall p,
    (fail_if (negb (contains (gApprovedProducts g) p)) (grantExpansion "product added") ≫= (fun _ =>
      check_all (fun column => fail_if (negb (contains (columns_of (gApprovedColumns g) p) column))
        (grantExpansion "column added")) (columns_of (gApprovedColumns c) p)) = Ok tt) <->
    (p ∈ gApprovedProducts g /\ columns_of (gApprovedColumns c) p ⊆ columns_of (gApprovedColumns g) p)).
  { intros p. rewrite seq_ok, fail_if_ok, negb_false_iff, contains_iff, check_all_ok, Forall_forall.
    enough (Hx : forall x, fail_if (negb (contains (columns_of (gApprovedColumns g) p) x))
        (grantExpansion "column added") = Ok tt <-> x ∈ columns_of (gApprovedColumns g) p)
      by (setoid_rewrite Hx; unfold subseteq, list_subseteq; tauto).
    intros x. by rewrite fail_if_ok, negb_false_iff, contains_iff. }
  setoid_rewrite Hp. tauto.
Qed.

Lemma check_authority_le g c : check_authority g c = Ok tt -> authority_le c g.
Proof.
  rewrite check_authority_iff. intros (? & ? & ? & Hp & Hs).
  do 3 (split; [done|]). split; [|split; [|split]].
  - intros p Hin. by apply Hp.
  - intros p col [Hin Hc]. split; [by apply Hp|]. by apply (proj2 (Hp _ Hin)).
  - symmetry. by apply scopeMapNarrower_dom.
  - intros binding. by apply scopeMapNarrower_admits.
Qed.

Lemma check_authority_trans a b c :
  check_authority a b = Ok tt -> check_authority b c = Ok tt -> check_authority a c = Ok tt.
Proof.
  rewrite !check_authority_iff. intros (S1 & E1 & B1 & P1 & N1) (S2 & E2 & B2 & P2 & N2).
  split; [by eapply Sensitivity.AtMost_trans|]. split; [lia|].
  split; [by eapply EnsureWithin_trans|]. split; [|by eapply scopeMapNarrower_trans].
  intros p Hp. destruct (P2 _ Hp) as [Hp' Hc]. destruct (P1 _ Hp') as [? Hc'].
  split; [done|]. by etransitivity.
Qed.

Lemma Core_Validate_parts g :
  Core_Validate g = Ok tt ->
  envelope_ok (gApprovedProducts g) (gApprovedColumns g) (gMandatoryScope g) /\
  Sensitivity.Validate (gSensitivityCeiling g) = Ok tt /\
  AuthorizationBudget.Validate (gBudget g) = Ok tt /\ blank (gTaskID g) = false.
Proof.
  unfold Core_Validate. rewrite !seq_ok, !map_err_ok, !fail_if_ok, !orb_false_iff.
  rewrite validateAuthorizationEnvelope_ok. intuition.
Qed.

Lemma check_authority_refl g : Core_Validate g = Ok tt -> check_authority g g = Ok tt.
Proof.
  intros H%Core_Validate_parts. destruct H as ((_ & _ & _ & _ & Hs) & ? & ? & _).
  apply check_authority_iff. split; [by apply Sensitivity.AtMost_refl|]. split; [lia|].
  split; [by apply EnsureWithin_refl|]. split; [done|]. by apply scopeMapNarrower_refl.
Qed.

Lemma authority_le_trans a b c : authority_le a b -> authority_le b c -> authority_le a c.
Proof.
  intros (S1 & E1 & B1 & P1 & A1 & D1 & N1) (S2 & E2 & B2 & P2 & A2 & D2 & N2).
  split; [by eapply Sensitivity.AtMost_trans|]. split; [lia|].
  split; [by eapply EnsureWithin_trans|]. split; [auto|]. split; [auto|].
  split; [congruence|auto].
Qed.

Lemma differs_false a b : differs a b = false <-> a = b.
Proof. unfold differs. by rewrite negb_false_iff, bool_decide_eq_true. Qed.

Lemma CheckNarrowing_iff g c :
  CheckNarrowing g c = Ok tt <->
  Core_Validate g = Ok tt /\ Core_Validate c = Ok tt /\
  (gTaskID c = gTaskID g /\ gRootTaskID c = gRootTaskID g /\ gParentTaskID c = gParentTaskID g /\
   gHumanSubject c = gHumanSubject g /\ gAgentID c = gAgentID g /\ gDeclaredObjective c = gDeclaredObjective g /\
   gCatalogVersion c = gCatalogVersion g /\ gCatalogSHA256 c = gCatalogSHA256 g /\
   gDatasourceID c = gDatasourceID g /\ gSchemaDigest c = gSchemaDigest g /\
   gViewBindingDigest c = gViewBindingDigest g /\ gManifestDigest c = gManifestDigest g) /\
  check_authority g c = Ok tt.
Proof.
  unfold CheckNarrowing. rewrite !seq_ok, !map_err_ok, fail_if_ok, !orb_false_iff, !differs_false. tauto.
Qed.

Lemma CheckDelegation_iff g c :
  CheckDelegation g c = Ok tt <->
  Core_Validate g = Ok tt /\ Core_Validate c = Ok tt /\
  (gTaskID c <> gTaskID g /\ gParentTaskID c = gTaskID g /\ gRootTaskID c = expected_root g /\
   gHumanSubject c = gHumanSubject g /\ gCatalogVersion c = gCatalogVersion g /\
   gCatalogSHA256 c = gCatalogSHA256 g /\ gDatasourceID c = gDatasourceID g /\
   gSchemaDigest c = gSchemaDigest g /\ gViewBindingDigest c = gViewBindingDigest g) /\
  check_authority g c = Ok tt.
Proof.
  unfold CheckDelegation. rewrite !seq_ok, !map_err_ok, fail_if_ok, !orb_false_iff, !differs_false,
    bool_decide_eq_false. tauto.
Qed.

(** One step of approval or delegation, and the grants derived from a grant. *)
Definition derive_step (g c : TaskGrantCoreV1) : Prop :=
  CheckNarrowing g c = Ok tt \/ CheckDelegation g c = Ok tt.
Inductive derived (root : TaskGrantCoreV1) : TaskGrantCoreV1 -> Prop :=
  | derived_one c : derive_step root c -> derived root c
  | derived_more g c : derived root g -> derive_step g c -> derived root c.

Lemma derive_step_facts g c :
  derive_step g c ->
  authority_le c g /\ expected_root c = expected_root g /\ gHumanSubject c = gHumanSubject g /\
  gDatasourceID c = gDatasourceID g /\ gCatalogSHA256 c = gCatalogSHA256 g.
Proof.
  intros [H|H].
  - apply CheckNarrowing_iff in H as (_ & _ & Hid & Ha). apply check_authority_le in Ha.
    unfold expected_root. destruct_and!. split; [done|]. split; [by repeat case_decide; congruence|]. done.
  - apply CheckDelegation_iff in H as (Hg & Hc & Hid & Ha). apply check_authority_le in Ha.
    destruct_and!. split; [done|]. split; [|done].
    enough (expected_root g <> "") by (unfold expected_root at 1; case_decide; congruence).
    apply Core_Validate_parts in Hg as (_ & _ & _ & Hb). unfold expected_root.
    case_decide; [by apply not_blank_nonempty|done].
Qed.

(** narrowing is a preorder on valid grant cores: a core narrows to
    itself, and narrowing twice is narrowing once. *)
Theorem narrowing_preorder :
  (forall g, Core_Validate g = Ok tt -> CheckNarrowing g g = Ok tt) /\
  (forall a b c, CheckNarrowing a b = Ok tt -> CheckNarrowing b c = Ok tt -> CheckNarrowing a c = Ok tt).
Proof.
  split.
  - intros g H. apply CheckNarrowing_iff. repeat split; try done. by apply check_authority_refl.
  - intros a b c. rewrite !CheckNarrowing_iff. intros (? & ? & I1 & A1) (? & ? & I2 & A2).
    split; [done|]. split; [done|]. split; [destruct_and!; repeat split; congruence|].
    by eapply check_authority_trans.
Qed.

(** C26: no chain of narrowings and delegations, of any length, expands
    authority: every derived grant has at most the root's products, columns,
    sensitivity, lifetime and budget, admits only scope bindings the root
    admits, and stays in the root's task family under the same human,
    datasource and catalog. *)
Theorem derived_authority root leaf :
  derived root leaf ->
  authority_le leaf root /\ expected_root leaf = expected_root root /\
  gHumanSubject leaf = gHumanSubject root /\ gDatasourceID leaf = gDatasourceID root /\
  gCatalogSHA256 leaf = gCatalogSHA256 root.
Proof.
  induction 1 as [c H%derive_step_facts|g c _ IH H%derive_step_facts]; [done|].
  destruct IH as (? & ? & ? & ? & ?), H as (? & ? & ? & ? & ?).
  split; [by eapply authority_le_trans|]. repeat split; congruence.
Qed.

Lemma clone_columns_id m : cloneAuthorizationColumns m = m.
Proof. apply list_to_map_to_list. Qed.
Lemma clone_scope_id m : cloneAuthorizationScope m = m.
Proof. apply list_to_map_to_list. Qed.

(** the core built from an accepted manifest is valid, carries the
    manifest's envelope unchanged, and is usable exactly until the issue time
    plus the approved lifetime, which does not overflow. *)
Theorem CoreFromManifest_valid m digest issuedAt core :
  0 < issuedAt -> CoreFromManifest m digest issuedAt = Ok core ->
  Core_Validate core = Ok tt /\
  gApprovedColumns core = mApprovedColumns m /\ gMandatoryScope core = mMandatoryScope m /\
  (forall now, Core_ValidateAt core now = Ok tt <->
     now <> 0 /\ now < issuedAt + aTaskTTLMS (mBudget m) * Millisecond).
Proof.
  intros Hpos. unfold CoreFromManifest. rewrite seq_ok, fail_if_bind_ok.
  intros (Hm & Hd & [= <-]). unfold Manifest_Validate in Hm.
  rewrite !seq_ok, !map_err_ok, !fail_if_ok, !orb_false_iff in Hm.
  rewrite orb_false_iff in Hd. destruct_and!.
  assert (Hb := proj1 (AuthorizationBudget.exchange_Validate_iff _) ltac:(eassumption)).
  destruct Hb as ((_ & _ & _ & Httl) & _ & Hi).
  assert (Hex : from_ms (aTaskTTLMS (mBudget m)) = aTaskTTLMS (mBudget m) * Millisecond)
    by (apply from_ms_exact; unfold interoperable in Hi; lia).
  assert (Hcore : forall v, Core_Validate v = Ok tt -> forall now,
    Core_ValidateAt v now = Ok tt <-> now <> 0 /\ now < gExpiresAt v).
  { intros v Hv now. unfold Core_ValidateAt.
    rewrite !seq_ok, !fail_if_ok, negb_false_iff, Z.eqb_neq, Z.ltb_lt. tauto. }
  assert (Hval : Core_Validate {| gVersion := TaskGrantCoreV1Version; gTaskID := mTaskID m;
        gRootTaskID := mRootTaskID m; gParentTaskID := mParentTaskID m; gHumanSubject := mHumanSubject m;
        gAgentID := mAgentID m; gDeclaredObjective := mDeclaredObjective m; gApprovedProducts := mProducts m;
        gApprovedColumns := cloneAuthorizationColumns (mApprovedColumns m);
        gMandatoryScope := cloneAuthorizationScope (mMandatoryScope m);
        gSensitivityCeiling := mSensitivity m; gBudget := mBudget m;
        gExpiresAt := issuedAt + from_ms (aTaskTTLMS (mBudget m)); gCatalogVersion := mCatalogVersion m;
        gCatalogSHA256 := mCatalogSHA256 m; gDatasourceID := mDatasourceID m; gSchemaDigest := mSchemaDigest m;
        gViewBindingDigest := mViewBindingDigest m; gManifestDigest := digest |} = Ok tt).
  { unfold Core_Validate. cbn -[Z.eqb].
    rewrite clone_columns_id, clone_scope_id, !seq_ok, !map_err_ok, !fail_if_ok, !orb_false_iff.
    repeat split; try done. apply Z.eqb_neq. rewrite Hex. unfold Millisecond. lia. }
  split; [exact Hval|]. cbn [gApprovedColumns gMandatoryScope].
  split; [apply clone_columns_id|]. split; [apply clone_scope_id|].
  intros now. rewrite (Hcore _ Hval). cbn [gExpiresAt]. by rewrite Hex.
Qed.

Lemma min64_le_r a b : min64 a b <= b.
Proof. unfold min64. destruct (Z.ltb_spec a b); lia. Qed.
Lemma minTaskDuration_le_r a b : minTaskDuration a b <= b.
Proof. unfold minTaskDuration. destruct (Z.ltb_spec a b); lia. Qed.

Lemma Truncate_le d m : 0 <= d -> Truncate d m <= d.
Proof.
  unfold Truncate. intros. destruct (Z.leb_spec m 0); [lia|].
  pose proof (Z.rem_bound_pos d m). lia.
Qed.

Lemma Milliseconds_le d ms : d <= ms * Millisecond -> Milliseconds d <= ms.
Proof.
  intros H. unfold Milliseconds.
  rewrite <- (Z.quot_mul ms Millisecond) by done. by apply Z.quot_le_mono.
Qed.

(** the clamp of a delegated budget is sound.  While the parent grant's
    remaining lifetime is at most its approved lifetime, a clamped budget of
    whole milliseconds converts to an exchange budget that the parent's budget
    contains, so the request the gateway derives from it passes the delegation
    check. *)
Theorem constrainDelegatedBudget_within candidate parent now b :
  gExpiresAt parent - now <= aTaskTTLMS (gBudget parent) * Millisecond ->
  whole_ms b -> constrainDelegatedBudget candidate parent now = Ok b ->
  AuthorizationBudget.EnsureWithin (authorizationBudget b) (gBudget parent) = Ok tt.
Proof.
  intros Httl Hw. unfold constrainDelegatedBudget.
  rewrite seq_ok, fail_if_bind_ok, bind_ok. intros (Hp & Hrem & r & Hr & Hv).
  apply seq_ok in Hv as [Hv [= ->]]. unfold Core_ValidateAt in Hp. apply seq_ok in Hp as [Hp _].
  apply Core_Validate_parts in Hp as (_ & _ & Hpv & _).
  pose proof (proj1 (AuthorizationBudget.exchange_Validate_iff _) Hpv) as ((? & ? & ? & ?) & Hcls & Hint).
  unfold interoperable in Hint. destruct_and!.
  assert (Hsub : time_Sub (gExpiresAt parent) now <= gExpiresAt parent - now).
  { apply Z.ltb_ge in Hrem. unfold time_Sub, Millisecond, max_int64 in *. lia. }
  apply Z.ltb_ge in Hrem.
  set (pb := gBudget parent) in *. set (rt := time_Sub _ _) in *.
  pose proof (Truncate_le rt Millisecond ltac:(unfold Millisecond in *; lia)) as Htr.
  assert (Hle : Budget.MaxQueries b <= aMaxQueries pb /\ Budget.MaxRows b <= aMaxResultRows pb /\
    Budget.MaxDBTime b <= from_ms (aMaxDBMS pb) /\ Budget.PerQueryTimeout b <= from_ms (aPerQueryTimeoutMS pb) /\
    Budget.TaskTTL b <= rt /\ Budget.MaxReleaseFacts b <= aMaxReleaseFacts pb /\
    Budget.MaxInfluenceFacts b <= aMaxInfluenceFacts pb /\ Budget.MaxOutcomeFacts b <= aMaxOutcomeFacts pb /\
    Budget.ExposureProfileVersion b = aExposureProfileVersion pb /\
    Budget.predicateFootprintWithin (Budget.PredicateFootprint b) (aPredicateFootprint pb) = true).
  { assert (Hm := min64_le_r). assert (Hd := minTaskDuration_le_r).
    destruct (Z.eqb_spec (aMaxReleaseFacts pb) 0) as [Hz|Hz].
    - injection Hr as <-. cbn. destruct Hcls as [-> ? ? ? ->|? ? ? ? ? ?|? ? ? ? ?|? ? ? ? ? ? ?]; try lia.
      repeat split; try (done || lia || apply Hm || apply Hd). etransitivity; [apply Hd|done].
    - apply fail_if_bind_ok in Hr as [He Hr]. apply fail_if_bind_ok in Hr as [Hf [= <-]].
      apply differs_false in He. apply negb_false_iff in Hf. cbn.
      repeat split; try (done || apply Hm || apply Hd). etransitivity; [apply Hd|done]. }
  destruct_and!. rewrite !from_ms_exact in * by lia.
  apply EnsureWithin_iff. cbn.
  assert (Milliseconds (Budget.MaxDBTime b) <= aMaxDBMS pb) by (apply Milliseconds_le; done).
  assert (Milliseconds (Budget.PerQueryTimeout b) <= aPerQueryTimeoutMS pb) by (apply Milliseconds_le; done).
  assert (Milliseconds (Budget.TaskTTL b) <= aTaskTTLMS pb) by (apply Milliseconds_le; lia).
  split; [|repeat split; done].
  apply authorizationBudget_valid; [done| |done]. unfold interoperable; cbn. lia.
Qed.
End authorization.
Arguments AuthorizationManifestV1 Other : clear implicits.
Arguments TaskGrantCoreV1 Other : clear implicits.
Arguments TaskGrantV1 Other : clear implicits.

(** ** Witnesses: one manifest, its core, a narrowed and a delegated core *)
Definition demo_digest : string := Eval cbv in of_bytes (replicate 64 "a"%char).
Definition demo_nonce : string := Eval cbv in of_bytes (replicate 32 "0"%char).

Definition demo_budget : AuthorizationBudgetV1 := {|
  aMaxQueries := 10; aMaxResultRows := 1000; aMaxDBMS := 5000; aPerQueryTimeoutMS := 1000;
  aTaskTTLMS := 60000; aMaxReleaseFacts := 0; aMaxInfluenceFacts := 0; aMaxOutcomeFacts := 0;
  aExposureProfileVersion := ""; aPredicateFootprint := None |}.

Definition demo_scope (regions : list string) (from : string) : gmap string (any Empty_set) :=
  <["region" := AStrings regions]> (<["day" := AStringMap {[ "from" := from ]}]> ∅).

Definition demo_manifest : AuthorizationManifestV1 Empty_set := {|
  mVersion := "1"; mTaskID := "t1"; mRootTaskID := ""; mParentTaskID := ""; mHumanSubject := "h";
  mAgentID := "a"; mDeclaredObjective := "o"; mProducts := ["sales"];
  mApprovedColumns := {[ "sales" := ["id"; "amount"] ]};
  mMandatoryScope := demo_scope ["eu"; "us"] "2024-01-01"; mSensitivity := "medium"; mBudget := demo_budget;
  mCatalogVersion := "v1"; mCatalogSHA256 := demo_digest; mDatasourceID := "ds"; mSchemaDigest := demo_digest;
  mViewBindingDigest := ""; mCallbackContext := "ctx"; mNonce := demo_nonce |}.

Definition demo_core (task root parent : string) (cols regions : list string) (from : string) : TaskGrantCoreV1 Empty_set := {|
  gVersion := "1"; gTaskID := task; gRootTaskID := root; gParentTaskID := parent; gHumanSubject := "h";
  gAgentID := "a"; gDeclaredObjective := "o"; gApprovedProducts := ["sales"];
  gApprovedColumns := {[ "sales" := cols ]}; gMandatoryScope := demo_scope regions from;
  gSensitivityCeiling := "medium"; gBudget := demo_budget; gExpiresAt := 1 + 60000 * Millisecond;
  gCatalogVersion := "v1"; gCatalogSHA256 := demo_digest; gDatasourceID := "ds"; gSchemaDigest := demo_digest;
  gViewBindingDigest := ""; gManifestDigest := demo_digest |}.

Definition demo_parent := demo_core "t1" "" "" ["id"; "amount"] ["eu"; "us"] "2024-01-01".
Definition demo_narrowed := demo_core "t1" "" "" ["id"] ["eu"] "2024-02-01".
Definition demo_child := demo_core "t2" "t1" "t1" ["id"] ["eu"] "2024-03-01".

Lemma narrowing_preorder_witness :
  CheckNarrowing demo_parent demo_parent = Ok tt /\ CheckNarrowing demo_parent demo_narrowed = Ok tt.
Proof.
  split.
  - apply (proj1 narrowing_preorder). vm_compute. reflexivity.
  - apply (proj2 narrowing_preorder demo_parent demo_narrowed demo_narrowed); vm_compute; reflexivity.
Defined.

Lemma derived_authority_witness :
  derived demo_parent demo_child /\ authority_le demo_child demo_parent.
Proof.
  assert (H : derived demo_parent demo_child).
  { apply derived_more with demo_narrowed.
    - apply derived_one. left. vm_compute. reflexivity.
    - right. vm_compute. reflexivity. }
  split; [exact H|]. exact (proj1 (derived_authority demo_parent demo_child H)).
Defined.

Lemma CoreFromManifest_valid_witness :
  CoreFromManifest demo_manifest demo_digest 1 = Ok demo_parent /\ Core_Validate demo_parent = Ok tt.
Proof.
  assert (H : CoreFromManifest demo_manifest demo_digest 1 = Ok demo_parent) by (vm_compute; reflexivity).
  split; [exact H|]. exact (proj1 (CoreFromManifest_valid demo_manifest demo_digest 1 demo_parent eq_refl H)).
Defined.

Definition demo_clamped : Budget.Budget := {|
  Budget.MaxQueries := 4; Budget.MaxRows := 1000; Budget.MaxDBTime := 5000 * Millisecond;
  Budget.PerQueryTimeout := 500 * Millisecond; Budget.TaskTTL := 59000 * Millisecond;
  Budget.MaxReleaseFacts := 0; Budget.MaxInfluenceFacts := 0; Budget.MaxOutcomeFacts := 0;
  Budget.ExposureProfileVersion := ""; Budget.PredicateFootprint := None |}.
Definition demo_request : Budget.Budget := {|
  Budget.MaxQueries := 4; Budget.MaxRows := 2000; Budget.MaxDBTime := 9000 * Millisecond;
  Budget.PerQueryTimeout := 500 * Millisecond; Budget.TaskTTL := 90000 * Millisecond;
  Budget.MaxReleaseFacts := 7; Budget.MaxInfluenceFacts := 7; Budget.MaxOutcomeFacts := 0;
  Budget.ExposureProfileVersion := "taskgate-exposure-v1"; Budget.PredicateFootprint := None |}.

Lemma constrainDelegatedBudget_within_witness :
  constrainDelegatedBudget demo_request demo_parent (1 + 1000 * Millisecond) = Ok demo_clamped /\
  AuthorizationBudget.EnsureWithin (authorizationBudget demo_clamped) (gBudget demo_parent) = Ok tt.
Proof.
  assert (H : constrainDelegatedBudget demo_request demo_parent (1 + 1000 * Millisecond) = Ok demo_clamped)
    by (vm_compute; reflexivity).
  split; [exact H|].
  apply (constrainDelegatedBudget_within demo_request demo_parent (1 + 1000 * Millisecond)); [|repeat constructor|exact H].
  vm_compute. discriminate.
Defined.

End Authorization.
