(* ===== verification/Grant.v ===== *)
(** * Task grants

    [TaskGrant] of [src/internal/domain/grant.go]: the authorization envelope a
    task is served under, its validator, the two authorization questions the
    query path asks, and [CheckNarrowing].  A nil [MandatoryScope] is [None]. *)

From S2P Require Import Prelude GoBytes Sensitivity Budget Scope Authorization.
Import Scope.

Module Grant.

Definition ErrInvalidGrant := ErrNew "invalid task grant".
Definition ErrGrantExpired := Authorization.ErrGrantExpired.
Definition grantExpansion := Authorization.grantExpansion.

Section grant.
Context {Other : Type} `{EqDecision Other}.
Abbreviation scope_map := (gmap string (any Other)).

Record TaskGrant := {
  TaskID : string;
  Subject : string;
  Purpose : string;
  ApprovedProducts : list string;
  ApprovedColumns : gmap string (list string);
  MandatoryScope : option scope_map;
  SensitivityCeiling : string;
  GBudget : Budget.Budget;
  ExpiresAt : Z;
  CatalogVersion : string;
  ApprovalReceipt : string;
}.

(** The loop over the approved products. *)
Definition product_check (columns : gmap string (list string)) (product : string) : result unit :=
  let E := ErrInvalidGrant in
  fail_if (blank product) (ErrW E "approved product is empty") ≫= fun _ =>
  match columns !! product with
  | None | Some [] => Err (ErrW E "approved columns missing for %q")
  | Some values =>
      fail_if (negb (bool_decide (firstDuplicate values = ""))) (ErrW E "duplicate approved column %q.%q") ≫= fun _ =>
      check_all (fun column => fail_if (blank column) (ErrW E "approved column is empty for %q")) values
  end.

Definition Validate (g : TaskGrant) : result unit :=
  let E := ErrInvalidGrant in
  fail_if (blank (TaskID g)) (ErrW E "task_id is required") ≫= fun _ =>
  fail_if (blank (Subject g)) (ErrW E "subject is required") ≫= fun _ =>
  fail_if (blank (Purpose g)) (ErrW E "purpose is required") ≫= fun _ =>
  fail_if (bool_decide (ApprovedProducts g = [])) (ErrW E "approved_products is required") ≫= fun _ =>
  fail_if (negb (bool_decide (firstDuplicate (ApprovedProducts g) = "")))
    (ErrW E "duplicate approved product %q") ≫= fun _ =>
  check_all (product_check (ApprovedColumns g)) (ApprovedProducts g) ≫= fun _ =>
  check_all (fun kv => fail_if (negb (contains (ApprovedProducts g) kv.1))
    (ErrW E "columns supplied for unapproved product %q")) (map_to_list (ApprovedColumns g)) ≫= fun _ =>
  fail_if (bool_decide (MandatoryScope g = None)) (ErrW E "mandatory_scope is required") ≫= fun _ =>
  map_err (ErrWV E) (Sensitivity.Validate (SensitivityCeiling g)) ≫= fun _ =>
  map_err (ErrWV E) (Budget.Validate (GBudget g)) ≫= fun _ =>
  fail_if (ExpiresAt g =? 0) (ErrW E "expires_at is required") ≫= fun _ =>
  fail_if (blank (CatalogVersion g)) (ErrW E "catalog_version is required") ≫= fun _ =>
  fail_if (blank (ApprovalReceipt g)) (ErrW E "approval_receipt is required").

Definition ValidateAt (g : TaskGrant) (now : Z) : result unit :=
  Validate g ≫= fun _ =>
  fail_if (now =? 0) (ErrW ErrInvalidGrant "current time is required") ≫= fun _ =>
  fail_if (negb (now <? ExpiresAt g)) ErrGrantExpired.

Definition IsExpired (g : TaskGrant) (now : Z) : bool :=
  negb (ExpiresAt g =? 0) && negb (now <? ExpiresAt g).

Definition AuthorizesProduct (g : TaskGrant) (product : string) : bool :=
  contains (ApprovedProducts g) product.

Definition AuthorizesColumn (g : TaskGrant) (product column : string) : bool :=
  AuthorizesProduct g product && contains (Authorization.columns_of (ApprovedColumns g) product) column.

(** A nil map has no entries. *)
Definition scope_of (g : TaskGrant) : scope_map := default ∅ (MandatoryScope g).

Definition CheckNarrowing (g candidate : TaskGrant) : result unit :=
  map_err (ErrCtx "parent") (Validate g) ≫= fun _ =>
  map_err (ErrCtx "candidate") (Validate candidate) ≫= fun _ =>
  fail_if (negb (bool_decide (TaskID candidate = TaskID g)) || negb (bool_decide (Subject candidate = Subject g)) ||
           negb (bool_decide (Purpose candidate = Purpose g)) ||
           negb (bool_decide (CatalogVersion candidate = CatalogVersion g)) ||
           negb (bool_decide (ApprovalReceipt candidate = ApprovalReceipt g)))
    (grantExpansion "identity or approval provenance changed") ≫= fun _ =>
  fail_if (negb (Sensitivity.AtMost (SensitivityCeiling candidate) (SensitivityCeiling g)))
    (grantExpansion "sensitivity ceiling increased") ≫= fun _ =>
  fail_if (ExpiresAt g <? ExpiresAt candidate) (grantExpansion "expiry extended") ≫= fun _ =>
  map_err (fun _ => grantExpansion "budget increased") (Budget.EnsureWithin (GBudget candidate) (GBudget g)) ≫= fun _ =>
  check_all (fun product =>
    fail_if (negb (AuthorizesProduct g product)) (grantExpansion "product added") ≫= fun _ =>
    check_all (fun column =>
      fail_if (negb (AuthorizesColumn g product column)) (grantExpansion "column added"))
      (Authorization.columns_of (ApprovedColumns candidate) product)) (ApprovedProducts candidate) ≫= fun _ =>
  fail_if (negb (scopeMapNarrower (scope_of g) (scope_of candidate)))
    (grantExpansion "mandatory scope weakened or changed incompatibly").

(** ** Lemmas *)
Lemma authority_check_ok g c :
  check_all (fun product =>
    fail_if (negb (AuthorizesProduct g product)) (grantExpansion "product added") ≫= fun _ =>
    check_all (fun column =>
      fail_if (negb (AuthorizesColumn g product column)) (grantExpansion "column added"))
      (Authorization.columns_of (ApprovedColumns c) product)) (ApprovedProducts c) = Ok tt <->
  (forall p, AuthorizesProduct c p = true -> AuthorizesProduct g p = true) /\
  (forall p col, AuthorizesColumn c p col = true -> AuthorizesColumn g p col = true).
Proof.
  rewrite check_all_ok, Forall_forall.
  assert (Hin : forall p, AuthorizesProduct c p = true <-> p ∈ ApprovedProducts c)
    by (intros; apply contains_iff).
  assert (Hcol : forall p col, AuthorizesColumn c p col = true <->
    p ∈ ApprovedProducts c /\ col ∈ Authorization.columns_of (ApprovedColumns c) p).
  { intros. unfold AuthorizesColumn. by rewrite andb_true_iff, Hin, contains_iff. }
  setoid_rewrite Hin. setoid_rewrite Hcol.
  assert (Hstep : forall p, (fail_if (negb (AuthorizesProduct g p)) (grantExpansion "product added") ≫= (fun _ =>
      check_all (fun column => fail_if (negb (AuthorizesColumn g p column)) (grantExpansion "column added"))
        (Authorization.columns_of (ApprovedColumns c) p)) = Ok tt) <->
    AuthorizesProduct g p = true /\
    (forall col, col ∈ Authorization.columns_of (ApprovedColumns c) p -> AuthorizesColumn g p col = true)).
  { intros p. rewrite seq_ok, fail_if_ok, negb_false_iff, check_all_ok, Forall_forall.
    enough (He : forall col, fail_if (negb (AuthorizesColumn g p col)) (grantExpansion "column added") = Ok tt <->
      AuthorizesColumn g p col = true) by (by setoid_rewrite He).
    intros col. by rewrite fail_if_ok, negb_false_iff. }
  setoid_rewrite Hstep. naive_solver.
Qed.

Lemma TaskGrant_narrowing_iff g c :
  CheckNarrowing g c = Ok tt <->
  Validate g = Ok tt /\ Validate c = Ok tt /\
  (TaskID c = TaskID g /\ Subject c = Subject g /\ Purpose c = Purpose g /\
   CatalogVersion c = CatalogVersion g /\ ApprovalReceipt c = ApprovalReceipt g) /\
  Sensitivity.AtMost (SensitivityCeiling c) (SensitivityCeiling g) = true /\
  ExpiresAt c <= ExpiresAt g /\ Budget.EnsureWithin (GBudget c) (GBudget g) = Ok tt /\
  ((forall p, AuthorizesProduct c p = true -> AuthorizesProduct g p = true) /\
   (forall p col, AuthorizesColumn c p col = true -> AuthorizesColumn g p col = true)) /\
  scopeMapNarrower (scope_of g) (scope_of c) = true.
Proof.
  rewrite <- authority_check_ok. unfold CheckNarrowing.
  rewrite !seq_ok, !map_err_ok, !fail_if_ok. autorewrite with go_bool. tauto.
Qed.

Lemma ValidateAt_iff g now :
  ValidateAt g now = Ok tt <-> Validate g = Ok tt /\ now <> 0 /\ now < ExpiresAt g.
Proof. unfold ValidateAt. rewrite !seq_ok, !fail_if_ok. autorewrite with go_bool. tauto. Qed.

Lemma Validate_expiry g : Validate g = Ok tt -> ExpiresAt g <> 0.
Proof. unfold Validate. rewrite !seq_ok, !fail_if_ok. autorewrite with go_bool. tauto. Qed.

(** an accepted narrowing gives nothing the parent does not give: every
    column the candidate authorizes is authorized by the parent, whenever the
    candidate is usable the parent is usable, its budget is within the
    parent's, and every scope binding it admits the parent admits. *)
Theorem grant_narrowing_sound g c :
  CheckNarrowing g c = Ok tt ->
  (forall p col, AuthorizesColumn c p col = true -> AuthorizesColumn g p col = true) /\
  (forall now, ValidateAt c now = Ok tt -> ValidateAt g now = Ok tt) /\
  (forall now, IsExpired g now = true -> IsExpired c now = true) /\
  Budget.Within (GBudget c) (GBudget g) = true /\
  (forall binding, scope_admits (scope_of c) binding -> scope_admits (scope_of g) binding).
Proof.
  rewrite TaskGrant_narrowing_iff. intros (Hg & Hc & _ & _ & He & Hb & (_ & Ha) & Hs).
  pose proof (Validate_expiry c Hc). pose proof (Validate_expiry g Hg).
  split; [done|]. split; [|split; [|split]].
  - intros now. rewrite !ValidateAt_iff. intuition lia.
  - intros now. unfold IsExpired. autorewrite with go_bool. lia.
  - unfold Budget.EnsureWithin in Hb. rewrite !seq_ok, fail_if_ok, negb_false_iff in Hb. tauto.
  - intros binding. by apply scopeMapNarrower_admits.
Qed.
End grant.
Arguments TaskGrant Other : clear implicits.

Definition demo_grant (cols : list string) (ceiling : string) (expires : Z) : TaskGrant Empty_set := {|
  TaskID := "t1"; Subject := "h"; Purpose := "report"; ApprovedProducts := ["sales"];
  ApprovedColumns := {[ "sales" := cols ]};
  MandatoryScope := Some (Authorization.demo_scope ["eu"] "2024-01-01"); SensitivityCeiling := ceiling;
  GBudget := AuthorizationBudget.to_native AuthorizationBudget.demo_exchange; ExpiresAt := expires;
  CatalogVersion := "v1"; ApprovalReceipt := "r1" |}.

Lemma grant_narrowing_sound_witness :
  CheckNarrowing (demo_grant ["id"; "amount"] "high" 100) (demo_grant ["id"] "low" 50) = Ok tt /\
  ValidateAt (demo_grant ["id"; "amount"] "high" 100) 49 = Ok tt.
Proof.
  assert (H : CheckNarrowing (demo_grant ["id"; "amount"] "high" 100) (demo_grant ["id"] "low" 50) = Ok tt)
    by (vm_compute; reflexivity).
  split; [exact H|]. apply (proj1 (proj2 (grant_narrowing_sound _ _ H))). vm_compute. reflexivity.
Defined.

(** The check is not vacuous the other way: widening a column is refused. *)
Example grant_widening_refused :
  is_ok (CheckNarrowing (demo_grant ["id"] "high" 100) (demo_grant ["id"; "amount"] "low" 50)) = false.
Proof. vm_compute. reflexivity. Qed.
End Grant.
