(* ===== verification/Ordinal.v ===== *)
(** * Ordinal fact references

    The shared part of [src/internal/ordinal]: the errors, the canonical text
    checks, [FactRef], [SegmentRef] and [ContainerKey] with the deterministic
    order every iteration and digest uses, and the checked addition of
    multiplicities. *)

From S2P Require Import Prelude GoBytes Ordering.

Module Ordinal.

Definition ErrInvalid := ErrNew "invalid ordinal value".
Definition ErrDigestMismatch := ErrNew "ordinal content digest mismatch".
Definition ErrNonCanonical := ErrNew "non-canonical ordinal encoding".
Definition ErrUnknownFact := ErrNew "unknown ordinal fact".
Definition ErrFactCollision := ErrNew "ordinal fact hash collision".
Definition ErrMultiplicityOverflow := ErrNew "ordinal witness multiplicity overflow".

Definition uint32_range (z : Z) : Prop := 0 <= z < 2 ^ 32.

Definition validDigest (value : string) : bool := valid_sha256_text value.

(** [strings.ContainsAny(value, "\x00\r\n\t")]. *)
Definition has_control (value : string) : bool :=
  existsb (fun c => existsb (Z.eqb (byte_val c)) [0; 13; 10; 9]) (to_bytes value).
Definition validID (value : string) : bool :=
  negb (bool_decide (value = "")) && bool_decide (value = TrimSpace value) &&
  (str_len value <=? 256) && negb (has_control value).

Definition checkedAdd (left right : Z) : result Z :=
  if max_uint64 - left <? right then Err ErrMultiplicityOverflow else Ok (left + right).

Record SegmentRef := Seg { sDictionaryDigest : string; sSegmentID : string }.
Record FactRef := Ref { fDictionaryDigest : string; fSegmentID : string; fOrdinal : Z }.
Record ContainerKey := Key { kDictionaryDigest : string; kSegmentID : string; kHigh16 : Z }.

Definition FactRef_Validate (r : FactRef) : result unit :=
  fail_if (negb (validDigest (fDictionaryDigest r)))
    (ErrW ErrInvalid "dictionary digest must be lowercase SHA-256") ≫= fun _ =>
  fail_if (negb (validID (fSegmentID r))) (ErrW ErrInvalid "segment id must be a canonical token").

Definition SegmentRef_Validate (r : SegmentRef) : result unit :=
  FactRef_Validate (Ref (sDictionaryDigest r) (sSegmentID r) 0).

Definition segment (r : FactRef) : SegmentRef := Seg (fDictionaryDigest r) (fSegmentID r).
Definition key_segment (k : ContainerKey) : SegmentRef := Seg (kDictionaryDigest k) (kSegmentID k).
Definition ContainerKey_Validate (k : ContainerKey) : result unit := SegmentRef_Validate (key_segment k).

Definition segment_fact (s : SegmentRef) (ordinal : Z) : FactRef :=
  Ref (sDictionaryDigest s) (sSegmentID s) ordinal.

(** ** Decidable equality, finite-map keys, and the order of [sortedSegmentRefs] *)
Definition seg_pair (s : SegmentRef) : string * string := (sDictionaryDigest s, sSegmentID s).
Definition ref_pair (r : FactRef) : SegmentRef * Z := (segment r, fOrdinal r).

#[export] Instance SegmentRef_eq_dec : EqDecision SegmentRef.
Proof. solve_decision. Defined.
#[export] Instance FactRef_eq_dec : EqDecision FactRef.
Proof. solve_decision. Defined.
#[export] Instance ContainerKey_eq_dec : EqDecision ContainerKey.
Proof. solve_decision. Defined.
#[export] Instance SegmentRef_countable : Countable SegmentRef.
Proof. apply (inj_countable' seg_pair (fun p => Seg p.1 p.2)). by intros []. Defined.
#[export] Instance FactRef_countable : Countable FactRef.
Proof. apply (inj_countable' ref_pair (fun p => segment_fact p.1 p.2)). by intros []. Defined.
#[export] Instance ContainerKey_countable : Countable ContainerKey.
Proof.
  apply (inj_countable' (fun k => (key_segment k, kHigh16 k))
    (fun p => Key (sDictionaryDigest p.1) (sSegmentID p.1) p.2)). by intros [].
Defined.

#[export] Instance SegmentRef_compare : Compare SegmentRef := compare_on seg_pair.
#[export] Instance SegmentRef_compare_laws : CompareLaws SegmentRef.
Proof. apply compare_on_laws. by intros [] [] [= -> ->]. Qed.
#[export] Instance FactRef_compare : Compare FactRef := compare_on ref_pair.
#[export] Instance FactRef_compare_laws : CompareLaws FactRef.
Proof. apply compare_on_laws. by intros [] [] [= -> -> ->]. Qed.

Lemma segment_segment_fact s o : segment (segment_fact s o) = s.
Proof. by destruct s. Qed.
Lemma segment_fact_inj s t a b : segment_fact s a = segment_fact t b -> s = t /\ a = b.
Proof. destruct s, t. by intros [= -> -> ->]. Qed.
Lemma fact_segment r : segment_fact (segment r) (fOrdinal r) = r.
Proof. by destruct r. Qed.

(** Validity of a reference is validity of its segment. *)
Lemma FactRef_Validate_segment r : FactRef_Validate r = SegmentRef_Validate (segment r).
Proof. by destruct r. Qed.

Lemma validID_go_string v : validID v = true -> go_string v.
Proof.
  unfold validID, go_string, max_int64. rewrite !andb_true_iff. intros ((_ & H) & _). lia.
Qed.
Lemma validDigest_length v : validDigest v = true -> str_len v = 64.
Proof.
  unfold validDigest, valid_sha256_text. rewrite andb_true_iff, negb_true_iff, orb_false_iff. lia.
Qed.
Lemma validDigest_go_string v : validDigest v = true -> go_string v.
Proof. intros H%validDigest_length. unfold go_string, max_int64. lia. Qed.

Lemma SegmentRef_Validate_ok s :
  SegmentRef_Validate s = Ok tt <-> validDigest (sDictionaryDigest s) = true /\ validID (sSegmentID s) = true.
Proof.
  unfold SegmentRef_Validate, FactRef_Validate. rewrite seq_ok, !fail_if_ok, !negb_false_iff. done.
Qed.

Lemma checkedAdd_ok l r x :
  checkedAdd l r = Ok x <-> x = l + r /\ l + r <= max_uint64.
Proof.
  unfold checkedAdd. destruct (Z.ltb_spec (max_uint64 - l) r); split.
  - done.
  - lia.
  - intros [= <-]. lia.
  - intros [-> _]. done.
Qed.
End Ordinal.
