(* ===== verification/Roaring.v ===== *)
(** * The Roaring bitmap library as an interface

    [github.com/RoaringBitmap/roaring/v2] is third-party code: the development
    takes its operations as a class and the documented behaviour the gateway
    relies on as laws.  [rb_iterator b] is the sequence the iterator yields.
    The laws hold of bitmaps that [Validate] accepts; every operation of the
    library keeps that.  A sorted-list instance shows that the laws can be met
    and evaluates the witnesses. *)

From S2P Require Import Prelude GoBytes Ordering Ordinal.
Import Ordinal.

Class Roaring (B : Type) := {
  rb_new : B;
  rb_add : B -> Z -> B;
  rb_add_many : B -> list Z -> B;
  rb_or : B -> B -> B;
  rb_and : B -> B -> B;
  rb_and_not : B -> B -> B;
  rb_contains : B -> Z -> bool;
  rb_is_empty : B -> bool;
  rb_cardinality : B -> Z;
  rb_minimum : B -> Z;
  rb_maximum : B -> Z;
  rb_iterator : B -> list Z;
  rb_equals : B -> B -> bool;
  rb_run_optimize : B -> B;
  rb_validate : B -> result unit;
  rb_marshal : B -> result bytes;
  rb_unmarshal : bytes -> result B;
}.

Definition rb_ok {B} `{Roaring B} (b : B) : Prop := rb_validate b = Ok tt.

Class RoaringLaws (B : Type) `{!Roaring B} : Prop := {
  rb_new_ok : rb_ok rb_new;
  rb_add_ok b v : rb_ok b -> uint32_range v -> rb_ok (rb_add b v);
  rb_add_many_ok b vs : rb_ok b -> Forall uint32_range vs -> rb_ok (rb_add_many b vs);
  rb_or_ok a b : rb_ok a -> rb_ok b -> rb_ok (rb_or a b);
  rb_and_ok a b : rb_ok a -> rb_ok b -> rb_ok (rb_and a b);
  rb_and_not_ok a b : rb_ok a -> rb_ok b -> rb_ok (rb_and_not a b);
  rb_run_optimize_ok b : rb_ok b -> rb_ok (rb_run_optimize b);
  rb_iterator_sorted b : rb_ok b -> StronglySorted clt (rb_iterator b);
  rb_iterator_range b : rb_ok b -> Forall uint32_range (rb_iterator b);
  rb_new_elem v : v ∈ rb_iterator rb_new <-> False;
  rb_add_elem b v x : rb_ok b -> uint32_range v -> x ∈ rb_iterator (rb_add b v) <-> x = v \/ x ∈ rb_iterator b;
  rb_add_many_elem b vs x : rb_ok b -> Forall uint32_range vs ->
    x ∈ rb_iterator (rb_add_many b vs) <-> x ∈ vs \/ x ∈ rb_iterator b;
  rb_or_elem a b x : rb_ok a -> rb_ok b -> x ∈ rb_iterator (rb_or a b) <-> x ∈ rb_iterator a \/ x ∈ rb_iterator b;
  rb_and_elem a b x : rb_ok a -> rb_ok b -> x ∈ rb_iterator (rb_and a b) <-> x ∈ rb_iterator a /\ x ∈ rb_iterator b;
  rb_and_not_elem a b x : rb_ok a -> rb_ok b -> x ∈ rb_iterator (rb_and_not a b) <-> x ∈ rb_iterator a /\ x ∉ rb_iterator b;
  rb_run_optimize_elem b x : rb_ok b -> x ∈ rb_iterator (rb_run_optimize b) <-> x ∈ rb_iterator b;
  rb_contains_elem b x : rb_ok b -> rb_contains b x = true <-> x ∈ rb_iterator b;
  rb_is_empty_iterator b : rb_ok b -> rb_is_empty b = true <-> rb_iterator b = [];
  rb_cardinality_iterator b : rb_ok b -> rb_cardinality b = Z.of_nat (length (rb_iterator b));
  rb_minimum_iterator b v vs : rb_ok b -> rb_iterator b = v :: vs -> rb_minimum b = v;
  rb_maximum_iterator b v vs : rb_ok b -> rb_iterator b = vs ++ [v] -> rb_maximum b = v;
  rb_equals_iterator a b : rb_ok a -> rb_ok b -> rb_equals a b = true <-> rb_iterator a = rb_iterator b;
  rb_marshal_unmarshal b : rb_ok b -> exists encoded b', rb_marshal b = Ok encoded /\ encoded <> [] /\
    go_bytes encoded /\ rb_unmarshal encoded = Ok b' /\ rb_ok b' /\ rb_iterator b' = rb_iterator b;
}.

Section laws.
Context {B : Type} `{!Roaring B, !RoaringLaws B}.

(** The contents of a bitmap determine its iteration. *)
Lemma rb_iterator_ext (a : B) l :
  rb_ok a -> StronglySorted clt l -> (forall x, x ∈ rb_iterator a <-> x ∈ l) -> rb_iterator a = l.
Proof. intros. apply strict_sorted_ext; [by apply rb_iterator_sorted|done..]. Qed.

Lemma rb_iterator_new : rb_iterator (rb_new : B) = [].
Proof.
  apply rb_iterator_ext; [apply rb_new_ok|constructor|]. intros x. rewrite rb_new_elem.
  split; [done|]. by intros ?%not_elem_of_nil.
Qed.

Lemma rb_iterator_nodup (b : B) : rb_ok b -> NoDup (rb_iterator b).
Proof. intros. by apply nodup_of_strict, rb_iterator_sorted. Qed.

Lemma rb_nonempty (b : B) : rb_ok b -> rb_is_empty b = false <-> exists x, x ∈ rb_iterator b.
Proof.
  intros Hb. rewrite <- not_true_iff_false, rb_is_empty_iterator by done.
  destruct (rb_iterator b) as [|v vs].
  - split; [done|]. by intros (x & ?%not_elem_of_nil).
  - split; [|done]. intros _. exists v. by left.
Qed.

Lemma rb_run_optimize_iterator (b : B) : rb_ok b -> rb_iterator (rb_run_optimize b) = rb_iterator b.
Proof.
  intros Hb. apply rb_iterator_ext; [by apply rb_run_optimize_ok|by apply rb_iterator_sorted|].
  intros. by apply rb_run_optimize_elem.
Qed.
End laws.

(** ** Instance: strictly sorted lists *)
Module ListBitmap.
Definition normal (l : list Z) : list Z := go_sort (remove_dups l).
Definition in_range (v : Z) : bool := (0 <=? v) && (v <? 2 ^ 32).

Fixpoint decode (n : nat) (b : bytes) : list Z :=
  match n with O => [] | S n' => be_value (take 4 b) :: decode n' (drop 4 b) end.
Definition encode (l : list Z) : bytes := concat (map be_uint32 l).

Definition listed := list Z.
#[global] Instance list_roaring : Roaring listed := {|
  rb_new := [];
  rb_add := fun b v => normal (v :: b);
  rb_add_many := fun b vs => normal (vs ++ b);
  rb_or := fun a b => normal (a ++ b);
  rb_and := fun a b => filter (fun x => x ∈ b) a;
  rb_and_not := fun a b => filter (fun x => x ∉ b) a;
  rb_contains := fun b x => bool_decide (x ∈ b);
  rb_is_empty := fun b => bool_decide (b = []);
  rb_cardinality := fun b => Z.of_nat (length b);
  rb_minimum := fun b => default 0 (head b);
  rb_maximum := fun b => default 0 (last b);
  rb_iterator := fun b => b;
  rb_equals := fun a b => bool_decide (a = b);
  rb_run_optimize := fun b => b;
  rb_validate := fun b => fail_if (negb (bool_decide (normal b = b) && forallb in_range b && (Z.of_nat (length b) <=? 2 ^ 32)))
    (ErrNew "list bitmap");
  rb_marshal := fun b => Ok ("L"%char :: encode b);
  rb_unmarshal := fun e => match e with
    | [] => Err (ErrNew "list bitmap")
    | _ :: rest => Ok (decode (length rest / 4) rest) end
|}.

Lemma elem_normal x l : x ∈ normal l <-> x ∈ l.
Proof. unfold normal. by rewrite elem_go_sort, elem_of_remove_dups. Qed.
Lemma normal_strict l : StronglySorted clt (normal l).
Proof. apply go_sort_strict, NoDup_remove_dups. Qed.
Lemma normal_id l : normal l = l <-> StronglySorted clt l.
Proof.
  split; [intros <-; apply normal_strict|]. intros H.
  apply strict_sorted_ext; [apply normal_strict|done|]. intros. apply elem_normal.
Qed.

Lemma strict_range_length l : StronglySorted clt l -> Forall uint32_range l -> Z.of_nat (length l) <= 2 ^ 32.
Proof.
  intros Hs Hr. assert (H : forall lo, Forall (fun v => lo <= v < 2 ^ 32) l -> lo <= 2 ^ 32 -> lo + Z.of_nat (length l) <= 2 ^ 32).
  { clear Hr. induction Hs as [|v l Hs IH Hv]; intros lo Hl Hlo; cbn [length]; [lia|].
    inversion_clear Hl as [|?? H1 H2]. enough (v + 1 + Z.of_nat (length l) <= 2 ^ 32) by lia.
    apply IH; [|lia]. rewrite Forall_forall in *. intros x Hx.
    specialize (Hv x Hx). specialize (H2 x Hx). unfold clt, compare, Z_compare in Hv.
    rewrite Z.compare_lt_iff in Hv. lia. }
  specialize (H 0). apply H; [|lia]. exact Hr.
Qed.

Lemma list_ok_iff (b : listed) : rb_ok b <-> StronglySorted clt b /\ Forall uint32_range b.
Proof.
  unfold rb_ok; cbn -[Z.pow]. rewrite fail_if_ok, negb_false_iff, !andb_true_iff, bool_decide_eq_true, normal_id.
  rewrite forallb_forall, Z.leb_le.
  assert (Hr : (forall x, In x b -> in_range x = true) <-> Forall uint32_range b).
  { rewrite Forall_forall. setoid_rewrite list_elem_of_In. unfold in_range, uint32_range.
    setoid_rewrite andb_true_iff. setoid_rewrite Z.leb_le. by setoid_rewrite Z.ltb_lt. }
  rewrite Hr. split; [tauto|]. intros [Hs Hf]. split; [done|]. by apply strict_range_length.
Qed.

Lemma normal_ok l : Forall uint32_range l -> rb_ok (normal l : listed).
Proof.
  intros H. apply list_ok_iff. split; [apply normal_strict|].
  rewrite Forall_forall in H. apply Forall_forall. intros x Hx. by apply H, elem_normal.
Qed.

Lemma filter_strict (P : Z -> Prop) `{forall x, Decision (P x)} l :
  StronglySorted clt l -> StronglySorted clt (filter P l).
Proof.
  induction 1 as [|a l Hs IH Ha]; [constructor|]. rewrite filter_cons. destruct (decide (P a)); [|done].
  constructor; [done|]. rewrite Forall_forall in Ha. apply Forall_forall.
  intros x [_ Hx]%list_elem_of_filter. by apply Ha.
Qed.
Lemma filter_ok (P : Z -> Prop) `{forall x, Decision (P x)} (b : listed) :
  rb_ok b -> rb_ok (filter P b : listed).
Proof.
  rewrite !list_ok_iff. intros [Hs Hf]. split; [by apply filter_strict|].
  rewrite Forall_forall in Hf. apply Forall_forall. intros x [_ Hx]%list_elem_of_filter. by apply Hf.
Qed.

Lemma length_encode l : length (encode l) = (4 * length l)%nat.
Proof.
  unfold encode. induction l as [|v l IH]; [done|]. cbn [map concat length].
  rewrite length_app, IH. unfold be_uint32. rewrite length_be_bytes. lia.
Qed.
Lemma decode_encode l : Forall uint32_range l -> decode (length l) (encode l) = l.
Proof.
  unfold encode. induction 1 as [|v l Hv _ IH]; [done|]. cbn [map concat length decode].
  rewrite take_app_length', drop_app_length' by (symmetry; apply length_be_bytes).
  f_equal; [|done]. apply be_value_bytes. exact Hv.
Qed.

#[global] Instance list_roaring_laws : RoaringLaws listed.
Proof.
  split; intros; try (apply list_ok_iff in H as Hl; destruct Hl as [Hs Hf]);
    cbn [rb_new rb_add rb_add_many rb_or rb_and rb_and_not rb_contains rb_is_empty rb_cardinality rb_minimum
         rb_maximum rb_iterator rb_equals rb_run_optimize rb_marshal rb_unmarshal list_roaring] in *.
  - apply list_ok_iff. split; constructor.
  - apply normal_ok. by constructor.
  - apply normal_ok. by apply Forall_app.
  - apply normal_ok. apply Forall_app. split; [done|]. by apply list_ok_iff in H0 as [].
  - by apply filter_ok.
  - by apply filter_ok.
  - done.
  - done.
  - done.
  - split; [|done]. by intros ?%not_elem_of_nil.
  - by rewrite elem_normal, elem_of_cons.
  - by rewrite elem_normal, elem_of_app.
  - by rewrite elem_normal, elem_of_app.
  - rewrite list_elem_of_filter. tauto.
  - rewrite list_elem_of_filter. tauto.
  - done.
  - apply bool_decide_eq_true.
  - apply bool_decide_eq_true.
  - done.
  - by subst.
  - subst. by rewrite last_snoc.
  - apply bool_decide_eq_true.
  - pose proof (strict_range_length b Hs Hf).
    exists ("L"%char :: encode b), b. split; [done|]. split; [done|]. split.
    + unfold go_bytes, bytes_len, max_int64. cbn [length]. rewrite length_encode. lia.
    + rewrite length_encode, Nat.mul_comm, Nat.div_mul by done.
      rewrite decode_encode by done. done.
Qed.
End ListBitmap.
