(* ===== verification/Bitmap.v ===== *)
(** * Bitmap sets of facts

    [src/internal/ordinal/bitmap.go]: the builder, the immutable [BitmapSet]
    with its algebra, the portable encodings, and the set digest.  A set is a
    finite map from segments to Roaring bitmaps; the map a nil or empty Go map
    stands for is the empty map.  Loops over a Go map visit each key once, so a
    loop that writes the visited key only is a pointwise map operation. *)

From S2P Require Import Prelude GoBytes Ordering Sha256 Ordinal Roaring.
Import Ordinal.

Module Bitmap.

Definition containerDigestDomain : bytes := to_bytes "TASKGATE-ORDINAL-CONTAINER-V1" ++ [byte_of 0].
Definition segmentDigestDomain : bytes := to_bytes "TASKGATE-ORDINAL-SEGMENT-V1" ++ [byte_of 0].
Definition bitmapSetDigestDomain : bytes := to_bytes "TASKGATE-ORDINAL-BITMAP-SET-V1" ++ [byte_of 0].

Record PortableContainer := {
  pcKey : ContainerKey;
  pcBitmap : bytes;
  pcCardinality : Z;
  pcDigest : string;
}.

Record PortableSegment := {
  psSegment : SegmentRef;
  psBitmap : bytes;
  psCardinality : Z;
  psDigest : string;
}.

Record SegmentBound := {
  sbSegment : SegmentRef;
  sbCardinality : Z;
  sbMinOrdinal : Z;
  sbMaxOrdinal : Z;
}.

(** The bytes hashed by [containerDigest] and [segmentDigest]. *)
Definition container_material (key : ContainerKey) (cardinality : Z) (encoded : bytes) : bytes :=
  containerDigestDomain ++ be_string (kDictionaryDigest key) ++ be_string (kSegmentID key) ++
  be_uint16 (kHigh16 key) ++ be_uint64 cardinality ++ be_field encoded.
Definition containerDigest (key : ContainerKey) (cardinality : Z) (encoded : bytes) : string :=
  Sha256.hex_sum (container_material key cardinality encoded).
Definition segment_material (key : SegmentRef) (cardinality : Z) (encoded : bytes) : bytes :=
  segmentDigestDomain ++ be_string (sDictionaryDigest key) ++ be_string (sSegmentID key) ++
  be_uint64 cardinality ++ be_field encoded.
Definition segmentDigest (key : SegmentRef) (cardinality : Z) (encoded : bytes) : string :=
  Sha256.hex_sum (segment_material key cardinality encoded).

(** [uint16(value >> 16)]. *)
Definition high16 (value : Z) : Z := Z.land (Z.shiftr value 16) 0xffff.

Section bitmap.
Context {B : Type} `{!Roaring B}.

Record BitmapSet := MkSet { segments : gmap SegmentRef B }.

Record Builder := MkBuilder {
  bsegments : gmap SegmentRef B;
  berr : option goerror;
}.

(** ** The builder: a method on a nil pointer has receiver [None] *)
Definition NewBuilder : Builder := MkBuilder ∅ None.

Definition nil_builder : goerror := ErrW ErrInvalid "nil bitmap builder".

Definition Add (b : option Builder) (ref : FactRef) : option Builder * result unit :=
  match b with
  | None => (None, Err nil_builder)
  | Some b =>
      match berr b with
      | Some e => (Some b, Err e)
      | None =>
          let key := segment ref in
          match bsegments b !! key with
          | None =>
              match FactRef_Validate ref with
              | Err e => (Some (MkBuilder (bsegments b) (Some e)), Err e)
              | Ok _ => (Some (MkBuilder (<[key := rb_add rb_new (fOrdinal ref)]> (bsegments b)) None), Ok tt)
              end
          | Some bitmap =>
              (Some (MkBuilder (<[key := rb_add bitmap (fOrdinal ref)]> (bsegments b)) None), Ok tt)
          end
      end
  end.

Fixpoint AddMany (b : option Builder) (refs : list FactRef) : option Builder * result unit :=
  match refs with
  | [] => (b, Ok tt)
  | ref :: rest =>
      match Add b ref with
      | (b', Err e) => (b', Err e)
      | (b', Ok _) => AddMany b' rest
      end
  end.

Definition cloneSegments (source : gmap SegmentRef B) : gmap SegmentRef B :=
  filter (fun kv => rb_is_empty kv.2 = false) source.

Definition Freeze (b : option Builder) : result BitmapSet :=
  match b with
  | None => Err nil_builder
  | Some b => match berr b with Some e => Err e | None => Ok (MkSet (cloneSegments (bsegments b))) end
  end.

Definition NewBitmapSet (refs : list FactRef) : result BitmapSet :=
  let '(builder, r) := AddMany (Some NewBuilder) refs in
  r ≫= fun _ => Freeze builder.

(** ** Queries *)
Definition sortedSegmentRefs (m : gmap SegmentRef B) : list SegmentRef :=
  go_sort (map fst (filter (fun kv => rb_is_empty kv.2 = false) (map_to_list m))).

Definition Cardinality (s : BitmapSet) : Z :=
  foldl (fun result kv => wrap_uint64 (result + rb_cardinality kv.2)) 0 (map_to_list (segments s)).

Definition IsEmpty (s : BitmapSet) : bool := Cardinality s =? 0.

Definition Contains (s : BitmapSet) (ref : FactRef) : bool :=
  if negb (is_ok (FactRef_Validate ref)) then false
  else match segments s !! segment ref with
       | Some bitmap => rb_contains bitmap (fOrdinal ref)
       | None => false
       end.

Definition MaxOrdinal (s : BitmapSet) (seg : SegmentRef) : option Z :=
  match segments s !! seg with
  | Some bitmap => if rb_is_empty bitmap then None else Some (rb_maximum bitmap)
  | None => None
  end.

(** [s.segments[key]] for a key of [sortedSegmentRefs]. *)
Definition bitmap_at (s : BitmapSet) (key : SegmentRef) : B := default rb_new (segments s !! key).

Definition SegmentBounds (s : BitmapSet) : list SegmentBound :=
  map (fun key => let bitmap := bitmap_at s key in
    {| sbSegment := key; sbCardinality := rb_cardinality bitmap;
       sbMinOrdinal := rb_minimum bitmap; sbMaxOrdinal := rb_maximum bitmap |})
    (sortedSegmentRefs (segments s)).

(** The sequence [Refs] yields; a callback that answers false stops it. *)
Definition Refs (s : BitmapSet) : list FactRef :=
  flat_map (fun key => map (segment_fact key) (rb_iterator (bitmap_at s key))) (sortedSegmentRefs (segments s)).

(** ** Algebra *)
Definition Union (s other : BitmapSet) : BitmapSet :=
  MkSet (union_with (fun left right => Some (rb_or left right)) (cloneSegments (segments s)) (segments other)).

Definition Difference (s other : BitmapSet) : BitmapSet :=
  MkSet (map_imap (fun key left =>
    let bitmap := match segments other !! key with Some theirs => rb_and_not left theirs | None => left end in
    if rb_is_empty bitmap then None else Some bitmap) (segments s)).

Definition Intersection (s other : BitmapSet) : BitmapSet :=
  MkSet (map_imap (fun key left =>
    match segments other !! key with
    | Some theirs => let bitmap := rb_and left theirs in if rb_is_empty bitmap then None else Some bitmap
    | None => None
    end) (segments s)).

Definition Equal (s other : BitmapSet) : bool :=
  if negb (Cardinality s =? Cardinality other) || negb (bool_decide (size (segments s) = size (segments other)))
  then false
  else forallb (fun kv => match segments other !! kv.1 with
                          | None => false
                          | Some theirs => rb_equals kv.2 theirs
                          end) (map_to_list (segments s)).

(** ** Canonical serialization *)
Definition flush_buffer (normalized : B) (buffer : list Z) : B :=
  match buffer with [] => normalized | _ => rb_add_many normalized buffer end.

(** One call of the [Iterate] callback; the buffer holds 4096 values. *)
Definition buffer_step (st : B * list Z) (value : Z) : B * list Z :=
  let buffer := st.2 ++ [value] in
  if bool_decide (length buffer = 4096%nat) then (flush_buffer st.1 buffer, []) else (st.1, buffer).

Definition rebuild (values : list Z) : B :=
  let st := foldl buffer_step (rb_new, []) values in flush_buffer st.1 st.2.

Definition marshalCanonicalBitmap (source : B) : result bytes :=
  fail_if (rb_is_empty source) (ErrW ErrInvalid "empty portable bitmap") ≫= fun _ =>
  let normalized := rb_run_optimize (rebuild (rb_iterator source)) in
  map_err (fun e => ErrWV ErrInvalid (ErrCtx "roaring validation" e)) (rb_validate normalized) ≫= fun _ =>
  map_err (fun e => ErrWV ErrInvalid (ErrCtx "marshal roaring bitmap" e)) (rb_marshal normalized).

Definition parseCanonicalBitmap (encoded : bytes) : result B :=
  fail_if (bool_decide (encoded = [])) (ErrW ErrInvalid "empty portable bitmap") ≫= fun _ =>
  bitmap ← map_err (fun e => ErrWV ErrInvalid (ErrCtx "decode roaring bitmap" e)) (rb_unmarshal encoded);
  map_err (fun e => ErrWV ErrInvalid (ErrCtx "validate roaring bitmap" e)) (rb_validate bitmap) ≫= fun _ =>
  canonical ← marshalCanonicalBitmap bitmap;
  fail_if (negb (bool_decide (canonical = encoded))) ErrNonCanonical ≫= fun _ => Ok bitmap.

(** ** High-16 containers *)
Definition flush_container (seg : SegmentRef) (currentHigh : Z) (current : option B)
    (acc : list PortableContainer) : result (list PortableContainer) :=
  match current with
  | None => Ok acc
  | Some bitmap =>
      if rb_is_empty bitmap then Ok acc
      else
        encoded ← marshalCanonicalBitmap bitmap;
        let key := Key (sDictionaryDigest seg) (sSegmentID seg) currentHigh in
        let cardinality := rb_cardinality bitmap in
        Ok (acc ++ [{| pcKey := key; pcBitmap := encoded; pcCardinality := cardinality;
                       pcDigest := containerDigest key cardinality encoded |}])
  end.

(** The loop over one segment's iterator, with its variables [currentHigh],
    [current] and [result]. *)
Fixpoint container_loop (seg : SegmentRef) (values : list Z) (currentHigh : Z) (current : option B)
    (acc : list PortableContainer) : result (list PortableContainer) :=
  match values with
  | [] => flush_container seg currentHigh current acc
  | value :: rest =>
      let high := high16 value in
      match current with
      | Some bitmap =>
          if high =? currentHigh then container_loop seg rest currentHigh (Some (rb_add bitmap value)) acc
          else acc' ← flush_container seg currentHigh current acc;
               container_loop seg rest high (Some (rb_add rb_new value)) acc'
      | None =>
          acc' ← flush_container seg currentHigh current acc;
          container_loop seg rest high (Some (rb_add rb_new value)) acc'
      end
  end.

Definition PortableContainers (s : BitmapSet) : result (list PortableContainer) :=
  fold_res (fun acc seg => container_loop seg (rb_iterator (bitmap_at s seg)) 0 None acc) []
    (sortedSegmentRefs (segments s)).

(** The checks on one container, after its key was found fresh. *)
Definition parse_container (item : PortableContainer) : result B :=
  bitmap ← map_err (ErrCtx "container %d") (parseCanonicalBitmap (pcBitmap item));
  fail_if (rb_is_empty bitmap || negb (rb_cardinality bitmap =? pcCardinality item))
    (ErrW ErrInvalid "container %d cardinality") ≫= fun _ =>
  check_all (fun value => fail_if (negb (high16 value =? kHigh16 (pcKey item)))
    (ErrW ErrInvalid "container %d crosses high16 boundary")) (rb_iterator bitmap) ≫= fun _ =>
  fail_if (negb (validDigest (pcDigest item)) ||
           negb (bool_decide (pcDigest item = containerDigest (pcKey item) (pcCardinality item) (pcBitmap item))))
    (ErrW ErrDigestMismatch "container %d") ≫= fun _ =>
  Ok bitmap.

Definition parse_container_step (st : gmap SegmentRef B * gset ContainerKey) (item : PortableContainer) :
    result (gmap SegmentRef B * gset ContainerKey) :=
  let '(segs, seen) := st in
  map_err (fun e => ErrWV ErrInvalid (ErrCtx "container %d key" e)) (ContainerKey_Validate (pcKey item)) ≫= fun _ =>
  fail_if (bool_decide (pcKey item ∈ seen)) (ErrW ErrInvalid "duplicate container key") ≫= fun _ =>
  bitmap ← parse_container item;
  let seg := key_segment (pcKey item) in
  let segs' := match segs !! seg with
               | None => <[seg := bitmap]> segs
               | Some mine => <[seg := rb_or mine bitmap]> segs
               end in
  Ok (segs', {[ pcKey item ]} ∪ seen).

Definition ParsePortableContainers (items : list PortableContainer) : result BitmapSet :=
  st ← fold_res parse_container_step (∅, ∅) items; Ok (MkSet st.1).

(** ** Whole segments *)
Definition portable_segment (s : BitmapSet) (acc : list PortableSegment) (seg : SegmentRef) :
    result (list PortableSegment) :=
  encoded ← marshalCanonicalBitmap (bitmap_at s seg);
  let cardinality := rb_cardinality (bitmap_at s seg) in
  Ok (acc ++ [{| psSegment := seg; psBitmap := encoded; psCardinality := cardinality;
                 psDigest := segmentDigest seg cardinality encoded |}]).
Definition PortableSegments (s : BitmapSet) : result (list PortableSegment) :=
  fold_res (portable_segment s) [] (sortedSegmentRefs (segments s)).

Definition parse_segment_step (segs : gmap SegmentRef B) (item : PortableSegment) : result (gmap SegmentRef B) :=
  map_err (fun e => ErrWV ErrInvalid (ErrCtx "segment %d key" e)) (SegmentRef_Validate (psSegment item)) ≫= fun _ =>
  fail_if (bool_decide (is_Some (segs !! psSegment item))) (ErrW ErrInvalid "duplicate portable segment") ≫= fun _ =>
  bitmap ← map_err (ErrCtx "segment %d") (parseCanonicalBitmap (psBitmap item));
  fail_if (rb_is_empty bitmap || negb (rb_cardinality bitmap =? psCardinality item))
    (ErrW ErrInvalid "segment %d cardinality") ≫= fun _ =>
  fail_if (negb (validDigest (psDigest item)) ||
           negb (bool_decide (psDigest item = segmentDigest (psSegment item) (psCardinality item) (psBitmap item))))
    (ErrW ErrDigestMismatch "segment %d") ≫= fun _ =>
  Ok (<[psSegment item := bitmap]> segs).
Definition ParsePortableSegments (items : list PortableSegment) : result BitmapSet :=
  segs ← fold_res parse_segment_step ∅ items; Ok (MkSet segs).

(** ** The digest of a set *)
Definition set_material (containers : list PortableContainer) : bytes :=
  bitmapSetDigestDomain ++ be_uint64 (Z.of_nat (length containers)) ++
  flat_map (fun item => be_string (kDictionaryDigest (pcKey item)) ++ be_string (kSegmentID (pcKey item)) ++
    be_uint16 (kHigh16 (pcKey item)) ++ be_uint64 (pcCardinality item) ++ be_string (pcDigest item)) containers.

Definition Digest (s : BitmapSet) : result string :=
  containers ← PortableContainers s; Ok (Sha256.hex_sum (set_material containers)).
End bitmap.
Arguments BitmapSet B : clear implicits.
Arguments Builder B : clear implicits.

(** ** Well-formed sets and their contents *)
Section theory.
Context {B : Type} `{!Roaring B, !RoaringLaws B}.
Implicit Types (s o : BitmapSet B) (r : FactRef).

Definition good_bitmap (key : SegmentRef) (bitmap : B) : Prop :=
  SegmentRef_Validate key = Ok tt /\ rb_ok bitmap /\ rb_is_empty bitmap = false.
Definition wf_segments (m : gmap SegmentRef B) : Prop := map_Forall good_bitmap m.
Definition wf (s : BitmapSet B) : Prop := wf_segments (segments s).

(** The contents of a map of bitmaps: the facts it stands for. *)
Definition holds (m : gmap SegmentRef B) (r : FactRef) : Prop :=
  exists bitmap, m !! segment r = Some bitmap /\ fOrdinal r ∈ rb_iterator bitmap.

Lemma Contains_holds s r : wf s -> Contains s r = true <-> holds (segments s) r.
Proof.
  intros Hwf. unfold Contains, holds. rewrite FactRef_Validate_segment.
  destruct (segments s !! segment r) as [bitmap|] eqn:E.
  - destruct (Hwf _ _ E) as (-> & Hok & _). cbn. rewrite rb_contains_elem by done. naive_solver.
  - destruct (negb _); naive_solver.
Qed.

(** *** The segments in order *)
Lemma nodup_fst_filter {K V} (P : K * V -> Prop) `{forall x, Decision (P x)} (l : list (K * V)) :
  NoDup (map fst l) -> NoDup (map fst (filter P l)).
Proof.
  induction l as [|a l IH]; [done|]. cbn [map]. intros Hd. inversion_clear Hd as [|?? Hn Hd'].
  rewrite filter_cons. destruct (decide (P a)); [|by apply IH]. cbn [map]. constructor; [|by apply IH].
  intros (x & Hx & Hin)%list_elem_of_fmap. apply Hn. apply list_elem_of_filter in Hin as [_ Hin].
  rewrite Hx. by apply list_elem_of_fmap_2.
Qed.

Lemma sortedSegmentRefs_sorted (m : gmap SegmentRef B) : StronglySorted clt (sortedSegmentRefs m).
Proof. apply go_sort_strict, nodup_fst_filter. apply NoDup_fst_map_to_list. Qed.

Lemma elem_sortedSegmentRefs (m : gmap SegmentRef B) key :
  key ∈ sortedSegmentRefs m <-> exists bitmap, m !! key = Some bitmap /\ rb_is_empty bitmap = false.
Proof.
  unfold sortedSegmentRefs. rewrite elem_go_sort, list_elem_of_fmap. split.
  - intros ([k b] & -> & [He Hin]%list_elem_of_filter). apply elem_of_map_to_list in Hin. eauto.
  - intros (b & Hm & He). exists (key, b). split; [done|]. apply list_elem_of_filter.
    split; [done|]. by apply elem_of_map_to_list.
Qed.

Lemma elem_sorted_wf m key : wf_segments m -> key ∈ sortedSegmentRefs m <-> is_Some (m !! key).
Proof.
  intros Hwf. rewrite elem_sortedSegmentRefs. split; [intros (b & -> & _); eauto|].
  intros [b Hb]. exists b. split; [done|]. by destruct (Hwf _ _ Hb) as (_ & _ & ?).
Qed.

(** *** [Refs] lists the contents, in order *)
Lemma elem_Refs s r : wf s -> r ∈ Refs s <-> holds (segments s) r.
Proof.
  intros Hwf. unfold Refs, holds, bitmap_at. rewrite list_elem_of_In, in_flat_map. split.
  - intros (key & Hk & Hr). rewrite <- list_elem_of_In, elem_sorted_wf in Hk by done.
    rewrite <- list_elem_of_In in Hr. destruct Hk as [b Hb]. rewrite Hb in Hr. cbn in Hr. apply list_elem_of_fmap in Hr as (v & -> & Hv).
    exists b. rewrite segment_segment_fact. done.
  - intros (b & Hb & Hv). exists (segment r). rewrite <- !list_elem_of_In, elem_sorted_wf by done.
    split; [eauto|]. rewrite Hb. cbn. apply list_elem_of_fmap. exists (fOrdinal r).
    by rewrite fact_segment.
Qed.

Lemma sorted_flat_map {K A C} `{!Compare K, !CompareLaws K} `{!Compare C, !CompareLaws C}
    (f : K -> list A) (g : K -> A -> C) (ks : list K) :
  StronglySorted clt ks ->
  (forall k, k ∈ ks -> StronglySorted clt (map (g k) (f k))) ->
  (forall j k a b, clt j k -> clt (g j a) (g k b)) ->
  StronglySorted clt (flat_map (fun k => map (g k) (f k)) ks).
Proof.
  intros Hs Hf Hlt. induction Hs as [|k ks Hs IH Hk]; cbn; [constructor|].
  assert (Hrest := IH ltac:(intros; apply Hf; by right)).
  specialize (Hf k ltac:(by left)). rewrite Forall_forall in Hk.
  assert (Hall : forall x, x ∈ map (g k) (f k) -> Forall (clt x) (flat_map (fun k => map (g k) (f k)) ks)).
  { intros x (a & -> & _)%list_elem_of_fmap. apply Forall_forall. intros y Hy.
    apply list_elem_of_In, in_flat_map in Hy as (k' & Hk' & Hy).
    apply list_elem_of_In in Hk', Hy. apply list_elem_of_fmap in Hy as (b & -> & _).
    by apply Hlt, Hk. }
  induction Hf as [|x l Hl IHl Hx]; cbn; [done|]. constructor.
  - apply IHl. intros; apply Hall; by right.
  - apply Forall_app. split; [done|]. apply Hall. by left.
Qed.

Lemma segment_fact_lt_ordinal key a b : clt (segment_fact key a) (segment_fact key b) <-> clt a b.
Proof.
  unfold clt at 1, compare at 1, FactRef_compare, compare_on, ref_pair, compare at 1, prod_compare; cbn [fst snd].
  rewrite !segment_segment_fact, (proj2 (compare_eq key key) eq_refl). done.
Qed.
Lemma segment_fact_lt_segment j k a b : clt j k -> clt (segment_fact j a) (segment_fact k b).
Proof.
  unfold clt at 2, compare at 1, FactRef_compare, compare_on, ref_pair, compare at 1, prod_compare; cbn [fst snd].
  rewrite !segment_segment_fact. by intros ->.
Qed.

Lemma bitmap_at_ok s key : wf s -> rb_ok (bitmap_at s key).
Proof.
  intros Hwf. unfold bitmap_at. destruct (segments s !! key) as [b|] eqn:E; cbn; [|apply rb_new_ok].
  by destruct (Hwf _ _ E) as (_ & ? & _).
Qed.

Lemma Refs_sorted s : wf s -> StronglySorted clt (Refs s).
Proof.
  intros Hwf. apply sorted_flat_map; [apply sortedSegmentRefs_sorted| |by intros; apply segment_fact_lt_segment].
  intros k _. pose proof (rb_iterator_sorted _ (bitmap_at_ok s k Hwf)) as Hs.
  induction Hs as [|v vs Hs IH Hv]; cbn; constructor; [done|].
  rewrite Forall_map. eapply Forall_impl; [exact Hv|]. intros. by apply segment_fact_lt_ordinal.
Qed.

(** Sets with the same contents list the same facts. *)
Lemma Refs_ext s o : wf s -> wf o ->
  (forall r, holds (segments s) r <-> holds (segments o) r) -> Refs s = Refs o.
Proof.
  intros Hs Ho Hext. apply strict_sorted_ext; [by apply Refs_sorted..|].
  intros r. by rewrite !elem_Refs.
Qed.

(** *** Cardinality *)
Lemma clone_wf (m : gmap SegmentRef B) : wf_segments m -> cloneSegments m = m.
Proof. intros Hwf. apply map_filter_id. intros k b Hb. cbn. by destruct (Hwf _ _ Hb) as (_ & _ & ?). Qed.

Lemma sortedSegmentRefs_perm (m : gmap SegmentRef B) :
  wf_segments m -> sortedSegmentRefs m ≡ₚ map fst (map_to_list m).
Proof.
  intros Hwf. unfold sortedSegmentRefs. rewrite go_sort_perm.
  enough (Hid : filter (fun kv => rb_is_empty kv.2 = false) (map_to_list m) = map_to_list m) by (by rewrite Hid).
  assert (Hall : Forall (fun kv => rb_is_empty kv.2 = false) (map_to_list m)).
  { apply Forall_forall. intros [k b] Hin%elem_of_map_to_list. by destruct (Hwf _ _ Hin) as (_ & _ & ?). }
  induction Hall as [|a l Ha _ IH]; [done|]. by rewrite filter_cons_True, IH.
Qed.

Definition card_sum (l : list (SegmentRef * B)) : Z := foldr (fun kv n => rb_cardinality kv.2 + n) 0 l.

Lemma wrap_fold_sum (l : list (SegmentRef * B)) a :
  foldl (fun result kv => wrap_uint64 (result + rb_cardinality kv.2)) (wrap_uint64 a) l = wrap_uint64 (a + card_sum l).
Proof.
  revert a; induction l as [|x l IH]; intros a; cbn [foldl card_sum foldr].
  - by rewrite Z.add_0_r.
  - rewrite wrap_uint64_add_l, IH. f_equal. unfold card_sum. lia.
Qed.

Lemma Refs_length s : wf s -> Z.of_nat (length (Refs s)) = card_sum (map_to_list (segments s)).
Proof.
  intros Hwf. unfold Refs. rewrite (Permutation_flat_map _ (sortedSegmentRefs_perm _ Hwf)).
  assert (Hin : forall kv, kv ∈ map_to_list (segments s) -> bitmap_at s kv.1 = kv.2 /\ rb_ok kv.2).
  { intros [k b] Hin%elem_of_map_to_list. unfold bitmap_at; cbn. rewrite Hin. cbn.
    by destruct (Hwf _ _ Hin) as (_ & ? & _). }
  induction (map_to_list (segments s)) as [|kv l IH]; [done|]. cbn [map flat_map card_sum foldr].
  destruct (Hin kv ltac:(by left)) as [-> Hok].
  rewrite length_app, length_map, rb_cardinality_iterator, Nat2Z.inj_add, IH by (done || (intros; apply Hin; by right)).
  done.
Qed.

Lemma Cardinality_Refs s : wf s -> Cardinality s = wrap_uint64 (Z.of_nat (length (Refs s))).
Proof. intros Hwf. rewrite Refs_length by done. exact (wrap_fold_sum (map_to_list (segments s)) 0). Qed.

(** *** The operations keep sets well-formed; what they hold *)
Lemma Union_lookup s o key : wf s ->
  segments (Union s o) !! key =
  match segments s !! key, segments o !! key with
  | Some l, Some r => Some (rb_or l r)
  | Some l, None => Some l
  | None, x => x
  end.
Proof.
  intros Hwf. cbn. rewrite clone_wf, lookup_union_with by done.
  by destruct (segments s !! key), (segments o !! key).
Qed.

Lemma or_nonempty (a b : B) : rb_ok a -> rb_ok b -> rb_is_empty a = false -> rb_is_empty (rb_or a b) = false.
Proof.
  intros Ha Hb. rewrite !rb_nonempty by auto using rb_or_ok. intros (x & Hx). exists x.
  apply rb_or_elem; auto.
Qed.

Lemma Union_wf s o : wf s -> wf o -> wf (Union s o).
Proof.
  intros Hs Ho key b. rewrite Union_lookup by done.
  destruct (segments s !! key) as [l|] eqn:El, (segments o !! key) as [r|] eqn:Er; intros [= <-];
    [|by apply Hs|by apply Ho].
  destruct (Hs _ _ El) as (? & ? & ?), (Ho _ _ Er) as (_ & ? & ?).
  split; [done|]. split; [by apply rb_or_ok|by apply or_nonempty].
Qed.

Lemma Union_holds s o r : wf s -> wf o ->
  holds (segments (Union s o)) r <-> holds (segments s) r \/ holds (segments o) r.
Proof.
  intros Hs Ho. unfold holds. rewrite Union_lookup by done.
  destruct (segments s !! segment r) as [l|] eqn:El, (segments o !! segment r) as [t|] eqn:Er; try naive_solver.
  destruct (Hs _ _ El) as (_ & ? & _), (Ho _ _ Er) as (_ & ? & _).
  split.
  - intros (b & [= <-] & Hv). apply rb_or_elem in Hv as [?|?]; eauto.
  - intros [(b & [= <-] & Hv)|(b & [= <-] & Hv)]; eexists; (split; [done|]); apply rb_or_elem; auto.
Qed.

Definition minus (o : BitmapSet B) (key : SegmentRef) (b : B) : B :=
  match segments o !! key with Some theirs => rb_and_not b theirs | None => b end.

Lemma minus_spec o key b v : wf o -> rb_ok b ->
  rb_ok (minus o key b) /\ (v ∈ rb_iterator (minus o key b) <->
    v ∈ rb_iterator b /\ ~ holds (segments o) (segment_fact key v)).
Proof.
  intros Ho Hb. unfold minus, holds. rewrite segment_segment_fact. cbn [segment_fact fOrdinal].
  destruct (segments o !! key) as [t|] eqn:E; [|naive_solver].
  destruct (Ho _ _ E) as (_ & Ht & _). split; [by apply rb_and_not_ok|].
  rewrite rb_and_not_elem by done. naive_solver.
Qed.

Lemma Difference_lookup s o key :
  segments (Difference s o) !! key =
  segments s !! key ≫= fun b => if rb_is_empty (minus o key b) then None else Some (minus o key b).
Proof. cbn. by rewrite map_lookup_imap. Qed.

Lemma Difference_wf s o : wf s -> wf o -> wf (Difference s o).
Proof.
  intros Hs Ho key b. rewrite Difference_lookup.
  destruct (segments s !! key) as [l|] eqn:El; cbn; [|done].
  destruct (rb_is_empty _) eqn:Ee; intros [= <-]. destruct (Hs _ _ El) as (? & ? & _).
  split; [done|]. split; [by apply (minus_spec o key l 0)|done].
Qed.

Lemma Difference_holds s o r : wf s -> wf o ->
  holds (segments (Difference s o)) r <-> holds (segments s) r /\ ~ holds (segments o) r.
Proof.
  intros Hs Ho. unfold holds at 1. rewrite Difference_lookup. unfold holds at 1.
  destruct (segments s !! segment r) as [l|] eqn:El; cbn; [|naive_solver].
  destruct (Hs _ _ El) as (_ & Hl & _).
  destruct (minus_spec o (segment r) l (fOrdinal r) Ho Hl) as [Hok Hm]. rewrite fact_segment in Hm.
  destruct (rb_is_empty _) eqn:Ee.
  - apply rb_is_empty_iterator in Ee; [|done]. rewrite Ee in Hm. split; [naive_solver|].
    intros [(b & [= ->] & Hv) Hn]. by destruct (not_elem_of_nil (fOrdinal r)); apply Hm.
  - naive_solver.
Qed.

Lemma Intersection_lookup s o key :
  segments (Intersection s o) !! key =
  segments s !! key ≫= fun b => segments o !! key ≫= fun t =>
    if rb_is_empty (rb_and b t) then None else Some (rb_and b t).
Proof. cbn. rewrite map_lookup_imap. by destruct (segments s !! key), (segments o !! key). Qed.

Lemma Intersection_wf s o : wf s -> wf o -> wf (Intersection s o).
Proof.
  intros Hs Ho key b. rewrite Intersection_lookup.
  destruct (segments s !! key) as [l|] eqn:El; cbn; [|done].
  destruct (segments o !! key) as [t|] eqn:Er; cbn; [|done].
  destruct (rb_is_empty _) eqn:Ee; intros [= <-].
  destruct (Hs _ _ El) as (? & ? & _), (Ho _ _ Er) as (_ & ? & _).
  split; [done|]. split; [by apply rb_and_ok|done].
Qed.

Lemma Intersection_holds s o r : wf s -> wf o ->
  holds (segments (Intersection s o)) r <-> holds (segments s) r /\ holds (segments o) r.
Proof.
  intros Hs Ho. unfold holds. rewrite Intersection_lookup.
  destruct (segments s !! segment r) as [l|] eqn:El; cbn; [|naive_solver].
  destruct (segments o !! segment r) as [t|] eqn:Er; cbn; [|naive_solver].
  destruct (Hs _ _ El) as (_ & Hl & _), (Ho _ _ Er) as (_ & Ht & _).
  pose proof (rb_and_elem l t (fOrdinal r) Hl Ht) as Ha.
  destruct (rb_is_empty _) eqn:Ee.
  - apply rb_is_empty_iterator in Ee; [|by apply rb_and_ok]. rewrite Ee in Ha. split; [naive_solver|].
    intros [(b & [= ->] & Hv) (b' & [= ->] & Hv')]. by destruct (not_elem_of_nil (fOrdinal r)); apply Ha.
  - naive_solver.
Qed.

(** *** The builder *)
Lemma Add_step (b : Builder B) ref :
  wf_segments (bsegments b) -> berr b = None -> uint32_range (fOrdinal ref) ->
  FactRef_Validate ref = Ok tt ->
  exists b', Add (Some b) ref = (Some b', Ok tt) /\ berr b' = None /\ wf_segments (bsegments b') /\
    forall r, holds (bsegments b') r <-> r = ref \/ holds (bsegments b) r.
Proof.
  intros Hwf He Hr Hv. unfold Add. rewrite He, Hv. pose proof Hv as Hseg. rewrite FactRef_Validate_segment in Hseg.
  assert (Hgen : forall bitmap, rb_ok bitmap ->
    (forall x, x ∈ rb_iterator bitmap <-> holds (bsegments b) (segment_fact (segment ref) x)) ->
    wf_segments (<[segment ref := rb_add bitmap (fOrdinal ref)]> (bsegments b)) /\
    forall r, holds (<[segment ref := rb_add bitmap (fOrdinal ref)]> (bsegments b)) r <-> r = ref \/ holds (bsegments b) r).
  { intros bitmap Hok Hx.
    assert (Hel : forall x, x ∈ rb_iterator (rb_add bitmap (fOrdinal ref)) <-> x = fOrdinal ref \/ x ∈ rb_iterator bitmap)
      by (intros; by apply rb_add_elem).
    split.
    - apply map_Forall_insert_2; [|done]. split; [done|]. split; [by apply rb_add_ok|].
      apply rb_nonempty; [by apply rb_add_ok|]. exists (fOrdinal ref). apply Hel. by left.
    - intros r. unfold holds at 1. destruct (decide (segment r = segment ref)) as [E|E].
      + rewrite E, lookup_insert_eq. rewrite <- (fact_segment r), E, <- Hx.
        split; [intros (? & [= <-] & [Hv'|Hv']%Hel); [left|by right]|].
        * cbn in Hv'. rewrite Hv'. apply fact_segment.
        * intros H. eexists. split; [done|]. apply Hel. destruct H as [H|H]; [left|by right].
          rewrite <- H. done.
      + rewrite lookup_insert_ne by done. fold (holds (bsegments b) r). naive_solver. }
  destruct (bsegments b !! segment ref) as [bitmap|] eqn:E.
  - eexists. split; [done|]. split; [done|]. apply Hgen; [by destruct (Hwf _ _ E) as (_ & ? & _)|].
    intros x. unfold holds. rewrite segment_segment_fact, E. cbn. naive_solver.
  - eexists. split; [done|]. split; [done|]. apply Hgen; [apply rb_new_ok|].
    intros x. unfold holds. rewrite segment_segment_fact, E, rb_new_elem. naive_solver.
Qed.

Lemma Add_refused (b : Builder B) ref e :
  wf_segments (bsegments b) -> berr b = None -> FactRef_Validate ref = Err e ->
  exists b', Add (Some b) ref = (b', Err e).
Proof.
  intros Hwf He Hv. unfold Add. rewrite He, Hv. destruct (bsegments b !! segment ref) as [bitmap|] eqn:E; [|eauto].
  destruct (Hwf _ _ E) as (Hs & _). by rewrite <- FactRef_Validate_segment, Hv in Hs.
Qed.

Lemma AddMany_spec (b : Builder B) refs :
  wf_segments (bsegments b) -> berr b = None -> Forall (fun r => uint32_range (fOrdinal r)) refs ->
  match check_all FactRef_Validate refs with
  | Ok _ => exists b', AddMany (Some b) refs = (Some b', Ok tt) /\ berr b' = None /\ wf_segments (bsegments b') /\
      forall r, holds (bsegments b') r <-> r ∈ refs \/ holds (bsegments b) r
  | Err e => exists b', AddMany (Some b) refs = (b', Err e)
  end.
Proof.
  intros Hwf He Hr. revert b Hwf He. induction Hr as [|ref refs Hr _ IH]; intros b Hwf He; cbn [check_all AddMany].
  - exists b. repeat (split; [done|]). intros r. rewrite elem_of_nil. tauto.
  - destruct (FactRef_Validate ref) as [[]|e] eqn:Hv.
    + destruct (Add_step b ref Hwf He Hr Hv) as (b1 & -> & He1 & Hwf1 & Hh1). cbn.
      specialize (IH b1 Hwf1 He1). destruct (check_all FactRef_Validate refs); [|done].
      destruct IH as (b2 & -> & He2 & Hwf2 & Hh2). exists b2. repeat (split; [done|]).
      intros r. rewrite Hh2, Hh1, elem_of_cons. tauto.
    + destruct (Add_refused b ref e Hwf He Hv) as (b1 & ->). cbn. eauto.
Qed.

(** [NewBitmapSet] builds exactly the set of its arguments: it fails with
    the first invalid reference's error, and otherwise the frozen set is
    well-formed and contains a reference exactly when it was given. *)
Theorem NewBitmapSet_exact refs :
  Forall (fun r => uint32_range (fOrdinal r)) refs ->
  match check_all FactRef_Validate refs with
  | Err e => NewBitmapSet (B := B) refs = Err e
  | Ok _ => exists s, NewBitmapSet (B := B) refs = Ok s /\ wf s /\ (forall r, Contains s r = true <-> r ∈ refs)
  end.
Proof.
  intros Hr. pose proof (AddMany_spec NewBuilder refs ltac:(apply map_Forall_empty) eq_refl Hr) as H.
  unfold NewBitmapSet. destruct (check_all FactRef_Validate refs); destruct H as [b H].
  - destruct H as (-> & He & Hwf & Hh). cbn. rewrite He, clone_wf by done.
    exists (MkSet (bsegments b)). split; [done|]. split; [done|]. intros r.
    rewrite Contains_holds by done. cbn. rewrite Hh. cbn. unfold holds. rewrite lookup_empty. naive_solver.
  - by rewrite H.
Qed.

(** *** Equality *)
Lemma iterators_ext s o key : wf s -> wf o -> (forall r, holds (segments s) r <-> holds (segments o) r) ->
  option_map rb_iterator (segments s !! key) = option_map rb_iterator (segments o !! key).
Proof.
  intros Hs Ho Hext.
  assert (Hx : forall v, holds (segments s) (segment_fact key v) <-> holds (segments o) (segment_fact key v))
    by (intros; apply Hext).
  unfold holds in Hx. setoid_rewrite segment_segment_fact in Hx. cbn [segment_fact fOrdinal] in Hx.
  destruct (segments s !! key) as [l|] eqn:El, (segments o !! key) as [t|] eqn:Er; cbn; [| | |done].
  - destruct (Hs _ _ El) as (_ & Hl & _), (Ho _ _ Er) as (_ & Ht & _). f_equal.
    apply rb_iterator_ext; [done|by apply rb_iterator_sorted|]. naive_solver.
  - exfalso. destruct (Hs _ _ El) as (_ & Hl & He). apply rb_nonempty in He as [x ?]; [|done].
    destruct (proj1 (Hx x)) as (? & ? & _); [eauto|done].
  - exfalso. destruct (Ho _ _ Er) as (_ & Hl & He). apply rb_nonempty in He as [x ?]; [|done].
    destruct (proj2 (Hx x)) as (? & ? & _); [eauto|done].
Qed.

Lemma Equal_iff s o : wf s -> wf o ->
  Equal s o = true <-> forall r, holds (segments s) r <-> holds (segments o) r.
Proof.
  intros Hs Ho. split.
  - unfold Equal. destruct (_ || _) eqn:Eh; [done|]. apply orb_false_iff in Eh as [_ Eh].
    apply negb_false_iff, bool_decide_eq_true in Eh. rewrite forallb_forall. intros Hall.
    assert (Hkey : forall key l, segments s !! key = Some l -> exists t, segments o !! key = Some t /\ rb_iterator l = rb_iterator t).
    { intros key l El. specialize (Hall (key, l)). rewrite <- list_elem_of_In, elem_of_map_to_list in Hall.
      specialize (Hall El). cbn in Hall. destruct (segments o !! key) as [t|] eqn:Er; [|done]. exists t.
      split; [done|]. destruct (Hs _ _ El) as (_ & ? & _), (Ho _ _ Er) as (_ & ? & _). by apply rb_equals_iterator. }
    assert (Hdom : dom (segments s) = dom (segments o)).
    { apply map_dom_eq; [|done]. intros key [l Hl]. destruct (Hkey _ _ Hl) as (t & Ht & _). by exists t. }
    intros r. unfold holds. split.
    + intros (l & El & Hv). destruct (Hkey _ _ El) as (t & Ht & Hi). exists t. by rewrite <- Hi.
    + intros (t & Et & Hv). assert (Hin : segment r ∈ dom (segments s)) by (rewrite Hdom; apply elem_of_dom; eauto).
      apply elem_of_dom in Hin as [l El]. destruct (Hkey _ _ El) as (t' & Et' & Hi). simplify_eq. exists l. by rewrite Hi.
  - intros Hext. unfold Equal. rewrite !Cardinality_Refs, (Refs_ext s o), Z.eqb_refl by done. cbn [negb orb].
    assert (Hi := fun key => iterators_ext s o key Hs Ho Hext).
    assert (Hd : dom (segments s) = dom (segments o)).
    { apply set_eq. intros key. rewrite !elem_of_dom. specialize (Hi key).
      destruct (segments s !! key), (segments o !! key); naive_solver. }
    rewrite <- !size_dom, Hd, bool_decide_eq_true_2 by done. cbn [negb].
    apply forallb_forall. intros [key l] Hin%list_elem_of_In%elem_of_map_to_list. cbn.
    specialize (Hi key). rewrite Hin in Hi. destruct (segments o !! key) as [t|] eqn:Et; [|done].
    injection Hi as Hi. destruct (Hs _ _ Hin) as (_ & ? & _), (Ho _ _ Et) as (_ & ? & _). by apply rb_equals_iterator.
Qed.

(** C28: the bitmap algebra implements set algebra exactly: union, difference
    and intersection of well-formed sets are well-formed and contain a
    reference by the corresponding boolean combination, and [Equal] decides
    equality of contents. *)
Theorem bitmap_algebra s o : wf s -> wf o ->
  (wf (Union s o) /\ forall r, Contains (Union s o) r = Contains s r || Contains o r) /\
  (wf (Difference s o) /\ forall r, Contains (Difference s o) r = Contains s r && negb (Contains o r)) /\
  (wf (Intersection s o) /\ forall r, Contains (Intersection s o) r = Contains s r && Contains o r) /\
  (Equal s o = true <-> forall r, Contains s r = Contains o r).
Proof.
  intros Hs Ho.
  pose proof (Union_wf s o Hs Ho). pose proof (Difference_wf s o Hs Ho). pose proof (Intersection_wf s o Hs Ho).
  split; [split; [done|]|split; [split; [done|]|split; [split; [done|]|]]].
  - intros r. apply bool_iff_eq. by rewrite orb_true_iff, !Contains_holds, Union_holds.
  - intros r. apply bool_iff_eq. rewrite andb_true_iff, negb_true_iff, <- not_true_iff_false.
    by rewrite !Contains_holds, Difference_holds.
  - intros r. apply bool_iff_eq. by rewrite andb_true_iff, !Contains_holds, Intersection_holds.
  - rewrite Equal_iff by done. setoid_rewrite <- Contains_holds; [|done..].
    split; intros H' r; [by apply bool_iff_eq|by rewrite H'].
Qed.

Lemma Refs_split s o1 o2 : wf s -> wf o1 -> wf o2 ->
  (forall r, holds (segments s) r <-> holds (segments o1) r \/ holds (segments o2) r) ->
  (forall r, holds (segments o1) r -> holds (segments o2) r -> False) ->
  Refs s ≡ₚ Refs o1 ++ Refs o2.
Proof.
  intros Hs H1 H2 Hsplit Hdisj. apply NoDup_Permutation.
  - by apply nodup_of_strict, Refs_sorted.
  - apply NoDup_app. split; [by apply nodup_of_strict, Refs_sorted|]. split; [|by apply nodup_of_strict, Refs_sorted].
    intros r. rewrite !elem_Refs by done. eauto.
  - intros r. by rewrite elem_of_app, !elem_Refs.
Qed.

Lemma Cardinality_split s o1 o2 : wf s -> wf o1 -> wf o2 -> Refs s ≡ₚ Refs o1 ++ Refs o2 ->
  Cardinality s = wrap_uint64 (Cardinality o1 + Cardinality o2).
Proof.
  intros Hs H1 H2 Hp. rewrite !Cardinality_Refs, Hp, length_app, Nat2Z.inj_add by done.
  by rewrite wrap_uint64_add_l, wrap_uint64_add_r.
Qed.

(** the charge of a release is its novelty: the cardinality of a union is
    the cardinality of the ledger plus the cardinality of the difference, and
    a set splits into what it shares with another and what it does not (all
    in the code's 64-bit counters). *)
Theorem charge_is_novelty s o : wf s -> wf o ->
  Cardinality (Union s o) = wrap_uint64 (Cardinality s + Cardinality (Difference o s)) /\
  Cardinality s = wrap_uint64 (Cardinality (Difference s o) + Cardinality (Intersection s o)) /\
  (IsEmpty (Difference o s) = true -> Cardinality (Union s o) = Cardinality s).
Proof.
  intros Hs Ho.
  pose proof (Union_wf s o Hs Ho) as Hu. pose proof (Difference_wf s o Hs Ho) as Hd.
  pose proof (Difference_wf o s Ho Hs) as Hd'. pose proof (Intersection_wf s o Hs Ho) as Hi.
  assert (Hdec : forall r, holds (segments s) r \/ ~ holds (segments s) r).
  { intros r. rewrite <- Contains_holds by done. destruct (Contains s r); auto. }
  assert (Hdec' : forall r, holds (segments o) r \/ ~ holds (segments o) r).
  { intros r. rewrite <- Contains_holds by done. destruct (Contains o r); auto. }
  assert (H1 : Cardinality (Union s o) = wrap_uint64 (Cardinality s + Cardinality (Difference o s))).
  { apply Cardinality_split; [done..|]. apply Refs_split; [done..| |].
    - intros r. rewrite Union_holds, Difference_holds by done. specialize (Hdec r). tauto.
    - intros r. rewrite Difference_holds by done. tauto. }
  split; [done|]. split.
  - apply Cardinality_split; [done..|]. apply Refs_split; [done..| |].
    + intros r. rewrite Intersection_holds, Difference_holds by done. specialize (Hdec' r). tauto.
    + intros r. rewrite Intersection_holds, Difference_holds by done. tauto.
  - unfold IsEmpty. rewrite Z.eqb_eq. intros H0. rewrite H1, H0, Z.add_0_r.
    apply wrap_uint64_id. rewrite Cardinality_Refs by done. apply wrap_uint64_range.
Qed.
End theory.

(** ** Witnesses *)
Definition demo_dict : string := Eval cbv in of_bytes (replicate 64 "d"%char).
Definition demo_ref (segment_id : string) (ordinal : Z) : FactRef := Ref demo_dict segment_id ordinal.
Definition built (refs : list FactRef) : BitmapSet ListBitmap.listed :=
  match NewBitmapSet (B := ListBitmap.listed) refs with Ok s => s | Err _ => MkSet ∅ end.
Definition good_refs (refs : list FactRef) : bool :=
  forallb (fun r => ListBitmap.in_range (fOrdinal r) && is_ok (FactRef_Validate r)) refs.

Lemma good_refs_iff refs :
  good_refs refs = true <->
  Forall (fun r => uint32_range (fOrdinal r)) refs /\ check_all FactRef_Validate refs = Ok tt.
Proof.
  unfold good_refs, ListBitmap.in_range, uint32_range. rewrite forallb_forall, check_all_ok, !Forall_forall.
  setoid_rewrite <- list_elem_of_In. setoid_rewrite andb_true_iff. setoid_rewrite <- unit_ok_iff.
  setoid_rewrite andb_true_iff. setoid_rewrite Z.leb_le. setoid_rewrite Z.ltb_lt. naive_solver.
Qed.

Lemma built_spec refs : good_refs refs = true ->
  NewBitmapSet refs = Ok (built refs) /\ wf (built refs) /\ forall r, Contains (built refs) r = true <-> r ∈ refs.
Proof.
  intros [Hr Hc]%good_refs_iff. pose proof (NewBitmapSet_exact (B := ListBitmap.listed) refs Hr) as H.
  rewrite Hc in H. destruct H as (s & Hs & H). unfold built. rewrite Hs. done.
Qed.
Lemma built_wf refs : good_refs refs = true -> wf (built refs).
Proof. apply built_spec. Qed.

Definition ledger_refs := [demo_ref "s1" 7; demo_ref "s1" 70000; demo_ref "s2" 1].
Definition release_refs := [demo_ref "s1" 7; demo_ref "s3" 5].

Lemma NewBitmapSet_exact_witness :
  exists s : BitmapSet ListBitmap.listed,
    NewBitmapSet ledger_refs = Ok s /\ wf s /\ forall r, Contains s r = true <-> r ∈ ledger_refs.
Proof.
  assert (H : good_refs ledger_refs = true) by (vm_compute; reflexivity).
  apply good_refs_iff in H as [Hr Hc].
  pose proof (NewBitmapSet_exact (B := ListBitmap.listed) ledger_refs Hr) as H. rewrite Hc in H. exact H.
Defined.

Lemma bitmap_algebra_witness :
  wf (Union (built ledger_refs) (built release_refs)) /\
  Contains (Difference (built release_refs) (built ledger_refs)) (demo_ref "s3" 5) = true.
Proof.
  pose proof (built_wf ledger_refs ltac:(vm_compute; reflexivity)) as Hl.
  pose proof (built_wf release_refs ltac:(vm_compute; reflexivity)) as Hr.
  split; [exact (proj1 (proj1 (bitmap_algebra _ _ Hl Hr)))|]. vm_compute. reflexivity.
Defined.

Lemma charge_is_novelty_witness :
  Cardinality (built ledger_refs) = 3 /\
  Cardinality (Union (built ledger_refs) (built release_refs)) = 4.
Proof.
  split; [vm_compute; reflexivity|].
  rewrite (proj1 (charge_is_novelty (built ledger_refs) (built release_refs)
    (built_wf ledger_refs ltac:(vm_compute; reflexivity)) (built_wf release_refs ltac:(vm_compute; reflexivity)))).
  vm_compute. reflexivity.
Defined.
End Bitmap.
