(* ===== verification/Portable.v ===== *)
(** * Portable containers and digests of bitmap sets

    The theory of the encodings of [src/internal/ordinal/bitmap.go]: canonical
    serialization, the split into high-16 containers, the parser that accepts
    exactly the canonical containers, and the digest. *)

From S2P Require Import Prelude GoBytes Ordering Sha256 Ordinal Roaring Bitmap.
Import Ordinal Bitmap.

Module Portable.
Section portable.
Context {B : Type} `{!Roaring B, !RoaringLaws B}.
Implicit Types (s o : BitmapSet B) (item : PortableContainer) (vs : list Z).

(** ** Canonical serialization depends on the values alone *)
Definition canonical_of (vs : list Z) : result bytes :=
  let normalized := rb_run_optimize (rebuild (B := B) vs) in
  map_err (fun e => ErrWV ErrInvalid (ErrCtx "roaring validation" e)) (rb_validate normalized) ≫= fun _ =>
  map_err (fun e => ErrWV ErrInvalid (ErrCtx "marshal roaring bitmap" e)) (rb_marshal normalized).

Definition values_ok (vs : list Z) : Prop := StronglySorted clt vs /\ Forall uint32_range vs.

Lemma iterator_values_ok (b : B) : rb_ok b -> values_ok (rb_iterator b).
Proof. intros. split; [by apply rb_iterator_sorted|by apply rb_iterator_range]. Qed.

Lemma buffer_fold (vs : list Z) (st : B * list Z) :
  rb_ok st.1 -> Forall uint32_range st.2 -> Forall uint32_range vs ->
  let st' := foldl buffer_step st vs in
  rb_ok st'.1 /\ Forall uint32_range st'.2 /\
  forall x, (x ∈ rb_iterator st'.1 \/ x ∈ st'.2) <-> (x ∈ rb_iterator st.1 \/ x ∈ st.2 \/ x ∈ vs).
Proof.
  revert st; induction vs as [|v vs IH]; intros st H1 H2 H3; cbn [foldl].
  - split; [done|]. split; [done|]. intros x. rewrite elem_of_nil. tauto.
  - inversion_clear H3 as [|?? Hv Hvs].
    assert (Hbuf : Forall uint32_range (st.2 ++ [v])) by (apply Forall_app; auto).
    assert (Hnext : rb_ok (buffer_step st v).1 /\ Forall uint32_range (buffer_step st v).2 /\
      forall x, (x ∈ rb_iterator (buffer_step st v).1 \/ x ∈ (buffer_step st v).2) <->
                (x ∈ rb_iterator st.1 \/ x ∈ st.2 \/ x = v)).
    { unfold buffer_step. case_bool_decide as Hlen; cbn [fst snd].
      - unfold flush_buffer. destruct (st.2 ++ [v]) eqn:E; [by destruct (st.2)|rewrite <- E in *].
        split; [by apply rb_add_many_ok|]. split; [constructor|]. intros x.
        rewrite rb_add_many_elem by done. set_solver.
      - split; [done|]. split; [done|]. set_solver. }
    destruct Hnext as (N1 & N2 & N3). specialize (IH _ N1 N2 Hvs). cbv zeta in IH.
    destruct IH as (I1 & I2 & I3). split; [done|]. split; [done|]. intros x.
    rewrite I3. specialize (N3 x). rewrite elem_of_cons. tauto.
Qed.

Lemma rebuild_spec vs : values_ok vs -> rb_ok (rebuild (B := B) vs) /\ rb_iterator (rebuild (B := B) vs) = vs.
Proof.
  intros [Hs Hr]. destruct (buffer_fold vs (rb_new, []) rb_new_ok ltac:(constructor) Hr) as (H1 & H2 & H3).
  unfold rebuild. cbv zeta. set (st := foldl _ _ _) in *.
  assert (Hok : rb_ok (flush_buffer st.1 st.2)).
  { unfold flush_buffer. destruct (st.2); [done|]. by apply rb_add_many_ok. }
  split; [done|]. apply rb_iterator_ext; [done|done|]. intros x.
  assert (Hx : x ∈ rb_iterator (flush_buffer st.1 st.2) <-> (x ∈ rb_iterator st.1 \/ x ∈ st.2)).
  { unfold flush_buffer. destruct (st.2) as [|y l]; [rewrite elem_of_nil; tauto|].
    rewrite rb_add_many_elem by done. tauto. }
  rewrite Hx, H3. cbn. rewrite rb_new_elem, elem_of_nil. tauto.
Qed.

Lemma canonical_ok vs : values_ok vs -> exists encoded b,
  canonical_of vs = Ok encoded /\ encoded <> [] /\ go_bytes encoded /\
  rb_unmarshal encoded = Ok b /\ rb_ok b /\ rb_iterator (B := B) b = vs.
Proof.
  intros Hv. destruct (rebuild_spec vs Hv) as [Hok Hi]. unfold canonical_of.
  pose proof (rb_run_optimize_ok _ Hok) as Hrun. unfold rb_ok in Hrun. rewrite Hrun. cbn.
  destruct (rb_marshal_unmarshal (rb_run_optimize (rebuild vs)) Hrun) as (enc & b & -> & ? & ? & ? & ? & Hb).
  exists enc, b. repeat (split; [done|]). by rewrite Hb, rb_run_optimize_iterator.
Qed.

Lemma marshal_canonical (b : B) : rb_is_empty b = false -> marshalCanonicalBitmap b = canonical_of (rb_iterator b).
Proof. intros He. unfold marshalCanonicalBitmap. by rewrite He. Qed.

Lemma parse_canonical_inv encoded (b : B) : parseCanonicalBitmap encoded = Ok b ->
  rb_ok b /\ canonical_of (rb_iterator b) = Ok encoded /\ rb_is_empty b = false.
Proof.
  unfold parseCanonicalBitmap. intros H. ok_inv H. injection H as ->.
  destruct a0. apply map_err_ok in G1.
  apply negb_false_iff, bool_decide_eq_true in G3 as ->.
  unfold marshalCanonicalBitmap in G2. destruct (rb_is_empty b) eqn:He; [done|]. done.
Qed.

Lemma canonical_parses vs encoded : values_ok vs -> vs <> [] -> canonical_of vs = Ok encoded ->
  exists b : B, parseCanonicalBitmap encoded = Ok b /\ rb_ok b /\ rb_iterator b = vs /\ rb_is_empty b = false.
Proof.
  intros Hv Hne Hc. destruct (canonical_ok vs Hv) as (enc & b & Hc' & Hnil & _ & Hu & Hok & Hi).
  rewrite Hc in Hc'. injection Hc' as <-.
  assert (He : rb_is_empty b = false).
  { apply not_true_iff_false. rewrite rb_is_empty_iterator, Hi by done. done. }
  exists b. split; [|done]. unfold parseCanonicalBitmap.
  rewrite bool_decide_eq_false_2 by done. cbn. rewrite Hu. cbn. unfold rb_ok in Hok. rewrite Hok. cbn.
  rewrite marshal_canonical, Hi, Hc by done. cbn. by rewrite bool_decide_eq_true_2.
Qed.

(** ** Containers a parser accepts *)
Definition good_item item vs : Prop :=
  ContainerKey_Validate (pcKey item) = Ok tt /\ vs <> [] /\ values_ok vs /\
  Forall (fun v => high16 v = kHigh16 (pcKey item)) vs /\
  canonical_of vs = Ok (pcBitmap item) /\ pcCardinality item = Z.of_nat (length vs) /\
  pcDigest item = containerDigest (pcKey item) (pcCardinality item) (pcBitmap item).

Lemma check_high (key : Z) (l : list Z) e :
  check_all (fun value => fail_if (negb (high16 value =? key)) e) l = Ok tt <->
  Forall (fun v => high16 v = key) l.
Proof.
  rewrite check_all_ok, !Forall_forall.
  enough (H : forall v, fail_if (negb (high16 v =? key)) e = Ok tt <-> high16 v = key) by (by setoid_rewrite H).
  intros v. rewrite fail_if_ok, negb_false_iff. apply Z.eqb_eq.
Qed.

Lemma parse_container_good item (b : B) :
  ContainerKey_Validate (pcKey item) = Ok tt -> parse_container item = Ok b ->
  rb_ok b /\ rb_is_empty b = false /\ good_item item (rb_iterator b).
Proof.
  intros Hk. unfold parse_container. rewrite bind_ok. intros (b' & Hp & H). apply map_err_ok in Hp.
  rewrite !seq_ok, !fail_if_ok, check_high, !orb_false_iff, !negb_false_iff, bool_decide_eq_true, Z.eqb_eq in H.
  destruct H as ((He & Hc) & Hh & (_ & Hd) & [= ->]).
  apply parse_canonical_inv in Hp as (Hok & Hcan & _).
  split; [done|]. split; [done|]. split; [done|].
  rewrite <- not_true_iff_false, rb_is_empty_iterator in He by done.
  rewrite rb_cardinality_iterator in Hc by done.
  repeat (split; [done || by apply iterator_values_ok|]). done.
Qed.

Lemma good_parses item vs : good_item item vs ->
  exists b : B, parse_container item = Ok b /\ rb_ok b /\ rb_is_empty b = false /\ rb_iterator b = vs.
Proof.
  intros (_ & Hne & Hv & Hh & Hc & Hcard & Hd).
  destruct (canonical_parses vs _ Hv Hne Hc) as (b & Hp & Hok & Hi & He).
  exists b. split; [|done]. unfold parse_container. rewrite Hp. cbn [map_err mbind result_bind].
  rewrite !seq_ok, !fail_if_ok, check_high, !orb_false_iff, !negb_false_iff, bool_decide_eq_true, Z.eqb_eq.
  rewrite rb_cardinality_iterator, Hi, Hd by done.
  repeat split; try done. apply Sha256.hex_sum_valid.
Qed.

Lemma good_unique item vs vs' : good_item item vs -> good_item item vs' -> vs = vs'.
Proof.
  intros H1%good_parses H2%good_parses. destruct H1 as (b & Hp & _ & _ & <-), H2 as (b' & Hp' & _ & _ & <-).
  congruence.
Qed.

(** The key and the values determine the container. *)
Lemma good_determined item item' vs : pcKey item = pcKey item' ->
  good_item item vs -> good_item item' vs -> item = item'.
Proof.
  destruct item, item'; cbn. intros -> (_ & _ & _ & _ & H1 & H2 & H3) (_ & _ & _ & _ & H1' & H2' & H3').
  cbn [pcKey pcBitmap pcCardinality pcDigest] in *. rewrite H1 in H1'. injection H1' as ->. congruence.
Qed.

Definition items_ok (items : list PortableContainer) : Prop :=
  NoDup (map pcKey items) /\ Forall (fun item => exists vs, good_item item vs) items.

Definition in_items (items : list PortableContainer) (r : FactRef) : Prop :=
  exists item vs, item ∈ items /\ good_item item vs /\ segment r = key_segment (pcKey item) /\ fOrdinal r ∈ vs.

Lemma items_ok_perm items items' : items ≡ₚ items' -> items_ok items -> items_ok items'.
Proof. intros Hp [H1 H2]. unfold items_ok. by rewrite <- Hp. Qed.
Lemma in_items_perm items items' r : items ≡ₚ items' -> in_items items r -> in_items items' r.
Proof. intros Hp (item & vs & Hin & H). exists item, vs. by rewrite <- Hp. Qed.

(** ** The parser *)
Lemma parse_step (segs : gmap SegmentRef B) (seen : gset ContainerKey) item vs :
  wf_segments segs -> pcKey item ∉ seen -> good_item item vs ->
  exists segs', parse_container_step (segs, seen) item = Ok (segs', {[ pcKey item ]} ∪ seen) /\
    wf_segments segs' /\
    forall r, holds segs' r <-> holds segs r \/ (segment r = key_segment (pcKey item) /\ fOrdinal r ∈ vs).
Proof.
  intros Hwf Hseen Hgood. destruct (good_parses item vs Hgood) as (b & Hp & Hok & He & Hi).
  destruct Hgood as (Hk & _). unfold parse_container_step. rewrite Hk. cbn [map_err mbind result_bind].
  rewrite bool_decide_eq_false_2 by done. cbn [fail_if mbind result_bind]. rewrite Hp. cbn [mbind result_bind].
  set (seg := key_segment (pcKey item)).
  assert (Hgen : forall nb : B, rb_ok nb ->
    (forall x, x ∈ rb_iterator nb <-> holds segs (segment_fact seg x) \/ x ∈ vs) ->
    wf_segments (<[seg := nb]> segs) /\ forall r, holds (<[seg := nb]> segs) r <-> holds segs r \/ segment r = seg /\ fOrdinal r ∈ vs).
  { intros nb Hnb Hx. split.
    - apply map_Forall_insert_2; [|done]. split; [exact Hk|]. split; [done|]. apply rb_nonempty; [done|].
      apply rb_nonempty in He as [x Hx']; [|done]. exists x. apply Hx. right. by rewrite <- Hi.
    - intros r. unfold holds at 1. destruct (decide (segment r = seg)) as [E|E].
      + specialize (Hx (fOrdinal r)). rewrite <- E, fact_segment in Hx. rewrite E, lookup_insert_eq. split.
        * intros (? & [= <-] & Hv). tauto.
        * intros Hv. exists nb. split; [done|]. tauto.
      + rewrite lookup_insert_ne by done. fold (holds segs r). tauto. }
  destruct (segs !! seg) as [mine|] eqn:E; eexists; (split; [done|]); apply Hgen.
  - apply rb_or_ok; [|done]. by destruct (Hwf _ _ E) as (_ & ? & _).
  - intros x. rewrite rb_or_elem by (done || by destruct (Hwf _ _ E) as (_ & ? & _)).
    rewrite Hi. unfold holds. rewrite segment_segment_fact, E. cbn. naive_solver.
  - done.
  - intros x. rewrite Hi. unfold holds. rewrite segment_segment_fact, E. naive_solver.
Qed.

Lemma parse_step_inv (segs : gmap SegmentRef B) (seen : gset ContainerKey) item st :
  parse_container_step (segs, seen) item = Ok st -> pcKey item ∉ seen /\ exists vs, good_item item vs.
Proof.
  unfold parse_container_step. rewrite seq_ok, map_err_ok, fail_if_bind_ok, bind_ok, bool_decide_eq_false.
  intros (Hk & Hseen & b & Hp & _). split; [done|]. exists (rb_iterator b).
  by destruct (parse_container_good item b Hk Hp) as (_ & _ & ?).
Qed.

Lemma parse_fold items (segs : gmap SegmentRef B) (seen : gset ContainerKey) :
  wf_segments segs -> items_ok items -> (forall item, item ∈ items -> pcKey item ∉ seen) ->
  exists st, fold_res parse_container_step (segs, seen) items = Ok st /\ wf_segments st.1 /\
    forall r, holds st.1 r <-> holds segs r \/ in_items items r.
Proof.
  revert segs seen; induction items as [|item items IH]; intros segs seen Hwf Hitems Hseen; cbn [fold_res].
  { eexists. split; [done|]. split; [done|]. intros r. cbn. split; [auto|]. intros [?|(i & vs & Hin & _)]; [done|].
    by apply not_elem_of_nil in Hin. }
  destruct Hitems as [Hnd Hg]. cbn [map] in Hnd. inversion_clear Hnd as [|?? Hn Hnd'].
  inversion_clear Hg as [|?? [vs Hgood] Hg'].
  destruct (parse_step segs seen item vs Hwf (Hseen item ltac:(by left)) Hgood) as (segs' & Hstep & Hwf' & Hh).
  rewrite Hstep. cbn [mbind result_bind].
  destruct (IH segs' ({[ pcKey item ]} ∪ seen) Hwf') as (st & Hst & Hwf'' & Hh').
  { done. }
  { intros i Hi. rewrite not_elem_of_union, not_elem_of_singleton. split; [|apply Hseen; by right].
    intros Heq. apply Hn. rewrite <- Heq. by apply list_elem_of_fmap_2. }
  exists st. split; [done|]. split; [done|]. intros r. rewrite Hh', Hh. unfold in_items. split.
  - intros [[?|[? ?]]|(i & w & Hin & ?)]; [by left|right; exists item, vs; split; [by left|done]|].
    right. exists i, w. split; [by right|done].
  - intros [?|(i & w & [->|Hin]%elem_of_cons & Hw & Hs & Ho)]; [by left; left| |right; eauto 10].
    left. right. split; [done|]. by rewrite (good_unique _ _ _ Hgood Hw).
Qed.

Lemma parse_fold_inv items (segs : gmap SegmentRef B) (seen : gset ContainerKey) st :
  fold_res parse_container_step (segs, seen) items = Ok st ->
  items_ok items /\ forall item, item ∈ items -> pcKey item ∉ seen.
Proof.
  revert segs seen; induction items as [|item items IH]; intros segs seen; cbn [fold_res].
  { intros _. split; [split; constructor|]. by intros ? ?%not_elem_of_nil. }
  rewrite bind_ok. intros ([segs' seen'] & Hstep & Hrest).
  pose proof (parse_step_inv _ _ _ _ Hstep) as [Hseen Hgood].
  assert (seen' = {[ pcKey item ]} ∪ seen) as ->.
  { unfold parse_container_step in Hstep. rewrite seq_ok, fail_if_bind_ok, bind_ok in Hstep.
    by destruct Hstep as (_ & _ & b & _ & [= _ <-]). }
  destruct (IH _ _ Hrest) as [[Hnd Hg] Hd]. split; [split|].
  - cbn [map]. constructor; [|done]. intros (i & Hk & Hi)%list_elem_of_fmap.
    apply (Hd i Hi). rewrite <- Hk. set_solver.
  - by constructor.
  - intros i [->|Hi]%elem_of_cons; [done|]. specialize (Hd i Hi). set_solver.
Qed.

(** The parser accepts exactly the lists of canonical containers with distinct
    keys, and builds the union of their values. *)
Lemma parse_accepts items :
  items_ok items <-> exists s : BitmapSet B, ParsePortableContainers items = Ok s.
Proof.
  unfold ParsePortableContainers. split.
  - intros H. destruct (parse_fold items ∅ ∅ (map_Forall_empty _) H) as (st & -> & _); [set_solver|]. cbn. eauto.
  - intros (s & H). apply bind_ok in H as (st & H & _). by apply parse_fold_inv in H as [? _].
Qed.

Lemma parse_contents items (s : BitmapSet B) : ParsePortableContainers items = Ok s ->
  wf s /\ forall r, holds (segments s) r <-> in_items items r.
Proof.
  intros H. assert (Hok : items_ok items) by (apply parse_accepts; eauto).
  destruct (parse_fold items ∅ ∅ (map_Forall_empty _) Hok) as (st & Hst & Hwf & Hh); [set_solver|].
  unfold ParsePortableContainers in H. rewrite Hst in H. injection H as <-. split; [done|].
  intros r. cbn. rewrite Hh. unfold holds at 1. rewrite lookup_empty. naive_solver.
Qed.

(** ** The producer: one group per high half *)
Definition join (h : Z) (pending : list Z) (groups : list (Z * list Z)) : list (Z * list Z) :=
  match groups with
  | (h', vs) :: rest => if h' =? h then (h, pending ++ vs) :: rest else (h, pending) :: groups
  | [] => [(h, pending)]
  end.
Fixpoint group_high (l : list Z) : list (Z * list Z) :=
  match l with [] => [] | v :: rest => join (high16 v) [v] (group_high rest) end.

Definition encoding_of (vs : list Z) : bytes :=
  match canonical_of vs with Ok encoded => encoded | Err _ => [] end.
Definition item_of (seg : SegmentRef) (g : Z * list Z) : PortableContainer :=
  let key := Key (sDictionaryDigest seg) (sSegmentID seg) g.1 in
  let cardinality := Z.of_nat (length g.2) in
  {| pcKey := key; pcBitmap := encoding_of g.2; pcCardinality := cardinality;
     pcDigest := containerDigest key cardinality (encoding_of g.2) |}.

Lemma join_head h p groups : exists vs rest, join h p groups = (h, vs) :: rest.
Proof. destruct groups as [|[h' vs] rest]; cbn; [|destruct (h' =? h)]; eauto. Qed.
Lemma join_same h p q groups : join h p (join h q groups) = join h (p ++ q) groups.
Proof.
  destruct groups as [|[h' vs] rest]; cbn; [by rewrite Z.eqb_refl|].
  destruct (h' =? h); cbn; by rewrite Z.eqb_refl, ?app_assoc.
Qed.
Lemma join_other h h' p q groups : h' <> h -> join h p (join h' q groups) = (h, p) :: join h' q groups.
Proof.
  intros Hne. destruct (join_head h' q groups) as (vs & rest & ->). cbn.
  by rewrite (proj2 (Z.eqb_neq h' h)).
Qed.

Lemma values_ok_app p q : values_ok (p ++ q) -> values_ok p /\ values_ok q.
Proof.
  intros [Hs [Hp Hq]%Forall_app]. induction p as [|v p IH]; [split; [split; constructor|done]|].
  inversion_clear Hs as [|?? Hs' Hv]. inversion_clear Hp as [|?? Hv' Hp'].
  destruct (IH Hs' Hp') as [[? ?] ?]. apply Forall_app in Hv as [? ?].
  split; [|done]. split; constructor; done.
Qed.

Lemma flush_spec seg h (b : B) acc : rb_ok b -> rb_iterator b <> [] ->
  flush_container seg h (Some b) acc = Ok (acc ++ [item_of seg (h, rb_iterator b)]).
Proof.
  intros Hok Hne. unfold flush_container.
  destruct (rb_is_empty b) eqn:He; [by apply rb_is_empty_iterator in He|].
  rewrite marshal_canonical by done.
  destruct (canonical_ok _ (iterator_values_ok b Hok)) as (enc & _ & Hc & _).
  unfold item_of, encoding_of. cbn [fst snd]. rewrite Hc, rb_cardinality_iterator by done. done.
Qed.

Lemma add_snoc (b : B) p v : rb_ok b -> rb_iterator b = p -> values_ok (p ++ [v]) ->
  rb_ok (rb_add b v) /\ rb_iterator (rb_add b v) = p ++ [v].
Proof.
  intros Hok Hi [Hs [_ Hr]%Forall_app]. inversion_clear Hr as [|?? Hv _].
  split; [by apply rb_add_ok|]. apply rb_iterator_ext; [by apply rb_add_ok|done|].
  intros x. rewrite rb_add_elem, Hi by done. set_solver.
Qed.

Lemma container_loop_pending seg h (b : B) p rest acc :
  rb_ok b -> rb_iterator b = p -> p <> [] -> values_ok (p ++ rest) ->
  container_loop seg rest h (Some b) acc = Ok (acc ++ map (item_of seg) (join h p (group_high rest))).
Proof.
  revert h b p acc; induction rest as [|v rest IH]; intros h b p acc Hok Hi Hne Hv; cbn [container_loop group_high].
  - rewrite flush_spec, Hi by congruence. done.
  - rewrite (cons_middle v p rest), app_assoc in Hv. pose proof (values_ok_app _ _ Hv) as [Hpv _].
    destruct (Z.eqb_spec (high16 v) h) as [<-|Hh].
    + destruct (add_snoc b p v Hok Hi Hpv) as [Hok' Hi'].
      rewrite (IH _ _ (p ++ [v])), join_same by (done || by destruct p). done.
    + rewrite flush_spec, Hi by congruence. cbn [mbind result_bind].
      rewrite join_other by done.
      rewrite <- app_assoc in Hv. pose proof (values_ok_app _ _ Hv) as [_ Hvr].
      pose proof (values_ok_app [v] rest Hvr) as [Hv1 _].
      destruct (add_snoc rb_new [] v rb_new_ok rb_iterator_new Hv1) as [Hok' Hi'].
      rewrite (IH _ _ [v]) by done. cbn [map]. by rewrite <- app_assoc.
Qed.

Lemma container_loop_spec seg vs acc : values_ok vs ->
  container_loop (B := B) seg vs 0 None acc = Ok (acc ++ map (item_of seg) (group_high vs)).
Proof.
  intros Hv. destruct vs as [|v rest]; cbn [container_loop group_high flush_container].
  - by rewrite app_nil_r.
  - pose proof (values_ok_app [v] rest Hv) as [Hv1 _].
    destruct (add_snoc rb_new [] v rb_new_ok rb_iterator_new Hv1) as [Hok' Hi'].
    cbn [mbind result_bind]. by rewrite (container_loop_pending _ _ _ [v]).
Qed.

(** The containers of a set. *)
Definition containers (s : BitmapSet B) : list PortableContainer :=
  flat_map (fun seg => map (item_of seg) (group_high (rb_iterator (bitmap_at s seg)))) (sortedSegmentRefs (segments s)).

Lemma PortableContainers_spec s : wf s -> PortableContainers s = Ok (containers s).
Proof.
  intros Hwf. unfold PortableContainers. rewrite (fold_res_flat_map _
    (fun seg => map (item_of seg) (group_high (rb_iterator (bitmap_at s seg))))); [done|].
  intros acc seg _. by apply container_loop_spec, iterator_values_ok, bitmap_at_ok.
Qed.

(** What the groups of a sorted list are. *)
Lemma high16_mono a b : uint32_range a -> uint32_range b -> a <= b -> high16 a <= high16 b.
Proof.
  unfold uint32_range, high16. intros Ha Hb Hle.
  assert (He : forall z, 0 <= z < 2 ^ 32 -> Z.land (Z.shiftr z 16) 65535 = z / 2 ^ 16).
  { intros z Hz. rewrite Z.shiftr_div_pow2 by lia. change 65535 with (Z.ones 16). rewrite Z.land_ones by lia.
    apply Z.mod_small. split; [apply Z.div_pos; lia|apply Z.div_lt_upper_bound; lia]. }
  rewrite !He by done. apply Z.div_le_mono; lia.
Qed.
Lemma high16_range v : 0 <= high16 v < 2 ^ 16.
Proof. unfold high16. change 65535 with (Z.ones 16). rewrite Z.land_ones by lia. apply Z.mod_pos_bound. lia. Qed.

Definition group_ok (g : Z * list Z) : Prop :=
  g.2 <> [] /\ values_ok g.2 /\ Forall (fun v => high16 v = g.1) g.2.

Lemma group_single v : values_ok [v] -> group_ok (high16 v, [v]).
Proof. intros H. split; [done|]. split; [done|]. by repeat constructor. Qed.

Lemma group_high_spec vs : values_ok vs ->
  Forall group_ok (group_high vs) /\ StronglySorted clt (map fst (group_high vs)) /\
  concat (map snd (group_high vs)) = vs.
Proof.
  induction vs as [|v vs IH]; intros Hv; [repeat constructor|]. cbn [group_high].
  pose proof (values_ok_app [v] vs Hv) as [Hv1 Hvs]. destruct (IH Hvs) as (Hg & Hs & Hc).
  destruct (group_high vs) as [|[h ws] gs] eqn:E; cbn [join].
  { cbn in Hc. subst vs. split; [constructor; [by apply group_single|done]|]. by repeat constructor. }
  inversion_clear Hg as [|?? (Hne & Hws & Hh) Hg']. cbn [fst snd map concat] in *.
  assert (Hle : high16 v <= h).
  { destruct ws as [|w ws]; [done|]. inversion_clear Hh as [|?? <- _].
    destruct Hv as [Hsv Hrv]. rewrite <- Hc in Hsv, Hrv. cbn in Hsv, Hrv.
    inversion_clear Hsv as [|?? _ Hlt]. inversion_clear Hlt as [|?? Hvw _].
    inversion_clear Hrv as [|?? Hr1 Hr']. inversion_clear Hr' as [|?? Hr2 _].
    apply high16_mono; [done..|]. unfold clt, compare, Z_compare in Hvw. rewrite Z.compare_lt_iff in Hvw. lia. }
  destruct (Z.eqb_spec h (high16 v)) as [->|Hne'].
  - split; [|split; [done|cbn; by rewrite Hc]]. constructor; [|done]. split; [done|]. cbn [fst snd]. split.
    + rewrite <- Hc in Hv. cbn in Hv. rewrite app_comm_cons in Hv. by apply values_ok_app in Hv as [? _].
    + by constructor.
  - split; [|split; [|cbn; by rewrite Hc]].
    + constructor; [by apply group_single|by constructor].
    + cbn. constructor; [done|]. inversion_clear Hs as [|?? Hs' Hl].
      assert (Hlt : clt (high16 v) h) by (unfold clt, compare, Z_compare; apply Z.compare_lt_iff; lia).
      constructor; [done|]. eapply Forall_impl; [exact Hl|]. intros. by eapply clt_trans.
Qed.

Lemma item_of_good seg g : SegmentRef_Validate seg = Ok tt -> group_ok g -> good_item (item_of seg g) g.2.
Proof.
  intros Hseg (Hne & Hv & Hh). unfold good_item, item_of; cbn [pcKey pcBitmap pcCardinality pcDigest].
  unfold encoding_of. destruct (canonical_ok _ Hv) as (enc & _ & -> & _). cbn [kHigh16].
  split; [by destruct seg|]. repeat (split; [done|]). done.
Qed.

Lemma elem_containers s item : wf s ->
  item ∈ containers s <-> exists seg g, seg ∈ sortedSegmentRefs (segments s) /\
    g ∈ group_high (rb_iterator (bitmap_at s seg)) /\ item = item_of seg g.
Proof.
  intros Hwf. unfold containers. rewrite list_elem_of_In, in_flat_map. setoid_rewrite <- list_elem_of_In.
  setoid_rewrite list_elem_of_fmap. naive_solver.
Qed.

Lemma containers_good s item : wf s -> item ∈ containers s -> exists seg g,
  item = item_of seg g /\ group_ok g /\ SegmentRef_Validate seg = Ok tt /\ good_item item g.2 /\
  g ∈ group_high (rb_iterator (bitmap_at s seg)) /\ is_Some (segments s !! seg).
Proof.
  intros Hwf Hin. apply elem_containers in Hin as (seg & g & Hseg & Hg & ->); [|done].
  apply elem_sorted_wf in Hseg as [b Hb]; [|done]. destruct (Hwf _ _ Hb) as (Hk & Hok & _).
  destruct (group_high_spec _ (iterator_values_ok _ (bitmap_at_ok s seg Hwf))) as (Hall & _).
  rewrite Forall_forall in Hall. exists seg, g. repeat (split; [done || by apply Hall|]).
  split; [by apply item_of_good; [|apply Hall]|]. eauto.
Qed.

#[local] Instance key_compare : Compare ContainerKey := compare_on (fun k => (key_segment k, kHigh16 k)).
#[local] Instance key_compare_laws : CompareLaws ContainerKey.
Proof. apply compare_on_laws. by intros [] [] [= -> -> ->]. Qed.

Lemma map_flat_map {A C D} (f : C -> D) (g : A -> list C) l : map f (flat_map g l) = flat_map (fun x => map f (g x)) l.
Proof. induction l; cbn; [done|]. by rewrite map_app, IHl. Qed.

Lemma containers_keys s : wf s -> NoDup (map pcKey (containers s)).
Proof.
  intros Hwf. apply nodup_of_strict. unfold containers. rewrite map_flat_map.
  rewrite (flat_map_ext _ (fun seg => map (fun h => Key (sDictionaryDigest seg) (sSegmentID seg) h)
    (map fst (group_high (rb_iterator (bitmap_at s seg)))))) by (intros; by rewrite !map_map).
  apply (sorted_flat_map (fun seg => map fst (group_high (rb_iterator (bitmap_at s seg))))
    (fun seg h => Key (sDictionaryDigest seg) (sSegmentID seg) h)).
  - apply sortedSegmentRefs_sorted.
  - intros seg _. destruct (group_high_spec _ (iterator_values_ok _ (bitmap_at_ok s seg Hwf))) as (_ & Hs & _).
    induction Hs as [|h l Hs IH Hh]; cbn [map]; constructor; [done|]. rewrite Forall_map.
    eapply Forall_impl; [exact Hh|]. intros h'. unfold clt at 2, compare at 1, key_compare, compare_on, compare at 1, prod_compare.
    cbn [fst snd key_segment kDictionaryDigest kSegmentID kHigh16].
    by rewrite (proj2 (compare_eq _ _) eq_refl).
  - intros [d1 i1] [d2 i2] a b H. unfold clt in *.
    change (match compare (Seg d1 i1) (Seg d2 i2) with Eq => compare a b | c => c end = Lt). by rewrite H.
Qed.

Lemma containers_ok s : wf s ->
  items_ok (containers s) /\ forall r, in_items (containers s) r <-> holds (segments s) r.
Proof.
  intros Hwf. split; [split; [by apply containers_keys|]|].
  { apply Forall_forall. intros item Hin. destruct (containers_good s item Hwf Hin) as (seg & g & _ & _ & _ & ? & _). eauto. }
  intros r. split.
  - intros (item & vs & Hin & Hgood & Hseg & Hv).
    destruct (containers_good s item Hwf Hin) as (seg & g & -> & _ & _ & Hgood' & Hg & [b Hb]).
    rewrite (good_unique _ _ _ Hgood Hgood') in Hv.
    destruct (group_high_spec _ (iterator_values_ok _ (bitmap_at_ok s seg Hwf))) as (_ & _ & Hc).
    assert (Hr : segment r = seg) by (rewrite Hseg; by destruct seg).
    unfold bitmap_at in *. rewrite Hb in *. cbn in Hc, Hg. exists b. split; [by rewrite Hr|].
    rewrite <- Hc. apply list_elem_of_In, in_concat. exists g.2. rewrite <- !list_elem_of_In. split; [|done].
    by apply list_elem_of_fmap_2.
  - intros (b & Hb & Hv).
    destruct (group_high_spec _ (iterator_values_ok _ (bitmap_at_ok s (segment r) Hwf))) as (_ & _ & Hc).
    unfold bitmap_at in Hc. rewrite Hb in Hc. cbn in Hc. rewrite <- Hc in Hv.
    apply list_elem_of_In, in_concat in Hv as (l & Hl & Hx). rewrite <- list_elem_of_In in Hl. rewrite <- list_elem_of_In in Hx.
    apply list_elem_of_fmap in Hl as (g & -> & Hg).
    assert (Hin : item_of (segment r) g ∈ containers s).
    { apply elem_containers; [done|]. exists (segment r), g. split; [apply elem_sorted_wf; eauto|].
      split; [|done]. unfold bitmap_at. by rewrite Hb. }
    destruct (containers_good s _ Hwf Hin) as (seg' & g' & Heq & _ & _ & _ & _).
    exists (item_of (segment r) g), g.2. split; [done|]. split; [|split; [by destruct r|done]].
    destruct (Hwf _ _ Hb) as (Hk & Hok & _).
    apply item_of_good; [done|].
    destruct (group_high_spec _ (iterator_values_ok _ Hok)) as (Hall & _).
    rewrite Forall_forall in Hall. by apply Hall.
Qed.

(** ** Round trip *)

(** containers round trip.  The portable containers of a well-formed set
    parse, in any order, to a well-formed set equal to it. *)
Theorem containers_roundtrip s items : wf s -> items ≡ₚ containers s ->
  PortableContainers s = Ok (containers s) /\
  exists s' : BitmapSet B, ParsePortableContainers items = Ok s' /\ wf s' /\ Equal s s' = true.
Proof.
  intros Hwf Hperm. split; [by apply PortableContainers_spec|].
  destruct (containers_ok s Hwf) as [Hok Hin].
  destruct (proj1 (parse_accepts items)) as [s' Hs']; [by eapply items_ok_perm|].
  destruct (parse_contents items s' Hs') as [Hwf' Hh']. exists s'. split; [done|]. split; [done|].
  apply Equal_iff; [done..|]. intros r. rewrite Hh', <- Hin. split; by apply in_items_perm.
Qed.

(** Two accepted lists with the same contents have the same containers. *)
Lemma items_ext items items' : items_ok items -> items_ok items' ->
  (forall r, in_items items r <-> in_items items' r) -> forall item, item ∈ items -> item ∈ items'.
Proof.
  intros Hok Hok' Hext item Hin. pose proof Hok as [Hnd Hg]. pose proof Hok' as [Hnd' Hg']. rewrite Forall_forall in Hg. rewrite Forall_forall in Hg'.
  destruct (Hg item Hin) as [vs Hgood]. pose proof Hgood as (_ & Hne & (Hs & _) & Hh & _).
  assert (Hkey : forall l i j, NoDup (map pcKey l) -> i ∈ l -> j ∈ l -> pcKey i = pcKey j -> i = j).
  { clear. induction l as [|x l IH]; intros i j Hd Hi Hj Hk; [by apply not_elem_of_nil in Hi|].
    inversion_clear Hd as [|?? Hn Hd']. apply elem_of_cons in Hi as [->|Hi], Hj as [->|Hj]; try done.
    - destruct Hn. rewrite Hk. by apply list_elem_of_fmap_2.
    - destruct Hn. rewrite <- Hk. by apply list_elem_of_fmap_2.
    - by apply IH. }
  assert (Hval : forall l i ws, items_ok l -> i ∈ l -> good_item i ws -> forall r,
    segment r = key_segment (pcKey i) -> high16 (fOrdinal r) = kHigh16 (pcKey i) ->
    in_items l r <-> fOrdinal r ∈ ws).
  { intros l i ws [Hd _] Hi Hw r Hseg Hr. split; [|intros Hv; by exists i, ws].
    intros (j & us & Hj & Hu & Hseg' & Hv). pose proof Hu as (_ & _ & _ & Hhu & _).
    rewrite Forall_forall in Hhu. assert (i = j) as ->.
    { eapply Hkey; [done..|]. rewrite (Hhu _ Hv) in Hr. rewrite Hseg in Hseg'.
      destruct (pcKey i), (pcKey j); cbn in *. unfold key_segment in Hseg'; cbn in *. congruence. }
    by rewrite (good_unique _ _ _ Hw Hu). }
  destruct vs as [|v vs0] eqn:Evs; [done|]. rewrite <- Evs in *.
  assert (Hv : v ∈ vs) by (rewrite Evs; by left).
  rewrite Forall_forall in Hh.
  destruct (proj1 (Hext (segment_fact (key_segment (pcKey item)) v))) as (item' & vs' & Hin' & Hgood' & Hseg & Hv').
  { exists item, vs. split; [done|]. split; [done|]. split; [apply segment_segment_fact|done]. }
  cbn [fOrdinal segment_fact] in Hv'. rewrite segment_segment_fact in Hseg.
  pose proof Hgood' as (_ & _ & (Hs' & _) & Hh' & _). rewrite Forall_forall in Hh'.
  assert (Hk : pcKey item = pcKey item').
  { pose proof (Hh _ Hv) as E1. rewrite (Hh' _ Hv') in E1. destruct (pcKey item), (pcKey item'). cbn in *.
    unfold key_segment in Hseg; cbn in *. congruence. }
  assert (vs = vs') as <-.
  { apply strict_sorted_ext; [done..|]. intros x.
    set (r := segment_fact (key_segment (pcKey item)) x).
    assert (Hr : segment r = key_segment (pcKey item)) by apply segment_segment_fact.
    assert (Hgen : forall us, good_item item us \/ good_item item' us -> x ∈ us -> high16 x = kHigh16 (pcKey item)).
    { intros us [Hu|Hu] Hx; destruct Hu as (_ & _ & _ & Hu & _); rewrite Forall_forall in Hu; [by apply Hu|].
      rewrite Hk. by apply Hu. }
    assert (A := Hval items item vs Hok Hin Hgood r Hr).
    assert (A' := Hval items' item' vs' Hok' Hin' Hgood' r). rewrite <- Hk in A'. specialize (A' Hr).
    cbn [r fOrdinal segment_fact] in A, A'.
    split; intros Hx.
    - assert (Hx' := Hgen vs (or_introl Hgood) Hx). apply A'; [done|]. apply Hext. by apply A.
    - assert (Hx' := Hgen vs' (or_intror Hgood') Hx). apply A; [done|]. apply Hext. by apply A'. }
  by rewrite (good_determined item item' vs Hk Hgood Hgood').
Qed.

(** C29: the parser accepts canonical encodings only.  Whatever list of
    containers it accepts is, up to order, the export of the well-formed set it
    returns: no second encoding of a set is accepted. *)
Theorem containers_canonical items (s : BitmapSet B) : ParsePortableContainers items = Ok s ->
  wf s /\ PortableContainers s = Ok (containers s) /\ items ≡ₚ containers s.
Proof.
  intros H. assert (Hok : items_ok items) by (apply parse_accepts; eauto).
  destruct (parse_contents items s H) as [Hwf Hh]. split; [done|].
  destruct (containers_ok s Hwf) as [Hok' Hin].
  split; [by apply PortableContainers_spec|].
  assert (Hext : forall r, in_items items r <-> in_items (containers s) r) by (intros; by rewrite Hin, Hh).
  apply NoDup_Permutation; [by eapply NoDup_fmap_1, (proj1 Hok)|by eapply NoDup_fmap_1, (proj1 Hok')|].
  intros item. split; [by apply items_ext|]. apply items_ext; [done..|]. intros r. by rewrite Hext.
Qed.

(** ** The digest identifies the set *)

(** The byte strings hashed to compute [Digest s]. *)
Definition materials (s : BitmapSet B) : list bytes :=
  set_material (containers s) ::
  map (fun item => container_material (pcKey item) (pcCardinality item) (pcBitmap item)) (containers s).

Lemma containers_ext s o : wf s -> wf o -> (forall r, holds (segments s) r <-> holds (segments o) r) ->
  containers s = containers o.
Proof.
  intros Hs Ho Hext. unfold containers.
  assert (Hi := fun key => iterators_ext s o key Hs Ho Hext).
  assert (Hk : sortedSegmentRefs (segments s) = sortedSegmentRefs (segments o)).
  { apply strict_sorted_ext; [apply sortedSegmentRefs_sorted..|]. intros key.
    rewrite !elem_sorted_wf by done. specialize (Hi key). destruct (segments s !! key), (segments o !! key); naive_solver. }
  rewrite Hk. apply flat_map_ext. intros seg. specialize (Hi seg).
  unfold bitmap_at. destruct (segments s !! seg), (segments o !! seg); try done. cbn in *. by injection Hi as ->.
Qed.

Definition digest_ok item : Prop :=
  go_string (kDictionaryDigest (pcKey item)) /\ go_string (kSegmentID (pcKey item)) /\
  0 <= kHigh16 (pcKey item) < 2 ^ 16 /\ 0 <= pcCardinality item < 2 ^ 64 /\
  go_string (pcDigest item) /\ go_bytes (pcBitmap item).

Lemma containers_digest_ok s : wf s -> Forall digest_ok (containers s).
Proof.
  intros Hwf. apply Forall_forall. intros item Hin.
  destruct (containers_good s item Hwf Hin) as (seg & g & -> & (Hne & Hv & Hh) & Hseg & _).
  apply SegmentRef_Validate_ok in Hseg as [Hd Hi].
  unfold digest_ok, item_of; cbn [pcKey pcBitmap pcCardinality pcDigest kDictionaryDigest kSegmentID kHigh16].
  split; [by apply validDigest_go_string|]. split; [by apply validID_go_string|]. split.
  { destruct (g.2) as [|v vs]; [done|]. inversion_clear Hh as [|?? <- _]. apply high16_range. }
  split; [pose proof (ListBitmap.strict_range_length _ (proj1 Hv) (proj2 Hv)); lia|].
  split; [by apply validDigest_go_string, Sha256.hex_sum_valid|].
  unfold encoding_of. destruct (canonical_ok _ Hv) as (enc & _ & -> & _ & ? & _). done.
Qed.

Definition entry_material item : bytes :=
  be_string (kDictionaryDigest (pcKey item)) ++ be_string (kSegmentID (pcKey item)) ++
  be_uint16 (kHigh16 (pcKey item)) ++ be_uint64 (pcCardinality item) ++ be_string (pcDigest item).

Lemma entry_inj i j x y : digest_ok i -> digest_ok j -> entry_material i ++ x = entry_material j ++ y ->
  pcKey i = pcKey j /\ pcCardinality i = pcCardinality j /\ pcDigest i = pcDigest j /\ x = y.
Proof.
  intros (? & ? & ? & ? & ? & _) (? & ? & ? & ? & ? & _). unfold entry_material. rewrite <- !app_assoc. intros Hm.
  apply be_string_inj in Hm as [E1 Hm]; [|done..]. apply be_string_inj in Hm as [E2 Hm]; [|done..].
  apply be_bytes_app_inj in Hm as [E3 Hm]; [|done..]. apply be_bytes_app_inj in Hm as [E4 Hm]; [|done..].
  apply be_string_inj in Hm as [E5 Hm]; [|done..].
  split; [destruct (pcKey i), (pcKey j); cbn in *; congruence|]. done.
Qed.

Lemma container_material_inj i j : digest_ok i -> digest_ok j ->
  container_material (pcKey i) (pcCardinality i) (pcBitmap i) =
  container_material (pcKey j) (pcCardinality j) (pcBitmap j) -> pcBitmap i = pcBitmap j.
Proof.
  intros (? & ? & ? & ? & _ & ?) (? & ? & ? & ? & _ & ?). unfold container_material. intros Hm.
  apply app_inv_head in Hm. apply be_string_inj in Hm as [E1 Hm]; [|done..]. apply be_string_inj in Hm as [E2 Hm]; [|done..].
  apply be_bytes_app_inj in Hm as [E3 Hm]; [|done..]. apply be_bytes_app_inj in Hm as [E4 Hm]; [|done..].
  rewrite <- (app_nil_r (be_field (pcBitmap i))), <- (app_nil_r (be_field (pcBitmap j))) in Hm.
  by apply be_field_inj in Hm as [? _].
Qed.

(** Equal set materials have equal entries; unequal bitmaps then collide. *)
Lemma entries_or_collision cs co : Forall digest_ok cs -> Forall digest_ok co ->
  Forall (fun i => pcDigest i = containerDigest (pcKey i) (pcCardinality i) (pcBitmap i)) cs ->
  Forall (fun i => pcDigest i = containerDigest (pcKey i) (pcCardinality i) (pcBitmap i)) co ->
  length cs = length co -> flat_map entry_material cs = flat_map entry_material co ->
  cs = co \/ Sha256.collides (map (fun i => container_material (pcKey i) (pcCardinality i) (pcBitmap i)) cs)
                      (map (fun i => container_material (pcKey i) (pcCardinality i) (pcBitmap i)) co).
Proof.
  intros Hcs; revert co; induction Hcs as [|i cs Hi _ IH]; intros [|j co] Hco Dcs Dco Hlen H; try done; [by left|].
  inversion_clear Hco as [|?? Hj Hco']. inversion_clear Dcs as [|?? Di Dcs']. inversion_clear Dco as [|?? Dj Dco'].
  cbn [flat_map] in H. apply entry_inj in H as (Hk & Hc & Hd & H); [|done..].
  destruct (IH co) as [->|(x & y & Hx & Hy & Hxy)]; [done..|cbn in Hlen; lia|done| |].
  - destruct (decide (pcBitmap i = pcBitmap j)) as [Eb|Eb].
    + left. f_equal. destruct i, j; cbn in *; congruence.
    + right. exists (container_material (pcKey i) (pcCardinality i) (pcBitmap i)),
        (container_material (pcKey j) (pcCardinality j) (pcBitmap j)).
      split; [by left|]. split; [by left|]. split; [by intros ?%container_material_inj|].
      rewrite Di, Dj in Hd. unfold containerDigest in Hd. by apply Sha256.hex_sum_inj.
  - right. exists x, y. split; [by right|]. split; [by right|]. done.
Qed.

(** C30: the digest identifies the set.  Equal sets have equal digests whatever
    their insertion history; two sets with one digest are equal, or two of the
    byte strings hashed for them are a SHA-256 collision. *)
Theorem digest_identifies s o : wf s -> wf o ->
  Z.of_nat (length (containers s)) <= max_int64 -> Z.of_nat (length (containers o)) <= max_int64 ->
  (Equal s o = true -> Digest s = Digest o) /\
  (Digest s = Digest o -> Equal s o = true \/ Sha256.collides (materials s) (materials o)).
Proof.
  intros Hs Ho Ls Lo. unfold Digest. rewrite !PortableContainers_spec by done. cbn [mbind result_bind]. split.
  - intros He. pose proof (proj1 (Equal_iff s o Hs Ho) He) as Hext. by rewrite (containers_ext s o).
  - intros Hd. apply Ok_inj, Sha256.hex_sum_inj in Hd.
    destruct (decide (set_material (containers s) = set_material (containers o))) as [Em|Em].
    + unfold set_material in Em. apply app_inv_head in Em. unfold max_int64 in *.
      apply be_bytes_app_inj in Em as [El Em]; [|lia..].
      assert (Hdg : forall q, wf q -> Forall (fun i => pcDigest i = containerDigest (pcKey i) (pcCardinality i) (pcBitmap i)) (containers q)).
      { intros q Hq. apply Forall_forall. intros i Hi. by destruct (containers_good q i Hq Hi) as (? & ? & -> & _). }
      destruct (entries_or_collision (containers s) (containers o)) as [He|(x & y & Hx & Hy & Hxy)];
        [by apply containers_digest_ok|by apply containers_digest_ok|by apply Hdg|by apply Hdg|lia|exact Em| |].
      * left. apply Equal_iff; [done..|]. intros r. destruct (containers_ok s Hs) as [_ <-], (containers_ok o Ho) as [_ <-].
        by rewrite He.
      * right. exists x, y. split; [by right|]. split; [by right|]. done.
    + right. exists (set_material (containers s)), (set_material (containers o)).
      split; [by left|]. split; [by left|]. done.
Qed.
End portable.

(** ** Witnesses *)
Lemma containers_roundtrip_witness :
  exists s' : BitmapSet ListBitmap.listed,
    ParsePortableContainers (containers (built ledger_refs)) = Ok s' /\ wf s' /\ Equal (built ledger_refs) s' = true.
Proof.
  apply (containers_roundtrip (built ledger_refs)); [apply built_wf; vm_compute; reflexivity|done].
Defined.

Definition parsed (items : list PortableContainer) : BitmapSet ListBitmap.listed :=
  match ParsePortableContainers items with Ok s => s | Err _ => MkSet ∅ end.

Lemma containers_canonical_witness :
  is_ok (ParsePortableContainers (B := ListBitmap.listed) (containers (built ledger_refs))) = true /\
  wf (parsed (containers (built ledger_refs))).
Proof.
  assert (H : is_ok (ParsePortableContainers (B := ListBitmap.listed) (containers (built ledger_refs))) = true)
    by (vm_compute; reflexivity).
  split; [exact H|]. unfold parsed.
  destruct (ParsePortableContainers (B := ListBitmap.listed) (containers (built ledger_refs))) as [s|e] eqn:E; [|discriminate H].
  exact (proj1 (containers_canonical _ s E)).
Defined.

Lemma digest_identifies_witness :
  Digest (built ledger_refs) = Digest (built (rev ledger_refs)).
Proof.
  apply (digest_identifies (built ledger_refs) (built (rev ledger_refs))).
  - apply built_wf. vm_compute. reflexivity.
  - apply built_wf. vm_compute. reflexivity.
  - vm_compute. discriminate.
  - vm_compute. discriminate.
  - vm_compute. reflexivity.
Defined.
End Portable.
