(* ===== verification/Weighted.v ===== *)
(** * Weighted witness sets

    [src/internal/ordinal/weighted.go]: an exact multiset of facts, kept as a
    support bitmap and a sparse map of multiplicities above one.  [Add] is the
    product of witnesses, [Max] the union of alternative proofs; both are
    checked 64-bit arithmetic. *)

From S2P Require Import Prelude GoBytes Ordering Sha256 Ordinal Roaring Bitmap.
Import Ordinal Bitmap.

Module Weighted.

Definition weightedDigestDomain : bytes := to_bytes "TASKGATE-ORDINAL-WEIGHTED-SET-V1" ++ [byte_of 0].

Record WeightedItem := { wiRef : FactRef; wiMultiplicity : Z }.

(** [extras[ref]]: a missing key reads as zero. *)
Definition extra (extras : gmap FactRef Z) (ref : FactRef) : Z := default 0 (extras !! ref).

(** A Go loop over a map that may write the visited key of another map. *)
Definition visit {A C} (f : FactRef -> A -> option C -> option C) (m : gmap FactRef A) (acc : gmap FactRef C) :
    gmap FactRef C :=
  map_fold (fun k x acc => match f k x (acc !! k) with Some y => <[k := y]> acc | None => acc end) acc m.

Section weighted.
Context {B : Type} `{!Roaring B}.

Record WeightedSet := MkWeighted { support : BitmapSet B; extras : gmap FactRef Z }.

Record WeightedBuilder := MkWBuilder {
  wsupport : option (Builder B);
  wextras : gmap FactRef Z;
  werr : option goerror;
}.

Definition NewWeightedBuilder : WeightedBuilder := MkWBuilder (Some NewBuilder) ∅ None.
Definition nil_weighted : goerror := ErrW ErrInvalid "nil weighted builder".

(** [if b.support == nil { b.support = NewBuilder() }]. *)
Definition with_support (b : WeightedBuilder) : Builder B := default NewBuilder (wsupport b).

(** The body of [AddRef] after the receiver checks; the sticky error is the
    [werr] field of the returned builder. *)
Definition add_ref (b : WeightedBuilder) (ref : FactRef) (multiplicity : Z) : WeightedBuilder * result unit :=
  let sup := with_support b in
  let fail sup e := (MkWBuilder (Some sup) (wextras b) (Some e), Err e) in
  if multiplicity =? 0 then fail sup (ErrW ErrInvalid "weighted builder item")
  else
    let present := match bsegments sup !! segment ref with
                   | Some bitmap => rb_contains bitmap (fOrdinal ref)
                   | None => false
                   end in
    if negb present then
      match Bitmap.Add (Some sup) ref with
      | (sup', Err e) => fail (default sup sup') e
      | (sup', Ok _) =>
          let extras' := if 1 <? multiplicity then <[ref := multiplicity - 1]> (wextras b) else wextras b in
          (MkWBuilder sup' extras' None, Ok tt)
      end
    else
      match (current ← checkedAdd 1 (extra (wextras b) ref); checkedAdd current multiplicity) with
      | Err e => fail sup e
      | Ok current => (MkWBuilder (Some sup) (<[ref := current - 1]> (wextras b)) None, Ok tt)
      end.

Definition AddRef (b : option WeightedBuilder) (ref : FactRef) (multiplicity : Z) :
    option WeightedBuilder * result unit :=
  match b with
  | None => (None, Err nil_weighted)
  | Some b =>
      match werr b with
      | Some e => (Some b, Err e)
      | None => let '(b', r) := add_ref b ref multiplicity in (Some b', r)
      end
  end.

(** [Refs]: the sequence of facts with their multiplicities. *)
Definition weighted_refs (s : WeightedSet) : list (FactRef * Z) :=
  map (fun ref => (ref, wrap_uint64 (1 + extra (extras s) ref))) (Refs (support s)).

(** The callback of [AddWeighted]; it stops at the first error, which is the
    builder's. *)
Fixpoint add_scaled (b : WeightedBuilder) (items : list (FactRef * Z)) (scale : Z) : WeightedBuilder :=
  match items with
  | [] => b
  | (ref, multiplicity) :: rest =>
      if max_uint64 / scale <? multiplicity
      then MkWBuilder (wsupport b) (wextras b) (Some ErrMultiplicityOverflow)
      else match add_ref b ref (wrap_uint64 (multiplicity * scale)) with
           | (b', Ok _) => add_scaled b' rest scale
           | (b', Err _) => b'
           end
  end.

Definition sticky (b : WeightedBuilder) : option WeightedBuilder * result unit :=
  (Some b, match werr b with Some e => Err e | None => Ok tt end).

Definition AddWeighted (b : option WeightedBuilder) (value : WeightedSet) (scale : Z) :
    option WeightedBuilder * result unit :=
  match b with
  | None => (None, Err (ErrW ErrInvalid "weighted scale"))
  | Some b =>
      if scale =? 0 then (Some b, Err (ErrW ErrInvalid "weighted scale"))
      else match werr b with
           | Some e => (Some b, Err e)
           | None => sticky (add_scaled (MkWBuilder (Some (with_support b)) (wextras b) None) (weighted_refs value) scale)
           end
  end.

Definition MaxWeighted (b : option WeightedBuilder) (value : WeightedSet) : option WeightedBuilder * result unit :=
  match b with
  | None => (None, Err nil_weighted)
  | Some b =>
      match werr b with
      | Some e => (Some b, Err e)
      | None =>
          let sup := with_support b in
          let segs := union_with (fun target source => Some (rb_or target source)) (bsegments sup) (segments (support value)) in
          let extras' := visit (fun ref x cur => if default 0 cur <? x then Some x else None) (extras value) (wextras b) in
          (Some (MkWBuilder (Some (MkBuilder segs (berr sup))) extras' None), Ok tt)
      end
  end.

Definition WFreeze (b : option WeightedBuilder) : result WeightedSet :=
  match b with
  | None => Err nil_weighted
  | Some b =>
      match wsupport b with
      | None => Err nil_weighted
      | Some sup =>
          match werr b with
          | Some e => Err e
          | None => frozen ← Bitmap.Freeze (Some sup); Ok (MkWeighted frozen (wextras b))
          end
      end
  end.

(** The loop of [NewWeightedSet]: the builder, the extras, the seen references. *)
Fixpoint new_weighted (builder : option (Builder B)) (exs : gmap FactRef Z) (seen : gset FactRef)
    (items : list WeightedItem) : result (option (Builder B) * gmap FactRef Z) :=
  match items with
  | [] => Ok (builder, exs)
  | item :: rest =>
      fail_if (negb (is_ok (FactRef_Validate (wiRef item))) || (wiMultiplicity item =? 0))
        (ErrW ErrInvalid "weighted item") ≫= fun _ =>
      fail_if (bool_decide (wiRef item ∈ seen)) (ErrW ErrInvalid "duplicate weighted fact") ≫= fun _ =>
      match Bitmap.Add builder (wiRef item) with
      | (_, Err e) => Err e
      | (builder', Ok _) =>
          new_weighted builder'
            (if 1 <? wiMultiplicity item then <[wiRef item := wiMultiplicity item - 1]> exs else exs)
            ({[ wiRef item ]} ∪ seen) rest
      end
  end.

Definition NewWeightedSet (items : list WeightedItem) : result WeightedSet :=
  st ← new_weighted (Some NewBuilder) ∅ ∅ items;
  frozen ← Bitmap.Freeze st.1;
  Ok (MkWeighted frozen st.2).

Definition WeightedFromSupport (sup : BitmapSet B) : WeightedSet := MkWeighted (MkSet (cloneSegments (segments sup))) ∅.
Definition Len (s : WeightedSet) : Z := Cardinality (support s).
Definition ExtraCount (s : WeightedSet) : Z := Z.of_nat (size (extras s)).
Definition Support (s : WeightedSet) : BitmapSet B := MkSet (cloneSegments (segments (support s))).

Definition Multiplicity (s : WeightedSet) (ref : FactRef) : Z :=
  if negb (Contains (support s) ref) then 0 else wrap_uint64 (1 + extra (extras s) ref).

(** The callback over the overlap of two sets. *)
Definition overlap_step (s other : WeightedSet) (acc : gmap FactRef Z) (ref : FactRef) : result (gmap FactRef Z) :=
  l ← checkedAdd 1 (extra (extras s) ref);
  r ← checkedAdd 1 (extra (extras other) ref);
  sum ← checkedAdd l r;
  Ok (<[ref := sum - 1]> acc).

(** [if !other.support.Contains(ref) { result.extras[ref] = extra }]. *)
Definition keep_outside (other : WeightedSet) : gmap FactRef Z -> gmap FactRef Z -> gmap FactRef Z :=
  visit (fun ref x _ => if negb (Contains (support other) ref) then Some x else None).

Definition Add (s other : WeightedSet) : result WeightedSet :=
  overlapped ← fold_res (overlap_step s other) ∅ (Refs (Intersection (support s) (support other)));
  Ok (MkWeighted (Union (support s) (support other))
       (keep_outside s (extras other) (keep_outside other (extras s) overlapped))).

Definition Max (s other : WeightedSet) : WeightedSet :=
  MkWeighted (Union (support s) (support other))
    (visit (fun ref x cur => if default 0 cur <? x then Some x else None) (extras other)
       (visit (fun _ x _ => Some x) (extras s) ∅)).

Definition weighted_material (s : WeightedSet) : bytes :=
  weightedDigestDomain ++ be_uint64 (Len s) ++
  flat_map (fun it => be_string (fDictionaryDigest it.1) ++ be_string (fSegmentID it.1) ++
    be_uint32 (fOrdinal it.1) ++ be_uint64 it.2) (weighted_refs s).
Definition WDigest (s : WeightedSet) : result string :=
  check_all (fun it => fail_if (negb (is_ok (FactRef_Validate it.1)) || (it.2 =? 0)) (ErrW ErrInvalid "weighted item"))
    (weighted_refs s) ≫= fun _ =>
  Ok (Sha256.hex_sum (weighted_material s)).
End weighted.
Arguments WeightedSet B : clear implicits.
Arguments WeightedBuilder B : clear implicits.

(** ** Lemmas *)
Lemma visit_lookup {A C} f (m : gmap FactRef A) (acc : gmap FactRef C) k :
  visit f m acc !! k =
  match m !! k with
  | Some x => match f k x (acc !! k) with Some y => Some y | None => acc !! k end
  | None => acc !! k
  end.
Proof.
  unfold visit. revert k.
  apply (map_fold_weak_ind (fun r m => forall k, r !! k = match m !! k with
    | Some x => match f k x (acc !! k) with Some y => Some y | None => acc !! k end | None => acc !! k end)).
  - intros k. by rewrite lookup_empty.
  - intros i x m' r Hi IH k. pose proof (IH i) as Hri. rewrite Hi in Hri. rewrite Hri.
    destruct (decide (i = k)) as [<-|Hne].
    + rewrite lookup_insert_eq. destruct (f i x (acc !! i)); [by rewrite lookup_insert_eq|done].
    + rewrite (lookup_insert_ne m') by done. rewrite <- IH.
      destruct (f i x (acc !! i)); [by rewrite lookup_insert_ne|done].
Qed.

Section theory.
Context {B : Type} `{!Roaring B, !RoaringLaws B}.
Implicit Types (s o : WeightedSet B) (r : FactRef).

(** Every extra belongs to the support, and no multiplicity exceeds 64 bits. *)
Definition extras_ok (sup : FactRef -> Prop) (m : gmap FactRef Z) : Prop :=
  map_Forall (fun r x => sup r /\ 1 <= x < max_uint64) m.
Definition wwf s : Prop := wf (support s) /\ extras_ok (holds (segments (support s))) (extras s).

Lemma extra_range (P : FactRef -> Prop) m r : extras_ok P m -> 0 <= extra m r < max_uint64.
Proof.
  intros H. unfold extra. destruct (m !! r) as [x|] eqn:E; cbn; [destruct (H _ _ E); lia|].
  unfold max_uint64. lia.
Qed.
Lemma extra_outside (P : FactRef -> Prop) m r : extras_ok P m -> ~ P r -> m !! r = None.
Proof. intros H Hn. destruct (m !! r) eqn:E; [|done]. by destruct (H _ _ E). Qed.

Lemma Multiplicity_in s r : wwf s -> holds (segments (support s)) r -> Multiplicity s r = 1 + extra (extras s) r.
Proof.
  intros [Hw He] Hr. unfold Multiplicity. rewrite (proj2 (Contains_holds _ _ Hw) Hr). cbn.
  apply wrap_uint64_id. pose proof (extra_range _ _ r He). unfold uint64_range. lia.
Qed.
Lemma Multiplicity_out s r : wwf s -> ~ holds (segments (support s)) r -> Multiplicity s r = 0.
Proof.
  intros [Hw He] Hr. unfold Multiplicity. destruct (Contains (support s) r) eqn:E; [|done].
  by apply Contains_holds in E.
Qed.
Lemma holds_dec (t : BitmapSet B) r : wf t -> holds (segments t) r \/ ~ holds (segments t) r.
Proof. intros H. rewrite <- Contains_holds by done. destruct (Contains t r); auto. Qed.

Lemma keep_outside_lookup s (m acc : gmap FactRef Z) r : wf (support s) ->
  (holds (segments (support s)) r -> keep_outside s m acc !! r = acc !! r) /\
  (~ holds (segments (support s)) r -> keep_outside s m acc !! r = match m !! r with Some x => Some x | None => acc !! r end).
Proof.
  intros Hw. unfold keep_outside. rewrite visit_lookup. split; intros Hr.
  - apply Contains_holds in Hr; [|done]. rewrite Hr. cbn. by destruct (m !! r).
  - rewrite <- Contains_holds in Hr by done. destruct (Contains (support s) r); [done|]. cbn. by destruct (m !! r).
Qed.

(** The overlap loop succeeds exactly when no sum overflows. *)
Lemma overlap_fold s o (refs : list FactRef) acc : wwf s -> wwf o ->
  match fold_res (overlap_step s o) acc refs with
  | Ok acc' =>
      Forall (fun r => 2 + extra (extras s) r + extra (extras o) r <= max_uint64) refs /\
      forall r, acc' !! r = if bool_decide (r ∈ refs) then Some (1 + extra (extras s) r + extra (extras o) r) else acc !! r
  | Err e => e = ErrMultiplicityOverflow /\
      exists r, r ∈ refs /\ max_uint64 < 2 + extra (extras s) r + extra (extras o) r
  end.
Proof.
  intros [_ Hs] [_ Ho]. revert acc. induction refs as [|r refs IH]; intros acc; cbn [fold_res].
  { split; [constructor|]. intros r. by rewrite bool_decide_eq_false_2 by apply not_elem_of_nil. }
  pose proof (extra_range _ _ r Hs). pose proof (extra_range _ _ r Ho).
  assert (H1 : forall x, 0 <= x < max_uint64 -> checkedAdd 1 x = Ok (1 + x)).
  { intros x Hx. apply checkedAdd_ok. lia. }
  assert (Hstep : overlap_step s o acc r =
    if max_uint64 - (1 + extra (extras s) r) <? 1 + extra (extras o) r then Err ErrMultiplicityOverflow
    else Ok (<[r := 1 + extra (extras s) r + (1 + extra (extras o) r) - 1]> acc)).
  { unfold overlap_step. rewrite !H1 by done. cbn [mbind result_bind]. unfold checkedAdd. by destruct (_ <? _). }
  rewrite Hstep.
  destruct (Z.ltb_spec (max_uint64 - (1 + extra (extras s) r)) (1 + extra (extras o) r)) as [Hlt|Hge].
  { cbn. split; [done|]. exists r. split; [by left|lia]. }
  cbn [mbind result_bind]. match goal with |- context [fold_res _ ?a refs] => specialize (IH a) end.
  destruct (fold_res _ _ refs) as [acc'|e].
  - destruct IH as [IH1 IH2]. split; [constructor; [lia|done]|]. intros k. rewrite IH2.
    destruct (decide (k ∈ refs)) as [Hk|Hk].
    + rewrite !bool_decide_eq_true_2 by (done || by right). done.
    + rewrite (bool_decide_eq_false_2 (k ∈ refs)) by done. destruct (decide (k = r)) as [->|Hne].
      * rewrite lookup_insert_eq, bool_decide_eq_true_2 by (by left). f_equal. lia.
      * rewrite lookup_insert_ne, bool_decide_eq_false_2 by (done || set_solver). done.
  - destruct IH as [-> (k & Hk & Hlt)]. split; [done|]. exists k. split; [by right|done].
Qed.

(** [Add] is the pointwise sum of multiplicities: it fails, with the
    overflow error, exactly when some sum exceeds 64 bits; otherwise the result
    is well-formed and every multiplicity is the sum of the operands'. *)
Theorem weighted_add_exact s o : wwf s -> wwf o ->
  match Add s o with
  | Ok t => wwf t /\ forall r, Multiplicity t r = Multiplicity s r + Multiplicity o r
  | Err e => e = ErrMultiplicityOverflow /\ exists r, max_uint64 < Multiplicity s r + Multiplicity o r
  end.
Proof.
  intros Hs Ho. pose proof Hs as [Ws Es]. pose proof Ho as [Wo Eo].
  pose proof (Intersection_wf _ _ Ws Wo) as Wi. pose proof (Union_wf _ _ Ws Wo) as Wu.
  assert (Hmem : forall r, r ∈ Refs (Intersection (support s) (support o)) <->
    holds (segments (support s)) r /\ holds (segments (support o)) r).
  { intros r. by rewrite elem_Refs, Intersection_holds. }
  unfold Add. pose proof (overlap_fold s o (Refs (Intersection (support s) (support o))) ∅ Hs Ho) as Hf.
  destruct (fold_res _ _ _) as [acc|e]; cbn [mbind result_bind].
  2:{ destruct Hf as [-> (r & [Hrs Hro]%Hmem & Hlt)]. split; [done|]. exists r. rewrite !Multiplicity_in by done. lia. }
  destruct Hf as [Hle Hacc]. rewrite Forall_forall in Hle.
  set (ex := keep_outside s (extras o) (keep_outside o (extras s) acc)).
  assert (Hex : forall r,
    (holds (segments (support s)) r -> holds (segments (support o)) r ->
       ex !! r = Some (1 + extra (extras s) r + extra (extras o) r) /\ 2 + extra (extras s) r + extra (extras o) r <= max_uint64) /\
    (holds (segments (support s)) r -> ~ holds (segments (support o)) r -> ex !! r = extras s !! r) /\
    (~ holds (segments (support s)) r -> ex !! r = extras o !! r)).
  { intros r. unfold ex. destruct (keep_outside_lookup s (extras o) (keep_outside o (extras s) acc) r Ws) as [K1 K2].
    destruct (keep_outside_lookup o (extras s) acc r Wo) as [L1 L2]. rewrite Hacc in L1, L2. split; [|split].
    - intros Hrs Hro. rewrite K1, L1, bool_decide_eq_true_2 by (done || by apply Hmem).
      split; [done|]. apply Hle. by apply Hmem.
    - intros Hrs Hro. rewrite K1, L2, bool_decide_eq_false_2, lookup_empty by (done || rewrite Hmem; tauto).
      by destruct (extras s !! r).
    - intros Hrs. rewrite K2 by done. destruct (extras o !! r) eqn:E; [done|].
      destruct (holds_dec (support o) r Wo) as [Hro|Hro].
      + rewrite L1, bool_decide_eq_false_2 by (done || rewrite Hmem; tauto). apply lookup_empty.
      + rewrite L2, bool_decide_eq_false_2, (extra_outside _ _ r Es) by (done || rewrite Hmem; tauto). apply lookup_empty. }
  assert (Hw : wwf (MkWeighted (Union (support s) (support o)) ex)).
  { split; [done|]. intros r x Hx. cbn [support extras] in *. rewrite Union_holds by done. destruct (Hex r) as (H1 & H2 & H3).
    destruct (holds_dec (support s) r Ws) as [Hrs|Hrs], (holds_dec (support o) r Wo) as [Hro|Hro].
    - destruct (H1 Hrs Hro) as [H1' ?]. rewrite H1' in Hx. injection Hx as <-.
      pose proof (extra_range _ _ r Es). pose proof (extra_range _ _ r Eo). split; [auto|lia].
    - rewrite H2 in Hx by done. destruct (Es _ _ Hx). auto.
    - rewrite H3 in Hx by done. destruct (Eo _ _ Hx). auto.
    - rewrite H3, (extra_outside _ _ r Eo) in Hx by done. done. }
  split; [done|]. intros r. destruct (Hex r) as (H1 & H2 & H3).
  destruct (holds_dec (support s) r Ws) as [Hrs|Hrs], (holds_dec (support o) r Wo) as [Hro|Hro].
  - rewrite !Multiplicity_in by (done || (cbn [support]; apply Union_holds; auto)).
    unfold extra at 1. cbn [extras]. destruct (H1 Hrs Hro) as [-> _]. cbn. lia.
  - rewrite (Multiplicity_out o), !Multiplicity_in by (done || (cbn [support]; apply Union_holds; auto)).
    unfold extra at 1. cbn [extras]. rewrite H2 by done. fold (extra (extras s) r). lia.
  - rewrite (Multiplicity_out s), !Multiplicity_in by (done || (cbn [support]; apply Union_holds; auto)).
    unfold extra at 1. cbn [extras]. rewrite H3 by done. done.
  - assert (~ holds (segments (Union (support s) (support o))) r) by (rewrite Union_holds by done; tauto).
    by rewrite !Multiplicity_out.
Qed.

(** [Max] is the pointwise maximum of multiplicities. *)
Theorem weighted_max_exact s o : wwf s -> wwf o ->
  wwf (Max s o) /\ forall r, Multiplicity (Max s o) r = Z.max (Multiplicity s r) (Multiplicity o r).
Proof.
  intros Hs Ho. pose proof Hs as [Ws Es]. pose proof Ho as [Wo Eo].
  pose proof (Union_wf _ _ Ws Wo) as Wu.
  assert (Hex : forall r, extras (Max s o) !! r = match extras o !! r with
    | Some x => if extra (extras s) r <? x then Some x else extras s !! r | None => extras s !! r end).
  { intros r. cbn [Max extras]. rewrite !visit_lookup, lookup_empty. unfold extra.
    destruct (extras s !! r), (extras o !! r) as [x|]; try done; cbn; by destruct (_ <? x). }
  assert (Hval : forall r, extra (extras (Max s o)) r = Z.max (extra (extras s) r) (extra (extras o) r)).
  { intros r. unfold extra at 1. rewrite Hex. pose proof (extra_range _ _ r Es). unfold extra in *.
    destruct (extras o !! r) as [x|]; cbn; [|lia].
    destruct (Z.ltb_spec (default 0 (extras s !! r)) x); cbn; [lia|]. lia. }
  assert (Hw : wwf (Max s o)).
  { split; [done|]. intros r x. rewrite Hex. cbn [Max support]. rewrite Union_holds by done.
    destruct (extras o !! r) as [y|] eqn:E.
    - destruct (_ <? y); [intros [= <-]; destruct (Eo _ _ E); auto|]. intros H. destruct (Es _ _ H); auto.
    - intros H. destruct (Es _ _ H); auto. }
  split; [done|]. intros r. pose proof (extra_range _ _ r Es). pose proof (extra_range _ _ r Eo).
  assert (Hu : holds (segments (support (Max s o))) r <-> holds (segments (support s)) r \/ holds (segments (support o)) r)
    by (by apply Union_holds).
  destruct (holds_dec (support s) r Ws) as [Hrs|Hrs], (holds_dec (support o) r Wo) as [Hro|Hro].
  - rewrite !Multiplicity_in, Hval by tauto. lia.
  - rewrite (Multiplicity_out o), !Multiplicity_in, Hval by tauto.
    unfold extra at 2. rewrite (extra_outside _ _ r Eo Hro). cbn. lia.
  - rewrite (Multiplicity_out s), !Multiplicity_in, Hval by tauto.
    unfold extra at 1. rewrite (extra_outside _ _ r Es Hrs). cbn. lia.
  - rewrite !Multiplicity_out by tauto. done.
Qed.

(** *** The builder *)
Definition builder_holds (b : WeightedBuilder B) (r : FactRef) : Prop := holds (bsegments (with_support b)) r.
Definition bwf (b : WeightedBuilder B) : Prop :=
  is_Some (wsupport b) /\ werr b = None /\ berr (with_support b) = None /\
  wf_segments (bsegments (with_support b)) /\ extras_ok (builder_holds b) (wextras b).
Definition builder_set (b : WeightedBuilder B) : WeightedSet B :=
  MkWeighted (MkSet (bsegments (with_support b))) (wextras b).

Lemma builder_set_wwf b : bwf b -> wwf (builder_set b).
Proof. intros (_ & _ & _ & Hw & He). done. Qed.

Lemma WFreeze_set b : bwf b -> WFreeze (Some b) = Ok (builder_set b).
Proof.
  intros ([sup Hsup] & He & Hb & Hw & _). unfold WFreeze, builder_set. unfold with_support in *.
  rewrite Hsup in *. cbn in *. rewrite He, Hb, clone_wf by done. done.
Qed.

Definition bump (ref : FactRef) (m : Z) (r : FactRef) : Z := if decide (r = ref) then m else 0.

Lemma add_ref_spec b ref m : bwf b -> uint32_range (fOrdinal ref) -> FactRef_Validate ref = Ok tt ->
  1 <= m <= max_uint64 ->
  match add_ref b ref m with
  | (b', Ok _) => bwf b' /\ forall r, Multiplicity (builder_set b') r = Multiplicity (builder_set b) r + bump ref m r
  | (b', Err e) => e = ErrMultiplicityOverflow /\ max_uint64 < Multiplicity (builder_set b) ref + m
  end.
Proof.
  intros Hb Hr Hv Hm. pose proof (builder_set_wwf b Hb) as Hset.
  destruct Hb as ([sup Hsup] & He & Hbe & Hw & Hx). destruct b as [w exs er]. cbn [wsupport werr wextras] in *. subst w er.
  change (with_support (MkWBuilder (Some sup) exs None)) with sup in Hbe, Hw.
  change (extras_ok (holds (bsegments sup)) exs) in Hx.
  set (b := MkWBuilder (Some sup) exs None) in *.
  assert (Hnow : forall r, (holds (bsegments sup) r -> Multiplicity (builder_set b) r = 1 + extra exs r) /\
                           (~ holds (bsegments sup) r -> Multiplicity (builder_set b) r = 0)).
  { intros r. split; intros H; [apply (Multiplicity_in _ _ Hset)|apply (Multiplicity_out _ _ Hset)];
      exact H. }
  pose proof (extra_range _ _ ref Hx) as Hxr.
  unfold add_ref. change (with_support b) with sup. change (wextras b) with exs. cbv zeta.
  rewrite (proj2 (Z.eqb_neq m 0)) by lia.
  assert (Hpres : match bsegments sup !! segment ref with Some bitmap => rb_contains bitmap (fOrdinal ref) | None => false end = true
    <-> holds (bsegments sup) ref).
  { unfold holds. destruct (bsegments sup !! segment ref) as [bm|] eqn:E; [|naive_solver].
    destruct (Hw _ _ E) as (_ & Hok & _). rewrite rb_contains_elem by done. naive_solver. }
  destruct (match bsegments sup !! segment ref with Some _ => _ | None => _ end); cbn [negb].
  - assert (Hh : holds (bsegments sup) ref) by (by apply Hpres).
    pose proof (proj1 (Hnow ref) Hh) as Hcur.
    assert (Hone : checkedAdd 1 (extra exs ref) = Ok (1 + extra exs ref)) by (apply checkedAdd_ok; lia).
    rewrite Hone. cbn [mbind result_bind].
    unfold checkedAdd.
    destruct (Z.ltb_spec (max_uint64 - (1 + extra exs ref)) m) as [Hlt|Hge]; [split; [done|lia]|].
    assert (Hbw : bwf (MkWBuilder (Some sup) (<[ref:=1 + extra exs ref + m - 1]> exs) None)).
    { split; [eauto|]. split; [done|]. split; [done|]. split; [done|]. unfold builder_holds; cbn.
      apply map_Forall_insert_2; [|exact Hx]. split; [exact Hh|lia]. }
    split; [done|]. intros r. pose proof (builder_set_wwf _ Hbw) as Hset'. unfold bump.
    destruct (Hnow r) as [Hin Hout].
    destruct (holds_dec (MkSet (bsegments sup)) r Hw) as [H|H]; cbn in H.
    + rewrite (Multiplicity_in _ _ Hset'), Hin by done. unfold extra at 1. cbn.
      destruct (decide (r = ref)) as [->|Hne]; [rewrite lookup_insert_eq; cbn; lia|].
      rewrite lookup_insert_ne by done. fold (extra exs r). lia.
    + rewrite (Multiplicity_out _ _ Hset'), Hout by done. rewrite decide_False by (intros ->; done). done.
  - assert (Hh : ~ holds (bsegments sup) ref) by (rewrite <- Hpres; done).
    destruct (Add_step sup ref Hw Hbe Hr Hv) as (sup' & -> & He' & Hw' & Hh').
    set (ex := if 1 <? m then <[ref:=m - 1]> exs else exs).
    assert (Hex : forall r, extra ex r = extra exs r + bump ref (m - 1) r).
    { intros r. unfold ex, bump. pose proof (extra_outside _ _ ref Hx Hh) as Hno.
      destruct (decide (r = ref)) as [->|Hne].
      - unfold extra at 2. rewrite Hno. cbn. destruct (Z.ltb_spec 1 m); unfold extra.
        + rewrite lookup_insert_eq. cbn. lia.
        + rewrite Hno. cbn. lia.
      - unfold extra. destruct (1 <? m); [rewrite lookup_insert_ne by done|]; lia. }
    assert (Hbw : bwf (MkWBuilder (Some sup') ex None)).
    { split; [eauto|]. split; [done|]. split; [done|]. split; [done|]. unfold builder_holds; cbn.
      assert (Hold : extras_ok (holds (bsegments sup')) exs)
        by (intros r x H; destruct (Hx _ _ H); split; [apply Hh'; auto|done]).
      unfold ex. destruct (Z.ltb_spec 1 m); [|done]. apply map_Forall_insert_2; [|done].
      split; [apply Hh'; auto|lia]. }
    split; [done|]. intros r. pose proof (builder_set_wwf _ Hbw) as Hset'. destruct (Hnow r) as [Hin Hout].
    destruct (holds_dec (MkSet (bsegments sup)) r Hw) as [H|H]; cbn in H.
    + rewrite (Multiplicity_in _ _ Hset'), Hin by (done || (cbn; apply Hh'; auto)). cbn [extras builder_set].
      cbn [wextras]. rewrite Hex. unfold bump. rewrite !decide_False by (intros ->; done). lia.
    + rewrite Hout by done. destruct (decide (r = ref)) as [->|Hne].
      * rewrite (Multiplicity_in _ _ Hset') by (cbn; apply Hh'; auto). cbn [extras builder_set wextras].
        rewrite Hex. unfold extra. rewrite (extra_outside _ _ ref Hx Hh). unfold bump. rewrite !decide_True by done. cbn. lia.
      * rewrite (Multiplicity_out _ _ Hset') by (cbn; rewrite Hh'; tauto). unfold bump. by rewrite decide_False.
Qed.

Definition listed_mult (items : list (FactRef * Z)) (r : FactRef) : Z :=
  foldr (fun it n => bump it.1 it.2 r + n) 0 items.
Arguments listed_mult : simpl never.
Lemma listed_mult_nil r : listed_mult [] r = 0.
Proof. done. Qed.
Lemma listed_mult_cons it items r : listed_mult (it :: items) r = bump it.1 it.2 r + listed_mult items r.
Proof. done. Qed.

Lemma add_scaled_spec b items scale : bwf b -> 1 <= scale ->
  Forall (fun it => uint32_range (fOrdinal it.1) /\ FactRef_Validate it.1 = Ok tt /\ 1 <= it.2) items ->
  let b' := add_scaled b items scale in
  match werr b' with
  | None => bwf b' /\ forall r, Multiplicity (builder_set b') r = Multiplicity (builder_set b) r + scale * listed_mult items r
  | Some e => e = ErrMultiplicityOverflow /\ exists r, max_uint64 < Multiplicity (builder_set b) r + scale * listed_mult items r
  end.
Proof.
  intros Hb Hscale Hit. revert b Hb. induction Hit as [|[ref m] items (Hr & Hv & Hm) Hits IH]; intros b Hb; cbn [add_scaled].
  { cbv zeta. pose proof Hb as (_ & -> & _). split; [done|]. intros r. rewrite listed_mult_nil. lia. }
  cbn [fst snd] in *. cbv zeta.
  assert (Hnn : forall items r, Forall (fun it : FactRef * Z => uint32_range (fOrdinal it.1) /\ FactRef_Validate it.1 = Ok tt /\ 1 <= it.2) items -> 0 <= listed_mult items r).
  { clear. induction 1 as [|it l (_ & _ & H) _ IH]; [done|]. rewrite listed_mult_cons. unfold bump. case_decide; lia. }
  assert (Hge : forall r, 0 <= Multiplicity (builder_set b) r).
  { intros r. pose proof (builder_set_wwf b Hb) as Hs. destruct (holds_dec _ r (proj1 Hs)) as [H|H].
    - rewrite Multiplicity_in by done. pose proof (extra_range _ _ r (proj2 Hs)). lia.
    - by rewrite Multiplicity_out. }
  assert (Hself : bump ref m ref = m) by (unfold bump; by rewrite decide_True).
  destruct (Z.ltb_spec (max_uint64 / scale) m) as [Hlt|Hle].
  { cbn [werr]. split; [done|]. exists ref. rewrite listed_mult_cons. cbn [fst snd]. rewrite Hself.
    specialize (Hge ref). specialize (Hnn items ref Hits).
    assert (max_uint64 < scale * m) by (pose proof (Z.mul_succ_div_gt max_uint64 scale ltac:(lia)); nia).
    nia. }
  assert (Hms : scale * m <= max_uint64).
  { pose proof (Z.mul_div_le max_uint64 scale ltac:(lia)). nia. }
  rewrite wrap_uint64_id by (unfold uint64_range; nia).
  pose proof (add_ref_spec b ref (m * scale) Hb Hr Hv ltac:(nia)) as Hstep.
  destruct (add_ref b ref (m * scale)) as [b1 [[]|e]] eqn:Ea.
  - destruct Hstep as [Hb1 Hmul]. specialize (IH b1 Hb1). cbv zeta in IH.
    assert (Hbump : forall r, bump ref (m * scale) r = scale * bump ref m r) by (intros; unfold bump; case_decide; lia).
    destruct (werr (add_scaled b1 items scale)) as [e|].
    + destruct IH as [-> (r & Hlt)]. split; [done|]. exists r. rewrite Hmul, Hbump in Hlt. rewrite listed_mult_cons. cbn [fst snd]. nia.
    + destruct IH as [Hbw Hall]. split; [done|]. intros r. rewrite Hall, Hmul, Hbump, listed_mult_cons. cbn [fst snd]. nia.
  - assert (Hwerr : werr b1 = Some e).
    { revert Ea. unfold add_ref. repeat case_match; intros [= <- ?]; cbn; congruence. }
    cbv iota. rewrite Hwerr. destruct Hstep as [-> Hlt]. split; [done|]. exists ref. rewrite listed_mult_cons. cbn [fst snd]. rewrite Hself.
    specialize (Hnn items ref Hits). nia.
Qed.

(** What [weighted_refs] lists is the multiplicity function. *)
Lemma weighted_refs_ok s : wwf s ->
  Forall (fun it => uint32_range (fOrdinal it.1) /\ FactRef_Validate it.1 = Ok tt /\ 1 <= it.2) (weighted_refs s).
Proof.
  intros [Hw He]. apply Forall_forall. intros it (r & -> & Hr)%list_elem_of_fmap. cbn.
  apply elem_Refs in Hr as (b & Hb & Hv); [|done]. destruct (Hw _ _ Hb) as (Hs & Hok & _).
  pose proof (rb_iterator_range b Hok) as Hrange. rewrite Forall_forall in Hrange.
  split; [by apply Hrange|]. split; [by rewrite FactRef_Validate_segment|].
  pose proof (extra_range _ _ r He). rewrite wrap_uint64_id by (unfold uint64_range; lia). lia.
Qed.

Lemma weighted_refs_mult s r : wwf s -> listed_mult (weighted_refs s) r = Multiplicity s r.
Proof.
  intros Hs. pose proof Hs as [Hw He].
  assert (Hmul : forall k, k ∈ Refs (support s) -> wrap_uint64 (1 + extra (extras s) k) = Multiplicity s k).
  { intros k Hk. apply elem_Refs in Hk; [|done]. rewrite Multiplicity_in by done. apply wrap_uint64_id.
    pose proof (extra_range _ _ k He). unfold uint64_range. lia. }
  assert (Hnd : NoDup (Refs (support s))) by (by apply nodup_of_strict, Refs_sorted).
  assert (Hsum : listed_mult (weighted_refs s) r = if decide (r ∈ Refs (support s)) then Multiplicity s r else 0).
  { unfold weighted_refs. revert Hmul. induction Hnd as [|k l Hk Hnd IH]; intros Hmul; [done|].
    cbn [map]. rewrite listed_mult_cons. cbn [fst snd].
    rewrite IH by (intros; apply Hmul; by right). unfold bump. destruct (decide (r = k)) as [->|Hne].
    - rewrite (decide_False (P := k ∈ l)), decide_True by (done || by left). rewrite Hmul by (by left). lia.
    - destruct (decide (r ∈ l)); [rewrite decide_True by (by right)|rewrite decide_False by set_solver]; done. }
  rewrite Hsum. case_decide as Hin; [done|]. rewrite elem_Refs in Hin by done. by rewrite Multiplicity_out.
Qed.

(** the streaming accumulator computes the weighted sum: from a builder
    without an error, [AddWeighted] either adds [scale] times every
    multiplicity of the value, and the frozen set has exactly those
    multiplicities, or fails with the overflow error because one of the sums
    does not fit 64 bits. *)
Theorem weighted_builder_exact b v scale : bwf b -> wwf v -> 1 <= scale ->
  match AddWeighted (Some b) v scale with
  | (b', Ok _) => exists t, WFreeze b' = Ok t /\ wwf t /\
      forall r, Multiplicity t r = Multiplicity (builder_set b) r + scale * Multiplicity v r
  | (_, Err e) => e = ErrMultiplicityOverflow /\
      exists r, max_uint64 < Multiplicity (builder_set b) r + scale * Multiplicity v r
  end.
Proof.
  intros Hb Hv Hscale. unfold AddWeighted. rewrite (proj2 (Z.eqb_neq scale 0)) by lia.
  pose proof Hb as ([sup Hsup] & Herr & _). rewrite Herr.
  assert (MkWBuilder (Some (with_support b)) (wextras b) None = b) as ->
    by (unfold with_support; rewrite Hsup; destruct b; cbn in *; congruence).
  pose proof (add_scaled_spec b (weighted_refs v) scale Hb Hscale (weighted_refs_ok v Hv)) as H. cbv zeta in H.
  unfold sticky. destruct (werr (add_scaled b (weighted_refs v) scale)) as [e|].
  - destruct H as [-> (r & Hr)]. split; [done|]. exists r. by rewrite weighted_refs_mult in Hr.
  - destruct H as [Hbw Hall]. exists (builder_set (add_scaled b (weighted_refs v) scale)).
    split; [by apply WFreeze_set|]. split; [by apply builder_set_wwf|]. intros r. by rewrite Hall, weighted_refs_mult.
Qed.

(** *** Construction from items *)
Definition item_ok (item : WeightedItem) : Prop :=
  FactRef_Validate (wiRef item) = Ok tt /\ 1 <= wiMultiplicity item <= max_uint64 /\ uint32_range (fOrdinal (wiRef item)).

Definition items_mult (items : list WeightedItem) (r : FactRef) : Z :=
  foldr (fun it n => bump (wiRef it) (wiMultiplicity it) r + n) 0 items.
Arguments items_mult : simpl never.
Lemma items_mult_cons it items r :
  items_mult (it :: items) r = bump (wiRef it) (wiMultiplicity it) r + items_mult items r.
Proof. done. Qed.

Lemma new_weighted_spec items : forall (sup : Builder B) exs (seen : gset FactRef),
  berr sup = None -> wf_segments (bsegments sup) -> extras_ok (holds (bsegments sup)) exs ->
  (forall r, r ∈ seen <-> holds (bsegments sup) r) ->
  Forall item_ok items -> NoDup (map wiRef items) -> (forall it, it ∈ items -> wiRef it ∉ seen) ->
  exists sup' exs', new_weighted (Some sup) exs seen items = Ok (Some sup', exs') /\
    bwf (MkWBuilder (Some sup') exs' None) /\
    forall r, Multiplicity (builder_set (MkWBuilder (Some sup') exs' None)) r =
      Multiplicity (builder_set (MkWBuilder (Some sup) exs None)) r + items_mult items r.
Proof.
  induction items as [|it items IH]; intros sup exs seen He Hw Hx Hseen Hit Hnd Hfresh; cbn [new_weighted].
  { exists sup, exs. split; [done|]. split; [split; [eauto|done]|]. intros r. change (items_mult [] r) with 0. lia. }
  inversion_clear Hit as [|?? (Hv & Hm & Hr) Hit']. cbn [map] in Hnd. inversion_clear Hnd as [|?? Hn Hnd'].
  rewrite Hv, (proj2 (Z.eqb_neq _ 0)) by lia. cbn [is_ok negb orb fail_if mbind result_bind].
  rewrite bool_decide_eq_false_2 by (apply Hfresh; by left). cbn [fail_if mbind result_bind].
  assert (Hbw0 : bwf (MkWBuilder (Some sup) exs None)) by (split; [eauto|done]).
  pose proof (add_ref_spec (MkWBuilder (Some sup) exs None) (wiRef it) (wiMultiplicity it) Hbw0 Hr Hv Hm) as Hstep.
  assert (Hnot : ~ holds (bsegments sup) (wiRef it)) by (rewrite <- Hseen; apply Hfresh; by left).
  unfold add_ref in Hstep. change (with_support (MkWBuilder (Some sup) exs None)) with sup in Hstep.
  cbv zeta in Hstep. rewrite (proj2 (Z.eqb_neq _ 0)) in Hstep by lia.
  assert (Hpres : match bsegments sup !! segment (wiRef it) with
    | Some bitmap => rb_contains bitmap (fOrdinal (wiRef it)) | None => false end = false).
  { apply not_true_iff_false. intros H. apply Hnot. unfold holds.
    destruct (bsegments sup !! segment (wiRef it)) as [bm|] eqn:E; [|done].
    destruct (Hw _ _ E) as (_ & Hok & _). apply rb_contains_elem in H; [|done]. eauto. }
  rewrite Hpres in Hstep. cbn [negb wextras] in Hstep.
  destruct (Add_step sup (wiRef it) Hw He Hr Hv) as (sup1 & Hadd & He1 & Hw1 & Hh1).
  rewrite Hadd in Hstep |- *. destruct Hstep as [Hbw1 Hmul1].
  destruct (IH sup1 (if 1 <? wiMultiplicity it then <[wiRef it := wiMultiplicity it - 1]> exs else exs)
    ({[ wiRef it ]} ∪ seen)) as (sup' & exs' & Hrun & Hbw & Hmul); try done.
  - by destruct Hbw1 as (_ & _ & _ & _ & ?).
  - intros r. rewrite elem_of_union, elem_of_singleton, Hseen, Hh1. done.
  - intros j Hj. rewrite not_elem_of_union, not_elem_of_singleton. split; [|apply Hfresh; by right].
    intros Heq. apply Hn. rewrite <- Heq. by apply list_elem_of_fmap_2.
  - exists sup', exs'. split; [done|]. split; [done|]. intros r. rewrite Hmul, Hmul1, items_mult_cons. lia.
Qed.

(** [NewWeightedSet] gives every listed fact its listed multiplicity and
    every other fact zero. *)
Theorem NewWeightedSet_exact items :
  Forall item_ok items -> NoDup (map wiRef items) ->
  exists t : WeightedSet B, NewWeightedSet items = Ok t /\ wwf t /\
    (forall it, it ∈ items -> Multiplicity t (wiRef it) = wiMultiplicity it) /\
    (forall r, r ∉ map wiRef items -> Multiplicity t r = 0).
Proof.
  intros Hit Hnd.
  destruct (new_weighted_spec items NewBuilder ∅ ∅) as (sup & exs & Hrun & Hbw & Hmul); try done.
  { intros r. cbn. unfold holds. rewrite lookup_empty. set_solver. }
  assert (Hzero : forall r, Multiplicity (builder_set (MkWBuilder (Some (NewBuilder (B := B))) ∅ None)) r = 0).
  { intros r. apply Multiplicity_out; [split; done|]. cbn. unfold holds. rewrite lookup_empty. naive_solver. }
  assert (Hsum : forall r, items_mult items r = 0 \/ r ∈ map wiRef items).
  { clear. intros r. induction items as [|it items IH]; [by left|]. cbn [map].
    rewrite items_mult_cons. unfold bump.
    case_decide as E; [right; subst; by left|]. destruct IH as [IH|?]; [left; lia|right; by right]. }
  exists (builder_set (MkWBuilder (Some sup) exs None)). split; [|split; [by apply builder_set_wwf|split]].
  - unfold NewWeightedSet. rewrite Hrun. cbn [mbind result_bind fst snd].
    pose proof (WFreeze_set _ Hbw) as Hf. exact Hf.
  - intros it Hin. rewrite Hmul, Hzero. clear -Hnd Hin. induction items as [|j items IH]; [by apply not_elem_of_nil in Hin|].
    cbn [map] in Hnd. inversion_clear Hnd as [|?? Hn Hnd']. rewrite items_mult_cons. unfold bump.
    apply elem_of_cons in Hin as [->|Hin].
    + rewrite decide_True by done. assert (Hz : items_mult items (wiRef j) = 0).
      { clear -Hn. induction items as [|k items IH]; [done|]. rewrite items_mult_cons. unfold bump.
        rewrite decide_False by (intros E; apply Hn; rewrite E; by left). rewrite IH; [done|]. intros ?. apply Hn. by right. }
      lia.
    + rewrite decide_False; [by apply IH|]. intros E. apply Hn. rewrite <- E. by apply list_elem_of_fmap_2.
  - intros r Hr. rewrite Hmul, Hzero. by destruct (Hsum r).
Qed.
End theory.

(** ** Witnesses *)
Definition demo_items (m1 m2 : Z) : list WeightedItem :=
  [ {| wiRef := demo_ref "s1" 7; wiMultiplicity := m1 |}; {| wiRef := demo_ref "s2" 9; wiMultiplicity := m2 |} ].
Definition demo_weighted (items : list WeightedItem) : WeightedSet ListBitmap.listed :=
  match NewWeightedSet items with Ok t => t | Err _ => MkWeighted (MkSet ∅) ∅ end.

Lemma demo_items_ok m1 m2 : 1 <= m1 <= max_uint64 -> 1 <= m2 <= max_uint64 ->
  Forall item_ok (demo_items m1 m2) /\ NoDup (map wiRef (demo_items m1 m2)).
Proof.
  intros H1 H2. split.
  - repeat constructor; cbn; try lia; vm_compute; reflexivity.
  - change (NoDup [demo_ref "s1" 7; demo_ref "s2" 9]). apply (bool_decide_unpack _). vm_compute. exact I.
Qed.

Lemma NewWeightedSet_exact_witness :
  exists t : WeightedSet ListBitmap.listed, NewWeightedSet (demo_items 1 5) = Ok t /\ Multiplicity t (demo_ref "s2" 9) = 5.
Proof.
  destruct (demo_items_ok 1 5) as [H1 H2]; [unfold max_uint64; lia..|].
  destruct (NewWeightedSet_exact (B := ListBitmap.listed) (demo_items 1 5) H1 H2) as (t & Ht & _ & Hm & _).
  exists t. split; [exact Ht|].
  exact (Hm {| wiRef := demo_ref "s2" 9; wiMultiplicity := 5 |} ltac:(right; left)).
Defined.

Lemma demo_weighted_wwf m1 m2 : 1 <= m1 <= max_uint64 -> 1 <= m2 <= max_uint64 -> wwf (demo_weighted (demo_items m1 m2)).
Proof.
  intros H1 H2. destruct (demo_items_ok m1 m2 H1 H2) as [Hi Hn].
  destruct (new_weighted_spec (B := ListBitmap.listed) (demo_items m1 m2) NewBuilder ∅ ∅)
    as (sup & exs & Hrun & Hbw & _); try done.
  { intros r. cbn. unfold holds. rewrite lookup_empty. set_solver. }
  unfold demo_weighted, NewWeightedSet. rewrite Hrun. cbn [mbind result_bind fst snd].
  pose proof (WFreeze_set _ Hbw) as Hf. unfold WFreeze in Hf. cbn [wsupport werr wextras] in Hf. rewrite Hf.
  by apply builder_set_wwf.
Qed.

Lemma weighted_add_exact_witness :
  is_ok (Add (demo_weighted (demo_items 2 5)) (demo_weighted (demo_items 1 3))) = true /\
  match Add (demo_weighted (demo_items 2 5)) (demo_weighted (demo_items max_uint64 3)) with
  | Ok _ => False | Err e => e = ErrMultiplicityOverflow end.
Proof.
  pose proof (demo_weighted_wwf 2 5 ltac:(unfold max_uint64; lia) ltac:(unfold max_uint64; lia)) as H1.
  pose proof (demo_weighted_wwf max_uint64 3 ltac:(unfold max_uint64; lia) ltac:(unfold max_uint64; lia)) as H2.
  split; [vm_compute; reflexivity|].
  pose proof (weighted_add_exact _ _ H1 H2) as H.
  assert (Hs : is_ok (Add (demo_weighted (demo_items 2 5)) (demo_weighted (demo_items max_uint64 3))) = false)
    by (vm_compute; reflexivity).
  destruct (Add (demo_weighted (demo_items 2 5)) (demo_weighted (demo_items max_uint64 3))); [discriminate Hs|exact (proj1 H)].
Defined.

Lemma weighted_max_exact_witness :
  Multiplicity (Max (demo_weighted (demo_items 2 5)) (demo_weighted (demo_items 4 3))) (demo_ref "s1" 7) = 4.
Proof.
  pose proof (demo_weighted_wwf 2 5 ltac:(unfold max_uint64; lia) ltac:(unfold max_uint64; lia)) as H1.
  pose proof (demo_weighted_wwf 4 3 ltac:(unfold max_uint64; lia) ltac:(unfold max_uint64; lia)) as H2.
  rewrite (proj2 (weighted_max_exact _ _ H1 H2)). vm_compute. reflexivity.
Defined.

Lemma weighted_builder_exact_witness :
  bwf (NewWeightedBuilder (B := ListBitmap.listed)) /\
  is_ok (AddWeighted (Some NewWeightedBuilder) (demo_weighted (demo_items 2 5)) 3).2 = true /\
  exists t : WeightedSet ListBitmap.listed, Multiplicity t (demo_ref "s2" 9) = 15.
Proof.
  assert (Hb : bwf (NewWeightedBuilder (B := ListBitmap.listed))) by (split; [eauto|split; [done|split; [done|split; apply map_Forall_empty]]]).
  pose proof (demo_weighted_wwf 2 5 ltac:(unfold max_uint64; lia) ltac:(unfold max_uint64; lia)) as H1.
  pose proof (weighted_builder_exact NewWeightedBuilder _ 3 Hb H1 ltac:(lia)) as H.
  assert (Hs : is_ok (AddWeighted (Some NewWeightedBuilder) (demo_weighted (demo_items 2 5)) 3).2 = true) by (vm_compute; reflexivity).
  split; [exact Hb|]. split; [exact Hs|].
  destruct (AddWeighted (Some NewWeightedBuilder) (demo_weighted (demo_items 2 5)) 3) as [b' [u|e]]; [|discriminate Hs].
  destruct H as (t & _ & _ & Hm). exists t. rewrite Hm. vm_compute. reflexivity.
Defined.
End Weighted.
