(* ===== verification/FactId.v ===== *)
(** * Fact identities

    [FactID] of [src/internal/exposure/fact.go]: the versioned semantic payload
    of one fact, its validator, its canonical payload and its hash.  The check
    that a predicate literal is the canonical encoding of a PostgreSQL value
    ([ValidateCanonicalSQLValueEncoding]) is the class [SQLLiterals]: nothing
    below depends on which literals it accepts. *)

From S2P Require Import Prelude GoBytes Ordering GoText Sha256.
Import GoText.

Module FactId.

Definition ErrInvalid := ErrNew "invalid exposure value".
Definition ProfileV2 := "taskgate-exposure-v2".
Definition ProfileV3 := "taskgate-exposure-v3".
Definition ProfileV4 := "taskgate-exposure-v4".
Definition ProfileV5 := "taskgate-exposure-v5".
Definition factDomainV2 : bytes := to_bytes "TASKGATE-FACT-V2" ++ [byte_of 0].
Definition factDomainV3 : bytes := to_bytes "TASKGATE-FACT-V3" ++ [byte_of 0].
Definition factDomainV5 : bytes := to_bytes "TASKGATE-FACT-V5" ++ [byte_of 0].

Definition FactBaseRow := "base-row".
Definition FactBaseCell := "base-cell".
Definition FactDerived := "derived".
Definition FactOutcome := "outcome".
Definition FactPredicateAtom := "predicate-atom".
Definition FactCompositeOutcome := "composite-outcome".
Definition PredicateFootprintVersion := "taskgate-predicate-footprint-v1".

Record SnapshotBinding := Binding { bSourceNamespace : string; bSnapshot : string }.

Record FactID := {
  Product : string;
  Snapshot : string;
  EntityKey : string;
  Field : string;
  ValueVersion : string;
  Profile : string;
  Kind : string;
  SourceNamespace : string;
  SQLType : string;
  CanonicalValue : string;
  SnapshotBundle : list SnapshotBinding;
  OutputRowKey : string;
  NormalizedExpression : string;
  WitnessCommitment : string;
  QueryNormalFormVersion : string;
  QueryNormalFormSHA256 : string;
  OutcomeSHA256 : string;
  OutcomeRows : Z;
  AtomizerVersion : string;
  PredicateContextSHA256 : string;
  SemanticProductID : string;
  StableRole : string;
  PublicFieldID : string;
  ResolvedExpressionSHA256 : string;
  CollationName : string;
  CollationVersion : string;
  Operator : string;
  CanonicalLiteral : string;
  ResultObservationSHA256 : string;
  VisibleRows : Z;
  PredicateProfileVersion : string;
  PredicateSetSHA256 : string;
  PredicateAtomCount : Z;
}.

#[export] Instance SnapshotBinding_eq_dec : EqDecision SnapshotBinding.
Proof. solve_decision. Defined.
#[export] Instance SnapshotBinding_compare : Compare SnapshotBinding := compare_on (fun b => (bSourceNamespace b, bSnapshot b)).
#[export] Instance SnapshotBinding_compare_laws : CompareLaws SnapshotBinding.
Proof. apply compare_on_laws. by intros [] [] [= -> ->]. Qed.

Class SQLLiterals := ValidateCanonicalSQLValueEncoding : string -> string -> result unit.

(** ** SQL types *)
Definition in_list (x : string) (l : list string) : bool := existsb (fun y => bool_decide (x = y)) l.

Definition type_aliases : list (list string * string) :=
  [ (["int2"], "smallint"); (["int4"; "int"], "integer"); (["int8"], "bigint"); (["decimal"], "numeric");
    (["float4"], "real"); (["float8"], "double precision"); (["bool"], "boolean"); (["char"], "character");
    (["varchar"], "character varying"); (["time"; "time without time zone"], "time without time zone");
    (["timetz"; "time with time zone"], "time with time zone");
    (["timestamp"; "timestamp without time zone"], "timestamp without time zone");
    (["timestamptz"; "timestamp with time zone"], "timestamp with time zone") ].

Definition normalizeSQLType (value : string) : string :=
  let normalized := Join (Fields (LowerText (TrimSpace value))) " " in
  match find (fun a => in_list normalized a.1) type_aliases with
  | Some (_, canonical) => canonical
  | None => normalized
  end.

Definition canonical_types : list string :=
  [ "smallint"; "integer"; "bigint"; "numeric"; "real"; "double precision"; "boolean"; "bytea"; "date";
    "time without time zone"; "timestamp with time zone"; "timestamp without time zone"; "jsonb"; "uuid";
    "text"; "character"; "character varying" ].

Definition CanonicalSQLTypeV2 (value : string) : result string :=
  let res := normalizeSQLType value in
  if in_list res canonical_types then Ok res
  else if bool_decide (res = "time with time zone")
  then Err (ErrW ErrInvalid "PostgreSQL time with time zone is outside %s")
  else Err (ErrW ErrInvalid "PostgreSQL type %q is outside %s").

Definition isCollatableTypeV5 (sqlType : string) : bool := in_list sqlType ["text"; "character"; "character varying"].

(** ** Validation *)
Definition given (s : string) : bool := negb (bool_decide (s = "")).
Definition same (a b : string) : bool := bool_decide (a = b).

Definition IsV2 (f : FactID) : bool := same (Profile f) ProfileV2.
Definition IsV3 (f : FactID) : bool := same (Profile f) ProfileV3.
Definition IsV5 (f : FactID) : bool := same (Profile f) ProfileV5.
Definition isVersioned (f : FactID) : bool := given (Profile f) || given (Kind f).

Definition invalidToken (value : string) : bool := blank value || negb (same value (TrimSpace value)).
Definition isSHA256 (value : string) : bool := valid_sha256_text value.

Definition bundled (f : FactID) : bool := negb (bool_decide (SnapshotBundle f = [])).

Definition hasLegacyVersionedPayload (f : FactID) : bool :=
  given (SourceNamespace f) || given (Snapshot f) || given (EntityKey f) || given (Field f) ||
  given (CanonicalValue f) || bundled f || given (OutputRowKey f) ||
  given (NormalizedExpression f) || given (WitnessCommitment f).

Definition hasAtomPayload (f : FactID) : bool :=
  given (AtomizerVersion f) || given (SemanticProductID f) || given (StableRole f) ||
  given (PublicFieldID f) || given (ResolvedExpressionSHA256 f) || given (SQLType f) ||
  given (CollationName f) || given (CollationVersion f) || given (Operator f) || given (CanonicalLiteral f).

Definition hasCompositePayload (f : FactID) : bool :=
  given (ResultObservationSHA256 f) || negb (VisibleRows f =? 0) || given (PredicateProfileVersion f) ||
  given (PredicateSetSHA256 f) || negb (PredicateAtomCount f =? 0).

Definition hasV5Payload (f : FactID) : bool :=
  given (PredicateContextSHA256 f) || hasAtomPayload f || hasCompositePayload f.

Definition hasV5OnlyPayload (f : FactID) : bool :=
  given (AtomizerVersion f) || given (PredicateContextSHA256 f) || given (SemanticProductID f) ||
  given (StableRole f) || given (PublicFieldID f) || given (ResolvedExpressionSHA256 f) ||
  given (CollationName f) || given (CollationVersion f) || given (Operator f) || given (CanonicalLiteral f) ||
  given (ResultObservationSHA256 f) || negb (VisibleRows f =? 0) || given (PredicateProfileVersion f) ||
  given (PredicateSetSHA256 f) || negb (PredicateAtomCount f =? 0).

Definition hasOutcomePayload (f : FactID) : bool :=
  given (QueryNormalFormVersion f) || given (QueryNormalFormSHA256 f) || given (OutcomeSHA256 f) ||
  negb (OutcomeRows f =? 0).

Definition bad (text : string) : goerror := ErrW ErrInvalid text.

(** [canonicalType, err := CanonicalSQLTypeV2(t); err != nil || canonicalType != t]. *)
Definition type_not_canonical (t : string) : bool :=
  match CanonicalSQLTypeV2 t with Ok canonical => negb (same canonical t) | Err _ => true end.

(** The loop over the snapshot bundle. *)
Fixpoint bundle_check (seen : list string) (bindings : list SnapshotBinding) : result unit :=
  match bindings with
  | [] => Ok tt
  | b :: rest =>
      fail_if (invalidToken (bSourceNamespace b) || invalidToken (bSnapshot b))
        (bad "snapshot bundle binding is incomplete") ≫= fun _ =>
      fail_if (in_list (bSourceNamespace b) seen) (bad "duplicate snapshot namespace %q") ≫= fun _ =>
      bundle_check (bSourceNamespace b :: seen) rest
  end.

Definition validate_base_row (f : FactID) : result unit :=
  fail_if (negb (IsV2 f)) (bad "base-row fact requires profile %q") ≫= fun _ =>
  fail_if (invalidToken (SourceNamespace f) || invalidToken (Snapshot f) || invalidToken (EntityKey f))
    (bad "base row namespace, snapshot, and entity key are required") ≫= fun _ =>
  fail_if (given (Field f) || given (SQLType f) || given (CanonicalValue f) || bundled f ||
           given (OutputRowKey f) || given (NormalizedExpression f) || given (WitnessCommitment f) ||
           hasOutcomePayload f || hasV5OnlyPayload f) (bad "base row carries cell or derived fields").

Definition validate_base_cell (f : FactID) : result unit :=
  fail_if (negb (IsV2 f)) (bad "base-cell fact requires profile %q") ≫= fun _ =>
  fail_if (invalidToken (SourceNamespace f) || invalidToken (Snapshot f) || invalidToken (EntityKey f) ||
           invalidToken (Field f) || invalidToken (SQLType f) || same (CanonicalValue f) "")
    (bad "base cell payload is incomplete") ≫= fun _ =>
  fail_if (type_not_canonical (SQLType f)) (bad "base cell SQL type is not canonical") ≫= fun _ =>
  fail_if (bundled f || given (OutputRowKey f) || given (NormalizedExpression f) || given (WitnessCommitment f) ||
           hasOutcomePayload f || hasV5OnlyPayload f) (bad "base cell carries derived fields").

Definition validate_derived (f : FactID) : result unit :=
  fail_if (negb (IsV2 f)) (bad "derived fact requires profile %q") ≫= fun _ =>
  fail_if (given (SourceNamespace f) || given (Snapshot f) || given (EntityKey f) || given (Field f) ||
           invalidToken (OutputRowKey f) || invalidToken (NormalizedExpression f) || invalidToken (SQLType f) ||
           same (CanonicalValue f) "" || negb (isSHA256 (WitnessCommitment f)) || negb (bundled f) ||
           hasOutcomePayload f || hasV5OnlyPayload f) (bad "derived fact payload is incomplete or mixed") ≫= fun _ =>
  fail_if (type_not_canonical (SQLType f)) (bad "derived fact SQL type is not canonical") ≫= fun _ =>
  bundle_check [] (SnapshotBundle f).

Definition validate_outcome (f : FactID) : result unit :=
  fail_if (negb (IsV3 f)) (bad "outcome fact requires profile %q") ≫= fun _ =>
  fail_if (given (SourceNamespace f) || given (Snapshot f) || given (EntityKey f) || given (Field f) ||
           given (SQLType f) || given (CanonicalValue f) || bundled f || given (OutputRowKey f) ||
           given (NormalizedExpression f) || given (WitnessCommitment f))
    (bad "outcome fact carries base or derived fields") ≫= fun _ =>
  fail_if (invalidToken (QueryNormalFormVersion f) || negb (isSHA256 (QueryNormalFormSHA256 f)) ||
           negb (isSHA256 (OutcomeSHA256 f)) || (OutcomeRows f <? 0))
    (bad "outcome fact payload is incomplete") ≫= fun _ =>
  fail_if (hasV5Payload f) (bad "V3 outcome fact carries V5 fields").

Definition validate_composite (f : FactID) : result unit :=
  fail_if (negb (IsV5 f)) (bad "composite outcome requires profile %q") ≫= fun _ =>
  fail_if (hasLegacyVersionedPayload f || given (OutcomeSHA256 f) || negb (OutcomeRows f =? 0) || hasAtomPayload f)
    (bad "composite outcome carries fields from another fact kind") ≫= fun _ =>
  fail_if (invalidToken (QueryNormalFormVersion f) || negb (isSHA256 (QueryNormalFormSHA256 f)) ||
           negb (isSHA256 (ResultObservationSHA256 f)) || (VisibleRows f <? 0) ||
           negb (same (PredicateProfileVersion f) PredicateFootprintVersion) || negb (isSHA256 (PredicateContextSHA256 f)) ||
           negb (isSHA256 (PredicateSetSHA256 f)) || (PredicateAtomCount f <? 0))
    (bad "composite outcome payload is incomplete").

Section literals.
Context `{SQLLiterals}.

Definition validate_atom (f : FactID) : result unit :=
  fail_if (negb (IsV5 f)) (bad "predicate atom requires profile %q") ≫= fun _ =>
  fail_if (hasLegacyVersionedPayload f || hasOutcomePayload f || hasCompositePayload f)
    (bad "predicate atom carries fields from another fact kind") ≫= fun _ =>
  fail_if (negb (same (AtomizerVersion f) PredicateFootprintVersion) || negb (isSHA256 (PredicateContextSHA256 f)) ||
           invalidToken (SemanticProductID f) || invalidToken (StableRole f) || invalidToken (PublicFieldID f) ||
           invalidToken (SQLType f) || invalidToken (Operator f) || same (CanonicalLiteral f) "")
    (bad "predicate atom payload is incomplete") ≫= fun _ =>
  fail_if (type_not_canonical (SQLType f)) (bad "predicate atom SQL type is not canonical") ≫= fun _ =>
  map_err (fun e => ErrWV ErrInvalid (ErrCtx "predicate atom literal is not canonical" e))
    (ValidateCanonicalSQLValueEncoding (SQLType f) (CanonicalLiteral f)) ≫= fun _ =>
  fail_if (given (ResolvedExpressionSHA256 f) && negb (isSHA256 (ResolvedExpressionSHA256 f)))
    (bad "resolved expression must be lowercase SHA-256") ≫= fun _ =>
  (if isCollatableTypeV5 (SQLType f)
   then fail_if (invalidToken (CollationName f) || invalidToken (CollationVersion f))
          (bad "collatable predicate atom requires a collation binding")
   else fail_if (given (CollationName f) || given (CollationVersion f))
          (bad "non-collatable predicate atom carries a collation")) ≫= fun _ =>
  fail_if (negb (in_list (Operator f) ["EQ"; "NE"; "LT"; "LE"; "GT"; "GE"; "LIKE"]))
    (bad "unsupported predicate atom operator %q").

Definition validateVersioned (f : FactID) : result unit :=
  fail_if (given (Product f) || given (ValueVersion f)) (bad "V1 and versioned fact fields cannot be mixed") ≫= fun _ =>
  if same (Kind f) FactBaseRow then validate_base_row f
  else if same (Kind f) FactBaseCell then validate_base_cell f
  else if same (Kind f) FactDerived then validate_derived f
  else if same (Kind f) FactOutcome then validate_outcome f
  else if same (Kind f) FactPredicateAtom then validate_atom f
  else if same (Kind f) FactCompositeOutcome then validate_composite f
  else Err (bad "unknown versioned fact kind %q").

Definition Validate (f : FactID) : result unit :=
  if isVersioned f then validateVersioned f
  else
    check_all (fun value => fail_if (invalidToken value) (bad "%s is required without boundary whitespace"))
      [Product f; Snapshot f; EntityKey f; Field f; ValueVersion f] ≫= fun _ =>
    fail_if (negb (isSHA256 (ValueVersion f))) (bad "value_version must be lowercase SHA-256").

(** ** Canonical payload *)
Definition binding_payload (b : SnapshotBinding) : bytes := be_string (bSourceNamespace b) ++ be_string (bSnapshot b).

Definition kind_payload (f : FactID) : bytes :=
  if same (Kind f) FactBaseRow then
    be_string (SourceNamespace f) ++ be_string (Snapshot f) ++ be_string (EntityKey f)
  else if same (Kind f) FactBaseCell then
    be_string (SourceNamespace f) ++ be_string (Snapshot f) ++ be_string (EntityKey f) ++
    be_string (Field f) ++ be_string (SQLType f) ++ be_string (CanonicalValue f)
  else if same (Kind f) FactDerived then
    let bindings := go_sort (SnapshotBundle f) in
    be_uint64 (Z.of_nat (length bindings)) ++ flat_map binding_payload bindings ++
    be_string (OutputRowKey f) ++ be_string (NormalizedExpression f) ++ be_string (SQLType f) ++
    be_string (CanonicalValue f) ++ be_string (WitnessCommitment f)
  else if same (Kind f) FactOutcome then
    be_string (QueryNormalFormVersion f) ++ be_string (QueryNormalFormSHA256 f) ++
    be_string (OutcomeSHA256 f) ++ be_uint64 (OutcomeRows f)
  else if same (Kind f) FactPredicateAtom then
    be_string (AtomizerVersion f) ++ be_string (PredicateContextSHA256 f) ++ be_string (SemanticProductID f) ++
    be_string (StableRole f) ++ be_string (PublicFieldID f) ++ be_string (ResolvedExpressionSHA256 f) ++
    be_string (SQLType f) ++ be_string (CollationName f) ++ be_string (CollationVersion f) ++
    be_string (Operator f) ++ be_string (CanonicalLiteral f)
  else if same (Kind f) FactCompositeOutcome then
    be_string (QueryNormalFormVersion f) ++ be_string (QueryNormalFormSHA256 f) ++
    be_string (ResultObservationSHA256 f) ++ be_uint64 (VisibleRows f) ++
    be_string (PredicateProfileVersion f) ++ be_string (PredicateContextSHA256 f) ++
    be_string (PredicateSetSHA256 f) ++ be_uint64 (PredicateAtomCount f)
  else [].

(** [json.Marshal(f)] of an unversioned fact: the tags' names, in field order. *)
Definition json_binding (b : SnapshotBinding) : bytes :=
  json_object [("source_namespace", Some (json_string (bSourceNamespace b))); ("snapshot", Some (json_string (bSnapshot b)))].
Definition json_fact (f : FactID) : bytes :=
  json_object
    [ ("product", omit_string (Product f)); ("snapshot", omit_string (Snapshot f));
      ("entity_key", omit_string (EntityKey f)); ("field", omit_string (Field f));
      ("value_version", omit_string (ValueVersion f)); ("profile", omit_string (Profile f));
      ("kind", omit_string (Kind f)); ("source_namespace", omit_string (SourceNamespace f));
      ("sql_type", omit_string (SQLType f)); ("canonical_value", omit_string (CanonicalValue f));
      ("snapshot_bundle", if bundled f then Some (json_array (map json_binding (SnapshotBundle f))) else None);
      ("output_row_key", omit_string (OutputRowKey f));
      ("normalized_expression", omit_string (NormalizedExpression f));
      ("witness_commitment", omit_string (WitnessCommitment f));
      ("query_normal_form_version", omit_string (QueryNormalFormVersion f));
      ("query_normal_form_sha256", omit_string (QueryNormalFormSHA256 f));
      ("outcome_sha256", omit_string (OutcomeSHA256 f)); ("outcome_rows", omit_int (OutcomeRows f));
      ("atomizer_version", omit_string (AtomizerVersion f));
      ("predicate_context_sha256", omit_string (PredicateContextSHA256 f));
      ("semantic_product_id", omit_string (SemanticProductID f)); ("stable_role", omit_string (StableRole f));
      ("public_field_id", omit_string (PublicFieldID f));
      ("resolved_expression_sha256", omit_string (ResolvedExpressionSHA256 f));
      ("collation_name", omit_string (CollationName f)); ("collation_version", omit_string (CollationVersion f));
      ("operator", omit_string (Operator f)); ("canonical_literal", omit_string (CanonicalLiteral f));
      ("result_observation_sha256", omit_string (ResultObservationSHA256 f));
      ("visible_rows", omit_int (VisibleRows f));
      ("predicate_profile_version", omit_string (PredicateProfileVersion f));
      ("predicate_set_sha256", omit_string (PredicateSetSHA256 f));
      ("predicate_atom_count", omit_int (PredicateAtomCount f)) ].

Definition versioned_payload (f : FactID) : bytes := be_string (Kind f) ++ be_string (Profile f) ++ kind_payload f.

Definition CanonicalPayload (f : FactID) : result bytes :=
  Validate f ≫= fun _ => Ok (if negb (isVersioned f) then json_fact f else versioned_payload f).

(** The bytes [Hash] digests. *)
Definition hash_material (f : FactID) (payload : bytes) : bytes :=
  if IsV2 f then factDomainV2 ++ payload
  else if IsV3 f then factDomainV3 ++ payload
  else if IsV5 f then factDomainV5 ++ payload
  else payload.

Definition Hash (f : FactID) : result string :=
  payload ← CanonicalPayload f; Ok (Sha256.hex_sum (hash_material f payload)).
End literals.

(** ** Constructors of facts *)
Definition empty_fact : FactID := {|
  Product := ""; Snapshot := ""; EntityKey := ""; Field := ""; ValueVersion := ""; Profile := ""; Kind := "";
  SourceNamespace := ""; SQLType := ""; CanonicalValue := ""; SnapshotBundle := []; OutputRowKey := "";
  NormalizedExpression := ""; WitnessCommitment := ""; QueryNormalFormVersion := ""; QueryNormalFormSHA256 := "";
  OutcomeSHA256 := ""; OutcomeRows := 0; AtomizerVersion := ""; PredicateContextSHA256 := "";
  SemanticProductID := ""; StableRole := ""; PublicFieldID := ""; ResolvedExpressionSHA256 := "";
  CollationName := ""; CollationVersion := ""; Operator := ""; CanonicalLiteral := "";
  ResultObservationSHA256 := ""; VisibleRows := 0; PredicateProfileVersion := ""; PredicateSetSHA256 := "";
  PredicateAtomCount := 0 |}.

(** The fact with its snapshot bundle in canonical order. *)
Definition normal (f : FactID) : FactID := {|
  Product := Product f; Snapshot := Snapshot f; EntityKey := EntityKey f; Field := Field f;
  ValueVersion := ValueVersion f; Profile := Profile f; Kind := Kind f; SourceNamespace := SourceNamespace f;
  SQLType := SQLType f; CanonicalValue := CanonicalValue f; SnapshotBundle := go_sort (SnapshotBundle f);
  OutputRowKey := OutputRowKey f; NormalizedExpression := NormalizedExpression f;
  WitnessCommitment := WitnessCommitment f; QueryNormalFormVersion := QueryNormalFormVersion f;
  QueryNormalFormSHA256 := QueryNormalFormSHA256 f; OutcomeSHA256 := OutcomeSHA256 f; OutcomeRows := OutcomeRows f;
  AtomizerVersion := AtomizerVersion f; PredicateContextSHA256 := PredicateContextSHA256 f;
  SemanticProductID := SemanticProductID f; StableRole := StableRole f; PublicFieldID := PublicFieldID f;
  ResolvedExpressionSHA256 := ResolvedExpressionSHA256 f; CollationName := CollationName f;
  CollationVersion := CollationVersion f; Operator := Operator f; CanonicalLiteral := CanonicalLiteral f;
  ResultObservationSHA256 := ResultObservationSHA256 f; VisibleRows := VisibleRows f;
  PredicateProfileVersion := PredicateProfileVersion f; PredicateSetSHA256 := PredicateSetSHA256 f;
  PredicateAtomCount := PredicateAtomCount f |}.

Arguments isSHA256 : simpl never.
Arguments invalidToken : simpl never.
Arguments type_not_canonical : simpl never.
Arguments go_string : simpl never.
Arguments same : simpl never.
Arguments go_sort : simpl never.

(** ** Lemmas *)
Lemma given_false s : given s = false <-> s = "".
Proof. unfold given. by rewrite negb_false_iff, bool_decide_eq_true. Qed.
Lemma same_true a b : same a b = true <-> a = b.
Proof. apply bool_decide_eq_true. Qed.
Lemma same_false a b : same a b = false <-> a <> b.
Proof. apply bool_decide_eq_false. Qed.
Lemma bundled_false f : bundled f = false <-> SnapshotBundle f = [].
Proof. unfold bundled. by rewrite negb_false_iff, bool_decide_eq_true. Qed.
Lemma nonzero_false z : negb (z =? 0) = false <-> z = 0.
Proof. rewrite negb_false_iff. apply Z.eqb_eq. Qed.

(** Turn accepted checks into equations on the fields. *)
Ltac open_checks H :=
  unfold hasOutcomePayload, hasV5Payload, hasV5OnlyPayload, hasLegacyVersionedPayload, hasAtomPayload,
    hasCompositePayload, IsV2, IsV3, IsV5 in H;
  rewrite ?seq_ok, ?map_err_ok, ?fail_if_ok, ?orb_false_iff, ?given_false, ?bundled_false, ?nonzero_false in H;
  rewrite ?negb_false_iff, ?same_true, ?Z.ltb_ge in H; destruct_and? H.

(** The sizes of Go values: string lengths, slice lengths and [int64] counts. *)
Definition go_fact (f : FactID) : Prop :=
  Forall go_string
    [Kind f; Profile f; SourceNamespace f; Snapshot f; EntityKey f; Field f; SQLType f; CanonicalValue f;
     OutputRowKey f; NormalizedExpression f; WitnessCommitment f; QueryNormalFormVersion f;
     QueryNormalFormSHA256 f; OutcomeSHA256 f; AtomizerVersion f; PredicateContextSHA256 f;
     SemanticProductID f; StableRole f; PublicFieldID f; ResolvedExpressionSHA256 f; CollationName f;
     CollationVersion f; Operator f; CanonicalLiteral f; ResultObservationSHA256 f;
     PredicateProfileVersion f; PredicateSetSHA256 f] /\
  Forall (fun b => go_string (bSourceNamespace b) /\ go_string (bSnapshot b)) (SnapshotBundle f) /\
  Z.of_nat (length (SnapshotBundle f)) <= max_int64 /\
  OutcomeRows f <= max_int64 /\ VisibleRows f <= max_int64 /\ PredicateAtomCount f <= max_int64.

Lemma bundle_payload_inj l k x y :
  Forall (fun b => go_string (bSourceNamespace b) /\ go_string (bSnapshot b)) l ->
  Forall (fun b => go_string (bSourceNamespace b) /\ go_string (bSnapshot b)) k ->
  length l = length k -> flat_map binding_payload l ++ x = flat_map binding_payload k ++ y -> l = k /\ x = y.
Proof.
  intros Hl; revert k; induction Hl as [|b l [Hb1 Hb2] _ IH]; intros [|c k] Hk Hlen; try done.
  inversion_clear Hk as [|?? [Hc1 Hc2] Hk']. cbn [flat_map]. unfold binding_payload at 1 3. rewrite <- !app_assoc.
  intros Heq. apply be_string_inj in Heq as [E1 Heq]; [|done..]. apply be_string_inj in Heq as [E2 Heq]; [|done..].
  destruct (IH k Hk') as [-> ->]; [by injection Hlen|done|]. split; [|done].
  f_equal. destruct b, c; cbn in *; congruence.
Qed.

Ltac peel H :=
  repeat (apply be_string_inj in H; [|assumption|assumption]; let E := fresh "E" in destruct H as [E H]);
  try (apply be_string_inj1 in H; [|assumption|assumption]).

(** Facts whose fields agree are equal. *)
Ltac close_fields f g :=
  repeat match goal with G : go_string _ |- _ => clear G end;
  destruct f, g; unfold normal; cbn in *; subst; first [reflexivity | f_equal; assumption].

Section theory.
Context `{SQLLiterals}.

Definition kinds : list string :=
  [FactBaseRow; FactBaseCell; FactDerived; FactOutcome; FactPredicateAtom; FactCompositeOutcome].

Lemma Validate_versioned f : isVersioned f = true -> Validate f = Ok tt ->
  Product f = "" /\ ValueVersion f = "" /\
  ((Kind f = FactBaseRow /\ validate_base_row f = Ok tt) \/ (Kind f = FactBaseCell /\ validate_base_cell f = Ok tt) \/
   (Kind f = FactDerived /\ validate_derived f = Ok tt) \/ (Kind f = FactOutcome /\ validate_outcome f = Ok tt) \/
   (Kind f = FactPredicateAtom /\ validate_atom f = Ok tt) \/ (Kind f = FactCompositeOutcome /\ validate_composite f = Ok tt)).
Proof.
  unfold Validate. intros ->. unfold validateVersioned. rewrite seq_ok, fail_if_ok, orb_false_iff, !given_false.
  intros ([??] & Hk). split; [done|]. split; [done|].
  repeat match type of Hk with (if same (Kind f) ?k then _ else _) = _ =>
    let E := fresh "E" in destruct (same (Kind f) k) eqn:E; [apply same_true in E; tauto|] end. done.
Qed.

(** What [kind_payload] writes for a kind determines a fact of that kind. *)
Definition determined (k : string) (check : FactID -> result unit) : Prop :=
  forall f g, Kind f = k -> Kind g = k -> Profile f = Profile g ->
  Product f = Product g -> ValueVersion f = ValueVersion g -> go_fact f -> go_fact g ->
  check f = Ok tt -> check g = Ok tt -> kind_payload f = kind_payload g -> normal f = normal g.

Ltac start_kind :=
  intros f g Kf Kg Hp Hpr Hvv (Gf & Bf & Lf & Rf & Wf & Cf) (Gg & Bg & Lg & Rg & Wg & Cg) Vf Vg;
  unfold kind_payload; rewrite Kf, Kg; intros Heq;
  rewrite !Forall_cons in Gf; rewrite !Forall_cons in Gg; destruct_and! Gf; destruct_and! Gg.

Lemma row_determined : determined FactBaseRow validate_base_row.
Proof.
  start_kind. unfold validate_base_row in Vf, Vg. open_checks Vf. open_checks Vg. peel Heq. close_fields f g.
Qed.

Lemma cell_determined : determined FactBaseCell validate_base_cell.
Proof.
  start_kind. unfold validate_base_cell in Vf, Vg. open_checks Vf. open_checks Vg.
  change (be_string (SourceNamespace f) ++ be_string (Snapshot f) ++ be_string (EntityKey f) ++
    be_string (Field f) ++ be_string (SQLType f) ++ be_string (CanonicalValue f) =
    be_string (SourceNamespace g) ++ be_string (Snapshot g) ++ be_string (EntityKey g) ++
    be_string (Field g) ++ be_string (SQLType g) ++ be_string (CanonicalValue g)) in Heq.
  peel Heq. close_fields f g.
Qed.

Lemma derived_determined : determined FactDerived validate_derived.
Proof.
  start_kind. unfold validate_derived in Vf, Vg. open_checks Vf. open_checks Vg.
  set (sf := go_sort (SnapshotBundle f)) in *. set (sg := go_sort (SnapshotBundle g)) in *.
  change (be_uint64 (Z.of_nat (length sf)) ++ flat_map binding_payload sf ++ be_string (OutputRowKey f) ++
    be_string (NormalizedExpression f) ++ be_string (SQLType f) ++ be_string (CanonicalValue f) ++
    be_string (WitnessCommitment f) =
    be_uint64 (Z.of_nat (length sg)) ++ flat_map binding_payload sg ++ be_string (OutputRowKey g) ++
    be_string (NormalizedExpression g) ++ be_string (SQLType g) ++ be_string (CanonicalValue g) ++
    be_string (WitnessCommitment g)) in Heq.
  assert (length sf = length (SnapshotBundle f)) as Hlf by (unfold sf; by rewrite go_sort_perm).
  assert (length sg = length (SnapshotBundle g)) as Hlg by (unfold sg; by rewrite go_sort_perm).
  unfold max_int64 in *. apply be_bytes_app_inj in Heq as [El Heq]; [|lia..].
  apply bundle_payload_inj in Heq as [Eb Heq]; [|unfold sf, sg; by rewrite go_sort_perm..|lia].
  peel Heq. unfold sf, sg in Eb. close_fields f g.
Qed.

Lemma outcome_determined : determined FactOutcome validate_outcome.
Proof.
  start_kind. unfold validate_outcome in Vf, Vg. open_checks Vf. open_checks Vg.
  change (be_string (QueryNormalFormVersion f) ++ be_string (QueryNormalFormSHA256 f) ++
    be_string (OutcomeSHA256 f) ++ be_uint64 (OutcomeRows f) =
    be_string (QueryNormalFormVersion g) ++ be_string (QueryNormalFormSHA256 g) ++
    be_string (OutcomeSHA256 g) ++ be_uint64 (OutcomeRows g)) in Heq.
  peel Heq. unfold max_int64 in *. apply be_bytes_inj in Heq; [|lia..]. close_fields f g.
Qed.

Lemma atom_determined : determined FactPredicateAtom validate_atom.
Proof.
  start_kind. unfold validate_atom in Vf, Vg. open_checks Vf. open_checks Vg.
  change (be_string (AtomizerVersion f) ++ be_string (PredicateContextSHA256 f) ++ be_string (SemanticProductID f) ++
    be_string (StableRole f) ++ be_string (PublicFieldID f) ++ be_string (ResolvedExpressionSHA256 f) ++
    be_string (SQLType f) ++ be_string (CollationName f) ++ be_string (CollationVersion f) ++
    be_string (Operator f) ++ be_string (CanonicalLiteral f) =
    be_string (AtomizerVersion g) ++ be_string (PredicateContextSHA256 g) ++ be_string (SemanticProductID g) ++
    be_string (StableRole g) ++ be_string (PublicFieldID g) ++ be_string (ResolvedExpressionSHA256 g) ++
    be_string (SQLType g) ++ be_string (CollationName g) ++ be_string (CollationVersion g) ++
    be_string (Operator g) ++ be_string (CanonicalLiteral g)) in Heq.
  repeat match goal with V : (if _ then _ else _) = Ok tt |- _ => clear V end.
  peel Heq. close_fields f g.
Qed.

Lemma composite_determined : determined FactCompositeOutcome validate_composite.
Proof.
  start_kind. unfold validate_composite in Vf, Vg. open_checks Vf. open_checks Vg.
  change (be_string (QueryNormalFormVersion f) ++ be_string (QueryNormalFormSHA256 f) ++
    be_string (ResultObservationSHA256 f) ++ be_uint64 (VisibleRows f) ++
    be_string (PredicateProfileVersion f) ++ be_string (PredicateContextSHA256 f) ++
    be_string (PredicateSetSHA256 f) ++ be_uint64 (PredicateAtomCount f) =
    be_string (QueryNormalFormVersion g) ++ be_string (QueryNormalFormSHA256 g) ++
    be_string (ResultObservationSHA256 g) ++ be_uint64 (VisibleRows g) ++
    be_string (PredicateProfileVersion g) ++ be_string (PredicateContextSHA256 g) ++
    be_string (PredicateSetSHA256 g) ++ be_uint64 (PredicateAtomCount g)) in Heq.
  peel Heq. unfold max_int64 in *. apply be_bytes_app_inj in Heq as [EV Heq]; [|lia..].
  peel Heq. apply be_bytes_inj in Heq; [|lia..]. close_fields f g.
Qed.

Lemma versioned_payload_inj f g : isVersioned f = true -> isVersioned g = true ->
  Validate f = Ok tt -> Validate g = Ok tt -> go_fact f -> go_fact g ->
  versioned_payload f = versioned_payload g -> normal f = normal g.
Proof.
  intros If Ig Vf Vg Gf Gg. unfold versioned_payload. intros Heq.
  assert (Hkp : forall h, go_fact h -> go_string (Kind h) /\ go_string (Profile h)).
  { intros h (Gh & _). rewrite !Forall_cons in Gh. tauto. }
  apply be_string_inj in Heq as [Ek Heq]; [|by apply Hkp..].
  apply be_string_inj in Heq as [Ep Heq]; [|by apply Hkp..].
  apply Validate_versioned in Vf as (Pf & Wf & Cf); [|done]. apply Validate_versioned in Vg as (Pg & Wg & Cg); [|done].
  assert (Epr : Product f = Product g) by congruence. assert (Evv : ValueVersion f = ValueVersion g) by congruence.
  destruct Cf as [[Kf Vf]|[[Kf Vf]|[[Kf Vf]|[[Kf Vf]|[[Kf Vf]|[Kf Vf]]]]]];
    destruct Cg as [[Kg Vg]|[[Kg Vg]|[[Kg Vg]|[[Kg Vg]|[[Kg Vg]|[Kg Vg]]]]]];
    try (exfalso; rewrite Kf, Kg in Ek; discriminate Ek).
  - by apply row_determined.
  - by apply cell_determined.
  - by apply derived_determined.
  - by apply outcome_determined.
  - by apply atom_determined.
  - by apply composite_determined.
Qed.
(** The three domain prefixes have one length. *)
Definition fact_domain (f : FactID) : bytes :=
  if IsV2 f then factDomainV2 else if IsV3 f then factDomainV3 else factDomainV5.

Lemma valid_profile f : isVersioned f = true -> Validate f = Ok tt ->
  Profile f = ProfileV2 \/ Profile f = ProfileV3 \/ Profile f = ProfileV5.
Proof.
  intros Hv Hok. apply Validate_versioned in Hok as (_ & _ & Hk); [|done].
  destruct Hk as [[_ V]|[[_ V]|[[_ V]|[[_ V]|[[_ V]|[_ V]]]]]];
    [unfold validate_base_row in V|unfold validate_base_cell in V|unfold validate_derived in V
    |unfold validate_outcome in V|unfold validate_atom in V|unfold validate_composite in V];
    apply seq_ok in V as [V _]; apply fail_if_ok in V; apply negb_false_iff, same_true in V; tauto.
Qed.

Lemma hash_material_domain f payload : isVersioned f = true -> Validate f = Ok tt ->
  hash_material f payload = fact_domain f ++ payload.
Proof.
  intros Hv Hok. unfold hash_material, fact_domain, IsV2, IsV3, IsV5.
  destruct (valid_profile f Hv Hok) as [->|[->| ->]]; reflexivity.
Qed.

Lemma fact_domain_length f : length (fact_domain f) = 17%nat.
Proof. unfold fact_domain. by destruct (IsV2 f), (IsV3 f). Qed.

Lemma hash_material_inj f g p q : isVersioned f = true -> isVersioned g = true ->
  Validate f = Ok tt -> Validate g = Ok tt -> hash_material f p = hash_material g q -> p = q.
Proof.
  intros If Ig Vf Vg. rewrite !hash_material_domain by done.
  intros Heq. apply app_inj_1 in Heq; [tauto|]. by rewrite !fact_domain_length.
Qed.

Lemma versioned_payload_normal f : versioned_payload (normal f) = versioned_payload f.
Proof.
  unfold versioned_payload, kind_payload. cbn [normal Kind Profile SourceNamespace Snapshot EntityKey Field SQLType
    CanonicalValue OutputRowKey NormalizedExpression WitnessCommitment QueryNormalFormVersion QueryNormalFormSHA256
    OutcomeSHA256 OutcomeRows AtomizerVersion PredicateContextSHA256 SemanticProductID StableRole PublicFieldID
    ResolvedExpressionSHA256 CollationName CollationVersion Operator CanonicalLiteral ResultObservationSHA256
    VisibleRows PredicateProfileVersion PredicateSetSHA256 PredicateAtomCount SnapshotBundle].
  by rewrite (go_sort_id (go_sort _)) by apply go_sort_sorted.
Qed.

Lemma CanonicalPayload_ok f payload : CanonicalPayload f = Ok payload <->
  Validate f = Ok tt /\ payload = if isVersioned f then versioned_payload f else json_fact f.
Proof.
  unfold CanonicalPayload. rewrite seq_ok. destruct (isVersioned f); cbn [negb]; (split; intros [-> E];
    (split; [done|]); [by apply Ok_inj in E|by subst]).
Qed.

(** The canonical payload identifies a versioned fact: two accepted facts of
    any kind and profile have the same payload exactly when they agree in every
    field, the snapshot bundle up to its order.  No field, however its bytes are
    chosen, can be moved into another field or kind. *)
Theorem fact_payload_identity f g :
  isVersioned f = true -> isVersioned g = true -> go_fact f -> go_fact g ->
  Validate f = Ok tt -> Validate g = Ok tt ->
  CanonicalPayload f = CanonicalPayload g <-> normal f = normal g.
Proof.
  intros If Ig Gf Gg Vf Vg. unfold CanonicalPayload. rewrite Vf, Vg, If, Ig. cbn [negb]. split.
  - intros Heq%Ok_inj. by apply versioned_payload_inj.
  - intros Heq. f_equal. by rewrite <- (versioned_payload_normal f), Heq, versioned_payload_normal.
Qed.

(** The byte string hashed for a versioned fact. *)
Definition fact_material (f : FactID) : bytes := hash_material f (versioned_payload f).

Lemma hash_binds f g h :
  isVersioned f = true -> isVersioned g = true -> go_fact f -> go_fact g ->
  Hash f = Ok h -> Hash g = Ok h -> normal f = normal g \/ Sha256.collides [fact_material f] [fact_material g].
Proof.
  intros If Ig Gf Gg Hf Hg. unfold Hash in Hf, Hg.
  apply bind_ok in Hf as (p & Pf & Hf). apply bind_ok in Hg as (q & Pg & Hg).
  apply CanonicalPayload_ok in Pf as [Vf ->]. apply CanonicalPayload_ok in Pg as [Vg ->]. rewrite If in Hf. rewrite Ig in Hg.
  apply Ok_inj in Hf. apply Ok_inj in Hg. rewrite <- Hg in Hf.
  apply Sha256.hex_sum_eq in Hf as [E|]; [left|by right].
  apply versioned_payload_inj; try done. by apply (hash_material_inj f g).
Qed.

Lemma hash_versioned f : isVersioned f = true -> Validate f = Ok tt ->
  Hash f = Ok (Sha256.hex_sum (hash_material f (versioned_payload f))).
Proof. intros If Vf. unfold Hash, CanonicalPayload. by rewrite Vf, If. Qed.

End theory.

(** ** Concrete facts *)

(** Two total sales over the same pair of snapshots, the bundle listed in both orders. *)
Definition zeros : string := "0000000000000000000000000000000000000000000000000000000000000000".
Definition total (bundle : list SnapshotBinding) (amount : string) : FactID := {|
  Product := ""; Snapshot := ""; EntityKey := ""; Field := ""; ValueVersion := ""; Profile := ProfileV2;
  Kind := FactDerived; SourceNamespace := ""; SQLType := "integer"; CanonicalValue := amount;
  SnapshotBundle := bundle; OutputRowKey := "row-1"; NormalizedExpression := "sum(amount)";
  WitnessCommitment := zeros; QueryNormalFormVersion := ""; QueryNormalFormSHA256 := "";
  OutcomeSHA256 := ""; OutcomeRows := 0; AtomizerVersion := ""; PredicateContextSHA256 := "";
  SemanticProductID := ""; StableRole := ""; PublicFieldID := ""; ResolvedExpressionSHA256 := "";
  CollationName := ""; CollationVersion := ""; Operator := ""; CanonicalLiteral := "";
  ResultObservationSHA256 := ""; VisibleRows := 0; PredicateProfileVersion := ""; PredicateSetSHA256 := "";
  PredicateAtomCount := 0 |}.
Definition total_ab := total [Binding "orders" "v1"; Binding "refunds" "v7"] "i:42".
Definition total_ba := total [Binding "refunds" "v7"; Binding "orders" "v1"] "i:42".

(** Literals of text type, which need no PostgreSQL value model. *)
Definition text_literals : SQLLiterals := fun sqlType encoded =>
  fail_if (negb (isCollatableTypeV5 sqlType && String.prefix "s:" encoded)) (bad "non-canonical literal encoding").

Ltac solve_go_fact :=
  unfold go_fact, go_string; repeat split; repeat (apply Forall_cons; split); try apply Forall_nil; vm_compute;
  intuition discriminate.

Lemma total_ab_go : go_fact total_ab. Proof. solve_go_fact. Qed.
Lemma total_ba_go : go_fact total_ba. Proof. solve_go_fact. Qed.

Lemma fact_payload_identity_witness :
  let _ := text_literals in
  Validate total_ab = Ok tt /\ Validate total_ba = Ok tt /\ CanonicalPayload total_ab = CanonicalPayload total_ba.
Proof.
  assert (Va : @Validate text_literals total_ab = Ok tt) by (vm_compute; reflexivity).
  assert (Vb : @Validate text_literals total_ba = Ok tt) by (vm_compute; reflexivity).
  split; [exact Va|]. split; [exact Vb|].
  apply (@fact_payload_identity text_literals total_ab total_ba eq_refl eq_refl total_ab_go total_ba_go Va Vb).
  vm_compute. reflexivity.
Defined.
End FactId.
