(* ===== verification/FactText.v ===== *)
(** * The hash of any fact

    A fact without a profile or kind (V1) is hashed as its JSON text, in which
    empty fields are left out; this file reads the fields back from that text
    and binds the hash of facts of every version. *)

From stdpp Require pretty.
From S2P Require Import Prelude GoBytes Ordering GoText GoJSON Sha256 FactId.
Import GoText GoJSON FactId.

Module FactText.

(** The strings of a fact. *)
Definition fact_strings (f : FactID) : list string :=
  [Product f; Snapshot f; EntityKey f; Field f; ValueVersion f; Profile f; Kind f; SourceNamespace f; SQLType f; CanonicalValue f;
   OutputRowKey f; NormalizedExpression f; WitnessCommitment f; QueryNormalFormVersion f; QueryNormalFormSHA256 f; OutcomeSHA256 f;
   AtomizerVersion f; PredicateContextSHA256 f; SemanticProductID f; StableRole f; PublicFieldID f; ResolvedExpressionSHA256 f;
   CollationName f; CollationVersion f; Operator f; CanonicalLiteral f; ResultObservationSHA256 f; PredicateProfileVersion f;
   PredicateSetSHA256 f] ++ map bSourceNamespace (SnapshotBundle f) ++ map bSnapshot (SnapshotBundle f).
Definition utf8_fact (f : FactID) : bool := forallb ValidString (fact_strings f).

(** ** Reading a fact back *)
Definition same_binding (b c : SnapshotBinding) : Prop :=
  same_text (bSourceNamespace b) (bSourceNamespace c) /\ same_text (bSnapshot b) (bSnapshot c).

Lemma json_binding_open b : exists r, json_binding b = "{"%char :: r.
Proof. unfold json_binding, json_object. cbn [app]. eauto. Qed.

Lemma field_eq {A} (k : string) (v w : A) l m : (k, v) :: l = (k, w) :: m -> v = w /\ l = m.
Proof. by intros [= -> ->]. Qed.
Lemma some_eq {A} (v w : A) : Some v = Some w -> v = w.
Proof. by intros [= ->]. Qed.

Ltac plain_keys := repeat (constructor; [unfold plain; repeat (constructor; [reflexivity|]); constructor|]); constructor.

Ltac distinct_keys := cbn [map fst]; apply (bool_decide_unpack _); vm_compute; exact I.

Lemma json_binding_inj b c x y : json_binding b ++ x = json_binding c ++ y -> same_binding b c /\ x = y.
Proof.
  unfold json_binding. intros E. apply object_inj in E as [E ->]; [|reflexivity|distinct_keys|plain_keys|].
  - apply field_eq in E as [E1%some_eq E]. apply field_eq in E as [E2%some_eq _]. split; [|done].
    split; eapply (json_string_same _ _ [] []); by rewrite ?E1, ?E2.
  - cbn [map snd]. repeat (constructor; [intros u v _ _; apply json_string_end|]). constructor.
Qed.

Lemma alike_bundle f g :
  alike (if bundled f then Some (json_array (map json_binding (SnapshotBundle f))) else None)
        (if bundled g then Some (json_array (map json_binding (SnapshotBundle g))) else None).
Proof.
  destruct (bundled f), (bundled g); try done. intros x y _ _ E.
  pose proof (array_inj json_binding same_binding _ _ _ _ json_binding_open json_binding_inj E) as [_ ->].
  by apply app_inv_tail in E.
Qed.

(** Members with one text, of valid text, are one member. *)
Lemma omit_string_eq s t : ValidString s = true -> ValidString t = true -> omit_string s = omit_string t -> s = t.
Proof.
  intros Hs Ht. unfold omit_string. do 2 case_bool_decide; try congruence. intros E%some_eq. by apply json_string_valid.
Qed.

Lemma omit_int_eq a b : omit_int a = omit_int b -> a = b.
Proof.
  unfold omit_int. destruct (Z.eqb_spec a 0), (Z.eqb_spec b 0); try congruence. intros E%some_eq. unfold json_int, format_int in E.
  apply to_bytes_inj in E. by apply (inj pretty.pretty) in E.
Qed.

Lemma bindings_eq l k : Forall2 same_binding l k -> Forall (fun s => ValidString s = true) (map bSourceNamespace l ++ map bSnapshot l) ->
  Forall (fun s => ValidString s = true) (map bSourceNamespace k ++ map bSnapshot k) -> l = k.
Proof.
  rewrite !Forall_app. intros F [A1 A2] [B1 B2]. induction F as [|b c l k [[_ E1] [_ E2]] _ IH]; [done|]. cbn [map] in *.
  apply Forall_cons in A1 as [A1 ?], A2 as [A2 ?], B1 as [B1 ?], B2 as [B2 ?]. f_equal; [|by apply IH].
  destruct b, c; cbn in *. by rewrite E1, E2.
Qed.

Lemma bundle_eq f g : utf8_fact f = true -> utf8_fact g = true ->
  (if bundled f then Some (json_array (map json_binding (SnapshotBundle f))) else None) =
  (if bundled g then Some (json_array (map json_binding (SnapshotBundle g))) else None) -> SnapshotBundle f = SnapshotBundle g.
Proof.
  assert (Hb : forall h, utf8_fact h = true ->
    Forall (fun s => ValidString s = true) (map bSourceNamespace (SnapshotBundle h) ++ map bSnapshot (SnapshotBundle h))).
  { intros h Hh. unfold utf8_fact, fact_strings in Hh. rewrite forallb_app in Hh. apply andb_true_iff in Hh as [_ Hh].
    rewrite forallb_forall in Hh. apply Forall_forall. intros s Hs. apply Hh. by apply list_elem_of_In. }
  intros Hf%Hb Hg%Hb. clear Hb. destruct (bundled f) eqn:Ef, (bundled g) eqn:Eg; try done.
  - intros E%some_eq. assert (E' : json_array (map json_binding (SnapshotBundle f)) ++ [] = json_array (map json_binding (SnapshotBundle g)) ++ [])
      by (by rewrite E).
    apply (array_inj json_binding same_binding) in E' as [F _]; [|apply json_binding_open|apply json_binding_inj]. by apply bindings_eq.
  - apply bundled_false in Ef, Eg. by rewrite Ef, Eg.
Qed.

Lemma json_fact_inj f g : utf8_fact f = true -> utf8_fact g = true -> json_fact f = json_fact g -> f = g.
Proof.
  intros Hf Hg E. pose proof (bundle_eq f g Hf Hg) as Hbundle. assert (E' : json_fact f ++ [] = json_fact g ++ []) by (by rewrite E). clear E.
  unfold json_fact in E'. apply object_inj in E' as [E _]; [|reflexivity|distinct_keys|plain_keys|].
  2:{ cbn [map snd]. repeat (constructor; [first [apply alike_text|apply alike_int|apply alike_bundle]|]). constructor. }
  unfold utf8_fact, fact_strings in Hf, Hg. rewrite forallb_app in Hf, Hg. cbn [forallb] in Hf, Hg.
  apply andb_true_iff in Hf as [Hf _], Hg as [Hg _]. rewrite !andb_true_iff in Hf, Hg. destruct_and! Hf. destruct_and! Hg.
  repeat match type of E with _ :: _ = _ :: _ => let E1 := fresh "F" in apply field_eq in E as [E1 E];
    first [apply omit_string_eq in E1; [|assumption|assumption]|apply omit_int_eq in E1|apply Hbundle in E1] end.
  clear Hbundle E. repeat match goal with V : ValidString _ = true |- _ => clear V end. destruct f, g. cbn in *. subst. reflexivity.
Qed.

(** ** The hash *)
Section theory.
Context `{SQLLiterals}.

(** The byte string hashed for a fact. *)
Definition hashed_bytes (f : FactID) : bytes := hash_material f (if isVersioned f then versioned_payload f else json_fact f).

(** Two facts with one identity. *)
Definition same_fact (f g : FactID) : Prop := isVersioned f = isVersioned g /\ if isVersioned f then normal f = normal g else f = g.

Lemma hash_valid f : Validate f = Ok tt -> Hash f = Ok (Sha256.hex_sum (hashed_bytes f)).
Proof. intros Vf. unfold Hash, CanonicalPayload, hashed_bytes. rewrite Vf. by destruct (isVersioned f). Qed.

Lemma unversioned_material f payload : isVersioned f = false -> hash_material f payload = payload.
Proof.
  unfold isVersioned. intros [Hp _]%orb_false_iff. apply given_false in Hp. unfold hash_material, IsV2, IsV3, IsV5. by rewrite Hp.
Qed.

Lemma hashed_bytes_inj f g : go_fact f -> go_fact g -> (isVersioned f = false -> utf8_fact f = true) ->
  (isVersioned g = false -> utf8_fact g = true) -> Validate f = Ok tt -> Validate g = Ok tt ->
  hashed_bytes f = hashed_bytes g -> same_fact f g.
Proof.
  intros Gf Gg Uf Ug Vf Vg. unfold hashed_bytes, same_fact.
  assert (Hmixed : forall a b, isVersioned a = true -> Validate a = Ok tt -> hash_material a (versioned_payload a) <> json_fact b).
  { intros a b Ia Va. rewrite hash_material_domain by done. unfold fact_domain. by destruct (IsV2 a), (IsV3 a). }
  destruct (isVersioned f) eqn:If, (isVersioned g) eqn:Ig.
  - intros E. split; [done|]. apply versioned_payload_inj; try done. by apply (hash_material_inj f g).
  - rewrite (unversioned_material g) by done. intros E. by apply Hmixed in E.
  - rewrite (unversioned_material f) by done. intros E. symmetry in E. by apply Hmixed in E.
  - rewrite !unversioned_material by done. intros E. split; [done|]. apply json_fact_inj; auto.
Qed.

(** C34: The hash binds a fact.  Two accepted facts of any versions have one hash
    when they agree in every field, the snapshot bundle of a versioned fact up
    to its order; and if they have one hash they agree so, or the two byte
    strings that were hashed differ and have one SHA-256.  Sizes are those of Go
    values, and the text of V1 facts, which are hashed as JSON, is valid UTF-8. *)
Theorem fact_hash_binding f g : go_fact f -> go_fact g -> (isVersioned f = false -> utf8_fact f = true) ->
  (isVersioned g = false -> utf8_fact g = true) -> Validate f = Ok tt -> Validate g = Ok tt ->
  (same_fact f g -> Hash f = Hash g) /\
  (Hash f = Hash g -> same_fact f g \/ Sha256.collides [hashed_bytes f] [hashed_bytes g]).
Proof.
  intros Gf Gg Uf Ug Vf Vg. rewrite !hash_valid by done. split.
  - intros [Ev E]. unfold hashed_bytes. rewrite <- Ev. destruct (isVersioned f); [|by rewrite E]. do 2 f_equal.
    unfold hash_material, IsV2, IsV3, IsV5. rewrite <- (versioned_payload_normal f), <- (versioned_payload_normal g), E.
    assert (Profile f = Profile g) as -> by exact (f_equal Profile E). done.
  - intros E%Ok_inj. apply Sha256.hex_sum_eq in E as [E|]; [left; by apply hashed_bytes_inj|by right].
Qed.
End theory.

(** ** Concrete facts *)

(** A V1 fact. *)
Definition v1_fact (key : string) : FactID := {|
  Product := "orders"; Snapshot := "v1"; EntityKey := key; Field := "amount"; ValueVersion := zeros; Profile := "";
  Kind := ""; SourceNamespace := ""; SQLType := ""; CanonicalValue := "";
  SnapshotBundle := []; OutputRowKey := ""; NormalizedExpression := "";
  WitnessCommitment := ""; QueryNormalFormVersion := ""; QueryNormalFormSHA256 := "";
  OutcomeSHA256 := ""; OutcomeRows := 0; AtomizerVersion := ""; PredicateContextSHA256 := "";
  SemanticProductID := ""; StableRole := ""; PublicFieldID := ""; ResolvedExpressionSHA256 := "";
  CollationName := ""; CollationVersion := ""; Operator := ""; CanonicalLiteral := "";
  ResultObservationSHA256 := ""; VisibleRows := 0; PredicateProfileVersion := ""; PredicateSetSHA256 := "";
  PredicateAtomCount := 0 |}.

(** Of V1 facts of other bytes the hash tells nothing. *)
Example v1_invalid_bytes : @Hash text_literals (v1_fact (of_bytes [byte_of 255])) = @Hash text_literals (v1_fact (of_bytes [byte_of 254])).
Proof. vm_compute. reflexivity. Qed.

Lemma fact_hash_binding_witness :
  @Hash text_literals total_ab = @Hash text_literals total_ba /\
  (same_fact (v1_fact "7") (v1_fact "8") \/ Sha256.collides [hashed_bytes (v1_fact "7")] [hashed_bytes (v1_fact "8")] \/
   @Hash text_literals (v1_fact "7") <> @Hash text_literals (v1_fact "8")).
Proof.
  assert (Va : @Validate text_literals total_ab = Ok tt) by (vm_compute; reflexivity).
  assert (Vb : @Validate text_literals total_ba = Ok tt) by (vm_compute; reflexivity).
  assert (V7 : @Validate text_literals (v1_fact "7") = Ok tt) by (vm_compute; reflexivity).
  assert (V8 : @Validate text_literals (v1_fact "8") = Ok tt) by (vm_compute; reflexivity).
  assert (G7 : go_fact (v1_fact "7")) by solve_go_fact. assert (G8 : go_fact (v1_fact "8")) by solve_go_fact.
  split.
  - apply (@fact_hash_binding text_literals total_ab total_ba total_ab_go total_ba_go); [discriminate|discriminate|exact Va|exact Vb|].
    split; [reflexivity|vm_compute; reflexivity].
  - destruct (decide (@Hash text_literals (v1_fact "7") = @Hash text_literals (v1_fact "8"))) as [E|E]; [|right; right; exact E].
    assert (U7 : utf8_fact (v1_fact "7") = true) by (vm_compute; reflexivity).
    assert (U8 : utf8_fact (v1_fact "8") = true) by (vm_compute; reflexivity).
    destruct (proj2 (@fact_hash_binding text_literals (v1_fact "7") (v1_fact "8") G7 G8 (fun _ => U7) (fun _ => U8) V7 V8) E) as [S|C];
      [left; exact S|right; left; exact C].
Defined.
End FactText.
