(* ===== verification/FactSet.v ===== *)
(** * Fact sets and observations

    [FactSet], [PredicateSetHashV1], [Observation], [MergeObservations] of
    [src/internal/exposure/fact.go], with [observation_digest.go] and
    [outcome_v3.go]: sets of facts keyed by hash, with the full canonical payload
    compared before a repeated hash is accepted; the normal form of what a
    query released, depended on and asserted. *)

From S2P Require Import Prelude GoBytes Ordering GoText Sha256 FactId.
Import GoText FactId.

Module FactSet.

(** A non-nil [FactSet]; Go's nil map is [None] where it matters. *)
Abbreviation FactSet := (gmap string FactID) (only parsing).

Record Observation := MkObservation {
  ProfileVersion : string;
  Release : list FactID;
  Influence : list FactID;
  Outcome : list FactID;
}.

Definition predicateSetDomainV1 : bytes := to_bytes "TASKGATE-PREDICATE-SET-V1" ++ [byte_of 0].
Definition outcomeDigestDomainV1 : bytes := to_bytes "TASKGATE-OUTCOME-DIGEST-V1" ++ [byte_of 0].

Section sets.
Context `{SQLLiterals}.

Definition same_payload (existing fact : FactID) : bool :=
  match CanonicalPayload existing, CanonicalPayload fact with
  | Ok lp, Ok rp => bool_decide (lp = rp)
  | _, _ => false
  end.

Definition Add (s : option FactSet) (fact : FactID) : result FactSet :=
  match s with
  | None => Err (bad "nil fact set")
  | Some s =>
      hash ← Hash fact;
      match s !! hash with
      | Some existing => fail_if (negb (same_payload existing fact)) (bad "fact hash collision for %s") ≫= fun _ => Ok s
      | None => Ok (<[hash := fact]> s)
      end
  end.

Definition add_all (s : FactSet) (facts : list FactID) : result FactSet :=
  fold_res (fun s fact => Add (Some s) fact) s facts.

Definition NewFactSet (facts : list FactID) : result FactSet := add_all ∅ facts.

(** [for _, fact := range s]: one of the orders Go may choose. *)
Definition range (s : FactSet) : list FactID := (map_to_list s).*2.

Definition MergeChecked (s other : FactSet) : result FactSet := add_all s (range other).

Definition Values (s : FactSet) : list FactID :=
  omap (fun hash => s !! hash) (go_sort (map_to_list s).*1).

(** ** The predicate set commitment *)
Definition hash_bytes (text : string) : bytes := default [] (hex_decode text).

Definition member_step (members : gmap bytes bytes) (atom : FactID) : result (gmap bytes bytes) :=
  fail_if (negb (same (Profile atom) ProfileV5) || negb (same (Kind atom) FactPredicateAtom))
    (bad "predicate set contains a non-atom fact") ≫= fun _ =>
  hashText ← Hash atom;
  payload ← CanonicalPayload atom;
  let hash := hash_bytes hashText in
  match members !! hash with
  | Some existing => fail_if (negb (bool_decide (existing = payload))) (bad "predicate atom SHA-256 collision")
  | None => Ok tt
  end ≫= fun _ => Ok (<[hash := payload]> members).

Definition set_material (hashes : list bytes) : bytes :=
  predicateSetDomainV1 ++ be_uint64 (Z.of_nat (length hashes)) ++ concat hashes.

Definition PredicateSetHashV1 (atoms : list FactID) : result string :=
  members ← fold_res member_step ∅ atoms;
  let ordered := go_sort (map_to_list members).*1 in
  Ok (Sha256.hex_sum (set_material ordered)).

(** ** Observations *)
Definition accounts_v2 (profile : string) : bool := in_list profile [ProfileV2; ProfileV3; ProfileV4; ProfileV5].

Definition check_fact (profile : string) (fact : FactID) : result unit :=
  fail_if (accounts_v2 profile && negb (IsV2 fact))
    (bad "V2/V3/V4/V5 release or influence set contains a non-V2 fact") ≫= fun _ =>
  fail_if (negb (accounts_v2 profile) && isVersioned fact) (bad "V2 fact cannot enter profile %q").

Definition is_atom (f : FactID) : bool := IsV5 f && same (Kind f) FactPredicateAtom.
Definition is_composite (f : FactID) : bool := IsV5 f && same (Kind f) FactCompositeOutcome.

(** The loop that splits a V5 outcome into its atoms and its composite. *)
Definition outcome_step (st : list FactID * option FactID) (fact : FactID) : result (list FactID * option FactID) :=
  let '(atoms, composite) := st in
  if is_atom fact then Ok (atoms ++ [fact], composite)
  else if is_composite fact && bool_decide (composite = None) then Ok (atoms, Some fact)
  else Err (bad "V5 outcome requires predicate atoms and exactly one composite").

Definition cardinality_error := bad "V5 outcome cardinality is not atoms plus one composite".

Definition check_outcome_v5 (outcome : FactSet) : result unit :=
  '(atoms, composite) ← fold_res outcome_step ([], None) (range outcome);
  match composite with
  | None => Err cardinality_error
  | Some composite =>
      fail_if (negb (size outcome =? length atoms + 1)%nat ||
               negb (PredicateAtomCount composite =? Z.of_nat (length atoms))) cardinality_error ≫= fun _ =>
      fail_if (match PredicateSetHashV1 atoms with
               | Ok setDigest => negb (same setDigest (PredicateSetSHA256 composite))
               | Err _ => true
               end) (bad "V5 composite predicate set binding mismatch") ≫= fun _ =>
      check_all (fun atom => fail_if (negb (same (PredicateContextSHA256 atom) (PredicateContextSHA256 composite)))
                               (bad "V5 atom/composite context mismatch")) atoms
  end.

Definition check_outcome (profile : string) (outcome : FactSet) : result unit :=
  (if same profile ProfileV5 then check_outcome_v5 outcome
   else check_all (fun fact =>
          fail_if ((negb (same profile ProfileV3) && negb (same profile ProfileV4)) ||
                   negb (IsV3 fact) || negb (same (Kind fact) FactOutcome))
            (bad "outcome facts require profile %q or %q")) (range outcome)) ≫= fun _ =>
  fail_if (negb (same profile ProfileV3) && negb (same profile ProfileV4) && negb (same profile ProfileV5) &&
           negb (size outcome =? 0)%nat) (bad "profile %q cannot carry outcome facts").

Definition Normalize (o : Observation) : result Observation :=
  let profile := ProfileVersion o in
  fail_if (invalidToken profile) (bad "profile_version is required") ≫= fun _ =>
  release ← NewFactSet (Release o);
  influence ← NewFactSet (Influence o);
  outcome ← NewFactSet (Outcome o);
  check_all (check_fact profile) (range release) ≫= fun _ =>
  check_all (check_fact profile) (range influence) ≫= fun _ =>
  check_outcome profile outcome ≫= fun _ =>
  Ok (MkObservation profile (Values release) (Values influence) (Values outcome)).

(** [set, _ = NewFactSet(facts...)]: nil on error, over which nothing is merged. *)
Definition set_of (facts : list FactID) : FactSet :=
  match NewFactSet facts with Ok s => s | Err _ => ∅ end.

Definition merge_step (profile : string) (acc : FactSet * FactSet * FactSet) (o : Observation) :
    result (FactSet * FactSet * FactSet) :=
  let '(release, influence, outcome) := acc in
  normalized ← Normalize o;
  fail_if (negb (same (ProfileVersion normalized) profile)) (bad "mixed exposure profiles") ≫= fun _ =>
  release ← MergeChecked release (set_of (Release normalized));
  influence ← MergeChecked influence (set_of (Influence normalized));
  outcome ← MergeChecked outcome (set_of (Outcome normalized));
  Ok (release, influence, outcome).

Definition MergeObservations (profile : string) (observations : list Observation) : result Observation :=
  '(release, influence, outcome) ← fold_res (merge_step profile) (∅, ∅, ∅) observations;
  Ok (MkObservation profile (Values release) (Values influence) (Values outcome)).

(** [json.Marshal] of an observation: the outcome list is omitted when empty. *)
Definition json_observation (o : Observation) : bytes :=
  json_object
    [ ("profile_version", Some (json_string (ProfileVersion o)));
      ("release", Some (json_array (map json_fact (Release o))));
      ("influence", Some (json_array (map json_fact (Influence o))));
      ("outcome", if bool_decide (Outcome o = []) then None else Some (json_array (map json_fact (Outcome o)))) ].

Definition ObservationDigest (o : Observation) : result string :=
  normalized ← Normalize o; Ok (Sha256.hex_sum (json_observation normalized)).

(** ** Outcome attachment *)
Definition outcome_fact (normalFormVersion normalFormSHA256 outcomeSHA256 : string) (outcomeRows : Z) : FactID := {|
    Product := ""; Snapshot := ""; EntityKey := ""; Field := ""; ValueVersion := ""; Profile := ProfileV3;
    Kind := FactOutcome; SourceNamespace := ""; SQLType := ""; CanonicalValue := ""; SnapshotBundle := [];
    OutputRowKey := ""; NormalizedExpression := ""; WitnessCommitment := "";
    QueryNormalFormVersion := normalFormVersion; QueryNormalFormSHA256 := normalFormSHA256;
    OutcomeSHA256 := outcomeSHA256; OutcomeRows := outcomeRows; AtomizerVersion := ""; PredicateContextSHA256 := "";
    SemanticProductID := ""; StableRole := ""; PublicFieldID := ""; ResolvedExpressionSHA256 := "";
    CollationName := ""; CollationVersion := ""; Operator := ""; CanonicalLiteral := "";
    ResultObservationSHA256 := ""; VisibleRows := 0; PredicateProfileVersion := ""; PredicateSetSHA256 := "";
    PredicateAtomCount := 0 |}.

Definition NewOutcomeFactV3 (normalFormVersion normalFormSHA256 outcomeSHA256 : string) (outcomeRows : Z) : result FactID :=
  let fact := outcome_fact normalFormVersion normalFormSHA256 outcomeSHA256 outcomeRows in
  Validate fact ≫= fun _ => Ok fact.

Definition release_step (payload : bytes) (fact : FactID) : result bytes :=
  fail_if (negb (IsV2 fact)) (bad "outcome release set contains a non-V2 fact") ≫= fun _ =>
  factPayload ← CanonicalPayload fact;
  Ok (payload ++ be_field factPayload).

Definition release_material (release : list FactID) (visibleRows : Z) : result bytes :=
  set ← NewFactSet release;
  fold_res release_step
    (outcomeDigestDomainV1 ++ be_uint64 visibleRows ++ be_uint64 (Z.of_nat (length (Values set)))) (Values set).

Definition ReleaseOutcomeDigest (release : list FactID) (visibleRows : Z) : result string :=
  fail_if (visibleRows <? 0) (bad "visible row count cannot be negative") ≫= fun _ =>
  material ← release_material release visibleRows;
  Ok (Sha256.hex_sum material).

Definition attachOutcome (observation : Observation) (targetProfile normalFormVersion normalFormSHA256 : string)
    (visibleRows : Z) : result Observation :=
  fail_if (negb (same (ProfileVersion observation) ProfileV2)) (bad "outcome attachment requires a V2 observation") ≫= fun _ =>
  fail_if (negb (same targetProfile ProfileV3) && negb (same targetProfile ProfileV4))
    (bad "unsupported outcome observation profile %q") ≫= fun _ =>
  fail_if (visibleRows <? 0) (bad "visible row count cannot be negative") ≫= fun _ =>
  normalized ← Normalize observation;
  digest ← ReleaseOutcomeDigest (Release normalized) visibleRows;
  fact ← NewOutcomeFactV3 normalFormVersion normalFormSHA256 digest visibleRows;
  Normalize (MkObservation targetProfile (Release normalized) (Influence normalized) [fact]).

Definition AttachOutcomeV3 (o : Observation) := attachOutcome o ProfileV3.
Definition AttachOutcomeV4 (o : Observation) := attachOutcome o ProfileV4.

End sets.

(** ** Fact sets *)
Section theory.
Context `{SQLLiterals}.
Implicit Types (s other : gmap string FactID) (f g : FactID) (h : string).

(** The key of an entry is the hash of its fact. *)
Definition wf (s : gmap string FactID) : Prop := map_Forall (fun h f => Hash f = Ok h) s.

(** Facts with one hash have one payload. *)
Definition coherent (facts : list FactID) : Prop :=
  forall f g h, f ∈ facts -> g ∈ facts -> Hash f = Ok h -> Hash g = Ok h -> CanonicalPayload f = CanonicalPayload g.

Definition hashable (facts : list FactID) : Prop := forall f, f ∈ facts -> exists h, Hash f = Ok h.

(** The first fact of the list with hash [h]. *)
Definition has_hash (h : string) (f : FactID) : bool := bool_decide (Hash f = Ok h).
Definition first_with (h : string) (facts : list FactID) : option FactID := List.find (has_hash h) facts.

Lemma Hash_ok f h : Hash f = Ok h <-> exists p, CanonicalPayload f = Ok p /\ h = Sha256.hex_sum (hash_material f p).
Proof.
  unfold Hash. rewrite bind_ok. split; intros (p & Hp & E); exists p; (split; [done|]).
  - by apply Ok_inj in E.
  - by rewrite E.
Qed.

Lemma same_payload_true f g h : Hash f = Ok h -> same_payload g f = true <-> CanonicalPayload g = CanonicalPayload f.
Proof.
  rewrite Hash_ok. intros (p & Hp & _). unfold same_payload. rewrite Hp.
  destruct (CanonicalPayload g) as [q|e]; [|done]. rewrite bool_decide_eq_true. split; [by intros ->|apply Ok_inj].
Qed.

Lemma Add_ok s f s' : Add (Some s) f = Ok s' <->
  exists h, Hash f = Ok h /\
    ((s !! h = None /\ s' = <[h := f]> s) \/
     (exists g, s !! h = Some g /\ CanonicalPayload g = CanonicalPayload f /\ s' = s)).
Proof.
  unfold Add. rewrite bind_ok. split; intros (h & Hh & E); exists h; (split; [done|]); destruct (s !! h) as [g|] eqn:Eg.
  - apply fail_if_bind_ok in E as [E1 E2]. apply negb_false_iff in E1. right. exists g.
    apply Ok_inj in E2. apply (same_payload_true f g h Hh) in E1. done.
  - left. by apply Ok_inj in E.
  - destruct E as [[? _]|(g' & [= ->] & Hp & ->)]; [done|]. apply fail_if_bind_ok. split; [|done].
    apply negb_false_iff. by apply (same_payload_true f g' h Hh).
  - destruct E as [[_ ->]|(g' & ? & _)]; done.
Qed.

Lemma elem_range s f : f ∈ range s <-> exists h, s !! h = Some f.
Proof.
  unfold range. rewrite list_elem_of_fmap. split.
  - intros ([h g] & -> & Hin). exists h. by apply elem_of_map_to_list.
  - intros (h & Hh). exists (h, f). split; [done|]. by apply elem_of_map_to_list.
Qed.

Lemma first_with_some h facts f : first_with h facts = Some f -> f ∈ facts /\ Hash f = Ok h.
Proof.
  intros E. apply find_some in E as [Hin Hb]. split; [by apply list_elem_of_In|]. by apply bool_decide_eq_true in Hb.
Qed.
Lemma first_with_none h facts : first_with h facts = None -> forall f, f ∈ facts -> Hash f <> Ok h.
Proof.
  intros E f Hf Hh. apply list_elem_of_In in Hf. pose proof (find_none _ _ E f Hf) as Hb.
  by apply bool_decide_eq_false in Hb.
Qed.
Lemma first_with_cons h f facts :
  first_with h (f :: facts) = if has_hash h f then Some f else first_with h facts.
Proof. done. Qed.
Arguments first_with : simpl never.

Lemma wf_empty : wf ∅.
Proof. apply map_Forall_empty. Qed.
Lemma wf_insert s h f : wf s -> Hash f = Ok h -> wf (<[h := f]> s).
Proof. intros Hs Hf. by apply map_Forall_insert_2. Qed.
Lemma wf_union s other : wf s -> wf other -> wf (s ∪ other).
Proof. intros Hs Ho h f. rewrite lookup_union_Some_raw. intros [?|[_ ?]]; [by apply Hs|by apply Ho]. Qed.

(** What [add_all] does: every fact keeps the entry already present, or the first of its hash. *)
Lemma add_all_ok s facts s' : wf s -> add_all s facts = Ok s' ->
  wf s' /\ (forall h, s' !! h = match s !! h with Some g => Some g | None => first_with h facts end) /\
  (forall f, f ∈ facts -> exists h g, Hash f = Ok h /\ s' !! h = Some g /\ CanonicalPayload g = CanonicalPayload f).
Proof.
  revert s; induction facts as [|f facts IH]; intros s Hs; unfold add_all; cbn [fold_res].
  { intros E. apply Ok_inj in E as <-. split; [done|]. split; [by intros h; destruct (s !! h)|by intros f ?%elem_of_nil]. }
  rewrite bind_ok. intros (s1 & E1 & E). apply Add_ok in E1 as (h & Hf & Hcase).
  assert (Hs1 : wf s1) by (destruct Hcase as [[_ ->]|(? & _ & _ & ->)]; [by apply wf_insert|done]).
  destruct (IH s1 Hs1 E) as (Hwf & Hlook & Hall). split; [done|]. split.
  - intros k. rewrite Hlook, first_with_cons. unfold has_hash. destruct (decide (k = h)) as [->|Hne].
    + rewrite bool_decide_eq_true_2 by done.
      destruct Hcase as [[Hn ->]|(g & Hg & _ & ->)]; [by rewrite lookup_insert_eq, Hn|by rewrite Hg].
    + rewrite bool_decide_eq_false_2 by congruence.
      destruct Hcase as [[Hn ->]|(g & Hg & _ & ->)]; [by rewrite lookup_insert_ne|done].
  - intros g [->|Hg]%elem_of_cons; [|by apply Hall]. exists h.
    destruct Hcase as [[Hn ->]|(g' & Hg & Hp & ->)].
    + exists f. by rewrite Hlook, lookup_insert_eq.
    + exists g'. by rewrite Hlook, Hg.
Qed.

Lemma add_all_success s facts : wf s -> hashable facts -> coherent (range s ++ facts) ->
  exists s', add_all s facts = Ok s'.
Proof.
  revert s; induction facts as [|f facts IH]; intros s Hs Hh Hc; [by exists s|].
  destruct (Hh f ltac:(by left)) as [h Hf]. unfold add_all; cbn [fold_res].
  assert (exists s1, Add (Some s) f = Ok s1 /\ wf s1 /\ forall g, g ∈ range s1 -> g ∈ range s \/ g = f)
    as (s1 & E1 & Hs1 & Hr).
  { destruct (s !! h) as [g|] eqn:Eg.
    - exists s. split; [|split; [done|by left]]. apply Add_ok. exists h. split; [done|]. right. exists g. split; [done|].
      split; [|done]. apply (Hc g f h); [..|done].
      + apply elem_of_app. left. apply elem_range. eauto.
      + apply elem_of_app. right. by left.
      + by apply Hs.
    - exists (<[h := f]> s). split; [|split; [by apply wf_insert|]]; [apply Add_ok; eauto|].
      intros g (k & Hk)%elem_range. destruct (decide (k = h)) as [->|].
      + rewrite lookup_insert_eq in Hk. injection Hk as <-. by right.
      + rewrite lookup_insert_ne in Hk by done. left. apply elem_range. eauto. }
  rewrite E1. cbn [mbind result_bind]. apply IH; [done|intros g Hg; apply Hh; by right|].
  assert (Hin : forall g, g ∈ range s1 ++ facts -> g ∈ range s ++ f :: facts).
  { intros g [Hg|Hg]%elem_of_app; apply elem_of_app; [|by right; right].
    destruct (Hr g Hg) as [?| ->]; [by left|by right; left]. }
  intros g g' k Hg Hg'. by apply Hc; apply Hin.
Qed.

Lemma add_all_coherent s facts s' : wf s -> add_all s facts = Ok s' -> hashable facts /\ coherent (range s ++ facts).
Proof.
  intros Hs E. destruct (add_all_ok _ _ _ Hs E) as (Hwf & Hlook & Hall). split.
  { intros f Hf. destruct (Hall f Hf) as (h & g & Hh & _). eauto. }
  assert (Hrep : forall f h, f ∈ range s ++ facts -> Hash f = Ok h ->
    exists g, s' !! h = Some g /\ CanonicalPayload g = CanonicalPayload f).
  { intros f h [(k & Hk)%elem_range|Hf]%elem_of_app Hh.
    - pose proof (Hs _ _ Hk) as Hk'. cbn beta in Hk'. rewrite Hh in Hk'. apply Ok_inj in Hk' as <-.
      exists f. by rewrite Hlook, Hk.
    - destruct (Hall f Hf) as (k & g & Hk & Hg & Hp). rewrite Hh in Hk. apply Ok_inj in Hk as <-. eauto. }
  intros f g h Hf Hg Hhf Hhg. destruct (Hrep f h Hf Hhf) as (x & Hx & <-). destruct (Hrep g h Hg Hhg) as (y & Hy & <-).
  congruence.
Qed.

Lemma NewFactSet_ok facts s :
  NewFactSet facts = Ok s <-> hashable facts /\ coherent facts /\ forall h, s !! h = first_with h facts.
Proof.
  assert (Hlook : forall s', NewFactSet facts = Ok s' -> forall h, s' !! h = first_with h facts).
  { intros s' E h. destruct (add_all_ok _ _ _ wf_empty E) as (_ & Hl & _). by rewrite Hl, lookup_empty. }
  split.
  - intros E. destruct (add_all_coherent _ _ _ wf_empty E) as [Hh Hc]. split; [done|]. split; [|by apply Hlook].
    exact Hc.
  - intros (Hh & Hc & Hl). destruct (add_all_success ∅ facts wf_empty Hh) as [s' E]; [exact Hc|].
    fold (NewFactSet facts) in E. rewrite E. f_equal. apply map_eq. intros h. by rewrite Hl, Hlook.
Qed.

Lemma NewFactSet_wf facts s : NewFactSet facts = Ok s -> wf s.
Proof. intros E. by destruct (add_all_ok _ _ _ wf_empty E). Qed.

Lemma range_hash s f : wf s -> f ∈ range s -> exists h, Hash f = Ok h /\ s !! h = Some f.
Proof. intros Hs (h & Hh)%elem_range. exists h. split; [by apply Hs|done]. Qed.

Lemma first_with_range s l h : wf s -> l ≡ₚ range s -> first_with h l = s !! h.
Proof.
  intros Hs Hl. destruct (first_with h l) as [f|] eqn:E.
  - apply first_with_some in E as [Hf Hh]. rewrite Hl in Hf. destruct (range_hash s f Hs Hf) as (k & Hk & Hk').
    rewrite Hh in Hk. by apply Ok_inj in Hk as <-.
  - destruct (s !! h) as [f|] eqn:Es; [|done]. exfalso. apply (first_with_none _ _ E f); [|by apply Hs].
    rewrite Hl. apply elem_range. eauto.
Qed.

Lemma range_hashable s l : wf s -> l ≡ₚ range s -> hashable l.
Proof. intros Hs Hl f Hf. rewrite Hl in Hf. destruct (range_hash s f Hs Hf) as (h & Hh & _). eauto. Qed.

Lemma range_unique s f g h : wf s -> f ∈ range s -> g ∈ range s -> Hash f = Ok h -> Hash g = Ok h -> f = g.
Proof.
  intros Hs Hf Hg Hhf Hhg. destruct (range_hash s f Hs Hf) as (k & Hk & Hk').
  destruct (range_hash s g Hs Hg) as (k2 & Hk2 & Hk2'). rewrite Hhf in Hk. rewrite Hhg in Hk2.
  apply Ok_inj in Hk as <-. apply Ok_inj in Hk2 as <-. congruence.
Qed.

(** A set is rebuilt from its facts in any order. *)
Lemma NewFactSet_range s l : wf s -> l ≡ₚ range s -> NewFactSet l = Ok s.
Proof.
  intros Hs Hl. apply NewFactSet_ok. split; [by eapply range_hashable|]. split.
  - intros f g h Hf Hg Hhf Hhg. rewrite Hl in Hf. rewrite Hl in Hg. by rewrite (range_unique s f g h).
  - intros h. by rewrite (first_with_range s).
Qed.

Definition agree (s other : gmap string FactID) : Prop :=
  forall h f g, s !! h = Some f -> other !! h = Some g -> CanonicalPayload f = CanonicalPayload g.

(** Merging is the left-biased union, whatever order Go ranges over the argument in. *)
Lemma add_all_range s other l : wf s -> wf other -> l ≡ₚ range other ->
  (agree s other -> add_all s l = Ok (s ∪ other)) /\
  (forall s', add_all s l = Ok s' -> agree s other /\ s' = s ∪ other).
Proof.
  intros Hs Ho Hl.
  assert (Hval : forall s', add_all s l = Ok s' -> s' = s ∪ other).
  { intros s' E. destruct (add_all_ok _ _ _ Hs E) as (_ & Hlook & _). apply map_eq. intros h.
    rewrite Hlook, (first_with_range other) by done. rewrite lookup_union. by destruct (s !! h), (other !! h). }
  split.
  - intros Hag. destruct (add_all_success s l Hs) as [s' E]; [by eapply range_hashable| |by rewrite E, (Hval s' E)].
    intros f g h Hf Hg Hhf Hhg.
    assert (Hcase : forall f, f ∈ range s ++ l -> Hash f = Ok h -> s !! h = Some f \/ other !! h = Some f).
    { intros x [Hx|Hx]%elem_of_app Hhx.
      - destruct (range_hash s x Hs Hx) as (k & Hk & ?). rewrite Hhx in Hk. apply Ok_inj in Hk as <-. by left.
      - rewrite Hl in Hx. destruct (range_hash other x Ho Hx) as (k & Hk & ?). rewrite Hhx in Hk.
        apply Ok_inj in Hk as <-. by right. }
    destruct (Hcase f Hf Hhf) as [F|F], (Hcase g Hg Hhg) as [G|G].
    + congruence.
    + by eapply Hag.
    + symmetry. by eapply Hag.
    + congruence.
  - intros s' E. split; [|by apply Hval]. destruct (add_all_coherent _ _ _ Hs E) as [_ Hc].
    intros h f g Hf Hg. apply (Hc f g h); [| |by apply Hs|by apply Ho].
    + apply elem_of_app. left. apply elem_range. eauto.
    + apply elem_of_app. right. rewrite Hl. apply elem_range. eauto.
Qed.

Lemma MergeChecked_ok s other s' : wf s -> wf other ->
  MergeChecked s other = Ok s' <-> agree s other /\ s' = s ∪ other.
Proof.
  intros Hs Ho. destruct (add_all_range s other (range other) Hs Ho) as [A B]; [done|]. split; [apply B|].
  intros [Hag ->]. by apply A.
Qed.

(** ** The listing of a set *)
Definition hash_of (f : FactID) : string := match Hash f with Ok h => h | Err _ => "" end.

Definition by_hash (l : list FactID) : Prop := StronglySorted clt (map hash_of l).

Lemma omap_pairs s (l : list (string * FactID)) :
  (forall p, p ∈ l -> s !! p.1 = Some p.2) -> omap (fun h => s !! h) l.*1 = l.*2.
Proof.
  induction l as [|[h f] l IH]; intros Hl; [done|]. rewrite !fmap_cons. cbn [omap list_omap].
  rewrite (Hl (h, f)) by (by left). cbn. f_equal. apply IH. intros p Hp. apply Hl. by right.
Qed.

Lemma Values_perm s : Values s ≡ₚ range s.
Proof.
  unfold Values, range. rewrite <- (omap_pairs s).
  - by rewrite go_sort_perm.
  - intros [h f]. apply elem_of_map_to_list.
Qed.

Lemma elem_Values s f : f ∈ Values s <-> exists h, s !! h = Some f.
Proof. by rewrite Values_perm, elem_range. Qed.

Lemma Values_hashes s : wf s -> map hash_of (Values s) = go_sort (map_to_list s).*1.
Proof.
  intros Hs. unfold Values. assert (Hin : forall h, h ∈ go_sort (map_to_list s).*1 -> is_Some (s !! h)).
  { intros h. rewrite elem_go_sort, list_elem_of_fmap. intros ([k f] & -> & Hk).
    apply elem_of_map_to_list in Hk. by exists f. }
  induction (go_sort _) as [|h l IH]; [done|]. cbn [omap list_omap].
  destruct (Hin h) as [f Hf]; [by left|]. rewrite Hf. cbn [map]. f_equal; [|apply IH; intros; apply Hin; by right].
  unfold hash_of. by rewrite (Hs h f Hf).
Qed.

Lemma Values_by_hash s : wf s -> by_hash (Values s).
Proof. intros Hs. unfold by_hash. rewrite Values_hashes by done. apply go_sort_strict, NoDup_fst_map_to_list. Qed.

Lemma NewFactSet_Values s : wf s -> NewFactSet (Values s) = Ok s.
Proof. intros Hs. by apply NewFactSet_range, Values_perm. Qed.

(** ** The predicate set commitment *)
Definition atom_fact (f : FactID) : Prop := Profile f = ProfileV5 /\ Kind f = FactPredicateAtom.

Lemma member_step_ok m a m' : member_step m a = Ok m' <->
  atom_fact a /\ exists h p, Hash a = Ok h /\ CanonicalPayload a = Ok p /\
    (m !! hash_bytes h = None \/ m !! hash_bytes h = Some p) /\ m' = <[hash_bytes h := p]> m.
Proof.
  unfold member_step, atom_fact. rewrite seq_ok, fail_if_ok, orb_false_iff, !negb_false_iff, !same_true.
  apply and_iff_compat_l. rewrite bind_ok. apply exist_proper. intros h. rewrite bind_ok. split.
  - intros (Hh & p & Hp & E). exists p. split; [done|]. split; [done|].
    destruct (m !! hash_bytes h) as [q|] eqn:Eq.
    + apply fail_if_bind_ok in E as [E1%negb_false_iff E2%Ok_inj]. apply bool_decide_eq_true in E1 as ->. eauto.
    + apply Ok_inj in E. eauto.
  - intros (p & Hh & Hp & Hcase & ->). split; [done|]. exists p. split; [done|].
    destruct Hcase as [->| ->]; [done|]. by rewrite bool_decide_eq_true_2.
Qed.

Lemma members_ok atoms m0 m : fold_res member_step m0 atoms = Ok m ->
  Forall atom_fact atoms /\
  (forall a, a ∈ atoms -> exists h p, Hash a = Ok h /\ CanonicalPayload a = Ok p /\ m !! hash_bytes h = Some p) /\
  (forall b, is_Some (m !! b) <-> is_Some (m0 !! b) \/ exists a h, a ∈ atoms /\ Hash a = Ok h /\ b = hash_bytes h) /\
  (forall b p, m0 !! b = Some p -> m !! b = Some p).
Proof.
  revert m0; induction atoms as [|a atoms IH]; intros m0; cbn [fold_res].
  { intros E%Ok_inj. subst m0. split; [done|]. split; [by intros a ?%elem_of_nil|]. split; [|done].
    intros b. split; [by left|]. intros [?|(a & _ & Hin & _)]; [done|]. by apply elem_of_nil in Hin. }
  rewrite bind_ok. intros (m1 & E1 & E). apply member_step_ok in E1 as (Ha & h & p & Hh & Hp & Hcase & ->).
  destruct (IH _ E) as (Hall & Hmem & Hdom & Hkeep).
  split; [by constructor|]. split; [|split].
  - intros a' [->|Hin]%elem_of_cons; [|by apply Hmem]. exists h, p. do 2 (split; [done|]).
    apply Hkeep, lookup_insert_eq.
  - intros b. rewrite Hdom. destruct (decide (b = hash_bytes h)) as [->|Hne].
    + rewrite lookup_insert_eq. split; [|by left]. intros _. right. exists a, h. by split; [left|].
    + rewrite lookup_insert_ne by done. split; (intros [?|(a' & h' & Hin & Hh' & Hb)]; [by left|right]).
      * exists a', h'. by split; [right|].
      * apply elem_of_cons in Hin as [->|Hin]; [|by exists a', h']. exfalso. congruence.
  - intros b q Hb. apply Hkeep. destruct (decide (b = hash_bytes h)) as [->|Hne].
    + rewrite lookup_insert_eq. destruct Hcase; congruence.
    + by rewrite lookup_insert_ne.
Qed.

Lemma hash_bytes_sum x : hash_bytes (Sha256.hex_sum x) = Sha256.Sum256 x.
Proof. unfold hash_bytes, Sha256.hex_sum. by rewrite hex_decode_encode. Qed.

Lemma concat_inj (n : nat) (l k : list bytes) : n <> 0%nat ->
  Forall (fun b => length b = n) l -> Forall (fun b => length b = n) k -> concat l = concat k -> l = k.
Proof.
  intros Hn Hl; revert k; induction Hl as [|b l Hb Hl IH]; intros k Hk E.
  - destruct Hk as [|c k Hc Hk]; [done|]. destruct c; [by rewrite <- Hc in Hn|done].
  - destruct Hk as [|c k Hc Hk].
    + destruct b; [by rewrite <- Hb in Hn|done].
    + cbn in E. apply app_inj_1 in E as [-> E]; [|congruence]. f_equal. by apply IH.
Qed.

Lemma set_material_inj l k : Forall (fun b => length b = 32%nat) l -> Forall (fun b => length b = 32%nat) k ->
  set_material l = set_material k -> l = k.
Proof.
  intros Hl Hk E. unfold set_material in E. apply app_inv_head in E.
  apply app_inj_1 in E as [_ E]; [|by unfold be_uint64; rewrite !length_be_bytes]. by apply (concat_inj 32).
Qed.

Definition same_members (l k : list FactID) : Prop :=
  forall p, (exists a, a ∈ l /\ CanonicalPayload a = Ok p) <-> (exists a, a ∈ k /\ CanonicalPayload a = Ok p).

Lemma atom_material a p : atom_fact a -> hash_material a p = factDomainV5 ++ p.
Proof. intros [Hp _]. unfold hash_material, IsV2, IsV3, IsV5. by rewrite Hp. Qed.

Lemma atom_hash a h : atom_fact a -> Hash a = Ok h -> exists p, CanonicalPayload a = Ok p /\ h = Sha256.hex_sum (factDomainV5 ++ p).
Proof. intros Ha (p & Hp & ->)%Hash_ok. exists p. by rewrite atom_material. Qed.

(** The member map is determined by the payloads, and determines them up to a collision. *)
Lemma members_payloads atoms m b : fold_res member_step ∅ atoms = Ok m ->
  is_Some (m !! b) <-> exists p, (exists a, a ∈ atoms /\ CanonicalPayload a = Ok p) /\ b = Sha256.Sum256 (factDomainV5 ++ p).
Proof.
  intros E. destruct (members_ok _ _ _ E) as (Hall & Hmem & Hdom & _). rewrite Forall_forall in Hall.
  rewrite Hdom, lookup_empty. split.
  - intros [[? [=]]|(a & h & Ha & Hh & ->)]. destruct (atom_hash a h (Hall a Ha) Hh) as (p & Hp & ->).
    exists p. rewrite hash_bytes_sum. eauto.
  - intros (p & (a & Ha & Hp) & ->). right. destruct (Hmem a Ha) as (h & q & Hh & _). exists a, h. do 2 (split; [done|]).
    destruct (atom_hash a h (Hall a Ha) Hh) as (p' & Hp' & ->). rewrite Hp in Hp'. apply Ok_inj in Hp' as <-.
    by rewrite hash_bytes_sum.
Qed.

Lemma PredicateSetHashV1_ok atoms d : PredicateSetHashV1 atoms = Ok d <->
  exists m, fold_res member_step ∅ atoms = Ok m /\ d = Sha256.hex_sum (set_material (go_sort (map_to_list m).*1)).
Proof.
  unfold PredicateSetHashV1. rewrite bind_ok. apply exist_proper. intros m. apply and_iff_compat_l.
  split; [by intros ?%Ok_inj|by intros ->].
Qed.

Lemma elem_keys `{Countable K} {V} (m : gmap K V) (b : K) : b ∈ (map_to_list m).*1 <-> is_Some (m !! b).
Proof.
  rewrite list_elem_of_fmap. split.
  - intros ([k v] & -> & Hk%elem_of_map_to_list). by exists v.
  - intros [v Hv]. exists (b, v). split; [done|]. by apply elem_of_map_to_list.
Qed.

Lemma sorted_keys_ext (m m' : gmap bytes bytes) :
  (forall b, is_Some (m !! b) <-> is_Some (m' !! b)) -> go_sort (map_to_list m).*1 = go_sort (map_to_list m').*1.
Proof.
  intros Hd. apply strict_sorted_ext; [apply go_sort_strict, NoDup_fst_map_to_list..|].
  intros b. by rewrite !elem_go_sort, !elem_keys.
Qed.

(** The byte strings hashed for the facts of a list, and for its commitment. *)
Definition fact_materials (l : list FactID) : list bytes :=
  flat_map (fun f => match CanonicalPayload f with Ok p => [hash_material f p] | Err _ => [] end) l.
Definition set_materials (atoms : list FactID) : list bytes :=
  match fold_res member_step ∅ atoms with
  | Ok m => [set_material (go_sort (map_to_list m).*1)]
  | Err _ => []
  end ++ fact_materials atoms.

Lemma elem_fact_materials l f p : f ∈ l -> CanonicalPayload f = Ok p -> hash_material f p ∈ fact_materials l.
Proof.
  intros Hf Hp. unfold fact_materials. apply list_elem_of_In, in_flat_map. exists f.
  split; [by apply list_elem_of_In|]. rewrite Hp. by left.
Qed.

Definition members_within (l k : list FactID) : Prop :=
  forall p, (exists a, a ∈ l /\ CanonicalPayload a = Ok p) -> exists a, a ∈ k /\ CanonicalPayload a = Ok p.

Lemma members_covered atoms atoms' m m' :
  fold_res member_step ∅ atoms = Ok m -> fold_res member_step ∅ atoms' = Ok m' ->
  (forall b, is_Some (m !! b) -> is_Some (m' !! b)) -> members_within atoms atoms' \/ Sha256.collides (fact_materials atoms) (fact_materials atoms').
Proof.
  intros E E' Hk.
  destruct (decide (Forall (fun a => Exists (fun a' => CanonicalPayload a = CanonicalPayload a') atoms') atoms)) as [Hall|Hn].
  - left. rewrite Forall_forall in Hall. intros p (a & Ha & Hp). specialize (Hall a Ha).
    apply Exists_exists in Hall as (a' & Ha' & Heq). exists a'. by rewrite <- Heq.
  - right. apply not_Forall_Exists in Hn; [|apply _]. apply Exists_exists in Hn as (a & Ha & Hno).
    destruct (members_ok _ _ _ E) as (_ & Hmem & _). destruct (Hmem a Ha) as (h & p & _ & Hp & _).
    destruct (Hk (Sha256.Sum256 (factDomainV5 ++ p))) as [q Hq]; [apply (members_payloads _ _ _ E); eauto|].
    assert (is_Some (m' !! Sha256.Sum256 (factDomainV5 ++ p))) as S by eauto.
    apply (members_payloads _ _ _ E') in S as (p' & (a' & Ha' & Hp') & Heq).
    destruct (members_ok _ _ _ E) as (Hat & _). destruct (members_ok _ _ _ E') as (Hat' & _).
    rewrite Forall_forall in Hat, Hat'.
    exists (factDomainV5 ++ p), (factDomainV5 ++ p').
    split; [rewrite <- (atom_material a) by auto; by apply elem_fact_materials|].
    split; [rewrite <- (atom_material a') by auto; by apply elem_fact_materials|]. split; [|done].
    intros Epp%app_inv_head. apply Hno, Exists_exists. exists a'. split; [done|]. congruence.
Qed.

(** The predicate set digest commits to the set of atoms and to nothing else:
    it does not depend on the order in which atoms are listed or on repetitions,
    and two lists with one digest hold the same atoms, or two of the byte strings
    hashed for them collide. *)
Theorem predicate_set_binding atoms atoms' d d' :
  PredicateSetHashV1 atoms = Ok d -> PredicateSetHashV1 atoms' = Ok d' ->
  (same_members atoms atoms' -> d = d') /\ (d = d' -> same_members atoms atoms' \/ Sha256.collides (set_materials atoms) (set_materials atoms')).
Proof.
  rewrite !PredicateSetHashV1_ok. intros (m & E & ->) (m' & E' & ->).
  assert (Hsub : forall l, fact_materials l ⊆ set_materials l) by (intros l x Hx; apply elem_of_app; by right).
  pose proof (fun b => members_payloads _ _ b E) as M. pose proof (fun b => members_payloads _ _ b E') as M'.
  assert (H32 : forall m, (forall b, is_Some (m !! b) -> length b = 32%nat) ->
    Forall (fun b : bytes => length b = 32%nat) (go_sort (map_to_list (m : gmap bytes bytes)).*1)).
  { intros k Hk. apply Forall_forall. intros b. rewrite elem_go_sort, elem_keys. apply Hk. }
  split.
  - intros Hsame. do 2 f_equal. apply sorted_keys_ext. intros b. rewrite M, M'.
    split; intros (p & Hp & Hb); exists p; (split; [by apply Hsame|done]).
  - intros Heq. apply Sha256.hex_sum_eq in Heq as [Em|Hcol].
    2:{ right. revert Hcol. unfold set_materials. rewrite E, E'.
        apply Sha256.collides_sub; intros x Hx; apply elem_of_app; by left. }
    apply set_material_inj in Em; [|apply H32; intros b (p & _ & ->)%M; apply Sha256.length_Sum256
                                    |apply H32; intros b (p & _ & ->)%M'; apply Sha256.length_Sum256].
    assert (Hk : forall b, is_Some (m !! b) <-> is_Some (m' !! b)).
    { intros b. by rewrite <- !elem_keys, <- (elem_go_sort b), Em, elem_go_sort. }
    destruct (members_covered _ _ m m' E E' (fun b => proj1 (Hk b))) as [C|Hcol];
      [|right; exact (Sha256.collides_sub _ _ _ _ (Hsub _) (Hsub _) Hcol)].
    destruct (members_covered _ _ m' m E' E (fun b => proj2 (Hk b))) as [C'|Hcol%Sha256.collides_sym];
      [|right; exact (Sha256.collides_sub _ _ _ _ (Hsub _) (Hsub _) Hcol)].
    left. intros p. split; [apply C|apply C'].
Qed.

(** ** The normal form of an observation *)
Lemma Normalize_ok o n : Normalize o = Ok n <->
  invalidToken (ProfileVersion o) = false /\
  exists r i u, NewFactSet (Release o) = Ok r /\ NewFactSet (Influence o) = Ok i /\ NewFactSet (Outcome o) = Ok u /\
    check_all (check_fact (ProfileVersion o)) (range r) = Ok tt /\
    check_all (check_fact (ProfileVersion o)) (range i) = Ok tt /\
    check_outcome (ProfileVersion o) u = Ok tt /\
    n = MkObservation (ProfileVersion o) (Values r) (Values i) (Values u).
Proof.
  unfold Normalize. rewrite fail_if_bind_ok. apply and_iff_compat_l.
  rewrite bind_ok. apply exist_proper. intros r. split.
  - intros [Er E]. apply bind_ok in E as (i & Ei & E). apply bind_ok in E as (u & Eu & E).
    apply seq_ok in E as [Cr E]. apply seq_ok in E as [Ci E]. apply seq_ok in E as [Cu E]. apply Ok_inj in E as <-.
    exists i, u. tauto.
  - intros (i & u & Er & Ei & Eu & Cr & Ci & Cu & ->). split; [done|]. rewrite Ei. cbn [mbind result_bind].
    rewrite Eu. cbn [mbind result_bind]. rewrite Cr. cbn [mbind result_bind]. rewrite Ci. cbn [mbind result_bind].
    by rewrite Cu.
Qed.

(** [k] lists the facts of [l] once each: in hash order, one fact of [l] for each payload in [l]. *)
Definition lists (l k : list FactID) : Prop :=
  by_hash k /\ (forall g, g ∈ k -> g ∈ l) /\
  (forall f, f ∈ l -> exists g, g ∈ k /\ Hash g = Hash f /\ CanonicalPayload g = CanonicalPayload f).

Lemma NewFactSet_lists l s : NewFactSet l = Ok s -> lists l (Values s).
Proof.
  intros E. pose proof (NewFactSet_wf _ _ E) as Hs. pose proof (proj1 (NewFactSet_ok _ _) E) as (Hh & Hc & Hl).
  split; [by apply Values_by_hash|]. split.
  - intros g (h & Hg)%elem_Values. rewrite Hl in Hg. by destruct (first_with_some _ _ _ Hg).
  - intros f Hf. destruct (Hh f Hf) as [h Hfh]. destruct (first_with h l) as [g|] eqn:Eg.
    + exists g. split; [apply elem_Values; exists h; by rewrite Hl|]. apply first_with_some in Eg as [Hg Hgh].
      rewrite Hfh, Hgh. split; [done|]. by apply (Hc g f h).
    + by destruct (first_with_none _ _ Eg f Hf).
Qed.

Lemma lists_hashes l l' k k' : lists l k -> lists l' k' -> (forall f, f ∈ l <-> f ∈ l') ->
  map hash_of k = map hash_of k'.
Proof.
  intros (Sk & Ik & Ck) (Sk' & Ik' & Ck') Hll. apply strict_sorted_ext; [done..|].
  assert (Hsub : forall l l' k k' : list FactID, (forall g, g ∈ k -> g ∈ l) ->
    (forall f, f ∈ l' -> exists g, g ∈ k' /\ Hash g = Hash f /\ CanonicalPayload g = CanonicalPayload f) ->
    (forall f, f ∈ l -> f ∈ l') -> forall h : string, h ∈ map hash_of k -> h ∈ map hash_of k').
  { clear. intros l l' k k' Ik Ck Hll h (f & -> & Hf)%list_elem_of_fmap. destruct (Ck f (Hll f (Ik f Hf))) as (g & Hg & Hh & _).
    apply list_elem_of_fmap. exists g. split; [|done]. unfold hash_of. by rewrite Hh. }
  intros h. split; [apply (Hsub l l')|apply (Hsub l' l)]; try done; intros f; apply Hll.
Qed.

(** The normal form: each list of an accepted observation is in strict hash
    order and holds, once, every fact of the given list; normalising again
    changes nothing; and the hashes listed depend only on which facts were
    given, not on their order or repetitions. *)
Theorem normalize_canonical o n : Normalize o = Ok n ->
  ProfileVersion n = ProfileVersion o /\
  lists (Release o) (Release n) /\ lists (Influence o) (Influence n) /\ lists (Outcome o) (Outcome n) /\
  Normalize n = Ok n /\
  forall o' n', Normalize o' = Ok n' -> (forall f, f ∈ Release o <-> f ∈ Release o') ->
    map hash_of (Release n) = map hash_of (Release n').
Proof.
  intros Hn. pose proof (proj1 (Normalize_ok _ _) Hn) as (Hp & r & i & u & Er & Ei & Eu & Cr & Ci & Cu & ->).
  split; [done|]. do 3 (split; [by apply NewFactSet_lists|]). split.
  - apply Normalize_ok. split; [done|]. exists r, i, u. cbn [ProfileVersion Release Influence Outcome].
    rewrite (NewFactSet_Values r), (NewFactSet_Values i), (NewFactSet_Values u) by eauto using NewFactSet_wf. tauto.
  - intros o' n' (_ & r' & i' & u' & Er' & _ & _ & _ & _ & _ & ->)%Normalize_ok Hs.
    by apply (lists_hashes (Release o) (Release o')); [apply NewFactSet_lists..|].
Qed.

(** *** The V5 outcome *)
Lemma outcome_fold l a0 c0 a1 c1 : fold_res outcome_step (a0, c0) l = Ok (a1, c1) ->
  option_list c0 ++ a0 ++ l ≡ₚ option_list c1 ++ a1 /\
  (Forall (fun f => is_atom f = true) a0 -> Forall (fun f => is_atom f = true) a1) /\
  (Forall (fun f => is_composite f = true) (option_list c0) -> Forall (fun f => is_composite f = true) (option_list c1)).
Proof.
  revert a0 c0; induction l as [|f l IH]; intros a0 c0; cbn [fold_res].
  { intros E%Ok_inj. injection E as <- <-. by rewrite app_nil_r. }
  rewrite bind_ok. intros ([a c] & E1 & E). destruct (IH _ _ E) as (Hp & Ha & Hc). unfold outcome_step in E1.
  destruct (is_atom f) eqn:Ef.
  { apply Ok_inj in E1. injection E1 as <- <-. split; [|split; [|done]].
    - rewrite <- Hp. by rewrite <- (assoc_L app a0).
    - intros Ha0. apply Ha, Forall_app. by split; [|constructor]. }
  destruct (is_composite f && bool_decide (c0 = None)) eqn:Ec; [|done]. apply Ok_inj in E1. injection E1 as <- <-.
  apply andb_true_iff in Ec as [Ec ->%bool_decide_eq_true]. split; [|split; [done|]].
  - rewrite <- Hp. change (a0 ++ f :: l ≡ₚ f :: a0 ++ l). by rewrite Permutation_middle.
  - intros _. apply Hc. by constructor.
Qed.

(** What an accepted V5 observation accounts: its outcome is exactly one
    composite fact and the atoms it counts, whose set it commits to and whose
    context it shares; everything released or depended on is a V2 fact. *)
Theorem normalize_v5 o n : Normalize o = Ok n -> ProfileVersion o = ProfileV5 ->
  Forall (fun f => IsV2 f = true) (Release n ++ Influence n) /\
  exists atoms composite,
    Outcome n ≡ₚ composite :: atoms /\ is_composite composite = true /\ Forall (fun f => is_atom f = true) atoms /\
    PredicateAtomCount composite = Z.of_nat (length atoms) /\
    PredicateSetHashV1 atoms = Ok (PredicateSetSHA256 composite) /\
    Forall (fun a => PredicateContextSHA256 a = PredicateContextSHA256 composite) atoms.
Proof.
  intros (_ & r & i & u & Er & Ei & Eu & Cr & Ci & Cu & ->)%Normalize_ok Hp.
  cbn [Release Influence Outcome]. rewrite Hp in *. split.
  - rewrite !Values_perm. apply Forall_app.
    assert (Hv2 : forall l, check_all (check_fact ProfileV5) l = Ok tt -> Forall (fun f => IsV2 f = true) l).
    { intros l. rewrite check_all_ok. intros Hl. eapply Forall_impl; [exact Hl|]. intros f. cbn beta. unfold check_fact.
      rewrite seq_ok, !fail_if_ok. intros [Hf _]. by apply negb_false_iff. }
    split; by apply Hv2.
  - unfold check_outcome in Cu. apply seq_ok in Cu as [Cu _]. rewrite (proj2 (same_true _ _)) in Cu by done.
    unfold check_outcome_v5 in Cu. apply bind_ok in Cu as ([atoms [c|]] & Ef & Cu); [|done].
    destruct (outcome_fold _ _ _ _ _ Ef) as (Hperm & Ha & Hc). exists atoms, c.
    apply fail_if_bind_ok in Cu as [G1 Cu]. apply orb_false_iff in G1 as [_ G1%negb_false_iff%Z.eqb_eq].
    apply fail_if_bind_ok in Cu as [G2 Cu]. rewrite check_all_ok in Cu.
    split; [by rewrite Values_perm|]. split; [specialize (Hc (Forall_nil_2 _)); by inversion Hc|].
    split; [by apply Ha|]. split; [done|]. split.
    + destruct (PredicateSetHashV1 atoms) as [d|]; [|done]. by apply negb_false_iff, same_true in G2 as ->.
    + eapply Forall_impl; [exact Cu|]. intros a. cbn. by rewrite fail_if_ok, negb_false_iff, same_true.
Qed.

(** ** Merging observations *)
Inductive part := PRelease | PInfluence | POutcome.
Definition facts_of (p : part) (o : Observation) : list FactID :=
  match p with PRelease => Release o | PInfluence => Influence o | POutcome => Outcome o end.
Definition part_of (p : part) (st : FactSet * FactSet * FactSet) : FactSet :=
  match p with PRelease => st.1.1 | PInfluence => st.1.2 | POutcome => st.2 end.
#[export] Instance part_eq_dec : EqDecision part.
Proof. solve_decision. Defined.

Definition parts_wf (st : FactSet * FactSet * FactSet) : Prop := forall p, wf (part_of p st).

Lemma set_of_wf l : wf (set_of l).
Proof. unfold set_of. destruct (NewFactSet l) eqn:E; [by eapply NewFactSet_wf|apply wf_empty]. Qed.

Lemma MergeChecked_wf s other s' : wf s -> wf other -> MergeChecked s other = Ok s' -> wf s' /\ s' = s ∪ other.
Proof. intros Hs Ho [_ ->]%MergeChecked_ok; [|done..]. split; [by apply wf_union|done]. Qed.

Lemma merge_step_ok profile st o st' : parts_wf st -> merge_step profile st o = Ok st' ->
  parts_wf st' /\ exists n, Normalize o = Ok n /\ ProfileVersion n = profile /\
    forall p, part_of p st' = part_of p st ∪ set_of (facts_of p n).
Proof.
  intros Hw E. destruct st as [[r i] u]. cbn [merge_step] in E. apply bind_ok in E as (n & En & E).
  apply fail_if_bind_ok in E as [Hp%negb_false_iff%same_true E].
  apply bind_ok in E as (r' & Er & E). apply bind_ok in E as (i' & Ei & E). apply bind_ok in E as (u' & Eu & E).
  apply Ok_inj in E as <-.
  apply MergeChecked_wf in Er as [Wr Er]; [|apply (Hw PRelease)|apply set_of_wf].
  apply MergeChecked_wf in Ei as [Wi Ei]; [|apply (Hw PInfluence)|apply set_of_wf].
  apply MergeChecked_wf in Eu as [Wu Eu]; [|apply (Hw POutcome)|apply set_of_wf].
  split; [by intros []|]. exists n. split; [done|]. split; [done|]. by intros [].
Qed.

Lemma set_of_normal o n p h : Normalize o = Ok n ->
  is_Some (set_of (facts_of p n) !! h) <-> h ∈ map hash_of (facts_of p n).
Proof.
  intros (_ & r & i & u & Er & Ei & Eu & _ & _ & _ & ->)%Normalize_ok.
  assert (Hcase : exists s, wf s /\ facts_of p (MkObservation (ProfileVersion o) (Values r) (Values i) (Values u)) = Values s)
    by (destruct p; eauto using NewFactSet_wf).
  destruct Hcase as (s & Hs & ->). unfold set_of. rewrite NewFactSet_Values by done.
  by rewrite Values_hashes, elem_go_sort, elem_keys.
Qed.

Lemma merge_fold_ok profile st os st' : parts_wf st -> fold_res (merge_step profile) st os = Ok st' ->
  parts_wf st' /\ (forall o, o ∈ os -> exists n, Normalize o = Ok n /\ ProfileVersion n = profile) /\
  forall p h, is_Some (part_of p st' !! h) <-> is_Some (part_of p st !! h) \/
    exists o n, o ∈ os /\ Normalize o = Ok n /\ h ∈ map hash_of (facts_of p n).
Proof.
  revert st; induction os as [|o os IH]; intros st Hw; cbn [fold_res].
  { intros E%Ok_inj. subst st'. split; [done|]. split; [by intros o ?%elem_of_nil|]. intros p h.
    split; [by left|]. intros [?|(o & n & Ho & _)]; [done|]. by apply elem_of_nil in Ho. }
  rewrite bind_ok. intros (st1 & E1 & E). apply merge_step_ok in E1 as (Hw1 & n & En & Hp & Hparts); [|done].
  destruct (IH st1 Hw1 E) as (Hw' & Hall & Hin). split; [done|]. split.
  - intros o' [->|Ho]%elem_of_cons; [by exists n|by apply Hall].
  - intros p h. rewrite Hin, Hparts, lookup_union_is_Some, (set_of_normal o n p h En). split.
    + intros [[?|?]|(o' & n' & Ho & ?)]; [by left|right; exists o, n; by split; [left|]|].
      right. exists o', n'. by split; [right|].
    + intros [?|(o' & n' & [->|Ho]%elem_of_cons & En' & Hh)]; [by left; left| |right; eauto].
      rewrite En in En'. apply Ok_inj in En' as <-. left; by right.
Qed.

Lemma MergeObservations_ok profile os m : MergeObservations profile os = Ok m ->
  ProfileVersion m = profile /\ (forall o, o ∈ os -> exists n, Normalize o = Ok n /\ ProfileVersion n = profile) /\
  forall p, by_hash (facts_of p m) /\
    forall h, h ∈ map hash_of (facts_of p m) <-> exists o n, o ∈ os /\ Normalize o = Ok n /\ h ∈ map hash_of (facts_of p n).
Proof.
  unfold MergeObservations. intros E. apply bind_ok in E as ([[r i] u] & Ef & E). apply Ok_inj in E as <-.
  apply merge_fold_ok in Ef as (Hw & Hall & Hin); [|intros []; apply wf_empty].
  split; [done|]. split; [done|]. intros p.
  assert (facts_of p (MkObservation profile (Values r) (Values i) (Values u)) = Values (part_of p (r, i, u))) as -> by by destruct p.
  split; [by apply Values_by_hash|]. intros h. rewrite Values_hashes by done. rewrite elem_go_sort, elem_keys, Hin.
  assert (part_of p (∅, ∅, ∅) = ∅) as -> by by destruct p. rewrite lookup_empty. split; [|by right].
  intros [[? [=]]|?]; done.
Qed.

(** Merging observations accounts each fact once: the hashes of the merged
    lists are exactly those of the normalised observations merged, in every
    part, so neither the order of the observations nor the facts they share
    changes what is accounted; and a merged observation of another profile, or
    one that does not normalise, is refused. *)
Theorem merge_union profile os m : MergeObservations profile os = Ok m ->
  (forall o, o ∈ os -> exists n, Normalize o = Ok n /\ ProfileVersion n = profile) /\
  (forall p, by_hash (facts_of p m) /\
    forall h, h ∈ map hash_of (facts_of p m) <-> exists o n, o ∈ os /\ Normalize o = Ok n /\ h ∈ map hash_of (facts_of p n)) /\
  forall os' m', (forall o, o ∈ os <-> o ∈ os') -> MergeObservations profile os' = Ok m' ->
    forall p, map hash_of (facts_of p m) = map hash_of (facts_of p m').
Proof.
  intros E. destruct (MergeObservations_ok _ _ _ E) as (_ & Hall & Hin). split; [done|]. split; [done|].
  intros os' m' Hos E' p. destruct (MergeObservations_ok _ _ _ E') as (_ & _ & Hin').
  destruct (Hin p) as [Hs Hh]. destruct (Hin' p) as [Hs' Hh']. apply strict_sorted_ext; [done..|]. intros h. rewrite Hh, Hh'.
  split; intros (o & n & Ho & ?); exists o, n; (split; [by apply Hos|done]).
Qed.

(** ** The release digest *)
Definition v2_payload (f : FactID) (p : bytes) : Prop := IsV2 f = true /\ CanonicalPayload f = Ok p.

Lemma release_fold acc l m : fold_res release_step acc l = Ok m <->
  exists ps, Forall2 v2_payload l ps /\ m = acc ++ flat_map be_field ps.
Proof.
  revert acc; induction l as [|f l IH]; intros acc; cbn [fold_res].
  { split; [intros E%Ok_inj; exists []; cbn; by rewrite app_nil_r|].
    intros (ps & ->%Forall2_nil_inv_l & ->). cbn. by rewrite app_nil_r. }
  rewrite bind_ok. unfold release_step at 1. split.
  - intros (acc' & E1 & E). apply fail_if_bind_ok in E1 as [Hv%negb_false_iff E1]. apply bind_ok in E1 as (p & Hp & E1).
    apply Ok_inj in E1 as <-. apply IH in E as (ps & Hps & ->). exists (p :: ps). split; [by constructor|].
    cbn. by rewrite <- app_assoc.
  - intros (ps' & Hps & ->). apply Forall2_cons_inv_l in Hps as (p & ps & [Hv Hp] & Hps & ->).
    exists (acc ++ be_field p). split; [rewrite Hv; cbn; by rewrite Hp|]. apply IH. exists ps. split; [done|].
    cbn. by rewrite <- app_assoc.
Qed.

Lemma be_field_length p : (8 <= length (be_field p))%nat.
Proof. unfold be_field, be_uint64. rewrite length_app, length_be_bytes. lia. Qed.

Lemma fields_inj ps qs : Forall go_bytes ps -> Forall go_bytes qs ->
  flat_map be_field ps = flat_map be_field qs -> ps = qs.
Proof.
  intros Hp; revert qs; induction Hp as [|p ps Hp _ IH]; intros [|q qs] Hq E; [done|..].
  - apply (f_equal length) in E. cbn in E. rewrite length_app in E. pose proof (be_field_length q). lia.
  - apply (f_equal length) in E. cbn in E. rewrite length_app in E. pose proof (be_field_length p). lia.
  - inversion_clear Hq. cbn in E. apply be_field_inj in E as [-> E]; [|done..]. f_equal. by apply IH.
Qed.

Lemma v2_hash f p : v2_payload f p -> hash_of f = Sha256.hex_sum (factDomainV2 ++ p).
Proof. intros [Hv Hp]. unfold hash_of, Hash. rewrite Hp. cbn. unfold hash_material. by rewrite Hv. Qed.

Lemma ReleaseOutcomeDigest_ok release rows d : ReleaseOutcomeDigest release rows = Ok d ->
  0 <= rows /\ exists s ps, NewFactSet release = Ok s /\ Forall2 v2_payload (Values s) ps /\
    d = Sha256.hex_sum (outcomeDigestDomainV1 ++ be_uint64 rows ++ be_uint64 (Z.of_nat (length ps)) ++ flat_map be_field ps).
Proof.
  unfold ReleaseOutcomeDigest, release_material. intros E. apply fail_if_bind_ok in E as [Hr%Z.ltb_ge E]. split; [done|].
  apply bind_ok in E as (m & Em & E). apply Ok_inj in E as <-. apply bind_ok in Em as (s & Es & Em).
  apply release_fold in Em as (ps & Hps & ->). exists s, ps. split; [done|]. split; [done|].
  rewrite <- (Forall2_length _ _ _ Hps), <- !app_assoc. done.
Qed.

(** The payloads of a set are those of the list it was built from. *)
Lemma payloads_of_list release s ps p : NewFactSet release = Ok s -> Forall2 v2_payload (Values s) ps ->
  p ∈ ps <-> exists f, f ∈ release /\ CanonicalPayload f = Ok p.
Proof.
  intros Es Hps. destruct (NewFactSet_lists _ _ Es) as (_ & Hin & Hall). split.
  - intros (i & Hi)%list_elem_of_lookup. destruct (Forall2_lookup_r _ _ _ _ _ Hps Hi) as (f & Hf & _ & Hp).
    exists f. split; [|done]. by apply Hin, (list_elem_of_lookup_2 _ i).
  - intros (f & Hf & Hp). destruct (Hall f Hf) as (g & Hg & _ & Eg). apply list_elem_of_lookup in Hg as (i & Hi).
    destruct (Forall2_lookup_l _ _ _ _ _ Hps Hi) as (q & Hq & _ & Hgq). rewrite Eg, Hp in Hgq.
    apply Ok_inj in Hgq as <-. by apply (list_elem_of_lookup_2 _ i).
Qed.

Definition payload_hash (p : bytes) : string := Sha256.hex_sum (factDomainV2 ++ p).

Lemma payloads_sorted s ps : wf s -> Forall2 v2_payload (Values s) ps -> StronglySorted clt (map payload_hash ps).
Proof.
  intros Hs Hps. replace (map payload_hash ps) with (map hash_of (Values s)); [by apply Values_by_hash|].
  induction Hps as [|f p l ps Hf _ IH]; [done|]. cbn [map]. f_equal; [by apply v2_hash|done].
Qed.

Lemma sorted_payloads_ext ps qs : StronglySorted clt (map payload_hash ps) -> StronglySorted clt (map payload_hash qs) ->
  (forall p, p ∈ ps <-> p ∈ qs) -> ps = qs.
Proof.
  assert (Hmap : forall ps, StronglySorted clt (map payload_hash ps) ->
    StronglySorted (fun p q => clt (payload_hash p) (payload_hash q)) ps).
  { clear. intros ps. induction ps as [|p ps IH]; intros Hs; [constructor|]. inversion_clear Hs as [|?? Hs' Hall].
    constructor; [by apply IH|]. exact (proj1 (List.Forall_map _ _ _) Hall). }
  intros Hp Hq. apply (strongly_sorted_ext (fun p q => clt (payload_hash p) (payload_hash q))); [| |by apply Hmap..].
  - intros p. apply clt_irrefl.
  - intros p q r. apply clt_trans.
Qed.

(** The byte string hashed for a release digest. *)
Definition release_bytes (release : list FactID) (rows : Z) : list bytes :=
  match release_material release rows with Ok b => [b] | Err _ => [] end.

Lemma ReleaseOutcomeDigest_material release rows d : ReleaseOutcomeDigest release rows = Ok d ->
  exists m, release_bytes release rows = [m] /\ d = Sha256.hex_sum m.
Proof.
  unfold ReleaseOutcomeDigest, release_bytes. intros E. apply fail_if_bind_ok in E as [_ E].
  apply bind_ok in E as (m & -> & E). apply Ok_inj in E. by exists m.
Qed.

Definition go_payloads (l : list FactID) : Prop :=
  Forall (fun f => forall p, CanonicalPayload f = Ok p -> go_bytes p) l.

(** The release digest commits to the visible row count and to the set of
    released facts, not to the order or the repetitions of the list. *)
Lemma release_digest_binding release release' rows rows' d d' :
  rows <= max_int64 -> rows' <= max_int64 -> go_payloads release -> go_payloads release' ->
  ReleaseOutcomeDigest release rows = Ok d -> ReleaseOutcomeDigest release' rows' = Ok d' ->
  (rows = rows' /\ same_members release release' -> d = d') /\
  (d = d' -> rows = rows' /\ same_members release release' \/
             Sha256.collides (release_bytes release rows) (release_bytes release' rows')).
Proof.
  intros Hmax Hmax' Hgo Hgo' E E'. pose proof (ReleaseOutcomeDigest_material _ _ _ E) as (b & Hb & Db).
  pose proof (ReleaseOutcomeDigest_material _ _ _ E') as (b' & Hb' & Db'). rewrite Hb, Hb'.
  apply ReleaseOutcomeDigest_ok in E as (Hr & s & ps & Es & Hps & ->).
  apply ReleaseOutcomeDigest_ok in E' as (Hr' & s' & ps' & Es' & Hps' & ->).
  pose proof (fun p => payloads_of_list _ _ _ p Es Hps) as In. pose proof (fun p => payloads_of_list _ _ _ p Es' Hps') as In'.
  split.
  - intros [-> Hsame]. assert (ps = ps') as ->; [|done].
    apply sorted_payloads_ext; [apply (payloads_sorted s)|apply (payloads_sorted s')|]; try done;
      [by eapply NewFactSet_wf..|]. intros p. by rewrite In, In'.
  - set (x := _ ++ _). set (y := outcomeDigestDomainV1 ++ be_uint64 rows' ++ _). intros Heq.
    assert (Hm : b = x /\ b' = y).
    { unfold release_bytes, release_material in Hb, Hb'. rewrite Es in Hb. rewrite Es' in Hb'. cbn [mbind result_bind] in Hb, Hb'.
      assert (Hf : forall s ps acc, Forall2 v2_payload (Values s) ps ->
        fold_res release_step acc (Values s) = Ok (acc ++ flat_map be_field ps)) by (intros; apply release_fold; eauto).
      rewrite (Hf s ps) in Hb by done. rewrite (Hf s' ps') in Hb' by done.
      rewrite (Forall2_length _ _ _ Hps), <- !app_assoc in Hb. rewrite (Forall2_length _ _ _ Hps'), <- !app_assoc in Hb'.
      split; [injection Hb as <-|injection Hb' as <-]; done. }
    destruct Hm as [-> ->]. apply Sha256.hex_sum_eq in Heq as [Exy|]; [left; unfold x, y in Exy|by right].
    apply app_inv_head in Exy. unfold max_int64 in *. apply be_bytes_app_inj in Exy as [-> Exy]; [|lia..].
    split; [done|].
    assert (Hgb : forall l k, go_payloads l -> (forall p, p ∈ k -> exists f, f ∈ l /\ CanonicalPayload f = Ok p) -> Forall go_bytes k).
    { clear. intros l k Hgo Hk. apply Forall_forall. intros p Hp. destruct (Hk p Hp) as (f & Hf & E).
      unfold go_payloads in Hgo. rewrite Forall_forall in Hgo. by apply (Hgo f). }
    apply app_inj_1 in Exy as [El Exy]; [|unfold be_uint64; by rewrite !length_be_bytes].
    apply fields_inj in Exy as ->.
    + intros p. by rewrite <- In, In'.
    + apply (Hgb release); [done|]. intros p. apply In.
    + apply (Hgb release'); [done|]. intros p. apply In'.
Qed.

Lemma attachOutcome_ok o target version nf rows n : attachOutcome o target version nf rows = Ok n ->
  exists n0 d, Normalize o = Ok n0 /\ ReleaseOutcomeDigest (Release n0) rows = Ok d /\
    Validate (outcome_fact version nf d rows) = Ok tt /\
    n = MkObservation target (Release n0) (Influence n0) [outcome_fact version nf d rows].
Proof.
  unfold attachOutcome. intros E. do 3 (apply fail_if_bind_ok in E as [_ E]). apply bind_ok in E as (n0 & En & E).
  apply bind_ok in E as (d & Ed & E). apply bind_ok in E as (f & Ef & E). unfold NewOutcomeFactV3 in Ef.
  apply seq_ok in Ef as [Hv Ef]. apply Ok_inj in Ef as <-. exists n0, d. do 3 (split; [done|]).
  apply Normalize_ok in En as (_ & r & i & u & Er & Ei & _ & _ & _ & _ & ->).
  apply Normalize_ok in E as (_ & r' & i' & u' & Er' & Ei' & Eu & _ & _ & _ & ->). cbn [Release Influence Outcome ProfileVersion] in *.
  rewrite NewFactSet_Values in Er' by (by eapply NewFactSet_wf). rewrite NewFactSet_Values in Ei' by (by eapply NewFactSet_wf).
  apply Ok_inj in Er' as <-. apply Ok_inj in Ei' as <-. f_equal.
  unfold NewFactSet, add_all in Eu. cbn [fold_res] in Eu. apply bind_ok in Eu as (s & Ea & Eu). apply Ok_inj in Eu as <-.
  apply Add_ok in Ea as (h & _ & [[_ ->]|(g & Hg & _)]); [|by rewrite lookup_empty in Hg].
  apply (Permutation_length_1_inv (a := outcome_fact version nf d rows)). rewrite Values_perm. unfold range.
  rewrite map_to_list_insert by apply lookup_empty.
  by rewrite map_to_list_empty.
Qed.

(** The byte strings hashed for an outcome. *)
Definition outcome_materials (n : Observation) (rows : Z) : list bytes :=
  release_bytes (Release n) rows ++ fact_materials (Outcome n).

Lemma outcome_fact_go version nf d rows : go_string version -> go_string nf -> valid_sha256_text d = true -> rows <= max_int64 ->
  go_fact (outcome_fact version nf d rows).
Proof.
  intros Hv Hn Hd Hr. assert (go_string d) as Hgd.
  { unfold valid_sha256_text in Hd. apply andb_true_iff in Hd as [Hd _].
    apply negb_true_iff, orb_false_iff in Hd as [Hd%negb_false_iff%Z.eqb_eq _]. unfold go_string, max_int64. lia. }
  assert (forall s : string, (String.length s < 32)%nat -> go_string s) as Hs by (intros s Hs; unfold go_string, str_len, max_int64; lia).
  unfold go_fact, outcome_fact. cbn -[max_int64 Z.le]. split; [|split; [constructor|unfold max_int64 in *; cbn; lia]].
  repeat (apply Forall_cons; split; [first [assumption|apply Hs; vm_compute; lia]|]). constructor.
Qed.

Lemma digest_valid release rows d : ReleaseOutcomeDigest release rows = Ok d -> valid_sha256_text d = true.
Proof. intros (_ & s & ps & _ & _ & ->)%ReleaseOutcomeDigest_ok. apply Sha256.hex_sum_valid. Qed.

Lemma lists_members l k : lists l k -> same_members l k.
Proof.
  intros (_ & Hin & Hall) p. split; [|intros (a & Ha & Hp); eauto].
  intros (a & Ha & Hp). destruct (Hall a Ha) as (g & Hg & _ & Eg). exists g. by rewrite Eg.
Qed.

(** The outcome fact attached to an observation identifies the answered
    proposition: attaching the same query normal form to observations that
    released the same facts with the same row count gives the same outcome hash,
    and equal outcome hashes mean the same normal form, the same row count and
    the same released facts, or two of the byte strings hashed for the outcomes
    collide. *)
Theorem outcome_identifies o o' target target' version version' nf nf' rows rows' n n' :
  go_string version -> go_string version' -> go_string nf -> go_string nf' ->
  rows <= max_int64 -> rows' <= max_int64 -> go_payloads (Release o) -> go_payloads (Release o') ->
  attachOutcome o target version nf rows = Ok n -> attachOutcome o' target' version' nf' rows' = Ok n' ->
  (version = version' /\ nf = nf' /\ rows = rows' /\ same_members (Release o) (Release o') ->
     map hash_of (Outcome n) = map hash_of (Outcome n')) /\
  (map hash_of (Outcome n) = map hash_of (Outcome n') ->
     (version = version' /\ nf = nf' /\ rows = rows' /\ same_members (Release o) (Release o')) \/
       Sha256.collides (outcome_materials n rows) (outcome_materials n' rows')).
Proof.
  intros Gv Gv' Gn Gn' Hr Hr' Gp Gp' E E'.
  apply attachOutcome_ok in E as (n0 & d & En & Ed & Vf & ->). apply attachOutcome_ok in E' as (n0' & d' & En' & Ed' & Vf' & ->).
  assert (Hlist : forall o n0, Normalize o = Ok n0 -> lists (Release o) (Release n0)).
  { clear. intros o n0 (_ & r & i & u & Er & _ & _ & _ & _ & _ & ->)%Normalize_ok. by apply NewFactSet_lists. }
  pose proof (Hlist _ _ En) as L. pose proof (Hlist _ _ En') as L'.
  assert (Hgo : forall l k, lists l k -> go_payloads l -> go_payloads k).
  { clear. intros l k (_ & Hin & _). unfold go_payloads. rewrite !Forall_forall. intros Hl f Hf. by apply Hl, Hin. }
  destruct (release_digest_binding (Release n0) (Release n0') rows rows' d d') as [B C]; try done; [by eapply Hgo..|].
  pose proof (lists_members _ _ L) as S. pose proof (lists_members _ _ L') as S'. cbn [Outcome map].
  split.
  - intros (-> & -> & -> & Hs). rewrite B; [done|]. split; [done|]. intros p. by rewrite <- (S p), (Hs p), (S' p).
  - intros Hh. assert (If : forall v q e k, isVersioned (outcome_fact v q e k) = true) by reflexivity.
    set (f := outcome_fact version nf d rows) in *. set (g := outcome_fact version' nf' d' rows') in *.
    assert (Hfg : Hash f = Hash g).
    { injection Hh as Hh. unfold hash_of in Hh. rewrite (hash_versioned f) in Hh by done.
      rewrite (hash_versioned g) in Hh by done. rewrite !hash_versioned by done. by rewrite Hh. }
    assert (Gf : go_fact f) by (apply outcome_fact_go; eauto using digest_valid).
    assert (Gg : go_fact g) by (apply outcome_fact_go; eauto using digest_valid).
    destruct (hash_binds f g _ (If _ _ _ _) (If _ _ _ _) Gf Gg (hash_versioned f (If _ _ _ _) Vf)) as [Hf|Hcol];
      [rewrite <- Hfg; by apply hash_versioned| |].
    2:{ right. revert Hcol. apply Sha256.collides_sub; intros x Hx%list_elem_of_singleton; subst x; apply elem_of_app; right;
        apply elem_fact_materials; try (by left); by apply CanonicalPayload_ok. }
    assert (Hd : d = d') by exact (f_equal OutcomeSHA256 Hf).
    destruct (C Hd) as [[-> Hs]|Hcol];
      [left|right; revert Hcol; apply Sha256.collides_sub; intros x Hx; apply elem_of_app; by left].
    split; [exact (f_equal QueryNormalFormVersion Hf)|]. split; [exact (f_equal QueryNormalFormSHA256 Hf)|].
    split; [done|]. intros p. by rewrite (S p), (Hs p), <- (S' p).
Qed.
End theory.

(** ** Concrete observations *)
Definition order_row (key : string) : FactID := {|
  Product := ""; Snapshot := "v1"; EntityKey := key; Field := ""; ValueVersion := ""; Profile := ProfileV2;
  Kind := FactBaseRow; SourceNamespace := "orders"; SQLType := ""; CanonicalValue := "";
  SnapshotBundle := []; OutputRowKey := ""; NormalizedExpression := ""; WitnessCommitment := "";
  QueryNormalFormVersion := ""; QueryNormalFormSHA256 := ""; OutcomeSHA256 := ""; OutcomeRows := 0;
  AtomizerVersion := ""; PredicateContextSHA256 := ""; SemanticProductID := ""; StableRole := "";
  PublicFieldID := ""; ResolvedExpressionSHA256 := ""; CollationName := ""; CollationVersion := "";
  Operator := ""; CanonicalLiteral := ""; ResultObservationSHA256 := ""; VisibleRows := 0;
  PredicateProfileVersion := ""; PredicateSetSHA256 := ""; PredicateAtomCount := 0 |}.

Definition region_atom (literal : string) : FactID := {|
  Product := ""; Snapshot := ""; EntityKey := ""; Field := ""; ValueVersion := ""; Profile := ProfileV5;
  Kind := FactPredicateAtom; SourceNamespace := ""; SQLType := "text"; CanonicalValue := "";
  SnapshotBundle := []; OutputRowKey := ""; NormalizedExpression := ""; WitnessCommitment := "";
  QueryNormalFormVersion := ""; QueryNormalFormSHA256 := ""; OutcomeSHA256 := ""; OutcomeRows := 0;
  AtomizerVersion := PredicateFootprintVersion; PredicateContextSHA256 := zeros; SemanticProductID := "orders";
  StableRole := "r1"; PublicFieldID := "region"; ResolvedExpressionSHA256 := ""; CollationName := "C";
  CollationVersion := "1"; Operator := "EQ"; CanonicalLiteral := literal; ResultObservationSHA256 := "";
  VisibleRows := 0; PredicateProfileVersion := ""; PredicateSetSHA256 := ""; PredicateAtomCount := 0 |}.

Definition composite_of (atoms : list FactID) : FactID := {|
  Product := ""; Snapshot := ""; EntityKey := ""; Field := ""; ValueVersion := ""; Profile := ProfileV5;
  Kind := FactCompositeOutcome; SourceNamespace := ""; SQLType := ""; CanonicalValue := "";
  SnapshotBundle := []; OutputRowKey := ""; NormalizedExpression := ""; WitnessCommitment := "";
  QueryNormalFormVersion := "q1"; QueryNormalFormSHA256 := zeros; OutcomeSHA256 := ""; OutcomeRows := 0;
  AtomizerVersion := ""; PredicateContextSHA256 := zeros; SemanticProductID := ""; StableRole := "";
  PublicFieldID := ""; ResolvedExpressionSHA256 := ""; CollationName := ""; CollationVersion := "";
  Operator := ""; CanonicalLiteral := ""; ResultObservationSHA256 := zeros; VisibleRows := 2;
  PredicateProfileVersion := PredicateFootprintVersion;
  PredicateSetSHA256 := match PredicateSetHashV1 (H := text_literals) atoms with Ok d => d | Err _ => "" end;
  PredicateAtomCount := Z.of_nat (length atoms) |}.

Definition north := region_atom "s:north".
Definition south := region_atom "s:south".
Definition obs_v2 := MkObservation ProfileV2 [order_row "k2"; order_row "k1"; order_row "k2"] [order_row "k1"] [].
Definition obs_v2' := MkObservation ProfileV2 [order_row "k1"; order_row "k2"] [] [].
Definition obs_v5 := MkObservation ProfileV5 [order_row "k1"] [] [north; composite_of [south; north]; south].

Lemma normalize_canonical_witness :
  exists n, Normalize (H := text_literals) obs_v2 = Ok n /\ length (Release n) = 2%nat /\ Normalize (H := text_literals) n = Ok n.
Proof.
  eexists. assert (E : Normalize (H := text_literals) obs_v2 = Ok _) by (vm_compute; reflexivity).
  split; [exact E|]. split; [reflexivity|]. apply (normalize_canonical (H := text_literals) obs_v2 _ E).
Defined.

Lemma normalize_v5_witness :
  exists n, Normalize (H := text_literals) obs_v5 = Ok n /\ Forall (fun f => IsV2 f = true) (Release n ++ Influence n).
Proof.
  eexists. assert (E : Normalize (H := text_literals) obs_v5 = Ok _) by (vm_compute; reflexivity).
  split; [exact E|]. apply (normalize_v5 (H := text_literals) obs_v5 _ E). reflexivity.
Defined.

Lemma predicate_set_binding_witness :
  exists d, PredicateSetHashV1 (H := text_literals) [north; south] = Ok d /\
            PredicateSetHashV1 (H := text_literals) [south; north; south] = Ok d.
Proof.
  eexists. assert (E : PredicateSetHashV1 (H := text_literals) [north; south] = Ok _) by (vm_compute; reflexivity).
  split; [exact E|].
  destruct (PredicateSetHashV1 (H := text_literals) [south; north; south]) as [d|e] eqn:E'; [|vm_compute in E'; discriminate E'].
  f_equal. symmetry. apply (predicate_set_binding (H := text_literals) _ _ _ _ E E').
  intros p. split; intros (a & Ha & Hp); exists a; (split; [|exact Hp]); revert Ha; rewrite !elem_of_cons; tauto.
Defined.

Lemma merge_union_witness :
  exists m, MergeObservations (H := text_literals) ProfileV2 [obs_v2; obs_v2'] = Ok m /\
    forall m', MergeObservations (H := text_literals) ProfileV2 [obs_v2'; obs_v2; obs_v2] = Ok m' ->
      map (hash_of (H := text_literals)) (Release m) = map (hash_of (H := text_literals)) (Release m').
Proof.
  eexists. assert (E : MergeObservations (H := text_literals) ProfileV2 [obs_v2; obs_v2'] = Ok _) by (vm_compute; reflexivity).
  split; [exact E|]. intros m' E'.
  refine (proj2 (proj2 (merge_union (H := text_literals) _ _ _ E)) _ m' _ E' PRelease).
  intros o. rewrite !elem_of_cons. tauto.
Defined.

Lemma go_payloads_check `{SQLLiterals} l :
  forallb (fun f => match CanonicalPayload f with Ok p => bytes_len p <=? max_int64 | Err _ => true end) l = true ->
  go_payloads l.
Proof.
  rewrite forallb_forall. intros Hl. apply Forall_forall. intros f Hf%list_elem_of_In p Hp.
  specialize (Hl f Hf). rewrite Hp in Hl. by apply Z.leb_le.
Qed.

Lemma outcome_identifies_witness :
  exists n n', attachOutcome (H := text_literals) obs_v2 ProfileV3 "q1" zeros 2 = Ok n /\
    attachOutcome (H := text_literals) obs_v2' ProfileV4 "q1" zeros 2 = Ok n' /\
    map (hash_of (H := text_literals)) (Outcome n) = map (hash_of (H := text_literals)) (Outcome n').
Proof.
  do 2 eexists. assert (E : attachOutcome (H := text_literals) obs_v2 ProfileV3 "q1" zeros 2 = Ok _) by (vm_compute; reflexivity).
  assert (E' : attachOutcome (H := text_literals) obs_v2' ProfileV4 "q1" zeros 2 = Ok _) by (vm_compute; reflexivity).
  split; [exact E|]. split; [exact E'|].
  assert (Gq : go_string "q1") by (vm_compute; discriminate). assert (Gz : go_string zeros) by (vm_compute; discriminate).
  assert (G2 : 2 <= max_int64) by (vm_compute; discriminate).
  assert (Gp : go_payloads (H := text_literals) (Release obs_v2)) by (apply go_payloads_check; vm_compute; reflexivity).
  assert (Gp' : go_payloads (H := text_literals) (Release obs_v2')) by (apply go_payloads_check; vm_compute; reflexivity).
  apply (proj1 (outcome_identifies (H := text_literals) _ _ _ _ _ _ _ _ _ _ _ _ Gq Gq Gz Gz G2 G2 Gp Gp' E E')).
  do 3 (split; [reflexivity|]). intros p.
  split; intros (a & Ha & Hp); exists a; (split; [|exact Hp]); revert Ha; cbn [Release obs_v2 obs_v2']; rewrite !elem_of_cons; tauto.
Defined.

(** Normalising keeps the bundle order of the fact it retains, which the JSON of
    the observation shows: one fact, listed with its bundle in two orders, has
    one payload and two observation digests. *)
Lemma observation_digest_shows_bundle_order :
  CanonicalPayload (H := text_literals) total_ab = CanonicalPayload (H := text_literals) total_ba /\
  bool_decide (ObservationDigest (H := text_literals) (MkObservation ProfileV2 [total_ab] [] []) =
               ObservationDigest (H := text_literals) (MkObservation ProfileV2 [total_ba] [] [])) = false.
Proof. split; vm_compute; reflexivity. Qed.
End FactSet.
