(* ===== verification/Witness.v ===== *)
(** * Witness multisets and the facts of a relation

    The part of [src/internal/exposure/algebra_v2.go] and [fact.go] below the
    operators: multisets of base facts, keys composed from a tuple of texts, and
    the constructors of V2 facts.  The encoding of a PostgreSQL value
    ([CanonicalSQLValue]) is the class [SQLValues]. *)

From S2P Require Import Prelude GoBytes Ordering GoText Sha256 FactId FactSet.
Import GoText FactId.

(** [CanonicalSQLValue] over the dynamic values [V] of Go's [any]. *)
Class SQLValues (V : Type) := CanonicalSQLValue : string -> V -> result string.

(** No value is encoded as the empty text, and an encoding is a Go string. *)
Class SQLValuesLaws (V : Type) `{!SQLValues V} : Prop := {
  canonical_nonempty : forall sqlType (value : V), CanonicalSQLValue sqlType value <> Ok "";
  canonical_go_string : forall sqlType (value : V) text, CanonicalSQLValue sqlType value = Ok text -> go_string text }.

Module Witness.

Record WitnessItem := MkItem { iFact : FactID; iMultiplicity : Z }.
Abbreviation WitnessMultiset := (gmap string WitnessItem) (only parsing).

(** ** Keys of tuples *)
Definition key_material (domain : string) (values : list string) : bytes :=
  be_string domain ++ be_uint64 (Z.of_nat (length values)) ++ flat_map be_string values.

Definition ComposeCanonicalKeyV2 (domain : string) (values : list string) : result string :=
  fail_if (invalidToken domain || (length values =? 0)%nat) (bad "canonical key domain and values are required") ≫= fun _ =>
  Ok (Sha256.hex_sum (key_material domain values)).

(** ** Constructors of V2 facts *)
Definition base_row (sourceNamespace snapshot entityKey : string) : FactID := {|
  Product := ""; Snapshot := snapshot; EntityKey := entityKey; Field := ""; ValueVersion := ""; Profile := ProfileV2; Kind := FactBaseRow;
  SourceNamespace := sourceNamespace; SQLType := ""; CanonicalValue := ""; SnapshotBundle := []; OutputRowKey := "";
  NormalizedExpression := ""; WitnessCommitment := ""; QueryNormalFormVersion := ""; QueryNormalFormSHA256 := "";
  OutcomeSHA256 := ""; OutcomeRows := 0; AtomizerVersion := ""; PredicateContextSHA256 := "";
  SemanticProductID := ""; StableRole := ""; PublicFieldID := ""; ResolvedExpressionSHA256 := "";
  CollationName := ""; CollationVersion := ""; Operator := ""; CanonicalLiteral := "";
  ResultObservationSHA256 := ""; VisibleRows := 0; PredicateProfileVersion := ""; PredicateSetSHA256 := ""; PredicateAtomCount := 0 |}.

Definition base_cell (sourceNamespace snapshot entityKey fieldID typeName canonical : string) : FactID := {|
  Product := ""; Snapshot := snapshot; EntityKey := entityKey; Field := fieldID; ValueVersion := ""; Profile := ProfileV2; Kind := FactBaseCell;
  SourceNamespace := sourceNamespace; SQLType := typeName; CanonicalValue := canonical; SnapshotBundle := []; OutputRowKey := "";
  NormalizedExpression := ""; WitnessCommitment := ""; QueryNormalFormVersion := ""; QueryNormalFormSHA256 := "";
  OutcomeSHA256 := ""; OutcomeRows := 0; AtomizerVersion := ""; PredicateContextSHA256 := "";
  SemanticProductID := ""; StableRole := ""; PublicFieldID := ""; ResolvedExpressionSHA256 := "";
  CollationName := ""; CollationVersion := ""; Operator := ""; CanonicalLiteral := "";
  ResultObservationSHA256 := ""; VisibleRows := 0; PredicateProfileVersion := ""; PredicateSetSHA256 := ""; PredicateAtomCount := 0 |}.

Definition derived (snapshotBundle : list SnapshotBinding) (outputRowKey normalizedExpression typeName canonical witnessCommitment : string) : FactID := {|
  Product := ""; Snapshot := ""; EntityKey := ""; Field := ""; ValueVersion := ""; Profile := ProfileV2; Kind := FactDerived;
  SourceNamespace := ""; SQLType := typeName; CanonicalValue := canonical; SnapshotBundle := snapshotBundle; OutputRowKey := outputRowKey;
  NormalizedExpression := normalizedExpression; WitnessCommitment := witnessCommitment; QueryNormalFormVersion := ""; QueryNormalFormSHA256 := "";
  OutcomeSHA256 := ""; OutcomeRows := 0; AtomizerVersion := ""; PredicateContextSHA256 := "";
  SemanticProductID := ""; StableRole := ""; PublicFieldID := ""; ResolvedExpressionSHA256 := "";
  CollationName := ""; CollationVersion := ""; Operator := ""; CanonicalLiteral := "";
  ResultObservationSHA256 := ""; VisibleRows := 0; PredicateProfileVersion := ""; PredicateSetSHA256 := ""; PredicateAtomCount := 0 |}.

Section facts.
Context `{SQLLiterals} {V : Type} `{!SQLValues V}.

Definition NewBaseRowFactV2 (sourceNamespace snapshot entityKey : string) : result FactID :=
  let fact := base_row sourceNamespace snapshot entityKey in
  Validate fact ≫= fun _ => Ok fact.

Definition NewBaseCellFactV2 (sourceNamespace snapshot entityKey fieldID sqlType : string) (value : V) : result FactID :=
  typeName ← CanonicalSQLTypeV2 sqlType;
  canonical ← CanonicalSQLValue typeName value;
  let fact := base_cell sourceNamespace snapshot entityKey fieldID typeName canonical in
  Validate fact ≫= fun _ => Ok fact.

Definition NewDerivedFactV2 (snapshotBundle : list SnapshotBinding) (outputRowKey normalizedExpression sqlType : string) (value : V)
    (witnessCommitment : string) : result FactID :=
  typeName ← CanonicalSQLTypeV2 sqlType;
  canonical ← CanonicalSQLValue typeName value;
  let fact := derived snapshotBundle outputRowKey normalizedExpression typeName canonical witnessCommitment in
  Validate fact ≫= fun _ => Ok fact.
End facts.

(** ** Witnesses *)
Section witnesses.
Context `{SQLLiterals}.

Definition isBaseFactV2 (fact : FactID) : bool := IsV2 fact && (same (Kind fact) FactBaseRow || same (Kind fact) FactBaseCell).

Definition overflow := bad "witness multiplicity overflow".

(** A repeated hash is compared through a one-element set. *)
Definition check_same (existing fact : FactID) : result unit :=
  let set := match FactSet.NewFactSet [existing] with Ok s => Some s | Err _ => None end in
  FactSet.Add set fact ≫= fun _ => Ok tt.

Definition Add (w : option WitnessMultiset) (fact : FactID) (multiplicity : Z) : result WitnessMultiset :=
  match w with
  | None => Err (bad "witness requires a positive V2 base fact")
  | Some w =>
      fail_if ((multiplicity =? 0) || negb (IsV2 fact) || (negb (same (Kind fact) FactBaseRow) && negb (same (Kind fact) FactBaseCell)))
        (bad "witness requires a positive V2 base fact") ≫= fun _ =>
      hash ← Hash fact;
      match w !! hash with
      | Some existing =>
          check_same (iFact existing) fact ≫= fun _ =>
          fail_if (max_uint64 - iMultiplicity existing <? multiplicity) overflow ≫= fun _ =>
          Ok (<[hash := MkItem (iFact existing) (iMultiplicity existing + multiplicity)]> w)
      | None => Ok (<[hash := MkItem fact multiplicity]> w)
      end
  end.

Definition NewWitness (facts : list FactID) : result WitnessMultiset :=
  fold_res (fun w fact => Add (Some w) fact 1) ∅ facts.

(** [for hash, item := range w]: one of the orders Go may choose. *)
Definition items (w : WitnessMultiset) : list (string * WitnessItem) := map_to_list w.

Definition merge_item (w : WitnessMultiset) (entry : string * WitnessItem) : result WitnessMultiset :=
  Add (Some w) (iFact entry.2) (iMultiplicity entry.2).
Definition Merge (w other : WitnessMultiset) : result WitnessMultiset := fold_res merge_item w (items other).

Definition merge_max_item (w : WitnessMultiset) (entry : string * WitnessItem) : result WitnessMultiset :=
  let '(hash, item) := entry in
  match w !! hash with
  | Some existing =>
      check_same (iFact existing) (iFact item) ≫= fun _ =>
      Ok (if iMultiplicity existing <? iMultiplicity item then <[hash := item]> w else w)
  | None => Add (Some w) (iFact item) (iMultiplicity item)
  end.
Definition MergeMax (w other : WitnessMultiset) : result WitnessMultiset := fold_res merge_max_item w (items other).

(** [Clone] of a nil map is an empty map. *)
Definition Clone {A} (m : option (gmap string A)) : gmap string A := default ∅ m.

Definition Support (w : WitnessMultiset) : result (gmap string FactID) :=
  fold_res (fun s entry => FactSet.Add (Some s) (iFact entry.2)) ∅ (items w).

(** [%020d]. *)
Definition pad20 (n : Z) : string :=
  let digits := format_int n in of_bytes (replicate (20 - String.length digits) "0"%char) +:+ digits.

Definition commitment_values (w : WitnessMultiset) : list string :=
  let hashes := go_sort (items w).*1 in
  let values := flat_map (fun hash => match w !! hash with Some item => [hash; pad20 (iMultiplicity item)] | None => [] end) hashes in
  if (length values =? 0)%nat then ["empty"] else values.

Definition Commitment (w : option WitnessMultiset) : result string :=
  match w with
  | None => Err (bad "nil witness")
  | Some w => ComposeCanonicalKeyV2 "witness-multiset" (commitment_values w)
  end.
End witnesses.

(** ** What merging does *)
Section theory.
Context `{SQLLiterals}.
Implicit Types (w o : gmap string WitnessItem) (h : string) (it : WitnessItem).

(** A key is the hash of its fact, every fact is a base fact, every multiplicity is a positive 64-bit number. *)
Definition item_ok (h : string) (it : WitnessItem) : Prop :=
  Hash (iFact it) = Ok h /\ isBaseFactV2 (iFact it) = true /\ 0 < iMultiplicity it <= max_uint64.
Definition wit_ok (w : gmap string WitnessItem) : Prop := map_Forall item_ok w.

Definition mult (w : gmap string WitnessItem) (h : string) : Z := match w !! h with Some it => iMultiplicity it | None => 0 end.

(** Entries in common are combined. *)
Definition plus_items (a b : WitnessItem) : WitnessItem := MkItem (iFact a) (iMultiplicity a + iMultiplicity b).
Definition max_items (a b : WitnessItem) : WitnessItem := if iMultiplicity a <? iMultiplicity b then b else a.
Definition combine (f : WitnessItem -> WitnessItem -> WitnessItem) (w o : gmap string WitnessItem) : gmap string WitnessItem :=
  union_with (fun a b => Some (f a b)) w o.
Abbreviation plus := (combine plus_items).
Abbreviation maximum := (combine max_items).

Definition witness_agree (w o : gmap string WitnessItem) : Prop :=
  forall h a b, w !! h = Some a -> o !! h = Some b -> CanonicalPayload (iFact a) = CanonicalPayload (iFact b).
Definition fits (w o : gmap string WitnessItem) : Prop := forall h, mult w h + mult o h <= max_uint64.

Lemma base_versioned f : isBaseFactV2 f = true -> negb (IsV2 f) || (negb (same (Kind f) FactBaseRow) && negb (same (Kind f) FactBaseCell)) = false.
Proof. unfold isBaseFactV2. destruct (IsV2 f), (same (Kind f) FactBaseRow), (same (Kind f) FactBaseCell); done. Qed.

Lemma check_same_ok g f h : Hash g = Ok h -> Hash f = Ok h -> check_same g f = Ok tt <-> CanonicalPayload g = CanonicalPayload f.
Proof.
  intros Hg Hf. unfold check_same.
  assert (E : FactSet.NewFactSet [g] = Ok {[h := g]}).
  { unfold FactSet.NewFactSet, FactSet.add_all. cbn [fold_res]. unfold FactSet.Add. rewrite Hg. cbn [mbind result_bind]. by rewrite lookup_empty. }
  rewrite E, bind_ok. split.
  - intros (s & Hs & _). apply FactSet.Add_ok in Hs as (k & Hk & Hcase). rewrite Hf in Hk. apply Ok_inj in Hk as <-.
    rewrite lookup_singleton_eq in Hcase. destruct Hcase as [[? _]|(x & [= <-] & ? & _)]; done.
  - intros Hp. exists {[h := g]}. split; [|done]. apply FactSet.Add_ok. exists h. split; [done|]. right. exists g. by rewrite lookup_singleton_eq.
Qed.

(** One item is added: the entry it meets keeps its fact. *)
Lemma Add_item w h it w' : wit_ok w -> item_ok h it ->
  merge_item w (h, it) = Ok w' <->
  match w !! h with
  | Some e => CanonicalPayload (iFact e) = CanonicalPayload (iFact it) /\ iMultiplicity e + iMultiplicity it <= max_uint64 /\
              w' = <[h := plus_items e it]> w
  | None => w' = <[h := it]> w
  end.
Proof.
  intros Hw (Hh & Hb & Hm). unfold merge_item, Add. cbn [snd].
  rewrite <- orb_assoc, base_versioned, (proj2 (Z.eqb_neq _ 0)) by (done || lia). cbn [orb fail_if mbind result_bind]. rewrite Hh. cbn [mbind result_bind].
  destruct (w !! h) as [e|] eqn:Ee.
  - destruct (Hw h e Ee) as (He & _). rewrite seq_ok, fail_if_bind_ok, (check_same_ok _ _ h) by done.
    rewrite Z.ltb_ge. split; [intros (? & ? & <-%Ok_inj); split; [done|]; split; [lia|done]|intros (? & ? & ->)]. split; [done|]. split; [lia|done].
  - destruct it. split; [by intros <-%Ok_inj|by intros ->].
Qed.

Lemma lookup_combine f w o h : combine f w o !! h = match w !! h, o !! h with
  | Some a, Some b => Some (f a b) | Some a, None => Some a | None, b => b end.
Proof. unfold combine. rewrite lookup_union_with. by destruct (w !! h), (o !! h). Qed.

Lemma mult_nonneg w h : wit_ok w -> 0 <= mult w h <= max_uint64.
Proof. intros Hw. unfold mult. destruct (w !! h) as [it|] eqn:E; [|unfold max_uint64; lia]. destruct (Hw h it E) as (_ & _ & ?). lia. Qed.

Lemma combine_insert f w m h it : m !! h = None ->
  combine f w (<[h := it]> m) = combine f (<[h := match w !! h with Some e => f e it | None => it end]> w) m.
Proof.
  intros Hm. apply map_eq. intros k. rewrite !lookup_combine. destruct (decide (k = h)) as [->|Hne].
  - rewrite !lookup_insert_eq, Hm. by destruct (w !! h).
  - by rewrite !lookup_insert_ne.
Qed.

(** A fold over the entries of a map, given what one step does. *)
Section fold.
Variables (step : gmap string WitnessItem -> string * WitnessItem -> result (gmap string WitnessItem))
  (f : WitnessItem -> WitnessItem -> WitnessItem) (allowed : WitnessItem -> WitnessItem -> Prop).
Hypothesis step_spec : forall w h it w', wit_ok w -> item_ok h it ->
  step w (h, it) = Ok w' <->
  match w !! h with
  | Some e => CanonicalPayload (iFact e) = CanonicalPayload (iFact it) /\ allowed e it /\ w' = <[h := f e it]> w
  | None => w' = <[h := it]> w
  end.
Hypothesis f_ok : forall h a b, item_ok h a -> item_ok h b -> allowed a b -> item_ok h (f a b).

Definition all_allowed (w o : gmap string WitnessItem) : Prop :=
  forall h a b, w !! h = Some a -> o !! h = Some b -> CanonicalPayload (iFact a) = CanonicalPayload (iFact b) /\ allowed a b.

Lemma all_allowed_insert w m h it : m !! h = None ->
  all_allowed w (<[h := it]> m) <->
  match w !! h with Some e => CanonicalPayload (iFact e) = CanonicalPayload (iFact it) /\ allowed e it | None => True end /\
  all_allowed (<[h := match w !! h with Some e => f e it | None => it end]> w) m.
Proof.
  intros Hm. unfold all_allowed. split.
  - intros A. split.
    + destruct (w !! h) as [e|] eqn:Ee; [|done]. by apply (A h); [|rewrite lookup_insert_eq].
    + intros k a b Ha Hb. destruct (decide (k = h)) as [->|Hne]; [congruence|]. rewrite lookup_insert_ne in Ha by done.
      apply (A k); [done|]. by rewrite lookup_insert_ne.
  - intros [C A] k a b Ha Hb. destruct (decide (k = h)) as [->|Hne].
    + rewrite lookup_insert_eq in Hb. injection Hb as <-. by rewrite Ha in C.
    + rewrite lookup_insert_ne in Hb by done. apply (A k); [|done]. by rewrite lookup_insert_ne.
Qed.

Lemma fold_list_ok (l : list (string * WitnessItem)) : forall w w', NoDup l.*1 -> Forall (fun e => item_ok e.1 e.2) l -> wit_ok w ->
  fold_res step w l = Ok w' <-> all_allowed w (list_to_map l) /\ w' = combine f w (list_to_map l).
Proof.
  induction l as [|[h it] l IH]; intros w w' Hnd Hl Hw.
  - cbn [fold_res]. change (list_to_map [] : gmap string WitnessItem) with (∅ : gmap string WitnessItem).
    assert (Hp : combine f w ∅ = w) by (apply map_eq; intros h; rewrite lookup_combine, lookup_empty; by destruct (w !! h)).
    rewrite Hp. split; [intros <-%Ok_inj; split; [|done]; intros h a b _ Hb; by rewrite lookup_empty in Hb|by intros (_ & ->)].
  - rewrite fmap_cons in Hnd. apply NoDup_cons in Hnd as [Hnot Hnd]. apply Forall_cons in Hl as [Hit Hl]. cbn [fst snd] in Hit, Hnot. cbn [fold_res].
    assert (Hm : list_to_map l !! h = (None : option WitnessItem)) by (by apply not_elem_of_list_to_map).
    change (list_to_map ((h, it) :: l)) with (<[h := it]> (list_to_map l : gmap string WitnessItem)). rewrite combine_insert, all_allowed_insert by done.
    rewrite bind_ok. setoid_rewrite step_spec; [|done..].
    assert (Hw1 : match w !! h with Some e => CanonicalPayload (iFact e) = CanonicalPayload (iFact it) /\ allowed e it | None => True end ->
      wit_ok (<[h := match w !! h with Some e => f e it | None => it end]> w)).
    { intros Hb. apply map_Forall_insert_2; [|done]. destruct (w !! h) as [e|] eqn:Ee; [|done]. apply f_ok; [by apply Hw|done|by apply Hb]. }
    split.
    + intros (w1 & E1 & E). assert (Hb : w1 = <[h := match w !! h with Some e => f e it | None => it end]> w /\
        match w !! h with Some e => CanonicalPayload (iFact e) = CanonicalPayload (iFact it) /\ allowed e it | None => True end)
        by (destruct (w !! h); naive_solver).
      destruct Hb as [-> Hb]. apply IH in E as (A & ->); [done|done|done|by apply Hw1].
    + intros ((Hb & A) & ->). eexists. split; [|apply IH; [done|done|by apply Hw1|split; [exact A|done]]]. destruct (w !! h); [|done]. by destruct Hb.
Qed.

Lemma fold_items_ok w o w' : wit_ok w -> wit_ok o -> fold_res step w (items o) = Ok w' <-> all_allowed w o /\ w' = combine f w o.
Proof.
  intros Hw Ho. unfold items. rewrite fold_list_ok.
  - by rewrite list_to_map_to_list.
  - apply NoDup_fst_map_to_list.
  - apply Forall_forall. intros [h it] Hin%elem_of_map_to_list. by apply Ho.
  - done.
Qed.

Lemma combine_ok w o : wit_ok w -> wit_ok o -> all_allowed w o -> wit_ok (combine f w o).
Proof.
  intros Hw Ho A h it. rewrite lookup_combine. destruct (w !! h) as [a|] eqn:Ea, (o !! h) as [b|] eqn:Eb; [..|done]; intros [= <-].
  - apply f_ok; [by apply Hw|by apply Ho|by eapply A].
  - by apply Hw.
  - by apply Ho.
Qed.
End fold.

Lemma fits_allowed w o : wit_ok w -> wit_ok o ->
  all_allowed (fun a b => iMultiplicity a + iMultiplicity b <= max_uint64) w o <-> witness_agree w o /\ fits w o.
Proof.
  intros Hw Ho. unfold all_allowed, witness_agree, fits. split.
  - intros A. split; [intros; by eapply A|]. intros h. pose proof (mult_nonneg w h Hw). pose proof (mult_nonneg o h Ho). unfold mult in *.
    destruct (w !! h) eqn:Ea, (o !! h) eqn:Eb; [by eapply A|lia..].
  - intros [A F] h a b Ha Hb. split; [by eapply A|]. specialize (F h). unfold mult in F. by rewrite Ha, Hb in F.
Qed.

Lemma plus_item_ok h a b : item_ok h a -> item_ok h b -> iMultiplicity a + iMultiplicity b <= max_uint64 -> item_ok h (plus_items a b).
Proof. intros (? & ? & ?) (? & ? & ?) ?. unfold item_ok, plus_items. cbn [iFact iMultiplicity]. repeat split; [done|done|lia|lia]. Qed.
Lemma max_item_ok h a b : item_ok h a -> item_ok h b -> True -> item_ok h (max_items a b).
Proof. intros ? ? _. unfold max_items. by destruct (_ <? _). Qed.

Lemma Merge_ok w o w' : wit_ok w -> wit_ok o -> Merge w o = Ok w' <-> witness_agree w o /\ fits w o /\ w' = plus w o.
Proof.
  intros Hw Ho. unfold Merge. rewrite (fold_items_ok merge_item plus_items (fun a b => iMultiplicity a + iMultiplicity b <= max_uint64)).
  - rewrite fits_allowed by done. by rewrite (assoc and).
  - intros. by apply Add_item.
  - apply plus_item_ok.
  - done.
  - done.
Qed.

Lemma plus_ok w o : wit_ok w -> wit_ok o -> witness_agree w o -> fits w o -> wit_ok (plus w o).
Proof. intros Hw Ho A F. eapply combine_ok; [apply plus_item_ok|done|done|by apply fits_allowed]. Qed.

Lemma MergeMax_ok w o w' : wit_ok w -> wit_ok o -> MergeMax w o = Ok w' <-> witness_agree w o /\ w' = maximum w o.
Proof.
  intros Hw Ho. unfold MergeMax. rewrite (fold_items_ok merge_max_item max_items (fun _ _ => True)); [|..|done|done].
  - split; intros [A ->]; (split; [|done]); intros h a b Ha Hb; [by eapply A|split; [by eapply A|done]].
  - intros x h it x' Hx Hit. destruct Hit as (Hh & Hb & Hm). unfold merge_max_item. destruct (x !! h) as [e|] eqn:Ee.
    + destruct (Hx h e Ee) as (He & _). rewrite seq_ok, (check_same_ok _ _ h) by done. unfold max_items.
      assert (Hins : (if iMultiplicity e <? iMultiplicity it then <[h := it]> x else x) = <[h := if iMultiplicity e <? iMultiplicity it then it else e]> x)
        by (destruct (_ <? _); [done|by rewrite insert_id]). rewrite Hins.
      split; [intros (? & <-%Ok_inj); done|intros (? & _ & ->); done].
    + pose proof (Add_item x h it x' Hx (conj Hh (conj Hb Hm))) as Hadd. by rewrite Ee in Hadd.
  - apply max_item_ok.
Qed.

Lemma maximum_ok w o : wit_ok w -> wit_ok o -> witness_agree w o -> wit_ok (maximum w o).
Proof. intros Hw Ho A. eapply (combine_ok _ (fun _ _ => True)); [apply max_item_ok|done|done|]. intros h a b Ha Hb. split; [by eapply A|done]. Qed.

Lemma mult_plus w o h : mult (plus w o) h = mult w h + mult o h.
Proof. unfold mult. rewrite lookup_combine. destruct (w !! h), (o !! h); cbn; lia. Qed.
Lemma mult_maximum w o h : wit_ok w -> wit_ok o -> mult (maximum w o) h = Z.max (mult w h) (mult o h).
Proof.
  intros Hw Ho. pose proof (mult_nonneg w h Hw). pose proof (mult_nonneg o h Ho). unfold mult in *. rewrite lookup_combine.
  destruct (w !! h), (o !! h); cbn; unfold max_items; try (destruct (Z.ltb_spec (iMultiplicity w0) (iMultiplicity w1))); lia.
Qed.

(** ** Sums of several supports and witnesses

    When no two of the facts share a hash, what is accumulated does not depend
    on the order: a support is the union, a witness the sum. *)
Definition collision_free (facts : list FactID) : Prop :=
  forall f g h, f ∈ facts -> g ∈ facts -> Hash f = Ok h -> Hash g = Ok h -> f = g.

Definition wfacts (w : gmap string WitnessItem) : list FactID := map (fun e => iFact e.2) (map_to_list w).

Definition union_of (ss : list (gmap string FactID)) (e : gmap string FactID) : Prop :=
  forall h f, e !! h = Some f <-> exists s, s ∈ ss /\ s !! h = Some f.

Definition total (ws : list (gmap string WitnessItem)) (h : string) : Z := foldr (fun w n => mult w h + n) 0 ws.
Definition sum_of (ws : list (gmap string WitnessItem)) (e : gmap string WitnessItem) : Prop :=
  wit_ok e /\ (forall h, mult e h = total ws h) /\
  forall h it, e !! h = Some it -> exists w it', w ∈ ws /\ w !! h = Some it' /\ iFact it' = iFact it.

Lemma collision_free_sub fs gs : gs ⊆ fs -> collision_free fs -> collision_free gs.
Proof. intros Hsub C f g h Hf Hg. apply C; by apply Hsub. Qed.

Lemma elem_wfacts w f : f ∈ wfacts w <-> exists h it, w !! h = Some it /\ iFact it = f.
Proof.
  unfold wfacts. rewrite list_elem_of_fmap. split.
  - intros ([h it] & -> & Hin%elem_of_map_to_list). eauto.
  - intros (h & it & Hit & <-). exists (h, it). split; [done|]. by apply elem_of_map_to_list.
Qed.

Lemma elem_flat_map {A B} (g : A -> list B) (l : list A) (y : B) : y ∈ flat_map g l <-> exists x, x ∈ l /\ y ∈ g x.
Proof. rewrite list_elem_of_In, in_flat_map. setoid_rewrite list_elem_of_In. done. Qed.

Lemma union_of_perm ss ss' e e' : (forall s, s ∈ ss <-> s ∈ ss') -> union_of ss e -> union_of ss' e' -> e = e'.
Proof.
  intros Hss U U'. apply map_eq. intros h. apply option_eq. intros f. rewrite (U h f), (U' h f). by setoid_rewrite Hss.
Qed.

Lemma union_of_trans ss e os e' : union_of ss e -> union_of (e :: os) e' -> union_of (ss ++ os) e'.
Proof.
  intros U U' h f. rewrite (U' h f). setoid_rewrite elem_of_app. setoid_rewrite elem_of_cons. split.
  - intros (s & [->|Hs] & Hf); [apply U in Hf as (s & ? & ?)|]; eauto.
  - intros (s & [Hs|Hs] & Hf); [|eauto]. exists e. split; [by left|]. apply U. eauto.
Qed.

Lemma union_of_one s : union_of [s] s.
Proof. intros h f. setoid_rewrite list_elem_of_singleton. naive_solver. Qed.

Lemma MergeChecked_union (s o e : gmap string FactID) : FactSet.wf s -> FactSet.wf o -> collision_free (FactSet.range s ++ FactSet.range o) ->
  FactSet.MergeChecked s o = Ok e <-> union_of [s; o] e.
Proof.
  intros Hs Ho C. rewrite FactSet.MergeChecked_ok by done.
  assert (Hsame : forall h f g, s !! h = Some f -> o !! h = Some g -> f = g).
  { intros h f g Hf Hg. apply (C f g h); [| |by apply Hs|by apply Ho].
    - apply elem_of_app. left. apply FactSet.elem_range. eauto.
    - apply elem_of_app. right. apply FactSet.elem_range. eauto. }
  assert (Hag : FactSet.agree s o) by (intros h f g Hf Hg; by rewrite (Hsame h f g)).
  assert (U : union_of [s; o] (s ∪ o)).
  { intros h f. setoid_rewrite elem_of_cons. setoid_rewrite list_elem_of_singleton. rewrite lookup_union_Some_raw. split.
    - intros [?|[_ ?]]; eauto.
    - intros (x & [->| ->] & Hf); [by left|]. destruct (s !! h) as [g|] eqn:Eg; [left; by rewrite (Hsame h g f)|by right]. }
  split; [by intros [_ ->]|]. intros U'. split; [done|]. by eapply union_of_perm.
Qed.

Lemma union_of_wf ss e : (forall s, s ∈ ss -> FactSet.wf s) -> union_of ss e -> FactSet.wf e.
Proof. intros Hss U h f Hf. apply U in Hf as (s & Hs & Hf). by apply (Hss s Hs). Qed.

Lemma total_app ws os h : total (ws ++ os) h = total ws h + total os h.
Proof. unfold total. induction ws as [|w ws IH]; cbn [app foldr]; [lia|]. rewrite IH. lia. Qed.
Lemma total_perm ws os h : ws ≡ₚ os -> total ws h = total os h.
Proof. unfold total. induction 1; cbn [foldr]; lia || congruence. Qed.
Lemma total_nonneg ws h : (forall w, w ∈ ws -> wit_ok w) -> 0 <= total ws h.
Proof.
  unfold total. induction ws as [|w ws IH]; intros Hw; [done|]. cbn [foldr]. pose proof (mult_nonneg w h (Hw w ltac:(by left))).
  assert (0 <= foldr (fun w n => mult w h + n) 0 ws) by (apply IH; intros; apply Hw; by right). lia.
Qed.

Lemma sum_of_perm ws os e e' : collision_free (flat_map wfacts ws) -> (forall w, w ∈ ws -> wit_ok w) -> ws ≡ₚ os ->
  sum_of ws e -> sum_of os e' -> e = e'.
Proof.
  intros C Hw P (He & M & F) (He' & M' & F'). apply map_eq. intros h. pose proof (total_perm ws os h P) as Ht. rewrite <- M, <- M' in Ht.
  pose proof (mult_nonneg e h He). pose proof (mult_nonneg e' h He'). unfold mult in *.
  destruct (e !! h) as [it|] eqn:Eh, (e' !! h) as [it'|] eqn:Eh'; [|destruct (He h it Eh) as (_ & _ & ?); lia|destruct (He' h it' Eh') as (_ & _ & ?); lia|done].
  assert (Hfact : iFact it = iFact it').
  { destruct (F h it Eh) as (w & i & Hin & Hi & <-), (F' h it' Eh') as (w' & i' & Hin' & Hi' & <-). rewrite <- P in Hin'.
    apply (C _ _ h); [| |by destruct (Hw w Hin h i Hi)|by destruct (Hw w' Hin' h i' Hi')].
    - apply elem_flat_map. exists w. split; [done|]. apply elem_wfacts. eauto.
    - apply elem_flat_map. exists w'. split; [done|]. apply elem_wfacts. eauto. }
  destruct it, it'. cbn in *. by subst.
Qed.

Lemma sum_of_trans ws e os e' : sum_of ws e -> sum_of (e :: os) e' -> sum_of (ws ++ os) e'.
Proof.
  intros (He & M & F) (He' & M' & F'). split; [done|]. split.
  - intros h. rewrite M', total_app, <- M. done.
  - intros h it Hit. destruct (F' h it Hit) as (w & i & [->|Hin]%elem_of_cons & Hi & Hf).
    + destruct (F h i Hi) as (w' & i' & ? & ? & ?). exists w', i'. split; [apply elem_of_app; by left|]. split; [done|congruence].
    + exists w, i. split; [apply elem_of_app; by right|done].
Qed.

Lemma sum_of_one w : wit_ok w -> sum_of [w] w.
Proof. intros Hw. split; [done|]. split; [intros h; cbn; lia|]. intros h it Hit. exists w, it. split; [by left|done]. Qed.

Lemma Merge_sum w o e : wit_ok w -> wit_ok o -> collision_free (wfacts w ++ wfacts o) ->
  Merge w o = Ok e <-> fits w o /\ sum_of [w; o] e.
Proof.
  intros Hw Ho C. rewrite Merge_ok by done.
  assert (Hag : witness_agree w o).
  { intros h a b Ha Hb. rewrite (C (iFact a) (iFact b) h); [done|..|by apply (Hw h a)|by apply (Ho h b)];
      apply elem_of_app; [left|right]; apply elem_wfacts; eauto. }
  assert (U : fits w o -> sum_of [w; o] (plus w o)).
  { intros F. split; [by apply plus_ok|]. split; [intros h; rewrite mult_plus; cbn; lia|]. intros h it. rewrite lookup_combine.
    destruct (w !! h) as [a|] eqn:Ea, (o !! h) as [b|] eqn:Eb; [..|done]; intros [= <-].
    - exists w, a. split; [by left|done].
    - exists w, a. split; [by left|done].
    - exists o, b. split; [by right; left|done]. }
  split; [intros (_ & F & ->); auto|]. intros [F U']. split; [done|]. split; [done|].
  eapply sum_of_perm; [| |reflexivity|exact U'|by apply U].
  - cbn [flat_map]. by rewrite app_nil_r.
  - intros x [->|[->|[]%elem_of_nil]%elem_of_cons]%elem_of_cons; done.
Qed.

(** The sum exists exactly when it fits. *)
Lemma sum_of_fits ws e h : sum_of ws e -> total ws h <= max_uint64.
Proof. intros (He & M & _). rewrite <- M. by apply mult_nonneg. Qed.
End theory.
End Witness.
