(* ===== verification/Relation.v ===== *)
(** * Annotated relations

    The V2 algebra of [src/internal/exposure/algebra_v2.go]: relations whose
    rows and cells carry the base facts they depend on, as a set and as a
    multiset, the invariant every rule checks, and the operators Scan, Select,
    Project, Page and Observe.  Join, union and aggregation are in
    [RelationJoin].  A nil map is [None]; slices that are nil and slices that
    are empty are not told apart. *)

From S2P Require Import Prelude GoBytes Ordering GoText Sha256 FactId FactSet Witness.
Import GoText FactId.

Lemma in_list_false x l : in_list x l = false <-> x ∉ l.
Proof.
  unfold in_list. rewrite <- not_true_iff_false, existsb_exists. split.
  - intros Hn Hx. apply Hn. exists x. split; [by apply list_elem_of_In|by apply bool_decide_eq_true].
  - intros Hn (y & Hy & E%bool_decide_eq_true). subst y. by apply Hn, list_elem_of_In.
Qed.

Module Relation.

Inductive SQLTruth := SQLUnknown | SQLFalse | SQLTrue.
#[export] Instance SQLTruth_eq_dec : EqDecision SQLTruth.
Proof. solve_decision. Defined.

Record FieldV2 := MkField { fID : string; fSQLType : string; fExpression : string; fCollation : string;
  fCollationVersion : string; fCollationDeterministic : bool }.
Record RowOriginV2 := MkOrigin { oStableRole : string; oSourceNamespace : string; oEntityKey : string }.

Section types.
Context {V : Type}.
Record BaseRowV2 := MkBaseRow { bEntityKey : string; bValues : gmap string V }.
Record CellV2 := MkCell { cValue : V; cSQLType : string; cSupport : option (gmap string FactID);
  cWitness : option (gmap string Witness.WitnessItem); cExpression : string; cReleaseFact : option FactID }.
Record AnnotatedRowV2 := MkRow { rKey : string; rCells : gmap string CellV2; rRowSupport : option (gmap string FactID);
  rRowWitness : option (gmap string Witness.WitnessItem); rOrigins : list RowOriginV2 }.
Record RelationV2 := MkRelation { relFields : list FieldV2; relRows : list AnnotatedRowV2; relSnapshotBundle : list SnapshotBinding;
  relCanonicalOrder : bool }.
Record BaseRelationSpecV2 := MkSpec { sSourceNamespace : string; sSnapshot : string; sStableRole : string;
  sFields : list FieldV2; sRows : list BaseRowV2 }.
End types.
Arguments BaseRowV2 : clear implicits.
Arguments CellV2 : clear implicits.
Arguments AnnotatedRowV2 : clear implicits.
Arguments RelationV2 : clear implicits.
Arguments BaseRelationSpecV2 : clear implicits.

(** ** Schemas *)
Definition zero_field : FieldV2 := MkField "" "" "" "" "" false.
Definition isCollatableTypeV2 (sqlType : string) : bool := in_list sqlType ["text"; "character"; "character varying"].

Definition validateFieldCollationV2 (sqlType : string) (field : FieldV2) : result unit :=
  if isCollatableTypeV2 sqlType then
    fail_if (invalidToken (fCollation field) || invalidToken (fCollationVersion field) || negb (fCollationDeterministic field))
      (bad "collatable V2 field requires exact deterministic collation metadata")
  else fail_if (given (fCollation field) || given (fCollationVersion field) || fCollationDeterministic field)
      (bad "non-collatable V2 field carries collation metadata").

Definition nul : string := String.String (ascii_of_nat 0) "".
Definition format_bool (b : bool) : string := if b then "true" else "false".

Definition schema_part (field : FieldV2) : string :=
  let typeName := match CanonicalSQLTypeV2 (fSQLType field) with Ok t => t | Err _ => "" end in
  fID field +:+ ":" +:+ typeName +:+ ":" +:+ fCollation field +:+ ":" +:+ fCollationVersion field +:+ ":" +:+
  format_bool (fCollationDeterministic field).
Definition normalizedSchemaV2 (fields : list FieldV2) : string := Join (go_sort (map schema_part fields)) nul.
Definition sameSchemaV2 (left right : list FieldV2) : bool := same (normalizedSchemaV2 left) (normalizedSchemaV2 right).

(** [fieldTypeMapV2]: of two fields with one identifier the later wins. *)
Definition field_types (fields : list FieldV2) : gmap string string :=
  foldl (fun types field => <[fID field := normalizeSQLType (fSQLType field)]> types) ∅ fields.
Definition fieldTypeMapV2 {V} (relation : RelationV2 V) : gmap string string := field_types (relFields relation).
Definition type_of (types : gmap string string) (field : string) : string := default "" (types !! field).

Definition fieldDefinitionV2 {V} (relation : RelationV2 V) (fieldID : string) : FieldV2 :=
  default zero_field (find (fun field => same (fID field) fieldID) (relFields relation)).
Definition inputExpressionV2 {V} (relation : RelationV2 V) (field : string) : string := fExpression (fieldDefinitionV2 relation field).

Definition require_step (available : gmap string string) (seen : list string) (field : string) : result (list string) :=
  fail_if (in_list field seen) (bad "duplicate field %q") ≫= fun _ =>
  fail_if (bool_decide (available !! field = None)) (bad "unknown field %q") ≫= fun _ =>
  Ok (field :: seen).
Definition requireFieldsV2 {V} (relation : RelationV2 V) (fields : list string) : result unit :=
  fold_res (require_step (fieldTypeMapV2 relation)) [] fields ≫= fun _ => Ok tt.

(** ** Snapshot bundles *)
Definition binding_step (values : gmap string string) (binding : SnapshotBinding) : result (gmap string string) :=
  match values !! bSourceNamespace binding with
  | Some snapshot => fail_if (negb (same snapshot (bSnapshot binding))) (bad "one source namespace is bound to different snapshots")
  | None => Ok tt
  end ≫= fun _ => Ok (<[bSourceNamespace binding := bSnapshot binding]> values).

Definition mergeSnapshotBundles (left right : list SnapshotBinding) : result (list SnapshotBinding) :=
  values ← fold_res binding_step ∅ (left ++ right);
  Ok (omap (fun namespace => Binding namespace <$> values !! namespace) (go_sort (map_to_list values).*1)).

Definition bindings_map (bundle : list SnapshotBinding) : gmap string string :=
  foldl (fun bindings binding => <[bSourceNamespace binding := bSnapshot binding]> bindings) ∅ bundle.
Definition bound (bundle : list SnapshotBinding) (namespace : string) : string := default "" (bindings_map bundle !! namespace).

Definition factCoveredByBundleV2 (fact : FactID) (bundle : list SnapshotBinding) : bool :=
  if same (Kind fact) FactBaseRow || same (Kind fact) FactBaseCell
  then same (bound bundle (SourceNamespace fact)) (Snapshot fact)
  else if same (Kind fact) FactDerived
  then forallb (fun binding => same (bound bundle (bSourceNamespace binding)) (bSnapshot binding)) (SnapshotBundle fact)
  else false.

Section algebra.
Context `{SQLLiterals} {V : Type} `{!SQLValues V}.
Implicit Types (relation input : RelationV2 V) (row : AnnotatedRowV2 V) (cell : CellV2 V).

Abbreviation sameFactV2 := FactSet.same_payload (only parsing).
Abbreviation Clone := Witness.Clone (only parsing).

(** [row.Cells[field]]: the zero cell holds a nil value, so a missing cell is an error here. *)
Definition cell_at row (field : string) : result (CellV2 V) :=
  match rCells row !! field with Some cell => Ok cell | None => Err (bad "missing cell") end.

(** ** The representation invariant *)
Definition hashes_to (fact : FactID) (hash : string) : bool := bool_decide (Hash fact = Ok hash).

Definition validateSupportWitnessV2 (support : option (gmap string FactID)) (witness : option (gmap string Witness.WitnessItem))
    (bundle : list SnapshotBinding) : result unit :=
  match support, witness with
  | Some support, Some witness =>
      check_all (fun entry : string * FactID =>
        fail_if (negb (hashes_to entry.2 entry.1) || negb (Witness.isBaseFactV2 entry.2) || negb (factCoveredByBundleV2 entry.2 bundle))
          (bad "invalid V2 support fact")) (map_to_list support) ≫= fun _ =>
      fail_if (negb (size support =? size witness)%nat) (bad "witness support differs from set support") ≫= fun _ =>
      check_all (fun entry : string * Witness.WitnessItem =>
        let item := entry.2 in
        fail_if (negb (hashes_to (Witness.iFact item) entry.1) || (Witness.iMultiplicity item =? 0) ||
                 negb (Witness.isBaseFactV2 (Witness.iFact item)) || negb (factCoveredByBundleV2 (Witness.iFact item) bundle))
          (bad "invalid V2 witness fact") ≫= fun _ =>
        match support !! entry.1 with
        | Some fact => fail_if (negb (sameFactV2 fact (Witness.iFact item))) (bad "witness support differs from set support")
        | None => Err (bad "witness support differs from set support")
        end) (map_to_list witness)
  | _, _ => Err (bad "nil V2 support or witness")
  end.

Definition validateReleaseProvenanceV2 cell (release : FactID) : result unit :=
  if same (Kind release) FactBaseCell then
    hash ← Hash release;
    match Clone (cSupport cell) !! hash with
    | Some supported => fail_if (negb (sameFactV2 supported release)) (bad "V2 base release fact is absent from cell support")
    | None => Err (bad "V2 base release fact is absent from cell support")
    end
  else if same (Kind release) FactDerived then
    commitment ← Witness.Commitment (cWitness cell);
    fail_if (negb (same (NormalizedExpression release) (cExpression cell)) || negb (same (WitnessCommitment release) commitment))
      (bad "V2 derived release fact disagrees with cell provenance")
  else Err (bad "V2 cell release must be a base-cell or derived fact").

Definition validate_release cell (canonicalValue : string) (bundle : list SnapshotBinding) : result unit :=
  match cReleaseFact cell with
  | None => Ok tt
  | Some release =>
      fail_if (negb (is_ok (Validate release)) || negb (IsV2 release)) (bad "V2 cell has an invalid release fact") ≫= fun _ =>
      fail_if (negb (same (SQLType release) (cSQLType cell)) || negb (same (CanonicalValue release) canonicalValue))
        (bad "V2 release fact does not identify its cell value") ≫= fun _ =>
      fail_if (negb (factCoveredByBundleV2 release bundle)) (bad "V2 release fact is outside the relation snapshot bundle") ≫= fun _ =>
      validateReleaseProvenanceV2 cell release
  end.

Definition validate_cell (types : gmap string string) (bundle : list SnapshotBinding) row (field : FieldV2) : result unit :=
  match rCells row !! fID field with
  | Some cell =>
      fail_if (negb (same (cSQLType cell) (type_of types (fID field))) || invalidToken (cExpression cell))
        (bad "V2 cell %q is incomplete or mistyped") ≫= fun _ =>
      canonicalValue ← CanonicalSQLValue (cSQLType cell) (cValue cell);
      map_err (ErrCtx "V2 cell %q") (validateSupportWitnessV2 (cSupport cell) (cWitness cell) bundle) ≫= fun _ =>
      validate_release cell canonicalValue bundle
  | None => Err (bad "V2 cell %q is incomplete or mistyped")
  end.

Definition validate_row (fields : list FieldV2) (types : gmap string string) (bundle : list SnapshotBinding)
    (rows : list string) row : result (list string) :=
  fail_if (invalidToken (rKey row) || negb (size (rCells row) =? length fields)%nat) (bad "V2 row key or cell shape is invalid") ≫= fun _ =>
  fail_if (in_list (rKey row) rows) (bad "duplicate V2 row key") ≫= fun _ =>
  map_err (ErrCtx "V2 row %q") (validateSupportWitnessV2 (rRowSupport row) (rRowWitness row) bundle) ≫= fun _ =>
  check_all (fun origin => fail_if (invalidToken (oStableRole origin) || invalidToken (oSourceNamespace origin) || invalidToken (oEntityKey origin))
    (bad "V2 row origin is incomplete")) (rOrigins row) ≫= fun _ =>
  check_all (validate_cell types bundle row) fields ≫= fun _ =>
  Ok (rKey row :: rows).

Definition validate_field (types : gmap string string) (field : FieldV2) : result (gmap string string) :=
  let canonicalType := CanonicalSQLTypeV2 (fSQLType field) in
  fail_if (invalidToken (fID field) || invalidToken (fExpression field) || negb (bool_decide (canonicalType = Ok (fSQLType field))) ||
           negb (is_ok (validateFieldCollationV2 (fSQLType field) field))) (bad "V2 relation field is not canonical") ≫= fun _ =>
  fail_if (negb (bool_decide (types !! fID field = None))) (bad "duplicate V2 relation field %q") ≫= fun _ =>
  Ok (<[fID field := fSQLType field]> types).

Definition validate_bundle (bundle : list SnapshotBinding) : result unit :=
  canonicalBundle ← mergeSnapshotBundles bundle [];
  fail_if (negb (length canonicalBundle =? length bundle)%nat) (bad "V2 snapshot bundle contains duplicate namespaces") ≫= fun _ =>
  check_all (fun pair : SnapshotBinding * SnapshotBinding =>
    fail_if (negb (bool_decide (pair.1 = pair.2)) || invalidToken (bSourceNamespace pair.1) || invalidToken (bSnapshot pair.1))
      (bad "V2 snapshot bundle is not canonical")) (zip canonicalBundle bundle).

Definition ValidateRelationV2 relation : result unit :=
  fail_if ((length (relFields relation) =? 0)%nat || (length (relSnapshotBundle relation) =? 0)%nat)
    (bad "V2 relation requires a non-empty schema and snapshot bundle") ≫= fun _ =>
  validate_bundle (relSnapshotBundle relation) ≫= fun _ =>
  types ← fold_res validate_field ∅ (relFields relation);
  fold_res (validate_row (relFields relation) types (relSnapshotBundle relation)) [] (relRows relation) ≫= fun _ => Ok tt.

(** [return result, ValidateRelationV2(result)]. *)
Definition validated relation : result (RelationV2 V) := ValidateRelationV2 relation ≫= fun _ => Ok relation.

(** ** Copies *)
Definition cloneCellV2 (source : CellV2 V) : CellV2 V :=
  MkCell (cValue source) (cSQLType source) (Some (Clone (cSupport source))) (Some (Clone (cWitness source)))
    (cExpression source) (cReleaseFact source).
Definition cloneRowV2 (source : AnnotatedRowV2 V) : AnnotatedRowV2 V :=
  MkRow (rKey source) (cloneCellV2 <$> rCells source) (Some (Clone (rRowSupport source))) (Some (Clone (rRowWitness source))) (rOrigins source).
Definition with_rows input (rows : list (AnnotatedRowV2 V)) : RelationV2 V :=
  MkRelation (relFields input) rows (relSnapshotBundle input) (relCanonicalOrder input).
Definition cloneRelationShapeV2 input : RelationV2 V := with_rows input [].
Definition cloneRelationV2 input : RelationV2 V := with_rows input (map cloneRowV2 (relRows input)).

(** ** Dependencies: a set and a multiset that grow together *)
Definition dependency : Type := gmap string FactID * gmap string Witness.WitnessItem.
Definition cell_dependency cell : dependency := (Clone (cSupport cell), Clone (cWitness cell)).
Definition row_dependency row : dependency := (Clone (rRowSupport row), Clone (rRowWitness row)).

(** [support.MergeChecked(...)] and [witness.Merge(...)], one after the other. *)
Definition depend (d other : dependency) : result dependency :=
  support ← FactSet.MergeChecked d.1 other.1;
  witness ← Witness.Merge d.2 other.2;
  Ok (support, witness).
Definition depend_on row (d : dependency) (field : string) : result dependency :=
  cell ← cell_at row field; depend d (cell_dependency cell).
Definition with_dependency row (d : dependency) : AnnotatedRowV2 V := MkRow (rKey row) (rCells row) (Some d.1) (Some d.2) (rOrigins row).

(** ** Scan *)
Definition scan_field (namespace : string) (st : list string * list FieldV2) (field : FieldV2) : result (list string * list FieldV2) :=
  let '(seenFields, canonicalFields) := st in
  match CanonicalSQLTypeV2 (fSQLType field) with
  | Ok typeName =>
      fail_if (invalidToken (fID field) || negb (is_ok (validateFieldCollationV2 typeName field))) (bad "V2 scan field is incomplete") ≫= fun _ =>
      fail_if (in_list (fID field) seenFields) (bad "duplicate field %q") ≫= fun _ =>
      Ok (fID field :: seenFields,
          canonicalFields ++ [MkField (fID field) typeName (namespace +:+ "." +:+ fID field) (fCollation field) (fCollationVersion field)
                                (fCollationDeterministic field)])
  | Err _ => Err (bad "V2 scan field is incomplete")
  end.

(** [support, _ := NewFactSet(fact)]. *)
Definition support_of (fact : FactID) : option (gmap string FactID) :=
  match FactSet.NewFactSet [fact] with Ok s => Some s | Err _ => None end.
Definition witness_of (fact : FactID) : option (gmap string Witness.WitnessItem) :=
  match Witness.NewWitness [fact] with Ok w => Some w | Err _ => None end.

Definition scan_cell (spec : BaseRelationSpecV2 V) (base : BaseRowV2 V) (cells : gmap string (CellV2 V)) (field : FieldV2) :
    result (gmap string (CellV2 V)) :=
  match bValues base !! fID field with
  | Some value =>
      fact ← Witness.NewBaseCellFactV2 (sSourceNamespace spec) (sSnapshot spec) (bEntityKey base) (fID field) (fSQLType field) value;
      Ok (<[fID field := MkCell value (fSQLType field) (support_of fact) (witness_of fact) (fExpression field) (Some fact)]> cells)
  | None => Err (bad "row %q misses %q")
  end.

Definition scan_row (spec : BaseRelationSpecV2 V) (canonicalFields : list FieldV2) (st : list string * list (AnnotatedRowV2 V)) (base : BaseRowV2 V) :
    result (list string * list (AnnotatedRowV2 V)) :=
  let '(seenRows, rows) := st in
  fail_if (invalidToken (bEntityKey base)) (bad "base entity key is required") ≫= fun _ =>
  fail_if (in_list (bEntityKey base) seenRows) (bad "duplicate base entity key") ≫= fun _ =>
  rowFact ← Witness.NewBaseRowFactV2 (sSourceNamespace spec) (sSnapshot spec) (bEntityKey base);
  cells ← fold_res (scan_cell spec base) ∅ canonicalFields;
  Ok (bEntityKey base :: seenRows,
      rows ++ [MkRow (bEntityKey base) cells (support_of rowFact) (witness_of rowFact)
                 [MkOrigin (sStableRole spec) (sSourceNamespace spec) (bEntityKey base)]]).

Definition ScanV2 (spec : BaseRelationSpecV2 V) : result (RelationV2 V) :=
  fail_if (invalidToken (sSourceNamespace spec) || invalidToken (sSnapshot spec) || invalidToken (sStableRole spec) ||
           (length (sFields spec) =? 0)%nat) (bad "V2 scan metadata is incomplete") ≫= fun _ =>
  '(_, canonicalFields) ← fold_res (scan_field (sSourceNamespace spec)) ([], []) (sFields spec);
  '(_, rows) ← fold_res (scan_row spec canonicalFields) ([], []) (sRows spec);
  validated (MkRelation canonicalFields rows [Binding (sSourceNamespace spec) (sSnapshot spec)] false).

(** ** Select, Project, Page *)
Definition select_row (predicateFields : list string) (predicate : AnnotatedRowV2 V -> SQLTruth) (rows : list (AnnotatedRowV2 V))
    (source : AnnotatedRowV2 V) : result (list (AnnotatedRowV2 V)) :=
  if bool_decide (predicate source = SQLTrue) then
    d ← fold_res (depend_on source) (row_dependency source) predicateFields;
    Ok (rows ++ [with_dependency (cloneRowV2 source) d])
  else Ok rows.

(** A nil predicate is [None]. *)
Definition SelectV2 input (predicateFields : list string) (predicate : option (AnnotatedRowV2 V -> SQLTruth)) : result (RelationV2 V) :=
  ValidateRelationV2 input ≫= fun _ =>
  match predicate with
  | None => Err (bad "V2 predicate is required")
  | Some predicate =>
      requireFieldsV2 input predicateFields ≫= fun _ =>
      rows ← fold_res (select_row predicateFields predicate) [] (relRows input);
      validated (with_rows input rows)
  end.

Definition project_cell (source : AnnotatedRowV2 V) (cells : gmap string (CellV2 V)) (field : string) : result (gmap string (CellV2 V)) :=
  cell ← cell_at source field; Ok (<[field := cloneCellV2 cell]> cells).
Definition project_row (fields : list string) (rows : list (AnnotatedRowV2 V)) (source : AnnotatedRowV2 V) : result (list (AnnotatedRowV2 V)) :=
  cells ← fold_res (project_cell source) ∅ fields;
  Ok (rows ++ [MkRow (rKey source) cells (Some (Clone (rRowSupport source))) (Some (Clone (rRowWitness source))) (rOrigins source)]).

Definition ProjectV2 input (fields : list string) : result (RelationV2 V) :=
  ValidateRelationV2 input ≫= fun _ =>
  fail_if (length fields =? 0)%nat (bad "V2 projection requires at least one field") ≫= fun _ =>
  requireFieldsV2 input fields ≫= fun _ =>
  rows ← fold_res (project_row fields) [] (relRows input);
  validated (MkRelation (map (fieldDefinitionV2 input) fields) rows (relSnapshotBundle input) (relCanonicalOrder input)).

(** [start+limit] is a 64-bit sum. *)
Definition PageV2 input (offset limit : Z) : result (RelationV2 V) :=
  ValidateRelationV2 input ≫= fun _ =>
  fail_if ((offset <? 0) || (limit <? 0) || negb (relCanonicalOrder input))
    (bad "V2 page requires non-negative bounds and a canonical total order") ≫= fun _ =>
  let count := Z.of_nat (length (relRows input)) in
  let start := Z.min offset count in
  let finish := if (0 <? limit) && (wrap_int64 (start + limit) <? count) then wrap_int64 (start + limit) else count in
  if finish <? start then Err (ErrNew "slice bounds out of range")
  else validated (with_rows input (map cloneRowV2 (drop (Z.to_nat start) (take (Z.to_nat finish) (relRows input))))).

(** ** Observe *)
Definition materializeCellReleaseV2 relation row cell : result FactID :=
  match cReleaseFact cell with
  | Some fact => Ok fact
  | None =>
      commitment ← Witness.Commitment (cWitness cell);
      Witness.NewDerivedFactV2 (relSnapshotBundle relation) (rKey row) (cExpression cell) (cSQLType cell) (cValue cell) commitment
  end.

Definition observe_cell input row (st : gmap string FactID * gmap string FactID) (field : string) : result (gmap string FactID * gmap string FactID) :=
  let '(release, influence) := st in
  cell ← cell_at row field;
  influence ← FactSet.MergeChecked influence (Clone (cSupport cell));
  fact ← materializeCellReleaseV2 input row cell;
  release ← FactSet.Add (Some release) fact;
  Ok (release, influence).

Definition observe_row input (visibleFields : list string) (st : gmap string FactID * gmap string FactID) row :
    result (gmap string FactID * gmap string FactID) :=
  influence ← FactSet.MergeChecked st.2 (Clone (rRowSupport row));
  fold_res (observe_cell input row) (st.1, influence) visibleFields.

Definition ObserveV2 input (visibleFields : list string) : result FactSet.Observation :=
  ValidateRelationV2 input ≫= fun _ =>
  let visibleFields := if (length visibleFields =? 0)%nat then map fID (relFields input) else visibleFields in
  requireFieldsV2 input visibleFields ≫= fun _ =>
  '(release, influence) ← fold_res (observe_row input visibleFields) (∅, ∅) (relRows input);
  FactSet.Normalize (FactSet.MkObservation ProfileV2 (FactSet.Values release) (FactSet.Values influence) []).
End algebra.

(** ** What the invariant says *)
Section theory.
Context `{SQLLiterals} {V : Type} `{!SQLValues V}.
Implicit Types (relation input r : RelationV2 V) (row : AnnotatedRowV2 V) (cell : CellV2 V) (d : dependency).

(** Multiplicities are 64-bit numbers. *)
Definition machine_witness (w : gmap string Witness.WitnessItem) : Prop :=
  map_Forall (fun _ it => uint64_range (Witness.iMultiplicity it)) w.
Definition machine_cell cell : Prop := machine_witness (Witness.Clone (cWitness cell)).
Definition machine_row row : Prop := machine_witness (Witness.Clone (rRowWitness row)) /\ map_Forall (fun _ cell => machine_cell cell) (rCells row).
Definition machine_relation r : Prop := Forall machine_row (relRows r).

(** A dependency: two maps with the same keys and the same facts, all base facts of the bundle. *)
Record dep_ok (bundle : list SnapshotBinding) (d : dependency) : Prop := {
  dep_support : FactSet.wf d.1;
  dep_witness : Witness.wit_ok d.2;
  dep_base : forall h f, d.1 !! h = Some f -> Witness.isBaseFactV2 f = true /\ factCoveredByBundleV2 f bundle = true;
  dep_covered : forall h it, d.2 !! h = Some it -> factCoveredByBundleV2 (Witness.iFact it) bundle = true;
  dep_same : forall h it, d.2 !! h = Some it -> exists f, d.1 !! h = Some f /\ CanonicalPayload f = CanonicalPayload (Witness.iFact it);
  dep_size : size d.1 = size d.2 }.

Lemma hashes_to_ok f h : hashes_to f h = true <-> Hash f = Ok h.
Proof. unfold hashes_to. by rewrite bool_decide_eq_true. Qed.

Lemma validate_sw_ok support witness bundle : machine_witness (Witness.Clone witness) ->
  validateSupportWitnessV2 support witness bundle = Ok tt <->
  exists s w, support = Some s /\ witness = Some w /\ dep_ok bundle (s, w).
Proof.
  intros Hm. unfold validateSupportWitnessV2. destruct support as [s|], witness as [w|]; [|naive_solver..]. cbn [Witness.Clone default] in Hm.
  rewrite seq_ok, check_all_ok, fail_if_bind_ok, check_all_ok, negb_false_iff, Nat.eqb_eq, !Forall_forall.
  assert (Hs : (forall e : string * FactID, e ∈ map_to_list s -> fail_if (negb (hashes_to e.2 e.1) || negb (Witness.isBaseFactV2 e.2) ||
      negb (factCoveredByBundleV2 e.2 bundle)) (bad "invalid V2 support fact") = Ok tt) <->
    FactSet.wf s /\ forall h f, s !! h = Some f -> Witness.isBaseFactV2 f = true /\ factCoveredByBundleV2 f bundle = true).
  { split.
    - intros Hall. assert (Hp : forall h f, s !! h = Some f -> Hash f = Ok h /\ Witness.isBaseFactV2 f = true /\ factCoveredByBundleV2 f bundle = true).
      { intros h f Hf. specialize (Hall (h, f) (proj2 (elem_of_map_to_list s h f) Hf)). apply fail_if_ok in Hall.
        rewrite !orb_false_iff, !negb_false_iff, hashes_to_ok in Hall. naive_solver. }
      split; [intros h f Hf; by apply Hp|intros h f Hf; destruct (Hp h f Hf) as (_ & ? & ?); done].
    - intros [Hw Hb] [h f] Hin%elem_of_map_to_list. apply fail_if_ok. rewrite !orb_false_iff, !negb_false_iff, hashes_to_ok. cbn [fst snd].
      destruct (Hb h f Hin). split; [split; [by apply Hw|done]|done]. }
  rewrite Hs. split.
  - intros ((Hw & Hb) & Hsize & Hall). exists s, w. split; [done|]. split; [done|].
    assert (Hp : forall h it, w !! h = Some it -> Hash (Witness.iFact it) = Ok h /\ Witness.isBaseFactV2 (Witness.iFact it) = true /\
      Witness.iMultiplicity it <> 0 /\ factCoveredByBundleV2 (Witness.iFact it) bundle = true /\
      exists f, s !! h = Some f /\ CanonicalPayload f = CanonicalPayload (Witness.iFact it)).
    { intros h it Hit. specialize (Hall (h, it) (proj2 (elem_of_map_to_list w h it) Hit)). cbv zeta in Hall. cbn [fst snd] in Hall.
      apply fail_if_bind_ok in Hall as [G Hf]. rewrite !orb_false_iff, !negb_false_iff, hashes_to_ok, Z.eqb_neq in G. destruct G as (((G1 & G2) & G3) & G4).
      destruct (s !! h) as [f|] eqn:Ef; [|done]. apply fail_if_ok, negb_false_iff in Hf. apply (FactSet.same_payload_true _ _ h) in Hf; [|done]. eauto 8. }
    split; cbn [fst snd]; [done| |exact Hb| | |done].
    + intros h it Hit. destruct (Hp h it Hit) as (? & ? & ? & _). pose proof (Hm h it Hit) as Hr. cbn beta in Hr. unfold uint64_range in Hr.
      split; [done|]. split; [done|]. lia.
    + intros h it Hit. by apply (Hp h it).
    + intros h it Hit. by apply (Hp h it).
  - intros (s' & w' & [= <-] & [= <-] & [Hsw Hww Hb Hc Hsame Hsize]). cbn [fst snd] in *. split; [done|]. split; [done|].
    intros [h it] Hin%elem_of_map_to_list. cbv zeta. cbn [fst snd]. destruct (Hww h it Hin) as (Hh & Hbase & Hmu). apply fail_if_bind_ok. split.
    + rewrite !orb_false_iff, !negb_false_iff, hashes_to_ok, Z.eqb_neq. split; [split; [split; [done|lia]|done]|by eapply Hc].
    + destruct (Hsame h it Hin) as (f & -> & Hp). apply fail_if_ok, negb_false_iff. by apply (FactSet.same_payload_true _ _ h).
Qed.

(** The keys of the two maps are the same. *)
Lemma dep_dom bundle d h : dep_ok bundle d -> is_Some (d.1 !! h) <-> is_Some (d.2 !! h).
Proof.
  intros D. assert (Hdom : dom d.2 = dom d.1).
  { apply map_dom_eq; [|by rewrite (dep_size _ _ D)]. intros k [it Hk]. destruct (dep_same _ _ D k it Hk) as (f & -> & _). by eexists. }
  rewrite <- !elem_of_dom. by rewrite Hdom.
Qed.

Definition types_of (fields : list FieldV2) : gmap string string := foldl (fun types f => <[fID f := fSQLType f]> types) ∅ fields.

Record field_ok (f : FieldV2) : Prop := {
  fok_id : invalidToken (fID f) = false;
  fok_expression : invalidToken (fExpression f) = false;
  fok_type : CanonicalSQLTypeV2 (fSQLType f) = Ok (fSQLType f);
  fok_collation : validateFieldCollationV2 (fSQLType f) f = Ok tt }.

Lemma types_fold_lookup (g : FieldV2 -> string) (fields : list FieldV2) : forall (m : gmap string string) x,
  foldl (fun types f => <[fID f := g f]> types) m fields !! x =
  match find (fun f => same (fID f) x) (rev fields) with Some f => Some (g f) | None => m !! x end.
Proof.
  induction fields as [|f fields IH] using rev_ind; intros m x; [done|]. rewrite foldl_app, rev_app_distr. cbn [foldl rev app find].
  destruct (same (fID f) x) eqn:E.
  - apply same_true in E as ->. by rewrite lookup_insert_eq.
  - rewrite lookup_insert_ne by (by apply same_false). apply IH.
Qed.

Lemma find_field (fields : list FieldV2) f : NoDup (map fID fields) -> f ∈ fields -> find (fun g => same (fID g) (fID f)) fields = Some f.
Proof.
  induction fields as [|g fields IH]; [by intros _ ?%elem_of_nil|]. cbn [map find]. rewrite NoDup_cons. intros [Hn Hnd] [->|Hf]%elem_of_cons.
  - by rewrite (proj2 (same_true _ _) eq_refl).
  - destruct (same (fID g) (fID f)) eqn:E; [|by apply IH]. apply same_true in E. destruct Hn. rewrite E. apply list_elem_of_fmap. eauto.
Qed.
Lemma find_none_field (fields : list FieldV2) x : find (fun g => same (fID g) x) fields = None <-> x ∉ map fID fields.
Proof.
  induction fields as [|g fields IH]; cbn [find map]; [split; [intros _ ?%elem_of_nil|]; done|]. rewrite not_elem_of_cons. destruct (same (fID g) x) eqn:E.
  - apply same_true in E. naive_solver.
  - apply same_false in E. rewrite IH. naive_solver.
Qed.

Lemma types_lookup (g : FieldV2 -> string) fields f : NoDup (map fID fields) -> f ∈ fields ->
  foldl (fun (types : gmap string string) f => <[fID f := g f]> types) ∅ fields !! fID f = Some (g f).
Proof.
  intros Hnd Hf. rewrite types_fold_lookup, find_field; [done| |].
  - rewrite map_rev, <- Permutation_rev. done.
  - by rewrite <- Permutation_rev.
Qed.

Definition dep_present (bundle : list SnapshotBinding) (support : option (gmap string FactID))
    (witness : option (gmap string Witness.WitnessItem)) : Prop :=
  exists s w, support = Some s /\ witness = Some w /\ dep_ok bundle (s, w).

Record cell_ok (bundle : list SnapshotBinding) (f : FieldV2) cell : Prop := {
  cok_type : cSQLType cell = fSQLType f;
  cok_expression : invalidToken (cExpression cell) = false;
  cok_dep : dep_present bundle (cSupport cell) (cWitness cell);
  cok_value : exists c, CanonicalSQLValue (cSQLType cell) (cValue cell) = Ok c /\ validate_release cell c bundle = Ok tt }.

Definition origin_ok (o : RowOriginV2) : Prop :=
  invalidToken (oStableRole o) || invalidToken (oSourceNamespace o) || invalidToken (oEntityKey o) = false.

Record row_ok (fields : list FieldV2) (bundle : list SnapshotBinding) row : Prop := {
  rok_key : invalidToken (rKey row) = false;
  rok_size : size (rCells row) = length fields;
  rok_dep : dep_present bundle (rRowSupport row) (rRowWitness row);
  rok_origins : Forall origin_ok (rOrigins row);
  rok_cells : forall f, f ∈ fields -> exists cell, rCells row !! fID f = Some cell /\ cell_ok bundle f cell }.

Record valid r : Prop := {
  v_fields : relFields r <> [];
  v_bundle : relSnapshotBundle r <> [];
  v_bundle_ok : validate_bundle (relSnapshotBundle r) = Ok tt;
  v_field_ok : Forall field_ok (relFields r);
  v_ids : NoDup (map fID (relFields r));
  v_keys : NoDup (map rKey (relRows r));
  v_rows : Forall (row_ok (relFields r) (relSnapshotBundle r)) (relRows r) }.

Lemma validate_field_step types f types' : validate_field types f = Ok types' <->
  field_ok f /\ types !! fID f = None /\ types' = <[fID f := fSQLType f]> types.
Proof.
  unfold validate_field. cbv zeta. rewrite !fail_if_bind_ok, !orb_false_iff, !negb_false_iff, !bool_decide_eq_true. split.
  - intros ((((E1 & E2) & E3) & E4) & Hn & <-%Ok_inj). split; [|done]. split; [done|done|done|by apply unit_ok_iff].
  - intros ([E1 E2 E3 E4] & Hn & ->). rewrite E4. done.
Qed.

Lemma validate_fields_ok fields : forall types types', fold_res validate_field types fields = Ok types' <->
  Forall field_ok fields /\ NoDup (map fID fields) /\ (forall f, f ∈ fields -> types !! fID f = None) /\
  types' = foldl (fun types f => <[fID f := fSQLType f]> types) types fields.
Proof.
  induction fields as [|f fields IH]; intros types types'; cbn [fold_res map foldl].
  - split; [intros <-%Ok_inj; split; [constructor|]; split; [constructor|]; split; [by intros f ?%elem_of_nil|done]|by intros (_ & _ & _ & ->)].
  - rewrite bind_ok. setoid_rewrite validate_field_step. rewrite Forall_cons, NoDup_cons. split.
    + intros (t & (Hf & Hn & ->) & (HF & Hnd & Hs & ->)%IH). split; [done|]. split.
      * split; [|done]. intros (g & Eg & Hg)%list_elem_of_fmap. specialize (Hs g Hg). rewrite <- Eg, lookup_insert_eq in Hs. done.
      * split; [|done]. intros g [->|Hg]%elem_of_cons; [done|]. specialize (Hs g Hg). by apply lookup_insert_None in Hs as [? _].
    + intros ((Hf & HF) & (Hnot & Hnd) & Hs & ->). eexists. split; [split; [done|]; split; [apply Hs; by left|done]|]. apply IH.
      split; [done|]. split; [done|]. split; [|done]. intros g Hg. rewrite lookup_insert_ne; [apply Hs; by right|].
      intros E. apply Hnot. apply list_elem_of_fmap. eauto.
Qed.

Lemma validate_cell_ok types bundle row f : types !! fID f = Some (fSQLType f) ->
  (forall cell, rCells row !! fID f = Some cell -> machine_cell cell) ->
  validate_cell types bundle row f = Ok tt <-> exists cell, rCells row !! fID f = Some cell /\ cell_ok bundle f cell.
Proof.
  intros Ht Hm. unfold validate_cell, type_of. destruct (rCells row !! fID f) as [cell|]; [|naive_solver]. rewrite Ht. cbn [default id].
  specialize (Hm cell eq_refl). rewrite fail_if_bind_ok, orb_false_iff, negb_false_iff, same_true, bind_ok. setoid_rewrite seq_ok.
  setoid_rewrite map_err_ok. setoid_rewrite validate_sw_ok; [|done]. split.
  - intros ((E1 & E2) & c & Hc & Hd & Hr). exists cell. split; [done|]. split; [done|done|done|eauto].
  - intros (? & [= <-] & [E1 E2 Hd (c & Hc & Hr)]). split; [done|]. eauto.
Qed.

Lemma validate_row_ok fields bundle row seen seen' : NoDup (map fID fields) -> machine_row row ->
  validate_row fields (types_of fields) bundle seen row = Ok seen' <-> row_ok fields bundle row /\ rKey row ∉ seen /\ seen' = rKey row :: seen.
Proof.
  intros Hnd [Hm Hmc]. unfold validate_row. rewrite !fail_if_bind_ok, orb_false_iff, negb_false_iff, Nat.eqb_eq, in_list_false, !seq_ok, map_err_ok,
    validate_sw_ok, !check_all_ok, !Forall_forall by done.
  assert (Hcells : (forall f, f ∈ fields -> validate_cell (types_of fields) bundle row f = Ok tt) <->
    forall f, f ∈ fields -> exists cell, rCells row !! fID f = Some cell /\ cell_ok bundle f cell).
  { split; intros Hall f Hf; specialize (Hall f Hf); (eapply validate_cell_ok; [by apply types_lookup|intros cell; apply Hmc|exact Hall]) ||
      (eapply validate_cell_ok in Hall; [exact Hall|by apply types_lookup|intros cell; apply Hmc]). }
  rewrite Hcells. split.
  - intros ((E1 & E2) & Hn & Hd & Ho & Hc & <-%Ok_inj). split; [|done]. split; [done|done|done| |done].
    apply Forall_forall. intros o Hin. by eapply fail_if_ok, (Ho o).
  - intros ([E1 E2 Hd Ho Hc] & Hn & ->). split; [done|]. split; [done|]. split; [done|]. split; [|done].
    intros o Hin. apply fail_if_ok. rewrite Forall_forall in Ho. by apply Ho.
Qed.

Lemma validate_iff r : machine_relation r -> ValidateRelationV2 r = Ok tt <-> valid r.
Proof.
  intros Hm. unfold ValidateRelationV2. rewrite fail_if_bind_ok, orb_false_iff, !Nat.eqb_neq, seq_ok, bind_ok.
  setoid_rewrite validate_fields_ok.
  assert (Hlen : forall {A} (l : list A), length l <> 0%nat <-> l <> []) by (intros A [|]; cbn; split; done).
  rewrite !Hlen.
  assert (Hrows : NoDup (map fID (relFields r)) -> forall out,
    fold_res (validate_row (relFields r) (types_of (relFields r)) (relSnapshotBundle r)) [] (relRows r) = Ok out <->
    Forall (row_ok (relFields r) (relSnapshotBundle r)) (relRows r) /\ NoDup (map rKey (relRows r)) /\ out = rev (map rKey (relRows r))).
  { intros Hnd out. rewrite (fold_unique _ rKey (row_ok (relFields r) (relSnapshotBundle r))).
    - rewrite app_nil_r. split; [naive_solver|]. intros (? & ? & ->). split; [done|]. split; [done|]. split; [|done]. intros x _ Hin. by apply elem_of_nil in Hin.
    - intros seen x seen' Hx. apply validate_row_ok; [done|]. by eapply Forall_forall in Hm. }
  split.
  - intros ((F1 & F2) & HB & types & (Hf & Hnd & _ & ->) & (out & Hout & _)%bind_ok). apply (Hrows Hnd) in Hout as (Hr & Hk & _). by split.
  - intros [F1 F2 HB Hf Hnd Hk Hr]. split; [done|]. split; [done|]. eexists. split; [split; [exact Hf|]; split; [done|]; split; [|done]; intros; apply lookup_empty|].
    apply bind_ok. exists (rev (map rKey (relRows r))). split; [|done]. by apply Hrows.
Qed.

Lemma require_ok r fs : requireFieldsV2 r fs = Ok tt <-> NoDup fs /\ forall f, f ∈ fs -> f ∈ map fID (relFields r).
Proof.
  unfold requireFieldsV2. rewrite bind_ok.
  assert (Hin : forall f, fieldTypeMapV2 r !! f = None <-> f ∉ map fID (relFields r)).
  { intros f. unfold fieldTypeMapV2, field_types. rewrite types_fold_lookup, lookup_empty.
    destruct (find _ _) as [g|] eqn:E.
    - apply find_some in E as [Hg E%same_true]. split; [done|]. intros Hn. destruct Hn. apply list_elem_of_fmap. exists g. split; [done|].
      rewrite (Permutation_rev (relFields r)). by apply list_elem_of_In.
    - apply find_none_field in E. rewrite map_rev, <- Permutation_rev in E. done. }
  setoid_rewrite (fold_unique _ (fun f => f) (fun f => f ∈ map fID (relFields r))).
  - rewrite map_id. split.
    + intros (out & (HF & Hnd & _ & _) & _). split; [done|]. by apply Forall_forall.
    + intros (Hnd & HF). exists (rev fs ++ []). split; [|done]. split; [by apply Forall_forall|]. split; [done|]. split; [|done].
      intros f _ Hf. by apply elem_of_nil in Hf.
  - intros seen f seen' _. unfold require_step. rewrite !fail_if_bind_ok, in_list_false, bool_decide_eq_false, Hin. split.
    + intros (? & Hf & <-%Ok_inj). split; [|done]. by destruct (decide (f ∈ map fID (relFields r))).
    + intros (? & ? & ->). split; [done|]. split; [by intros []|done].
Qed.

(** ** Bundles *)
Definition bound_in (m : gmap string string) (l : list SnapshotBinding) (ns s : string) : Prop := m !! ns = Some s \/ Binding ns s ∈ l.

Lemma binding_fold l : forall m,
  (forall m', fold_res binding_step m l = Ok m' -> forall ns s, m' !! ns = Some s <-> bound_in m l ns s) /\
  ((forall ns s s', bound_in m l ns s -> bound_in m l ns s' -> s = s') -> exists m', fold_res binding_step m l = Ok m').
Proof.
  unfold bound_in. induction l as [|[ns0 s0] l IH]; intros m; cbn [fold_res].
  - split; [|eauto]. intros m' <-%Ok_inj ns s. split; [auto|]. by intros [?|?%elem_of_nil].
  - assert (Hstep : forall m1, binding_step m (Binding ns0 s0) = Ok m1 <-> (m !! ns0 = None \/ m !! ns0 = Some s0) /\ m1 = <[ns0 := s0]> m).
    { intros m1. unfold binding_step. cbn [bSourceNamespace bSnapshot]. destruct (m !! ns0) as [x|]; rewrite bind_ok.
      - setoid_rewrite fail_if_ok'. setoid_rewrite negb_false_iff. setoid_rewrite same_true. split.
        + intros ([] & -> & <-%Ok_inj). auto.
        + intros ([?|[= ->]] & ->); [done|]. by exists tt.
      - split; [intros ([] & _ & <-%Ok_inj); auto|intros (_ & ->); by exists tt]. }
    assert (Hext : m !! ns0 = None \/ m !! ns0 = Some s0 -> forall ns s, <[ns0 := s0]> m !! ns = Some s \/ Binding ns s ∈ l <->
      m !! ns = Some s \/ Binding ns s ∈ Binding ns0 s0 :: l).
    { intros Hm ns s. rewrite elem_of_cons. destruct (decide (ns = ns0)) as [->|Hne].
      - rewrite lookup_insert_eq. split; [intros [[= ->]|?]; auto|]. intros [E|[[= ->]|?]]; [|auto|auto]. left. destruct Hm; congruence.
      - rewrite lookup_insert_ne by done. split; [naive_solver|]. intros [?|[[= ->]|?]]; [auto|done|auto]. }
    split.
    + intros m' (m1 & (Hm & ->)%Hstep & E)%bind_ok ns s. destruct (IH (<[ns0 := s0]> m)) as [IH1 _]. rewrite (IH1 m' E). by apply Hext.
    + intros Hc. assert (Hm : m !! ns0 = None \/ m !! ns0 = Some s0).
      { destruct (m !! ns0) as [x|] eqn:Ex; [|auto]. right. f_equal. apply (Hc ns0); [by left|right; by left]. }
      rewrite (proj2 (Hstep _) (conj Hm eq_refl)). cbn [mbind result_bind]. apply IH. intros ns s s' Hs Hs'. by apply (Hc ns); apply Hext.
Qed.

Lemma merge_bundles_ok left right b : mergeSnapshotBundles left right = Ok b <->
  (forall ns s s', Binding ns s ∈ left ++ right -> Binding ns s' ∈ left ++ right -> s = s') /\
  StronglySorted clt (map bSourceNamespace b) /\ forall x, x ∈ b <-> x ∈ left ++ right.
Proof.
  unfold mergeSnapshotBundles. rewrite bind_ok. destruct (binding_fold (left ++ right) ∅) as [B1 B2]. unfold bound_in in *.
  assert (Hempty : forall (ns s : string), (∅ : gmap string string) !! ns = Some s <-> False) by (intros; by rewrite lookup_empty).
  assert (Hlist : forall m, fold_res binding_step ∅ (left ++ right) = Ok m ->
    let l := omap (fun ns => Binding ns <$> m !! ns) (go_sort (map_to_list m).*1) in
    StronglySorted clt (map bSourceNamespace l) /\ forall x, x ∈ l <-> x ∈ left ++ right).
  { intros m Em. specialize (B1 m Em).
    assert (Hkeys : forall ns, ns ∈ go_sort (map_to_list m).*1 <-> is_Some (m !! ns)) by (intros ns; rewrite elem_go_sort; apply FactSet.elem_keys).
    assert (Hmap : map bSourceNamespace (omap (fun ns => Binding ns <$> m !! ns) (go_sort (map_to_list m).*1)) = go_sort (map_to_list m).*1).
    { assert (Hin : forall ns, ns ∈ go_sort (map_to_list m).*1 -> is_Some (m !! ns)) by (intros; by apply Hkeys). clear Hkeys.
      induction (go_sort _) as [|ns l IH]; [done|]. cbn [omap list_omap]. destruct (Hin ns) as [s Hs]; [by left|]. rewrite Hs.
      cbn [fmap option_fmap option_map map bSourceNamespace]. f_equal. apply IH. intros k Hk. apply Hin. by right. }
    cbv zeta. split; [rewrite Hmap; apply go_sort_strict, NoDup_fst_map_to_list|]. intros [ns s]. rewrite list_elem_of_omap. split.
    - intros (k & _ & E). destruct (m !! k) as [x|] eqn:Ek; [|done]. injection E as -> ->. apply B1 in Ek as [Ek|Ek]; [by rewrite lookup_empty in Ek|done].
    - intros Hin. assert (Hs : m !! ns = Some s) by (apply B1; by right). exists ns. rewrite Hs. split; [apply Hkeys; by eexists|done]. }
  split.
  - intros (m & Em & <-%Ok_inj). split; [|by apply Hlist]. intros ns s s' Hs Hs'. pose proof (proj2 (B1 m Em ns s) (or_intror Hs)) as E1.
    pose proof (proj2 (B1 m Em ns s') (or_intror Hs')) as E2. congruence.
  - intros (Hc & Hsort & Hin). destruct B2 as [m Em].
    { intros ns s s' [Hs|Hs] [Hs'|Hs']; [by rewrite lookup_empty in Hs..|by rewrite lookup_empty in Hs'|by eapply Hc]. }
    exists m. split; [done|]. f_equal. destruct (Hlist m Em) as [Hsort' Hin'].
    apply (strongly_sorted_ext (fun a b => clt (bSourceNamespace a) (bSourceNamespace b))).
    + intros x. apply clt_irrefl.
    + intros x y z. apply clt_trans.
    + by apply (sorted_map_inv clt bSourceNamespace).
    + by apply (sorted_map_inv clt bSourceNamespace).
    + intros x. by rewrite Hin', Hin.
Qed.

(** ** Sums of dependencies *)
Definition dep_facts d : list FactID := FactSet.range d.1 ++ Witness.wfacts d.2.
Definition dep_wf d : Prop := FactSet.wf d.1 /\ Witness.wit_ok d.2.
Definition dep_sum (ds : list dependency) (e : dependency) : Prop :=
  Witness.union_of (map fst ds) e.1 /\ Witness.sum_of (map snd ds) e.2.
Definition dep_total (ds : list dependency) (h : string) : Z := Witness.total (map snd ds) h.

Lemma elem_dep_facts d f : f ∈ dep_facts d <-> (exists h, d.1 !! h = Some f) \/ exists h it, d.2 !! h = Some it /\ Witness.iFact it = f.
Proof. unfold dep_facts. by rewrite elem_of_app, FactSet.elem_range, Witness.elem_wfacts. Qed.

Lemma dep_sum_facts ds e : dep_sum ds e -> dep_facts e ⊆ flat_map dep_facts ds.
Proof.
  intros [U (_ & _ & F)] f [(h & Hf)|(h & it & Hit & <-)]%elem_dep_facts; apply Witness.elem_flat_map.
  - apply U in Hf as (s & (d & -> & Hd)%list_elem_of_fmap & Hf). exists d. split; [done|]. apply elem_dep_facts. eauto.
  - destruct (F h it Hit) as (w & i & (d & -> & Hd)%list_elem_of_fmap & Hi & <-). exists d. split; [done|]. apply elem_dep_facts. eauto.
Qed.

Lemma dep_sum_wf ds e : Forall dep_wf ds -> dep_sum ds e -> dep_wf e.
Proof.
  intros Hds [U S]. split; [|by apply S]. eapply Witness.union_of_wf; [|exact U]. intros s (d & -> & Hd)%list_elem_of_fmap.
  rewrite Forall_forall in Hds. by apply Hds.
Qed.

Lemma dep_sum_perm ds ds' e e' : Witness.collision_free (flat_map dep_facts ds) -> Forall dep_wf ds -> ds ≡ₚ ds' ->
  dep_sum ds e -> dep_sum ds' e' -> e = e'.
Proof.
  intros C Hds P [U S] [U' S']. destruct e as [s w], e' as [s' w']. cbn [fst snd] in *. f_equal.
  - eapply Witness.union_of_perm; [|exact U|exact U']. intros x. by rewrite P.
  - eapply Witness.sum_of_perm; [| | |exact S|exact S'].
    + eapply Witness.collision_free_sub; [|exact C]. intros f (x & (d & -> & Hd)%list_elem_of_fmap & Hf)%Witness.elem_flat_map.
      apply Witness.elem_flat_map. exists d. split; [done|]. apply elem_of_app. by right.
    + intros x (d & -> & Hd)%list_elem_of_fmap. rewrite Forall_forall in Hds. by apply Hds.
    + by apply Permutation_map.
Qed.

Lemma dep_sum_trans ds e os e' : dep_sum ds e -> dep_sum (e :: os) e' -> dep_sum (ds ++ os) e'.
Proof. intros [U S] [U' S']. unfold dep_sum. rewrite !map_app. split; [by eapply Witness.union_of_trans|by eapply Witness.sum_of_trans]. Qed.

Lemma depend_sum d d' e : dep_wf d -> dep_wf d' -> Witness.collision_free (dep_facts d ++ dep_facts d') ->
  depend d d' = Ok e <-> Witness.fits d.2 d'.2 /\ dep_sum [d; d'] e.
Proof.
  intros [Hs Hw] [Hs' Hw'] C. unfold depend. rewrite bind_ok. setoid_rewrite bind_ok.
  assert (C1 : Witness.collision_free (FactSet.range d.1 ++ FactSet.range d'.1)).
  { eapply Witness.collision_free_sub; [|exact C]. unfold dep_facts. set_solver. }
  assert (C2 : Witness.collision_free (Witness.wfacts d.2 ++ Witness.wfacts d'.2)).
  { eapply Witness.collision_free_sub; [|exact C]. unfold dep_facts. set_solver. }
  setoid_rewrite Witness.MergeChecked_union; [|done..]. setoid_rewrite Witness.Merge_sum; [|done..]. unfold dep_sum. cbn [map]. split.
  - intros (s & Us & w & (F & Sw) & <-%Ok_inj). done.
  - intros (F & Us & Sw). exists e.1. split; [done|]. exists e.2. split; [done|]. by destruct e.
Qed.

Lemma depend_exists d d' : dep_wf d -> dep_wf d' -> Witness.collision_free (dep_facts d ++ dep_facts d') ->
  Witness.fits d.2 d'.2 -> exists e, depend d d' = Ok e.
Proof.
  intros [Hs Hw] [Hs' Hw'] C F. unfold depend.
  assert (Hag : FactSet.agree d.1 d'.1).
  { intros h f g Hf Hg. rewrite (C f g h); [done|..|by apply Hs|by apply Hs']; apply elem_of_app; [left|right]; apply elem_dep_facts; left; eauto. }
  rewrite (proj2 (FactSet.MergeChecked_ok d.1 d'.1 _ Hs Hs') (conj Hag eq_refl)). cbn [mbind result_bind].
  assert (Hwa : Witness.witness_agree d.2 d'.2).
  { intros h a b Ha Hb. rewrite (C (Witness.iFact a) (Witness.iFact b) h); [done|..|by apply (Hw h a)|by apply (Hw' h b)];
      apply elem_of_app; [left|right]; apply elem_dep_facts; right; eauto. }
  rewrite (proj2 (Witness.Merge_ok d.2 d'.2 _ Hw Hw') (conj Hwa (conj F eq_refl))). eexists. done.
Qed.

(** Accumulating a list succeeds exactly when the sum is a 64-bit number everywhere. *)
Lemma depend_all ds : forall d, Forall dep_wf (d :: ds) -> Witness.collision_free (flat_map dep_facts (d :: ds)) ->
  (forall e, fold_res depend d ds = Ok e -> dep_sum (d :: ds) e) /\
  ((forall h, dep_total (d :: ds) h <= max_uint64) -> exists e, fold_res depend d ds = Ok e).
Proof.
  induction ds as [|x ds IH]; intros d Hds C.
  - apply Forall_cons in Hds as [[Hs Hw] _]. cbn [fold_res]. split; [|eauto]. intros e <-%Ok_inj.
    split; [apply Witness.union_of_one|by apply Witness.sum_of_one].
  - apply Forall_cons in Hds as [Hd Hds]. apply Forall_cons in Hds as [Hx Hds].
    assert (Cx : Witness.collision_free (dep_facts d ++ dep_facts x)).
    { eapply Witness.collision_free_sub; [|exact C]. cbn [flat_map]. intros f. rewrite !elem_of_app. tauto. }
    assert (Hstep : forall e1, dep_sum [d; x] e1 -> dep_wf e1 /\ Witness.collision_free (flat_map dep_facts (e1 :: ds))).
    { intros e1 S1. split; [eapply dep_sum_wf; [|exact S1]; by rewrite Forall_cons, Forall_singleton|]. eapply Witness.collision_free_sub; [|exact C].
      pose proof (dep_sum_facts _ _ S1) as Hsub. cbn [flat_map] in *. rewrite app_nil_r in Hsub.
      intros f. rewrite !elem_of_app. intros [Hf|]; [|auto]. apply Hsub in Hf. rewrite elem_of_app in Hf. tauto. }
    cbn [fold_res]. split.
    + intros e (e1 & E1 & E)%bind_ok. apply depend_sum in E1 as [F1 S1]; [|done..]. destruct (Hstep e1 S1) as [W1 C1].
      destruct (IH e1) as [IH1 _]; [by constructor|done|]. exact (dep_sum_trans [d; x] e1 ds e S1 (IH1 e E)).
    + intros T. destruct (depend_exists d x) as [e1 E1]; [done..| |].
      { intros h. specialize (T h). unfold dep_total in T. cbn [map Witness.total foldr] in T.
        assert (0 <= Witness.total (map snd ds) h).
        { apply Witness.total_nonneg. intros w (y & -> & Hy)%list_elem_of_fmap. rewrite Forall_forall in Hds. by apply Hds. }
        unfold Witness.total in *. lia. }
      rewrite E1. cbn [mbind result_bind]. apply depend_sum in E1 as [F1 S1]; [|done..]. destruct (Hstep e1 S1) as [W1 C1].
      destruct (IH e1) as [_ IH2]; [by constructor|done|]. apply IH2. intros h. specialize (T h). unfold dep_total in *.
      destruct S1 as [_ (_ & M1 & _)]. cbn [map Witness.total foldr] in *. rewrite M1. cbn [Witness.total map foldr]. lia.
Qed.

Lemma dep_total_fits ds e h : dep_sum ds e -> dep_total ds h <= max_uint64.
Proof. intros [_ S]. by eapply Witness.sum_of_fits. Qed.
End theory.
End Relation.
