(* ===== verification/RelationProps.v ===== *)
(** * What the operators on annotated relations do

    Exact descriptions of [SelectV2], [ProjectV2], [PageV2], [ScanV2] and
    [ObserveV2], on relations that satisfy the invariant. *)

From S2P Require Import Prelude GoBytes Ordering GoText Sha256 FactId FactSet Witness Relation.
Import GoText FactId Relation.

Module RelationProps.
Section props.
Context `{SQLLiterals} {V : Type} `{!SQLValues V}.
Implicit Types (input r : RelationV2 V) (row : AnnotatedRowV2 V) (cell : CellV2 V) (d : dependency).

(** ** The facts a relation carries *)
Definition cell_facts cell : list FactID := dep_facts (cell_dependency cell).
Definition row_facts row : list FactID :=
  dep_facts (row_dependency row) ++ flat_map (fun entry : string * CellV2 V => cell_facts entry.2) (map_to_list (rCells row)).
Definition rel_facts r : list FactID := flat_map row_facts (relRows r).

(** The dependencies of the cells of some fields. *)
Definition field_deps row (fs : list string) : list dependency := omap (fun f => cell_dependency <$> rCells row !! f) fs.

Lemma elem_row_facts_cell row f cell : rCells row !! f = Some cell -> cell_facts cell ⊆ row_facts row.
Proof.
  intros Hc x Hx. apply elem_of_app. right. apply Witness.elem_flat_map. exists (f, cell). split; [by apply elem_of_map_to_list|done].
Qed.
Lemma row_in_rel r row : row ∈ relRows r -> row_facts row ⊆ rel_facts r.
Proof. intros Hr x Hx. apply Witness.elem_flat_map. eauto. Qed.

Lemma clone_cell_id bundle f cell : cell_ok bundle f cell -> cloneCellV2 cell = cell.
Proof. intros [_ _ (s & w & E1 & E2 & _) _]. destruct cell. cbn in *. by subst. Qed.

Lemma row_cell fields bundle row x cell : NoDup (map fID fields) -> row_ok fields bundle row -> rCells row !! x = Some cell ->
  exists f, f ∈ fields /\ fID f = x /\ cell_ok bundle f cell.
Proof.
  intros Hnd R Hc. set (ids := list_to_set (map fID fields) : gset string).
  assert (Hids : forall k, k ∈ ids <-> k ∈ map fID fields) by (intros k; unfold ids; apply elem_of_list_to_set).
  assert (Hsub : ids ⊆ dom (rCells row)).
  { intros k (f & -> & Hf)%Hids%list_elem_of_fmap. apply elem_of_dom. destruct (rok_cells _ _ _ R f Hf) as (c & -> & _). by eexists. }
  assert (Hsize : (size (dom (rCells row)) <= size ids)%nat).
  { unfold ids. rewrite size_dom, size_list_to_set, length_map, (rok_size _ _ _ R) by done. done. }
  assert (Hin : x ∈ map fID fields).
  { apply Hids. rewrite (set_subseteq_size_equiv _ _ Hsub Hsize). apply elem_of_dom. eauto. }
  apply list_elem_of_fmap in Hin as (f & -> & Hf). exists f. split; [done|]. split; [done|].
  destruct (rok_cells _ _ _ R f Hf) as (c & Hc' & Hok). congruence.
Qed.

Lemma clone_cells_id fields bundle row : NoDup (map fID fields) -> row_ok fields bundle row -> cloneCellV2 <$> rCells row = rCells row.
Proof.
  intros Hnd R. apply map_eq. intros x. rewrite lookup_fmap. destruct (rCells row !! x) as [cell|] eqn:E; [|done]. cbn.
  destruct (row_cell _ _ _ _ _ Hnd R E) as (f & _ & _ & Hok). by rewrite (clone_cell_id _ _ _ Hok).
Qed.

Lemma clone_row_id fields bundle row : NoDup (map fID fields) -> row_ok fields bundle row -> cloneRowV2 row = row.
Proof.
  intros Hnd R. unfold cloneRowV2. rewrite (clone_cells_id _ _ _ Hnd R). destruct (rok_dep _ _ _ R) as (s & w & E1 & E2 & _).
  destruct row. cbn in *. by subst.
Qed.

Lemma dep_ok_wf bundle d : dep_ok bundle d -> dep_wf d.
Proof. intros [? ? _ _ _ _]. done. Qed.

Lemma present_ok bundle support witness : dep_present bundle support witness -> dep_ok bundle (Witness.Clone support, Witness.Clone witness).
Proof. by intros (s & w & -> & -> & D). Qed.

(** ** The fold over the fields of a row *)
Lemma depend_on_fields row (fs : list string) : forall d, (forall f, f ∈ fs -> is_Some (rCells row !! f)) ->
  fold_res (depend_on row) d fs = fold_res depend d (field_deps row fs).
Proof.
  induction fs as [|f fs IH]; intros d Hall; [done|]. cbn [fold_res field_deps omap list_omap]. destruct (Hall f) as [cell Hc]; [by left|].
  assert (E : depend_on row d f = depend d (cell_dependency cell)) by (unfold depend_on, cell_at; by rewrite Hc).
  rewrite E, Hc. cbn [fmap option_fmap option_map fold_res].
  destruct (depend d (cell_dependency cell)) as [d'|e]; [|done]. cbn [mbind result_bind]. apply IH.
  intros g Hg. apply Hall. by right.
Qed.

Lemma elem_field_deps row fs d : d ∈ field_deps row fs <-> exists f cell, f ∈ fs /\ rCells row !! f = Some cell /\ d = cell_dependency cell.
Proof.
  unfold field_deps. rewrite list_elem_of_omap. split.
  - intros (f & Hf & E). destruct (rCells row !! f) as [cell|] eqn:Ec; [|done]. injection E as <-. eauto.
  - intros (f & cell & Hf & Ec & ->). exists f. split; [done|]. by rewrite Ec.
Qed.

(** The sum of dependencies of one bundle is a dependency of the bundle. *)
Lemma dep_sum_ok bundle ds e : Forall (dep_ok bundle) ds -> Witness.collision_free (flat_map dep_facts ds) -> dep_sum ds e -> dep_ok bundle e.
Proof.
  intros Hds C S. rewrite Forall_forall in Hds.
  assert (W : dep_wf e) by (eapply dep_sum_wf; [|exact S]; apply Forall_forall; intros d Hd; by eapply dep_ok_wf, Hds).
  destruct S as [U (Hw & M & F)].
  assert (Hsupp : forall h f, e.1 !! h = Some f -> exists d, d ∈ ds /\ d.1 !! h = Some f).
  { intros h f Hf. apply U in Hf as (s & (d & -> & Hd)%list_elem_of_fmap & Hf). eauto. }
  assert (Hwit : forall h it, e.2 !! h = Some it -> exists d it', d ∈ ds /\ d.2 !! h = Some it' /\ Witness.iFact it' = Witness.iFact it).
  { intros h it Hit. destruct (F h it Hit) as (w & i & (d & -> & Hd)%list_elem_of_fmap & Hi & E). eauto. }
  assert (Hsame : forall h it, e.2 !! h = Some it -> exists f, e.1 !! h = Some f /\ CanonicalPayload f = CanonicalPayload (Witness.iFact it)).
  { intros h it Hit. destruct (Hwit h it Hit) as (d & it' & Hd & Hi & <-). destruct (dep_same _ _ (Hds d Hd) h it' Hi) as (f & Hf & Hp).
    exists f. split; [|done]. apply U. exists d.1. split; [apply list_elem_of_fmap; eauto|done]. }
  split; [apply W|apply W| | |done|].
  - intros h f Hf. destruct (Hsupp h f Hf) as (d & Hd & Hf'). by apply (dep_base _ _ (Hds d Hd) h).
  - intros h it Hit. destruct (Hwit h it Hit) as (d & it' & Hd & Hi & <-). by apply (dep_covered _ _ (Hds d Hd) h).
  - symmetry. rewrite <- !size_dom. f_equal. apply set_eq. intros h. rewrite !elem_of_dom. split.
    + intros [it Hit]. destruct (Hsame h it Hit) as (f & -> & _). by eexists.
    + intros [f Hf]. destruct (Hsupp h f Hf) as (d & Hd & Hf').
      destruct (proj1 (dep_dom _ _ h (Hds d Hd)) (mk_is_Some _ _ Hf')) as [it Hit].
      pose proof (M h) as Mh. unfold Witness.mult in Mh at 1. destruct (e.2 !! h) as [it'|] eqn:E; [by eexists|exfalso]. cbn beta iota in Mh.
      assert (Hpos : 0 < Witness.mult d.2 h) by (unfold Witness.mult; rewrite Hit; by apply (dep_witness _ _ (Hds d Hd) h)).
      clear -Hpos Mh Hd Hds. unfold Witness.total in Mh. induction ds as [|x ds IH]; [by apply elem_of_nil in Hd|]. cbn [map foldr] in Mh.
      assert (Hx : 0 <= Witness.mult x.2 h) by (apply Witness.mult_nonneg, (dep_witness bundle x), Hds; by left).
      assert (Hr : 0 <= Witness.total (map snd ds) h).
      { apply Witness.total_nonneg. intros w (y & -> & Hy)%list_elem_of_fmap. apply (dep_witness bundle y), Hds. by right. }
      unfold Witness.total in Hr. apply elem_of_cons in Hd as [Hd|Hd].
      { rewrite Hd in Hpos. clear -Hpos Mh Hr. revert Hpos Mh Hr. generalize (Witness.mult x.2 h). intros. lia. }
      apply IH; [|done|lia]. intros y Hy. apply Hds. by right.
Qed.

(** ** Select *)
Lemma select_rows fs (p : AnnotatedRowV2 V -> SQLTruth) rows : forall acc out,
  fold_res (select_row fs p) acc rows = Ok out <->
  exists new, Forall2 (fun row row' => exists d, fold_res (depend_on row) (row_dependency row) fs = Ok d /\ row' = with_dependency (cloneRowV2 row) d)
    (filter (fun row => p row = SQLTrue) rows) new /\ out = acc ++ new.
Proof.
  induction rows as [|row rows IH]; intros acc out; cbn [fold_res].
  - split; [intros <-%Ok_inj; exists []; split; [constructor|by rewrite app_nil_r]|]. intros (new & F & ->). inversion F; subst. by rewrite app_nil_r.
  - rewrite filter_cons. assert (E : select_row fs p acc row = if bool_decide (p row = SQLTrue)
      then fold_res (depend_on row) (row_dependency row) fs ≫= fun d => Ok (acc ++ [with_dependency (cloneRowV2 row) d]) else Ok acc) by done.
    rewrite E. clear E. case_bool_decide as Hp; [rewrite decide_True by done|rewrite decide_False by done; apply IH].
    split.
    + intros (a & (d & Hd & <-%Ok_inj)%bind_ok & (new & F & ->)%IH)%bind_ok. exists (with_dependency (cloneRowV2 row) d :: new).
      split; [constructor; [eauto|done]|]. by rewrite <- app_assoc.
    + intros (new & F & ->). inversion F as [|? row' ? new' (d & Hd & ->) F']; subst. rewrite Hd. cbn [mbind result_bind].
      apply IH. exists new'. split; [done|]. by rewrite <- app_assoc.
Qed.

(** The row a selection makes of a row: the same row, whose dependency also counts the predicate's fields. *)
Definition selected (fs : list string) row row' : Prop :=
  rKey row' = rKey row /\ rCells row' = rCells row /\ rOrigins row' = rOrigins row /\
  exists d, rRowSupport row' = Some d.1 /\ rRowWitness row' = Some d.2 /\ dep_sum (row_dependency row :: field_deps row fs) d.

Definition within_64_bits (fs : list string) row : Prop := forall h, dep_total (row_dependency row :: field_deps row fs) h <= max_uint64.

(** The dependencies of a row of a valid relation. *)
Lemma row_deps_ok input fs row : valid input -> row ∈ relRows input ->
  Forall (dep_ok (relSnapshotBundle input)) (row_dependency row :: field_deps row fs) /\
  flat_map dep_facts (row_dependency row :: field_deps row fs) ⊆ row_facts row.
Proof.
  intros Hv Hr. pose proof (proj1 (Forall_forall _ _) (v_rows _ Hv) row Hr) as R. split.
  - constructor; [apply present_ok, R|]. apply Forall_forall. intros d (f & cell & _ & Hc & ->)%elem_field_deps.
    destruct (row_cell _ _ _ _ _ (v_ids _ Hv) R Hc) as (g & _ & _ & Hok). apply present_ok, Hok.
  - cbn [flat_map]. intros x [Hx|Hx]%elem_of_app; [apply elem_of_app; by left|].
    apply Witness.elem_flat_map in Hx as (d & (f & cell & _ & Hc & ->)%elem_field_deps & Hx). by apply (elem_row_facts_cell row f cell Hc).
Qed.

Lemma row_accumulates input fs row : valid input -> row ∈ relRows input -> Witness.collision_free (rel_facts input) ->
  (forall f, f ∈ fs -> f ∈ map fID (relFields input)) ->
  (forall d, fold_res (depend_on row) (row_dependency row) fs = Ok d ->
    dep_sum (row_dependency row :: field_deps row fs) d /\ dep_ok (relSnapshotBundle input) d) /\
  (within_64_bits fs row <-> exists d, fold_res (depend_on row) (row_dependency row) fs = Ok d).
Proof.
  intros Hv Hr C Hfs. pose proof (proj1 (Forall_forall _ _) (v_rows _ Hv) row Hr) as R. destruct (row_deps_ok input fs row Hv Hr) as [Hok Hsub].
  assert (C' : Witness.collision_free (flat_map dep_facts (row_dependency row :: field_deps row fs))).
  { eapply Witness.collision_free_sub; [|exact C]. etrans; [exact Hsub|]. by apply row_in_rel. }
  rewrite depend_on_fields.
  2:{ intros f (g & -> & Hg)%Hfs%list_elem_of_fmap. destruct (rok_cells _ _ _ R g Hg) as (cell & -> & _). by eexists. }
  destruct (depend_all (field_deps row fs) (row_dependency row)) as [D1 D2]; [|done|].
  { eapply Forall_impl; [exact Hok|]. apply dep_ok_wf. }
  split.
  - intros d Hd%D1. split; [done|]. by eapply dep_sum_ok.
  - split; [apply D2|]. intros (d & Hd%D1) h. by eapply dep_total_fits.
Qed.

Lemma valid_with_rows input rows : valid input -> NoDup (map rKey rows) ->
  Forall (row_ok (relFields input) (relSnapshotBundle input)) rows -> valid (with_rows input rows).
Proof. intros [] Hnd HF. by split. Qed.

Lemma row_ok_machine fields bundle row : NoDup (map fID fields) -> row_ok fields bundle row -> machine_row row.
Proof.
  intros Hnd R. assert (Hd : forall bundle s w, dep_present bundle s w -> machine_witness (Witness.Clone w)).
  { intros b s w (s' & w' & -> & -> & D) h it Hit. destruct (dep_witness _ _ D h it Hit) as (_ & _ & ?). unfold uint64_range. lia. }
  split; [eapply Hd, R|]. intros f cell Hc. destruct (row_cell _ _ _ _ _ Hnd R Hc) as (g & _ & _ & Hok). eapply Hd, Hok.
Qed.

Lemma valid_machine r : valid r -> machine_relation r.
Proof. intros Hv. eapply Forall_impl; [exact (v_rows _ Hv)|]. intros row. apply row_ok_machine, Hv. Qed.

Lemma validated_ok r : valid r -> validated r = Ok r.
Proof. intros Hv. unfold validated. by rewrite (proj2 (validate_iff r (valid_machine _ Hv)) Hv). Qed.
Lemma validated_inv r r' : validated r = Ok r' -> r' = r.
Proof. unfold validated. by intros [_ <-%Ok_inj]%seq_ok. Qed.

Lemma with_dependency_ok fields bundle row d : NoDup (map fID fields) -> row_ok fields bundle row -> dep_ok bundle d ->
  row_ok fields bundle (with_dependency (cloneRowV2 row) d).
Proof.
  intros Hnd R D. rewrite (clone_row_id _ _ _ Hnd R). destruct R as [? ? _ ? ?]. split; cbn; [done|done| |done|done].
  exists d.1, d.2. destruct d. done.
Qed.

(** A selection keeps exactly the rows its predicate makes TRUE, in order,
    unchanged but for their dependency, which becomes the sum of the row's and
    those of the predicate's fields (supports united, multiplicities added).
    It fails only when a multiplicity leaves the 64-bit range: the result always
    satisfies the invariant, so the final validation refuses nothing. *)
Theorem select_exact input fs (p : AnnotatedRowV2 V -> SQLTruth) :
  machine_relation input -> ValidateRelationV2 input = Ok tt -> requireFieldsV2 input fs = Ok tt -> Witness.collision_free (rel_facts input) ->
  (forall r, SelectV2 input fs (Some p) = Ok r ->
     relFields r = relFields input /\ relSnapshotBundle r = relSnapshotBundle input /\ relCanonicalOrder r = relCanonicalOrder input /\
     Forall2 (selected fs) (filter (fun row => p row = SQLTrue) (relRows input)) (relRows r)) /\
  (is_ok (SelectV2 input fs (Some p)) = true <->
     forall row, row ∈ relRows input -> p row = SQLTrue -> within_64_bits fs row).
Proof.
  intros Hm Hval Hreq C. pose proof (proj1 (validate_iff input Hm) Hval) as Hv. pose proof (proj1 (require_ok input fs) Hreq) as [_ Hfs].
  assert (Hacc : forall row, row ∈ relRows input -> _) by (intros row Hr; exact (row_accumulates input fs row Hv Hr C Hfs)).
  unfold SelectV2. rewrite Hval, Hreq. cbn [mbind result_bind]. split.
  - intros r (rows & (new & F & ->)%select_rows & ->%validated_inv)%bind_ok. cbn [with_rows relFields relSnapshotBundle relCanonicalOrder relRows app].
    split; [done|]. split; [done|]. split; [done|]. eapply Forall2_impl_in; [exact F|]. intros row row' Hr (d & Hd & ->).
    apply list_elem_of_filter in Hr as [_ Hr]. destruct (Hacc row Hr) as [H1 _]. destruct (H1 d Hd) as [S D].
    rewrite (clone_row_id _ _ row (v_ids _ Hv)) by (by eapply Forall_forall in Hr; [|exact (v_rows _ Hv)]).
    unfold selected. cbn. eauto 8.
  - split.
    + intros Hok row Hr Hp. destruct (fold_res (select_row fs p) [] (relRows input)) as [rows|] eqn:E; [|done].
      apply select_rows in E as (new & F & _). apply (Hacc row Hr).
      assert (Hin : row ∈ filter (fun row => p row = SQLTrue) (relRows input)) by (by apply list_elem_of_filter).
      apply list_elem_of_lookup in Hin as [i Hi]. destruct (Forall2_lookup_l _ _ _ _ _ F Hi) as (row' & _ & d & Hd & _). eauto.
    + intros Hfit.
      assert (Hnew : exists new, Forall2 (fun row row' => exists d, fold_res (depend_on row) (row_dependency row) fs = Ok d /\
          row' = with_dependency (cloneRowV2 row) d) (filter (fun row => p row = SQLTrue) (relRows input)) new).
      { assert (Hall : forall row, row ∈ filter (fun row => p row = SQLTrue) (relRows input) -> exists d, fold_res (depend_on row) (row_dependency row) fs = Ok d).
        { intros row [Hp Hr]%list_elem_of_filter. apply (Hacc row Hr). by apply Hfit. }
        induction (filter _ _) as [|row l IH]; [exists []; constructor|]. destruct (Hall row) as [d Hd]; [by left|].
        destruct IH as [new Hn]; [intros; apply Hall; by right|]. exists (with_dependency (cloneRowV2 row) d :: new). constructor; eauto. }
      destruct Hnew as [new F]. rewrite (proj2 (select_rows fs p (relRows input) [] ([] ++ new))) by eauto. cbn [app mbind result_bind].
      rewrite validated_ok; [done|]. apply valid_with_rows; [done|..].
      * assert (Hkeys : map rKey new = map rKey (filter (fun row => p row = SQLTrue) (relRows input))).
        { clear -F. induction F as [|row row' l l' (d & _ & ->) F IH]; [done|]. cbn. by rewrite IH. }
        rewrite Hkeys. eapply sublist_NoDup; [exact (v_keys _ Hv)|apply (fmap_sublist rKey), sublist_filter].
      * apply Forall_forall. intros row' Hin. apply list_elem_of_lookup in Hin as [i Hi].
        destruct (Forall2_lookup_r _ _ _ _ _ F Hi) as (row & Hrow & d & Hd & ->). apply list_elem_of_lookup_2, list_elem_of_filter in Hrow as [_ Hr].
        apply with_dependency_ok; [apply Hv|by eapply Forall_forall in Hr; [|exact (v_rows _ Hv)]|by apply (Hacc row Hr)].
Qed.

(** ** Project *)
Definition restrict {A} (fs : list string) (m : gmap string A) : gmap string A := filter (fun entry : string * A => entry.1 ∈ fs) m.

Lemma restrict_lookup {A} fs (m : gmap string A) x : restrict fs m !! x = if decide (x ∈ fs) then m !! x else None.
Proof.
  unfold restrict. destruct (decide (x ∈ fs)) as [Hx|Hx].
  - destruct (m !! x) as [a|] eqn:E; [by apply map_lookup_filter_Some_2|]. apply map_lookup_filter_None. by left.
  - apply map_lookup_filter_None. right. intros a _ Ha. done.
Qed.

Definition projected (fs : list string) row : AnnotatedRowV2 V :=
  MkRow (rKey row) (restrict fs (rCells row)) (rRowSupport row) (rRowWitness row) (rOrigins row).

Lemma project_cells fields bundle row fs : NoDup (map fID fields) -> row_ok fields bundle row -> (forall f, f ∈ fs -> f ∈ map fID fields) ->
  fold_res (project_cell row) ∅ fs = Ok (restrict fs (rCells row)).
Proof.
  intros Hnd R Hfs.
  assert (Hgen : forall gs acc, (forall f, f ∈ gs -> f ∈ map fID fields) -> exists out, fold_res (project_cell row) acc gs = Ok out /\
    forall x, out !! x = if decide (x ∈ gs) then rCells row !! x else acc !! x).
  { induction gs as [|g gs IH]; intros acc Hgs; cbn [fold_res]; [exists acc; split; [done|]; intros x; by rewrite decide_False by apply not_elem_of_nil|].
    assert (Hcell : exists cell, rCells row !! g = Some cell /\ cloneCellV2 cell = cell).
    { assert (Hg : g ∈ map fID fields) by (apply Hgs; by left). apply list_elem_of_fmap in Hg as (f & -> & Hf).
      destruct (rok_cells _ _ _ R f Hf) as (cell & Hc & Hok). exists cell. split; [done|]. by eapply clone_cell_id. }
    destruct Hcell as (cell & Hc & Hclone). assert (E : project_cell row acc g = Ok (<[g := cell]> acc)) by (unfold project_cell, cell_at; rewrite Hc; cbn [mbind result_bind]; by rewrite Hclone).
    rewrite E. cbn [mbind result_bind].
    destruct (IH (<[g := cell]> acc)) as (out & Hout & Hl); [intros; apply Hgs; by right|]. exists out. split; [exact Hout|].
    intros x. rewrite Hl. destruct (decide (x ∈ gs)) as [Hx|Hx].
    - by rewrite decide_True by (by right).
    - destruct (decide (x = g)) as [->|Hne].
      + by rewrite lookup_insert_eq, decide_True by (by left).
      + rewrite lookup_insert_ne by done. by rewrite decide_False by (by intros [?|?]%elem_of_cons). }
  destruct (Hgen fs ∅ Hfs) as (out & -> & Hl). f_equal. apply map_eq. intros x. rewrite Hl, restrict_lookup. by rewrite lookup_empty.
Qed.

Lemma field_definition input f : NoDup (map fID (relFields input)) -> f ∈ map fID (relFields input) ->
  fieldDefinitionV2 input f ∈ relFields input /\ fID (fieldDefinitionV2 input f) = f.
Proof. intros Hnd (g & -> & Hg)%list_elem_of_fmap. unfold fieldDefinitionV2. by rewrite find_field. Qed.

Definition projection input (fs : list string) : RelationV2 V :=
  MkRelation (map (fieldDefinitionV2 input) fs) (map (projected fs) (relRows input)) (relSnapshotBundle input) (relCanonicalOrder input).

Lemma projection_ids input fs : NoDup (map fID (relFields input)) -> (forall f, f ∈ fs -> f ∈ map fID (relFields input)) ->
  map fID (map (fieldDefinitionV2 input) fs) = fs.
Proof.
  intros Hnd. induction fs as [|f fs IH]; intros Hfs; [done|]. cbn [map]. rewrite IH by (intros; apply Hfs; by right). f_equal.
  apply (field_definition input f Hnd). apply Hfs. by left.
Qed.

Lemma restrict_size {A} fs (m : gmap string A) : NoDup fs -> (forall f, f ∈ fs -> is_Some (m !! f)) -> size (restrict fs m) = length fs.
Proof.
  intros Hnd Hfs. rewrite <- size_dom, <- (size_list_to_set (C := gset string) fs Hnd). f_equal. apply set_eq. intros x.
  rewrite elem_of_dom, restrict_lookup, elem_of_list_to_set. destruct (decide (x ∈ fs)); [|by split; [intros []|]]. split; [done|]. intros _. by apply Hfs.
Qed.

Lemma projection_valid input fs : valid input -> fs <> [] -> NoDup fs -> (forall f, f ∈ fs -> f ∈ map fID (relFields input)) ->
  valid (projection input fs).
Proof.
  intros Hv Hne Hnd Hfs. pose proof (v_ids _ Hv) as Hids. split; cbn [projection relFields relRows relSnapshotBundle].
  - by destruct fs.
  - apply Hv.
  - apply Hv.
  - apply Forall_forall. intros g (f & -> & Hf)%list_elem_of_fmap. apply (proj1 (Forall_forall _ _) (v_field_ok _ Hv)).
    by apply field_definition, Hfs.
  - by rewrite projection_ids.
  - assert (E : map rKey (map (projected fs) (relRows input)) = map rKey (relRows input)) by (by rewrite map_map). rewrite E. apply (v_keys _ Hv).
  - apply Forall_forall. intros row' (row & -> & Hr)%list_elem_of_fmap. pose proof (proj1 (Forall_forall _ _) (v_rows _ Hv) row Hr) as R.
    destruct R as [R1 R2 R3 R4 R5] eqn:ER. clear ER. split; cbn [projected rKey rCells rRowSupport rRowWitness rOrigins]; [done| |done|done|].
    + rewrite length_map. apply restrict_size; [done|]. intros f (g & -> & Hg)%Hfs%list_elem_of_fmap. destruct (R5 g Hg) as (cell & -> & _). by eexists.
    + intros g (f & -> & Hf)%list_elem_of_fmap. destruct (field_definition input f Hids (Hfs f Hf)) as [Hg Hid].
      destruct (R5 _ Hg) as (cell & Hc & Hok). exists cell. rewrite Hid in Hc. rewrite Hid, restrict_lookup, decide_True by done. done.
Qed.

Lemma project_rows input fs : valid input -> (forall f, f ∈ fs -> f ∈ map fID (relFields input)) ->
  fold_res (project_row fs) [] (relRows input) = Ok (map (projected fs) (relRows input)).
Proof.
  intros Hv Hfs.
  assert (Hrow : forall acc row, row ∈ relRows input -> project_row fs acc row = Ok (acc ++ [projected fs row])).
  { intros acc row Hr. pose proof (proj1 (Forall_forall _ _) (v_rows _ Hv) row Hr) as R. unfold project_row.
    rewrite (project_cells _ _ _ _ (v_ids _ Hv) R Hfs). cbn [mbind result_bind]. destruct (rok_dep _ _ _ R) as (s & w & E1 & E2 & _).
    unfold projected. rewrite E1, E2. done. }
  rewrite (fold_res_flat_map _ (fun row => [projected fs row])) by done. cbn [app]. f_equal.
Qed.

Lemma project_total input fs : machine_relation input -> ValidateRelationV2 input = Ok tt -> requireFieldsV2 input fs = Ok tt -> fs <> [] ->
  ProjectV2 input fs = Ok (projection input fs).
Proof.
  intros Hm Hval Hreq Hne. pose proof (proj1 (validate_iff input Hm) Hval) as Hv. pose proof (proj1 (require_ok input fs) Hreq) as [Hnd Hfs].
  unfold ProjectV2. rewrite Hval. cbn [mbind result_bind]. destruct fs as [|f fs]; [done|]. cbn [length Nat.eqb fail_if mbind result_bind].
  rewrite Hreq. cbn [mbind result_bind]. rewrite project_rows by done. cbn [mbind result_bind]. by apply validated_ok, projection_valid.
Qed.

(** ** Page *)
Definition page_rows {A} (offset limit : Z) (rows : list A) : list A :=
  let tail := drop (Z.to_nat offset) rows in if limit =? 0 then tail else take (Z.to_nat limit) tail.

(** C33: Paging returns exactly the requested window of a canonically ordered
    relation, unchanged, for any bounds whose sum is a 64-bit number; a limit of
    zero means no limit, and an offset past the end an empty page.  Beyond that
    range the sum wraps and the slice expression is out of range. *)
Theorem page_exact input offset limit :
  machine_relation input -> ValidateRelationV2 input = Ok tt -> relCanonicalOrder input = true ->
  0 <= offset <= max_int64 -> 0 <= limit <= max_int64 -> Z.of_nat (length (relRows input)) <= max_int64 ->
  PageV2 input offset limit =
    (if (0 <? limit) && (max_int64 <? Z.min offset (Z.of_nat (length (relRows input))) + limit)
     then Err (ErrNew "slice bounds out of range")
     else Ok (with_rows input (page_rows offset limit (relRows input)))).
Proof.
  intros Hm Hval Hord Ho Hl Hlen. pose proof (proj1 (validate_iff input Hm) Hval) as Hv. unfold PageV2. rewrite Hval, Hord. cbn [mbind result_bind negb].
  rewrite (proj2 (Z.ltb_ge offset 0)), (proj2 (Z.ltb_ge limit 0)) by lia. cbn [orb fail_if mbind result_bind]. cbv zeta.
  assert (Hclone : forall k l, map cloneRowV2 (drop k (take l (relRows input))) = drop k (take l (relRows input))).
  { assert (E : map cloneRowV2 (relRows input) = relRows input).
    { rewrite <- map_id. apply map_ext_in. intros row Hin%list_elem_of_In. eapply clone_row_id; [apply Hv|].
      by eapply Forall_forall in Hin; [|exact (v_rows _ Hv)]. }
    intros k l. by rewrite <- skipn_map, <- firstn_map, E. }
  rewrite Hclone. set (rows := relRows input) in *. set (n := Z.of_nat (length rows)) in *. set (start := Z.min offset n).
  assert (Hdrop : drop (Z.to_nat start) rows = drop (Z.to_nat offset) rows).
  { destruct (Z.le_ge_cases offset n); [unfold start; by rewrite Z.min_l|]. unfold start. rewrite Z.min_r by done. rewrite !drop_ge; unfold n in *; [done|lia..]. }
  assert (Hv' : forall k l, valid (with_rows input (drop k (take l rows)))).
  { intros k l. apply valid_with_rows; [done|..].
    - eapply sublist_NoDup; [exact (v_keys _ Hv)|]. apply (fmap_sublist rKey). etrans; [apply sublist_drop|apply sublist_take].
    - apply Forall_drop, Forall_take, (v_rows _ Hv). }
  destruct (Z.ltb_spec 0 limit) as [Hpos|Hz]; cbn [andb].
  - destruct (Z.ltb_spec max_int64 (start + limit)) as [Hbig|Hfit].
    + assert (Hw : wrap_int64 (start + limit) = start + limit - 2 ^ 64).
      { unfold wrap_int64. replace (start + limit + 2 ^ 63) with (start + limit - 2 ^ 63 + 1 * 2 ^ 64) by lia. rewrite Z_mod_plus_full.
        unfold max_int64 in *. rewrite Z.mod_small by (unfold start; lia). lia. }
      rewrite Hw. assert (start + limit - 2 ^ 64 < 0) by (unfold start, max_int64 in *; lia).
      rewrite (proj2 (Z.ltb_lt (start + limit - 2 ^ 64) n)) by lia. by rewrite (proj2 (Z.ltb_lt _ start)) by (unfold start; lia).
    + rewrite wrap_int64_id by (unfold int64_range, start; lia). unfold page_rows. rewrite (proj2 (Z.eqb_neq limit 0)) by lia. rewrite <- Hdrop.
      destruct (Z.ltb_spec (start + limit) n) as [Hlt|Hge].
      * rewrite (proj2 (Z.ltb_ge _ start)) by lia. rewrite validated_ok by done. do 2 f_equal.
        rewrite take_drop_commute. do 2 f_equal. unfold start. lia.
      * rewrite (proj2 (Z.ltb_ge n start)) by (unfold start; lia). rewrite validated_ok by done. do 2 f_equal. unfold n at 1. rewrite Nat2Z.id, firstn_all.
        rewrite take_ge; [done|]. rewrite length_drop. unfold n in *. lia.
  - assert (limit = 0) as -> by lia. unfold page_rows. rewrite Z.eqb_refl, (proj2 (Z.ltb_ge n start)) by (unfold start; lia). rewrite validated_ok by done.
    unfold n at 1. by rewrite Nat2Z.id, firstn_all, Hdrop.
Qed.

(** ** Observe *)
Definition result_option {A} (r : result A) : option A := match r with Ok a => Some a | Err _ => None end.
Definition cell_release input row (field : string) : option FactID :=
  cell ← rCells row !! field; result_option (materializeCellReleaseV2 input row cell).
Definition row_released input (fs : list string) row : list FactID := omap (cell_release input row) fs.
(** One released fact for each visible cell. *)
Definition released input (fs : list string) : list FactID := flat_map (row_released input fs) (relRows input).
Definition row_supports (fs : list string) row : list (gmap string FactID) := map fst (row_dependency row :: field_deps row fs).
(** The supports an observation depends on: those of the rows and of their visible cells. *)
Definition supports input (fs : list string) : list (gmap string FactID) := flat_map (row_supports fs) (relRows input).

(** The facts of a list, by hash. *)
Definition holds_facts (l : list FactID) (s : gmap string FactID) : Prop := forall h f, s !! h = Some f <-> f ∈ l /\ Hash f = Ok h.

Lemma add_fact l s f : holds_facts l s -> Witness.collision_free (l ++ [f]) -> is_ok (Hash f) = true ->
  exists s', FactSet.Add (Some s) f = Ok s' /\ holds_facts (l ++ [f]) s'.
Proof.
  intros Hs C Hf. destruct (Hash f) as [h|] eqn:Eh; [|done].
  assert (Hext : forall k g, g ∈ l ++ [f] /\ Hash g = Ok k <-> (g ∈ l /\ Hash g = Ok k) \/ (g = f /\ k = h)).
  { intros k g. rewrite elem_of_app, list_elem_of_singleton. split; [|naive_solver]. intros [[?| ->] Hk]; [auto|]. right. split; [done|]. congruence. }
  destruct (s !! h) as [g|] eqn:Eg.
  - pose proof (proj1 (Hs h g) Eg) as [Hg Hgh]. assert (g = f) as ->.
    { apply (C g f h); [apply elem_of_app; by left|apply elem_of_app; right; by left|done|done]. }
    exists s. split; [apply FactSet.Add_ok; exists h; split; [done|]; right; eauto|]. intros k x. rewrite Hext, (Hs k x). split; [auto|].
    intros [?|[-> ->]]; [done|]. done.
  - exists (<[h := f]> s). split; [apply FactSet.Add_ok; exists h; auto|]. intros k x. rewrite Hext. destruct (decide (k = h)) as [->|Hne].
    + rewrite lookup_insert_eq. split; [intros [= <-]; auto|]. intros [Hx|[-> _]]; [|done]. apply Hs in Hx. congruence.
    + rewrite lookup_insert_ne by done. rewrite (Hs k x). naive_solver.
Qed.

(** The sets a loop has built: one of the facts of a list, one the union of some supports. *)
Definition observed (facts : list FactID) (ss : list (gmap string FactID)) (st : gmap string FactID * gmap string FactID) : Prop :=
  holds_facts facts st.1 /\ Witness.union_of ss st.2.

Lemma merge_support ss st s : Witness.union_of ss st -> (forall x, x ∈ ss -> FactSet.wf x) -> FactSet.wf s ->
  Witness.collision_free (flat_map FactSet.range (ss ++ [s])) ->
  exists st', FactSet.MergeChecked st s = Ok st' /\ Witness.union_of (ss ++ [s]) st'.
Proof.
  intros U Hss Hs C. pose proof (Witness.union_of_wf _ _ Hss U) as Hst.
  assert (C' : Witness.collision_free (FactSet.range st ++ FactSet.range s)).
  { eapply Witness.collision_free_sub; [|exact C]. intros f [(h & Hf)%FactSet.elem_range|Hf]%elem_of_app; apply Witness.elem_flat_map.
    - apply U in Hf as (x & Hx & Hf). exists x. split; [apply elem_of_app; by left|]. apply FactSet.elem_range. eauto.
    - exists s. split; [apply elem_of_app; right; by left|done]. }
  assert (Hag : FactSet.agree st s).
  { intros h f g Hf Hg. rewrite (C' f g h); [done|..|by apply Hst|by apply Hs]; apply elem_of_app; [left|right]; apply FactSet.elem_range; eauto. }
  exists (st ∪ s). pose proof (proj2 (FactSet.MergeChecked_ok st s _ Hst Hs) (conj Hag eq_refl)) as E. split; [done|].
  apply Witness.MergeChecked_union in E; [|done..]. exact (Witness.union_of_trans ss st [s] _ U E).
Qed.

(** ** Released facts are valid *)
Lemma canonical_type_token t : CanonicalSQLTypeV2 t = Ok t -> invalidToken t = false.
Proof.
  unfold CanonicalSQLTypeV2. cbv zeta. destruct (in_list (normalizeSQLType t) canonical_types) eqn:E; [|by destruct (bool_decide _)].
  intros Ht%Ok_inj. rewrite Ht in E. unfold in_list in E. apply existsb_exists in E as (x & Hx & Ex%bool_decide_eq_true). subst x.
  repeat (destruct Hx as [<-|Hx]; [vm_compute; reflexivity|]). destruct Hx.
Qed.

Lemma validate_bundle_inv bundle : validate_bundle bundle = Ok tt ->
  StronglySorted clt (map bSourceNamespace bundle) /\
  Forall (fun b => invalidToken (bSourceNamespace b) = false /\ invalidToken (bSnapshot b) = false) bundle /\
  mergeSnapshotBundles bundle [] = Ok bundle.
Proof.
  unfold validate_bundle. intros (c & Ec & E)%bind_ok. apply fail_if_bind_ok in E as [Hlen%negb_false_iff%Nat.eqb_eq E]. apply check_all_ok in E.
  assert (Hc : c = bundle /\ Forall (fun b => invalidToken (bSourceNamespace b) = false /\ invalidToken (bSnapshot b) = false) c).
  { clear Ec. revert bundle Hlen E. induction c as [|b c IH]; intros [|b' l]; [done..|]. cbn [length zip zip_with]. intros [= Hlen] [Hb E]%Forall_cons.
    apply fail_if_ok in Hb. cbn [fst snd] in Hb. rewrite !orb_false_iff, negb_false_iff, bool_decide_eq_true in Hb. destruct Hb as [[-> H1] H2].
    destruct (IH l Hlen E) as [-> HF]. split; [done|]. constructor; done. }
  destruct Hc as [-> HF]. split; [|done]. by apply merge_bundles_ok in Ec as (_ & ? & _).
Qed.

Lemma bundle_checks bundle : forall seen, NoDup (map bSourceNamespace bundle) -> (forall b, b ∈ bundle -> bSourceNamespace b ∉ seen) ->
  Forall (fun b => invalidToken (bSourceNamespace b) = false /\ invalidToken (bSnapshot b) = false) bundle -> bundle_check seen bundle = Ok tt.
Proof.
  induction bundle as [|b l IH]; intros seen Hnd Hseen HF; [done|]. cbn [map] in Hnd. apply NoDup_cons in Hnd as [Hn Hnd].
  apply Forall_cons in HF as [[H1 H2] HF]. cbn [bundle_check]. rewrite H1, H2. cbn [orb fail_if mbind result_bind].
  rewrite (proj2 (in_list_false _ _)) by (apply Hseen; by left). cbn [fail_if mbind result_bind]. apply IH; [done| |done].
  intros x Hx [E|Hin]%elem_of_cons; [|apply (Hseen x); [by right|done]]. apply Hn. rewrite <- E. apply list_elem_of_fmap. eauto.
Qed.

Lemma valid_bundle_check bundle : validate_bundle bundle = Ok tt -> bundle_check [] bundle = Ok tt.
Proof.
  intros (Hs & HF & _)%validate_bundle_inv. apply bundle_checks; [by apply nodup_of_strict| |done]. intros b _ Hb. by apply elem_of_nil in Hb.
Qed.

Lemma derived_valid bundle key expression t c w : bundle <> [] -> validate_bundle bundle = Ok tt -> invalidToken key = false ->
  invalidToken expression = false -> CanonicalSQLTypeV2 t = Ok t -> c <> "" -> isSHA256 w = true ->
  Validate (Witness.derived bundle key expression t c w) = Ok tt.
Proof.
  intros Hne Hb Hk He Ht Hc Hw.
  change (Validate (Witness.derived bundle key expression t c w)) with (validate_derived (Witness.derived bundle key expression t c w)).
  unfold validate_derived. apply fail_if_bind_ok. split; [done|]. apply fail_if_bind_ok. split.
  - cbn [Witness.derived SourceNamespace Snapshot EntityKey Field OutputRowKey NormalizedExpression SQLType CanonicalValue WitnessCommitment].
    rewrite Hk, He, (canonical_type_token t Ht), Hw, (proj2 (same_false c "")) by done. unfold bundled. cbn [Witness.derived SnapshotBundle].
    by rewrite bool_decide_eq_false_2.
  - apply fail_if_bind_ok. unfold type_not_canonical. cbn [Witness.derived SQLType SnapshotBundle]. rewrite Ht, (proj2 (same_true t t) eq_refl).
    split; [done|]. by apply valid_bundle_check.
Qed.

Lemma commitment_ok w : exists c, Witness.Commitment (Some w) = Ok c /\ isSHA256 c = true.
Proof.
  unfold Witness.Commitment, Witness.ComposeCanonicalKeyV2, Witness.commitment_values. cbv zeta.
  destruct (flat_map _ _) as [|x l] eqn:E; cbn [length Nat.eqb]; (rewrite (proj2 (fail_if_ok _ _)) by (vm_compute; reflexivity) || idtac);
    (eexists; split; [cbn [orb fail_if mbind result_bind]; reflexivity|apply Sha256.hex_sum_valid]).
Qed.

Context `{!SQLValuesLaws V}.

Lemma materialize_ok input row f cell : valid input -> row ∈ relRows input -> rCells row !! f = Some cell ->
  exists fact, materializeCellReleaseV2 input row cell = Ok fact /\ IsV2 fact = true /\ Validate fact = Ok tt.
Proof.
  intros Hv Hr Hc. pose proof (proj1 (Forall_forall _ _) (v_rows _ Hv) row Hr) as R.
  destruct (row_cell _ _ _ _ _ (v_ids _ Hv) R Hc) as (g & Hg & _ & Hok). destruct (cok_value _ _ _ Hok) as (c & Ec & Hrel).
  unfold materializeCellReleaseV2. destruct (cReleaseFact cell) as [fact|] eqn:Ef.
  - unfold validate_release in Hrel. rewrite Ef in Hrel. apply fail_if_bind_ok in Hrel as [[Hval Hv2]%orb_false_iff _].
    exists fact. split; [done|]. split; [by apply negb_false_iff|]. by apply unit_ok_iff, negb_false_iff.
  - destruct (cok_dep _ _ _ Hok) as (s & w & _ & -> & _). destruct (commitment_ok w) as (k & -> & Hk). cbn [mbind result_bind].
    unfold Witness.NewDerivedFactV2. pose proof (proj1 (Forall_forall _ _) (v_field_ok _ Hv) g Hg) as Hf.
    rewrite (cok_type _ _ _ Hok), (fok_type _ Hf) in *. cbn [mbind result_bind]. rewrite Ec. cbn [mbind result_bind].
    rewrite derived_valid; [|apply Hv|apply Hv|apply R|apply Hok|apply Hf|intros ->; by apply (canonical_nonempty _ _ Ec)|done].
    cbn [mbind result_bind]. eexists. split; [reflexivity|]. split; [done|].
    apply derived_valid; [apply Hv|apply Hv|apply R|apply Hok|apply Hf|intros ->; by apply (canonical_nonempty _ _ Ec)|done].
Qed.

Lemma release_materialized input row f cell fact : rCells row !! f = Some cell -> materializeCellReleaseV2 input row cell = Ok fact ->
  cell_release input row f = Some fact.
Proof. intros Hc Hm. unfold cell_release. rewrite Hc. cbn [mbind option_bind]. by rewrite Hm. Qed.

(** Every set of facts in sight is free of collisions. *)
Definition distinct_hashes input (fs : list string) : Prop :=
  Witness.collision_free (rel_facts input) /\ Witness.collision_free (released input fs).

Lemma support_facts input fs : valid input -> flat_map FactSet.range (supports input fs) ⊆ rel_facts input.
Proof.
  intros Hv f (s & (row & Hr & Hs)%Witness.elem_flat_map & Hf)%Witness.elem_flat_map.
  apply list_elem_of_fmap in Hs as (d & -> & Hd). destruct (row_deps_ok input fs row Hv Hr) as [_ Hsub].
  apply (row_in_rel input row Hr), Hsub, Witness.elem_flat_map. exists d. split; [done|]. apply elem_of_app. by left.
Qed.

Lemma supports_wf input fs s : valid input -> s ∈ supports input fs -> FactSet.wf s.
Proof.
  intros Hv (row & Hr & (d & -> & Hd)%list_elem_of_fmap)%Witness.elem_flat_map. destruct (row_deps_ok input fs row Hv Hr) as [Hok _].
  rewrite Forall_forall in Hok. apply (dep_support _ _ (Hok d Hd)).
Qed.

(** One more cell of a row. *)
Lemma observe_cells input row (fs : list string) : valid input -> row ∈ relRows input ->
  forall facts ss st, observed facts ss st -> (forall f, f ∈ fs -> f ∈ map fID (relFields input)) ->
  (forall x, x ∈ ss -> FactSet.wf x) ->
  Witness.collision_free (flat_map FactSet.range (ss ++ map fst (field_deps row fs))) ->
  Witness.collision_free (facts ++ row_released input fs row) ->
  exists st', fold_res (observe_cell input row) st fs = Ok st' /\
    observed (facts ++ row_released input fs row) (ss ++ map fst (field_deps row fs)) st'.
Proof.
  intros Hv Hr. pose proof (proj1 (Forall_forall _ _) (v_rows _ Hv) row Hr) as R.
  induction fs as [|f fs IH]; intros facts ss st Hst Hfs Hss C C'; [exists st; cbn; by rewrite !app_nil_r|].
  assert (Hf : f ∈ map fID (relFields input)) by (apply Hfs; by left). apply list_elem_of_fmap in Hf as (g & -> & Hg).
  destruct (rok_cells _ _ _ R g Hg) as (cell & Hc & Hok). destruct (materialize_ok input row _ cell Hv Hr Hc) as (fact & Hm & _ & Hval).
  assert (E1 : field_deps row (fID g :: fs) = cell_dependency cell :: field_deps row fs)
    by (unfold field_deps; cbn [omap list_omap]; by rewrite Hc).
  assert (E2 : row_released input (fID g :: fs) row = fact :: row_released input fs row)
    by (unfold row_released; cbn [omap list_omap]; by rewrite (release_materialized _ _ _ _ _ Hc Hm)).
  rewrite E1, E2 in *. cbn [map] in *. change (cell_dependency cell).1 with (Witness.Clone (cSupport cell)) in *.
  rewrite !(cons_middle _ _ (row_released input fs row)) in *. rewrite !(cons_middle _ _ (map fst (field_deps row fs))) in *. rewrite !app_assoc in *.
  destruct st as [release influence]. destruct Hst as [Hrel Hinf]. cbn [fst snd] in Hrel, Hinf.
  assert (Hcw : FactSet.wf (Witness.Clone (cSupport cell))) by (destruct (cok_dep _ _ _ Hok) as (s & w & -> & _ & D); apply (dep_support _ _ D)).
  destruct (merge_support ss influence (Witness.Clone (cSupport cell)) Hinf Hss Hcw) as (influence' & Ei & Ui).
  { eapply Witness.collision_free_sub; [|exact C]. intros x (s & Hs & Hx)%Witness.elem_flat_map. apply Witness.elem_flat_map. exists s.
    split; [|done]. apply elem_of_app. by left. }
  destruct (add_fact facts release fact Hrel) as (release' & Er & Hr').
  { eapply Witness.collision_free_sub; [|exact C']. intros x Hx. apply elem_of_app. by left. }
  { unfold Hash, CanonicalPayload. by rewrite Hval. }
  cbn [fold_res]. assert (E : observe_cell input row (release, influence) (fID g) = Ok (release', influence')).
  { unfold observe_cell, cell_at. rewrite Hc. cbn [mbind result_bind]. rewrite Ei. cbn [mbind result_bind]. rewrite Hm. cbn [mbind result_bind]. by rewrite Er. }
  rewrite E. cbn [mbind result_bind]. apply IH; [done| | |done|done].
  - intros x Hx. apply Hfs. by right.
  - intros x [Hx|Hx%list_elem_of_singleton]%elem_of_app; [by apply Hss|by subst].
Qed.

Lemma observe_rows input fs rows : valid input -> rows ⊆ relRows input -> (forall f, f ∈ fs -> f ∈ map fID (relFields input)) ->
  forall facts ss st, observed facts ss st -> (forall x, x ∈ ss -> FactSet.wf x) ->
  Witness.collision_free (flat_map FactSet.range (ss ++ flat_map (row_supports fs) rows)) ->
  Witness.collision_free (facts ++ flat_map (row_released input fs) rows) ->
  exists st', fold_res (observe_row input fs) st rows = Ok st' /\
    observed (facts ++ flat_map (row_released input fs) rows) (ss ++ flat_map (row_supports fs) rows) st'.
Proof.
  intros Hv Hrows Hfs. induction rows as [|row rows IH]; intros facts ss st Hst Hss C C'; [exists st; cbn; by rewrite !app_nil_r|].
  assert (Hr : row ∈ relRows input) by (apply Hrows; by left). pose proof (proj1 (Forall_forall _ _) (v_rows _ Hv) row Hr) as R.
  cbn [flat_map] in *.
  assert (Es : row_supports fs row = Witness.Clone (rRowSupport row) :: map fst (field_deps row fs)) by done. rewrite Es in *. clear Es. cbn [app] in *.
  rewrite !(cons_middle _ ss) in *. rewrite !app_assoc in *.
  destruct st as [release influence]. destruct Hst as [Hrel Hinf]. cbn [fst snd] in Hrel, Hinf.
  assert (Hsub : forall a b, a ⊆ b -> flat_map FactSet.range a ⊆ flat_map FactSet.range b).
  { intros a b Hab x (s & Hs & Hx)%Witness.elem_flat_map. apply Witness.elem_flat_map. eauto. }
  assert (Hrw : FactSet.wf (Witness.Clone (rRowSupport row))) by (destruct (rok_dep _ _ _ R) as (s & w & -> & _ & D); apply (dep_support _ _ D)).
  destruct (merge_support ss influence (Witness.Clone (rRowSupport row)) Hinf Hss Hrw) as (influence' & Ei & Ui).
  { eapply Witness.collision_free_sub; [|exact C]. apply Hsub. intros s Hs. apply elem_of_app. left. apply elem_of_app. by left. }
  assert (Hss' : forall x, x ∈ ss ++ [Witness.Clone (rRowSupport row)] -> FactSet.wf x).
  { intros x [Hx|Hx%list_elem_of_singleton]%elem_of_app; [by apply Hss|by subst]. }
  destruct (observe_cells input row fs Hv Hr facts (ss ++ [Witness.Clone (rRowSupport row)]) (release, influence') (conj Hrel Ui) Hfs Hss')
    as (st' & Es & Ho).
  { eapply Witness.collision_free_sub; [|exact C]. apply Hsub. intros s Hs. apply elem_of_app. by left. }
  { eapply Witness.collision_free_sub; [|exact C']. intros x Hx. apply elem_of_app. by left. }
  cbn [fold_res]. assert (E : observe_row input fs (release, influence) row = Ok st').
  { unfold observe_row. cbn [fst snd]. rewrite Ei. cbn [mbind result_bind]. done. }
  rewrite E. cbn [mbind result_bind]. apply IH; [|done| |done|done].
  - intros x Hx. apply Hrows. by right.
  - intros x [Hx|Hx]%elem_of_app; [by apply Hss'|]. apply list_elem_of_fmap in Hx as (d & -> & Hd).
    destruct (row_deps_ok input fs row Hv Hr) as [Hok _]. rewrite Forall_forall in Hok. apply (dep_support (relSnapshotBundle input) d), Hok. by right.
Qed.

(** The fields an observation shows: those asked for, or all of them. *)
Definition shown input (fs : list string) : list string := if (length fs =? 0)%nat then map fID (relFields input) else fs.

Lemma released_v2 input fs f : valid input -> f ∈ released input fs -> IsV2 f = true.
Proof.
  intros Hv (row & Hr & Hf)%Witness.elem_flat_map. apply list_elem_of_omap in Hf as (x & _ & Hx).
  unfold cell_release in Hx. destruct (rCells row !! x) as [cell|] eqn:Ec; [|done]. cbn [mbind option_bind] in Hx.
  destruct (materialize_ok input row x cell Hv Hr Ec) as (fact & Em & ? & _). rewrite Em in Hx. by injection Hx as <-.
Qed.

Lemma v2_facts_enter l : (forall f, f ∈ l -> IsV2 f = true) -> check_all (FactSet.check_fact ProfileV2) l = Ok tt.
Proof.
  intros Hl. apply check_all_ok, Forall_forall. intros f Hf. unfold FactSet.check_fact. rewrite (Hl f Hf).
  assert (E : FactSet.accounts_v2 ProfileV2 = true) by (vm_compute; reflexivity). by rewrite E.
Qed.

Lemma observation_normal R I : FactSet.wf R -> FactSet.wf I -> (forall f, f ∈ FactSet.range R -> IsV2 f = true) ->
  (forall f, f ∈ FactSet.range I -> IsV2 f = true) ->
  FactSet.Normalize (FactSet.MkObservation ProfileV2 (FactSet.Values R) (FactSet.Values I) []) =
    Ok (FactSet.MkObservation ProfileV2 (FactSet.Values R) (FactSet.Values I) []).
Proof.
  intros HR HI HR2 HI2. apply FactSet.Normalize_ok. split; [vm_compute; reflexivity|]. exists R, I, ∅. cbn [FactSet.Release FactSet.Influence FactSet.Outcome FactSet.ProfileVersion].
  split; [by apply FactSet.NewFactSet_Values|]. split; [by apply FactSet.NewFactSet_Values|]. split; [done|].
  split; [by apply v2_facts_enter|]. split; [by apply v2_facts_enter|]. done.
Qed.

Lemma observe_sets input fs : valid input -> requireFieldsV2 input (shown input fs) = Ok tt -> distinct_hashes input (shown input fs) ->
  exists R I, observed (released input (shown input fs)) (supports input (shown input fs)) (R, I) /\ FactSet.wf R /\ FactSet.wf I /\
    let o := FactSet.MkObservation ProfileV2 (FactSet.Values R) (FactSet.Values I) [] in
    ObserveV2 input fs = Ok o /\ FactSet.Normalize o = Ok o.
Proof.
  intros Hv Hreq [C C']. pose proof (proj1 (require_ok _ _) Hreq) as [_ Hfs]. unfold ObserveV2.
  rewrite (proj2 (validate_iff input (valid_machine _ Hv)) Hv). cbn [mbind result_bind]. cbv zeta. fold (shown input fs).
  rewrite Hreq. cbn [mbind result_bind]. set (vs := shown input fs) in *.
  destruct (observe_rows input vs (relRows input) Hv ltac:(done) Hfs [] [] (∅, ∅)) as ([R I] & E & Ho).
  - split; [|intros h f; cbn; rewrite lookup_empty; split; [done|by intros (s & ?%elem_of_nil & _)]].
    intros h f. cbn. rewrite lookup_empty. split; [done|by intros [?%elem_of_nil _]].
  - by intros x ?%elem_of_nil.
  - eapply Witness.collision_free_sub; [|exact C]. by apply support_facts.
  - exact C'.
  - cbn [app] in Ho. fold (released input vs) (supports input vs) in Ho. rewrite E. cbn [mbind result_bind]. pose proof Ho as [HR HI]. cbn [fst snd] in HR, HI.
    assert (WR : FactSet.wf R) by (intros h f Hf; by apply HR in Hf as [_ ?]).
    assert (WI : FactSet.wf I) by (eapply Witness.union_of_wf; [|exact HI]; intros s; by apply supports_wf).
    exists R, I. split; [exact Ho|]. split; [done|]. split; [done|]. cbv zeta.
    assert (N : forall A : Prop, A -> A /\ A) by auto. apply N. clear N. apply observation_normal; [done|done|..].
    + intros f (h & Hf)%FactSet.elem_range. apply HR in Hf as [Hf _]. by eapply released_v2.
    + intros f (h & Hf)%FactSet.elem_range. apply HI in Hf as (s & (row & Hr & (d & -> & Hd)%list_elem_of_fmap)%Witness.elem_flat_map & Hf).
      destruct (row_deps_ok input vs row Hv Hr) as [Hok _]. rewrite Forall_forall in Hok. destruct (dep_base _ _ (Hok d Hd) h f Hf) as [Hb _].
      unfold Witness.isBaseFactV2 in Hb. by apply andb_prop in Hb as [? _].
Qed.

(** C32: A valid relation can always be observed.  The observation releases
    exactly one fact per visible cell (the one it carries, or the derived fact
    of its provenance), and its influence is exactly the base facts on which
    the rows and the visible cells depend; both in hash order, in normal form. *)
Theorem observe_exact input fs :
  machine_relation input -> ValidateRelationV2 input = Ok tt -> requireFieldsV2 input (shown input fs) = Ok tt ->
  distinct_hashes input (shown input fs) ->
  exists o, ObserveV2 input fs = Ok o /\ FactSet.Normalize o = Ok o /\ FactSet.ProfileVersion o = ProfileV2 /\ FactSet.Outcome o = [] /\
    (forall f, f ∈ FactSet.Release o <-> f ∈ released input (shown input fs)) /\
    (forall f, f ∈ FactSet.Influence o <-> exists s, s ∈ supports input (shown input fs) /\ f ∈ FactSet.range s) /\
    length (released input (shown input fs)) = (length (relRows input) * length (shown input fs))%nat.
Proof.
  intros Hm Hval Hreq D. pose proof (proj1 (validate_iff input Hm) Hval) as Hv.
  destruct (observe_sets input fs Hv Hreq D) as (R & I & [HR HI] & WR & WI & E & N). cbn [fst snd] in HR, HI. set (vs := shown input fs) in *.
  assert (Hhash : forall f, f ∈ released input vs -> exists h, Hash f = Ok h).
  { intros f (row & Hr & Hf)%Witness.elem_flat_map. apply list_elem_of_omap in Hf as (x & _ & Hx).
    unfold cell_release in Hx. destruct (rCells row !! x) as [cell|] eqn:Ec; [|done]. cbn [mbind option_bind] in Hx.
    destruct (materialize_ok input row x cell Hv Hr Ec) as (fact & Em & _ & Hf). rewrite Em in Hx. injection Hx as <-.
    unfold Hash, CanonicalPayload. rewrite Hf. by eexists. }
  exists (FactSet.MkObservation ProfileV2 (FactSet.Values R) (FactSet.Values I) []). split; [exact E|]. cbn [FactSet.Release FactSet.Influence FactSet.Outcome FactSet.ProfileVersion].
  split; [exact N|].
  split; [done|]. split; [done|]. split; [|split].
  - intros f. rewrite FactSet.elem_Values. split; [intros (h & Hf%HR); tauto|]. intros Hf. destruct (Hhash f Hf) as [h Hh]. exists h. by apply HR.
  - intros f. rewrite FactSet.elem_Values. split.
    + intros (h & (s & Hs & Hf)%HI). exists s. split; [done|]. apply FactSet.elem_range. eauto.
    + intros (s & Hs & (h & Hf)%FactSet.elem_range). exists h. apply HI. eauto.
  - pose proof (proj1 (require_ok _ _) Hreq) as [_ Hfs]. unfold released.
    assert (Hrow : forall row, row ∈ relRows input -> length (row_released input vs row) = length vs).
    { intros row Hr. pose proof (proj1 (Forall_forall _ _) (v_rows _ Hv) row Hr) as R0. clear Hreq D E N HR HI Hhash. clearbody vs. unfold row_released.
      induction vs as [|x vs IH]; [done|]. cbn [omap list_omap]. assert (Hx : x ∈ map fID (relFields input)) by (apply Hfs; by left).
      apply list_elem_of_fmap in Hx as (g & -> & Hg). destruct (rok_cells _ _ _ R0 g Hg) as (cell & Hc & _).
      destruct (materialize_ok input row _ cell Hv Hr Hc) as (fact & Em & _). rewrite (release_materialized _ _ _ _ _ Hc Em). cbn [length]. f_equal.
      apply IH. intros y Hy. apply Hfs. by right. }
    induction (relRows input) as [|row rows IH]; [done|]. cbn [flat_map]. rewrite length_app, Hrow by (by left). cbn [length Nat.mul]. f_equal.
    apply IH. intros y Hy. apply Hrow. by right.
Qed.

(** *** Observation after projection *)
Lemma projected_deps fs vs row : vs ⊆ fs -> field_deps (projected fs row) vs = field_deps row vs.
Proof.
  intros Hsub. unfold field_deps. induction vs as [|v vs IH]; [done|]. cbn [omap list_omap projected rCells].
  rewrite restrict_lookup, decide_True by (apply Hsub; by left). rewrite <- IH; [done|]. intros x Hx. apply Hsub. by right.
Qed.
Lemma projected_released input fs vs row : vs ⊆ fs -> row_released (projection input fs) vs (projected fs row) = row_released input vs row.
Proof.
  intros Hsub. unfold row_released. induction vs as [|v vs IH]; [done|]. cbn [omap list_omap].
  assert (E : cell_release (projection input fs) (projected fs row) v = cell_release input row v).
  { unfold cell_release. cbn [projected rCells]. rewrite restrict_lookup, decide_True by (apply Hsub; by left). done. }
  rewrite E. rewrite <- IH; [done|]. intros x Hx. apply Hsub. by right.
Qed.

Lemma observe_cell_projected input fs row : forall st f, f ∈ fs ->
  observe_cell (projection input fs) (projected fs row) st f = observe_cell input row st f.
Proof.
  intros [release influence] f Hf. unfold observe_cell, cell_at. cbn [projected rCells]. by rewrite restrict_lookup, decide_True.
Qed.

(** Projection is transparent to observation: what is observed of a
    projection is what is observed of the same fields of its input, and, with no
    field named, of the projected fields. *)
Theorem observe_project input fs p vs :
  machine_relation input -> ProjectV2 input fs = Ok p -> vs ⊆ fs -> NoDup vs ->
  ObserveV2 p vs = ObserveV2 input (if (length vs =? 0)%nat then fs else vs).
Proof.
  intros Hm Hp Hsub Hnd. unfold ProjectV2 in Hp. apply seq_ok in Hp as [Hval Hp]. apply fail_if_bind_ok in Hp as [Hne Hp]. apply seq_ok in Hp as [Hreq Hp].
  pose proof (proj1 (validate_iff input Hm) Hval) as Hv. pose proof (proj1 (require_ok _ _) Hreq) as [Hfnd Hfs].
  rewrite project_rows in Hp by done. cbn [mbind result_bind] in Hp. fold (projection input fs) in Hp. pose proof (validated_inv _ _ Hp) as ->.
  assert (Hne' : fs <> []) by (by destruct fs).
  assert (Hpv : valid (projection input fs)) by (by apply projection_valid).
  assert (Hids : map fID (relFields (projection input fs)) = fs) by (by apply projection_ids, Hfs; apply Hv).
  set (us := if (length vs =? 0)%nat then fs else vs).
  assert (Hus : us ⊆ fs /\ NoDup us /\ length us <> 0%nat).
  { unfold us. destruct (Nat.eqb_spec (length vs) 0); [|done]. split; [done|]. split; [done|]. by apply Nat.eqb_neq. }
  destruct Hus as (Huf & Hund & Hune).
  assert (L : ObserveV2 (projection input fs) vs = ObserveV2 (projection input fs) us).
  { unfold ObserveV2. f_equal. cbv zeta. rewrite Hids. apply Nat.eqb_neq in Hune. rewrite Hune. done. }
  rewrite L. unfold ObserveV2. rewrite (proj2 (validate_iff _ (valid_machine _ Hpv)) Hpv), Hval. cbn [mbind result_bind]. cbv zeta.
  rewrite (proj2 (Nat.eqb_neq _ _) Hune).
  rewrite (proj2 (require_ok (projection input fs) us)) by (rewrite Hids; done).
  rewrite (proj2 (require_ok input us)) by (split; [done|]; intros f Hf; by apply Hfs, Huf). cbn [mbind result_bind].
  f_equal. cbn [projection relRows]. rewrite fold_res_map. apply fold_res_ext. intros [release influence] row _. unfold observe_row. cbn [fst snd projected rRowSupport].
  destruct (FactSet.MergeChecked influence _) as [i|]; [|done]. cbn [mbind result_bind]. apply fold_res_ext. intros st f Hf. by apply observe_cell_projected, Huf.
Qed.
End props.
End RelationProps.
