(* ===== verification/RelationJoin.v ===== *)
(** * Join, union and aggregation of annotated relations

    [JoinOnV2], [UnionDistinctV2] and [AggregateFromResultsV2] of
    [src/internal/exposure/algebra_v2.go].  [reflect.DeepEqual] on two dynamic
    values is the class [DeepValues]. *)

From S2P Require Import Prelude GoBytes Ordering GoText Sha256 FactId FactSet Witness Relation.
Import GoText FactId Relation.

(** [reflect.DeepEqual] on values of Go's [any]. *)
Class DeepValues (V : Type) := DeepEqualValue : V -> V -> bool.

Module RelationJoin.

Record JoinPredicateV2 := MkPredicate { jLeftField : string; jRightField : string }.
Record AggregateSpecV2 := MkAggregate { aFunction : string; aField : string; aOutputID : string; aOutputType : string }.

(** The values of a map in the order of its keys. *)
Definition sorted_values {A} (m : gmap string A) : list A := omap (fun key => m !! key) (go_sort (map_to_list m).*1).

(** [key, _ := ComposeCanonicalKeyV2(...)]. *)
Definition key_or_empty (domain : string) (values : list string) : string :=
  match Witness.ComposeCanonicalKeyV2 domain values with Ok key => key | Err _ => "" end.

Definition joinRowKeyV2 (leftIdentity rightIdentity : string) : result string :=
  Witness.ComposeCanonicalKeyV2 "join-row" (go_sort [leftIdentity; rightIdentity]).

Definition relationRowIdentityV2 {V} (relation : RelationV2 V) (row : AnnotatedRowV2 V) : result string :=
  Witness.ComposeCanonicalKeyV2 "relation-row"
    ([normalizedSchemaV2 (relFields relation); rKey row] ++
     flat_map (fun binding => [bSourceNamespace binding; bSnapshot binding]) (relSnapshotBundle relation)).

Section algebra.
Context `{SQLLiterals} {V : Type} `{!SQLValues V, !DeepValues V}.
Implicit Types (relation input left right : RelationV2 V) (row source : AnnotatedRowV2 V) (cell : CellV2 V).

Abbreviation Clone := Witness.Clone (only parsing).

(** ** Equality of SQL values *)
Definition SQLValueEqualV2 (sqlType : string) (left right : V) : result SQLTruth :=
  typeName ← CanonicalSQLTypeV2 sqlType;
  leftCanonical ← CanonicalSQLValue typeName left;
  rightCanonical ← CanonicalSQLValue typeName right;
  Ok (if same leftCanonical "null" || same rightCanonical "null" then SQLUnknown
      else if same leftCanonical rightCanonical then SQLTrue else SQLFalse).

Definition SQLValueNotDistinctV2 (sqlType : string) (left right : V) : result bool :=
  typeName ← CanonicalSQLTypeV2 sqlType;
  leftCanonical ← CanonicalSQLValue typeName left;
  rightCanonical ← CanonicalSQLValue typeName right;
  Ok (same leftCanonical rightCanonical).

(** ** Join *)
Record join_keys := MkKeys { jkLeft : list string; jkRight : list string; jkTypes : list string; jkSeen : list string }.

Definition join_predicate left right (keys : join_keys) (predicate : JoinPredicateV2) : result join_keys :=
  let leftField := jLeftField predicate in
  let rightField := jRightField predicate in
  requireFieldsV2 left [leftField] ≫= fun _ =>
  requireFieldsV2 right [rightField] ≫= fun _ =>
  let key := leftField +:+ nul +:+ rightField in
  fail_if (in_list key (jkSeen keys)) (bad "duplicate V2 join predicate") ≫= fun _ =>
  leftType ← CanonicalSQLTypeV2 (type_of (fieldTypeMapV2 left) leftField);
  rightType ← CanonicalSQLTypeV2 (type_of (fieldTypeMapV2 right) rightField);
  fail_if (negb (same leftType rightType)) (bad "V2 join keys require the same canonical SQL type") ≫= fun _ =>
  let l := fieldDefinitionV2 left leftField in
  let r := fieldDefinitionV2 right rightField in
  fail_if (isCollatableTypeV2 leftType && (negb (same (fCollation l) (fCollation r)) || negb (same (fCollationVersion l) (fCollationVersion r)) ||
           negb (fCollationDeterministic l) || negb (fCollationDeterministic r)))
    (bad "V2 join keys require the same deterministic collation") ≫= fun _ =>
  Ok (MkKeys (jkLeft keys ++ [leftField]) (jkRight keys ++ [rightField]) (jkTypes keys ++ [leftType]) (key :: jkSeen keys)).

Definition field_map_step (m : gmap string FieldV2) (field : FieldV2) : result (gmap string FieldV2) :=
  fail_if (negb (bool_decide (m !! fID field = None))) (bad "join requires stable role-qualified field IDs") ≫= fun _ =>
  Ok (<[fID field := field]> m).

(** [joinEqualityKeyV2]: [None] when a key is NULL. *)
Definition equality_step row (encoded : option bytes) (pair : string * string) : result (option bytes) :=
  match encoded with
  | None => Ok None
  | Some encoded =>
      cell ← cell_at row pair.1;
      canonical ← CanonicalSQLValue pair.2 (cValue cell);
      Ok (if same canonical "null" then None else Some (encoded ++ be_string pair.2 ++ be_string canonical))
  end.
Definition joinEqualityKeyV2 row (fields types : list string) : result (option bytes) :=
  fold_res (equality_step row) (Some (be_uint64 (Z.of_nat (length fields)))) (zip fields types).

Definition index_step (keys types : list string) (index : list (bytes * AnnotatedRowV2 V)) row : result (list (bytes * AnnotatedRowV2 V)) :=
  key ← joinEqualityKeyV2 row keys types;
  Ok (match key with Some key => index ++ [(key, row)] | None => index end).

Definition join_cells (leftRow rightRow : AnnotatedRowV2 V) (d : dependency) (predicate : JoinPredicateV2) : result dependency :=
  d ← depend_on leftRow d (jLeftField predicate);
  depend_on rightRow d (jRightField predicate).

Definition join_pair left right (predicates : list JoinPredicateV2) (leftRow rightRow : AnnotatedRowV2 V) : result (AnnotatedRowV2 V) :=
  leftIdentity ← relationRowIdentityV2 left leftRow;
  rightIdentity ← relationRowIdentityV2 right rightRow;
  key ← joinRowKeyV2 leftIdentity rightIdentity;
  support ← FactSet.MergeChecked (Clone (rRowSupport leftRow)) (Clone (rRowSupport rightRow));
  '(support, witness) ← fold_res (join_cells leftRow rightRow) (support, Clone (rRowWitness leftRow)) predicates;
  witness ← Witness.Merge witness (Clone (rRowWitness rightRow));
  Ok (MkRow key ((cloneCellV2 <$> rCells rightRow) ∪ (cloneCellV2 <$> rCells leftRow)) (Some support) (Some witness)
        (rOrigins leftRow ++ rOrigins rightRow)).

Definition join_left left right (predicates : list JoinPredicateV2) (keys : join_keys) (index : list (bytes * AnnotatedRowV2 V))
    (rows : list (AnnotatedRowV2 V)) (leftRow : AnnotatedRowV2 V) : result (list (AnnotatedRowV2 V)) :=
  key ← joinEqualityKeyV2 leftRow (jkLeft keys) (jkTypes keys);
  match key with
  | None => Ok rows
  | Some key =>
      fold_res (fun rows entry => row ← join_pair left right predicates leftRow entry.2; Ok (rows ++ [row])) rows
        (filter (fun entry => entry.1 = key) index)
  end.

Definition JoinOnV2 left right (predicates : list JoinPredicateV2) : result (RelationV2 V) :=
  ValidateRelationV2 left ≫= fun _ =>
  ValidateRelationV2 right ≫= fun _ =>
  fail_if (length predicates =? 0)%nat (bad "V2 equijoin requires at least one equality") ≫= fun _ =>
  keys ← fold_res (join_predicate left right) (MkKeys [] [] [] []) predicates;
  requireFieldsV2 left (jkLeft keys) ≫= fun _ =>
  requireFieldsV2 right (jkRight keys) ≫= fun _ =>
  bundle ← mergeSnapshotBundles (relSnapshotBundle left) (relSnapshotBundle right);
  fieldMap ← fold_res field_map_step ∅ (relFields left ++ relFields right);
  index ← fold_res (index_step (jkRight keys) (jkTypes keys)) [] (relRows right);
  rows ← fold_res (join_left left right predicates keys index) [] (relRows left);
  validated (MkRelation (sorted_values fieldMap) rows bundle false).

Definition JoinV2 left right (leftKey rightKey : string) : result (RelationV2 V) :=
  JoinOnV2 left right [MkPredicate leftKey rightKey].

(** ** Union *)
Definition distinct_components (fields : list FieldV2) row : result (list string) :=
  fold_res (fun components field =>
    cell ← cell_at row (fID field);
    canonical ← CanonicalSQLValue (fSQLType field) (cValue cell);
    Ok (components ++ [fSQLType field; canonical])) [normalizedSchemaV2 fields] fields.

(** [sort.Slice] by identifier. *)
#[local] Instance field_compare : Compare FieldV2 := compare_on fID.
Definition sort_fields (fields : list FieldV2) : list FieldV2 := go_sort fields.

Definition distinct_step (fields : list FieldV2) (st : bool * list string) row : result (bool * list string) :=
  let '(distinct, seen) := st in
  if negb distinct then Ok st else
  components ← distinct_components fields row;
  key ← Witness.ComposeCanonicalKeyV2 "union-distinct-row" components;
  Ok (if in_list key seen then (false, seen) else (true, key :: seen)).
Definition relationTuplesDistinctV2 input : result bool :=
  '(distinct, _) ← fold_res (distinct_step (sort_fields (relFields input))) (true, []) (relRows input); Ok distinct.

(** [reflect.DeepEqual] of two relations. *)
Definition deep_map {A} (eq : A -> A -> bool) (m m' : gmap string A) : bool :=
  (size m =? size m')%nat &&
  forallb (fun entry : string * A => match m' !! entry.1 with Some x => eq entry.2 x | None => false end) (map_to_list m).
Definition deep_list {A} (eq : A -> A -> bool) (l l' : list A) : bool :=
  (length l =? length l')%nat && forallb (fun pair : A * A => eq pair.1 pair.2) (zip l l').
#[local] Instance FactID_eq_dec : EqDecision FactID.
Proof. solve_decision. Defined.
#[local] Instance WitnessItem_eq_dec : EqDecision Witness.WitnessItem.
Proof. solve_decision. Defined.
#[local] Instance FieldV2_eq_dec : EqDecision FieldV2.
Proof. solve_decision. Defined.
#[local] Instance RowOriginV2_eq_dec : EqDecision RowOriginV2.
Proof. solve_decision. Defined.

Definition deep_cell (a b : CellV2 V) : bool :=
  DeepEqualValue (cValue a) (cValue b) && same (cSQLType a) (cSQLType b) && bool_decide (cSupport a = cSupport b) &&
  bool_decide (cWitness a = cWitness b) && same (cExpression a) (cExpression b) && bool_decide (cReleaseFact a = cReleaseFact b).
Definition deep_row (a b : AnnotatedRowV2 V) : bool :=
  same (rKey a) (rKey b) && deep_map deep_cell (rCells a) (rCells b) && bool_decide (rRowSupport a = rRowSupport b) &&
  bool_decide (rRowWitness a = rRowWitness b) && bool_decide (rOrigins a = rOrigins b).
Definition DeepEqual left right : bool :=
  bool_decide (relFields left = relFields right) && deep_list deep_row (relRows left) (relRows right) &&
  bool_decide (relSnapshotBundle left = relSnapshotBundle right) && Bool.eqb (relCanonicalOrder left) (relCanonicalOrder right).

Definition union_field right (field : FieldV2) : FieldV2 :=
  let leftExpression := fExpression field in
  let rightExpression := fExpression (default zero_field (find (fun r => same (fID r) (fID field)) (rev (relFields right)))) in
  if same leftExpression rightExpression then field
  else MkField (fID field) (fSQLType field) ("union(" +:+ Join (go_sort [leftExpression; rightExpression]) "," +:+ ")")
         (fCollation field) (fCollationVersion field) (fCollationDeterministic field).

Definition unionDistinctRowDependencyV2 source (fields : list FieldV2) : result dependency :=
  fold_res (depend_on source) (row_dependency source) (map fID fields).

Definition union_cell relation source (cells : gmap string (CellV2 V)) (field : FieldV2) : result (gmap string (CellV2 V)) :=
  match cells !! fID field with
  | None => Err (bad "missing cell")
  | Some cell =>
      sourceCell ← cell_at source (fID field);
      support ← FactSet.MergeChecked (Clone (cSupport cell)) (Clone (cSupport sourceCell));
      witness ← Witness.MergeMax (Clone (cWitness cell)) (Clone (cWitness sourceCell));
      sourceFact ← materializeCellReleaseV2 relation source sourceCell;
      let agrees := match cReleaseFact cell with Some fact => FactSet.same_payload fact sourceFact | None => false end in
      Ok (<[fID field := MkCell (cValue cell) (cSQLType cell) (Some support) (Some witness)
             (if agrees then cExpression cell else fExpression field) (if agrees then cReleaseFact cell else None)]> cells)
  end.

Definition union_merge relation source (fields : list FieldV2) (d : dependency) row : result (AnnotatedRowV2 V) :=
  rowSupport ← FactSet.MergeChecked (Clone (rRowSupport row)) d.1;
  rowWitness ← Witness.MergeMax (Clone (rRowWitness row)) d.2;
  cells ← fold_res (union_cell relation source) (rCells row) fields;
  Ok (MkRow (rKey row) cells (Some rowSupport) (Some rowWitness) (rOrigins row)).

Definition release_cell relation source (cells : gmap string (CellV2 V)) (field : FieldV2) : result (gmap string (CellV2 V)) :=
  match cells !! fID field with
  | None => Err (bad "missing cell")
  | Some cell =>
      fact ← materializeCellReleaseV2 relation source cell;
      Ok (<[fID field := MkCell (cValue cell) (cSQLType cell) (cSupport cell) (cWitness cell) (cExpression cell) (Some fact)]> cells)
  end.

Definition union_first relation source (fields : list FieldV2) (key : string) (d : dependency) : result (AnnotatedRowV2 V) :=
  cells ← fold_res (release_cell relation source) (rCells (cloneRowV2 source)) fields;
  Ok (MkRow key cells (Some d.1) (Some d.2) (rOrigins source)).

Definition union_step (fields : list FieldV2) (st : gmap string nat * list (AnnotatedRowV2 V)) (input : RelationV2 V * AnnotatedRowV2 V) :
    result (gmap string nat * list (AnnotatedRowV2 V)) :=
  let '(index, rows) := st in
  let '(relation, source) := input in
  d ← unionDistinctRowDependencyV2 source fields;
  components ← distinct_components fields source;
  let key := key_or_empty "union-distinct-row" components in
  match index !! key with
  | Some existing =>
      match rows !! existing with
      | Some row => row ← union_merge relation source fields d row; Ok (index, <[existing := row]> rows)
      | None => Err (ErrNew "index out of range")
      end
  | None => row ← union_first relation source fields key d; Ok (<[key := length rows]> index, rows ++ [row])
  end.

Definition UnionDistinctV2 left right : result (RelationV2 V) :=
  ValidateRelationV2 left ≫= fun _ =>
  ValidateRelationV2 right ≫= fun _ =>
  fail_if (negb (sameSchemaV2 (relFields left) (relFields right))) (bad "union schemas differ") ≫= fun _ =>
  bundle ← mergeSnapshotBundles (relSnapshotBundle left) (relSnapshotBundle right);
  (if DeepEqual left right then relationTuplesDistinctV2 left else Ok false) ≫= fun identical : bool =>
  if identical then Ok (cloneRelationV2 left)
  else
    let fields := sort_fields (map (union_field right) (relFields left)) in
    '(_, rows) ← fold_res (union_step fields) (∅, [])
      (map (fun row => (left, row)) (relRows left) ++ map (fun row => (right, row)) (relRows right));
    validated (MkRelation fields rows bundle false).

(** ** Aggregation *)
Definition expectedAggregateOutputTypeV2 (function input : string) : string :=
  if same function "count" then "bigint"
  else if same function "sum" then
    (if in_list input ["smallint"; "integer"] then "bigint" else if in_list input ["bigint"; "numeric"] then "numeric" else "")
  else if same function "min" || same function "max" then
    (if in_list input ["smallint"; "integer"; "bigint"; "numeric"; "real"; "double precision"; "date"; "time without time zone";
                       "timestamp with time zone"; "timestamp without time zone"; "text"; "character"; "character varying"]
     then input else "")
  else "".

Definition function_of (spec : AggregateSpecV2) : string := LowerText (TrimSpace (aFunction spec)).
Definition star (spec : AggregateSpecV2) : bool := same (aField spec) "*".

Definition aggregateExpressionV2 input (spec : AggregateSpecV2) : string :=
  function_of spec +:+ "(" +:+ (if star spec then "*" else inputExpressionV2 input (aField spec)) +:+ ")".

Definition check_spec input (outputIDs : list string) (spec : AggregateSpecV2) : result (list string) :=
  fail_if (negb (in_list (function_of spec) ["count"; "sum"; "min"; "max"])) (bad "unsupported V2 aggregate %q") ≫= fun _ =>
  (if star spec then Ok tt else requireFieldsV2 input [aField spec]) ≫= fun _ =>
  fail_if (invalidToken (aOutputID spec)) (bad "aggregate output metadata is incomplete") ≫= fun _ =>
  fail_if (in_list (aOutputID spec) outputIDs) (bad "duplicate V2 group output %q") ≫= fun _ =>
  outputType ← CanonicalSQLTypeV2 (aOutputType spec);
  let inputType := if star spec then "" else type_of (fieldTypeMapV2 input) (aField spec) in
  fail_if (negb (same (expectedAggregateOutputTypeV2 (function_of spec) inputType) outputType))
    (bad "V2 aggregate %s(%s) has the wrong output type") ≫= fun _ =>
  Ok (aOutputID spec :: outputIDs).

Definition output_type (spec : AggregateSpecV2) : string := match CanonicalSQLTypeV2 (aOutputType spec) with Ok t => t | Err _ => "" end.

Definition group_field input (field : string) : FieldV2 :=
  let definition := fieldDefinitionV2 input field in
  MkField (fID definition) (fSQLType definition) ("group(" +:+ inputExpressionV2 input field +:+ ")") (fCollation definition)
    (fCollationVersion definition) (fCollationDeterministic definition).
Definition aggregate_field input (spec : AggregateSpecV2) : FieldV2 :=
  let source := if isCollatableTypeV2 (output_type spec) && negb (star spec) then fieldDefinitionV2 input (aField spec) else zero_field in
  MkField (aOutputID spec) (output_type spec) (aggregateExpressionV2 input spec) (fCollation source) (fCollationVersion source)
    (fCollationDeterministic source).

(** One component of the key of a group. *)
Definition group_component input (field : string) (value : V) : result string :=
  let typeName := type_of (fieldTypeMapV2 input) field in
  canonical ← CanonicalSQLValue typeName value;
  Ok (inputExpressionV2 input field +:+ nul +:+ typeName +:+ nul +:+ canonical).

Definition output_components input (groupFields : list string) (output : gmap string V) : result (list string) :=
  fold_res (fun components field =>
    match output !! field with
    | Some value => component ← group_component input field value; Ok (components ++ [component])
    | None => Err (bad "aggregate output misses group field %q")
    end) [] groupFields.
Definition row_components input (groupFields : list string) row : result (list string) :=
  fold_res (fun components field =>
    cell ← cell_at row field;
    component ← group_component input field (cValue cell); Ok (components ++ [component])) [] groupFields.

(** [matchingGroupRowsV2]: the fields are compared until one differs. *)
Definition match_step (types : gmap string string) (output : gmap string V) row (matches : bool) (field : string) : result bool :=
  if negb matches then Ok false else
  cell ← cell_at row field;
  match output !! field with
  | Some value => SQLValueNotDistinctV2 (type_of types field) (cValue cell) value
  | None => Err (bad "aggregate output misses group field %q")
  end.
Definition matchingGroupRowsV2 input (fields : list string) (output : gmap string V) : result (list (AnnotatedRowV2 V)) :=
  fold_res (fun members row =>
    fold_res (match_step (fieldTypeMapV2 input) output row) true fields ≫= fun matches : bool =>
    Ok (if matches then members ++ [row] else members)) [] (relRows input).

Definition empty_dependency : dependency := (∅, ∅).

Definition group_member (groupFields : list string) (d : dependency) (member : AnnotatedRowV2 V) : result dependency :=
  d ← depend d (row_dependency member);
  fold_res (depend_on member) d groupFields.

Definition group_cell (result_fields : list FieldV2) input (members : list (AnnotatedRowV2 V)) (output : gmap string V)
    (cells : gmap string (CellV2 V)) (field : string) : result (gmap string (CellV2 V)) :=
  d ← fold_res (fun d member => depend_on member d field) empty_dependency members;
  match output !! field with
  | Some value =>
      Ok (<[field := MkCell value (type_of (fieldTypeMapV2 input) field) (Some d.1) (Some d.2)
             (fExpression (default zero_field (find (fun f => same (fID f) field) result_fields))) None]> cells)
  | None => Err (bad "aggregate output misses group field %q")
  end.

Definition aggregate_cell input (members : list (AnnotatedRowV2 V)) (output : gmap string V)
    (cells : gmap string (CellV2 V)) (spec : AggregateSpecV2) : result (gmap string (CellV2 V)) :=
  match output !! aOutputID spec with
  | None => Err (bad "aggregate output misses value %q")
  | Some value =>
      d ← fold_res (fun d member => if star spec then depend d (row_dependency member) else depend_on member d (aField spec))
            empty_dependency members;
      Ok (<[aOutputID spec := MkCell value (output_type spec) (Some d.1) (Some d.2) (aggregateExpressionV2 input spec) None]> cells)
  end.

Definition group_key (components : list string) : string := key_or_empty "group-row" (go_sort components).

Definition group_row (fields : list FieldV2) input (groupFields : list string) (specs : list AggregateSpecV2)
    (rows : list (AnnotatedRowV2 V)) (output : gmap string V) : result (list (AnnotatedRowV2 V)) :=
  components ← output_components input groupFields output;
  let key := group_key (if (length components =? 0)%nat then ["global"] else components) in
  members ← matchingGroupRowsV2 input groupFields output;
  fail_if (negb (length groupFields =? 0)%nat && (length members =? 0)%nat) (bad "aggregate output group has no positive source row") ≫= fun _ =>
  d ← fold_res (group_member groupFields) empty_dependency members;
  cells ← fold_res (group_cell fields input members output) ∅ groupFields;
  cells ← fold_res (aggregate_cell input members output) cells specs;
  Ok (rows ++ [MkRow key cells (Some d.1) (Some d.2) []]).

Definition expected_groups input (groupFields : list string) : result (gset string) :=
  fold_res (fun groups source => components ← row_components input groupFields source; Ok ({[group_key components]} ∪ groups)) ∅ (relRows input).

Definition AggregateFromResultsV2 input (groupFields : list string) (specs : list AggregateSpecV2) (outputRows : list (gmap string V)) :
    result (RelationV2 V) :=
  ValidateRelationV2 input ≫= fun _ =>
  requireFieldsV2 input groupFields ≫= fun _ =>
  fail_if (length groupFields + length specs =? 0)%nat (bad "V2 group requires a key or aggregate") ≫= fun _ =>
  fail_if ((length groupFields =? 0)%nat && negb (length outputRows =? 1)%nat)
    (bad "a global PostgreSQL aggregate has exactly one output row") ≫= fun _ =>
  fold_res (check_spec input) groupFields specs ≫= fun _ =>
  let fields : list FieldV2 := map (group_field input) groupFields ++ map (aggregate_field input) specs in
  rows ← fold_res (group_row fields input groupFields specs) [] outputRows;
  (if negb (length groupFields =? 0)%nat then
     groups ← expected_groups input groupFields;
     fail_if (negb (length rows =? size groups)%nat) (bad "PostgreSQL group oracle omitted or duplicated a positive group")
   else Ok tt) ≫= fun _ =>
  validated (MkRelation fields rows (relSnapshotBundle input) false).
End algebra.
End RelationJoin.
