(* ===== verification/JoinProps.v ===== *)
(** * What a join does

    [JoinOnV2] builds an index of the right rows by their equality key and looks
    every left row up in it.  The reference is the nested loop over all pairs of
    rows that keeps those on which every SQL equality is TRUE. *)

From S2P Require Import Prelude GoBytes Ordering GoText Sha256 FactId FactSet Witness Relation RelationProps RelationJoin.
Import GoText FactId Relation RelationProps RelationJoin.

Module JoinProps.

(** ** Texts without NUL *)
Fixpoint no_nul (s : string) : Prop := match s with "" => True | String.String c s => c <> ascii_of_nat 0 /\ no_nul s end.

Lemma nul_prefix a : forall b x y, no_nul a -> no_nul b -> a +:+ nul +:+ x = b +:+ nul +:+ y -> a = b.
Proof.
  induction a as [|c a IH]; intros [|d b] x y; cbn; [done|..].
  - intros _ [Hd _] [= E _]. by destruct Hd.
  - intros [Hc _] _ [= E _]. by destruct Hc.
  - intros [_ Ha] [_ Hb] [= -> E]. f_equal. by eapply IH.
Qed.

Section props.
Context `{SQLLiterals} {V : Type} `{!SQLValues V, !SQLValuesLaws V}.
Implicit Types (left right l r : RelationV2 V) (row lrow rrow : AnnotatedRowV2 V) (cell : CellV2 V) (d : dependency) (p : JoinPredicateV2).

Definition swapped (p : JoinPredicateV2) : JoinPredicateV2 := MkPredicate (jRightField p) (jLeftField p).
Definition predicate_key p : string := jLeftField p +:+ nul +:+ jRightField p.

(** ** Predicates *)
Definition key_type left p : string :=
  match CanonicalSQLTypeV2 (type_of (fieldTypeMapV2 left) (jLeftField p)) with Ok t => t | Err _ => "" end.

(** The two fields exist and have the same type and collation. *)
Record joinable left right p : Prop := {
  jo_left : jLeftField p ∈ map fID (relFields left);
  jo_right : jRightField p ∈ map fID (relFields right);
  jo_type : exists t, CanonicalSQLTypeV2 (type_of (fieldTypeMapV2 left) (jLeftField p)) = Ok t /\
    CanonicalSQLTypeV2 (type_of (fieldTypeMapV2 right) (jRightField p)) = Ok t /\
    (isCollatableTypeV2 t = true ->
       let lf := fieldDefinitionV2 left (jLeftField p) in let rf := fieldDefinitionV2 right (jRightField p) in
       fCollation lf = fCollation rf /\ fCollationVersion lf = fCollationVersion rf /\
       fCollationDeterministic lf = true /\ fCollationDeterministic rf = true) }.

Lemma joinable_flip left right p : joinable left right p -> joinable right left (swapped p).
Proof. intros [Hl Hr (t & El & Er & Hc)]. split; [done|done|]. exists t. split; [done|]. split; [done|]. cbv zeta in *. cbn [swapped jLeftField jRightField]. naive_solver. Qed.

Lemma join_predicate_ok left right keys p keys' : join_predicate left right keys p = Ok keys' <->
  joinable left right p /\ predicate_key p ∉ jkSeen keys /\
  keys' = MkKeys (jkLeft keys ++ [jLeftField p]) (jkRight keys ++ [jRightField p]) (jkTypes keys ++ [key_type left p]) (predicate_key p :: jkSeen keys).
Proof.
  unfold join_predicate. cbv zeta. fold (predicate_key p). rewrite !seq_ok, fail_if_ok, in_list_false, bind_ok.
  rewrite !require_ok. unfold key_type. split.
  - intros ([_ Hl] & [_ Hr] & Hn & lt & El & (rt & Er & [Ht%negb_false_iff%same_true [Hc <-%Ok_inj]%fail_if_bind_ok]%fail_if_bind_ok)%bind_ok).
    subst rt. rewrite El. split; [|done]. split; [apply Hl; by left|apply Hr; by left|].
    exists lt. split; [done|]. split; [done|]. intros Ht. rewrite Ht in Hc. cbn [andb] in Hc.
    rewrite !orb_false_iff, !negb_false_iff, !same_true in Hc. naive_solver.
  - intros ([Hl Hr (t & El & Er & Hc)] & Hn & ->). split; [split; [apply NoDup_singleton|by intros f ->%list_elem_of_singleton]|].
    split; [split; [apply NoDup_singleton|by intros f ->%list_elem_of_singleton]|]. split; [done|]. exists t. split; [done|].
    rewrite Er, El. cbn [mbind result_bind]. rewrite (proj2 (same_true t t) eq_refl). cbn [negb fail_if mbind result_bind].
    destruct (isCollatableTypeV2 t); [|done]. cbn [andb]. destruct (Hc eq_refl) as (-> & -> & -> & ->).
    by rewrite !(proj2 (same_true _ _) eq_refl).
Qed.

Definition keys_of left (ps : list JoinPredicateV2) : join_keys :=
  MkKeys (map jLeftField ps) (map jRightField ps) (map (key_type left) ps) (rev (map predicate_key ps)).

Lemma join_predicates_ok left right ps : forall keys keys', fold_res (join_predicate left right) keys ps = Ok keys' <->
  Forall (joinable left right) ps /\ NoDup (map predicate_key ps) /\ (forall p, p ∈ ps -> predicate_key p ∉ jkSeen keys) /\
  keys' = MkKeys (jkLeft keys ++ map jLeftField ps) (jkRight keys ++ map jRightField ps) (jkTypes keys ++ map (key_type left) ps)
            (rev (map predicate_key ps) ++ jkSeen keys).
Proof.
  induction ps as [|p ps IH]; intros keys keys'; cbn [fold_res map rev].
  - rewrite !app_nil_r. cbn [app]. destruct keys. split; [intros <-%Ok_inj; split; [constructor|]; split; [constructor|]; split; [by intros p ?%elem_of_nil|done]|by intros (_ & _ & _ & ->)].
  - rewrite bind_ok, Forall_cons, NoDup_cons. setoid_rewrite join_predicate_ok. setoid_rewrite IH. split.
    + intros (k & (Hj & Hn & ->) & HF & Hnd & Hs & ->). cbn [jkLeft jkRight jkTypes jkSeen] in *. rewrite <- !app_assoc. split; [done|]. split.
      * split; [|done]. intros (q & E & Hq)%list_elem_of_fmap. apply (Hs q Hq). rewrite <- E. by left.
      * split; [|done]. intros q [->|Hq]%elem_of_cons; [done|]. intros Hin. apply (Hs q Hq). by right.
    + intros ((Hj & HF) & (Hnot & Hnd) & Hs & ->). eexists. split; [split; [done|]; split; [apply Hs; by left|done]|].
      cbn [jkLeft jkRight jkTypes jkSeen]. rewrite <- !app_assoc. split; [done|]. split; [done|]. split; [|done].
      intros q Hq [E|Hin]%elem_of_cons; [|apply (Hs q); [by right|done]]. apply Hnot. apply list_elem_of_fmap. eauto.
Qed.

(** ** Equality keys *)
Lemma canonical_type_fixed t : CanonicalSQLTypeV2 t = Ok t -> normalizeSQLType t = t.
Proof. unfold CanonicalSQLTypeV2. cbv zeta. destruct (in_list _ _); [by intros ?%Ok_inj|by destruct (bool_decide _)]. Qed.

Lemma field_type r f : valid r -> f ∈ relFields r -> type_of (fieldTypeMapV2 r) (fID f) = fSQLType f.
Proof.
  intros Hv Hf. unfold type_of, fieldTypeMapV2, field_types. rewrite (types_lookup (fun f => normalizeSQLType (fSQLType f))); [|apply Hv|done].
  cbn. apply canonical_type_fixed. pose proof (proj1 (Forall_forall _ _) (v_field_ok _ Hv) f Hf) as Hok. apply Hok.
Qed.

(** The canonical value of a cell of a valid relation. *)
Lemma cell_canonical r row x t : valid r -> row ∈ relRows r -> x ∈ map fID (relFields r) ->
  CanonicalSQLTypeV2 (type_of (fieldTypeMapV2 r) x) = Ok t ->
  exists cell c, rCells row !! x = Some cell /\ CanonicalSQLValue t (cValue cell) = Ok c.
Proof.
  intros Hv Hr (f & -> & Hf)%list_elem_of_fmap Ht. pose proof (proj1 (Forall_forall _ _) (v_rows _ Hv) row Hr) as R.
  rewrite field_type in Ht by done. pose proof (proj1 (Forall_forall _ _) (v_field_ok _ Hv) f Hf) as Hok. rewrite (fok_type _ Hok) in Ht. apply Ok_inj in Ht as <-.
  destruct (rok_cells _ _ _ R f Hf) as (cell & Hc & Hcell). destruct (cok_value _ _ _ Hcell) as (c & Ec & _). rewrite (cok_type _ _ _ Hcell) in Ec. eauto.
Qed.

Definition canon row (x t : string) : string :=
  match rCells row !! x with Some cell => match CanonicalSQLValue t (cValue cell) with Ok c => c | Err _ => "" end | None => "" end.

Section equality.
Variables (side : JoinPredicateV2 -> string) (ty : JoinPredicateV2 -> string).
Definition key_values (ps : list JoinPredicateV2) row : list string := map (fun p => canon row (side p) (ty p)) ps.
Definition encode (pair : string * string) : bytes := be_string pair.1 ++ be_string pair.2.
Definition encoded (ps : list JoinPredicateV2) row : bytes := flat_map (fun p => encode (ty p, canon row (side p) (ty p))) ps.
(** The key of a row: none when one of its values is NULL. *)
Definition row_key (ps : list JoinPredicateV2) row : option bytes :=
  if in_list "null" (key_values ps row) then None else Some (be_uint64 (Z.of_nat (length ps)) ++ encoded ps row).

Definition computable row p : Prop := exists cell c, rCells row !! side p = Some cell /\ CanonicalSQLValue (ty p) (cValue cell) = Ok c.

Lemma equality_none row fts : fold_res (equality_step row) None fts = Ok None.
Proof. induction fts as [|ft fts IH]; [done|]. exact IH. Qed.

Lemma equality_fold row ps : forall acc, Forall (computable row) ps ->
  fold_res (equality_step row) (Some acc) (zip (map side ps) (map ty ps)) =
  Ok (if in_list "null" (key_values ps row) then None else Some (acc ++ encoded ps row)).
Proof.
  induction ps as [|p ps IH]; intros acc HF; [cbn; by rewrite app_nil_r|]. apply Forall_cons in HF as [(cell & c & Hc & Ec) HF].
  cbn [map zip zip_with fold_res key_values encoded flat_map in_list existsb equality_step]. unfold cell_at. cbn [fst snd].
  assert (Hcanon : canon row (side p) (ty p) = c) by (unfold canon; by rewrite Hc, Ec). rewrite Hcanon, Hc. cbn [mbind result_bind]. rewrite Ec. cbn [mbind result_bind].
  assert (Hs : same c "null" = bool_decide ("null" = c)) by (unfold same; apply bool_iff_eq; rewrite !bool_decide_eq_true; split; congruence).
  rewrite Hs. case_bool_decide; cbn [orb].
  - by rewrite equality_none.
  - rewrite IH by done. unfold encoded. unfold encode at 2. cbn [fst snd]. rewrite <- !app_assoc. reflexivity.
Qed.

Lemma equality_key row ps : Forall (computable row) ps -> joinEqualityKeyV2 row (map side ps) (map ty ps) = Ok (row_key ps row).
Proof. intros HF. unfold joinEqualityKeyV2. rewrite equality_fold by done. rewrite length_map. done. Qed.
End equality.

Lemma encoded_inj (f g ty : JoinPredicateV2 -> string) lrow rrow ps : (forall p, p ∈ ps -> go_string (canon lrow (f p) (ty p)) /\ go_string (canon rrow (g p) (ty p))) ->
  encoded f ty ps lrow = encoded g ty ps rrow -> forall p, p ∈ ps -> canon lrow (f p) (ty p) = canon rrow (g p) (ty p).
Proof.
  induction ps as [|q ps IH]; [by intros _ _ p ?%elem_of_nil|]. intros Hgo E. cbn [encoded flat_map] in E. unfold encode in E. cbn [fst snd] in E.
  rewrite <- !app_assoc in E. apply app_inv_head in E. destruct (Hgo q) as [H1 H2]; [by left|].
  apply be_string_inj in E as [E1 E2]; [|done|done]. intros p [->|Hp]%elem_of_cons; [done|]. apply IH; [intros x Hx; apply Hgo; by right|done|done].
Qed.

(** ** The reference: a nested loop *)
Definition sql_equal left lrow rrow p : bool :=
  match rCells lrow !! jLeftField p, rCells rrow !! jRightField p with
  | Some a, Some b => bool_decide (SQLValueEqualV2 (type_of (fieldTypeMapV2 left) (jLeftField p)) (cValue a) (cValue b) = Ok SQLTrue)
  | _, _ => false
  end.
Definition sql_match left (ps : list JoinPredicateV2) (pair : AnnotatedRowV2 V * AnnotatedRowV2 V) : bool :=
  forallb (sql_equal left pair.1 pair.2) ps.
(** The pairs of rows on which every equality is TRUE, in the order of the two inputs. *)
Definition join_pairs left right (ps : list JoinPredicateV2) : list (AnnotatedRowV2 V * AnnotatedRowV2 V) :=
  flat_map (fun lrow => map (pair lrow) (filter (fun rrow => sql_match left ps (lrow, rrow) = true) (relRows right))) (relRows left).

Lemma elem_join_pairs left right ps lrow rrow : (lrow, rrow) ∈ join_pairs left right ps <->
  lrow ∈ relRows left /\ rrow ∈ relRows right /\ sql_match left ps (lrow, rrow) = true.
Proof.
  unfold join_pairs. rewrite Witness.elem_flat_map. setoid_rewrite list_elem_of_fmap. setoid_rewrite list_elem_of_filter. naive_solver.
Qed.

Section matching.
Variables (left right : RelationV2 V) (ps : list JoinPredicateV2).
Hypotheses (Hl : valid left) (Hr : valid right) (Hps : Forall (joinable left right) ps).
Let ty := key_type left.

Lemma key_type_ok p : p ∈ ps -> CanonicalSQLTypeV2 (type_of (fieldTypeMapV2 left) (jLeftField p)) = Ok (ty p) /\
  CanonicalSQLTypeV2 (type_of (fieldTypeMapV2 right) (jRightField p)) = Ok (ty p).
Proof. intros Hp. rewrite Forall_forall in Hps. destruct (jo_type _ _ _ (Hps p Hp)) as (t & El & Er & _). unfold ty, key_type. rewrite El. done. Qed.

Lemma left_computable lrow : lrow ∈ relRows left -> Forall (computable jLeftField ty lrow) ps.
Proof.
  intros Hlr. apply Forall_forall. intros p Hp. pose proof (proj1 (Forall_forall _ _) Hps p Hp) as J.
  exact (cell_canonical left lrow _ (ty p) Hl Hlr (jo_left _ _ _ J) (proj1 (key_type_ok p Hp))).
Qed.
Lemma right_computable rrow : rrow ∈ relRows right -> Forall (computable jRightField ty rrow) ps.
Proof.
  intros Hrr. apply Forall_forall. intros p Hp. pose proof (proj1 (Forall_forall _ _) Hps p Hp) as J.
  exact (cell_canonical right rrow _ (ty p) Hr Hrr (jo_right _ _ _ J) (proj2 (key_type_ok p Hp))).
Qed.

Lemma sql_equal_iff lrow rrow p : lrow ∈ relRows left -> rrow ∈ relRows right -> p ∈ ps ->
  sql_equal left lrow rrow p = true <-> canon lrow (jLeftField p) (ty p) = canon rrow (jRightField p) (ty p) /\ canon lrow (jLeftField p) (ty p) <> "null".
Proof.
  intros Hlr Hrr Hp. pose proof (proj1 (Forall_forall _ _) (left_computable lrow Hlr) p Hp) as (a & c & Ha & Ec).
  pose proof (proj1 (Forall_forall _ _) (right_computable rrow Hrr) p Hp) as (b & e & Hb & Ee).
  unfold sql_equal, canon. rewrite Ha, Hb, Ec, Ee, bool_decide_eq_true. unfold SQLValueEqualV2. rewrite (proj1 (key_type_ok p Hp)). cbn [mbind result_bind].
  rewrite Ec, Ee. cbn [mbind result_bind]. clear. unfold same. split.
  - destruct (bool_decide (c = "null")) eqn:E1; [done|]. destruct (bool_decide (e = "null")) eqn:E2; [done|]. cbn [orb].
    apply bool_decide_eq_false in E1. destruct (bool_decide (c = e)) eqn:E3; [|done]. by apply bool_decide_eq_true in E3.
  - intros [<- Hn]. rewrite (bool_decide_eq_false_2 (c = "null")), (bool_decide_eq_true_2 (c = c)) by done. done.
Qed.

Lemma canon_go_string row x t : (exists cell c, rCells row !! x = Some cell /\ CanonicalSQLValue t (cValue cell) = Ok c) -> go_string (canon row x t).
Proof. intros (cell & c & Hc & Ec). unfold canon. rewrite Hc, Ec. by eapply canonical_go_string. Qed.

Lemma keys_meet lrow rrow : lrow ∈ relRows left -> rrow ∈ relRows right ->
  sql_match left ps (lrow, rrow) = true <-> exists k, row_key jLeftField ty ps lrow = Some k /\ row_key jRightField ty ps rrow = Some k.
Proof.
  intros Hlr Hrr. unfold sql_match. cbn [fst snd]. rewrite forallb_forall. setoid_rewrite <- list_elem_of_In.
  assert (Hall : (forall p, p ∈ ps -> sql_equal left lrow rrow p = true) <->
    forall p, p ∈ ps -> canon lrow (jLeftField p) (ty p) = canon rrow (jRightField p) (ty p) /\ canon lrow (jLeftField p) (ty p) <> "null").
  { split; intros Ha p Hp; apply (sql_equal_iff lrow rrow p Hlr Hrr Hp); by apply Ha. }
  rewrite Hall. unfold row_key.
  assert (Hnull : forall side row, in_list "null" (key_values side ty ps row) = false <-> forall p, p ∈ ps -> canon row (side p) (ty p) <> "null").
  { intros side row. rewrite in_list_false. unfold key_values. rewrite list_elem_of_fmap. split.
    - intros Hn p Hp E. apply Hn. exists p. done.
    - intros Hn (p & E & Hp). by apply (Hn p Hp). }
  split.
  - intros Ha. rewrite (proj2 (Hnull jLeftField lrow)) by (intros p Hp; by apply Ha).
    rewrite (proj2 (Hnull jRightField rrow)) by (intros p Hp; destruct (Ha p Hp) as [<- ?]; done).
    eexists. split; [done|]. do 2 f_equal. unfold encoded. clear -Ha. induction ps as [|p l IH]; [done|]. cbn [flat_map].
    rewrite IH by (intros q Hq; apply Ha; by right). f_equal. destruct (Ha p) as [<- _]; [by left|done].
  - intros (k & E1 & E2). destruct (in_list "null" (key_values jLeftField ty ps lrow)) eqn:N1; [done|].
    destruct (in_list "null" (key_values jRightField ty ps rrow)) eqn:N2; [done|]. injection E1 as <-. injection E2 as E.
    rewrite Hnull in N1. intros p Hp. split; [|by apply N1]. symmetry in E. revert p Hp. apply encoded_inj; [|done]. intros p Hp. split; apply canon_go_string.
    + exact (proj1 (Forall_forall _ _) (left_computable lrow Hlr) p Hp).
    + exact (proj1 (Forall_forall _ _) (right_computable rrow Hrr) p Hp).
Qed.

(** *** The index *)
Definition entry_of row : list (bytes * AnnotatedRowV2 V) :=
  match row_key jRightField ty ps row with Some key => [(key, row)] | None => [] end.

Lemma index_built : fold_res (index_step (map jRightField ps) (map ty ps)) [] (relRows right) = Ok (flat_map entry_of (relRows right)).
Proof.
  rewrite (fold_res_flat_map _ entry_of); [done|]. intros acc row Hrow. unfold index_step, entry_of. rewrite equality_key by (by apply right_computable).
  cbn [mbind result_bind]. destruct (row_key _ _ _ _); [done|by rewrite app_nil_r].
Qed.

Lemma index_lookup lrow key : lrow ∈ relRows left -> row_key jLeftField ty ps lrow = Some key ->
  map snd (filter (fun entry : bytes * AnnotatedRowV2 V => entry.1 = key) (flat_map entry_of (relRows right))) =
  filter (fun rrow => sql_match left ps (lrow, rrow) = true) (relRows right).
Proof.
  intros Hlr Hk. assert (Hall : forall rrow, rrow ∈ relRows right -> rrow ∈ relRows right) by done. revert Hall.
  generalize (relRows right) at 1 3 4 as rows. induction rows as [|rrow rows IH]; intros Hall; [done|]. cbn [flat_map].
  rewrite filter_app, map_app, filter_cons. rewrite IH by (intros x Hx; apply Hall; by right).
  assert (Hrr : rrow ∈ relRows right) by (apply Hall; by left). pose proof (keys_meet lrow rrow Hlr Hrr) as Hm. rewrite Hk in Hm.
  unfold entry_of. destruct (row_key jRightField ty ps rrow) as [key'|] eqn:Ek.
  - rewrite filter_cons, filter_nil. cbn [fst]. destruct (decide (key' = key)) as [->|Hne].
    + rewrite decide_True by (apply Hm; eauto). done.
    + rewrite decide_False; [done|]. intros (k & [= <-] & [= ->])%Hm. done.
  - rewrite filter_nil. rewrite decide_False; [done|]. by intros (k & _ & ?)%Hm.
Qed.

Lemma no_key lrow : lrow ∈ relRows left -> row_key jLeftField ty ps lrow = None ->
  filter (fun rrow => sql_match left ps (lrow, rrow) = true) (relRows right) = [].
Proof.
  intros Hlr Hk. assert (Hall : forall rrow, rrow ∈ relRows right -> rrow ∈ relRows right) by done. revert Hall.
  generalize (relRows right) at 1 3 as rows. induction rows as [|rrow rows IH]; intros Hall; [done|]. rewrite filter_cons, decide_False.
  - apply IH. intros x Hx. apply Hall. by right.
  - intros (k & ? & _)%keys_meet; [congruence|done|apply Hall; by left].
Qed.

(** The hash join is the nested loop. *)
Lemma join_loop keys : jkLeft keys = map jLeftField ps -> jkTypes keys = map ty ps ->
  fold_res (join_left left right ps keys (flat_map entry_of (relRows right))) [] (relRows left) =
  fold_res (fun rows pair => row ← join_pair left right ps pair.1 pair.2; Ok (rows ++ [row])) [] (join_pairs left right ps).
Proof.
  intros El Et. unfold join_pairs. rewrite fold_res_concat. apply fold_res_ext. intros rows lrow Hlr. unfold join_left. rewrite El, Et.
  rewrite equality_key by (by apply left_computable). cbn [mbind result_bind]. rewrite fold_res_map.
  destruct (row_key jLeftField ty ps lrow) as [key|] eqn:Ek.
  - rewrite <- (index_lookup lrow key Hlr Ek), fold_res_map. done.
  - by rewrite (no_key lrow Hlr Ek).
Qed.
End matching.

(** ** A larger bundle covers what a smaller one covers *)
Lemma bindings_map_snoc bundle b : bindings_map (bundle ++ [b]) = <[bSourceNamespace b := bSnapshot b]> (bindings_map bundle).
Proof. unfold bindings_map. by rewrite foldl_app. Qed.

Lemma bound_elem bundle ns s : bound bundle ns = s -> s <> "" -> Binding ns s ∈ bundle.
Proof.
  unfold bound. induction bundle as [|[ns' s'] bundle IH] using rev_ind; [by intros <-|]. rewrite bindings_map_snoc. cbn [bSourceNamespace bSnapshot].
  rewrite elem_of_app, list_elem_of_singleton. destruct (decide (ns = ns')) as [->|Hne].
  - rewrite lookup_insert_eq. cbn. intros -> _. by right.
  - rewrite lookup_insert_ne by done. intros E Hs. left. by apply IH.
Qed.

Lemma bound_of bundle ns s : NoDup (map bSourceNamespace bundle) -> Binding ns s ∈ bundle -> bound bundle ns = s.
Proof.
  unfold bound. induction bundle as [|[ns' s'] bundle IH] using rev_ind; [by intros _ ?%elem_of_nil|]. rewrite bindings_map_snoc. cbn [bSourceNamespace bSnapshot].
  rewrite map_app. intros (Hnd & Hdis & _)%NoDup_app. rewrite elem_of_app, list_elem_of_singleton. intros [Hin|[= -> ->]]; [|by rewrite lookup_insert_eq].
  rewrite lookup_insert_ne; [by apply IH|]. intros ->. apply (Hdis ns); [apply list_elem_of_fmap; by exists (Binding ns s)|by left].
Qed.

Lemma bound_mono small large ns s : NoDup (map bSourceNamespace large) -> small ⊆ large -> s <> "" -> bound small ns = s -> bound large ns = s.
Proof. intros Hnd Hsub Hs E. apply bound_of; [done|]. by apply Hsub, bound_elem. Qed.

Lemma token_given s : invalidToken s = false -> s <> "".
Proof. by intros Ht ->. Qed.

(** The snapshots a valid V2 fact names. *)
Lemma base_snapshot f : Validate f = Ok tt -> same (Kind f) FactBaseRow || same (Kind f) FactBaseCell = true -> Snapshot f <> "".
Proof.
  unfold Validate. intros Hv Hk. destruct (isVersioned f) eqn:Ev.
  2:{ exfalso. unfold isVersioned in Ev. apply orb_false_iff in Ev as [_ Ek]. unfold given in Ek. apply negb_false_iff, bool_decide_eq_true in Ek.
      by rewrite Ek in Hk. }
  unfold validateVersioned in Hv. apply fail_if_bind_ok in Hv as [_ Hv]. destruct (same (Kind f) FactBaseRow).
  - apply fail_if_bind_ok in Hv as [_ [Hv _]%fail_if_bind_ok]. rewrite !orb_false_iff in Hv. apply token_given. tauto.
  - cbn [orb] in Hk. rewrite Hk in Hv. apply fail_if_bind_ok in Hv as [_ [Hv _]%fail_if_bind_ok]. rewrite !orb_false_iff in Hv. apply token_given. tauto.
Qed.

Lemma bundle_check_snapshots bundle : forall seen b, bundle_check seen bundle = Ok tt -> b ∈ bundle -> bSnapshot b <> "".
Proof.
  induction bundle as [|x bundle IH]; intros seen b; [by intros _ ?%elem_of_nil|]. cbn [bundle_check].
  intros [Hx [_ Hrest]%fail_if_bind_ok]%fail_if_bind_ok [->|Hb]%elem_of_cons; [|by eapply IH]. apply orb_false_iff in Hx. apply token_given. tauto.
Qed.

Lemma derived_snapshots f b : Validate f = Ok tt -> same (Kind f) FactDerived = true -> b ∈ SnapshotBundle f -> bSnapshot b <> "".
Proof.
  unfold Validate. intros Hv Hk Hb. pose proof (proj1 (same_true _ _) Hk) as Ek.
  assert (Ev : isVersioned f = true) by (unfold isVersioned; rewrite Ek; apply orb_true_r). rewrite Ev in Hv.
  unfold validateVersioned in Hv. rewrite Ek in Hv. apply fail_if_bind_ok in Hv as [_ Hv]. cbn [same] in Hv.
  change (validate_derived f = Ok tt) in Hv. unfold validate_derived in Hv.
  apply fail_if_bind_ok in Hv as [_ [_ [_ Hv]%fail_if_bind_ok]%fail_if_bind_ok]. by eapply bundle_check_snapshots.
Qed.

Lemma covered_mono small large f : NoDup (map bSourceNamespace large) -> small ⊆ large -> Validate f = Ok tt ->
  factCoveredByBundleV2 f small = true -> factCoveredByBundleV2 f large = true.
Proof.
  intros Hnd Hsub Hv. unfold factCoveredByBundleV2. destruct (same (Kind f) FactBaseRow || same (Kind f) FactBaseCell) eqn:Ek.
  - rewrite !same_true. apply bound_mono; [done|done|]. by apply base_snapshot.
  - destruct (same (Kind f) FactDerived) eqn:Ed; [|done]. rewrite !forallb_forall. intros Hall b Hb. specialize (Hall b Hb).
    apply same_true in Hall. apply same_true. eapply bound_mono; [done|done| |done]. apply (derived_snapshots f); [done|done|]. by apply list_elem_of_In.
Qed.

Lemma hash_validates f h : Hash f = Ok h -> Validate f = Ok tt.
Proof. unfold Hash, CanonicalPayload. destruct (Validate f) as [[]|]; done. Qed.

Section wider.
Variables (small large : list SnapshotBinding).
Hypotheses (Hnd : NoDup (map bSourceNamespace large)) (Hsub : small ⊆ large).

Lemma dep_ok_mono d : dep_ok small d -> dep_ok large d.
Proof.
  intros [D1 D2 D3 D4 D5 D6]. split; [done|done| | |done|done].
  - intros h f Hf. destruct (D3 h f Hf) as [? ?]. split; [done|]. eapply covered_mono; [done|done| |done]. by eapply hash_validates, D1.
  - intros h it Hit. eapply covered_mono; [done|done| |by eapply D4]. destruct (D2 h it Hit) as (Hh & _). by eapply hash_validates.
Qed.

Lemma present_mono s w : dep_present small s w -> dep_present large s w.
Proof. intros (s' & w' & -> & -> & D). exists s', w'. split; [done|]. split; [done|]. by apply dep_ok_mono. Qed.

Lemma cell_ok_mono f cell : cell_ok small f cell -> cell_ok large f cell.
Proof.
  intros [C1 C2 C3 (c & C4 & C5)]. split; [done|done|by apply present_mono|]. exists c. split; [done|]. revert C5. unfold validate_release.
  destruct (cReleaseFact cell) as [fact|]; [|done]. rewrite !fail_if_bind_ok, !orb_false_iff, !negb_false_iff.
  intros ((Hok & ?) & ? & ? & ?). split; [done|]. split; [done|]. split; [|done]. eapply covered_mono; [done|done| |done]. by apply unit_ok_iff.
Qed.
End wider.

(** ** One joined row *)
Definition pair_deps lrow rrow p : list dependency := field_deps lrow [jLeftField p] ++ field_deps rrow [jRightField p].
(** What a joined row depends on: the two rows and every cell compared. *)
Definition join_deps (ps : list JoinPredicateV2) lrow rrow : list dependency :=
  row_dependency lrow :: row_dependency rrow :: flat_map (pair_deps lrow rrow) ps.

Definition join_key left right lrow rrow : string :=
  key_or_empty "join-row" (go_sort [match relationRowIdentityV2 left lrow with Ok k => k | Err _ => "" end;
                                    match relationRowIdentityV2 right rrow with Ok k => k | Err _ => "" end]).

Definition joined left right (ps : list JoinPredicateV2) lrow rrow row : Prop :=
  rKey row = join_key left right lrow rrow /\ rCells row = rCells rrow ∪ rCells lrow /\ rOrigins row = rOrigins lrow ++ rOrigins rrow /\
  exists d, rRowSupport row = Some d.1 /\ rRowWitness row = Some d.2 /\ dep_sum (join_deps ps lrow rrow) d.

Definition join_fits (ps : list JoinPredicateV2) lrow rrow : Prop := forall h, dep_total (join_deps ps lrow rrow) h <= max_uint64.

Lemma compose_key_ok domain values : invalidToken domain = false -> values <> [] ->
  Witness.ComposeCanonicalKeyV2 domain values = Ok (Sha256.hex_sum (Witness.key_material domain values)).
Proof. intros Hd Hv. unfold Witness.ComposeCanonicalKeyV2. rewrite Hd. by destruct values. Qed.

Lemma hex_token m : invalidToken (Sha256.hex_sum m) = false.
Proof.
  assert (Hv : Forall (fun c => visible c = true) (to_bytes (Sha256.hex_sum m))).
  { unfold Sha256.hex_sum, hex_encode. rewrite to_of_bytes. eapply Forall_impl; [apply hex_encode_bytes_lower|]. intros c Hc.
    unfold lower_hex, visible in *. cbv zeta in Hc. lia. }
  assert (Hne : Sha256.hex_sum m <> "").
  { intros E. apply (f_equal String.length) in E. unfold Sha256.hex_sum in E. by rewrite length_hex_encode, Sha256.length_Sum256 in E. }
  unfold invalidToken. rewrite visible_not_blank, visible_trimmed by done. by rewrite (proj2 (same_true _ _) eq_refl).
Qed.

Lemma row_identity_ok r row : exists k, relationRowIdentityV2 r row = Ok k.
Proof. eexists. unfold relationRowIdentityV2. by rewrite compose_key_ok; [|vm_compute; reflexivity|]. Qed.

Lemma join_key_ok left right lrow rrow : exists k k', relationRowIdentityV2 left lrow = Ok k /\ relationRowIdentityV2 right rrow = Ok k' /\
  joinRowKeyV2 k k' = Ok (join_key left right lrow rrow) /\ invalidToken (join_key left right lrow rrow) = false.
Proof.
  unfold join_key. destruct (row_identity_ok left lrow) as [k ->], (row_identity_ok right rrow) as [k' ->]. exists k, k'. split; [done|]. split; [done|].
  unfold joinRowKeyV2, key_or_empty.
  assert (Hne : go_sort [k; k'] <> []) by (intros E; pose proof (Permutation_length (go_sort_perm [k; k'])) as L; by rewrite E in L).
  rewrite compose_key_ok; [|vm_compute; reflexivity|done]. split; [done|]. apply hex_token.
Qed.

Lemma join_key_comm left right lrow rrow : join_key left right lrow rrow = join_key right left rrow lrow.
Proof. unfold join_key. f_equal. apply go_sort_proper. apply Permutation_swap. Qed.

Lemma join_cells_deps lrow rrow ps : forall d,
  (forall p, p ∈ ps -> is_Some (rCells lrow !! jLeftField p) /\ is_Some (rCells rrow !! jRightField p)) ->
  fold_res (join_cells lrow rrow) d ps = fold_res depend d (flat_map (pair_deps lrow rrow) ps).
Proof.
  intros d Hall. rewrite fold_res_concat. revert d. apply fold_res_ext. intros d p Hp. destruct (Hall p Hp) as [[a Ha] [b Hb]].
  unfold join_cells, pair_deps, field_deps, depend_on, cell_at. cbn [omap list_omap]. rewrite Ha, Hb. cbn [fmap option_fmap option_map app fold_res mbind result_bind].
  destruct (depend d (cell_dependency a)) as [d'|]; [|done]. cbn [mbind result_bind]. by destruct (depend d' (cell_dependency b)).
Qed.

Section pair.
Variables (left right : RelationV2 V) (ps : list JoinPredicateV2).
Hypotheses (Hl : valid left) (Hr : valid right) (Hps : Forall (joinable left right) ps).
Hypothesis Hfree : Witness.collision_free (rel_facts left ++ rel_facts right).

Lemma joined_cells lrow rrow p : lrow ∈ relRows left -> rrow ∈ relRows right -> p ∈ ps ->
  is_Some (rCells lrow !! jLeftField p) /\ is_Some (rCells rrow !! jRightField p).
Proof.
  intros Hlr Hrr Hp. pose proof (proj1 (Forall_forall _ _) Hps p Hp) as J.
  assert (Hcell : forall r row x, valid r -> row ∈ relRows r -> x ∈ map fID (relFields r) -> is_Some (rCells row !! x)).
  { intros r row x Hv Hrow (f & -> & Hf)%list_elem_of_fmap. pose proof (proj1 (Forall_forall _ _) (v_rows _ Hv) row Hrow) as R.
    destruct (rok_cells _ _ _ R f Hf) as (cell & -> & _). by eexists. }
  split; [exact (Hcell left lrow _ Hl Hlr (jo_left _ _ _ J))|exact (Hcell right rrow _ Hr Hrr (jo_right _ _ _ J))].
Qed.

Lemma join_deps_ok bundle lrow rrow : lrow ∈ relRows left -> rrow ∈ relRows right -> NoDup (map bSourceNamespace bundle) ->
  relSnapshotBundle left ⊆ bundle -> relSnapshotBundle right ⊆ bundle ->
  Forall (dep_ok bundle) (join_deps ps lrow rrow) /\ flat_map dep_facts (join_deps ps lrow rrow) ⊆ rel_facts left ++ rel_facts right.
Proof.
  intros Hlr Hrr Hnd Bl Br.
  assert (Hone : forall r row fs, valid r -> row ∈ relRows r -> relSnapshotBundle r ⊆ bundle -> forall d, d ∈ row_dependency row :: field_deps row fs ->
    dep_ok bundle d /\ dep_facts d ⊆ rel_facts r).
  { intros r row fs Hv Hrow Hb d Hd. destruct (row_deps_ok r fs row Hv Hrow) as [Hok Hsub]. rewrite Forall_forall in Hok. split.
    - by eapply dep_ok_mono, Hok.
    - etrans; [|by apply row_in_rel]. etrans; [|exact Hsub]. intros x Hx. apply Witness.elem_flat_map. eauto. }
  assert (Hall : forall d, d ∈ join_deps ps lrow rrow -> dep_ok bundle d /\ dep_facts d ⊆ rel_facts left ++ rel_facts right).
  { intros d Hd. unfold join_deps in Hd. rewrite !elem_of_cons in Hd.
    assert (Hcase : (exists fs, d ∈ row_dependency lrow :: field_deps lrow fs) \/ (exists fs, d ∈ row_dependency rrow :: field_deps rrow fs)).
    { destruct Hd as [->|[->|(p & _ & [Hd|Hd]%elem_of_app)%Witness.elem_flat_map]].
      - left. exists []. by left.
      - right. exists []. by left.
      - left. eexists. right. exact Hd.
      - right. eexists. right. exact Hd. }
    destruct Hcase as [(fs & Hd')|(fs & Hd')].
    - destruct (Hone left lrow fs Hl Hlr Bl d Hd') as [? Hs]. split; [done|]. intros x Hx. apply elem_of_app. left. by apply Hs.
    - destruct (Hone right rrow fs Hr Hrr Br d Hd') as [? Hs]. split; [done|]. intros x Hx. apply elem_of_app. right. by apply Hs. }
  split.
  - apply Forall_forall. intros d Hd. by apply Hall.
  - intros x (d & Hd & Hx)%Witness.elem_flat_map. by apply (Hall d Hd).
Qed.

Lemma sum_reorder ws os e : ws ≡ₚ os -> Witness.sum_of ws e -> Witness.sum_of os e.
Proof.
  intros P (He & M & F). split; [done|]. split; [intros h; by rewrite M, (Witness.total_perm ws os h P)|].
  intros h it Hit. destruct (F h it Hit) as (w & i & Hin & ?). exists w, i. split; [by rewrite <- P|done].
Qed.

Lemma join_pair_ok lrow rrow : lrow ∈ relRows left -> rrow ∈ relRows right ->
  (forall row, join_pair left right ps lrow rrow = Ok row -> joined left right ps lrow rrow row) /\
  (join_fits ps lrow rrow -> exists row, join_pair left right ps lrow rrow = Ok row).
Proof.
  intros Hlr Hrr.
  destruct (join_key_ok left right lrow rrow) as (k & k' & Ek & Ek' & Ekey & _).
  set (ds := flat_map (pair_deps lrow rrow) ps). set (ld := row_dependency lrow). set (rd := row_dependency rrow).
  assert (Hwf : Forall dep_wf (ld :: rd :: ds)).
  { destruct (row_deps_ok left [] lrow Hl Hlr) as [Hokl _], (row_deps_ok right [] rrow Hr Hrr) as [Hokr _].
    apply Forall_cons in Hokl as [Hokl _], Hokr as [Hokr _]. constructor; [by eapply dep_ok_wf|]. constructor; [by eapply dep_ok_wf|].
    apply Forall_forall. intros d (p & Hp & [Hd|Hd]%elem_of_app)%Witness.elem_flat_map.
    - destruct (row_deps_ok left [jLeftField p] lrow Hl Hlr) as [Hok _]. rewrite Forall_forall in Hok. eapply dep_ok_wf, Hok. by right.
    - destruct (row_deps_ok right [jRightField p] rrow Hr Hrr) as [Hok _]. rewrite Forall_forall in Hok. eapply dep_ok_wf, Hok. by right. }
  assert (C : Witness.collision_free (flat_map dep_facts (ld :: rd :: ds))).
  { eapply Witness.collision_free_sub; [|exact Hfree]. intros x (d & Hd & Hx)%Witness.elem_flat_map. rewrite !elem_of_cons in Hd.
    destruct Hd as [->|[->|(p & Hp & [Hd|Hd]%elem_of_app)%Witness.elem_flat_map]]; apply elem_of_app.
    - left. apply (row_in_rel left lrow Hlr), elem_of_app. by left.
    - right. apply (row_in_rel right rrow Hrr), elem_of_app. by left.
    - left. apply (row_in_rel left lrow Hlr), (row_deps_ok left [jLeftField p] lrow Hl Hlr), Witness.elem_flat_map. exists d. split; [by right|done].
    - right. apply (row_in_rel right rrow Hrr), (row_deps_ok right [jRightField p] rrow Hr Hrr), Witness.elem_flat_map. exists d. split; [by right|done]. }
  pose proof Hwf as Hwf'. apply Forall_cons in Hwf' as [[Hls Hlw] Hwf']. apply Forall_cons in Hwf' as [[Hrs Hrw] Hds].
  assert (Hsub : forall ws, ws ⊆ flat_map dep_facts (ld :: rd :: ds) -> Witness.collision_free ws) by (intros; by eapply Witness.collision_free_sub).
  cbn [flat_map] in Hsub. unfold dep_facts at 1 2 in Hsub.
  assert (Hmerge : exists s, FactSet.MergeChecked ld.1 rd.1 = Ok s /\ Witness.union_of [ld.1; rd.1] s).
  { destruct (merge_support [ld.1] ld.1 rd.1) as (s & Es & Us); [apply Witness.union_of_one|by intros x ->%list_elem_of_singleton|done| |by eauto].
    apply Hsub. cbn [app flat_map]. rewrite app_nil_r. intros x. rewrite !elem_of_app. tauto. }
  destruct Hmerge as (s & Es & Us).
  assert (Hsw : FactSet.wf s) by (eapply Witness.union_of_wf; [|exact Us]; intros x [->| ->%list_elem_of_singleton]%elem_of_cons; done).
  destruct (depend_all ds (s, ld.2)) as [D1 D2].
  { constructor; [done|]. exact Hds. }
  { apply Hsub. cbn [flat_map]. unfold dep_facts at 1. cbn [fst snd]. intros x. rewrite !elem_of_app, FactSet.elem_range.
    intros [[(h & Hx)|Hx]|Hx]; [|tauto|tauto]. apply Us in Hx as (y & [->| ->%list_elem_of_singleton]%elem_of_cons & Hx).
    - left. left. apply FactSet.elem_range. eauto.
    - right. left. left. apply FactSet.elem_range. eauto. }
  assert (Hcells : fold_res (join_cells lrow rrow) (s, ld.2) ps = fold_res depend (s, ld.2) ds).
  { apply join_cells_deps. intros p Hp. by apply joined_cells. }
  assert (Hsum : forall d1 w, dep_sum ((s, ld.2) :: ds) d1 -> Witness.sum_of [d1.2; rd.2] w -> dep_sum (ld :: rd :: ds) (d1.1, w)).
  { intros d1 w [U1 S1] S2. split; cbn [map fst snd].
    - exact (Witness.union_of_trans [ld.1; rd.1] s (map fst ds) d1.1 Us U1).
    - eapply sum_reorder; [|exact (Witness.sum_of_trans _ d1.2 [rd.2] w S1 S2)]. cbn [map fst snd app]. constructor. by rewrite Permutation_app_comm. }
  assert (C2 : forall d1, dep_sum ((s, ld.2) :: ds) d1 -> Witness.wit_ok d1.2 /\ Witness.collision_free (Witness.wfacts d1.2 ++ Witness.wfacts rd.2)).
  { intros d1 S1. split; [by apply S1|]. apply Hsub. intros x [Hx|Hx]%elem_of_app; [|rewrite !elem_of_app; tauto].
    assert (Hx' : x ∈ dep_facts d1) by (apply elem_of_app; by right). apply (dep_sum_facts _ _ S1) in Hx'. cbn [flat_map] in Hx'. unfold dep_facts at 1 in Hx'.
    cbn [fst snd] in Hx'. rewrite !elem_of_app, FactSet.elem_range in Hx'. rewrite !elem_of_app.
    destruct Hx' as [[(h & Hy)|Hy]|Hy]; [|tauto|tauto]. apply Us in Hy as (y & [->| ->%list_elem_of_singleton]%elem_of_cons & Hy).
    - left. left. apply FactSet.elem_range. eauto.
    - right. left. left. apply FactSet.elem_range. eauto. }
  unfold join_pair. rewrite Ek. cbn [mbind result_bind]. rewrite Ek'. cbn [mbind result_bind]. rewrite Ekey. cbn [mbind result_bind].
  change (Witness.Clone (rRowSupport lrow)) with ld.1. change (Witness.Clone (rRowSupport rrow)) with rd.1.
  change (Witness.Clone (rRowWitness lrow)) with ld.2. change (Witness.Clone (rRowWitness rrow)) with rd.2.
  rewrite Es. cbn [mbind result_bind]. rewrite Hcells.
  pose proof (proj1 (Forall_forall _ _) (v_rows _ Hl) lrow Hlr) as Rl. pose proof (proj1 (Forall_forall _ _) (v_rows _ Hr) rrow Hrr) as Rr.
  rewrite (clone_cells_id _ _ lrow (v_ids _ Hl) Rl), (clone_cells_id _ _ rrow (v_ids _ Hr) Rr). split.
  - intros row ([s1 w1] & E1 & (w & Ew & <-%Ok_inj)%bind_ok)%bind_ok. apply D1 in E1. destruct (C2 _ E1) as [Hw1 Cw]. cbn [fst snd] in *.
    apply Witness.Merge_sum in Ew as [_ Sw]; [|done..]. split; [done|]. split; [done|]. split; [done|]. exists (s1, w). split; [done|]. split; [done|].
    exact (Hsum (s1, w1) w E1 Sw).
  - intros Hfit. assert (Htot : forall h, dep_total (ld :: rd :: ds) h = dep_total ((s, ld.2) :: ds) h + Witness.mult rd.2 h).
    { intros h. unfold dep_total. cbn [map Witness.total foldr snd]. lia. }
    destruct D2 as [[s1 w1] E1].
    { intros h. specialize (Hfit h). unfold join_deps in Hfit. fold ds ld rd in Hfit. rewrite Htot in Hfit. pose proof (proj1 (Witness.mult_nonneg rd.2 h Hrw)) as Hpos. revert Hpos Hfit. unfold dependency.
      generalize (Witness.mult rd.2 h) (dep_total ((s, ld.2) :: ds) h). intros. lia. }
    rewrite E1. cbn [mbind result_bind]. apply D1 in E1. destruct (C2 _ E1) as [Hw1 Cw]. cbn [fst snd] in *.
    assert (F : Witness.fits w1 rd.2).
    { intros h. specialize (Hfit h). unfold join_deps in Hfit. fold ds ld rd in Hfit. rewrite Htot in Hfit. destruct E1 as [_ (_ & M & _)].
      cbn [snd] in M. rewrite M. exact Hfit. }
    assert (Hag : Witness.witness_agree w1 rd.2).
    { intros h a b Ha Hb. rewrite (Cw (Witness.iFact a) (Witness.iFact b) h); [done|..|by apply (Hw1 h a)|by apply (Hrw h b)];
        apply elem_of_app; [left|right]; apply Witness.elem_wfacts; eauto. }
    rewrite (proj2 (Witness.Merge_ok w1 rd.2 _ Hw1 Hrw) (conj Hag (conj F eq_refl))). cbn [mbind result_bind]. by eexists.
Qed.
End pair.

(** ** The schema of a join *)
Lemma field_map_ok fs : forall m m', fold_res field_map_step m fs = Ok m' <->
  NoDup (map fID fs) /\ (forall f, f ∈ fs -> m !! fID f = None) /\ m' = foldl (fun m f => <[fID f := f]> m) m fs.
Proof.
  induction fs as [|f fs IH]; intros m m'; cbn [fold_res map foldl].
  - split; [intros <-%Ok_inj; split; [constructor|]; split; [by intros f ?%elem_of_nil|done]|by intros (_ & _ & ->)].
  - rewrite bind_ok, NoDup_cons. unfold field_map_step at 1. setoid_rewrite fail_if_bind_ok. setoid_rewrite negb_false_iff. setoid_rewrite bool_decide_eq_true. split.
    + intros (t & (Hn & <-%Ok_inj) & (Hnd & Hs & ->)%IH). split; [|split; [|done]].
      * split; [|done]. intros (g & Eg & Hg)%list_elem_of_fmap. specialize (Hs g Hg). by rewrite <- Eg, lookup_insert_eq in Hs.
      * intros g [->|Hg]%elem_of_cons; [done|]. specialize (Hs g Hg). by apply lookup_insert_None in Hs as [? _].
    + intros ((Hnot & Hnd) & Hs & ->). eexists. split; [split; [apply Hs; by left|done]|]. apply IH.
      split; [done|]. split; [|done]. intros g Hg. rewrite lookup_insert_ne; [apply Hs; by right|].
      intros E. apply Hnot. apply list_elem_of_fmap. eauto.
Qed.

Lemma field_map_lookup fs x f : NoDup (map fID fs) ->
  foldl (fun (m : gmap string FieldV2) f => <[fID f := f]> m) ∅ fs !! x = Some f <-> f ∈ fs /\ fID f = x.
Proof.
  induction fs as [|g fs IH] using rev_ind; [intros _; cbn; rewrite lookup_empty; split; [done|by intros [?%elem_of_nil _]]|].
  rewrite map_app, foldl_app. intros (Hnd & Hdis & _)%NoDup_app. cbn [foldl]. rewrite elem_of_app, list_elem_of_singleton.
  destruct (decide (x = fID g)) as [->|Hne].
  - rewrite lookup_insert_eq. split; [intros [= <-]; auto|]. intros [[Hf| ->] E]; [|done]. destruct (Hdis (fID g)); [|by left].
    rewrite <- E. apply list_elem_of_fmap. eauto.
  - rewrite lookup_insert_ne, IH by done. split; [intros [? ?]; auto|]. intros [[Hf| ->] E]; [done|]. by destruct Hne.
Qed.

Definition join_schema left right : list FieldV2 :=
  sorted_values (foldl (fun m f => <[fID f := f]> m) ∅ (relFields left ++ relFields right)).

Lemma elem_sorted_values {A} (m : gmap string A) (y : A) : y ∈ sorted_values m <-> exists x, m !! x = Some y.
Proof.
  unfold sorted_values. rewrite list_elem_of_omap. split; [intros (x & _ & ?); eauto|]. intros (x & Hx). exists x. split; [|done].
  apply elem_go_sort, FactSet.elem_keys. by eexists.
Qed.

Lemma join_schema_ids left right : NoDup (map fID (relFields left ++ relFields right)) ->
  StronglySorted clt (map fID (join_schema left right)) /\ forall f, f ∈ join_schema left right <-> f ∈ relFields left ++ relFields right.
Proof.
  intros Hnd. unfold join_schema. set (m := foldl _ _ _). assert (Hm : forall x f, m !! x = Some f <-> f ∈ relFields left ++ relFields right /\ fID f = x)
    by (intros; by apply field_map_lookup). clearbody m. split.
  - assert (E : map fID (sorted_values m) = go_sort (map_to_list m).*1); [|rewrite E; apply go_sort_strict, NoDup_fst_map_to_list].
    unfold sorted_values. assert (Hin : forall x, x ∈ go_sort (map_to_list m).*1 -> is_Some (m !! x)) by (intros x; rewrite elem_go_sort; apply FactSet.elem_keys).
    induction (go_sort _) as [|x l IH]; [done|]. cbn [omap list_omap]. destruct (Hin x) as [f Hf]; [by left|]. rewrite Hf. cbn [map].
    rewrite IH by (intros; apply Hin; by right). f_equal. by apply Hm in Hf as [_ ?].
  - intros f. rewrite elem_sorted_values. setoid_rewrite Hm. naive_solver.
Qed.

Lemma join_schema_perm left right : NoDup (map fID (relFields left ++ relFields right)) -> join_schema left right ≡ₚ relFields left ++ relFields right.
Proof.
  intros Hnd. destruct (join_schema_ids left right Hnd) as [Hs Hin]. apply NoDup_Permutation; [| |done].
  - apply (NoDup_fmap_1 fID). by apply nodup_of_strict.
  - by apply (NoDup_fmap_1 fID).
Qed.

(** ** The joined relation is well formed *)
Section result.
Variables (left right : RelationV2 V) (ps : list JoinPredicateV2) (bundle : list SnapshotBinding).
Hypotheses (Hl : valid left) (Hr : valid right) (Hps : Forall (joinable left right) ps).
Hypothesis Hfree : Witness.collision_free (rel_facts left ++ rel_facts right).
Hypothesis Hids : NoDup (map fID (relFields left ++ relFields right)).
Hypothesis Hbundle : mergeSnapshotBundles (relSnapshotBundle left) (relSnapshotBundle right) = Ok bundle.

Lemma merged_names : NoDup (map bSourceNamespace bundle) /\ relSnapshotBundle left ⊆ bundle /\ relSnapshotBundle right ⊆ bundle.
Proof.
  apply merge_bundles_ok in Hbundle as (_ & Hs & Hin). split; [by apply nodup_of_strict|].
  split; intros b Hb; apply Hin, elem_of_app; auto.
Qed.

Lemma merged_bundle_ok : validate_bundle bundle = Ok tt /\ bundle <> [].
Proof.
  pose proof (proj1 (merge_bundles_ok _ _ _) Hbundle) as (Hc & Hs & Hin). destruct merged_names as (Hnd & Bl & _). split.
  - unfold validate_bundle. rewrite (proj2 (merge_bundles_ok bundle [] bundle)).
    + cbn [mbind result_bind]. rewrite Nat.eqb_refl. cbn [negb fail_if mbind result_bind]. apply check_all_ok, Forall_forall.
      intros [a b] Hab. assert (Heq : a = b /\ a ∈ bundle).
      { clear -Hab. induction bundle as [|x l IH]; [by apply elem_of_nil in Hab|]. cbn [zip zip_with] in Hab.
        apply elem_of_cons in Hab as [[= -> ->]|Hab]; [split; [done|by left]|]. destruct (IH Hab). split; [done|by right]. }
      destruct Heq as [-> Ha]. cbn [fst snd]. rewrite bool_decide_eq_true_2 by done. cbn [negb orb]. apply Hin, elem_of_app in Ha.
      assert (Hok : invalidToken (bSourceNamespace b) = false /\ invalidToken (bSnapshot b) = false).
      { destruct Ha as [Ha|Ha].
        - destruct (validate_bundle_inv _ (v_bundle_ok _ Hl)) as (_ & HF & _). by rewrite Forall_forall in HF; apply HF.
        - destruct (validate_bundle_inv _ (v_bundle_ok _ Hr)) as (_ & HF & _). by rewrite Forall_forall in HF; apply HF. }
      destruct Hok as [-> ->]. done.
    + rewrite app_nil_r. split; [|split; [done|done]]. intros ns s s' Ha Hb. by eapply Hc; apply Hin.
  - intros E. pose proof (v_bundle _ Hl) as Hne. destruct (relSnapshotBundle left) as [|b l]; [done|]. apply (elem_of_nil b). rewrite <- E. apply Bl. by left.
Qed.

Lemma cells_disjoint lrow rrow : lrow ∈ relRows left -> rrow ∈ relRows right -> rCells rrow ##ₘ rCells lrow.
Proof.
  intros Hlr Hrr. apply map_disjoint_spec. intros x a b Ha Hb. rewrite map_app in Hids. apply NoDup_app in Hids as (_ & Hdis & _).
  destruct (row_cell _ _ _ _ _ (v_ids _ Hr) (proj1 (Forall_forall _ _) (v_rows _ Hr) rrow Hrr) Ha) as (f & Hf & Ef & _).
  destruct (row_cell _ _ _ _ _ (v_ids _ Hl) (proj1 (Forall_forall _ _) (v_rows _ Hl) lrow Hlr) Hb) as (g & Hg & Eg & _).
  apply (Hdis x); apply list_elem_of_fmap; [by exists g|by exists f].
Qed.

Lemma joined_row_ok lrow rrow row : lrow ∈ relRows left -> rrow ∈ relRows right -> joined left right ps lrow rrow row ->
  row_ok (join_schema left right) bundle row.
Proof.
  intros Hlr Hrr (Ek & Ec & Eo & d & Es & Ew & S). destruct merged_names as (Hnd & Bl & Br).
  pose proof (proj1 (Forall_forall _ _) (v_rows _ Hl) lrow Hlr) as Rl. pose proof (proj1 (Forall_forall _ _) (v_rows _ Hr) rrow Hrr) as Rr.
  destruct (join_deps_ok left right ps Hl Hr bundle lrow rrow Hlr Hrr Hnd Bl Br) as [Hok Hsub]. split.
  - rewrite Ek. by destruct (join_key_ok left right lrow rrow) as (? & ? & _ & _ & _ & ?).
  - rewrite Ec, map_size_disj_union by (by apply cells_disjoint). rewrite (rok_size _ _ _ Rl), (rok_size _ _ _ Rr), join_schema_perm, length_app by done. lia.
  - exists d.1, d.2. split; [done|]. split; [done|]. destruct d. eapply dep_sum_ok; [exact Hok| |exact S]. by eapply Witness.collision_free_sub.
  - rewrite Eo. apply Forall_app. split; [apply Rl|apply Rr].
  - intros f Hf. rewrite Ec. rewrite join_schema_perm in Hf by done. apply elem_of_app in Hf as [Hf|Hf].
    + destruct (rok_cells _ _ _ Rl f Hf) as (cell & Hc & Hcell). exists cell. split; [|exact (cell_ok_mono _ bundle Hnd Bl f cell Hcell)].
      apply lookup_union_Some; [by apply cells_disjoint|by right].
    + destruct (rok_cells _ _ _ Rr f Hf) as (cell & Hc & Hcell). exists cell. split; [|exact (cell_ok_mono _ bundle Hnd Br f cell Hcell)].
      apply lookup_union_Some; [by apply cells_disjoint|by left].
Qed.

(** The rows joined from the pairs. *)
Definition joined_rows (pairs : list (AnnotatedRowV2 V * AnnotatedRowV2 V)) (rows : list (AnnotatedRowV2 V)) : Prop :=
  Forall2 (fun pair row => joined left right ps pair.1 pair.2 row) pairs rows.

Lemma joined_rows_ok rows : joined_rows (join_pairs left right ps) rows -> Forall (row_ok (join_schema left right) bundle) rows.
Proof.
  intros F. apply Forall_forall. intros row Hrow. apply list_elem_of_lookup in Hrow as [i Hi].
  destruct (Forall2_lookup_r _ _ _ _ _ F Hi) as ([lrow rrow] & Hp & Hj). apply list_elem_of_lookup_2, elem_join_pairs in Hp as (Hlr & Hrr & _).
  by apply (joined_row_ok lrow rrow).
Qed.

Lemma joined_rows_keys pairs rows : joined_rows pairs rows -> map rKey rows = map (fun pair => join_key left right pair.1 pair.2) pairs.
Proof. induction 1 as [|pair row pairs rows (Hk & _) F IH]; [done|]. cbn [map]. by rewrite IH, Hk. Qed.

Lemma joined_valid rows : joined_rows (join_pairs left right ps) rows -> NoDup (map rKey rows) ->
  valid (MkRelation (join_schema left right) rows bundle false).
Proof.
  intros F Hnd. destruct merged_bundle_ok as [Hb Hne]. destruct (join_schema_ids left right Hids) as [Hsort Hin].
  split; cbn [relFields relRows relSnapshotBundle]; [|done|done| |by apply nodup_of_strict|done|by apply joined_rows_ok].
  - intros E. pose proof (v_fields _ Hl) as Hf. destruct (relFields left) as [|f l] eqn:Ef; [done|]. apply (elem_of_nil f). rewrite <- E.
    apply Hin, elem_of_app. left. by left.
  - apply Forall_forall. intros f [Hf|Hf]%Hin%elem_of_app; [pose proof (v_field_ok _ Hl) as HF|pose proof (v_field_ok _ Hr) as HF]; rewrite Forall_forall in HF; by apply HF.
Qed.
End result.

(** ** The whole join *)
(** What [JoinOnV2] requires of its predicates and of the two schemas. *)
Record join_allowed left right (ps : list JoinPredicateV2) (bundle : list SnapshotBinding) : Prop := {
  ja_some : ps <> [];
  ja_joinable : Forall (joinable left right) ps;
  ja_keys : NoDup (map predicate_key ps);
  ja_left : NoDup (map jLeftField ps);
  ja_right : NoDup (map jRightField ps);
  ja_bundle : mergeSnapshotBundles (relSnapshotBundle left) (relSnapshotBundle right) = Ok bundle;
  ja_ids : NoDup (map fID (relFields left ++ relFields right)) }.

Definition join_body left right (ps : list JoinPredicateV2) (bundle : list SnapshotBinding) : result (RelationV2 V) :=
  rows ← fold_res (fun rows pair => row ← join_pair left right ps pair.1 pair.2; Ok (rows ++ [row])) [] (join_pairs left right ps);
  validated (MkRelation (join_schema left right) rows bundle false).

Lemma join_unfold left right ps out : valid left -> valid right ->
  JoinOnV2 left right ps = Ok out <-> exists bundle, join_allowed left right ps bundle /\ join_body left right ps bundle = Ok out.
Proof.
  intros Hl Hr. unfold JoinOnV2. rewrite (proj2 (validate_iff left (valid_machine _ Hl)) Hl), (proj2 (validate_iff right (valid_machine _ Hr)) Hr).
  cbn [mbind result_bind]. rewrite fail_if_bind_ok, Nat.eqb_neq, bind_ok.
  assert (Hbody : forall keys bundle, Forall (joinable left right) ps -> jkLeft keys = map jLeftField ps -> jkRight keys = map jRightField ps ->
    jkTypes keys = map (key_type left) ps -> NoDup (map fID (relFields left ++ relFields right)) ->
    (fieldMap ← fold_res field_map_step ∅ (relFields left ++ relFields right);
     index ← fold_res (index_step (jkRight keys) (jkTypes keys)) [] (relRows right);
     rows ← fold_res (join_left left right ps keys index) [] (relRows left);
     validated (MkRelation (sorted_values fieldMap) rows bundle false)) = join_body left right ps bundle).
  { intros keys bundle HF E1 E2 E3 Hnd.
    rewrite (proj2 (field_map_ok (relFields left ++ relFields right) ∅ _)) by (split; [done|]; split; [intros; apply lookup_empty|reflexivity]).
    cbn [mbind result_bind]. rewrite E2, E3, (index_built left right ps Hr HF). cbn [mbind result_bind].
    by rewrite (join_loop left right ps Hl Hr HF keys E1 E3). }
  assert (Hreq : forall r fs, (forall f, f ∈ fs -> f ∈ map fID (relFields r)) -> NoDup fs -> requireFieldsV2 r fs = Ok tt) by (intros; by apply require_ok).
  split.
  - intros (Hne & keys & (HF & Hk & _ & ->)%join_predicates_ok & E). apply seq_ok in E as [[Hn1 _]%require_ok E]. apply seq_ok in E as [[Hn2 _]%require_ok E].
    apply bind_ok in E as (bundle & Hb & E). assert (Hids : NoDup (map fID (relFields left ++ relFields right))).
    { apply bind_ok in E as (m & (Hnd & _)%field_map_ok & _). exact Hnd. }
    exists bundle. split; [split; [by intros ->|done..]|]. revert E. rewrite Hbody by done. done.
  - intros (bundle & [Hne HF Hk Hn1 Hn2 Hb Hids] & E). split; [by destruct ps|]. exists (keys_of left ps). split.
    { apply join_predicates_ok. split; [done|]. split; [done|]. split; [by intros p _ ?%elem_of_nil|]. by rewrite app_nil_r. }
    cbn [keys_of jkLeft jkRight]. rewrite Forall_forall in HF.
    rewrite (Hreq left) by (done || intros f (p & -> & Hp)%list_elem_of_fmap; apply (HF p Hp)). cbn [mbind result_bind].
    rewrite (Hreq right) by (done || intros f (p & -> & Hp)%list_elem_of_fmap; apply (HF p Hp)). cbn [mbind result_bind].
    rewrite Hb. cbn [mbind result_bind]. rewrite <- E. apply (Hbody (keys_of left ps)); [by apply Forall_forall|done..].
Qed.

Lemma join_result left right ps bundle : valid left -> valid right -> Witness.collision_free (rel_facts left ++ rel_facts right) ->
  join_allowed left right ps bundle ->
  (forall out, join_body left right ps bundle = Ok out -> exists rows, out = MkRelation (join_schema left right) rows bundle false /\
     joined_rows left right ps (join_pairs left right ps) rows /\
     NoDup (map (fun pair => join_key left right pair.1 pair.2) (join_pairs left right ps))) /\
  (is_ok (join_body left right ps bundle) = true <->
     (forall pair, pair ∈ join_pairs left right ps -> join_fits ps pair.1 pair.2) /\
     NoDup (map (fun pair => join_key left right pair.1 pair.2) (join_pairs left right ps))).
Proof.
  intros Hl Hr C [Hne HF Hk Hn1 Hn2 Hb Hids].
  assert (Hpair : forall pair, pair ∈ join_pairs left right ps ->
    (forall row, join_pair left right ps pair.1 pair.2 = Ok row -> joined left right ps pair.1 pair.2 row) /\
    (join_fits ps pair.1 pair.2 -> exists row, join_pair left right ps pair.1 pair.2 = Ok row)).
  { intros [lrow rrow] (Hlr & Hrr & _)%elem_join_pairs. by apply join_pair_ok. }
  assert (Hrows : forall rows, Forall2 (fun pair row => join_pair left right ps pair.1 pair.2 = Ok row) (join_pairs left right ps) rows ->
    joined_rows left right ps (join_pairs left right ps) rows).
  { intros rows F. eapply Forall2_impl_in; [exact F|]. intros pair row Hp. by apply Hpair. }
  assert (Hdone : forall out, join_body left right ps bundle = Ok out -> exists rows, out = MkRelation (join_schema left right) rows bundle false /\
    joined_rows left right ps (join_pairs left right ps) rows /\ NoDup (map (fun pair => join_key left right pair.1 pair.2) (join_pairs left right ps))).
  { intros out (rows & (rows' & F & ->)%fold_collect_map & E)%bind_ok. cbn [app] in E. exists rows'. pose proof (validated_inv _ _ E) as ->.
    pose proof (Hrows _ F) as J. split; [done|]. split; [done|]. rewrite <- (joined_rows_keys _ _ _ _ _ J).
    apply seq_ok in E as [E _]. apply validate_iff in E as [_ _ _ _ _ Hkeys _]; [exact Hkeys|].
    pose proof (joined_rows_ok left right ps bundle Hl Hr C Hids Hb rows' J) as Hok.
    destruct (join_schema_ids left right Hids) as [Hs _].
    eapply Forall_impl; [exact Hok|]. intros row. apply row_ok_machine. by apply nodup_of_strict. }
  split; [exact Hdone|]. split.
  - intros Hok. destruct (join_body left right ps bundle) as [out|] eqn:E; [|done]. destruct (Hdone out eq_refl) as (rows & _ & J & Hnd). split; [|done].
    intros pair Hp. apply list_elem_of_lookup in Hp as [i Hi]. destruct (Forall2_lookup_l _ _ _ _ _ J Hi) as (row & _ & (_ & _ & _ & d & _ & _ & S)).
    intros h. by eapply dep_total_fits.
  - intros [Hfit Hnd]. destruct (collect_total (fun pair => join_pair left right ps pair.1 pair.2) (join_pairs left right ps)) as [rows F].
    { intros pair Hp. apply (Hpair pair Hp). by apply Hfit. }
    unfold join_body. rewrite (proj2 (fold_collect_map (fun pair => join_pair left right ps pair.1 pair.2) (join_pairs left right ps) [] ([] ++ rows)))
      by (exists rows; done). cbn [mbind result_bind app]. rewrite validated_ok; [done|].
    pose proof (Hrows _ F) as J. apply (joined_valid left right ps bundle); [done..|]. by rewrite (joined_rows_keys _ _ _ _ _ J).
Qed.

(** ** Joining in the other order *)
(** Rows that differ only in the order of their origins. *)
Definition same_row row row' : Prop :=
  rKey row = rKey row' /\ rCells row = rCells row' /\ rRowSupport row = rRowSupport row' /\ rRowWitness row = rRowWitness row' /\
  rOrigins row ≡ₚ rOrigins row'.
(** Relations that differ only in the order of their rows and of the origins of each. *)
Definition same_relation l r : Prop :=
  relFields l = relFields r /\ relSnapshotBundle l = relSnapshotBundle r /\ exists rows, relRows r ≡ₚ rows /\ Forall2 same_row (relRows l) rows.

Lemma same_row_deps row row' fs : same_row row row' -> row_dependency row = row_dependency row' /\ field_deps row fs = field_deps row' fs.
Proof. intros (_ & Ec & Es & Ew & _). unfold row_dependency, field_deps. by rewrite Es, Ew, Ec. Qed.

Lemma same_row_sym row row' : same_row row row' -> same_row row' row.
Proof. intros (? & ? & ? & ? & ?). by split. Qed.
Lemma same_relation_sym l r : same_relation l r -> same_relation r l.
Proof.
  intros (Ef & Eb & rows & P & F). split; [done|]. split; [done|]. symmetry in P.
  apply Forall2_flip in F. destruct (Permutation_Forall2 P F) as (rows' & P' & F').
  exists rows'. split; [done|]. eapply Forall2_impl_in; [exact F'|]. intros x y _. apply same_row_sym.
Qed.

(** A function of the rows that only sees what is the same has the same values on both sides. *)
Lemma same_relation_elem {B} (g h : AnnotatedRowV2 V -> list B) l r y : same_relation l r -> (forall row row', same_row row row' -> g row = h row') ->
  y ∈ flat_map g (relRows l) <-> y ∈ flat_map h (relRows r).
Proof.
  intros (_ & _ & rows & P & F) Hg. rewrite P.
  assert (E : flat_map g (relRows l) = flat_map h rows); [|by rewrite E].
  clear P. induction F as [|row row' l1 l2 Hrow F IH]; [done|]. cbn [flat_map]. by rewrite IH, (Hg row row').
Qed.

Lemma same_released l r fs row row' : same_relation l r -> same_row row row' -> row_released l fs row = row_released r fs row'.
Proof.
  intros (_ & Eb & _) (Ek & Ec & _). unfold row_released.
  assert (Hf : forall f, cell_release l row f = cell_release r row' f).
  { intros f. unfold cell_release. rewrite Ec. destruct (rCells row' !! f) as [cell|]; [|done]. cbn [mbind option_bind].
    unfold materializeCellReleaseV2. by rewrite Eb, Ek. }
  induction fs as [|f fs IH]; [done|]. cbn [omap list_omap]. by rewrite Hf, IH.
Qed.

Lemma observe_same l r fs : valid l -> valid r -> same_relation l r -> distinct_hashes l (shown l fs) -> ObserveV2 l fs = ObserveV2 r fs.
Proof.
  intros Hl Hr S [C C']. pose proof S as (Ef & Eb & _). set (vs := shown l fs) in *.
  assert (Evs : shown r fs = vs) by (unfold vs, shown; by rewrite Ef).
  assert (Ereq : requireFieldsV2 r vs = requireFieldsV2 l vs) by (unfold requireFieldsV2, fieldTypeMapV2; by rewrite Ef).
  destruct (requireFieldsV2 l vs) as [[]|e] eqn:Ereq'.
  2:{ unfold ObserveV2. rewrite (proj2 (validate_iff _ (valid_machine _ Hl)) Hl), (proj2 (validate_iff _ (valid_machine _ Hr)) Hr). cbn [mbind result_bind]. cbv zeta.
      fold (shown l fs) (shown r fs). rewrite Evs. fold vs. by rewrite Ereq, Ereq'. }
  assert (Hrel : forall f, f ∈ released l vs <-> f ∈ released r vs) by (intros f; apply same_relation_elem; [done|]; intros; by apply same_released).
  assert (Hsup : forall x, x ∈ supports l vs <-> x ∈ supports r vs).
  { intros x. apply same_relation_elem; [done|]. intros row row' Hrow. unfold row_supports. by destruct (same_row_deps row row' vs Hrow) as [-> ->]. }
  assert (Hfacts : forall f, f ∈ rel_facts l <-> f ∈ rel_facts r).
  { intros f. apply same_relation_elem; [done|]. intros row row' Hrow. unfold row_facts. destruct (same_row_deps row row' [] Hrow) as [-> _]. by destruct Hrow as (_ & -> & _). }
  destruct (observe_sets l fs Hl Ereq' (conj C C')) as (R & I & [HR HI] & _ & _ & E & _).
  destruct (observe_sets r fs Hr) as (R' & I' & [HR' HI'] & _ & _ & E' & _).
  { by rewrite Evs, Ereq. }
  { rewrite Evs. split; [eapply Witness.collision_free_sub; [|exact C]|eapply Witness.collision_free_sub; [|exact C']]; intros f; [apply Hfacts|apply Hrel]. }
  rewrite E, E'. rewrite Evs in HR', HI'. cbn [fst snd] in *. fold vs in HR, HI.
  assert (R = R') as ->. { apply map_eq. intros h. apply option_eq. intros f. rewrite (HR h f), (HR' h f). by rewrite Hrel. }
  assert (I = I') as ->; [|done]. eapply Witness.union_of_perm; [|exact HI|exact HI']. exact Hsup.
Qed.

Lemma no_nul_keys (ps : list JoinPredicateV2) : (forall p, p ∈ ps -> no_nul (jRightField p)) -> NoDup (map jRightField ps) ->
  NoDup (map predicate_key (map swapped ps)).
Proof.
  intros Hnul. induction ps as [|p ps IH]; [constructor|]. cbn [map]. rewrite !NoDup_cons. intros [Hnot Hnd]. split.
  - intros (q & E & Hq)%list_elem_of_fmap. apply list_elem_of_fmap in Hq as (q' & -> & Hq). apply Hnot, list_elem_of_fmap. exists q'. split; [|done].
    unfold predicate_key, swapped in E. cbn [jLeftField jRightField] in E. apply nul_prefix in E; [done|apply Hnul; by left|apply Hnul; by right].
  - apply IH; [|done]. intros q Hq. apply Hnul. by right.
Qed.

Lemma allowed_swapped left right ps bundle : (forall p, p ∈ ps -> no_nul (jRightField p)) -> join_allowed left right ps bundle ->
  join_allowed right left (map swapped ps) bundle.
Proof.
  intros Hnul [Hne HF Hk Hn1 Hn2 Hb Hids].
  assert (El : map jLeftField (map swapped ps) = map jRightField ps) by (by rewrite map_map).
  assert (Er : map jRightField (map swapped ps) = map jLeftField ps) by (by rewrite map_map).
  split; [by destruct ps| |by apply no_nul_keys|by rewrite El|by rewrite Er| |].
  - apply Forall_forall. intros p (q & -> & Hq)%list_elem_of_fmap. rewrite Forall_forall in HF. by apply joinable_flip, HF.
  - apply merge_bundles_ok in Hb as (Hc & Hs & Hin). apply merge_bundles_ok. split; [|split; [done|]].
    + intros ns x y. rewrite !elem_of_app. intros Hx Hy. apply (Hc ns); rewrite elem_of_app; tauto.
    + intros x. rewrite Hin, !elem_of_app. tauto.
  - rewrite map_app in *. by rewrite Permutation_app_comm.
Qed.

Lemma schema_swapped left right : NoDup (map fID (relFields left ++ relFields right)) -> join_schema left right = join_schema right left.
Proof.
  intros Hnd. assert (Hnd' : NoDup (map fID (relFields right ++ relFields left))) by (rewrite map_app in *; by rewrite Permutation_app_comm).
  destruct (join_schema_ids left right Hnd) as [S1 I1], (join_schema_ids right left Hnd') as [S2 I2].
  apply (strongly_sorted_ext (fun a b => clt (fID a) (fID b))).
  - intros x. apply clt_irrefl.
  - intros x y z. apply clt_trans.
  - by apply (sorted_map_inv clt fID).
  - by apply (sorted_map_inv clt fID).
  - intros x. rewrite I1, I2, !elem_of_app. tauto.
Qed.

Lemma match_swapped left right ps lrow rrow : valid left -> valid right -> Forall (joinable left right) ps ->
  lrow ∈ relRows left -> rrow ∈ relRows right -> sql_match left ps (lrow, rrow) = true <-> sql_match right (map swapped ps) (rrow, lrow) = true.
Proof.
  intros Hl Hr HF Hlr Hrr. unfold sql_match. cbn [fst snd]. rewrite !forallb_forall. setoid_rewrite <- list_elem_of_In.
  assert (HF' : Forall (joinable right left) (map swapped ps)).
  { apply Forall_forall. intros p (q & -> & Hq)%list_elem_of_fmap. rewrite Forall_forall in HF. by apply joinable_flip, HF. }
  assert (Hone : forall p, p ∈ ps -> sql_equal left lrow rrow p = true <-> sql_equal right rrow lrow (swapped p) = true).
  { intros p Hp. assert (Hp' : swapped p ∈ map swapped ps) by (apply list_elem_of_fmap; eauto).
    rewrite (sql_equal_iff left right ps Hl Hr HF lrow rrow p Hlr Hrr Hp), (sql_equal_iff right left (map swapped ps) Hr Hl HF' rrow lrow (swapped p) Hrr Hlr Hp').
    assert (Et : key_type right (swapped p) = key_type left p).
    { destruct (key_type_ok left right ps HF p Hp) as [_ E]. unfold key_type at 1. cbn [swapped jLeftField]. by rewrite E. }
    rewrite Et. cbn [swapped jLeftField jRightField]. split; intros [-> ?]; done. }
  split.
  - intros Ha p (q & -> & Hq)%list_elem_of_fmap. by apply Hone, Ha.
  - intros Ha p Hp. apply Hone; [done|]. apply Ha, list_elem_of_fmap. eauto.
Qed.

Lemma nodup_pairs left right ps : valid left -> valid right -> NoDup (join_pairs left right ps).
Proof.
  intros Hl Hr. pose proof (NoDup_fmap_1 _ _ (v_keys _ Hl)) as Nl. pose proof (NoDup_fmap_1 _ _ (v_keys _ Hr)) as Nr. unfold join_pairs.
  induction Nl as [|lrow rows Hn Nl IH]; [constructor|]. cbn [flat_map]. apply NoDup_app. split; [|split; [|exact IH]].
  - apply NoDup_fmap_2; [by intros ? ? [=]|]. by apply NoDup_filter.
  - intros pair (rrow & -> & _)%list_elem_of_fmap (x & Hx & (y & [= -> ->] & _)%list_elem_of_fmap)%Witness.elem_flat_map. done.
Qed.

Definition swap_pair {A B} (pair : A * B) : B * A := (pair.2, pair.1).

Lemma pairs_swapped left right ps : valid left -> valid right -> Forall (joinable left right) ps ->
  join_pairs right left (map swapped ps) ≡ₚ map swap_pair (join_pairs left right ps).
Proof.
  intros Hl Hr HF. apply NoDup_Permutation; [by apply nodup_pairs| |].
  - apply NoDup_fmap_2; [|by apply nodup_pairs]. intros [a b] [c e]. unfold swap_pair. cbn. congruence.
  - intros [rrow lrow]. rewrite elem_join_pairs, list_elem_of_fmap. split.
    + intros (Hrr & Hlr & Hm). exists (lrow, rrow). split; [done|]. apply elem_join_pairs. split; [done|]. split; [done|]. by eapply match_swapped.
    + intros ([x y] & [= -> ->] & (Hlr & Hrr & Hm)%elem_join_pairs). split; [done|]. split; [done|]. by apply (match_swapped left right).
Qed.

Lemma deps_swapped ps lrow rrow : join_deps (map swapped ps) rrow lrow ≡ₚ join_deps ps lrow rrow.
Proof.
  unfold join_deps. rewrite Permutation_swap. do 2 constructor. induction ps as [|p ps IH]; [done|]. cbn [map flat_map]. rewrite IH.
  apply Permutation_app_tail. unfold pair_deps. cbn [swapped jLeftField jRightField]. apply Permutation_app_comm.
Qed.

Lemma joined_same left right ps lrow rrow row row' bundle : valid left -> valid right -> Forall (joinable left right) ps ->
  Witness.collision_free (rel_facts left ++ rel_facts right) -> NoDup (map fID (relFields left ++ relFields right)) ->
  mergeSnapshotBundles (relSnapshotBundle left) (relSnapshotBundle right) = Ok bundle -> lrow ∈ relRows left -> rrow ∈ relRows right ->
  joined left right ps lrow rrow row -> joined right left (map swapped ps) rrow lrow row' -> same_row row row'.
Proof.
  intros Hl Hr HF C Hids Hb Hlr Hrr (Ek & Ec & Eo & d & Es & Ew & S) (Ek' & Ec' & Eo' & d' & Es' & Ew' & S').
  destruct (merged_names left right bundle Hb) as (Hnd & Bl & Br).
  destruct (join_deps_ok left right ps Hl Hr bundle lrow rrow Hlr Hrr Hnd Bl Br) as [Hok Hsub].
  assert (d = d') as <-.
  { eapply (dep_sum_perm (join_deps ps lrow rrow)); [| |symmetry; apply deps_swapped|exact S|exact S'].
    - by eapply Witness.collision_free_sub.
    - eapply Forall_impl; [exact Hok|]. apply dep_ok_wf. }
  split; [by rewrite Ek, Ek', join_key_comm|]. split; [|split; [congruence|split; [congruence|rewrite Eo, Eo'; apply Permutation_app_comm]]].
  rewrite Ec, Ec'. apply map_union_comm. by apply (cells_disjoint left right).
Qed.

(** C31: The hash join is the nested loop with SQL equality: its rows are, in the
    order of the two inputs, one for each pair of rows on which every predicate
    is TRUE (never on NULL), holding the cells of both and depending on both
    rows and on every compared cell.  It succeeds exactly when the predicates
    join fields of one type and collation, no field identifier is shared, the
    snapshots agree, the row keys are distinct and no multiplicity leaves the
    64-bit range. *)
Theorem join_exact left right ps :
  machine_relation left -> machine_relation right -> ValidateRelationV2 left = Ok tt -> ValidateRelationV2 right = Ok tt ->
  Witness.collision_free (rel_facts left ++ rel_facts right) ->
  (forall out, JoinOnV2 left right ps = Ok out ->
     relFields out ≡ₚ relFields left ++ relFields right /\ StronglySorted clt (map fID (relFields out)) /\
     Forall2 (fun pair row => joined left right ps pair.1 pair.2 row) (join_pairs left right ps) (relRows out)) /\
  (is_ok (JoinOnV2 left right ps) = true <-> exists bundle, join_allowed left right ps bundle /\
     (forall pair, pair ∈ join_pairs left right ps -> join_fits ps pair.1 pair.2) /\
     NoDup (map (fun pair => join_key left right pair.1 pair.2) (join_pairs left right ps))).
Proof.
  intros Hml Hmr Hvl Hvr C. pose proof (proj1 (validate_iff left Hml) Hvl) as Hl. pose proof (proj1 (validate_iff right Hmr) Hvr) as Hr. split.
  - intros out (bundle & A & E)%join_unfold; [|done..]. destruct (join_result left right ps bundle Hl Hr C A) as [R _].
    destruct (R out E) as (rows & -> & J & _). cbn [relFields relRows]. destruct (join_schema_ids left right (ja_ids _ _ _ _ A)) as [Hs _].
    split; [apply join_schema_perm, A|]. done.
  - split.
    + intros Hok. destruct (JoinOnV2 left right ps) as [out|] eqn:E; [|done]. apply join_unfold in E as (bundle & A & E); [|done..].
      exists bundle. split; [done|]. destruct (join_result left right ps bundle Hl Hr C A) as [_ R]. apply R. by rewrite E.
    + intros (bundle & A & Hfit). destruct (join_result left right ps bundle Hl Hr C A) as [_ R]. apply R in Hfit.
      destruct (join_body left right ps bundle) as [out|] eqn:E; [|done]. by rewrite (proj2 (join_unfold left right ps out Hl Hr)) by eauto.
Qed.

Lemma rows_swapped left right ps bundle rows rows' : valid left -> valid right -> join_allowed left right ps bundle ->
  Witness.collision_free (rel_facts left ++ rel_facts right) -> joined_rows left right ps (join_pairs left right ps) rows ->
  joined_rows right left (map swapped ps) (join_pairs right left (map swapped ps)) rows' ->
  exists rows'', rows' ≡ₚ rows'' /\ Forall2 same_row rows rows''.
Proof.
  intros Hl Hr [_ HF _ _ _ Hb Hids] C J J'. destruct (Permutation_Forall2 (pairs_swapped left right ps Hl Hr HF) J') as (rows'' & P & J'').
  exists rows''. split; [done|]. apply Forall2_fmap_l in J''. clear J' P.
  assert (Hin : forall pair, pair ∈ join_pairs left right ps -> pair.1 ∈ relRows left /\ pair.2 ∈ relRows right) by (intros [l r] (? & ? & _)%elem_join_pairs; done).
  revert rows J rows'' J''. induction (join_pairs left right ps) as [|[l r] pairs IH]; intros rows J rows'' J''.
  - inversion J; subst. inversion J''; subst. constructor.
  - inversion J as [|? row ? rest Hj J1]; subst. inversion J'' as [|? row' ? rest' Hj' J2]; subst. constructor.
    + destruct (Hin (l, r)) as [Hlr Hrr]; [by left|]. by eapply (joined_same left right ps l r).
    + apply IH; [|done|done]. intros pair Hp. apply Hin. by right.
Qed.

Lemma conditions_swapped left right ps : valid left -> valid right -> Forall (joinable left right) ps ->
  (forall pair, pair ∈ join_pairs left right ps -> join_fits ps pair.1 pair.2) /\
    NoDup (map (fun pair => join_key left right pair.1 pair.2) (join_pairs left right ps)) ->
  (forall pair, pair ∈ join_pairs right left (map swapped ps) -> join_fits (map swapped ps) pair.1 pair.2) /\
    NoDup (map (fun pair => join_key right left pair.1 pair.2) (join_pairs right left (map swapped ps))).
Proof.
  intros Hl Hr HF [Hfit Hkeys]. pose proof (pairs_swapped left right ps Hl Hr HF) as P. split.
  - intros pair Hp. rewrite P in Hp. apply list_elem_of_fmap in Hp as ([l r] & -> & Hp). intros h. specialize (Hfit _ Hp h). cbn [fst snd swap_pair] in *.
    unfold dep_total in *. by rewrite (Witness.total_perm _ _ h (Permutation_map snd (deps_swapped ps l r))).
  - rewrite P, map_map. cbn [swap_pair fst snd]. assert (Ek : map (fun pair => join_key right left pair.2 pair.1) (join_pairs left right ps) =
      map (fun pair => join_key left right pair.1 pair.2) (join_pairs left right ps)); [|by rewrite Ek].
    apply map_ext. intros pair. apply join_key_comm.
Qed.

(** A join does not depend on the order of its operands.  When one order
    succeeds so does the other, with the same schema, the same snapshots and the
    same rows (key, cells, support and witness) up to their order and the order
    of their origins; and the two are observed alike, release and influence. *)
Theorem join_commutes left right ps a :
  machine_relation left -> machine_relation right -> Witness.collision_free (rel_facts left ++ rel_facts right) ->
  (forall p, p ∈ ps -> no_nul (jRightField p)) -> JoinOnV2 left right ps = Ok a ->
  exists b, JoinOnV2 right left (map swapped ps) = Ok b /\ same_relation a b /\
    forall fs, distinct_hashes a (shown a fs) -> ObserveV2 a fs = ObserveV2 b fs.
Proof.
  intros Hml Hmr C Hnul E. pose proof E as Hv. unfold JoinOnV2 in Hv. apply seq_ok in Hv as [Hvl [Hvr _]%seq_ok].
  pose proof (proj1 (validate_iff left Hml) Hvl) as Hl. pose proof (proj1 (validate_iff right Hmr) Hvr) as Hr.
  apply join_unfold in E as (bundle & A & E); [|done..].
  assert (C' : Witness.collision_free (rel_facts right ++ rel_facts left)) by (by eapply Witness.collision_free_sub; [|exact C]; intros f; rewrite !elem_of_app; tauto).
  pose proof (allowed_swapped left right ps bundle Hnul A) as A'.
  destruct (join_result left right ps bundle Hl Hr C A) as [R1 R2], (join_result right left (map swapped ps) bundle Hr Hl C' A') as [R1' R2'].
  assert (Hok : is_ok (join_body left right ps bundle) = true) by (by rewrite E). apply R2, conditions_swapped, R2' in Hok; [|done|done|apply A].
  destruct (join_body right left (map swapped ps) bundle) as [b|] eqn:E'; [|done].
  destruct (R1 a E) as (rows & -> & J & Hkeys), (R1' b eq_refl) as (rows' & -> & J' & Hkeys').
  exists (MkRelation (join_schema right left) rows' bundle false).
  assert (S : same_relation (MkRelation (join_schema left right) rows bundle false) (MkRelation (join_schema right left) rows' bundle false)).
  { split; [apply schema_swapped, A|]. split; [done|]. by apply (rows_swapped left right ps bundle). }
  split; [apply join_unfold; [done|done|]; eauto|]. split; [exact S|]. intros fs D. apply observe_same; [| |done|done].
  - apply (joined_valid left right ps bundle); [done|done|done|apply A|apply A|done|]. by rewrite (joined_rows_keys _ _ _ _ _ J).
  - apply (joined_valid right left (map swapped ps) bundle); [done|done|done|apply A'|apply A'|done|]. by rewrite (joined_rows_keys _ _ _ _ _ J').
Qed.
End props.
End JoinProps.
