(* ===== verification/RelationDemo.v ===== *)
(** * Annotated relations on concrete inputs

    An encoding of a few SQL values (the cases of [CanonicalSQLValue] for
    integers, texts and booleans), two scanned tables, and the theorems on the
    operators applied to them. *)

From S2P Require Import Prelude GoBytes Ordering GoText Sha256 FactId FactSet Witness Relation RelationProps RelationJoin JoinProps.
Import GoText FactId Relation RelationProps RelationJoin JoinProps.

Module RelationDemo.

Inductive value := VNil | VInt (n : Z) | VText (s : string) | VBool (b : bool).
#[export] Instance value_eq_dec : EqDecision value.
Proof. solve_decision. Defined.

Definition integer_bits (t : string) : Z := if same t "smallint" then 16 else if same t "integer" then 32 else 64.
Definition short (s : string) : bool := str_len s <=? max_int64.

Definition encode_value (sqlType : string) (v : value) : result string :=
  t ← CanonicalSQLTypeV2 sqlType;
  text ← match v with
         | VNil => Ok "null"
         | VInt n =>
             fail_if (negb (in_list t ["smallint"; "integer"; "bigint"]) || (n <? - 2 ^ (integer_bits t - 1)) || (2 ^ (integer_bits t - 1) - 1 <? n))
               (bad "integer is outside PostgreSQL %s range") ≫= fun _ => Ok ("i:" +:+ format_int n)
         | VText s => fail_if (negb (in_list t ["text"; "character varying"])) (bad "%T is not valid for SQL type %q") ≫= fun _ => Ok ("s:" +:+ s)
         | VBool b => fail_if (negb (same t "boolean")) (bad "%T is not boolean") ≫= fun _ => Ok ("b:" +:+ format_bool b)
         end;
  fail_if (negb (short text)) (ErrNew "out of memory") ≫= fun _ => Ok text.

#[export] Instance demo_values : SQLValues value := encode_value.
#[export] Instance demo_literals : SQLLiterals := fun _ _ => Ok tt.

Lemma demo_encoding t v text : encode_value t v = Ok text -> short text = true /\ text <> "".
Proof.
  unfold encode_value. intros (ty & _ & (x & Hx & [Hs%negb_false_iff <-%Ok_inj]%fail_if_bind_ok)%bind_ok)%bind_ok. split; [done|].
  destruct v; [by apply Ok_inj in Hx as <-|..]; apply fail_if_bind_ok in Hx as [_ <-%Ok_inj]; done.
Qed.
#[export] Instance demo_values_laws : SQLValuesLaws value.
Proof.
  split.
  - intros t v E. by destruct (demo_encoding t v "" E).
  - intros t v text E. destruct (demo_encoding t v text E) as [Hs _]. unfold go_string. by apply Z.leb_le.
Qed.

(** ** Decision procedures for the hypotheses *)
Definition machine_witness_b (w : gmap string Witness.WitnessItem) : bool :=
  forallb (fun entry : string * Witness.WitnessItem => (0 <=? Witness.iMultiplicity entry.2) && (Witness.iMultiplicity entry.2 <=? max_uint64)) (map_to_list w).
Definition machine_row_b (row : AnnotatedRowV2 value) : bool :=
  machine_witness_b (Witness.Clone (rRowWitness row)) &&
  forallb (fun entry : string * CellV2 value => machine_witness_b (Witness.Clone (cWitness entry.2))) (map_to_list (rCells row)).

Lemma machine_witness_ok w : machine_witness_b w = true -> machine_witness w.
Proof.
  unfold machine_witness_b. rewrite forallb_forall. intros Hall h it Hit.
  specialize (Hall (h, it) (proj1 (list_elem_of_In _ _) (proj2 (elem_of_map_to_list w h it) Hit))). cbn [snd] in Hall.
  unfold uint64_range. apply andb_prop in Hall as [?%Z.leb_le ?%Z.leb_le]. done.
Qed.
Lemma machine_ok (r : RelationV2 value) : forallb machine_row_b (relRows r) = true -> machine_relation r.
Proof.
  rewrite forallb_forall. intros Hall. apply Forall_forall. intros row Hrow%list_elem_of_In. specialize (Hall row Hrow).
  apply andb_prop in Hall as [H1 H2]. split; [by apply machine_witness_ok|]. intros f cell Hc. rewrite forallb_forall in H2.
  apply machine_witness_ok. apply (H2 (f, cell)). by apply list_elem_of_In, elem_of_map_to_list.
Qed.

#[local] Instance fact_eq_dec : EqDecision FactID.
Proof. solve_decision. Defined.
Definition hashed (facts : list FactID) : list (result string * FactID) := map (fun f => (Hash f, f)) facts.
Definition all_distinct (l : list (result string * FactID)) : bool :=
  forallb (fun a => forallb (fun b => negb (bool_decide (a.1 = b.1)) || bool_decide (a.2 = b.2)) l) l.
Lemma collision_free_ok facts : all_distinct (hashed facts) = true -> Witness.collision_free facts.
Proof.
  unfold all_distinct. rewrite forallb_forall. intros Hall f g h Hf Hg Ef Eg.
  assert (Hin : forall x, x ∈ facts -> In (Hash x, x) (hashed facts)) by (intros x Hx; apply list_elem_of_In, list_elem_of_fmap; eauto).
  specialize (Hall _ (Hin f Hf)). rewrite forallb_forall in Hall. specialize (Hall _ (Hin g Hg)). cbn [fst snd] in Hall.
  rewrite Ef, Eg, bool_decide_eq_true_2 in Hall by done. by apply bool_decide_eq_true in Hall.
Qed.

(** ** Two tables *)
Definition plain_field (id t : string) : FieldV2 := MkField id t "" "" "" false.
Definition text_field (id : string) : FieldV2 := MkField id "text" "" "C" "1" true.

Definition orders_spec : BaseRelationSpecV2 value :=
  MkSpec "orders" "s1" "o" [plain_field "id" "bigint"; text_field "name"]
    [MkBaseRow "1" (<["id" := VInt 1]> (<["name" := VText "ann"]> ∅)); MkBaseRow "2" (<["id" := VInt 2]> (<["name" := VNil]> ∅))].
Definition lines_spec : BaseRelationSpecV2 value :=
  MkSpec "lines" "s7" "l" [plain_field "order" "int8"] [MkBaseRow "a" (<["order" := VInt 2]> ∅); MkBaseRow "b" (<["order" := VNil]> ∅)].

Definition scanned (spec : BaseRelationSpecV2 value) : RelationV2 value :=
  match ScanV2 spec with Ok r => r | Err _ => MkRelation [] [] [] false end.
Definition orders : RelationV2 value := scanned orders_spec.
Definition lines : RelationV2 value := scanned lines_spec.
Definition ordered_orders : RelationV2 value := MkRelation (relFields orders) (relRows orders) (relSnapshotBundle orders) true.

Lemma orders_machine : machine_relation orders.
Proof. apply machine_ok. vm_compute. reflexivity. Qed.
Lemma orders_valid : ValidateRelationV2 orders = Ok tt.
Proof. vm_compute. reflexivity. Qed.
Lemma lines_machine : machine_relation lines.
Proof. apply machine_ok. vm_compute. reflexivity. Qed.
Lemma lines_valid : ValidateRelationV2 lines = Ok tt.
Proof. vm_compute. reflexivity. Qed.
Lemma orders_facts : Witness.collision_free (rel_facts orders ++ rel_facts lines).
Proof. apply collision_free_ok. vm_compute. reflexivity. Qed.

Lemma orders_free : Witness.collision_free (rel_facts orders).
Proof. eapply Witness.collision_free_sub; [|exact orders_facts]. intros f Hf. apply elem_of_app. by left. Qed.
Lemma orders_distinct : distinct_hashes orders (shown orders []).
Proof. split; [exact orders_free|]. apply collision_free_ok. vm_compute. reflexivity. Qed.

(** [name = 'ann']: unknown where the name is NULL. *)
Definition named_ann (row : AnnotatedRowV2 value) : SQLTruth :=
  match rCells row !! "name" with
  | Some cell => match SQLValueEqualV2 "text" (cValue cell) (VText "ann") with Ok truth => truth | Err _ => SQLUnknown end
  | None => SQLUnknown
  end.

Definition result_of (r : result (RelationV2 value)) : RelationV2 value := match r with Ok r => r | Err _ => MkRelation [] [] [] false end.

Lemma select_runs : SelectV2 orders ["name"] (Some named_ann) = Ok (result_of (SelectV2 orders ["name"] (Some named_ann))) /\
  map rKey (relRows (result_of (SelectV2 orders ["name"] (Some named_ann)))) = ["1"].
Proof. split; [|vm_compute; reflexivity]. assert (E : is_ok (SelectV2 orders ["name"] (Some named_ann)) = true) by (vm_compute; reflexivity). by destruct (SelectV2 _ _ _). Qed.
Lemma select_fields : requireFieldsV2 orders ["name"] = Ok tt.
Proof. vm_compute. reflexivity. Qed.

Lemma select_exact_witness : map rKey (relRows (result_of (SelectV2 orders ["name"] (Some named_ann)))) = ["1"] /\
  Forall2 (selected ["name"]) (filter (fun row => named_ann row = SQLTrue) (relRows orders)) (relRows (result_of (SelectV2 orders ["name"] (Some named_ann)))).
Proof.
  split; [exact (proj2 select_runs)|].
  exact (proj2 (proj2 (proj2 (proj1 (select_exact orders ["name"] named_ann orders_machine orders_valid select_fields orders_free) _ (proj1 select_runs))))).
Defined.

Lemma page_machine : machine_relation ordered_orders.
Proof. apply machine_ok. vm_compute. reflexivity. Qed.
Lemma page_valid : ValidateRelationV2 ordered_orders = Ok tt /\ Z.of_nat (length (relRows ordered_orders)) <= max_int64.
Proof. vm_compute. split; [reflexivity|intros [=]]. Qed.

Definition page_wraps (offset limit : Z) : bool :=
  (0 <? limit) && (max_int64 <? Z.min offset (Z.of_nat (length (relRows ordered_orders))) + limit).
Lemma page_bounds : page_wraps 1 5 = false /\ page_wraps 1 max_int64 = true.
Proof. vm_compute. done. Qed.
Lemma page_ranges : (0 <= 1 <= max_int64) /\ (0 <= 5 <= max_int64) /\ (0 <= max_int64 <= max_int64).
Proof. unfold max_int64. lia. Qed.

Lemma page_exact_witness : PageV2 ordered_orders 1 5 = Ok (with_rows ordered_orders (page_rows 1 5 (relRows ordered_orders))) /\
  PageV2 ordered_orders 1 max_int64 = Err (ErrNew "slice bounds out of range").
Proof.
  destruct page_ranges as (R1 & R5 & Rm). split.
  - rewrite (page_exact ordered_orders 1 5 page_machine (proj1 page_valid) eq_refl R1 R5 (proj2 page_valid)).
    fold (page_wraps 1 5). rewrite (proj1 page_bounds). reflexivity.
  - rewrite (page_exact ordered_orders 1 max_int64 page_machine (proj1 page_valid) eq_refl R1 Rm (proj2 page_valid)).
    fold (page_wraps 1 max_int64). rewrite (proj2 page_bounds). reflexivity.
Defined.

Lemma observe_fields : requireFieldsV2 orders (shown orders []) = Ok tt.
Proof. vm_compute. reflexivity. Qed.
Lemma observe_exact_witness : exists o, ObserveV2 orders [] = Ok o /\ forall f, f ∈ FactSet.Release o <-> f ∈ released orders (shown orders []).
Proof.
  destruct (observe_exact orders [] orders_machine orders_valid observe_fields orders_distinct) as (o & Eo & _ & _ & _ & HR & _).
  exists o. split; [exact Eo|exact HR].
Defined.

Lemma project_runs : ProjectV2 orders ["name"; "id"] = Ok (result_of (ProjectV2 orders ["name"; "id"])).
Proof. assert (E : is_ok (ProjectV2 orders ["name"; "id"]) = true) by (vm_compute; reflexivity). by destruct (ProjectV2 _ _). Qed.
Lemma visible_subset : ["id"] ⊆ ["name"; "id"] /\ NoDup ["id"].
Proof. split; [intros x ->%list_elem_of_singleton; right; by left|apply NoDup_singleton]. Qed.
Lemma observe_project_witness : ObserveV2 (result_of (ProjectV2 orders ["name"; "id"])) ["id"] = ObserveV2 orders ["id"].
Proof. exact (observe_project orders ["name"; "id"] _ ["id"] orders_machine project_runs (proj1 visible_subset) (proj2 visible_subset)). Defined.

Definition on_order : list JoinPredicateV2 := [MkPredicate "id" "order"].
Lemma join_runs : JoinOnV2 orders lines on_order = Ok (result_of (JoinOnV2 orders lines on_order)) /\
  map (fun row => map oEntityKey (rOrigins row)) (relRows (result_of (JoinOnV2 orders lines on_order))) = [["2"; "a"]].
Proof. split; [|vm_compute; reflexivity]. assert (E : is_ok (JoinOnV2 orders lines on_order) = true) by (vm_compute; reflexivity). by destruct (JoinOnV2 _ _ _). Qed.

Lemma join_exact_witness : map (fun row => map oEntityKey (rOrigins row)) (relRows (result_of (JoinOnV2 orders lines on_order))) = [["2"; "a"]] /\
  Forall2 (fun pair row => joined orders lines on_order pair.1 pair.2 row) (join_pairs orders lines on_order) (relRows (result_of (JoinOnV2 orders lines on_order))).
Proof.
  split; [exact (proj2 join_runs)|].
  exact (proj2 (proj2 (proj1 (join_exact orders lines on_order orders_machine lines_machine orders_valid lines_valid orders_facts) _ (proj1 join_runs)))).
Defined.

Lemma order_no_nul p : p ∈ on_order -> no_nul (jRightField p).
Proof. intros ->%list_elem_of_singleton. cbn. repeat split; discriminate. Qed.
Lemma join_commutes_witness : exists b, JoinOnV2 lines orders (map swapped on_order) = Ok b /\ same_relation (result_of (JoinOnV2 orders lines on_order)) b.
Proof.
  destruct (join_commutes orders lines on_order _ orders_machine lines_machine orders_facts order_no_nul (proj1 join_runs)) as (b & Eb & S & _).
  exists b. split; [exact Eb|exact S].
Defined.
End RelationDemo.
