(* ===== verification/SqlText.v ===== *)
(** * SQL text

    The lexical layer of [src/internal/queryplan/compiler.go]: identifiers,
    literals, the acceptance of [strconv.ParseFloat], and a lexer for the SQL the
    compiler emits, against which the text is proved to mean what was asked. *)

From S2P Require Import Prelude GoBytes Ordering GoText FactId.
Import GoText FactId.

Module SqlText.

(** ** Values of [any] in a query plan

    What [encoding/json] decodes with [UseNumber], and a [float64], given by the
    two texts the source takes of it: [strconv.FormatFloat(v, 'g', -1, 64)] and
    [json.Marshal(v)] (an error for the infinities and NaN).  A JSON object,
    which no operator accepts, is given by its canonical text. *)
Inductive any :=
  | ANil
  | ABool (b : bool)
  | AString (s : string)
  | ANumber (text : string)
  | AFloat (text : string) (encoded : option bytes)
  | AArray (items : list any)
  | AObject (canonical : bytes).

(** ** [strconv.ParseFloat]: which texts are accepted *)
Definition digit (c : ascii) : bool := (48 <=? byte_val c) && (byte_val c <=? 57).
Definition lower_letter (c : ascii) : bool := (97 <=? byte_val c) && (byte_val c <=? 122).
Definition upper_letter (c : ascii) : bool := (65 <=? byte_val c) && (byte_val c <=? 90).
Definition letter (c : ascii) : bool := lower_letter c || upper_letter c.
Definition hex_letter (c : ascii) : bool := let x := byte_val (to_lower_byte c) in (97 <=? x) && (x <=? 102).
Definition sign_byte (c : ascii) : bool := Ascii.eqb c "+" || Ascii.eqb c "-".
Definition drop_sign (l : bytes) : bytes := match l with c :: r => if sign_byte c then r else l | [] => [] end.
Definition digit_value (c : ascii) : Z := default 0 (hex_value c).

Definition special (l : bytes) : bool :=
  let lower := of_bytes (map to_lower_byte l) in
  let unsigned := of_bytes (map to_lower_byte (drop_sign l)) in
  same lower "nan" || same unsigned "inf" || same unsigned "infinity".

Record mantissa := MkMantissa { mDot : bool; mDigits : bool; mValue : Z; mFraction : Z; mUnderscores : bool }.

(** The loop over the digits, one dot and underscores: what was read and what is left. *)
Fixpoint read_mantissa (hex : bool) (m : mantissa) (l : bytes) : mantissa * bytes :=
  match l with
  | [] => (m, [])
  | c :: r =>
      if Ascii.eqb c "_" then read_mantissa hex (MkMantissa (mDot m) (mDigits m) (mValue m) (mFraction m) true) r
      else if Ascii.eqb c "." then
        if mDot m then (m, l) else read_mantissa hex (MkMantissa true (mDigits m) (mValue m) (mFraction m) (mUnderscores m)) r
      else if digit c || (hex && hex_letter c) then
        read_mantissa hex (MkMantissa (mDot m) true (mValue m * (if hex then 16 else 10) + digit_value c)
          (if mDot m then mFraction m + 1 else mFraction m) (mUnderscores m)) r
      else (m, l)
  end.

(** The digits of an exponent: its value stops growing at five digits. *)
Fixpoint read_exponent (e : Z) (underscores : bool) (l : bytes) : Z * bool * bytes :=
  match l with
  | [] => (e, underscores, [])
  | c :: r =>
      if Ascii.eqb c "_" then read_exponent e true r
      else if digit c then read_exponent (if e <? 10000 then e * 10 + digit_value c else e) underscores r
      else (e, underscores, l)
  end.

Inductive underscore_state := UStart | UDigit | UUnderscore | UOther.
Fixpoint underscores_follow (hex : bool) (st : underscore_state) (l : bytes) : bool :=
  match l with
  | [] => match st with UUnderscore => false | _ => true end
  | c :: r =>
      if digit c || (hex && hex_letter c) then underscores_follow hex UDigit r
      else if Ascii.eqb c "_" then match st with UDigit => underscores_follow hex UUnderscore r | _ => false end
      else match st with UUnderscore => false | _ => underscores_follow hex UOther r end
  end.
Definition underscoreOK (l : bytes) : bool :=
  match drop_sign l with
  | z :: b :: r =>
      let base := to_lower_byte b in
      if Ascii.eqb z "0" && (Ascii.eqb base "b" || Ascii.eqb base "o" || Ascii.eqb base "x")
      then underscores_follow (Ascii.eqb base "x") UDigit r
      else underscores_follow false UStart (z :: b :: r)
  | r => underscores_follow false UStart r
  end.

(** [|value| >= 2^1024 - 2^970], the least value that rounds out of range. *)
Definition float_bound : Z := 2 ^ 1024 - 2 ^ 970.
Definition out_of_range (hex : bool) (value exponent : Z) : bool :=
  let base := if hex then 2 else 10 in
  if value =? 0 then false
  else if 0 <=? exponent then (1100 <? exponent) || (float_bound <=? value * base ^ exponent)
  else (1023 <=? Z.log2 value) && (float_bound * base ^ (- exponent) <=? value).

Definition hex_prefix (l : bytes) : option bytes :=
  match l with
  | z :: x :: c :: r => if Ascii.eqb z "0" && Ascii.eqb (to_lower_byte x) "x" then Some (c :: r) else None
  | _ => None
  end.

(** The optional exponent: [None] when it is malformed, or missing after hexadecimal digits. *)
Definition exponent_part (hex : bool) (l : bytes) : option (Z * bool * bytes) :=
  match l with
  | c :: r =>
      if Ascii.eqb (to_lower_byte c) (if hex then "p" else "e")%char then
        match drop_sign r with
        | d :: _ =>
            if digit d then
              let '(e, underscores, rest) := read_exponent 0 false (drop_sign r) in
              Some (match r with s :: _ => if Ascii.eqb s "-" then - e else e | [] => e end, underscores, rest)
            else None
        | [] => None
        end
      else if hex then None else Some (0, false, l)
  | [] => if hex then None else Some (0, false, [])
  end.

Definition read_float (l : bytes) : bool :=
  let unsigned := drop_sign l in
  let hex := match hex_prefix unsigned with Some _ => true | None => false end in
  let '(m, rest) := read_mantissa hex (MkMantissa false false 0 0 false) (default unsigned (hex_prefix unsigned)) in
  mDigits m &&
  match exponent_part hex rest with
  | Some (e, underscores, []) =>
      (negb (mUnderscores m || underscores) || underscoreOK l) &&
      negb (out_of_range hex (mValue m) (e - (if hex then 4 else 1) * mFraction m))
  | _ => false
  end.

(** [strconv.ParseFloat(s, 64)] succeeds. *)
Definition ParseFloat_ok (s : string) : bool := special (to_bytes s) || read_float (to_bytes s).

Example parse_floats :
  map ParseFloat_ok ["1"; "-2.5e3"; "+.5"; "1_000"; "0x1p-2"; "inf"; "-Infinity"; "NaN"; "1e308"] = repeat true 9 /\
  map ParseFloat_ok [""; "-"; "."; "1e"; "--1"; "1'"; "1e309"; "0x1"; "1__0"; "-nan"; "1 "; "infin"] = repeat false 12.
Proof. vm_compute. done. Qed.

(** ** Identifiers *)
(** [^[a-z][a-z0-9_]*$]. *)
Definition identifier_byte (c : ascii) : bool := lower_letter c || digit c || Ascii.eqb c "_".
Definition safeIdentifier (value : string) : bool :=
  match to_bytes value with c :: r => lower_letter c && forallb identifier_byte r | [] => false end.
Definition dquote : string := String.String (ascii_of_nat 34) "".
Definition quoteIdentifier (value : string) : string := dquote +:+ value +:+ dquote.

(** ** Literals *)
(** [strings.ReplaceAll] of one byte by itself twice. *)
Definition double (target : ascii) (l : bytes) : bytes := flat_map (fun c => if Ascii.eqb c target then [c; c] else [c]) l.
Definition backslash : ascii := ascii_of_nat 92.
Definition apostrophe : ascii := ascii_of_nat 39.
Definition has_nul (l : bytes) : bool := existsb (fun c => Ascii.eqb c (ascii_of_nat 0)) l.
Definition escaped (s : string) : bytes := double apostrophe (double backslash (to_bytes s)).

Definition sqlLiteral (value : any) : result string :=
  match value with
  | ANil => Ok "NULL"
  | AString typed =>
      fail_if ((4096 <? str_len typed) || has_nul (to_bytes typed)) (ErrNew "string literal is invalid") ≫= fun _ =>
      Ok ("E'" +:+ of_bytes (escaped typed) +:+ "'")
  | ABool typed => Ok (if typed then "TRUE" else "FALSE")
  | AFloat text _ => Ok text
  | ANumber text => fail_if (negb (ParseFloat_ok text)) (ErrNew "numeric literal is invalid") ≫= fun _ => Ok text
  | AArray _ => Err (ErrNew "literal type %T is not supported")
  | AObject _ => Err (ErrNew "literal type %T is not supported")
  end.

(** ** A lexer for the emitted SQL

    The tokens of PostgreSQL the compiler uses: quoted identifiers, escape
    strings, words and numbers, operators and punctuation.  It refuses comments,
    plain strings, dollar quotes, semicolons and every escape but the two the
    compiler writes. *)
Inductive token :=
  | TWord (text : bytes)
  | TIdent (name : bytes)
  | TString (value : bytes)
  | TOp (text : bytes)
  | TPunct (c : ascii).

Definition space : ascii := ascii_of_nat 32.
Definition word_byte (c : ascii) : bool := letter c || digit c || Ascii.eqb c "_" || Ascii.eqb c ".".
Definition exponent_mark (c : ascii) : bool := let x := to_lower_byte c in Ascii.eqb x "e" || Ascii.eqb x "p".
Definition comparison_byte (c : ascii) : bool := Ascii.eqb c "<" || Ascii.eqb c ">" || Ascii.eqb c "=".
Definition punctuation (c : ascii) : bool := Ascii.eqb c "(" || Ascii.eqb c ")" || Ascii.eqb c "," || Ascii.eqb c ".".

(** The longest word; [numeric] words may hold a sign after an exponent mark. *)
Fixpoint take_word (numeric marked : bool) (l : bytes) : bytes * bytes :=
  match l with
  | [] => ([], [])
  | c :: r =>
      if word_byte c || (numeric && marked && sign_byte c)
      then let '(w, rest) := take_word numeric (exponent_mark c) r in (c :: w, rest)
      else ([], l)
  end.
Fixpoint take_comparison (l : bytes) : bytes * bytes :=
  match l with
  | c :: r => if comparison_byte c then let '(w, rest) := take_comparison r in (c :: w, rest) else ([], l)
  | [] => ([], [])
  end.
(** The rest of a quoted identifier, after its opening quote. *)
Fixpoint take_ident (l : bytes) : option (bytes * bytes) :=
  match l with
  | [] => None
  | c :: r => if Ascii.eqb c quote then Some ([], r) else '(name, rest) ← take_ident r; Some (c :: name, rest)
  end.
(** The rest of an escape string, after [E']. *)
Fixpoint take_string (l : bytes) : option (bytes * bytes) :=
  match l with
  | [] => None
  | c :: r =>
      if Ascii.eqb c apostrophe then
        match r with
        | d :: r' => if Ascii.eqb d apostrophe then '(v, rest) ← take_string r'; Some (apostrophe :: v, rest) else Some ([], r)
        | [] => Some ([], r)
        end
      else if Ascii.eqb c backslash then
        match r with
        | d :: r' => if Ascii.eqb d backslash then '(v, rest) ← take_string r'; Some (backslash :: v, rest) else None
        | [] => None
        end
      else '(v, rest) ← take_string r; Some (c :: v, rest)
  end.

(** One token and what follows it. *)
Definition next_token (c : ascii) (r : bytes) : option (token * bytes) :=
  if Ascii.eqb c quote then '(name, rest) ← take_ident r; Some (TIdent name, rest)
  else if (letter c || digit c || Ascii.eqb c "_") || (Ascii.eqb c "." && match r with d :: _ => digit d | [] => false end) then
    match r with
    | q :: r' => if Ascii.eqb c "E" && Ascii.eqb q apostrophe then '(v, rest) ← take_string r'; Some (TString v, rest)
                 else let '(w, rest) := take_word (digit c || Ascii.eqb c ".") (exponent_mark c) r in Some (TWord (c :: w), rest)
    | [] => Some (TWord [c], [])
    end
  else if comparison_byte c then let '(w, rest) := take_comparison r in Some (TOp (c :: w), rest)
  else if Ascii.eqb c "!" then match r with d :: r' => if Ascii.eqb d "=" then Some (TOp [c; d], r') else None | [] => None end
  else if Ascii.eqb c "*" then Some (TOp [c], r)
  else if sign_byte c then match r with d :: _ => if Ascii.eqb d "-" then None else Some (TOp [c], r) | [] => Some (TOp [c], r) end
  else if punctuation c then Some (TPunct c, r)
  else None.

Fixpoint lex (fuel : nat) (l : bytes) : option (list token) :=
  match l with
  | [] => Some []
  | c :: r =>
      match fuel with
      | O => None
      | S fuel' =>
          if Ascii.eqb c space then lex fuel' r
          else '(t, rest) ← next_token c r; tokens ← lex fuel' rest; Some (t :: tokens)
      end
  end.
Definition tokens_of (text : string) : option (list token) := lex (String.length text) (to_bytes text).

(** ** Lexing what was written *)
Definition lexes (l : bytes) (ts : list token) : Prop := exists fuel, lex fuel l = Some ts.

Lemma take_word_length numeric : forall l marked w rest, take_word numeric marked l = (w, rest) -> (length rest <= length l)%nat.
Proof.
  induction l as [|c l IH]; intros marked w rest; cbn [take_word]; [intros [= _ <-]; done|].
  destruct (_ || _); [|intros [= _ <-]; done]. destruct (take_word numeric (exponent_mark c) l) as [w' rest'] eqn:E. intros [= _ <-].
  cbn [length]. specialize (IH _ _ _ E). lia.
Qed.
Lemma take_comparison_length : forall l w rest, take_comparison l = (w, rest) -> (length rest <= length l)%nat.
Proof.
  induction l as [|c l IH]; intros w rest; cbn [take_comparison]; [intros [= _ <-]; done|].
  destruct (comparison_byte c); [|intros [= _ <-]; done]. destruct (take_comparison l) as [w' rest'] eqn:E. intros [= _ <-]. cbn [length].
  specialize (IH _ _ eq_refl). lia.
Qed.
Lemma take_ident_length : forall l v rest, take_ident l = Some (v, rest) -> (length rest <= length l)%nat.
Proof.
  induction l as [|c l IH]; intros v rest; cbn [take_ident]; [done|]. destruct (Ascii.eqb c quote); [intros [= _ <-]; cbn; lia|].
  destruct (take_ident l) as [[v' rest']|] eqn:E; [|done]. cbn. intros [= _ <-]. specialize (IH _ _ eq_refl). lia.
Qed.
Lemma take_string_length : forall n l v rest, (length l <= n)%nat -> take_string l = Some (v, rest) -> (length rest <= length l)%nat.
Proof.
  induction n as [|n IH]; intros [|c l] v rest Hn; [done..|cbn in Hn; lia|done|]. cbn [take_string length] in *.
  assert (Hstep : forall l' x, (length l' <= length l)%nat -> ('(v0, rest0) ← take_string l'; Some (x :: v0, rest0)) = Some (v, rest) -> (length rest <= S (length l))%nat).
  { intros l' x Hl. destruct (take_string l') as [[v' rest']|] eqn:E; [|done]. cbn. intros [= _ <-]. specialize (IH l' v' rest' ltac:(lia) E). lia. }
  destruct (Ascii.eqb c apostrophe).
  - destruct l as [|d l]; [intros [= _ <-]; cbn; lia|]. destruct (Ascii.eqb d apostrophe); [|intros [= _ <-]; cbn; lia]. apply Hstep. cbn. lia.
  - destruct (Ascii.eqb c backslash); [|by apply Hstep]. destruct l as [|d l]; [done|]. destruct (Ascii.eqb d backslash); [|done]. apply Hstep. cbn. lia.
Qed.

Lemma next_token_length c r t rest : next_token c r = Some (t, rest) -> (length rest <= length r)%nat.
Proof.
  unfold next_token. destruct (Ascii.eqb c quote).
  { destruct (take_ident r) as [[v rest']|] eqn:E; [|done]. cbn. intros [= _ <-]. by eapply take_ident_length. }
  destruct (_ || _).
  { destruct r as [|q r']; [intros [= _ <-]; done|]. destruct (_ && _).
    - destruct (take_string r') as [[v rest']|] eqn:E; [|done]. cbn. intros [= _ <-]. eapply (take_string_length (length r')) in E; [lia|done].
    - destruct (take_word _ _ _) as [w rest'] eqn:E. intros [= _ <-]. by eapply take_word_length. }
  destruct (comparison_byte c). { destruct (take_comparison r) as [w rest'] eqn:E. intros [= _ <-]. by eapply take_comparison_length. }
  destruct (Ascii.eqb c "!"). { destruct r as [|d r']; [done|]. destruct (Ascii.eqb d "="); [|done]. intros [= _ <-]. cbn. lia. }
  destruct (Ascii.eqb c "*"); [intros [= _ <-]; done|].
  destruct (sign_byte c). { destruct r as [|d r']; [intros [= _ <-]; done|]. destruct (Ascii.eqb d "-"); [done|]. intros [= _ <-]. done. }
  destruct (punctuation c); [|done]. by intros [= _ <-].
Qed.

Lemma lex_enough l : forall fuel fuel' ts, (length l <= fuel')%nat -> lex fuel l = Some ts -> lex fuel' l = Some ts.
Proof.
  intros fuel. revert l. induction fuel as [|fuel IH]; intros [|c r] fuel' ts Hf; cbn [lex]; [by destruct fuel'..|by destruct fuel'|].
  destruct fuel' as [|fuel']; [cbn in Hf; lia|]. cbn [lex length] in *. destruct (Ascii.eqb c space); [apply IH; lia|].
  destruct (next_token c r) as [[t rest]|] eqn:E; [|done]. cbn. pose proof (next_token_length _ _ _ _ E).
  destruct (lex fuel rest) as [ts'|] eqn:El; [|done]. rewrite (IH rest fuel' ts'); [done|lia|done].
Qed.

Lemma lexes_tokens text ts : lexes (to_bytes text) ts -> tokens_of text = Some ts.
Proof. intros [fuel E]. unfold tokens_of. eapply lex_enough; [|exact E]. by rewrite length_to_bytes. Qed.

Lemma lexes_nil : lexes [] [].
Proof. by exists 0%nat. Qed.
Lemma lexes_space l ts : lexes l ts -> lexes (space :: l) ts.
Proof. intros [fuel E]. by exists (S fuel). Qed.
Lemma lexes_token c r t rest ts : Ascii.eqb c space = false -> next_token c r = Some (t, rest) -> lexes rest ts -> lexes (c :: r) (t :: ts).
Proof. intros Hc Ht [fuel E]. exists (S fuel). cbn [lex]. rewrite Hc, Ht. cbn. by rewrite E. Qed.

(** *** Composition *)
(** What may follow a token: nothing, a blank, a comma or a parenthesis. *)
Definition boundary (l : bytes) : Prop :=
  match l with [] => True | c :: _ => c = space \/ c = "("%char \/ c = ")"%char \/ c = ","%char end.
(** [s] is the tokens [ts] wherever a boundary follows it. *)
Definition emits (s : string) (ts : list token) : Prop :=
  forall rest tsr, boundary rest -> lexes rest tsr -> lexes (to_bytes s ++ rest) (ts ++ tsr).
(** [s] starts with a boundary and is the tokens [ts] whatever follows it. *)
Definition glues (s : string) (ts : list token) : Prop :=
  boundary (to_bytes s) /\ s <> "" /\ forall rest tsr, lexes rest tsr -> lexes (to_bytes s ++ rest) (ts ++ tsr).

Lemma to_bytes_app a b : to_bytes (a +:+ b) = to_bytes a ++ to_bytes b.
Proof. induction a as [|c a IH]; [done|]. cbn. by rewrite <- IH. Qed.

Lemma emits_nil : emits "" [].
Proof. intros rest tsr _ Hl. done. Qed.
Lemma emits_tokens s ts : emits s ts -> tokens_of s = Some ts.
Proof. intros He. apply lexes_tokens. specialize (He [] [] I lexes_nil). by rewrite !app_nil_r in He. Qed.

Lemma emits_glue s ts g gs s' ts' : emits s ts -> glues g gs -> emits s' ts' -> emits (s +:+ g +:+ s') (ts ++ gs ++ ts').
Proof.
  intros Hs (Hb & Hne & Hg) Hs' rest tsr Hr Hl. rewrite !to_bytes_app, <- !app_assoc. apply Hs.
  - destruct g as [|c g]; [done|]. exact Hb.
  - apply Hg. by apply Hs'.
Qed.

Lemma glues_space s ts : glues s ts -> glues (s +:+ " ") ts.
Proof.
  intros (Hb & Hne & Hg). split; [rewrite to_bytes_app; by destruct s|]. split; [by destruct s|].
  intros rest tsr Hl. rewrite to_bytes_app, <- app_assoc. apply Hg. by apply lexes_space.
Qed.

Definition separated (sep : list token) : list (list token) -> list token :=
  fix go l := match l with [] => [] | [t] => t | t :: rest => t ++ sep ++ go rest end.

Lemma emits_join sep tsep parts tss : glues sep tsep -> Forall2 emits parts tss -> emits (Join parts sep) (separated tsep tss).
Proof.
  intros Hg. induction 1 as [|s ts parts tss Hs F IH]; [apply emits_nil|]. destruct F as [|s' ts' parts tss Hs' F]; [done|].
  cbn [Join separated]. by apply emits_glue.
Qed.

(** *** Words and identifiers *)
Definition plain_word (c : ascii) : bool := letter c || digit c || Ascii.eqb c "_".

Lemma boundary_stop rest : boundary rest -> forall numeric marked, take_word numeric marked rest = ([], rest).
Proof.
  destruct rest as [|c r]; [done|]. cbn [boundary]. intros Hc numeric marked. cbn [take_word].
  assert (E : word_byte c || (numeric && marked && sign_byte c) = false); [|by rewrite E].
  destruct Hc as [->|[->|[->| ->]]]; by destruct numeric, marked.
Qed.

(** A text that a numeric word takes whole. *)
Fixpoint wordish (marked : bool) (l : bytes) : bool :=
  match l with [] => true | c :: r => (word_byte c || (marked && sign_byte c)) && wordish (exponent_mark c) r end.

Lemma take_wordish w rest : forall marked, wordish marked w = true -> boundary rest -> take_word true marked (w ++ rest) = (w, rest).
Proof.
  induction w as [|c w IH]; intros marked Hw Hr; [by apply boundary_stop|]. cbn [wordish] in Hw. apply andb_prop in Hw as [Hc Hw].
  cbn [app take_word]. cbn [andb]. rewrite Hc. by rewrite IH.
Qed.
Lemma take_plain w rest : forall marked, forallb plain_word w = true -> boundary rest -> take_word false marked (w ++ rest) = (w, rest).
Proof.
  induction w as [|c w IH]; intros marked Hw Hr; [by apply boundary_stop|]. cbn [forallb] in Hw. apply andb_prop in Hw as [Hc Hw].
  cbn [app take_word]. unfold plain_word in Hc. unfold word_byte. rewrite Hc. cbn [orb]. by rewrite IH.
Qed.

Lemma eqb_class (P : ascii -> bool) c d : P c = true -> P d = false -> Ascii.eqb c d = false.
Proof. intros Hc Hd. destruct (Ascii.eqb_spec c d) as [->|]; [congruence|done]. Qed.

Lemma not_apostrophe w rest : forallb plain_word w = true -> boundary rest ->
  match w ++ rest with q :: _ => Ascii.eqb q apostrophe = false | [] => True end.
Proof.
  intros Hw Hr. destruct w as [|q w]; cbn [app].
  - destruct rest as [|q r]; [done|]. by destruct Hr as [->|[->|[->| ->]]].
  - cbn [forallb] in Hw. apply andb_prop in Hw as [Hq _]. by apply (eqb_class plain_word).
Qed.

Lemma emits_word w : forallb plain_word (to_bytes w) = true -> (match to_bytes w with c :: _ => letter c = true | [] => False end) ->
  emits w [TWord (to_bytes w)].
Proof.
  intros Hw Hl rest tsr Hr HL. destruct (to_bytes w) as [|c r]; [done|]. cbn [app forallb] in *. apply andb_prop in Hw as [Hc Hw].
  eapply lexes_token; [by apply (eqb_class letter)| |exact HL]. unfold next_token.
  rewrite (eqb_class letter c quote), Hl by done. cbn [orb]. pose proof (not_apostrophe r rest Hw Hr) as Hq.
  assert (Hd : digit c || Ascii.eqb c "." = false).
  { rewrite (eqb_class letter c ".") by done. clear -Hl. revert Hl. unfold letter, lower_letter, upper_letter, digit. lia. }
  rewrite Hd. destruct (r ++ rest) as [|q r'] eqn:E.
  - apply app_eq_nil in E as [-> ->]. done.
  - rewrite Hq, andb_false_r, <- E. by rewrite take_plain.
Qed.

Lemma take_ident_name name rest : forallb (fun c => negb (Ascii.eqb c quote)) name = true -> take_ident (name ++ quote :: rest) = Some (name, rest).
Proof.
  induction name as [|c name IH]; cbn [app take_ident]; [done|]. cbn [forallb]. intros [Hc Hn]%andb_prop. apply negb_true_iff in Hc.
  rewrite Hc, IH by done. done.
Qed.

(** A quoted identifier is one token whatever follows it. *)
Lemma lexes_ident name rest ts : forallb (fun c => negb (Ascii.eqb c quote)) (to_bytes name) = true -> lexes rest ts ->
  lexes (to_bytes (quoteIdentifier name) ++ rest) (TIdent (to_bytes name) :: ts).
Proof.
  intros Hn HL. unfold quoteIdentifier. rewrite !to_bytes_app, <- !app_assoc. change (to_bytes dquote) with [quote]. cbn [app].
  eapply lexes_token; [done| |exact HL]. unfold next_token. cbn [Ascii.eqb]. rewrite Ascii.eqb_refl, take_ident_name by done. done.
Qed.
Lemma emits_ident name : forallb (fun c => negb (Ascii.eqb c quote)) (to_bytes name) = true -> emits (quoteIdentifier name) [TIdent (to_bytes name)].
Proof. intros Hn rest tsr _ HL. by apply lexes_ident. Qed.

Lemma safe_no_quote v : safeIdentifier v = true -> forallb (fun c => negb (Ascii.eqb c quote)) (to_bytes v) = true.
Proof.
  unfold safeIdentifier. destruct (to_bytes v) as [|c r]; [done|]. intros [Hc Hr]%andb_prop. cbn [forallb].
  rewrite (eqb_class lower_letter c quote) by done. cbn [negb andb]. apply forallb_forall. intros x Hx. rewrite forallb_forall in Hr.
  apply negb_true_iff. by apply (eqb_class identifier_byte); [apply Hr|].
Qed.
Lemma emits_safe v : safeIdentifier v = true -> emits (quoteIdentifier v) [TIdent (to_bytes v)].
Proof. intros Hv. by apply emits_ident, safe_no_quote. Qed.

Lemma safe_word v : safeIdentifier v = true -> emits v [TWord (to_bytes v)].
Proof.
  unfold safeIdentifier. intros Hv. apply emits_word.
  - destruct (to_bytes v) as [|c r]; [done|]. apply andb_prop in Hv as [Hc Hr]. cbn [forallb]. unfold plain_word at 1, letter. rewrite Hc. cbn [orb andb].
    apply forallb_forall. intros x Hx. rewrite forallb_forall in Hr. specialize (Hr x Hx). unfold identifier_byte in Hr. unfold plain_word, letter.
    destruct (lower_letter x), (upper_letter x), (digit x), (Ascii.eqb x "_"); done.
  - destruct (to_bytes v) as [|c r]; [done|]. apply andb_prop in Hv as [Hc _]. unfold letter. by rewrite Hc.
Qed.

(** *** Strings *)
Lemma take_string_escaped l rest : (match rest with c :: _ => Ascii.eqb c apostrophe = false | [] => True end) ->
  take_string (double apostrophe (double backslash l) ++ apostrophe :: rest) = Some (l, rest).
Proof.
  intros Hr. assert (D : forall t c k, double t (c :: k) = (if Ascii.eqb c t then [c; c] else [c]) ++ double t k) by done.
  induction l as [|c l IH].
  - cbn. destruct rest as [|d r]; [done|]. by rewrite Hr.
  - rewrite D. destruct (Ascii.eqb_spec c backslash) as [->|Hb]; cbn [app]; rewrite !D.
    + change (Ascii.eqb backslash apostrophe) with false. cbn [app take_string]. change (Ascii.eqb backslash apostrophe) with false.
      rewrite Ascii.eqb_refl. by rewrite IH.
    + destruct (Ascii.eqb_spec c apostrophe) as [->|Ha]; cbn [app take_string].
      * rewrite Ascii.eqb_refl. by rewrite IH.
      * rewrite (proj2 (Ascii.eqb_neq c apostrophe) Ha), (proj2 (Ascii.eqb_neq c backslash) Hb). by rewrite IH.
Qed.

Lemma emits_string v : emits ("E'" +:+ of_bytes (escaped v) +:+ "'") [TString (to_bytes v)].
Proof.
  intros rest tsr Hr HL. rewrite !to_bytes_app, to_of_bytes, <- !app_assoc. change (to_bytes "E'") with ["E"%char; apostrophe].
  change (to_bytes "'") with [apostrophe]. cbn [app]. eapply lexes_token; [done| |exact HL]. assert (E : forall l, next_token "E" (apostrophe :: l) = '(v, rest) ← take_string l; Some (TString v, rest)) by done.
  rewrite E. unfold escaped. rewrite take_string_escaped; [done|]. destruct rest as [|c r]; [done|]. by destruct Hr as [->|[->|[->| ->]]].
Qed.

(** *** Numbers *)
Lemma wordish_app w rest : forallb word_byte w = true -> (forall marked, wordish marked rest = true) -> forall marked, wordish marked (w ++ rest) = true.
Proof.
  intros Hw Hr. induction w as [|c w IH]; intros marked; [apply Hr|]. cbn [forallb] in Hw. apply andb_prop in Hw as [Hc Hw].
  cbn [app wordish]. rewrite Hc. cbn [orb andb]. by apply IH.
Qed.

Lemma hex_letter_word c : hex_letter c = true -> word_byte c = true.
Proof.
  unfold hex_letter, word_byte, letter, lower_letter, upper_letter, to_lower_byte. cbv zeta.
  destruct ((65 <=? byte_val c) && (byte_val c <=? 90)) eqn:E; [by rewrite orb_true_r|]. intros Hc.
  assert (E' : (97 <=? byte_val c) && (byte_val c <=? 122) = true) by lia. by rewrite E'.
Qed.

Lemma read_mantissa_prefix hex l : forall m m' rest, read_mantissa hex m l = (m', rest) -> exists pre, l = pre ++ rest /\ forallb word_byte pre = true.
Proof.
  induction l as [|c l IH]; intros m m' rest; cbn [read_mantissa]; [intros [= _ <-]; by exists []|].
  assert (Hstep : forall m1, word_byte c = true -> read_mantissa hex m1 l = (m', rest) -> exists pre, c :: l = pre ++ rest /\ forallb word_byte pre = true).
  { intros m1 Hc E. destruct (IH _ _ _ E) as (pre & -> & Hp). exists (c :: pre). cbn [forallb]. by rewrite Hc. }
  assert (Hstop : (m, c :: l) = (m', rest) -> exists pre, c :: l = pre ++ rest /\ forallb word_byte pre = true) by (intros [= _ <-]; by exists []).
  destruct (Ascii.eqb_spec c "_") as [->|]; [by apply Hstep|]. destruct (Ascii.eqb_spec c ".") as [->|].
  { destruct (mDot m); [exact Hstop|by apply Hstep]. }
  destruct (digit c || _) eqn:Ed; [|exact Hstop]. apply Hstep. apply orb_prop in Ed as [Ed|[_ Ed]%andb_prop]; [|by apply hex_letter_word].
  unfold word_byte. by rewrite Ed, !orb_true_r.
Qed.

Lemma read_exponent_prefix l : forall e u e' u' rest, read_exponent e u l = (e', u', rest) -> exists pre, l = pre ++ rest /\ forallb word_byte pre = true.
Proof.
  induction l as [|c l IH]; intros e u e' u' rest; cbn [read_exponent]; [intros [= _ _ <-]; by exists []|].
  assert (Hstep : forall e1 u1, word_byte c = true -> read_exponent e1 u1 l = (e', u', rest) -> exists pre, c :: l = pre ++ rest /\ forallb word_byte pre = true).
  { intros e1 u1 Hc E. destruct (IH _ _ _ _ _ E) as (pre & -> & Hp). exists (c :: pre). cbn [forallb]. by rewrite Hc. }
  destruct (Ascii.eqb_spec c "_") as [->|]; [by apply Hstep|]. destruct (digit c) eqn:Ed; [|intros [= _ _ <-]; by exists []].
  apply Hstep. unfold word_byte. by rewrite Ed, !orb_true_r.
Qed.

Lemma mark_lower c (hex : bool) : Ascii.eqb (to_lower_byte c) (if hex then "p"%char else "e"%char) = true -> word_byte c = true /\ exponent_mark c = true.
Proof.
  intros E. split; [|unfold exponent_mark; destruct hex; cbv zeta; rewrite E; [apply orb_true_r|done]].
  assert (Hl : letter c = true); [|unfold word_byte; by rewrite Hl].
  apply Ascii.eqb_eq in E. unfold letter, lower_letter, upper_letter. unfold to_lower_byte in E. cbv zeta in E.
  destruct ((65 <=? byte_val c) && (byte_val c <=? 90)); [apply orb_true_r|]. subst c. by destruct hex.
Qed.

Lemma exponent_wordish hex l e u : exponent_part hex l = Some (e, u, []) -> forall marked, wordish marked l = true.
Proof.
  unfold exponent_part. destruct l as [|c r]; [done|]. destruct (Ascii.eqb (to_lower_byte c) _) eqn:Ec; [|by destruct hex].
  destruct (drop_sign r) as [|d r'] eqn:Ed; [done|]. destruct (digit d); [|done].
  destruct (read_exponent 0 false (d :: r')) as [[e' u'] rest] eqn:Ee. intros [= _ _ ->]. apply read_exponent_prefix in Ee as (pre & Epre & Hpre).
  rewrite app_nil_r in Epre. apply mark_lower in Ec as [Hw Hm]. intros marked. cbn [wordish]. rewrite Hw, Hm. cbn [orb andb].
  assert (Hpw : forall marked, wordish marked pre = true) by (intros m; rewrite <- (app_nil_r pre); by apply wordish_app).
  unfold drop_sign in Ed. destruct r as [|s r]; [done|]. destruct (sign_byte s) eqn:Es.
  - cbn [wordish]. rewrite Es, orb_true_r. cbn [andb]. rewrite Ed, Epre. apply Hpw.
  - rewrite Ed, Epre. apply Hpw.
Qed.

(** The first byte of the digits. *)
Definition number_start (l : bytes) : bool :=
  match l with c :: r => digit c || (Ascii.eqb c "." && match r with d :: _ => digit d | [] => false end) | [] => false end.

Lemma mantissa_value_start m' rest l : (forall l', drop_sign l' = l -> True) ->
  read_mantissa false (MkMantissa false false 0 0 false) l = (m', rest) -> mDigits m' = true ->
  (mUnderscores m' = true -> underscores_follow false UStart l = true) -> number_start l = true.
Proof.
  intros _. destruct l as [|c l]; cbn [read_mantissa]; [intros [= <- _]; done|].
  assert (Hmono : forall hex l m m' rest, read_mantissa hex m l = (m', rest) -> mUnderscores m = true -> mUnderscores m' = true).
  { clear. intros hex l. induction l as [|c l IH]; intros m m' rest; cbn [read_mantissa]; [by intros [= <- _]|].
    destruct (Ascii.eqb c "_"); [intros E Hu; eapply IH; [exact E|done]|]. destruct (Ascii.eqb c ".").
    - destruct (mDot m); [by intros [= <- _]|]. intros E Hu. by eapply IH; [exact E|].
    - destruct (_ || _); [|by intros [= <- _]]. intros E Hu. by eapply IH; [exact E|]. }
  destruct (Ascii.eqb_spec c "_") as [->|].
  { intros E Hd Hu. apply Hmono in E; [|done]. by specialize (Hu E). }
  destruct (Ascii.eqb_spec c ".") as [->|Hdot].
  - destruct l as [|d l]; cbn [read_mantissa]; [intros [= <- _]; done|]. destruct (Ascii.eqb_spec d "_") as [->|].
    { intros E Hd Hu. apply Hmono in E; [|done]. by specialize (Hu E). }
    cbn [mDot]. destruct (Ascii.eqb d "."); [intros [= <- _]; done|]. cbn [andb]. destruct (digit d || false) eqn:Ed; [|intros [= <- _]; done].
    intros _ _ _. cbn [number_start]. rewrite orb_false_r in Ed. by rewrite Ed, orb_true_r.
  - destruct (digit c || (false && hex_letter c)) eqn:Ed; [|intros [= <- _]; done]. intros _ _ _. cbn [number_start]. rewrite orb_false_r in Ed. by rewrite Ed.
Qed.

Lemma underscores_unsigned l : hex_prefix (drop_sign l) = None -> number_start (drop_sign l) = false -> underscoreOK l = true ->
  underscores_follow false UStart (drop_sign l) = true.
Proof.
  unfold underscoreOK, hex_prefix. destruct (drop_sign l) as [|z [|b r]]; [done|done|]. cbv zeta. intros _ Hs.
  destruct (Ascii.eqb_spec z "0") as [->|]; [done|]. done.
Qed.

Lemma read_float_shape l : read_float l = true -> number_start (drop_sign l) = true /\ forall marked, wordish marked (drop_sign l) = true.
Proof.
  unfold read_float. set (u := drop_sign l). destruct (hex_prefix u) as [body|] eqn:Eh; cbn [default id].
  - destruct (read_mantissa true (MkMantissa false false 0 0 false) body) as [m rest] eqn:Em. intros [Hd H]%andb_prop.
    assert (Hu : exists z x, u = z :: x :: body /\ z = "0"%char /\ word_byte x = true).
    { unfold hex_prefix in Eh. destruct u as [|z [|x [|c r]]]; [done..|]. destruct (Ascii.eqb_spec z "0") as [->|]; [|done]. cbn [andb] in Eh.
      destruct (Ascii.eqb (to_lower_byte x) "x") eqn:Ex; [|done]. injection Eh as <-. exists "0"%char, x. split; [done|]. split; [done|].
      assert (Hl : letter x = true); [|unfold word_byte; by rewrite Hl]. apply Ascii.eqb_eq in Ex. unfold letter, lower_letter, upper_letter.
      unfold to_lower_byte in Ex. cbv zeta in Ex. destruct ((65 <=? byte_val x) && (byte_val x <=? 90)); [apply orb_true_r|by subst x]. }
    destruct Hu as (z & x & -> & -> & Hx). split; [done|].
    destruct (exponent_part true rest) as [[[e un] [|]]|] eqn:Ee; [|done..].
    apply read_mantissa_prefix in Em as (pre & -> & Hp). intros marked. change ("0"%char :: x :: pre ++ rest) with (["0"%char; x] ++ (pre ++ rest)).
    apply wordish_app; [cbn; by rewrite Hx|]. apply wordish_app; [done|]. by eapply exponent_wordish.
  - destruct (read_mantissa false (MkMantissa false false 0 0 false) u) as [m rest] eqn:Em. intros [Hd H]%andb_prop.
    destruct (exponent_part false rest) as [[[e un] [|]]|] eqn:Ee; [|done..]. apply andb_prop in H as [Hun _]. split.
    + destruct (number_start u) eqn:Hs; [done|]. rewrite <- Hs. eapply mantissa_value_start; [done|exact Em|done|]. intros Hm.
      rewrite Hm in Hun. cbn [orb negb] in Hun. by apply underscores_unsigned.
    + apply read_mantissa_prefix in Em as (pre & -> & Hp). apply wordish_app; [done|]. by eapply exponent_wordish.
Qed.

(** The tokens of a number: its sign apart. *)
Definition number_tokens (text : string) : list token :=
  match to_bytes text with
  | c :: r => if sign_byte c then [TOp [c]; TWord r] else [TWord (c :: r)]
  | [] => []
  end.

Lemma lexes_number w rest ts : number_start w = true -> (forall marked, wordish marked w = true) -> boundary rest -> lexes rest ts ->
  lexes (w ++ rest) (TWord w :: ts).
Proof.
  destruct w as [|c w]; [done|]. cbn [number_start]. intros Hs Hw Hr HL. cbn [app]. specialize (Hw false). cbn [wordish] in Hw. apply andb_prop in Hw as [Hc Hw].
  assert (Hsp : Ascii.eqb c space = false /\ Ascii.eqb c quote = false /\ Ascii.eqb c "E" = false).
  { apply orb_prop in Hs as [Hs|[->%Ascii.eqb_eq _]%andb_prop]; [|done]. split; [by apply (eqb_class digit)|]. split; by apply (eqb_class digit). }
  destruct Hsp as (Hsp & Hq & HE). eapply lexes_token; [done| |exact HL]. unfold next_token. rewrite Hq.
  assert (Hin : (letter c || digit c || Ascii.eqb c "_") || (Ascii.eqb c "." && match w ++ rest with d :: _ => digit d | [] => false end) = true).
  { apply orb_prop in Hs as [Hs|[Hdot Hd]%andb_prop]; [by rewrite Hs, !orb_true_r|]. destruct w as [|d w]; [done|]. cbn [app]. by rewrite Hdot, Hd, !orb_true_r. }
  rewrite Hin. assert (Hnum : digit c || Ascii.eqb c "." = true) by (apply orb_prop in Hs as [->|[-> _]%andb_prop]; [done|apply orb_true_r]).
  rewrite Hnum, HE. cbn [andb]. destruct (w ++ rest) as [|q r] eqn:E; [by apply app_eq_nil in E as [-> ->]|]. rewrite <- E. by rewrite take_wordish.
Qed.

Lemma sign_token c l t ts : sign_byte c = true -> (match l with d :: _ => Ascii.eqb d "-" = false | [] => True end) -> lexes l (t :: ts) ->
  lexes (c :: l) (TOp [c] :: t :: ts).
Proof.
  intros Hc Hl HL. eapply lexes_token; [by apply (eqb_class sign_byte)| |exact HL]. unfold next_token.
  unfold sign_byte in Hc. apply orb_prop in Hc as [->%Ascii.eqb_eq| ->%Ascii.eqb_eq]; cbn; (destruct l as [|d r]; [done|by rewrite Hl]).
Qed.

Lemma number_not_minus w rest : number_start w = true -> match w ++ rest with d :: _ => Ascii.eqb d "-" = false | [] => True end.
Proof.
  destruct w as [|c w]; [done|]. cbn [number_start app]. intros [Hs|[->%Ascii.eqb_eq _]%andb_prop]%orb_prop; [|done]. by apply (eqb_class digit).
Qed.

Lemma letters_folded w v : of_bytes (map to_lower_byte w) = v -> forallb lower_letter (to_bytes v) = true -> forallb letter w = true.
Proof.
  intros <-. rewrite to_of_bytes. induction w as [|c w IH]; [done|]. cbn [map forallb]. intros [Hc Hw]%andb_prop. rewrite IH by done. rewrite andb_true_r.
  unfold letter, lower_letter, upper_letter, to_lower_byte in *. cbv zeta in Hc. destruct ((65 <=? byte_val c) && (byte_val c <=? 90)); [apply orb_true_r|by rewrite Hc].
Qed.

Lemma letters_word w rest ts : forallb letter w = true -> w <> [] -> boundary rest -> lexes rest ts -> lexes (w ++ rest) (TWord w :: ts).
Proof.
  intros Hw Hne Hr HL. pose proof (emits_word (of_bytes w)) as E. rewrite !to_of_bytes in E. rewrite <- (to_of_bytes w) at 1. refine (E _ _ rest ts Hr HL).
  - apply forallb_forall. intros x Hx. rewrite forallb_forall in Hw. unfold plain_word. by rewrite (Hw x Hx).
  - destruct w as [|c w]; [done|]. cbn [forallb] in Hw. by apply andb_prop in Hw as [? _].
Qed.

Lemma unsigned_letters c : sign_byte c = true -> letter c = false.
Proof. unfold sign_byte. by intros [->%Ascii.eqb_eq| ->%Ascii.eqb_eq]%orb_prop. Qed.

Lemma emits_number text : ParseFloat_ok text = true -> emits text (number_tokens text).
Proof.
  unfold ParseFloat_ok, number_tokens. intros Hok rest tsr Hr HL.
  assert (Hbody : forall w, number_start w = true /\ (forall marked, wordish marked w = true) \/ forallb letter w = true /\ w <> [] ->
    lexes (w ++ rest) (TWord w :: tsr) /\ match w ++ rest with d :: _ => Ascii.eqb d "-" = false | [] => True end).
  { intros w [[Hs Hw]|[Hw Hne]].
    - split; [by apply lexes_number|by apply number_not_minus].
    - split; [by apply letters_word|]. destruct w as [|c w]; [done|]. cbn [forallb app] in *. apply andb_prop in Hw as [Hc _]. by apply (eqb_class letter). }
  assert (Hshape : let w := drop_sign (to_bytes text) in
    number_start w = true /\ (forall marked, wordish marked w = true) \/ forallb letter w = true /\ w <> []).
  { apply orb_prop in Hok as [Hs|Hf]; [|left; by apply read_float_shape]. right. unfold special in Hs. cbv zeta in Hs.
    assert (Hv : forall w v, same (of_bytes (map to_lower_byte w)) v = true -> forallb lower_letter (to_bytes v) = true -> v <> "" -> forallb letter w = true /\ w <> []).
    { intros w v E%same_true Hl Hne. split; [by eapply letters_folded|]. by intros ->. }
    apply orb_prop in Hs as [[Hs|Hs]%orb_prop|Hs]; [|by apply (Hv _ "inf")|by apply (Hv _ "infinity")].
    destruct (Hv (to_bytes text) "nan") as [Hw Hne]; [done..|]. unfold drop_sign. destruct (to_bytes text) as [|c r]; [done|].
    destruct (sign_byte c) eqn:Ec; [|done]. cbn [forallb] in Hw. by rewrite (unsigned_letters c Ec) in Hw. }
  specialize (Hbody _ Hshape). destruct Hbody as [H1 H2]. unfold drop_sign in *. destruct (to_bytes text) as [|c r]; [by destruct Hshape as [[? _]|[_ ?]]|].
  destruct (sign_byte c) eqn:Ec; [|exact H1]. cbn [app] in *. by apply sign_token.
Qed.

(** *** Literals *)
Definition float_text (v : any) : Prop := match v with AFloat text _ => ParseFloat_ok text = true | _ => True end.
Definition word_of (s : string) : token := TWord (to_bytes s).
Definition literal_tokens (v : any) : list token :=
  match v with
  | ANil => [word_of "NULL"]
  | ABool b => [word_of (if b then "TRUE" else "FALSE")]
  | AString s => [TString (to_bytes s)]
  | ANumber text | AFloat text _ => number_tokens text
  | AArray _ | AObject _ => []
  end.

(** A literal the compiler writes is read back as the value it was written for,
    whatever the value: no byte of a string reaches the SQL around it. *)
Lemma emits_literal v text : float_text v -> sqlLiteral v = Ok text -> emits text (literal_tokens v).
Proof.
  intros Hf. destruct v as [| b | s | n | f enc | items | ms]; cbn [sqlLiteral literal_tokens]; [..|done|done].
  - intros <-%Ok_inj. by apply emits_word.
  - intros <-%Ok_inj. destruct b; by apply emits_word.
  - intros [_ <-%Ok_inj]%fail_if_bind_ok. apply emits_string.
  - intros [Hn <-%Ok_inj]%fail_if_bind_ok. apply emits_number. by apply negb_false_iff.
  - intros <-%Ok_inj. by apply emits_number.
Qed.
End SqlText.
