(* ===== verification/QueryPlan.v ===== *)
(** * Query plans: the single-product compiler

    [src/internal/queryplan/compiler.go].  A plan names a product, columns,
    aggregates, filters, groups, an order and a page; [Compile] checks it against
    the product the task was granted and writes one SQL statement. *)

From stdpp Require Import pretty.
From S2P Require Import Prelude GoBytes Ordering GoText GoJSON FactId SqlText.
Import GoText FactId SqlText.

Module QueryPlan.

(** ** Data *)
Record Product := MkProduct {
  pName : string;
  pColumns : gset string;
  pAllowedAggregates : gset string;
  pColumnTypes : gmap string string;
  pColumnCollations : gmap string string;
  pCollationVersions : gmap string string;
  pSourceNamespace : string;
  pSnapshot : string;
  pStableRole : string;
  pStableEntityKey : list string;
  pLineageDigest : string;
  pRequiredEvidence : list string;
  pSnapshotPublication : string;
  pSidecarManifestDigest : string }.

Record Aggregate := MkAggregate { agFunction : string; agColumn : string; agAlias : string }.
Record Filter := MkFilter { fiColumn : string; fiOp : string; fiValue : any }.
Record Order := MkOrder { orColumn : string; orDirection : string }.
Record JoinPredicate := MkJoinPredicate { jpLeft : string; jpRight : string }.
Record Scan := MkScan { scProduct : string; scRole : string; scFilters : list Filter }.
Record JoinPair := MkJoinPair { jnLeft : Scan; jnRight : Scan; jnOn : list JoinPredicate }.
Record JoinMany := MkJoinMany { jmSources : list Scan; jmOn : list JoinPredicate }.
Record UnionDistinct := MkUnionDistinct { uRole : string; uColumns : list string; uLeft : Scan; uRight : Scan }.
(** Exactly one member should be present; [countFromMembers] checks it. *)
Record From := MkFrom {
  fmScan : option Scan;
  fmJoin : option JoinPair;
  fmJoinMany : option JoinMany;
  fmUnionDistinct : option UnionDistinct }.
Record QueryPlan := MkQueryPlan {
  qProduct : string;
  qFrom : option From;
  qColumns : list string;
  qAggregates : list Aggregate;
  qFilters : list Filter;
  qGroupBy : list string;
  qOrderBy : list Order;
  qLimit : Z;
  qOffset : Z }.

Definition MaxRawPredicateLiterals : Z := 20000.

(** [strings.ToUpper]: ASCII letters, and the two other runes whose upper case
    is ASCII, U+0131 (to [I]) and U+017F (to [S]).  As with [LowerText], the
    result is compared with ASCII constants only. *)
Definition to_upper_byte (c : ascii) : ascii := if lower_letter c then byte_of (byte_val c - 32) else c.
Fixpoint upper_bytes (l : bytes) : bytes :=
  match l with
  | [] => []
  | a :: l1 =>
      match l1 with
      | b :: l2 =>
          if (byte_val a =? 196) && (byte_val b =? 177) then "I"%char :: upper_bytes l2
          else if (byte_val a =? 197) && (byte_val b =? 191) then "S"%char :: upper_bytes l2
          else to_upper_byte a :: upper_bytes l1
      | [] => to_upper_byte a :: upper_bytes l1
      end
  end.
Definition UpperText (s : string) : string := of_bytes (upper_bytes (to_bytes s)).

(** ** Checks *)
Definition allowedColumn (column : string) (product : Product) : result unit :=
  fail_if (negb (safeIdentifier column)) (ErrNew "invalid column %q") ≫= fun _ =>
  fail_if (negb (bool_decide (column ∈ pColumns product))) (ErrNew "column %q is not approved").

Definition comparisons : list string := ["="; "!="; "<>"; "<"; "<="; ">"; ">="].

(** The switch over a filter's operator, the same in [Compile] and in
    [compileFilterExpression] of relational.go; [column] is the quoted column. *)
Definition compileFilterExpression (column : string) (filter : Filter) : result string :=
  let op := UpperText (TrimSpace (fiOp filter)) in
  if bool_decide (op ∈ comparisons) then
    sqlLiteral (fiValue filter) ≫= fun literal => Ok (column +:+ " " +:+ op +:+ " " +:+ literal)
  else if same op "LIKE" then
    fail_if (match fiValue filter with AString _ => false | _ => true end) (ErrNew "LIKE requires a string literal") ≫= fun _ =>
    sqlLiteral (fiValue filter) ≫= fun literal => Ok (column +:+ " " +:+ op +:+ " " +:+ literal)
  else if same op "IN" || same op "NOT IN" then
    let values := match fiValue filter with AArray values => values | _ => [] end in
    fail_if ((Z.of_nat (length values) =? 0) || (MaxRawPredicateLiterals <? Z.of_nat (length values)))
      (ErrNew "IN requires a non-empty JSON array of at most %d values") ≫= fun _ =>
    fold_res (fun literals value => sqlLiteral value ≫= fun literal => Ok (literals ++ [literal])) [] values ≫= fun literals =>
    Ok (column +:+ " " +:+ op +:+ " (" +:+ Join literals ", " +:+ ")")
  else Err (ErrNew "filter operator %q is not allowed").

(** ** The loops of [Compile]

    [names] is the set of select names seen so far. *)
Definition compile_column (product : Product) (s : list string * list string) (column : string) : result (list string * list string) :=
  let '(names, selects) := s in
  allowedColumn column product ≫= fun _ =>
  fail_if (bool_decide (column ∈ names)) (ErrNew "duplicate select name %q") ≫= fun _ =>
  Ok (column :: names, selects ++ [quoteIdentifier column]).

Definition aggregate_argument (product : Product) (fn column : string) : result string :=
  if same column "*" then fail_if (negb (same fn "count")) (ErrNew "aggregate %q does not accept *") ≫= fun _ => Ok "*"
  else allowedColumn column product ≫= fun _ => Ok (quoteIdentifier column).

Definition compile_aggregate (product : Product) (s : list string * list string) (aggregate : Aggregate) : result (list string * list string) :=
  let '(names, selects) := s in
  let fn := LowerText (agFunction aggregate) in
  fail_if (negb (bool_decide (fn ∈ pAllowedAggregates product) && safeIdentifier fn)) (ErrNew "aggregate %q is not allowed") ≫= fun _ =>
  aggregate_argument product fn (agColumn aggregate) ≫= fun argument =>
  fail_if (negb (safeIdentifier (agAlias aggregate))) (ErrNew "aggregate alias is invalid") ≫= fun _ =>
  fail_if (bool_decide (agAlias aggregate ∈ names)) (ErrNew "duplicate select name %q") ≫= fun _ =>
  Ok (agAlias aggregate :: names, selects ++ [fn +:+ "(" +:+ argument +:+ ") AS " +:+ quoteIdentifier (agAlias aggregate)]).

Definition compile_filter (product : Product) (filters : list string) (filter : Filter) : result (list string) :=
  allowedColumn (fiColumn filter) product ≫= fun _ =>
  compileFilterExpression (quoteIdentifier (fiColumn filter)) filter ≫= fun expression => Ok (filters ++ [expression]).

Definition compile_group (product : Product) (s : list string * list string) (column : string) : result (list string * list string) :=
  let '(grouped, groups) := s in
  allowedColumn column product ≫= fun _ =>
  fail_if (bool_decide (column ∈ grouped)) (ErrNew "duplicate group column %q") ≫= fun _ =>
  Ok (column :: grouped, groups ++ [quoteIdentifier column]).

Definition order_direction (direction : string) : string :=
  let upper := UpperText direction in if same upper "" then "ASC" else upper.

Definition compile_order (names : list string) (s : list string * list string) (order : Order) : result (list string * list string) :=
  let '(ordered, orders) := s in
  fail_if (negb (bool_decide (orColumn order ∈ names))) (ErrNew "order column %q is not selected") ≫= fun _ =>
  fail_if (bool_decide (orColumn order ∈ ordered)) (ErrNew "duplicate order column %q") ≫= fun _ =>
  let direction := order_direction (orDirection order) in
  fail_if (negb (same direction "ASC") && negb (same direction "DESC")) (ErrNew "invalid order direction") ≫= fun _ =>
  Ok (orColumn order :: ordered, orders ++ [quoteIdentifier (orColumn order) +:+ " " +:+ direction]).

(** [b.WriteString(keyword); b.WriteString(strings.Join(parts, sep))] when there are parts. *)
Definition clause (keyword sep : string) (parts : list string) : string :=
  match parts with [] => "" | _ => keyword +:+ Join parts sep end.
Definition page_clause (keyword : string) (n : Z) : string := if 0 <? n then keyword +:+ format_int n else "".

Definition group_clause (plan : QueryPlan) (product : Product) : result string :=
  match qGroupBy plan with
  | [] => fail_if ((0 <? Z.of_nat (length (qAggregates plan))) && (0 <? Z.of_nat (length (qColumns plan))))
            (ErrNew "selected columns require group_by when aggregates are present") ≫= fun _ => Ok ""
  | _ =>
      fold_res (compile_group product) ([], []) (qGroupBy plan) ≫= fun '(grouped, groups) =>
      check_all (fun column => fail_if (negb (bool_decide (column ∈ grouped))) (ErrNew "selected column %q is not grouped")) (qColumns plan) ≫= fun _ =>
      Ok (clause " GROUP BY " ", " groups)
  end.

(** ** [Compile] *)
Definition Compile (plan : QueryPlan) (product : Product) : result string :=
  fail_if (match qFrom plan with Some _ => true | None => false end) (ErrNew "multi-product QueryPlan requires CompileRelational") ≫= fun _ =>
  fail_if (negb (same (qProduct plan) (pName product))) (ErrNew "query plan product is not approved") ≫= fun _ =>
  fail_if (negb (safeIdentifier (pName product))) (ErrNew "invalid product identifier") ≫= fun _ =>
  fail_if (Z.of_nat (length (qColumns plan)) + Z.of_nat (length (qAggregates plan)) =? 0) (ErrNew "empty select list") ≫= fun _ =>
  fail_if ((qLimit plan <? 0) || (qOffset plan <? 0)) (ErrNew "limit and offset cannot be negative") ≫= fun _ =>
  fold_res (compile_column product) ([], []) (qColumns plan) ≫= fun s =>
  fold_res (compile_aggregate product) s (qAggregates plan) ≫= fun '(names, selects) =>
  fold_res (compile_filter product) [] (qFilters plan) ≫= fun filters =>
  group_clause plan product ≫= fun groups =>
  fold_res (compile_order names) ([], []) (qOrderBy plan) ≫= fun '(_, orders) =>
  Ok ("SELECT " +:+ Join selects ", " +:+ " FROM " +:+ quoteIdentifier (pName product) +:+
      clause " WHERE " " AND " filters +:+ groups +:+ clause " ORDER BY " ", " orders +:+
      page_clause " LIMIT " (qLimit plan) +:+ page_clause " OFFSET " (qOffset plan)).

(** ** What a plan asks for

    A plan the compiler accepts, as a condition on the plan alone, and the
    statement it stands for, as tokens. *)
Definition direction_ok (d : string) : bool := same (order_direction d) "ASC" || same (order_direction d) "DESC".

Definition operator (filter : Filter) : string := UpperText (TrimSpace (fiOp filter)).
Definition literal_ok (v : any) : bool := is_ok (sqlLiteral v).
Definition filter_ok (filter : Filter) : bool :=
  if bool_decide (operator filter ∈ comparisons) then literal_ok (fiValue filter)
  else match fiValue filter with
       | AString _ => same (operator filter) "LIKE" && literal_ok (fiValue filter)
       | AArray values => (same (operator filter) "IN" || same (operator filter) "NOT IN") &&
                          (0 <? Z.of_nat (length values)) && (Z.of_nat (length values) <=? MaxRawPredicateLiterals) && forallb literal_ok values
       | _ => false
       end.

Definition approved (product : Product) (column : string) : Prop := safeIdentifier column = true /\ column ∈ pColumns product.

Record aggregate_ok (product : Product) (a : Aggregate) : Prop := {
  ao_function : LowerText (agFunction a) ∈ pAllowedAggregates product /\ safeIdentifier (LowerText (agFunction a)) = true;
  ao_argument : agColumn a = "*" /\ LowerText (agFunction a) = "count" \/ agColumn a <> "*" /\ approved product (agColumn a);
  ao_alias : safeIdentifier (agAlias a) = true }.

Definition select_names (plan : QueryPlan) : list string := qColumns plan ++ map agAlias (qAggregates plan).

Record plan_ok (plan : QueryPlan) (product : Product) : Prop := {
  po_from : qFrom plan = None;
  po_product : qProduct plan = pName product /\ safeIdentifier (pName product) = true;
  po_selects : select_names plan <> [];
  po_page : 0 <= qLimit plan /\ 0 <= qOffset plan;
  po_names : NoDup (select_names plan);
  po_columns : Forall (approved product) (qColumns plan);
  po_aggregates : Forall (aggregate_ok product) (qAggregates plan);
  po_filters : Forall (fun f => approved product (fiColumn f) /\ filter_ok f = true) (qFilters plan);
  po_groups : Forall (approved product) (qGroupBy plan) /\ NoDup (qGroupBy plan);
  po_grouped : match qGroupBy plan with
               | [] => qAggregates plan = [] \/ qColumns plan = []
               | _ => forall column, column ∈ qColumns plan -> column ∈ qGroupBy plan
               end;
  po_orders : Forall (fun o => orColumn o ∈ select_names plan /\ direction_ok (orDirection o) = true) (qOrderBy plan) /\
              NoDup (map orColumn (qOrderBy plan)) }.

Definition ident (s : string) : token := TIdent (to_bytes s).
Definition comma : token := TPunct ",".
Definition aggregate_tokens (a : Aggregate) : list token :=
  [word_of (LowerText (agFunction a)); TPunct "("; if same (agColumn a) "*" then TOp ["*"%char] else ident (agColumn a); TPunct ")";
   word_of "AS"; ident (agAlias a)].
Definition operator_tokens (op : string) : list token :=
  if same op "NOT IN" then [word_of "NOT"; word_of "IN"]
  else if same op "LIKE" || same op "IN" then [word_of op] else [TOp (to_bytes op)].
Definition value_tokens (v : any) : list token :=
  match v with
  | AArray values => [TPunct "("] ++ separated [comma] (map literal_tokens values) ++ [TPunct ")"]
  | _ => literal_tokens v
  end.
Definition filter_tokens (f : Filter) : list token := [ident (fiColumn f)] ++ operator_tokens (operator f) ++ value_tokens (fiValue f).
Definition order_tokens (o : Order) : list token := [ident (orColumn o); word_of (order_direction (orDirection o))].
Definition clause_tokens (keyword sep : list token) (parts : list (list token)) : list token :=
  match parts with [] => [] | _ => keyword ++ separated sep parts end.
Definition page_tokens (keyword : string) (n : Z) : list token := if 0 <? n then [word_of keyword; word_of (format_int n)] else [].

Definition plan_tokens (plan : QueryPlan) : list token :=
  [word_of "SELECT"] ++ separated [comma] (map (fun c => [ident c]) (qColumns plan) ++ map aggregate_tokens (qAggregates plan)) ++
  [word_of "FROM"; ident (qProduct plan)] ++
  clause_tokens [word_of "WHERE"] [word_of "AND"] (map filter_tokens (qFilters plan)) ++
  clause_tokens [word_of "GROUP"; word_of "BY"] [comma] (map (fun c => [ident c]) (qGroupBy plan)) ++
  clause_tokens [word_of "ORDER"; word_of "BY"] [comma] (map order_tokens (qOrderBy plan)) ++
  page_tokens "LIMIT" (qLimit plan) ++ page_tokens "OFFSET" (qOffset plan).

(** The [float64] values of a plan print as numbers. *)
Definition float_values (v : any) : Prop := match v with AArray values => Forall float_text values | _ => float_text v end.
Definition plan_floats (plan : QueryPlan) : Prop := Forall (fun f => float_values (fiValue f)) (qFilters plan).

(** ** Acceptance *)
Lemma allowedColumn_ok column product : allowedColumn column product = Ok tt <-> approved product column.
Proof. unfold allowedColumn, approved. rewrite fail_if_bind_ok, fail_if_ok. autorewrite with go_bool. naive_solver. Qed.

Lemma literals_exact values out : fold_res (fun literals value => sqlLiteral value ≫= fun literal => Ok (literals ++ [literal])) [] values = Ok out <->
  Forall2 (fun v l => sqlLiteral v = Ok l) values out.
Proof.
  rewrite fold_collect_map. split; [intros (ys & F & ->); by rewrite app_nil_l|]. intros F. by exists out.
Qed.

(** A loop over named items: each is checked and written by itself, and no name
    comes twice. *)
Lemma fold_named {A B} (key : A -> string) (P : A -> Prop) (g : A -> B) (step : list string * list B -> A -> result (list string * list B)) xs :
  (forall names outs x s', step (names, outs) x = Ok s' <-> P x /\ key x ∉ names /\ s' = (key x :: names, outs ++ [g x])) ->
  forall names outs s', fold_res step (names, outs) xs = Ok s' <->
    Forall P xs /\ NoDup (map key xs) /\ (forall x, x ∈ xs -> key x ∉ names) /\ s' = (rev (map key xs) ++ names, outs ++ map g xs).
Proof.
  intros Hstep. induction xs as [|x xs IH]; intros names outs s'; cbn [fold_res map rev].
  - rewrite app_nil_r. split; [intros <-%Ok_inj; split; [done|]; split; [constructor|]; split; [by intros x ?%elem_of_nil|done]|by intros (_ & _ & _ & ->)].
  - rewrite bind_ok, Forall_cons, NoDup_cons. split.
    + intros (s & (HP & Hn & ->)%Hstep & (F & Hnd & Hs & ->)%IH). split; [done|]. split; [|split].
      * split; [|done]. intros (z & Ez & Hz)%list_elem_of_fmap. apply (Hs z Hz). rewrite <- Ez. by left.
      * intros z [->|Hz]%elem_of_cons; [done|]. intros Hin. apply (Hs z Hz). by right.
      * by rewrite <- !app_assoc.
    + intros ((HP & F) & (Hnot & Hnd) & Hs & ->).
      exists (key x :: names, outs ++ [g x]). split; [apply Hstep; split; [done|]; split; [apply Hs; by left|done]|].
      apply IH. split; [done|]. split; [done|]. split; [|by rewrite <- !app_assoc].
      intros z Hz [Ez|Hin]%elem_of_cons; [|by apply (Hs z); [right|]]. apply Hnot. rewrite <- Ez. by apply list_elem_of_fmap_2.
Qed.

Lemma names_rev {A} (key : A -> string) xs names x : x ∈ rev (map key xs) ++ names <-> x ∈ map key xs \/ x ∈ names.
Proof. rewrite elem_of_app, !list_elem_of_In, <- in_rev. done. Qed.

(** *** What each loop accepts and writes *)
Lemma columns_exact product xs names selects s' :
  fold_res (compile_column product) (names, selects) xs = Ok s' <->
  Forall (approved product) xs /\ NoDup (map id xs) /\ (forall x, x ∈ xs -> x ∉ names) /\ s' = (rev (map id xs) ++ names, selects ++ map quoteIdentifier xs).
Proof.
  apply (fold_named id). clear. intros names outs x s'. cbn [compile_column id]. rewrite seq_ok, allowedColumn_ok, fail_if_bind_ok, bool_decide_eq_false.
  naive_solver.
Qed.

Definition aggregate_text (a : Aggregate) : string :=
  LowerText (agFunction a) +:+ "(" +:+ (if same (agColumn a) "*" then "*" else quoteIdentifier (agColumn a)) +:+ ") AS " +:+ quoteIdentifier (agAlias a).

Lemma aggregate_argument_ok product fn column argument : aggregate_argument product fn column = Ok argument <->
  (column = "*" /\ fn = "count" \/ column <> "*" /\ approved product column) /\ argument = if same column "*" then "*" else quoteIdentifier column.
Proof.
  unfold aggregate_argument, same. destruct (decide (column = "*")) as [->|Hne].
  - rewrite bool_decide_eq_true_2 by done. rewrite fail_if_bind_ok, negb_false_iff, bool_decide_eq_true. naive_solver.
  - rewrite bool_decide_eq_false_2 by done. rewrite seq_ok, allowedColumn_ok. naive_solver.
Qed.

Lemma aggregates_exact product xs names selects s' :
  fold_res (compile_aggregate product) (names, selects) xs = Ok s' <->
  Forall (aggregate_ok product) xs /\ NoDup (map agAlias xs) /\ (forall x, x ∈ xs -> agAlias x ∉ names) /\
  s' = (rev (map agAlias xs) ++ names, selects ++ map aggregate_text xs).
Proof.
  apply (fold_named agAlias). clear. intros names outs x s'. cbn [compile_aggregate].
  rewrite fail_if_bind_ok, bind_ok, negb_false_iff, andb_true_iff, bool_decide_eq_true. split.
  - intros ([H1 H2] & argument & [Harg ->]%aggregate_argument_ok & H). rewrite !fail_if_bind_ok, negb_false_iff, bool_decide_eq_false in H.
    destruct H as (H3 & H4 & <-%Ok_inj). split; [by split|done].
  - intros ([[H1 H2] Harg H3] & Hn & ->). split; [done|]. eexists. split; [by apply aggregate_argument_ok|].
    rewrite !fail_if_bind_ok, negb_false_iff, bool_decide_eq_false. done.
Qed.

Lemma groups_exact product xs s' :
  fold_res (compile_group product) ([], []) xs = Ok s' <->
  Forall (approved product) xs /\ NoDup (map id xs) /\ (forall x, x ∈ xs -> x ∉ []) /\ s' = (rev (map id xs) ++ [], [] ++ map quoteIdentifier xs).
Proof.
  apply (fold_named id). clear. intros names outs x s'. cbn [compile_group id]. rewrite seq_ok, allowedColumn_ok, fail_if_bind_ok, bool_decide_eq_false.
  naive_solver.
Qed.

Definition order_text (o : Order) : string := quoteIdentifier (orColumn o) +:+ " " +:+ order_direction (orDirection o).

Lemma orders_exact names xs s' :
  fold_res (compile_order names) ([], []) xs = Ok s' <->
  Forall (fun o => orColumn o ∈ names /\ direction_ok (orDirection o) = true) xs /\ NoDup (map orColumn xs) /\
  (forall x, x ∈ xs -> orColumn x ∉ []) /\ s' = (rev (map orColumn xs) ++ [], [] ++ map order_text xs).
Proof.
  apply (fold_named orColumn). clear. intros ordered outs x s'. cbn [compile_order].
  rewrite !fail_if_bind_ok, negb_false_iff, bool_decide_eq_true, bool_decide_eq_false, <- negb_orb, negb_false_iff. unfold direction_ok.
  naive_solver.
Qed.

(** *** Filters *)
Lemma literals_ok values : is_ok (fold_res (fun literals value => sqlLiteral value ≫= fun literal => Ok (literals ++ [literal])) [] values) = forallb literal_ok values.
Proof.
  assert (G : forall acc, is_ok (fold_res (fun literals value => sqlLiteral value ≫= fun literal => Ok (literals ++ [literal])) acc values) = forallb literal_ok values);
    [|apply G].
  induction values as [|v values IH]; intros acc; [done|]. cbn [fold_res forallb]. unfold literal_ok at 1. destruct (sqlLiteral v) as [l|e]; [apply IH|done].
Qed.

Lemma filter_accepted column f : is_ok (compileFilterExpression column f) = filter_ok f.
Proof.
  unfold compileFilterExpression, filter_ok, operator. cbv zeta. destruct (bool_decide (_ ∈ comparisons)).
  { unfold literal_ok. by destruct (sqlLiteral (fiValue f)). }
  destruct (same _ "LIKE") eqn:El.
  - apply same_true in El. rewrite El. destruct (fiValue f) as [| | s | | | values |] eqn:Ev; [done..| |done|done|done|done].
    cbn [fail_if mbind result_bind]. unfold literal_ok. by destruct (sqlLiteral (AString s)).
  - destruct (same _ "IN" || same _ "NOT IN") eqn:Ei; [|by destruct (fiValue f)].
    destruct (fiValue f) as [| | s | | | values |]; [done..| |done]. cbn [andb]. set (n := Z.of_nat (length values)) in *. pose proof (literals_ok values) as Hl.
    destruct (0 <? n) eqn:E1, (n <=? MaxRawPredicateLiterals) eqn:E2; cbn [andb]; rewrite ?andb_false_r.
    + replace ((n =? 0) || (MaxRawPredicateLiterals <? n)) with false by lia. cbn [fail_if mbind result_bind].
      rewrite <- Hl. by destruct (fold_res _ [] values).
    + replace (MaxRawPredicateLiterals <? n) with true by lia. by rewrite orb_true_r.
    + replace (n =? 0) with true by lia. done.
    + replace (n =? 0) with true by lia. done.
Qed.

Lemma filters_exact product xs out : fold_res (compile_filter product) [] xs = Ok out <->
  Forall (fun f => approved product (fiColumn f)) xs /\ Forall2 (fun f t => compileFilterExpression (quoteIdentifier (fiColumn f)) f = Ok t) xs out.
Proof.
  assert (G : forall acc, fold_res (compile_filter product) acc xs = Ok out <->
    Forall (fun f => approved product (fiColumn f)) xs /\ exists ys, Forall2 (fun f t => compileFilterExpression (quoteIdentifier (fiColumn f)) f = Ok t) xs ys /\ out = acc ++ ys).
  { induction xs as [|x xs IH]; intros acc; cbn [fold_res].
    - split; [intros <-%Ok_inj; split; [done|]; exists []; by rewrite app_nil_r|]. intros (_ & ys & F & ->). inversion F; subst. by rewrite app_nil_r.
    - unfold compile_filter at 2. rewrite bind_ok, Forall_cons. split.
      + intros (s & (Ha%allowedColumn_ok & (t & Ht & <-%Ok_inj)%bind_ok)%seq_ok & (HF & ys & F & ->)%IH). split; [done|]. exists (t :: ys).
        split; [by constructor|by rewrite <- app_assoc].
      + intros ((Ha & HF) & ys & F & ->). inversion F as [|? t ? ys' Ht F']; subst. exists (acc ++ [t]). split.
        * apply seq_ok. split; [by apply allowedColumn_ok|]. by rewrite Ht.
        * apply IH. split; [done|]. exists ys'. split; [done|by rewrite <- app_assoc]. }
  rewrite G. split; [intros (H1 & ys & H2 & ->); done|]. intros [H1 H2]. split; [done|]. by exists out.
Qed.

Lemma group_clause_ok plan product text : group_clause plan product = Ok text <->
  ((Forall (approved product) (qGroupBy plan) /\ NoDup (qGroupBy plan)) /\
   match qGroupBy plan with
   | [] => qAggregates plan = [] \/ qColumns plan = []
   | _ => forall column, column ∈ qColumns plan -> column ∈ qGroupBy plan
   end) /\ text = clause " GROUP BY " ", " (map quoteIdentifier (qGroupBy plan)).
Proof.
  unfold group_clause. destruct (qGroupBy plan) as [|g groups].
  - rewrite fail_if_bind_ok, andb_false_iff. assert (E : forall {A} (l : list A), (0 <? Z.of_nat (length l)) = false <-> l = []).
    { intros A l. by destruct l. }
    rewrite !E. split; [intros [H <-%Ok_inj]; split; [|done]; split; [|done]; split; [done|constructor]|by intros [[_ H] ->]].
  - set (xs := g :: groups). rewrite bind_ok. split.
    + intros ([grouped outs] & (Ha & Hnd & _ & [= -> ->])%groups_exact & H). rewrite map_id in Hnd. apply seq_ok in H as [Hc <-%Ok_inj].
      split; [|done]. split; [done|]. apply check_all_ok in Hc. rewrite Forall_forall in Hc. intros column Hcol. apply Hc in Hcol.
      apply fail_if_ok, negb_false_iff, bool_decide_eq_true, (names_rev id xs []) in Hcol as [Hin|Hin]; [|by apply elem_of_nil in Hin]. by rewrite map_id in Hin.
    + intros [[[Ha Hnd] Hc] ->]. eexists. split; [apply groups_exact; rewrite map_id; split; [done|]; split; [done|]; split; [by intros x _ ?%elem_of_nil|done]|].
      cbn beta iota. apply seq_ok. split; [|done]. apply check_all_ok, Forall_forall. intros column Hcol.
      apply fail_if_ok, negb_false_iff, bool_decide_eq_true, elem_of_app. left. rewrite list_elem_of_In, <- in_rev, <- list_elem_of_In. by apply Hc.
Qed.

(** *** [Compile] *)
Definition statement (plan : QueryPlan) (filters : list string) : string :=
  "SELECT " +:+ Join (map quoteIdentifier (qColumns plan) ++ map aggregate_text (qAggregates plan)) ", " +:+ " FROM " +:+ quoteIdentifier (qProduct plan) +:+
  clause " WHERE " " AND " filters +:+ clause " GROUP BY " ", " (map quoteIdentifier (qGroupBy plan)) +:+
  clause " ORDER BY " ", " (map order_text (qOrderBy plan)) +:+ page_clause " LIMIT " (qLimit plan) +:+ page_clause " OFFSET " (qOffset plan).

Definition filter_texts (plan : QueryPlan) (texts : list string) : Prop :=
  Forall2 (fun f t => compileFilterExpression (quoteIdentifier (fiColumn f)) f = Ok t) (qFilters plan) texts.

Lemma filter_texts_exist plan product : Forall (fun f => approved product (fiColumn f) /\ filter_ok f = true) (qFilters plan) <->
  Forall (fun f => approved product (fiColumn f)) (qFilters plan) /\ exists texts, filter_texts plan texts.
Proof.
  unfold filter_texts. induction (qFilters plan) as [|f fs IH]; [split; [split; [done|]; by exists []|done]|].
  rewrite !Forall_cons, IH, <- (filter_accepted (quoteIdentifier (fiColumn f)) f). split.
  - intros ((Ha & Hf) & HF & texts & F). split; [done|]. destruct (compileFilterExpression _ f) as [t|] eqn:E; [|done]. exists (t :: texts). by constructor.
  - intros ((Ha & HF) & texts & F). inversion F as [|? t ? ts Ht F']; subst. rewrite Ht. split; [done|]. split; [done|]. by exists ts.
Qed.

Lemma compile_text plan product text : Compile plan product = Ok text <->
  plan_ok plan product /\ exists filters, filter_texts plan filters /\ text = statement plan filters.
Proof.
  unfold Compile. rewrite !fail_if_bind_ok. assert (En : (Z.of_nat (length (qColumns plan)) + Z.of_nat (length (qAggregates plan)) =? 0) = false <-> select_names plan <> []).
  { unfold select_names. destruct (qColumns plan), (qAggregates plan); cbn; split; (done || lia). }
  rewrite En. clear En. rewrite !bind_ok. split.
  - intros (Hf & Hp & Hs & Hne & Hpage & s & Hcols & H). apply columns_exact in Hcols as (Hc1 & Hc2 & _ & ->). rewrite map_id, app_nil_r in *.
    apply bind_ok in H as ([names selects] & Haggs & H). apply aggregates_exact in Haggs as (Ha1 & Ha2 & Ha3 & [= -> ->]).
    apply bind_ok in H as (filters & [Hf1 Hf2]%filters_exact & H). apply bind_ok in H as (groups & [[Hg1 Hg2] ->]%group_clause_ok & H).
    apply bind_ok in H as ([ordered orders] & (Ho1 & Ho2 & _ & [= -> ->])%orders_exact & <-%Ok_inj).
    apply negb_false_iff, same_true in Hp. apply negb_false_iff in Hs. apply orb_false_iff in Hpage as [Hl Ho].
    assert (Hnames : forall x, x ∈ rev (map agAlias (qAggregates plan)) ++ rev (qColumns plan) <-> x ∈ select_names plan).
    { intros x. unfold select_names. rewrite !elem_of_app, !list_elem_of_In, <- !in_rev. tauto. }
    split; [|exists filters; split; [done|by unfold statement; rewrite Hp]]. split; [by destruct (qFrom plan)|done|done|lia| |done|done| |done|done|].
    + unfold select_names. apply NoDup_app. split; [done|]. split; [|done]. intros x Hx (a & -> & Hin)%list_elem_of_fmap.
      apply (Ha3 a Hin). rewrite list_elem_of_In, <- in_rev. by apply list_elem_of_In.
    + apply filter_texts_exist. split; [done|]. by exists filters.
    + split; [|done]. eapply Forall_impl; [exact Ho1|]. intros o [Hin Hd]. split; [by apply Hnames|done].
  - intros ([Hfr [Hp Hs] Hne Hpage Hnd Hc Ha Hfl Hg Hgr [Ho Hod]] & filters & Hft & ->). rewrite Hfr, Hs, <- Hp. cbn [negb]. unfold same.
    rewrite bool_decide_eq_true_2 by done. cbn [negb]. split; [done|]. split; [done|]. split; [done|]. split; [done|]. split; [lia|].
    unfold select_names in Hnd. apply NoDup_app in Hnd as (Hn1 & Hn12 & Hn2). eexists. split.
    { apply columns_exact. rewrite map_id. split; [done|]. split; [done|]. split; [by intros x _ ?%elem_of_nil|done]. }
    apply bind_ok. eexists. split.
    { apply aggregates_exact. split; [done|]. split; [done|]. split; [|done]. intros a Hin [Hx|Hx]%elem_of_app; [|by apply elem_of_nil in Hx].
      rewrite list_elem_of_In, <- in_rev, <- list_elem_of_In in Hx. apply (Hn12 _ Hx). by apply list_elem_of_fmap_2. }
    cbn beta iota. apply bind_ok. exists filters. split; [apply filters_exact; split; [|done]; by apply filter_texts_exist in Hfl as [? _]|].
    apply bind_ok. eexists. split; [by apply group_clause_ok|]. apply bind_ok. eexists. split.
    { apply orders_exact. split; [|split; [done|split; [by intros x _ ?%elem_of_nil|done]]]. eapply Forall_impl; [exact Ho|]. intros o [Hin Hd]. split; [|done].
      unfold select_names in Hin. rewrite !elem_of_app, !list_elem_of_In, <- !in_rev, <- !list_elem_of_In. apply elem_of_app in Hin as [?|?]; auto. }
    done.
Qed.

(** ** The statement means the plan *)
(** Keywords and punctuation end in a blank or a parenthesis. *)
Ltac glue :=
  split; [cbn; tauto|split; [done|]]; intros ? ? HL; cbn [to_bytes String.list_ascii_of_string app];
  repeat first [apply lexes_space | eapply lexes_token; [reflexivity|reflexivity|]]; exact HL.

Lemma glue_comma : glues ", " [comma].
Proof. glue. Qed.
Lemma glue_and : glues " AND " [word_of "AND"].
Proof. glue. Qed.

(** A fixed word or operator. *)
Ltac emit :=
  let rest := fresh "rest" in let ts := fresh "ts" in let Hr := fresh "Hr" in let HL := fresh "HL" in
  intros rest ts Hr HL; destruct rest as [|? ?]; [|destruct Hr as [->|[->|[->| ->]]]];
  cbn [to_bytes String.list_ascii_of_string app];
  repeat first [apply lexes_space; exact HL | exact HL | eapply lexes_token; [reflexivity|reflexivity|exact HL]].

(** [s] may follow anything and adds the tokens [ts]. *)
Definition tails (s : string) (ts : list token) : Prop := forall a ats, emits a ats -> emits (a +:+ s) (ats ++ ts).

Lemma string_app_assoc (a b c : string) : (a +:+ b) +:+ c = a +:+ (b +:+ c).
Proof. apply to_bytes_inj. by rewrite !to_bytes_app, app_assoc. Qed.
Lemma string_app_nil (a : string) : a +:+ "" = a.
Proof. apply to_bytes_inj. rewrite to_bytes_app. apply app_nil_r. Qed.

Lemma tails_nil : tails "" [].
Proof. intros a ats Ha. by rewrite string_app_nil, app_nil_r. Qed.
Lemma tails_app s ts s' ts' : tails s ts -> tails s' ts' -> tails (s +:+ s') (ts ++ ts').
Proof. intros H1 H2 a ats Ha. rewrite <- string_app_assoc, app_assoc. by apply H2, H1. Qed.
Lemma tails_glue g gs s ts : glues g gs -> emits s ts -> tails (g +:+ s) (gs ++ ts).
Proof. intros Hg Hs a ats Ha. by apply emits_glue. Qed.
Lemma tails_close s ts : glues s ts -> tails s ts.
Proof.
  intros (Hb & Hne & Hg) a ats Ha rest tsr Hr HL. rewrite to_bytes_app, <- !app_assoc. apply Ha; [by destruct s|by apply Hg].
Qed.

Lemma tails_clause keyword gs sep tsep parts tss : glues keyword gs -> glues sep tsep -> Forall2 emits parts tss ->
  tails (clause keyword sep parts) (clause_tokens gs tsep tss).
Proof.
  intros Hk Hs F. destruct F as [|s ts parts tss Hs' F]; [apply tails_nil|]. apply tails_glue; [done|]. apply emits_join; [done|by constructor].
Qed.

Lemma format_int_digits n : 0 <= n -> forallb digit (to_bytes (format_int n)) = true /\ format_int n <> "".
Proof. exact (GoJSON.decimal_int n). Qed.

Lemma number_word n : 0 <= n -> emits (format_int n) [word_of (format_int n)].
Proof.
  intros Hn rest tsr Hr HL. destruct (format_int_digits n Hn) as [Hd Hne]. unfold word_of. cbn [app].
  assert (Hw : forall marked, wordish marked (to_bytes (format_int n)) = true).
  { intros marked. rewrite <- (app_nil_r (to_bytes _)). apply wordish_app; [|done]. apply forallb_forall. intros c Hc. rewrite forallb_forall in Hd.
    unfold word_byte. by rewrite (Hd c Hc), orb_true_r. }
  apply lexes_number; [|done..]. destruct (format_int n) as [|c s]; [done|]. cbn [to_bytes] in *.
  change (digit c && forallb digit (to_bytes s) = true) in Hd. apply andb_prop in Hd as [Hc _]. change (digit c || (Ascii.eqb c "." && match to_bytes s with d :: _ => digit d | [] => false end) = true). by rewrite Hc.
Qed.

Lemma tails_page keyword k n : glues keyword [word_of k] -> tails (page_clause keyword n) (page_tokens k n).
Proof.
  intros Hk. unfold page_clause, page_tokens. destruct (0 <? n) eqn:E; [|apply tails_nil].
  change ([word_of k; word_of (format_int n)]) with ([word_of k] ++ [word_of (format_int n)]). apply tails_glue; [done|]. apply number_word. lia.
Qed.

Lemma emits_filter column cts f text : emits column cts -> float_values (fiValue f) -> compileFilterExpression column f = Ok text ->
  emits text (cts ++ operator_tokens (operator f) ++ value_tokens (fiValue f)).
Proof.
  intros Hc Hf. assert (Hop : forall op literal, emits op (operator_tokens op) -> sqlLiteral (fiValue f) = Ok literal ->
    emits (column +:+ " " +:+ op +:+ " " +:+ literal) (cts ++ operator_tokens op ++ value_tokens (fiValue f))).
  { intros op literal Hop Hl. assert (Hv : emits literal (value_tokens (fiValue f))).
    { destruct (fiValue f); (done || by apply emits_literal). }
    change (cts ++ operator_tokens op ++ value_tokens (fiValue f)) with (cts ++ ([] ++ operator_tokens op) ++ value_tokens (fiValue f)).
    assert (Hg : glues " " []) by glue.
    apply (tails_app (" " +:+ op) ([] ++ operator_tokens op) (" " +:+ literal) ([] ++ value_tokens (fiValue f))); [..|done]; by apply tails_glue. }
  unfold compileFilterExpression. fold (operator f). cbv zeta. destruct (bool_decide (operator f ∈ comparisons)) eqn:Eo.
  { apply bool_decide_eq_true in Eo. intros (l & Hl & <-%Ok_inj)%bind_ok. apply Hop; [|done]. clear -Eo. revert Eo. generalize (operator f). intros op Hop.
    repeat (apply elem_of_cons in Hop as [->|Hop]; [emit|]). by apply elem_of_nil in Hop. }
  destruct (same (operator f) "LIKE") eqn:El.
  { apply same_true in El. rewrite fail_if_bind_ok. intros [_ (l & Hl & <-%Ok_inj)%bind_ok]. apply Hop; [|done]. rewrite El. emit. }
  destruct (same (operator f) "IN" || same (operator f) "NOT IN") eqn:Ei; [|done]. rewrite fail_if_bind_ok.
  intros [Hn (literals & F%literals_exact & <-%Ok_inj)%bind_ok]. destruct (fiValue f) as [| | | | | values |]; try done. cbn [float_values value_tokens] in *.
  assert (Hlits : Forall2 emits literals (map literal_tokens values)).
  { clear -F Hf. induction F as [|v l values literals Hl F IH]; [constructor|]. apply Forall_cons in Hf as [Hv Hf]. cbn [map]. constructor; [|by apply IH].
    by apply emits_literal. }
  assert (Hg : glues (" " +:+ operator f +:+ " (") (operator_tokens (operator f) ++ [TPunct "("])).
  { apply orb_prop in Ei as [->%same_true| ->%same_true]; [change (glues " IN (" [word_of "IN"; TPunct "("])|change (glues " NOT IN (" [word_of "NOT"; word_of "IN"; TPunct "("])]; glue. }
  pose proof (emits_join _ _ _ _ glue_comma Hlits) as Hj. assert (Hclose : glues ")" [TPunct ")"]) by glue.
  pose proof (tails_app _ _ _ _ (tails_glue _ _ _ _ Hg Hj) (tails_close _ _ Hclose) column cts Hc) as He.
  rewrite !string_app_assoc, <- !app_assoc in He. exact He.
Qed.

Lemma emits_aggregate product a : aggregate_ok product a -> emits (aggregate_text a) (aggregate_tokens a).
Proof.
  intros [[_ Hfn] Harg Hal]. unfold aggregate_text, aggregate_tokens. set (fn := LowerText (agFunction a)) in *.
  set (argument := if same (agColumn a) "*" then "*" else quoteIdentifier (agColumn a)).
  set (t := if same (agColumn a) "*" then TOp ["*"%char] else ident (agColumn a)).
  assert (Ha : emits argument [t]).
  { unfold argument, t, same. destruct (bool_decide (agColumn a = "*")) eqn:E; [emit|]. apply bool_decide_eq_false in E.
    destruct Harg as [[? _]|[_ [Hs _]]]; [done|]. by apply emits_safe. }
  assert (Ho : glues "(" [TPunct "("]) by glue. assert (Hc : glues ") AS " [TPunct ")"; word_of "AS"]) by glue.
  pose proof (tails_app _ _ _ _ (tails_glue _ _ _ _ Ho Ha) (tails_glue _ _ _ _ Hc (emits_safe _ Hal)) fn _ (safe_word fn Hfn)) as He.
  rewrite !string_app_assoc in He. exact He.
Qed.

Lemma emits_order o : safeIdentifier (orColumn o) = true -> direction_ok (orDirection o) = true -> emits (order_text o) (order_tokens o).
Proof.
  intros Hs Hd. assert (Hg : glues " " []) by glue. assert (Hw : emits (order_direction (orDirection o)) [word_of (order_direction (orDirection o))]).
  { apply orb_prop in Hd as [->%same_true| ->%same_true]; emit. }
  exact (tails_glue _ _ _ _ Hg Hw _ _ (emits_safe _ Hs)).
Qed.

(** A statement is read back, token by token, as what the plan asks for. *)
Lemma emits_statement plan product filters : plan_floats plan -> plan_ok plan product -> filter_texts plan filters ->
  emits (statement plan filters) (plan_tokens plan).
Proof.
  intros Hfl [_ [Hp Hs] Hne _ _ Hc Ha Hfi [Hg _] _ [Ho _]] Hft. rewrite <- Hp in Hs.
  assert (Hsel : Forall2 emits (map quoteIdentifier (qColumns plan) ++ map aggregate_text (qAggregates plan))
      (map (fun c => [ident c]) (qColumns plan) ++ map aggregate_tokens (qAggregates plan))).
  { apply Forall2_app.
    - clear -Hc. induction Hc as [|c cs [Hs _] Hc IH]; cbn; constructor; [by apply emits_safe|done].
    - clear -Ha. induction Ha as [|a l Hok Ha IH]; cbn; constructor; [by eapply emits_aggregate|done]. }
  assert (Hgs : Forall2 emits (map quoteIdentifier (qGroupBy plan)) (map (fun c => [ident c]) (qGroupBy plan))).
  { clear -Hg. induction Hg as [|c cs [Hs _] Hg IH]; cbn; constructor; [by apply emits_safe|done]. }
  assert (Hfs : Forall2 emits filters (map filter_tokens (qFilters plan))).
  { unfold filter_texts in Hft. unfold plan_floats in Hfl. clear -Hft Hfi Hfl. induction Hft as [|f t fs ts Ht F IH]; cbn [map]; constructor.
    - apply Forall_cons in Hfi as [[[Hs _] _] _]. apply Forall_cons in Hfl as [Hv _]. eapply (emits_filter _ _ f t (emits_safe _ Hs)) in Ht; [exact Ht|done].
    - apply Forall_cons in Hfi as [_ Hfi]. apply Forall_cons in Hfl as [_ Hfl]. by apply IH. }
  assert (Hnames : Forall (fun n => safeIdentifier n = true) (select_names plan)).
  { apply Forall_app. split; [by eapply Forall_impl; [exact Hc|intros c [? _]]|]. apply Forall_map. eapply Forall_impl; [exact Ha|]. by intros a [_ _ ?]. }
  assert (Hos : Forall2 emits (map order_text (qOrderBy plan)) (map order_tokens (qOrderBy plan))).
  { clear -Ho Hnames. induction Ho as [|o os [Hin Hd] Ho IH]; cbn; constructor; [|done]. apply emits_order; [|done]. rewrite Forall_forall in Hnames. by apply Hnames. }
  assert (Hselect : emits "SELECT" [word_of "SELECT"]) by emit. assert (Hsp : glues " " []) by glue.
  assert (Hfrom : glues " FROM " [word_of "FROM"]) by glue. assert (Hwhere : glues " WHERE " [word_of "WHERE"]) by glue.
  assert (Hgroup : glues " GROUP BY " [word_of "GROUP"; word_of "BY"]) by glue. assert (Horder : glues " ORDER BY " [word_of "ORDER"; word_of "BY"]) by glue.
  assert (Hlimit : glues " LIMIT " [word_of "LIMIT"]) by glue. assert (Hoffset : glues " OFFSET " [word_of "OFFSET"]) by glue.
  pose proof (tails_app _ _ _ _ (tails_glue _ _ _ _ Hsp (emits_join _ _ _ _ glue_comma Hsel))
    (tails_app _ _ _ _ (tails_glue _ _ _ _ Hfrom (emits_safe _ Hs))
    (tails_app _ _ _ _ (tails_clause _ _ _ _ _ _ Hwhere glue_and Hfs)
    (tails_app _ _ _ _ (tails_clause _ _ _ _ _ _ Hgroup glue_comma Hgs)
    (tails_app _ _ _ _ (tails_clause _ _ _ _ _ _ Horder glue_comma Hos)
    (tails_app _ _ _ _ (tails_page _ _ (qLimit plan) Hlimit) (tails_page _ _ (qOffset plan) Hoffset)))))) _ _ Hselect) as He.
  rewrite !string_app_assoc in He. exact He.
Qed.

(** C36: [Compile] accepts exactly the plans that name the granted product, only
    approved columns and aggregates under distinct safe names, well-formed
    filters, groups that cover the selected columns, an order over selected names
    and a page of non-negative bounds. *)
Theorem compile_exact plan product : (exists text, Compile plan product = Ok text) <-> plan_ok plan product.
Proof.
  split; [intros [text [Hok _]%compile_text]; done|]. intros Hok. pose proof Hok as [_ _ _ _ _ _ _ Hf _ _ _]. apply filter_texts_exist in Hf as [_ [texts Ht]].
  exists (statement plan texts). apply compile_text. eauto.
Qed.

(** C35: The SQL of an accepted plan, read back token by token, is the statement
    the plan asks for and nothing else: identifiers and literals stay single
    tokens whatever bytes a string literal holds, so no value can change the shape
    of the query. *)
Theorem compile_tokens plan product text : plan_floats plan -> Compile plan product = Ok text -> tokens_of text = Some (plan_tokens plan).
Proof.
  intros Hf [Hok (filters & Hft & ->)]%compile_text. apply emits_tokens. by eapply emits_statement.
Qed.
End QueryPlan.
