(* ===== verification/CanonicalPlan.v ===== *)
(** * Canonical relational plans

    [CanonicalizeRelational] of [src/internal/queryplan/relational.go]: the
    two-source spelling of a join becomes the flat one, sources are ordered by
    their Catalog identity, equalities and filters by their text.  The theorem
    is that the order and the spelling in which a plan states them is lost, of a
    plan without ties.  [strings.ToUpper] of an operator leaves letters beyond
    ASCII alone ([UpperText]); the compiler refuses such operators. *)

From S2P Require Import Prelude GoBytes Ordering GoText FactId SqlText QueryPlan.
Import GoText FactId SqlText QueryPlan.

Module CanonicalPlan.

(** ** [encoding/json] on the values of a filter

    The text [canonicalJSON] returns: the value encoded, decoded with
    [UseNumber] and encoded again.  A string that is not UTF-8 comes back with
    replacement characters; the empty [json.Number] as [0]. *)
Fixpoint scrub (fuel : nat) (l : bytes) : bytes :=
  match l, fuel with
  | [], _ => []
  | _, O => []
  | _ :: rest, S fuel' =>
      match rune_size l with
      | Some n => take n l ++ scrub fuel' (drop n l)
      | None => map byte_of [239; 191; 189] ++ scrub fuel' rest
      end
  end.

(** The grammar of a JSON number. *)
Fixpoint skip_digits (l : bytes) : bytes := match l with c :: r => if digit c then skip_digits r else l | [] => [] end.
Definition digits1 (l : bytes) : option bytes := match l with c :: r => if digit c then Some (skip_digits r) else None | [] => None end.
Definition exponent_tail (l : bytes) : option bytes :=
  match l with
  | c :: r => if exponent_mark c && negb (Ascii.eqb (to_lower_byte c) "p") then digits1 (drop_sign r) else Some l
  | [] => Some []
  end.
Definition fraction_tail (l : bytes) : option bytes :=
  match l with c :: r => if Ascii.eqb c "." then digits1 r else Some l | [] => Some [] end.
Definition isValidNumber (l : bytes) : bool :=
  let unsigned := match l with c :: r => if Ascii.eqb c "-" then r else l | [] => [] end in
  let integer := match unsigned with
                 | c :: r => if Ascii.eqb c "0" then Some r else if digit c then Some (skip_digits r) else None
                 | [] => None end in
  let tail := (r ← integer; r ← fraction_tail r; exponent_tail r) in
  match tail with Some [] => true | _ => false end.

Definition json_error : goerror := ErrNew "json: unsupported value".
Fixpoint canonicalJSON (v : any) : result bytes :=
  match v with
  | ANil => Ok (to_bytes "null")
  | ABool b => Ok (to_bytes (if b then "true" else "false"))
  | AString s => Ok (json_string (of_bytes (scrub (String.length s) (to_bytes s))))
  | ANumber text => if same text "" then Ok (to_bytes "0") else if isValidNumber (to_bytes text) then Ok (to_bytes text) else Err json_error
  | AFloat _ encoded => match encoded with Some b => Ok b | None => Err json_error end
  | AArray items =>
      (fix go items := match items with [] => Ok [] | i :: rest => canonicalJSON i ≫= fun b => go rest ≫= fun bs => Ok (b :: bs) end) items
      ≫= fun encoded => Ok (json_array encoded)
  | AObject canonical => Ok canonical
  end.

(** ** Field identities *)
Definition HasPrefix (s prefix : string) : bool := String.prefix prefix s.
Definition safeRole (role : string) : bool := safeIdentifier role && negb (HasPrefix role "tg_").

Fixpoint split_byte (sep : ascii) (l : bytes) : list bytes :=
  match l with
  | [] => [[]]
  | c :: r => if Ascii.eqb c sep then [] :: split_byte sep r
              else match split_byte sep r with p :: ps => (c :: p) :: ps | [] => [[c]] end
  end.
Definition splitFieldID (id : string) : option (string * string) :=
  match map of_bytes (split_byte "." (to_bytes id)) with
  | [role; column] => if safeRole role && safeIdentifier column then Some (role, column) else None
  | _ => None
  end.

(** ** Canonicalization *)
Definition nul : string := String.String (ascii_of_nat 0) "".

(** [sort.Slice] and [sort.SliceStable] by a key. *)
Definition key_le {A} (key : A -> string) (a b : A) : Prop := cle (key a) (key b).
#[export] Instance key_le_dec {A} (key : A -> string) : RelDecision (key_le key).
Proof. intros a b. unfold key_le. apply _. Defined.
#[export] Instance key_le_total {A} (key : A -> string) : Total (key_le key).
Proof. intros a b. apply cle_total. Qed.
#[export] Instance key_le_trans {A} (key : A -> string) : Transitive (key_le key).
Proof. intros a b c. unfold key_le. apply (transitivity (R := cle)). Qed.
Definition sort_by {A} (key : A -> string) (l : list A) : list A := merge_sort (key_le key) l.

Definition canonical_op (op : string) : string :=
  let upper := UpperText (TrimSpace op) in if same upper "!=" then "<>" else upper.

(** The filter with its operator spelled canonically, and its sort key. *)
Definition keyed_filter (filter : Filter) : result (string * Filter) :=
  let op := canonical_op (fiOp filter) in
  map_err (ErrCtx "canonicalize filter %q") (canonicalJSON (fiValue filter)) ≫= fun encoded =>
  Ok (fiColumn filter +:+ nul +:+ op +:+ nul +:+ of_bytes encoded, MkFilter (fiColumn filter) op (fiValue filter)).

Definition canonicalizeFilters (filters : list Filter) : result (list Filter) :=
  fold_res (fun acc filter => keyed ← keyed_filter filter; Ok (acc ++ [keyed])) [] filters ≫= fun keyed =>
  Ok (map snd (sort_by fst keyed)).

Definition canonicalizeScan (scan : Scan) : result Scan :=
  canonicalizeFilters (scFilters scan) ≫= fun filters => Ok (MkScan (scProduct scan) (scRole scan) filters).

Abbreviation Products := (gmap string Product).
Definition empty_product : Product := MkProduct "" ∅ ∅ ∅ ∅ ∅ "" "" "" [] "" [] "" "".
Definition product_of (products : Products) (name : string) : Product := default empty_product (products !! name).

Definition relationalScanSemanticKey (products : Products) (scan : Scan) : string :=
  let product := product_of products (scProduct scan) in
  pSourceNamespace product +:+ nul +:+ pSnapshot product +:+ nul +:+ pStableRole product +:+ nul +:+ pName product.

Definition canonical_source (products : Products) (scan : Scan) : result Scan :=
  canonicalizeScan scan ≫= fun canonical =>
  fail_if (bool_decide (products !! scProduct canonical = None)) (ErrNew "join source product %q is not approved") ≫= fun _ => Ok canonical.

Definition predicate_key (p : JoinPredicate) : string := jpLeft p +:+ nul +:+ jpRight p.
Definition oriented (p : JoinPredicate) : JoinPredicate :=
  if str_ltb (jpRight p) (jpLeft p) then MkJoinPredicate (jpRight p) (jpLeft p) else p.
Definition canonical_predicate (p : JoinPredicate) : result JoinPredicate :=
  fail_if (bool_decide (splitFieldID (jpLeft p) = None)) (ErrNew "join predicate field %q is invalid") ≫= fun _ =>
  fail_if (bool_decide (splitFieldID (jpRight p) = None)) (ErrNew "join predicate field %q is invalid") ≫= fun _ =>
  Ok (oriented p).

Definition canonical_join (products : Products) (join : JoinMany) : result JoinMany :=
  fold_res (fun acc scan => canonical ← canonical_source products scan; Ok (acc ++ [canonical])) [] (jmSources join) ≫= fun sources =>
  fold_res (fun acc p => canonical ← canonical_predicate p; Ok (acc ++ [canonical])) [] (jmOn join) ≫= fun on =>
  Ok (MkJoinMany (sort_by (relationalScanSemanticKey products) sources) (sort_by predicate_key on)).

Definition countFromMembers (from : From) : Z :=
  (if fmScan from then 1 else 0) + (if fmJoin from then 1 else 0) + (if fmJoinMany from then 1 else 0) + (if fmUnionDistinct from then 1 else 0).

(** The flat spelling of the two-source join. *)
Definition flat_join (join : JoinPair) : JoinMany := MkJoinMany [jnLeft join; jnRight join] (jnOn join).
Definition no_from : From := MkFrom None None None None.

Definition canonical_from (products : Products) (from : From) : result From :=
  match from with
  | MkFrom (Some scan) _ _ _ => canonicalizeScan scan ≫= fun scan => Ok (MkFrom (Some scan) None None None)
  | MkFrom None (Some join) _ _ => canonical_join products (flat_join join) ≫= fun join => Ok (MkFrom None None (Some join) None)
  | MkFrom None None (Some join) _ => canonical_join products join ≫= fun join => Ok (MkFrom None None (Some join) None)
  | MkFrom None None None (Some union) =>
      canonicalizeScan (uLeft union) ≫= fun left => canonicalizeScan (uRight union) ≫= fun right =>
      Ok (MkFrom None None None (Some (MkUnionDistinct (uRole union) (uColumns union) left right)))
  | MkFrom None None None None => Ok no_from
  end.

Definition CanonicalizeRelational (plan : QueryPlan) (products : Products) : result QueryPlan :=
  let bad := ErrNew "relational QueryPlan requires exactly one from operator" in
  match qFrom plan with
  | None => Err bad
  | Some from =>
      fail_if (given (qProduct plan) || negb (countFromMembers from =? 1)) bad ≫= fun _ =>
      canonicalizeFilters (qFilters plan) ≫= fun filters =>
      canonical_from products from ≫= fun from =>
      Ok (MkQueryPlan (qProduct plan) (Some from) (qColumns plan) (qAggregates plan) filters (qGroupBy plan) (qOrderBy plan) (qLimit plan) (qOffset plan))
  end.

(** ** Plans that say the same thing

    Filters up to their order and the spelling of their operators, equalities up
    to their order and orientation, sources up to their order, and the two
    spellings of a join. *)
Definition normalized_filter (f : Filter) : Filter := MkFilter (fiColumn f) (canonical_op (fiOp f)) (fiValue f).
Definition filters_like (fs fs' : list Filter) : Prop := map normalized_filter fs ≡ₚ map normalized_filter fs'.
Definition scan_like (s s' : Scan) : Prop := scProduct s = scProduct s' /\ scRole s = scRole s' /\ filters_like (scFilters s) (scFilters s').
Record join_like (j j' : JoinMany) : Prop := {
  jl_sources : exists middle, jmSources j ≡ₚ middle /\ Forall2 scan_like middle (jmSources j');
  jl_on : map oriented (jmOn j) ≡ₚ map oriented (jmOn j') }.

(** The join a [from] member is, in either spelling. *)
Definition join_of (from : From) : option JoinMany :=
  match from with
  | MkFrom None (Some two) None None => Some (flat_join two)
  | MkFrom None None (Some join) None => Some join
  | _ => None
  end.

Inductive from_like : From -> From -> Prop :=
  | like_scan s s' : scan_like s s' -> from_like (MkFrom (Some s) None None None) (MkFrom (Some s') None None None)
  | like_join f f' j j' : join_of f = Some j -> join_of f' = Some j' -> join_like j j' -> from_like f f'
  | like_union role columns l l' r r' : scan_like l l' -> scan_like r r' ->
      from_like (MkFrom None None None (Some (MkUnionDistinct role columns l r))) (MkFrom None None None (Some (MkUnionDistinct role columns l' r'))).

Record plan_like (plan plan' : QueryPlan) : Prop := {
  pl_product : qProduct plan = qProduct plan';
  pl_from : match qFrom plan, qFrom plan' with Some f, Some f' => from_like f f' | _, _ => False end;
  pl_columns : qColumns plan = qColumns plan';
  pl_aggregates : qAggregates plan = qAggregates plan';
  pl_filters : filters_like (qFilters plan) (qFilters plan');
  pl_groups : qGroupBy plan = qGroupBy plan';
  pl_orders : qOrderBy plan = qOrderBy plan';
  pl_page : qLimit plan = qLimit plan' /\ qOffset plan = qOffset plan' }.

(** No two filters of a conjunction share a key without being the same filter,
    and no two sources of a join share a Catalog identity. *)
Definition filter_key (f : Filter) : string :=
  fiColumn f +:+ nul +:+ canonical_op (fiOp f) +:+ nul +:+ match canonicalJSON (fiValue f) with Ok b => of_bytes b | Err _ => "" end.
Definition consistent (fs : list Filter) : Prop := forall f g, f ∈ fs -> g ∈ fs -> filter_key f = filter_key g -> normalized_filter f = normalized_filter g.
Definition from_consistent (products : Products) (from : From) : Prop :=
  match from with
  | MkFrom (Some s) _ _ _ => consistent (scFilters s)
  | MkFrom _ _ _ (Some u) => consistent (scFilters (uLeft u)) /\ consistent (scFilters (uRight u))
  | _ => match join_of from with
         | Some j => Forall (fun s => consistent (scFilters s)) (jmSources j) /\ NoDup (map (relationalScanSemanticKey products) (jmSources j))
         | None => True
         end
  end.

(** ** Sorting by a key *)
Lemma sort_by_perm {A} (key : A -> string) l : sort_by key l ≡ₚ l.
Proof. apply merge_sort_Permutation. Qed.
Lemma sort_by_sorted {A} (key : A -> string) l : StronglySorted (key_le key) (sort_by key l).
Proof. apply Sorted_StronglySorted; [apply _|]. apply Sorted_merge_sort, _. Qed.
Lemma sort_by_unique {A} (key : A -> string) l k : l ≡ₚ k -> (forall x y, x ∈ l -> y ∈ l -> key x = key y -> x = y) -> sort_by key l = sort_by key k.
Proof.
  intros Hp Hinj. apply (StronglySorted_unique_strong (key_le key)); [|apply sort_by_sorted..|].
  - intros x y Hx Hy H1 H2. rewrite sort_by_perm in Hx, Hy. rewrite <- Hp in Hy. apply Hinj; [done..|]. by apply (anti_symm cle).
  - by rewrite !sort_by_perm.
Qed.

(** ** The canonical plan depends on nothing else *)
Lemma keyed_filter_ok f kf : keyed_filter f = Ok kf <-> is_ok (canonicalJSON (fiValue f)) = true /\ kf = (filter_key f, normalized_filter f).
Proof.
  unfold keyed_filter, filter_key, normalized_filter. cbv zeta. destruct (canonicalJSON (fiValue f)) as [b|e]; cbn; [|naive_solver].
  split; [by intros [= <-]|by intros [_ ->]].
Qed.

Lemma canonicalizeFilters_ok fs out : canonicalizeFilters fs = Ok out <->
  Forall (fun f => is_ok (canonicalJSON (fiValue f)) = true) fs /\ out = map snd (sort_by fst (map (fun f => (filter_key f, normalized_filter f)) fs)).
Proof.
  unfold canonicalizeFilters. rewrite bind_ok. split.
  - intros (keyed & (ys & F & ->)%fold_collect_map & <-%Ok_inj). cbn [app]. assert (G : Forall (fun f => is_ok (canonicalJSON (fiValue f)) = true) fs /\ ys = map (fun f => (filter_key f, normalized_filter f)) fs);
      [|by destruct G as [? ->]]. clear -F. induction F as [|f kf fs ys Hf F [IH ->]]; [done|]. apply keyed_filter_ok in Hf as [Hf ->]. split; [by constructor|done].
  - intros [HF ->]. exists (map (fun f => (filter_key f, normalized_filter f)) fs). split; [|done]. apply fold_collect_map. eexists. split; [|done].
    induction HF as [|f fs Hf HF IH]; cbn; constructor; [by apply keyed_filter_ok|done].
Qed.

Lemma normalized_value f g : normalized_filter f = normalized_filter g -> fiValue f = fiValue g /\ filter_key f = filter_key g.
Proof. unfold normalized_filter, filter_key. intros [= E1 E2 E3]. by rewrite E1, E2, E3. Qed.

(** The key and the rest of a normalized filter are functions of it. *)
Lemma keyed_perm fs fs' : filters_like fs fs' -> map (fun f => (filter_key f, normalized_filter f)) fs ≡ₚ map (fun f => (filter_key f, normalized_filter f)) fs'.
Proof.
  set (key := fun n : Filter => fiColumn n +:+ nul +:+ fiOp n +:+ nul +:+ match canonicalJSON (fiValue n) with Ok b => of_bytes b | Err _ => "" end).
  assert (E : forall l, map (fun f => (filter_key f, normalized_filter f)) l = map (fun n => (key n, n)) (map normalized_filter l)).
  { intros l. rewrite map_map. by apply map_ext. }
  unfold filters_like. rewrite !E. intros Hp. by apply Permutation_map.
Qed.

Lemma like_member fs fs' g : filters_like fs fs' -> g ∈ fs' -> exists f, f ∈ fs /\ normalized_filter f = normalized_filter g.
Proof.
  unfold filters_like. intros Hl Hg. assert (Hin : normalized_filter g ∈ map normalized_filter fs) by (rewrite Hl; by apply list_elem_of_fmap_2).
  apply list_elem_of_fmap in Hin as (f & E & Hf). by exists f.
Qed.

Lemma filters_canonical fs fs' out : consistent fs -> filters_like fs fs' -> canonicalizeFilters fs = Ok out -> canonicalizeFilters fs' = Ok out.
Proof.
  intros Hc Hl [HF ->]%canonicalizeFilters_ok. apply canonicalizeFilters_ok. split.
  - rewrite Forall_forall in *. intros g Hg. destruct (like_member _ _ _ Hl Hg) as (f & Hf & [<- _]%normalized_value). by apply HF.
  - f_equal. apply sort_by_unique; [by apply keyed_perm|]. intros x y (f & -> & Hf)%list_elem_of_fmap (g & -> & Hg)%list_elem_of_fmap. cbn [fst]. intros E.
    f_equal; [done|by apply Hc].
Qed.

Lemma consistent_like fs fs' : filters_like fs fs' -> consistent fs -> consistent fs'.
Proof.
  intros Hl Hc f g Hf Hg E. destruct (like_member _ _ _ Hl Hf) as (f0 & Hf0 & Ef), (like_member _ _ _ Hl Hg) as (g0 & Hg0 & Eg). rewrite <- Ef, <- Eg.
  apply Hc; [done..|]. apply normalized_value in Ef as [_ ->], Eg as [_ ->]. done.
Qed.

Lemma scan_canonical s s' out : consistent (scFilters s) -> scan_like s s' -> canonicalizeScan s = Ok out -> canonicalizeScan s' = Ok out.
Proof.
  unfold canonicalizeScan. intros Hc (Hp & Hr & Hl) (fs & Hfs & <-%Ok_inj)%bind_ok. rewrite (filters_canonical _ _ _ Hc Hl Hfs). cbn. by rewrite Hp, Hr.
Qed.

Lemma source_canonical products s s' out : consistent (scFilters s) -> scan_like s s' -> canonical_source products s = Ok out -> canonical_source products s' = Ok out.
Proof. unfold canonical_source. intros Hc Hl (x & Hx & H)%bind_ok. by rewrite (scan_canonical _ _ _ Hc Hl Hx). Qed.

Lemma source_key products s out : canonical_source products s = Ok out -> relationalScanSemanticKey products out = relationalScanSemanticKey products s.
Proof.
  unfold canonical_source. intros (x & (fs & _ & <-%Ok_inj)%bind_ok & [_ <-%Ok_inj]%fail_if_bind_ok)%bind_ok. done.
Qed.

(** A loop that collects, over a permutation. *)
Lemma collect_perm {A B} (f : A -> result B) xs ys out : xs ≡ₚ ys ->
  fold_res (fun acc x => y ← f x; Ok (acc ++ [y])) [] xs = Ok out ->
  exists out', fold_res (fun acc x => y ← f x; Ok (acc ++ [y])) [] ys = Ok out' /\ out ≡ₚ out'.
Proof.
  intros Hp (zs & F & ->)%fold_collect_map. cbn [app]. revert zs F. setoid_rewrite fold_collect_map. cbn [app].
  induction Hp as [|x xs ys Hp IH|x y xs|xs ys ws H1 IH1 H2 IH2]; intros zs F.
  - inversion F; subst. exists []. split; [by exists []|done].
  - inversion F as [|? z ? zs' Hz F']; subst. destruct (IH _ F') as (o & (o' & F'' & ->) & Ho). exists (z :: o'). split; [|by constructor].
    exists (z :: o'). split; [by constructor|done].
  - inversion F as [|? z ? zs' Hz F']; subst. inversion F' as [|? w ? zs Hw F'']; subst. exists (w :: z :: zs). split; [|constructor].
    eexists. split; [by repeat constructor|done].
  - destruct (IH1 _ F) as (o & (o1 & F1 & ->) & Ho1). destruct (IH2 _ F1) as (o2 & (o3 & F2 & ->) & Ho2). exists o3. split; [by exists o3|by etrans].
Qed.

Lemma sources_canonical products ss ss' out : Forall (fun s => consistent (scFilters s)) ss -> Forall2 scan_like ss ss' ->
  fold_res (fun acc scan => canonical ← canonical_source products scan; Ok (acc ++ [canonical])) [] ss = Ok out ->
  fold_res (fun acc scan => canonical ← canonical_source products scan; Ok (acc ++ [canonical])) [] ss' = Ok out.
Proof.
  intros Hc Hl (ys & F & ->)%fold_collect_map. apply fold_collect_map. exists ys. split; [|done]. revert ys F. induction Hl as [|s s' ss ss' Hs Hl IH]; intros ys F.
  - inversion F; subst. constructor.
  - inversion F as [|? y ? ys' Hy F']; subst. apply Forall_cons in Hc as [Hc1 Hc2]. constructor; [by eapply source_canonical|by apply IH].
Qed.

(** *** Equalities *)
Lemma split_two sep l a b : split_byte sep l = [a; b] -> l = a ++ sep :: b.
Proof.
  assert (One : forall l x, split_byte sep l = [x] -> l = x).
  { clear. induction l as [|c l IH]; intros x; cbn [split_byte]; [by intros [= <-]|]. destruct (Ascii.eqb_spec c sep) as [->|]; [destruct l as [|d l]; cbn [split_byte]|].
    - done.
    - destruct (Ascii.eqb d sep); [done|]. by destruct (split_byte sep l).
    - destruct (split_byte sep l) as [|p ps] eqn:E; [by destruct l as [|d l]; cbn [split_byte] in E; [|destruct (Ascii.eqb d sep); [|destruct (split_byte sep l)]]|].
      intros [= <- ->]. f_equal. by apply IH. }
  revert a. induction l as [|c l IH]; intros a; cbn [split_byte]; [done|]. destruct (Ascii.eqb_spec c sep) as [->|].
  - intros [= <- E]. cbn. f_equal. by apply One.
  - destruct (split_byte sep l) as [|p ps] eqn:E; [done|]. intros [= <- ->]. cbn. f_equal. by apply IH.
Qed.

Lemma splitFieldID_bytes id role column : splitFieldID id = Some (role, column) ->
  to_bytes id = to_bytes role ++ "."%char :: to_bytes column /\ safeRole role = true /\ safeIdentifier column = true.
Proof.
  unfold splitFieldID. destruct (split_byte _ _) as [|a [|b [|]]] eqn:E; cbn [map]; try done. destruct (_ && _) eqn:Es; [|done]. intros [= <- <-].
  apply andb_prop in Es as [Hr Hs]. apply split_two in E. by rewrite !to_of_bytes.
Qed.

Lemma safe_bytes v c : safeIdentifier v = true -> c ∈ to_bytes v -> identifier_byte c = true.
Proof.
  unfold safeIdentifier. destruct (to_bytes v) as [|x r]; [done|]. intros [Hx Hr]%andb_prop [->|Hc]%elem_of_cons; [unfold identifier_byte; by rewrite Hx|].
  rewrite forallb_forall in Hr. apply Hr. by apply list_elem_of_In.
Qed.

Lemma field_no_nul id : splitFieldID id <> None -> ascii_of_nat 0 ∉ to_bytes id.
Proof.
  destruct (splitFieldID id) as [[role column]|] eqn:E; [|done]. intros _. apply splitFieldID_bytes in E as (-> & Hr & Hc).
  unfold safeRole in Hr. apply andb_prop in Hr as [Hr _]. rewrite not_elem_of_app, not_elem_of_cons.
  split; [|split; [done|]]; intros Hin; by apply safe_bytes in Hin.
Qed.

(** A text without the separator is read back from a text that starts with both. *)
Lemma cut_inj {A} (sep : A) a b x y : sep ∉ a -> sep ∉ b -> a ++ sep :: x = b ++ sep :: y -> a = b /\ x = y.
Proof.
  revert b. induction a as [|c a IH]; intros [|d b] Ha Hb; cbn.
  - by intros [= ->].
  - intros [= -> _]. destruct Hb. by left.
  - intros [= -> _]. destruct Ha. by left.
  - intros [= -> E]. rewrite not_elem_of_cons in Ha, Hb. destruct (IH b) as [-> ->]; naive_solver.
Qed.

Lemma predicate_key_inj p q : splitFieldID (jpLeft p) <> None -> splitFieldID (jpLeft q) <> None -> predicate_key p = predicate_key q -> p = q.
Proof.
  intros Hp%field_no_nul Hq%field_no_nul E. apply (f_equal to_bytes) in E. unfold predicate_key in E. rewrite !to_bytes_app in E.
  change (to_bytes nul) with [ascii_of_nat 0] in E. cbn [app] in E. apply cut_inj in E as [E1%to_bytes_inj E2%to_bytes_inj]; [|done..].
  destruct p, q. cbn in *. by subst.
Qed.

Lemma predicates_canonical ps qs out : map oriented ps ≡ₚ map oriented qs ->
  fold_res (fun acc p => canonical ← canonical_predicate p; Ok (acc ++ [canonical])) [] ps = Ok out ->
  exists out', fold_res (fun acc p => canonical ← canonical_predicate p; Ok (acc ++ [canonical])) [] qs = Ok out' /\ sort_by predicate_key out = sort_by predicate_key out'.
Proof.
  set (valid := fun p => splitFieldID (jpLeft p) <> None /\ splitFieldID (jpRight p) <> None).
  assert (Hok : forall l out, fold_res (fun acc p => canonical ← canonical_predicate p; Ok (acc ++ [canonical])) [] l = Ok out <-> Forall valid l /\ out = map oriented l).
  { clear. intros l out. rewrite fold_collect_map. cbn [app]. split.
    - intros (ys & F & ->). induction F as [|p y l ys Hp F [IH ->]]; [done|]. unfold canonical_predicate in Hp.
      rewrite !fail_if_bind_ok, !bool_decide_eq_false in Hp. destruct Hp as (H1 & H2 & <-%Ok_inj). by split; [constructor|].
    - intros [HF ->]. eexists. split; [|done]. induction HF as [|p l [H1 H2] HF IH]; cbn; constructor; [|done]. unfold canonical_predicate.
      by rewrite !fail_if_bind_ok, !bool_decide_eq_false. }
  intros Hp [HF ->]%Hok.
  assert (Hv : forall p, valid (oriented p) <-> valid p). { intros p. unfold valid, oriented. destruct (str_ltb _ _); cbn; tauto. }
  assert (HF' : Forall valid qs).
  { rewrite Forall_forall in *. intros q Hq. assert (Hin : oriented q ∈ map oriented ps) by (rewrite Hp; by apply list_elem_of_fmap_2).
    apply list_elem_of_fmap in Hin as (p & E & Hin). apply Hv. rewrite E. by apply Hv, HF. }
  exists (map oriented qs). split; [by apply Hok|]. apply sort_by_unique; [done|].
  intros x y (p & -> & Hp1)%list_elem_of_fmap (q & -> & Hq1)%list_elem_of_fmap. rewrite Forall_forall in HF. apply predicate_key_inj; by apply Hv, HF.
Qed.

Lemma join_canonical products j j' out : Forall (fun s => consistent (scFilters s)) (jmSources j) -> NoDup (map (relationalScanSemanticKey products) (jmSources j)) ->
  join_like j j' -> canonical_join products j = Ok out -> canonical_join products j' = Ok out.
Proof.
  intros Hc Hnd [(middle & Hp & Hl) Hon] (sources & Hs & (on & Ho & <-%Ok_inj)%bind_ok)%bind_ok. unfold canonical_join.
  destruct (collect_perm _ _ _ _ Hp Hs) as (sources' & Hs' & Hperm). rewrite Hp in Hc. rewrite (sources_canonical _ _ _ _ Hc Hl Hs'). cbn [mbind result_bind].
  destruct (predicates_canonical _ _ _ Hon Ho) as (on' & -> & ->). cbn [mbind result_bind]. f_equal. f_equal. symmetry. apply sort_by_unique; [done|].
  assert (Hkeys : map (relationalScanSemanticKey products) sources = map (relationalScanSemanticKey products) (jmSources j)).
  { apply fold_collect_map in Hs as (ys & F & ->). cbn [app]. clear -F. induction F as [|s y ss ys Hs F IH]; [done|]. cbn. rewrite IH. f_equal. by apply source_key. }
  rewrite <- Hkeys in Hnd. intros x y Hx Hy E. clear -Hnd Hx Hy E. induction sources as [|s ss IH]; [by apply elem_of_nil in Hx|]. cbn in Hnd. apply NoDup_cons in Hnd as [Hn Hnd].
  apply elem_of_cons in Hx as [->|Hx], Hy as [->|Hy]; [done|..|by apply IH].
  - destruct Hn. rewrite E. by apply list_elem_of_fmap_2.
  - destruct Hn. rewrite <- E. by apply list_elem_of_fmap_2.
Qed.

Lemma canonical_from_join products f j : join_of f = Some j -> canonical_from products f = canonical_join products j ≫= fun join => Ok (MkFrom None None (Some join) None).
Proof. destruct f as [[] [] [] []]; intros E; first [discriminate E|by injection E as <-]. Qed.

(** Two scans of one product keep the order they came in; [compileJoinMany]
    refuses such a join later. *)
Example repeated_product :
  let products : Products := {[ "p" := empty_product ]} in
  let a := MkScan "p" "a" [] in let b := MkScan "p" "b" [] in
  canonical_join products (MkJoinMany [a; b] []) = Ok (MkJoinMany [a; b] []) /\
  canonical_join products (MkJoinMany [b; a] []) = Ok (MkJoinMany [b; a] []).
Proof. vm_compute. done. Qed.

(** C37: A plan is canonicalized to the same plan whatever the order of its
    filters, sources and equalities, the orientation of an equality, the spelling
    of an operator ([!=] or [<>], case, blanks) and of a join (two-source or
    flat), when it is [consistent]: the sources of its join have distinct
    Catalog identities, as [compileJoinMany] requires, and filters of one
    conjunction that share their sort key (column, operator and JSON text of the
    value) are one filter. *)
Theorem canonical_invariant plan plan' products out : plan_like plan plan' -> consistent (qFilters plan) ->
  (forall from, qFrom plan = Some from -> from_consistent products from) ->
  CanonicalizeRelational plan products = Ok out -> CanonicalizeRelational plan' products = Ok out.
Proof.
  intros [Hpr Hf Hcol Hagg Hfil Hgr Hor [Hli Hof]] Hc Hfc. unfold CanonicalizeRelational. destruct (qFrom plan) as [f|]; [|done]. destruct (qFrom plan') as [f'|]; [|done].
  specialize (Hfc f eq_refl). cbv zeta. rewrite !fail_if_bind_ok, Hpr. intros [[Hg Hcount]%orb_false_iff (fs & Hfs & (g & Hgf & <-%Ok_inj)%bind_ok)%bind_ok].
  assert (Hcount' : countFromMembers f' = 1).
  { destruct Hf as [| f f' j j' E E' |]; [done| |done]. by destruct f' as [[] [] [] []]. }
  rewrite Hg, Hcount'. cbn [orb negb]. split; [done|]. rewrite (filters_canonical _ _ _ Hc Hfil Hfs). cbn [mbind result_bind].
  assert (Hgf' : canonical_from products f' = Ok g); [|rewrite Hgf'; cbn; by rewrite Hcol, Hagg, Hgr, Hor, Hli, Hof].
  destruct Hf as [s s' Hs|f f' j j' E E' Hj|role columns l l' r r' Hl Hr].
  - cbn [canonical_from] in *. apply bind_ok in Hgf as (x & Hx & <-%Ok_inj). by rewrite (scan_canonical _ _ _ Hfc Hs Hx).
  - rewrite (canonical_from_join _ _ _ E) in Hgf. rewrite (canonical_from_join _ _ _ E'). apply bind_ok in Hgf as (x & Hx & <-%Ok_inj).
    assert (Hfc' : Forall (fun s => consistent (scFilters s)) (jmSources j) /\ NoDup (map (relationalScanSemanticKey products) (jmSources j))).
    { destruct f as [[] [] [] []]; first [discriminate E|injection E as <-; exact Hfc]. }
    destruct Hfc' as [H1 H2]. by rewrite (join_canonical _ _ _ _ H1 H2 Hj Hx).
  - cbn [canonical_from uRole uColumns uLeft uRight] in *. destruct Hfc as [H1 H2]. apply bind_ok in Hgf as (x & Hx & (y & Hy & <-%Ok_inj)%bind_ok).
    rewrite (scan_canonical _ _ _ H1 Hl Hx). cbn [mbind result_bind]. by rewrite (scan_canonical _ _ _ H2 Hr Hy).
Qed.
End CanonicalPlan.
