(* ===== verification/JoinPlan.v ===== *)
(** * Scans and joins of several products

    [compileExplicitScan] and [compileJoinMany] of
    [src/internal/queryplan/relational.go].  A join is a set of sources and a set
    of equalities between their columns; the compiler checks that they form a
    connected graph and writes the sources one by one, each with the equalities
    that link it to those already written. *)

From S2P Require Import Prelude GoBytes Ordering GoText FactId SqlText QueryPlan CanonicalPlan.
Import GoText FactId SqlText QueryPlan CanonicalPlan.

Module JoinPlan.

Definition MaxJoinSources : Z := 16.

(** ** Data *)
Record relationalField := MkField {
  rfID : string;
  rfRole : string;
  rfColumn : string;
  rfSQLType : string;
  rfCollation : string;
  rfCollationVersion : string;
  rfProduct : string;
  rfAggregatePermissions : gset string }.
Record RelationalSource := MkSource {
  rsProduct : string;
  rsRole : string;
  rsFilters : list Filter;
  rsEvidenceFields : list string;
  rsEvidenceAlias : gmap string string;
  rsBranch : Z }.
Abbreviation Schema := (gmap string relationalField).

(** ** The SQL profile of a product *)
Definition isCollatableSQLTypeV2 (sqlType : string) : bool := in_list sqlType ["text"; "character"; "character varying"].
Definition text_of (m : gmap string string) (k : string) : string := default "" (m !! k).

Definition typed_column (product : Product) (message column : string) : result unit :=
  fail_if (negb (safeIdentifier column) || blank (text_of (pColumnTypes product) column)) (ErrNew message).

Definition column_profile (product : Product) (entry : string * string) : result unit :=
  let '(column, declaredType) := entry in
  fail_if (negb (safeIdentifier column)) (ErrNew "V2 column %q has an invalid identifier") ≫= fun _ =>
  map_err (ErrCtx "V2 column %q") (CanonicalSQLTypeV2 declaredType) ≫= fun typeName =>
  let collation := TrimSpace (text_of (pColumnCollations product) column) in
  let collationVersion := TrimSpace (text_of (pCollationVersions product) column) in
  if isCollatableSQLTypeV2 typeName
  then fail_if (same collation "" || same collationVersion "") (ErrNew "V2 collatable column %q requires an exact attested collation name and version")
  else fail_if (given collation || given collationVersion) (ErrNew "V2 non-collatable column %q cannot declare a collation profile").

(** The loops range over Go maps: which of several errors is reported is not
    determined by the source. *)
Definition validateProductSQLProfileV2 (product : Product) : result unit :=
  fail_if (bool_decide (pColumns product = ∅) || bool_decide (pColumnTypes product = ∅)) (ErrNew "V2 normal form requires a typed product schema") ≫= fun _ =>
  check_all (typed_column product "V2 approved column %q lacks a safe typed identity") (elements (pColumns product)) ≫= fun _ =>
  check_all (typed_column product "V2 entity-key column %q lacks a safe typed identity") (pStableEntityKey product) ≫= fun _ =>
  check_all (typed_column product "V2 required evidence column %q lacks a safe typed identity") (pRequiredEvidence product) ≫= fun _ =>
  check_all (column_profile product) (map_to_list (pColumnTypes product)).

(** ** Fields and filters of a scan *)
Definition qualified (role column : string) : string := quoteIdentifier role +:+ "." +:+ quoteIdentifier column.
Definition fieldSQL (field : relationalField) : string := qualified (rfRole field) (rfColumn field).

(** [typeName, _ := canonicalProductType(t)]: the empty string on an error. *)
Definition type_name (t : string) : string := match CanonicalSQLTypeV2 t with Ok name => name | Err _ => "" end.
Definition fieldFromProduct (id role column : string) (product : Product) : relationalField :=
  MkField id role column (type_name (text_of (pColumnTypes product) column)) (text_of (pColumnCollations product) column)
    (text_of (pCollationVersions product) column) (pName product) (pAllowedAggregates product).

Definition field_id (role column : string) : string := role +:+ "." +:+ column.
Definition schema_of (role : string) (product : Product) (columns : list string) : Schema :=
  foldr (fun column schema => <[field_id role column := fieldFromProduct (field_id role column) role column product]> schema) ∅ columns.

Definition compileLeafFilterList (filters : list Filter) (role : string) (product : Product) : result string :=
  fold_res (fun parts filter =>
    allowedColumn (fiColumn filter) product ≫= fun _ =>
    compileFilterExpression (qualified role (fiColumn filter)) filter ≫= fun expression => Ok (parts ++ [expression])) [] filters ≫= fun parts =>
  Ok (Join parts " AND ").

Definition compileQualifiedFilters (filters : list Filter) (fields : Schema) : result string :=
  fold_res (fun parts filter =>
    match fields !! fiColumn filter with
    | None => Err (ErrNew "filter field %q is absent")
    | Some field => compileFilterExpression (fieldSQL field) filter ≫= fun expression => Ok (parts ++ [expression])
    end) [] filters ≫= fun parts =>
  Ok (Join parts " AND ").

Definition sortedColumns (set : gset string) : list string := go_sort (elements set).

(** ** [compileExplicitScan] *)
Definition compileExplicitScan (scan : Scan) (products : Products) : result (string * RelationalSource * Schema) :=
  match products !! scProduct scan with
  | None => Err (ErrNew "scan product %q is not approved")
  | Some product =>
      fail_if (negb (same (pName product) (scProduct scan))) (ErrNew "scan product %q is not approved") ≫= fun _ =>
      fail_if (negb (safeIdentifier (scProduct scan)) || negb (safeRole (scRole scan))) (ErrNew "scan product or role is invalid") ≫= fun _ =>
      fail_if (same (pSourceNamespace product) "" || same (pSnapshot product) "" || bool_decide (pStableEntityKey product = []))
        (ErrNew "scan product lacks V2 namespace, snapshot, or stable entity key") ≫= fun _ =>
      validateProductSQLProfileV2 product ≫= fun _ =>
      fail_if (negb (same (scRole scan) (pStableRole product))) (ErrNew "scan role must equal the Catalog stable relation role") ≫= fun _ =>
      compileLeafFilterList (scFilters scan) (scRole scan) product ≫= fun where_ =>
      let selected := pColumns product ∪ list_to_set (pStableEntityKey product) ∪ list_to_set (pRequiredEvidence product) in
      let sql := match scFilters scan with
                 | [] => quoteIdentifier (scProduct scan) +:+ " AS " +:+ quoteIdentifier (scRole scan)
                 | _ => "(SELECT " +:+ Join (map quoteIdentifier (sortedColumns selected)) ", " +:+ " FROM " +:+ quoteIdentifier (scProduct scan) +:+
                        " WHERE " +:+ where_ +:+ ") AS " +:+ quoteIdentifier (scRole scan)
                 end in
      Ok (sql, MkSource (scProduct scan) (scRole scan) (scFilters scan) [] ∅ 0, schema_of (scRole scan) product (elements (pColumns product)))
  end.

(** ** [compileJoinMany]: the sources *)
Record joinSource := MkJoinSource { jsScan : Scan; jsSQL : string; jsSource : RelationalSource; jsSchema : Schema }.

(** The union of two schemas without a common field. *)
Definition add_fields (schema fields : Schema) : result Schema :=
  fail_if (negb (bool_decide (schema ##ₘ fields))) (ErrNew "join_many field %q is ambiguous") ≫= fun _ => Ok (fields ∪ schema).

Record sources_state := MkSources { ssSources : list joinSource; ssProducts : list string; ssSchema : Schema }.

Definition add_source (products : Products) (s : sources_state) (scan : Scan) : result sources_state :=
  fail_if (bool_decide (scProduct scan ∈ ssProducts s)) (ErrNew "join_many does not support repeated products or self-joins") ≫= fun _ =>
  fail_if (bool_decide (scRole scan ∈ map (fun s => scRole (jsScan s)) (ssSources s))) (ErrNew "join_many source roles must be unique") ≫= fun _ =>
  compileExplicitScan scan products ≫= fun '(sql, source, schema) =>
  add_fields (ssSchema s) schema ≫= fun merged =>
  Ok (MkSources (ssSources s ++ [MkJoinSource scan sql source schema]) (scProduct scan :: ssProducts s) merged).

(** [byRole]: the index of the source with a role. *)
Fixpoint index_of (role : string) (roles : list string) : option nat :=
  match roles with
  | [] => None
  | r :: rest => if same r role then Some 0%nat else S <$> index_of role rest
  end.

(** ** The equalities: a union-find over the sources

    [find] compresses the path it climbs; [fuel] bounds its recursion.  An index
    out of range, which would panic, is its own root here; none is asked for. *)
Definition parent (parents : list nat) (i : nat) : nat := default i (parents !! i).
Fixpoint find (fuel : nat) (parents : list nat) (value : nat) : nat * list nat :=
  match fuel with
  | O => (value, parents)
  | S fuel' =>
      if bool_decide (parent parents value = value) then (value, parents)
      else let '(root, parents') := find fuel' parents (parent parents value) in (root, <[value := root]> parents')
  end.
Definition union_roots (fuel : nat) (parents : list nat) (left right : nat) : list nat :=
  let '(l, parents1) := find fuel parents left in
  let '(r, parents2) := find fuel parents1 right in
  if bool_decide (l = r) then parents2 else <[r := l]> parents2.

Record joinEdge := MkEdge { jeLeftRole : string; jeRightRole : string; jeSQL : string }.
Record edges_state := MkEdges { esEdges : list joinEdge; esSeen : list string; esParents : list nat }.

Definition bad_predicate : goerror := ErrNew "join predicate must reference fields from two distinct sources".
(** The two fields of an equality and the indices of their sources. *)
Definition predicate_fields (schema : Schema) (roles : list string) (p : JoinPredicate) : result (string * relationalField * nat * (string * relationalField * nat)) :=
  match splitFieldID (jpLeft p), splitFieldID (jpRight p) with
  | Some (leftRole, _), Some (rightRole, _) =>
      match index_of leftRole roles, index_of rightRole roles, schema !! jpLeft p, schema !! jpRight p with
      | Some leftIndex, Some rightIndex, Some leftField, Some rightField =>
          fail_if (same leftRole rightRole) bad_predicate ≫= fun _ => Ok ((leftRole, leftField, leftIndex), (rightRole, rightField, rightIndex))
      | _, _, _, _ => Err bad_predicate
      end
  | _, _ => Err bad_predicate
  end.

Definition add_edge (fuel : nat) (schema : Schema) (roles : list string) (s : edges_state) (p : JoinPredicate) : result edges_state :=
  predicate_fields schema roles p ≫= fun '((leftRole, leftField, leftIndex), (rightRole, rightField, rightIndex)) =>
  fail_if (bool_decide (predicate_key p ∈ esSeen s)) (ErrNew "duplicate join predicate") ≫= fun _ =>
  fail_if (negb (same (rfSQLType leftField) (rfSQLType rightField)) || negb (same (rfCollation leftField) (rfCollation rightField)) ||
           negb (same (rfCollationVersion leftField) (rfCollationVersion rightField)))
    (ErrNew "join keys require identical types and deterministic collation profiles") ≫= fun _ =>
  Ok (MkEdges (esEdges s ++ [MkEdge leftRole rightRole (fieldSQL leftField +:+ " = " +:+ fieldSQL rightField)]) (predicate_key p :: esSeen s)
        (union_roots fuel (esParents s) leftIndex rightIndex)).

(** [for index := 1; index < len(sources); index++ { if find(index) != root ... }]. *)
Definition connected_step (fuel root : nat) (parents : list nat) (index : nat) : result (list nat) :=
  let '(r, parents') := find fuel parents index in
  fail_if (negb (bool_decide (r = root))) (ErrNew "join_many graph must be connected") ≫= fun _ => Ok parents'.
Definition check_connected (fuel n : nat) (parents : list nat) : result (list nat) :=
  let '(root, parents') := find fuel parents 0 in fold_res (connected_step fuel root) parents' (seq 1 (n - 1)).

(** ** The order in which the sources are written *)
Definition edge_links (joined : list string) (role : string) (e : joinEdge) : bool :=
  if same (jeLeftRole e) role then bool_decide (jeRightRole e ∈ joined)
  else if same (jeRightRole e) role then bool_decide (jeLeftRole e ∈ joined) else false.

(** The first source not written yet that an equality links to those written. *)
Definition next_source (edges : list joinEdge) (joined : list string) (roles : list string) : option nat :=
  fst <$> list_find (fun role => negb (bool_decide (role ∈ joined)) && existsb (edge_links joined role) edges) roles.

Definition edge_condition (joined : list string) (role : string) (e : joinEdge) : list string :=
  let other := if same (jeLeftRole e) role then jeRightRole e else if same (jeRightRole e) role then jeLeftRole e else "" in
  if given other && bool_decide (other ∈ joined) then [jeSQL e] else [].
Definition edge_conditions (edges : list joinEdge) (joined : list string) (role : string) : list string := flat_map (edge_condition joined role) edges.

Record join_state := MkJoinState { joJoined : list string; joOrder : list nat; joFrom : string }.

Definition join_step (sources : list (string * string)) (edges : list joinEdge) (s : join_state) : result join_state :=
  match next_source edges (joJoined s) (map fst sources) with
  | None => Err (ErrNew "join_many graph cannot be compiled in canonical order")
  | Some next =>
      let '(role, sql) := default ("", "") (sources !! next) in
      let conditions := go_sort (edge_conditions edges (joJoined s) role) in
      fail_if (bool_decide (conditions = [])) (ErrNew "join_many source has no edge to the compiled component") ≫= fun _ =>
      Ok (MkJoinState (role :: joJoined s) (joOrder s ++ [next]) (joFrom s +:+ " INNER JOIN " +:+ sql +:+ " ON " +:+ Join conditions " AND "))
  end.
(** [for len(joinOrder) < len(sources)]: one source a turn. *)
Fixpoint join_loop (fuel : nat) (sources : list (string * string)) (edges : list joinEdge) (s : join_state) : result join_state :=
  match fuel with
  | O => Ok s
  | S fuel' => if (length (joOrder s) <? length sources)%nat then join_step sources edges s ≫= fun s' => join_loop fuel' sources edges s' else Ok s
  end.

(** ** Evidence: the columns the provenance companion must return *)
Definition field_columns (schema : Schema) (role : string) (ids : list string) : list string :=
  flat_map (fun id => match schema !! id with Some field => if same (rfRole field) role then [rfColumn field] else [] | None => [] end) ids.
Definition dependency_ids (plan : QueryPlan) : list string :=
  (qColumns plan ++ qGroupBy plan) ++ flat_map (fun a => if same (agColumn a) "*" then [] else [agColumn a]) (qAggregates plan).

Definition evidenceFields (scan : Scan) (product : Product) (schema : Schema) (plan : QueryPlan) (joins : list JoinPredicate) (union : list string) : list string :=
  sortedColumns (list_to_set (
    pStableEntityKey product ++ pRequiredEvidence product ++ map fiColumn (scFilters scan) ++
    field_columns schema (scRole scan) (map fiColumn (qFilters plan)) ++
    field_columns schema (scRole scan) (dependency_ids plan) ++
    field_columns schema (scRole scan) (flat_map (fun p => [jpLeft p; jpRight p]) joins) ++ union)).

Definition evidenceAliases (role : string) (fields : list string) : gmap string string :=
  list_to_map (map (fun field => (field, "tg_" +:+ role +:+ "_" +:+ field)) fields).

Definition with_evidence (source : RelationalSource) (role : string) (fields : list string) : RelationalSource :=
  MkSource (rsProduct source) (rsRole source) (rsFilters source) fields (evidenceAliases role fields) (rsBranch source).

(** ** [compileJoinMany] *)
Definition source_of (products : Products) (schema : Schema) (plan : QueryPlan) (joins : list JoinPredicate) (s : joinSource) : RelationalSource :=
  with_evidence (jsSource s) (scRole (jsScan s))
    (evidenceFields (jsScan s) (product_of products (scProduct (jsScan s))) schema plan joins []).

Definition compileJoinMany (join : JoinMany) (plan : QueryPlan) (products : Products) : result (list RelationalSource * Schema * string) :=
  fail_if ((Z.of_nat (length (jmSources join)) <? 2) || (MaxJoinSources <? Z.of_nat (length (jmSources join))))
    (ErrNew "join_many requires between 2 and %d sources") ≫= fun _ =>
  fail_if (bool_decide (jmOn join = [])) (ErrNew "join_many requires at least one equality") ≫= fun _ =>
  fold_res (add_source products) (MkSources [] [] ∅) (jmSources join) ≫= fun s =>
  let sources := ssSources s in
  let roles := map (fun s => scRole (jsScan s)) sources in
  let fuel := S (length (jmOn join)) in
  fold_res (add_edge fuel (ssSchema s) roles) (MkEdges [] [] (seq 0 (length sources))) (jmOn join) ≫= fun e =>
  check_connected fuel (length sources) (esParents e) ≫= fun _ =>
  compileQualifiedFilters (qFilters plan) (ssSchema s) ≫= fun _ =>
  let texts := map (fun s => (scRole (jsScan s), jsSQL s)) sources in
  let '(role0, sql0) := default ("", "") (texts !! 0%nat) in
  join_loop (length sources) texts (esEdges e) (MkJoinState [role0] [0%nat] sql0) ≫= fun j =>
  Ok (omap (fun index => source_of products (ssSchema s) plan (jmOn join) <$> sources !! index) (joOrder j), ssSchema s, joFrom j).
End JoinPlan.
