(* ===== verification/UnionFind.v ===== *)
(** * The union-find of [compileJoinMany]

    [find] climbs to the root of an index and compresses the path; [union_roots]
    puts one root under the other.  The partition they keep is the one the
    equalities generate. *)

From S2P Require Import Prelude JoinPlan.
Import JoinPlan.

Module UnionFind.

(** [i] climbs to the root [r] in at most [k] steps. *)
Inductive climbs (p : list nat) : nat -> nat -> nat -> Prop :=
  | at_root k i : parent p i = i -> climbs p k i i
  | step_up k i r : parent p i <> i -> climbs p k (parent p i) r -> climbs p (S k) i r.

Lemma climbs_root p k i r : climbs p k i r -> parent p r = r.
Proof. by induction 1. Qed.
Lemma climbs_det p k i r : climbs p k i r -> forall k' r', climbs p k' i r' -> r = r'.
Proof. induction 1 as [k i Hi|k i r Hi H IH]; intros k' r' H'; inversion H'; subst; naive_solver. Qed.
Lemma climbs_more p k i r k' : (k <= k')%nat -> climbs p k i r -> climbs p k' i r.
Proof.
  intros Hk H. revert k' Hk. induction H as [k i Hi|k i r Hi H IH]; intros k' Hk; [by constructor|].
  destruct k' as [|k']; [lia|]. constructor; [done|]. apply IH. lia.
Qed.

Lemma parent_insert p i j r : (i < length p)%nat -> parent (<[i := r]> p) j = if decide (i = j) then r else parent p j.
Proof. intros Hi. unfold parent. destruct (decide (i = j)) as [->|Hne]; [by rewrite list_lookup_insert_eq|by rewrite list_lookup_insert_ne]. Qed.
Lemma parent_inside p i : parent p i <> i -> (i < length p)%nat.
Proof. intros H. destruct (decide (i < length p)%nat); [done|]. destruct H. unfold parent. by rewrite lookup_ge_None_2 by lia. Qed.

(** Compressing a path keeps every root and shortens the climbs. *)
Lemma compress p i r : parent p i <> i -> (exists k, climbs p k i r) -> forall m j r', climbs p m j r' -> climbs (<[i := r]> p) m j r'.
Proof.
  intros Hi [k Hk] m j r' H. pose proof (parent_inside _ _ Hi) as Hlen. pose proof (climbs_root _ _ _ _ Hk) as Hr.
  assert (Hne : i <> r) by (intros ->; done).
  assert (Hroot : parent (<[i := r]> p) r = r) by (rewrite parent_insert by done; by rewrite decide_False).
  induction H as [m j Hj|m j r' Hj H IH].
  - constructor. rewrite parent_insert by done. destruct (decide (i = j)) as [<-|]; [done|done].
  - destruct (decide (i = j)) as [<-|Hij].
    + assert (r = r') as <- by (eapply climbs_det; [exact Hk|by apply step_up]). apply step_up; rewrite parent_insert, decide_True by done; [done|by constructor].
    + apply step_up; rewrite parent_insert, decide_False by done; done.
Qed.

Lemma find_spec fuel : forall p k i r, climbs p k i r -> (k < fuel)%nat ->
  (find fuel p i).1 = r /\ length (find fuel p i).2 = length p /\ forall m j r', climbs p m j r' -> climbs (find fuel p i).2 m j r'.
Proof.
  induction fuel as [|fuel IH]; intros p k i r H Hk; [lia|]. cbn [find]. destruct H as [k i Hi|k i r Hi H].
  - rewrite bool_decide_eq_true_2 by done. done.
  - rewrite bool_decide_eq_false_2 by done. destruct (IH _ _ _ _ H ltac:(lia)) as (H1 & H2 & H3).
    destruct (find fuel p (parent p i)) as [root p'] eqn:E. cbn [fst snd] in *. subst root. split; [done|]. rewrite length_insert. split; [done|].
    assert (Hup : climbs p (S k) i r) by by apply step_up. intros m j r' Hj. apply compress; [|by eexists; apply H3|by apply H3].
    intros Hroot. apply H3 in Hup. assert (i = r) as -> by (eapply climbs_det; [by apply (at_root _ 0)|exact Hup]).
    apply climbs_root in H. done.
Qed.

(** ** The partition *)
Definition rel (p : list nat) (i j : nat) : Prop := exists k k' r, climbs p k i r /\ climbs p k' j r.

Lemma rel_sym p i j : rel p i j -> rel p j i.
Proof. intros (k & k' & r & H1 & H2). by exists k', k, r. Qed.
Lemma rel_trans p i j l : rel p i j -> rel p j l -> rel p i l.
Proof.
  intros (k & k' & r & H1 & H2) (m & m' & r' & H3 & H4). assert (r = r') as <- by (eapply climbs_det; [exact H2|exact H3]). by exists k, m', r.
Qed.

(** Every index below [n] climbs to a root below [n] in at most [k] steps. *)
Definition forest (n k : nat) (p : list nat) : Prop := length p = n /\ forall i, (i < n)%nat -> exists r, (r < n)%nat /\ climbs p k i r.

Lemma forest_find n k p fuel i : forest n k p -> (k < fuel)%nat -> (i < n)%nat ->
  forest n k (find fuel p i).2 /\ ((find fuel p i).1 < n)%nat /\ climbs p k i (find fuel p i).1 /\ forall m j r, climbs p m j r -> climbs (find fuel p i).2 m j r.
Proof.
  intros [Hl Hf] Hk Hi. destruct (Hf i Hi) as (r & Hr & H). destruct (find_spec fuel p k i r H Hk) as (-> & H2 & H3). split; [|split; [lia|done]].
  split; [by rewrite H2|]. intros j Hj. destruct (Hf j Hj) as (r' & Hr' & H'). eauto.
Qed.

(** Putting the root [r] under the root [l]. *)
Lemma link_roots p l r : parent p l = l -> parent p r = r -> l <> r -> (r < length p)%nat ->
  forall m j s, climbs p m j s -> climbs (<[r := l]> p) (S m) j (if decide (s = r) then l else s).
Proof.
  intros Hl Hr Hne Hlen m j s H. assert (Hl' : parent (<[r := l]> p) l = l) by (rewrite parent_insert by done; by rewrite decide_False).
  induction H as [m j Hj|m j s Hj H IH].
  - destruct (decide (j = r)) as [->|Hjr].
    + apply step_up; rewrite parent_insert, decide_True by done; [done|by constructor].
    + constructor. rewrite parent_insert by done. by rewrite decide_False.
  - assert (j <> r) by (intros ->; done). apply step_up; rewrite parent_insert, decide_False by done; done.
Qed.

Lemma union_spec n k p fuel a b : forest n k p -> (k < fuel)%nat -> (a < n)%nat -> (b < n)%nat ->
  let p' := union_roots fuel p a b in
  forest n (S k) p' /\ forall i j, (i < n)%nat -> (j < n)%nat -> rel p' i j <-> rel p i j \/ rel p i a /\ rel p b j \/ rel p i b /\ rel p a j.
Proof.
  intros Hf Hk Ha Hb. unfold union_roots. destruct (forest_find n k p fuel a Hf Hk Ha) as (Hf1 & Hl & Hca & H1).
  destruct (find fuel p a) as [l p1]. cbn [fst snd] in *. destruct (forest_find n k p1 fuel b Hf1 Hk Hb) as (Hf2 & Hr & Hcb & H2).
  destruct (find fuel p1 b) as [r p2]. cbn [fst snd] in *. cbv zeta.
  assert (H12 : forall m j s, climbs p m j s -> climbs p2 m j s) by eauto.
  assert (Hcb' : climbs p k b r).
  { destruct Hf as [_ Hf]. destruct (Hf b Hb) as (r' & _ & Hr'). assert (r' = r) as <- by (eapply climbs_det; [apply H1, Hr'|exact Hcb]). done. }
  assert (Hback : forall i s m, (i < n)%nat -> climbs p2 m i s -> climbs p k i s).
  { intros i s m Hi Hs. destruct Hf as [_ Hf]. destruct (Hf i Hi) as (s' & _ & Hs'). assert (s' = s) as <- by (eapply climbs_det; [apply H12, Hs'|exact Hs]). done. }
  destruct (bool_decide (l = r)) eqn:E.
  - apply bool_decide_eq_true in E as <-. split.
    + destruct Hf2 as [Hlen Hf2]. split; [done|]. intros i Hi. destruct (Hf2 i Hi) as (s & Hs & Hc). exists s. split; [done|]. by eapply climbs_more; [|exact Hc]; lia.
    + assert (Hab : rel p a b) by by exists k, k, l. intros i j Hi Hj. split.
      * intros (m & m' & s & Hs & Hs'). left. exists k, k, s. split; [by eapply Hback|by eapply Hback].
      * assert (Hup : rel p i j -> rel p2 i j). { intros (m & m' & s & Hs & Hs'). exists m, m', s. auto. }
        intros [H|[[Hx Hy]|[Hx Hy]]]; apply Hup; [done|..].
        -- eapply rel_trans; [exact Hx|]. by eapply rel_trans.
        -- exact (rel_trans _ _ _ _ Hx (rel_trans _ _ _ _ (rel_sym _ _ _ Hab) Hy)).
  - apply bool_decide_eq_false in E. destruct Hf2 as [Hlen Hf2].
    assert (Hrl : parent p2 l = l) by (eapply climbs_root, H12, Hca). assert (Hrr : parent p2 r = r) by (eapply climbs_root, H12, Hcb').
    pose proof (link_roots p2 l r Hrl Hrr E ltac:(lia)) as Hlink. split.
    + split; [by rewrite length_insert|]. intros i Hi. destruct (Hf2 i Hi) as (s & Hs & Hc). apply Hlink in Hc. eexists. split; [|exact Hc].
      destruct (decide (s = r)); lia.
    + intros i j Hi Hj. destruct (Hf2 i Hi) as (s & _ & Hs), (Hf2 j Hj) as (t & _ & Ht). pose proof (Hback _ _ _ Hi Hs) as Hs'. pose proof (Hback _ _ _ Hj Ht) as Ht'.
      assert (Hrel : forall x y u v, climbs p k x u -> climbs p k y v -> rel p x y <-> u = v).
      { intros x y u v Hu Hv. split; [|intros <-; by exists k, k, u]. intros (m & m' & w & Hw & Hw').
        rewrite (climbs_det _ _ _ _ Hu _ _ Hw). by rewrite (climbs_det _ _ _ _ Hv _ _ Hw'). }
      rewrite (Hrel i j s t), (Hrel i a s l), (Hrel b j r t), (Hrel i b s r), (Hrel a j l t) by done.
      apply Hlink in Hs, Ht. split.
      * intros (m & m' & w & Hw & Hw'). pose proof (climbs_det _ _ _ _ Hs _ _ Hw). pose proof (climbs_det _ _ _ _ Ht _ _ Hw').
        destruct (decide (s = r)), (decide (t = r)); subst; auto.
      * intros H. exists (S k), (S k), (if decide (s = r) then l else s). split; [done|].
        assert ((if decide (s = r) then l else s) = (if decide (t = r) then l else t)) as ->; [|done].
        destruct H as [->|[[-> <-]|[-> <-]]]; [done|..]; repeat destruct (decide _); congruence.
Qed.

(** ** After all equalities *)
Definition linked (pairs : list (nat * nat)) (i j : nat) : Prop := (i, j) ∈ pairs.
Definition in_range (n : nat) (pairs : list (nat * nat)) : Prop := Forall (fun e => (e.1 < n)%nat /\ (e.2 < n)%nat) pairs.
Definition unions (fuel : nat) (pairs : list (nat * nat)) (p : list nat) : list nat := foldl (fun p e => union_roots fuel p e.1 e.2) p pairs.

Lemma linked_range n pairs i j : in_range n pairs -> (i < n)%nat -> rtsc (linked pairs) i j -> (j < n)%nat.
Proof.
  intros Hr Hi H. induction H as [i|i l j Hil H IH]; [done|]. apply IH. unfold in_range in Hr. rewrite Forall_forall in Hr.
  destruct Hil as [Hil|Hil]; apply Hr in Hil; cbn in Hil; lia.
Qed.

Lemma rtsc_more pairs pairs' i j : (forall e, e ∈ pairs -> e ∈ pairs') -> rtsc (linked pairs) i j -> rtsc (linked pairs') i j.
Proof.
  intros Hs H. induction H as [i|i l j Hil H IH]; [done|]. eapply rtc_l; [|exact IH]. destruct Hil as [Hil|Hil]; [left|right]; by apply Hs.
Qed.

(** The partition [unions] computes is the one the pairs generate. *)
Lemma unions_spec n fuel pairs : in_range n pairs -> (length pairs < fuel)%nat ->
  forest n (length pairs) (unions fuel pairs (seq 0 n)) /\
  forall i j, (i < n)%nat -> (j < n)%nat -> rel (unions fuel pairs (seq 0 n)) i j <-> rtsc (linked pairs) i j.
Proof.
  induction pairs as [|e pairs IH] using rev_ind; intros Hr Hfuel.
  - cbn. assert (Hp : forall i, (i < n)%nat -> parent (seq 0 n) i = i) by (intros i Hi; unfold parent; by rewrite lookup_seq_lt).
    split; [split; [by rewrite length_seq|]; intros i Hi; exists i; split; [done|]; constructor; by apply Hp|]. intros i j Hi Hj. split.
    + intros (k & k' & r & H1 & H2). assert (i = r) as <- by (eapply climbs_det; [by apply (at_root _ 0), Hp|exact H1]).
      assert (j = i) as <- by (eapply climbs_det; [by apply (at_root _ 0), Hp|exact H2]). apply rtc_refl.
    + intros H. destruct H as [i|i l j [H|H] _]; [|by apply elem_of_nil in H..]. exists 0%nat, 0%nat, i. split; constructor; by apply Hp.
  - rewrite length_app in *. cbn [length] in *. unfold in_range in Hr. apply Forall_app in Hr as [Hr He]. apply Forall_singleton in He as [Ha Hb].
    destruct (IH Hr ltac:(lia)) as [Hf Hrel]. unfold unions. rewrite foldl_app. cbn [foldl]. change (foldl _ _ pairs) with (unions fuel pairs (seq 0 n)).
    destruct (union_spec n (length pairs) _ fuel e.1 e.2 Hf ltac:(lia) Ha Hb) as [Hf' Hu]. cbv zeta in *. rewrite Nat.add_1_r. split; [done|].
    intros i j Hi Hj. rewrite Hu by done. rewrite !Hrel by done. assert (Hin : e ∈ pairs ++ [e]) by (apply elem_of_app; right; by left). destruct e as [a b]. cbn [fst snd] in *.
    assert (Hm : forall x y, rtsc (linked pairs) x y -> rtsc (linked (pairs ++ [(a, b)])) x y) by (intros x y; apply rtsc_more; intros e He; apply elem_of_app; by left).
    split.
    + intros [H|[[H1 H2]|[H1 H2]]]; [by apply Hm|..]; (etrans; [by apply Hm|]; etrans; [|by apply Hm]; apply rtc_once); [by left|by right].
    + intros H. induction H as [i|i l j Hil H IHr]; [left; apply rtc_refl|]. assert (Hl : (l < n)%nat).
      { destruct Hil as [Hil|Hil]; apply elem_of_app in Hil as [Hil|Hil%list_elem_of_singleton]; [|by injection Hil as -> ->| |by injection Hil as -> ->];
          unfold in_range in Hr; rewrite Forall_forall in Hr; apply Hr in Hil; cbn in Hil; lia. }
      specialize (IHr Hl Hj).
      assert (Hstep : rtsc (linked pairs) i l \/ i = a /\ l = b \/ i = b /\ l = a).
      { destruct Hil as [Hil|Hil]; apply elem_of_app in Hil as [Hil|Hil%list_elem_of_singleton].
        - left. apply rtc_once. by left.
        - injection Hil as -> ->. auto.
        - left. apply rtc_once. by right.
        - injection Hil as -> ->. auto. }
      destruct Hstep as [Hs|[[-> ->]|[-> ->]]].
      * destruct IHr as [IHr|[[H1 H2]|[H1 H2]]]; [left; by etrans|right; left; split; [by etrans|done]|right; right; split; [by etrans|done]].
      * destruct IHr as [IHr|[[H1 H2]|[H1 H2]]]; [right; left; split; [apply rtc_refl|done]|right; left; split; [apply rtc_refl|done]|by left].
      * destruct IHr as [IHr|[[H1 H2]|[H1 H2]]]; [right; right; split; [apply rtc_refl|done]|by left|right; right; split; [apply rtc_refl|done]].
Qed.

(** [check_connected]: every source is linked to the first. *)
Lemma connected_exact n fuel k p : forest n k p -> (k < fuel)%nat -> (0 < n)%nat ->
  is_ok (check_connected fuel n p) = true <-> forall i, (i < n)%nat -> rel p 0 i.
Proof.
  intros Hf Hk Hn. unfold check_connected. destruct (forest_find n k p fuel 0 Hf Hk Hn) as (Hf1 & Hr0 & Hc0 & H1).
  destruct (find fuel p 0) as [root p1]. cbn [fst snd] in *.
  assert (G : forall l q, forest n k q -> (forall m j s, climbs p m j s -> climbs q m j s) -> Forall (fun i => (i < n)%nat) l ->
    is_ok (fold_res (connected_step fuel root) q l) = true <-> forall i, i ∈ l -> rel p 0 i).
  { clear p1 Hf1 H1. induction l as [|i l IH]; intros q Hq H1 Hl; [cbn; split; [intros _ i Hi; by apply elem_of_nil in Hi|done]|].
    apply Forall_cons in Hl as [Hi Hl]. cbn [fold_res]. unfold connected_step at 2. destruct (forest_find n k q fuel i Hq Hk Hi) as (Hq' & _ & Hci & H2).
    destruct (find fuel q i) as [r q']. cbn [fst snd] in *. assert (Hpi : climbs p k i r).
    { destruct Hf as [_ Hf]. destruct (Hf i Hi) as (s & _ & Hs). assert (s = r) as <- by (eapply climbs_det; [apply H1, Hs|exact Hci]). done. }
    destruct (decide (r = root)) as [->|Hne].
    - rewrite bool_decide_eq_true_2 by done. cbn [negb fail_if mbind result_bind]. rewrite IH by eauto. split.
      + intros H j [->|Hj]%elem_of_cons; [by exists k, k, root|by apply H].
      + intros H j Hj. apply H. by right.
    - rewrite bool_decide_eq_false_2 by done. cbn. split; [done|]. intros H. destruct (H i) as (m & m' & s & Hs & Hs'); [by left|].
      destruct Hne. rewrite (climbs_det _ _ _ _ Hpi _ _ Hs'). symmetry. by eapply climbs_det. }
  rewrite (G (seq 1 (n - 1)) p1 Hf1 H1).
  - split.
    + intros H i Hi. destruct (decide (i = 0%nat)) as [->|Hne]; [by exists k, k, root|]. apply H, elem_of_seq. lia.
    + intros H i Hi%elem_of_seq. apply H. lia.
  - apply Forall_forall. intros i Hi%elem_of_seq. lia.
Qed.
End UnionFind.
