(* ===== verification/JoinOrder.v ===== *)
(** * The order of the sources of a join

    The loop of [compileJoinMany] that writes the sources: on a connected graph
    it never gets stuck, it writes every source once, and each equality becomes a
    condition of exactly one source. *)

From S2P Require Import Prelude GoBytes Ordering GoText FactId SqlText QueryPlan CanonicalPlan JoinPlan.
Import GoText FactId SqlText QueryPlan CanonicalPlan JoinPlan.

Module JoinOrder.

Section loop.
Variable texts : list (string * string).
Variable edges : list joinEdge.
Let roles := map fst texts.
Let n := length texts.

(** Sources have distinct non-empty roles; an equality links two of them. *)
Hypothesis roles_nodup : NoDup roles.
Hypothesis edges_ok : Forall (fun e => jeLeftRole e ∈ roles /\ jeRightRole e ∈ roles /\ jeLeftRole e <> jeRightRole e /\ jeLeftRole e <> "" /\ jeRightRole e <> "") edges.

Definition role_at (i : nat) : string := (default ("", "") (texts !! i)).1.
Definition sql_at (i : nat) : string := (default ("", "") (texts !! i)).2.

(** No set of sources that holds the first and not all is closed under the equalities. *)
Definition crossing : Prop := forall J : list string, role_at 0 ∈ J -> (exists r, r ∈ roles /\ r ∉ J) ->
  exists e, e ∈ edges /\ (jeLeftRole e ∈ J /\ jeRightRole e ∉ J \/ jeRightRole e ∈ J /\ jeLeftRole e ∉ J).
Hypothesis crosses : crossing.

(** ** What the loop has written *)
Definition step_text (step : nat * list string) : string := " INNER JOIN " +:+ sql_at step.1 +:+ " ON " +:+ Join step.2 " AND ".
Definition steps_text (steps : list (nat * list string)) : string := foldr (fun step rest => step_text step +:+ rest) "" steps.

(** Every condition of a step links its source with one written before. *)
Fixpoint well_scoped (before : list nat) (steps : list (nat * list string)) : Prop :=
  match steps with
  | [] => True
  | (i, conditions) :: rest =>
      conditions <> [] /\
      (forall c, c ∈ conditions -> exists e b, e ∈ edges /\ c = jeSQL e /\ b ∈ before /\
        (jeLeftRole e = role_at i /\ jeRightRole e = role_at b \/ jeRightRole e = role_at i /\ jeLeftRole e = role_at b)) /\
      well_scoped (before ++ [i]) rest
  end.

Definition inside (joined : list string) (e : joinEdge) : bool := bool_decide (jeLeftRole e ∈ joined) && bool_decide (jeRightRole e ∈ joined).

Record written (first : string) (steps : list (nat * list string)) (s : join_state) : Prop := {
  wr_order : joOrder s = 0%nat :: map fst steps;
  wr_range : Forall (fun i => (i < n)%nat) (joOrder s);
  wr_nodup : NoDup (joOrder s);
  wr_joined : joJoined s = rev (map role_at (joOrder s));
  wr_from : joFrom s = first +:+ steps_text steps;
  wr_conditions : flat_map snd steps ≡ₚ map jeSQL (List.filter (inside (joJoined s)) edges);
  wr_scope : well_scoped [0%nat] steps }.

Lemma role_lookup i : (i < n)%nat -> roles !! i = Some (role_at i).
Proof. intros Hi. unfold roles, role_at. destruct (lookup_lt_is_Some_2 texts i Hi) as [x E]. by rewrite list_lookup_fmap, E. Qed.
Lemma role_at_inj i j : (i < n)%nat -> (j < n)%nat -> role_at i = role_at j -> i = j.
Proof. intros Hi Hj E. eapply NoDup_lookup; [exact roles_nodup|by apply role_lookup|]. rewrite E. by apply role_lookup. Qed.

Lemma elem_joined s first steps : written first steps s -> forall r, r ∈ joJoined s <-> exists i, i ∈ joOrder s /\ r = role_at i.
Proof.
  intros W r. rewrite (wr_joined _ _ _ W), list_elem_of_In, <- in_rev, <- list_elem_of_In, list_elem_of_fmap. naive_solver.
Qed.

Lemma edge_condition_links joined role e : e ∈ edges -> edge_condition joined role e = if edge_links joined role e then [jeSQL e] else [].
Proof.
  intros He. pose proof edges_ok as Hok. rewrite Forall_forall in Hok. destruct (Hok e He) as (_ & _ & _ & Hl & Hr). unfold edge_condition, edge_links, given. cbv zeta.
  destruct (same (jeLeftRole e) role); [by rewrite bool_decide_eq_false_2|]. destruct (same (jeRightRole e) role); [by rewrite bool_decide_eq_false_2|done].
Qed.

Lemma conditions_filter joined role : edge_conditions edges joined role = map jeSQL (List.filter (edge_links joined role) edges).
Proof.
  assert (G : forall l, (forall e, e ∈ l -> e ∈ edges) -> flat_map (edge_condition joined role) l = map jeSQL (List.filter (edge_links joined role) l)); [|by apply G].
  induction l as [|e l IH]; intros Hl; [done|]. cbn [flat_map List.filter]. rewrite edge_condition_links by (apply Hl; by left).
  rewrite IH by (intros x Hx; apply Hl; by right). by destruct (edge_links joined role e).
Qed.

(** Splitting a filter. *)
Lemma filter_split {A} (P Q R : A -> bool) l : (forall x, x ∈ l -> P x = Q x || R x /\ ~ (Q x = true /\ R x = true)) ->
  List.filter P l ≡ₚ List.filter Q l ++ List.filter R l.
Proof.
  induction l as [|x l IH]; intros H; [done|]. cbn [List.filter]. destruct (H x) as [-> Hn]; [by left|]. specialize (IH (fun y Hy => H y (list_elem_of_further _ _ _ Hy))).
  destruct (Q x), (R x); cbn [orb app]; [by destruct Hn|by rewrite IH|by rewrite IH, Permutation_middle|done].
Qed.

Lemma well_scoped_snoc before steps i conditions : well_scoped before steps -> well_scoped (before ++ map fst steps) [(i, conditions)] -> well_scoped before (steps ++ [(i, conditions)]).
Proof.
  revert before. induction steps as [|[j c] steps IH]; intros before; cbn [app map well_scoped]; [by rewrite app_nil_r|].
  intros (H1 & H2 & H3) H. split; [done|]. split; [done|]. apply IH; [done|]. by rewrite <- app_assoc.
Qed.

Lemma steps_text_snoc steps step : steps_text (steps ++ [step]) = steps_text steps +:+ step_text step.
Proof.
  induction steps as [|s steps IH]; [change (step_text step +:+ "" = step_text step); apply string_app_nil|].
  change (step_text s +:+ steps_text (steps ++ [step]) = (step_text s +:+ steps_text steps) +:+ step_text step). by rewrite IH, string_app_assoc.
Qed.

(** ** One turn *)
Lemma join_step_written first steps s : written first steps s -> (length (joOrder s) < n)%nat ->
  exists step s', join_step texts edges s = Ok s' /\ written first (steps ++ [step]) s'.
Proof.
  intros W Hlen. pose proof (elem_joined _ _ _ W) as HJ. destruct W as [Ho Hr Hnd Hj Hf Hc Hs]. rewrite Forall_forall in Hr.
  assert (Hmissing : exists r, r ∈ roles /\ r ∉ joJoined s).
  { destruct (decide (Forall (fun i => i ∈ joOrder s) (seq 0 n))) as [Hall|Hex].
    - exfalso. assert (Hsub : (length (seq 0 n) <= length (joOrder s))%nat); [|rewrite length_seq in Hsub; lia].
      apply submseteq_length, NoDup_submseteq; [apply NoDup_seq|]. by rewrite Forall_forall in Hall.
    - apply not_Forall_Exists in Hex; [|apply _]. apply Exists_exists in Hex as (i & Hi%elem_of_seq & Hn). exists (role_at i). split.
      + apply list_elem_of_lookup. exists i. apply role_lookup. lia.
      + intros (j & Hj' & E)%HJ. apply role_at_inj in E as ->; [done|lia|by apply Hr]. }
  assert (Hzero : role_at 0 ∈ joJoined s) by (apply HJ; exists 0%nat; split; [rewrite Ho; by left|done]).
  unfold join_step. fold roles. set (P := fun role => negb (bool_decide (role ∈ joJoined s)) && existsb (edge_links (joJoined s) role) edges).
  assert (Hnext : exists i, list_find P roles = Some (i, role_at i) /\ (i < n)%nat /\ P (role_at i) = true).
  { destruct (crosses (joJoined s) Hzero Hmissing) as (e & He & Hcross). pose proof edges_ok as Hok. rewrite Forall_forall in Hok.
    destruct (Hok e He) as (HL & HR & Hne & _).
    assert (Hex : exists r, r ∈ roles /\ P r = true).
    { destruct Hcross as [[H1 H2]|[H1 H2]]; [exists (jeRightRole e)|exists (jeLeftRole e)]; (split; [done|]); unfold P;
        rewrite bool_decide_eq_false_2 by done; cbn [negb andb]; apply existsb_exists; exists e; (split; [by apply list_elem_of_In|]); unfold edge_links, same.
      - rewrite (bool_decide_eq_false_2 (jeLeftRole e = _)) by done. rewrite !bool_decide_eq_true_2 by done. done.
      - rewrite !bool_decide_eq_true_2 by done. done. }
    destruct Hex as (r & Hrin & HP). destruct (list_find_elem_of P roles r) as [[i y] E]; [done|by rewrite HP|]. exists i.
    pose proof E as (Hl & HPy & _)%list_find_Some. assert (Hi : (i < n)%nat) by (apply lookup_lt_Some in Hl; unfold roles in Hl; by rewrite length_map in Hl).
    rewrite role_lookup in Hl by done. injection Hl as <-. split; [done|]. split; [done|]. by destruct (P (role_at i)). }
  destruct Hnext as (i & E & Hi & HP). assert (En : next_source edges (joJoined s) roles = Some i). { trans (fst <$> list_find P roles); [done|]. by rewrite E. }
  rewrite En. unfold P in HP. apply andb_prop in HP as [Hnew Hlink]. apply negb_true_iff, bool_decide_eq_false in Hnew.
  assert (Et : default ("", "") (texts !! i) = (role_at i, sql_at i)) by (unfold role_at, sql_at; by destruct (default _ _)). rewrite Et.
  set (conditions := go_sort (edge_conditions edges (joJoined s) (role_at i))).
  assert (Hp : conditions ≡ₚ map jeSQL (List.filter (edge_links (joJoined s) (role_at i)) edges)) by (unfold conditions; by rewrite go_sort_perm, conditions_filter).
  assert (Hne : conditions <> []).
  { intros E0. rewrite E0 in Hp. apply existsb_exists in Hlink as (e & He & Hl). assert (Hin : e ∈ List.filter (edge_links (joJoined s) (role_at i)) edges).
    { apply list_elem_of_In, List.filter_In. done. } symmetry in Hp. apply Permutation_nil_r in Hp. apply map_eq_nil in Hp. rewrite Hp in Hin. by apply elem_of_nil in Hin. }
  cbv zeta. rewrite bool_decide_eq_false_2 by done. cbn [fail_if mbind result_bind].
  exists (i, conditions). eexists. split; [done|].
  assert (Hi_new : i ∉ joOrder s) by (intros Hin; apply Hnew, HJ; by exists i).
  split; cbn [joOrder joFrom joJoined].
  - rewrite Ho, map_app. done.
  - apply Forall_app. split; [by apply Forall_forall|]. by apply Forall_singleton.
  - apply NoDup_app. split; [done|]. split; [|apply NoDup_singleton]. intros j Hj' ->%list_elem_of_singleton. done.
  - rewrite Hj, map_app, rev_app_distr. done.
  - rewrite steps_text_snoc, Hf, string_app_assoc. done.
  - rewrite flat_map_app. cbn [flat_map snd]. rewrite app_nil_r, Hp, Hc, <- map_app. apply Permutation_map. symmetry.
    apply filter_split. intros e He. pose proof edges_ok as Hok. rewrite Forall_forall in Hok. destruct (Hok e He) as (_ & _ & Hlr & _).
    unfold inside, edge_links, same.
    assert (Hcons : forall x, bool_decide (x ∈ role_at i :: joJoined s) = bool_decide (x = role_at i) || bool_decide (x ∈ joJoined s)).
    { intros x. apply bool_iff_eq. rewrite orb_true_iff, !bool_decide_eq_true. apply elem_of_cons. }
    rewrite !Hcons. destruct (bool_decide (jeLeftRole e = role_at i)) eqn:El.
    + apply bool_decide_eq_true in El. rewrite (bool_decide_eq_false_2 (jeRightRole e = role_at i)) by congruence.
      rewrite (bool_decide_eq_false_2 (jeLeftRole e ∈ joJoined s)) by congruence. cbn. split; [done|]. by intros [? _].
    + destruct (bool_decide (jeRightRole e = role_at i)) eqn:Er.
      * apply bool_decide_eq_true in Er. rewrite (bool_decide_eq_false_2 (jeRightRole e ∈ joJoined s)) by congruence. cbn. rewrite andb_false_r, andb_true_r. split; [done|]. by intros [? _].
      * cbn. rewrite orb_false_r. split; [done|]. by intros [_ ?].
  - apply well_scoped_snoc; [done|]. cbn [well_scoped]. split; [done|]. split; [|done]. intros c Hcin. rewrite Hp in Hcin.
    apply list_elem_of_fmap in Hcin as (e & -> & Hin). apply list_elem_of_In, List.filter_In in Hin as [He Hl]. rewrite <- list_elem_of_In in He.
    unfold edge_links, same in Hl. destruct (bool_decide (jeLeftRole e = role_at i)) eqn:El.
    + apply bool_decide_eq_true in El, Hl. apply HJ in Hl as (b & Hb & Eb). rewrite Ho in Hb. exists e, b. eauto 6.
    + destruct (bool_decide (jeRightRole e = role_at i)) eqn:Er; [|done]. apply bool_decide_eq_true in Er, Hl. apply HJ in Hl as (b & Hb & Eb). rewrite Ho in Hb.
      exists e, b. eauto 7.
Qed.

(** ** The whole loop *)
Lemma join_loop_written fuel first : forall steps s, written first steps s -> (n <= fuel + length (joOrder s))%nat ->
  exists steps' s', join_loop fuel texts edges s = Ok s' /\ written first steps' s' /\ length (joOrder s') = n.
Proof.
  assert (Hle : forall steps s, written first steps s -> (length (joOrder s) <= n)%nat).
  { intros steps s [_ Hr Hnd _ _ _ _]. rewrite <- (length_seq n 0). apply submseteq_length, NoDup_submseteq; [done|]. intros i Hi. rewrite Forall_forall in Hr.
    apply elem_of_seq. specialize (Hr i Hi). lia. }
  induction fuel as [|fuel IH]; intros steps s W Hf; cbn [join_loop].
  - exists steps, s. split; [done|]. split; [done|]. apply Hle in W. lia.
  - fold n. destruct (length (joOrder s) <? n)%nat eqn:E.
    + apply Nat.ltb_lt in E. destruct (join_step_written _ _ _ W E) as (step & s' & -> & W'). cbn [mbind result_bind]. apply (IH _ _ W').
      rewrite (wr_order _ _ _ W'), (wr_order _ _ _ W), map_app in *. cbn [length map] in *. rewrite length_app. cbn [length]. lia.
    + apply Nat.ltb_ge in E. exists steps, s. split; [done|]. split; [done|]. apply Hle in W. lia.
Qed.

(** Every source once, every equality once, each where its two sources are known. *)
Lemma written_all first steps s : written first steps s -> length (joOrder s) = n ->
  joOrder s ≡ₚ seq 0 n /\ flat_map snd steps ≡ₚ map jeSQL edges.
Proof.
  intros W Hlen. pose proof (elem_joined _ _ _ W) as HJ. destruct W as [Ho Hr Hnd Hj Hf Hc Hs].
  assert (Hp : joOrder s ≡ₚ seq 0 n).
  { apply submseteq_length_Permutation; [|rewrite length_seq; lia]. apply NoDup_submseteq; [done|]. intros i Hi. rewrite Forall_forall in Hr. apply elem_of_seq. specialize (Hr i Hi). lia. }
  split; [done|]. rewrite Hc. assert (E : List.filter (inside (joJoined s)) edges = edges); [|by rewrite E].
  assert (Hin : forall r, r ∈ roles -> r ∈ joJoined s).
  { intros r (i & Hi)%list_elem_of_lookup. apply HJ. exists i. assert (Hlt : (i < n)%nat) by (apply lookup_lt_Some in Hi; unfold roles in Hi; by rewrite length_map in Hi).
    split; [rewrite Hp; apply elem_of_seq; lia|]. rewrite role_lookup in Hi by done. by injection Hi. }
  clear -Hin edges_ok. induction edges_ok as [|e l (H1 & H2 & _) Hok IH]; [done|]. cbn [List.filter]. unfold inside at 1.
  rewrite !bool_decide_eq_true_2 by auto. cbn [andb]. by rewrite IH.
Qed.

Lemma written_start sql0 : (0 < n)%nat -> written sql0 [] (MkJoinState [role_at 0] [0%nat] sql0).
Proof.
  intros Hn. split; cbn [joOrder joJoined joFrom map steps_text foldr flat_map]; [done|by apply Forall_singleton|apply NoDup_singleton|done|by rewrite string_app_nil| |done].
  assert (E : List.filter (inside [role_at 0]) edges = []); [|by rewrite E]. clear -edges_ok. induction edges_ok as [|e l (_ & _ & H & _) Hok IH]; [done|]. cbn [List.filter].
  unfold inside at 1. destruct (bool_decide (jeLeftRole e ∈ [role_at 0])) eqn:E1; [|exact (IH Hok)]. destruct (bool_decide (jeRightRole e ∈ [role_at 0])) eqn:E2; [|exact (IH Hok)].
  apply bool_decide_eq_true, list_elem_of_singleton in E1, E2. congruence.
Qed.
End loop.
End JoinOrder.
