(* ===== verification/JoinPlanProps.v ===== *)
(** * Joins: what [compileJoinMany] accepts and writes *)

From S2P Require Import Prelude GoBytes Ordering GoText FactId SqlText QueryPlan CanonicalPlan JoinPlan UnionFind JoinOrder.
Import GoText FactId SqlText QueryPlan CanonicalPlan JoinPlan UnionFind JoinOrder.

Module JoinPlanProps.

Section products.
Variable products : Products.

(** ** Fields by their identity *)
Definition scan_field (scan : Scan) (id : string) : option relationalField :=
  '(role, column) ← splitFieldID id; product ← products !! scProduct scan;
  if bool_decide (role = scRole scan /\ column ∈ pColumns product) then Some (fieldFromProduct id role column product) else None.

(** The field an identity names among the sources. *)
Fixpoint field_at (scans : list Scan) (id : string) : option relationalField :=
  match scans with
  | [] => None
  | scan :: rest => match scan_field scan id with Some field => Some field | None => field_at rest id end
  end.

Lemma field_id_split role column : safeRole role = true -> safeIdentifier column = true -> splitFieldID (field_id role column) = Some (role, column).
Proof.
  intros Hr Hc. unfold splitFieldID, field_id. rewrite !to_bytes_app. change (to_bytes ".") with ["."%char]. cbn [app].
  assert (Hno : forall v, safeIdentifier v = true -> "."%char ∉ to_bytes v) by (intros v Hv Hin; by apply (safe_bytes v) in Hin).
  assert (G : forall a b, "."%char ∉ a -> "."%char ∉ b -> split_byte "." (a ++ "."%char :: b) = [a; b]).
  { clear. intros a b Ha Hb. assert (Hb' : split_byte "." b = [b]).
    { clear Ha. induction b as [|c b IH]; [done|]. rewrite not_elem_of_cons in Hb. destruct Hb as [Hc Hb]. cbn [split_byte]. rewrite (proj2 (Ascii.eqb_neq c ".")) by congruence. by rewrite IH. }
    induction a as [|c a IH]; cbn [app split_byte]; [by rewrite Hb'|]. rewrite not_elem_of_cons in Ha. destruct Ha as [Hc Ha]. rewrite (proj2 (Ascii.eqb_neq c ".")) by congruence. by rewrite IH. }
  pose proof Hr as Hr'. unfold safeRole in Hr'. apply andb_prop in Hr' as [Hr' _]. rewrite G by auto. cbn [map]. by rewrite !of_to_bytes, Hr, Hc.
Qed.

Lemma split_field_id id role column : splitFieldID id = Some (role, column) -> id = field_id role column.
Proof. intros (E & _ & _)%splitFieldID_bytes. apply to_bytes_inj. unfold field_id. by rewrite !to_bytes_app. Qed.

Lemma schema_lookup role product columns id : safeRole role = true -> Forall (fun c => safeIdentifier c = true) columns ->
  schema_of role product columns !! id =
    '(r, column) ← splitFieldID id; if bool_decide (r = role /\ column ∈ columns) then Some (fieldFromProduct id r column product) else None.
Proof.
  intros Hr. induction columns as [|c columns IH]; intros Hc.
  - change (schema_of role product [] !! id) with ((∅ : Schema) !! id). rewrite lookup_empty. destruct (splitFieldID id) as [[r column]|]; [|done]. cbn. rewrite bool_decide_eq_false_2; [done|]. by intros [_ ?%elem_of_nil].
  - apply Forall_cons in Hc as [Hc Hcs]. cbn [schema_of foldr]. destruct (decide (id = field_id role c)) as [->|Hne].
    + rewrite lookup_insert_eq, field_id_split by done. cbn. rewrite bool_decide_eq_true_2; [done|]. split; [done|by left].
    + rewrite lookup_insert_ne by done. change (foldr _ ∅ columns) with (schema_of role product columns). rewrite IH by done.
      destruct (splitFieldID id) as [[r column]|] eqn:E; [|done]. cbn. apply split_field_id in E as ->.
      assert (Eb : bool_decide (r = role /\ column ∈ columns) = bool_decide (r = role /\ column ∈ c :: columns)); [|by rewrite Eb].
      apply bool_iff_eq. rewrite !bool_decide_eq_true, elem_of_cons. split; [naive_solver|]. intros [-> [->|?]]; [done|done].
Qed.

(** ** A scan *)
Definition scan_ok (scan : Scan) : Prop := exists out, compileExplicitScan scan products = Ok out.

Lemma scan_compiled scan sql source schema : compileExplicitScan scan products = Ok (sql, source, schema) ->
  safeRole (scRole scan) = true /\ (forall id, schema !! id = scan_field scan id) /\ rsRole source = scRole scan.
Proof.
  unfold compileExplicitScan, scan_field. destruct (products !! scProduct scan) as [product|]; [|done].
  rewrite !fail_if_bind_ok. intros (_ & [_ Hrole]%orb_false_iff & _ & H). apply bind_ok in H as ([] & Hprofile & H).
  rewrite fail_if_bind_ok in H. destruct H as [_ H]. apply bind_ok in H as (where_ & _ & [= _ <- <-]). apply negb_false_iff in Hrole. split; [done|]. split; [|done].
  intros id. rewrite schema_lookup; [|done|].
  - destruct (splitFieldID id) as [[r column]|]; [|done]. cbn. assert (Eb : bool_decide (r = scRole scan /\ column ∈ elements (pColumns product)) = bool_decide (r = scRole scan /\ column ∈ pColumns product)).
    { apply bool_iff_eq. by rewrite !bool_decide_eq_true, elem_of_elements. } by rewrite Eb.
  - unfold validateProductSQLProfileV2 in Hprofile. apply fail_if_bind_ok in Hprofile as [_ Hprofile]. apply seq_ok in Hprofile as [Hc _]. apply check_all_ok in Hc.
    eapply Forall_impl; [exact Hc|]. intros c Hok. unfold typed_column in Hok. apply fail_if_ok, orb_false_iff in Hok as [Hs _]. by apply negb_false_iff.
Qed.

(** ** The sources *)
Definition compiled (scan : Scan) (j : joinSource) : Prop :=
  exists sql source schema, compileExplicitScan scan products = Ok (sql, source, schema) /\ j = MkJoinSource scan sql source schema.
Definition merged (js : list joinSource) : Schema := foldl (fun m j => jsSchema j ∪ m) ∅ js.

Lemma compiled_scans scans js : Forall2 compiled scans js -> map jsScan js = scans.
Proof. induction 1 as [|s j ss js (? & ? & ? & _ & ->) F IH]; [done|]. cbn. by rewrite IH. Qed.

Lemma field_at_app a b id : field_at (a ++ b) id = match field_at a id with Some f => Some f | None => field_at b id end.
Proof. induction a as [|s a IH]; [done|]. cbn [app field_at]. by destruct (scan_field s id). Qed.

Lemma scan_field_role scan id f : scan_field scan id = Some f -> rfRole f = scRole scan /\ exists column, splitFieldID id = Some (scRole scan, column) /\ rfColumn f = column.
Proof.
  unfold scan_field. destruct (splitFieldID id) as [[r c]|] eqn:E; [|done]. cbn. destruct (products !! scProduct scan) as [p|]; [|done]. cbn.
  destruct (bool_decide _) eqn:Eb; [|done]. apply bool_decide_eq_true in Eb as [-> _]. intros [= <-]. cbn. eauto.
Qed.
Lemma field_at_role scans id f : field_at scans id = Some f -> rfRole f ∈ map scRole scans /\ exists column, splitFieldID id = Some (rfRole f, column).
Proof.
  induction scans as [|s scans IH]; [done|]. cbn [field_at map]. destruct (scan_field s id) as [g|] eqn:E.
  - intros [= ->]. apply scan_field_role in E as [Hr (c & Hs & _)]. rewrite Hr. split; [by left|by exists c].
  - intros [? ?]%IH. split; [by right|done].
Qed.

(** Fields of distinct roles are distinct, so the union of the schemas never
    fails and is the fields the sources name. *)
Lemma merged_lookup scans js : Forall2 compiled scans js -> NoDup (map scRole scans) -> forall id, merged js !! id = field_at scans id.
Proof.
  revert js. induction scans as [|s scans IH] using rev_ind; intros js F Hnd id.
  - inversion F; subst. apply (lookup_empty (M := gmap string)).
  - apply Forall2_app_inv_l in F as (js' & tail & F & Ft & ->). inversion Ft as [|? j ? [] Hj F']; subst; [|inversion F']. clear F' Ft.
    rewrite map_app in Hnd. apply NoDup_app in Hnd as (Hnd & Hnew & _). unfold merged. rewrite foldl_app. cbn [foldl]. change (foldl _ ∅ js') with (merged js').
    destruct Hj as (sql & source & schema & Hs & ->). cbn [jsSchema]. apply scan_compiled in Hs as (_ & Hs & _). rewrite lookup_union, Hs, field_at_app, (IH _ F Hnd). cbn [field_at].
    destruct (scan_field s id) as [f|] eqn:E1, (field_at scans id) as [g|] eqn:E2; try done. exfalso.
    apply scan_field_role in E1 as (_ & c & E1 & _). apply field_at_role in E2 as (Hin & c' & E2). rewrite E1 in E2. injection E2 as Eg _. rewrite <- Eg in Hin.
    apply (Hnew (scRole s)); [done|]. by left.
Qed.

Lemma sources_exact scans s : fold_res (add_source products) (MkSources [] [] ∅) scans = Ok s <->
  NoDup (map scProduct scans) /\ NoDup (map scRole scans) /\ exists js, Forall2 compiled scans js /\ s = MkSources js (rev (map scProduct scans)) (merged js).
Proof.
  revert s. induction scans as [|scan scans IH] using rev_ind; intros s.
  - cbn. split; [intros <-%Ok_inj; split; [constructor|]; split; [constructor|]; by exists []|]. intros (_ & _ & js & F & ->). inversion F; subst. done.
  - rewrite fold_res_app, bind_ok, !map_app. cbn [fold_res map]. setoid_rewrite bind_ok. split.
    + intros (s1 & (Hp & Hr & js & F & ->)%IH & s2 & H & <-%Ok_inj). unfold add_source in H. rewrite !fail_if_bind_ok, !bool_decide_eq_false in H. cbn [ssProducts ssSources ssSchema] in H.
      destruct H as (Hnp & Hnr & H). apply bind_ok in H as ([[sql source] schema] & Hs & H). cbn beta iota in H. apply bind_ok in H as (m & Hm & <-%Ok_inj).
      unfold add_fields in Hm. apply fail_if_bind_ok in Hm as [_ <-%Ok_inj].
      assert (Eroles : map (fun s => scRole (jsScan s)) js = map scRole scans) by (rewrite <- (compiled_scans _ _ F), map_map; done). rewrite Eroles in Hnr.
      rewrite list_elem_of_In, <- in_rev, <- list_elem_of_In in Hnp. split; [|split].
      * apply NoDup_app. split; [done|]. split; [|apply NoDup_singleton]. intros x Hx ->%list_elem_of_singleton. done.
      * apply NoDup_app. split; [done|]. split; [|apply NoDup_singleton]. intros x Hx ->%list_elem_of_singleton. done.
      * exists (js ++ [MkJoinSource scan sql source schema]). split; [apply Forall2_app; [done|]; constructor; [by eexists _, _, _|constructor]|].
        rewrite rev_app_distr. unfold merged. by rewrite foldl_app.
    + intros (Hp & Hr & js0 & F & ->). apply Forall2_app_inv_l in F as (js & tail & F & Ft & ->). inversion Ft as [|? j ? [] Hj F']; subst; [|inversion F']. clear F' Ft.
      pose proof Hp as (Hp1 & Hp2 & _)%NoDup_app. pose proof Hr as (Hr1 & Hr2 & _)%NoDup_app.
      destruct Hj as (sql & source & schema & Hs & ->). eexists. split; [apply IH; split; [done|]; split; [done|]; by exists js|]. eexists. split; [|done].
      assert (Eroles : map (fun s => scRole (jsScan s)) js = map scRole scans) by (rewrite <- (compiled_scans _ _ F), map_map; done).
      unfold add_source. rewrite !fail_if_bind_ok, !bool_decide_eq_false. cbn [ssProducts ssSources ssSchema]. rewrite Eroles. split; [|split].
      * rewrite list_elem_of_In, <- in_rev, <- list_elem_of_In. intros Hin. apply (Hp2 _ Hin). by left.
      * intros Hin. apply (Hr2 _ Hin). by left.
      * rewrite Hs. cbn [mbind result_bind]. unfold add_fields. rewrite bool_decide_eq_true_2; [|].
        -- cbn [negb fail_if mbind result_bind]. rewrite rev_app_distr. unfold merged. by rewrite foldl_app.
        -- apply map_disjoint_spec. intros id f g Hf Hg. rewrite (merged_lookup _ _ F Hr1) in Hf. apply scan_compiled in Hs as (_ & Hs & _). rewrite Hs in Hg.
           apply scan_field_role in Hg as (_ & c & E1 & _). apply field_at_role in Hf as (Hin & c' & E2). rewrite E1 in E2. injection E2 as Eg _. rewrite <- Eg in Hin. apply (Hr2 _ Hin). by left.
Qed.

(** ** The equalities *)
Record predicate_ok (scans : list Scan) (p : JoinPredicate) : Prop := {
  jp_fields : exists l r, field_at scans (jpLeft p) = Some l /\ field_at scans (jpRight p) = Some r /\
    rfRole l <> rfRole r /\ rfSQLType l = rfSQLType r /\ rfCollation l = rfCollation r /\ rfCollationVersion l = rfCollationVersion r }.

Definition role_of (scans : list Scan) (id : string) : string := default "" (rfRole <$> field_at scans id).
Definition sql_of (scans : list Scan) (id : string) : string := default "" (fieldSQL <$> field_at scans id).
Definition index_in (scans : list Scan) (id : string) : nat := default 0%nat (index_of (role_of scans id) (map scRole scans)).
(** The condition an equality stands for, and the sources it links. *)
Definition condition (scans : list Scan) (p : JoinPredicate) : string := sql_of scans (jpLeft p) +:+ " = " +:+ sql_of scans (jpRight p).
Definition edge_of (scans : list Scan) (p : JoinPredicate) : joinEdge := MkEdge (role_of scans (jpLeft p)) (role_of scans (jpRight p)) (condition scans p).
Definition pair_of (scans : list Scan) (p : JoinPredicate) : nat * nat := (index_in scans (jpLeft p), index_in scans (jpRight p)).

Lemma index_of_member role roles : role ∈ roles -> exists i, index_of role roles = Some i /\ roles !! i = Some role.
Proof.
  induction roles as [|r roles IH]; [by intros ?%elem_of_nil|]. intros Hin. cbn [index_of]. unfold same. destruct (decide (r = role)) as [->|Hne].
  - rewrite bool_decide_eq_true_2 by done. by exists 0%nat.
  - rewrite bool_decide_eq_false_2 by done. apply elem_of_cons in Hin as [->|Hin]; [done|]. destruct (IH Hin) as (i & -> & Hi). by exists (S i).
Qed.

Lemma index_in_role scans id f : field_at scans id = Some f -> map scRole scans !! index_in scans id = Some (rfRole f) /\ index_of (rfRole f) (map scRole scans) = Some (index_in scans id).
Proof.
  intros E. unfold index_in, role_of. rewrite E. cbn. apply field_at_role in E as [Hin _]. by destruct (index_of_member _ _ Hin) as (i & -> & Hi).
Qed.

Lemma predicate_fields_ok scans schema p x : (forall id, schema !! id = field_at scans id) ->
  predicate_fields schema (map scRole scans) p = Ok x <->
  exists l r, field_at scans (jpLeft p) = Some l /\ field_at scans (jpRight p) = Some r /\ rfRole l <> rfRole r /\
    x = ((rfRole l, l, index_in scans (jpLeft p)), (rfRole r, r, index_in scans (jpRight p))).
Proof.
  intros Hs. unfold predicate_fields. rewrite !Hs. split.
  - destruct (splitFieldID (jpLeft p)) as [[lr lc]|] eqn:E1; [|done]. destruct (splitFieldID (jpRight p)) as [[rr rc]|] eqn:E2; [|done].
    destruct (index_of lr _) as [i|] eqn:E3; [|done]. destruct (index_of rr _) as [j|] eqn:E4; [|done].
    destruct (field_at scans (jpLeft p)) as [l|] eqn:E5; [|done]. destruct (field_at scans (jpRight p)) as [r|] eqn:E6; [|done].
    intros [Hne <-%Ok_inj]%fail_if_bind_ok. apply bool_decide_eq_false in Hne. exists l, r. split; [done|]. split; [done|].
    pose proof (field_at_role _ _ _ E5) as [_ (c & E1')]. rewrite E1 in E1'. injection E1' as -> _.
    pose proof (field_at_role _ _ _ E6) as [_ (c' & E2')]. rewrite E2 in E2'. injection E2' as -> _. split; [done|].
    apply index_in_role in E5 as [_ E5], E6 as [_ E6]. congruence.
  - intros (l & r & E5 & E6 & Hne & ->). pose proof (field_at_role _ _ _ E5) as [_ (c & ->)]. pose proof (field_at_role _ _ _ E6) as [_ (c' & ->)].
    rewrite E5, E6. apply index_in_role in E5 as [_ ->], E6 as [_ ->]. unfold same. by rewrite bool_decide_eq_false_2.
Qed.

Lemma add_edge_ok fuel scans schema s p s' : (forall id, schema !! id = field_at scans id) ->
  add_edge fuel schema (map scRole scans) s p = Ok s' <->
  predicate_ok scans p /\ predicate_key p ∉ esSeen s /\
  s' = MkEdges (esEdges s ++ [edge_of scans p]) (predicate_key p :: esSeen s) (union_roots fuel (esParents s) (pair_of scans p).1 (pair_of scans p).2).
Proof.
  intros Hs. unfold add_edge. rewrite bind_ok. split.
  - intros (x & (l & r & El & Er & Hne & ->)%(predicate_fields_ok scans) & H); [|done]. cbn beta iota in H. rewrite !fail_if_bind_ok, bool_decide_eq_false, !orb_false_iff, !negb_false_iff in H.
    destruct H as (Hn & [[H1%same_true H2%same_true] H3%same_true] & <-%Ok_inj). split; [split; by exists l, r|]. split; [done|].
    unfold edge_of, condition, role_of, sql_of, pair_of. rewrite El, Er. done.
  - intros ([(l & r & El & Er & Hne & H1 & H2 & H3)] & Hn & ->). eexists. split; [apply (predicate_fields_ok scans); [done|]; by exists l, r|]. cbn beta iota.
    rewrite !fail_if_bind_ok, bool_decide_eq_false. split; [done|]. unfold same. rewrite !bool_decide_eq_true_2 by done. split; [done|].
    unfold edge_of, condition, role_of, sql_of, pair_of. rewrite El, Er. done.
Qed.

Lemma edges_exact fuel scans schema on e : (forall id, schema !! id = field_at scans id) ->
  fold_res (add_edge fuel schema (map scRole scans)) (MkEdges [] [] (seq 0 (length scans))) on = Ok e <->
  Forall (predicate_ok scans) on /\ NoDup (map predicate_key on) /\
  e = MkEdges (map (edge_of scans) on) (rev (map predicate_key on)) (unions fuel (map (pair_of scans) on) (seq 0 (length scans))).
Proof.
  intros Hs. revert e. induction on as [|p on IH] using rev_ind; intros e.
  - cbn. split; [intros <-%Ok_inj; split; [done|]; split; [constructor|done]|by intros (_ & _ & ->)].
  - rewrite fold_res_app, bind_ok, !map_app, Forall_app, Forall_singleton. cbn [fold_res map]. setoid_rewrite bind_ok. split.
    + intros (s & (H1 & H2 & ->)%IH & s' & (Hp & Hn & ->)%(add_edge_ok _ scans) & <-%Ok_inj); [|done]. cbn [esEdges esSeen esParents] in *.
      rewrite list_elem_of_In, <- in_rev, <- list_elem_of_In in Hn. split; [done|]. split.
      * apply NoDup_app. split; [done|]. split; [|apply NoDup_singleton]. intros x Hx ->%list_elem_of_singleton. done.
      * rewrite rev_app_distr. unfold unions. by rewrite foldl_app.
    + intros ((H1 & Hp) & H2 & ->). apply NoDup_app in H2 as (H2 & Hn & _). eexists. split; [apply IH; split; [done|]; split; [done|done]|]. eexists. split; [|done].
      apply (add_edge_ok _ scans); [done|]. cbn [esEdges esSeen esParents]. split; [done|]. split.
      * rewrite list_elem_of_In, <- in_rev, <- list_elem_of_In. intros Hin. apply (Hn _ Hin). by left.
      * rewrite rev_app_distr. unfold unions. by rewrite foldl_app.
Qed.

(** ** Acceptance *)
Record join_ok (join : JoinMany) (plan : QueryPlan) : Prop := {
  jo_count : 2 <= Z.of_nat (length (jmSources join)) <= MaxJoinSources;
  jo_on : jmOn join <> [];
  jo_scans : Forall scan_ok (jmSources join);
  jo_products : NoDup (map scProduct (jmSources join));
  jo_roles : NoDup (map scRole (jmSources join));
  jo_predicates : Forall (predicate_ok (jmSources join)) (jmOn join) /\ NoDup (map predicate_key (jmOn join));
  jo_connected : forall i, (i < length (jmSources join))%nat -> rtsc (linked (map (pair_of (jmSources join)) (jmOn join))) 0%nat i;
  jo_filters : Forall (fun f => is_Some (field_at (jmSources join) (fiColumn f)) /\ filter_ok f = true) (qFilters plan) }.

Lemma qualified_filters_ok fields filters :
  is_ok (compileQualifiedFilters filters fields) = true <-> Forall (fun f => is_Some (fields !! fiColumn f) /\ filter_ok f = true) filters.
Proof.
  unfold compileQualifiedFilters. assert (G : forall acc, is_ok (fold_res (fun parts filter => match fields !! fiColumn filter with
      | None => Err (ErrNew "filter field %q is absent")
      | Some field => compileFilterExpression (fieldSQL field) filter ≫= fun expression => Ok (parts ++ [expression]) end) acc filters) = true <->
    Forall (fun f => is_Some (fields !! fiColumn f) /\ filter_ok f = true) filters).
  { induction filters as [|f filters IH]; intros acc; [by cbn|]. cbn [fold_res]. rewrite Forall_cons. destruct (fields !! fiColumn f) as [field|].
    - rewrite <- (filter_accepted (fieldSQL field) f). destruct (compileFilterExpression (fieldSQL field) f) as [t|]; cbn [mbind result_bind is_ok].
      + rewrite IH. naive_solver.
      + split; [done|]. by intros [[_ ?] _].
    - cbn. split; [done|]. intros [[[? ?] _] _]. done. }
  rewrite <- (G []). by destruct (fold_res _ [] filters).
Qed.

(** The sources and the equalities of an accepted join, ready for the loop. *)
Definition texts_of (js : list joinSource) : list (string * string) := map (fun s => (scRole (jsScan s), jsSQL s)) js.

Lemma texts_roles scans js : Forall2 compiled scans js -> map fst (texts_of js) = map scRole scans.
Proof. intros F. unfold texts_of. rewrite map_map, <- (compiled_scans _ _ F), map_map. done. Qed.

Lemma safe_role_nonempty role : safeRole role = true -> role <> "".
Proof. intros [H _]%andb_prop ->. done. Qed.

Lemma loop_edges_ok scans js on : Forall2 compiled scans js -> Forall (predicate_ok scans) on ->
  Forall (fun e => jeLeftRole e ∈ map fst (texts_of js) /\ jeRightRole e ∈ map fst (texts_of js) /\ jeLeftRole e <> jeRightRole e /\ jeLeftRole e <> "" /\ jeRightRole e <> "")
    (map (edge_of scans) on).
Proof.
  intros F Hon. rewrite (texts_roles _ _ F). assert (Hsafe : forall r, r ∈ map scRole scans -> r <> "").
  { clear -F. induction F as [|s j ss js (sql & source & schema & Hs & _) F IH]; [by intros r ?%elem_of_nil|]. cbn [map]. intros r [->|Hr]%elem_of_cons; [|by apply IH].
    apply scan_compiled in Hs as (Hs & _). by apply safe_role_nonempty. }
  apply Forall_map. eapply Forall_impl; [exact Hon|]. intros p [(l & r & El & Er & Hne & _)]. unfold edge_of, role_of. cbn [jeLeftRole jeRightRole]. rewrite El, Er. cbn.
  apply field_at_role in El as [El _], Er as [Er _]. auto 6.
Qed.

Lemma loop_crossing scans js on : Forall2 compiled scans js -> NoDup (map scRole scans) -> Forall (predicate_ok scans) on -> (0 < length scans)%nat ->
  (forall i, (i < length scans)%nat -> rtsc (linked (map (pair_of scans) on)) 0%nat i) -> crossing (texts_of js) (map (edge_of scans) on).
Proof.
  intros F Hnd Hon Hpos Hconn J H0 (r & Hr & Hnr). rewrite (texts_roles _ _ F) in Hr. apply list_elem_of_lookup in Hr as (i & Hi).
  assert (Hat : forall i, (i < length scans)%nat -> map scRole scans !! i = Some (role_at (texts_of js) i)).
  { intros k Hk. rewrite <- (texts_roles _ _ F). apply role_lookup. unfold texts_of. rewrite length_map. by rewrite <- (Forall2_length _ _ _ F). }
  assert (Hlt : (i < length scans)%nat) by (apply lookup_lt_Some in Hi; by rewrite length_map in Hi).
  specialize (Hconn i Hlt). assert (Hri : role_at (texts_of js) i = r) by (rewrite Hat in Hi by done; by injection Hi). clear Hi. subst r.
  assert (Hrange : forall k, rtsc (linked (map (pair_of scans) on)) 0%nat k -> (k < length scans)%nat).
  { intros k Hk. eapply linked_range; [|exact Hpos|exact Hk]. apply Forall_map. eapply Forall_impl; [exact Hon|]. intros p [(l & r & El & Er & _)]. cbn.
    apply index_in_role in El as [El _], Er as [Er _]. apply lookup_lt_Some in El, Er. rewrite length_map in El, Er. done. }
  (* the first step of the path that leaves J *)
  assert (G : forall z, rtsc (linked (map (pair_of scans) on)) 0%nat z -> role_at (texts_of js) z ∉ J ->
    exists e, e ∈ map (edge_of scans) on /\ (jeLeftRole e ∈ J /\ jeRightRole e ∉ J \/ jeRightRole e ∈ J /\ jeLeftRole e ∉ J)); [|by eapply G].
  clear i Hconn Hlt Hnr. apply (rtc_ind_r (fun z => role_at (texts_of js) z ∉ J -> _)); [done|]. intros k i Hpath Hstep IH Hni.
  destruct (decide (role_at (texts_of js) k ∈ J)) as [Hin|Hout]; [|by apply IH].
  assert (Hi : (i < length scans)%nat) by (apply Hrange; by eapply rtc_r).
  pose proof Hon as Hon'. rewrite Forall_forall in Hon'.
  destruct Hstep as [Hstep|Hstep]; unfold linked in Hstep; apply list_elem_of_fmap in Hstep as (p & E & Hp);
    destruct (Hon' p Hp) as [(l & rr & El & Er & _)]; exists (edge_of scans p); (split; [by apply list_elem_of_fmap_2|]);
    unfold edge_of, role_of; cbn [jeLeftRole jeRightRole]; rewrite El, Er; cbn [fmap option_fmap option_map default id];
    apply index_in_role in El as [El _], Er as [Er _]; injection E as E1 E2.
  - left. rewrite <- E1, Hat in El by (apply Hrange, Hpath). rewrite <- E2, Hat in Er by done. injection El as <-. injection Er as <-. done.
  - right. rewrite <- E1, Hat in El by done. rewrite <- E2, Hat in Er by (apply Hrange, Hpath). injection El as <-. injection Er as <-. done.
Qed.

Lemma join_invert join plan out : compileJoinMany join plan products = Ok out -> join_ok join plan.
Proof.
  unfold compileJoinMany. rewrite !fail_if_bind_ok, orb_false_iff, bool_decide_eq_false. intros ([Hmin Hmax] & Hon & H).
  apply bind_ok in H as (s & (Hp & Hr & js & F & ->)%sources_exact & H). cbn [ssSources ssSchema] in H. pose proof (merged_lookup _ _ F Hr) as Hm.
  assert (Eroles : map (fun s => scRole (jsScan s)) js = map scRole (jmSources join)) by (rewrite <- (compiled_scans _ _ F), map_map; done).
  rewrite Eroles, <- (Forall2_length _ _ _ F) in H. apply bind_ok in H as (e & (H1 & H2 & ->)%edges_exact & H); [|done]. cbn [esParents esEdges] in H.
  apply bind_ok in H as (q & Hq & H). apply bind_ok in H as (w & Hw & _).
  assert (Hrange : in_range (length (jmSources join)) (map (pair_of (jmSources join)) (jmOn join))).
  { apply Forall_map. eapply Forall_impl; [exact H1|]. intros p [(l & r & El & Er & _)]. cbn. apply index_in_role in El as [El _], Er as [Er _].
    apply lookup_lt_Some in El, Er. rewrite length_map in El, Er. done. }
  destruct (unions_spec (length (jmSources join)) (S (length (jmOn join))) _ Hrange) as [Hf Hrel]; [rewrite length_map; lia|]. rewrite length_map in Hf.
  split; [lia|done| |done|done|done| |].
  - clear -F. induction F as [|scan j ss js (sql & source & schema & Hs & _) F IH]; constructor; [by eexists|done].
  - intros i Hi. apply Hrel; [lia|done|]. eapply connected_exact; [exact Hf| | | |exact Hi]; [apply Nat.lt_succ_diag_r|lia|]. by rewrite Hq.
  - assert (Hok : is_ok (compileQualifiedFilters (qFilters plan) (merged js)) = true) by by rewrite Hw. apply qualified_filters_ok in Hok.
    eapply Forall_impl; [exact Hok|]. intros f. cbn. by rewrite Hm.
Qed.

Lemma join_run join plan : join_ok join plan -> exists js steps s,
  Forall2 compiled (jmSources join) js /\
  written (texts_of js) (map (edge_of (jmSources join)) (jmOn join)) (sql_at (texts_of js) 0) steps s /\
  length (joOrder s) = length (texts_of js) /\
  compileJoinMany join plan products =
    Ok (omap (fun index => source_of products (merged js) plan (jmOn join) <$> js !! index) (joOrder s), merged js, joFrom s).
Proof.
  intros [Hcount Hon Hscans Hp Hr [H1 H2] Hconn Hfil].
  assert (Hjs : exists js, Forall2 compiled (jmSources join) js).
  { clear -Hscans. induction Hscans as [|scan ss [[[sql source] schema] Hs] Hscans [js F]]; [by exists []|]. eexists (_ :: js). constructor; [by eexists _, _, _|done]. }
  destruct Hjs as [js F]. pose proof (merged_lookup _ _ F Hr) as Hm. pose proof (Forall2_length _ _ _ F) as Hlen.
  set (edges := map (edge_of (jmSources join)) (jmOn join)).
  assert (Hlt : length (texts_of js) = length (jmSources join)) by (unfold texts_of; by rewrite length_map).
  assert (Hnd : NoDup (map fst (texts_of js))) by by rewrite (texts_roles _ _ F).
  pose proof (loop_edges_ok _ _ _ F H1) as Hedges. fold edges in Hedges.
  assert (Hcross : crossing (texts_of js) edges) by (apply loop_crossing; [done..|lia|done]).
  assert (Hrange : in_range (length (jmSources join)) (map (pair_of (jmSources join)) (jmOn join))).
  { apply Forall_map. eapply Forall_impl; [exact H1|]. intros p [(l & r & El & Er & _)]. cbn. apply index_in_role in El as [El _], Er as [Er _].
    apply lookup_lt_Some in El, Er. rewrite length_map in El, Er. done. }
  destruct (unions_spec (length (jmSources join)) (S (length (jmOn join))) _ Hrange) as [Hf Hrel]; [rewrite length_map; lia|]. rewrite length_map in Hf.
  assert (Hpos : (0 < length (texts_of js))%nat) by lia.
  pose proof (written_start (texts_of js) edges Hedges (sql_at (texts_of js) 0) Hpos) as W0.
  destruct (join_loop_written (texts_of js) edges Hnd Hedges Hcross (length js) _ _ _ W0) as (steps & s & Hloop & W & Hend); [unfold texts_of; rewrite length_map; cbn; lia|].
  exists js, steps, s. split; [done|]. split; [done|]. split; [done|]. unfold compileJoinMany.
  apply fail_if_bind_ok. split; [lia|]. apply fail_if_bind_ok. split; [by apply bool_decide_eq_false|].
  apply bind_ok. eexists. split; [apply sources_exact; split; [done|]; split; [done|]; by exists js|]. cbn [ssSources ssSchema]. cbv zeta.
  assert (Eroles : map (fun s => scRole (jsScan s)) js = map scRole (jmSources join)) by (rewrite <- (compiled_scans _ _ F), map_map; done).
  rewrite Eroles. apply bind_ok. eexists. split; [rewrite <- Hlen; apply edges_exact; done|]. cbn [esParents esEdges]. rewrite <- Hlen.
  assert (Hc : is_ok (check_connected (S (length (jmOn join))) (length (jmSources join)) (unions (S (length (jmOn join))) (map (pair_of (jmSources join)) (jmOn join)) (seq 0 (length (jmSources join))))) = true).
  { eapply connected_exact; [exact Hf|apply Nat.lt_succ_diag_r|lia|]. intros i Hi. apply Hrel; [lia|done|by apply Hconn]. }
  destruct (check_connected _ _ _) as [q|]; [|done]. cbn [mbind result_bind].
  assert (Hq : is_ok (compileQualifiedFilters (qFilters plan) (merged js)) = true).
  { apply qualified_filters_ok. eapply Forall_impl; [exact Hfil|]. intros f. cbn. by rewrite Hm. }
  destruct (compileQualifiedFilters _ _) as [w|]; [|done]. cbn [mbind result_bind].
  change (map (fun s => (scRole (jsScan s), jsSQL s)) js) with (texts_of js).
  assert (E0 : default ("", "") (texts_of js !! 0%nat) = (role_at (texts_of js) 0, sql_at (texts_of js) 0)) by (unfold role_at, sql_at; by destruct (default _ _)).
  rewrite E0, Hlen. fold edges. by rewrite Hloop.
Qed.

(** C38: [compileJoinMany] accepts exactly the joins of two to sixteen distinct
    approved products whose equalities link fields of two sources with the same
    type and collation and connect every source to the first: its union-find and
    its ordering loop reject nothing else, and the errors for a graph that cannot
    be ordered or an ambiguous field are never returned. *)
Theorem join_accepts join plan : (exists out, compileJoinMany join plan products = Ok out) <-> join_ok join plan.
Proof.
  split; [intros [out H]; by eapply join_invert|]. intros (js & steps & s & _ & _ & _ & E)%join_run. eauto.
Qed.

(** C39: The FROM clause of an accepted join names every source once, in an order
    where each is linked by its ON conditions to sources already named, and each
    equality of the plan is exactly one of those conditions. *)
Theorem join_written join plan sources schema from : compileJoinMany join plan products = Ok (sources, schema, from) ->
  exists js steps, Forall2 compiled (jmSources join) js /\
    from = sql_at (texts_of js) 0 +:+ steps_text (texts_of js) steps /\
    0%nat :: map fst steps ≡ₚ seq 0 (length (jmSources join)) /\
    flat_map snd steps ≡ₚ map (condition (jmSources join)) (jmOn join) /\
    well_scoped (texts_of js) (map (edge_of (jmSources join)) (jmOn join)) [0%nat] steps /\
    sources = omap (fun index => source_of products schema plan (jmOn join) <$> js !! index) (0%nat :: map fst steps) /\
    forall id, schema !! id = field_at (jmSources join) id.
Proof.
  intros E. pose proof (join_invert _ _ _ E) as Hok. pose proof (join_run _ _ Hok) as (js & steps & s & F & W & Hlen & E').
  rewrite E in E'. apply Ok_inj in E'. injection E' as -> -> ->. destruct Hok as [_ _ _ _ Hr [H1 _] _ _].
  assert (Hlt : length (texts_of js) = length (jmSources join)) by (unfold texts_of; rewrite length_map; symmetry; by eapply Forall2_length).
  exists js, steps. assert (Hnd : NoDup (map fst (texts_of js))) by by rewrite (texts_roles _ _ F).
  pose proof (written_all _ _ (loop_edges_ok _ _ _ F H1) _ _ _ W Hlen) as [Hp Hc]. destruct W as [Ho _ _ _ Hf _ Hs].
  rewrite Ho in Hp. rewrite <- Hlt, Ho. rewrite map_map in Hc. split; [done|]. split; [done|]. split; [done|]. split; [done|]. split; [done|]. split; [done|].
  by apply merged_lookup.
Qed.
End products.
End JoinPlanProps.
