(* ===== verification/RelationalPlan.v ===== *)
(** * Relational plans: the visible statement and its provenance companion

    [CompileRelational] of [src/internal/queryplan/relational.go], up to the
    ordinal program built from its result: the visible SQL, the companion that
    returns the source rows behind it, and what each of the two delivers. *)

From S2P Require Import Prelude GoBytes Sha256 Ordering GoText FactId SqlText QueryPlan CanonicalPlan JoinPlan.
Import Sha256 GoText FactId SqlText QueryPlan CanonicalPlan JoinPlan.

Module RelationalPlan.

(** ** Helpers *)
Definition uniqueOrdered (values : list string) : list string :=
  foldl (fun result value => if in_list value result then result else result ++ [value]) [] values.
Definition sortedUnique (values : list string) : list string := go_sort (uniqueOrdered (map (fun v => LowerText (TrimSpace v)) values)).
Definition relationalProducts (sources : list RelationalSource) : list string := sortedColumns (list_to_set (map rsProduct sources)).
Definition relationalOutputAlias (id : string) : string :=
  "tg_o_" +:+ hex_encode (take 8 (Sum256 (to_bytes ("taskgate-relational-output" +:+ nul +:+ id)))).

Definition ordinalProductField (column : string) (product : Product) : result unit :=
  fail_if (negb (safeIdentifier column) || blank (text_of (pColumnTypes product) column)) (ErrNew "ordinal field %q lacks a typed identity") ≫= fun _ =>
  CanonicalSQLTypeV2 (text_of (pColumnTypes product) column) ≫= fun _ => Ok tt.

(** ** [compileUnion] *)
(** A literal predicate on the result, moved into a branch. *)
Definition mapped_filter (filter : Filter) : Filter :=
  MkFilter (match splitFieldID (fiColumn filter) with Some (_, column) => column | None => "" end) (fiOp filter) (fiValue filter).

(** [text, _ := f()]: the empty string on an error. *)
Definition text_or_empty (r : result string) : string := match r with Ok t => t | Err _ => "" end.

Definition branch_where (product : Product) (outerFilters : list Filter) (scan : Scan) : string :=
  let leaf := match scFilters scan with [] => [] | _ => [text_or_empty (compileLeafFilterList (scFilters scan) (scRole scan) product)] end in
  let outer := match outerFilters with [] => [] | _ => [text_or_empty (compileLeafFilterList (map mapped_filter outerFilters) (scRole scan) product)] end in
  clause " WHERE " " AND " (leaf ++ outer).

Definition branch_visible (product : Product) (outerFilters : list Filter) (columns : list string) (scan : Scan) : string :=
  "SELECT " +:+ Join (map (fun column => qualified (scRole scan) column +:+ " AS " +:+ quoteIdentifier column) columns) ", " +:+
  " FROM " +:+ quoteIdentifier (scProduct scan) +:+ " AS " +:+ quoteIdentifier (scRole scan) +:+ branch_where product outerFilters scan.

Definition evidence_alias (role field : string) : string := "tg_" +:+ role +:+ "_" +:+ field.
Definition branch_provenance (product : Product) (outerFilters : list Filter) (role : string) (evidence : list string) (index : Z) (scan : Scan) : string :=
  "SELECT " +:+ Join ((format_int index +:+ " AS " +:+ quoteIdentifier "tg_branch") ::
    map (fun column => qualified (scRole scan) column +:+ " AS " +:+ quoteIdentifier (evidence_alias role column)) evidence) ", " +:+
  " FROM " +:+ quoteIdentifier (scProduct scan) +:+ " AS " +:+ quoteIdentifier (scRole scan) +:+ branch_where product outerFilters scan.

Definition union_evidence (union : UnionDistinct) (product : Product) : list string :=
  sortedColumns (list_to_set (uColumns union ++ pStableEntityKey product ++ pRequiredEvidence product ++
    map fiColumn (scFilters (uLeft union)) ++ map fiColumn (scFilters (uRight union)))).

Definition union_source (role : string) (evidence : list string) (branch : Z) (scan : Scan) : RelationalSource :=
  MkSource (scProduct scan) (scRole scan) (scFilters scan) evidence (evidenceAliases role evidence) branch.

Definition compileUnion (union : UnionDistinct) (outerFilters : list Filter) (products : Products) : result (list RelationalSource * Schema * string * string) :=
  fail_if (negb (safeRole (uRole union)) || same (scRole (uLeft union)) (scRole (uRight union)) || negb (same (scProduct (uLeft union)) (scProduct (uRight union))))
    (ErrNew "UNION DISTINCT requires one product, distinct branch roles, and a valid output role") ≫= fun _ =>
  match products !! scProduct (uLeft union) with
  | None => Err (ErrNew "UNION DISTINCT product is not approved")
  | Some product =>
      fail_if (negb (same (uRole union) (pStableRole product))) (ErrNew "UNION DISTINCT output role must equal the Catalog stable relation role") ≫= fun _ =>
      fail_if (bool_decide (uColumns union = [])) (ErrNew "UNION DISTINCT requires its complete deduplication schema") ≫= fun _ =>
      let columns := uniqueOrdered (uColumns union) in
      fail_if (negb (bool_decide (length columns = length (uColumns union)))) (ErrNew "UNION DISTINCT repeats a deduplication column") ≫= fun _ =>
      check_all (fun column => allowedColumn column product) columns ≫= fun _ =>
      let schema := schema_of (uRole union) product columns in
      compileQualifiedFilters outerFilters schema ≫= fun _ =>
      compileLeafFilterList (scFilters (uLeft union)) (scRole (uLeft union)) product ≫= fun _ =>
      compileLeafFilterList (scFilters (uRight union)) (scRole (uRight union)) product ≫= fun _ =>
      check_all (fun column => ordinalProductField column product) (pRequiredEvidence product) ≫= fun _ =>
      let evidence := union_evidence union product in
      let visible := map (branch_visible product outerFilters columns) [uLeft union; uRight union] in
      let provenance := [branch_provenance product outerFilters (uRole union) evidence 0 (uLeft union);
                         branch_provenance product outerFilters (uRole union) evidence 1 (uRight union)] in
      Ok ([union_source (uRole union) evidence 0 (uLeft union); union_source (uRole union) evidence 1 (uRight union)], schema,
          "(" +:+ Join visible " UNION " +:+ ") AS " +:+ quoteIdentifier (uRole union), Join provenance " UNION ALL ")
  end.

(** ** [compileRelationalSelect] *)
Definition grouped (plan : QueryPlan) : bool := negb (bool_decide (qGroupBy plan = [])) || negb (bool_decide (qAggregates plan = [])).
Definition is_union (plan : QueryPlan) : bool := match qFrom plan with Some (MkFrom _ _ _ (Some _)) => true | _ => false end.

Definition request_column (fields : Schema) (requested : list string) (id : string) : result (list string) :=
  fail_if (bool_decide (fields !! id = None)) (ErrNew "column %q is not in the relation schema") ≫= fun _ =>
  fail_if (in_list id requested) (ErrNew "duplicate select name %q") ≫= fun _ => Ok (requested ++ [id]).

(** The columns of the inner result: a plain union keeps its complete tuple, a
    grouped plan its keys. *)
Definition selected_fields (plan : QueryPlan) (fields : Schema) : result (list string) :=
  let base := if negb (grouped plan) && is_union plan then sortedColumns (dom fields) else qColumns plan in
  if grouped plan then
    fold_res (fun selected group =>
      fail_if (bool_decide (fields !! group = None)) (ErrNew "group field %q is absent") ≫= fun _ =>
      Ok (if in_list group (qColumns plan) then selected else selected ++ [group])) base (qGroupBy plan) ≫= fun selected => Ok (uniqueOrdered selected)
  else Ok (uniqueOrdered base).

Definition field_or_empty (fields : Schema) (id : string) : relationalField := default (MkField "" "" "" "" "" "" "" ∅) (fields !! id).
Definition select_field (fields : Schema) (id : string) : string :=
  fieldSQL (field_or_empty fields id) +:+ " AS " +:+ quoteIdentifier (relationalOutputAlias id).

Definition relational_argument (fields : Schema) (fn column : string) : result string :=
  if same column "*" then
    fail_if (negb (same fn "count")) (ErrNew "aggregate %q does not accept *") ≫= fun _ =>
    check_all (fun entry : string * relationalField => fail_if (negb (bool_decide (fn ∈ rfAggregatePermissions entry.2)))
      (ErrNew "aggregate %q is not approved by every input")) (map_to_list fields) ≫= fun _ => Ok "*"
  else match fields !! column with
       | None => Err (ErrNew "aggregate field %q is absent")
       | Some field => fail_if (negb (bool_decide (fn ∈ rfAggregatePermissions field))) (ErrNew "aggregate %q is not approved") ≫= fun _ => Ok (fieldSQL field)
       end.

Definition relational_aggregate (fields : Schema) (s : list string * list string) (aggregate : Aggregate) : result (list string * list string) :=
  let '(names, selects) := s in
  let fn := LowerText (TrimSpace (agFunction aggregate)) in
  fail_if (negb (safeIdentifier (agAlias aggregate)) || HasPrefix (agAlias aggregate) "tg_") (ErrNew "aggregate alias is invalid") ≫= fun _ =>
  fail_if (in_list (agAlias aggregate) names) (ErrNew "duplicate select name %q") ≫= fun _ =>
  relational_argument fields fn (agColumn aggregate) ≫= fun argument =>
  Ok (names ++ [agAlias aggregate], selects ++ [fn +:+ "(" +:+ argument +:+ ") AS " +:+ quoteIdentifier (agAlias aggregate)]).

Definition relational_groups (plan : QueryPlan) (fields : Schema) : result string :=
  if grouped plan then
    let groups := uniqueOrdered (qGroupBy plan) in
    fail_if (negb (bool_decide (length groups = length (qGroupBy plan)))) (ErrNew "duplicate group field") ≫= fun _ =>
    check_all (fun column => fail_if (negb (in_list column groups)) (ErrNew "selected column %q is not grouped")) (qColumns plan) ≫= fun _ =>
    match groups with
    | [] => fail_if (negb (bool_decide (qColumns plan = []))) (ErrNew "selected columns require group_by") ≫= fun _ => Ok ""
    | _ => Ok (" GROUP BY " +:+ Join (map (fun group => fieldSQL (field_or_empty fields group)) groups) ", ")
    end
  else Ok "".

Record relational_select := MkSelect {
  slSQL : string; slInternal : list string; slVisible : list string; slAliases : gmap string string }.

Definition where_clause (filters : list Filter) (fields : Schema) : result string :=
  match filters with [] => Ok "" | _ => compileQualifiedFilters filters fields ≫= fun text => Ok (" WHERE " +:+ text) end.

Definition compileRelationalSelect (plan : QueryPlan) (fields : Schema) (fromSQL : string) : result relational_select :=
  fold_res (request_column fields) [] (qColumns plan) ≫= fun visible =>
  selected_fields plan fields ≫= fun selected =>
  fold_res (relational_aggregate fields) (visible, map (select_field fields) selected) (qAggregates plan) ≫= fun '(names, selects) =>
  fail_if (bool_decide (selects = [])) (ErrNew "empty select list") ≫= fun _ =>
  where_clause (qFilters plan) fields ≫= fun where_ =>
  relational_groups plan fields ≫= fun groups =>
  let aggregates := map agAlias (qAggregates plan) in
  Ok (MkSelect ("SELECT " +:+ Join selects ", " +:+ " FROM " +:+ fromSQL +:+ where_ +:+ groups) (selected ++ aggregates) names
        (list_to_map (map (fun alias => (alias, alias)) (rev aggregates) ++ map (fun id => (id, relationalOutputAlias id)) selected))).

(** ** The order of the companion's rows *)
Record OrdinalOrderSpec := MkOrderSpec { osKind : string; osFieldID : string; osSourceAlias : string; osProvenanceAlias : string; osDirection : string }.

(** [appendOrder]: an expression once. *)
Definition append_order (s : list string * list OrdinalOrderSpec) (entry : string * OrdinalOrderSpec) : list string * list OrdinalOrderSpec :=
  if in_list entry.1 s.1 then s else (s.1 ++ [entry.1], s.2 ++ [entry.2]).

Definition alias_of (source : RelationalSource) (column : string) : string := text_of (rsEvidenceAlias source) column.

Definition union_role (plan : QueryPlan) : string := match qFrom plan with Some (MkFrom _ _ _ (Some union)) => uRole union | _ => "" end.

Definition group_order (plan : QueryPlan) (kind : string) (sources : list RelationalSource) (fieldID : string) : result (string * OrdinalOrderSpec) :=
  match splitFieldID fieldID with
  | None => Err (ErrNew "invalid group field %q")
  | Some (role, column) =>
      if same kind "union_distinct" then
        match sources with
        | source :: _ =>
            fail_if (negb (same role (union_role plan))) (ErrNew "group field %q has no union source") ≫= fun _ =>
            let alias := alias_of source column in
            fail_if (same alias "") (ErrNew "group field %q has no provenance alias") ≫= fun _ =>
            Ok (quoteIdentifier alias, MkOrderSpec "group" fieldID "" alias "ASC")
        | [] => Err (ErrNew "group field %q has no union source")
        end
      else match List.find (fun source => same (rsRole source) role) sources with
           | None => Err (ErrNew "group field %q has no source")
           | Some source =>
               let alias := alias_of source column in
               fail_if (same alias "") (ErrNew "group field %q has no provenance alias") ≫= fun _ =>
               Ok (qualified (rsRole source) column, MkOrderSpec "group" fieldID (rsRole source) alias "ASC")
           end
  end.

Definition union_order (plan : QueryPlan) (source : RelationalSource) (column : string) : result (string * OrdinalOrderSpec) :=
  let alias := alias_of source column in
  fail_if (same alias "") (ErrNew "union field %q has no provenance alias") ≫= fun _ =>
  Ok (quoteIdentifier alias, MkOrderSpec "union" (field_id (union_role plan) column) "" alias "ASC").

Definition entity_order (plan : QueryPlan) (kind : string) (source : RelationalSource) (key : string) : result (string * OrdinalOrderSpec) :=
  let alias := alias_of source key in
  fail_if (same alias "") (ErrNew "entity key %q has no provenance alias") ≫= fun _ =>
  Ok (if same kind "union_distinct" then (quoteIdentifier alias, MkOrderSpec "entity" (field_id (union_role plan) key) "" alias "ASC")
      else (qualified (rsRole source) key, MkOrderSpec "entity" (field_id (rsRole source) key) (rsRole source) alias "ASC")).

Definition source_semantic_key (products : Products) (source : RelationalSource) : string :=
  let product := product_of products (rsProduct source) in
  pSourceNamespace product +:+ nul +:+ pSnapshot product +:+ nul +:+ pStableRole product +:+ nul +:+ rsRole source.

Definition collect {A B} (f : A -> result B) (xs : list A) : result (list B) :=
  fold_res (fun acc x => y ← f x; Ok (acc ++ [y])) [] xs.

Definition relationalGroupedProvenanceOrder (plan : QueryPlan) (kind : string) (sources : list RelationalSource) (unionColumns : list string) (products : Products)
  : result (string * list OrdinalOrderSpec) :=
  collect (group_order plan kind sources) (sortedUnique (qGroupBy plan)) ≫= fun groups =>
  (if same kind "union_distinct" then
     match sources with
     | [] => Err (ErrNew "UNION DISTINCT provenance has no source")
     | source :: _ => collect (union_order plan source) unionColumns
     end
   else Ok []) ≫= fun unions =>
  collect (fun entry : RelationalSource * string => entity_order plan kind entry.1 entry.2)
    (flat_map (fun source => map (fun key => (source, key)) (pStableEntityKey (product_of products (rsProduct source))))
       (sort_by (source_semantic_key products) sources)) ≫= fun entities =>
  let branch := if same kind "union_distinct" then [(quoteIdentifier "tg_branch", MkOrderSpec "branch" "" "" "tg_branch" "ASC")] else [] in
  let '(parts, specs) := foldl append_order ([], []) (groups ++ unions ++ entities ++ branch) in
  fail_if (bool_decide (parts = [])) (ErrNew "grouped provenance requires stable group or entity ordering") ≫= fun _ =>
  Ok (" ORDER BY " +:+ Join (map (fun part => part +:+ " ASC") parts) ", ", specs).

(** ** [CompileRelational] *)
Record RelationalCompilation := MkCompilation {
  rcVisibleSQL : string;
  rcProvenanceSQL : string;
  rcVisibleFields : list string;
  rcInternalFields : list string;
  rcProvenanceFields : list string;
  rcProducts : list string;
  rcKind : string;
  rcExpandedEvidence : bool;
  rcSources : list RelationalSource;
  rcJoinPredicates : list JoinPredicate;
  rcUnionColumns : list string;
  rcOutputAliases : gmap string string;
  rcProvenanceOrder : list OrdinalOrderSpec }.

(** What the operator of the FROM clause contributes: kind, sources, fields, and
    the texts of the two FROM clauses (the companion of a union is a whole
    statement). *)
Record relation := MkRelation {
  rlKind : string; rlSources : list RelationalSource; rlJoins : list JoinPredicate; rlUnionColumns : list string;
  rlFields : Schema; rlVisibleFrom : string; rlProvenanceFrom : string }.

Definition compile_from (plan : QueryPlan) (from : From) (products : Products) : result relation :=
  match from with
  | MkFrom (Some scan) _ _ _ =>
      compileExplicitScan scan products ≫= fun '(sql, source, schema) =>
      let evidence := evidenceFields scan (product_of products (scProduct scan)) schema plan [] [] in
      Ok (MkRelation "scan" [with_evidence source (scRole scan) evidence] [] [] schema sql sql)
  | MkFrom None _ (Some join) _ =>
      compileJoinMany join plan products ≫= fun '(sources, schema, text) => Ok (MkRelation "join" sources (jmOn join) [] schema text text)
  | MkFrom None _ None (Some union) =>
      compileUnion union (qFilters plan) products ≫= fun '(sources, schema, visible, provenance) =>
      Ok (MkRelation "union_distinct" sources [] (uColumns union) schema visible provenance)
  | MkFrom None _ None None => Ok (MkRelation "" [] [] [] ∅ "" "")
  end.

Definition alias_limit : Z := 63.
(** A column of the companion of a scan or join. *)
Definition provenance_column (s : list string * list string) (entry : RelationalSource * string) : result (list string * list string) :=
  let '(aliases, selects) := s in
  let '(source, field) := entry in
  let alias := alias_of source field in
  fail_if (alias_limit <? str_len alias) (ErrNew "provenance alias exceeds the PostgreSQL identifier limit") ≫= fun _ =>
  fail_if (in_list alias aliases) (ErrNew "provenance aliases collide") ≫= fun _ =>
  Ok (aliases ++ [alias], selects ++ [qualified (rsRole source) field +:+ " AS " +:+ quoteIdentifier alias]).

Definition source_columns (sources : list RelationalSource) : list (RelationalSource * string) :=
  flat_map (fun source => map (fun field => (source, field)) (rsEvidenceFields source)) sources.

Definition provenance_statement (plan : QueryPlan) (r : relation) : result (list string * string) :=
  if same (rlKind r) "union_distinct" then
    match rlSources r with
    | source :: _ =>
        fold_res (fun fields field =>
          fail_if (alias_limit <? str_len (alias_of source field)) (ErrNew "provenance alias exceeds the PostgreSQL identifier limit") ≫= fun _ =>
          Ok (fields ++ [alias_of source field])) ["tg_branch"] (rsEvidenceFields source) ≫= fun fields => Ok (fields, rlProvenanceFrom r)
    | [] => Ok (["tg_branch"], rlProvenanceFrom r)
    end
  else
    fold_res provenance_column ([], []) (source_columns (rlSources r)) ≫= fun '(fields, selects) =>
    where_clause (qFilters plan) (rlFields r) ≫= fun where_ =>
    Ok (fields, "SELECT " +:+ Join selects ", " +:+ " FROM " +:+ rlProvenanceFrom r +:+ where_).

(** The stable order of an ungrouped scan or join, appended to both statements. *)
Definition row_order (products : Products) (sources : list RelationalSource) : list (string * OrdinalOrderSpec) :=
  flat_map (fun source => map (fun key =>
    (qualified (rsRole source) key +:+ " ASC", MkOrderSpec "entity" (field_id (rsRole source) key) (rsRole source) (alias_of source key) "ASC"))
    (pStableEntityKey (product_of products (rsProduct source)))) sources.

Definition CompileRelational (plan : QueryPlan) (products : Products) : result RelationalCompilation :=
  fail_if (bool_decide (qFrom plan = None) || given (qProduct plan)) (ErrNew "relational QueryPlan requires from and forbids legacy product") ≫= fun _ =>
  CanonicalizeRelational plan products ≫= fun plan =>
  fail_if (negb (qLimit plan =? 0) || negb (qOffset plan =? 0) || negb (bool_decide (qOrderBy plan = [])))
    (ErrNew "pagination is outside the online Join/Union fragment") ≫= fun _ =>
  fail_if (Z.of_nat (length (qColumns plan)) + Z.of_nat (length (qAggregates plan)) =? 0) (ErrNew "empty select list") ≫= fun _ =>
  let from := default no_from (qFrom plan) in
  fail_if (negb (countFromMembers from =? 1)) (ErrNew "from must contain exactly one operator") ≫= fun _ =>
  compile_from plan from products ≫= fun r =>
  compileRelationalSelect plan (rlFields r) (rlVisibleFrom r) ≫= fun select =>
  provenance_statement plan r ≫= fun '(provenanceFields, provenanceSQL) =>
  let union := same (rlKind r) "union_distinct" in
  let rows := row_order products (rlSources r) in
  fail_if (negb (grouped plan) && negb union && bool_decide (rows = [])) (ErrNew "relational row delivery requires Catalog stable entity keys") ≫= fun _ =>
  let rowSQL := " ORDER BY " +:+ Join (map fst rows) ", " in
  (if negb (grouped plan) && negb union then Ok (rowSQL, map snd rows)
   else relationalGroupedProvenanceOrder plan (rlKind r) (rlSources r) (rlUnionColumns r) products) ≫= fun '(orderSQL, order) =>
  Ok (MkCompilation (slSQL select +:+ (if negb (grouped plan) && negb union then rowSQL else "")) (provenanceSQL +:+ orderSQL)
        (slVisible select) (slInternal select) provenanceFields (relationalProducts (rlSources r)) (rlKind r) union
        (rlSources r) (rlJoins r) (rlUnionColumns r) (slAliases select) order).

(** ** [RelationalProductNames] *)
Definition RelationalProductNames (plan : QueryPlan) : result (list string) :=
  let bad := ErrNew "relational QueryPlan has no unique from operator" in
  match qFrom plan with
  | None => Err bad
  | Some from =>
      fail_if (negb (countFromMembers from =? 1)) bad ≫= fun _ =>
      let names := match from with
                   | MkFrom (Some scan) _ _ _ => [scProduct scan]
                   | MkFrom None (Some join) _ _ => [scProduct (jnLeft join); scProduct (jnRight join)]
                   | MkFrom None None (Some join) _ => map scProduct (jmSources join)
                   | MkFrom None None None (Some union) => [scProduct (uLeft union); scProduct (uRight union)]
                   | MkFrom None None None None => []
                   end in
      check_all (fun name => fail_if (negb (safeIdentifier name)) (ErrNew "relational QueryPlan has an invalid product")) names ≫= fun _ =>
      Ok (sortedColumns (list_to_set names))
  end.
End RelationalPlan.
