(* ===== verification/RelationalProps.v ===== *)
(** * Relational plans: the companion returns the evidence of the answer *)

From S2P Require Import Prelude GoBytes Sha256 Ordering GoText FactId SqlText QueryPlan CanonicalPlan JoinPlan UnionFind JoinOrder JoinPlanProps RelationalPlan.
Import GoText FactId SqlText QueryPlan CanonicalPlan JoinPlan JoinOrder JoinPlanProps RelationalPlan.

Module RelationalProps.

(** ** Every field a statement uses is a field of its relation *)
Lemma in_list_elem x l : in_list x l = true <-> x ∈ l.
Proof.
  unfold in_list. rewrite existsb_exists, list_elem_of_In. split; [intros (y & Hy & ->%bool_decide_eq_true); done|]. intros Hx. exists x. by rewrite bool_decide_eq_true.
Qed.

Definition used_fields (plan : QueryPlan) : list string := dependency_ids plan ++ map fiColumn (qFilters plan).

Lemma where_ok filters fields text : where_clause filters fields = Ok text -> Forall (fun f => is_Some (fields !! fiColumn f) /\ filter_ok f = true) filters.
Proof.
  unfold where_clause. destruct filters as [|f fs]; [done|]. intros (w & Hw & _)%bind_ok. apply qualified_filters_ok. by rewrite Hw.
Qed.

Lemma select_uses plan fields sql sel : compileRelationalSelect plan fields sql = Ok sel -> forall id, id ∈ used_fields plan -> is_Some (fields !! id).
Proof.
  unfold compileRelationalSelect. intros (visible & Hv & H)%bind_ok. apply bind_ok in H as (selected & Hs & H). apply bind_ok in H as ([names selects] & Ha & H).
  apply fail_if_bind_ok in H as [_ H]. apply bind_ok in H as (w & Hw%where_ok & _).
  assert (Hcols : Forall (fun id => is_Some (fields !! id)) (qColumns plan)).
  { clear -Hv. revert visible Hv. generalize (@nil string). induction (qColumns plan) as [|c cs IH]; intros acc v; cbn [fold_res]; [done|].
    intros (s & H & Hv)%bind_ok. unfold request_column in H. apply fail_if_bind_ok in H as [Hc%bool_decide_eq_false _]. constructor; [by apply not_eq_None_Some|by eapply IH]. }
  assert (Hgroups : Forall (fun id => is_Some (fields !! id)) (qGroupBy plan)).
  { unfold selected_fields in Hs. destruct (grouped plan) eqn:Eg.
    - apply bind_ok in Hs as (s & Hs & _). clear -Hs. revert s Hs. generalize (if negb true && is_union plan then sortedColumns (dom fields) else qColumns plan).
      induction (qGroupBy plan) as [|g gs IH]; intros acc s; cbn [fold_res]; [done|]. intros (a & H & Hs)%bind_ok. apply fail_if_bind_ok in H as [Hc%bool_decide_eq_false _].
      constructor; [by apply not_eq_None_Some|by eapply IH].
    - unfold grouped in Eg. apply orb_false_iff in Eg as [Eg _]. apply negb_false_iff, bool_decide_eq_true in Eg. by rewrite Eg. }
  assert (Haggs : Forall (fun a => agColumn a = "*" \/ is_Some (fields !! agColumn a)) (qAggregates plan)).
  { clear -Ha. revert names selects Ha. generalize visible, (map (select_field fields) selected). induction (qAggregates plan) as [|a l IH]; intros v m names selects; cbn [fold_res]; [done|].
    intros ([n s] & H & Hs)%bind_ok. constructor; [|by eapply IH]. unfold relational_aggregate in H. apply fail_if_bind_ok in H as [_ H]. apply fail_if_bind_ok in H as [_ H].
    apply bind_ok in H as (argument & H & _). unfold relational_argument in H. destruct (same (agColumn a) "*") eqn:E; [left; by apply same_true|]. right.
    by destruct (fields !! agColumn a). }
  intros id Hid. unfold used_fields, dependency_ids in Hid. rewrite !elem_of_app in Hid. rewrite Forall_forall in Hcols. rewrite Forall_forall in Hgroups. rewrite Forall_forall in Haggs. rewrite Forall_forall in Hw.
  destruct Hid as [[[Hid|Hid]|Hid]|Hid]; [by apply Hcols|by apply Hgroups| |].
  - apply list_elem_of_In, in_flat_map in Hid as (a & Hin & Hid). apply list_elem_of_In in Hin. destruct (Haggs a Hin) as [E|E].
    + unfold same in Hid. by rewrite bool_decide_eq_true_2 in Hid.
    + destruct (same (agColumn a) "*"); [done|]. by destruct Hid as [<-|[]].
  - apply list_elem_of_fmap in Hid as (f & -> & Hin). by apply Hw.
Qed.

(** ** Evidence *)
Lemma elem_sortedColumns x s : x ∈ sortedColumns s <-> x ∈ s.
Proof. unfold sortedColumns. by rewrite elem_go_sort, elem_of_elements. Qed.

Lemma elem_field_columns schema role ids id field : id ∈ ids -> schema !! id = Some field -> rfRole field = role -> rfColumn field ∈ field_columns schema role ids.
Proof.
  intros Hin E Hr. unfold field_columns. apply list_elem_of_In, in_flat_map. exists id. split; [by apply list_elem_of_In|]. rewrite E. unfold same. rewrite bool_decide_eq_true_2 by done. by left.
Qed.

Lemma evidence_contains scan product schema plan joins union :
  let evidence := evidenceFields scan product schema plan joins union in
  (forall c, c ∈ pStableEntityKey product ++ pRequiredEvidence product ++ map fiColumn (scFilters scan) -> c ∈ evidence) /\
  (forall id field, id ∈ used_fields plan ++ flat_map (fun p => [jpLeft p; jpRight p]) joins -> schema !! id = Some field -> rfRole field = scRole scan -> rfColumn field ∈ evidence).
Proof.
  cbv zeta. unfold evidenceFields. split.
  - intros c Hc. apply elem_sortedColumns, elem_of_list_to_set. rewrite !elem_of_app in *. tauto.
  - intros id field Hid E Hr. apply elem_sortedColumns, elem_of_list_to_set. unfold used_fields in Hid. rewrite !elem_of_app in Hid. rewrite !elem_of_app.
    destruct Hid as [[Hid|Hid]|Hid].
    + do 4 right. left. by eapply elem_field_columns.
    + do 3 right. left. by eapply elem_field_columns.
    + do 5 right. left. by eapply elem_field_columns.
Qed.

(** The evidence of a source covers its product's keys and required columns, its
    own filters, and every field of its role that the plan uses. *)
Definition covers (plan : QueryPlan) (joins : list JoinPredicate) (products : Products) (sources : list RelationalSource) : Prop :=
  (forall source c, source ∈ sources -> c ∈ pStableEntityKey (product_of products (rsProduct source)) ++ pRequiredEvidence (product_of products (rsProduct source)) ++ map fiColumn (rsFilters source) ->
     c ∈ rsEvidenceFields source) /\
  (forall id, id ∈ used_fields plan ++ flat_map (fun p => [jpLeft p; jpRight p]) joins ->
     exists source column, source ∈ sources /\ splitFieldID id = Some (rsRole source, column) /\ column ∈ rsEvidenceFields source).

Definition aliased (source : RelationalSource) : Prop := forall c, c ∈ rsEvidenceFields source -> alias_of source c = evidence_alias (rsRole source) c.

Lemma evidence_alias_lookup role fields c : c ∈ fields -> text_of (evidenceAliases role fields) c = evidence_alias role c.
Proof.
  unfold text_of, evidenceAliases. intros Hin. assert (E : (list_to_map (map (fun field => (field, "tg_" +:+ role +:+ "_" +:+ field)) fields) : gmap string string) !! c = Some (evidence_alias role c)); [|by rewrite E].
  induction fields as [|f fields IH]; [by apply elem_of_nil in Hin|]. cbn [map list_to_map foldr]. destruct (decide (f = c)) as [->|Hne]; [by rewrite lookup_insert_eq|].
  rewrite lookup_insert_ne by done. apply IH. apply elem_of_cons in Hin as [->|Hin]; [done|done].
Qed.

Lemma scan_source products scan sql source schema : compileExplicitScan scan products = Ok (sql, source, schema) ->
  source = MkSource (scProduct scan) (scRole scan) (scFilters scan) [] ∅ 0.
Proof.
  unfold compileExplicitScan. destruct (products !! scProduct scan) as [product|]; [|done].
  rewrite !fail_if_bind_ok. intros (_ & _ & _ & H). apply seq_ok in H as [_ H]. rewrite fail_if_bind_ok in H. destruct H as [_ H]. by apply bind_ok in H as (where_ & _ & [= _ <- _]).
Qed.

(** ** Scans and joins *)
Lemma scan_covers plan products scan sql source schema : compileExplicitScan scan products = Ok (sql, source, schema) ->
  (forall id, id ∈ used_fields plan -> is_Some (schema !! id)) ->
  let sources := [with_evidence source (scRole scan) (evidenceFields scan (product_of products (scProduct scan)) schema plan [] [])] in
  covers plan [] products sources /\ Forall aliased sources.
Proof.
  intros E Hu. pose proof (scan_compiled _ _ _ _ _ E) as (_ & Hs & _). apply scan_source in E as ->. cbv zeta.
  set (evidence := evidenceFields _ _ _ _ _ _). destruct (evidence_contains scan (product_of products (scProduct scan)) schema plan [] []) as [H1 H2]. fold evidence in H1, H2. split; [split|].
  - intros source c ->%list_elem_of_singleton Hc. by apply H1.
  - intros id Hid. rewrite app_nil_r in Hid. destruct (Hu id Hid) as [field Hf]. pose proof Hf as Hf'. rewrite Hs in Hf'. apply scan_field_role in Hf' as (Hr & column & Hsp & Hc).
    eexists _, column. split; [by left|]. split; [done|]. cbn [with_evidence rsEvidenceFields]. rewrite <- Hc. eapply H2; [by rewrite app_nil_r|done|done].
  - apply Forall_singleton. intros c Hc. cbn in *. by apply evidence_alias_lookup.
Qed.

Lemma field_at_column products scans id f : field_at products scans id = Some f -> splitFieldID id = Some (rfRole f, rfColumn f).
Proof.
  induction scans as [|s scans IH]; [done|]. cbn [field_at]. destruct (scan_field products s id) as [g|] eqn:E; [|done]. intros [= ->].
  apply scan_field_role in E as (-> & c & -> & ->). done.
Qed.

Lemma join_covers plan products join sources schema text : compileJoinMany join plan products = Ok (sources, schema, text) ->
  (forall id, id ∈ used_fields plan -> is_Some (schema !! id)) -> covers plan (jmOn join) products sources /\ Forall aliased sources.
Proof.
  intros E Hu. pose proof (proj1 (join_accepts products join plan) (ex_intro _ _ E)) as [_ _ _ _ _ [Hpred _] _ _].
  apply join_written in E as (js & steps & F & _ & Hp & _ & _ & -> & Hm).
  assert (Hmem : forall source, source ∈ omap (fun index => source_of products schema plan (jmOn join) <$> js !! index) (0%nat :: map fst steps) <->
    exists j, j ∈ js /\ source = source_of products schema plan (jmOn join) j).
  { intros source. rewrite list_elem_of_omap. split.
    - intros (i & _ & H). destruct (js !! i) as [j|] eqn:Ej; [|done]. injection H as <-. exists j. split; [by eapply list_elem_of_lookup_2|done].
    - intros (j & (i & Hi)%list_elem_of_lookup & ->). exists i. split; [|by rewrite Hi]. rewrite Hp. apply elem_of_seq. apply lookup_lt_Some in Hi. rewrite (Forall2_length _ _ _ F). lia. }
  assert (Hj : forall j, j ∈ js -> exists scan, scan ∈ jmSources join /\ jsScan j = scan /\ jsSource j = MkSource (scProduct scan) (scRole scan) (scFilters scan) [] ∅ 0).
  { intros j Hj. apply list_elem_of_lookup in Hj as (i & Hi). destruct (Forall2_lookup_r _ _ _ _ _ F Hi) as (scan & Hs & (sql & source & sch & Hc & ->)).
    exists scan. split; [by eapply list_elem_of_lookup_2|]. split; [done|]. by apply scan_source in Hc. }
  assert (Hrole : forall r, r ∈ map scRole (jmSources join) -> exists j, j ∈ js /\ scRole (jsScan j) = r).
  { intros r Hr. rewrite <- (compiled_scans _ _ _ F), map_map in Hr. apply list_elem_of_fmap in Hr as (j & -> & Hj'). eauto. }
  split; [split|].
  - intros source c (j & Hjin & ->)%Hmem Hc. destruct (Hj j Hjin) as (scan & _ & Es & Esrc). unfold source_of in *. cbn [with_evidence rsEvidenceFields rsProduct rsFilters] in *. rewrite Esrc in Hc. cbn [rsProduct rsFilters] in Hc.
    rewrite Es. by apply evidence_contains.
  - intros id Hid. assert (Hsome : is_Some (schema !! id)).
    { apply elem_of_app in Hid as [Hid|Hid]; [by apply Hu|]. apply list_elem_of_In, in_flat_map in Hid as (p & Hpin & Hid). apply list_elem_of_In in Hpin.
      rewrite Forall_forall in Hpred. destruct (Hpred p Hpin) as [(l & r & El & Er & _)]. rewrite Hm. destruct Hid as [<-|[<-|[]]]; eauto. }
    destruct Hsome as [field Hf]. pose proof Hf as Hf'. rewrite Hm in Hf'. pose proof (field_at_column _ _ _ _ Hf') as Hsp. apply field_at_role in Hf' as [Hr _].
    destruct (Hrole _ Hr) as (j & Hjin & Er). destruct (Hj j Hjin) as (scan & _ & Es & Esrc).
    exists (source_of products schema plan (jmOn join) j), (rfColumn field). split; [apply Hmem; by exists j|].
    unfold source_of. cbn [with_evidence rsRole rsEvidenceFields]. rewrite Esrc. cbn [rsRole]. rewrite <- Es, Er. split; [done|].
    destruct (evidence_contains (jsScan j) (product_of products (scProduct (jsScan j))) schema plan (jmOn join) []) as [_ H2]. by eapply H2.
  - apply Forall_forall. intros source (j & Hjin & ->)%Hmem c Hc. destruct (Hj j Hjin) as (scan & _ & <- & Esrc).
    unfold source_of, alias_of in *. cbn [with_evidence rsRole rsEvidenceFields rsEvidenceAlias] in *. rewrite Esrc. cbn [rsRole]. by apply evidence_alias_lookup.
Qed.

Lemma from_covers plan from products r : compile_from plan from products = Ok r -> rlKind r <> "union_distinct" -> rlKind r <> "" ->
  (forall id, id ∈ used_fields plan -> is_Some (rlFields r !! id)) -> covers plan (rlJoins r) products (rlSources r) /\ Forall aliased (rlSources r).
Proof.
  destruct from as [[scan|] two [join|] [union|]]; cbn [compile_from]; intros H Hk Hk' Hu;
    try (apply bind_ok in H as ([[sql source] schema] & E & [= <-]); by apply (scan_covers _ _ _ _ _ _ E));
    try (apply bind_ok in H as ([[sources schema] text] & E & [= <-]); by apply (join_covers _ _ _ _ _ _ E)).
  - by apply bind_ok in H as ([[[sources schema] v] p] & E & [= <-]).
  - by injection H as <-.
Qed.

(** ** The companion's columns *)
Lemma provenance_columns_ok entries : forall aliases selects out, NoDup aliases -> fold_res provenance_column (aliases, selects) entries = Ok out ->
  out.1 = aliases ++ map (fun e => alias_of e.1 e.2) entries /\ NoDup out.1 /\
  out.2 = selects ++ map (fun e => qualified (rsRole e.1) e.2 +:+ " AS " +:+ quoteIdentifier (alias_of e.1 e.2)) entries.
Proof.
  induction entries as [|[source field] entries IH]; intros aliases selects out Hnd; cbn [fold_res map]; [intros <-%Ok_inj; by rewrite !app_nil_r|].
  intros ([a s] & H & Hout)%bind_ok. unfold provenance_column in H. rewrite !fail_if_bind_ok in H. destruct H as (_ & Hnew & [= <- <-]).
  apply IH in Hout as (E & Hout & Esel); [split; [by rewrite E, <- app_assoc|]; split; [done|by rewrite Esel, <- app_assoc]|]. apply NoDup_app. split; [done|]. split; [|apply NoDup_singleton].
  intros x Hx ->%list_elem_of_singleton. apply in_list_elem in Hx. by rewrite Hx in Hnew.
Qed.

Lemma elem_source_columns sources source column : source ∈ sources -> column ∈ rsEvidenceFields source -> (source, column) ∈ source_columns sources.
Proof.
  intros Hs Hc. unfold source_columns. apply list_elem_of_In, in_flat_map. exists source. split; [by apply list_elem_of_In|]. apply list_elem_of_In. by apply list_elem_of_fmap_2.
Qed.

(** What the stages of [CompileRelational] computed. *)
Record stages (plan : QueryPlan) (products : Products) (out : RelationalCompilation) (canonical : QueryPlan) (r : relation) (select : relational_select) : Prop := {
  st_canonical : CanonicalizeRelational plan products = Ok canonical;
  st_from : exists from, qFrom canonical = Some from /\ countFromMembers from = 1 /\ compile_from canonical from products = Ok r;
  st_select : compileRelationalSelect canonical (rlFields r) (rlVisibleFrom r) = Ok select;
  st_provenance : exists text, provenance_statement canonical r = Ok (rcProvenanceFields out, text) /\ exists order, (exists keys, order = " ORDER BY " +:+ Join keys ", ") /\
    rcProvenanceSQL out = text +:+ order /\
    rcVisibleSQL out = slSQL select +:+ (if negb (grouped canonical) && negb (same (rlKind r) "union_distinct") then order else "");
  st_kind : rcKind out = rlKind r /\ rcSources out = rlSources r /\ rcJoinPredicates out = rlJoins r;
  st_fields : rcVisibleFields out = slVisible select /\ rcInternalFields out = slInternal select }.

Lemma order_keys plan r products (ungrouped : bool) rows row_specs orderSQL order :
  (if ungrouped then Ok (" ORDER BY " +:+ Join rows ", ", row_specs)
   else relationalGroupedProvenanceOrder plan (rlKind r) (rlSources r) (rlUnionColumns r) products) = Ok (orderSQL, order) ->
  exists keys, orderSQL = " ORDER BY " +:+ Join keys ", ".
Proof.
  destruct ungrouped; [intros [= <- _]; by eexists|]. unfold relationalGroupedProvenanceOrder. intros H.
  do 3 (apply bind_ok in H as (? & _ & H)). cbv zeta in H. destruct (foldl append_order _ _) as [parts specs].
  apply fail_if_bind_ok in H as [_ H]. injection H as <- _. by eexists.
Qed.

Lemma compile_stages plan products out : CompileRelational plan products = Ok out -> exists canonical r select, stages plan products out canonical r select.
Proof.
  unfold CompileRelational. rewrite fail_if_bind_ok. intros (_ & canonical & Hc & H)%(fun x => conj (proj1 x) (proj1 (bind_ok _ _ _) (proj2 x))).
  rewrite !fail_if_bind_ok in H. destruct H as (_ & _ & Hcount & H). apply bind_ok in H as (r & Hr & H). apply bind_ok in H as (select & Hs & H).
  apply bind_ok in H as ([fields text] & Hp & H). apply fail_if_bind_ok in H as [_ H]. apply bind_ok in H as ([orderSQL order] & Ho & <-%Ok_inj).
  exists canonical, r, select. split; cbn; [done| |done| |done|done].
  - assert (Hfrom : exists from, qFrom canonical = Some from).
    { clear -Hc. unfold CanonicalizeRelational in Hc. destruct (qFrom plan) as [f|]; [|done]. cbv zeta in Hc. apply fail_if_bind_ok in Hc as [_ Hc].
      apply bind_ok in Hc as (fs & _ & Hc). apply bind_ok in Hc as (g & _ & <-%Ok_inj). by exists g. }
    destruct Hfrom as [from Ef]. rewrite Ef in *. cbn [default id] in *. exists from. split; [done|]. split; [|done]. apply negb_false_iff in Hcount. lia.
  - exists text. split; [done|]. exists orderSQL. split; [by eapply order_keys|]. split; [done|]. destruct (negb (grouped canonical) && negb (same (rlKind r) "union_distinct")); [|done]. by injection Ho as <- _.
Qed.

Lemma kind_nonempty plan from products r : compile_from plan from products = Ok r -> countFromMembers from = 1 -> fmJoin from = None -> rlKind r <> "".
Proof.
  destruct from as [[scan|] [two|] [join|] [union|]]; cbn [compile_from fmJoin]; intros H Hc Hj; try done;
    repeat first [apply bind_ok in H as ([[[? ?] ?] ?] & _ & [= <-]); done|apply bind_ok in H as ([[? ?] ?] & _ & [= <-]); done].
Qed.

Lemma canonical_no_pair plan products canonical from : CanonicalizeRelational plan products = Ok canonical -> qFrom canonical = Some from -> fmJoin from = None.
Proof.
  unfold CanonicalizeRelational. destruct (qFrom plan) as [f|]; [|done]. cbv zeta. rewrite fail_if_bind_ok. intros [_ H].
  apply bind_ok in H as (fs & _ & H). apply bind_ok in H as (g & Hg & <-%Ok_inj). intros [= <-]. destruct f as [[scan|] [two|] [join|] [union|]]; cbn [canonical_from] in Hg;
    repeat match goal with H : _ ≫= _ = Ok _ |- _ => apply bind_ok in H as (? & _ & H) end; by injection Hg as <-.
Qed.

(** The two statements, from the stages that computed them. *)
Lemma companion_text plan products out : CompileRelational plan products = Ok out -> rcKind out <> "union_distinct" ->
  exists canonical r sel filters groups selects order, stages plan products out canonical r sel /\
    where_clause (qFilters canonical) (rlFields r) = Ok filters /\ relational_groups canonical (rlFields r) = Ok groups /\
    (exists keys, order = " ORDER BY " +:+ Join keys ", ") /\
    rcVisibleSQL out = "SELECT " +:+ Join selects ", " +:+ " FROM " +:+ rlVisibleFrom r +:+ filters +:+ groups +:+ (if grouped plan then "" else order) /\
    exists columns, fold_res provenance_column ([], []) (source_columns (rlSources r)) = Ok (rcProvenanceFields out, columns) /\
      rcProvenanceSQL out = "SELECT " +:+ Join columns ", " +:+ " FROM " +:+ rlVisibleFrom r +:+ filters +:+ order.
Proof.
  intros E Hk. apply compile_stages in E as (canonical & r & sel & St). pose proof St as [Hc (from & Hfrom & Hcount & Hr) Hs (text & Hp & order & Hkeys & Eprov & Evis) (Ek & Es & Ej) _]. rewrite Ek in Hk.
  assert (Hg : grouped canonical = grouped plan).
  { clear -Hc. unfold CanonicalizeRelational in Hc. destruct (qFrom plan) as [f|]; [|done]. cbv zeta in Hc. apply fail_if_bind_ok in Hc as [_ Hc].
    apply bind_ok in Hc as (fs & _ & Hc). by apply bind_ok in Hc as (g & _ & <-%Ok_inj). }
  assert (Hsame : rlProvenanceFrom r = rlVisibleFrom r).
  { clear -Hr Hk. destruct from as [[scan|] two [join|] [union|]]; cbn [compile_from] in Hr;
      repeat first [apply bind_ok in Hr as ([[[? ?] ?] ?] & _ & [= <-])|apply bind_ok in Hr as ([[? ?] ?] & _ & [= <-])|injection Hr as <-]; done. }
  unfold same in *. rewrite (bool_decide_eq_false_2 (rlKind r = "union_distinct")) in * by done. rewrite Hg in Evis.
  unfold provenance_statement, same in Hp. rewrite bool_decide_eq_false_2 in Hp by done. apply bind_ok in Hp as ([fields columns] & Hf & Hp). apply bind_ok in Hp as (w & Hw & [= <- <-]).
  unfold compileRelationalSelect in Hs. apply bind_ok in Hs as (visible & _ & Hs). apply bind_ok in Hs as (selected & _ & Hs). apply bind_ok in Hs as ([names selects] & _ & Hs).
  apply fail_if_bind_ok in Hs as [_ Hs]. apply bind_ok in Hs as (w' & Hw' & Hs). rewrite Hw in Hw'. apply Ok_inj in Hw' as <-. apply bind_ok in Hs as (groups & Hgr & <-%Ok_inj). cbn [slSQL] in Evis.
  exists canonical, r; eexists; exists w, groups, selects, order.
  split; [exact St|]. split; [done|]. split; [done|]. split; [done|]. rewrite Evis, Eprov, Hsame, !string_app_assoc. split; [by destruct (grouped plan)|]. by exists columns.
Qed.

(** The companion's SELECT list: each column of the evidence of each source,
    under its alias. *)
Definition evidence_select (entry : RelationalSource * string) : string :=
  quoteIdentifier (rsRole entry.1) +:+ "." +:+ quoteIdentifier entry.2 +:+ " AS " +:+ quoteIdentifier ("tg_" +:+ rsRole entry.1 +:+ "_" +:+ entry.2).

Lemma aliased_columns sources : Forall aliased sources ->
  map (fun e => alias_of e.1 e.2) (source_columns sources) = map (fun e : RelationalSource * string => evidence_alias (rsRole e.1) e.2) (source_columns sources) /\
  map (fun e => qualified (rsRole e.1) e.2 +:+ " AS " +:+ quoteIdentifier (alias_of e.1 e.2)) (source_columns sources) = map evidence_select (source_columns sources).
Proof.
  intros Ha. assert (Hal : forall e, e ∈ source_columns sources -> alias_of e.1 e.2 = evidence_alias (rsRole e.1) e.2).
  { intros [source c] Hin. apply list_elem_of_In, in_flat_map in Hin as (x & Hx & Hin). apply in_map_iff in Hin as (y & [= -> ->] & Hy).
    rewrite Forall_forall in Ha. apply Ha; by apply list_elem_of_In. }
  split; apply map_ext_in; intros e He%list_elem_of_In; [by apply Hal|]. unfold evidence_select. rewrite (Hal e He).
  unfold qualified, evidence_alias. by rewrite !string_app_assoc.
Qed.

(** C40: The companion of a scan or join returns the evidence of the answer.  Its
    SQL selects, from the FROM and WHERE of the visible statement, ungrouped, and
    in its order when that statement has no groups, the columns [entries], each as
    ["role"."column" AS "tg_role_column"]; its field names are these aliases in
    order, without a repetition.  The columns hold, for every field the plan
    selects, groups, aggregates, filters or joins on, that column of a source of
    its role, and of every source the product's entity key, its required columns
    and the columns of its own filters. *)
Theorem evidence_complete plan products out : CompileRelational plan products = Ok out -> rcKind out <> "union_distinct" ->
  exists canonical from r entries selects filters groups keys, CanonicalizeRelational plan products = Ok canonical /\ qFrom canonical = Some from /\
    compile_from canonical from products = Ok r /\ rlSources r = rcSources out /\
    where_clause (qFilters canonical) (rlFields r) = Ok filters /\ relational_groups canonical (rlFields r) = Ok groups /\
    let order := " ORDER BY " +:+ Join keys ", " in
    rcVisibleSQL out = "SELECT " +:+ Join selects ", " +:+ " FROM " +:+ rlVisibleFrom r +:+ filters +:+ groups +:+ (if grouped plan then "" else order) /\
    rcProvenanceSQL out = "SELECT " +:+ Join (map evidence_select entries) ", " +:+ " FROM " +:+ rlVisibleFrom r +:+ filters +:+ order /\
    rcProvenanceFields out = map (fun e => "tg_" +:+ rsRole e.1 +:+ "_" +:+ e.2) entries /\ NoDup (rcProvenanceFields out) /\
    (forall id, id ∈ used_fields canonical ++ flat_map (fun p => [jpLeft p; jpRight p]) (rcJoinPredicates out) ->
       exists source column, source ∈ rcSources out /\ splitFieldID id = Some (rsRole source, column) /\ (source, column) ∈ entries) /\
    (forall source column, source ∈ rcSources out ->
       column ∈ pStableEntityKey (product_of products (rsProduct source)) ++ pRequiredEvidence (product_of products (rsProduct source)) ++ map fiColumn (rsFilters source) ->
       (source, column) ∈ entries).
Proof.
  intros E Hk. destruct (companion_text plan products out E Hk) as (canonical & r & sel & filters & groups & selects & order & St & Hw & Hg & [keys ->] & Hvis & columns & Hcols & Hprov).
  destruct St as [Hc (from & Hfrom & Hcount & Hr) Hs _ (Ek & Es & Ej) _]. rewrite Ek in Hk.
  pose proof (canonical_no_pair _ _ _ _ Hc Hfrom) as Hnp.
  destruct (from_covers _ _ _ _ Hr Hk (kind_nonempty _ _ _ _ Hr Hcount Hnp) (select_uses _ _ _ _ Hs)) as [[H1 H2] Ha].
  apply provenance_columns_ok in Hcols as (Ef & Hnd & Esel); [|constructor]. cbn [fst snd app] in Ef, Hnd, Esel.
  destruct (aliased_columns _ Ha) as [A1 A2]. rewrite A1 in Ef. rewrite A2 in Esel.
  exists canonical, from, r, (source_columns (rlSources r)), selects, filters, groups, keys. rewrite <- Esel, Es, Ej. cbv zeta.
  do 6 (split; [done|]). split; [exact Hvis|]. split; [exact Hprov|]. split; [exact Ef|]. split; [done|]. split.
  - intros id Hid. destruct (H2 id Hid) as (source & column & Hsrc & Hsp & Hcol). exists source, column.
    split; [done|]. split; [done|]. by apply elem_source_columns.
  - intros source column Hsrc Hcol. apply elem_source_columns; [done|]. by apply H1.
Qed.

(** ** Unions *)
Lemma leaf_filters_ok role product filters : is_ok (compileLeafFilterList filters role product) = true <->
  Forall (fun f => approved product (fiColumn f) /\ filter_ok f = true) filters.
Proof.
  unfold compileLeafFilterList. assert (G : forall acc, is_ok (fold_res (fun parts filter => allowedColumn (fiColumn filter) product ≫= fun _ =>
      compileFilterExpression (qualified role (fiColumn filter)) filter ≫= fun expression => Ok (parts ++ [expression])) acc filters) = true <->
    Forall (fun f => approved product (fiColumn f) /\ filter_ok f = true) filters).
  { induction filters as [|f filters IH]; intros acc; [by cbn|]. cbn [fold_res]. rewrite Forall_cons, <- allowedColumn_ok, <- (filter_accepted (qualified role (fiColumn f)) f).
    destruct (allowedColumn (fiColumn f) product) as [[]|]; cbn [mbind result_bind]; [|cbn; naive_solver].
    destruct (compileFilterExpression _ f) as [t|]; cbn [mbind result_bind is_ok]; [rewrite IH; naive_solver|]. split; [done|]. by intros [[_ ?] _]. }
  rewrite <- (G []). by destruct (fold_res _ [] filters).
Qed.

(** A filter on the result of a union is moved into both branches: whenever
    the union compiles, its outer filters compile in either branch too, so none is
    lost by the calls whose error the compiler discards. *)
Theorem pushdown_total union outer products out : compileUnion union outer products = Ok out ->
  exists product, products !! scProduct (uLeft union) = Some product /\
    forall scan, scan ∈ [uLeft union; uRight union] ->
      exists leaf moved, compileLeafFilterList (scFilters scan) (scRole scan) product = Ok leaf /\
        compileLeafFilterList (map mapped_filter outer) (scRole scan) product = Ok moved /\
        branch_where product outer scan = clause " WHERE " " AND " ((match scFilters scan with [] => [] | _ => [leaf] end) ++ match outer with [] => [] | _ => [moved] end).
Proof.
  unfold compileUnion. rewrite fail_if_bind_ok. intros [Hguard H]. apply orb_false_iff in Hguard as [Hguard _]. apply orb_false_iff in Hguard as [Hrole _]. apply negb_false_iff in Hrole.
  destruct (products !! scProduct (uLeft union)) as [product|]; [|done]. exists product. split; [done|]. rewrite !fail_if_bind_ok in H. destruct H as (_ & _ & _ & H). apply seq_ok in H as [Hcols H].
  apply bind_ok in H as (w & Hw & H). apply bind_ok in H as (l & Hl & H). apply bind_ok in H as (r & Hr & _).
  assert (Hw' : is_ok (compileQualifiedFilters outer (schema_of (uRole union) product (uniqueOrdered (uColumns union)))) = true) by by rewrite Hw.
  apply qualified_filters_ok in Hw'. apply check_all_ok in Hcols.
  assert (Hsafe : Forall (approved product) (uniqueOrdered (uColumns union))) by (eapply Forall_impl; [exact Hcols|]; intros c; apply allowedColumn_ok).
  assert (Hmoved : Forall (fun f => approved product (fiColumn f) /\ filter_ok f = true) (map mapped_filter outer)).
  { apply Forall_map. eapply Forall_impl; [exact Hw'|]. intros f [[field Hf] Hok]. cbn. rewrite schema_lookup in Hf; [|done|by eapply Forall_impl; [exact Hsafe|intros c [? _]]].
    unfold mapped_filter. cbn [fiColumn]. destruct (splitFieldID (fiColumn f)) as [[role column]|]; [|done]. cbn in Hf. destruct (bool_decide _) eqn:E; [|done]. apply bool_decide_eq_true in E as [_ Hin].
    split; [rewrite Forall_forall in Hsafe; by apply Hsafe|exact Hok]. }
  intros scan Hscan.
  assert (Hleaf : exists leaf, compileLeafFilterList (scFilters scan) (scRole scan) product = Ok leaf).
  { apply elem_of_cons in Hscan as [->|Hscan%list_elem_of_singleton]; [by exists l|]. subst scan. by exists r. }
  destruct Hleaf as [leaf Hleaf]. destruct (compileLeafFilterList (map mapped_filter outer) (scRole scan) product) as [moved|] eqn:Em.
  - exists leaf, moved. split; [done|]. split; [done|]. unfold branch_where. rewrite Hleaf, Em. done.
  - exfalso. apply (leaf_filters_ok (scRole scan)) in Hmoved. by rewrite Em in Hmoved.
Qed.
End RelationalProps.
