(* ===== verification/QueryDemo.v ===== *)
(** * Query plans: examples

    The hypotheses of the theorems on plans hold of concrete plans and products. *)

From S2P Require Import Prelude GoBytes Ordering GoText FactId SqlText QueryPlan CanonicalPlan JoinPlan JoinPlanProps RelationalPlan RelationalProps.
Import GoText FactId SqlText QueryPlan CanonicalPlan JoinPlan JoinPlanProps RelationalPlan RelationalProps.

Module QueryDemo.

Definition columns_of (types : list (string * string)) : gmap string string := list_to_map types.
Definition product (name : string) (types : list (string * string)) (keys : list string) : Product :=
  let textual := List.filter (fun t => same t.2 "text") types in
  MkProduct name (list_to_set (map fst types)) (list_to_set ["count"; "sum"]) (columns_of types)
    (columns_of (map (fun t => (t.1, "C")) textual)) (columns_of (map (fun t => (t.1, "1")) textual))
    "finance" "s1" name keys "lineage" [] "" "".

Definition detail : Product := product "detail" [("receipt_no", "text"); ("department", "text"); ("amount", "numeric")] ["receipt_no"].
Definition summary : Product := product "summary" [("department", "text"); ("total", "numeric")] ["department"].
Definition catalog : Products := list_to_map [("detail", detail); ("summary", summary)].

(** What a successful run returns. *)
Definition run {A} (d : A) (r : result A) : A := match r with Ok a => a | Err _ => d end.
Lemma run_ok {A} (d : A) (r : result A) : is_ok r = true -> r = Ok (run d r).
Proof. by destruct r. Qed.

(** *** One product *)
Definition injected : string := "'; DROP TABLE x; --\".
Definition plan1 : QueryPlan :=
  MkQueryPlan "detail" None ["department"] [MkAggregate "SUM" "amount" "total"]
    [MkFilter "department" "in" (AArray [AString injected; AString "a"]); MkFilter "amount" ">" (ANumber "-1e3")]
    ["department"] [MkOrder "total" "desc"] 10 0.

Definition text1 : string := run "" (Compile plan1 detail).
Lemma plan1_compiles : Compile plan1 detail = Ok text1.
Proof. apply run_ok. vm_compute. reflexivity. Qed.
Lemma plan1_floats : plan_floats plan1.
Proof. repeat constructor. Qed.

Lemma compile_tokens_witness : plan_floats plan1 /\ tokens_of text1 = Some (plan_tokens plan1).
Proof. split; [exact plan1_floats|exact (compile_tokens plan1 detail text1 plan1_floats plan1_compiles)]. Defined.

(** *** A join, in two spellings *)
Definition source (name : string) (filters : list Filter) : Scan := MkScan name name filters.
Definition amount_filter : Filter := MkFilter "amount" " >= " (ANumber "10").
Definition named_filter (op : string) : Filter := MkFilter "department" op (AString "IT").
Definition join_plan (from : From) : QueryPlan := MkQueryPlan "" (Some from) ["detail.receipt_no"; "summary.total"] [] [] [] [] 0 0.
Definition spelled1 : QueryPlan :=
  join_plan (MkFrom None (Some (MkJoinPair (source "summary" []) (source "detail" [amount_filter; named_filter "!="])
    [MkJoinPredicate "summary.department" "detail.department"])) None None).
Definition spelled2 : QueryPlan :=
  join_plan (MkFrom None None (Some (MkJoinMany [source "detail" [named_filter "<>"; amount_filter]; source "summary" []]
    [MkJoinPredicate "detail.department" "summary.department"])) None).

Definition canonical_demo : QueryPlan := run plan1 (CanonicalizeRelational spelled1 catalog).
Lemma canonical_demo_ok : CanonicalizeRelational spelled1 catalog = Ok canonical_demo.
Proof. apply run_ok. vm_compute. reflexivity. Qed.

Lemma spelled_alike : plan_like spelled1 spelled2.
Proof.
  split; [done| |done|done|apply Permutation_refl|done|done|done]. cbn [spelled1 spelled2 join_plan qFrom].
  eapply like_join; [reflexivity|reflexivity|]. split; cbn [jmSources jmOn flat_join jnLeft jnRight jnOn].
  - exists [source "detail" [amount_filter; named_filter "!="]; source "summary" []]. split; [apply Permutation_swap|].
    constructor; [split; [done|split; [done|apply Permutation_swap]]|]. constructor; [|constructor]. split; [done|split; [done|apply Permutation_refl]].
  - apply Permutation_refl.
Qed.
Lemma spelled_consistent : forall from, qFrom spelled1 = Some from -> from_consistent catalog from.
Proof.
  intros from [= <-]. split.
  - repeat constructor; intros f g Hf Hg; cbn in Hf, Hg; repeat (apply elem_of_cons in Hf as [->|Hf] || apply elem_of_nil in Hf as []);
      repeat (apply elem_of_cons in Hg as [->|Hg] || apply elem_of_nil in Hg as []); (done || (intros E; vm_compute in E; discriminate E)).
  - change (NoDup (map (relationalScanSemanticKey catalog) [source "summary" []; source "detail" [amount_filter; named_filter "!="]])).
    assert (E : bool_decide (NoDup (map (relationalScanSemanticKey catalog) [source "summary" []; source "detail" [amount_filter; named_filter "!="]])) = true) by (vm_compute; reflexivity).
    by apply bool_decide_eq_true in E.
Qed.
Lemma nothing_consistent : consistent (qFilters spelled1).
Proof. intros f g Hf. by apply elem_of_nil in Hf. Qed.

Lemma canonical_invariant_witness : plan_like spelled1 spelled2 /\ CanonicalizeRelational spelled2 catalog = Ok canonical_demo.
Proof.
  split; [exact spelled_alike|exact (canonical_invariant spelled1 spelled2 catalog canonical_demo spelled_alike nothing_consistent spelled_consistent canonical_demo_ok)].
Defined.

(** *** The compiled join *)
Definition the_join : JoinMany := match qFrom canonical_demo with Some (MkFrom _ _ (Some j) _) => j | _ => MkJoinMany [] [] end.
Lemma joined_ok : exists sources schema text, compileJoinMany the_join canonical_demo catalog = Ok (sources, schema, text).
Proof.
  assert (E : is_ok (compileJoinMany the_join canonical_demo catalog) = true) by (vm_compute; reflexivity).
  destruct (compileJoinMany the_join canonical_demo catalog) as [[[sources schema] text]|]; [|done]. by exists sources, schema, text.
Qed.

Lemma join_written_witness : exists text js steps, Forall2 (compiled catalog) (jmSources the_join) js /\
  text = JoinOrder.JoinOrder.sql_at (texts_of js) 0 +:+ JoinOrder.JoinOrder.steps_text (texts_of js) steps /\
  flat_map snd steps ≡ₚ map (condition catalog (jmSources the_join)) (jmOn the_join).
Proof.
  destruct joined_ok as (sources & schema & text & E). destruct (join_written catalog the_join canonical_demo sources schema text E) as (js & steps & F & Et & _ & Hc & _).
  exists text, js, steps. split; [exact F|]. split; [exact Et|exact Hc].
Defined.

Definition empty_compilation : RelationalCompilation := MkCompilation "" "" [] [] [] [] "" false [] [] [] ∅ [].
Definition compiled_demo : RelationalCompilation := run empty_compilation (CompileRelational spelled2 catalog).
Lemma compiled_demo_ok : CompileRelational spelled2 catalog = Ok compiled_demo.
Proof. apply run_ok. vm_compute. reflexivity. Qed.
Lemma compiled_demo_join : rcKind compiled_demo <> "union_distinct".
Proof. vm_compute. discriminate. Qed.

Lemma evidence_complete_witness : rcKind compiled_demo <> "union_distinct" /\ exists entries rows,
  rcProvenanceSQL compiled_demo = "SELECT " +:+ Join (map evidence_select entries) ", " +:+ " FROM " +:+ rows /\
  "tg_detail_amount" ∈ rcProvenanceFields compiled_demo.
Proof.
  split; [exact compiled_demo_join|].
  destruct (evidence_complete spelled2 catalog compiled_demo compiled_demo_ok compiled_demo_join) as (canonical & from & r & entries & selects & filters & groups & keys & _ & _ & _ & _ & _ & _ & _ & E & _).
  exists entries, (rlVisibleFrom r +:+ filters +:+ " ORDER BY " +:+ Join keys ", "). split; [exact E|]. apply in_list_elem. vm_compute. reflexivity.
Defined.

(** *** A union *)
Definition union_demo : UnionDistinct :=
  MkUnionDistinct "summary" ["department"; "total"] (MkScan "summary" "left_branch" [named_filter "="]) (MkScan "summary" "right_branch" []).
Definition outer_demo : list Filter := [MkFilter "summary.total" ">" (ANumber "5")].
Lemma union_compiled_ok : exists out, compileUnion union_demo outer_demo catalog = Ok out.
Proof.
  assert (E : is_ok (compileUnion union_demo outer_demo catalog) = true) by (vm_compute; reflexivity).
  destruct (compileUnion union_demo outer_demo catalog) as [out|]; [|done]. by exists out.
Qed.

Lemma pushdown_total_witness : exists product, catalog !! scProduct (uLeft union_demo) = Some product /\
  exists moved, compileLeafFilterList (map mapped_filter outer_demo) (scRole (uRight union_demo)) product = Ok moved.
Proof.
  destruct union_compiled_ok as [out Eout]. destruct (pushdown_total union_demo outer_demo catalog out Eout) as (product & E & H). exists product. split; [exact E|].
  destruct (H (uRight union_demo) (list_elem_of_further _ _ _ (list_elem_of_here _ _))) as (leaf & moved & _ & Hm & _). exists moved. exact Hm.
Defined.
End QueryDemo.
