(* ===== verification/OutcomeSet.v ===== *)
(** * Content-addressed sets of outcome hashes

    [src/internal/control/outcome_hashset_v5.go] and the manifest readers of
    [ordinal_exposure_v5.go]: an exact set of SHA-256 hashes as a Merkle tree of
    three levels.  Hashes that agree on 16 bits form a group; a group is cut into
    leaves of 4096; the leaves that agree on 8 bits are listed by a block, the
    blocks by the root manifest.  Go maps keyed by digest are [gmap]s, read in the
    order of [map_to_list]; a nil slice is [None] where the code tests for it. *)

From S2P Require Import Prelude GoBytes Ordering GoText Sha256 FactId.
Import GoText Sha256.

Module OutcomeSet.

Definition outcomeLeafDomainV5 : bytes := to_bytes "TASKGATE-V5-HASH-LEAF" ++ [byte_of 0].
Definition outcomeBlockDomainV5 : bytes := to_bytes "TASKGATE-V5-HASH-BLOCK" ++ [byte_of 0].
Definition outcomeSetDomainV5 : bytes := to_bytes "TASKGATE-V5-HASH-SET" ++ [byte_of 0].
Definition outcomeLeafChunkSize : nat := 4096.

(** ** Data *)
Record OutcomeSetV5 := MkSet {
  SetSHA256 : string;
  Cardinality : Z;
  BlockCount : Z;
  RootManifest : bytes;
}.

Record OutcomeHashLeafV5 := MkLeaf {
  LeafSHA256 : string;
  Prefix16 : Z;
  ChunkIndex : Z;
  leafCardinality : Z;
  Payload : bytes;
}.

Record OutcomeHashBlockV5 := MkBlock {
  BlockSHA256 : string;
  Prefix8 : Z;
  blockCardinality : Z;
  Manifest : bytes;
}.

Record OutcomeHashSetObjectsV5 := MkObjects {
  objSet : OutcomeSetV5;
  Leaves : gmap string OutcomeHashLeafV5;
  Blocks : gmap string OutcomeHashBlockV5;
  Members : option (list bytes);
}.

Record OrdinalDynamicFact := MkDynamicFact {
  dynSHA256 : string;
  dynKind : string;
  dynPayload : bytes;
}.

Record OutcomeCandidateV5 := MkCandidate {
  candFacts : list OrdinalDynamicFact;
  candHashes : list bytes;
}.

Record outcomeLeafReferenceV5 := LeafRef {
  lrPrefix16 : Z;
  lrChunk : Z;
  lrDigest : string;
  lrCardinality : Z;
}.

Record outcomeBlockReferenceV5 := BlockRef {
  brPrefix : Z;
  brDigest : string;
  brCardinality : Z;
}.

#[export] Instance OutcomeSetV5_eq_dec : EqDecision OutcomeSetV5.
Proof. solve_decision. Defined.
#[export] Instance OutcomeHashLeafV5_eq_dec : EqDecision OutcomeHashLeafV5.
Proof. solve_decision. Defined.
#[export] Instance OutcomeHashBlockV5_eq_dec : EqDecision OutcomeHashBlockV5.
Proof. solve_decision. Defined.
#[export] Instance OrdinalDynamicFact_eq_dec : EqDecision OrdinalDynamicFact.
Proof. solve_decision. Defined.
#[export] Instance outcomeLeafReferenceV5_eq_dec : EqDecision outcomeLeafReferenceV5.
Proof. solve_decision. Defined.
#[export] Instance outcomeBlockReferenceV5_eq_dec : EqDecision outcomeBlockReferenceV5.
Proof. solve_decision. Defined.

(** The value a Go function returns beside a non-nil error, which two callers
    put to use, is the zero value. *)
Definition sha256HexV5 (payload : bytes) : string := hex_sum payload.
Definition OutcomeHashTextV5 (hash : bytes) : string := hex_encode hash.
Definition OutcomeSetV5_String (s : OutcomeSetV5) : string := SetSHA256 s +:+ "/" +:+ format_int (Cardinality s).

Definition sameOutcomeLeafV5 (l r : OutcomeHashLeafV5) : bool :=
  (Prefix16 l =? Prefix16 r) && (ChunkIndex l =? ChunkIndex r) &&
  (leafCardinality l =? leafCardinality r) && bool_decide (Payload l = Payload r).
Definition sameOutcomeBlockV5 (l r : OutcomeHashBlockV5) : bool :=
  (Prefix8 l =? Prefix8 r) && (blockCardinality l =? blockCardinality r) && bool_decide (Manifest l = Manifest r).

(** ** Hashes *)
Definition decodeOutcomeHashV5 (text : string) : result bytes :=
  let bad := ErrNew "V5 outcome member must be lowercase SHA-256" in
  if negb (str_len text =? 64) || negb (bool_decide (text = ToLower text)) then Err bad
  else match hex_decode text with Some decoded => Ok decoded | None => Err bad end.

Definition sortOutcomeHashesV5 (hashes : list bytes) : list bytes := go_sort hashes.

(** The compaction loop: a hash equal to the last one kept is skipped. *)
Fixpoint compact_from (last : bytes) (hashes : list bytes) : list bytes :=
  match hashes with
  | [] => []
  | h :: rest => if bool_decide (last = h) then compact_from last rest else h :: compact_from h rest
  end.
Definition compact (hashes : list bytes) : list bytes :=
  match hashes with [] => [] | h :: rest => h :: compact_from h rest end.
Definition uniqueOutcomeHashesV5 (input : list bytes) : list bytes := compact (sortOutcomeHashesV5 input).

(** [append([]T(nil), empty...)] is nil. *)
Definition slice_of {A} (l : list A) : option (list A) := match l with [] => None | _ => Some l end.

(** [binary.BigEndian.Uint16(hash[:2])] and its high byte. *)
Definition prefix_of (hash : bytes) : Z := be_value (take 2 hash).
Definition byte_prefix (prefix16 : Z) : Z := Z.shiftr prefix16 8 mod 256.

(** ** Leaves *)
Definition canonicalOutcomeLeafV5 (prefix chunk : Z) (hashes : list bytes) : bytes :=
  outcomeLeafDomainV5 ++ be_uint16 prefix ++ be_uint32 chunk ++ be_uint32 (Z.of_nat (length hashes)) ++ concat hashes.

Definition leaf_of (prefix chunk : Z) (hashes : list bytes) : OutcomeHashLeafV5 :=
  let payload := canonicalOutcomeLeafV5 prefix chunk hashes in
  MkLeaf (sha256HexV5 payload) prefix chunk (Z.of_nat (length hashes)) payload.

Definition leaf_ref (l : OutcomeHashLeafV5) : outcomeLeafReferenceV5 :=
  LeafRef (Prefix16 l) (ChunkIndex l) (LeafSHA256 l) (leafCardinality l).

(** The loop [for start, chunk := 0, uint32(0); start < len(hashes); ...]. *)
Fixpoint chunk_loop (fuel : nat) (prefix chunk : Z) (hashes : list bytes) : list OutcomeHashLeafV5 :=
  match fuel, hashes with
  | S fuel', _ :: _ =>
      leaf_of prefix chunk (take outcomeLeafChunkSize hashes) ::
      chunk_loop fuel' prefix ((chunk + 1) mod 2 ^ 32) (drop outcomeLeafChunkSize hashes)
  | _, _ => []
  end.
Definition chunk_leaves (prefix : Z) (hashes : list bytes) : list OutcomeHashLeafV5 :=
  chunk_loop (length hashes) prefix 0 hashes.

(** Runs of equal prefixes in a sorted slice. *)
Fixpoint prefix_groups (hashes : list bytes) : list (Z * list bytes) :=
  match hashes with
  | [] => []
  | h :: rest =>
      match prefix_groups rest with
      | (p, group) :: more => if prefix_of h =? p then (p, h :: group) :: more else (prefix_of h, [h]) :: (p, group) :: more
      | [] => [(prefix_of h, [h])]
      end
  end.

(** ** Manifests *)
Definition decode_digest (digest : string) (bad : goerror) : result bytes :=
  match hex_decode digest with
  | Some d => if bytes_len d =? 32 then Ok d else Err bad
  | None => Err bad
  end.

Definition canonicalOutcomeBlockV5 (prefix : Z) (refs : list outcomeLeafReferenceV5) : result (bytes * Z) :=
  fold_res (fun (st : bytes * Z) ref =>
      let '(manifest, cardinality) := st in
      fail_if (negb (byte_prefix (lrPrefix16 ref) =? prefix) || (lrCardinality ref <? 1)) (ErrNew "invalid V5 leaf reference") ≫= fun _ =>
      decode_digest (lrDigest ref) (ErrNew "invalid V5 leaf digest") ≫= fun digest =>
      Ok (manifest ++ [byte_of (lrPrefix16 ref)] ++ be_uint32 (lrChunk ref) ++ digest ++ be_uint32 (lrCardinality ref),
          wrap_int64 (cardinality + lrCardinality ref)))
    (outcomeBlockDomainV5 ++ [byte_of prefix] ++ be_uint32 (Z.of_nat (length refs)), 0) refs.

Definition root_header (cardinality : Z) (count : nat) : bytes :=
  outcomeSetDomainV5 ++ (be_uint32 (str_len FactId.ProfileV5) ++ to_bytes FactId.ProfileV5) ++
  be_uint64 cardinality ++ be_uint32 (Z.of_nat count).

Definition canonicalOutcomeRootV5 (cardinality : Z) (refs : list outcomeBlockReferenceV5) : result bytes :=
  fail_if ((cardinality <? 0) || (256 <? Z.of_nat (length refs))) (ErrNew "invalid V5 root cardinality") ≫= fun _ =>
  fold_res (fun (st : bytes * Z * Z) ref =>
      let '(root, total, lastPrefix) := st in
      fail_if ((brPrefix ref <=? lastPrefix) || (brCardinality ref <? 1)) (ErrNew "invalid V5 root block reference") ≫= fun _ =>
      decode_digest (brDigest ref) (ErrNew "invalid V5 root block digest") ≫= fun digest =>
      let root' := root ++ [byte_of (brPrefix ref)] ++ digest ++ be_uint64 (brCardinality ref) in
      fail_if (max_int64 - total <? brCardinality ref) (ErrNew "V5 root cardinality overflow") ≫= fun _ =>
      Ok (root', total + brCardinality ref, brPrefix ref))
    (root_header cardinality (length refs), 0, -1) refs ≫= fun '(root, total, _) =>
  fail_if (negb (total =? cardinality)) (ErrNew "V5 root block cardinality disagrees with set") ≫= fun _ =>
  Ok root.

(** ** [bytes.Reader]: what is left to read *)
Definition ErrEOF := ErrNew "EOF".
Definition ErrUnexpectedEOF := ErrNew "unexpected EOF".

(** [io.ReadFull(reader, make([]byte, n))]. *)
Definition ReadFull (n : nat) (r : bytes) : result (bytes * bytes) :=
  if Nat.leb n (length r) then Ok (take n r, drop n r)
  else Err (match r with [] => ErrEOF | _ => ErrUnexpectedEOF end).

(** [reader.Read(buffer)] on a zeroed buffer of [n] bytes: a short read is not
    an error, the rest of the buffer stays zero. *)
Definition Read (n : nat) (r : bytes) : result (bytes * bytes) :=
  match r with
  | [] => Err ErrEOF
  | _ => Ok (take n r ++ replicate (n - length r) (byte_of 0), drop n r)
  end.

Definition ReadByte (r : bytes) : result (Z * bytes) :=
  match r with [] => Err ErrEOF | c :: r' => Ok (byte_val c, r') end.

Definition readV5Uint32 (r : bytes) : result (Z * bytes) := ReadFull 4 r ≫= fun '(b, r') => Ok (be_value b, r').
Definition readV5Uint64 (r : bytes) : result (Z * bytes) := ReadFull 8 r ≫= fun '(b, r') => Ok (be_value b, r').
Definition readOutcomeUint32V5 (r : bytes) : result (Z * bytes) := Read 4 r ≫= fun '(b, r') => Ok (be_value b, r').
Definition readV5U32String (r : bytes) : result (bytes * bytes) :=
  match readV5Uint32 r with
  | Ok (n, r') => if bytes_len r' <? n then Err ErrUnexpectedEOF else ReadFull (Z.to_nat n) r'
  | Err _ => Err ErrUnexpectedEOF
  end.

(** [if err != nil || bad(value) { return e }]. *)
Definition checked {A} (r : result (A * bytes)) (bad : A -> bool) (e : goerror) : result (A * bytes) :=
  match r with
  | Ok (v, rest) => if bad v then Err e else Ok (v, rest)
  | Err _ => Err e
  end.

(** ** Reading manifests and leaves back *)
Fixpoint read_block_refs (count : nat) (lastPrefix total : Z) (r : bytes) : result (list outcomeBlockReferenceV5 * Z * bytes) :=
  match count with
  | O => Ok ([], total, r)
  | S count' =>
      checked (ReadByte r) (fun prefix => prefix <=? lastPrefix) (ErrNew "invalid V5 root manifest block order") ≫= fun '(prefix, r) =>
      ReadFull 32 r ≫= fun '(digest, r) =>
      checked (readV5Uint64 r) (fun stored => (stored =? 0) || (max_int64 <? stored))
        (ErrNew "invalid V5 root block cardinality") ≫= fun '(stored, r) =>
      fail_if (max_int64 - total <? stored) (ErrNew "V5 root cardinality overflow") ≫= fun _ =>
      read_block_refs count' prefix (total + stored) r ≫= fun '(refs, total', r) =>
      Ok (BlockRef prefix (hex_encode digest) stored :: refs, total', r)
  end.

Definition parseV5RootManifestReferences (payload : bytes) (cardinality blockCount : Z) : result (list outcomeBlockReferenceV5) :=
  checked (ReadFull (length outcomeSetDomainV5) payload) (fun d => negb (bool_decide (d = outcomeSetDomainV5)))
    (ErrNew "invalid V5 root manifest domain") ≫= fun '(_, r) =>
  checked (readV5U32String r) (fun p => negb (bool_decide (p = to_bytes FactId.ProfileV5)))
    (ErrNew "invalid V5 root manifest profile") ≫= fun '(_, r) =>
  checked (readV5Uint64 r) (fun stored => (max_int64 <? stored) || negb (stored =? cardinality))
    (ErrNew "invalid V5 root manifest cardinality") ≫= fun '(_, r) =>
  checked (readV5Uint32 r) (fun count => negb (count =? blockCount) || (256 <? count))
    (ErrNew "invalid V5 root manifest block count") ≫= fun '(count, r) =>
  read_block_refs (Z.to_nat count) (-1) 0 r ≫= fun '(refs, total, r) =>
  fail_if (negb (bytes_len r =? 0)) (ErrNew "V5 root manifest has trailing bytes") ≫= fun _ =>
  fail_if (negb (total =? cardinality)) (ErrNew "V5 root block cardinality disagrees with set") ≫= fun _ =>
  Ok refs.

Fixpoint read_leaf_refs (count : nat) (prefix lastPrefix lastChunk total : Z) (r : bytes) :
    result (list outcomeLeafReferenceV5 * Z * bytes) :=
  match count with
  | O => Ok ([], total, r)
  | S count' =>
      ReadByte r ≫= fun '(low, r) =>
      readV5Uint32 r ≫= fun '(chunk, r) =>
      let prefix16 := Z.lor (Z.shiftl prefix 8) low in
      fail_if ((prefix16 <? lastPrefix) || ((prefix16 =? lastPrefix) && negb (chunk =? (lastChunk + 1) mod 2 ^ 32)) ||
               ((lastPrefix <? prefix16) && negb (chunk =? 0))) (ErrNew "invalid V5 block leaf order") ≫= fun _ =>
      ReadFull 32 r ≫= fun '(digest, r) =>
      checked (readV5Uint32 r) (fun n => (n =? 0) || (Z.of_nat outcomeLeafChunkSize <? n))
        (ErrNew "invalid V5 block leaf cardinality") ≫= fun '(leafCount, r) =>
      read_leaf_refs count' prefix prefix16 chunk (wrap_int64 (total + leafCount)) r ≫= fun '(refs, total', r) =>
      Ok (LeafRef prefix16 chunk (hex_encode digest) leafCount :: refs, total', r)
  end.

Definition encodedLeafReferenceSize : Z := 1 + 4 + 32 + 4.

Definition parseV5BlockManifestReferences (payload : bytes) (prefix cardinality : Z) : result (list outcomeLeafReferenceV5) :=
  checked (ReadFull (length outcomeBlockDomainV5) payload) (fun d => negb (bool_decide (d = outcomeBlockDomainV5)))
    (ErrNew "invalid V5 block manifest domain") ≫= fun '(_, r) =>
  checked (ReadByte r) (fun stored => negb (stored =? prefix)) (ErrNew "invalid V5 block prefix") ≫= fun '(_, r) =>
  match readV5Uint32 r with
  | Ok (count, r') =>
      fail_if ((count =? 0) || (bytes_len r' / encodedLeafReferenceSize <? count)) (ErrNew "invalid V5 block leaf count") ≫= fun _ =>
      read_leaf_refs (Z.to_nat count) prefix (-1) 0 0 r' ≫= fun '(refs, total, r) =>
      fail_if (negb (bytes_len r =? 0) || negb (total =? cardinality)) (ErrNew "invalid V5 block manifest cardinality") ≫= fun _ =>
      Ok refs
  | Err _ => Err (ErrNew "invalid V5 block leaf count")
  end.

Fixpoint read_members (count : nat) (prefix : Z) (previous : option bytes) (r : bytes) : result (list bytes) :=
  match count with
  | O => Ok []
  | S count' =>
      checked (Read 32 r) (fun h => negb (prefix_of h =? prefix)) (ErrNew "invalid V5 leaf member") ≫= fun '(h, r) =>
      fail_if (match previous with Some p => negb (bytes_ltb p h) | None => false end)
        (ErrNew "V5 leaf members are not strictly ordered") ≫= fun _ =>
      read_members count' prefix (Some h) r ≫= fun hs => Ok (h :: hs)
  end.

Definition decodeOutcomeLeafV5 (payload : bytes) : result (list bytes * Z * Z) :=
  checked (Read (length outcomeLeafDomainV5) payload) (fun d => negb (bool_decide (d = outcomeLeafDomainV5)))
    (ErrNew "invalid V5 leaf domain") ≫= fun '(_, r) =>
  ReadFull 2 r ≫= fun '(p, r) =>
  let prefix := be_value p in
  readOutcomeUint32V5 r ≫= fun '(chunk, r) =>
  match readOutcomeUint32V5 r with
  | Ok (count, r') =>
      fail_if ((count =? 0) || (Z.of_nat outcomeLeafChunkSize <? count) || negb (bytes_len r' =? count * 32))
        (ErrNew "invalid V5 leaf count") ≫= fun _ =>
      read_members (Z.to_nat count) prefix None r' ≫= fun hs => Ok (hs, prefix, chunk)
  | Err _ => Err (ErrNew "invalid V5 leaf count")
  end.

(** The guard both readers of stored leaves share: the payload decodes to what
    the row says. *)
Definition leaf_decodes (l : OutcomeHashLeafV5) : option (list bytes) :=
  match decodeOutcomeLeafV5 (Payload l) with
  | Ok (decoded, prefix, chunk) =>
      if (prefix =? Prefix16 l) && (chunk =? ChunkIndex l) && (Z.of_nat (length decoded) =? leafCardinality l)
      then Some decoded else None
  | Err _ => None
  end.

Definition decode_leaf (members : list bytes) (l : OutcomeHashLeafV5) : result (list bytes) :=
  fail_if (negb (bool_decide (sha256HexV5 (Payload l) = LeafSHA256 l))) (ErrNew "invalid V5 outcome leaf digest") ≫= fun _ =>
  match leaf_decodes l with
  | Some decoded => Ok (members ++ decoded)
  | None => Err (ErrNew "invalid V5 outcome leaf metadata")
  end.

Definition map_values {A} (m : gmap string A) : list A := map snd (map_to_list m).

Definition decodeOutcomeMembersV5 (objects : OutcomeHashSetObjectsV5) : result (list bytes) :=
  fold_res decode_leaf [] (map_values (Leaves objects)) ≫= fun members =>
  let members := uniqueOutcomeHashesV5 members in
  fail_if (negb (Z.of_nat (length members) =? Cardinality (objSet objects)))
    (ErrNew "V5 outcome leaf cardinality disagrees with root") ≫= fun _ =>
  Ok members.

(** ** Building *)
Definition add_leaf (st : gmap string OutcomeHashLeafV5 * gmap Z (list outcomeLeafReferenceV5)) (leaf : OutcomeHashLeafV5) :
    result (gmap string OutcomeHashLeafV5 * gmap Z (list outcomeLeafReferenceV5)) :=
  let '(leaves, byBlock) := st in
  fail_if (match leaves !! LeafSHA256 leaf with Some existing => negb (sameOutcomeLeafV5 existing leaf) | None => false end)
    (ErrNew "V5 leaf SHA-256 collision") ≫= fun _ =>
  let prefix8 := byte_prefix (Prefix16 leaf) in
  Ok (<[LeafSHA256 leaf := leaf]> leaves, <[prefix8 := default [] (byBlock !! prefix8) ++ [leaf_ref leaf]]> byBlock).

Definition leaf_key (r : outcomeLeafReferenceV5) : Z * Z := (lrPrefix16 r, lrChunk r).
Definition leaf_le (a b : outcomeLeafReferenceV5) : Prop := cle (leaf_key a) (leaf_key b).
#[export] Instance leaf_le_dec : RelDecision leaf_le.
Proof. intros a b. unfold leaf_le. apply _. Defined.
Definition sort_leaf_refs (refs : list outcomeLeafReferenceV5) : list outcomeLeafReferenceV5 := merge_sort leaf_le refs.

Definition block_of (prefix : Z) (refs : list outcomeLeafReferenceV5) : result OutcomeHashBlockV5 :=
  canonicalOutcomeBlockV5 prefix (sort_leaf_refs refs) ≫= fun '(manifest, cardinality) =>
  Ok (MkBlock (sha256HexV5 manifest) prefix cardinality manifest).
Definition block_ref (b : OutcomeHashBlockV5) : outcomeBlockReferenceV5 :=
  BlockRef (Prefix8 b) (BlockSHA256 b) (blockCardinality b).

Definition add_block (byBlock : gmap Z (list outcomeLeafReferenceV5))
    (st : gmap string OutcomeHashBlockV5 * list outcomeBlockReferenceV5) (prefix : Z) :
    result (gmap string OutcomeHashBlockV5 * list outcomeBlockReferenceV5) :=
  let '(blocks, blockRefs) := st in
  match default [] (byBlock !! prefix) with
  | [] => Ok (blocks, blockRefs)
  | refs =>
      block_of prefix refs ≫= fun block =>
      fail_if (match blocks !! BlockSHA256 block with Some existing => negb (sameOutcomeBlockV5 existing block) | None => false end)
        (ErrNew "V5 block SHA-256 collision") ≫= fun _ =>
      Ok (<[BlockSHA256 block := block]> blocks, blockRefs ++ [block_ref block])
  end.

Definition set_of (cardinality : Z) (refs : list outcomeBlockReferenceV5) : result OutcomeSetV5 :=
  canonicalOutcomeRootV5 cardinality refs ≫= fun root =>
  Ok (MkSet (sha256HexV5 root) cardinality (Z.of_nat (length refs)) root).

Definition buildOutcomeHashSetFromBinaryV5 (input : list bytes) : result OutcomeHashSetObjectsV5 :=
  let hashes := uniqueOutcomeHashesV5 input in
  fold_res add_leaf (∅, ∅) (flat_map (fun g => chunk_leaves g.1 g.2) (prefix_groups hashes)) ≫= fun '(leaves, byBlock) =>
  fold_res (add_block byBlock) (∅, []) (seqZ 0 256) ≫= fun '(blocks, blockRefs) =>
  set_of (Z.of_nat (length hashes)) blockRefs ≫= fun set =>
  Ok (MkObjects set leaves blocks (slice_of hashes)).

Definition BuildOutcomeHashSetV5 (hashTexts : list string) : result OutcomeHashSetObjectsV5 :=
  fold_res (fun hashes text => decodeOutcomeHashV5 text ≫= fun hash => Ok (hashes ++ [hash])) [] hashTexts ≫=
  buildOutcomeHashSetFromBinaryV5.

(** ** Verification *)
Definition verifyOutcomeRootV5 (set : OutcomeSetV5) : result unit :=
  fail_if ((Cardinality set <? 0) || (BlockCount set <? 0) || (256 <? BlockCount set) || (bytes_len (RootManifest set) =? 0) ||
           negb (bool_decide (sha256HexV5 (RootManifest set) = SetSHA256 set)))
    (ErrNew "invalid V5 outcome set digest or cardinality") ≫= fun _ =>
  parseV5RootManifestReferences (RootManifest set) (Cardinality set) (BlockCount set) ≫= fun refs =>
  let total := fold_left (fun total ref => wrap_int64 (total + brCardinality ref)) refs 0 in
  fail_if (negb (total =? Cardinality set)) (ErrNew "V5 root block cardinality disagrees with set").

Definition VerifySetDigest (objects : OutcomeHashSetObjectsV5) : result unit :=
  let set := objSet objects in
  verifyOutcomeRootV5 set ≫= fun _ =>
  fail_if (negb (BlockCount set =? Z.of_nat (size (Blocks objects))))
    (ErrNew "V5 outcome set verification requires the complete block graph") ≫= fun _ =>
  fail_if ((Cardinality set <? 0) || (bytes_len (RootManifest set) =? 0) ||
           negb (bool_decide (sha256HexV5 (RootManifest set) = SetSHA256 set)))
    (ErrNew "invalid V5 outcome set digest or cardinality") ≫= fun _ =>
  decodeOutcomeMembersV5 objects ≫= fun members =>
  buildOutcomeHashSetFromBinaryV5 members ≫= fun rebuilt =>
  fail_if (negb (bool_decide (SetSHA256 (objSet rebuilt) = SetSHA256 set)) ||
           negb (Cardinality (objSet rebuilt) =? Cardinality set) ||
           negb (bool_decide (RootManifest (objSet rebuilt) = RootManifest set)))
    (ErrNew "V5 outcome set object graph disagrees with its root") ≫= fun _ =>
  check_all (fun kv => fail_if (match Blocks objects !! kv.1 with Some got => negb (sameOutcomeBlockV5 got kv.2) | None => true end)
                         (ErrNew "V5 outcome set is missing a canonical block"))
    (map_to_list (Blocks rebuilt)).

(** ** Difference and union *)

(** The two-pointer loop over sorted slices: the union, and what is new in it. *)
Fixpoint merge_loop (left : list bytes) : list bytes -> list bytes * list bytes :=
  fix go (right : list bytes) : list bytes * list bytes :=
  match left, right with
  | [], [] => ([], [])
  | [], c :: right' => let '(union, novel) := go right' in (c :: union, c :: novel)
  | m :: left', [] => let '(union, novel) := merge_loop left' [] in (m :: union, novel)
  | m :: left', c :: right' =>
      match bytes_compare m c with
      | Lt => let '(union, novel) := merge_loop left' right in (m :: union, novel)
      | Gt => let '(union, novel) := go right' in (c :: union, c :: novel)
      | Eq => let '(union, novel) := merge_loop left' right' in (m :: union, novel)
      end
  end.

Definition mergeOutcomeHashesV5 (existing additions : list bytes) : list bytes * list bytes :=
  merge_loop (uniqueOutcomeHashesV5 existing) (uniqueOutcomeHashesV5 additions).

Definition DifferenceAndUnion (root : OutcomeHashSetObjectsV5) (candidate : OutcomeCandidateV5) :
    result (OutcomeHashSetObjectsV5 * list bytes) :=
  VerifySetDigest root ≫= fun _ =>
  (match Members root with Some members => Ok members | None => decodeOutcomeMembersV5 root end) ≫= fun rootMembers =>
  let '(union, novel) := merge_loop (uniqueOutcomeHashesV5 rootMembers) (uniqueOutcomeHashesV5 (candHashes candidate)) in
  buildOutcomeHashSetFromBinaryV5 union ≫= fun built => Ok (built, novel).

(** ** Candidates *)
Section candidates.
Context `{FactId.SQLLiterals}.

Definition candidate_step (byHash : gmap bytes OrdinalDynamicFact) (fact : FactId.FactID) : result (gmap bytes OrdinalDynamicFact) :=
  fail_if (negb (FactId.same (FactId.Profile fact) FactId.ProfileV5) ||
           (negb (FactId.same (FactId.Kind fact) FactId.FactPredicateAtom) &&
            negb (FactId.same (FactId.Kind fact) FactId.FactCompositeOutcome)))
    (ErrNew "V5 outcome candidate contains a non-V5 outcome fact") ≫= fun _ =>
  FactId.Hash fact ≫= fun hashText =>
  decodeOutcomeHashV5 hashText ≫= fun hash =>
  FactId.CanonicalPayload fact ≫= fun payload =>
  let kind := if FactId.same (FactId.Kind fact) FactId.FactCompositeOutcome then "COMPOSITE_OUTCOME" else "PREDICATE_ATOM" in
  let dynamic := MkDynamicFact hashText kind payload in
  match byHash !! hash with
  | Some existing =>
      if negb (bool_decide (dynKind existing = dynKind dynamic)) || negb (bool_decide (dynPayload existing = dynPayload dynamic))
      then Err (ErrNew "V5 outcome fact SHA-256 collision") else Ok byHash
  | None => Ok (<[hash := dynamic]> byHash)
  end.

Definition BuildCandidateSet (facts : list FactId.FactID) : result OutcomeCandidateV5 :=
  fold_res candidate_step ∅ facts ≫= fun byHash =>
  let hashes := sortOutcomeHashesV5 (map fst (map_to_list byHash)) in
  Ok (MkCandidate (omap (fun hash => byHash !! hash) hashes) hashes).
End candidates.

End OutcomeSet.
