(* ===== verification/OutcomeLists.v ===== *)
(** * Sorted slices of hashes

    The lemmas on [OutcomeSet]'s slices: deduplication, the merge loop, the runs
    of one prefix and their chunks. *)

From S2P Require Import Prelude GoBytes Ordering GoText Sha256 FactId OutcomeSet.
Import GoText Sha256 OutcomeSet.

Module OutcomeLists.

(** ** Filters *)
Lemma filter_ext_in {A} (P Q : A -> Prop) `{!forall x, Decision (P x), !forall x, Decision (Q x)} (l : list A) :
  (forall x, x ∈ l -> P x <-> Q x) -> filter P l = filter Q l.
Proof.
  induction l as [|x l IH]; intros Hin; [done|]. rewrite !filter_cons, IH by (intros y Hy; apply Hin; by right).
  pose proof (Hin x ltac:(by left)). repeat case_decide; naive_solver.
Qed.
Lemma filter_all {A} (P : A -> Prop) `{!forall x, Decision (P x)} (l : list A) : (forall x, x ∈ l -> P x) -> filter P l = l.
Proof.
  induction l as [|x l IH]; intros Hin; [done|]. rewrite filter_cons_True by (apply Hin; by left). f_equal. apply IH. intros y Hy. apply Hin. by right.
Qed.
Lemma filter_none {A} (P : A -> Prop) `{!forall x, Decision (P x)} (l : list A) : (forall x, x ∈ l -> ~ P x) -> filter P l = [].
Proof.
  induction l as [|x l IH]; intros Hin; [done|]. rewrite filter_cons_False by (apply Hin; by left). apply IH. intros y Hy. apply Hin. by right.
Qed.

Lemma filter_sorted {A} (R : A -> A -> Prop) (P : A -> Prop) `{!forall x, Decision (P x)} (l : list A) :
  StronglySorted R l -> StronglySorted R (filter P l).
Proof.
  induction 1 as [|x l Hs IH HF]; [constructor|]. rewrite filter_cons. case_decide; [|done]. constructor; [done|].
  rewrite Forall_forall in *. intros y [_ Hy]%list_elem_of_filter. by apply HF.
Qed.

(** ** Prefixes *)
Definition hash32 (h : bytes) : Prop := length h = 32%nat.

Lemma prefix_cons a b h : prefix_of (a :: b :: h) = byte_val a * 256 + byte_val b.
Proof. reflexivity. Qed.

Lemma hash32_cons h : hash32 h -> exists a b t, h = a :: b :: t.
Proof. destruct h as [|a [|b t]]; [done..|]. intros _. by exists a, b, t. Qed.

Lemma prefix_range h : hash32 h -> 0 <= prefix_of h < 65536.
Proof.
  intros (a & b & t & ->)%hash32_cons. rewrite prefix_cons. pose proof (byte_val_range a). pose proof (byte_val_range b). lia.
Qed.

Lemma prefix_mono h k : hash32 h -> hash32 k -> clt h k -> prefix_of h <= prefix_of k.
Proof.
  intros (a & b & t & ->)%hash32_cons (c & d & u & ->)%hash32_cons. rewrite !prefix_cons. unfold clt, compare, bytes_Compare. cbn [bytes_compare].
  pose proof (byte_val_range b). pose proof (byte_val_range d).
  destruct (Z.compare_spec (byte_val a) (byte_val c)) as [E|E|E]; [|lia|done].
  destruct (Z.compare_spec (byte_val b) (byte_val d)) as [E'|E'|E']; [lia|lia|done].
Qed.

Lemma byte_prefix_div p : 0 <= p < 65536 -> byte_prefix p = p / 256.
Proof.
  intros Hp. unfold byte_prefix. rewrite Z.shiftr_div_pow2 by lia. change (2 ^ 8) with 256. apply Z.mod_small.
  split; [apply Z.div_pos; lia|]. apply Z.div_lt_upper_bound; lia.
Qed.

Lemma join_prefix b low : 0 <= low < 256 -> Z.lor (Z.shiftl b 8) low = b * 256 + low.
Proof.
  intros Hl. rewrite Z.shiftl_mul_pow2 by lia. change (2 ^ 8) with 256. symmetry. apply Z.add_nocarry_lor.
  apply Z.bits_inj'. intros n Hn. rewrite Z.land_spec, Z.bits_0. change 256 with (2 ^ 8).
  destruct (Z.lt_ge_cases n 8).
  - rewrite Z.mul_pow2_bits_low by lia. done.
  - rewrite (Z.bits_above_log2 low n); [by rewrite andb_false_r|lia|].
    destruct (Z.eq_dec low 0) as [->|]; [cbn; lia|]. apply Z.log2_lt_pow2; [lia|].
    apply Z.lt_le_trans with (2 ^ 8); [lia|]. apply Z.pow_le_mono_r; lia.
Qed.

(** ** Deduplication *)
Lemma compact_from_sorted l : forall x, StronglySorted cle (x :: l) -> StronglySorted clt (x :: compact_from x l) /\ forall y, y ∈ compact_from x l <-> y ∈ l /\ y <> x.
Proof.
  induction l as [|h l IH]; intros x Hs.
  - split; [constructor; constructor|]. cbn. intros y. rewrite elem_of_nil. naive_solver.
  - inversion Hs as [|? ? Hs' HF]; subst. inversion HF as [|? ? Hxh HF']; subst. cbn [compact_from]. case_bool_decide as E.
    + subst h. destruct (IH x Hs') as [I1 I2]. split; [done|]. intros y. rewrite I2, elem_of_cons. naive_solver.
    + destruct (IH h Hs') as [I1 I2]. split.
      * constructor; [done|]. apply Forall_forall. intros y Hy.
        assert (clt x h) as Hlt by (destruct (proj1 (cle_alt x h) Hxh); [done|done]).
        apply elem_of_cons in Hy as [->|Hy]; [done|]. eapply clt_trans; [exact Hlt|]. inversion I1 as [|? ? ? HF1]; subst.
        by eapply (proj1 (Forall_forall _ _)).
      * clear IH. intros y. rewrite !elem_of_cons, I2. clear I2. split; [|intros [[->|Hy] Hn]; [by left|]; destruct (decide (y = h)); [by left|by right]]. intros [->|[Hy Hn]]; [split; [by left|congruence]|]. split; [by right|].
        intros ->. inversion Hs' as [|? ? ? HF1]; subst. rewrite Forall_forall in HF1. specialize (HF1 _ Hy).
        apply E, (anti_symm cle); done.
Qed.

Lemma compact_spec l : StronglySorted cle l -> StronglySorted clt (compact l) /\ forall y, y ∈ compact l <-> y ∈ l.
Proof.
  destruct l as [|x l]; intros Hs; [split; [constructor|done]|]. destruct (compact_from_sorted l x Hs) as [I1 I2]. split; [done|].
  intros y. cbn [compact]. rewrite !elem_of_cons, I2. destruct (decide (y = x)); naive_solver.
Qed.

Lemma unique_sorted l : StronglySorted clt (uniqueOutcomeHashesV5 l).
Proof. apply compact_spec, go_sort_sorted. Qed.
Lemma elem_unique x l : x ∈ uniqueOutcomeHashesV5 l <-> x ∈ l.
Proof. unfold uniqueOutcomeHashesV5, sortOutcomeHashesV5. rewrite (proj2 (compact_spec _ (go_sort_sorted l))). apply elem_go_sort. Qed.

(** The sorted slice with given elements is unique, so every slice of the same
    hashes is deduplicated to the same one. *)
Lemma unique_ext l k : (forall x, x ∈ l <-> x ∈ k) -> uniqueOutcomeHashesV5 l = uniqueOutcomeHashesV5 k.
Proof. intros E. apply strict_sorted_ext; [apply unique_sorted..|]. intros x. by rewrite !elem_unique. Qed.
Lemma unique_id l : StronglySorted clt l -> uniqueOutcomeHashesV5 l = l.
Proof. intros Hs. apply strict_sorted_ext; [apply unique_sorted|done|]. intros x. apply elem_unique. Qed.
Lemma unique_hash32 l : Forall hash32 l -> Forall hash32 (uniqueOutcomeHashesV5 l).
Proof. rewrite !Forall_forall. intros H x Hx. by apply H, elem_unique. Qed.
Lemma unique_length l : (length (uniqueOutcomeHashesV5 l) <= length l)%nat.
Proof.
  apply submseteq_length, NoDup_submseteq; [apply nodup_of_strict, unique_sorted|]. intros x. apply elem_unique.
Qed.

(** ** The merge loop *)
Definition spec_union (l r : list bytes) : list bytes := uniqueOutcomeHashesV5 (l ++ r).
Definition spec_novel (l r : list bytes) : list bytes := filter (fun h => h ∉ l) (uniqueOutcomeHashesV5 r).

Lemma merge_nil_l r : merge_loop [] r = (r, r).
Proof. induction r as [|c r IH]; [done|]. cbn in *. by rewrite IH. Qed.
Lemma merge_nil_r l : merge_loop l [] = (l, []).
Proof. induction l as [|m l IH]; [done|]. cbn in *. by rewrite IH. Qed.
Lemma merge_cons m l c r : merge_loop (m :: l) (c :: r) =
  match bytes_compare m c with
  | Lt => let '(union, novel) := merge_loop l (c :: r) in (m :: union, novel)
  | Gt => let '(union, novel) := merge_loop (m :: l) r in (c :: union, c :: novel)
  | Eq => let '(union, novel) := merge_loop l r in (m :: union, novel)
  end.
Proof. reflexivity. Qed.

Lemma sorted_head_lt {A} `{!Compare A, !CompareLaws A} (a b : A) l : clt a b -> StronglySorted clt (b :: l) -> Forall (clt a) (b :: l).
Proof.
  intros Hab Hs. inversion Hs as [|? ? ? HF]; subst. constructor; [done|]. eapply Forall_impl; [exact HF|]. intros x. by apply clt_trans.
Qed.

Lemma sorted_not_in {A} `{!Compare A, !CompareLaws A} (a : A) l : Forall (clt a) l -> a ∉ l.
Proof. rewrite Forall_forall. intros HF Ha. by apply (clt_irrefl a), HF. Qed.

Lemma merge_spec l : forall r, StronglySorted clt l -> StronglySorted clt r ->
  StronglySorted clt (merge_loop l r).1 /\ (forall x, x ∈ (merge_loop l r).1 <-> x ∈ l \/ x ∈ r) /\
  (merge_loop l r).2 = filter (fun h => h ∉ l) r.
Proof.
  induction l as [|m l IHl].
  { intros r _ Hr. rewrite merge_nil_l. cbn [fst snd]. split; [done|]. split; [intros x; rewrite elem_of_nil; naive_solver|].
    symmetry. apply filter_all. intros x _. by apply not_elem_of_nil. }
  induction r as [|c r IHr]; intros Hl Hr.
  { rewrite merge_nil_r. cbn [fst snd]. split; [done|]. split; [intros x; rewrite elem_of_nil; naive_solver|done]. }
  inversion Hl as [|? ? Hl' HFl]; subst. inversion Hr as [|? ? Hr' HFr]; subst. rewrite merge_cons.
  destruct (bytes_compare m c) eqn:E.
  - apply bytes_compare_eq in E as ->. destruct (IHl r Hl' Hr') as (I1 & I2 & I3). destruct (merge_loop l r) as [u n]. cbn [fst snd] in *.
    split; [constructor; [done|]|split].
    + apply Forall_forall. intros x [Hx|Hx]%I2; rewrite Forall_forall in HFl, HFr; auto.
    + intros x. rewrite !elem_of_cons, I2. naive_solver.
    + rewrite filter_cons_False by (intros H; apply H; by left). rewrite I3. apply filter_ext_in. intros x Hx.
      rewrite elem_of_cons. rewrite Forall_forall in HFr. specialize (HFr x Hx). split; [|naive_solver]. intros Hn [->|]; [by apply clt_irrefl in HFr|done].
  - destruct (IHl (c :: r) Hl' Hr) as (I1 & I2 & I3). destruct (merge_loop l (c :: r)) as [u n]. cbn [fst snd] in *.
    pose proof (sorted_head_lt m c r E Hr) as Hm.
    split; [constructor; [done|]|split].
    + apply Forall_forall. intros x [Hx|Hx]%I2; [rewrite Forall_forall in HFl; auto|rewrite Forall_forall in Hm; auto].
    + intros x. rewrite !elem_of_cons, I2, !elem_of_cons. naive_solver.
    + rewrite I3. apply filter_ext_in. intros x Hx. rewrite elem_of_cons.
      rewrite Forall_forall in Hm. specialize (Hm x Hx). split; [|naive_solver]. intros Hn [->|]; [by apply clt_irrefl in Hm|done].
  - destruct (IHr Hl Hr') as (I1 & I2 & I3). destruct (merge_loop (m :: l) r) as [u n].
    assert (clt c m) as Hcm by (unfold clt, compare, bytes_Compare; rewrite bytes_compare_antisym, E; done).
    pose proof (sorted_head_lt c m l Hcm Hl) as Hm. cbn [fst snd] in *.
    split; [constructor; [done|]|split].
    + apply Forall_forall. intros x [Hx|Hx]%I2; [rewrite Forall_forall in Hm; auto|rewrite Forall_forall in HFr; auto].
    + intros x. rewrite !elem_of_cons, I2, !elem_of_cons. naive_solver.
    + rewrite filter_cons_True by (by apply sorted_not_in). by rewrite I3.
Qed.

Lemma merged_union l r : (mergeOutcomeHashesV5 l r).1 = spec_union l r.
Proof.
  unfold mergeOutcomeHashesV5, spec_union. destruct (merge_spec _ _ (unique_sorted l) (unique_sorted r)) as (I1 & I2 & _).
  apply strict_sorted_ext; [done|apply unique_sorted|]. intros x. by rewrite I2, !elem_unique, elem_of_app.
Qed.
Lemma merged_new l r : (mergeOutcomeHashesV5 l r).2 = spec_novel l r.
Proof.
  unfold mergeOutcomeHashesV5, spec_novel. destruct (merge_spec _ _ (unique_sorted l) (unique_sorted r)) as (_ & _ & ->).
  apply list_filter_iff. intros x. by rewrite elem_unique.
Qed.

(** ** Runs of one prefix *)
Definition at_prefix (p : Z) (hs : list bytes) : list bytes := filter (fun h => prefix_of h = p) hs.
Arguments at_prefix : simpl never.
Arguments prefix_of : simpl never.

Lemma flat_map_filter {A B} (f : A -> list B) (P : A -> Prop) `{!forall x, Decision (P x)} (l : list A) :
  (forall x, x ∈ l -> ~ P x -> f x = []) -> flat_map f (filter P l) = flat_map f l.
Proof.
  induction l as [|x l IH]; intros Hn; [done|]. rewrite filter_cons. cbn [flat_map]. rewrite <- IH by (intros y Hy; apply Hn; by right).
  case_decide as E; [done|]. by rewrite (Hn x) by (done || by left).
Qed.

Lemma seqZ_sorted lo n : StronglySorted Z.lt (seqZ lo n).
Proof.
  destruct (Z.le_gt_cases 0 n) as [Hn|]; [|by rewrite seqZ_nil by lia; constructor]. revert lo. pattern n. apply natlike_ind; [|clear n Hn; intros n Hn IH lo|done].
  - intros lo. rewrite seqZ_nil by lia. constructor.
  - rewrite seqZ_cons by lia. rewrite Z.pred_succ. constructor; [apply IH|]. apply Forall_forall. intros x. rewrite elem_of_seqZ. lia.
Qed.

Lemma flat_map_seqZ {B} (f : Z -> list B) (ps : list Z) lo n : StronglySorted Z.lt ps -> (forall p, p ∈ ps -> lo <= p < lo + n) ->
  (forall p, p ∉ ps -> f p = []) -> flat_map f ps = flat_map f (seqZ lo n).
Proof.
  intros Hs Hr Hf. rewrite <- (flat_map_filter f (fun p => p ∈ ps) (seqZ lo n)) by auto. f_equal.
  apply (strongly_sorted_ext Z.lt); [lia|lia|done|apply filter_sorted, seqZ_sorted|].
  intros x. rewrite list_elem_of_filter, elem_of_seqZ. split; [auto|naive_solver].
Qed.

Lemma at_prefix_cons p h hs : at_prefix p (h :: hs) = if decide (prefix_of h = p) then h :: at_prefix p hs else at_prefix p hs.
Proof. unfold at_prefix. by rewrite filter_cons. Qed.
Lemma elem_at_prefix p hs h : h ∈ at_prefix p hs <-> prefix_of h = p /\ h ∈ hs.
Proof. unfold at_prefix. by rewrite list_elem_of_filter. Qed.

Lemma groups_spec hs : StronglySorted (fun a b => prefix_of a <= prefix_of b) hs ->
  StronglySorted Z.lt (map fst (prefix_groups hs)) /\
  (forall g, g ∈ prefix_groups hs -> g.2 = at_prefix g.1 hs) /\
  (forall p, p ∈ map fst (prefix_groups hs) <-> exists h, h ∈ hs /\ prefix_of h = p).
Proof.
  induction hs as [|h hs IH]; intros Hs.
  { cbn. split; [constructor|]. split; [by intros g ?%elem_of_nil|]. intros p. split; [by intros ?%elem_of_nil|]. by intros (? & ?%elem_of_nil & _). }
  inversion Hs as [|? ? Hs' HF]; subst. destruct (IH Hs') as (I1 & I2 & I3). rewrite Forall_forall in HF. clear IH Hs Hs'. cbn [prefix_groups].
  destruct (prefix_groups hs) as [|[p g] more] eqn:E.
  { assert (hs = []) as ->. { destruct hs as [|k ?]; [done|]. destruct (not_elem_of_nil (prefix_of k)). apply I3. exists k. split; [by left|done]. }
    cbn. split; [constructor; constructor|]. split.
    - intros g ->%list_elem_of_singleton. cbn. rewrite at_prefix_cons. by rewrite decide_True.
    - intros p. rewrite list_elem_of_singleton. split; [intros ->; exists h; split; [by left|done]|]. by intros (k & ->%list_elem_of_singleton & <-). }
  assert (prefix_of h <= p) as Hp. { destruct (proj1 (I3 p)) as (k & Hk & <-); [by left|]. by apply HF. }
  pose proof (I2 (p, g) ltac:(by left)) as Hg. cbn in Hg.
  assert (forall q, q ∈ map fst more -> p < q) as Hmore. { cbn in I1. inversion I1 as [|? ? ? HF1]; subst. by apply Forall_forall. }
  destruct (Z.eqb_spec (prefix_of h) p) as [Eh|Eh].
  - cbn in *. split; [done|]. split.
    + intros g' [->|Hg']%elem_of_cons; cbn; rewrite at_prefix_cons; [rewrite decide_True by done; by rewrite Hg|].
      rewrite decide_False; [apply I2; by right|]. intros Ep. specialize (Hmore g'.1 (list_elem_of_fmap_2 fst _ _ Hg')). lia.
    + intros q. rewrite I3. split; [intros (k & Hk & <-); exists k; split; [by right|done]|].
      intros (k & [->|Hk]%elem_of_cons & <-); [|exists k; done]. apply I3. rewrite Eh. by left.
  - split; [|split].
    + cbn in *. constructor; [done|]. apply Forall_forall. intros q [->|Hq]%elem_of_cons; [lia|]. specialize (Hmore q Hq). lia.
    + intros g' [->|Hg']%elem_of_cons; cbn [fst snd]; rewrite at_prefix_cons.
      * rewrite decide_True by done. f_equal. symmetry. apply filter_none. intros k Hk Ek. assert (p <= prefix_of k); [|lia].
        assert (prefix_of k ∈ p :: map fst more) as [->|Hm%Hmore]%elem_of_cons by (apply I3; by exists k); lia.
      * rewrite decide_False; [by apply I2|]. intros Ep. apply elem_of_cons in Hg' as [->|Hg']; [cbn in Ep; lia|].
        specialize (Hmore g'.1 (list_elem_of_fmap_2 fst _ _ Hg')). lia.
    + intros q. cbn [map fst]. rewrite elem_of_cons. change (p :: map fst more) with (map fst ((p, g) :: more)). rewrite I3. split.
      * intros [->|(k & Hk & <-)]; [exists h; split; [by left|done]|exists k; split; [by right|done]].
      * intros (k & [->|Hk]%elem_of_cons & <-); [by left|right; by exists k].
Qed.

Lemma sorted_prefixes hs : Forall hash32 hs -> StronglySorted clt hs -> StronglySorted (fun a b => prefix_of a <= prefix_of b) hs.
Proof.
  intros HF Hs. induction Hs as [|h hs Hs IH Hh]; [constructor|]. inversion HF; subst. constructor; [by apply IH|].
  rewrite !Forall_forall in *. intros k Hk. apply prefix_mono; [done|auto|auto].
Qed.

(** The groups of a sorted slice, whatever is made of each of them. *)
Lemma groups_flat {B} (f : Z -> list bytes -> list B) hs : Forall hash32 hs -> StronglySorted clt hs -> (forall p, f p [] = []) ->
  flat_map (fun g => f g.1 g.2) (prefix_groups hs) = flat_map (fun p => f p (at_prefix p hs)) (seqZ 0 65536).
Proof.
  intros HF Hs Hnil. destruct (groups_spec hs (sorted_prefixes hs HF Hs)) as (I1 & I2 & I3).
  rewrite <- (flat_map_seqZ _ (map fst (prefix_groups hs))); [|done| |].
  - clear I1 I3. revert I2. generalize (prefix_groups hs). induction l as [|g l IH]; intros I2; [done|]. cbn [flat_map map].
    rewrite (I2 g) by (by left). f_equal. apply IH. intros g' Hg'. apply I2. by right.
  - intros p (h & Hh & <-)%I3. rewrite Forall_forall in HF. apply prefix_range, HF, Hh.
  - intros p Hp. unfold at_prefix. rewrite filter_none; [apply Hnil|]. intros h Hh E. apply Hp, I3. by exists h.
Qed.

(** ** Chunks *)
Fixpoint pieces (fuel : nat) (chunk : Z) (hs : list bytes) : list (Z * list bytes) :=
  match fuel, hs with
  | S fuel', _ :: _ => (chunk, take outcomeLeafChunkSize hs) :: pieces fuel' ((chunk + 1) mod 2 ^ 32) (drop outcomeLeafChunkSize hs)
  | _, _ => []
  end.

Lemma chunk_pieces p fuel : forall chunk hs, chunk_loop fuel p chunk hs = map (fun c => leaf_of p c.1 c.2) (pieces fuel chunk hs).
Proof. induction fuel as [|fuel IH]; intros chunk [|h hs]; [done..|]. cbn [chunk_loop pieces map fst snd]. by rewrite IH. Qed.

Lemma pieces_concat fuel : forall chunk hs, (length hs <= fuel)%nat -> concat (map snd (pieces fuel chunk hs)) = hs.
Proof.
  induction fuel as [|fuel IH]; intros chunk [|h hs] Hf; [done|cbn in Hf; lia|done|]. cbn [pieces map concat snd].
  rewrite IH; [apply take_drop|]. rewrite length_drop. unfold outcomeLeafChunkSize. cbn [length] in *. lia.
Qed.

Lemma pieces_size fuel : forall chunk hs, Forall (fun c => 0 < Z.of_nat (length c.2) <= 4096) (pieces fuel chunk hs).
Proof.
  induction fuel as [|fuel IH]; intros chunk [|h hs]; [constructor..|]. cbn [pieces]. constructor; [|apply IH].
  cbn [snd]. rewrite length_take. unfold outcomeLeafChunkSize. cbn [length]. lia.
Qed.

Lemma pieces_chunks fuel : forall chunk hs, (length hs <= fuel)%nat -> 0 <= chunk -> chunk + Z.of_nat (length hs) < 2 ^ 32 ->
  map fst (pieces fuel chunk hs) = seqZ chunk (Z.of_nat (length (pieces fuel chunk hs))) /\ (length (pieces fuel chunk hs) <= length hs)%nat.
Proof.
  induction fuel as [|fuel IH]; intros chunk [|h hs] Hf Hc Hl; [cbn; split; [done|lia]..|]. cbn [pieces map fst].
  rewrite Z.mod_small by (cbn [length] in Hl; lia).
  destruct (IH (chunk + 1) (drop outcomeLeafChunkSize (h :: hs))) as [I1 I2]; rewrite ?length_drop in *; unfold outcomeLeafChunkSize in *; cbn [length] in *; [lia..|].
  rewrite I1. split; [|lia]. rewrite (seqZ_cons chunk) by lia. f_equal; f_equal; lia.
Qed.
Lemma union_split M batch : StronglySorted clt M -> M ++ spec_novel M batch ≡ₚ spec_union M batch.
Proof.
  intros HS. apply NoDup_Permutation.
  - apply NoDup_app. split; [by apply nodup_of_strict|]. split; [|apply nodup_of_strict, filter_sorted, unique_sorted]. intros x Hx [Hn _]%list_elem_of_filter. done.
  - apply nodup_of_strict, unique_sorted.
  - intros x. unfold spec_novel, spec_union. rewrite elem_of_app, list_elem_of_filter, !elem_unique, elem_of_app. destruct (decide (x ∈ M)); tauto.
Qed.


End OutcomeLists.
