(* ===== verification/OutcomeCodec.v ===== *)
(** * The encodings of leaves, blocks and roots

    What the writers of [OutcomeSet] produce, their readers read back; and the
    readers accept nothing else. *)

From S2P Require Import Prelude GoBytes Ordering GoText Sha256 FactId OutcomeSet OutcomeLists.
Import GoText Sha256 OutcomeSet OutcomeLists.

Module OutcomeCodec.

(** ** Readers *)
Lemma ReadFull_app n a r : length a = n -> ReadFull n (a ++ r) = Ok (a, r).
Proof.
  intros <-. unfold ReadFull. rewrite length_app. rewrite (proj2 (Nat.leb_le _ _)) by lia.
  rewrite take_app_length, drop_app_length. done.
Qed.
Lemma ReadFull_inv n r a r' : ReadFull n r = Ok (a, r') -> r = a ++ r' /\ length a = n.
Proof.
  unfold ReadFull. destruct (Nat.leb_spec n (length r)); [|done]. intros [= <- <-]. split; [by rewrite take_drop|]. rewrite length_take. lia.
Qed.
Lemma Read_app n a r : length a = S n -> Read (S n) (a ++ r) = Ok (a, r).
Proof.
  intros E. unfold Read. destruct a as [|x a]; [done|]. cbn [app]. change (x :: a ++ r) with ((x :: a) ++ r).
  rewrite length_app, E. replace (S n - (S n + length r))%nat with 0%nat by lia. cbn [replicate]. rewrite app_nil_r, <- E.
  by rewrite take_app_length, drop_app_length.
Qed.
Lemma Read_long n r a r' : (n <= length r)%nat -> Read n r = Ok (a, r') -> r = a ++ r' /\ length a = n.
Proof.
  unfold Read. destruct r as [|x r]; [done|]. generalize (x :: r). intros b Hn [<- <-]%Ok_inj%pair_equal_spec.
  replace (n - length b)%nat with 0%nat by lia. cbn [replicate]. rewrite app_nil_r. split; [by rewrite take_drop|]. rewrite length_take. lia.
Qed.

Lemma Read_short n r a r' : Read n r = Ok (a, r') -> r' <> [] -> (n <= length r)%nat.
Proof.
  intros E Hr. destruct (Nat.le_gt_cases n (length r)) as [|Hs]; [done|]. destruct Hr. unfold Read in E. destruct r as [|x r]; [done|].
  apply Ok_inj, pair_equal_spec in E as [_ <-]. apply drop_ge. lia.
Qed.

Lemma be_value_range b : 0 <= be_value b < 2 ^ (8 * Z.of_nat (length b)).
Proof.
  unfold be_value. enough (forall acc, 0 <= acc -> acc * 2 ^ (8 * Z.of_nat (length b)) <= be_value_acc acc b < (acc + 1) * 2 ^ (8 * Z.of_nat (length b))) as H
    by (specialize (H 0); lia).
  induction b as [|c b IH]; intros acc Hacc; cbn [be_value_acc length]; [change (8 * Z.of_nat 0) with 0; lia|].
  pose proof (byte_val_range c). specialize (IH (acc * 256 + byte_val c) ltac:(lia)).
  replace (8 * Z.of_nat (S (length b))) with (8 * Z.of_nat (length b) + 8) by lia. rewrite Z.pow_add_r by lia. change (2 ^ 8) with 256.
  set (q := 2 ^ (8 * Z.of_nat (length b))) in *. assert (0 < q) by (apply Z.pow_pos_nonneg; lia). nia.
Qed.
Lemma be_value_inj b c : length b = length c -> be_value b = be_value c -> b = c.
Proof.
  unfold be_value. enough (forall acc, length b = length c -> be_value_acc acc b = be_value_acc acc c -> b = c) as H by eauto.
  revert c. induction b as [|x b IH]; intros [|y c] acc; cbn [length be_value_acc]; try done. intros [= El] E.
  assert (byte_val x = byte_val y) as Exy.
  { assert (forall l a, be_value_acc a l = a * 2 ^ (8 * Z.of_nat (length l)) + be_value l) as Hsplit.
    { induction l as [|z l IHl]; intros a; cbn [be_value_acc length]; [change (8 * Z.of_nat 0) with 0; cbn; lia|].
      unfold be_value. cbn [be_value_acc]. rewrite IHl, (IHl (0 * 256 + byte_val z)).
      replace (8 * Z.of_nat (S (length l))) with (8 * Z.of_nat (length l) + 8) by lia. rewrite Z.pow_add_r by lia. lia. }
    rewrite !Hsplit in E. pose proof (be_value_range b). pose proof (be_value_range c). rewrite El in *.
    set (q := 2 ^ (8 * Z.of_nat (length c))) in *. assert (byte_val x = byte_val y \/ byte_val x < byte_val y \/ byte_val y < byte_val x) as [?|[?|?]] by lia; [done|nia|nia]. }
  apply byte_val_inj in Exy as ->. f_equal. eapply IH; [done|exact E].
Qed.
Lemma be_bytes_value n b : length b = n -> be_bytes n (be_value b) = b.
Proof.
  intros <-. apply be_value_inj; [apply length_be_bytes|]. rewrite be_value_bytes; [done|apply be_value_range].
Qed.

Lemma uint32_app v r : 0 <= v < 2 ^ 32 -> readV5Uint32 (be_uint32 v ++ r) = Ok (v, r).
Proof. intros Hv. unfold readV5Uint32. rewrite ReadFull_app by apply length_be_bytes. cbn [mbind result_bind]. unfold be_uint32. by rewrite (be_value_bytes 4). Qed.
Lemma uint64_app v r : 0 <= v < 2 ^ 64 -> readV5Uint64 (be_uint64 v ++ r) = Ok (v, r).
Proof. intros Hv. unfold readV5Uint64. rewrite ReadFull_app by apply length_be_bytes. cbn [mbind result_bind]. unfold be_uint64. by rewrite (be_value_bytes 8). Qed.
Lemma leaf_uint32_app v r : 0 <= v < 2 ^ 32 -> readOutcomeUint32V5 (be_uint32 v ++ r) = Ok (v, r).
Proof. intros Hv. unfold readOutcomeUint32V5. rewrite Read_app by apply length_be_bytes. cbn [mbind result_bind]. unfold be_uint32. by rewrite (be_value_bytes 4). Qed.
Lemma uint32_inv r v r' : readV5Uint32 r = Ok (v, r') -> r = be_uint32 v ++ r' /\ 0 <= v < 2 ^ 32.
Proof.
  unfold readV5Uint32. intros ((b & r0) & (-> & Hb)%ReadFull_inv & [= <- <-])%bind_ok. split; [|pose proof (be_value_range b) as H; by rewrite Hb in H].
  unfold be_uint32. by rewrite be_bytes_value.
Qed.
Lemma uint64_inv r v r' : readV5Uint64 r = Ok (v, r') -> r = be_uint64 v ++ r' /\ 0 <= v < 2 ^ 64.
Proof.
  unfold readV5Uint64. intros ((b & r0) & (-> & Hb)%ReadFull_inv & [= <- <-])%bind_ok. split; [|pose proof (be_value_range b) as H; by rewrite Hb in H].
  unfold be_uint64. by rewrite be_bytes_value.
Qed.
Lemma byte_app v r : 0 <= v < 256 -> ReadByte ([byte_of v] ++ r) = Ok (v, r).
Proof. intros Hv. cbn. by rewrite byte_val_of, Z.mod_small. Qed.
Lemma byte_inv r v r' : ReadByte r = Ok (v, r') -> r = [byte_of v] ++ r' /\ 0 <= v < 256.
Proof. destruct r as [|c r]; [done|]. intros [= <- <-]. rewrite byte_of_val. split; [done|apply byte_val_range]. Qed.

Lemma checked_ok {A} (r : result (A * bytes)) bad e v rest : checked r bad e = Ok (v, rest) <-> r = Ok (v, rest) /\ bad v = false.
Proof. destruct r as [[w r']|]; cbn; [|split; [done|by intros [? _]]]. destruct (bad w) eqn:E; split; [done|by intros [[= -> ->] ?]; congruence|by intros [= -> ->]|by intros [[= -> ->] _]]. Qed.
Lemma checked_bind {A B} (r : result (A * bytes)) bad e v rest (k : A * bytes -> result B) :
  r = Ok (v, rest) -> bad v = false -> checked r bad e ≫= k = k (v, rest).
Proof. intros -> E. cbn. by rewrite E. Qed.
Lemma fail_bind {B} b e (k : unit -> result B) : b = false -> fail_if b e ≫= k = k tt.
Proof. by intros ->. Qed.

(** ** Digests *)
Definition good_digest (d : string) : Prop := exists b, hash32 b /\ d = hex_encode b.
Lemma sha_good payload : good_digest (sha256HexV5 payload).
Proof. exists (Sum256 payload). split; [apply length_Sum256|done]. Qed.
Lemma decode_good b e : hash32 b -> decode_digest (hex_encode b) e = Ok b.
Proof. intros E. unfold decode_digest. rewrite hex_decode_encode. unfold bytes_len. rewrite E. done. Qed.
Definition raw (d : string) : bytes := default [] (hex_decode d).
Lemma decode_raw d e : good_digest d -> decode_digest d e = Ok (raw d) /\ hash32 (raw d) /\ hex_encode (raw d) = d.
Proof. intros (b & Hb & ->). unfold raw. rewrite hex_decode_encode. by rewrite decode_good. Qed.
Lemma raw_encode b : raw (hex_encode b) = b.
Proof. unfold raw. by rewrite hex_decode_encode. Qed.

(** ** Leaves *)
Definition good_leaf (p c : Z) (hs : list bytes) : Prop :=
  0 <= p < 65536 /\ 0 <= c < 2 ^ 32 /\ 0 < Z.of_nat (length hs) <= 4096 /\
  Forall hash32 hs /\ Forall (fun h => prefix_of h = p) hs /\ StronglySorted clt hs.

Lemma length_concat32 hs : Forall hash32 hs -> length (concat hs) = (32 * length hs)%nat.
Proof. induction 1 as [|h hs Hh HF IH]; [done|]. cbn [concat length]. rewrite length_app, IH, Hh. lia. Qed.

Lemma read_members_app p hs : forall prev, Forall hash32 hs -> Forall (fun h => prefix_of h = p) hs -> StronglySorted clt hs ->
  (forall q, prev = Some q -> Forall (clt q) hs) -> read_members (length hs) p prev (concat hs) = Ok hs.
Proof.
  induction hs as [|h hs IH]; intros prev HF HP Hs Hprev; [done|]. inversion HF; inversion HP; inversion Hs; subst. cbn [length read_members concat].
  rewrite (checked_bind _ _ _ h (concat hs)); [|by apply Read_app|by rewrite Z.eqb_refl].
  rewrite fail_bind; [rewrite (IH (Some h)); [done|done|done|done|by intros q [= <-]]|].
  destruct prev as [q|]; [|done]. specialize (Hprev q eq_refl). inversion Hprev as [|? ? Hq]; subst. unfold bytes_ltb.
  unfold clt, compare, bytes_Compare in Hq. by rewrite Hq.
Qed.

Lemma read_members_inv n p : forall prev r hs, read_members n p prev r = Ok hs -> length r = (32 * n)%nat ->
  r = concat hs /\ length hs = n /\ Forall hash32 hs /\ Forall (fun h => prefix_of h = p) hs /\ StronglySorted clt hs /\
  (forall q, prev = Some q -> Forall (clt q) hs).
Proof.
  induction n as [|n IH]; intros prev r hs.
  { intros <-%Ok_inj Hl. destruct r; [|done]. repeat split; try constructor. }
  cbn [read_members]. intros ([h r1] & (Hr & Hp)%checked_ok & Hk)%bind_ok Hl.
  apply fail_if_bind_ok in Hk as (Hlt & (hs' & Hm & <-%Ok_inj)%bind_ok). apply Read_long in Hr as [-> Hh]; [|lia].
  rewrite length_app in Hl. destruct (IH (Some h) r1 hs' Hm ltac:(lia)) as (-> & <- & I1 & I2 & I3 & I4). specialize (I4 h eq_refl).
  apply negb_false_iff, Z.eqb_eq in Hp. repeat split; try (by constructor).
  intros q ->. apply negb_false_iff in Hlt. assert (clt q h) as Hqh. { unfold clt, compare, bytes_Compare. unfold bytes_ltb in Hlt. by destruct (bytes_compare q h). }
  constructor; [done|]. eapply Forall_impl; [exact I4|]. intros x. by apply clt_trans.
Qed.

Lemma decode_leaf_canonical p c hs : good_leaf p c hs -> decodeOutcomeLeafV5 (canonicalOutcomeLeafV5 p c hs) = Ok (hs, p, c).
Proof.
  intros (Hp & Hc & Hn & HF & HP & Hs). unfold decodeOutcomeLeafV5, canonicalOutcomeLeafV5.
  rewrite (checked_bind _ _ _ outcomeLeafDomainV5 (be_uint16 p ++ be_uint32 c ++ be_uint32 (Z.of_nat (length hs)) ++ concat hs));
    [|by apply Read_app|by rewrite bool_decide_eq_true_2].
  cbn beta iota. rewrite ReadFull_app by apply length_be_bytes. cbn [mbind result_bind]. rewrite leaf_uint32_app by done. cbn [mbind result_bind].
  rewrite leaf_uint32_app by lia. rewrite (be_value_bytes 2) by (change (2 ^ (8 * Z.of_nat 2)) with 65536; lia).
  rewrite fail_bind; [rewrite Nat2Z.id, read_members_app; try done|].
  unfold bytes_len, outcomeLeafChunkSize. rewrite length_concat32 by done.
  rewrite (proj2 (Z.eqb_neq _ _)), (proj2 (Z.ltb_ge _ _)) by lia. cbn [orb]. rewrite (proj2 (Z.eqb_eq _ _)) by lia. done.
Qed.

Lemma leaf_domain_nonempty n : length outcomeLeafDomainV5 = n -> (0 < n)%nat.
Proof. intros <-. cbn. lia. Qed.

(** A payload that decodes is the encoding of what it decodes to. *)
Lemma decode_leaf_inv payload hs p c : decodeOutcomeLeafV5 payload = Ok (hs, p, c) -> payload = canonicalOutcomeLeafV5 p c hs /\ good_leaf p c hs.
Proof.
  unfold decodeOutcomeLeafV5. intros ([d r1] & (Hd & Ed)%checked_ok & H)%bind_ok. cbn beta iota in H.
  apply bind_ok in H as ([b r2] & (-> & Hb)%ReadFull_inv & H). apply bind_ok in H as ([chunk r3] & Hc & H).
  destruct (readOutcomeUint32V5 r3) as [[n r4]|] eqn:Hn; [|done]. apply fail_if_bind_ok in H as (Hg & (hs' & Hm & [= -> <- ->])%bind_ok).
  apply orb_false_iff in Hg as [Hg Hl%negb_false_iff%Z.eqb_eq]. apply orb_false_iff in Hg as [Hn0%Z.eqb_neq Hn1%Z.ltb_ge].
  apply negb_false_iff, bool_decide_eq_true in Ed as ->.
  unfold readOutcomeUint32V5 in Hn. apply bind_ok in Hn as ([b4 r4'] & Hr4 & [= <- ->]).
  assert (0 <= be_value b4) as Hpos by apply be_value_range.
  assert (length r4 = 32 * Z.to_nat (be_value b4))%nat as Hl' by (unfold bytes_len in Hl; lia).
  apply Read_long in Hr4 as [-> H4']; [|apply (Read_short _ _ _ _ Hr4); intros ->; cbn in Hl'; lia].
  unfold readOutcomeUint32V5 in Hc. apply bind_ok in Hc as ([b3 r3'] & Hr3 & [= <- ->]).
  apply Read_long in Hr3 as [-> H3']; [|apply (Read_short _ _ _ _ Hr3); by destruct b4].
  apply Read_long in Hd as [-> _]; [|apply (Read_short _ _ _ _ Hd); by destruct b].
  apply read_members_inv in Hm as (-> & Hlen & I1 & I2 & I3 & _); [|done].
  pose proof (be_value_range b3) as R3. rewrite H3' in R3. pose proof (be_value_range b) as R2. rewrite Hb in R2. change (2 ^ (8 * Z.of_nat 2)) with 65536 in R2.
  split.
  - unfold canonicalOutcomeLeafV5, be_uint16, be_uint32. rewrite Hlen, Z2Nat.id by done. by rewrite !be_bytes_value.
  - unfold good_leaf. unfold outcomeLeafChunkSize in Hn1. repeat split; try done; lia.
Qed.

(** ** Root manifests *)
Definition root_ref_bytes (ref : outcomeBlockReferenceV5) : bytes := [byte_of (brPrefix ref)] ++ raw (brDigest ref) ++ be_uint64 (brCardinality ref).
Lemma root_ref_encode p d c : root_ref_bytes (BlockRef p (hex_encode d) c) = [byte_of p] ++ d ++ be_uint64 c.
Proof. unfold root_ref_bytes. cbn [brPrefix brDigest brCardinality]. by rewrite raw_encode. Qed.
Definition sum_cards (refs : list outcomeBlockReferenceV5) : Z := foldr (fun ref acc => brCardinality ref + acc) 0 refs.

Fixpoint root_refs_ok (lastPrefix total : Z) (refs : list outcomeBlockReferenceV5) : Prop :=
  match refs with
  | [] => True
  | ref :: rest => lastPrefix < brPrefix ref < 256 /\ 0 < brCardinality ref /\ total + brCardinality ref <= max_int64 /\
      good_digest (brDigest ref) /\ root_refs_ok (brPrefix ref) (total + brCardinality ref) rest
  end.

Definition root_step (st : bytes * Z * Z) (ref : outcomeBlockReferenceV5) : result (bytes * Z * Z) :=
  let '(root, total, lastPrefix) := st in
  fail_if ((brPrefix ref <=? lastPrefix) || (brCardinality ref <? 1)) (ErrNew "invalid V5 root block reference") ≫= fun _ =>
  decode_digest (brDigest ref) (ErrNew "invalid V5 root block digest") ≫= fun digest =>
  let root' := root ++ [byte_of (brPrefix ref)] ++ digest ++ be_uint64 (brCardinality ref) in
  fail_if (max_int64 - total <? brCardinality ref) (ErrNew "V5 root cardinality overflow") ≫= fun _ =>
  Ok (root', total + brCardinality ref, brPrefix ref).

Lemma root_fold refs : forall root total lastPrefix, root_refs_ok lastPrefix total refs ->
  exists p, fold_res root_step (root, total, lastPrefix) refs = Ok (root ++ flat_map root_ref_bytes refs, total + sum_cards refs, p).
Proof.
  induction refs as [|ref refs IH]; intros root total lastPrefix.
  { intros _. exists lastPrefix. cbn. by rewrite app_nil_r, Z.add_0_r. }
  cbn [root_refs_ok]. intros (Hp & Hc & Ht & Hd & Hok). destruct (decode_raw _ (ErrNew "invalid V5 root block digest") Hd) as (Ed & _ & _).
  cbn [fold_res flat_map sum_cards foldr]. unfold root_step at 2.
  rewrite fail_bind by (apply orb_false_iff; rewrite Z.leb_gt, Z.ltb_ge; lia). rewrite Ed. cbn [mbind result_bind].
  rewrite fail_bind by (rewrite Z.ltb_ge; lia). cbn [mbind result_bind].
  destruct (IH (root ++ root_ref_bytes ref) (total + brCardinality ref) (brPrefix ref) Hok) as [p Hf]. exists p.
  unfold root_ref_bytes in Hf at 1. rewrite Hf. unfold sum_cards. by rewrite <- app_assoc, Z.add_assoc.
Qed.

Lemma root_refs_read refs : forall lastPrefix total r, -1 <= lastPrefix -> 0 <= total -> root_refs_ok lastPrefix total refs ->
  read_block_refs (length refs) lastPrefix total (flat_map root_ref_bytes refs ++ r) = Ok (refs, total + sum_cards refs, r).
Proof.
  induction refs as [|ref refs IH]; intros lastPrefix total r Hl Ht0.
  { intros _. cbn. by rewrite Z.add_0_r. }
  cbn [root_refs_ok]. intros (Hp & Hc & Ht & Hd & Hok). destruct (decode_raw _ ErrEOF Hd) as (_ & Hraw & Ehex). unfold max_int64 in *.
  cbn [length read_block_refs flat_map]. unfold root_ref_bytes at 1. rewrite <- !app_assoc.
  rewrite (checked_bind _ _ _ _ _ _ (byte_app (brPrefix ref) _ ltac:(lia))) by (rewrite Z.leb_gt; lia).
  rewrite ReadFull_app by done. cbn [mbind result_bind].
  rewrite (checked_bind _ _ _ _ _ _ (uint64_app (brCardinality ref) _ ltac:(lia))) by (unfold max_int64; apply orb_false_iff; rewrite Z.eqb_neq, Z.ltb_ge; lia).
  rewrite fail_bind by (unfold max_int64; rewrite Z.ltb_ge; lia). rewrite IH by (done || lia). cbn [mbind result_bind sum_cards foldr].
  rewrite Ehex. unfold sum_cards. rewrite Z.add_assoc. by destruct ref.
Qed.

Lemma root_refs_inv n : forall lastPrefix total r refs total' r', 0 <= total <= max_int64 -> read_block_refs n lastPrefix total r = Ok (refs, total', r') ->
  r = flat_map root_ref_bytes refs ++ r' /\ length refs = n /\ root_refs_ok lastPrefix total refs /\ total' = total + sum_cards refs.
Proof.
  induction n as [|n IH]; intros lastPrefix total r refs total' r' Ht; cbn [read_block_refs].
  { intros [= <- <- <-]. cbn. split; [done|]. split; [done|]. split; [done|]. lia. }
  intros ([p r1] & ([-> Hp]%byte_inv & Hl%Z.leb_gt)%checked_ok & ([d r2] & [-> Hd]%ReadFull_inv & H)%bind_ok)%bind_ok.
  apply bind_ok in H as ([c r3] & ([-> Hc]%uint64_inv & Hcr)%checked_ok & H). apply orb_false_iff in Hcr as [Hc0%Z.eqb_neq Hc1%Z.ltb_ge].
  apply fail_if_bind_ok in H as (Hov%Z.ltb_ge & H). apply bind_ok in H as ([[refs' t'] r4] & Hr & [= <- <- <-]).
  apply IH in Hr as (-> & <- & Hok & ->); [|lia]. cbn [flat_map length root_refs_ok sum_cards foldr brPrefix brCardinality brDigest].
  rewrite root_ref_encode, <- !app_assoc. split; [done|]. split; [done|].
  unfold sum_cards. split; [|lia]. split; [lia|]. split; [lia|]. split; [lia|]. split; [by exists d|done].
Qed.

Lemma profile_app r : readV5U32String ((be_uint32 (str_len FactId.ProfileV5) ++ to_bytes FactId.ProfileV5) ++ r) = Ok (to_bytes FactId.ProfileV5, r).
Proof.
  unfold readV5U32String. rewrite <- app_assoc, uint32_app by (split; [done|vm_compute; reflexivity]).
  rewrite (proj2 (Z.ltb_ge _ _)); [by apply ReadFull_app|]. unfold bytes_len, str_len. rewrite length_app, length_to_bytes. lia.
Qed.
Lemma profile_inv r b r' : readV5U32String r = Ok (b, r') -> r = (be_uint32 (bytes_len b) ++ b) ++ r'.
Proof.
  unfold readV5U32String. destruct (readV5Uint32 r) as [[n r1]|] eqn:E; [|done]. apply uint32_inv in E as [-> Hn].
  destruct (Z.ltb_spec (bytes_len r1) n); [done|]. intros [-> Hb]%ReadFull_inv. unfold bytes_len. rewrite Hb, Z2Nat.id by lia. by rewrite <- app_assoc.
Qed.

Definition root_bytes (cardinality : Z) (refs : list outcomeBlockReferenceV5) : bytes :=
  root_header cardinality (length refs) ++ flat_map root_ref_bytes refs.

Lemma root_refs_length lastPrefix total refs : root_refs_ok lastPrefix total refs -> Z.of_nat (length refs) <= Z.max 0 (255 - lastPrefix).
Proof.
  revert lastPrefix total. induction refs as [|ref refs IH]; intros l t; cbn [length root_refs_ok]; [lia|]. intros (Hp & _ & _ & _ & H). apply IH in H. lia.
Qed.

Lemma canonical_root_ok cardinality refs : root_refs_ok (-1) 0 refs -> sum_cards refs = cardinality -> 0 <= cardinality ->
  canonicalOutcomeRootV5 cardinality refs = Ok (root_bytes cardinality refs).
Proof.
  intros Hok Hs Hc. pose proof (root_refs_length _ _ _ Hok). unfold canonicalOutcomeRootV5.
  rewrite fail_bind by (apply orb_false_iff; rewrite !Z.ltb_ge; lia).
  destruct (root_fold refs (root_header cardinality (length refs)) 0 (-1) Hok) as [p Hf]. unfold root_step in Hf. rewrite Hf. cbn [mbind result_bind].
  by rewrite fail_bind by (rewrite negb_false_iff; apply Z.eqb_eq; lia).
Qed.

Lemma canonical_root_inv cardinality refs payload : root_refs_ok (-1) 0 refs -> canonicalOutcomeRootV5 cardinality refs = Ok payload ->
  payload = root_bytes cardinality refs /\ sum_cards refs = cardinality /\ 0 <= cardinality.
Proof.
  intros Hok. unfold canonicalOutcomeRootV5. intros ([Hc%Z.ltb_ge _]%orb_false_iff & H)%fail_if_bind_ok.
  destruct (root_fold refs (root_header cardinality (length refs)) 0 (-1) Hok) as [p Hf]. unfold root_step in Hf. rewrite Hf in H. cbn [mbind result_bind] in H.
  apply fail_if_bind_ok in H as (Ht%negb_false_iff%Z.eqb_eq & [= <-]). split; [done|]. lia.
Qed.

Lemma parse_root_ok cardinality refs : root_refs_ok (-1) 0 refs -> sum_cards refs = cardinality -> 0 <= cardinality <= max_int64 ->
  parseV5RootManifestReferences (root_bytes cardinality refs) cardinality (Z.of_nat (length refs)) = Ok refs.
Proof.
  intros Hok Hs Hc. pose proof (root_refs_length _ _ _ Hok). unfold max_int64 in *. unfold parseV5RootManifestReferences, root_bytes, root_header. rewrite <- !(app_assoc _ _ (flat_map _ _)).
  rewrite (checked_bind _ _ _ _ _ _ (ReadFull_app _ outcomeSetDomainV5 _ eq_refl)) by (by rewrite bool_decide_eq_true_2).
  rewrite (checked_bind _ _ _ _ _ _ (profile_app _)) by (by rewrite bool_decide_eq_true_2).
  rewrite (checked_bind _ _ _ _ _ _ (uint64_app cardinality _ ltac:(lia))) by (unfold max_int64; rewrite Z.eqb_refl; cbn [negb]; rewrite orb_false_r, Z.ltb_ge; lia).
  rewrite (checked_bind _ _ _ _ _ _ (uint32_app (Z.of_nat (length refs)) _ ltac:(lia))) by (rewrite Z.eqb_refl; cbn [negb orb]; rewrite Z.ltb_ge; lia).
  rewrite Nat2Z.id. rewrite <- (app_nil_r (flat_map _ _)), root_refs_read by (done || lia). cbn [mbind result_bind].
  rewrite fail_bind by done. rewrite fail_bind by (rewrite negb_false_iff; apply Z.eqb_eq; lia). done.
Qed.

(** A manifest that parses is the encoding of what it parses to. *)
Lemma parse_root_inv payload cardinality count refs : parseV5RootManifestReferences payload cardinality count = Ok refs ->
  payload = root_bytes cardinality refs /\ count = Z.of_nat (length refs) /\ root_refs_ok (-1) 0 refs /\ sum_cards refs = cardinality /\ 0 <= cardinality <= max_int64.
Proof.
  unfold parseV5RootManifestReferences.
  intros ([d r1] & ([-> _]%ReadFull_inv & Ed%negb_false_iff%bool_decide_eq_true)%checked_ok & H)%bind_ok. subst d.
  apply bind_ok in H as ([p r2] & (->%profile_inv & Ep%negb_false_iff%bool_decide_eq_true)%checked_ok & H). subst p.
  apply bind_ok in H as ([c r3] & ([-> Hc]%uint64_inv & Hcr)%checked_ok & H). apply orb_false_iff in Hcr as [Hc1%Z.ltb_ge Hc2%negb_false_iff%Z.eqb_eq]. subst c.
  apply bind_ok in H as ([n r4] & ([-> Hn]%uint32_inv & Hnr)%checked_ok & H). apply orb_false_iff in Hnr as [Hn1%negb_false_iff%Z.eqb_eq Hn2%Z.ltb_ge]. subst n.
  apply bind_ok in H as ([[refs' t'] r5] & Hr & H). apply fail_if_bind_ok in H as (Hl%negb_false_iff%Z.eqb_eq & H).
  apply fail_if_bind_ok in H as (Ht%negb_false_iff%Z.eqb_eq & <-%Ok_inj). apply root_refs_inv in Hr as (-> & Hlen & Hok & ->); [|done].
  unfold bytes_len in Hl. destruct r5; [|cbn in Hl; lia]. rewrite app_nil_r. split; [|split; [lia|split; [done|split; [lia|lia]]]].
  unfold root_bytes, root_header. rewrite Hlen, Z2Nat.id by lia. by rewrite <- !app_assoc.
Qed.
(** ** Block manifests *)
Definition leaf_ref_bytes (ref : outcomeLeafReferenceV5) : bytes :=
  [byte_of (lrPrefix16 ref)] ++ be_uint32 (lrChunk ref) ++ raw (lrDigest ref) ++ be_uint32 (lrCardinality ref).
Definition sum_leaves (refs : list outcomeLeafReferenceV5) : Z := foldr (fun ref acc => lrCardinality ref + acc) 0 refs.
Definition block_bytes (prefix : Z) (refs : list outcomeLeafReferenceV5) : bytes :=
  (outcomeBlockDomainV5 ++ [byte_of prefix] ++ be_uint32 (Z.of_nat (length refs))) ++ flat_map leaf_ref_bytes refs.

Definition good_leaf_ref (prefix : Z) (ref : outcomeLeafReferenceV5) : Prop :=
  prefix * 256 <= lrPrefix16 ref < prefix * 256 + 256 /\ 0 <= lrChunk ref < 2 ^ 32 /\ 0 < lrCardinality ref <= 4096 /\ good_digest (lrDigest ref).

(** The chunks of a prefix are numbered from zero. *)
Fixpoint chunks_ordered (lastPrefix lastChunk : Z) (refs : list outcomeLeafReferenceV5) : Prop :=
  match refs with
  | [] => True
  | ref :: rest => (lastPrefix = lrPrefix16 ref /\ lrChunk ref = (lastChunk + 1) mod 2 ^ 32 \/ lastPrefix < lrPrefix16 ref /\ lrChunk ref = 0) /\
      chunks_ordered (lrPrefix16 ref) (lrChunk ref) rest
  end.

Definition block_step (prefix : Z) (st : bytes * Z) (ref : outcomeLeafReferenceV5) : result (bytes * Z) :=
  let '(manifest, cardinality) := st in
  fail_if (negb (byte_prefix (lrPrefix16 ref) =? prefix) || (lrCardinality ref <? 1)) (ErrNew "invalid V5 leaf reference") ≫= fun _ =>
  decode_digest (lrDigest ref) (ErrNew "invalid V5 leaf digest") ≫= fun digest =>
  Ok (manifest ++ [byte_of (lrPrefix16 ref)] ++ be_uint32 (lrChunk ref) ++ digest ++ be_uint32 (lrCardinality ref),
      wrap_int64 (cardinality + lrCardinality ref)).

Lemma sum_leaves_bound prefix refs : Forall (good_leaf_ref prefix) refs -> 0 <= sum_leaves refs <= 4096 * Z.of_nat (length refs).
Proof.
  induction 1 as [|ref refs (_ & _ & Hc & _) HF IH]; cbn [sum_leaves foldr length]; [lia|]. fold (sum_leaves refs). lia.
Qed.

Lemma good_byte prefix ref : 0 <= prefix < 256 -> good_leaf_ref prefix ref -> byte_prefix (lrPrefix16 ref) = prefix.
Proof.
  intros Hp (Hr & _). rewrite byte_prefix_div by lia. symmetry. apply (Z.div_unique _ _ _ (lrPrefix16 ref - prefix * 256)); lia.
Qed.

Lemma block_fold prefix refs : 0 <= prefix < 256 -> Forall (good_leaf_ref prefix) refs -> forall manifest cardinality,
  0 <= cardinality -> cardinality + 4096 * Z.of_nat (length refs) <= max_int64 ->
  fold_res (block_step prefix) (manifest, cardinality) refs = Ok (manifest ++ flat_map leaf_ref_bytes refs, cardinality + sum_leaves refs).
Proof.
  intros Hp. unfold max_int64. induction 1 as [|ref refs Hg HF IH]; intros manifest cardinality Hc Hb.
  { cbn. by rewrite app_nil_r, Z.add_0_r. }
  pose proof (good_byte _ _ Hp Hg) as Eb. destruct Hg as (Hr & Hch & Hcard & Hd).
  destruct (decode_raw _ (ErrNew "invalid V5 leaf digest") Hd) as (Ed & _ & _). cbn [length] in Hb.
  cbn [fold_res flat_map sum_leaves foldr]. unfold block_step at 2. rewrite fail_bind by (rewrite Eb, Z.eqb_refl; apply Z.ltb_ge; lia).
  rewrite Ed. cbn [mbind result_bind]. rewrite wrap_int64_id by (unfold int64_range, max_int64; lia).
  fold (leaf_ref_bytes ref) (sum_leaves refs). rewrite IH by lia. by rewrite <- app_assoc, Z.add_assoc.
Qed.

Lemma low_byte prefix v : 0 <= prefix < 256 -> prefix * 256 <= v < prefix * 256 + 256 -> byte_of v = byte_of (v - prefix * 256).
Proof.
  intros Hp Hv. unfold byte_of. f_equal. f_equal. rewrite (Z.mod_small (v - _)) by lia. symmetry. apply (Z.mod_unique _ _ prefix); lia.
Qed.

Lemma leaf_refs_read prefix refs : 0 <= prefix < 256 -> Forall (good_leaf_ref prefix) refs -> forall lastPrefix lastChunk total r,
  chunks_ordered lastPrefix lastChunk refs -> 0 <= total -> total + 4096 * Z.of_nat (length refs) <= max_int64 ->
  read_leaf_refs (length refs) prefix lastPrefix lastChunk total (flat_map leaf_ref_bytes refs ++ r) = Ok (refs, total + sum_leaves refs, r).
Proof.
  intros Hp. unfold max_int64. induction 1 as [|ref refs Hg HF IH]; intros lastPrefix lastChunk total r Ho Ht Hb.
  { cbn. by rewrite Z.add_0_r. }
  destruct Hg as (Hr & Hch & Hcard & Hd). destruct (decode_raw _ ErrEOF Hd) as (_ & Hraw & Ehex). cbn [length] in Hb. destruct Ho as [Ho1 Ho].
  cbn [length read_leaf_refs flat_map sum_leaves foldr]. unfold leaf_ref_bytes at 1. rewrite <- !app_assoc. rewrite (low_byte prefix) by done.
  rewrite byte_app by lia. cbn [mbind result_bind]. rewrite uint32_app by done. cbn [mbind result_bind].
  rewrite join_prefix by lia. replace (prefix * 256 + (lrPrefix16 ref - prefix * 256)) with (lrPrefix16 ref) by lia.
  rewrite fail_bind.
  2: { rewrite !orb_false_iff, Z.ltb_ge. destruct Ho1 as [[-> E]|[Hlt E]]; rewrite E.
       - rewrite Z.eqb_refl, Z.ltb_irrefl, Z.eqb_refl. split; [split; [lia|done]|done].
       - rewrite (proj2 (Z.eqb_neq _ _)) by lia. rewrite Z.eqb_refl, andb_false_r. split; [split; [lia|done]|done]. }
  rewrite ReadFull_app by done. cbn [mbind result_bind]. unfold outcomeLeafChunkSize.
  rewrite (checked_bind _ _ _ _ _ _ (uint32_app (lrCardinality ref) _ ltac:(lia))) by (apply orb_false_iff; rewrite Z.eqb_neq, Z.ltb_ge; lia).
  rewrite wrap_int64_id by (unfold int64_range, max_int64; lia). rewrite IH by (done || lia). cbn [mbind result_bind].
  rewrite Ehex. fold (sum_leaves refs). rewrite Z.add_assoc. by destruct ref.
Qed.

Lemma leaf_ref_encode prefix low c d n : 0 <= prefix < 256 -> 0 <= low < 256 ->
  leaf_ref_bytes (LeafRef (prefix * 256 + low) c (hex_encode d) n) = [byte_of low] ++ be_uint32 c ++ d ++ be_uint32 n.
Proof.
  intros Hp Hl. unfold leaf_ref_bytes. cbn [lrPrefix16 lrChunk lrDigest lrCardinality]. rewrite raw_encode, (low_byte prefix) by lia.
  by replace (prefix * 256 + low - prefix * 256) with low by lia.
Qed.

Lemma leaf_refs_inv prefix n : 0 <= prefix < 256 -> forall lastPrefix lastChunk total r refs total' r', 0 <= total -> total + 4096 * Z.of_nat n <= max_int64 ->
  read_leaf_refs n prefix lastPrefix lastChunk total r = Ok (refs, total', r') ->
  r = flat_map leaf_ref_bytes refs ++ r' /\ length refs = n /\ Forall (good_leaf_ref prefix) refs /\ chunks_ordered lastPrefix lastChunk refs /\
  total' = total + sum_leaves refs.
Proof.
  intros Hp. unfold max_int64. induction n as [|n IH]; intros lastPrefix lastChunk total r refs total' r' Ht Hb; cbn [read_leaf_refs].
  { intros [= <- <- <-]. cbn. split; [done|]. split; [done|]. split; [constructor|]. split; [done|]. lia. }
  intros ([low r1] & [-> Hl]%byte_inv & ([c r2] & [-> Hc]%uint32_inv & H)%bind_ok)%bind_ok. rewrite join_prefix in H by done.
  apply fail_if_bind_ok in H as (Hord & H). apply bind_ok in H as ([d r3] & [-> Hd]%ReadFull_inv & H).
  apply bind_ok in H as ([k r4] & ([-> Hk]%uint32_inv & Hkr)%checked_ok & H). apply orb_false_iff in Hkr as [Hk0%Z.eqb_neq Hk1%Z.ltb_ge].
  unfold outcomeLeafChunkSize in Hk1. rewrite wrap_int64_id in H by (unfold int64_range, max_int64; lia).
  apply bind_ok in H as ([[refs' t'] r5] & Hr & [= <- <- <-]). apply IH in Hr as (-> & <- & HF & Ho & ->); [|lia|lia].
  cbn [flat_map length chunks_ordered sum_leaves foldr lrPrefix16 lrChunk lrCardinality lrDigest]. rewrite leaf_ref_encode, <- !app_assoc by done.
  split; [done|]. split; [done|]. split.
  - constructor; [|done]. unfold good_leaf_ref. cbn. split; [lia|]. split; [lia|]. split; [lia|]. by exists d.
  - split; [|unfold sum_leaves; lia]. split; [|done]. apply orb_false_iff in Hord as [Hord H3]. apply orb_false_iff in Hord as [H1%Z.ltb_ge H2].
    apply andb_false_iff in H2, H3. rewrite negb_false_iff, Z.eqb_eq in H2, H3. rewrite Z.eqb_neq in H2. rewrite Z.ltb_ge in H3. lia.
Qed.

Lemma canonical_block_ok prefix refs : 0 <= prefix < 256 -> Forall (good_leaf_ref prefix) refs -> Z.of_nat (length refs) < 2 ^ 32 ->
  canonicalOutcomeBlockV5 prefix refs = Ok (block_bytes prefix refs, sum_leaves refs).
Proof.
  intros Hp HF Hn. unfold canonicalOutcomeBlockV5, block_bytes. apply (block_fold prefix refs Hp HF); [done|unfold max_int64; lia].
Qed.

Lemma length_leaf_refs prefix refs : Forall (good_leaf_ref prefix) refs -> bytes_len (flat_map leaf_ref_bytes refs) = 41 * Z.of_nat (length refs).
Proof.
  unfold bytes_len. induction 1 as [|ref refs (_ & _ & _ & Hd) HF IH]; [done|]. cbn [flat_map length]. rewrite length_app. unfold leaf_ref_bytes at 1.
  destruct (decode_raw _ ErrEOF Hd) as (_ & Hraw & _). unfold be_uint32. rewrite !length_app, Hraw, !length_be_bytes. cbn [length]. lia.
Qed.

Lemma parse_block_ok prefix refs : 0 <= prefix < 256 -> refs <> [] -> Forall (good_leaf_ref prefix) refs -> chunks_ordered (-1) 0 refs -> Z.of_nat (length refs) < 2 ^ 32 ->
  parseV5BlockManifestReferences (block_bytes prefix refs) prefix (sum_leaves refs) = Ok refs.
Proof.
  intros Hp Hne HF Ho Hn. unfold parseV5BlockManifestReferences, block_bytes. rewrite <- !(app_assoc _ _ (flat_map _ _)).
  rewrite (checked_bind _ _ _ _ _ _ (ReadFull_app _ outcomeBlockDomainV5 _ eq_refl)) by (by rewrite bool_decide_eq_true_2).
  rewrite (checked_bind _ _ _ _ _ _ (byte_app prefix _ Hp)) by (by rewrite Z.eqb_refl).
  rewrite uint32_app by lia. rewrite (length_leaf_refs prefix) by done. unfold encodedLeafReferenceSize.
  assert (0 < Z.of_nat (length refs)) by (destruct refs; [done|cbn [length]; lia]).
  rewrite fail_bind by (apply orb_false_iff; rewrite Z.eqb_neq, Z.ltb_ge; change (1 + 4 + 32 + 4) with 41; rewrite (Z.mul_comm 41), Z.div_mul by lia; lia).
  rewrite Nat2Z.id, <- (app_nil_r (flat_map _ _)), leaf_refs_read by (done || unfold max_int64; lia). cbn [mbind result_bind].
  by rewrite fail_bind by (rewrite Z.add_0_l, !Z.eqb_refl; done).
Qed.

Lemma parse_block_inv payload prefix cardinality refs : 0 <= prefix < 256 -> parseV5BlockManifestReferences payload prefix cardinality = Ok refs ->
  payload = block_bytes prefix refs /\ cardinality = sum_leaves refs /\ refs <> [] /\ Forall (good_leaf_ref prefix) refs /\ chunks_ordered (-1) 0 refs /\
  Z.of_nat (length refs) < 2 ^ 32.
Proof.
  intros Hp. unfold parseV5BlockManifestReferences.
  intros ([d r1] & ([-> _]%ReadFull_inv & Ed%negb_false_iff%bool_decide_eq_true)%checked_ok & H)%bind_ok. subst d.
  apply bind_ok in H as ([p r2] & ([-> _]%byte_inv & Ep%negb_false_iff%Z.eqb_eq)%checked_ok & H). subst p.
  destruct (readV5Uint32 r2) as [[n r3]|] eqn:E; [|done]. apply uint32_inv in E as [-> Hn].
  apply fail_if_bind_ok in H as (Hc & H). apply orb_false_iff in Hc as [Hn0%Z.eqb_neq _].
  apply bind_ok in H as ([[refs' t'] r5] & Hr & H). apply fail_if_bind_ok in H as (Hl & <-%Ok_inj).
  apply orb_false_iff in Hl as [Hl%negb_false_iff%Z.eqb_eq Ht%negb_false_iff%Z.eqb_eq]. apply leaf_refs_inv in Hr as (-> & Hlen & HF & Ho & ->); [|done|done|unfold max_int64; lia].
  unfold bytes_len in Hl. destruct r5; [|cbn in Hl; lia]. rewrite app_nil_r in *. split; [unfold block_bytes; rewrite Hlen, Z2Nat.id by lia; by rewrite <- !app_assoc|].
  split; [lia|]. split; [intros ->; cbn in Hlen; lia|]. split; [done|]. split; [done|lia].
Qed.
End OutcomeCodec.
