(* ===== verification/OutcomeBuild.v ===== *)
(** * What [buildOutcomeHashSetFromBinaryV5] builds

    The object graph of a set as a function of its members: [the_set], with
    [all_leaves] and [root_blocks].  The builder returns exactly this graph, or two
    of the texts it hashed collide. *)

From S2P Require Import Prelude GoBytes Ordering GoText Sha256 FactId Witness OutcomeSet OutcomeLists OutcomeCodec.
Import GoText Sha256 OutcomeSet OutcomeLists OutcomeCodec.

Module OutcomeBuild.
#[local] Opaque sha256HexV5 seqZ.

(** ** The graph of a set *)
Definition leaves_at (M : list bytes) (p : Z) : list OutcomeHashLeafV5 := chunk_leaves p (at_prefix p M).
Definition block_leaves (M : list bytes) (b : Z) : list OutcomeHashLeafV5 := flat_map (leaves_at M) (seqZ (256 * b) 256).
Definition all_leaves (M : list bytes) : list OutcomeHashLeafV5 := flat_map (block_leaves M) (seqZ 0 256).
Definition block_refs (M : list bytes) (b : Z) : list outcomeLeafReferenceV5 := map leaf_ref (block_leaves M b).
Definition the_block (M : list bytes) (b : Z) : OutcomeHashBlockV5 :=
  MkBlock (sha256HexV5 (block_bytes b (block_refs M b))) b (sum_leaves (block_refs M b)) (block_bytes b (block_refs M b)).
Definition used (M : list bytes) (b : Z) : Prop := block_refs M b <> [].
#[export] Instance used_dec M b : Decision (used M b).
Proof. unfold used. apply _. Defined.
Lemma not_used M b : ~ used M b -> [] = block_refs M b.
Proof. unfold used. intros Hn. destruct (block_refs M b); [done|]. by destruct Hn. Qed.
Definition root_blocks (M : list bytes) : list OutcomeHashBlockV5 := map (the_block M) (filter (used M) (seqZ 0 256)).
Definition root_refs (M : list bytes) : list outcomeBlockReferenceV5 := map block_ref (root_blocks M).
Definition the_root (M : list bytes) : bytes := root_bytes (Z.of_nat (length M)) (root_refs M).
Definition the_set (M : list bytes) : OutcomeSetV5 :=
  MkSet (sha256HexV5 (the_root M)) (Z.of_nat (length M)) (Z.of_nat (length (root_refs M))) (the_root M).

(** The members a graph is built of: fewer than 2^31 hashes, sorted. *)
Record members_ok (M : list bytes) : Prop := {
  mo_hash : Forall hash32 M;
  mo_sorted : StronglySorted clt M;
  mo_size : Z.of_nat (length M) < 2 ^ 31;
}.

Lemma unique_ok l : Forall hash32 l -> Z.of_nat (length l) < 2 ^ 31 -> members_ok (uniqueOutcomeHashesV5 l).
Proof. intros HF Hl. split; [by apply unique_hash32|apply unique_sorted|]. pose proof (unique_length l). lia. Qed.

Lemma elem_all_leaves M l : l ∈ all_leaves M <-> exists b, 0 <= b < 256 /\ l ∈ block_leaves M b.
Proof.
  unfold all_leaves. rewrite Witness.elem_flat_map. setoid_rewrite elem_of_seqZ. split; intros (b & Hb & Hl); exists b; (split; [lia|done]).
Qed.

(** ** Leaves *)
Lemma sorted_concat {A} (R : A -> A -> Prop) ls : StronglySorted R (concat ls) -> Forall (StronglySorted R) ls.
Proof.
  induction ls as [|l ls IH]; cbn [concat]; [constructor|]. intros Hs%StronglySorted_app. constructor; [tauto|]. apply IH. tauto.
Qed.
Lemma elem_concat {A} (ls : list (list A)) (x : A) : x ∈ concat ls <-> exists l, l ∈ ls /\ x ∈ l.
Proof.
  induction ls as [|l ls IH]; cbn [concat]; [rewrite elem_of_nil; split; [done|by intros (? & ?%elem_of_nil & _)]|].
  rewrite elem_of_app, IH. setoid_rewrite elem_of_cons. naive_solver.
Qed.
Lemma length_filter_le {A} (P : A -> Prop) `{!forall x, Decision (P x)} (l : list A) : (length (filter P l) <= length l)%nat.
Proof. apply length_filter. Qed.

Definition at_pieces (M : list bytes) (p : Z) := pieces (length (at_prefix p M)) 0 (at_prefix p M).
Lemma leaves_pieces M p : leaves_at M p = map (fun c => leaf_of p c.1 c.2) (at_pieces M p).
Proof. apply chunk_pieces. Qed.

Lemma at_prefix_ok M p : members_ok M -> Forall hash32 (at_prefix p M) /\ StronglySorted clt (at_prefix p M) /\ Z.of_nat (length (at_prefix p M)) < 2 ^ 32.
Proof.
  intros [HF Hs Hn]. split; [|split].
  - rewrite Forall_forall in *. intros h [_ Hh]%elem_at_prefix. auto.
  - by apply filter_sorted.
  - unfold at_prefix. pose proof (length_filter_le (fun h => prefix_of h = p) M). lia.
Qed.

Lemma piece_good M p c hs : members_ok M -> 0 <= p < 65536 -> (c, hs) ∈ at_pieces M p -> good_leaf p c hs.
Proof.
  intros HM Hp Hc.
  destruct (at_prefix_ok M p HM) as (HF & Hs & Hn). unfold at_pieces in Hc.
  pose proof (pieces_concat (length (at_prefix p M)) 0 _ (le_n _)) as Hcat.
  destruct (pieces_chunks (length (at_prefix p M)) 0 _ (le_n _) ltac:(lia) ltac:(lia)) as [Hch Hlen].
  set (ps := pieces _ _ _) in *. pose proof (list_elem_of_fmap_2 snd _ _ Hc) as Hin. pose proof (list_elem_of_fmap_2 fst _ _ Hc) as Hin'. cbn [fst snd] in *.
  split; [done|]. split; [change (fst <$> ps) with (map fst ps) in Hin'; rewrite Hch, elem_of_seqZ in Hin'; lia|].
  split; [pose proof (pieces_size (length (at_prefix p M)) 0 (at_prefix p M)) as Hsz; rewrite Forall_forall in Hsz; apply (Hsz _ Hc)|].
  assert (forall h, h ∈ hs -> h ∈ at_prefix p M) as Hsub. { intros h Hh. rewrite <- Hcat. apply elem_concat. exists hs. done. }
  rewrite !Forall_forall in *. split; [auto|]. split; [intros h [E _]%Hsub%elem_at_prefix; done|].
  rewrite <- Hcat in Hs. apply sorted_concat in Hs. rewrite Forall_forall in Hs. by apply Hs.
Qed.

Lemma leaf_good M p l : members_ok M -> 0 <= p < 65536 -> l ∈ leaves_at M p ->
  exists c hs, (c, hs) ∈ at_pieces M p /\ l = leaf_of p c hs /\ good_leaf p c hs.
Proof.
  intros HM Hp Hl. rewrite leaves_pieces in Hl. apply list_elem_of_fmap in Hl as ([c hs] & -> & Hc). exists c, hs. split; [done|]. split; [done|].
  by apply (piece_good M).
Qed.

Lemma block_leaf M b l : members_ok M -> 0 <= b < 256 -> l ∈ block_leaves M b ->
  exists p c hs, l = leaf_of p c hs /\ good_leaf p c hs /\ 256 * b <= p < 256 * b + 256 /\ l ∈ leaves_at M p.
Proof.
  intros HM Hb Hl. unfold block_leaves in Hl. apply Witness.elem_flat_map in Hl as (p & Hp%elem_of_seqZ & Hl).
  destruct (leaf_good M p l HM ltac:(lia) Hl) as (c & hs & _ & E & Hg). exists p, c, hs. done.
Qed.

Lemma block_refs_good M b : members_ok M -> 0 <= b < 256 -> Forall (good_leaf_ref b) (block_refs M b).
Proof.
  intros HM Hb. apply Forall_forall. intros r (l & -> & Hl)%list_elem_of_fmap. destruct (block_leaf M b l HM Hb Hl) as (p & c & hs & -> & (Hp & Hc & Hn & _) & Hpb & _).
  unfold good_leaf_ref. cbn [leaf_ref leaf_of lrPrefix16 lrChunk lrCardinality lrDigest Prefix16 ChunkIndex leafCardinality LeafSHA256].
  split; [lia|]. split; [done|]. split; [lia|apply sha_good].
Qed.

(** ** Counting *)
Lemma sum_leaves_app a b : sum_leaves (a ++ b) = sum_leaves a + sum_leaves b.
Proof. unfold sum_leaves. induction a as [|x a IH]; [done|]. cbn [app foldr]. lia. Qed.
Lemma sum_cards_app a b : sum_cards (a ++ b) = sum_cards a + sum_cards b.
Proof. unfold sum_cards. induction a as [|x a IH]; [done|]. cbn [app foldr]. lia. Qed.

Lemma sum_pieces p ps : sum_leaves (map leaf_ref (map (fun c => leaf_of p c.1 c.2) ps)) = Z.of_nat (length (concat (map snd ps))).
Proof.
  induction ps as [|[c hs] ps IH]; [done|]. cbn [map concat snd]. rewrite length_app. unfold sum_leaves in *. cbn [foldr]. rewrite IH.
  cbn [leaf_ref leaf_of lrCardinality leafCardinality fst snd]. lia.
Qed.
Lemma sum_at M p : sum_leaves (map leaf_ref (leaves_at M p)) = Z.of_nat (length (at_prefix p M)).
Proof. rewrite leaves_pieces, sum_pieces. unfold at_pieces. by rewrite pieces_concat. Qed.

Lemma sum_block M b : sum_leaves (block_refs M b) = Z.of_nat (length (flat_map (fun p => at_prefix p M) (seqZ (256 * b) 256))).
Proof.
  unfold block_refs, block_leaves. induction (seqZ (256 * b) 256) as [|p ps IH]; [done|]. cbn [flat_map]. rewrite map_app, sum_leaves_app, sum_at, length_app, IH. lia.
Qed.

Lemma flat_map_flat_map {A B C} (f : A -> list B) (g : B -> list C) l : flat_map g (flat_map f l) = flat_map (fun x => flat_map g (f x)) l.
Proof. induction l as [|x l IH]; [done|]. cbn [flat_map]. by rewrite flat_map_app, IH. Qed.
Lemma flat_map_eq {A B} (f g : A -> list B) l : (forall x, x ∈ l -> f x = g x) -> flat_map f l = flat_map g l.
Proof. induction l as [|x l IH]; intros E; [done|]. cbn [flat_map]. rewrite E by (by left). f_equal. apply IH. intros y Hy. apply E. by right. Qed.

Lemma seqZ_blocks (n : nat) : flat_map (fun b => seqZ (256 * b) 256) (seqZ 0 (Z.of_nat n)) = seqZ 0 (256 * Z.of_nat n).
Proof.
  induction n as [|n IH]; [done|]. replace (Z.of_nat (S n)) with (Z.of_nat n + 1) by lia. rewrite (seqZ_app 0 (Z.of_nat n) 1), flat_map_app, IH by lia.
  rewrite (seqZ_cons _ 1), (seqZ_nil _ (Z.pred 1)) by lia. cbn [flat_map]. rewrite app_nil_r.
  replace (256 * (Z.of_nat n + 1)) with (256 * Z.of_nat n + 256) by lia. rewrite (seqZ_app 0 (256 * Z.of_nat n) 256) by lia. by replace (256 * (0 + Z.of_nat n)) with (0 + 256 * Z.of_nat n) by lia.
Qed.
Lemma by_bytes {B} (f : Z -> list B) : flat_map (fun b => flat_map f (seqZ (256 * b) 256)) (seqZ 0 256) = flat_map f (seqZ 0 65536).
Proof.
  rewrite <- (flat_map_flat_map (fun b => seqZ (256 * b) 256) f). pose proof (seqZ_blocks 256) as E.
  change (Z.of_nat 256) with 256 in E. change (256 * 256) with 65536 in E. by rewrite E.
Qed.

(** The groups of all prefixes, joined, are the set. *)
Lemma prefixes_partition M : members_ok M -> flat_map (fun p => at_prefix p M) (seqZ 0 65536) = M.
Proof.
  intros [HF Hs _]. rewrite <- (groups_flat (fun _ l => l) M HF Hs) by done. clear HF Hs. induction M as [|h M IH]; [done|]. cbn [prefix_groups].
  destruct (prefix_groups M) as [|[p g] more]; cbn in *; [by rewrite <- IH|]. destruct (prefix_of h =? p); cbn; by rewrite IH.
Qed.

Lemma sum_all M : members_ok M -> foldr (fun b acc => sum_leaves (block_refs M b) + acc) 0 (seqZ 0 256) = Z.of_nat (length M).
Proof.
  intros HM. rewrite <- (f_equal length (prefixes_partition M HM)). rewrite <- by_bytes. induction (seqZ 0 256) as [|b bs IH]; [done|].
  cbn [foldr flat_map]. rewrite IH, length_app, sum_block. lia.
Qed.

Lemma sum_root M : members_ok M -> sum_cards (root_refs M) = Z.of_nat (length M).
Proof.
  intros HM. rewrite <- (sum_all M HM). unfold root_refs, root_blocks. induction (seqZ 0 256) as [|b bs IH]; [done|].
  rewrite filter_cons. cbn [foldr]. rewrite <- IH. case_decide as E; [done|]. unfold used in E. destruct (block_refs M b); [done|]. destruct E. done.
Qed.

Lemma block_sum_le M b : members_ok M -> 0 <= b < 256 -> 0 <= sum_leaves (block_refs M b) <= Z.of_nat (length M) /\ (length (block_refs M b) <= length M)%nat.
Proof.
  intros HM Hb. pose proof (block_refs_good M b HM Hb) as HF.
  assert (Z.of_nat (length (block_refs M b)) <= sum_leaves (block_refs M b)) as Hl.
  { clear -HF. induction HF as [|r l (_ & _ & Hc & _) HF IH]; [done|]. cbn [length sum_leaves foldr]. fold (sum_leaves l). lia. }
  assert (sum_leaves (block_refs M b) <= Z.of_nat (length M)) as Hs; [|lia].
  rewrite sum_block. apply Nat2Z.inj_le. rewrite <- (f_equal length (prefixes_partition M HM)). rewrite <- by_bytes.
  assert (b ∈ seqZ 0 256) as Hin by (apply elem_of_seqZ; lia). clear -Hin. induction (seqZ 0 256) as [|c bs IH]; [by apply elem_of_nil in Hin|].
  cbn [flat_map]. rewrite length_app. apply elem_of_cons in Hin as [->|Hin]; [lia|]. specialize (IH Hin). lia.
Qed.

(** ** Order *)
Definition key_lt (a b : outcomeLeafReferenceV5) : Prop := clt (leaf_key a) (leaf_key b).

Lemma key_lt_prefix a b : lrPrefix16 a < lrPrefix16 b -> key_lt a b.
Proof. intros Hlt. unfold key_lt, leaf_key, clt, compare, prod_compare, compare, Z_compare. cbn [fst]. by rewrite (proj2 (Z.compare_lt_iff _ _)). Qed.
Lemma key_lt_chunk a b : lrPrefix16 a = lrPrefix16 b -> lrChunk a < lrChunk b -> key_lt a b.
Proof.
  intros E Hlt. unfold key_lt, leaf_key, clt, compare, prod_compare, compare, Z_compare. cbn [fst snd]. rewrite E, Z.compare_refl.
  by rewrite (proj2 (Z.compare_lt_iff _ _)).
Qed.

Definition segment (M : list bytes) (p : Z) : list outcomeLeafReferenceV5 := map leaf_ref (leaves_at M p).
Lemma block_refs_segments M b : block_refs M b = flat_map (segment M) (seqZ (256 * b) 256).
Proof.
  unfold block_refs, block_leaves, segment. induction (seqZ (256 * b) 256) as [|p ps IH]; [done|]. cbn [flat_map]. by rewrite map_app, IH.
Qed.
Lemma segment_prefix M p r : r ∈ segment M p -> lrPrefix16 r = p.
Proof. unfold segment. rewrite leaves_pieces. by intros (l & -> & (c & -> & _)%list_elem_of_fmap)%list_elem_of_fmap. Qed.
Lemma segment_chunks M p : members_ok M -> map lrChunk (segment M p) = seqZ 0 (Z.of_nat (length (segment M p))) /\ Z.of_nat (length (segment M p)) < 2 ^ 32.
Proof.
  intros HM. destruct (at_prefix_ok M p HM) as (_ & _ & Hn). unfold segment. rewrite leaves_pieces, !length_map. unfold at_pieces.
  destruct (pieces_chunks (length (at_prefix p M)) 0 (at_prefix p M) (le_n _) ltac:(lia) ltac:(lia)) as [E Hl]. rewrite <- E. split; [|lia].
  rewrite !map_map. done.
Qed.

Lemma chunk_run p (rest : list outcomeLeafReferenceV5) refs : forall c, Forall (fun r => lrPrefix16 r = p) refs -> map lrChunk refs = seqZ (c + 1) (Z.of_nat (length refs)) ->
  0 <= c -> c + Z.of_nat (length refs) < 2 ^ 32 -> (forall c', chunks_ordered p c' rest) -> chunks_ordered p c (refs ++ rest).
Proof.
  induction refs as [|r refs IH]; intros c HF E Hc Hl Hrest; [apply Hrest|]. inversion HF as [|? ? Hp HF']; subst.
  cbn [map length] in E, Hl. rewrite seqZ_cons in E by lia. injection E as Er E. cbn [app chunks_ordered]. split.
  - left. split; [done|]. rewrite Z.mod_small by lia. done.
  - rewrite Er. apply IH; [done| |lia|lia|done]. rewrite E. f_equal; lia.
Qed.

Lemma segments_ordered M ps : members_ok M -> StronglySorted Z.lt ps -> forall last c, Forall (fun p => last < p) ps ->
  chunks_ordered last c (flat_map (segment M) ps).
Proof.
  intros HM. induction 1 as [|p ps Hs IH Hp]; intros last c HF; [done|]. inversion HF; subst. cbn [flat_map].
  assert (forall q c', last <= q -> q <= p -> chunks_ordered q c' (flat_map (segment M) ps)) as Hrest.
  { intros q c' _ Hq. apply IH. eapply Forall_impl; [exact Hp|]. cbn. lia. }
  destruct (segment_chunks M p HM) as [Ech Hlen]. pose proof (segment_prefix M p) as Hpre. destruct (segment M p) as [|r seg]; [apply Hrest; lia|].
  cbn [length map] in Ech, Hlen. rewrite seqZ_cons in Ech by lia. injection Ech as Er Ech. cbn [app chunks_ordered].
  rewrite (Hpre r ltac:(by left)). split; [right; done|]. rewrite Er. apply chunk_run; [|rewrite Ech; f_equal; lia|lia|lia|intros c'; apply Hrest; lia].
  apply Forall_forall. intros r' Hr'. apply Hpre. by right.
Qed.

Lemma block_refs_ordered M b : members_ok M -> 0 <= b -> chunks_ordered (-1) 0 (block_refs M b).
Proof.
  intros HM Hb. rewrite block_refs_segments. apply segments_ordered; [done|apply seqZ_sorted|]. apply Forall_forall. intros p. rewrite elem_of_seqZ. lia.
Qed.

Lemma segments_sorted M ps : members_ok M -> StronglySorted Z.lt ps -> StronglySorted key_lt (flat_map (segment M) ps).
Proof.
  intros HM. induction 1 as [|p ps Hs IH Hp]; [constructor|]. cbn [flat_map]. apply StronglySorted_app. split; [|split; [|done]].
  - intros x y Hx (q & Hq & Hy)%Witness.elem_flat_map. apply key_lt_prefix. rewrite (segment_prefix _ _ _ Hx), (segment_prefix _ _ _ Hy).
    rewrite Forall_forall in Hp. auto.
  - destruct (segment_chunks M p HM) as [Ech _]. pose proof (segment_prefix M p) as Hpre. pose proof (seqZ_sorted 0 (Z.of_nat (length (segment M p)))) as Hz.
    rewrite <- Ech in Hz. clear Ech. induction (segment M p) as [|r seg IHs]; [constructor|]. cbn [map] in Hz. inversion Hz as [|? ? Hz' HF]; subst.
    constructor; [apply IHs; [intros r' Hr'; apply Hpre; by right|done]|]. apply Forall_forall. intros r' Hr'.
    apply key_lt_chunk; [rewrite !Hpre; [done|by right|by left]|]. rewrite Forall_forall in HF. by apply HF, list_elem_of_fmap_2.
Qed.
Lemma block_refs_sorted M b : members_ok M -> StronglySorted key_lt (block_refs M b).
Proof. intros HM. rewrite block_refs_segments. apply segments_sorted; [done|apply seqZ_sorted]. Qed.

(** Sorting any arrangement of references with distinct keys gives the sorted one. *)
#[export] Instance leaf_le_total : Total leaf_le.
Proof. intros a b. apply (total cle (leaf_key a) (leaf_key b)). Qed.
#[export] Instance leaf_le_trans : Transitive leaf_le.
Proof. intros a b c. unfold leaf_le. apply (transitivity (R := cle)). Qed.

Lemma sort_unique {A K} (key : A -> K) (le lt : A -> A -> Prop) `{!RelDecision le, !Total le, !Transitive le} (l sorted : list A) :
  (forall x y, lt x y -> key x <> key y) -> (forall x y z, lt x y -> lt y z -> lt x z) -> (forall x y, le x y -> key x <> key y -> lt x y) ->
  StronglySorted lt sorted -> l ≡ₚ sorted -> merge_sort le l = sorted.
Proof.
  intros Hkey Htrans Hle Hs Hp. apply (strongly_sorted_ext lt); [intros x Hx; by apply (Hkey x x)|done| |done|].
  - assert (NoDup (map key (merge_sort le l))) as Hnd.
    { rewrite merge_sort_Permutation, Hp. clear Hp. induction Hs as [|r k Hs IH HF]; [constructor|]. cbn [map]. constructor; [|done].
      intros (r' & E & Hr')%list_elem_of_fmap. rewrite Forall_forall in HF. by apply (Hkey r r' (HF r' Hr')). }
    assert (StronglySorted le (merge_sort le l)) as Hsle by (apply Sorted_StronglySorted; [apply _|]; apply Sorted_merge_sort, _).
    induction Hsle as [|r k Hk IH HF]; [constructor|]. cbn [map] in Hnd. inversion Hnd as [|? ? Hn Hnd']; subst. constructor; [by apply IH|].
    rewrite Forall_forall in *. intros r' Hr'. apply Hle; [by apply HF|]. intros E. apply Hn. rewrite E. by apply list_elem_of_fmap_2.
  - intros x. by rewrite merge_sort_Permutation, Hp.
Qed.

Lemma sort_refs_unique refs sorted : StronglySorted key_lt sorted -> refs ≡ₚ sorted -> sort_leaf_refs refs = sorted.
Proof.
  apply (sort_unique leaf_key leaf_le key_lt).
  - intros x y Hlt E. unfold key_lt in Hlt. rewrite E in Hlt. by apply clt_irrefl in Hlt.
  - intros x y z. apply (clt_trans (leaf_key x)).
  - intros x y Hle Hn. by destruct (proj1 (cle_alt _ _) Hle).
Qed.

(** ** The canonical blocks and root *)
Lemma block_of_refs M b refs : members_ok M -> 0 <= b < 256 -> refs ≡ₚ block_refs M b -> block_of b refs = Ok (the_block M b).
Proof.
  intros HM Hb Hp. unfold block_of. rewrite (sort_refs_unique refs _ (block_refs_sorted M b HM) Hp).
  pose proof (mo_size M HM) as Hn. destruct (block_sum_le M b HM Hb) as [_ Hl].
  rewrite canonical_block_ok; [done|done|by apply block_refs_good|lia].
Qed.

Lemma block_parses M b : members_ok M -> 0 <= b < 256 -> used M b ->
  parseV5BlockManifestReferences (Manifest (the_block M b)) b (blockCardinality (the_block M b)) = Ok (block_refs M b).
Proof.
  intros HM Hb Hu. destruct (block_sum_le M b HM Hb) as [_ Hl]. pose proof (mo_size M HM) as Hn. apply parse_block_ok; [done|done|by apply block_refs_good|apply block_refs_ordered; [done|lia]|lia].
Qed.

Lemma elem_root_refs M r : r ∈ root_refs M <-> exists b, 0 <= b < 256 /\ used M b /\ r = block_ref (the_block M b).
Proof.
  unfold root_refs, root_blocks. rewrite list_elem_of_fmap. setoid_rewrite list_elem_of_fmap. setoid_rewrite list_elem_of_filter. setoid_rewrite elem_of_seqZ.
  split.
  - intros (blk & -> & b & -> & Hu & Hb). exists b. split; [lia|done].
  - intros (b & Hb & Hu & ->). exists (the_block M b). split; [done|]. exists b. split; [done|]. split; [done|lia].
Qed.

Lemma used_positive M b : members_ok M -> 0 <= b < 256 -> used M b -> 0 < sum_leaves (block_refs M b).
Proof.
  intros HM Hb Hu. pose proof (block_refs_good M b HM Hb) as HF. unfold used in Hu. destruct HF as [|r l (_ & _ & Hc & _) HF]; [done|].
  pose proof (sum_leaves_bound b l HF). cbn [sum_leaves foldr]. fold (sum_leaves l). lia.
Qed.

Lemma root_refs_ok_blocks M bs : members_ok M -> StronglySorted Z.lt bs -> Forall (fun b => 0 <= b < 256 /\ used M b) bs -> forall last total,
  Forall (fun b => last < b) bs -> 0 <= total -> total + foldr (fun b acc => sum_leaves (block_refs M b) + acc) 0 bs <= max_int64 ->
  root_refs_ok last total (map (fun b => block_ref (the_block M b)) bs).
Proof.
  intros HM. induction 1 as [|b bs Hs IH Hb]; intros HF last total Hl Ht Hsum; [done|]. inversion HF as [|? ? [Hr Hu] HF']; subst. inversion Hl; subst.
  pose proof (used_positive M b HM Hr Hu) as Hpos. cbn [foldr] in Hsum.
  assert (0 <= foldr (fun b acc => sum_leaves (block_refs M b) + acc) 0 bs) as Hnn.
  { clear -HM HF'. induction HF' as [|c cs [Hc Hu] HF IH]; [done|]. cbn [foldr]. pose proof (used_positive M c HM Hc Hu). lia. }
  cbn [map root_refs_ok]. change (brPrefix (block_ref (the_block M b))) with b.
  change (brCardinality (block_ref (the_block M b))) with (sum_leaves (block_refs M b)). cbn [foldr] in Hsum.
  split; [lia|]. split; [done|]. split; [lia|]. split; [apply sha_good|]. apply IH; [done|done|lia|lia].
Qed.

Lemma root_refs_good M : members_ok M -> root_refs_ok (-1) 0 (root_refs M).
Proof.
  intros HM. unfold root_refs, root_blocks. rewrite map_map. apply root_refs_ok_blocks; [done|apply filter_sorted, seqZ_sorted| | |done|].
  - apply Forall_forall. intros b [Hu Hb%elem_of_seqZ]%list_elem_of_filter. split; [lia|done].
  - apply Forall_forall. intros b [_ Hb%elem_of_seqZ]%list_elem_of_filter. lia.
  - pose proof (mo_size M HM) as Hn. assert (foldr (fun b acc => sum_leaves (block_refs M b) + acc) 0 (filter (used M) (seqZ 0 256)) = sum_cards (root_refs M)) as ->.
    { unfold root_refs, root_blocks. rewrite map_map. induction (filter (used M) (seqZ 0 256)) as [|b bs IH]; [done|]. cbn [foldr map]. rewrite IH. done. }
    rewrite sum_root by done. unfold max_int64. lia.
Qed.

Lemma root_refs_sorted M : StronglySorted (fun a b => brPrefix a < brPrefix b) (root_refs M).
Proof.
  unfold root_refs, root_blocks. rewrite map_map. assert (StronglySorted Z.lt (filter (used M) (seqZ 0 256))) as Hs by (apply filter_sorted, seqZ_sorted).
  induction Hs as [|b bs Hs IH HF]; [constructor|]. cbn [map]. constructor; [done|]. apply Forall_forall. intros r (c & -> & Hc)%list_elem_of_fmap.
  rewrite Forall_forall in HF. exact (HF c Hc).
Qed.

Lemma set_of_members M refs : members_ok M -> refs = root_refs M -> set_of (Z.of_nat (length M)) refs = Ok (the_set M).
Proof.
  intros HM ->. unfold set_of. rewrite canonical_root_ok; [done|by apply root_refs_good|by apply sum_root|lia].
Qed.

Lemma root_parses M : members_ok M ->
  parseV5RootManifestReferences (the_root M) (Z.of_nat (length M)) (Z.of_nat (length (root_refs M))) = Ok (root_refs M).
Proof.
  intros HM. pose proof (mo_size M HM) as Hn. unfold the_root. apply (parse_root_ok (Z.of_nat (length M)) (root_refs M)); [exact (root_refs_good M HM)|exact (sum_root M HM)|unfold max_int64; lia].
Qed.

Lemma root_bytes_nonempty c refs : root_bytes c refs <> [].
Proof. done. Qed.

Lemma sum_wrapped refs : forall last total, 0 <= total -> root_refs_ok last total refs ->
  fold_left (fun total ref => wrap_int64 (total + brCardinality ref)) refs total = total + sum_cards refs.
Proof.
  induction refs as [|r refs IH]; intros last total Ht; cbn [fold_left]; [cbn; lia|]. intros (_ & Hc & Hm & _ & Hok). unfold max_int64 in Hm.
  rewrite wrap_int64_id by (unfold int64_range, max_int64; lia). rewrite (IH (brPrefix r)); [|lia|done]. unfold sum_cards. cbn [foldr]. lia.
Qed.

Lemma root_verifies M : members_ok M -> verifyOutcomeRootV5 (the_set M) = Ok tt.
Proof.
  intros HM. pose proof (root_refs_good M HM) as Hok. pose proof (root_refs_length _ _ _ Hok). unfold verifyOutcomeRootV5.
  cbn [the_set Cardinality BlockCount RootManifest SetSHA256]. rewrite fail_bind.
  - rewrite root_parses by done. cbn [mbind result_bind]. rewrite (sum_wrapped _ (-1)) by done. rewrite sum_root by done.
    by rewrite Z.add_0_l, Z.eqb_refl.
  - rewrite bool_decide_eq_true_2 by done. rewrite !orb_false_iff, !Z.ltb_ge. split; [|done]. split; [lia|]. apply Z.eqb_neq.
    unfold bytes_len. pose proof (root_bytes_nonempty (Z.of_nat (length M)) (root_refs M)). unfold the_root. destruct (root_bytes _ _); [done|]. cbn [length]. lia.
Qed.
(** ** The builder *)
Definition leaf_wf (l : OutcomeHashLeafV5) : Prop := exists p c hs, l = leaf_of p c hs /\ good_leaf p c hs.

Lemma leaf_wf_eq l k : leaf_wf l -> leaf_wf k -> Payload l = Payload k -> l = k.
Proof.
  intros (p & c & hs & -> & Hg) (q & d & ks & -> & Hk) E. cbn [leaf_of Payload] in E. pose proof (decode_leaf_canonical _ _ _ Hg) as E1.
  pose proof (decode_leaf_canonical _ _ _ Hk) as E2. rewrite E, E2 in E1. injection E1 as -> -> ->. done.
Qed.
Lemma leaf_wf_digest l : leaf_wf l -> LeafSHA256 l = sha256HexV5 (Payload l).
Proof. by intros (p & c & hs & -> & _). Qed.
Lemma same_leaf l k : LeafSHA256 l = LeafSHA256 k -> sameOutcomeLeafV5 l k = true -> l = k.
Proof.
  unfold sameOutcomeLeafV5. destruct l, k. cbn. rewrite !andb_true_iff, !Z.eqb_eq, bool_decide_eq_true. naive_solver.
Qed.
Lemma same_block l k : BlockSHA256 l = BlockSHA256 k -> sameOutcomeBlockV5 l k = true -> l = k.
Proof.
  unfold sameOutcomeBlockV5. destruct l, k. cbn. rewrite !andb_true_iff, !Z.eqb_eq, bool_decide_eq_true. naive_solver.
Qed.
Lemma same_leaf_refl l : sameOutcomeLeafV5 l l = true.
Proof. unfold sameOutcomeLeafV5. by rewrite !Z.eqb_refl, bool_decide_eq_true_2. Qed.
Lemma same_block_refl l : sameOutcomeBlockV5 l l = true.
Proof. unfold sameOutcomeBlockV5. by rewrite !Z.eqb_refl, bool_decide_eq_true_2. Qed.

Definition refs_of_byte (b : Z) (ls : list OutcomeHashLeafV5) : list outcomeLeafReferenceV5 :=
  map leaf_ref (filter (fun l => byte_prefix (Prefix16 l) = b) ls).

(** A table holds the objects of a list under their digests. *)
Definition table_of {A} (key : A -> string) (m : gmap string A) (l : list A) : Prop := forall d x, m !! d = Some x <-> x ∈ l /\ key x = d.

Lemma table_insert {A} (key : A -> string) (m : gmap string A) l x : table_of key m l -> (forall y, m !! key x = Some y -> y = x) ->
  table_of key (<[key x := x]> m) (l ++ [x]).
Proof.
  intros Ht Hx d y. rewrite lookup_insert_Some, (Ht d y), elem_of_app, list_elem_of_singleton. split.
  - intros [[<- <-]|(Hn & Hy & Hd)]; [split; [by right|done]|split; [by left|done]].
  - intros [[Hy| ->] Hd]; [|by left]. destruct (decide (key x = d)) as [E|]; [|by right].
    left. split; [done|]. symmetry. apply Hx. apply Ht. split; [done|congruence].
Qed.

Lemma add_leaves_ok ls : forall L B done L' B', table_of LeafSHA256 L done -> fold_res add_leaf (L, B) ls = Ok (L', B') ->
  table_of LeafSHA256 L' (done ++ ls) /\ forall b, default [] (B' !! b) = default [] (B !! b) ++ refs_of_byte b ls.
Proof.
  induction ls as [|l ls IH]; intros L B done L' B' Ht; cbn [fold_res].
  { intros [= <- <-]. split; [by rewrite app_nil_r|]. intros b. by rewrite app_nil_r. }
  intros ([L1 B1] & (Hc & [= <- <-])%fail_if_bind_ok & Hf)%bind_ok. apply (IH _ _ (done ++ [l])) in Hf.
  - destruct Hf as [I1 I2]. rewrite <- app_assoc in I1. split; [done|]. intros b. rewrite I2. unfold refs_of_byte. rewrite filter_cons.
    destruct (decide (byte_prefix (Prefix16 l) = b)) as [<-|Hn].
    + rewrite lookup_insert_eq. cbn [from_option map]. unfold id. by rewrite <- app_assoc.
    + by rewrite lookup_insert_ne by done.
  - apply table_insert; [done|]. intros y Hy. rewrite Hy in Hc. apply negb_false_iff in Hc. apply same_leaf; [|done]. by apply Ht in Hy as [_ ->].
Qed.

Lemma add_leaves_total ls : forall L B done, table_of LeafSHA256 L done -> Forall leaf_wf (done ++ ls) ->
  (exists L' B', fold_res add_leaf (L, B) ls = Ok (L', B')) \/ collides (map Payload (done ++ ls)) (map Payload (done ++ ls)).
Proof.
  induction ls as [|l ls IH]; intros L B done Ht HF; [left; by exists L, B|]. cbn [fold_res add_leaf].
  destruct (L !! LeafSHA256 l) as [k|] eqn:Ek.
  - destruct (sameOutcomeLeafV5 k l) eqn:Es.
    + assert (k = l) as -> by (apply same_leaf; [by apply Ht in Ek as [_ ->]|done]). cbn [negb fail_if mbind result_bind].
      specialize (IH (<[LeafSHA256 l := l]> L) (<[byte_prefix (Prefix16 l) := default [] (B !! byte_prefix (Prefix16 l)) ++ [leaf_ref l]]> B) (done ++ [l])).
      rewrite <- app_assoc in IH. apply IH; [|done]. apply table_insert; [done|]. intros y Hy. congruence.
    + right. pose proof Ek as Ek'. apply Ht in Ek' as [Hk Ed]. rewrite Forall_app, Forall_cons in HF. destruct HF as (HF & Hl & _). rewrite Forall_forall in HF.
      exists (Payload k), (Payload l). split; [apply list_elem_of_fmap_2, elem_of_app; by left|]. split; [apply list_elem_of_fmap_2, elem_of_app; right; by left|]. split.
      * intros E. rewrite (leaf_wf_eq k l (HF k Hk) Hl E), same_leaf_refl in Es. done.
      * apply hex_sum_inj. change hex_sum with sha256HexV5. rewrite <- !leaf_wf_digest by auto. done.
  - cbn [negb fail_if mbind result_bind].
    specialize (IH (<[LeafSHA256 l := l]> L) (<[byte_prefix (Prefix16 l) := default [] (B !! byte_prefix (Prefix16 l)) ++ [leaf_ref l]]> B) (done ++ [l])).
    rewrite <- app_assoc in IH. apply IH; [|done]. apply table_insert; [done|]. intros y Hy. congruence.
Qed.

Lemma all_leaves_wf M : members_ok M -> Forall leaf_wf (all_leaves M).
Proof.
  intros HM. apply Forall_forall. intros l (b & Hb & Hl)%elem_all_leaves.
  destruct (block_leaf M b l HM Hb Hl) as (p & c & hs & -> & Hg & _). by exists p, c, hs.
Qed.

Lemma refs_of_byte_all M b : members_ok M -> 0 <= b < 256 -> refs_of_byte b (all_leaves M) = block_refs M b.
Proof.
  intros HM Hb. unfold refs_of_byte, block_refs. f_equal. unfold all_leaves.
  assert (forall bs, (forall c, c ∈ bs -> 0 <= c < 256) -> filter (fun l => byte_prefix (Prefix16 l) = b) (flat_map (block_leaves M) bs) = flat_map (fun c => if decide (c = b) then block_leaves M c else []) bs) as E.
  { induction bs as [|c bs IH]; intros Hbs; [done|]. cbn [flat_map]. rewrite filter_app, IH by (intros d Hd; apply Hbs; by right). f_equal.
    specialize (Hbs c ltac:(by left)). case_decide as Ec.
    - subst c. apply filter_all. intros l Hl. destruct (block_leaf M b l HM Hbs Hl) as (p & ch & hs & -> & (Hp & _) & Hr & _). cbn [leaf_of Prefix16].
      rewrite byte_prefix_div by done. symmetry. apply (Z.div_unique _ _ _ (p - 256 * b)); lia.
    - apply filter_none. intros l Hl. destruct (block_leaf M c l HM Hbs Hl) as (p & ch & hs & -> & (Hp & _) & Hr & _). cbn [leaf_of Prefix16].
      rewrite byte_prefix_div by done. intros Ed. apply Ec. rewrite <- Ed. apply (Z.div_unique _ _ _ (p - 256 * c)); lia. }
  rewrite E by (intros c Hc%elem_of_seqZ; lia).
  rewrite <- (flat_map_filter _ (fun c => c = b)) by (intros c _ Hc; by rewrite decide_False).
  assert (filter (fun c => c = b) (seqZ 0 256) = [b]) as ->.
  { apply (strongly_sorted_ext Z.lt); [lia|lia|apply filter_sorted, seqZ_sorted|constructor; constructor|].
    intros x. rewrite list_elem_of_filter, elem_of_seqZ, list_elem_of_singleton. lia. }
  cbn [flat_map]. by rewrite decide_True, app_nil_r.
Qed.

Lemma group_leaves M : members_ok M -> flat_map (fun g => chunk_leaves g.1 g.2) (prefix_groups M) = all_leaves M.
Proof.
  intros [HF Hs _]. rewrite (groups_flat chunk_leaves) by done. unfold all_leaves, block_leaves. by rewrite by_bytes.
Qed.

(** The blocks, once the references of each byte are known. *)
Lemma add_block_step M B K R b : members_ok M -> 0 <= b < 256 -> default [] (B !! b) = block_refs M b ->
  add_block B (K, R) b =
    if decide (used M b)
    then fail_if (match K !! BlockSHA256 (the_block M b) with Some existing => negb (sameOutcomeBlockV5 existing (the_block M b)) | None => false end)
           (ErrNew "V5 block SHA-256 collision") ≫= fun _ =>
         Ok (<[BlockSHA256 (the_block M b) := the_block M b]> K, R ++ [block_ref (the_block M b)])
    else Ok (K, R).
Proof.
  intros HM Hb E. unfold add_block. rewrite E. case_decide as Hu.
  - unfold used in Hu. destruct (block_refs M b) as [|r refs] eqn:Er; [done|]. rewrite <- Er. by rewrite (block_of_refs M b) by done.
  - unfold used in Hu. destruct (block_refs M b); [done|]. by destruct Hu.
Qed.

Lemma add_blocks_ok M B bs : members_ok M -> (forall b, b ∈ bs -> 0 <= b < 256 /\ default [] (B !! b) = block_refs M b) ->
  forall K R seen K' R', table_of BlockSHA256 K seen -> fold_res (add_block B) (K, R) bs = Ok (K', R') ->
  table_of BlockSHA256 K' (seen ++ map (the_block M) (filter (used M) bs)) /\ R' = R ++ map block_ref (map (the_block M) (filter (used M) bs)).
Proof.
  intros HM. induction bs as [|b bs IH]; intros Hbs K R seen K' R' Ht; cbn [fold_res].
  { intros [= <- <-]. cbn. by rewrite !app_nil_r. }
  destruct (Hbs b ltac:(by left)) as [Hb E]. rewrite (add_block_step M) by done. rewrite filter_cons. case_decide as Hu.
  - intros ([K1 R1] & (Hc & [<- <-]%Ok_inj%pair_equal_spec)%fail_if_bind_ok & Hf)%bind_ok. apply (IH (fun c Hc => Hbs c ltac:(by right)) _ _ (seen ++ [the_block M b])) in Hf.
    + cbn [map]. rewrite <- !app_assoc in Hf. done.
    + apply table_insert; [done|]. intros y Hy. rewrite Hy in Hc. apply negb_false_iff in Hc. apply same_block; [|done]. by apply Ht in Hy as [_ ->].
  - cbn [mbind result_bind]. intros Hf. by apply (IH (fun c Hc => Hbs c ltac:(by right)) _ _ seen) in Hf.
Qed.

Lemma the_block_eq M b c : members_ok M -> 0 <= b < 256 -> 0 <= c < 256 -> Manifest (the_block M b) = Manifest (the_block M c) -> the_block M b = the_block M c.
Proof.
  intros HM Hb Hc E. enough (b = c) as -> by done. cbn [the_block Manifest] in E. unfold block_bytes in E. rewrite <- !app_assoc in E.
  apply app_inj_1 in E as [_ E]; [|done]. cbn [app] in E. injection E as E _. apply (f_equal byte_val) in E. rewrite !byte_val_of, !Z.mod_small in E by done. done.
Qed.

Lemma add_blocks_total M B bs : members_ok M -> (forall b, b ∈ bs -> 0 <= b < 256 /\ default [] (B !! b) = block_refs M b) ->
  forall K R seen, table_of BlockSHA256 K (map (the_block M) seen) -> (forall b, b ∈ seen -> 0 <= b < 256 /\ used M b) ->
  (exists K' R', fold_res (add_block B) (K, R) bs = Ok (K', R')) \/
  exists b c, (b ∈ seen ++ bs) /\ (c ∈ seen ++ bs) /\ used M b /\ used M c /\ the_block M b <> the_block M c /\ BlockSHA256 (the_block M b) = BlockSHA256 (the_block M c).
Proof.
  intros HM. induction bs as [|b bs IH]; intros Hbs K R seen Ht Hseen; [left; by exists K, R|]. cbn [fold_res].
  destruct (Hbs b ltac:(by left)) as [Hb E]. rewrite (add_block_step M) by done. case_decide as Hu.
  - assert ((forall y, K !! BlockSHA256 (the_block M b) = Some y -> y = the_block M b) ->
      (exists K' R', fold_res (add_block B) (<[BlockSHA256 (the_block M b) := the_block M b]> K, R ++ [block_ref (the_block M b)]) bs = Ok (K', R')) \/
      exists d c, (d ∈ seen ++ b :: bs) /\ (c ∈ seen ++ b :: bs) /\ used M d /\ used M c /\ the_block M d <> the_block M c /\ BlockSHA256 (the_block M d) = BlockSHA256 (the_block M c)) as Hgo.
    { intros Hy. specialize (IH (fun c Hc => Hbs c ltac:(by right)) (<[BlockSHA256 (the_block M b) := the_block M b]> K) (R ++ [block_ref (the_block M b)]) (seen ++ [b])).
      rewrite <- app_assoc, map_app in IH. apply IH; [by apply table_insert|]. intros c [Hc| ->%list_elem_of_singleton]%elem_of_app; [auto|done]. }
    destruct (K !! BlockSHA256 (the_block M b)) as [y|] eqn:Ey; [|apply Hgo; intros y Hy; discriminate Hy].
    destruct (sameOutcomeBlockV5 y (the_block M b)) eqn:Es.
    + apply Hgo. intros z [= <-]. apply same_block; [|done]. by apply Ht in Ey as [_ ->].
    + right. pose proof Ey as Ey'. apply Ht in Ey' as [(c & -> & Hc)%list_elem_of_fmap Ed]. exists c, b. split; [apply elem_of_app; by left|].
      split; [apply elem_of_app; right; by left|]. split; [exact (proj2 (Hseen c Hc))|]. split; [exact Hu|]. split; [|exact Ed]. intros Eb. rewrite Eb, same_block_refl in Es. discriminate Es.
  - cbn [mbind result_bind]. destruct (IH (fun c Hc => Hbs c ltac:(by right)) K R seen Ht Hseen) as [|(d & c & Hd & Hc & Hr)]; [by left|right].
    apply elem_of_app in Hd, Hc. exists d, c. rewrite !elem_of_app, !elem_of_cons. clear IH Ht Hbs.
    split; [destruct Hd; auto|]. split; [destruct Hc; auto|exact Hr].
Qed.

(** The texts hashed while building. *)
Definition texts (M : list bytes) : list bytes := map Payload (all_leaves M) ++ map Manifest (root_blocks M).

Definition graph_of (M : list bytes) (o : OutcomeHashSetObjectsV5) : Prop :=
  objSet o = the_set M /\ table_of LeafSHA256 (Leaves o) (all_leaves M) /\ table_of BlockSHA256 (Blocks o) (root_blocks M) /\ Members o = slice_of M.

Lemma build_graph input o : members_ok (uniqueOutcomeHashesV5 input) -> buildOutcomeHashSetFromBinaryV5 input = Ok o ->
  graph_of (uniqueOutcomeHashesV5 input) o.
Proof.
  set (M := uniqueOutcomeHashesV5 input). intros HM. unfold buildOutcomeHashSetFromBinaryV5. fold M. rewrite group_leaves by done.
  intros ([L B] & HL & ([K R] & HK & (set & Hset & <-%Ok_inj)%bind_ok)%bind_ok)%bind_ok.
  apply (add_leaves_ok _ _ _ []) in HL as [HL HB]; [|intros d x; rewrite lookup_empty, elem_of_nil; split; [done|tauto]]. cbn [app] in HL.
  apply (add_blocks_ok M _ _ HM) with (seen := []) in HK as [HK ->].
  2: { intros b Hb%elem_of_seqZ. split; [lia|]. rewrite HB, lookup_empty. apply refs_of_byte_all; [done|lia]. }
  2: { intros d x. rewrite lookup_empty, elem_of_nil. split; [done|tauto]. }
  rewrite (set_of_members M) in Hset by done. apply Ok_inj in Hset as <-.
  cbn [app] in HK. split; [reflexivity|]. split; [exact HL|]. split; [exact HK|reflexivity].
Qed.

Lemma build_total input : members_ok (uniqueOutcomeHashesV5 input) ->
  (exists o, buildOutcomeHashSetFromBinaryV5 input = Ok o) \/ collides (texts (uniqueOutcomeHashesV5 input)) (texts (uniqueOutcomeHashesV5 input)).
Proof.
  set (M := uniqueOutcomeHashesV5 input). intros HM. unfold buildOutcomeHashSetFromBinaryV5. fold M. rewrite group_leaves by done.
  assert (table_of LeafSHA256 ∅ []) as H0 by (intros d x; rewrite lookup_empty, elem_of_nil; split; [done|tauto]).
  destruct (add_leaves_total (all_leaves M) ∅ ∅ [] H0 (all_leaves_wf M HM)) as [(L & B & HL)|Hc].
  2: { right. rewrite app_nil_l in Hc. apply (collides_sub (map Payload (all_leaves M)) (map Payload (all_leaves M))); [| |exact Hc]; unfold texts; intros x Hx; apply elem_of_app; by left. }
  pose proof HL as HL'. apply (add_leaves_ok _ _ _ []) in HL' as [_ HB]; [|done]. rewrite HL. cbn [mbind result_bind].
  assert (forall b, b ∈ seqZ 0 256 -> 0 <= b < 256 /\ default [] (B !! b) = block_refs M b) as Hbs.
  { intros b Hb%elem_of_seqZ. split; [lia|]. rewrite HB, lookup_empty. apply refs_of_byte_all; [done|lia]. }
  destruct (add_blocks_total M B (seqZ 0 256) HM Hbs ∅ [] []) as [(K & R & HK)|(b & c & Hb & Hc & Hub & Huc & Hne & Hd)].
  - intros d x. rewrite lookup_empty, elem_of_nil. split; [done|tauto].
  - by intros b ?%elem_of_nil.
  - left. rewrite HK. cbn [mbind result_bind]. apply (add_blocks_ok M _ _ HM Hbs) with (seen := []) in HK as [_ ->];
      [|intros d x; rewrite lookup_empty, elem_of_nil; split; [done|tauto]].
    rewrite (set_of_members M) by done. cbn. eauto.
  - right. cbn [app] in *. apply elem_of_seqZ in Hb, Hc. exists (Manifest (the_block M b)), (Manifest (the_block M c)).
    assert (forall e, 0 <= e < 256 -> used M e -> Manifest (the_block M e) ∈ texts M) as Hin.
    { intros e He Hu. apply elem_of_app. right. apply list_elem_of_fmap_2. unfold root_blocks. apply list_elem_of_fmap_2, list_elem_of_filter. rewrite elem_of_seqZ. split; [done|lia]. }
    split; [apply Hin; [lia|done]|]. split; [apply Hin; [lia|done]|]. split; [intros E; apply Hne, (the_block_eq M); [done|lia|lia|done]|]. by apply hex_sum_inj.
Qed.
End OutcomeBuild.
