(* ===== verification/OutcomeVerify.v ===== *)
(** * Verification of content-addressed sets

    What [VerifySetDigest] and [DifferenceAndUnion] promise: a built graph
    verifies, a verified graph is the graph of its members, and the digest of a
    set identifies it. *)

From S2P Require Import Prelude GoBytes Ordering GoText Sha256 FactId Witness OutcomeSet OutcomeLists OutcomeCodec OutcomeBuild.
Import GoText Sha256 OutcomeSet OutcomeLists OutcomeCodec OutcomeBuild.

Module OutcomeVerify.
#[local] Opaque sha256HexV5 seqZ.

(** ** Members of leaves *)
Definition members_of (l : OutcomeHashLeafV5) : list bytes := default [] (leaf_decodes l).

Lemma leaf_decodes_of p c hs : good_leaf p c hs -> leaf_decodes (leaf_of p c hs) = Some hs.
Proof.
  intros Hg. unfold leaf_decodes. cbn [leaf_of Payload Prefix16 ChunkIndex leafCardinality]. rewrite (decode_leaf_canonical _ _ _ Hg). by rewrite !Z.eqb_refl.
Qed.

Lemma members_of_leaf p c hs : good_leaf p c hs -> members_of (leaf_of p c hs) = hs.
Proof. intros Hg. unfold members_of. by rewrite leaf_decodes_of. Qed.

(** A leaf whose payload decodes to what the leaf says is the canonical leaf. *)
Lemma leaf_decodes_inv l hs : leaf_decodes l = Some hs -> sha256HexV5 (Payload l) = LeafSHA256 l ->
  l = leaf_of (Prefix16 l) (ChunkIndex l) hs /\ good_leaf (Prefix16 l) (ChunkIndex l) hs.
Proof.
  unfold leaf_decodes. destruct (decodeOutcomeLeafV5 (Payload l)) as [[[ks p] c]|] eqn:E; [|done].
  destruct (_ && _) eqn:Eb; [|done]. intros [= ->] Hd. rewrite !andb_true_iff, !Z.eqb_eq in Eb. destruct Eb as [[-> ->] Hn].
  apply decode_leaf_inv in E as [Ep Hg]. split; [|done]. unfold leaf_of. rewrite <- Ep, Hd, Hn. by destruct l.
Qed.

Lemma elem_leaves M h : members_ok M -> h ∈ M <-> exists l, l ∈ all_leaves M /\ h ∈ members_of l.
Proof.
  intros HM. split.
  - intros Hh. pose proof (mo_hash M HM) as HF. rewrite Forall_forall in HF. pose proof (prefix_range h (HF h Hh)) as Hr. set (p := prefix_of h) in *.
    assert (h ∈ at_prefix p M) as Hp by (by apply elem_at_prefix). pose proof (pieces_concat (length (at_prefix p M)) 0 _ (le_n _)) as Hcat.
    rewrite <- Hcat in Hp. apply elem_concat in Hp as (hs & ([c ks] & -> & Hc)%list_elem_of_fmap & Hin). cbn [snd] in Hin.
    assert (leaf_of p c ks ∈ leaves_at M p) as Hl by (rewrite leaves_pieces; apply list_elem_of_fmap; by exists (c, ks)).
    exists (leaf_of p c ks). split.
    + unfold all_leaves, block_leaves. rewrite by_bytes. apply Witness.elem_flat_map. exists p. rewrite elem_of_seqZ. split; [lia|done].
    + by rewrite members_of_leaf by (by apply (piece_good M)).
  - intros (l & (b & Hb & Hl)%elem_all_leaves & Hh). destruct (block_leaf M b l HM Hb Hl) as (p & _ & _ & _ & _ & Hp & Hl').
    destruct (leaf_good M p l HM ltac:(lia) Hl') as (c & hs & Hc & -> & Hg). rewrite members_of_leaf in Hh by done.
    pose proof (pieces_concat (length (at_prefix p M)) 0 _ (le_n _)) as Hcat. assert (h ∈ at_prefix p M) as [_ Hin]%elem_at_prefix; [|done].
    rewrite <- Hcat. apply elem_concat. exists hs. split; [|done]. by apply (list_elem_of_fmap_2 snd _ _ Hc).
Qed.

(** ** Decoding *)
Lemma decode_leaf_ok acc l out : decode_leaf acc l = Ok out <->
  (sha256HexV5 (Payload l) = LeafSHA256 l /\ is_Some (leaf_decodes l)) /\ out = acc ++ members_of l.
Proof.
  unfold decode_leaf, members_of. rewrite fail_if_bind_ok, negb_false_iff, bool_decide_eq_true.
  destruct (leaf_decodes l) as [hs|]; cbn [default from_option]; unfold id.
  - split; [intros [Hd [= <-]]; split; [split; [done|by exists hs]|done]|]. intros [[Hd _] ->]. done.
  - split; [by intros [_ [=]]|]. by intros [[_ [? [=]]] _].
Qed.

Lemma decode_leaves_ok ls : forall acc out, fold_res decode_leaf acc ls = Ok out <->
  Forall (fun l => sha256HexV5 (Payload l) = LeafSHA256 l /\ is_Some (leaf_decodes l)) ls /\ out = acc ++ flat_map members_of ls.
Proof.
  induction ls as [|l ls IH]; intros acc out; cbn [fold_res flat_map].
  { rewrite app_nil_r. split; [by intros [= <-]|by intros [_ ->]]. }
  rewrite bind_ok, Forall_cons. setoid_rewrite IH. setoid_rewrite decode_leaf_ok. split.
  - intros (a & (Hl & ->) & HF & ->). by rewrite <- app_assoc.
  - intros ((Hl & HF) & ->). exists (acc ++ members_of l). by rewrite <- app_assoc.
Qed.

Lemma elem_map_values {A} (m : gmap string A) x : x ∈ map_values m <-> exists d, m !! d = Some x.
Proof.
  unfold map_values. rewrite list_elem_of_fmap. split.
  - intros ([d y] & -> & Hd%elem_of_map_to_list). by exists d.
  - intros (d & Hd). exists (d, x). by rewrite elem_of_map_to_list.
Qed.

(** Whatever decodes: the members of its leaves. *)
Lemma decode_members_inv o M : decodeOutcomeMembersV5 o = Ok M ->
  Forall leaf_wf (map_values (Leaves o)) /\ StronglySorted clt M /\ Forall hash32 M /\ (forall h, h ∈ M <-> exists l, l ∈ map_values (Leaves o) /\ h ∈ members_of l) /\
  Z.of_nat (length M) = Cardinality (objSet o).
Proof.
  unfold decodeOutcomeMembersV5. intros (ms & (HF & ->)%decode_leaves_ok & (Hc & <-%Ok_inj)%fail_if_bind_ok)%bind_ok. cbn [app] in *.
  assert (Forall leaf_wf (map_values (Leaves o))) as Hwf.
  { eapply Forall_impl; [exact HF|]. intros l (Hd & [hs E]). destruct (leaf_decodes_inv l hs E Hd) as [-> Hg]. by eexists _, _, _. }
  split; [done|]. split; [apply unique_sorted|]. split; [|split].
  - apply Forall_forall. intros h Hh. apply elem_unique, Witness.elem_flat_map in Hh as (l & Hl & Hh). rewrite Forall_forall in Hwf.
    destruct (Hwf l Hl) as (p & c & hs & -> & Hg). rewrite members_of_leaf in Hh by done. destruct Hg as (_ & _ & _ & Hg & _). rewrite Forall_forall in Hg. auto.
  - intros h. by rewrite elem_unique, Witness.elem_flat_map.
  - by apply negb_false_iff, Z.eqb_eq in Hc.
Qed.

Lemma decode_graph M o : members_ok M -> graph_of M o -> decodeOutcomeMembersV5 o = Ok M.
Proof.
  intros HM (Hset & HL & _ & _). unfold decodeOutcomeMembersV5.
  assert (forall l, l ∈ map_values (Leaves o) <-> l ∈ all_leaves M) as Hv.
  { intros l. rewrite elem_map_values. split; [by intros (d & [Hl _]%HL)|]. intros Hl. exists (LeafSHA256 l). by apply HL. }
  assert (fold_res decode_leaf [] (map_values (Leaves o)) = Ok (flat_map members_of (map_values (Leaves o)))) as ->.
  { apply decode_leaves_ok. split; [|done]. apply Forall_forall. intros l Hl%Hv. pose proof (all_leaves_wf M HM) as Hwf. rewrite Forall_forall in Hwf.
    destruct (Hwf l Hl) as (p & c & hs & -> & Hg). split; [done|]. exists hs. by apply leaf_decodes_of. }
  cbn [mbind result_bind].
  assert (uniqueOutcomeHashesV5 (flat_map members_of (map_values (Leaves o))) = M) as ->.
  { rewrite <- (unique_id M) by apply HM. apply unique_ext. intros h. rewrite Witness.elem_flat_map, (elem_leaves M h HM). by setoid_rewrite Hv. }
  rewrite Hset. cbn [the_set Cardinality]. by rewrite Z.eqb_refl.
Qed.


(** ** Verification *)
Lemma build_unique input : buildOutcomeHashSetFromBinaryV5 (uniqueOutcomeHashesV5 input) = buildOutcomeHashSetFromBinaryV5 input.
Proof. unfold buildOutcomeHashSetFromBinaryV5. by rewrite (unique_id (uniqueOutcomeHashesV5 input)) by apply unique_sorted. Qed.

Lemma table_size {A} (key : A -> string) (m : gmap string A) l : table_of key m l -> NoDup l -> size m = length l.
Proof.
  intros Ht Hnd. rewrite <- length_map_to_list, <- (length_map (fun x => (key x, x)) l). apply Permutation_length, NoDup_Permutation.
  - apply NoDup_map_to_list.
  - apply NoDup_fmap_2; [intros x y [= _ E]; done|done].
  - intros [d x]. rewrite elem_of_map_to_list, (Ht d x), list_elem_of_fmap. split; [intros [Hx <-]; by exists x|by intros (y & [= -> ->] & Hy)].
Qed.

Lemma root_blocks_nodup M : NoDup (root_blocks M).
Proof.
  unfold root_blocks. apply NoDup_fmap_2_strong.
  - intros b c _ _ E. apply (f_equal Prefix8 E).
  - apply NoDup_filter, NoDup_seqZ.
Qed.

Lemma graph_verifies M o : members_ok M -> graph_of M o -> buildOutcomeHashSetFromBinaryV5 M = Ok o -> VerifySetDigest o = Ok tt.
Proof.
  intros HM HG Hb. pose proof HG as (Hset & _ & HK & _). unfold VerifySetDigest. rewrite Hset, root_verifies by done. cbn [mbind result_bind].
  rewrite (table_size _ _ _ HK (root_blocks_nodup M)). pose proof (root_verifies M HM) as Hv. unfold verifyOutcomeRootV5 in Hv.
  rewrite fail_bind by (cbn [the_set BlockCount]; unfold root_refs; rewrite length_map, Z.eqb_refl; done).
  apply fail_if_bind_ok in Hv as [Hv _]. rewrite fail_bind.
  2: { apply orb_false_iff in Hv as [Hv Hd]. apply orb_false_iff in Hv as [Hv Hn]. apply orb_false_iff in Hv as [Hv _]. apply orb_false_iff in Hv as [Hv _].
       by rewrite Hv, Hn, Hd. }
  rewrite (decode_graph M) by done. cbn [mbind result_bind]. rewrite Hb. cbn [mbind result_bind]. rewrite Hset, !bool_decide_eq_true_2, Z.eqb_refl by done.
  cbn [negb orb fail_if mbind result_bind]. apply check_all_ok, Forall_forall. intros [d b] Hd%elem_of_map_to_list. cbn [fst snd]. rewrite Hd, same_block_refl. done.
Qed.

Lemma root_bytes_inj {c d refs refs'} : root_refs_ok (-1) 0 refs -> root_refs_ok (-1) 0 refs' -> root_bytes c refs = root_bytes d refs' -> refs = refs'.
Proof.
  intros OM ON E. unfold root_bytes, root_header in E. rewrite <- !app_assoc in E.
  apply app_inj_1 in E as [_ E]; [|done]. apply app_inj_1 in E as [_ E]; [|done]. apply app_inj_1 in E as [_ E]; [|done].
  apply app_inj_1 in E as [_ E]; [|unfold be_uint64; by rewrite !length_be_bytes].
  apply app_inj_1 in E as [El E]; [|unfold be_uint32; by rewrite !length_be_bytes].
  pose proof (root_refs_length _ _ _ OM). pose proof (root_refs_length _ _ _ ON). apply (be_bytes_inj 4) in El; [|lia|lia]. apply Nat2Z.inj in El.
  pose proof (root_refs_read _ (-1) 0 [] ltac:(lia) ltac:(lia) OM) as R1. pose proof (root_refs_read _ (-1) 0 [] ltac:(lia) ltac:(lia) ON) as R2.
  rewrite <- El, <- E, R1 in R2. by injection R2.
Qed.

(** What a verified graph is: the set of its members, with the blocks of that
    set under their digests. *)
Lemma verified_graph o : VerifySetDigest o = Ok tt -> Cardinality (objSet o) < 2 ^ 31 ->
  exists M, decodeOutcomeMembersV5 o = Ok M /\ members_ok M /\ objSet o = the_set M /\
    (forall b, b ∈ root_blocks M -> exists got, Blocks o !! BlockSHA256 b = Some got /\ sameOutcomeBlockV5 got b = true).
Proof.
  unfold VerifySetDigest. intros ([] & Hroot & Hv)%bind_ok Hcard. apply fail_if_bind_ok in Hv as [_ Hv]. apply fail_if_bind_ok in Hv as [_ Hv].
  apply bind_ok in Hv as (M & HM & Hv). apply bind_ok in Hv as (re & Hre & Hv). apply fail_if_bind_ok in Hv as [Hsame Hv].
  rewrite !orb_false_iff, !negb_false_iff, !bool_decide_eq_true, Z.eqb_eq in Hsame. destruct Hsame as [[Hs Hc] Hm].
  destruct (decode_members_inv o M HM) as (_ & Hsort & HF & _ & Hn). assert (members_ok M) as HMok by (split; [done|done|lia]).
  exists M. split; [done|]. split; [done|]. rewrite <- (unique_id M Hsort) in HMok. apply build_graph in Hre as (Hset & _ & HK & _); [|done]. rewrite (unique_id M Hsort) in *.
  split.
  - unfold verifyOutcomeRootV5 in Hroot. apply fail_if_bind_ok in Hroot as [_ Hroot]. apply bind_ok in Hroot as (refs & Hp & _).
    apply parse_root_inv in Hp as (Hbytes & Hcount & Hok & Hsum & _). rewrite Hset in *. cbn [the_set SetSHA256 Cardinality RootManifest] in *.
    assert (root_refs M = refs) as <- by (apply (root_bytes_inj (c := Z.of_nat (length M)) (d := Cardinality (objSet o))); [by apply root_refs_good|done|]; by rewrite <- Hbytes, <- Hm).
    unfold the_set. rewrite Hs, Hc, <- Hcount, Hm. by destruct (objSet o).
  - intros b Hb. assert (Blocks re !! BlockSHA256 b = Some b) as Hl by (by apply HK). rewrite check_all_ok, Forall_forall in Hv.
    specialize (Hv (BlockSHA256 b, b)). rewrite elem_of_map_to_list in Hv. specialize (Hv Hl). cbn [fst snd] in Hv. apply fail_if_ok in Hv.
    destruct (Blocks o !! BlockSHA256 b) as [got|]; [|done]. exists got. split; [done|]. by apply negb_false_iff in Hv.
Qed.

(** ** The digest names the set *)
Lemma sha_eq x y xs : x ∈ xs -> y ∈ xs -> sha256HexV5 x = sha256HexV5 y -> x = y \/ collides xs xs.
Proof.
  intros Hx Hy E. destruct (decide (x = y)) as [|Hn]; [by left|]. right. exists x, y. split; [done|]. split; [done|]. split; [done|]. by apply hex_sum_inj.
Qed.

Definition all_texts (M : list bytes) : list bytes := the_root M :: texts M.

Lemma forall_or {A} (l : list A) (P : A -> Prop) (C : Prop) : (forall x, x ∈ l -> P x \/ C) -> (forall x, x ∈ l -> P x) \/ C.
Proof.
  induction l as [|x l IH]; intros H; [left; by intros x ?%elem_of_nil|]. destruct (H x ltac:(by left)) as [Hx|]; [|by right].
  destruct IH as [Hl|]; [intros y Hy; apply H; by right| |by right]. left. intros y [->|Hy]%elem_of_cons; auto.
Qed.

Lemma block_text M b : used M b -> 0 <= b < 256 -> Manifest (the_block M b) ∈ texts M.
Proof.
  intros Hu Hb. apply elem_of_app. right. apply list_elem_of_fmap_2. unfold root_blocks. apply list_elem_of_fmap_2, list_elem_of_filter.
  rewrite elem_of_seqZ. split; [done|lia].
Qed.
Lemma leaf_text M l : l ∈ all_leaves M -> Payload l ∈ texts M.
Proof. intros Hl. apply elem_of_app. left. by apply list_elem_of_fmap_2. Qed.

Lemma manifest_inj M N b : members_ok M -> members_ok N -> 0 <= b < 256 -> used M b -> used N b ->
  Manifest (the_block M b) = Manifest (the_block N b) -> blockCardinality (the_block M b) = blockCardinality (the_block N b) -> block_refs M b = block_refs N b.
Proof.
  intros HM HN Hb HuM HuN Em Ec. pose proof (block_parses M b HM Hb HuM) as P. rewrite Em, Ec, block_parses in P by done. by injection P.
Qed.

Lemma member_carried M N h xs : members_ok M -> members_ok N -> root_refs M = root_refs N -> texts M ⊆ xs -> texts N ⊆ xs -> h ∈ M -> h ∈ N \/ collides xs xs.
Proof.
  intros HM HN E HxM HxN Hh. apply (elem_leaves M h HM) in Hh as (l & Hl & Hh). pose proof Hl as Hl'.
  apply elem_all_leaves in Hl' as (b & Hb' & Hlb).
  assert (used M b) as HuM. { unfold used, block_refs. destruct (block_leaves M b); [by apply elem_of_nil in Hlb|done]. }
  assert (block_ref (the_block M b) ∈ root_refs N) as Hr. { rewrite <- E. apply elem_root_refs. by exists b. }
  apply elem_root_refs in Hr as (c & Hc & HuN & Eb). assert (c = b) as -> by (symmetry; exact (f_equal brPrefix Eb)).
  destruct (sha_eq (Manifest (the_block M b)) (Manifest (the_block N b)) xs) as [Em|]; [by apply HxM, block_text|by apply HxN, block_text|exact (f_equal brDigest Eb)| |by right].
  pose proof (manifest_inj M N b HM HN Hb' HuM HuN Em (f_equal brCardinality Eb)) as Er.
  assert (leaf_ref l ∈ block_refs N b) as Hr. { rewrite <- Er. by apply list_elem_of_fmap_2. }
  apply list_elem_of_fmap in Hr as (k & Ek & Hk).
  assert (k ∈ all_leaves N) as HkN. { apply elem_all_leaves. by exists b. }
  pose proof (all_leaves_wf M HM) as WM. pose proof (all_leaves_wf N HN) as WN. rewrite Forall_forall in WM, WN. specialize (WM l Hl). specialize (WN k HkN).
  destruct (sha_eq (Payload l) (Payload k) xs) as [Ep|]; [by apply HxM, leaf_text|by apply HxN, leaf_text| | |by right].
  { rewrite <- !leaf_wf_digest by done. exact (f_equal lrDigest Ek). }
  left. apply (elem_leaves N h HN). exists k. split; [done|]. by rewrite <- (leaf_wf_eq l k WM WN Ep).
Qed.

Lemma digest_names M N : members_ok M -> members_ok N -> SetSHA256 (the_set M) = SetSHA256 (the_set N) ->
  M = N \/ collides (all_texts M ++ all_texts N) (all_texts M ++ all_texts N).
Proof.
  intros HM HN E. set (xs := all_texts M ++ all_texts N).
  assert (texts M ⊆ xs) as HxM by (intros x Hx; apply elem_of_app; left; by right). assert (texts N ⊆ xs) as HxN by (intros x Hx; apply elem_of_app; right; by right).
  destruct (sha_eq (the_root M) (the_root N) xs) as [Er|]; [apply elem_of_app; left; by left|apply elem_of_app; right; by left|done| |by right].
  unfold the_root in Er. apply (root_bytes_inj (root_refs_good M HM) (root_refs_good N HN)) in Er.
  destruct (forall_or M (fun h => h ∈ N) (collides xs xs)) as [H1|]; [intros h Hh; by apply (member_carried M)| |by right].
  destruct (forall_or N (fun h => h ∈ M) (collides xs xs)) as [H2|]; [intros h Hh; by apply (member_carried N)| |by right].
  left. apply strict_sorted_ext; [apply HM|apply HN|]. intros h. split; auto.
Qed.

(** ** Difference and union of built graphs *)
Definition hashes_ok (l : list bytes) : Prop := Forall hash32 l /\ Z.of_nat (length l) < 2 ^ 31.

Lemma union_hashes M C : Forall hash32 M -> Forall hash32 C -> Z.of_nat (length M + length C) < 2 ^ 31 -> members_ok (spec_union M C).
Proof. intros HM HC Hn. apply unique_ok; [by apply Forall_app|]. rewrite length_app. lia. Qed.

Lemma slice_of_list {A} (l : list A) : default [] (slice_of l) = l.
Proof. by destruct l. Qed.

Lemma difference_step M o cand : members_ok M -> graph_of M o -> buildOutcomeHashSetFromBinaryV5 M = Ok o ->
  DifferenceAndUnion o cand =
    buildOutcomeHashSetFromBinaryV5 (spec_union M (candHashes cand)) ≫= fun built => Ok (built, spec_novel M (candHashes cand)).
Proof.
  intros HM HG Hb. unfold DifferenceAndUnion. rewrite (graph_verifies M) by done. cbn [mbind result_bind].
  assert (match Members o with Some members => Ok members | None => decodeOutcomeMembersV5 o end = Ok M) as ->.
  { rewrite (decode_graph M) by done. destruct HG as (_ & _ & _ & ->). destruct M; done. }
  cbn [mbind result_bind]. pose proof (merged_union M (candHashes cand)) as E1. pose proof (merged_new M (candHashes cand)) as E2.
  unfold mergeOutcomeHashesV5 in E1, E2. destruct (merge_loop _ _) as [u n]. cbn [fst snd] in *. by subst.
Qed.
End OutcomeVerify.
