(* ===== verification/OutcomeRadix.v ===== *)
(** * Outcome sets in the Control store

    [persistV5SetObjectsTx] and [differenceAndUnionV5Tx] of
    [src/internal/control/ordinal_exposure_v5.go]: the object graph lives in three
    append-only tables keyed by digest, and a union reads only the blocks and
    leaves its candidates touch.  The [created_at] columns and the durations of the
    telemetry are left out; nothing reads them here. *)

From S2P Require Import Prelude GoBytes Ordering GoText Sha256 FactId OutcomeSet.
Import GoText Sha256 OutcomeSet.

Module OutcomeRadix.

(** ** The tables of migration 018, without their key column *)
Record LeafRow := MkLeafRow {
  row_prefix16 : Z;
  row_chunk : Z;
  row_cardinality : Z;
  row_codec : string;
  row_payload : bytes;
  row_size : Z;
}.
Record BlockRow := MkBlockRow {
  row_prefix8 : Z;
  row_block_cardinality : Z;
  row_manifest : bytes;
}.
Record SetRow := MkSetRow {
  row_set_cardinality : Z;
  row_block_count : Z;
  row_root_manifest : bytes;
}.
Record ObjectStore := MkObjectStore {
  leaf_rows : gmap string LeafRow;
  block_rows : gmap string BlockRow;
  set_rows : gmap string SetRow;
}.

Definition check_violation := ErrNew "new row violates check constraint".
Definition ErrNoRows := ErrNew "sql: no rows in result set".

(** [int32(x)]. *)
Definition int32 (z : Z) : Z := (z + 2 ^ 31) mod 2 ^ 32 - 2 ^ 31.

(** [WHERE key = ANY(digests)]: the rows of a table under some keys. *)
Definition select_any {A} (rows : gmap string A) (digests : list string) : list (string * A) :=
  map_to_list (filter (fun kv => kv.1 ∈ digests) rows).

(** [INSERT ... ON CONFLICT (key) DO NOTHING]; the row passes its constraints first. *)
Definition insert_row {A} (valid : A -> bool) (rows : gmap string A) (digest : string) (row : A) : result (gmap string A) :=
  fail_if (negb (valid_sha256_text digest) || negb (valid row)) check_violation ≫= fun _ =>
  Ok (match rows !! digest with Some _ => rows | None => <[digest := row]> rows end).

Definition leaf_row_valid (r : LeafRow) : bool :=
  (0 <=? row_prefix16 r) && (row_prefix16 r <=? 65535) && (0 <=? row_chunk r) && (row_chunk r <? 2 ^ 31) &&
  (1 <=? row_cardinality r) && (row_cardinality r <=? 4096) &&
  (bool_decide (row_codec r = "RAW") || bool_decide (row_codec r = "ZSTD")) && (0 <? row_size r).
Definition block_row_valid (r : BlockRow) : bool :=
  (0 <=? row_prefix8 r) && (row_prefix8 r <=? 255) && (0 <? row_block_cardinality r).
Definition set_row_valid (r : SetRow) : bool :=
  (0 <=? row_set_cardinality r) && (0 <=? row_block_count r) && (row_block_count r <=? 256).

Definition leaf_row (l : OutcomeHashLeafV5) : LeafRow :=
  MkLeafRow (int32 (Prefix16 l)) (int32 (ChunkIndex l)) (int32 (leafCardinality l)) "RAW" (Payload l) (int32 (bytes_len (Payload l))).
Definition block_row (b : OutcomeHashBlockV5) : BlockRow := MkBlockRow (int32 (Prefix8 b)) (blockCardinality b) (Manifest b).
Definition set_row (s : OutcomeSetV5) : SetRow := MkSetRow (Cardinality s) (BlockCount s) (RootManifest s).

(** [rows.Scan] with the conversions [uint16(prefix)], [uint32(chunk)], [byte(prefix)]. *)
Definition scan_leaf (d : string) (r : LeafRow) : OutcomeHashLeafV5 :=
  MkLeaf d (row_prefix16 r mod 2 ^ 16) (row_chunk r mod 2 ^ 32) (row_cardinality r) (row_payload r).
Definition scan_block (d : string) (r : BlockRow) : OutcomeHashBlockV5 :=
  MkBlock d (row_prefix8 r mod 2 ^ 8) (row_block_cardinality r) (row_manifest r).
Definition scan_set (d : string) (r : SetRow) : OutcomeSetV5 :=
  MkSet d (row_set_cardinality r) (row_block_count r) (row_root_manifest r).

Definition raw_leaf (r : LeafRow) : bool := bool_decide (row_codec r = "RAW") && (row_size r =? bytes_len (row_payload r)).

(** ** Persisting *)
Definition digest_le (a b : OutcomeHashLeafV5) : Prop := cle (LeafSHA256 a) (LeafSHA256 b).
#[export] Instance digest_le_dec : RelDecision digest_le.
Proof. intros a b. unfold digest_le. apply _. Defined.

Definition leaf_acceptable (l : OutcomeHashLeafV5) : bool :=
  match decodeOutcomeLeafV5 (Payload l) with
  | Ok (decoded, prefix, chunk) =>
      bool_decide (sha256HexV5 (Payload l) = LeafSHA256 l) && (prefix =? Prefix16 l) && (chunk =? ChunkIndex l) &&
      (Z.of_nat (length decoded) =? leafCardinality l)
  | Err _ => false
  end.

Definition persist_leaves (rows : gmap string LeafRow) (leaves : gmap string OutcomeHashLeafV5) : result (gmap string LeafRow) :=
  if bool_decide (leaves = ∅) then Ok rows else
  let ordered := merge_sort digest_le (map_values leaves) in
  fold_res (fun rows l => insert_row leaf_row_valid rows (LeafSHA256 l) (leaf_row l)) rows ordered ≫= fun rows' =>
  fold_res (fun (seen : gmap string OutcomeHashLeafV5) kv =>
      if raw_leaf kv.2 then Ok (<[kv.1 := scan_leaf kv.1 kv.2]> seen)
      else Err (ErrNew "unsupported or corrupt V5 leaf codec")) ∅ (select_any rows' (map LeafSHA256 ordered)) ≫= fun seen =>
  check_all (fun kv => fail_if (match seen !! kv.1 with Some stored => negb (sameOutcomeLeafV5 stored kv.2) | None => true end)
                         (ErrNew "V5 leaf digest collision for %s")) (map_to_list leaves) ≫= fun _ =>
  Ok rows'.

Definition persist_blocks (rows : gmap string BlockRow) (blocks : gmap string OutcomeHashBlockV5) : result (gmap string BlockRow) :=
  if bool_decide (blocks = ∅) then Ok rows else
  let submitted := map_values blocks in
  fold_res (fun rows b => insert_row block_row_valid rows (BlockSHA256 b) (block_row b)) rows submitted ≫= fun rows' =>
  let seen : gmap string OutcomeHashBlockV5 :=
    list_to_map (map (fun kv => (kv.1, scan_block kv.1 kv.2)) (select_any rows' (map BlockSHA256 submitted))) in
  check_all (fun kv => fail_if (match seen !! kv.1 with Some stored => negb (sameOutcomeBlockV5 stored kv.2) | None => true end)
                         (ErrNew "V5 block digest collision for %s")) (map_to_list blocks) ≫= fun _ =>
  Ok rows'.

Definition persist_set (rows : gmap string SetRow) (set : OutcomeSetV5) : result (gmap string SetRow) :=
  insert_row set_row_valid rows (SetSHA256 set) (set_row set) ≫= fun rows' =>
  match rows !! SetSHA256 set with
  | None => Ok rows'
  | Some stored =>
      fail_if (negb (row_set_cardinality stored =? Cardinality set) || negb (row_block_count stored =? BlockCount set) ||
               negb (bool_decide (row_root_manifest stored = RootManifest set))) (ErrNew "V5 outcome set SHA-256 collision") ≫= fun _ =>
      Ok rows'
  end.

Definition persistV5SetObjectsTx (st : ObjectStore) (objects : OutcomeHashSetObjectsV5) : result ObjectStore :=
  verifyOutcomeRootV5 (objSet objects) ≫= fun _ =>
  check_all (fun l => fail_if (negb (leaf_acceptable l)) (ErrNew "invalid V5 leaf submitted for persistence")) (map_values (Leaves objects)) ≫= fun _ =>
  check_all (fun b =>
      fail_if (negb (bool_decide (sha256HexV5 (Manifest b) = BlockSHA256 b))) (ErrNew "invalid V5 block submitted for persistence") ≫= fun _ =>
      parseV5BlockManifestReferences (Manifest b) (Prefix8 b) (blockCardinality b) ≫= fun _ => Ok tt)
    (map_values (Blocks objects)) ≫= fun _ =>
  persist_leaves (leaf_rows st) (Leaves objects) ≫= fun leaves =>
  persist_blocks (block_rows st) (Blocks objects) ≫= fun blocks =>
  persist_set (set_rows st) (objSet objects) ≫= fun sets =>
  Ok (MkObjectStore leaves blocks sets).

(** ** Difference and union inside a transaction *)
Record OutcomeRadixTelemetryV5 := MkTelemetry {
  RootCardinality : Z;
  CandidateCardinality : Z;
  BlocksLoaded : Z;
  LeavesLoaded : Z;
  HashesLoaded : Z;
  BlocksReused : Z;
  LeavesChanged : Z;
}.

(** [byPrefix]: the candidates of each prefix, in order. *)
Definition group_candidates (candidates : list bytes) : gmap Z (list bytes) :=
  fold_left (fun byPrefix h => <[prefix_of h := default [] (byPrefix !! prefix_of h) ++ [h]]> byPrefix) candidates ∅.
Definition touched_blocks (candidates : list bytes) : gset Z := list_to_set (map (fun h => byte_prefix (prefix_of h)) candidates).
Definition root_by_prefix (refs : list outcomeBlockReferenceV5) : gmap Z outcomeBlockReferenceV5 :=
  fold_left (fun m ref => <[brPrefix ref := ref]> m) refs ∅.
Definition requested_blocks (touched : gset Z) (rootByPrefix : gmap Z outcomeBlockReferenceV5) : list string :=
  omap (fun prefix => brDigest <$> rootByPrefix !! prefix) (elements touched).

Definition load_block (rootByPrefix : gmap Z outcomeBlockReferenceV5)
    (st : gmap Z OutcomeHashBlockV5 * gmap Z (list outcomeLeafReferenceV5)) (kv : string * BlockRow) :
    result (gmap Z OutcomeHashBlockV5 * gmap Z (list outcomeLeafReferenceV5)) :=
  let block := scan_block kv.1 kv.2 in
  fail_if (match rootByPrefix !! Prefix8 block with
           | Some ref => negb (bool_decide (brDigest ref = BlockSHA256 block)) || negb (brCardinality ref =? blockCardinality block) ||
                         negb (bool_decide (sha256HexV5 (Manifest block) = BlockSHA256 block))
           | None => true end) (ErrNew "V5 touched block disagrees with root manifest") ≫= fun _ =>
  parseV5BlockManifestReferences (Manifest block) (Prefix8 block) (blockCardinality block) ≫= fun refs =>
  Ok (<[Prefix8 block := block]> st.1, <[Prefix8 block := refs]> st.2).

Definition load_blocks (st : ObjectStore) (rootByPrefix : gmap Z outcomeBlockReferenceV5) (requested : list string) :
    result (gmap Z OutcomeHashBlockV5 * gmap Z (list outcomeLeafReferenceV5)) :=
  match requested with
  | [] => Ok (∅, ∅)
  | _ =>
      fold_res (load_block rootByPrefix) (∅, ∅) (select_any (block_rows st) requested) ≫= fun loaded =>
      fail_if (negb (Nat.eqb (size loaded.1) (length requested))) (ErrNew "V5 outcome set is missing a touched block") ≫= fun _ =>
      Ok loaded
  end.

(** The references of one prefix among those of its block. *)
Definition prefix_refs (blockLeafRefs : gmap Z (list outcomeLeafReferenceV5)) (prefix : Z) : list outcomeLeafReferenceV5 :=
  filter (fun ref => lrPrefix16 ref = prefix) (default [] (blockLeafRefs !! byte_prefix prefix)).

Definition requested_leaves (byPrefix : gmap Z (list bytes)) (blockLeafRefs : gmap Z (list outcomeLeafReferenceV5)) :
    gmap string outcomeLeafReferenceV5 :=
  fold_left (fun m ref => <[lrDigest ref := ref]> m)
    (flat_map (fun kv => prefix_refs blockLeafRefs kv.1) (map_to_list byPrefix)) ∅.

Definition load_leaf (requested : gmap string outcomeLeafReferenceV5)
    (st : gmap string OutcomeHashLeafV5 * Z) (kv : string * LeafRow) : result (gmap string OutcomeHashLeafV5 * Z) :=
  let leaf := scan_leaf kv.1 kv.2 in
  let bad := ErrNew "V5 touched leaf disagrees with block manifest" in
  match requested !! LeafSHA256 leaf, leaf_decodes leaf with
  | Some ref, Some decoded =>
      fail_if (negb (raw_leaf kv.2) || negb (bool_decide (sha256HexV5 (Payload leaf) = LeafSHA256 leaf)) ||
               negb (lrPrefix16 ref =? Prefix16 leaf) || negb (lrChunk ref =? ChunkIndex leaf) ||
               negb (lrCardinality ref =? leafCardinality leaf)) bad ≫= fun _ =>
      Ok (<[LeafSHA256 leaf := leaf]> st.1, st.2 + Z.of_nat (length decoded))
  | _, _ => Err bad
  end.

Definition load_leaves (st : ObjectStore) (requested : gmap string outcomeLeafReferenceV5) : result (gmap string OutcomeHashLeafV5 * Z) :=
  if bool_decide (requested = ∅) then Ok (∅, 0) else
  fold_res (load_leaf requested) (∅, 0) (select_any (leaf_rows st) (map fst (map_to_list requested))) ≫= fun loaded =>
  fail_if (negb (Nat.eqb (size loaded.1) (size requested))) (ErrNew "V5 outcome set is missing a touched leaf") ≫= fun _ =>
  Ok loaded.

(** [decoded, _, _, _ := decodeOutcomeLeafV5(loadedLeaves[digest].Payload)]: an
    absent leaf is the zero leaf, an error leaves no members. *)
Definition loaded_members (loaded : gmap string OutcomeHashLeafV5) (digest : string) : list bytes :=
  match decodeOutcomeLeafV5 (from_option Payload [] (loaded !! digest)) with Ok (decoded, _, _) => decoded | Err _ => [] end.

Record merge_state := MkMerge {
  ms_changed : gmap string OutcomeHashLeafV5;
  ms_novel : list bytes;
  ms_refs : gmap Z (list outcomeLeafReferenceV5);
}.

Definition merge_prefix (blockLeafRefs : gmap Z (list outcomeLeafReferenceV5)) (loaded : gmap string OutcomeHashLeafV5)
    (st : merge_state) (kv : Z * list bytes) : merge_state :=
  let '(prefix, additions) := kv in
  let old := prefix_refs blockLeafRefs prefix in
  let oldDigests := map lrDigest old in
  let oldMembers := flat_map (fun ref => loaded_members loaded (lrDigest ref)) old in
  let '(merged, prefixNovel) := mergeOutcomeHashesV5 oldMembers additions in
  let leaves := chunk_leaves prefix merged in
  MkMerge
    (fold_left (fun changed leaf => if decide (LeafSHA256 leaf ∈ oldDigests) then changed else <[LeafSHA256 leaf := leaf]> changed)
       leaves (ms_changed st))
    (ms_novel st ++ prefixNovel)
    (<[prefix := map leaf_ref leaves]> (ms_refs st)).

(** The references of a touched block: those of touched prefixes give way to
    their replacement where the first of them stood. *)
Definition replace_ref (replacementRefs : gmap Z (list outcomeLeafReferenceV5))
    (st : list outcomeLeafReferenceV5 * gset Z) (ref : outcomeLeafReferenceV5) : list outcomeLeafReferenceV5 * gset Z :=
  let '(refs, seenPrefix) := st in
  match replacementRefs !! lrPrefix16 ref with
  | Some replacement =>
      if decide (lrPrefix16 ref ∈ seenPrefix) then (refs, seenPrefix)
      else (refs ++ replacement, {[lrPrefix16 ref]} ∪ seenPrefix)
  | None => (refs ++ [ref], seenPrefix)
  end.

Definition new_block_refs (blockLeafRefs replacementRefs : gmap Z (list outcomeLeafReferenceV5)) (prefix : Z) : list outcomeLeafReferenceV5 :=
  let '(refs, seenPrefix) := fold_left (replace_ref replacementRefs) (default [] (blockLeafRefs !! prefix)) ([], ∅) in
  fold_left (fun refs kv => if decide (byte_prefix kv.1 = prefix /\ kv.1 ∉ seenPrefix) then refs ++ kv.2 else refs)
    (map_to_list replacementRefs) refs.

Definition replace_block (rootByPrefix : gmap Z outcomeBlockReferenceV5) (blockLeafRefs replacementRefs : gmap Z (list outcomeLeafReferenceV5))
    (st : gmap string OutcomeHashBlockV5 * gmap Z outcomeBlockReferenceV5) (prefix : Z) :
    result (gmap string OutcomeHashBlockV5 * gmap Z outcomeBlockReferenceV5) :=
  block_of prefix (new_block_refs blockLeafRefs replacementRefs prefix) ≫= fun block =>
  Ok (match rootByPrefix !! prefix with
      | Some old => if bool_decide (brDigest old = BlockSHA256 block) then st.1 else <[BlockSHA256 block := block]> st.1
      | None => <[BlockSHA256 block := block]> st.1 end,
      <[prefix := block_ref block]> st.2).

(** The root's references, the replaced ones exchanged, the new ones appended;
    and how many blocks did not change. *)
Definition replace_root_ref (replacements : gmap Z outcomeBlockReferenceV5) (st : list outcomeBlockReferenceV5 * gset Z * Z)
    (ref : outcomeBlockReferenceV5) : list outcomeBlockReferenceV5 * gset Z * Z :=
  let '(refs, seenBlock, reused) := st in
  match replacements !! brPrefix ref with
  | Some replacement =>
      (refs ++ [replacement], {[brPrefix ref]} ∪ seenBlock, if bool_decide (brDigest replacement = brDigest ref) then reused + 1 else reused)
  | None => (refs ++ [ref], seenBlock, reused + 1)
  end.

Definition block_le (a b : outcomeBlockReferenceV5) : Prop := brPrefix a <= brPrefix b.
#[export] Instance block_le_dec : RelDecision block_le.
Proof. intros a b. unfold block_le. apply _. Defined.

Definition new_root_refs (rootRefs : list outcomeBlockReferenceV5) (replacements : gmap Z outcomeBlockReferenceV5) :
    list outcomeBlockReferenceV5 * Z :=
  let '(refs, seenBlock, reused) := fold_left (replace_root_ref replacements) rootRefs ([], ∅, 0) in
  (merge_sort block_le
     (refs ++ flat_map (fun kv => if decide (kv.1 ∈ seenBlock) then [] else [kv.2]) (map_to_list replacements)), reused).

Definition union_with_root (st : ObjectStore) (root : OutcomeSetV5) (rootRefs : list outcomeBlockReferenceV5) (candidates : list bytes) :
    result (OutcomeHashSetObjectsV5 * list bytes * OutcomeRadixTelemetryV5) :=
  let byPrefix := group_candidates candidates in
  let touchedBlocks := touched_blocks candidates in
  let rootByPrefix := root_by_prefix rootRefs in
  load_blocks st rootByPrefix (requested_blocks touchedBlocks rootByPrefix) ≫= fun '(loadedBlocks, blockLeafRefs) =>
  let requested := requested_leaves byPrefix blockLeafRefs in
  load_leaves st requested ≫= fun '(loadedLeaves, hashesLoaded) =>
  let merged := fold_left (merge_prefix blockLeafRefs loadedLeaves) (map_to_list byPrefix) (MkMerge ∅ [] ∅) in
  let novel := sortOutcomeHashesV5 (ms_novel merged) in
  fold_res (replace_block rootByPrefix blockLeafRefs (ms_refs merged)) (∅, ∅) (elements touchedBlocks) ≫= fun '(changedBlocks, replacements) =>
  let '(newRootRefs, reused) := new_root_refs rootRefs replacements in
  set_of (wrap_int64 (Cardinality root + Z.of_nat (length novel))) newRootRefs ≫= fun set =>
  Ok (MkObjects set (ms_changed merged) changedBlocks None, novel,
      MkTelemetry (Cardinality root) (Z.of_nat (length candidates)) (Z.of_nat (size loadedBlocks)) (Z.of_nat (size loadedLeaves))
        hashesLoaded reused (Z.of_nat (size (ms_changed merged)))).

Definition differenceAndUnionV5Tx (st : ObjectStore) (rootDigest : string) (candidate : OutcomeCandidateV5) :
    result (OutcomeHashSetObjectsV5 * list bytes * OutcomeRadixTelemetryV5) :=
  let candidates := uniqueOutcomeHashesV5 (candHashes candidate) in
  if bool_decide (rootDigest = "") then
    buildOutcomeHashSetFromBinaryV5 candidates ≫= fun built =>
    Ok (built, candidates, MkTelemetry 0 (Z.of_nat (length candidates)) 0 0 0 0 (Z.of_nat (size (Leaves built))))
  else
    match set_rows st !! rootDigest with
    | None => Err ErrNoRows
    | Some row =>
        let root := scan_set rootDigest row in
        verifyOutcomeRootV5 root ≫= fun _ =>
        parseV5RootManifestReferences (RootManifest root) (Cardinality root) (BlockCount root) ≫= fun rootRefs =>
        union_with_root st root rootRefs candidates
    end.

End OutcomeRadix.
