(* ===== verification/OutcomeMerge.v ===== *)
(** * The merge of an outcome set with its candidates

    The part of [differenceAndUnionV5Tx] after its reads: with the references and
    members the root really has, replacing the touched prefixes, blocks and root
    references gives the graph of the union. *)

From S2P Require Import Prelude GoBytes Ordering GoText Sha256 FactId Witness OutcomeSet OutcomeLists OutcomeCodec OutcomeBuild OutcomeVerify OutcomeRadix.
Import GoText Sha256 OutcomeSet OutcomeLists OutcomeCodec OutcomeBuild OutcomeVerify OutcomeRadix.

Module OutcomeMerge.
#[local] Opaque sha256HexV5 seqZ.

(** ** Candidates by prefix *)
Lemma group_lookup C : forall (m : gmap Z (list bytes)) p, let m' := fold_left (fun byPrefix h => <[prefix_of h := default [] (byPrefix !! prefix_of h) ++ [h]]> byPrefix) C m in
  m' !! p = match at_prefix p C with [] => m !! p | l => Some (default [] (m !! p) ++ l) end.
Proof.
  induction C as [|h C IH]; intros m p; [done|]. cbn [fold_left]. cbv zeta in *. rewrite IH, at_prefix_cons. destruct (decide (prefix_of h = p)) as [<-|Hn].
  - rewrite lookup_insert_eq. destruct (at_prefix (prefix_of h) C) as [|k l]; [done|]. cbn [from_option]. unfold id. by rewrite <- app_assoc.
  - by rewrite lookup_insert_ne by done.
Qed.
Lemma group_candidates_lookup C p : group_candidates C !! p = slice_of (at_prefix p C).
Proof. unfold group_candidates. rewrite group_lookup, lookup_empty. by destruct (at_prefix p C). Qed.

Lemma at_prefix_nonempty p C : at_prefix p C <> [] <-> exists h, h ∈ C /\ prefix_of h = p.
Proof.
  split.
  - destruct (at_prefix p C) as [|h l] eqn:E; [done|]. intros _. exists h. assert (h ∈ at_prefix p C) as []%elem_at_prefix by (rewrite E; by left). done.
  - intros (h & Hh & Ep) E. assert (h ∈ at_prefix p C) as Hin by (by apply elem_at_prefix). rewrite E in Hin. by apply elem_of_nil in Hin.
Qed.

Lemma elem_groups C kv : kv ∈ map_to_list (group_candidates C) <-> kv.2 = at_prefix kv.1 C /\ kv.2 <> [].
Proof.
  destruct kv as [p l]. rewrite elem_of_map_to_list, group_candidates_lookup. cbn [fst snd]. destruct (at_prefix p C) as [|h t]; cbn.
  - split; [done|]. by intros [-> ?].
  - split; [by intros [= <-]|by intros [-> _]].
Qed.

Lemma elem_touched C b : b ∈ touched_blocks C <-> exists h, h ∈ C /\ byte_prefix (prefix_of h) = b.
Proof. unfold touched_blocks. rewrite elem_of_list_to_set, list_elem_of_fmap. naive_solver. Qed.

(** ** References of the root by prefix *)
Lemma root_by_prefix_lookup refs : NoDup (map brPrefix refs) -> forall ref, ref ∈ refs -> root_by_prefix refs !! brPrefix ref = Some ref.
Proof.
  unfold root_by_prefix. enough (forall m : gmap Z outcomeBlockReferenceV5, NoDup (map brPrefix refs) ->
    let m' := fold_left (fun m ref => <[brPrefix ref := ref]> m) refs m in
    (forall ref, ref ∈ refs -> m' !! brPrefix ref = Some ref) /\ (forall p, p ∉ map brPrefix refs -> m' !! p = m !! p)) as H by (intros Hnd; by apply (H ∅ Hnd)).
  induction refs as [|r refs IH]; intros m Hnd; [split; [by intros ref ?%elem_of_nil|done]|]. cbn [fold_left map] in *. inversion Hnd as [|? ? Hn Hnd']; subst.
  destruct (IH (<[brPrefix r := r]> m) Hnd') as [I1 I2]. split.
  - intros ref [->|Hr]%elem_of_cons; [|by apply I1]. rewrite I2 by done. apply lookup_insert_eq.
  - intros p Hp. rewrite elem_of_cons in Hp. rewrite I2 by tauto. apply lookup_insert_ne. intros E. apply Hp. by left.
Qed.
Lemma root_by_prefix_none refs p : p ∉ map brPrefix refs -> root_by_prefix refs !! p = None.
Proof.
  unfold root_by_prefix. enough (forall m : gmap Z outcomeBlockReferenceV5, p ∉ map brPrefix refs -> fold_left (fun m ref => <[brPrefix ref := ref]> m) refs m !! p = m !! p) as H
    by (intros Hp; by rewrite H by done).
  induction refs as [|r refs IH]; intros m Hp; [done|]. cbn [fold_left map] in *. rewrite elem_of_cons in Hp. rewrite IH by tauto.
  apply lookup_insert_ne. intros E. apply Hp. by left.
Qed.

Lemma root_prefixes M : map brPrefix (root_refs M) = filter (used M) (seqZ 0 256).
Proof. unfold root_refs, root_blocks. rewrite !map_map. apply map_id. Qed.
Lemma root_prefix_lookup M b : root_by_prefix (root_refs M) !! b =
  if decide (0 <= b < 256 /\ used M b) then Some (block_ref (the_block M b)) else None.
Proof.
  case_decide as Hd.
  - destruct Hd as [Hb Hu]. apply (root_by_prefix_lookup (root_refs M)) with (ref := block_ref (the_block M b)).
    + rewrite root_prefixes. apply NoDup_filter, NoDup_seqZ.
    + apply elem_root_refs. by exists b.
  - apply root_by_prefix_none. rewrite root_prefixes, list_elem_of_filter, elem_of_seqZ. intros [Hu Hb]. apply Hd. split; [lia|done].
Qed.

#[export] Instance block_le_total : Total block_le.
Proof. intros a b. unfold block_le. lia. Qed.
#[export] Instance block_le_trans : Transitive block_le.
Proof. intros a b c. unfold block_le. lia. Qed.
Lemma sort_blocks_unique refs sorted : StronglySorted (fun a b => brPrefix a < brPrefix b) sorted -> refs ≡ₚ sorted -> merge_sort block_le refs = sorted.
Proof. apply (sort_unique brPrefix block_le (fun a b => brPrefix a < brPrefix b)); unfold block_le; intros; lia. Qed.

(** ** The merge, given what the root holds *)
Section merge.
Context (M C : list bytes) (HM : members_ok M) (HC : members_ok C) (HN : members_ok (spec_union M C)).
Notation N := (spec_union M C).

Definition touched_prefix (p : Z) : Prop := at_prefix p C <> [].
#[local] Instance touched_prefix_dec p : Decision (touched_prefix p).
Proof. unfold touched_prefix. apply _. Defined.

Lemma elem_union h : h ∈ N <-> h ∈ M \/ h ∈ C.
Proof. unfold spec_union. by rewrite elem_unique, elem_of_app. Qed.

Lemma touched_range p : touched_prefix p -> 0 <= p < 65536.
Proof.
  intros (h & Hh & <-)%at_prefix_nonempty. apply prefix_range. pose proof (mo_hash C HC) as HF. rewrite Forall_forall in HF. auto.
Qed.
Lemma touched_block_prefix b : b ∈ touched_blocks C <-> exists p, touched_prefix p /\ byte_prefix p = b.
Proof.
  rewrite elem_touched. split.
  - intros (h & Hh & Eb). exists (prefix_of h). split; [|done]. apply at_prefix_nonempty. by exists h.
  - intros (p & (h & Hh & <-)%at_prefix_nonempty & Eb). by exists h.
Qed.
Lemma touched_block_range b : b ∈ touched_blocks C -> 0 <= b < 256.
Proof.
  intros (p & Hp%touched_range & <-)%touched_block_prefix. rewrite byte_prefix_div by done.
  split; [apply Z.div_pos; lia|apply Z.div_lt_upper_bound; lia].
Qed.

Lemma at_union p : at_prefix p N = (mergeOutcomeHashesV5 (at_prefix p M) (at_prefix p C)).1.
Proof.
  rewrite merged_union. apply strict_sorted_ext; [apply filter_sorted, HN|apply unique_sorted|].
  intros h. unfold spec_union at 2. rewrite elem_at_prefix, elem_union, elem_unique, elem_of_app, !elem_at_prefix. tauto.
Qed.
Lemma at_union_untouched p : ~ touched_prefix p -> at_prefix p N = at_prefix p M.
Proof.
  intros Hp. apply strict_sorted_ext; [apply filter_sorted, HN|apply filter_sorted, HM|]. intros h. rewrite !elem_at_prefix, elem_union.
  split; [|tauto]. intros [E [Hh|Hh]]; [done|]. destruct Hp. apply at_prefix_nonempty. by exists h.
Qed.
Lemma segment_untouched p : ~ touched_prefix p -> segment N p = segment M p.
Proof. intros Hp. unfold segment, leaves_at. by rewrite at_union_untouched. Qed.

Lemma segment_members p : 0 <= p < 65536 -> flat_map members_of (leaves_at M p) = at_prefix p M.
Proof.
  intros Hp. rewrite leaves_pieces. pose proof (pieces_concat (length (at_prefix p M)) 0 (at_prefix p M) (le_n _)) as E. fold (at_pieces M p) in E. rewrite <- E.
  pose proof (piece_good M p) as Hg. clear E. induction (at_pieces M p) as [|[c hs] ps IH]; [done|]. cbn [map flat_map concat fst snd].
  rewrite members_of_leaf by (apply Hg; [done|done|by left]). f_equal. apply IH. intros c' hs' _ _ Hin. apply Hg; [done|done|by right].
Qed.

(** What was read: the references of every touched block, and the payload of
    every leaf of a touched prefix. *)
Context (blockLeafRefs : gmap Z (list outcomeLeafReferenceV5)) (loaded : gmap string OutcomeHashLeafV5).
Context (Hrefs : forall b, b ∈ touched_blocks C -> default [] (blockLeafRefs !! b) = block_refs M b).
Context (Hloaded : forall p l, touched_prefix p -> l ∈ leaves_at M p -> loaded_members loaded (LeafSHA256 l) = members_of l).

Lemma prefix_byte p : 0 <= p < 65536 -> 0 <= byte_prefix p < 256 /\ 256 * byte_prefix p <= p < 256 * byte_prefix p + 256.
Proof.
  intros Hp. rewrite byte_prefix_div by done. pose proof (Z.div_mod p 256 ltac:(lia)) as E. pose proof (Z.mod_pos_bound p 256 ltac:(lia)).
  split; [|lia]. split; [apply Z.div_pos; lia|apply Z.div_lt_upper_bound; lia].
Qed.

Lemma filter_segment p : 0 <= p < 65536 -> filter (fun ref => lrPrefix16 ref = p) (block_refs M (byte_prefix p)) = segment M p.
Proof.
  intros Hp. pose proof (prefix_byte p Hp) as [_ Hr]. rewrite block_refs_segments. set (b := byte_prefix p) in *.
  assert (forall ps, filter (fun ref => lrPrefix16 ref = p) (flat_map (segment M) ps) = flat_map (fun q => if decide (q = p) then segment M q else []) ps) as E.
  { induction ps as [|q ps IH]; [done|]. cbn [flat_map]. rewrite filter_app, IH. f_equal. case_decide as Eq.
    - subst. apply filter_all. intros r Hr'. by apply (segment_prefix M).
    - apply filter_none. intros r Hr' Ep. apply Eq. rewrite <- Ep. symmetry. by apply (segment_prefix M). }
  rewrite E, <- (flat_map_filter _ (fun q => q = p)) by (intros q _ Hq; by rewrite decide_False).
  assert (filter (fun q => q = p) (seqZ (256 * b) 256) = [p]) as ->.
  { apply (strongly_sorted_ext Z.lt); [lia|lia|apply filter_sorted, seqZ_sorted|constructor; constructor|].
    intros x. rewrite list_elem_of_filter, elem_of_seqZ, list_elem_of_singleton. lia. }
  cbn [flat_map]. by rewrite decide_True, app_nil_r.
Qed.

Lemma prefix_refs_segment p : touched_prefix p -> prefix_refs blockLeafRefs p = segment M p.
Proof.
  intros Hp. unfold prefix_refs. rewrite Hrefs; [apply filter_segment, touched_range, Hp|]. apply touched_block_prefix. by exists p.
Qed.

Lemma old_members p : touched_prefix p ->
  flat_map (fun ref => loaded_members loaded (lrDigest ref)) (segment M p) = at_prefix p M.
Proof.
  intros Hp. rewrite <- (segment_members p (touched_range p Hp)). pose proof (fun l => Hloaded p l Hp) as Hl. unfold segment.
  induction (leaves_at M p) as [|l ls IH]; [done|]. cbn [map flat_map]. rewrite <- Hl by (by left). f_equal. apply IH. intros k Hk. apply Hl. by right.
Qed.

(** *** One prefix after another *)
Definition changes (p : Z) (changed : gmap string OutcomeHashLeafV5) : gmap string OutcomeHashLeafV5 :=
  fold_left (fun changed leaf => if decide (LeafSHA256 leaf ∈ map lrDigest (segment M p)) then changed else <[LeafSHA256 leaf := leaf]> changed)
    (leaves_at N p) changed.

Lemma merge_prefix_spec st p : touched_prefix p ->
  merge_prefix blockLeafRefs loaded st (p, at_prefix p C) =
    MkMerge (changes p (ms_changed st)) (ms_novel st ++ spec_novel (at_prefix p M) (at_prefix p C)) (<[p := segment N p]> (ms_refs st)).
Proof.
  intros Hp. unfold merge_prefix. rewrite prefix_refs_segment, old_members by done.
  pose proof (at_union p) as E1. pose proof (merged_new (at_prefix p M) (at_prefix p C)) as E2.
  destruct (mergeOutcomeHashesV5 (at_prefix p M) (at_prefix p C)) as [u n]. cbn [fst snd] in *. subst u n. done.
Qed.

Definition merged : merge_state := fold_left (merge_prefix blockLeafRefs loaded) (map_to_list (group_candidates C)) (MkMerge ∅ [] ∅).

Lemma merge_fold kvs : (forall kv, kv ∈ kvs -> kv ∈ map_to_list (group_candidates C)) -> forall st,
  fold_left (merge_prefix blockLeafRefs loaded) kvs st =
    MkMerge (fold_left (fun changed kv => changes kv.1 changed) kvs (ms_changed st))
      (ms_novel st ++ flat_map (fun kv => spec_novel (at_prefix kv.1 M) (at_prefix kv.1 C)) kvs)
      (fold_left (fun refs kv => <[kv.1 := segment N kv.1]> refs) kvs (ms_refs st)).
Proof.
  induction kvs as [|[p l] kvs IH]; intros Hin st; [cbn; rewrite app_nil_r; by destruct st|]. cbn [fold_left flat_map fst].
  destruct (proj1 (elem_groups C (p, l)) (Hin (p, l) ltac:(by left))) as [El Hl]. cbn [fst snd] in El, Hl. subst l.
  rewrite merge_prefix_spec by done. rewrite IH by (intros kv Hkv; apply Hin; by right). cbn [ms_changed ms_novel ms_refs]. by rewrite <- app_assoc.
Qed.

Lemma merged_refs p : ms_refs merged !! p = if decide (touched_prefix p) then Some (segment N p) else None.
Proof.
  unfold merged. rewrite merge_fold by done. cbn [ms_refs].
  assert (forall kvs (m : gmap Z (list outcomeLeafReferenceV5)), fold_left (fun refs (kv : Z * list bytes) => <[kv.1 := segment N kv.1]> refs) kvs m !! p =
    if decide (p ∈ map fst kvs) then Some (segment N p) else m !! p) as E.
  { induction kvs as [|kv kvs IH]; intros m; [done|]. cbn [fold_left map]. rewrite IH.
    destruct (decide (p ∈ map fst kvs)) as [Hi|Hi]; [by rewrite decide_True by (by right)|].
    destruct (decide (p = kv.1)) as [->|Hn]; [rewrite decide_True by (by left); apply lookup_insert_eq|].
    rewrite decide_False by (rewrite elem_of_cons; tauto). by apply lookup_insert_ne. }
  rewrite E, lookup_empty. apply decide_ext. rewrite list_elem_of_fmap. setoid_rewrite elem_groups. split.
  - intros ([q l] & -> & El & Hl). cbn in *. by subst.
  - intros Hp. by exists (p, at_prefix p C).
Qed.

Lemma merged_novel : sortOutcomeHashesV5 (ms_novel merged) = spec_novel M C.
Proof.
  unfold merged. rewrite merge_fold by done. cbn [ms_novel app]. unfold sortOutcomeHashesV5.
  assert (StronglySorted clt (spec_novel M C)) as Hs by (apply filter_sorted, unique_sorted).
  apply go_sort_unique; [by apply strict_sorted|]. apply NoDup_Permutation.
  - by apply nodup_of_strict.
  - assert (NoDup (map fst (map_to_list (group_candidates C)))) as Hnd by apply NoDup_fst_map_to_list. revert Hnd.
    induction (map_to_list (group_candidates C)) as [|kv kvs IH]; intros Hnd; [constructor|]. cbn [map flat_map] in *. inversion Hnd as [|? ? Hn Hnd']; subst.
    apply NoDup_app. split; [apply nodup_of_strict, filter_sorted, unique_sorted|]. split; [|by apply IH].
    intros h Hh (kv' & Hkv & Hh')%Witness.elem_flat_map. unfold spec_novel in Hh, Hh'. rewrite list_elem_of_filter, elem_unique, elem_at_prefix in Hh, Hh'.
    destruct Hh as [_ [E _]%elem_at_prefix], Hh' as [_ [E' _]%elem_at_prefix]. apply Hn. rewrite <- E, E'. by apply list_elem_of_fmap_2.
  - intros h. rewrite Witness.elem_flat_map. unfold spec_novel. rewrite list_elem_of_filter, elem_unique. setoid_rewrite elem_groups.
    setoid_rewrite list_elem_of_filter. setoid_rewrite elem_unique. setoid_rewrite elem_at_prefix. split.
    + intros [Hn Hh]. exists (prefix_of h, at_prefix (prefix_of h) C). cbn [fst snd]. split; [split; [done|]; apply at_prefix_nonempty; by exists h|]. tauto.
    + intros (kv & _ & Hn & E & Hh). split; [|done]. intros Hm. by apply Hn.
Qed.

(** *** The references of a touched block *)
Definition untouched_ref (ref : outcomeLeafReferenceV5) : Prop := ~ touched_prefix (lrPrefix16 ref).
#[local] Instance untouched_ref_dec ref : Decision (untouched_ref ref).
Proof. unfold untouched_ref. apply _. Defined.

Lemma replace_fold old : forall acc (seen : gset Z), exists ps,
  (fold_left (replace_ref (ms_refs merged)) old (acc, seen)).1 ≡ₚ acc ++ filter untouched_ref old ++ flat_map (segment N) ps /\
  (fold_left (replace_ref (ms_refs merged)) old (acc, seen)).2 = list_to_set ps ∪ seen /\
  NoDup ps /\ (forall p, p ∈ ps -> p ∉ seen /\ touched_prefix p /\ exists ref, ref ∈ old /\ lrPrefix16 ref = p) /\
  (forall ref, ref ∈ old -> touched_prefix (lrPrefix16 ref) -> lrPrefix16 ref ∈ ps \/ lrPrefix16 ref ∈ seen).
Proof.
  induction old as [|ref old IH]; intros acc seen.
  { exists []. cbn. rewrite app_nil_r. split; [done|]. split; [set_solver|]. split; [constructor|]. split; [by intros p ?%elem_of_nil|by intros r ?%elem_of_nil]. }
  cbn [fold_left]. unfold replace_ref at 2 4. rewrite merged_refs. destruct (decide (touched_prefix (lrPrefix16 ref))) as [Ht|Ht].
  - rewrite filter_cons_False by (intros H; by apply H). destruct (decide (lrPrefix16 ref ∈ seen)) as [Hs|Hs].
    + destruct (IH acc seen) as (ps & I1 & I2 & I3 & I4 & I5). exists ps. split; [done|]. split; [done|]. split; [done|]. split.
      * intros p Hp. destruct (I4 p Hp) as (? & ? & r & Hr & ?). split; [done|]. split; [done|]. exists r. split; [by right|done].
      * intros r [->|Hr]%elem_of_cons Hr'; [by right|by apply I5].
    + destruct (IH (acc ++ segment N (lrPrefix16 ref)) ({[lrPrefix16 ref]} ∪ seen)) as (ps & I1 & I2 & I3 & I4 & I5). exists (lrPrefix16 ref :: ps).
      split; [rewrite I1; cbn [flat_map]; solve_Permutation|]. split; [rewrite I2; cbn [list_to_set]; set_solver|]. split; [|split].
      * constructor; [|done]. intros Hp. destruct (I4 _ Hp) as [Hn _]. set_solver.
      * intros p [->|Hp]%elem_of_cons; [split; [done|]; split; [done|]; exists ref; split; [by left|done]|].
        destruct (I4 p Hp) as (Hn & ? & r & Hr & ?). split; [set_solver|]. split; [done|]. exists r. split; [by right|done].
      * intros r [->|Hr]%elem_of_cons Hr'; [left; by left|]. destruct (I5 r Hr Hr') as [Hp|Hp]; [left; by right|]. apply elem_of_union in Hp as [->%elem_of_singleton|]; [left; by left|by right].
  - rewrite filter_cons_True by done. destruct (IH (acc ++ [ref]) seen) as (ps & I1 & I2 & I3 & I4 & I5). exists ps.
    split; [rewrite I1; solve_Permutation|]. split; [done|]. split; [done|]. split.
    + intros p Hp. destruct (I4 p Hp) as (? & ? & r & Hr & ?). split; [done|]. split; [done|]. exists r. split; [by right|done].
    + intros r [->|Hr]%elem_of_cons Hr'; [done|by apply I5].
Qed.

Lemma append_fold b (seen : gset Z) (kvs : list (Z * list outcomeLeafReferenceV5)) : forall refs,
  (forall kv, kv ∈ kvs -> kv.2 = segment N kv.1) ->
  fold_left (fun refs kv => if decide (byte_prefix kv.1 = b /\ kv.1 ∉ seen) then refs ++ kv.2 else refs) kvs refs =
    refs ++ flat_map (segment N) (filter (fun p => byte_prefix p = b /\ p ∉ seen) (map fst kvs)).
Proof.
  induction kvs as [|kv kvs IH]; intros refs Hkv; [cbn; by rewrite app_nil_r|]. cbn [fold_left map]. rewrite IH by (intros k Hk; apply Hkv; by right).
  rewrite filter_cons, (Hkv kv) by (by left). case_decide; [cbn [flat_map]; by rewrite <- app_assoc|done].
Qed.

Lemma split_filter {A} (P : A -> Prop) `{!forall x, Decision (P x)} (l : list A) : l ≡ₚ filter P l ++ filter (fun x => ~ P x) l.
Proof.
  induction l as [|x l IH]; [done|]. rewrite !filter_cons. destruct (decide (P x)) as [Hx|Hx].
  - rewrite decide_False by (intros Hn; by apply Hn). cbn [app]. by rewrite <- IH.
  - rewrite decide_True by done. rewrite <- Permutation_middle. by rewrite <- IH.
Qed.

Lemma untouched_segments ps : filter untouched_ref (flat_map (segment M) ps) = flat_map (segment N) (filter (fun p => ~ touched_prefix p) ps).
Proof.
  induction ps as [|p l IH]; [done|]. cbn [flat_map]. rewrite filter_app, IH, filter_cons. destruct (decide (touched_prefix p)) as [Ht|Ht].
  - rewrite decide_False by (intros Hn; by apply Hn). rewrite filter_none; [done|]. intros r Hin Hu. unfold untouched_ref in Hu. by rewrite (segment_prefix _ _ _ Hin) in Hu.
  - rewrite decide_True by done. rewrite filter_all by (intros r Hin; unfold untouched_ref; by rewrite (segment_prefix _ _ _ Hin)). cbn [flat_map].
    by rewrite segment_untouched.
Qed.

Lemma new_refs_perm b : b ∈ touched_blocks C -> new_block_refs blockLeafRefs (ms_refs merged) b ≡ₚ block_refs N b.
Proof.
  intros Hb. pose proof (touched_block_range b Hb) as Hr. unfold new_block_refs. rewrite Hrefs by done.
  destruct (replace_fold (block_refs M b) [] ∅) as (ps & I1 & I2 & I3 & I4 & I5). destruct (fold_left _ _ _) as [refs seen]. cbn [fst snd app] in *. subst seen.
  set (kvs := map_to_list (ms_refs merged)).
  assert (forall kv, kv ∈ kvs -> kv.2 = segment N kv.1 /\ touched_prefix kv.1) as Hkvs.
  { intros [p l] Hk%elem_of_map_to_list. rewrite merged_refs in Hk. cbn. case_decide; [|done]. by injection Hk as <-. }
  rewrite append_fold by (intros kv Hk; by apply Hkvs).
  set (qs := filter _ (map fst kvs)). rewrite I1, <- app_assoc, <- flat_map_app.
  assert (NoDup (map fst kvs)) as Hnd by apply NoDup_fst_map_to_list.
  assert (forall p, 256 * b <= p < 256 * b + 256 -> byte_prefix p = b) as Hbyte.
  { intros p Hp. rewrite byte_prefix_div by lia. symmetry. apply (Z.div_unique _ _ _ (p - 256 * b)); lia. }
  assert (ps ++ qs ≡ₚ filter touched_prefix (seqZ (256 * b) 256)) as Hpq.
  { apply NoDup_Permutation.
    - apply NoDup_app. split; [done|]. split; [|by apply NoDup_filter]. intros p Hp Hq. unfold qs in Hq. apply list_elem_of_filter in Hq as [[_ Hq] _]. set_solver.
    - apply NoDup_filter, NoDup_seqZ.
    - intros p. rewrite elem_of_app, list_elem_of_filter, elem_of_seqZ. split.
      + intros [Hp|Hp].
        * destruct (I4 p Hp) as (_ & Ht & ref & Hin & <-). split; [done|]. rewrite block_refs_segments in Hin.
          apply Witness.elem_flat_map in Hin as (q & Hq%elem_of_seqZ & Hin). rewrite (segment_prefix _ _ _ Hin). lia.
        * unfold qs in Hp. apply list_elem_of_filter in Hp as [[Eb _] (kv & -> & Hk)%list_elem_of_fmap]. destruct (Hkvs kv Hk) as [_ Ht]. split; [done|].
          pose proof (prefix_byte _ (touched_range _ Ht)). lia.
      + intros [Ht Hp]. destruct (decide (p ∈ ps)) as [|Hn]; [by left|right]. unfold qs. apply list_elem_of_filter. split; [split; [apply Hbyte; lia|set_solver]|].
        apply list_elem_of_fmap. exists (p, segment N p). split; [done|]. apply elem_of_map_to_list. by rewrite merged_refs, decide_True. }
  rewrite Hpq, (block_refs_segments N b).
  assert (flat_map (segment N) (seqZ (256 * b) 256) ≡ₚ flat_map (segment N) (filter touched_prefix (seqZ (256 * b) 256)) ++
            flat_map (segment N) (filter (fun p => ~ touched_prefix p) (seqZ (256 * b) 256))) as ->.
  { rewrite <- flat_map_app. apply Permutation_flat_map, split_filter. }
  assert (filter untouched_ref (block_refs M b) = flat_map (segment N) (filter (fun p => ~ touched_prefix p) (seqZ (256 * b) 256))) as ->; [|apply Permutation_app_comm].
  rewrite block_refs_segments. apply untouched_segments.
Qed.

(** *** Blocks *)
Lemma touched_used b : b ∈ touched_blocks C -> used N b.
Proof.
  intros (h & Hh & Eb)%elem_touched. unfold used. rewrite block_refs_segments. intros E.
  assert (touched_prefix (prefix_of h)) as Ht by (apply at_prefix_nonempty; by exists h). pose proof (prefix_byte _ (touched_range _ Ht)) as [_ Hr]. rewrite Eb in Hr.
  assert (h ∈ N) as Hn by (apply elem_union; by right).
  assert (segment N (prefix_of h) = []) as Es.
  { destruct (segment N (prefix_of h)) as [|r l] eqn:Er; [done|]. destruct (not_elem_of_nil r). rewrite <- E. apply Witness.elem_flat_map. exists (prefix_of h).
    split; [apply elem_of_seqZ; lia|rewrite Er; by left]. }
  pose proof (sum_at N (prefix_of h)) as Hs. fold (segment N (prefix_of h)) in Hs. rewrite Es in Hs. cbn in Hs.
  assert (h ∈ at_prefix (prefix_of h) N) as Hin by (by apply elem_at_prefix). destruct (at_prefix (prefix_of h) N); [by apply elem_of_nil in Hin|cbn in Hs; lia].
Qed.

Lemma blocks_fold rootByPrefix bs : (forall b, b ∈ bs -> b ∈ touched_blocks C) -> forall st, exists K,
  fold_res (replace_block rootByPrefix blockLeafRefs (ms_refs merged)) st bs =
    Ok (K, fold_left (fun m b => <[b := block_ref (the_block N b)]> m) bs st.2) /\
  (forall d blk, K !! d = Some blk -> st.1 !! d = Some blk \/ exists b, b ∈ bs /\ blk = the_block N b /\ d = BlockSHA256 blk) /\
  (forall b, b ∈ bs -> is_Some (K !! BlockSHA256 (the_block N b)) \/ exists old, rootByPrefix !! b = Some old /\ brDigest old = BlockSHA256 (the_block N b)) /\
  (forall d, is_Some (st.1 !! d) -> is_Some (K !! d)).
Proof.
  induction bs as [|b bs IH]; intros Hbs st.
  { exists st.1. destruct st. cbn. split; [done|]. split; [by left|]. split; [by intros b ?%elem_of_nil|done]. }
  pose proof (Hbs b ltac:(by left)) as Hb.
  set (st' := match rootByPrefix !! b with
      | Some old => if bool_decide (brDigest old = BlockSHA256 (the_block N b)) then st.1 else <[BlockSHA256 (the_block N b) := the_block N b]> st.1
      | None => <[BlockSHA256 (the_block N b) := the_block N b]> st.1 end).
  assert (replace_block rootByPrefix blockLeafRefs (ms_refs merged) st b = Ok (st', <[b := block_ref (the_block N b)]> st.2)) as Estep.
  { unfold replace_block. rewrite (block_of_refs N b); [done|done|by apply touched_block_range|by apply new_refs_perm]. }
  cbn [fold_res fold_left]. rewrite Estep. cbn [mbind result_bind].
  destruct (IH (fun c Hc => Hbs c ltac:(by right)) (st', <[b := block_ref (the_block N b)]> st.2)) as (K & I1 & I2 & I3 & I4). exists K. cbn [fst snd] in *.
  assert (st' = <[BlockSHA256 (the_block N b) := the_block N b]> st.1 \/ st' = st.1 /\ exists old, rootByPrefix !! b = Some old /\ brDigest old = BlockSHA256 (the_block N b)) as Hst.
  { unfold st'. destruct (rootByPrefix !! b) as [old|]; [|by left]. case_bool_decide; [right; split; [done|by exists old]|by left]. }
  split; [exact I1|]. split; [|split].
  - intros d blk [Hd|(c & Hc & ? & ?)]%I2; [|right; exists c; split; [by right|done]]. destruct Hst as [->|[-> _]]; [|by left].
    apply lookup_insert_Some in Hd as [[<- <-]|[_ Hd]]; [right; exists b; split; [by left|done]|by left].
  - intros c [->|Hc]%elem_of_cons; [|by apply I3]. destruct Hst as [E|[_ Hold]]; [left|by right]. apply I4. rewrite E, lookup_insert_eq. by eexists.
  - intros d Hd. apply I4. destruct Hst as [->|[-> _]]; [|done]. destruct (decide (BlockSHA256 (the_block N b) = d)) as [<-|Hn]; [rewrite lookup_insert_eq; by eexists|by rewrite lookup_insert_ne].
Qed.

(** *** The root *)
Definition replaced (replacements : gmap Z outcomeBlockReferenceV5) : Prop := forall b,
  replacements !! b = if decide (b ∈ touched_blocks C) then Some (block_ref (the_block N b)) else None.

Lemma replacements_spec bs : (forall b, b ∈ bs <-> b ∈ touched_blocks C) -> replaced (fold_left (fun m b => <[b := block_ref (the_block N b)]> m) bs ∅).
Proof.
  intros Hbs b. rewrite <- (decide_ext _ _ _ _ (Hbs b)).
  enough (forall m : gmap Z outcomeBlockReferenceV5, fold_left (fun m b => <[b := block_ref (the_block N b)]> m) bs m !! b =
    if decide (b ∈ bs) then Some (block_ref (the_block N b)) else m !! b) as E by (by rewrite E, lookup_empty).
  clear Hbs. induction bs as [|c bs IH]; intros m; [done|]. cbn [fold_left]. rewrite IH.
  destruct (decide (b ∈ bs)) as [Hi|Hi]; [by rewrite decide_True by (by right)|].
  destruct (decide (b = c)) as [->|Hn]; [rewrite decide_True by (by left); apply lookup_insert_eq|].
  rewrite decide_False by (rewrite elem_of_cons; tauto). by apply lookup_insert_ne.
Qed.

Lemma untouched_block b : 0 <= b < 256 -> b ∉ touched_blocks C -> block_refs N b = block_refs M b.
Proof.
  intros Hr Hb. rewrite !block_refs_segments. apply flat_map_eq. intros p Hp%elem_of_seqZ. apply segment_untouched. intros Ht. apply Hb, touched_block_prefix.
  exists p. split; [done|]. rewrite byte_prefix_div by lia. symmetry. apply (Z.div_unique _ _ _ (p - 256 * b)); lia.
Qed.
Lemma untouched_the_block b : 0 <= b < 256 -> b ∉ touched_blocks C -> the_block N b = the_block M b.
Proof. intros Hr Hb. unfold the_block. by rewrite untouched_block. Qed.

Lemma used_union b : 0 <= b < 256 -> used N b <-> used M b \/ b ∈ touched_blocks C.
Proof.
  intros Hr. destruct (decide (b ∈ touched_blocks C)) as [Ht|Ht].
  - pose proof (touched_used b Ht). tauto.
  - unfold used. rewrite untouched_block by done. tauto.
Qed.

Lemma replace_root_fold replacements : replaced replacements -> forall rs acc seen reused, (forall r, r ∈ rs -> exists b, 0 <= b < 256 /\ r = block_ref (the_block M b)) ->
  exists n, fold_left (replace_root_ref replacements) rs (acc, seen, reused) =
    (acc ++ map (fun r => block_ref (the_block N (brPrefix r))) rs, list_to_set (filter (fun b => b ∈ touched_blocks C) (rev (map brPrefix rs))) ∪ seen, n).
Proof.
  intros Hrep. induction rs as [|r rs IH]; intros acc seen reused Hrs.
  { exists reused. cbn. rewrite app_nil_r. f_equal. f_equal. set_solver. }
  destruct (Hrs r ltac:(by left)) as (b & Hb & ->). cbn [fold_left map rev]. unfold replace_root_ref at 2. rewrite (Hrep (brPrefix (block_ref (the_block M b)))).
  change (brPrefix (block_ref (the_block M b))) with b. rewrite filter_app. destruct (decide (b ∈ touched_blocks C)) as [Ht|Ht].
  - destruct (IH (acc ++ [block_ref (the_block N b)]) ({[b]} ∪ seen) (if bool_decide (brDigest (block_ref (the_block N b)) = brDigest (block_ref (the_block M b))) then reused + 1 else reused)
      (fun r Hr => Hrs r ltac:(by right))) as [n E]. exists n. rewrite E, <- app_assoc. f_equal. f_equal. rewrite filter_cons_True, filter_nil by done.
    apply leibniz_equiv. rewrite list_to_set_app. cbn [list_to_set]. set_solver.
  - destruct (IH (acc ++ [block_ref (the_block M b)]) seen (reused + 1) (fun r Hr => Hrs r ltac:(by right))) as [n E]. exists n.
    rewrite E, <- app_assoc. rewrite untouched_the_block by done. f_equal. f_equal. rewrite filter_cons_False, filter_nil, app_nil_r by done. done.
Qed.

Lemma flat_map_if {A B} (f : A -> B) (P : A -> Prop) `{!forall x, Decision (P x)} (l : list A) :
  flat_map (fun x => if decide (P x) then [] else [f x]) l = map f (filter (fun x => ~ P x) l).
Proof.
  induction l as [|x l IH]; [done|]. cbn [flat_map]. rewrite IH, filter_cons. destruct (decide (P x)) as [Hx|Hx].
  - by rewrite decide_False by (intros Hn; by apply Hn).
  - by rewrite decide_True.
Qed.

Lemma new_root_refs_spec replacements : replaced replacements -> exists reused, new_root_refs (root_refs M) replacements = (root_refs N, reused).
Proof.
  intros Hrep. unfold new_root_refs.
  destruct (replace_root_fold replacements Hrep (root_refs M) [] ∅ 0) as [n ->].
  { intros r (b & Hb & _ & ->)%elem_root_refs. by exists b. }
  exists n. f_equal. apply sort_blocks_unique; [by apply root_refs_sorted|].
  set (seen := list_to_set _ ∪ _). cbn [app].
  assert (map (fun r => block_ref (the_block N (brPrefix r))) (root_refs M) = map (fun b => block_ref (the_block N b)) (filter (used M) (seqZ 0 256))) as ->.
  { rewrite <- root_prefixes, map_map. done. }
  assert (flat_map (fun kv : Z * outcomeBlockReferenceV5 => if decide (kv.1 ∈ seen) then [] else [kv.2]) (map_to_list replacements) =
    map (fun b => block_ref (the_block N b)) (filter (fun b => b ∉ seen) (map fst (map_to_list replacements)))) as ->.
  { assert (forall kv, kv ∈ map_to_list replacements -> kv.2 = block_ref (the_block N kv.1)) as Hkv.
    { intros [b r] Hb%elem_of_map_to_list. rewrite Hrep in Hb. case_decide; [|done]. by injection Hb as <-. }
    induction (map_to_list replacements) as [|kv kvs IH]; [done|]. cbn [flat_map map]. rewrite filter_cons, IH by (intros k Hk; apply Hkv; by right).
    rewrite (Hkv kv) by (by left). destruct (decide (kv.1 ∈ seen)) as [Hs|Hs]; [rewrite decide_False by (intros Hn; by apply Hn); done|by rewrite decide_True]. }
  rewrite <- map_app. unfold root_refs, root_blocks. rewrite map_map. apply Permutation_map.
  assert (forall b, b ∈ map fst (map_to_list replacements) <-> b ∈ touched_blocks C) as Hkeys.
  { intros b. rewrite list_elem_of_fmap. split.
    - intros ([c r] & -> & Hc%elem_of_map_to_list). rewrite Hrep in Hc. by case_decide.
    - intros Hb. exists (b, block_ref (the_block N b)). split; [done|]. apply elem_of_map_to_list. by rewrite Hrep, decide_True. }
  assert (forall b, b ∈ seen <-> b ∈ touched_blocks C /\ 0 <= b < 256 /\ used M b) as Hseen.
  { intros b. unfold seen. rewrite elem_of_union, elem_of_list_to_set, list_elem_of_filter, root_prefixes.
    assert (forall (l : list Z) x, x ∈ rev l <-> x ∈ l) as Hrev by (intros l x; rewrite !list_elem_of_In; symmetry; apply in_rev).
    rewrite Hrev, list_elem_of_filter, elem_of_seqZ. rewrite elem_of_empty. split; [intros [|]; [|done]|intros; left]; split; [tauto| |tauto|]; split; try tauto; lia. }
  apply NoDup_Permutation.
  - apply NoDup_app. split; [apply NoDup_filter, NoDup_seqZ|]. split; [|apply NoDup_filter, NoDup_fst_map_to_list].
    intros b [Hu Hb%elem_of_seqZ]%list_elem_of_filter [Hs Hk]%list_elem_of_filter. apply Hs, Hseen. split; [by apply Hkeys|]. split; [lia|done].
  - apply NoDup_filter, NoDup_seqZ.
  - intros b. rewrite elem_of_app, !list_elem_of_filter, Hkeys, Hseen, !elem_of_seqZ. split.
    + intros [[Hu Hb]|[_ Ht]]; [split; [apply used_union; [lia|by left]|done]|].
      pose proof (touched_block_range b Ht). split; [by apply touched_used|lia].
    + intros [Hu Hb]. apply used_union in Hu; [|lia]. destruct (decide (used M b)) as [|Hn]; [by left|right]. split; [|tauto]. tauto.
Qed.

(** *** The leaves that changed *)
Lemma leaf_in_union p l : 0 <= p < 65536 -> l ∈ leaves_at N p -> l ∈ all_leaves N.
Proof.
  intros Hp Hl. apply elem_all_leaves. pose proof (prefix_byte p Hp) as [Hb Hr]. exists (byte_prefix p). split; [done|].
  unfold block_leaves. apply Witness.elem_flat_map. exists p. rewrite elem_of_seqZ. split; [lia|done].
Qed.

Lemma changes_spec p (m : gmap string OutcomeHashLeafV5) :
  (forall d l, changes p m !! d = Some l -> m !! d = Some l \/ l ∈ leaves_at N p /\ d = LeafSHA256 l) /\
  (forall d, is_Some (m !! d) -> is_Some (changes p m !! d)) /\
  (forall l, l ∈ leaves_at N p -> is_Some (changes p m !! LeafSHA256 l) \/ LeafSHA256 l ∈ map lrDigest (segment M p)).
Proof.
  unfold changes. revert m. induction (leaves_at N p) as [|x ls IH]; intros m; [split; [by left|]; split; [done|by intros l ?%elem_of_nil]|].
  cbn [fold_left]. destruct (decide (LeafSHA256 x ∈ map lrDigest (segment M p))) as [Hx|Hx].
  - destruct (IH m) as (I1 & I2 & I3). split; [|split; [done|]].
    + intros d l [Hd|[Hl ->]]%I1; [by left|right; split; [by right|done]].
    + intros l [->|Hl]%elem_of_cons; [by right|by apply I3].
  - destruct (IH (<[LeafSHA256 x := x]> m)) as (I1 & I2 & I3). split; [|split].
    + intros d l [Hd|[Hl ->]]%I1; [|right; split; [by right|done]]. apply lookup_insert_Some in Hd as [[<- <-]|[_ Hd]]; [right; split; [by left|done]|by left].
    + intros d Hd. apply I2. destruct (decide (LeafSHA256 x = d)) as [<-|]; [rewrite lookup_insert_eq; by eexists|by rewrite lookup_insert_ne].
    + intros l [->|Hl]%elem_of_cons; [left; apply I2; rewrite lookup_insert_eq; by eexists|by apply I3].
Qed.

Lemma changed_spec :
  (forall d l, ms_changed merged !! d = Some l -> l ∈ all_leaves N /\ d = LeafSHA256 l) /\
  (forall l, l ∈ all_leaves N -> is_Some (ms_changed merged !! LeafSHA256 l) \/ exists k, k ∈ all_leaves M /\ LeafSHA256 k = LeafSHA256 l).
Proof.
  unfold merged. rewrite merge_fold by done. cbn [ms_changed].
  assert (forall kvs (m : gmap string OutcomeHashLeafV5), let m' := fold_left (fun changed (kv : Z * list bytes) => changes kv.1 changed) kvs m in
    (forall d l, m' !! d = Some l -> m !! d = Some l \/ exists p, p ∈ map fst kvs /\ l ∈ leaves_at N p /\ d = LeafSHA256 l) /\
    (forall d, is_Some (m !! d) -> is_Some (m' !! d)) /\
    (forall p l, p ∈ map fst kvs -> l ∈ leaves_at N p -> is_Some (m' !! LeafSHA256 l) \/ LeafSHA256 l ∈ map lrDigest (segment M p))) as H.
  { induction kvs as [|kv kvs IH]; intros m; cbn [fold_left map]; [split; [by left|]; split; [done|by intros p l ?%elem_of_nil]|].
    destruct (IH (changes kv.1 m)) as (I1 & I2 & I3). destruct (changes_spec kv.1 m) as (C1 & C2 & C3). cbv zeta. split; [|split].
    - intros d l [Hd|(p & Hp & Hl)]%I1; [|right; exists p; split; [by right|done]]. apply C1 in Hd as [Hd|Hd]; [by left|]. right. exists kv.1. split; [by left|done].
    - intros d Hd. by apply I2, C2.
    - intros p l [->|Hp]%elem_of_cons Hl; [|by apply I3]. destruct (C3 l Hl) as [Hs|Hs]; [left; by apply I2|by right]. }
  destruct (H (map_to_list (group_candidates C)) ∅) as (H1 & _ & H3). clear H.
  assert (forall p, p ∈ map fst (map_to_list (group_candidates C)) <-> touched_prefix p) as Hkeys.
  { intros p. rewrite list_elem_of_fmap. setoid_rewrite elem_groups. split; [intros ([q l] & -> & El & Hl); cbn in *; by subst|intros Hp; by exists (p, at_prefix p C)]. }
  split.
  - intros d l [Hd|(p & Hp%Hkeys & Hl & ->)]%H1; [by rewrite lookup_empty in Hd|]. split; [|done]. by apply (leaf_in_union p); [apply touched_range|].
  - intros l (b & Hb & Hl)%elem_all_leaves. unfold block_leaves in Hl. apply Witness.elem_flat_map in Hl as (p & Hp%elem_of_seqZ & Hl).
    assert (forall k, k ∈ leaves_at M p -> k ∈ all_leaves M) as HinM.
    { intros k Hk. apply elem_all_leaves. exists b. split; [done|]. unfold block_leaves. apply Witness.elem_flat_map. exists p. rewrite elem_of_seqZ. split; [lia|done]. }
    destruct (decide (touched_prefix p)) as [Ht|Ht].
    + destruct (H3 p l (proj2 (Hkeys p) Ht) Hl) as [|(r & Er & (k & -> & Hk)%list_elem_of_fmap)%list_elem_of_fmap]; [by left|right]. exists k. split; [by apply HinM|by rewrite Er].
    + right. exists l. split; [|done]. apply HinM. unfold leaves_at in *. by rewrite at_union_untouched in Hl.
Qed.

(** *** The number of members *)
Lemma union_length : Z.of_nat (length M) + Z.of_nat (length (spec_novel M C)) = Z.of_nat (length N).
Proof.
  rewrite <- Nat2Z.inj_add, <- length_app. f_equal. by apply Permutation_length, union_split, mo_sorted.
Qed.
End merge.

End OutcomeMerge.
