(* ===== verification/OutcomeLoad.v ===== *)
(** * Authenticated reads of an outcome set

    [differenceAndUnionV5Tx] trusts a digest and nothing else: whatever the tables
    hold, the references and leaves it accepts are those of the set the digest
    names, unless two texts collide. *)

From S2P Require Import Prelude GoBytes Ordering GoText Sha256 FactId Witness OutcomeSet OutcomeLists OutcomeCodec OutcomeBuild OutcomeVerify OutcomeRadix OutcomeMerge.
Import GoText Sha256 OutcomeSet OutcomeLists OutcomeCodec OutcomeBuild OutcomeVerify OutcomeRadix OutcomeMerge.

Module OutcomeLoad.
#[local] Opaque sha256HexV5 seqZ.

(** The texts in the tables. *)
Definition store_texts (st : ObjectStore) : list bytes :=
  map row_payload (map_values (leaf_rows st)) ++ map row_manifest (map_values (block_rows st)) ++ map row_root_manifest (map_values (set_rows st)).

(** A store that holds the graph of a set. *)
Definition holds (st : ObjectStore) (M : list bytes) : Prop :=
  set_rows st !! SetSHA256 (the_set M) = Some (set_row (the_set M)) /\
  (forall b, b ∈ root_blocks M -> block_rows st !! BlockSHA256 b = Some (block_row b)) /\
  (forall l, l ∈ all_leaves M -> leaf_rows st !! LeafSHA256 l = Some (leaf_row l)).

Definition with_sums (xs : list bytes) : list (bytes * bytes) := map (fun x => (x, Sum256 x)) xs.

Lemma collides_sums xs ys : collides xs ys <-> Exists (fun a => Exists (fun b => a.1 <> b.1 /\ a.2 = b.2) (with_sums ys)) (with_sums xs).
Proof.
  rewrite Exists_exists. setoid_rewrite Exists_exists. split.
  - intros (x & y & Hx & Hy & E). exists (x, Sum256 x). split; [by apply (list_elem_of_fmap_2 (fun x => (x, Sum256 x)))|].
    exists (y, Sum256 y). split; [by apply (list_elem_of_fmap_2 (fun x => (x, Sum256 x)))|done].
  - intros (a & (x & -> & Hx)%list_elem_of_fmap & b & (y & -> & Hy)%list_elem_of_fmap & E). exists x, y. done.
Qed.

(** Each text is hashed once. *)
#[export] Instance collides_dec xs ys : Decision (collides xs ys).
Proof.
  refine (let sx := with_sums xs in let sy := with_sums ys in
    cast_if (decide (Exists (fun a => Exists (fun b => a.1 <> b.1 /\ a.2 = b.2) sy) sx))); rewrite collides_sums; assumption.
Defined.

Lemma no_collision xs : ~ collides xs xs -> forall x y, x ∈ xs -> y ∈ xs -> sha256HexV5 x = sha256HexV5 y -> x = y.
Proof. intros Hn x y Hx Hy E. by destruct (sha_eq x y xs Hx Hy E). Qed.

Lemma select_any_lookup {A} (rows : gmap string A) ds d x : (d, x) ∈ select_any rows ds <-> rows !! d = Some x /\ d ∈ ds.
Proof. unfold select_any. by rewrite elem_of_map_to_list, map_lookup_filter_Some. Qed.

Lemma block_sha M b : BlockSHA256 (the_block M b) = sha256HexV5 (Manifest (the_block M b)).
Proof. reflexivity. Qed.

Section reads.
Context (M C : list bytes) (HM : members_ok M) (HC : members_ok C) (st : ObjectStore) (xs : list bytes).
Context (nocoll : forall x y, x ∈ xs -> y ∈ xs -> sha256HexV5 x = sha256HexV5 y -> x = y).
Context (HxM : all_texts M ⊆ xs) (Hxst : store_texts st ⊆ xs).
Notation byPrefix := (root_by_prefix (root_refs M)).
Notation touched := (touched_blocks C).

Lemma texts_in t : t ∈ texts M -> t ∈ xs.
Proof. intros Ht. apply HxM. by right. Qed.
Lemma payload_in d r : leaf_rows st !! d = Some r -> row_payload r ∈ xs.
Proof. intros Hr. apply Hxst, elem_of_app. left. apply list_elem_of_fmap_2, elem_map_values. by exists d. Qed.
Lemma manifest_in d r : block_rows st !! d = Some r -> row_manifest r ∈ xs.
Proof. intros Hr. apply Hxst, elem_of_app. right. apply elem_of_app. left. apply list_elem_of_fmap_2, elem_map_values. by exists d. Qed.
Lemma root_in d r : set_rows st !! d = Some r -> row_root_manifest r ∈ xs.
Proof. intros Hr. apply Hxst, elem_of_app. right. apply elem_of_app. right. apply list_elem_of_fmap_2, elem_map_values. by exists d. Qed.

(** ** The root *)
Lemma root_authentic row : set_rows st !! SetSHA256 (the_set M) = Some row ->
  verifyOutcomeRootV5 (scan_set (SetSHA256 (the_set M)) row) = Ok tt -> scan_set (SetSHA256 (the_set M)) row = the_set M.
Proof.
  intros Hrow Hv. unfold verifyOutcomeRootV5 in Hv. apply fail_if_bind_ok in Hv as [Hg Hv]. apply bind_ok in Hv as (refs & Hp & _).
  rewrite !orb_false_iff, negb_false_iff, bool_decide_eq_true in Hg. destruct Hg as [_ Hd]. cbn [scan_set RootManifest SetSHA256 Cardinality BlockCount the_set] in *.
  apply nocoll in Hd; [|by apply (root_in _ _ Hrow)|apply HxM; by left]. apply parse_root_inv in Hp as (Hb & Hn & Hok & Hs & Hc).
  rewrite Hd in Hb. unfold the_root in Hb. apply (root_bytes_inj (root_refs_good M HM) Hok) in Hb as Er. subst refs.
  unfold scan_set, the_set. rewrite Hd, Hn, <- Hs. by rewrite sum_root.
Qed.

(** ** Blocks *)
Definition needed : list Z := filter (fun b => 0 <= b < 256 /\ used M b) (elements touched).

Lemma requested_needed : requested_blocks touched byPrefix = map (fun b => BlockSHA256 (the_block M b)) needed.
Proof.
  unfold requested_blocks, needed. induction (elements touched) as [|b bs IH]; [done|]. cbn [omap list_omap]. rewrite root_prefix_lookup, filter_cons.
  case_decide; cbn [fmap option_fmap option_map map]; by rewrite IH.
Qed.

Lemma elem_needed b : b ∈ needed <-> b ∈ touched /\ 0 <= b < 256 /\ used M b.
Proof. unfold needed. rewrite list_elem_of_filter, elem_of_elements. tauto. Qed.
Lemma needed_nodup : NoDup needed.
Proof. apply NoDup_filter, NoDup_elements. Qed.

Lemma block_digest_inj b c : 0 <= b < 256 -> 0 <= c < 256 -> used M b -> used M c -> BlockSHA256 (the_block M b) = BlockSHA256 (the_block M c) -> b = c.
Proof.
  intros Hb Hc Hub Huc E. rewrite !block_sha in E. apply nocoll in E; [|by apply texts_in, block_text..].
  apply (the_block_eq M b c HM Hb Hc) in E. by apply (f_equal Prefix8) in E.
Qed.

Definition blocks_read (s : gmap Z OutcomeHashBlockV5 * gmap Z (list outcomeLeafReferenceV5)) : Prop :=
  (forall b, is_Some (s.1 !! b) <-> is_Some (s.2 !! b)) /\
  (forall b refs, s.2 !! b = Some refs -> b ∈ needed /\ refs = block_refs M b).

Lemma nothing_read : blocks_read (∅, ∅).
Proof. split; cbn [fst snd]; [intros b; rewrite !lookup_empty; split; by intros [? ?]|]. intros b refs Hb. by rewrite lookup_empty in Hb. Qed.

Lemma load_block_sound s kv s' : kv ∈ select_any (block_rows st) (requested_blocks touched byPrefix) ->
  blocks_read s -> load_block byPrefix s kv = Ok s' -> blocks_read s'.
Proof.
  destruct kv as [d row]. intros [Hrow Hd]%select_any_lookup [H1 H2] Hl. unfold load_block in Hl. cbn [fst snd] in Hl.
  apply fail_if_bind_ok in Hl as [Hg Hl]. apply bind_ok in Hl as (refs & Hp & <-%Ok_inj).
  set (block := scan_block d row) in *. rewrite root_prefix_lookup in Hg. destruct (decide (0 <= Prefix8 block < 256 /\ used M (Prefix8 block))) as [[Hr Hu]|]; [|done].
  rewrite !orb_false_iff, !negb_false_iff, !bool_decide_eq_true, Z.eqb_eq in Hg. destruct Hg as [[Hd1 Hc] Hd2]. cbn [block_ref brDigest brCardinality] in *.
  rewrite requested_needed in Hd. apply list_elem_of_fmap in Hd as (b & Eb & (Hb & Hbr & Hbu)%elem_needed). change (BlockSHA256 block) with d in *.
  rewrite Eb in Hd1. apply block_digest_inj in Hd1; [|done..]. 
  assert (Manifest block = Manifest (the_block M (Prefix8 block))) as Em.
  { apply nocoll; [by apply (manifest_in _ _ Hrow)|by apply texts_in, block_text|]. rewrite Hd2, Eb, <- Hd1. done. }
  rewrite Em, <- Hc, block_parses in Hp by done. apply Ok_inj in Hp as <-. split; cbn [fst snd].
  - intros c. destruct (decide (Prefix8 block = c)) as [<-|Hn]; [rewrite !lookup_insert_eq; split; by eexists|by rewrite !lookup_insert_ne].
  - intros c refs Hc'. apply lookup_insert_Some in Hc' as [[<- <-]|[_ Hc']]; [|by apply H2]. split; [|done]. apply elem_needed. by rewrite Hd1.
Qed.

Lemma load_blocks_sound loaded refs : load_blocks st byPrefix (requested_blocks touched byPrefix) = Ok (loaded, refs) ->
  forall b, b ∈ touched -> default [] (refs !! b) = block_refs M b.
Proof.
  intros Hl b Hb. assert (0 <= b < 256) as Hr by (by apply (touched_block_range C HC)).
  assert (blocks_read (loaded, refs) /\ size loaded = length needed) as [[H1 H2] Hs].
  { unfold load_blocks in Hl. destruct (requested_blocks touched byPrefix) as [|d ds] eqn:E.
    - rewrite requested_needed in E. apply Ok_inj in Hl as [= <- <-]. apply map_eq_nil in E as ->. split; [apply nothing_read|done].
    - rewrite <- E in Hl. apply bind_ok in Hl as (s & Hf & Hl). apply fail_if_bind_ok in Hl as [Hg [= ->]]. cbn [fst] in Hg.
      apply negb_false_iff, Nat.eqb_eq in Hg. rewrite requested_needed, length_map in Hg. split; [|done].
      eapply fold_res_inv; [|apply nothing_read|exact Hf]. intros s kv s' Hkv. by apply load_block_sound. }
  cbn [fst snd] in *.
  assert (dom loaded ≡ list_to_set (C := gset Z) needed) as Hdom.
  { assert (dom loaded ⊆ list_to_set (C := gset Z) needed) as Hsub.
    { intros c. rewrite elem_of_dom, elem_of_list_to_set, H1. by intros [r [? _]%H2]. }
    apply set_subseteq_size_equiv; [done|]. rewrite size_dom, size_list_to_set by apply needed_nodup. lia. }
  destruct (refs !! b) as [r|] eqn:Er; [by apply H2 in Er as [_ ->]|]. cbn [default from_option].
  destruct (decide (used M b)) as [Hu|Hu]; [exfalso|by apply not_used].
  assert (b ∈ dom loaded) as Hin by (rewrite Hdom, elem_of_list_to_set; by apply elem_needed).
  apply elem_of_dom, H1 in Hin as [? ?]. congruence.
Qed.

(** ** Leaves *)
Section leaves.
Context (refs : gmap Z (list outcomeLeafReferenceV5)) (Hrefs : forall b, b ∈ touched -> default [] (refs !! b) = block_refs M b).
Notation wanted := (requested_leaves (group_candidates C) refs).

Lemma leaf_of_segment p l : 0 <= p < 65536 -> l ∈ leaves_at M p -> l ∈ all_leaves M.
Proof.
  intros Hp Hl. pose proof (prefix_byte p Hp) as [Hb Hr]. apply elem_all_leaves. exists (byte_prefix p). split; [done|].
  unfold block_leaves. apply Witness.elem_flat_map. exists p. rewrite elem_of_seqZ. split; [lia|done].
Qed.

Lemma leaf_digest_inj l k : l ∈ all_leaves M -> k ∈ all_leaves M -> LeafSHA256 l = LeafSHA256 k -> l = k.
Proof.
  intros Hl Hk E. pose proof (all_leaves_wf M HM) as HF. rewrite Forall_forall in HF. rewrite !leaf_wf_digest in E by auto.
  apply leaf_wf_eq; [auto|auto|]. apply nocoll; [by apply texts_in, leaf_text..|done].
Qed.

Lemma digest_map_lookup (rs : list outcomeLeafReferenceV5) : (forall a b, a ∈ rs -> b ∈ rs -> lrDigest a = lrDigest b -> a = b) -> forall d r,
  fold_left (fun m ref => <[lrDigest ref := ref]> m) rs (∅ : gmap string outcomeLeafReferenceV5) !! d = Some r <-> r ∈ rs /\ lrDigest r = d.
Proof.
  intros Hinj d r. enough (forall m : gmap string outcomeLeafReferenceV5, fold_left (fun m ref => <[lrDigest ref := ref]> m) rs m !! d = Some r <->
    (r ∈ rs /\ lrDigest r = d) \/ (forall a, a ∈ rs -> lrDigest a <> d) /\ m !! d = Some r) as E.
  { rewrite E, lookup_empty. split; [intros [|[_ [=]]]; done|by left]. }
  induction rs as [|a rs IH]; intros m; cbn [fold_left].
  { split; [intros Hm; right; split; [by intros a ?%elem_of_nil|done]|]. intros [[?%elem_of_nil _]|[_ Hm]]; done. }
  rewrite IH by (intros x y Hx Hy; apply Hinj; by right). setoid_rewrite elem_of_cons. rewrite lookup_insert_Some. split.
  - intros [[Hr Hd]|[Hn [[Hd <-]|[Hd Hm]]]]; [left; split; [by right|done]|left; split; [by left|done]|]. right. split; [|done]. intros b [->|Hb]; [done|by apply Hn].
  - intros [[[->|Hr] Hd]|[Hn Hm]].
    + destruct (decide (Exists (fun b => lrDigest b = d) rs)) as [(b & Hb & Eb)%Exists_exists|He].
      * left. rewrite (Hinj a b) by (by left || by right || congruence). done.
      * right. split; [|by left]. intros b Hb Eb. apply He, Exists_exists. by exists b.
    + by left.
    + right. split; [intros b Hb; apply Hn; by right|]. right. split; [apply Hn; by left|done].
Qed.

Lemma wanted_lookup d r : wanted !! d = Some r <-> (exists p l, touched_prefix C p /\ l ∈ leaves_at M p /\ r = leaf_ref l) /\ lrDigest r = d.
Proof.
  unfold requested_leaves. set (rs := flat_map _ _).
  assert (forall r, r ∈ rs <-> exists p l, touched_prefix C p /\ l ∈ leaves_at M p /\ r = leaf_ref l) as Hrs.
  { intros a. unfold rs. rewrite Witness.elem_flat_map. setoid_rewrite elem_groups. split.
    - intros ([p cs] & [-> Hne] & Ha). cbn [fst snd] in *. rewrite (prefix_refs_segment M C HC) in Ha by done.
      apply list_elem_of_fmap in Ha as (l & -> & Hl). by exists p, l.
    - intros (p & l & Ht & Hl & ->). exists (p, at_prefix p C). split; [done|]. cbn [fst]. rewrite (prefix_refs_segment M C HC) by done. by apply list_elem_of_fmap_2. }
  rewrite digest_map_lookup, Hrs; [done|]. intros a b (p & l & Hp%(touched_range C HC) & Hl & ->)%Hrs (q & k & Hq%(touched_range C HC) & Hk & ->)%Hrs E.
  f_equal. apply leaf_digest_inj; [by apply (leaf_of_segment p)|by apply (leaf_of_segment q)|done].
Qed.

Definition leaves_read (s : gmap string OutcomeHashLeafV5 * Z) : Prop :=
  forall d l, s.1 !! d = Some l -> is_Some (wanted !! d) /\ sha256HexV5 (Payload l) = d /\ Payload l ∈ xs.

Lemma load_leaf_sound s kv s' ds : kv ∈ select_any (leaf_rows st) ds -> leaves_read s -> load_leaf wanted s kv = Ok s' -> leaves_read s'.
Proof.
  destruct kv as [d row]. intros [Hrow _]%select_any_lookup Hs Hl. unfold load_leaf in Hl. cbn [fst snd] in Hl.
  change (LeafSHA256 (scan_leaf d row)) with d in Hl. destruct (wanted !! d) as [ref|] eqn:Ew; [|done]. destruct (leaf_decodes _) as [hs|]; [|done].
  apply fail_if_bind_ok in Hl as [Hg <-%Ok_inj]. rewrite !orb_false_iff, !negb_false_iff, bool_decide_eq_true in Hg.
  intros c l Hc. cbn [fst] in Hc. apply lookup_insert_Some in Hc as [[<- <-]|[_ Hc]]; [|by apply Hs]. split; [by eexists|]. split; [tauto|]. by apply (payload_in _ _ Hrow).
Qed.

Lemma load_leaves_sound loaded n : load_leaves st wanted = Ok (loaded, n) ->
  forall p l, touched_prefix C p -> l ∈ leaves_at M p -> loaded_members loaded (LeafSHA256 l) = members_of l.
Proof.
  intros Hl p l Hp Hin. assert (is_Some (wanted !! LeafSHA256 l)) as Hw.
  { exists (leaf_ref l). apply wanted_lookup. split; [by exists p, l|done]. }
  unfold load_leaves in Hl. destruct (bool_decide_reflect (wanted = ∅)) as [E|_]; [rewrite E, lookup_empty in Hw; by destruct Hw|].
  apply bind_ok in Hl as (s & Hf & Hl). apply fail_if_bind_ok in Hl as [Hg [= ->]]. cbn [fst] in Hg. apply negb_false_iff, Nat.eqb_eq in Hg.
  assert (leaves_read (loaded, n)) as HR.
  { assert (leaves_read (∅, 0)) as H0 by (intros d x Hd; cbn [fst] in Hd; by rewrite lookup_empty in Hd).
    eapply fold_res_inv; [|exact H0|exact Hf]. intros s kv s' Hkv. by apply (load_leaf_sound _ _ _ _ Hkv). }
  assert (dom loaded = dom wanted) as Hdom by (apply map_dom_eq; [intros d [x Hx]; apply (HR d x Hx)|done]).
  apply elem_of_dom in Hw. rewrite <- Hdom in Hw. apply elem_of_dom in Hw as [k Hk]. destruct (HR _ _ Hk) as (_ & Hd & Hx).
  pose proof (touched_range C HC p Hp) as Hr. pose proof (leaf_of_segment p l Hr Hin) as Hall.
  pose proof (all_leaves_wf M HM) as HF. rewrite Forall_forall in HF. specialize (HF l Hall).
  assert (Payload k = Payload l) as Ep by (apply nocoll; [done|by apply texts_in, leaf_text|by rewrite Hd, <- leaf_wf_digest]).
  unfold loaded_members. rewrite Hk. cbn [from_option]. rewrite Ep. destruct HF as (q & c & hs & -> & Hgood). rewrite members_of_leaf by done.
  cbn [leaf_of Payload]. by rewrite decode_leaf_canonical.
Qed.
End leaves.

(** ** A store that holds the graph is read *)
Lemma fold_total {A S} (f : S -> A -> result S) (Q : S -> A -> Prop) l :
  (forall s x, x ∈ l -> exists s', f s x = Ok s' /\ Q s' x /\ forall y, Q s y -> Q s' y) ->
  forall s, exists s', fold_res f s l = Ok s' /\ (forall x, x ∈ l -> Q s' x) /\ forall y, Q s y -> Q s' y.
Proof.
  induction l as [|x l IH]; intros Hf s; [exists s; split; [done|]; split; [by intros x ?%elem_of_nil|done]|]. cbn [fold_res].
  destruct (Hf s x ltac:(by left)) as (s1 & -> & H1 & H2). destruct (IH (fun s y Hy => Hf s y ltac:(by right)) s1) as (s2 & E & H3 & H4).
  exists s2. cbn [mbind result_bind]. split; [done|]. split; [|auto]. intros y [->|Hy]%elem_of_cons; auto.
Qed.

Section held.
Context (Hst : holds st M).

Lemma int32_id z : 0 <= z < 2 ^ 31 -> int32 z = z.
Proof. intros Hz. unfold int32. rewrite Z.mod_small by lia. lia. Qed.

Lemma scan_block_row b : 0 <= b < 256 -> scan_block (BlockSHA256 (the_block M b)) (block_row (the_block M b)) = the_block M b.
Proof. intros Hb. unfold scan_block, block_row. cbn [row_prefix8 row_block_cardinality row_manifest the_block Prefix8]. rewrite int32_id, Z.mod_small by lia. done. Qed.

Lemma needed_row b : b ∈ needed -> block_rows st !! BlockSHA256 (the_block M b) = Some (block_row (the_block M b)).
Proof.
  intros (_ & Hb & Hu)%elem_needed. apply Hst. unfold root_blocks. apply list_elem_of_fmap_2, list_elem_of_filter. rewrite elem_of_seqZ. split; [done|lia].
Qed.

Lemma load_blocks_total : exists loaded refs, load_blocks st byPrefix (requested_blocks touched byPrefix) = Ok (loaded, refs).
Proof.
  unfold load_blocks. destruct (requested_blocks touched byPrefix) as [|d0 ds0] eqn:E; [by exists ∅, ∅|]. rewrite <- E. clear d0 ds0 E.
  set (rows := select_any (block_rows st) (requested_blocks touched byPrefix)).
  assert (forall kv, kv ∈ rows -> exists b, b ∈ needed /\ kv = (BlockSHA256 (the_block M b), block_row (the_block M b))) as Hrows.
  { intros [d row] [Hrow Hd]%select_any_lookup. rewrite requested_needed in Hd. apply list_elem_of_fmap in Hd as (b & -> & Hb). exists b. split; [done|].
    rewrite needed_row in Hrow by done. by injection Hrow as <-. }
  destruct (fold_total (load_block byPrefix) (fun s kv => is_Some (s.1 !! Prefix8 (scan_block kv.1 kv.2))) rows) with (s := (∅ : gmap Z OutcomeHashBlockV5, ∅ : gmap Z (list outcomeLeafReferenceV5)))
    as (s & Hf & HQ & _).
  { intros s kv Hkv. destruct (Hrows kv Hkv) as (b & (_ & Hb & Hu)%elem_needed & ->). cbn [fst snd]. unfold load_block. cbn [fst snd]. rewrite scan_block_row by done.
    change (Prefix8 (the_block M b)) with b. rewrite root_prefix_lookup, decide_True by done. rewrite fail_bind.
    - rewrite block_parses by done. cbn [mbind result_bind]. eexists. split; [done|]. cbn [fst]. split; [rewrite lookup_insert_eq; by eexists|].
      intros y Hy. destruct (decide (b = Prefix8 (scan_block y.1 y.2))) as [<-|]; [rewrite lookup_insert_eq; by eexists|by rewrite lookup_insert_ne].
    - cbn [block_ref brDigest brCardinality]. rewrite bool_decide_eq_true_2, Z.eqb_refl, bool_decide_eq_true_2 by done. done. }
  assert (blocks_read s) as [H1 H2]. { eapply fold_res_inv; [|apply nothing_read|exact Hf]. intros s0 kv s' Hkv. by apply load_block_sound. }
  rewrite Hf. cbn [mbind result_bind].
  assert (dom s.1 ≡ list_to_set (C := gset Z) needed) as Hdom.
  { intros b. rewrite elem_of_dom, elem_of_list_to_set. split; [rewrite H1; by intros [r [? _]%H2]|]. intros Hb.
    assert ((BlockSHA256 (the_block M b), block_row (the_block M b)) ∈ rows) as Hin.
    { apply select_any_lookup. split; [by apply needed_row|]. rewrite requested_needed. apply list_elem_of_fmap. by exists b. }
    specialize (HQ _ Hin). cbn [fst snd] in HQ. apply elem_needed in Hb as (_ & Hb & _). by rewrite scan_block_row in HQ. }
  rewrite fail_bind; [destruct s as [l r]; by exists l, r|]. apply negb_false_iff, Nat.eqb_eq. rewrite requested_needed, length_map, <- size_dom, Hdom.
  apply size_list_to_set, needed_nodup.
Qed.

Lemma leaf_row_scan p c hs : good_leaf p c hs -> c < 2 ^ 31 -> scan_leaf (LeafSHA256 (leaf_of p c hs)) (leaf_row (leaf_of p c hs)) = leaf_of p c hs /\ raw_leaf (leaf_row (leaf_of p c hs)) = true.
Proof.
  intros Hg Hc. pose proof Hg as (Hp & Hc0 & Hn & HF & _). unfold scan_leaf, leaf_row, raw_leaf. cbn [row_prefix16 row_chunk row_cardinality row_codec row_payload row_size leaf_of Prefix16 ChunkIndex leafCardinality Payload LeafSHA256].
  rewrite !int32_id by lia. rewrite !Z.mod_small by lia. split; [done|]. rewrite bool_decide_eq_true_2 by done.
  assert (bytes_len (canonicalOutcomeLeafV5 p c hs) < 2 ^ 31).
  { unfold bytes_len, canonicalOutcomeLeafV5, be_uint16, be_uint32. rewrite !length_app, !length_be_bytes, length_concat32 by done. cbn [length outcomeLeafDomainV5]. change (length outcomeLeafDomainV5) with 22%nat. lia. }
  rewrite int32_id by (unfold bytes_len in *; lia). by rewrite Z.eqb_refl.
Qed.

Lemma chunk_small p l : 0 <= p < 65536 -> l ∈ leaves_at M p -> exists c hs, l = leaf_of p c hs /\ good_leaf p c hs /\ c < 2 ^ 31.
Proof.
  intros Hp Hl. destruct (leaf_good M p l HM Hp Hl) as (c & hs & Hc & -> & Hg). exists c, hs. split; [done|]. split; [done|].
  destruct (at_prefix_ok M p HM) as (_ & _ & Hn). destruct (pieces_chunks (length (at_prefix p M)) 0 (at_prefix p M) (le_n _) ltac:(lia) ltac:(lia)) as [E Hlen].
  pose proof (list_elem_of_fmap_2 fst _ _ Hc) as Hin. unfold at_pieces in Hin. change (fst <$> ?x) with (map fst x) in Hin. cbn [fst] in Hin. rewrite E, elem_of_seqZ in Hin.
  pose proof (mo_size M HM). assert (length (at_prefix p M) <= length M)%nat by (unfold at_prefix; apply length_filter_le). lia.
Qed.

Lemma load_leaves_total refs : (forall b, b ∈ touched -> default [] (refs !! b) = block_refs M b) ->
  exists loaded n, load_leaves st (requested_leaves (group_candidates C) refs) = Ok (loaded, n).
Proof.
  intros Hrefs. set (wanted := requested_leaves _ _). unfold load_leaves. case_bool_decide as E; [by exists ∅, 0|].
  set (rows := select_any _ _).
  assert (forall d, is_Some (wanted !! d) -> exists p c hs, leaf_of p c hs ∈ all_leaves M /\ good_leaf p c hs /\ c < 2 ^ 31 /\ d = LeafSHA256 (leaf_of p c hs) /\ wanted !! d = Some (leaf_ref (leaf_of p c hs))) as Hwanted.
  { intros d [r Hr]. pose proof Hr as Hr'. apply (wanted_lookup refs Hrefs) in Hr as ((p & l & Hp & Hl & ->) & Hd). pose proof (touched_range C HC p Hp) as Hrange.
    pose proof (leaf_of_segment p l Hrange Hl) as Hall. destruct (chunk_small p l Hrange Hl) as (c & hs & -> & Hg & Hc). exists p, c, hs. split; [done|]. split; [done|]. split; [done|]. split; [by symmetry|done]. }
  assert (forall kv, kv ∈ rows -> exists p c hs, good_leaf p c hs /\ c < 2 ^ 31 /\ kv = (LeafSHA256 (leaf_of p c hs), leaf_row (leaf_of p c hs)) /\ wanted !! kv.1 = Some (leaf_ref (leaf_of p c hs))) as Hrows.
  { intros [d row] [Hrow Hd]%select_any_lookup. apply list_elem_of_fmap in Hd as ([d' r] & -> & Hr%elem_of_map_to_list). cbn [fst] in *.
    destruct (Hwanted d' ltac:(by eexists)) as (p & c & hs & Hall & Hg & Hc & Ed & Ew). exists p, c, hs. split; [done|]. split; [done|]. split; [|done].
    rewrite Ed in *. destruct Hst as (_ & _ & Hleaves). rewrite Hleaves in Hrow by done. by injection Hrow as <-. }
  destruct (fold_total (load_leaf wanted) (fun s kv => is_Some (s.1 !! kv.1)) rows) with (s := (∅ : gmap string OutcomeHashLeafV5, 0)) as (s & Hf & HQ & _).
  { intros s kv Hkv. destruct (Hrows kv Hkv) as (p & c & hs & Hg & Hc & -> & Ew). destruct (leaf_row_scan p c hs Hg Hc) as [Es Er]. unfold load_leaf. cbn [fst snd] in *.
    rewrite Es, Ew, leaf_decodes_of, Er by done. rewrite fail_bind.
    - eexists. split; [done|]. cbn [fst]. split; [rewrite lookup_insert_eq; by eexists|]. intros y Hy.
      destruct (decide (LeafSHA256 (leaf_of p c hs) = y.1)) as [<-|]; [rewrite lookup_insert_eq; by eexists|by rewrite lookup_insert_ne].
    - cbn [leaf_ref lrPrefix16 lrChunk lrCardinality]. by rewrite !Z.eqb_refl, bool_decide_eq_true_2. }
  assert (leaves_read refs s) as HR.
  { assert (leaves_read refs (∅, 0)) as H0 by (intros d x Hd; cbn [fst] in Hd; by rewrite lookup_empty in Hd).
    eapply fold_res_inv; [|exact H0|exact Hf]. intros s0 kv s' Hkv. by apply (load_leaf_sound _ _ _ _ _ Hkv). }
  rewrite Hf. cbn [mbind result_bind].
  assert (dom s.1 ≡ dom wanted) as Hdom.
  { intros d. rewrite !elem_of_dom. split; [intros [x Hx]; apply (HR d x Hx)|]. intros Hd. destruct (Hwanted d Hd) as (p & c & hs & Hall & Hg & Hc & Ed & Ew).
    assert ((d, leaf_row (leaf_of p c hs)) ∈ rows) as Hin.
    { apply select_any_lookup. split; [rewrite Ed; by apply Hst|]. apply list_elem_of_fmap. exists (d, leaf_ref (leaf_of p c hs)). split; [done|]. by apply elem_of_map_to_list. }
    exact (HQ _ Hin). }
  rewrite fail_bind; [destruct s as [l n]; by exists l, n|]. apply negb_false_iff, Nat.eqb_eq. by rewrite <- !size_dom, Hdom.
Qed.
End held.
End reads.

End OutcomeLoad.
