(* ===== verification/OutcomeStore.v ===== *)
(** * Outcome sets: the transaction as a whole

    The value of [differenceAndUnionV5Tx], what [persistV5SetObjectsTx] leaves in
    the tables, and the two in sequence. *)

From S2P Require Import Prelude GoBytes Ordering GoText Sha256 FactId Witness OutcomeSet OutcomeLists OutcomeCodec OutcomeBuild OutcomeVerify OutcomeRadix OutcomeMerge OutcomeLoad.
Import GoText Sha256 OutcomeSet OutcomeLists OutcomeCodec OutcomeBuild OutcomeVerify OutcomeRadix OutcomeMerge OutcomeLoad.

Module OutcomeStore.
Lemma sha_same x y : Sum256 x = Sum256 y -> sha256HexV5 x = sha256HexV5 y.
Proof. intros E. unfold sha256HexV5, hex_sum. by rewrite E. Qed.

#[local] Opaque sha256HexV5 seqZ.

(** The objects a step submits: parts of the new graph, and all of it that the
    old graph does not have. *)
Record extends (M N : list bytes) (leaves : gmap string OutcomeHashLeafV5) (blocks : gmap string OutcomeHashBlockV5) : Prop := {
  ext_leaf d l : leaves !! d = Some l -> l ∈ all_leaves N /\ d = LeafSHA256 l;
  ext_leaves l : l ∈ all_leaves N -> is_Some (leaves !! LeafSHA256 l) \/ exists k, k ∈ all_leaves M /\ LeafSHA256 k = LeafSHA256 l;
  ext_block d b : blocks !! d = Some b -> b ∈ root_blocks N /\ d = BlockSHA256 b;
  ext_blocks b : b ∈ root_blocks N -> is_Some (blocks !! BlockSHA256 b) \/ exists c, c ∈ root_blocks M /\ BlockSHA256 c = BlockSHA256 b;
}.

Lemma elem_root_blocks M x : x ∈ root_blocks M <-> exists b, 0 <= b < 256 /\ used M b /\ x = the_block M b.
Proof.
  unfold root_blocks. rewrite list_elem_of_fmap. setoid_rewrite list_elem_of_filter. setoid_rewrite elem_of_seqZ. split.
  - intros (b & -> & Hu & Hb). exists b. split; [lia|done].
  - intros (b & Hb & Hu & ->). exists b. split; [done|]. split; [done|lia].
Qed.

Lemma graph_extends M o : graph_of M o -> extends [] M (Leaves o) (Blocks o).
Proof.
  intros (_ & HL & HK & _). split.
  - intros d l [Hl <-]%HL. done.
  - intros l Hl. left. exists l. by apply HL.
  - intros d b [Hb <-]%HK. done.
  - intros b Hb. left. exists b. by apply HK.
Qed.

Lemma set_digest_nonempty M : SetSHA256 (the_set M) <> "".
Proof.
  cbn [the_set SetSHA256]. destruct (sha_good (the_root M)) as (b & Hb & E). rewrite E. intros E'. apply (f_equal String.length) in E'.
  rewrite length_hex_encode, Hb in E'. done.
Qed.

(** ** The value of the transaction *)
Section value.
Context (M C : list bytes) (HM : members_ok M) (HC : members_ok C) (HN : members_ok (spec_union M C)).
Notation N := (spec_union M C).

Lemma union_value st refs lb ll n :
  load_blocks st (root_by_prefix (root_refs M)) (requested_blocks (touched_blocks C) (root_by_prefix (root_refs M))) = Ok (lb, refs) ->
  load_leaves st (requested_leaves (group_candidates C) refs) = Ok (ll, n) ->
  (forall b, b ∈ touched_blocks C -> default [] (refs !! b) = block_refs M b) ->
  (forall p l, touched_prefix C p -> l ∈ leaves_at M p -> loaded_members ll (LeafSHA256 l) = members_of l) ->
  exists leaves blocks tel, union_with_root st (the_set M) (root_refs M) C = Ok (MkObjects (the_set N) leaves blocks None, spec_novel M C, tel) /\
    extends M N leaves blocks /\ CandidateCardinality tel = Z.of_nat (length C).
Proof.
  intros Hlb Hll Hrefs Hloaded. unfold union_with_root. rewrite Hlb. cbn [mbind result_bind]. rewrite Hll. cbn [mbind result_bind].
  fold (merged C refs ll). rewrite (merged_novel M C HM HC HN refs ll Hrefs Hloaded).
  destruct (blocks_fold M C HM HC HN refs ll Hrefs Hloaded (root_by_prefix (root_refs M)) (elements (touched_blocks C)) (fun b => proj1 (elem_of_elements _ b)) (∅, ∅)) as (K & EK & K1 & K2 & _).
  rewrite EK. cbn [mbind result_bind snd].
  destruct (new_root_refs_spec M C HM HC HN refs ll Hrefs Hloaded _ (replacements_spec M C (elements (touched_blocks C)) (fun b => elem_of_elements _ b))) as [reused ->].
  cbn [the_set Cardinality]. rewrite (union_length M C HM), wrap_int64_id by (pose proof (mo_size _ HN); unfold int64_range, max_int64; lia).
  rewrite (set_of_members N) by done. cbn [mbind result_bind]. do 3 eexists. split; [reflexivity|]. split; [|reflexivity].
  destruct (changed_spec M C HM HC HN refs ll Hrefs Hloaded) as [L1 L2]. split; [exact L1|exact L2| |].
  - intros d blk [Hd|(b & Hb%elem_of_elements & -> & ->)]%K1; [cbn [fst] in Hd; by rewrite lookup_empty in Hd|]. split; [|done].
    apply elem_root_blocks. exists b. split; [by apply (touched_block_range C HC)|]. split; [by apply (touched_used M C HC)|done].
  - intros blk (b & Hb & Hu & ->)%elem_root_blocks. destruct (decide (b ∈ touched_blocks C)) as [Ht|Ht].
    + destruct (K2 b (proj2 (elem_of_elements _ b) Ht)) as [|(old & Hold & Ed)]; [by left|right]. rewrite root_prefix_lookup in Hold. case_decide as Hu'; [|done].
      injection Hold as <-. exists (the_block M b). split; [apply elem_root_blocks; exists b; tauto|done].
    + right. exists (the_block M b). rewrite (untouched_the_block M C HM HN) by done. split; [|done]. apply elem_root_blocks. exists b. split; [done|]. split; [|done].
      apply (used_union M C HM HC HN) in Hu; [|done]. tauto.
Qed.

Context (st : ObjectStore) (xs : list bytes).
Context (nocoll : forall x y, x ∈ xs -> y ∈ xs -> sha256HexV5 x = sha256HexV5 y -> x = y).
Context (HxM : all_texts M ⊆ xs) (Hxst : store_texts st ⊆ xs).

Lemma tx_sound cand res novel tel : uniqueOutcomeHashesV5 (candHashes cand) = C ->
  differenceAndUnionV5Tx st (SetSHA256 (the_set M)) cand = Ok (res, novel, tel) ->
  objSet res = the_set N /\ novel = spec_novel M C /\ extends M N (Leaves res) (Blocks res).
Proof.
  intros EC. unfold differenceAndUnionV5Tx. rewrite EC, bool_decide_eq_false_2 by apply set_digest_nonempty.
  destruct (set_rows st !! SetSHA256 (the_set M)) as [row|] eqn:Erow; [|done]. intros ([] & Hv & H)%bind_ok.
  rewrite (root_authentic M HM st xs nocoll HxM Hxst row Erow Hv) in H. cbn [the_set RootManifest Cardinality BlockCount] in H. fold (the_set M) in H.
  rewrite root_parses in H by done. cbn [mbind result_bind] in H. pose proof H as H'. unfold union_with_root in H'.
  apply bind_ok in H' as ([lb refs] & Hlb & H'). apply bind_ok in H' as ([ll n] & Hll & _).
  pose proof (load_blocks_sound M C HM HC st xs nocoll HxM Hxst lb refs Hlb) as Hrefs.
  pose proof (load_leaves_sound M C HM HC st xs nocoll HxM Hxst refs Hrefs ll n Hll) as Hloaded.
  destruct (union_value st refs lb ll n Hlb Hll Hrefs Hloaded) as (leaves & blocks & tel' & E & Hext & _). rewrite E in H. apply Ok_inj in H. injection H as <- <- _. done.
Qed.

Lemma tx_total cand : uniqueOutcomeHashesV5 (candHashes cand) = C -> holds st M ->
  exists res novel tel, differenceAndUnionV5Tx st (SetSHA256 (the_set M)) cand = Ok (res, novel, tel).
Proof.
  intros EC Hst. unfold differenceAndUnionV5Tx. rewrite EC, bool_decide_eq_false_2 by apply set_digest_nonempty. rewrite (proj1 Hst).
  change (scan_set (SetSHA256 (the_set M)) (set_row (the_set M))) with (the_set M). rewrite root_verifies by done. cbn [mbind result_bind the_set RootManifest Cardinality BlockCount].
  fold (the_set M). rewrite root_parses by done. cbn [mbind result_bind].
  destruct (load_blocks_total M C HM st xs nocoll HxM Hxst Hst) as (lb & refs & Hlb).
  pose proof (load_blocks_sound M C HM HC st xs nocoll HxM Hxst lb refs Hlb) as Hrefs.
  destruct (load_leaves_total M C HM HC st xs nocoll HxM Hxst Hst refs Hrefs) as (ll & n & Hll).
  pose proof (load_leaves_sound M C HM HC st xs nocoll HxM Hxst refs Hrefs ll n Hll) as Hloaded.
  destruct (union_value st refs lb ll n Hlb Hll Hrefs Hloaded) as (leaves & blocks & tel' & E & _). rewrite E. by eexists _, _, _.
Qed.
End value.


(** ** What persisting leaves behind *)
Definition rows_valid {A} (valid : A -> bool) (rows : gmap string A) : Prop := forall d r, rows !! d = Some r -> valid r = true.
Definition store_valid (st : ObjectStore) : Prop :=
  rows_valid leaf_row_valid (leaf_rows st) /\ rows_valid block_row_valid (block_rows st) /\ rows_valid set_row_valid (set_rows st).
Definition store_le (st st' : ObjectStore) : Prop :=
  leaf_rows st ⊆ leaf_rows st' /\ block_rows st ⊆ block_rows st' /\ set_rows st ⊆ set_rows st'.

Lemma insert_row_ok {A} (valid : A -> bool) rows d row rows' : insert_row valid rows d row = Ok rows' -> rows_valid valid rows ->
  rows ⊆ rows' /\ rows_valid valid rows' /\ is_Some (rows' !! d) /\ (forall k r, rows' !! k = Some r -> rows !! k = Some r \/ k = d /\ r = row).
Proof.
  intros (Hc & <-%Ok_inj)%fail_if_bind_ok Hv. apply orb_false_iff in Hc as [_ Hrow%negb_false_iff]. destruct (rows !! d) as [old|] eqn:E.
  - split; [done|]. split; [done|]. split; [by eexists|by left].
  - split; [by apply insert_subseteq|]. split; [|split; [rewrite lookup_insert_eq; by eexists|]].
    + intros k r [[<- <-]|[_ Hk]]%lookup_insert_Some; [done|by apply (Hv k)].
    + intros k r [[<- <-]|[_ Hk]]%lookup_insert_Some; [by right|by left].
Qed.

Lemma insert_rows_ok {A B} (valid : A -> bool) (key : B -> string) (row : B -> A) l : forall rows rows',
  fold_res (fun rows x => insert_row valid rows (key x) (row x)) rows l = Ok rows' -> rows_valid valid rows ->
  rows ⊆ rows' /\ rows_valid valid rows' /\ (forall k r, rows' !! k = Some r -> rows !! k = Some r \/ exists x, x ∈ l /\ k = key x /\ r = row x).
Proof.
  induction l as [|x l IH]; intros rows rows'; cbn [fold_res]; [intros <-%Ok_inj Hv; split; [done|]; split; [done|by left]|].
  intros (rows1 & H1 & H2)%bind_ok Hv. destruct (insert_row_ok _ _ _ _ _ H1 Hv) as (S1 & V1 & _ & F1). destruct (IH _ _ H2 V1) as (S2 & V2 & F2).
  split; [by etrans|]. split; [done|]. intros k r [Hk|(y & Hy & E)]%F2; [|right; exists y; split; [by right|done]].
  apply F1 in Hk as [Hk|[-> ->]]; [by left|right; exists x; split; [by left|done]].
Qed.

Lemma leaf_row_valid_spec r : leaf_row_valid r = true ->
  0 <= row_prefix16 r < 2 ^ 16 /\ 0 <= row_chunk r < 2 ^ 31 /\ 1 <= row_cardinality r <= 4096.
Proof. unfold leaf_row_valid. rewrite !andb_true_iff, !Z.leb_le, !Z.ltb_lt. lia. Qed.

Lemma leaf_size l : leaf_wf l -> bytes_len (Payload l) < 2 ^ 31.
Proof.
  intros (p & c & hs & -> & Hp & _ & Hn & HF & _). cbn [leaf_of Payload]. unfold bytes_len, canonicalOutcomeLeafV5, be_uint16, be_uint32.
  rewrite !length_app, !length_be_bytes, length_concat32 by done. change (length outcomeLeafDomainV5) with 22%nat. lia.
Qed.

Lemma stored_leaf r d l : leaf_wf l -> leaf_row_valid r = true -> raw_leaf r = true -> sameOutcomeLeafV5 (scan_leaf d r) l = true -> r = leaf_row l.
Proof.
  intros Hwf (Hp & Hc & Hn)%leaf_row_valid_spec Hraw Hs. pose proof (leaf_size l Hwf) as Hsize. unfold raw_leaf in Hraw. rewrite andb_true_iff, bool_decide_eq_true, Z.eqb_eq in Hraw.
  unfold sameOutcomeLeafV5 in Hs. rewrite !andb_true_iff, !Z.eqb_eq, bool_decide_eq_true in Hs. cbn [scan_leaf Prefix16 ChunkIndex leafCardinality Payload] in Hs.
  destruct Hs as [[[E1 E2] E3] E4], Hraw as [Ec Es]. rewrite Z.mod_small in E1 by lia. rewrite Z.mod_small in E2 by lia. unfold leaf_row. rewrite <- E1, <- E2, <- E3, <- E4 in *.
  rewrite !int32_id by (lia || (split; [unfold bytes_len; lia|done])). rewrite <- Ec, <- Es. by destruct r.
Qed.

Lemma persist_leaves_ok rows leaves rows' : persist_leaves rows leaves = Ok rows' -> rows_valid leaf_row_valid rows ->
  rows ⊆ rows' /\ rows_valid leaf_row_valid rows' /\ (forall d l, leaves !! d = Some l -> leaf_wf l -> rows' !! d = Some (leaf_row l)) /\
  (forall k r, rows' !! k = Some r -> rows !! k = Some r \/ exists l, l ∈ map_values leaves /\ k = LeafSHA256 l /\ r = leaf_row l).
Proof.
  unfold persist_leaves. case_bool_decide as Ee.
  { intros <-%Ok_inj Hv. split; [done|]. split; [done|]. split; [intros d l Hl; by rewrite Ee, lookup_empty in Hl|by left]. }
  set (ordered := merge_sort _ _). intros (rows1 & Hi & (seen & Hseen & ([] & Hc & <-%Ok_inj)%bind_ok)%bind_ok)%bind_ok Hv.
  destruct (insert_rows_ok _ _ _ _ _ _ Hi Hv) as (S1 & V1 & F1). split; [done|]. split; [done|]. split.
  - assert (forall d x, seen !! d = Some x -> exists r, rows1 !! d = Some r /\ x = scan_leaf d r /\ raw_leaf r = true) as HS.
    { assert (forall d x, (∅ : gmap string OutcomeHashLeafV5) !! d = Some x -> exists r, rows1 !! d = Some r /\ x = scan_leaf d r /\ raw_leaf r = true) as H0
        by (intros d x Hx; by rewrite lookup_empty in Hx).
      eapply (fold_res_inv _ (fun seen : gmap string OutcomeHashLeafV5 => forall d x, seen !! d = Some x -> exists r, rows1 !! d = Some r /\ x = scan_leaf d r /\ raw_leaf r = true));
        [|exact H0|exact Hseen].
      intros s [d r] s' [Hr _]%select_any_lookup Hs Es. cbn [fst snd] in Es. destruct (raw_leaf r) eqn:Eraw; [|done]. apply Ok_inj in Es as <-.
      intros k x [[<- <-]|[_ Hk]]%lookup_insert_Some; [by exists r|by apply Hs]. }
    intros d l Hl Hwf. apply check_all_ok in Hc. rewrite Forall_forall in Hc. specialize (Hc (d, l)). rewrite elem_of_map_to_list in Hc. specialize (Hc Hl). cbn [fst snd] in Hc.
    apply fail_if_ok in Hc. destruct (seen !! d) as [x|] eqn:Ex; [|done]. apply negb_false_iff in Hc. destruct (HS d x Ex) as (r & Hr & -> & Hraw).
    rewrite Hr. f_equal. apply (stored_leaf r d); [done|by apply (V1 d)|done|done].
  - intros k r [Hk|(l & Hl & -> & ->)]%F1; [by left|right]. exists l. split; [|done]. unfold ordered in Hl. by rewrite merge_sort_Permutation in Hl.
Qed.

Lemma stored_block r d b : block_row_valid r = true -> sameOutcomeBlockV5 (scan_block d r) b = true -> r = block_row b.
Proof.
  unfold block_row_valid, sameOutcomeBlockV5. rewrite !andb_true_iff, !Z.eqb_eq, !Z.leb_le, bool_decide_eq_true. cbn [scan_block Prefix8 blockCardinality Manifest].
  intros [[H1 H2] _] [[E1 E2] E3]. rewrite Z.mod_small in E1 by lia. unfold block_row. rewrite <- E1, <- E2, <- E3, int32_id by lia. by destruct r.
Qed.

Lemma persist_blocks_ok rows blocks rows' : persist_blocks rows blocks = Ok rows' -> rows_valid block_row_valid rows ->
  rows ⊆ rows' /\ rows_valid block_row_valid rows' /\ (forall d b, blocks !! d = Some b -> rows' !! d = Some (block_row b)) /\
  (forall k r, rows' !! k = Some r -> rows !! k = Some r \/ exists b, b ∈ map_values blocks /\ k = BlockSHA256 b /\ r = block_row b).
Proof.
  unfold persist_blocks. case_bool_decide as Ee.
  { intros <-%Ok_inj Hv. split; [done|]. split; [done|]. split; [intros d l Hl; by rewrite Ee, lookup_empty in Hl|by left]. }
  intros (rows1 & Hi & ([] & Hc & <-%Ok_inj)%bind_ok)%bind_ok Hv. destruct (insert_rows_ok _ _ _ _ _ _ Hi Hv) as (S1 & V1 & F1). split; [done|]. split; [done|]. split.
  - intros d b Hb. apply check_all_ok in Hc. rewrite Forall_forall in Hc. specialize (Hc (d, b)). rewrite elem_of_map_to_list in Hc. specialize (Hc Hb). cbn [fst snd] in Hc.
    apply fail_if_ok in Hc. destruct (list_to_map _ !! d) as [x|] eqn:Ex; [|done]. apply negb_false_iff in Hc.
    apply elem_of_list_to_map_2, list_elem_of_fmap in Ex as ([d' r] & E & [Hr _]%select_any_lookup). cbn [fst snd] in E. injection E as -> ->.
    rewrite Hr. f_equal. apply (stored_block r d'); [by apply (V1 d')|done].
  - intros k r [Hk|(b & Hb & -> & ->)]%F1; [by left|right]. by exists b.
Qed.

Lemma persist_set_ok rows set rows' : persist_set rows set = Ok rows' -> rows_valid set_row_valid rows ->
  rows ⊆ rows' /\ rows_valid set_row_valid rows' /\ rows' !! SetSHA256 set = Some (set_row set) /\
  (forall k r, rows' !! k = Some r -> rows !! k = Some r \/ k = SetSHA256 set /\ r = set_row set).
Proof.
  unfold persist_set. intros (rows1 & Hi & Hc)%bind_ok Hv. destruct (insert_row_ok _ _ _ _ _ Hi Hv) as (S1 & V1 & [r Hr] & F1).
  assert (rows' = rows1 /\ (rows !! SetSHA256 set = None \/ rows !! SetSHA256 set = Some (set_row set))) as [-> Hold].
  { destruct (rows !! SetSHA256 set) as [stored|]; [|apply Ok_inj in Hc as <-; split; [done|by left]]. apply fail_if_bind_ok in Hc as [Hg <-%Ok_inj]. split; [done|right].
    rewrite !orb_false_iff, !negb_false_iff, !Z.eqb_eq, bool_decide_eq_true in Hg. unfold set_row. destruct Hg as [[<- <-] <-]. by destruct stored. }
  split; [done|]. split; [done|]. split.
  - rewrite Hr. f_equal. destruct (F1 _ _ Hr) as [Hk|[_ ->]]; [|done]. rewrite Hk in Hold. by destruct Hold as [[=]|[= ->]].
  - exact F1.
Qed.

(** Where the rows of the store come from. *)
Record row_origins (st st' : ObjectStore) (objects : OutcomeHashSetObjectsV5) : Prop := {
  ro_leaf k r : leaf_rows st' !! k = Some r -> leaf_rows st !! k = Some r \/ exists d l, Leaves objects !! d = Some l /\ k = LeafSHA256 l /\ r = leaf_row l;
  ro_block k r : block_rows st' !! k = Some r -> block_rows st !! k = Some r \/ exists d b, Blocks objects !! d = Some b /\ k = BlockSHA256 b /\ r = block_row b;
  ro_set k r : set_rows st' !! k = Some r -> set_rows st !! k = Some r \/ k = SetSHA256 (objSet objects) /\ r = set_row (objSet objects);
}.

Lemma persist_ok st objects st' : persistV5SetObjectsTx st objects = Ok st' -> store_valid st ->
  store_le st st' /\ store_valid st' /\
  (forall d l, Leaves objects !! d = Some l -> leaf_wf l -> leaf_rows st' !! d = Some (leaf_row l)) /\
  (forall d b, Blocks objects !! d = Some b -> block_rows st' !! d = Some (block_row b)) /\
  set_rows st' !! SetSHA256 (objSet objects) = Some (set_row (objSet objects)) /\ row_origins st st' objects.
Proof.
  unfold persistV5SetObjectsTx. intros ([] & _ & H)%bind_ok (VL & VB & VS). apply bind_ok in H as ([] & _ & H). apply bind_ok in H as ([] & _ & H).
  apply bind_ok in H as (leaves & HL & H). apply bind_ok in H as (blocks & HB & H). apply bind_ok in H as (sets & HS & <-%Ok_inj).
  destruct (persist_leaves_ok _ _ _ HL VL) as (L1 & L2 & L3 & L4). destruct (persist_blocks_ok _ _ _ HB VB) as (B1 & B2 & B3 & B4).
  destruct (persist_set_ok _ _ _ HS VS) as (S1 & S2 & S3 & S4). split; [done|]. split; [done|]. split; [done|]. split; [done|]. split; [done|].
  split; cbn [leaf_rows block_rows set_rows].
  - intros k r Hr. destruct (L4 k r Hr) as [|(l & (d & Hl)%elem_map_values & E)]; [by left|right; by exists d, l].
  - intros k r Hr. destruct (B4 k r Hr) as [|(b & (d & Hb)%elem_map_values & E)]; [by left|right; by exists d, b].
  - exact S4.
Qed.

(** ** The graph of the union is in the store *)
Lemma block_bytes_inj p q refs refs' : 0 <= p < 256 -> 0 <= q < 256 -> Forall (good_leaf_ref p) refs -> Forall (good_leaf_ref q) refs' ->
  chunks_ordered (-1) 0 refs -> chunks_ordered (-1) 0 refs' -> Z.of_nat (length refs) < 2 ^ 32 -> Z.of_nat (length refs') < 2 ^ 32 ->
  block_bytes p refs = block_bytes q refs' -> p = q /\ refs = refs'.
Proof.
  intros Hp Hq HF HF' Ho Ho' Hl Hl' E. unfold block_bytes in E. rewrite <- !app_assoc in E. apply app_inj_1 in E as [_ E]; [|done].
  apply app_inj_1 in E as [Eb E]; [|done]. injection Eb as Eb. apply (f_equal byte_val) in Eb. rewrite !byte_val_of, !Z.mod_small in Eb by done. subst q.
  apply app_inj_1 in E as [El E]; [|unfold be_uint32; by rewrite !length_be_bytes]. apply (be_bytes_inj 4) in El; [|lia|lia]. apply Nat2Z.inj in El.
  pose proof (leaf_refs_read p refs Hp HF (-1) 0 0 [] Ho ltac:(lia) ltac:(unfold max_int64; lia)) as R1.
  pose proof (leaf_refs_read p refs' Hp HF' (-1) 0 0 [] Ho' ltac:(lia) ltac:(unfold max_int64; lia)) as R2.
  rewrite <- El, <- E, R1 in R2. injection R2 as ->. done.
Qed.

Lemma block_cross M N b c : members_ok M -> members_ok N -> 0 <= b < 256 -> 0 <= c < 256 ->
  Manifest (the_block M b) = Manifest (the_block N c) -> the_block M b = the_block N c.
Proof.
  intros HM HN Hb Hc E. cbn [the_block Manifest] in E. pose proof (block_sum_le M b HM Hb) as [_ L1]. pose proof (block_sum_le N c HN Hc) as [_ L2].
  pose proof (mo_size M HM). pose proof (mo_size N HN).
  apply block_bytes_inj in E as [-> E]; [unfold the_block; by rewrite E|done|done|by apply block_refs_good|by apply block_refs_good|apply block_refs_ordered; [done|lia]|apply block_refs_ordered; [done|lia]|lia|lia].
Qed.

Definition parts_held (st : ObjectStore) (M : list bytes) : Prop :=
  (forall b, b ∈ root_blocks M -> block_rows st !! BlockSHA256 b = Some (block_row b)) /\
  (forall l, l ∈ all_leaves M -> leaf_rows st !! LeafSHA256 l = Some (leaf_row l)).

Lemma parts_le st st' M : store_le st st' -> parts_held st M -> parts_held st' M.
Proof.
  intros (L & B & _) [H1 H2]. split; [intros b Hb; eapply lookup_weaken; [by apply H1|done]|intros l Hl; eapply lookup_weaken; [by apply H2|done]].
Qed.

Lemma no_leaves : all_leaves [] = [].
Proof.
  destruct (all_leaves []) as [|l ls] eqn:E; [done|]. assert (l ∈ all_leaves []) as (b & _ & Hl)%elem_all_leaves by (rewrite E; by left).
  unfold block_leaves in Hl. by apply Witness.elem_flat_map in Hl as (p & _ & ?%elem_of_nil).
Qed.
Lemma no_blocks : root_blocks [] = [].
Proof.
  destruct (root_blocks []) as [|b bs] eqn:E; [done|]. assert (b ∈ root_blocks []) as (c & _ & Hu & _)%elem_root_blocks by (rewrite E; by left).
  destruct Hu. rewrite block_refs_segments. induction (seqZ (256 * c) 256) as [|p ps IH]; [done|exact IH].
Qed.
Lemma nothing_held st : parts_held st [].
Proof. split; [rewrite no_blocks; by intros b ?%elem_of_nil|rewrite no_leaves; by intros l ?%elem_of_nil]. Qed.

Lemma persist_holds M N st st' objects xs : members_ok M -> members_ok N ->
  (forall x y, x ∈ xs -> y ∈ xs -> sha256HexV5 x = sha256HexV5 y -> x = y) -> texts M ⊆ xs -> texts N ⊆ xs ->
  parts_held st M -> extends M N (Leaves objects) (Blocks objects) -> objSet objects = the_set N -> store_valid st ->
  persistV5SetObjectsTx st objects = Ok st' -> holds st' N.
Proof.
  intros HM HN nocoll HxM HxN Hparts [E1 E2 E3 E4] Hset Hv Hp. destruct (persist_ok _ _ _ Hp Hv) as (Hle & _ & HL & HB & HS & _).
  destruct (parts_le _ _ _ Hle Hparts) as [PB PL]. pose proof (all_leaves_wf M HM) as WM. pose proof (all_leaves_wf N HN) as WN. rewrite Forall_forall in WM, WN.
  rewrite Hset in HS. split; [done|]. split.
  - assert (forall b c xs', b ∈ root_blocks N -> c ∈ root_blocks xs' -> members_ok xs' -> texts xs' ⊆ xs -> BlockSHA256 c = BlockSHA256 b -> c = b) as Hsame.
    { intros b c xs' (i & Hi & Hui & ->)%elem_root_blocks (j & Hj & Huj & ->)%elem_root_blocks Hxs' Hsub E. apply block_cross; [done|done|done|done|].
      apply nocoll; [by apply Hsub, block_text|by apply HxN, block_text|]. by rewrite !block_sha in E. }
    intros b Hb. destruct (E4 b Hb) as [[c Hc]|(c & Hc & E)].
    + destruct (E3 _ _ Hc) as [HcN Ed]. rewrite (HB _ _ Hc). by rewrite (Hsame b c N) by done.
    + rewrite <- E, (PB c Hc). by rewrite (Hsame b c M) by done.
  - intros l Hl. destruct (E2 l Hl) as [[k Hk]|(k & Hk & E)].
    + destruct (E1 _ _ Hk) as [HkN Ed]. rewrite (HL _ _ Hk) by auto. f_equal. f_equal. apply leaf_wf_eq; [by apply WN|by apply WN|].
      apply nocoll; [by apply HxN, leaf_text|by apply HxN, leaf_text|]. rewrite <- !leaf_wf_digest by auto. done.
    + rewrite <- E, (PL k Hk). f_equal. f_equal. apply leaf_wf_eq; [by apply WM|by apply WN|].
      apply nocoll; [by apply HxM, leaf_text|by apply HxN, leaf_text|]. rewrite <- !leaf_wf_digest by auto. done.
Qed.

Lemma persist_texts M N st st' objects : extends M N (Leaves objects) (Blocks objects) -> objSet objects = the_set N -> store_valid st ->
  persistV5SetObjectsTx st objects = Ok st' -> store_texts st' ⊆ store_texts st ++ all_texts N.
Proof.
  intros [E1 _ E3 _] Hset Hv Hp. destruct (persist_ok _ _ _ Hp Hv) as (_ & _ & _ & _ & _ & [O1 O2 O3]). intros t. rewrite elem_of_app. unfold store_texts.
  rewrite !elem_of_app, !list_elem_of_fmap. setoid_rewrite elem_map_values. intros [(r & -> & k & Hr)|[(r & -> & k & Hr)|(r & -> & k & Hr)]].
  - apply O1 in Hr as [Hr|(d & l & Hl & -> & ->)]; [left; left; exists r; split; [done|by exists k]|right; right]. apply E1 in Hl as [Hl _]. by apply leaf_text.
  - apply O2 in Hr as [Hr|(d & b & Hb & -> & ->)]; [left; right; left; exists r; split; [done|by exists k]|right; right].
    apply E3 in Hb as [(c & Hc & Hu & ->)%elem_root_blocks _]. by apply block_text.
  - apply O3 in Hr as [Hr|[-> ->]]; [left; right; right; exists r; split; [done|by exists k]|right]. rewrite Hset. by left.
Qed.

(** ** A store written by this code accepts the next step *)

(** Every row is an object of some set, under its digest. *)
Record written (st : ObjectStore) : Prop := {
  wr_leaf d r : leaf_rows st !! d = Some r -> exists M l, members_ok M /\ l ∈ all_leaves M /\ d = LeafSHA256 l /\ r = leaf_row l;
  wr_block d r : block_rows st !! d = Some r -> exists M b, members_ok M /\ b ∈ root_blocks M /\ d = BlockSHA256 b /\ r = block_row b;
  wr_set d r : set_rows st !! d = Some r -> exists M, members_ok M /\ d = SetSHA256 (the_set M) /\ r = set_row (the_set M);
}.

Lemma sha_valid payload : valid_sha256_text (sha256HexV5 payload) = true.
Proof. apply hex_sum_valid. Qed.

Lemma set_leaf M l : members_ok M -> l ∈ all_leaves M -> exists p c hs, l = leaf_of p c hs /\ good_leaf p c hs /\ c < 2 ^ 31.
Proof.
  intros HM (b & Hb & Hl)%elem_all_leaves. unfold block_leaves in Hl. apply Witness.elem_flat_map in Hl as (p & Hp%elem_of_seqZ & Hl).
  destruct (chunk_small M HM p l ltac:(lia) Hl) as (c & hs & H). by exists p, c, hs.
Qed.

Lemma leaf_row_facts M l : members_ok M -> l ∈ all_leaves M ->
  leaf_row_valid (leaf_row l) = true /\ raw_leaf (leaf_row l) = true /\ scan_leaf (LeafSHA256 l) (leaf_row l) = l /\ valid_sha256_text (LeafSHA256 l) = true /\ leaf_acceptable l = true.
Proof.
  intros HM Hl. destruct (set_leaf M l HM Hl) as (p & c & hs & -> & Hg & Hc). destruct (leaf_row_scan p c hs Hg Hc) as [Es Er].
  pose proof Hg as (Hp & Hc0 & Hn & _). pose proof (leaf_size (leaf_of p c hs) ltac:(by exists p, c, hs)) as Hsize.
  split; [|split; [done|split; [done|split; [apply sha_valid|]]]].
  - unfold leaf_row_valid, leaf_row. cbn [row_prefix16 row_chunk row_cardinality row_codec row_size leaf_of Prefix16 ChunkIndex leafCardinality Payload] in *.
    rewrite !int32_id by (lia || (split; [unfold bytes_len; lia|exact Hsize])). rewrite bool_decide_eq_true_2 by done.
    rewrite !andb_true_iff, !Z.leb_le, !Z.ltb_lt. repeat split; try lia.
  - unfold leaf_acceptable. cbn [leaf_of Payload LeafSHA256 Prefix16 ChunkIndex leafCardinality]. rewrite decode_leaf_canonical by done.
    by rewrite bool_decide_eq_true_2, !Z.eqb_refl.
Qed.

Lemma block_row_facts M b : members_ok M -> b ∈ root_blocks M ->
  block_row_valid (block_row b) = true /\ scan_block (BlockSHA256 b) (block_row b) = b /\ valid_sha256_text (BlockSHA256 b) = true.
Proof.
  intros HM (c & Hc & Hu & ->)%elem_root_blocks. split; [|split; [by apply scan_block_row|apply sha_valid]].
  unfold block_row_valid, block_row. cbn [row_prefix8 row_block_cardinality the_block Prefix8 blockCardinality]. rewrite int32_id by lia.
  pose proof (used_positive M c HM Hc Hu). rewrite !andb_true_iff, !Z.leb_le, Z.ltb_lt. lia.
Qed.

Lemma set_row_facts M : members_ok M -> set_row_valid (set_row (the_set M)) = true /\ valid_sha256_text (SetSHA256 (the_set M)) = true.
Proof.
  intros HM. split; [|apply sha_valid]. unfold set_row_valid, set_row. cbn [row_set_cardinality row_block_count the_set Cardinality BlockCount].
  pose proof (root_refs_length _ _ _ (root_refs_good M HM)). rewrite !andb_true_iff, !Z.leb_le. lia.
Qed.

Lemma written_valid st : written st -> store_valid st.
Proof.
  intros [W1 W2 W3]. split; [|split].
  - intros d r (M & l & HM & Hl & _ & ->)%W1. by apply (leaf_row_facts M).
  - intros d r (M & b & HM & Hb & _ & ->)%W2. by apply (block_row_facts M).
  - intros d r (M & HM & _ & ->)%W3. by apply set_row_facts.
Qed.

Lemma persist_written M N st st' objects : members_ok N -> extends M N (Leaves objects) (Blocks objects) -> objSet objects = the_set N -> written st ->
  persistV5SetObjectsTx st objects = Ok st' -> written st'.
Proof.
  intros HN [E1 _ E3 _] Hset Hw Hp. destruct (persist_ok _ _ _ Hp (written_valid st Hw)) as (_ & _ & _ & _ & _ & [O1 O2 O3]). split.
  - intros k r [Hr|(d & l & Hl & -> & ->)]%O1; [by apply Hw|]. apply E1 in Hl as [Hl _]. by exists N, l.
  - intros k r [Hr|(d & b & Hb & -> & ->)]%O2; [by apply Hw|]. apply E3 in Hb as [Hb _]. by exists N, b.
  - intros k r [Hr|[-> ->]]%O3; [by apply Hw|]. exists N. by rewrite Hset.
Qed.

Lemma insert_rows_total {A B} (valid : A -> bool) (key : B -> string) (row : B -> A) l :
  (forall x, x ∈ l -> valid_sha256_text (key x) = true /\ valid (row x) = true) -> forall rows, exists rows',
  fold_res (fun rows x => insert_row valid rows (key x) (row x)) rows l = Ok rows' /\ rows ⊆ rows' /\ (forall x, x ∈ l -> is_Some (rows' !! key x)) /\
  (forall k r, rows' !! k = Some r -> rows !! k = Some r \/ exists x, x ∈ l /\ k = key x /\ r = row x).
Proof.
  induction l as [|x l IH]; intros Hl rows; [exists rows; split; [done|]; split; [done|]; split; [by intros x ?%elem_of_nil|by left]|].
  destruct (Hl x ltac:(by left)) as [Hd Hv]. cbn [fold_res]. unfold insert_row at 2. rewrite Hd, Hv. cbn [negb orb fail_if mbind result_bind].
  set (rows1 := match rows !! key x with Some _ => rows | None => <[key x := row x]> rows end).
  destruct (IH (fun y Hy => Hl y ltac:(by right)) rows1) as (rows' & E & S & I & F). exists rows'.
  assert (rows ⊆ rows1 /\ is_Some (rows1 !! key x) /\ forall k r, rows1 !! k = Some r -> rows !! k = Some r \/ k = key x /\ r = row x) as (S1 & I1 & F1).
  { unfold rows1. destruct (rows !! key x) as [old|] eqn:Eo; [split; [done|]; split; [by eexists|by left]|].
    split; [by apply insert_subseteq|]. split; [rewrite lookup_insert_eq; by eexists|]. intros k r [[<- <-]|[_ Hk]]%lookup_insert_Some; [by right|by left]. }
  split; [exact E|]. split; [by etrans|]. split.
  - intros y [->|Hy]%elem_of_cons; [|by apply I]. destruct I1 as [r Hr]. exists r. by eapply lookup_weaken.
  - intros k r [Hk|(y & Hy & ?)]%F; [|right; exists y; split; [by right|done]]. apply F1 in Hk as [Hk|[-> ->]]; [by left|right; exists x; split; [by left|done]].
Qed.

Lemma persist_intro st objects rows1 rows2 rows3 : verifyOutcomeRootV5 (objSet objects) = Ok tt ->
  check_all (fun l => fail_if (negb (leaf_acceptable l)) (ErrNew "invalid V5 leaf submitted for persistence")) (map_values (Leaves objects)) = Ok tt ->
  (forall b, b ∈ map_values (Blocks objects) ->
    (fail_if (negb (bool_decide (sha256HexV5 (Manifest b) = BlockSHA256 b))) (ErrNew "invalid V5 block submitted for persistence") ≫= fun _ =>
     parseV5BlockManifestReferences (Manifest b) (Prefix8 b) (blockCardinality b) ≫= fun _ => Ok tt) = Ok tt) ->
  persist_leaves (leaf_rows st) (Leaves objects) = Ok rows1 -> persist_blocks (block_rows st) (Blocks objects) = Ok rows2 -> persist_set (set_rows st) (objSet objects) = Ok rows3 ->
  persistV5SetObjectsTx st objects = Ok (MkObjectStore rows1 rows2 rows3).
Proof.
  intros H1 H2 H3 E1 E2 E3. unfold persistV5SetObjectsTx. rewrite H1. cbn [mbind result_bind]. rewrite H2. cbn [mbind result_bind].
  rewrite (proj2 (check_all_ok _ (map_values (Blocks objects))) (proj2 (Forall_forall _ _) H3)). cbn [mbind result_bind]. rewrite E1. cbn [mbind result_bind].
  rewrite E2. cbn [mbind result_bind]. rewrite E3. reflexivity.
Qed.

Section persist_total.
Context (N : list bytes) (HN : members_ok N) (st : ObjectStore) (Hw : written st) (xs : list bytes).
Context (nocoll : forall x y, x ∈ xs -> y ∈ xs -> sha256HexV5 x = sha256HexV5 y -> x = y) (HxN : all_texts N ⊆ xs) (Hxst : store_texts st ⊆ xs).

Lemma leaves_total leaves : (forall d l, leaves !! d = Some l -> l ∈ all_leaves N /\ d = LeafSHA256 l) ->
  exists rows', persist_leaves (leaf_rows st) leaves = Ok rows'.
Proof.
  intros Hl. unfold persist_leaves. case_bool_decide; [by eexists|].
  assert (forall l, l ∈ merge_sort digest_le (map_values leaves) <-> leaves !! LeafSHA256 l = Some l) as Hord.
  { intros l. rewrite merge_sort_Permutation, elem_map_values. split; [|by eexists]. intros (d & Hd). by destruct (Hl d l Hd) as [_ ->]. }
  set (ordered := merge_sort _ _) in *.
  destruct (insert_rows_total leaf_row_valid LeafSHA256 leaf_row ordered) with (rows := leaf_rows st) as (rows' & -> & S & I & F).
  { intros l Hin%Hord. destruct (Hl _ _ Hin) as [HlN _]. destruct (leaf_row_facts N l HN HlN) as (? & _ & _ & ? & _). done. }
  cbn [mbind result_bind].
  assert (forall d r, rows' !! d = Some r -> exists M l, members_ok M /\ l ∈ all_leaves M /\ d = LeafSHA256 l /\ r = leaf_row l /\ Payload l ∈ xs) as Hrow.
  { intros d r [Hr|(l & Hin%Hord & -> & ->)]%F.
    - destruct (wr_leaf st Hw d r Hr) as (M & l & ? & ? & -> & ->). exists M, l. split; [done|]. split; [done|]. split; [done|]. split; [done|].
      change (Payload l) with (row_payload (leaf_row l)). eapply payload_in; [exact Hxst|exact Hr].
    - destruct (Hl _ _ Hin) as [HlN _]. exists N, l. split; [done|]. split; [done|]. split; [done|]. split; [done|]. apply HxN. right. by apply leaf_text. }
  set (rows := select_any rows' (map LeafSHA256 ordered)).
  destruct (fold_total (fun (seen : gmap string OutcomeHashLeafV5) kv => if raw_leaf kv.2 then Ok (<[kv.1 := scan_leaf kv.1 kv.2]> seen) else Err (ErrNew "unsupported or corrupt V5 leaf codec"))
    (fun seen kv => exists r, rows' !! kv.1 = Some r /\ seen !! kv.1 = Some (scan_leaf kv.1 r)) rows) with (s := (∅ : gmap string OutcomeHashLeafV5)) as (seen & -> & HQ & _).
  { intros s [d r] [Hr _]%select_any_lookup. cbn [fst snd]. destruct (Hrow d r Hr) as (M & l & HM & Hin & -> & -> & _). destruct (leaf_row_facts M l HM Hin) as (_ & -> & _).
    eexists. split; [done|]. split; [exists (leaf_row l); by rewrite lookup_insert_eq|]. intros [e q] (r' & Hr' & Hs). cbn [fst snd] in *. exists r'. split; [done|].
    destruct (decide (LeafSHA256 l = e)) as [<-|]; [|by rewrite lookup_insert_ne]. rewrite lookup_insert_eq. congruence. }
  cbn [mbind result_bind]. rewrite (proj2 (check_all_ok _ _)); [by eexists|]. apply Forall_forall. intros [d l] Hin%elem_of_map_to_list. cbn [fst snd].
  destruct (Hl d l Hin) as [HlN ->]. destruct (I l) as [r Hr]; [by apply Hord|].
  assert ((LeafSHA256 l, r) ∈ rows) as Hr2 by (apply select_any_lookup; split; [done|]; apply list_elem_of_fmap_2; by apply Hord).
  destruct (HQ _ Hr2) as (r' & Hr' & Hs). cbn [fst] in *. rewrite Hs. assert (r' = r) as -> by congruence.
  destruct (Hrow _ _ Hr) as (M & k & HM & Hk & Ed & -> & Hx). apply fail_if_ok, negb_false_iff.
  assert (k = l) as ->.
  { pose proof (all_leaves_wf M HM) as WM. pose proof (all_leaves_wf N HN) as WN. rewrite Forall_forall in WM, WN. apply leaf_wf_eq; [auto|auto|].
    apply nocoll; [done|apply HxN; right; by apply leaf_text|]. rewrite <- !leaf_wf_digest by auto. done. }
  destruct (leaf_row_facts N l HN HlN) as (_ & _ & -> & _). apply same_leaf_refl.
Qed.

Lemma blocks_total blocks : (forall d b, blocks !! d = Some b -> b ∈ root_blocks N /\ d = BlockSHA256 b) ->
  exists rows', persist_blocks (block_rows st) blocks = Ok rows'.
Proof.
  intros Hb. unfold persist_blocks. case_bool_decide; [by eexists|].
  assert (forall b, b ∈ map_values blocks <-> blocks !! BlockSHA256 b = Some b) as Hval.
  { intros b. rewrite elem_map_values. split; [|by eexists]. intros (d & Hd). by destruct (Hb d b Hd) as [_ ->]. }
  destruct (insert_rows_total block_row_valid BlockSHA256 block_row (map_values blocks)) with (rows := block_rows st) as (rows' & -> & S & I & F).
  { intros b Hin%Hval. destruct (Hb _ _ Hin) as [HbN _]. destruct (block_row_facts N b HN HbN) as (? & _ & ?). done. }
  cbn [mbind result_bind]. rewrite (proj2 (check_all_ok _ _)); [by eexists|]. apply Forall_forall. intros [d b] Hin%elem_of_map_to_list. cbn [fst snd].
  destruct (Hb d b Hin) as [HbN ->]. destruct (I b) as [r Hr]; [by apply Hval|].
  rewrite (elem_of_list_to_map_1' _ _ (scan_block (BlockSHA256 b) r)).
  - apply fail_if_ok, negb_false_iff. assert (r = block_row b) as ->; [|destruct (block_row_facts N b HN HbN) as (_ & -> & _); apply same_block_refl].
    apply F in Hr as [Hr|(c & Hc%Hval & Ed & ->)]; [|assert (c = b) as -> by (rewrite Ed in Hin; congruence); done].
    destruct (wr_block st Hw _ _ Hr) as (M & c & HM & Hc & Ed & ->). f_equal.
    apply elem_root_blocks in HbN as (i & Hi & Hui & ->), Hc as (j & Hj & Huj & ->). apply block_cross; [done|done|done|done|].
    apply nocoll; [|apply HxN; right; by apply block_text|by rewrite !block_sha in Ed].
    change (Manifest (the_block M j)) with (row_manifest (block_row (the_block M j))). eapply manifest_in; [exact Hxst|exact Hr].
  - intros y ([e q] & E & [Hkv _]%select_any_lookup)%list_elem_of_fmap. cbn [fst snd] in *. injection E as <- ->. rewrite Hr in Hkv. by injection Hkv as ->.
  - apply list_elem_of_fmap. exists (BlockSHA256 b, r). split; [done|]. apply select_any_lookup. split; [done|]. apply list_elem_of_fmap_2. by apply Hval.
Qed.

Lemma set_total : exists rows', persist_set (set_rows st) (the_set N) = Ok rows'.
Proof.
  unfold persist_set, insert_row. destruct (set_row_facts N HN) as [-> ->]. cbn [negb orb fail_if mbind result_bind].
  destruct (set_rows st !! SetSHA256 (the_set N)) as [stored|] eqn:E; [|by eexists]. rewrite fail_bind; [by eexists|].
  assert (stored = set_row (the_set N)) as ->; [|cbn; by rewrite !Z.eqb_refl, bool_decide_eq_true_2].
  destruct (wr_set st Hw _ _ E) as (M & HM & Ed & ->). f_equal.
  assert (the_root M = the_root N) as Er.
  { apply nocoll; [|apply HxN; by left|symmetry; exact Ed]. change (the_root M) with (row_root_manifest (set_row (the_set M))). eapply root_in; [exact Hxst|exact E]. }
  unfold the_set. unfold the_root in Er. pose proof (root_bytes_inj (root_refs_good M HM) (root_refs_good N HN) Er) as Es. unfold the_root. rewrite Er, Es.
  by rewrite <- (sum_root M HM), <- (sum_root N HN), Es.
Qed.

Lemma leaves_pass leaves : (forall d l, leaves !! d = Some l -> l ∈ all_leaves N /\ d = LeafSHA256 l) ->
  check_all (fun l => fail_if (negb (leaf_acceptable l)) (ErrNew "invalid V5 leaf submitted for persistence")) (map_values leaves) = Ok tt.
Proof.
  intros E. apply check_all_ok, Forall_forall. intros l (d & Hd)%elem_map_values. apply E in Hd as [Hl _]. destruct (leaf_row_facts N l HN Hl) as (_ & _ & _ & _ & Ha).
  by rewrite Ha.
Qed.

Lemma block_passes b : b ∈ root_blocks N ->
  (fail_if (negb (bool_decide (sha256HexV5 (Manifest b) = BlockSHA256 b))) (ErrNew "invalid V5 block submitted for persistence") ≫= fun _ =>
   parseV5BlockManifestReferences (Manifest b) (Prefix8 b) (blockCardinality b) ≫= fun _ => Ok tt) = Ok tt.
Proof.
  intros (c & Hc & Hu & ->)%elem_root_blocks. pose proof (block_parses N c HN Hc Hu) as P. rewrite fail_bind.
  - change (Prefix8 (the_block N c)) with c. rewrite P. reflexivity.
  - apply negb_false_iff, bool_decide_eq_true. symmetry. apply block_sha.
Qed.

Lemma persist_total leaves blocks members M : extends M N leaves blocks ->
  exists st', persistV5SetObjectsTx st (MkObjects (the_set N) leaves blocks members) = Ok st'.
Proof.
  intros [E1 _ E3 _]. destruct (leaves_total leaves E1) as [rows1 H1]. destruct (blocks_total blocks E3) as [rows2 H2]. destruct set_total as [rows3 H3].
  exists (MkObjectStore rows1 rows2 rows3).
  apply (persist_intro st (MkObjects (the_set N) leaves blocks members) rows1 rows2 rows3 (root_verifies N HN) (leaves_pass leaves E1)); [|exact H1|exact H2|exact H3].
  intros b (d & Hd)%elem_map_values. apply block_passes. by apply (E3 d b).
Qed.
End persist_total.

(** ** A root and its batches *)

(** What the settlement does to the outcomes of a root: the union, then its
    objects, then the new digest in the root's head. *)
Definition extend_outcomes (st : ObjectStore) (rootDigest : string) (candidates : list bytes) : result (ObjectStore * string * list bytes) :=
  differenceAndUnionV5Tx st rootDigest (MkCandidate [] candidates) ≫= fun '(objects, novel, _) =>
  persistV5SetObjectsTx st objects ≫= fun st' =>
  Ok (st', SetSHA256 (objSet objects), novel).

Fixpoint outcome_run (st : ObjectStore) (rootDigest : string) (batches : list (list bytes)) : result (ObjectStore * string * list (list bytes)) :=
  match batches with
  | [] => Ok (st, rootDigest, [])
  | batch :: rest =>
      extend_outcomes st rootDigest batch ≫= fun '(st', digest, novel) =>
      outcome_run st' digest rest ≫= fun '(st'', digest', charged) => Ok (st'', digest', novel :: charged)
  end.

(** The head of a root: no digest yet, or that of the set it stands for, which
    the store holds. *)
Definition head_of (st : ObjectStore) (rootDigest : string) (M : list bytes) : Prop :=
  rootDigest = "" /\ M = [] \/ rootDigest = SetSHA256 (the_set M) /\ holds st M.

Lemma head_parts st digest M : head_of st digest M -> parts_held st M.
Proof. intros [[_ ->]|(_ & _ & Hh)]; [apply nothing_held|exact Hh]. Qed.

Definition good_store (st : ObjectStore) (xs : list bytes) : Prop := written st /\ store_texts st ⊆ xs.

(** ** One step *)
Section step.
Context (st : ObjectStore) (digest : string) (M batch : list bytes) (xs : list bytes).
Context (HM : members_ok M) (HB : Forall hash32 batch) (Hsize : Z.of_nat (length M + length batch) < 2 ^ 31).
Context (nocoll : forall x y, x ∈ xs -> y ∈ xs -> sha256HexV5 x = sha256HexV5 y -> x = y).
Context (HxM : all_texts M ⊆ xs) (HxN : all_texts (spec_union M batch) ⊆ xs) (Hgood : good_store st xs) (Hhead : head_of st digest M).
Notation C := (uniqueOutcomeHashesV5 batch).
Notation N := (spec_union M batch).

Lemma step_batch : members_ok C.
Proof using HB Hsize. apply unique_ok; [done|lia]. Qed.
Lemma step_union : spec_union M C = N.
Proof. apply unique_ext; intros x. by rewrite !elem_of_app, elem_unique. Qed.
Lemma step_novel : spec_novel M C = spec_novel M batch.
Proof. unfold spec_novel. by rewrite (unique_id C) by apply unique_sorted. Qed.
Lemma step_members : members_ok N.
Proof using HM HB Hsize. apply union_hashes; [apply HM|exact HB|exact Hsize]. Qed.

Lemma first_step : M = [] -> N = C /\ spec_novel M batch = C.
Proof using.
  intros E. rewrite E. split; [done|]. unfold spec_novel. apply filter_all. intros x _. by apply not_elem_of_nil.
Qed.

Lemma step_tx_sound objects novel tel : differenceAndUnionV5Tx st digest (MkCandidate [] batch) = Ok (objects, novel, tel) ->
  objSet objects = the_set N /\ novel = spec_novel M batch /\ extends M N (Leaves objects) (Blocks objects).
Proof using HM HB Hsize nocoll HxM Hgood Hhead.
  intros Htx. pose proof step_batch as HC. pose proof step_members as HN. pose proof Hgood as [Hw Hxst]. pose proof Hhead as [[Ed E0]|[Ed Hh]]; rewrite Ed in Htx.
  - destruct (first_step E0) as [EN ->]. unfold differenceAndUnionV5Tx in Htx. rewrite bool_decide_eq_true_2 in Htx by done. cbn [candHashes] in Htx.
    apply bind_ok in Htx as (built & Hb & [= -> <- _]). rewrite E0 in EN |- *. rewrite EN. assert (uniqueOutcomeHashesV5 C = C) as EC by (apply unique_id, unique_sorted).
    rewrite <- EC in HC. apply build_graph in Hb as HG; [|done]. rewrite EC in HG. split; [apply HG|]. split; [done|]. by apply graph_extends.
  - rewrite <- step_union, <- step_novel. rewrite <- step_union in HN. by apply (tx_sound M C HM HC HN st xs nocoll HxM Hxst (MkCandidate [] batch) objects novel tel).
Qed.

Lemma step_tx_total : exists objects novel tel, differenceAndUnionV5Tx st digest (MkCandidate [] batch) = Ok (objects, novel, tel).
Proof.
  pose proof step_batch as HC. pose proof step_members as HN. pose proof Hgood as [Hw Hxst]. pose proof Hhead as [[Ed E0]|[Ed Hh]]; rewrite Ed.
  - destruct (first_step E0) as [EN _]. unfold differenceAndUnionV5Tx. rewrite bool_decide_eq_true_2 by done. cbn [candHashes].
    assert (uniqueOutcomeHashesV5 C = C) as EC by (apply unique_id, unique_sorted).
    destruct (build_total C) as [[o ->]|(x & y & Hx & Hy & Hne & E)]; [by rewrite EC|by eexists _, _, _|]. rewrite EC in *. rewrite EN in HxN.
    destruct Hne. apply nocoll; [apply HxN; by right|apply HxN; by right|]. by apply sha_same.
  - rewrite <- step_union in HN. by apply (tx_total M C HM HC HN st xs nocoll HxM Hxst (MkCandidate [] batch)).
Qed.

Lemma extend_ok : exists st', extend_outcomes st digest batch = Ok (st', SetSHA256 (the_set N), spec_novel M batch) /\ good_store st' xs /\ holds st' N.
Proof.
  pose proof step_members as HN. destruct step_tx_total as (objects & novel & tel & Htx). destruct (step_tx_sound objects novel tel Htx) as (Eset & -> & Hext).
  pose proof Hgood as [Hw Hxst]. assert (exists st', persistV5SetObjectsTx st objects = Ok st') as [st' Hp].
  { destruct objects as [set leaves blocks members]. cbn [objSet Leaves Blocks] in *. subst set. by apply (persist_total N HN st Hw xs nocoll HxN Hxst leaves blocks members M). }
  exists st'. split; [|split; [split|]].
  - unfold extend_outcomes. rewrite Htx. cbn [mbind result_bind]. rewrite Hp. cbn [mbind result_bind]. by rewrite Eset.
  - by apply (persist_written M N st st' objects).
  - etrans; [apply (persist_texts M N st st' objects Hext Eset (written_valid st Hw) Hp)|]. intros x [Hx|Hx]%elem_of_app; auto.
  - apply (persist_holds M N st st' objects xs HM HN nocoll); [intros x Hx; apply HxM; by right|intros x Hx; apply HxN; by right|by apply (head_parts st digest)|done|done|by apply written_valid|done].
Qed.
End step.

(** ** The run: the heads, and what is hashed on the way *)
Definition run_members (M : list bytes) (batches : list (list bytes)) : list bytes := spec_union M (concat batches).

Fixpoint run_texts (M : list bytes) (batches : list (list bytes)) : list bytes :=
  all_texts M ++ match batches with [] => [] | batch :: rest => run_texts (spec_union M batch) rest end.

Lemma run_texts_head M batches : all_texts M ⊆ run_texts M batches.
Proof. destruct batches; cbn [run_texts]; intros x Hx; apply elem_of_app; by left. Qed.

(** What is charged: each hash once, at the first batch that brings it. *)
Fixpoint run_charges (M : list bytes) (batches : list (list bytes)) : list (list bytes) :=
  match batches with [] => [] | batch :: rest => spec_novel M batch :: run_charges (spec_union M batch) rest end.

Lemma run_members_cons M batch rest : run_members M (batch :: rest) = run_members (spec_union M batch) rest.
Proof. unfold run_members. cbn [concat]. apply unique_ext. intros x. unfold spec_union. rewrite !elem_of_app, elem_unique, elem_of_app. tauto. Qed.

Lemma outcome_run_ok batches : forall st digest M xs, members_ok M -> Forall (Forall hash32) batches -> Z.of_nat (length M + length (concat batches)) < 2 ^ 31 ->
  (forall x y, x ∈ xs -> y ∈ xs -> sha256HexV5 x = sha256HexV5 y -> x = y) -> run_texts M batches ⊆ xs -> good_store st xs -> head_of st digest M ->
  exists st' digest', outcome_run st digest batches = Ok (st', digest', run_charges M batches) /\ head_of st' digest' (run_members M batches).
Proof.
  induction batches as [|batch rest IH]; intros st digest M xs HM HF Hsize nocoll Hx Hgood Hhead.
  - exists st, digest. split; [done|]. unfold run_members. cbn [concat]. unfold spec_union. rewrite app_nil_r, unique_id by apply HM. done.
  - apply Forall_cons in HF as [HB HF]. cbn [concat] in Hsize. rewrite length_app in Hsize. cbn [run_texts] in Hx.
    assert (all_texts M ⊆ xs /\ run_texts (spec_union M batch) rest ⊆ xs) as [HxM Hxr] by (split; intros x ?; apply Hx, elem_of_app; auto).
    destruct (extend_ok st digest M batch xs HM HB ltac:(lia) nocoll HxM ltac:(etrans; [apply run_texts_head|exact Hxr]) Hgood Hhead) as (st1 & E & Hg & Hh).
    assert (length (spec_union M batch) <= length M + length batch)%nat as Hlen by (unfold spec_union; rewrite <- length_app; apply unique_length).
    destruct (IH st1 (SetSHA256 (the_set (spec_union M batch))) (spec_union M batch) xs) as (st' & digest' & Er & Hh'); [apply (step_members M batch HM HB); lia|done|lia|done|done|done|by right|].
    exists st', digest'. cbn [outcome_run run_charges]. rewrite E. cbn [mbind result_bind]. rewrite Er. cbn [mbind result_bind]. split; [done|].
    by rewrite run_members_cons.
Qed.

Lemma charges_perm batches : forall M, StronglySorted clt M -> M ++ concat (run_charges M batches) ≡ₚ run_members M batches.
Proof.
  induction batches as [|batch rest IH]; intros M HS; cbn [run_charges concat].
  - unfold run_members, spec_union. cbn [concat]. by rewrite !app_nil_r, unique_id.
  - rewrite run_members_cons, <- (IH (spec_union M batch)) by apply unique_sorted. rewrite app_assoc. f_equiv. by apply union_split.
Qed.

End OutcomeStore.
