(* ===== verification/OutcomeProps.v ===== *)
(** * Outcome sets: what the component promises

    The codecs, the object graph and its digest, difference and union in memory
    and in a transaction, and the history of a root. *)

From S2P Require Import Prelude GoBytes Ordering GoText Sha256 FactId Witness OutcomeSet OutcomeLists OutcomeCodec OutcomeBuild OutcomeVerify OutcomeRadix OutcomeMerge OutcomeLoad OutcomeStore.
Import GoText Sha256 OutcomeSet OutcomeLists OutcomeCodec OutcomeBuild OutcomeVerify OutcomeRadix OutcomeMerge OutcomeLoad OutcomeStore.

Module OutcomeProps.

(** ** A demonstration: three hashes, two of them in one group *)
Definition demo_hash (prefix last : Z) : bytes := be_uint16 prefix ++ replicate 29 (byte_of 0) ++ [byte_of last].
Definition demo_a : bytes := demo_hash 258 1.
Definition demo_b : bytes := demo_hash 258 2.
Definition demo_c : bytes := demo_hash 772 3.

Lemma demo_hashes : Forall hash32 [demo_a; demo_b; demo_c].
Proof. repeat constructor. Qed.

Definition no_members (o : OutcomeHashSetObjectsV5) : OutcomeHashSetObjectsV5 := MkObjects (objSet o) (Leaves o) (Blocks o) None.

#[local] Opaque sha256HexV5 seqZ.

(** What is hashed in a graph: its root, its leaves, its blocks. *)
Definition graph_texts (o : OutcomeHashSetObjectsV5) : list bytes :=
  RootManifest (objSet o) :: map Payload (map_values (Leaves o)) ++ map Manifest (map_values (Blocks o)).

Section helpers.

Lemma built_members input o : Forall hash32 input -> Z.of_nat (length input) < 2 ^ 31 -> buildOutcomeHashSetFromBinaryV5 input = Ok o ->
  members_ok (uniqueOutcomeHashesV5 input) /\ graph_of (uniqueOutcomeHashesV5 input) o /\
  buildOutcomeHashSetFromBinaryV5 (uniqueOutcomeHashesV5 input) = Ok o.
Proof.
  intros HF Hn Hb. pose proof (unique_ok input HF Hn) as HM. split; [done|]. split; [by apply build_graph|]. by rewrite build_unique.
Qed.

Lemma built_set input o : Forall hash32 input -> Z.of_nat (length input) < 2 ^ 31 -> buildOutcomeHashSetFromBinaryV5 input = Ok o ->
  objSet o = the_set (uniqueOutcomeHashesV5 input).
Proof. intros HF Hn Hb. by destruct (built_members input o HF Hn Hb) as (_ & [E _] & _). Qed.

Lemma union_unique l r : spec_union (uniqueOutcomeHashesV5 l) r = uniqueOutcomeHashesV5 (l ++ r).
Proof. apply unique_ext. intros x. by rewrite !elem_of_app, elem_unique. Qed.

Lemma novel_ext l k r : (forall x, x ∈ l <-> x ∈ k) -> spec_novel l r = spec_novel k r.
Proof. intros E. apply list_filter_iff. intros x. by rewrite E. Qed.

Lemma difference_members root o cand : Forall hash32 root -> Z.of_nat (length root) < 2 ^ 31 -> buildOutcomeHashSetFromBinaryV5 root = Ok o ->
  DifferenceAndUnion o cand =
    buildOutcomeHashSetFromBinaryV5 (root ++ candHashes cand) ≫= fun built => Ok (built, spec_novel root (candHashes cand)).
Proof.
  intros HF Hn Hb. destruct (built_members root o HF Hn Hb) as (HM & HG & Hu). rewrite (difference_step _ o cand HM HG Hu), union_unique, build_unique.
  by rewrite (novel_ext _ root) by (intros x; apply elem_unique).
Qed.

(** The cached members are read only when present. *)
Lemma difference_cached o cand members : members <> [] -> Members o = Some members -> decodeOutcomeMembersV5 o = Ok members ->
  DifferenceAndUnion (no_members o) cand = DifferenceAndUnion o cand.
Proof.
  intros _ E D. unfold DifferenceAndUnion. change (VerifySetDigest (no_members o)) with (VerifySetDigest o).
  change (decodeOutcomeMembersV5 (no_members o)) with (decodeOutcomeMembersV5 o). rewrite E, D. reflexivity.
Qed.

Lemma run_texts_last batches : forall M, StronglySorted clt M -> all_texts (run_members M batches) ⊆ run_texts M batches.
Proof.
  induction batches as [|batch rest IH]; intros M HS; cbn [run_texts]; intros x Hx; apply elem_of_app.
  - left. unfold run_members, spec_union in Hx. cbn [concat] in Hx. by rewrite app_nil_r, unique_id in Hx.
  - right. rewrite run_members_cons in Hx. apply IH; [apply unique_sorted|done].
Qed.

Lemma charges_each batches : forall M, run_charges M batches = imap (fun i batch => spec_novel (M ++ concat (take i batches)) batch) batches.
Proof.
  induction batches as [|batch rest IH]; intros M; [done|]. cbn [run_charges imap take concat]. f_equal; [by rewrite app_nil_r|].
  rewrite IH. apply imap_ext. intros i b _. cbn [take concat compose]. apply novel_ext. intros x. unfold spec_union. rewrite app_assoc, !(elem_of_app _ _ x), elem_unique, elem_of_app.
  done.
Qed.

(** The texts of a built graph. *)
Lemma graph_texts_all M o : graph_of M o -> all_texts M ⊆ graph_texts o.
Proof.
  intros (Es & HL & HB & _) x [->|[(l & -> & Hl)%list_elem_of_fmap|(b & -> & Hb)%list_elem_of_fmap]%elem_of_app]%elem_of_cons; unfold graph_texts.
  - rewrite Es. by left.
  - right. apply elem_of_app. left. apply list_elem_of_fmap_2, elem_map_values. exists (LeafSHA256 l). by apply HL.
  - right. apply elem_of_app. right. apply list_elem_of_fmap_2, elem_map_values. exists (BlockSHA256 b). by apply HB.
Qed.

Lemma built_texts input o : Forall hash32 input -> Z.of_nat (length input) < 2 ^ 31 -> buildOutcomeHashSetFromBinaryV5 input = Ok o ->
  all_texts (uniqueOutcomeHashesV5 input) ⊆ graph_texts o.
Proof. intros HF Hn Hb. by apply graph_texts_all, (built_members input o HF Hn Hb). Qed.

(** Nothing is written yet. *)
Lemma empty_good xs : good_store (MkObjectStore ∅ ∅ ∅) xs.
Proof.
  split; [split; intros d r; cbn; by rewrite lookup_empty|]. intros t Ht. unfold store_texts, map_values in Ht. cbn in Ht.
  rewrite !map_to_list_empty in Ht. by apply elem_of_nil in Ht.
Qed.
End helpers.

(** ** Properties *)

(** C19: A root's outcome history is exact.  From empty tables, every sequence of
    batches is settled; the head's digest is then that of the set built from all
    batches at once, and the i-th charge is exactly the hashes of its batch that
    no earlier batch brought, so all charges together are the distinct hashes,
    each once.  Otherwise two of the listed texts collide. *)
Theorem outcome_history (batches : list (list bytes)) (HF : Forall (Forall hash32) batches) (Hn : Z.of_nat (length (concat batches)) < 2 ^ 31) :
  (exists st digest charged whole,
    outcome_run (MkObjectStore ∅ ∅ ∅) "" batches = Ok (st, digest, charged) /\
    buildOutcomeHashSetFromBinaryV5 (concat batches) = Ok whole /\
    (concat batches <> [] -> digest = SetSHA256 (objSet whole)) /\
    charged = imap (fun i batch => spec_novel (concat (take i batches)) batch) batches /\
    concat charged ≡ₚ uniqueOutcomeHashesV5 (concat batches)) \/
  collides (run_texts [] batches) (run_texts [] batches).
Proof.
  set (xs := run_texts [] batches). destruct (decide (collides xs xs)) as [|Hc]; [by right|left]. pose proof (no_collision xs Hc) as nocoll.
  assert (members_ok []) as H0 by (split; [done|constructor|done]).
  destruct (outcome_run_ok batches (MkObjectStore ∅ ∅ ∅) "" [] xs H0 HF Hn nocoll (fun x H => H) (empty_good xs) (or_introl (conj eq_refl eq_refl))) as (st & digest & Hr & Hh).
  assert (Forall hash32 (concat batches)) as HFc by (by apply Forall_concat).
  destruct (build_total (concat batches) (unique_ok _ HFc Hn)) as [[whole Hb]|Hcol].
  2: { exfalso. apply Hc. eapply collides_sub; [| |exact Hcol]; intros x Hx; apply run_texts_last; [constructor|by right|constructor|by right]. }
  exists st, digest, (run_charges [] batches), whole. split; [exact Hr|]. split; [exact Hb|]. split; [|split].
  - intros Hne. rewrite (built_set _ _ HFc Hn Hb). destruct Hh as [[_ E]|[-> _]]; [|done].
    destruct Hne. apply list_nil_subseteq. intros x Hx. rewrite <- E. by apply elem_unique.
  - by rewrite charges_each.
  - apply (charges_perm batches []). constructor.
Qed.

Definition demo_batches : list (list bytes) := [[demo_b; demo_a]; [demo_c; demo_a; demo_c]].

(** The texts of the demonstration's three heads. *)
Definition texts_of (input : list bytes) : list bytes :=
  match buildOutcomeHashSetFromBinaryV5 input with Ok o => graph_texts o | Err _ => [] end.

Lemma texts_of_all input : Forall hash32 input -> Z.of_nat (length input) < 2 ^ 31 -> is_ok (buildOutcomeHashSetFromBinaryV5 input) = true ->
  all_texts (uniqueOutcomeHashesV5 input) ⊆ texts_of input.
Proof.
  intros HF Hn Hok. unfold texts_of. destruct (buildOutcomeHashSetFromBinaryV5 input) as [o|] eqn:E; [|done]. by apply built_texts.
Qed.

Lemma demo_history_texts : ~ collides (run_texts [] demo_batches) (run_texts [] demo_batches).
Proof.
  set (ys := texts_of [] ++ texts_of [demo_b; demo_a] ++ texts_of [demo_b; demo_a; demo_c]).
  assert (~ collides ys ys) as Hn by (apply (bool_decide_eq_false_1 _); vm_compute; reflexivity).
  assert (run_texts [] demo_batches ⊆ ys) as Hs; [|intros Hc; apply Hn; by apply (collides_sub _ _ ys ys Hs Hs)].
  pose proof (texts_of_all [] ltac:(constructor) eq_refl ltac:(vm_compute; reflexivity)) as T0.
  pose proof (texts_of_all [demo_b; demo_a] ltac:(repeat constructor) eq_refl ltac:(vm_compute; reflexivity)) as T1.
  pose proof (texts_of_all [demo_b; demo_a; demo_c] ltac:(repeat constructor) eq_refl ltac:(vm_compute; reflexivity)) as T2.
  change (run_texts [] demo_batches) with (all_texts (uniqueOutcomeHashesV5 []) ++ all_texts (spec_union [] [demo_b; demo_a]) ++
    all_texts (spec_union (spec_union [] [demo_b; demo_a]) [demo_c; demo_a; demo_c]) ++ []).
  assert (spec_union (spec_union [] [demo_b; demo_a]) [demo_c; demo_a; demo_c] = uniqueOutcomeHashesV5 [demo_b; demo_a; demo_c]) as ->.
  { apply unique_ext. intros x. unfold spec_union. rewrite !elem_of_app, elem_unique. cbn [app]. rewrite !elem_of_cons. tauto. }
  assert (spec_union [] [demo_b; demo_a] = uniqueOutcomeHashesV5 [demo_b; demo_a]) as -> by done.
  intros x. unfold ys. intros [Hx|[Hx|[Hx|[]%elem_of_nil]%elem_of_app]%elem_of_app]%elem_of_app; apply elem_of_app.
  - left. exact (T0 x Hx).
  - right. apply elem_of_app. left. exact (T1 x Hx).
  - right. apply elem_of_app. right. exact (T2 x Hx).
Qed.

Lemma outcome_history_witness : exists st digest whole,
    outcome_run (MkObjectStore ∅ ∅ ∅) "" demo_batches = Ok (st, digest, [[demo_a; demo_b]; [demo_c]]) /\
    buildOutcomeHashSetFromBinaryV5 (concat demo_batches) = Ok whole /\ digest = SetSHA256 (objSet whole).
Proof.
  assert (Forall (Forall hash32) demo_batches) as HF by (repeat constructor).
  destruct (outcome_history demo_batches HF eq_refl) as [(st & digest & charged & whole & Hr & Hb & Hd & Hc & _)|Hc].
  2: { exfalso. exact (demo_history_texts Hc). }
  exists st, digest, whole. split; [|split; [done|by apply Hd]]. rewrite Hr. do 2 f_equal. rewrite Hc. vm_compute. reflexivity.
Defined.
(** C20: The transaction trusts a digest and nothing else.  Whatever the tables
    hold, when it succeeds from the digest of a built set it returns what the
    in-memory [DifferenceAndUnion] of that set returns: the same set and the same
    new hashes, or two of the listed texts collide. *)
Theorem radix_agrees (st : ObjectStore) (root : list bytes) (cand : OutcomeCandidateV5) base res novel tel whole fresh
    (HR : Forall hash32 root) (HC : Forall hash32 (candHashes cand)) (Hn : Z.of_nat (length root + length (candHashes cand)) < 2 ^ 31)
    (Hbase : buildOutcomeHashSetFromBinaryV5 root = Ok base)
    (Htx : differenceAndUnionV5Tx st (SetSHA256 (objSet base)) cand = Ok (res, novel, tel))
    (Hmem : DifferenceAndUnion base cand = Ok (whole, fresh)) :
  objSet res = objSet whole /\ novel = fresh \/
  collides (graph_texts base ++ store_texts st) (graph_texts base ++ store_texts st).
Proof.
  set (xs := graph_texts base ++ store_texts st). destruct (decide (collides xs xs)) as [|Hc]; [by right|left]. pose proof (no_collision xs Hc) as nocoll.
  rewrite (difference_members root) in Hmem by (done || lia). apply bind_ok in Hmem as (built & Hb & [= -> <-]).
  destruct (built_members root base HR ltac:(lia) Hbase) as (HM & HG & _). set (M := uniqueOutcomeHashesV5 root) in *. rewrite (proj1 HG) in Htx.
  set (C := uniqueOutcomeHashesV5 (candHashes cand)).
  assert (members_ok C) as HCM by (apply unique_ok; [done|lia]). assert (spec_union M C = uniqueOutcomeHashesV5 (root ++ candHashes cand)) as EN.
  { apply unique_ext. intros x. unfold M, C. by rewrite !elem_of_app, !elem_unique. }
  assert (members_ok (spec_union M C)) as HN by (rewrite EN; apply unique_ok; [by apply Forall_app|rewrite length_app; lia]).
  destruct (tx_sound M C HM HCM HN st xs nocoll) with (cand := cand) (res := res) (novel := novel) (tel := tel) as (Er & -> & _); [|by intros x Hx; apply elem_of_app; right|done|done|].
  { intros x Hx. apply elem_of_app. left. by apply (graph_texts_all M base HG). }
  split.
  - rewrite Er, EN. symmetry. apply built_set; [by apply Forall_app|rewrite length_app; lia|done].
  - unfold M, C. rewrite (novel_ext _ root) by (intros x; apply elem_unique). unfold spec_novel. by rewrite (unique_id (uniqueOutcomeHashesV5 _)) by apply unique_sorted.
Qed.

(** Difference and union of a built set: the candidates that are not members,
    sorted and once each, and the graph built from both lists; the same when the
    cached members are dropped, as in a graph that is read back. *)
Theorem difference_and_union (root : list bytes) (cand : OutcomeCandidateV5) base
    (HR : Forall hash32 root) (Hn : Z.of_nat (length root) < 2 ^ 31) (Hbase : buildOutcomeHashSetFromBinaryV5 root = Ok base) :
  DifferenceAndUnion base cand =
    buildOutcomeHashSetFromBinaryV5 (root ++ candHashes cand) ≫= (fun whole => Ok (whole, spec_novel root (candHashes cand))) /\
  DifferenceAndUnion (no_members base) cand = DifferenceAndUnion base cand.
Proof.
  split; [by apply difference_members|]. destruct (built_members root base HR Hn Hbase) as (HM & HG & _). pose proof (decode_graph _ base HM HG) as D.
  pose proof (proj2 (proj2 (proj2 HG))) as E. set (M := uniqueOutcomeHashesV5 root) in *. clearbody M. destruct M as [|h M].
  - assert (no_members base = base) as ->; [|done]. destruct base as [s ls bs ms]. unfold no_members. cbn [Members objSet Leaves Blocks] in *. by rewrite E.
  - by apply (difference_cached base cand (h :: M)).
Qed.

(** C21: A digest names one set: built sets have the same digest exactly when they
    have the same members, or two of their texts collide. *)
Theorem set_digest_identifies (l r : list bytes) a b (HL : Forall hash32 l) (HR : Forall hash32 r)
    (Hl : Z.of_nat (length l) < 2 ^ 31) (Hr : Z.of_nat (length r) < 2 ^ 31)
    (Ha : buildOutcomeHashSetFromBinaryV5 l = Ok a) (Hb : buildOutcomeHashSetFromBinaryV5 r = Ok b) :
  ((forall h, h ∈ l <-> h ∈ r) -> objSet a = objSet b) /\
  (SetSHA256 (objSet a) = SetSHA256 (objSet b) ->
    (forall h, h ∈ l <-> h ∈ r) \/ collides (graph_texts a ++ graph_texts b) (graph_texts a ++ graph_texts b)).
Proof.
  rewrite (built_set l a), (built_set r b) by done. split.
  - intros E. by rewrite (unique_ext l r).
  - intros E. apply digest_names in E as [E|Hc]; [left|right|by apply unique_ok|by apply unique_ok].
    + intros h. by rewrite <- (elem_unique h l), <- (elem_unique h r), E.
    + assert (all_texts (uniqueOutcomeHashesV5 l) ++ all_texts (uniqueOutcomeHashesV5 r) ⊆ graph_texts a ++ graph_texts b) as Hs.
      { intros x. rewrite !elem_of_app. pose proof (built_texts l a HL Hl Ha x). pose proof (built_texts r b HR Hr Hb x). tauto. }
      by apply (collides_sub _ _ _ _ Hs Hs).
Qed.

(** Verification accepts every built graph and only graphs whose root is that
    of the set decoded from their leaves. *)
Theorem verify_exact (input : list bytes) (o : OutcomeHashSetObjectsV5) (HF : Forall hash32 input) (Hn : Z.of_nat (length input) < 2 ^ 31) :
  (buildOutcomeHashSetFromBinaryV5 input = Ok o -> VerifySetDigest o = Ok tt /\ decodeOutcomeMembersV5 o = Ok (uniqueOutcomeHashesV5 input)) /\
  (VerifySetDigest o = Ok tt -> Cardinality (objSet o) < 2 ^ 31 -> exists members,
    decodeOutcomeMembersV5 o = Ok members /\ StronglySorted clt members /\ Cardinality (objSet o) = Z.of_nat (length members) /\
    forall rebuilt, buildOutcomeHashSetFromBinaryV5 members = Ok rebuilt -> objSet o = objSet rebuilt).
Proof.
  split.
  - intros Hb. destruct (built_members input o HF Hn Hb) as (HM & HG & Hu). split; [by apply (graph_verifies _ o HM HG Hu)|by apply decode_graph].
  - intros Hv Hc. destruct (verified_graph o Hv Hc) as (M & HD & HM & Hs & _). exists M. split; [done|]. split; [by apply HM|].
    split; [by rewrite Hs|]. intros rebuilt Hb. rewrite Hs, (built_set M rebuilt), unique_id by (done || apply HM). done.
Qed.

(** C22: Bytes and contents determine each other.  A leaf decodes exactly when it
    is the canonical encoding of 1 to 4096 strictly increasing hashes of one
    prefix; the readers of the two manifests are the inverses of their writers on
    exactly the references that are in order, with positive cardinalities that
    add up and digests of 32 bytes in lower case. *)
Theorem codecs_exact (payload : bytes) (prefix16 chunk prefix cardinality count : Z) (hs : list bytes) blocks leaves (Hp : 0 <= prefix < 256) :
  (decodeOutcomeLeafV5 payload = Ok (hs, prefix16, chunk) <->
    payload = canonicalOutcomeLeafV5 prefix16 chunk hs /\ good_leaf prefix16 chunk hs) /\
  (parseV5RootManifestReferences payload cardinality count = Ok blocks <->
    canonicalOutcomeRootV5 cardinality blocks = Ok payload /\ root_refs_ok (-1) 0 blocks /\ count = Z.of_nat (length blocks) /\ cardinality <= max_int64) /\
  (parseV5BlockManifestReferences payload prefix cardinality = Ok leaves <->
    canonicalOutcomeBlockV5 prefix leaves = Ok (payload, cardinality) /\ leaves <> [] /\ Forall (good_leaf_ref prefix) leaves /\
    chunks_ordered (-1) 0 leaves /\ Z.of_nat (length leaves) < 2 ^ 32).
Proof.
  split; [|split]; split.
  - apply decode_leaf_inv.
  - intros [-> Hg]. by apply decode_leaf_canonical.
  - intros (-> & -> & Hok & Hs & Hc)%parse_root_inv. rewrite canonical_root_ok by (done || lia). split; [done|]. split; [done|]. split; [done|lia].
  - intros (Hb & Hok & -> & Hc). destruct (canonical_root_inv cardinality blocks payload Hok Hb) as (-> & Hs & H0). by apply parse_root_ok.
  - intros (-> & -> & Hne & HF & Ho & Hl)%parse_block_inv; [|done]. by rewrite canonical_block_ok.
  - intros (Hb & Hne & HF & Ho & Hl). rewrite canonical_block_ok in Hb by done. apply Ok_inj in Hb. injection Hb as <- <-. by apply parse_block_ok.
Qed.

(** ** Witnesses *)
Definition demo_build (input : list bytes) : OutcomeHashSetObjectsV5 :=
  match buildOutcomeHashSetFromBinaryV5 input with Ok o => o | Err _ => MkObjects (MkSet "" 0 0 []) ∅ ∅ None end.
Definition demo_store : ObjectStore :=
  match persistV5SetObjectsTx (MkObjectStore ∅ ∅ ∅) (demo_build [demo_b; demo_a]) with Ok st => st | Err _ => MkObjectStore ∅ ∅ ∅ end.
Definition demo_candidate : OutcomeCandidateV5 := MkCandidate [] [demo_c; demo_a; demo_c].

Lemma demo_novel : spec_novel [demo_b; demo_a] (candHashes demo_candidate) = [demo_c].
Proof. vm_compute. reflexivity. Qed.

Lemma ok_inhabits {A} (r : result A) : is_ok r = true -> exists x, r = Ok x.
Proof. destruct r as [x|]; [by exists x|done]. Qed.

Lemma demo_build_ok input : is_ok (buildOutcomeHashSetFromBinaryV5 input) = true -> buildOutcomeHashSetFromBinaryV5 input = Ok (demo_build input).
Proof. intros [o E]%ok_inhabits. unfold demo_build. by rewrite E. Qed.

Lemma radix_agrees_witness : exists res novel tel,
  differenceAndUnionV5Tx demo_store (SetSHA256 (objSet (demo_build [demo_b; demo_a]))) demo_candidate = Ok (res, novel, tel) /\
  objSet res = objSet (demo_build [demo_b; demo_a; demo_c; demo_a; demo_c]) /\ novel = [demo_c].
Proof.
  destruct (ok_inhabits (differenceAndUnionV5Tx demo_store (SetSHA256 (objSet (demo_build [demo_b; demo_a]))) demo_candidate)) as [[[res novel] tel] Htx];
    [vm_compute; reflexivity|].
  pose proof (demo_build_ok [demo_b; demo_a] ltac:(vm_compute; reflexivity)) as Hb.
  pose proof (demo_build_ok [demo_b; demo_a; demo_c; demo_a; demo_c] ltac:(vm_compute; reflexivity)) as Hw.
  assert (Forall hash32 [demo_b; demo_a]) as HR by (repeat constructor). assert (Forall hash32 (candHashes demo_candidate)) as HC by (repeat constructor).
  assert (DifferenceAndUnion (demo_build [demo_b; demo_a]) demo_candidate = Ok (demo_build [demo_b; demo_a; demo_c; demo_a; demo_c], [demo_c])) as Hm.
  { rewrite (difference_members [demo_b; demo_a] _ demo_candidate HR eq_refl Hb). change ([demo_b; demo_a] ++ candHashes demo_candidate) with [demo_b; demo_a; demo_c; demo_a; demo_c].
    rewrite Hw. cbn [mbind result_bind]. rewrite demo_novel. reflexivity. }
  exists res, novel, tel. split; [done|].
  destruct (radix_agrees demo_store [demo_b; demo_a] demo_candidate _ res novel tel _ _ HR HC eq_refl Hb Htx Hm) as [|Hc]; [done|].
  exfalso. revert Hc. apply (bool_decide_eq_false_1 _). vm_compute. reflexivity.
Defined.

Lemma difference_and_union_witness :
  DifferenceAndUnion (demo_build [demo_b; demo_a]) demo_candidate =
    buildOutcomeHashSetFromBinaryV5 [demo_b; demo_a; demo_c; demo_a; demo_c] ≫= (fun whole => Ok (whole, [demo_c])).
Proof.
  pose proof (demo_build_ok [demo_b; demo_a] ltac:(vm_compute; reflexivity)) as Hb. assert (Forall hash32 [demo_b; demo_a]) as HR by (repeat constructor).
  destruct (difference_and_union [demo_b; demo_a] demo_candidate _ HR eq_refl Hb) as [H _]. rewrite demo_novel in H.
  change ([demo_b; demo_a] ++ candHashes demo_candidate) with [demo_b; demo_a; demo_c; demo_a; demo_c] in H. exact H.
Defined.

Lemma set_digest_identifies_witness :
  objSet (demo_build [demo_b; demo_a]) = objSet (demo_build [demo_a; demo_b; demo_a]) /\
  SetSHA256 (objSet (demo_build [demo_a])) <> SetSHA256 (objSet (demo_build [demo_b])).
Proof.
  assert (forall l r, Forall hash32 l -> Forall hash32 r -> Z.of_nat (length l) < 2 ^ 31 -> Z.of_nat (length r) < 2 ^ 31 ->
    is_ok (buildOutcomeHashSetFromBinaryV5 l) = true -> is_ok (buildOutcomeHashSetFromBinaryV5 r) = true ->
    ((forall h, h ∈ l <-> h ∈ r) -> objSet (demo_build l) = objSet (demo_build r)) /\
    (SetSHA256 (objSet (demo_build l)) = SetSHA256 (objSet (demo_build r)) -> (forall h, h ∈ l <-> h ∈ r) \/
      collides (graph_texts (demo_build l) ++ graph_texts (demo_build r)) (graph_texts (demo_build l) ++ graph_texts (demo_build r)))) as H.
  { intros l r HL HR Hl Hr Ha Hb. apply (set_digest_identifies l r _ _ HL HR Hl Hr (demo_build_ok l Ha) (demo_build_ok r Hb)). }
  split.
  - apply (H [demo_b; demo_a] [demo_a; demo_b; demo_a]); [repeat constructor..|reflexivity|reflexivity|vm_compute; reflexivity|vm_compute; reflexivity|].
    intros h. rewrite !elem_of_cons. tauto.
  - intros E. destruct (proj2 (H [demo_a] [demo_b] ltac:(repeat constructor) ltac:(repeat constructor) eq_refl eq_refl ltac:(vm_compute; reflexivity) ltac:(vm_compute; reflexivity)) E) as [Hx|Hc].
    + assert (demo_a ∈ [demo_b]) as Ha by (apply Hx; by left). apply list_elem_of_singleton in Ha. revert Ha. apply (bool_decide_eq_false_1 _). vm_compute. reflexivity.
    + revert Hc. apply (bool_decide_eq_false_1 _). vm_compute. reflexivity.
Defined.

Lemma verify_exact_witness : VerifySetDigest (demo_build [demo_b; demo_a]) = Ok tt /\ decodeOutcomeMembersV5 (demo_build [demo_b; demo_a]) = Ok [demo_a; demo_b].
Proof.
  assert (uniqueOutcomeHashesV5 [demo_b; demo_a] = [demo_a; demo_b]) as <- by (vm_compute; reflexivity).
  apply (verify_exact [demo_b; demo_a]); [repeat constructor|done|apply demo_build_ok; vm_compute; reflexivity].
Defined.

Lemma codecs_exact_witness : exists payload, canonicalOutcomeBlockV5 1 [LeafRef 258 0 (sha256HexV5 []) 2] = Ok (payload, 2) /\
  parseV5BlockManifestReferences payload 1 2 = Ok [LeafRef 258 0 (sha256HexV5 []) 2].
Proof.
  destruct (ok_inhabits (canonicalOutcomeBlockV5 1 [LeafRef 258 0 (sha256HexV5 []) 2])) as [[payload card] E]; [vm_compute; reflexivity|].
  exists payload. assert (card = 2) as ->.
  { assert ((canonicalOutcomeBlockV5 1 [LeafRef 258 0 (sha256HexV5 []) 2] ≫= fun r => Ok r.2) = Ok 2) as E2 by (vm_compute; reflexivity). rewrite E in E2. by injection E2. }
  split; [done|]. apply (codecs_exact payload 258 0 1 2 0 [] [] [LeafRef 258 0 (sha256HexV5 []) 2] ltac:(lia)). split; [done|]. split; [done|]. split; [|split; [cbn; lia|done]].
  repeat constructor; cbn; try lia. exact (sha_good []).
Defined.

(** ** A finding: the cached members are trusted

    [DifferenceAndUnion] verifies the object graph, then takes [Members] from the
    caller: with other members it reports a hash of the set as new, or a new hash
    as old. *)
Theorem members_unverified : exists o : OutcomeHashSetObjectsV5,
  VerifySetDigest o = Ok tt /\ decodeOutcomeMembersV5 o = Ok [demo_a] /\ Members o = Some [demo_b] /\
  (DifferenceAndUnion o (MkCandidate [] [demo_a; demo_b]) ≫= fun r => Ok r.2) = Ok [demo_a].
Proof.
  exists (let o := demo_build [demo_a] in MkObjects (objSet o) (Leaves o) (Blocks o) (Some [demo_b])).
  split; [|split; [|split; [reflexivity|]]]; vm_compute; reflexivity.
Qed.
End OutcomeProps.
