(* ===== verification/OutcomeNames.v ===== *)
(** * The outcome sets a store names

    What a digest stands for in the tables of [OutcomeRadix]: the hashes of the
    leaves that the blocks of its root manifest list.  A set that was built and
    persisted is named by its digest, whatever is written later. *)

From S2P Require Import Prelude GoBytes Ordering GoText Sha256 FactId Witness OutcomeSet OutcomeLists OutcomeCodec OutcomeBuild OutcomeVerify OutcomeRadix OutcomeMerge OutcomeLoad OutcomeStore.
Import GoText Sha256 OutcomeSet OutcomeLists OutcomeCodec OutcomeBuild OutcomeVerify OutcomeRadix OutcomeMerge OutcomeLoad OutcomeStore.

Module OutcomeNames.
#[local] Opaque sha256HexV5 seqZ.

(** ** Reading a set back *)
Definition block_leaf_rows (st : ObjectStore) (digest : string) : list OutcomeHashLeafV5 :=
  match block_rows st !! digest with
  | Some row =>
      match parseV5BlockManifestReferences (row_manifest row) (row_prefix8 row) (row_block_cardinality row) with
      | Ok refs => omap (fun ref => scan_leaf (lrDigest ref) <$> leaf_rows st !! lrDigest ref) refs
      | Err _ => []
      end
  | None => []
  end.

Definition stored_leaves (st : ObjectStore) (digest : string) : list OutcomeHashLeafV5 :=
  match set_rows st !! digest with
  | Some row =>
      match parseV5RootManifestReferences (row_root_manifest row) (row_set_cardinality row) (row_block_count row) with
      | Ok blocks => flat_map (fun ref => block_leaf_rows st (brDigest ref)) blocks
      | Err _ => []
      end
  | None => []
  end.

(** The hashes a digest names; none when the tables do not know it. *)
Definition stored_hashes (st : ObjectStore) (digest : string) : list bytes := uniqueOutcomeHashesV5 (flat_map members_of (stored_leaves st digest)).

(** The digest names exactly these hashes, and the tables hold their graph. *)
Record names (st : ObjectStore) (digest : string) (M : list bytes) : Prop := {
  nm_members : members_ok M;
  nm_head : head_of st digest M;
}.

Lemma unique_nil : uniqueOutcomeHashesV5 [] = [].
Proof. apply list_nil_subseteq. intros x Hx. by apply elem_unique in Hx. Qed.

Lemma stored_nothing st digest : set_rows st !! digest = None -> stored_hashes st digest = [].
Proof. intros E. unfold stored_hashes, stored_leaves. rewrite E. apply unique_nil. Qed.

Lemma written_no_empty st : written st -> set_rows st !! "" = None.
Proof. intros W. destruct (set_rows st !! "") as [row|] eqn:E; [|done]. apply (wr_set st W) in E as (M & _ & E & _). by destruct (set_digest_nonempty M). Qed.

Lemma held_leaves st M l : members_ok M -> holds st M -> l ∈ stored_leaves st (SetSHA256 (the_set M)) <-> l ∈ all_leaves M.
Proof.
  intros HM (HS & HB & HL). unfold stored_leaves. rewrite HS. change (row_root_manifest (set_row (the_set M))) with (the_root M).
  change (row_set_cardinality (set_row (the_set M))) with (Z.of_nat (length M)). change (row_block_count (set_row (the_set M))) with (Z.of_nat (length (root_refs M))).
  rewrite (root_parses M HM). rewrite Witness.elem_flat_map.
  assert (forall b, 0 <= b < 256 -> used M b -> forall l, l ∈ block_leaf_rows st (BlockSHA256 (the_block M b)) <-> l ∈ block_leaves M b) as Hblock.
  { intros b Hb Hu k. unfold block_leaf_rows. rewrite HB by (apply elem_root_blocks; by exists b).
    change (row_manifest (block_row (the_block M b))) with (Manifest (the_block M b)). change (row_block_cardinality (block_row (the_block M b))) with (blockCardinality (the_block M b)).
    replace (row_prefix8 (block_row (the_block M b))) with b by (cbn; rewrite int32_id; [done|lia]). rewrite (block_parses M b HM Hb Hu). unfold block_refs.
    rewrite list_elem_of_omap. setoid_rewrite list_elem_of_fmap. assert (forall x, x ∈ block_leaves M b -> scan_leaf (LeafSHA256 x) <$> leaf_rows st !! LeafSHA256 x = Some x) as Hx.
    { intros x Hx. assert (x ∈ all_leaves M) as Hall by (apply elem_all_leaves; by exists b). rewrite HL by done. cbn. f_equal. by apply (leaf_row_facts M). }
    split.
    - intros (ref & (x & -> & Hin) & E). cbn [leaf_ref lrDigest] in E. rewrite Hx in E by done. by injection E as <-.
    - intros Hin. exists (leaf_ref k). split; [by exists k|]. cbn [leaf_ref lrDigest]. by apply Hx. }
  rewrite elem_all_leaves. split.
  - intros (ref & (b & Hb & Hu & ->)%elem_root_refs & Hin). exists b. split; [done|]. by apply Hblock.
  - intros (b & Hb & Hin). assert (used M b) as Hu by (intros E; unfold block_refs in E; destruct (block_leaves M b); [by apply elem_of_nil in Hin|done]).
    exists (block_ref (the_block M b)). split; [apply elem_root_refs; by exists b|]. by apply Hblock.
Qed.

Lemma held_hashes st M : members_ok M -> holds st M -> stored_hashes st (SetSHA256 (the_set M)) = M.
Proof.
  intros HM HH. rewrite <- (unique_id M) at 2 by apply HM. apply unique_ext. intros h. rewrite Witness.elem_flat_map, (elem_leaves M h HM). by setoid_rewrite held_leaves.
Qed.

Lemma named_hashes st digest M : written st -> names st digest M -> stored_hashes st digest = M.
Proof. intros W [HM [[-> ->]|[-> HH]]]; [by apply stored_nothing, written_no_empty|by apply held_hashes]. Qed.

(** ** Stores that only grow *)
Lemma store_le_trans st1 st2 st3 : store_le st1 st2 -> store_le st2 st3 -> store_le st1 st3.
Proof. intros (A1 & A2 & A3) (B1 & B2 & B3). split; [by etrans|]. split; by etrans. Qed.

#[export] Instance store_le_preorder : PreOrder store_le.
Proof. split; [by intros st|]. intros st1 st2 st3. apply store_le_trans. Qed.

Lemma holds_le st st' M : store_le st st' -> holds st M -> holds st' M.
Proof. intros L [HS HP]. split; [eapply lookup_weaken; [exact HS|apply L]|]. by apply (parts_le st). Qed.

Lemma names_le st st' digest M : store_le st st' -> names st digest M -> names st' digest M.
Proof. intros L [HM [?|[E HH]]]; (split; [done|]); [by left|right]. split; [done|]. by eapply holds_le. Qed.

Lemma store_texts_le st st' : store_le st st' -> store_texts st ⊆ store_texts st'.
Proof.
  assert (forall A B (f : A -> B) (m m' : gmap string A), m ⊆ m' -> map f (map_values m) ⊆ map f (map_values m')) as Hm.
  { intros A B f m m' Hsub x (r & -> & (d & Hd)%elem_map_values)%list_elem_of_fmap. apply list_elem_of_fmap_2, elem_map_values. exists d. by eapply lookup_weaken. }
  intros (L1 & L2 & L3) x. unfold store_texts. rewrite !elem_of_app. intros [Hx|[Hx|Hx]]; [left|right; left|right; right]; revert x Hx; by apply Hm.
Qed.

Lemma persisted_le st objects st' : written st -> persistV5SetObjectsTx st objects = Ok st' -> store_le st st'.
Proof. intros W Hp. by apply (persist_ok st objects st' Hp (written_valid st W)). Qed.

(** ** Building a set *)
Lemma build_cardinality input o : buildOutcomeHashSetFromBinaryV5 input = Ok o -> Cardinality (objSet o) = Z.of_nat (length (uniqueOutcomeHashesV5 input)).
Proof.
  unfold buildOutcomeHashSetFromBinaryV5. intros ([leaves byBlock] & _ & E)%bind_ok. apply bind_ok in E as ([blocks refs] & _ & E).
  apply bind_ok in E as (set & Hs & [= <-]). unfold set_of in Hs. by apply bind_ok in Hs as (root & _ & [= <-]).
Qed.

(** A graph that was built is persisted whole, or refused. *)
Lemma persist_built st input o st' : members_ok (uniqueOutcomeHashesV5 input) -> buildOutcomeHashSetFromBinaryV5 input = Ok o -> written st ->
  persistV5SetObjectsTx st o = Ok st' -> written st' /\ holds st' (uniqueOutcomeHashesV5 input) /\ objSet o = the_set (uniqueOutcomeHashesV5 input).
Proof.
  intros HM Hb W Hp. pose proof (build_graph input o HM Hb) as HG. pose proof HG as (Es & HL & HB & _). split; [|split; [|done]].
  - apply (persist_written [] (uniqueOutcomeHashesV5 input) st st' o HM); [by apply graph_extends|done|done|done].
  - destruct (persist_ok st o st' Hp (written_valid st W)) as (_ & _ & PL & PB & PS & _). split; [by rewrite <- Es|]. split.
    + intros b Hin. apply PB. by apply HB.
    + intros l Hin. apply PL; [by apply HL|]. pose proof (all_leaves_wf _ HM) as HF. rewrite Forall_forall in HF. by apply HF.
Qed.

Lemma candidates_unique st digest cand : differenceAndUnionV5Tx st digest (MkCandidate [] cand) = differenceAndUnionV5Tx st digest (MkCandidate [] (uniqueOutcomeHashesV5 cand)).
Proof. unfold differenceAndUnionV5Tx. cbn [candHashes]. by rewrite (unique_id (uniqueOutcomeHashesV5 cand)) by apply unique_sorted. Qed.

(** ** One settlement's union *)
Section union.
Context (st : ObjectStore) (digest : string) (M cand : list bytes) (xs : list bytes).
Context (nocoll : forall x y, x ∈ xs -> y ∈ xs -> sha256HexV5 x = sha256HexV5 y -> x = y).
Context (HN : names st digest M) (HC : Forall hash32 cand) (Hsize : Z.of_nat (length M + length (uniqueOutcomeHashesV5 cand)) < 2 ^ 31).
Context (W : written st) (HxM : all_texts M ⊆ xs) (Hxst : store_texts st ⊆ xs).

Lemma unique_hashes : Forall hash32 (uniqueOutcomeHashesV5 cand).
Proof. rewrite Forall_forall in HC |- *. intros x Hx. apply HC, elem_unique, Hx. Qed.

Lemma union_candidates : spec_union M (uniqueOutcomeHashesV5 cand) = spec_union M cand.
Proof. apply unique_ext. intros x. by rewrite !elem_of_app, elem_unique. Qed.

Lemma novel_candidates : spec_novel M (uniqueOutcomeHashesV5 cand) = spec_novel M cand.
Proof. unfold spec_novel. by rewrite (unique_id (uniqueOutcomeHashesV5 cand)) by apply unique_sorted. Qed.

Lemma union_ok : members_ok (spec_union M cand).
Proof. rewrite <- union_candidates. apply union_hashes; [apply HN|apply unique_hashes|done]. Qed.

Lemma union_written objects novel tel : differenceAndUnionV5Tx st digest (MkCandidate [] cand) = Ok (objects, novel, tel) ->
  objSet objects = the_set (spec_union M cand) /\ novel = spec_novel M cand /\
  forall st', persistV5SetObjectsTx st objects = Ok st' -> written st' /\ (all_texts (spec_union M cand) ⊆ xs -> holds st' (spec_union M cand)).
Proof.
  intros Htx. rewrite candidates_unique in Htx. destruct HN as [HM Hhead].
  destruct (step_tx_sound st digest M (uniqueOutcomeHashesV5 cand) xs HM unique_hashes Hsize nocoll HxM (conj W Hxst) Hhead objects novel tel Htx) as (Eset & En & Hext).
  rewrite union_candidates in Eset, Hext. rewrite novel_candidates in En. split; [done|]. split; [done|]. intros st' Hp. pose proof union_ok as HU. split.
  - by apply (persist_written M (spec_union M cand) st st' objects).
  - intros HxN. apply (persist_holds M (spec_union M cand) st st' objects xs HM HU nocoll); [intros x Hx; apply HxM; by right|intros x Hx; apply HxN; by right| |done|done|by apply written_valid|done].
    by apply (head_parts st digest).
Qed.
End union.

(** The union with hashes that were there already. *)
Lemma union_old M cand : members_ok M -> (forall x, x ∈ cand -> x ∈ M) -> spec_union M cand = M.
Proof.
  intros HM Hsub. rewrite <- (unique_id M) at 2 by apply HM. apply unique_ext. intros x. rewrite elem_of_app. naive_solver.
Qed.

Lemma novel_old M cand : spec_novel M cand = [] <-> forall x, x ∈ cand -> x ∈ M.
Proof.
  unfold spec_novel. split.
  - intros E x Hx. destruct (decide (x ∈ M)) as [|Hn]; [done|]. assert (x ∈ filter (fun y => y ∉ M) (uniqueOutcomeHashesV5 cand)) as Hin.
    { apply list_elem_of_filter. split; [done|]. by apply elem_unique. }
    rewrite E in Hin. by apply elem_of_nil in Hin.
  - intros Hsub. apply list_nil_subseteq. intros x [Hn Hx]%list_elem_of_filter. destruct Hn. by apply Hsub, elem_unique.
Qed.
End OutcomeNames.
