(* ===== verification/LedgerStore.v ===== *)
(** * The Control store

    The tables of the Control database that the budget and exposure ledgers
    read and write ([src/internal/control/types.go], [store.go], [errors.go],
    [audit.go] and the statements of [budget.go] and [exposure.go]).  A
    transaction is a function on the store: row locks make the transactions of
    one task sequential, an error rolls the transaction back.  Times are whole
    microseconds ([dbTime]).  The audit log keeps the columns of an event that
    are not JSON; its hash chain is [AuditChain]. *)

From S2P Require Import Prelude GoBytes.

Module Store.

(** ** Errors *)
Definition ErrNoRows := ErrNew "sql: no rows in result set".
Definition ErrNotFound := ErrNew "control: not found".
Definition ErrConflict := ErrNew "control: conflict".
Definition ErrInvalid := ErrNew "control: invalid argument".
Definition ErrTaskNotActive := ErrNew "control: task is not active".
Definition ErrTaskExpired := ErrNew "control: task expired".
Definition ErrViewSemanticChanged := ErrNew "control: view semantic changed".
Definition ErrBudgetExhausted := ErrNew "control: budget exhausted".
Definition ErrExposureBudgetExhausted := ErrNew "control: exposure budget exhausted".
Definition ErrExposureEvidenceRequired := ErrNew "control: exposure evidence required".
Definition ErrQueryInProgress := ErrNew "control: query already in progress".
Definition ErrReservationNotFound := ErrNew "control: budget reservation not found".
Definition ErrIdempotencyConflict := ErrNew "control: idempotency key reused with different payload".
Definition ErrInvalidStateChange := ErrNew "control: invalid task state transition".
Definition duplicate_key := ErrNew "duplicate key value violates unique constraint".
Definition foreign_key := ErrNew "insert violates foreign key constraint".

(** [&OpError{Op: op, Kind: kind, Cause: cause}]; a nil cause is [None]. *)
Definition opErr (op : string) (kind : goerror) (cause : option goerror) : goerror :=
  match cause with
  | None => ErrCtx ("control " +:+ op) kind
  | Some c => ErrWW (ErrCtx ("control " +:+ op) kind) c
  end.

(** ** Rows *)
Definition TaskAwaitingSubmission := "AWAITING_SUBMISSION".
Definition TaskAwaitingApproval := "AWAITING_APPROVAL".
Definition TaskActive := "ACTIVE".
Definition TaskArchived := "ARCHIVED".
Definition TerminalCompleted := "completed".
Definition TerminalBudgetExhausted := "budget_exhausted".
Definition TerminalRejected := "rejected".
Definition TerminalExpired := "expired".
Definition TerminalRevoked := "revoked".
Definition TerminalFailed := "failed".
Definition TaskViewBindingActive := "ACTIVE".
Definition TaskViewBindingRequireRebind := "REQUIRE_REBIND".
Definition QueryReserved := "RESERVED".
Definition QueryCompleted := "COMPLETED".
Definition QueryReleased := "RELEASED".
Definition QueryFailed := "FAILED".
Definition QueryIndeterminate := "INDETERMINATE".
Definition exposureReserved := "RESERVED".
Definition exposureSettled := "SETTLED".
Definition exposureReleased := "RELEASED".

Record Task := MkTask {
  tID : string; tPrincipalID : string; tObjective : string; tState : string; tTerminalReason : string;
  tCatalogVersion : string; tSensitivity : string; tRequestContext : string; tApprovalRef : string;
  tCreatedAt : Z; tUpdatedAt : Z; tExpiresAt : option Z; tRootTaskID : string; tParentTaskID : string;
}.

Record BudgetLimits := MkLimits { Queries : Z; Rows : Z; DBMS : Z }.
Record BudgetUsage := MkUsage {
  UsedQueries : Z; UsedRows : Z; UsedDBMS : Z; ReservedQueries : Z; ReservedRows : Z; ReservedDBMS : Z }.
Record BudgetSnapshot := MkBudget { bTaskID : string; Limits : BudgetLimits; Usage : BudgetUsage; bUpdatedAt : Z }.

Definition Remaining (b : BudgetSnapshot) : BudgetLimits :=
  MkLimits (Z.max 0 (Queries (Limits b) - UsedQueries (Usage b) - ReservedQueries (Usage b)))
           (Z.max 0 (Rows (Limits b) - UsedRows (Usage b) - ReservedRows (Usage b)))
           (Z.max 0 (DBMS (Limits b) - UsedDBMS (Usage b) - ReservedDBMS (Usage b))).

Record ExposureLimits := MkExposure { ReleaseFacts : Z; InfluenceFacts : Z; OutcomeFacts : Z }.
Record PredicateFootprintLimitsV1 := {
  pfVersion : string; MaxRawLiteralsPerQuery : Z; MaxUniqueAtomsPerQuery : Z;
  MaxAtomPayloadBytes : Z; MaxTotalAtomPayloadBytes : Z }.
Record ExposureGrant := MkExposureGrant {
  eLimits : ExposureLimits; eProfileVersion : string; ePredicateFootprint : option PredicateFootprintLimitsV1 }.

Definition Enabled (g : ExposureGrant) : bool :=
  (0 <? ReleaseFacts (eLimits g)) || (0 <? InfluenceFacts (eLimits g)) || (0 <? OutcomeFacts (eLimits g)) ||
  negb (bool_decide (eProfileVersion g = "")).

(** [task_grants]. *)
Record GrantRow := MkGrantRow {
  gSubject : string; gPurpose : string; gProducts : list string; gColumns : gmap string (list string); gScope : string;
  gCeiling : string; gBudget : BudgetLimits; gExpiresAt : Z; gCatalogVersion : string; gCatalogDigest : string;
  gDatasourceID : string; gSchemaDigest : string; gApprovalReceipt : string; gCreatedAt : Z;
  gViewBindingDigest : string; gExposureProfile : string; gExposureLimits : ExposureLimits;
  gPredicateFootprint : option PredicateFootprintLimitsV1 }.
Record ViewBindingStatus := MkViewStatus {
  vStatus : string; vBoundDigest : string; vObservedDigest : string; vDetectedAt : option Z }.
Record PrincipalRow := MkPrincipal {
  pID : string; pSubject : string; pRole : string; pTokenHash : string; pCreatedAt : Z; pDisabledAt : option Z }.
Record CallbackRow := MkCallback { cbPayloadSHA256 : string; cbStatus : string; cbResponse : bytes; cbLastError : string;
  cbClaimedAt : Z; cbCompletedAt : option Z }.
Record ApprovalRow := MkApproval { apTaskID : string; apActor : string; apDecision : string; apPayload : string; apCreatedAt : Z }.

Record QueryRecord := MkQuery {
  qID : string; qTaskID : string; qRequestID : string; qActor : string; qRequestDigest : string;
  qSQLFingerprint : string; qCatalogVersion : string; qCatalogDigest : string; qDatasourceID : string;
  qSchemaDigest : string; qViewBindingDigest : string; qManifestDigest : string; qGrantDigest : string;
  qPolicyDecision : string; qStatus : string; qReservedRows : Z; qReservedDBMS : Z; qResultRows : Z;
  qResultDBMS : Z; qResultObservedDBMS : Z; qChargedQueries : Z; qChargedRows : Z; qChargedDBMS : Z;
  qBudgetBefore : BudgetSnapshot; qBudgetAfter : option BudgetSnapshot; qResultSHA256 : string;
  qErrorCode : string; qCreatedAt : Z; qCompletedAt : option Z }.

Record ExposureLedgerSnapshot := MkLedger {
  lRootTaskID : string; lProfileVersion : string; lLimits : ExposureLimits; lUsed : ExposureLimits; lUpdatedAt : Z }.

Record ExposureReservationRow := MkReservation {
  rTaskID : string; rRootTaskID : string; rProfileVersion : string; rStatus : string;
  rEstimated : ExposureLimits; rActual : ExposureLimits; rCharged : ExposureLimits;
  rObservationSHA256 : string; rSettledAt : option Z }.

Record FactRow := MkFactRow {
  fIdentity : bytes; fPayload : option bytes; fFirstQuery : string; fFirstSeenAt : Z }.

Record AuditEvent := MkAudit { aSequence : Z; aTaskID : string; aQueryID : string; aActor : string; aEventType : string; aOccurredAt : Z }.

(** Keys of [exposure_facts] and [query_exposure_facts]. *)
Abbreviation fact_key := (string * string * string)%type (only parsing).
Abbreviation link_key := (string * string * string * string)%type (only parsing).

(** ** The store; [O] holds the tables of the V4 and V5 profiles. *)
Record Store {O : Type} := MkStore {
  principals : gmap string PrincipalRow;
  tasks : gmap string Task;
  grants : gmap string GrantRow;
  approvals : gmap string ApprovalRow;
  callbacks : gmap string CallbackRow;
  binding_sets : gmap string (string * bytes);
  dependencies : gset (string * string * string);
  view_status : gmap string ViewBindingStatus;
  budgets : gmap string BudgetSnapshot;
  queries : gmap string QueryRecord;
  ledgers : gmap string ExposureLedgerSnapshot;
  reservations : gmap string ExposureReservationRow;
  facts : gmap fact_key FactRow;
  links : gset link_key;
  audit : list AuditEvent;
  ordinal : O;
}.
Arguments Store : clear implicits.

Section setters.
Context {O : Type}.
Implicit Types s : Store O.

Definition with_principals s x : Store O := MkStore _ x (tasks s) (grants s) (approvals s) (callbacks s) (binding_sets s) (dependencies s) (view_status s) (budgets s) (queries s) (ledgers s) (reservations s) (facts s) (links s) (audit s) (ordinal s).
Definition with_tasks s x : Store O := MkStore _ (principals s) x (grants s) (approvals s) (callbacks s) (binding_sets s) (dependencies s) (view_status s) (budgets s) (queries s) (ledgers s) (reservations s) (facts s) (links s) (audit s) (ordinal s).
Definition with_grants s x : Store O := MkStore _ (principals s) (tasks s) x (approvals s) (callbacks s) (binding_sets s) (dependencies s) (view_status s) (budgets s) (queries s) (ledgers s) (reservations s) (facts s) (links s) (audit s) (ordinal s).
Definition with_approvals s x : Store O := MkStore _ (principals s) (tasks s) (grants s) x (callbacks s) (binding_sets s) (dependencies s) (view_status s) (budgets s) (queries s) (ledgers s) (reservations s) (facts s) (links s) (audit s) (ordinal s).
Definition with_callbacks s x : Store O := MkStore _ (principals s) (tasks s) (grants s) (approvals s) x (binding_sets s) (dependencies s) (view_status s) (budgets s) (queries s) (ledgers s) (reservations s) (facts s) (links s) (audit s) (ordinal s).
Definition with_binding_sets s x : Store O := MkStore _ (principals s) (tasks s) (grants s) (approvals s) (callbacks s) x (dependencies s) (view_status s) (budgets s) (queries s) (ledgers s) (reservations s) (facts s) (links s) (audit s) (ordinal s).
Definition with_dependencies s x : Store O := MkStore _ (principals s) (tasks s) (grants s) (approvals s) (callbacks s) (binding_sets s) x (view_status s) (budgets s) (queries s) (ledgers s) (reservations s) (facts s) (links s) (audit s) (ordinal s).
Definition with_view_status s x : Store O := MkStore _ (principals s) (tasks s) (grants s) (approvals s) (callbacks s) (binding_sets s) (dependencies s) x (budgets s) (queries s) (ledgers s) (reservations s) (facts s) (links s) (audit s) (ordinal s).
Definition with_budgets s x : Store O := MkStore _ (principals s) (tasks s) (grants s) (approvals s) (callbacks s) (binding_sets s) (dependencies s) (view_status s) x (queries s) (ledgers s) (reservations s) (facts s) (links s) (audit s) (ordinal s).
Definition with_queries s x : Store O := MkStore _ (principals s) (tasks s) (grants s) (approvals s) (callbacks s) (binding_sets s) (dependencies s) (view_status s) (budgets s) x (ledgers s) (reservations s) (facts s) (links s) (audit s) (ordinal s).
Definition with_ledgers s x : Store O := MkStore _ (principals s) (tasks s) (grants s) (approvals s) (callbacks s) (binding_sets s) (dependencies s) (view_status s) (budgets s) (queries s) x (reservations s) (facts s) (links s) (audit s) (ordinal s).
Definition with_reservations s x : Store O := MkStore _ (principals s) (tasks s) (grants s) (approvals s) (callbacks s) (binding_sets s) (dependencies s) (view_status s) (budgets s) (queries s) (ledgers s) x (facts s) (links s) (audit s) (ordinal s).
Definition with_facts s x : Store O := MkStore _ (principals s) (tasks s) (grants s) (approvals s) (callbacks s) (binding_sets s) (dependencies s) (view_status s) (budgets s) (queries s) (ledgers s) (reservations s) x (links s) (audit s) (ordinal s).
Definition with_links s x : Store O := MkStore _ (principals s) (tasks s) (grants s) (approvals s) (callbacks s) (binding_sets s) (dependencies s) (view_status s) (budgets s) (queries s) (ledgers s) (reservations s) (facts s) x (audit s) (ordinal s).
Definition with_audit s x : Store O := MkStore _ (principals s) (tasks s) (grants s) (approvals s) (callbacks s) (binding_sets s) (dependencies s) (view_status s) (budgets s) (queries s) (ledgers s) (reservations s) (facts s) (links s) x (ordinal s).
Definition with_ordinal s x : Store O := MkStore _ (principals s) (tasks s) (grants s) (approvals s) (callbacks s) (binding_sets s) (dependencies s) (view_status s) (budgets s) (queries s) (ledgers s) (reservations s) (facts s) (links s) (audit s) x.

(** [QueryRow(...).Scan(...)] of one row by primary key. *)
Definition select {A} (row : option A) : result A :=
  match row with Some a => Ok a | None => Err ErrNoRows end.

(** ** The audit log *)
Definition appendAuditTx s (task query actor kind : string) (at_ : Z) : result (Store O) :=
  fail_if (blank actor || blank kind) (ErrNew "actor and event type are required") ≫= fun _ =>
  Ok (with_audit s (audit s ++ [MkAudit (Z.of_nat (length (audit s)) + 1) task query actor kind at_])).

(** [UPDATE tasks SET state='ARCHIVED' ... WHERE id=$3 AND state <> 'ARCHIVED'], audited when it changed the row. *)
Definition archived (t : Task) (reason : string) (now : Z) : Task :=
  MkTask (tID t) (tPrincipalID t) (tObjective t) TaskArchived reason (tCatalogVersion t) (tSensitivity t)
    (tRequestContext t) (tApprovalRef t) (tCreatedAt t) now (tExpiresAt t) (tRootTaskID t) (tParentTaskID t).

Definition archiveTaskTx s (task reason actor : string) (now : Z) : result (Store O) :=
  match tasks s !! task with
  | Some t =>
      if bool_decide (tState t = TaskArchived) then Ok s
      else appendAuditTx (with_tasks s (<[task := archived t reason now]> (tasks s))) task "" actor "TASK_STATE_CHANGED" now
  | None => Ok s
  end.
End setters.

(** What leaves the budget, query and exposure tables alone. *)
Definition ledger_frame {O} (s s' : Store O) : Prop :=
  budgets s' = budgets s /\ queries s' = queries s /\ ledgers s' = ledgers s /\
  reservations s' = reservations s /\ facts s' = facts s /\ links s' = links s /\ grants s' = grants s.

#[export] Instance ledger_frame_preorder {O} : PreOrder (@ledger_frame O).
Proof.
  split; [by intros s|]. unfold ledger_frame. intros s1 s2 s3 H1 H2. destruct_and! H1. destruct_and! H2.
  repeat split; congruence.
Qed.

(** What no exposure operation touches; the audit log only grows. *)
Definition resource_frame {O} (s s' : Store O) : Prop :=
  tasks s' = tasks s /\ budgets s' = budgets s /\ queries s' = queries s /\ grants s' = grants s /\
  view_status s' = view_status s /\ principals s' = principals s /\ callbacks s' = callbacks s /\
  approvals s' = approvals s /\ binding_sets s' = binding_sets s /\ dependencies s' = dependencies s /\
  audit s `prefix_of` audit s'.

#[export] Instance resource_frame_preorder {O} : PreOrder (@resource_frame O).
Proof.
  split; [by intros s|]. unfold resource_frame. intros s1 s2 s3 H1 H2. destruct_and! H1. destruct_and! H2.
  do 10 (split; [congruence|]). by etrans.
Qed.

Lemma appendAudit_frame {O} (s s' : Store O) task query actor kind at_ :
  appendAuditTx s task query actor kind at_ = Ok s' -> ledger_frame s s' /\ tasks s' = tasks s /\ ordinal s' = ordinal s.
Proof. unfold appendAuditTx. intros [_ E]%fail_if_bind_ok. apply Ok_inj in E as <-. done. Qed.

Lemma appendAudit_resource {O} (s s' : Store O) task query actor kind at_ :
  appendAuditTx s task query actor kind at_ = Ok s' -> resource_frame s s'.
Proof.
  unfold appendAuditTx. intros [_ E]%fail_if_bind_ok. apply Ok_inj in E as <-. do 10 (split; [done|]).
  by apply prefix_app_r.
Qed.

Lemma select_ok {A} (row : option A) a : select row = Ok a <-> row = Some a.
Proof. destruct row; cbn; split; intros E; try done; [apply Ok_inj in E as ->|injection E as ->]; done. Qed.

Lemma archiveTask_frame {O} (s s' : Store O) task reason actor now :
  archiveTaskTx s task reason actor now = Ok s' -> ledger_frame s s' /\ ordinal s' = ordinal s.
Proof.
  unfold archiveTaskTx. destruct (tasks s !! task) as [t|]; [|by intros E%Ok_inj; subst].
  case_bool_decide; [by intros E%Ok_inj; subst|]. intros E. by apply appendAudit_frame in E as (? & _ & ?).
Qed.
End Store.
