(* ===== verification/AuditChain.v ===== *)
(** * The audit chain

    [src/internal/auditchain/auditchain.go], the chain of the Control store in
    [src/internal/control/audit.go], and the inclusion proofs the gateway
    serves ([auditInclusionProof] in [src/internal/gateway/query.go]).  Times
    are nanoseconds from the zero time.  [normalize] is the round trip of
    [encoding/json] on a payload, and [stored] the text PostgreSQL gives back
    for a JSONB payload; both are parameters. *)

From S2P Require Import Prelude GoBytes GoText GoJSON GoTime Sha256 FactId LedgerStore.
Import GoText GoJSON GoTime FactId.

Module AuditChain.

Definition GenesisHash : string := "0000000000000000000000000000000000000000000000000000000000000000".
Definition ErrInvalidProof := ErrNew "invalid audit inclusion proof".

Record Event := MkEvent {
  Sequence : Z; EventID : string; TaskID : string; QueryID : string; Actor : string; EventType : string;
  Payload : bytes; OccurredAt : Z; PreviousHash : string; CurrentHash : string }.
Record Checkpoint := MkCheckpoint { cpSequence : Z; cpHash : string }.
Record InclusionProof := MkProof {
  TerminalEvent : Event; PredecessorEvent : option Event; SuccessorEvents : list Event; ProofCheckpoint : Checkpoint }.

Definition IsZero (t : Z) : bool := t =? 0.
(** [dbTime]. *)
Definition dbTime (t : Z) : Z := microseconds t * 1000.

(** [json.Marshal] of [hashMaterial]. *)
Definition material (previous : string) (e : Event) (payload : bytes) : bytes :=
  json_object
    [ ("previous_hash", Some (json_string previous)); ("event_id", Some (json_string (EventID e)));
      ("task_id", Some (json_string (TaskID e))); ("query_id", Some (json_string (QueryID e)));
      ("actor", Some (json_string (Actor e))); ("event_type", Some (json_string (EventType e)));
      ("payload", Some payload); ("occurred_at", Some (json_string (of_bytes (FormatTime (OccurredAt e))))) ].

Definition validateHash (value name : string) : result unit :=
  fail_if (negb (str_len value =? 64) || negb (bool_decide (ToLower value = value)))
    (ErrW ErrInvalidProof (name +:+ " is not lowercase SHA-256")) ≫= fun _ =>
  match hex_decode value with
  | Some decoded => fail_if (negb (length decoded =? 32)%nat) (ErrW ErrInvalidProof (name +:+ " is not valid SHA-256"))
  | None => Err (ErrW ErrInvalidProof (name +:+ " is not valid SHA-256"))
  end.

(** ** What the material commits to *)
(** A time of the years 1 to 9999, which [FormatTime] writes. *)
Definition dated (e : Event) : Prop := writable (OccurredAt e).

Lemma last_quoted_inj a b x y : Forall (fun c => plain_byte c = true) x -> Forall (fun c => plain_byte c = true) y ->
  a ++ quote :: x = b ++ quote :: y -> a = b /\ x = y.
Proof.
  intros Hx Hy E. apply (f_equal (@rev ascii)) in E. rewrite !rev_app_distr in E. cbn [rev] in E. rewrite <- !app_assoc in E. cbn [app] in E.
  apply quoted_inj in E as [Ex Ea]; [|by apply Forall_rev..]. split; [by rewrite <- (rev_involutive a), Ea, rev_involutive|].
  by rewrite <- (rev_involutive x), Ex, rev_involutive.
Qed.

Lemma audit_material_inj p p' e e' x x' : plain p -> plain p' -> dated e -> dated e' -> material p e x = material p' e' x' ->
  p = p' /\ same_text (EventID e) (EventID e') /\ same_text (TaskID e) (TaskID e') /\ same_text (QueryID e) (QueryID e') /\
  same_text (Actor e) (Actor e') /\ same_text (EventType e) (EventType e') /\
  x = x' /\ microseconds (OccurredAt e) = microseconds (OccurredAt e').
Proof.
  intros Hp Hp' Pt Qt. unfold dated in Pt, Qt.
  pose (suffix (t : Z) := ([","%char] ++ json_string "occurred_at" ++ [":"%char]) ++ quote :: FormatTime t ++ [quote; "}"%char]).
  assert (Hshape : forall p e x, writable (OccurredAt e) -> material p e x =
    ["{"%char] ++ json_string "previous_hash" ++ [":"%char] ++ json_string p ++
    [","%char] ++ json_string "event_id" ++ [":"%char] ++ json_string (EventID e) ++
    [","%char] ++ json_string "task_id" ++ [":"%char] ++ json_string (TaskID e) ++
    [","%char] ++ json_string "query_id" ++ [":"%char] ++ json_string (QueryID e) ++
    [","%char] ++ json_string "actor" ++ [":"%char] ++ json_string (Actor e) ++
    [","%char] ++ json_string "event_type" ++ [":"%char] ++ json_string (EventType e) ++
    [","%char] ++ json_string "payload" ++ [":"%char] ++ x ++ suffix (OccurredAt e)).
  { clear. intros p e x Ht. unfold material, json_object. cbn [omap list_omap mbind option_bind fst snd map json_join]. unfold json_member, suffix.
    cbn [fst snd]. rewrite (plain_json (of_bytes (FormatTime (OccurredAt e)))) by (unfold plain; rewrite to_of_bytes; by apply FormatTime_plain).
    rewrite to_of_bytes. rewrite <- !app_assoc. cbn [app]. rewrite <- !app_assoc. done. }
  rewrite !Hshape by done. intros E.
  do 3 apply app_inv_head in E. apply json_string_inj in E as [E0 E]; [|done..]. do 3 apply app_inv_head in E. apply json_string_same in E as [E1 E].
  do 3 apply app_inv_head in E. apply json_string_same in E as [E2 E]. do 3 apply app_inv_head in E. apply json_string_same in E as [E3 E].
  do 3 apply app_inv_head in E. apply json_string_same in E as [E4 E]. do 3 apply app_inv_head in E. apply json_string_same in E as [E5 E].
  do 3 apply app_inv_head in E. unfold suffix in E. rewrite !app_assoc in E.
  change [quote; "}"%char] with ([quote] ++ ["}"%char]) in E. rewrite !app_comm_cons, !app_assoc in E.
  apply app_inj_tail in E as [E _]. apply app_inj_tail in E as [E _].
  apply last_quoted_inj in E as [Ex Et]; [|by apply FormatTime_plain..]. apply FormatTime_inj in Et; [|done..].
  repeat (apply app_inj_tail in Ex as [Ex _]). split_and!; try done.
  apply (f_equal (@rev ascii)) in Ex. rewrite !rev_app_distr in Ex. repeat apply app_inv_head in Ex.
  by rewrite <- (rev_involutive x), Ex, rev_involutive.
Qed.

Section chain.
Context (normalize : bytes -> result bytes).

Definition Hash (previous : string) (event : Event) : result string :=
  payload ← normalize (Payload event);
  Ok (Sha256.hex_sum (material previous event payload)).

Definition verifyLink (previousHash : string) (event : Event) : result unit :=
  fail_if (Sequence event <=? 0) (ErrW ErrInvalidProof "event sequence must be positive") ≫= fun _ =>
  fail_if (blank (EventID event) || blank (Actor event) || blank (EventType event) || IsZero (OccurredAt event))
    (ErrW ErrInvalidProof "event identity fields are missing") ≫= fun _ =>
  fail_if (negb (same (PreviousHash event) previousHash)) (ErrW ErrInvalidProof "event previous hash mismatch") ≫= fun _ =>
  validateHash previousHash "previous hash" ≫= fun _ =>
  validateHash (CurrentHash event) "current hash" ≫= fun _ =>
  expected ← map_err (ErrWV ErrInvalidProof) (Hash previousHash event);
  fail_if (negb (same expected (CurrentHash event))) (ErrW ErrInvalidProof "event current hash mismatch").

(** The loop over the successors: the last event of the path. *)
Fixpoint follow (previous : Event) (successors : list Event) : result Event :=
  match successors with
  | [] => Ok previous
  | successor :: rest =>
      fail_if (negb (Sequence successor =? Sequence previous + 1)) (ErrW ErrInvalidProof "successor sequence gap after %d") ≫= fun _ =>
      fail_if (negb (same (PreviousHash successor) (CurrentHash previous)))
        (ErrW ErrInvalidProof "successor does not link to previous event") ≫= fun _ =>
      verifyLink (PreviousHash successor) successor ≫= fun _ =>
      follow successor rest
  end.

Definition VerifyInclusion (proof : InclusionProof) : result unit :=
  let terminal := TerminalEvent proof in
  let checkpoint := ProofCheckpoint proof in
  fail_if (Sequence terminal <=? 0) (ErrW ErrInvalidProof "terminal sequence must be positive") ≫= fun _ =>
  validateHash (PreviousHash terminal) "terminal previous hash" ≫= fun _ =>
  validateHash (CurrentHash terminal) "terminal current hash" ≫= fun _ =>
  verifyLink (PreviousHash terminal) terminal ≫= fun _ =>
  match PredecessorEvent proof with
  | None =>
      fail_if (negb (Sequence terminal =? 1) || negb (same (PreviousHash terminal) GenesisHash))
        (ErrW ErrInvalidProof "missing predecessor event")
  | Some predecessor =>
      fail_if (negb (Sequence predecessor =? Sequence terminal - 1) || negb (same (CurrentHash predecessor) (PreviousHash terminal)))
        (ErrW ErrInvalidProof "predecessor does not link to terminal event") ≫= fun _ =>
      verifyLink (PreviousHash predecessor) predecessor
  end ≫= fun _ =>
  fail_if (cpSequence checkpoint <? Sequence terminal) (ErrW ErrInvalidProof "checkpoint precedes terminal event") ≫= fun _ =>
  validateHash (cpHash checkpoint) "checkpoint hash" ≫= fun _ =>
  previous ← follow terminal (SuccessorEvents proof);
  fail_if (negb (Sequence previous =? cpSequence checkpoint) || negb (same (CurrentHash previous) (cpHash checkpoint)))
    (ErrW ErrInvalidProof "path does not reach checkpoint").

(** The loop of [VerifyLinear]: the last sequence and hash. *)
Fixpoint linear (sequence : Z) (hash : string) (events : list Event) : result (Z * string) :=
  match events with
  | [] => Ok (sequence, hash)
  | event :: rest =>
      fail_if (negb (Sequence event =? sequence + 1)) (ErrW ErrInvalidProof "sequence gap at %d") ≫= fun _ =>
      verifyLink hash event ≫= fun _ =>
      linear (Sequence event) (CurrentHash event) rest
  end.

Definition VerifyLinear (events : list Event) (checkpoint : Checkpoint) : result unit :=
  '(sequence, hash) ← linear 0 GenesisHash events;
  fail_if (negb (cpSequence checkpoint =? sequence) || negb (same (cpHash checkpoint) hash))
    (ErrW ErrInvalidProof "checkpoint does not match event path").

(** ** The chain in the Control store: the rows and the head *)
Context (stored : bytes -> bytes).
Record Chain := MkChain { rows : list Event; last_sequence : Z; last_hash : string }.
Definition genesis : Chain := MkChain [] 0 GenesisHash.

Definition duplicate (c : Chain) (e : Event) : bool :=
  existsb (fun row => (Sequence row =? Sequence e) || same (EventID row) (EventID e) || same (CurrentHash row) (CurrentHash e)) (rows c).

Definition with_payload (e : Event) (payload : bytes) : Event :=
  MkEvent (Sequence e) (EventID e) (TaskID e) (QueryID e) (Actor e) (EventType e) payload (OccurredAt e) (PreviousHash e) (CurrentHash e).

(** [random] are the bytes [randomID] reads, [now] is the clock. *)
Definition appendAuditTx (c : Chain) (now : Z) (random : bytes) (event : Event) : result (Chain * Event) :=
  let eventID := if blank (EventID event) then "audit_" +:+ hex_encode random else EventID event in
  fail_if (blank (Actor event) || blank (EventType event)) (ErrNew "actor and event type are required") ≫= fun _ =>
  let occurredAt := dbTime (if IsZero (OccurredAt event) then now else OccurredAt event) in
  payload ← map_err (ErrCtx "invalid audit payload") (normalize (Payload event));
  let event := MkEvent (last_sequence c + 1) eventID (TaskID event) (QueryID event) (Actor event) (EventType event) payload
                 occurredAt (last_hash c) "" in
  hash ← Hash (last_hash c) event;
  let event := MkEvent (Sequence event) eventID (TaskID event) (QueryID event) (Actor event) (EventType event) payload
                 occurredAt (last_hash c) hash in
  fail_if (duplicate c event) Store.duplicate_key ≫= fun _ =>
  Ok (MkChain (rows c ++ [with_payload event (stored payload)]) (Sequence event) hash, event).

Definition AuditCheckpoint (c : Chain) : Checkpoint := MkCheckpoint (last_sequence c) (last_hash c).

Definition GetAuditEvent (c : Chain) (sequence : Z) : result Event :=
  let op := "get audit event" in
  fail_if (sequence <=? 0) (Store.opErr op Store.ErrInvalid (Some (ErrNew "sequence must be positive"))) ≫= fun _ =>
  map_err (fun e => Store.opErr op Store.ErrNotFound (Some e)) (Store.select (head (filter (fun e => Sequence e = sequence) (rows c)))).

(** The rows are in sequence order. *)
Definition ListAuditEventsRange (c : Chain) (after through : Z) : result (list Event) :=
  fail_if ((after <? 0) || (through <? after))
    (Store.opErr "list audit event range" Store.ErrInvalid (Some (ErrNew "invalid audit range"))) ≫= fun _ =>
  if through =? after then Ok [] else Ok (filter (fun e => after < Sequence e /\ Sequence e <= through) (rows c)).

Definition AppendAuditEvent (c : Chain) (now : Z) (random : bytes) (event : Event) : result (Chain * Event) :=
  map_err (fun e => Store.opErr "append audit event" Store.ErrConflict (Some e)) (appendAuditTx c now random event).

Record AuditFilter := MkFilter { fTaskID : string; fQueryID : string; fActor : string; fEventType : string; fAfter : Z; fLimit : Z }.
Definition unset_or (filter column : string) : bool := same filter "" || same column filter.
Definition ListAuditEvents (c : Chain) (f : AuditFilter) : list Event :=
  let limit := if (fLimit f <=? 0) || (500 <? fLimit f) then 100 else fLimit f in
  take (Z.to_nat limit) (filter (fun e => Is_true ((fAfter f <? Sequence e) && unset_or (fTaskID f) (TaskID e) && unset_or (fQueryID f) (QueryID e) &&
    unset_or (fActor f) (Actor e) && unset_or (fEventType f) (EventType e))) (rows c)).

Definition ListAuditEventsForQuery (c : Chain) (queryID : string) : result (list Event) :=
  fail_if (blank queryID) (Store.opErr "list query audit events" Store.ErrInvalid (Some (ErrNew "query id is required"))) ≫= fun _ =>
  Ok (filter (fun e => QueryID e = queryID) (rows c)).

Definition broken (cause : goerror) : goerror := Store.opErr "verify audit chain" (ErrNew "control: audit hash chain is broken") (Some cause).

(** [strings.EqualFold] with a lower-case hexadecimal text. *)
Definition EqualFold (hex v : string) : bool := same hex (ToLower v).

Fixpoint verify_rows (expectedSequence : Z) (previous : string) (events : list Event) : result (Z * string) :=
  match events with
  | [] => Ok (expectedSequence, previous)
  | event :: rest =>
      fail_if (negb (Sequence event =? expectedSequence) || negb (same (PreviousHash event) previous))
        (broken (ErrNew "sequence %d has invalid predecessor")) ≫= fun _ =>
      expected ← map_err broken (Hash previous event);
      fail_if (negb (EqualFold expected (CurrentHash event))) (broken (ErrNew "sequence %d hash mismatch")) ≫= fun _ =>
      verify_rows (expectedSequence + 1) (CurrentHash event) rest
  end.

Definition VerifyAuditChain (c : Chain) : result unit :=
  '(expectedSequence, previous) ← verify_rows 1 GenesisHash (rows c);
  fail_if (negb (last_sequence c =? expectedSequence - 1) || negb (same (last_hash c) previous))
    (broken (ErrNew "audit chain head does not match the final event")).

(** The gateway reads the checkpoint, the predecessor and the successors one
    after the other: three states of a chain that may grow in between. *)
Definition auditInclusionProof (c1 c2 c3 : Chain) (terminal : Event) : result InclusionProof :=
  let checkpoint := AuditCheckpoint c1 in
  predecessor ← (if 1 <? Sequence terminal
                 then match GetAuditEvent c2 (Sequence terminal - 1) with
                      | Ok event => Ok (Some event)
                      | Err e => if errors_is e Store.ErrNotFound then Ok None else Err e
                      end
                 else Ok None);
  successors ← ListAuditEventsRange c3 (Sequence terminal) (cpSequence checkpoint);
  let proof := MkProof terminal predecessor successors checkpoint in
  VerifyInclusion proof ≫= fun _ => Ok proof.

(** ** Links *)
Lemma validateHash_valid v n : validateHash v n = Ok tt -> valid_sha256_text v = true.
Proof.
  unfold validateHash, valid_sha256_text. intros [G E]%fail_if_bind_ok. rewrite G. cbn [negb andb]. by destruct (hex_decode v).
Qed.
Lemma validateHash_sum m n : validateHash (Sha256.hex_sum m) n = Ok tt.
Proof.
  unfold validateHash. pose proof (Sha256.hex_sum_valid m) as H. unfold valid_sha256_text in H. apply andb_true_iff in H as [H _].
  apply negb_true_iff in H. rewrite H. cbn [fail_if mbind result_bind]. unfold Sha256.hex_sum. rewrite hex_decode_encode, Sha256.length_Sum256. done.
Qed.
Lemma validateHash_genesis n : validateHash GenesisHash n = Ok tt.
Proof. reflexivity. Qed.

(** What an event's hash commits to. *)
Definition preimage (e : Event) : bytes := match normalize (Payload e) with Ok p => material (PreviousHash e) e p | Err _ => [] end.

Lemma verifyLink_ok previous e : verifyLink previous e = Ok tt -> 0 < Sequence e /\ PreviousHash e = previous /\
  valid_sha256_text (PreviousHash e) = true /\ is_ok (normalize (Payload e)) = true /\ CurrentHash e = Sha256.hex_sum (preimage e).
Proof.
  unfold verifyLink. intros E. apply fail_if_bind_ok in E as [Hs%Z.leb_gt E]. apply fail_if_bind_ok in E as [_ E].
  apply fail_if_bind_ok in E as [Hp%negb_false_iff%same_true E]. apply bind_ok in E as ([] & V%validateHash_valid & E). apply bind_ok in E as ([] & _ & E).
  apply bind_ok in E as (x & Hx%map_err_ok & E). apply fail_if_ok in E. apply negb_false_iff, same_true in E. subst x previous.
  unfold Hash in Hx. apply bind_ok in Hx as (p & Hn & Hx). apply Ok_inj in Hx. unfold preimage. rewrite Hn. auto.
Qed.

(** ** Paths *)
Lemma linear_app s h l k : linear s h (l ++ k) = linear s h l ≫= fun r => linear r.1 r.2 k.
Proof.
  revert s h; induction l as [|e l IH]; intros s h; [done|]. cbn [app linear]. destruct (fail_if _ _) as [[]|]; [|done].
  cbn [mbind result_bind]. destruct (verifyLink h e) as [[]|]; [|done]. cbn [mbind result_bind]. apply IH.
Qed.

Lemma linear_snoc s h l e n x : linear s h (l ++ [e]) = Ok (n, x) ->
  linear s h l = Ok (n - 1, PreviousHash e) /\ Sequence e = n /\ CurrentHash e = x /\ verifyLink (PreviousHash e) e = Ok tt.
Proof.
  rewrite linear_app. intros E. apply bind_ok in E as ([n' x'] & E1 & E2). cbn [fst snd linear] in E2.
  apply fail_if_bind_ok in E2 as [Hn%negb_false_iff%Z.eqb_eq E2]. apply bind_ok in E2 as ([] & V & E2). apply Ok_inj in E2. injection E2 as <- <-.
  pose proof (verifyLink_ok _ _ V) as (_ & -> & _). rewrite E1, Hn. replace (n' + 1 - 1) with n' by lia. done.
Qed.

Lemma linear_cons s h e l n x : linear s h (e :: l) = Ok (n, x) <->
  Sequence e = s + 1 /\ verifyLink h e = Ok tt /\ linear (Sequence e) (CurrentHash e) l = Ok (n, x).
Proof.
  cbn [linear]. rewrite fail_if_bind_ok, negb_false_iff, Z.eqb_eq, bind_ok. split; [intros (? & [] & ? & ?); done|intros (? & ? & ?); eauto].
Qed.

Lemma linear_seq s h l n x : linear s h l = Ok (n, x) -> n = s + Z.of_nat (length l) /\ forall i e, l !! i = Some e -> Sequence e = s + Z.of_nat i + 1.
Proof.
  revert s h; induction l as [|e l IH]; intros s h E; [apply Ok_inj in E; injection E as <- <-; cbn; split; [lia|done]|].
  apply linear_cons in E as (Hs & _ & E). destruct (IH _ _ E) as [-> Hl]. cbn [length]. split; [lia|]. intros [|i] x' Hx; cbn in Hx.
  - injection Hx as <-. lia.
  - rewrite (Hl i x' Hx). lia.
Qed.

Lemma last_cons {A} (l : list A) a b : List.last (a :: l) b = List.last l a.
Proof. revert a b; induction l as [|c l IH]; intros a b; [done|]. change (List.last (a :: c :: l) b) with (List.last (c :: l) b). by rewrite !IH. Qed.

Lemma follow_linear e l last : follow e l = Ok last <-> linear (Sequence e) (CurrentHash e) l = Ok (Sequence last, CurrentHash last) /\
  last = List.last l e.
Proof.
  revert e; induction l as [|x l IH]; intros e; cbn [follow].
  - cbn [linear List.last]. split; [intros <-%Ok_inj; done|intros [_ ->]; done].
  - rewrite linear_cons. rewrite fail_if_bind_ok, negb_false_iff, Z.eqb_eq, fail_if_bind_ok, negb_false_iff, same_true, bind_ok.
    assert (Hlast : List.last (x :: l) e = List.last l x).
    { apply last_cons. }
    rewrite Hlast. split.
    + intros (Hs & Hp & [] & V & [E ->]%IH). rewrite Hp in V. done.
    + intros [(Hs & V & E) ->]. pose proof (verifyLink_ok _ _ V) as (_ & Hp & _). split; [done|]. split; [done|]. exists tt. rewrite Hp.
      split; [done|]. by apply IH.
Qed.

Lemma linear_follow e l n x : linear (Sequence e) (CurrentHash e) l = Ok (n, x) ->
  follow e l = Ok (List.last l e) /\ Sequence (List.last l e) = n /\ CurrentHash (List.last l e) = x.
Proof.
  intros E. assert (Hend : Sequence (List.last l e) = n /\ CurrentHash (List.last l e) = x).
  { destruct l as [|y l _] using rev_ind; [apply Ok_inj in E; by injection E as <- <-|]. apply linear_snoc in E as (_ & ? & ? & _). by rewrite List.last_last. }
  split; [|done]. apply follow_linear. destruct Hend as [-> ->]. done.
Qed.

(** ** Two paths to one hash *)
Record same_event (e e' : Event) : Prop := {
  se_chain : Sequence e = Sequence e' /\ PreviousHash e = PreviousHash e' /\ CurrentHash e = CurrentHash e';
  se_ids : same_text (EventID e) (EventID e') /\ same_text (TaskID e) (TaskID e') /\ same_text (QueryID e) (QueryID e') /\
           same_text (Actor e) (Actor e') /\ same_text (EventType e) (EventType e');
  se_payload : normalize (Payload e) = normalize (Payload e');
  se_time : microseconds (OccurredAt e) = microseconds (OccurredAt e') }.

Lemma links_meet e e' : verifyLink (PreviousHash e) e = Ok tt -> verifyLink (PreviousHash e') e' = Ok tt -> dated e -> dated e' ->
  CurrentHash e = CurrentHash e' -> Sequence e = Sequence e' -> same_event e e' \/ Sha256.collides [preimage e] [preimage e'].
Proof.
  intros (_ & _ & V & N & C)%verifyLink_ok (_ & _ & V' & N' & C')%verifyLink_ok P P' Eh Es.
  rewrite C, C' in Eh. apply Sha256.hex_sum_eq in Eh as [Eh|]; [left|by right].
  pose proof C as C0. pose proof C' as C0'. unfold preimage in Eh. destruct (normalize (Payload e)) as [x|] eqn:En; [|discriminate N].
  destruct (normalize (Payload e')) as [x'|] eqn:En'; [|discriminate N'].
  assert (Ec : CurrentHash e = CurrentHash e') by (rewrite C, C'; unfold preimage; by rewrite En, En', Eh).
  apply audit_material_inj in Eh as (Ep & E1 & E2 & E3 & E4 & E5 & Ex & Et); [|by apply sha256_text_plain..|done|done].
  split; [done..|by rewrite En, En', Ex|done].
Qed.

Lemma linear_meet l : forall s h s' h' l' n x, linear s h l = Ok (n, x) -> linear s' h' l' = Ok (n, x) -> (length l <= length l')%nat ->
  Forall dated l -> Forall dated l' ->
  Sha256.collides (map preimage l) (map preimage l') \/ exists l1 l2, l' = l1 ++ l2 /\ Forall2 same_event l l2.
Proof.
  induction l as [|e l IH] using rev_ind; intros s h s' h' l' n x E E' Hlen P P'; [right; exists l', []; by rewrite app_nil_r|].
  destruct l' as [|e' l' _] using rev_ind; [rewrite length_app in Hlen; cbn in Hlen; lia|].
  apply linear_snoc in E as (E & En & Ex & V). apply linear_snoc in E' as (E' & En' & Ex' & V').
  apply Forall_app in P as [P [Pe _]%Forall_cons]. apply Forall_app in P' as [P' [Pe' _]%Forall_cons]. rewrite !length_app in Hlen. cbn in Hlen.
  rewrite !map_app. destruct (links_meet e e' V V' Pe Pe') as [S|C]; [congruence|congruence| |].
  - pose proof (proj1 (proj2 (se_chain _ _ S))) as Ep. rewrite Ep in E. destruct (IH _ _ _ _ _ _ _ E E' ltac:(lia) P P') as [C|(l1 & l2 & -> & F)].
    + left. eapply Sha256.collides_sub; [| |exact C]; intros b Hb; apply elem_of_app; by left.
    + right. exists l1, (l2 ++ [e']). split; [by rewrite app_assoc|]. apply Forall2_app; [done|by constructor].
  - left. eapply Sha256.collides_sub; [| |exact C]; intros b Hb; apply elem_of_app; by right.
Qed.

Lemma VerifyLinear_ok l cp : VerifyLinear l cp = Ok tt <-> linear 0 GenesisHash l = Ok (cpSequence cp, cpHash cp).
Proof.
  unfold VerifyLinear. rewrite bind_ok. split.
  - intros ([n x] & E & G%fail_if_ok). apply orb_false_iff in G as [G1%negb_false_iff%Z.eqb_eq G2%negb_false_iff%same_true]. by rewrite E, G1, G2.
  - intros E. exists (cpSequence cp, cpHash cp). split; [done|]. by rewrite Z.eqb_refl, (proj2 (same_true _ _) eq_refl).
Qed.

(** C23: The checkpoint of an audit log fixes the log.  Two logs that verify
    against the same checkpoint, with times of the years 1 to 9999, have the
    same length and the same events, in every field that is hashed (previous
    hash, normalised payload, time to the microsecond, and identifiers, actor
    and type, which are the same if they are valid UTF-8 and else the same once
    JSON has replaced their invalid bytes), or two of the texts hashed for them
    collide under SHA-256. *)
Theorem checkpoint_binds_log es es' cp : VerifyLinear es cp = Ok tt -> VerifyLinear es' cp = Ok tt ->
  Forall dated es -> Forall dated es' ->
  Forall2 same_event es es' \/ Sha256.collides (map preimage es) (map preimage es').
Proof.
  intros E%VerifyLinear_ok E'%VerifyLinear_ok P P'. destruct (linear_seq _ _ _ _ _ E) as [Hn _]. destruct (linear_seq _ _ _ _ _ E') as [Hn' _].
  destruct (linear_meet es _ _ _ _ es' _ _ E E' ltac:(lia) P P') as [|(l1 & l2 & -> & F)]; [by right|left].
  pose proof (Forall2_length _ _ _ F) as Hl. rewrite length_app in Hn'. destruct l1; [done|cbn in Hn'; lia].
Qed.

(** A proof that verifies is a path to its checkpoint. *)
Lemma inclusion_path proof : VerifyInclusion proof = Ok tt -> let t := TerminalEvent proof in let cp := ProofCheckpoint proof in
  0 < Sequence t /\ linear (Sequence t - 1) (PreviousHash t) (t :: SuccessorEvents proof) = Ok (cpSequence cp, cpHash cp).
Proof.
  unfold VerifyInclusion. cbv zeta. intros E. apply fail_if_bind_ok in E as [Hs%Z.leb_gt E]. do 2 (apply seq_ok in E as [_ E]).
  apply seq_ok in E as [V E]. apply bind_ok in E as ([] & _ & E). apply fail_if_bind_ok in E as [_ E]. apply seq_ok in E as [_ E].
  apply bind_ok in E as (last & [F _]%follow_linear & E). apply fail_if_ok in E.
  apply orb_false_iff in E as [E1%negb_false_iff%Z.eqb_eq E2%negb_false_iff%same_true]. split; [done|].
  apply linear_cons. split; [lia|]. split; [done|]. by rewrite F, E1, E2.
Qed.

(** C24: An inclusion proof is about the log.  If a proof verifies and the whole
    log verifies against the proof's checkpoint, with times of the years 1 to
    9999, the proof's event is the log's event of that sequence number, and its
    successors are the rest of the log, in every hashed field (text up to the
    bytes that JSON replaces), or two of the hashed texts collide. *)
Theorem inclusion_sound proof es : VerifyInclusion proof = Ok tt -> VerifyLinear es (ProofCheckpoint proof) = Ok tt ->
  Forall dated (TerminalEvent proof :: SuccessorEvents proof) -> Forall dated es ->
  (exists before e after, es = before ++ e :: after /\ Sequence (TerminalEvent proof) = Z.of_nat (length before) + 1 /\
     same_event (TerminalEvent proof) e /\ Forall2 same_event (SuccessorEvents proof) after) \/
  Sha256.collides (map preimage (TerminalEvent proof :: SuccessorEvents proof)) (map preimage es).
Proof.
  intros (Hs & E)%inclusion_path E'%VerifyLinear_ok P P'. destruct (linear_seq _ _ _ _ _ E) as [Hn _]. destruct (linear_seq _ _ _ _ _ E') as [Hn' _].
  cbn [length] in Hn. destruct (linear_meet _ _ _ _ _ es _ _ E E' ltac:(cbn [length]; lia) P P') as [|(l1 & l2 & Heq & F)]; [by right|left].
  inversion F as [|? e ? after He Hafter]; subst. exists l1, e, after. split; [done|]. split; [|done].
  rewrite length_app in Hn'. cbn [length] in Hn'. apply Forall2_length in Hafter. lia.
Qed.

(** ** The chain the store keeps *)
(** PostgreSQL gives back the JSON value it was given. *)
Definition keeps_json : Prop := forall raw p, normalize raw = Ok p -> normalize (stored p) = normalize p.
Context (Hstored : keeps_json).

Inductive grows : Chain -> Chain -> Prop :=
  | grows_refl c : grows c c
  | grows_append c c1 now random e c2 row : grows c c1 -> random <> [] -> 1000 <= now -> OccurredAt e = 0 \/ 1000 <= OccurredAt e ->
      appendAuditTx c1 now random e = Ok (c2, row) -> grows c c2.
Definition reach (c : Chain) : Prop := grows genesis c.

Lemma grows_trans c1 c2 c3 : grows c1 c2 -> grows c2 c3 -> grows c1 c3.
Proof. intros G H. induction H as [|c c' now random e c2' row _ IH Hr Hn Ht E]; [done|]. eapply grows_append; [by apply IH|exact Hr|exact Hn|exact Ht|exact E]. Qed.
Lemma grows_rows c1 c2 : grows c1 c2 -> rows c1 `prefix_of` rows c2.
Proof.
  intros G. induction G as [c|c c1 now random e c2 row _ IH _ _ _ E]; [done|]. etrans; [exact IH|]. unfold appendAuditTx in E. cbv zeta in E.
  apply fail_if_bind_ok in E as [_ E]. apply bind_ok in E as (payload & _ & E). apply bind_ok in E as (hash & _ & E).
  apply fail_if_bind_ok in E as [_ E]. apply Ok_inj in E. injection E as <- <-. by apply prefix_app_r.
Qed.

(** The rows form one path from the genesis hash to the head, and every hash is lower case. *)
Definition chain_inv (c : Chain) : Prop :=
  linear 0 GenesisHash (rows c) = Ok (last_sequence c, last_hash c) /\ validateHash (last_hash c) "" = Ok tt /\
  Forall (fun e => ToLower (CurrentHash e) = CurrentHash e) (rows c).

Lemma validateHash_name v n m : validateHash v n = Ok tt -> validateHash v m = Ok tt.
Proof.
  unfold validateHash. intros [-> E]%fail_if_bind_ok. cbn [fail_if mbind result_bind]. destruct (hex_decode v); [|done].
  apply fail_if_ok in E. by rewrite E.
Qed.

Lemma audit_id_not_blank random : random <> [] -> blank ("audit_" +:+ hex_encode random) = false.
Proof.
  intros _. apply visible_not_blank; [done|]. assert (Happ : forall a b, to_bytes (a +:+ b) = to_bytes a ++ to_bytes b).
  { intros a b. induction a as [|x a IH]; [done|]. change (x :: to_bytes (a +:+ b) = x :: (to_bytes a ++ to_bytes b)). by rewrite IH. }
  rewrite Happ. apply Forall_app. split; [by repeat constructor|].
  unfold hex_encode. rewrite to_of_bytes. eapply Forall_impl; [apply hex_encode_bytes_lower|]. intros c. unfold lower_hex, visible. cbv zeta. lia.
Qed.

Lemma dbTime_nonzero t : 1000 <= t -> IsZero (dbTime t) = false.
Proof.
  intros H. unfold IsZero, dbTime, microseconds. apply Z.eqb_neq. pose proof (Z.div_le_lower_bound t 1000 1 ltac:(lia) ltac:(lia)). lia.
Qed.

(** An appended row links to the head. *)
Lemma append_links c now random e c' row : chain_inv c -> random <> [] -> 1000 <= now -> OccurredAt e = 0 \/ 1000 <= OccurredAt e ->
  appendAuditTx c now random e = Ok (c', row) -> chain_inv c'.
Proof.
  intros (L & V & F) Hrandom Hnow Ht E. unfold appendAuditTx in E. cbv zeta in E.
  set (id := if blank (EventID e) then _ else EventID e) in E. assert (Hid : blank id = false).
  { unfold id. destruct (blank (EventID e)) eqn:Eb; [by apply audit_id_not_blank|done]. }
  set (at_ := dbTime _) in E. assert (Hat : IsZero at_ = false).
  { apply dbTime_nonzero. destruct (IsZero (OccurredAt e)) eqn:Ez; [done|]. apply Z.eqb_neq in Ez. destruct Ht; lia. }
  apply fail_if_bind_ok in E as [[Ha Hy]%orb_false_iff E]. apply bind_ok in E as (payload & Hp%map_err_ok & E).
  apply bind_ok in E as (hash & Hh & E). cbn [Sequence] in E. apply fail_if_bind_ok in E as [_ E]. apply Ok_inj in E. injection E as <- _.
  unfold Hash in Hh. apply bind_ok in Hh as (p2 & Hp2 & Hh). apply Ok_inj in Hh. cbn [Payload] in Hp2.
  destruct (linear_seq _ _ _ _ _ L) as [Hn _]. unfold chain_inv, with_payload. cbn [rows last_sequence last_hash]. split; [|split].
  - rewrite linear_app, L. cbn [mbind result_bind fst snd]. apply linear_cons. cbn [Sequence CurrentHash]. split; [done|].
    split; [|done]. unfold verifyLink. cbn [Sequence EventID Actor EventType OccurredAt PreviousHash CurrentHash].
    rewrite (proj2 (Z.leb_gt _ 0)) by lia. rewrite Hid, Ha, Hy, Hat. cbn [orb fail_if mbind result_bind].
    rewrite (proj2 (same_true _ _) eq_refl). cbn [negb fail_if mbind result_bind]. rewrite (validateHash_name _ _ "previous hash" V).
    cbn [mbind result_bind]. rewrite <- Hh at 1. rewrite validateHash_sum. cbn [mbind result_bind]. unfold Hash. cbn [Payload].
    rewrite (Hstored _ _ Hp), Hp2. cbn [mbind result_bind map_err]. rewrite <- Hh.
    match goal with |- fail_if (negb (same ?a ?b)) _ = _ => assert (a = b) as -> by done end. by rewrite (proj2 (same_true _ _) eq_refl).
  - rewrite <- Hh. apply validateHash_sum.
  - apply Forall_app. split; [done|]. repeat constructor. cbn [CurrentHash]. rewrite <- Hh. unfold Sha256.hex_sum. apply ToLower_hex.
Qed.

Lemma reach_chain c : reach c -> chain_inv c.
Proof.
  unfold reach. remember genesis as g. intros G. induction G as [c|c c1 now random e c2 row G IH Hr Hn Ht E]; subst.
  - split; [done|]. split; [apply validateHash_genesis|constructor].
  - eapply append_links; eauto.
Qed.

(** [VerifyAuditChain] follows the same path. *)
Lemma verify_rows_linear s h l n x : linear s h l = Ok (n, x) -> Forall (fun e => ToLower (CurrentHash e) = CurrentHash e) l ->
  verify_rows (s + 1) h l = Ok (n + 1, x).
Proof.
  revert s h; induction l as [|e l IH]; intros s h E F; [apply Ok_inj in E; by injection E as <- <-|].
  apply linear_cons in E as (Hs & V & E). apply Forall_cons in F as [Fe F]. cbn [verify_rows].
  pose proof V as (_ & Hp & _)%verifyLink_ok. rewrite Hs, Z.eqb_refl, Hp, (proj2 (same_true h h) eq_refl). cbn [negb orb fail_if mbind result_bind].
  unfold verifyLink in V. do 3 (apply fail_if_bind_ok in V as [_ V]). do 2 (apply seq_ok in V as [_ V]).
  apply bind_ok in V as (x' & Hx%map_err_ok & V). apply fail_if_ok in V. rewrite Hx. cbn [map_err mbind result_bind].
  unfold EqualFold. rewrite Fe, V. cbn [fail_if mbind result_bind]. rewrite Hs in E. by apply IH.
Qed.

(** ** Proofs the gateway serves *)
Lemma filter_range s h l n x a b : linear s h l = Ok (n, x) -> s <= a <= b ->
  filter (fun e => a < Sequence e /\ Sequence e <= b) l = drop (Z.to_nat (a - s)) (take (Z.to_nat (b - s)) l).
Proof.
  assert (Hcut : forall l s h a b, linear s h l = Ok (n, x) -> a <= s -> filter (fun e => a < Sequence e /\ Sequence e <= b) l = take (Z.to_nat (b - s)) l).
  { clear. intros l. induction l as [|e l IH]; intros s h a b E Ha; [by rewrite take_nil|]. apply linear_cons in E as (Hs & _ & E).
    rewrite filter_cons. destruct (decide (a < Sequence e /\ Sequence e <= b)) as [[_ Hb]|Hn].
    - replace (Z.to_nat (b - s)) with (S (Z.to_nat (b - Sequence e))) by lia. cbn [take]. f_equal. eapply IH; [exact E|lia].
    - replace (Z.to_nat (b - s)) with 0%nat by lia. cbn [take]. rewrite (IH _ _ a b E) by lia. by replace (Z.to_nat (b - Sequence e)) with 0%nat by lia. }
  revert s h; induction l as [|e l IH]; intros s h E Hab; [by rewrite take_nil, drop_nil|]. destruct (decide (a = s)) as [->|Hne].
  { rewrite Z.sub_diag. cbn [Z.to_nat]. rewrite drop_0. eapply Hcut; [exact E|lia]. }
  apply linear_cons in E as (Hs & _ & E). rewrite filter_cons, decide_False by lia.
  replace (Z.to_nat (a - s)) with (S (Z.to_nat (a - Sequence e))) by lia. replace (Z.to_nat (b - s)) with (S (Z.to_nat (b - Sequence e))) by lia.
  cbn [take drop]. eapply IH; [exact E|lia].
Qed.

Lemma range_served c c3 before t after : chain_inv c -> chain_inv c3 -> rows c = before ++ t :: after -> rows c `prefix_of` rows c3 ->
  ListAuditEventsRange c3 (Sequence t) (last_sequence c) = Ok after.
Proof.
  intros (L & _) (L3 & _) Hrows [ext Hext]. destruct (linear_seq _ _ _ _ _ L) as [Hn Hi].
  assert (Ht : Sequence t = Z.of_nat (length before) + 1) by (rewrite (Hi (length before)); [lia|]; rewrite Hrows; by apply list_lookup_middle).
  assert (Hlen : last_sequence c = Sequence t + Z.of_nat (length after)) by (rewrite Hn, Hrows, length_app, Ht; cbn [length]; lia).
  unfold ListAuditEventsRange. rewrite (proj2 (Z.ltb_ge _ 0)), (proj2 (Z.ltb_ge _ (Sequence t))) by lia. cbn [orb fail_if mbind result_bind].
  destruct (last_sequence c =? Sequence t) eqn:Eq; [apply Z.eqb_eq in Eq; destruct after; [done|cbn in Hlen; lia]|].
  rewrite (filter_range 0 GenesisHash _ _ _ _ _ L3) by lia. rewrite !Z.sub_0_r, Hext, Hn, Z.add_0_l, Nat2Z.id, take_app_length, Hrows, Ht.
  replace (Z.to_nat (Z.of_nat (length before) + 1)) with (length (before ++ [t])) by (rewrite length_app; cbn; lia).
  replace (before ++ t :: after) with ((before ++ [t]) ++ after) by (by rewrite <- app_assoc). by rewrite drop_app_length.
Qed.

Lemma event_served c i e : chain_inv c -> rows c !! i = Some e -> GetAuditEvent c (Z.of_nat i + 1) = Ok e.
Proof.
  intros (L & _) He. unfold GetAuditEvent. rewrite (proj2 (Z.leb_gt _ 0)) by lia. cbn [fail_if mbind result_bind].
  rewrite (list_filter_iff (fun e => Sequence e = Z.of_nat i + 1) (fun e => Z.of_nat i < Sequence e /\ Sequence e <= Z.of_nat i + 1)) by (intros; lia).
  rewrite (filter_range 0 GenesisHash _ _ _ _ _ L) by lia. rewrite !Z.sub_0_r, Nat2Z.id.
  replace (Z.to_nat (Z.of_nat i + 1)) with (S i) by lia. rewrite (take_S_r _ _ e) by done.
  assert (Hlen : length (take i (rows c)) = i) by (rewrite length_take; apply lookup_lt_Some in He; lia).
  rewrite <- Hlen at 1. rewrite drop_app_length. done.
Qed.

(** The gateway can always prove an event it stored.  For any event of the
    log, the inclusion proof assembled from a later checkpoint, a predecessor
    read later and successors read later still verifies, however the log grows
    between the three reads. *)
Theorem inclusion_served c0 c1 c2 c3 i t : reach c0 -> grows c0 c1 -> grows c1 c2 -> grows c2 c3 -> rows c0 !! i = Some t ->
  exists proof, auditInclusionProof c1 c2 c3 t = Ok proof /\ VerifyInclusion proof = Ok tt /\
    TerminalEvent proof = t /\ ProofCheckpoint proof = AuditCheckpoint c1.
Proof.
  intros R0 G1 G2 G3 Ht. pose proof (grows_trans _ _ _ R0 G1) as R1. pose proof (grows_trans _ _ _ R1 G2) as R2. pose proof (grows_trans _ _ _ R2 G3) as R3.
  pose proof (reach_chain c1 R1) as I1. pose proof (reach_chain c2 R2) as I2. pose proof (reach_chain c3 R3) as I3.
  assert (P13 : rows c1 `prefix_of` rows c3) by (etrans; by apply grows_rows).
  pose proof (prefix_lookup_Some _ _ _ _ Ht (grows_rows _ _ G1)) as Ht1.
  pose proof I1 as (L & V & _). destruct (list_elem_of_split_length _ _ _ Ht1) as (before & after & Hrows & Hi).
  destruct (linear_seq _ _ _ _ _ L) as [Hn Hseq]. pose proof (Hseq i t Ht1) as Hs.
  pose proof L as L'. rewrite Hrows, linear_app in L'. apply bind_ok in L' as ([n' h'] & Lb & La). cbn [fst snd] in La.
  apply linear_cons in La as (_ & Vt & La). pose proof (verifyLink_ok _ _ Vt) as (Hpos & Hp & _). rewrite <- Hp in Vt, Lb.
  pose proof (range_served c1 c3 before t after I1 I3 Hrows P13) as Hrange.
  set (pred := match before with [] => None | _ => List.last (map Some before) None end).
  assert (Hpred : (if 1 <? Sequence t then match GetAuditEvent c2 (Sequence t - 1) with Ok e => Ok (Some e)
                     | Err e => if errors_is e Store.ErrNotFound then Ok None else Err e end else Ok None) = Ok pred /\
                  match pred with None => Sequence t = 1 /\ PreviousHash t = GenesisHash
                  | Some p => Sequence p = Sequence t - 1 /\ CurrentHash p = PreviousHash t /\ verifyLink (PreviousHash p) p = Ok tt end).
  { destruct before as [|p0 b0 _] using rev_ind.
    - cbn in Hi. subst i. rewrite (proj2 (Z.ltb_ge 1 (Sequence t))) by (rewrite Hs; lia). apply Ok_inj in Lb. injection Lb as _ Hg. split; [done|]. split; [lia|done].
    - assert (Epred : pred = Some p0). { unfold pred. rewrite map_app. destruct b0; [done|]. cbn [app]. apply (List.last_last (map Some (_ :: b0))). }
      rewrite Epred. apply linear_snoc in Lb as (_ & Hsp & Hcp & Vp). rewrite length_app in Hi. cbn in Hi.
      assert (Hget : rows c2 !! length b0 = Some p0).
      { apply (prefix_lookup_Some (rows c1)); [|by apply grows_rows]. rewrite Hrows, <- app_assoc. by apply list_lookup_middle. }
      pose proof (Hseq (length b0) p0) as Hs0. rewrite Hrows, <- app_assoc in Hs0. specialize (Hs0 (list_lookup_middle _ _ _ _ eq_refl)).
      rewrite (proj2 (Z.ltb_lt 1 (Sequence t))) by lia. replace (Sequence t - 1) with (Z.of_nat (length b0) + 1) by lia.
      rewrite (event_served c2 _ _ I2 Hget). split; [done|]. split; [lia|done]. }
  destruct Hpred as [Epred Hpred]. exists (MkProof t pred after (AuditCheckpoint c1)).
  assert (Hv : VerifyInclusion (MkProof t pred after (AuditCheckpoint c1)) = Ok tt); [|split; [|done]].
  2:{ unfold auditInclusionProof. cbv zeta. rewrite Epred. cbn [mbind result_bind cpSequence AuditCheckpoint]. rewrite Hrange. cbn [mbind result_bind].
      by rewrite Hv. }
  unfold VerifyInclusion. cbv zeta. cbn [TerminalEvent PredecessorEvent SuccessorEvents ProofCheckpoint cpSequence cpHash AuditCheckpoint].
  rewrite (proj2 (Z.leb_gt _ 0)) by lia. cbn [fail_if mbind result_bind]. pose proof Vt as Vt'. unfold verifyLink in Vt'.
  do 3 (apply fail_if_bind_ok in Vt' as [_ Vt']). apply seq_ok in Vt' as [H1 Vt']. apply seq_ok in Vt' as [H2 _].
  rewrite (validateHash_name _ _ _ H1), (validateHash_name _ _ _ H2). cbn [mbind result_bind]. rewrite Vt. cbn [mbind result_bind].
  match goal with |- ?m ≫= _ = _ => assert (m = Ok tt) as -> end.
  { destruct pred as [p|].
    - destruct Hpred as (-> & -> & ->). by rewrite Z.eqb_refl, (proj2 (same_true _ _) eq_refl).
    - destruct Hpred as (-> & ->). by rewrite Z.eqb_refl, (proj2 (same_true _ _) eq_refl). }
  cbn [mbind result_bind]. rewrite (proj2 (Z.ltb_ge (last_sequence c1) (Sequence t))) by (rewrite Hn, Hs; apply lookup_lt_Some in Ht1; lia).
  cbn [fail_if mbind result_bind]. rewrite (validateHash_name _ _ _ V). cbn [mbind result_bind].
  destruct (linear_follow _ _ _ _ La) as (Ef & Es & Eh). rewrite Ef. cbn [mbind result_bind]. rewrite Es, Eh.
  by rewrite Z.eqb_refl, (proj2 (same_true _ _) eq_refl).
Qed.

(** C25: The store's audit log always verifies.  After any sequence of appends,
    whatever events are appended, the sequence numbers are the positions, the
    store's own verification and the exported one succeed against the store's
    checkpoint, and later appends only extend the log. *)
Theorem chain_verifies c c' : reach c -> grows c c' ->
  VerifyAuditChain c' = Ok tt /\ VerifyLinear (rows c') (AuditCheckpoint c') = Ok tt /\
  (forall i e, rows c' !! i = Some e -> Sequence e = Z.of_nat i + 1) /\ last_sequence c' = Z.of_nat (length (rows c')) /\
  rows c `prefix_of` rows c'.
Proof.
  intros R G. pose proof (grows_trans _ _ _ R G) as R'. destruct (reach_chain c' R') as (L & _ & F).
  destruct (linear_seq _ _ _ _ _ L) as [Hn Hi]. split; [|split; [|split; [|split]]].
  - pose proof (verify_rows_linear _ _ _ _ _ L F) as V. change (0 + 1) with 1 in V. unfold VerifyAuditChain. rewrite V. cbn [mbind result_bind].
    by rewrite Z.add_simpl_r, Z.eqb_refl, (proj2 (same_true _ _) eq_refl).
  - by apply VerifyLinear_ok.
  - intros i e He. rewrite (Hi i e He). lia.
  - lia.
  - by apply grows_rows.
Qed.
End chain.

(** ** A two-event log *)
Module Demo.
Definition normalize (b : bytes) : result bytes := Ok b.
Definition stored (b : bytes) : bytes := b.
Definition event1 : Event := MkEvent 0 "audit_1" "task_1" "query_1" "gateway" "query.reserved" (to_bytes "{}") (63 * 10 ^ 18) "" "".
Definition event2 : Event := MkEvent 0 "audit_2" "task_1" "query_1" "gateway" "query.settled" (to_bytes "{}") (64 * 10 ^ 18) "" "".
Definition now : Z := 63 * 10 ^ 18.
Definition append (c : Chain) (e : Event) : Chain :=
  match appendAuditTx normalize stored c now ["0"%char] e with Ok r => r.1 | Err _ => c end.
Definition chain1 : Chain := append genesis event1.
Definition chain2 : Chain := append chain1 event2.
Definition head_of (c : Chain) : Event := match rows c with e :: _ => e | [] => event1 end.
Definition proof1 : InclusionProof := MkProof (head_of chain2) None (tail (rows chain2)) (AuditCheckpoint chain2).

Lemma append_ok c e : is_ok (appendAuditTx normalize stored c now ["0"%char] e) = true ->
  exists row, appendAuditTx normalize stored c now ["0"%char] e = Ok (append c e, row).
Proof. unfold append. destruct (appendAuditTx _ _ _ _ _ _) as [[c' row]|]; [eauto|discriminate]. Qed.
Lemma grown c e : is_ok (appendAuditTx normalize stored c now ["0"%char] e) = true -> 1000 <= OccurredAt e -> grows normalize stored c (append c e).
Proof. intros [row E]%append_ok He. eapply grows_append; [constructor|..|exact E]; [done|by vm_compute|by right]. Qed.
Lemma grows1 : grows normalize stored genesis chain1.
Proof. apply grown; [vm_compute; reflexivity|by vm_compute]. Qed.
Lemma grows2 : grows normalize stored chain1 chain2.
Proof. apply grown; [vm_compute; reflexivity|by vm_compute]. Qed.
Lemma keeps : keeps_json normalize stored.
Proof. by intros raw p [= <-]. Qed.
Lemma verifies2 : VerifyLinear normalize (rows chain2) (AuditCheckpoint chain2) = Ok tt.
Proof. vm_compute. reflexivity. Qed.
Lemma included1 : VerifyInclusion normalize proof1 = Ok tt.
Proof. vm_compute. reflexivity. Qed.
Lemma first_row : rows chain1 !! 0%nat = Some (head_of chain1).
Proof. vm_compute. reflexivity. Qed.

Definition datedb (e : Event) : bool := (0 <=? OccurredAt e) && (OccurredAt e <? (last_day + 1) * day_us * 1000).
Lemma datedb_ok e : datedb e = true -> dated e.
Proof. unfold datedb. by rewrite andb_true_iff, Z.leb_le, Z.ltb_lt. Qed.
Lemma dated_events l : forallb datedb l = true -> Forall dated l.
Proof. intros H. rewrite forallb_forall in H. apply Forall_forall. intros e He. apply datedb_ok, H. by apply list_elem_of_In. Qed.
Lemma dated2 : Forall dated (rows chain2).
Proof. apply dated_events. vm_compute. reflexivity. Qed.
Lemma dated1 : Forall dated (TerminalEvent proof1 :: SuccessorEvents proof1).
Proof. apply dated_events. vm_compute. reflexivity. Qed.
End Demo.

Lemma checkpoint_binds_log_witness :
  Forall2 (same_event Demo.normalize) (rows Demo.chain2) (rows Demo.chain2) \/
  Sha256.collides (map (preimage Demo.normalize) (rows Demo.chain2)) (map (preimage Demo.normalize) (rows Demo.chain2)).
Proof.
  apply (checkpoint_binds_log Demo.normalize (rows Demo.chain2) (rows Demo.chain2) (AuditCheckpoint Demo.chain2));
    [exact Demo.verifies2|exact Demo.verifies2|exact Demo.dated2|exact Demo.dated2].
Defined.

Lemma inclusion_sound_witness :
  (exists before e after, rows Demo.chain2 = before ++ e :: after /\
     Sequence (TerminalEvent Demo.proof1) = Z.of_nat (length before) + 1 /\ same_event Demo.normalize (TerminalEvent Demo.proof1) e /\
     Forall2 (same_event Demo.normalize) (SuccessorEvents Demo.proof1) after) \/
  Sha256.collides (map (preimage Demo.normalize) (TerminalEvent Demo.proof1 :: SuccessorEvents Demo.proof1))
    (map (preimage Demo.normalize) (rows Demo.chain2)).
Proof.
  apply (inclusion_sound Demo.normalize Demo.proof1 (rows Demo.chain2)); [exact Demo.included1|exact Demo.verifies2|exact Demo.dated1|exact Demo.dated2].
Defined.

Lemma chain_verifies_witness :
  VerifyAuditChain Demo.normalize Demo.chain2 = Ok tt /\ VerifyLinear Demo.normalize (rows Demo.chain2) (AuditCheckpoint Demo.chain2) = Ok tt /\
  (forall i e, rows Demo.chain2 !! i = Some e -> Sequence e = Z.of_nat i + 1) /\ last_sequence Demo.chain2 = Z.of_nat (length (rows Demo.chain2)) /\
  rows Demo.chain1 `prefix_of` rows Demo.chain2.
Proof.
  apply (chain_verifies Demo.normalize Demo.stored Demo.keeps Demo.chain1 Demo.chain2); [exact Demo.grows1|exact Demo.grows2].
Defined.

Lemma inclusion_served_witness :
  exists proof, auditInclusionProof Demo.normalize Demo.chain1 Demo.chain1 Demo.chain2 (Demo.head_of Demo.chain1) = Ok proof /\
    VerifyInclusion Demo.normalize proof = Ok tt /\ TerminalEvent proof = Demo.head_of Demo.chain1 /\
    ProofCheckpoint proof = AuditCheckpoint Demo.chain1.
Proof.
  apply (inclusion_served Demo.normalize Demo.stored Demo.keeps Demo.chain1 Demo.chain1 Demo.chain1 Demo.chain2 0%nat);
    [exact Demo.grows1|constructor|constructor|exact Demo.grows2|exact Demo.first_row].
Defined.
End AuditChain.
