(* ===== verification/ExposureLedger.v ===== *)
(** * The exposure ledger

    [src/internal/control/exposure.go]: the ledger of one task family records
    which facts its queries released, depended on and asserted, and how many new
    facts each query was charged; [settleAnyExposureMeasuredTx] and
    [releaseAnyExposureReservationTx] of [ordinal_exposure.go] dispatch on the
    profile.  The V4 and V5 profiles are the class [OrdinalExposure]. *)

From S2P Require Import Prelude GoBytes Ordering GoText Sha256 FactId FactSet LedgerStore.
Import FactId FactSet Store.

Module ExposureLedger.

Definition ProfileV1 := "taskgate-exposure-v1".

(** The predicate-footprint fields of the V5 charge are not kept. *)
Record ExposureCharge := MkCharge {
  cQueryID : string; cRootTaskID : string; cProfileVersion : string; cActual : ExposureLimits; cCharged : ExposureLimits;
  cObservationSHA256 : string; cDictionarySetDigest : string; cReleaseSetSHA256 : string; cInfluenceSetSHA256 : string;
  cOutcomeSetSHA256 : string; cRootEpoch : Z }.

(** The V4 and V5 ledgers: an observation, a reference to a committed one, and
    the operations of [ordinal_exposure.go] and [ordinal_exposure_v5.go]. *)
Inductive ordinal_version := V4 | V5.
#[export] Instance ordinal_version_eq_dec : EqDecision ordinal_version.
Proof. solve_decision. Defined.

Class OrdinalExposure (O Observed Referenced : Type) := {
  ord_ensure : ordinal_version -> Store O -> string -> ExposureGrant -> Z -> result (Store O);
  ord_reserve : ordinal_version -> Store O -> string -> string -> option ExposureLimits -> string -> Z -> result (Store O);
  ord_has : ordinal_version -> O -> string -> bool;
  ord_status : ordinal_version -> O -> string -> option string;
  ord_settle : ordinal_version -> Store O -> Z -> string -> Observed + Referenced -> result (Store O * option ExposureCharge);
  ord_release : ordinal_version -> Store O -> Z -> string -> result (Store O);
}.


(** What the V4 and V5 operations promise the legacy ledger and the budget
    ledger: they keep to their own tables and the audit log, each moves the
    status of one reservation, and an open reservation can be released. *)
Class OrdinalLaws (O Observed Referenced : Type) `{!OrdinalExposure O Observed Referenced} : Prop := {
  ord_ensure_frame v s t g now s' : ord_ensure v s t g now = Ok s' -> ledger_frame s s' /\ resource_frame s s';
  ord_reserve_frame v s q t e p now s' : ord_reserve v s q t e p now = Ok s' -> ledger_frame s s' /\ resource_frame s s';
  ord_settle_frame v s now q e s' c : ord_settle v s now q e = Ok (s', c) -> ledger_frame s s' /\ resource_frame s s';
  ord_release_frame v s now q s' : ord_release v s now q = Ok s' -> ledger_frame s s' /\ resource_frame s s';
  ord_has_status v o q : ord_has v o q = bool_decide (is_Some (ord_status v o q));
  ord_ensure_status v s t g now s' v' q' : ord_ensure v s t g now = Ok s' -> ord_status v' (ordinal s') q' = ord_status v' (ordinal s) q';
  ord_reserve_status v s q t e p now s' v' q' : ord_reserve v s q t e p now = Ok s' ->
    ord_status v' (ordinal s') q' = if decide (v' = v /\ q' = q) then Some exposureReserved else ord_status v' (ordinal s) q';
  ord_settle_status v s now q e s' c v' q' : ord_settle v s now q e = Ok (s', c) ->
    ord_status v' (ordinal s') q' = if decide (v' = v /\ q' = q) then Some exposureSettled else ord_status v' (ordinal s) q';
  ord_release_status v s now q s' v' q' : ord_release v s now q = Ok s' ->
    ord_status v' (ordinal s') q' = if decide (v' = v /\ q' = q) then Some exposureReleased else ord_status v' (ordinal s) q';
  ord_release_open v s now q : ord_status v (ordinal s) q = Some exposureReserved -> exists s', ord_release v s now q = Ok s';
}.

Record ExposureReservationRequest := MkExposureRequest { xProfileVersion : string; xEstimated : ExposureLimits }.

(** ** Grants *)
Definition valid_predicate_limits (l : PredicateFootprintLimitsV1) : bool :=
  negb (negb (same (pfVersion l) PredicateFootprintVersion) ||
        (MaxRawLiteralsPerQuery l <=? 0) || (MaxUniqueAtomsPerQuery l <=? 0) ||
        (65536 <? MaxUniqueAtomsPerQuery l) || (MaxRawLiteralsPerQuery l <? MaxUniqueAtomsPerQuery l) ||
        (MaxAtomPayloadBytes l <=? 0) || (MaxTotalAtomPayloadBytes l <? MaxAtomPayloadBytes l)).

Definition counts_outcomes (profile : string) : bool := in_list profile [ProfileV3; ProfileV4; ProfileV5].

Definition validateExposureGrant (grant : ExposureGrant) : result unit :=
  let release := ReleaseFacts (eLimits grant) in
  let influence := InfluenceFacts (eLimits grant) in
  let outcome := OutcomeFacts (eLimits grant) in
  let profile := eProfileVersion grant in
  fail_if ((release <? 0) || (influence <? 0) || (outcome <? 0)) (ErrNew "exposure limits cannot be negative") ≫= fun _ =>
  fail_if (negb (Bool.eqb (release =? 0) (influence =? 0)))
    (ErrNew "release and influence limits must both be enabled or disabled") ≫= fun _ =>
  fail_if ((0 <? release) && blank profile) (ErrNew "exposure profile version is required") ≫= fun _ =>
  fail_if ((0 <? release) && negb (in_list profile [ProfileV1; ProfileV2; ProfileV3; ProfileV4; ProfileV5]))
    (ErrNew "unsupported exposure profile version") ≫= fun _ =>
  fail_if (counts_outcomes profile && (outcome <=? 0)) (ErrNew "V3/V4/V5 requires a positive outcome limit") ≫= fun _ =>
  fail_if (negb (counts_outcomes profile) && negb (outcome =? 0)) (ErrNew "outcome limit requires V3/V4/V5") ≫= fun _ =>
  fail_if ((release =? 0) && given profile) (ErrNew "exposure profile requires positive limits") ≫= fun _ =>
  if same profile ProfileV5 then
    match ePredicateFootprint grant with
    | Some limits => fail_if (negb (valid_predicate_limits limits)) (ErrNew "V5 requires valid predicate footprint limits")
    | None => Err (ErrNew "V5 requires valid predicate footprint limits")
    end
  else fail_if (negb (bool_decide (ePredicateFootprint grant = None))) (ErrNew "predicate footprint limits require V5").

Section ledger.
Context `{SQLLiterals} {O Observed Referenced : Type} `{!OrdinalExposure O Observed Referenced}.
(** [sameJSON], which compares legacy rows written before the canonical payload column. *)
Context (sameJSON : bytes -> bytes -> bool).
Implicit Types s : Store O.

(** ** Creating the root ledger *)
Definition zero_limits := MkExposure 0 0 0.

Definition ensureExposureLedgerTx s (taskID : string) (grant : ExposureGrant) (now : Z) : result (Store O) :=
  validateExposureGrant grant ≫= fun _ =>
  if same (eProfileVersion grant) ProfileV4 then ord_ensure V4 s taskID grant now
  else if same (eProfileVersion grant) ProfileV5 then ord_ensure V5 s taskID grant now
  else
    task ← select (tasks s !! taskID);
    let root := tRootTaskID task in
    match Enabled grant, ledgers s !! root with
    | false, Some _ => Err (ErrNew "delegated task cannot disable its root exposure ledger")
    | false, None => Ok s
    | true, Some existing =>
        fail_if (negb (same (lProfileVersion existing) (eProfileVersion grant)) ||
                 (ReleaseFacts (lLimits existing) <? ReleaseFacts (eLimits grant)) ||
                 (InfluenceFacts (lLimits existing) <? InfluenceFacts (eLimits grant)) ||
                 (OutcomeFacts (lLimits existing) <? OutcomeFacts (eLimits grant)))
          (ErrNew "delegated exposure grant expands or changes its root ledger") ≫= fun _ => Ok s
    | true, None =>
        fail_if (negb (same root taskID)) (ErrNew "delegated task has no root exposure ledger") ≫= fun _ =>
        Ok (with_ledgers s (<[root := MkLedger root (eProfileVersion grant) (eLimits grant) zero_limits now]> (ledgers s)))
    end.

(** ** Reserving *)
Definition reserveExposureTx s (queryID taskID : string) (request : option ExposureReservationRequest) (now : Z) :
    result (Store O) :=
  grant ← select (grants s !! taskID);
  let ordinal v := ord_reserve v s queryID taskID (option_map xEstimated request)
                     (match request with Some r => xProfileVersion r | None => "" end) now in
  if same (gExposureProfile grant) ProfileV4 then ordinal V4
  else if same (gExposureProfile grant) ProfileV5 then ordinal V5
  else
    task ← select (tasks s !! taskID);
    let root := tRootTaskID task in
    match ledgers s !! root, request with
    | None, Some _ => Err (ErrNew "exposure reservation supplied for a resource-only task")
    | None, None => Ok s
    | Some _, None => Err ErrExposureEvidenceRequired
    | Some ledger, Some request =>
        let profile := lProfileVersion ledger in
        let e := xEstimated request in
        fail_if (blank (xProfileVersion request) || negb (same (xProfileVersion request) profile) ||
                 (ReleaseFacts e <? 0) || (InfluenceFacts e <? 0) || (OutcomeFacts e <? 0) ||
                 (same profile ProfileV3 && (OutcomeFacts e =? 0)) ||
                 (negb (same profile ProfileV3) && negb (OutcomeFacts e =? 0)))
          (ErrNew "invalid exposure reservation") ≫= fun _ =>
        fail_if (bool_decide (is_Some (reservations s !! queryID))) duplicate_key ≫= fun _ =>
        Ok (with_reservations s (<[queryID := MkReservation taskID root profile exposureReserved e zero_limits
              zero_limits "" None]> (reservations s)))
    end.

(** ** Recording facts *)
Record encodedFact := MkEncoded { eHash : string; eIdentity : bytes; ePayload : bytes }.

Definition encode (fact : FactID) : result encodedFact :=
  hash ← Hash fact;
  payload ← CanonicalPayload fact;
  Ok (MkEncoded hash (json_fact fact) payload).

Fixpoint encode_all (facts : list FactID) : result (list encodedFact) :=
  match facts with
  | [] => Ok []
  | fact :: rest => e ← encode fact; es ← encode_all rest; Ok (e :: es)
  end.

(** A stored row holds the fact that is about to be recorded under its hash. *)
Definition row_matches (row : FactRow) (fact : encodedFact) : bool :=
  match fPayload row with
  | Some stored => bool_decide (stored = ePayload fact)
  | None => sameJSON (fIdentity row) (eIdentity fact)
  end.

(** One [INSERT ... ON CONFLICT DO NOTHING RETURNING]: the rows added and their number. *)
Definition insert_row (root kind query : string) (now : Z) (st : gmap fact_key FactRow * Z) (fact : encodedFact) :
    gmap fact_key FactRow * Z :=
  let key := (root, kind, eHash fact) in
  match st.1 !! key with
  | Some _ => st
  | None => (<[key := MkFactRow (eIdentity fact) (Some (ePayload fact)) query now]> st.1, st.2 + 1)
  end.

Definition insert_chunk s (root kind query : string) (facts_ : list FactID) (now : Z) : result (Store O * Z) :=
  encoded ← encode_all facts_;
  check_all (fun fact => match facts s !! (root, kind, eHash fact) with
                         | Some row => fail_if (negb (row_matches row fact)) (ErrNew "fact hash collision for %s")
                         | None => Ok tt
                         end) encoded ≫= fun _ =>
  let missing := filter (fun fact => facts s !! (root, kind, eHash fact) = None) encoded in
  if (length missing =? 0)%nat then Ok (s, 0)
  else
    let '(rows, chunkInserted) := fold_left (insert_row root kind query now) missing (facts s, 0) in
    fail_if (negb (chunkInserted =? Z.of_nat (length missing)))
      (ErrNew "fact insertion conflicted despite the root ledger lock") ≫= fun _ =>
    Ok (with_facts s rows, chunkInserted).

Definition chunkSize : nat := 5000.

(** [for start := 0; start < len(facts); start += chunkSize]; the fuel bounds the number of chunks. *)
Fixpoint insert_loop (fuel : nat) s (root kind query : string) (facts_ : list FactID) (now inserted : Z) :
    result (Store O * Z) :=
  match facts_, fuel with
  | [], _ | _, 0%nat => Ok (s, inserted)
  | _, S fuel =>
      '(s, n) ← insert_chunk s root kind query (take chunkSize facts_) now;
      insert_loop fuel s root kind query (drop chunkSize facts_) now (inserted + n)
  end.

Definition insertNovelFactsTx s (root kind query : string) (facts_ : list FactID) (now : Z) : result (Store O * Z) :=
  insert_loop (length facts_) s root kind query facts_ now 0.

Fixpoint link_all (l : gset link_key) (root query kind : string) (facts_ : list FactID) : result (gset link_key) :=
  match facts_ with
  | [] => Ok l
  | fact :: rest => hash ← Hash fact; link_all ({[ (root, query, kind, hash) ]} ∪ l) root query kind rest
  end.

Definition linkObservedFactsTx s (root query kind : string) (facts_ : list FactID) : result (Store O) :=
  l ← link_all (links s) root query kind facts_; Ok (with_links s l).

(** ** Settling *)
Definition count (l : list FactID) : Z := Z.of_nat (length l).

Definition observation_digest (normalized : Observation) : string := Sha256.hex_sum (json_observation normalized).

Definition settled_charge (query : string) (r : ExposureReservationRow) (digest : string) : ExposureCharge :=
  MkCharge query (rRootTaskID r) (rProfileVersion r) (rActual r) (rCharged r) digest "" "" "" "" 0.

Definition exceeds (fresh used limit : Z) : bool := (0 <? fresh) && (limit <? used + fresh).

Definition charge_ledger (ledger : ExposureLedgerSnapshot) (c : ExposureLimits) (now : Z) : ExposureLedgerSnapshot :=
  MkLedger (lRootTaskID ledger) (lProfileVersion ledger) (lLimits ledger)
    (MkExposure (ReleaseFacts (lUsed ledger) + ReleaseFacts c) (InfluenceFacts (lUsed ledger) + InfluenceFacts c)
                (OutcomeFacts (lUsed ledger) + OutcomeFacts c)) now.

(** The three insertions, in order. *)
Definition insert_observation s (root query : string) (n : Observation) (now : Z) : result (Store O * ExposureLimits) :=
  '(s, newRelease) ← insertNovelFactsTx s root "RELEASE" query (Release n) now;
  '(s, newInfluence) ← insertNovelFactsTx s root "INFLUENCE" query (Influence n) now;
  '(s, newOutcome) ← insertNovelFactsTx s root "OUTCOME" query (Outcome n) now;
  Ok (s, MkExposure newRelease newInfluence newOutcome).

Definition link_observation s (root query : string) (n : Observation) : result (Store O) :=
  s ← linkObservedFactsTx s root query "RELEASE" (Release n);
  s ← linkObservedFactsTx s root query "INFLUENCE" (Influence n);
  linkObservedFactsTx s root query "OUTCOME" (Outcome n).

Definition invalid_outcome_count (profile : string) (n : Observation) : bool :=
  (same profile ProfileV3 && negb (count (Outcome n) =? 1)) ||
  (negb (same profile ProfileV3) && negb (count (Outcome n) =? 0)).

Definition settleExposureMeasuredTx s (now : Z) (queryID : string) (observation : option Observation) :
    result (Store O * option ExposureCharge) :=
  match reservations s !! queryID, observation with
  | None, Some _ => Err (ErrNew "exposure evidence supplied without a reservation")
  | None, None => Ok (s, None)
  | Some _, None => Err ErrExposureEvidenceRequired
  | Some r, Some observation =>
      normalized ← Normalize observation;
      fail_if (negb (same (ProfileVersion normalized) (rProfileVersion r)))
        (ErrNew "exposure observation uses a different profile") ≫= fun _ =>
      fail_if (invalid_outcome_count (rProfileVersion r) normalized)
        (ErrNew "exposure observation has an invalid outcome fact count") ≫= fun _ =>
      let digest := observation_digest normalized in
      if same (rStatus r) exposureSettled then
        fail_if (negb (same (rObservationSHA256 r) digest))
          (ErrNew "query already settled with different exposure evidence") ≫= fun _ =>
        Ok (s, Some (settled_charge queryID r digest))
      else
        fail_if (negb (same (rStatus r) exposureReserved)) (ErrNew "exposure reservation is %s") ≫= fun _ =>
        let root := rRootTaskID r in
        ledger ← select (ledgers s !! root);
        '(s, fresh) ← insert_observation s root queryID normalized now;
        s ← link_observation s root queryID normalized;
        grant ← select (grants s !! rTaskID r);
        let limits := gExposureLimits grant in
        let used := lUsed ledger in
        fail_if (exceeds (ReleaseFacts fresh) (ReleaseFacts used) (ReleaseFacts limits) ||
                 exceeds (InfluenceFacts fresh) (InfluenceFacts used) (InfluenceFacts limits) ||
                 exceeds (OutcomeFacts fresh) (OutcomeFacts used) (OutcomeFacts limits)) ErrExposureBudgetExhausted ≫= fun _ =>
        let charged := charge_ledger ledger fresh now in
        fail_if ((ReleaseFacts (lLimits ledger) <? ReleaseFacts (lUsed charged)) ||
                 (InfluenceFacts (lLimits ledger) <? InfluenceFacts (lUsed charged)) ||
                 (OutcomeFacts (lLimits ledger) <? OutcomeFacts (lUsed charged))) ErrExposureBudgetExhausted ≫= fun _ =>
        let actual := MkExposure (count (Release normalized)) (count (Influence normalized)) (count (Outcome normalized)) in
        let s := with_ledgers s (<[root := charged]> (ledgers s)) in
        let row := MkReservation (rTaskID r) root (rProfileVersion r) exposureSettled (rEstimated r) actual fresh digest (Some now) in
        let s := with_reservations s (<[queryID := row]> (reservations s)) in
        s ← appendAuditTx s (rTaskID r) queryID "system" "QUERY_EXPOSURE_SETTLED" now;
        Ok (s, Some (settled_charge queryID row digest))
  end.

(** ** Releasing *)
Definition releaseExposureReservationTx s (now : Z) (queryID : string) : result (Store O) :=
  match reservations s !! queryID with
  | None => Ok s
  | Some r =>
      if same (rStatus r) exposureReleased then Ok s
      else
        fail_if (negb (same (rStatus r) exposureReserved)) (ErrNew "cannot release %s exposure reservation") ≫= fun _ =>
        let row := MkReservation (rTaskID r) (rRootTaskID r) (rProfileVersion r) exposureReleased (rEstimated r)
                     (rActual r) (rCharged r) (rObservationSHA256 r) (Some now) in
        appendAuditTx (with_reservations s (<[queryID := row]> (reservations s)))
          (rTaskID r) queryID "system" "QUERY_EXPOSURE_RELEASED" now
  end.

(** ** Dispatch on the profile of the reservation *)
Record ExposureEvidence := MkEvidence {
  evExposure : option Observation; evOrdinal : option Observed; evReference : option Referenced }.

Definition settleAnyExposureMeasuredTx s (now : Z) (queryID : string) (e : ExposureEvidence) :
    result (Store O * option ExposureCharge) :=
  let settled v evidence := ord_settle v s now queryID evidence in
  if ord_has V5 (ordinal s) queryID then
    match evOrdinal e, evReference e, evExposure e with
    | Some o, None, None => settled V5 (inl o)
    | None, Some r, None => settled V5 (inr r)
    | _, _, _ => Err (ErrNew "V5 requires exactly one observation or committed observation reference")
    end
  else if ord_has V4 (ordinal s) queryID then
    match evOrdinal e, evReference e, evExposure e with
    | None, None, _ => Err ErrExposureEvidenceRequired
    | Some _, Some _, _ => Err (ErrNew "V4 observation and observation reference are mutually exclusive")
    | _, _, Some _ => Err (ErrNew "legacy and V4 exposure evidence are mutually exclusive")
    | Some o, None, None => settled V4 (inl o)
    | None, Some r, None => settled V4 (inr r)
    end
  else
    match evOrdinal e, evReference e with
    | None, None => settleExposureMeasuredTx s now queryID (evExposure e)
    | _, _ => Err (ErrNew "V4 exposure evidence supplied without a V4 reservation")
    end.

Definition releaseAnyExposureReservationTx s (now : Z) (queryID : string) : result (Store O) :=
  if ord_has V5 (ordinal s) queryID then ord_release V5 s now queryID
  else if ord_has V4 (ordinal s) queryID then ord_release V4 s now queryID
  else releaseExposureReservationTx s now queryID.

End ledger.

(** The rows of one ledger, and those a query was charged for. *)
Definition in_ledger (root kind : string) (kv : fact_key * FactRow) : bool :=
  bool_decide (kv.1.1 = (root, kind)).
Definition charged_to (query root kind : string) (kv : fact_key * FactRow) : bool :=
  in_ledger root kind kv && bool_decide (fFirstQuery kv.2 = query).

Section theory.
Context `{SQLLiterals} {O Observed Referenced : Type} `{!OrdinalExposure O Observed Referenced}.
Context (sameJSON : bytes -> bytes -> bool).
Implicit Types (s : Store O) (e : encodedFact) (m : gmap fact_key FactRow).

(** ** Inserting facts *)
Definition new_row (query : string) (now : Z) (e : encodedFact) : FactRow :=
  MkFactRow (eIdentity e) (Some (ePayload e)) query now.

Definition rows_of (root kind query : string) (now : Z) (l : list encodedFact) : gmap fact_key FactRow :=
  foldr (fun e m => <[(root, kind, eHash e) := new_row query now e]> m) ∅ l.

Lemma insert_row_hit root kind query now m c e : is_Some (m !! (root, kind, eHash e)) ->
  insert_row root kind query now (m, c) e = (m, c).
Proof. intros [row E]. unfold insert_row. cbv zeta. cbn [fst snd]. by rewrite E. Qed.
Lemma insert_row_miss root kind query now m c e : m !! (root, kind, eHash e) = None ->
  insert_row root kind query now (m, c) e = (<[(root, kind, eHash e) := new_row query now e]> m, c + 1).
Proof. intros E. unfold insert_row. cbv zeta. cbn [fst snd]. by rewrite E. Qed.

Lemma insert_rows_union root kind query now m c l :
  (fold_left (insert_row root kind query now) l (m, c)).1 = m ∪ rows_of root kind query now l.
Proof.
  revert m c; induction l as [|x l IH]; intros m c; cbn [fold_left rows_of foldr]; [by rewrite (right_id_L ∅ (∪))|].
  fold (rows_of root kind query now l). destruct (m !! (root, kind, eHash x)) as [row|] eqn:E.
  - rewrite insert_row_hit, IH by eauto. apply map_eq. intros k. rewrite !lookup_union.
    destruct (decide (k = (root, kind, eHash x))) as [->|Hne]; [by rewrite E, !union_Some_l|].
    by rewrite lookup_insert_ne.
  - rewrite insert_row_miss, IH by done. by rewrite <- insert_union_l, insert_union_r.
Qed.

(** A predicate on rows counts one more for each row added, or is not affected. *)
Lemma insert_rows_count root kind query now P (b : bool) l m c :
  (forall e, e ∈ l -> P ((root, kind, eHash e), new_row query now e) = b) ->
  let r := fold_left (insert_row root kind query now) l (m, c) in
  c <= r.2 /\ count_if P r.1 = count_if P m + (if b then r.2 - c else 0).
Proof.
  revert m c; induction l as [|x l IH]; intros m c HP; cbn [fold_left]; [cbn; destruct b; lia|].
  pose proof (HP x (list_elem_of_here _ _)) as Hx.
  assert (HP' : forall e, e ∈ l -> P ((root, kind, eHash e), new_row query now e) = b) by (intros; apply HP; by right).
  destruct (m !! (root, kind, eHash x)) as [row|] eqn:E.
  - rewrite insert_row_hit by eauto. by apply IH.
  - rewrite insert_row_miss by done.
    destruct (IH (<[(root, kind, eHash x) := new_row query now x]> m) (c + 1) HP') as [Hc Hn].
    rewrite count_if_insert, Hx in Hn by done. destruct b; split; lia.
Qed.

Lemma insert_rows_fresh root kind query now m c l :
  NoDup (map eHash l) -> (forall e, e ∈ l -> m !! (root, kind, eHash e) = None) ->
  (fold_left (insert_row root kind query now) l (m, c)).2 = c + Z.of_nat (length l).
Proof.
  revert m c; induction l as [|x l IH]; intros m c Hnd Hm; cbn [fold_left map length] in *; [cbn; lia|].
  inversion_clear Hnd as [|?? Hx Hnd']. rewrite insert_row_miss by (apply Hm; by left). rewrite IH; [lia|done|].
  intros e He. rewrite lookup_insert_ne; [apply Hm; by right|]. intros [= E]. apply Hx. rewrite E.
  by apply (list_elem_of_fmap_2 eHash).
Qed.

Lemma encode_all_ok fs enc : encode_all fs = Ok enc <-> Forall2 (fun f e => encode f = Ok e) fs enc.
Proof.
  revert enc; induction fs as [|f fs IH]; intros enc; cbn [encode_all].
  { split; [intros E%Ok_inj; subst; constructor|by intros ->%Forall2_nil_inv_l]. }
  rewrite bind_ok. split.
  - intros (e & He & E). apply bind_ok in E as (es & Hes & E). apply Ok_inj in E as <-. constructor; [done|by apply IH].
  - intros (e & es & He & Hes & ->)%Forall2_cons_inv_l. exists e. split; [done|]. apply IH in Hes. by rewrite Hes.
Qed.

Lemma encode_all_app a b enc : encode_all (a ++ b) = Ok enc <->
  exists x y, encode_all a = Ok x /\ encode_all b = Ok y /\ enc = x ++ y.
Proof.
  rewrite encode_all_ok. split.
  - intros Hf. apply Forall2_app_inv_l in Hf as (x & y & Hx & Hy & ->). exists x, y. by rewrite !encode_all_ok.
  - intros (x & y & Hx & Hy & ->). apply encode_all_ok in Hx. apply encode_all_ok in Hy. by apply Forall2_app.
Qed.

Lemma rows_of_app root kind query now a b :
  rows_of root kind query now (a ++ b) = rows_of root kind query now a ∪ rows_of root kind query now b.
Proof.
  induction a as [|e a IH]; cbn [app rows_of foldr]; [by rewrite (left_id_L ∅ (∪))|].
  fold (rows_of root kind query now (a ++ b)) (rows_of root kind query now a). by rewrite IH, insert_union_l.
Qed.

Lemma rows_of_lookup root kind query now l k : is_Some (rows_of root kind query now l !! k) <->
  exists e, e ∈ l /\ k = (root, kind, eHash e).
Proof.
  induction l as [|x l IH]; cbn [rows_of foldr].
  { rewrite lookup_empty. split; [by intros [? [=]]|intros (e & He & _); by apply elem_of_nil in He]. }
  fold (rows_of root kind query now l). destruct (decide (k = (root, kind, eHash x))) as [->|Hne].
  - rewrite lookup_insert_eq. split; [|by eauto]. intros _. exists x. by split; [left|].
  - rewrite lookup_insert_ne, IH by done. split; intros (e & He & Hk); exists e.
    + by split; [right|].
    + apply elem_of_cons in He as [->|He]; [by destruct Hne|done].
Qed.

Lemma rows_of_missing root kind query now m l :
  m ∪ rows_of root kind query now (filter (fun e => m !! (root, kind, eHash e) = None) l) =
  m ∪ rows_of root kind query now l.
Proof.
  apply map_eq. intros k. rewrite !lookup_union. destruct (m !! k) as [row|] eqn:E; [by rewrite !union_Some_l|].
  f_equal. induction l as [|x l IH]; [done|]. rewrite filter_cons. case_decide as Hd; cbn [rows_of foldr];
    fold (rows_of root kind query now l); [fold (rows_of root kind query now (filter (fun e => m !! (root, kind, eHash e) = None) l))|].
  - destruct (decide (k = (root, kind, eHash x))) as [->|]; [by rewrite !lookup_insert_eq|by rewrite !lookup_insert_ne].
  - rewrite lookup_insert_ne; [done|]. intros <-. done.
Qed.

Lemma with_facts_id s : with_facts s (facts s) = s.
Proof. by destruct s. Qed.

(** What inserting a list of facts does to the ledger: the rows not yet there
    are added, and every count of rows moves by the number returned or not at all. *)
Definition inserted (s : Store O) (root kind query : string) (now : Z) (fs : list FactID) (r : Store O * Z) : Prop :=
  exists enc, encode_all fs = Ok enc /\ r.1 = with_facts s (facts s ∪ rows_of root kind query now enc) /\ 0 <= r.2 /\
    forall P (b : bool), (forall e, e ∈ enc -> P ((root, kind, eHash e), new_row query now e) = b) ->
      count_if P (facts r.1) = count_if P (facts s) + (if b then r.2 else 0).

Lemma insert_chunk_ok s root kind query fs now r :
  insert_chunk sameJSON s root kind query fs now = Ok r -> inserted s root kind query now fs r.
Proof.
  unfold insert_chunk. intros E. apply bind_ok in E as (enc & Henc & E). apply seq_ok in E as [_ E].
  exists enc. split; [done|]. pose proof (rows_of_missing root kind query now (facts s) enc) as Hmiss.
  set (missing := filter _ enc) in *.
  destruct (length missing =? 0)%nat eqn:El.
  - apply Ok_inj in E as <-. cbn [fst snd]. apply Nat.eqb_eq, nil_length_inv in El. rewrite El in Hmiss.
    rewrite <- Hmiss. cbn [rows_of foldr]. rewrite (right_id_L ∅ (∪)), with_facts_id.
    split; [done|]. split; [lia|]. intros P b _. destruct b; lia.
  - destruct (fold_left (insert_row root kind query now) missing (facts s, 0)) as [rows n] eqn:Ef.
    apply fail_if_bind_ok in E as [_ E]. apply Ok_inj in E as <-. cbn [fst snd].
    pose proof (insert_rows_union root kind query now (facts s) 0 missing) as Hu. rewrite Ef in Hu. cbn [fst] in Hu.
    split; [by rewrite Hu, Hmiss|].
    assert (Hcount : forall P (b : bool), (forall e, e ∈ enc -> P ((root, kind, eHash e), new_row query now e) = b) ->
      0 <= n /\ count_if P rows = count_if P (facts s) + (if b then n - 0 else 0)).
    { intros P b HP. pose proof (insert_rows_count root kind query now P b missing (facts s) 0) as Hc. rewrite Ef in Hc.
      cbn [fst snd] in Hc. apply Hc. intros e He. apply HP. by apply list_elem_of_filter in He as [_ He]. }
    split; [by destruct (Hcount (fun _ => true) true)|]. intros P b HP. cbn [facts with_facts].
    destruct (Hcount P b HP) as [_ ->]. destruct b; lia.
Qed.

Lemma inserted_nil s root kind query now : inserted s root kind query now [] (s, 0).
Proof.
  exists []. split; [done|]. cbn [fst snd rows_of foldr]. rewrite (right_id_L ∅ (∪)), with_facts_id.
  split; [done|]. split; [lia|]. intros P b _. destruct b; lia.
Qed.

Lemma inserted_app s s1 s2 root kind query now fs gs n k :
  inserted s root kind query now fs (s1, n) -> inserted s1 root kind query now gs (s2, k) ->
  inserted s root kind query now (fs ++ gs) (s2, n + k).
Proof.
  intros (a & Ea & Hs1 & Hn & Ca) (b & Eb & Hs2 & Hk & Cb). cbn [fst snd] in *. exists (a ++ b).
  split; [apply encode_all_app; eauto|]. cbn [fst snd]. split; [|split; [lia|]].
  - subst s2. subst s1. rewrite rows_of_app. by rewrite (assoc_L (∪)).
  - intros P c HP. rewrite (Cb P c), (Ca P c); [destruct c; lia|intros; apply HP..]; apply elem_of_app; tauto.
Qed.

Lemma insert_loop_ok fuel s root kind query fs now k r : (length fs <= fuel)%nat ->
  insert_loop sameJSON fuel s root kind query fs now k = Ok r ->
  exists n, r.2 = k + n /\ inserted s root kind query now fs (r.1, n).
Proof.
  assert (Hnil : forall s k r, Ok (s, k) = Ok r -> exists n, r.2 = k + n /\ inserted s root kind query now [] (r.1, n)).
  { clear. intros s k r E%Ok_inj. subst r. exists 0. cbn [fst snd]. split; [lia|apply inserted_nil]. }
  revert s fs k; induction fuel as [|fuel IH]; intros s fs k Hlen E.
  - destruct fs as [|f fs]; [|cbn in Hlen; lia]. by apply Hnil.
  - destruct fs as [|f fs]; [by apply Hnil|]. cbn [insert_loop] in E. apply bind_ok in E as ([s1 n1] & E1 & E).
    apply insert_chunk_ok in E1. apply IH in E as (n & Hn & Hins).
    + exists (n1 + n). split; [lia|]. rewrite <- (take_drop chunkSize (f :: fs)). by apply inserted_app with s1.
    + rewrite length_drop. cbn [length] in *. unfold chunkSize. lia.
Qed.

Lemma insertNovelFactsTx_ok s root kind query fs now r :
  insertNovelFactsTx sameJSON s root kind query fs now = Ok r -> inserted s root kind query now fs r.
Proof.
  intros E. apply insert_loop_ok in E as (n & Hn & Hins); [|done]. destruct r as [s' m]. cbn in *. by rewrite Hn.
Qed.

(** *** Success of an insertion *)
Lemma insert_chunk_some s root kind query now fs enc : encode_all fs = Ok enc -> NoDup (map eHash enc) ->
  (forall e row, e ∈ enc -> facts s !! (root, kind, eHash e) = Some row -> row_matches sameJSON row e = true) ->
  exists n, insert_chunk sameJSON s root kind query fs now =
    Ok (with_facts s (facts s ∪ rows_of root kind query now enc), n).
Proof.
  intros Henc Hnd Hmatch. unfold insert_chunk. rewrite Henc. cbn [mbind result_bind].
  rewrite (proj2 (check_all_ok _ enc)).
  2:{ apply Forall_forall. intros e He. destruct (facts s !! (root, kind, eHash e)) as [row|] eqn:E; [|done].
      by rewrite (Hmatch e row He E). }
  cbn [mbind result_bind]. pose proof (rows_of_missing root kind query now (facts s) enc) as Hmiss.
  set (missing := filter _ enc) in *. assert (Hlen : forall x, x ∈ missing -> x ∈ enc /\ facts s !! (root, kind, eHash x) = None).
  { intros x Hx. unfold missing in Hx. apply list_elem_of_filter in Hx. tauto. }
  destruct (length missing =? 0)%nat eqn:El.
  - exists 0. apply Nat.eqb_eq, nil_length_inv in El. rewrite El in Hmiss. rewrite <- Hmiss. cbn [rows_of foldr].
    by rewrite (right_id_L ∅ (∪)), with_facts_id.
  - pose proof (insert_rows_union root kind query now (facts s) 0 missing) as Hu.
    pose proof (insert_rows_fresh root kind query now (facts s) 0 missing) as Hf.
    destruct (fold_left (insert_row root kind query now) missing (facts s, 0)) as [rows n]. cbn [fst snd] in *.
    exists n. rewrite Hf.
    + rewrite Z.add_0_l, Z.eqb_refl. cbn. rewrite Hu, Hmiss. done.
    + unfold missing. clear -Hnd. induction enc as [|x enc IH]; [constructor|]. cbn [map] in Hnd. inversion_clear Hnd as [|?? Hx Hnd'].
      rewrite filter_cons. case_decide; [|by apply IH]. cbn [map]. constructor; [|by apply IH].
      intros (y & Hy & Hin)%list_elem_of_fmap. apply Hx. rewrite Hy. apply list_elem_of_filter in Hin as [_ Hin].
      by apply (list_elem_of_fmap_2 eHash).
    + intros e He. by apply Hlen.
Qed.

Lemma insert_loop_some fuel s root kind query now fs enc k : (length fs <= fuel)%nat ->
  encode_all fs = Ok enc -> NoDup (map eHash enc) ->
  (forall e row, e ∈ enc -> facts s !! (root, kind, eHash e) = Some row -> row_matches sameJSON row e = true) ->
  is_ok (insert_loop sameJSON fuel s root kind query fs now k) = true.
Proof.
  revert s fs enc k; induction fuel as [|fuel IH]; intros s fs enc k Hlen Henc Hnd Hmatch; destruct fs as [|f fs]; try done.
  cbn [insert_loop]. rewrite <- (take_drop chunkSize (f :: fs)) in Henc.
  apply encode_all_app in Henc as (a & b & Ha & Hb & ->). rewrite map_app, NoDup_app in Hnd.
  destruct Hnd as (Na & Nab & Nb).
  destruct (insert_chunk_some s root kind query now _ a Ha Na) as [n Hn].
  { intros e row He. apply Hmatch. apply elem_of_app. by left. }
  rewrite Hn. cbn [mbind result_bind]. apply (IH _ _ b); [|done|done|].
  - rewrite length_drop. cbn [length] in *. unfold chunkSize. lia.
  - intros e row He. cbn [facts with_facts]. rewrite lookup_union_Some_raw. intros [Hs|[_ Hr]].
    + apply (Hmatch e row); [apply elem_of_app; by right|done].
    + exfalso. assert (is_Some (rows_of root kind query now a !! (root, kind, eHash e))) as Hin by eauto.
      apply rows_of_lookup in Hin as (x & Hx & [= Hh]). apply (Nab (eHash e)).
      * rewrite Hh. by apply (list_elem_of_fmap_2 eHash).
      * by apply (list_elem_of_fmap_2 eHash).
Qed.

(** ** The hashes recorded in one ledger *)
Definition ledger_hashes m (root kind : string) : gset string :=
  list_to_set (map (fun kv => kv.1.2) (map_to_list (filter (fun kv => in_ledger root kind kv = true) m))).

Lemma in_ledger_key root kind (k : string * string * string) v : in_ledger root kind (k, v) = true <-> k = (root, kind, k.2).
Proof. unfold in_ledger. rewrite bool_decide_eq_true. destruct k as [[x y] z]; cbn. naive_solver. Qed.

Lemma elem_ledger_hashes m root kind h : h ∈ ledger_hashes m root kind <-> is_Some (m !! (root, kind, h)).
Proof.
  unfold ledger_hashes. rewrite elem_of_list_to_set, list_elem_of_fmap. split.
  - intros ([k v] & -> & Hk). apply elem_of_map_to_list, map_lookup_filter_Some in Hk as [Hk Hin].
    apply in_ledger_key in Hin. cbn. rewrite <- Hin. eauto.
  - intros [v Hv]. exists ((root, kind, h), v). split; [done|]. apply elem_of_map_to_list, map_lookup_filter_Some.
    split; [done|]. by apply in_ledger_key.
Qed.

Lemma size_ledger_hashes m root kind : Z.of_nat (size (ledger_hashes m root kind)) = count_if (in_ledger root kind) m.
Proof.
  unfold ledger_hashes, count_if. f_equal. rewrite size_list_to_set.
  - by rewrite length_map, length_map_to_list.
  - apply NoDup_fmap_2_strong; [|apply NoDup_map_to_list]. intros [k v] [k' v'] Hk Hk' E. cbn in E.
    apply elem_of_map_to_list, map_lookup_filter_Some in Hk as [Hk Hin].
    apply elem_of_map_to_list, map_lookup_filter_Some in Hk' as [Hk' Hin'].
    apply in_ledger_key in Hin. apply in_ledger_key in Hin'. assert (k = k') as -> by congruence. congruence.
Qed.

(** ** Observations, part by part *)
Definition kind_name (p : part) : string :=
  match p with PRelease => "RELEASE" | PInfluence => "INFLUENCE" | POutcome => "OUTCOME" end.
Definition limit_of (p : part) (l : ExposureLimits) : Z :=
  match p with PRelease => ReleaseFacts l | PInfluence => InfluenceFacts l | POutcome => OutcomeFacts l end.

Lemma limits_ext a b : (forall p, limit_of p a = limit_of p b) -> a = b.
Proof.
  intros Hp. destruct a, b. pose proof (Hp PRelease). pose proof (Hp PInfluence). pose proof (Hp POutcome). cbn in *. congruence.
Qed.

Lemma kind_name_inj p q : kind_name p = kind_name q -> p = q.
Proof. by destruct p, q. Qed.

Definition hashes (l : list FactID) : gset string := list_to_set (map hash_of l).

(** What the insertions of an observation do: new rows only, charged to the
    query, each part of the observation present afterwards, and every count of
    rows moved by the numbers returned. *)
Record observed (s : Store O) (root query : string) (n : Observation) (now : Z) (s' : Store O) (fresh : ExposureLimits) : Prop := {
  obs_rows : exists rows, s' = with_facts s rows /\
    (forall k v, facts s !! k = Some v -> rows !! k = Some v) /\
    (forall k, is_Some (rows !! k) <-> is_Some (facts s !! k) \/
       exists p f h, f ∈ facts_of p n /\ Hash f = Ok h /\ k = (root, kind_name p, h)) /\
    (forall k v, facts s !! k = None -> rows !! k = Some v -> fFirstQuery v = query /\
       exists f p, Hash f = Ok k.2 /\ CanonicalPayload f = Ok p /\ fPayload v = Some p);
  obs_hashable p f : f ∈ facts_of p n -> exists h, Hash f = Ok h;
  obs_nonneg p : 0 <= limit_of p fresh;
  obs_count P (b : part -> bool) :
    (forall p h v, fFirstQuery v = query -> P ((root, kind_name p, h), v) = b p) ->
    count_if P (facts s') = count_if P (facts s) +
      ((if b PRelease then ReleaseFacts fresh else 0) + (if b PInfluence then InfluenceFacts fresh else 0) +
       (if b POutcome then OutcomeFacts fresh else 0));
}.

Lemma encode_ok f e : encode f = Ok e <->
  exists p, Hash f = Ok (eHash e) /\ CanonicalPayload f = Ok p /\ e = MkEncoded (eHash e) (json_fact f) p.
Proof.
  unfold encode. rewrite bind_ok. split.
  - intros (h & Hh & E). apply bind_ok in E as (p & Hp & E). apply Ok_inj in E as <-. exists p. done.
  - intros (p & Hh & Hp & He). exists (eHash e). split; [exact Hh|]. rewrite Hp. cbn [mbind result_bind].
    f_equal. symmetry. exact He.
Qed.

Lemma encoded_elem fs enc e : encode_all fs = Ok enc -> e ∈ enc -> exists f, f ∈ fs /\ encode f = Ok e.
Proof.
  intros Henc He. apply encode_all_ok in Henc. apply list_elem_of_lookup in He as [i Hi].
  destruct (Forall2_lookup_r _ _ _ _ _ Henc Hi) as (f & Hf & E). exists f. split; [by eapply list_elem_of_lookup_2|done].
Qed.
Lemma elem_encoded fs enc f : encode_all fs = Ok enc -> f ∈ fs -> exists e, e ∈ enc /\ encode f = Ok e.
Proof.
  intros Henc Hf. apply encode_all_ok in Henc. apply list_elem_of_lookup in Hf as [i Hi].
  destruct (Forall2_lookup_l _ _ _ _ _ Henc Hi) as (e & He & E). exists e. split; [by eapply list_elem_of_lookup_2|done].
Qed.

Lemma rows_of_some root kind query now l k v : rows_of root kind query now l !! k = Some v ->
  exists e, e ∈ l /\ k = (root, kind, eHash e) /\ v = new_row query now e.
Proof.
  induction l as [|x l IH]; cbn [rows_of foldr]; [by rewrite lookup_empty|]. fold (rows_of root kind query now l).
  rewrite lookup_insert_Some. intros [[<- <-]|[_ E]].
  - exists x. split; [by left|done].
  - destruct (IH E) as (e & He & ?). exists e. split; [by right|done].
Qed.

Lemma inserted_rows s root kind query now fs s' k : inserted s root kind query now fs (s', k) ->
  exists rows, s' = with_facts s rows /\
    (forall k v, facts s !! k = Some v -> rows !! k = Some v) /\
    (forall k, is_Some (rows !! k) <-> is_Some (facts s !! k) \/
       exists f h, f ∈ fs /\ Hash f = Ok h /\ k = (root, kind, h)) /\
    (forall k v, facts s !! k = None -> rows !! k = Some v -> fFirstQuery v = query /\
       exists f p, Hash f = Ok k.2 /\ CanonicalPayload f = Ok p /\ fPayload v = Some p).
Proof.
  intros (enc & Henc & Hs' & _ & _). cbn [fst] in Hs'. exists (facts s ∪ rows_of root kind query now enc).
  split; [done|]. split; [|split].
  - intros j v Hj. by apply lookup_union_Some_l.
  - intros j. rewrite lookup_union_is_Some, rows_of_lookup. apply or_iff_compat_l. split.
    + intros (e & He & ->). destruct (encoded_elem fs enc e Henc He) as (f & Hf & (p & Hh & _)%encode_ok). eauto.
    + intros (f & h & Hf & Hh & ->). destruct (elem_encoded fs enc f Henc Hf) as (e & He & (p & Hh' & _)%encode_ok).
      exists e. split; [done|]. rewrite Hh in Hh'. by apply Ok_inj in Hh' as <-.
  - intros j v Hj Hv. rewrite lookup_union_r in Hv by done. apply rows_of_some in Hv as (e & He & -> & ->).
    split; [done|]. destruct (encoded_elem fs enc e Henc He) as (f & Hf & (p & Hh & Hp & Ee)%encode_ok).
    exists f, p. split; [done|]. split; [done|]. rewrite Ee. done.
Qed.

Lemma inserted_count s root kind query now fs s' k P (b : bool) : inserted s root kind query now fs (s', k) ->
  (forall h v, fFirstQuery v = query -> P ((root, kind, h), v) = b) ->
  0 <= k /\ count_if P (facts s') = count_if P (facts s) + (if b then k else 0).
Proof.
  intros (enc & _ & _ & Hk & Hc) HP. split; [done|]. cbn [fst snd] in Hc. apply Hc. intros e _. by apply HP.
Qed.

Lemma inserted_hashable s root kind query now fs r f : inserted s root kind query now fs r -> f ∈ fs -> exists h, Hash f = Ok h.
Proof. intros (enc & Henc & _) Hf. destruct (elem_encoded fs enc f Henc Hf) as (e & _ & (p & Hh & _)%encode_ok). eauto. Qed.

Lemma insert_observation_ok s root query n now s' fresh :
  insert_observation sameJSON s root query n now = Ok (s', fresh) -> observed s root query n now s' fresh.
Proof.
  unfold insert_observation. intros E. apply bind_ok in E as ([s1 k1] & E1 & E). apply bind_ok in E as ([s2 k2] & E2 & E).
  apply bind_ok in E as ([s3 k3] & E3 & E). apply Ok_inj in E. injection E as <- <-.
  apply insertNovelFactsTx_ok in E1. apply insertNovelFactsTx_ok in E2. apply insertNovelFactsTx_ok in E3.
  destruct (inserted_rows _ _ _ _ _ _ _ _ E1) as (r1 & H1 & K1 & D1 & N1).
  destruct (inserted_rows _ _ _ _ _ _ _ _ E2) as (r2 & H2 & K2 & D2 & N2).
  destruct (inserted_rows _ _ _ _ _ _ _ _ E3) as (r3 & H3 & K3 & D3 & N3).
  pose proof (fun P b => inserted_count _ _ _ _ _ _ _ _ P b E1) as C1.
  pose proof (fun P b => inserted_count _ _ _ _ _ _ _ _ P b E2) as C2.
  pose proof (fun P b => inserted_count _ _ _ _ _ _ _ _ P b E3) as C3.
  assert (F1 : facts s1 = r1) by (by subst). assert (F2 : facts s2 = r2) by (by subst).
  rewrite F1 in K2, D2, N2. rewrite F2 in K3, D3, N3. split.
  - exists r3. split; [by subst|]. split; [auto|]. split.
    + intros k. rewrite D3, D2, D1. split.
      * intros [[[?|(f & h & ?)]|(f & h & ?)]|(f & h & ?)]; [by left|right..];
          [exists PRelease, f, h|exists PInfluence, f, h|exists POutcome, f, h]; done.
      * intros [?|([] & f & h & ?)]; [by left; left; left|left; left; right|left; right|right]; eauto.
    + intros k v Hk Hv. destruct (r2 !! k) as [v2|] eqn:R2.
      * rewrite (K3 _ _ R2) in Hv. injection Hv as <-. destruct (r1 !! k) as [v1|] eqn:R1.
        -- rewrite (K2 _ _ R1) in R2. injection R2 as <-. by apply N1.
        -- by apply N2.
      * by apply N3.
  - intros [] f Hf; [by apply (inserted_hashable _ _ _ _ _ _ _ f E1)|by apply (inserted_hashable _ _ _ _ _ _ _ f E2)
                    |by apply (inserted_hashable _ _ _ _ _ _ _ f E3)].
  - intros []; cbn; [apply (C1 (fun _ => true) true)|apply (C2 (fun _ => true) true)|apply (C3 (fun _ => true) true)]; done.
  - intros P b HP. destruct (C3 P (b POutcome)) as [_ ->]; [intros h v Hv; by apply (HP POutcome)|].
    destruct (C2 P (b PInfluence)) as [_ ->]; [intros h v Hv; by apply (HP PInfluence)|].
    destruct (C1 P (b PRelease)) as [_ ->]; [intros h v Hv; by apply (HP PRelease)|]. cbn. lia.
Qed.

Lemma link_all_ok l root query kind fs l' : link_all l root query kind fs = Ok l' ->
  forall k, k ∈ l' <-> k ∈ l \/ exists f h, f ∈ fs /\ Hash f = Ok h /\ k = (root, query, kind, h).
Proof.
  revert l; induction fs as [|f fs IH]; intros l; cbn [link_all].
  { intros E%Ok_inj. subst l'. intros k. split; [by left|]. intros [?|(f & h & Hf & _)]; [done|]. by apply elem_of_nil in Hf. }
  rewrite bind_ok. intros (h & Hh & E) k. rewrite (IH _ E), elem_of_union, elem_of_singleton. split.
  - intros [[->|?]|(g & h' & Hg & ?)]; [right; exists f, h; by split; [left|]|by left|].
    right. exists g, h'. by split; [right|].
  - intros [?|(g & h' & [->|Hg]%elem_of_cons & Hh' & ->)]; [by left; right| |right; eauto].
    rewrite Hh in Hh'. apply Ok_inj in Hh' as <-. by left; left.
Qed.

Lemma link_observation_ok s root query n s' : link_observation s root query n = Ok s' ->
  exists l, s' = with_links s l /\
    forall k, k ∈ l <-> k ∈ links s \/ exists p f h, f ∈ facts_of p n /\ Hash f = Ok h /\ k = (root, query, kind_name p, h).
Proof.
  unfold link_observation, linkObservedFactsTx. intros E. apply bind_ok in E as (s1 & E1 & E). apply bind_ok in E as (s2 & E2 & E).
  apply bind_ok in E1 as (l1 & L1 & E1). apply bind_ok in E2 as (l2 & L2 & E2). apply bind_ok in E as (l3 & L3 & E).
  apply Ok_inj in E1 as <-. apply Ok_inj in E2 as <-. apply Ok_inj in E as <-. cbn [links with_links] in *.
  exists l3. split; [done|]. intros k.
  rewrite (link_all_ok _ _ _ _ _ _ L3), (link_all_ok _ _ _ _ _ _ L2), (link_all_ok _ _ _ _ _ _ L1). split.
  - intros [[[?|(f & h & ?)]|(f & h & ?)]|(f & h & ?)]; [by left|right..];
      [exists PRelease, f, h|exists PInfluence, f, h|exists POutcome, f, h]; done.
  - intros [?|([] & f & h & ?)]; [by left; left; left|left; left; right|left; right|right]; eauto.
Qed.

(** ** What a settlement does *)
Definition settled_row (r : ExposureReservationRow) (n : Observation) (fresh : ExposureLimits) (now : Z) : ExposureReservationRow :=
  MkReservation (rTaskID r) (rRootTaskID r) (rProfileVersion r) exposureSettled (rEstimated r)
    (MkExposure (count (Release n)) (count (Influence n)) (count (Outcome n))) fresh (observation_digest n) (Some now).

(** A first settlement: the observation's facts are recorded and linked, the
    ledger is charged with the new ones within both ceilings. *)
Definition first_settlement (s : Store O) (now : Z) (q : string) (r : ExposureReservationRow) (n : Observation)
    (fresh : ExposureLimits) (s' : Store O) : Prop :=
  exists ledger grant s1 l a,
    ledgers s !! rRootTaskID r = Some ledger /\ grants s !! rTaskID r = Some grant /\
    observed s (rRootTaskID r) q n now s1 fresh /\
    (forall k, k ∈ l <-> k ∈ links s \/
       exists p f h, f ∈ facts_of p n /\ Hash f = Ok h /\ k = (rRootTaskID r, q, kind_name p, h)) /\
    (forall p, exceeds (limit_of p fresh) (limit_of p (lUsed ledger)) (limit_of p (gExposureLimits grant)) = false) /\
    (forall p, limit_of p (lUsed ledger) + limit_of p fresh <= limit_of p (lLimits ledger)) /\
    s' = with_audit (with_reservations (with_ledgers (with_links s1 l)
           (<[rRootTaskID r := charge_ledger ledger fresh now]> (ledgers s)))
           (<[q := settled_row r n fresh now]> (reservations s))) (audit s ++ [a]).

Lemma settleExposure_ok s now q obs s' c :
  settleExposureMeasuredTx sameJSON s now q obs = Ok (s', c) ->
  (reservations s !! q = None /\ obs = None /\ s' = s /\ c = None) \/
  exists r o n, reservations s !! q = Some r /\ obs = Some o /\ Normalize o = Ok n /\
    ProfileVersion n = rProfileVersion r /\ invalid_outcome_count (rProfileVersion r) n = false /\
    ((rStatus r = exposureSettled /\ rObservationSHA256 r = observation_digest n /\ s' = s /\
        c = Some (settled_charge q r (observation_digest n))) \/
     (rStatus r = exposureReserved /\ exists fresh, first_settlement s now q r n fresh s' /\
        c = Some (settled_charge q (settled_row r n fresh now) (observation_digest n)))).
Proof.
  unfold settleExposureMeasuredTx. intros E. destruct (reservations s !! q) as [r|] eqn:Er, obs as [o|]; try done.
  2:{ apply Ok_inj in E. injection E as <- <-. by left. }
  right. apply bind_ok in E as (n & En & E). exists r, o, n. do 3 (split; [done|]).
  apply fail_if_bind_ok in E as [G1%negb_false_iff%same_true E]. apply fail_if_bind_ok in E as [G2 E]. do 2 (split; [done|]).
  destruct (same (rStatus r) exposureSettled) eqn:Es.
  { apply fail_if_bind_ok in E as [G3%negb_false_iff%same_true E]. apply Ok_inj in E. injection E as <- <-.
    apply same_true in Es. by left. }
  right. apply fail_if_bind_ok in E as [G4%negb_false_iff%same_true E]. split; [done|].
  apply bind_ok in E as (ledger & El & E). apply bind_ok in E as ([s1 fresh] & Eo & E).
  apply bind_ok in E as (s2 & Elk & E). apply bind_ok in E as (grant & Eg & E).
  apply fail_if_bind_ok in E as [G5 E]. apply fail_if_bind_ok in E as [G6 E].
  apply bind_ok in E as (s3 & Ea & E). apply Ok_inj in E. injection E as <- <-.
  apply insert_observation_ok in Eo. apply link_observation_ok in Elk as (l & -> & Hl).
  unfold appendAuditTx in Ea. apply fail_if_bind_ok in Ea as [_ Ea]. apply Ok_inj in Ea as <-.
  exists fresh. split; [|done]. destruct (obs_rows _ _ _ _ _ _ _ Eo) as (rows & Hs1 & _).
  apply select_ok in El. apply select_ok in Eg. cbn [ledgers grants with_links reservations with_ledgers] in *.
  assert (Hlinks : links s1 = links s) by (by subst s1). rewrite Hlinks in Hl.
  assert (Hg : grants s1 = grants s) by (by subst s1). rewrite Hg in Eg.
  rewrite !orb_false_iff in G5, G6. rewrite !Z.ltb_ge in G6.
  eexists ledger, grant, s1, l, _. do 4 (split; [done|]). split; [by intros []; cbn; tauto|].
  split; [by intros []; cbn in *; lia|]. by subst s1.
Qed.

(** ** The ledger invariant *)
Definition charged_in (root : string) (p : part) (r : ExposureReservationRow) : Z :=
  if decide (rRootTaskID r = root) then limit_of p (rCharged r) else 0.

(** Every ledger's use is the number of facts recorded in it, the sum of what
    its queries were charged, and within its limit; every fact was first
    released by a settled query of the family, which was charged for it. *)
Record exposure_inv (s : Store O) : Prop := {
  ei_ledger root l : ledgers s !! root = Some l -> forall p,
    limit_of p (lUsed l) = count_if (in_ledger root (kind_name p)) (facts s) /\
    limit_of p (lUsed l) <= limit_of p (lLimits l) /\
    limit_of p (lUsed l) = msum (charged_in root p) (reservations s);
  ei_fact k v : facts s !! k = Some v ->
    (exists r, reservations s !! fFirstQuery v = Some r /\ rStatus r = exposureSettled /\ rRootTaskID r = k.1.1) /\
    exists f p, Hash f = Ok k.2 /\ CanonicalPayload f = Ok p /\ fPayload v = Some p;
  ei_reservation q r : reservations s !! q = Some r -> is_Some (ledgers s !! rRootTaskID r) /\
    forall p, limit_of p (rCharged r) = count_if (charged_to q (rRootTaskID r) (kind_name p)) (facts s);
}.

Lemma exposure_inv_frame s s' : ledgers s' = ledgers s -> reservations s' = reservations s -> facts s' = facts s ->
  exposure_inv s -> exposure_inv s'.
Proof. intros El Er Ef [I1 I2 I3]. split; rewrite ?El, ?Er, ?Ef; done. Qed.

(** A query that has not settled was charged for nothing. *)
Lemma unsettled_charges s q r : exposure_inv s -> reservations s !! q = Some r -> rStatus r <> exposureSettled ->
  (forall k v, facts s !! k = Some v -> fFirstQuery v <> q) /\ forall p, limit_of p (rCharged r) = 0.
Proof.
  intros I Hr Hst. assert (Hno : forall k v, facts s !! k = Some v -> fFirstQuery v <> q).
  { intros k v Hk E. destruct (ei_fact s I k v Hk) as ((r' & Hr' & Hs' & _) & _). rewrite E in Hr'. congruence. }
  split; [done|]. intros p. destruct (ei_reservation s I q r Hr) as [_ ->]. apply count_if_zero.
  intros k v Hk. unfold charged_to. cbn [snd]. rewrite (bool_decide_eq_false_2 (fFirstQuery v = q)) by eauto. apply andb_false_r.
Qed.

Lemma unknown_query_facts s q : exposure_inv s -> reservations s !! q = None ->
  forall k v, facts s !! k = Some v -> fFirstQuery v <> q.
Proof. intros I Hq k v Hk E. destruct (ei_fact s I k v Hk) as ((r & Hr & _) & _). rewrite E in Hr. congruence. Qed.

Lemma fresh_ledger_empty s root : exposure_inv s -> ledgers s !! root = None -> forall p,
  count_if (in_ledger root (kind_name p)) (facts s) = 0 /\ msum (charged_in root p) (reservations s) = 0.
Proof.
  intros I Hl p. split.
  - apply count_if_zero. intros k v Hk. apply not_true_iff_false. intros Hin%in_ledger_key.
    destruct (ei_fact s I k v Hk) as ((r & Hr & _ & Hroot) & _). destruct (ei_reservation s I _ r Hr) as [[l Hl'] _].
    rewrite Hroot, Hin in Hl'. cbn in Hl'. congruence.
  - apply msum_zero. intros q r Hr. unfold charged_in. destruct (decide _) as [E|]; [|done].
    destruct (ei_reservation s I _ r Hr) as [[l Hl'] _]. rewrite E in Hl'. congruence.
Qed.

(** Replacing a reservation row that carries no charge and keeps none. *)
Lemma exposure_inv_uncharged s q row :
  exposure_inv s -> is_Some (ledgers s !! rRootTaskID row) -> rCharged row = zero_limits ->
  (forall old, reservations s !! q = Some old -> rStatus old <> exposureSettled /\ rRootTaskID old = rRootTaskID row) ->
  exposure_inv (with_reservations s (<[q := row]> (reservations s))).
Proof.
  intros I Hl Hz Hold. assert (Hz' : forall p, limit_of p (rCharged row) = 0) by (intros p; rewrite Hz; by destruct p).
  assert (Hq : forall k v, facts s !! k = Some v -> fFirstQuery v <> q).
  { destruct (reservations s !! q) as [old|] eqn:E; [|by apply unknown_query_facts].
    destruct (Hold old eq_refl) as [Hst _]. by destruct (unsettled_charges s q old I E Hst). }
  split; cbn [ledgers facts reservations with_reservations].
  - intros root l Hroot p. destruct (ei_ledger s I root l Hroot p) as (H1 & H2 & H3). split; [done|]. split; [done|].
    rewrite H3. destruct (reservations s !! q) as [old|] eqn:E.
    + destruct (Hold old eq_refl) as [Hst Hroot']. destruct (unsettled_charges s q old I E Hst) as [_ Hc].
      rewrite (msum_update _ _ _ _ _ E). unfold charged_in. rewrite Hroot', Hz', Hc. destruct (decide _); lia.
    + rewrite msum_new by done. unfold charged_in at 2. rewrite Hz'. destruct (decide _); lia.
  - intros k v Hk. destruct (ei_fact s I k v Hk) as ((r & Hr & ?) & ?). split; [|done]. exists r.
    by rewrite lookup_insert_ne by (symmetry; eauto).
  - intros q' r'. rewrite lookup_insert_Some. intros [[<- <-]|[Hne Hr']]; [|by apply (ei_reservation s I)].
    split; [done|]. intros p. rewrite Hz'. symmetry. apply count_if_zero. intros k v Hk. unfold charged_to. cbn [snd].
    rewrite (bool_decide_eq_false_2 (fFirstQuery v = q)) by eauto. apply andb_false_r.
Qed.

Lemma exposure_inv_new_ledger s root l : exposure_inv s -> ledgers s !! root = None -> lUsed l = zero_limits ->
  (forall p, 0 <= limit_of p (lLimits l)) ->
  exposure_inv (with_ledgers s (<[root := l]> (ledgers s))).
Proof.
  intros I Hn Hz Hpos. split; cbn [ledgers facts reservations with_ledgers].
  - intros root' l'. rewrite lookup_insert_Some. intros [[<- <-]|[Hne Hl]]; [|by apply (ei_ledger s I)]. intros p.
    destruct (fresh_ledger_empty s root I Hn p) as [-> ->]. rewrite Hz. pose proof (Hpos p). by destruct p.
  - apply (ei_fact s I).
  - intros q r Hr. destruct (ei_reservation s I q r Hr) as [[l' Hl] ?]. split; [|done]. exists l'.
    rewrite lookup_insert_ne; [done|]. intros E. congruence.
Qed.

Lemma first_settlement_inv s now q r n fresh s' : exposure_inv s ->
  reservations s !! q = Some r -> rStatus r = exposureReserved -> first_settlement s now q r n fresh s' -> exposure_inv s'.
Proof.
  intros I Hr Hst (ledger & grant & s1 & l & a & Hl & _ & Ho & _ & _ & Hmax & ->).
  destruct (unsettled_charges s q r I Hr) as [Hq Hc]; [rewrite Hst; done|].
  destruct (obs_rows _ _ _ _ _ _ _ Ho) as (rows & Hs1 & Hkeep & Hdom & Hnew).
  pose proof (obs_count _ _ _ _ _ _ _ Ho) as Hcount. assert (F1 : facts s1 = rows) by (by subst s1). rewrite F1 in Hcount.
  assert (Hled : forall root p, count_if (in_ledger root (kind_name p)) rows =
    count_if (in_ledger root (kind_name p)) (facts s) + (if decide (root = rRootTaskID r) then limit_of p fresh else 0)).
  { intros root p. rewrite (Hcount _ (fun p' => bool_decide (root = rRootTaskID r /\ p' = p))).
    - destruct (decide _) as [->|Hne], p; repeat case_bool_decide; cbn; try lia; naive_solver.
    - intros p' h v _. apply bool_decide_ext. cbn. split; [intros [= ? ?%kind_name_inj]; done|intros [-> ->]; done]. }
  assert (Hchg : forall q' root p, count_if (charged_to q' root (kind_name p)) rows =
    count_if (charged_to q' root (kind_name p)) (facts s) +
      (if decide (q' = q /\ root = rRootTaskID r) then limit_of p fresh else 0)).
  { intros q' root p. rewrite (Hcount _ (fun p' => bool_decide ((q' = q /\ root = rRootTaskID r) /\ p' = p))).
    - destruct (decide _) as [Hd|Hne], p; repeat case_bool_decide; cbn; try lia; naive_solver.
    - intros p' h v Hv. unfold charged_to, in_ledger. cbn [fst snd]. rewrite Hv, <- bool_decide_and. apply bool_decide_ext.
      split; [intros [[= ? ?%kind_name_inj] ?]; done|intros [[-> ->] ->]; done]. }
  split; cbn [ledgers facts reservations with_audit with_reservations with_ledgers with_links]; rewrite ?F1.
  - intros root l'. rewrite lookup_insert_Some. intros [[<- <-]|[Hne Hl']] p; rewrite Hled.
    + destruct (ei_ledger s I _ _ Hl p) as (H1 & H2 & H3). rewrite decide_True by done.
      rewrite (msum_update _ _ _ _ _ Hr). unfold charged_in at 2 3. cbn [rRootTaskID settled_row rCharged].
      rewrite !decide_True, Hc, <- H3 by done. pose proof (Hmax p).
      assert (limit_of p (lUsed (charge_ledger ledger fresh now)) = limit_of p (lUsed ledger) + limit_of p fresh) as -> by by destruct p.
      change (lLimits (charge_ledger ledger fresh now)) with (lLimits ledger). lia.
    + destruct (ei_ledger s I _ _ Hl' p) as (H1 & H2 & H3). rewrite decide_False by done.
      rewrite (msum_update _ _ _ _ _ Hr). unfold charged_in at 2 3. cbn [rRootTaskID settled_row].
      rewrite !decide_False by done. lia.
  - intros k v Hv. destruct (facts s !! k) as [v0|] eqn:Hk.
    + rewrite (Hkeep _ _ Hk) in Hv. injection Hv as <-. destruct (ei_fact s I k v0 Hk) as ((r' & Hr' & ?) & ?).
      split; [|done]. exists r'. by rewrite lookup_insert_ne by (symmetry; eauto).
    + destruct (Hnew k v Hk Hv) as [Hfq ?]. split; [|done]. exists (settled_row r n fresh now).
      rewrite Hfq, lookup_insert_eq. split; [done|]. split; [done|]. cbn [rRootTaskID settled_row].
      assert (is_Some (rows !! k)) as Hin by eauto. apply Hdom in Hin as [[? Hin]|(p & f & h & _ & _ & ->)]; [congruence|done].
  - intros q' r'. rewrite lookup_insert_Some. intros [[<- <-]|[Hne Hr']].
    + cbn [rRootTaskID settled_row rCharged]. split; [rewrite lookup_insert_eq; eauto|]. intros p.
      rewrite Hchg, decide_True by done. destruct (ei_reservation s I q r Hr) as [_ <-]. rewrite Hc. lia.
    + destruct (ei_reservation s I q' r' Hr') as [[l' Hl'] Hc']. split.
      * destruct (decide (rRootTaskID r' = rRootTaskID r)) as [->|]; [rewrite lookup_insert_eq; eauto|].
        rewrite lookup_insert_ne by done. eauto.
      * intros p. rewrite Hchg, decide_False by naive_solver. rewrite Hc'. lia.
Qed.

(** Recording an observation charges the facts the family had not been shown,
    and records exactly the union. *)
Lemma observed_novelty s root q n now s1 fresh : observed s root q n now s1 fresh -> forall p,
  let before := ledger_hashes (facts s) root (kind_name p) in
  ledger_hashes (facts s1) root (kind_name p) = before ∪ hashes (facts_of p n) /\
  limit_of p fresh = Z.of_nat (size (hashes (facts_of p n) ∖ before)).
Proof.
  intros Ho p before. destruct (obs_rows _ _ _ _ _ _ _ Ho) as (rows & Hs1 & Hkeep & Hdom & Hnew).
  assert (F1 : facts s1 = rows) by (by subst s1).
  assert (Hun : ledger_hashes (facts s1) root (kind_name p) = before ∪ hashes (facts_of p n)).
  { apply set_eq. intros h. rewrite elem_of_union. unfold before. rewrite !elem_ledger_hashes, F1, Hdom.
    unfold hashes. rewrite elem_of_list_to_set, list_elem_of_fmap. apply or_iff_compat_l. split.
    - intros (p' & f & h' & Hf & Hh & [= ->%kind_name_inj ->]). exists f. split; [|done]. unfold hash_of. by rewrite Hh.
    - intros (f & -> & Hf). destruct (obs_hashable _ _ _ _ _ _ _ Ho p f Hf) as [h Hh]. exists p, f, h.
      split; [done|]. split; [done|]. unfold hash_of. by rewrite Hh. }
  split; [exact Hun|]. pose proof (obs_count _ _ _ _ _ _ _ Ho (in_ledger root (kind_name p)) (fun p' => bool_decide (p' = p))) as Hc.
  rewrite <- !size_ledger_hashes, Hun in Hc.
  assert (Hin : forall p' h v, fFirstQuery v = q ->
    in_ledger root (kind_name p) ((root, kind_name p', h), v) = bool_decide (p' = p)).
  { intros p' h v _. apply bool_decide_ext. cbn. split; [intros [= E]; by apply kind_name_inj|intros ->; done]. }
  specialize (Hc Hin).
  rewrite size_union_alt in Hc. fold before in Hc. destruct p; cbn [limit_of] in *; repeat case_bool_decide; try done; lia.
Qed.

(** ** When a settlement succeeds *)
Lemma Normalize_part o n p : Normalize o = Ok n -> exists v, wf v /\ facts_of p n = Values v.
Proof. intros (_ & r & i & u & Er & Ei & Eu & _ & _ & _ & ->)%Normalize_ok. destruct p; eauto using NewFactSet_wf. Qed.

Lemma encode_all_some fs : hashable fs -> exists enc, encode_all fs = Ok enc /\ map eHash enc = map hash_of fs.
Proof.
  induction fs as [|f fs IH]; intros Hh; [by exists []|].
  destruct IH as (enc & E & Em); [intros g Hg; apply Hh; by right|].
  destruct (Hh f (list_elem_of_here _ _)) as [h Hf]. pose proof Hf as (p & Hp & _)%Hash_ok.
  exists (MkEncoded h (json_fact f) p :: enc). cbn [encode_all map eHash]. split.
  - assert (encode f = Ok (MkEncoded h (json_fact f) p)) as Ef by (apply encode_ok; exists p; done). rewrite Ef.
    cbn [mbind result_bind]. rewrite E. done.
  - rewrite Em. f_equal. unfold hash_of. by rewrite Hf.
Qed.

(** No fact of a list is recorded under its hash with another payload. *)
Definition agrees (s : Store O) (root kind : string) (fs : list FactID) : Prop :=
  forall f h p row, f ∈ fs -> Hash f = Ok h -> CanonicalPayload f = Ok p ->
    facts s !! (root, kind, h) = Some row -> fPayload row = Some p.

Lemma insertNovel_some s root kind query now fs : hashable fs -> NoDup (map hash_of fs) -> agrees s root kind fs ->
  exists r, insertNovelFactsTx sameJSON s root kind query fs now = Ok r.
Proof.
  intros Hh Hnd Ha. destruct (encode_all_some fs Hh) as (enc & E & Em).
  pose proof (insert_loop_some (length fs) s root kind query now fs enc 0 (Nat.le_refl _) E) as Hs.
  unfold insertNovelFactsTx. destruct (insert_loop _ _ _ _ _ _ _ _ _) as [r|e]; [by exists r|].
  discriminate Hs; [by rewrite Em|]. intros x row Hx Hrow.
  destruct (encoded_elem fs enc x E Hx) as (f & Hf & (p & Hfh & Hp & Ex)%encode_ok).
  unfold row_matches. rewrite (Ha f (eHash x) p row Hf Hfh Hp Hrow), Ex. by apply bool_decide_eq_true_2.
Qed.

Lemma agrees_inserted s s' root kind kind' query now fs gs k : kind <> kind' ->
  inserted s root kind query now fs (s', k) -> agrees s root kind' gs -> agrees s' root kind' gs.
Proof.
  intros Hk Hi Ha f h p row Hf Hh Hp Hrow. destruct (inserted_rows _ _ _ _ _ _ _ _ Hi) as (rows & Hs' & Hkeep & Hdom & _).
  assert (Fr : facts s' = rows) by (by subst s'). rewrite Fr in Hrow.
  destruct (proj1 (Hdom (root, kind', h)) (mk_is_Some _ _ Hrow)) as [[v Hv]|(g & h' & _ & _ & [= E])]; [|done].
  rewrite (Hkeep _ _ Hv) in Hrow. injection Hrow as <-. by apply (Ha f h p v).
Qed.

Lemma insert_observation_some s root query o n now : Normalize o = Ok n ->
  (forall p, agrees s root (kind_name p) (facts_of p n)) ->
  exists s1 fresh, insert_observation sameJSON s root query n now = Ok (s1, fresh).
Proof.
  intros En Ha. assert (Hgood : forall p, hashable (facts_of p n) /\ NoDup (map hash_of (facts_of p n))).
  { intros p. destruct (Normalize_part o n p En) as (v & Hv & ->). split.
    - eapply range_hashable; [exact Hv|apply Values_perm].
    - apply nodup_of_strict, Values_by_hash, Hv. }
  unfold insert_observation.
  destruct (insertNovel_some s root "RELEASE" query now (Release n)) as [[s1 k1] E1];
    [apply (Hgood PRelease)|apply (Hgood PRelease)|apply (Ha PRelease)|].
  rewrite E1. cbn [mbind result_bind]. apply insertNovelFactsTx_ok in E1.
  destruct (insertNovel_some s1 root "INFLUENCE" query now (Influence n)) as [[s2 k2] E2];
    [apply (Hgood PInfluence)|apply (Hgood PInfluence)|by eapply (agrees_inserted s); [|exact E1|apply (Ha PInfluence)]|].
  rewrite E2. cbn [mbind result_bind]. apply insertNovelFactsTx_ok in E2.
  destruct (insertNovel_some s2 root "OUTCOME" query now (Outcome n)) as [[s3 k3] E3]; [apply (Hgood POutcome)|apply (Hgood POutcome)| |].
  - eapply (agrees_inserted s1); [|exact E2|]; [done|]. by eapply (agrees_inserted s); [|exact E1|apply (Ha POutcome)].
  - rewrite E3. cbn [mbind result_bind]. eauto.
Qed.

Lemma link_all_some l root query kind fs : hashable fs -> exists l', link_all l root query kind fs = Ok l'.
Proof.
  revert l; induction fs as [|f fs IH]; intros l Hh; [by exists l|]. cbn [link_all].
  destruct (Hh f (list_elem_of_here _ _)) as [h ->]. cbn [mbind result_bind]. apply IH. intros g Hg. apply Hh. by right.
Qed.

Lemma link_observation_some s root query o n : Normalize o = Ok n -> exists s', link_observation s root query n = Ok s'.
Proof.
  intros En. assert (Hgood : forall p, hashable (facts_of p n)).
  { intros p. destruct (Normalize_part o n p En) as (v & Hv & ->). eapply range_hashable; [exact Hv|apply Values_perm]. }
  unfold link_observation, linkObservedFactsTx.
  destruct (link_all_some (links s) root query "RELEASE" (Release n) (Hgood PRelease)) as [l1 ->]. cbn [mbind result_bind].
  cbn [links with_links].
  destruct (link_all_some l1 root query "INFLUENCE" (Influence n) (Hgood PInfluence)) as [l2 ->]. cbn [mbind result_bind].
  cbn [links with_links].
  destruct (link_all_some l2 root query "OUTCOME" (Outcome n) (Hgood POutcome)) as [l3 ->]. cbn [mbind result_bind]. eauto.
Qed.

(** ** What settlement promises *)
Lemma limit_charged_ledger ledger fresh now p :
  limit_of p (lUsed (charge_ledger ledger fresh now)) = limit_of p (lUsed ledger) + limit_of p fresh.
Proof. by destruct p. Qed.

Lemma observed_others s root q n now s1 fresh root' kind : observed s root q n now s1 fresh -> root' <> root ->
  ledger_hashes (facts s1) root' kind = ledger_hashes (facts s) root' kind.
Proof.
  intros Ho Hne. destruct (obs_rows _ _ _ _ _ _ _ Ho) as (rows & -> & _ & Hdom & _). cbn [facts with_facts].
  apply set_eq. intros h. rewrite !elem_ledger_hashes, Hdom. split; [|by left].
  intros [?|(p & f & h' & _ & _ & [= E])]; done.
Qed.

(** C5: A settlement charges a query exactly for what its family had not been
    shown: of every kind of fact, the charge is the number of facts of the
    observation not yet in the family's ledger, the ledger grows to the union
    and no other family's ledger changes; the use never passes the ledger's
    ceiling, nor, when something is charged, the task's own. *)
Theorem settlement_exact s now q r o n s' c :
  reservations s !! q = Some r -> rStatus r = exposureReserved -> Normalize o = Ok n ->
  settleExposureMeasuredTx sameJSON s now q (Some o) = Ok (s', c) ->
  exists charge ledger ledger' grant, c = Some charge /\ ledgers s !! rRootTaskID r = Some ledger /\
    ledgers s' !! rRootTaskID r = Some ledger' /\ grants s !! rTaskID r = Some grant /\
    (forall p, let before := ledger_hashes (facts s) (rRootTaskID r) (kind_name p) in
      let shown := hashes (facts_of p n) in
      ledger_hashes (facts s') (rRootTaskID r) (kind_name p) = before ∪ shown /\
      limit_of p (cCharged charge) = Z.of_nat (size (shown ∖ before)) /\
      limit_of p (lUsed ledger') = limit_of p (lUsed ledger) + limit_of p (cCharged charge) /\
      limit_of p (lUsed ledger') <= limit_of p (lLimits ledger') /\ lLimits ledger' = lLimits ledger /\
      (0 < limit_of p (cCharged charge) -> limit_of p (lUsed ledger') <= limit_of p (gExposureLimits grant))) /\
    (forall root kind, root <> rRootTaskID r -> ledgers s' !! root = ledgers s !! root /\
      ledger_hashes (facts s') root kind = ledger_hashes (facts s) root kind).
Proof.
  intros Hr Hst En E. apply settleExposure_ok in E as [(? & ? & _)|(r' & o' & n' & Hr' & [= <-] & En' & _ & _ & Hcase)]; [done|].
  rewrite Hr in Hr'. injection Hr' as <-. rewrite En in En'. apply Ok_inj in En' as <-.
  destruct Hcase as [(Hs & _)|(_ & fresh & (ledger & grant & s1 & l & a & Hl & Hg & Ho & _ & Hex & Hmax & ->) & ->)];
    [by rewrite Hst in Hs|].
  exists (settled_charge q (settled_row r n fresh now) (observation_digest n)), ledger, (charge_ledger ledger fresh now), grant.
  cbn [facts ledgers with_audit with_reservations with_ledgers with_links]. rewrite lookup_insert_eq.
  do 4 (split; [done|]). split.
  - intros p. destruct (observed_novelty _ _ _ _ _ _ _ Ho p) as [Hun Hnew]. cbv zeta. cbn [cCharged settled_charge settled_row rCharged].
    split; [done|]. split; [done|]. rewrite limit_charged_ledger. split; [done|]. split; [apply Hmax|]. split; [done|].
    intros Hpos. pose proof (Hex p) as Hp. unfold exceeds in Hp. apply andb_false_iff in Hp as [?%Z.ltb_ge|?%Z.ltb_ge]; lia.
  - intros root kind Hne. rewrite lookup_insert_ne by done. split; [done|]. by eapply observed_others.
Qed.

(** Settlement succeeds whenever it should: a reserved query whose evidence
    normalises to the reserved profile with the right number of outcomes, whose
    new facts fit the ledger and, when there are some, the task's own limit, and
    none of whose facts is recorded under its hash with another payload, is
    settled. *)
Theorem settlement_succeeds s now q r o n ledger grant :
  reservations s !! q = Some r -> rStatus r = exposureReserved -> Normalize o = Ok n ->
  ProfileVersion n = rProfileVersion r -> invalid_outcome_count (rProfileVersion r) n = false ->
  ledgers s !! rRootTaskID r = Some ledger -> grants s !! rTaskID r = Some grant ->
  (forall p, agrees s (rRootTaskID r) (kind_name p) (facts_of p n)) ->
  (forall p, let fresh := Z.of_nat (size (hashes (facts_of p n) ∖ ledger_hashes (facts s) (rRootTaskID r) (kind_name p))) in
    limit_of p (lUsed ledger) + fresh <= limit_of p (lLimits ledger) /\
    (0 < fresh -> limit_of p (lUsed ledger) + fresh <= limit_of p (gExposureLimits grant))) ->
  exists s' c, settleExposureMeasuredTx sameJSON s now q (Some o) = Ok (s', Some c) /\
    option_map rStatus (reservations s' !! q) = Some exposureSettled.
Proof.
  intros Hr Hst En Hp Hout Hl Hg Ha Hfit. unfold settleExposureMeasuredTx. rewrite Hr, En. cbn [mbind result_bind].
  rewrite (proj2 (same_true _ _) Hp), Hout. cbn [negb fail_if mbind result_bind]. rewrite Hst.
  change (same exposureReserved exposureSettled) with false. change (same exposureReserved exposureReserved) with true.
  cbn [negb fail_if mbind result_bind]. cbv zeta. rewrite Hl. cbn [select mbind result_bind].
  destruct (insert_observation_some s (rRootTaskID r) q o n now En Ha) as (s1 & fresh & E1). rewrite E1. cbn [mbind result_bind].
  apply insert_observation_ok in E1. destruct (obs_rows _ _ _ _ _ _ _ E1) as (rows & Hs1 & _).
  destruct (link_observation_some s1 (rRootTaskID r) q o n En) as [s2 E2]. rewrite E2. cbn [mbind result_bind].
  apply link_observation_ok in E2 as (l & Hs2 & _). subst s2 s1. cbn [grants with_links with_facts]. rewrite Hg.
  cbn [select mbind result_bind].
  assert (Hfresh : forall p, limit_of p (lUsed ledger) + limit_of p fresh <= limit_of p (lLimits ledger) /\
    exceeds (limit_of p fresh) (limit_of p (lUsed ledger)) (limit_of p (gExposureLimits grant)) = false).
  { intros p. destruct (observed_novelty _ _ _ _ _ _ _ E1 p) as [_ Hnew]. destruct (Hfit p) as [F1 F2]. rewrite <- Hnew in F1, F2.
    split; [done|]. unfold exceeds. destruct (0 <? limit_of p fresh) eqn:Ez; [|done]. apply Z.ltb_lt in Ez.
    cbn [andb]. apply Z.ltb_ge. by apply F2. }
  pose proof (Hfresh PRelease) as [R1 R2]. pose proof (Hfresh PInfluence) as [I1 I2]. pose proof (Hfresh POutcome) as [O1 O2].
  cbn [limit_of] in *. rewrite R2, I2, O2. cbn [orb fail_if mbind result_bind].
  cbn [charge_ledger lUsed lLimits ReleaseFacts InfluenceFacts OutcomeFacts].
  rewrite !(proj2 (Z.ltb_ge _ _)) by done. cbn [orb fail_if mbind result_bind].
  unfold appendAuditTx. change (blank "system" || blank "QUERY_EXPOSURE_SETTLED") with false. cbn [fail_if mbind result_bind].
  eexists _, _. split; [reflexivity|]. cbn [reservations with_audit with_reservations]. by rewrite lookup_insert_eq.
Qed.

(** Settlement happens once: repeating it with the evidence that settled the
    query returns the recorded charge and changes nothing, and other evidence is
    never charged. *)
Theorem settlement_once s now q obs s' c now' :
  settleExposureMeasuredTx sameJSON s now q obs = Ok (s', c) ->
  settleExposureMeasuredTx sameJSON s' now' q obs = Ok (s', c) /\
  forall obs' s'' c', settleExposureMeasuredTx sameJSON s' now' q obs' = Ok (s'', c') ->
    s'' = s' /\ (forall x, c = Some x -> exists y, c' = Some y /\ cCharged y = cCharged x /\ cObservationSHA256 y = cObservationSHA256 x).
Proof.
  intros E. apply settleExposure_ok in E as [(Hr & -> & -> & ->)|(r & o & n & Hr & -> & En & Hp & Hout & Hcase)].
  { split; [unfold settleExposureMeasuredTx; by rewrite Hr|]. intros obs' s'' c' E'.
    apply settleExposure_ok in E' as [(_ & _ & -> & _)|(r & o & n & Hr' & _)]; [done|by rewrite Hr in Hr']. }
  assert (Hsettled : exists r', reservations s' !! q = Some r' /\ rStatus r' = exposureSettled /\
    rProfileVersion r' = rProfileVersion r /\ rObservationSHA256 r' = observation_digest n /\
    c = Some (settled_charge q r' (observation_digest n))).
  { destruct Hcase as [(Hst & Hd & -> & ->)|(Hst & fresh & Hf & ->)]; [by exists r|].
    exists (settled_row r n fresh now). destruct Hf as (ledger & grant & s1 & l & a & _ & _ & _ & _ & _ & _ & ->).
    cbn [reservations with_audit with_reservations]. by rewrite lookup_insert_eq. }
  clear Hcase. destruct Hsettled as (r' & Hr' & Hst & Hp' & Hd & ->). split.
  - unfold settleExposureMeasuredTx. rewrite Hr', En. cbn [mbind result_bind]. rewrite Hp', (proj2 (same_true _ _) Hp), Hout.
    cbn [negb fail_if mbind result_bind]. rewrite Hst, Hd. change (same exposureSettled exposureSettled) with true.
    cbv zeta. rewrite (proj2 (same_true (observation_digest n) _)) by done. done.
  - intros obs' s'' c' E'. apply settleExposure_ok in E' as [(Hn & _)|(r2 & o2 & n2 & Hr2 & _ & _ & _ & _ & Hcase)]; [by rewrite Hr' in Hn|].
    rewrite Hr' in Hr2. injection Hr2 as <-.
    destruct Hcase as [(_ & Hd2 & -> & ->)|(Hres & _)]; [|by rewrite Hst in Hres].
    split; [done|]. intros x [= <-]. eexists. split; [done|]. split; [done|].
    cbn [cObservationSHA256 settled_charge]. congruence.
Qed.

(** ** Every operation preserves the invariant *)
Lemma frame_keeps_inv s s' : ledger_frame s s' -> exposure_inv s -> exposure_inv s'.
Proof. intros (_ & _ & El & Er & Ef & _). by apply exposure_inv_frame. Qed.

Lemma audit_keeps_inv s s' task query actor kind at_ :
  appendAuditTx s task query actor kind at_ = Ok s' -> exposure_inv s -> exposure_inv s'.
Proof. intros [Hf _]%appendAudit_frame. by apply frame_keeps_inv. Qed.

Lemma validated_limits grant p : validateExposureGrant grant = Ok tt -> 0 <= limit_of p (eLimits grant).
Proof.
  intros [G _]%fail_if_bind_ok. rewrite !orb_false_iff, !Z.ltb_ge in G. destruct p; cbn; lia.
Qed.

Context `{!OrdinalLaws O Observed Referenced}.

Definition same_ordinals (s s' : Store O) : Prop := forall v q, ord_has v (ordinal s') q = ord_has v (ordinal s) q.
Definition same_statuses (s s' : Store O) : Prop := forall v q, ord_status v (ordinal s') q = ord_status v (ordinal s) q.

Lemma same_statuses_ordinals s s' : same_statuses s s' -> same_ordinals s s'.
Proof. intros E v q. by rewrite !ord_has_status, E. Qed.

(** Moving the status of one reservation that is there keeps the reservations. *)
Lemma moved_status s s' v q status : ord_has v (ordinal s) q = true ->
  (forall v' q', ord_status v' (ordinal s') q' = if decide (v' = v /\ q' = q) then Some status else ord_status v' (ordinal s) q') ->
  same_ordinals s s'.
Proof.
  intros Hh E v' q'. rewrite !ord_has_status, E. destruct (decide _) as [[-> ->]|]; [|done]. rewrite ord_has_status in Hh. by rewrite Hh.
Qed.

Definition plain_query (s : Store O) (q : string) : Prop := forall v, ord_has v (ordinal s) q = false.

(** What an exposure operation does for query [q], whatever its profile. *)
Record exposure_step (s : Store O) (q : string) (s' : Store O) : Prop := {
  es_frame : resource_frame s s';
  es_inv : exposure_inv s -> exposure_inv s';
  es_others q' : q' <> q -> reservations s' !! q' = reservations s !! q' /\
    forall v, ord_status v (ordinal s') q' = ord_status v (ordinal s) q';
}.

Lemma exposure_step_refl s q : exposure_step s q s.
Proof. by split. Qed.

Lemma ordinal_step s q s' : ledger_frame s s' -> resource_frame s s' ->
  (forall v q', q' <> q -> ord_status v (ordinal s') q' = ord_status v (ordinal s) q') -> exposure_step s q s'.
Proof.
  intros L R Hh. split; [done|by apply frame_keeps_inv|]. intros q' Hne. split; [|intros v; by apply Hh].
  destruct L as (_ & _ & _ & -> & _). done.
Qed.

Lemma ensureExposureLedgerTx_ok s task grant now s' : ensureExposureLedgerTx s task grant now = Ok s' ->
  resource_frame s s' /\ (exposure_inv s -> exposure_inv s') /\ reservations s' = reservations s /\ same_statuses s s'.
Proof.
  assert (Ho : forall v, ord_ensure v s task grant now = Ok s' ->
    resource_frame s s' /\ (exposure_inv s -> exposure_inv s') /\ reservations s' = reservations s /\ same_statuses s s').
  { intros v E. pose proof (ord_ensure_frame _ _ _ _ _ _ E) as [L R]. split; [done|]. split; [by apply frame_keeps_inv|].
    split; [apply L|]. intros v' q. by eapply ord_ensure_status. }
  unfold ensureExposureLedgerTx. intros E. apply seq_ok in E as [Hv E].
  destruct (same (eProfileVersion grant) ProfileV4); [by apply Ho in E|].
  destruct (same (eProfileVersion grant) ProfileV5); [by apply Ho in E|]. clear Ho.
  apply bind_ok in E as (t & _ & E). destruct (Enabled grant), (ledgers s !! tRootTaskID t) as [l|] eqn:El; try done.
  - apply fail_if_bind_ok in E as [_ E]. by apply Ok_inj in E as <-.
  - apply fail_if_bind_ok in E as [_ E]. apply Ok_inj in E as <-. split; [done|]. split; [|done].
    intros I. apply exposure_inv_new_ledger; [done..|]. intros p. by apply validated_limits.
  - by apply Ok_inj in E as <-.
Qed.

(** A reservation is new; it is either in the legacy table or in an ordinal one. *)
Lemma reserveExposureTx_ok s query task request now s' : reserveExposureTx s query task request now = Ok s' ->
  exposure_step s query s' /\
  (forall v, ord_status v (ordinal s') query = ord_status v (ordinal s) query \/ ord_status v (ordinal s') query = Some exposureReserved) /\
  ((reservations s' = reservations s) \/
   (same_statuses s s' /\ reservations s !! query = None /\
    exists x, reservations s' !! query = Some x /\ rStatus x = exposureReserved /\ rTaskID x = task)).
Proof.
  assert (Ho : forall v est p, ord_reserve v s query task est p now = Ok s' -> exposure_step s query s' /\
    (forall v', ord_status v' (ordinal s') query = ord_status v' (ordinal s) query \/ ord_status v' (ordinal s') query = Some exposureReserved) /\
    reservations s' = reservations s).
  { intros v est p E. pose proof (ord_reserve_frame _ _ _ _ _ _ _ _ E) as [L R].
    pose proof (fun v' q' => ord_reserve_status _ _ _ _ _ _ _ _ v' q' E) as Hs. split; [|split; [|apply L]].
    - apply ordinal_step; [done..|]. intros v' q' Hne. rewrite Hs, decide_False; [done|]. by intros [_ ?].
    - intros v'. rewrite Hs. destruct (decide _); auto. }
  unfold reserveExposureTx. intros E. apply bind_ok in E as (g & _ & E).
  destruct (same _ ProfileV4); [|destruct (same _ ProfileV5)].
  1,2: apply Ho in E as (? & ? & ?); auto.
  apply bind_ok in E as (t & _ & E). destruct (ledgers s !! tRootTaskID t) as [l|] eqn:El, request as [x|]; try done.
  2:{ apply Ok_inj in E as <-. split; [apply exposure_step_refl|]. auto. }
  apply fail_if_bind_ok in E as [_ E]. apply fail_if_bind_ok in E as [Hd E]. apply Ok_inj in E as <-.
  apply bool_decide_eq_false in Hd. split; [split|split; [by left|]].
  - done.
  - intros I. apply exposure_inv_uncharged; [done| |done|]; cbn [rRootTaskID]; [eauto|].
    intros old Hold. destruct Hd. eauto.
  - intros q' Hne. cbn [reservations with_reservations ordinal]. by rewrite lookup_insert_ne.
  - right. split; [done|]. split; [by apply eq_None_not_Some|]. cbn [reservations with_reservations].
    rewrite lookup_insert_eq. eauto.
Qed.

(** The legacy reservation of a query afterwards: as it was, with a final
    status, or moved from RESERVED to one. *)
Definition closed_as (status : string) (s : Store O) (q : string) (s' : Store O) : Prop :=
  reservations s !! q = None /\ reservations s' !! q = None \/
  exists x x', reservations s !! q = Some x /\ reservations s' !! q = Some x' /\ rStatus x' = status /\ rTaskID x' = rTaskID x /\
    (x' = x \/ rStatus x = exposureReserved).

Lemma releaseExposureReservationTx_ok s now query s' : releaseExposureReservationTx s now query = Ok s' ->
  exposure_step s query s' /\ same_ordinals s s' /\ closed_as exposureReleased s query s'.
Proof.
  unfold releaseExposureReservationTx. intros E. destruct (reservations s !! query) as [r|] eqn:Er.
  2:{ apply Ok_inj in E as <-. split; [apply exposure_step_refl|]. split; [done|]. by left. }
  destruct (same (rStatus r) exposureReleased) eqn:Es.
  { apply Ok_inj in E as <-. split; [apply exposure_step_refl|]. split; [done|]. right. exists r, r.
    apply same_true in Es. auto 10. }
  apply fail_if_bind_ok in E as [Hst%negb_false_iff%same_true E]. pose proof E as (Hf & _ & Ho)%appendAudit_frame.
  destruct Hf as (_ & _ & _ & Hres & _). cbn [reservations with_reservations ordinal] in Hres, Ho.
  split; [split|split].
  - apply appendAudit_resource in E. exact E.
  - intros I. eapply audit_keeps_inv; [exact E|].
    destruct (unsettled_charges s query r I Er) as [_ Hc]; [by rewrite Hst|].
    apply exposure_inv_uncharged; [done|apply (ei_reservation s I query r Er)| |]; cbn [rRootTaskID rCharged].
    + apply limits_ext. intros p. rewrite Hc. by destruct p.
    + intros old Hold. rewrite Er in Hold. injection Hold as <-. by rewrite Hst.
  - intros q' Hne. rewrite Hres, Ho. by rewrite lookup_insert_ne.
  - intros v q. by rewrite Ho.
  - right. eexists r, _. rewrite Hres, lookup_insert_eq. split; [done|]. split; [done|]. auto.
Qed.

Lemma settleExposureMeasuredTx_ok s now q obs s' c : settleExposureMeasuredTx sameJSON s now q obs = Ok (s', c) ->
  exposure_step s q s' /\ same_ordinals s s' /\ closed_as exposureSettled s q s'.
Proof.
  intros [(Hn & _ & -> & _)|(r & o & n & Hr & _ & _ & _ & _ & [(Hst & _ & -> & _)|(Hst & fresh & Hf & _)])]%settleExposure_ok.
  - split; [apply exposure_step_refl|]. split; [done|]. by left.
  - split; [apply exposure_step_refl|]. split; [done|]. right. exists r, r. auto 10.
  - assert (Hinv : exposure_inv s -> exposure_inv s') by (intros I; by eapply first_settlement_inv).
    destruct Hf as (ledger & grant & s1 & l & a & _ & _ & Ho & _ & _ & _ & ->).
    destruct (obs_rows _ _ _ _ _ _ _ Ho) as (rows & -> & _). split; [split|split].
    + do 10 (split; [done|]). by apply prefix_app_r.
    + done.
    + intros q' Hne. cbn [reservations with_audit with_reservations ordinal]. by rewrite lookup_insert_ne.
    + done.
    + right. eexists r, _. cbn [reservations with_audit with_reservations]. rewrite lookup_insert_eq. auto 10.
Qed.

(** The dispatching operations: a query without a V4 or V5 reservation closes its legacy one. *)
Lemma settleAnyExposureMeasuredTx_ok s now q ev s' c : settleAnyExposureMeasuredTx sameJSON s now q ev = Ok (s', c) ->
  exposure_step s q s' /\ same_ordinals s s' /\
  (reservations s' = reservations s /\ ~ plain_query s q \/ closed_as exposureSettled s q s').
Proof.
  assert (Ho : forall v x, ord_has v (ordinal s) q = true -> ord_settle v s now q x = Ok (s', c) ->
    exposure_step s q s' /\ same_ordinals s s' /\
    (reservations s' = reservations s /\ ~ plain_query s q \/ closed_as exposureSettled s q s')).
  { intros v x Hv E. pose proof (ord_settle_frame _ _ _ _ _ _ _ E) as [L R].
    pose proof (fun v' q' => ord_settle_status _ _ _ _ _ _ _ v' q' E) as Hs. split; [|split; [by eapply moved_status|]].
    { apply ordinal_step; [done..|]. intros v' q' Hne. rewrite Hs, decide_False; [done|]. by intros [_ ?]. }
    left. split; [apply L|]. intros Hp. by rewrite Hp in Hv. }
  unfold settleAnyExposureMeasuredTx. destruct (ord_has V5 (ordinal s) q) eqn:E5; [|destruct (ord_has V4 (ordinal s) q) eqn:E4].
  1,2: destruct (evOrdinal ev), (evReference ev), (evExposure ev); try done; by apply Ho.
  destruct (evOrdinal ev), (evReference ev); try done. intros (? & ? & ?)%settleExposureMeasuredTx_ok. auto.
Qed.

Lemma releaseAnyExposureReservationTx_ok s now q s' : releaseAnyExposureReservationTx s now q = Ok s' ->
  exposure_step s q s' /\ same_ordinals s s' /\
  (reservations s' = reservations s /\ ~ plain_query s q \/ closed_as exposureReleased s q s').
Proof.
  assert (Ho : forall v, ord_has v (ordinal s) q = true -> ord_release v s now q = Ok s' ->
    exposure_step s q s' /\ same_ordinals s s' /\
    (reservations s' = reservations s /\ ~ plain_query s q \/ closed_as exposureReleased s q s')).
  { intros v Hv E. pose proof (ord_release_frame _ _ _ _ _ E) as [L R].
    pose proof (fun v' q' => ord_release_status _ _ _ _ _ v' q' E) as Hs. split; [|split; [by eapply moved_status|]].
    { apply ordinal_step; [done..|]. intros v' q' Hne. rewrite Hs, decide_False; [done|]. by intros [_ ?]. }
    left. split; [apply L|]. intros Hp. by rewrite Hp in Hv. }
  unfold releaseAnyExposureReservationTx. destruct (ord_has V5 (ordinal s) q) eqn:E5; [by apply Ho|].
  destruct (ord_has V4 (ordinal s) q) eqn:E4; [by apply Ho|]. intros (? & ? & ?)%releaseExposureReservationTx_ok. auto.
Qed.

(** An open reservation can always be released, whatever its profile. *)
Lemma releaseAny_succeeds s now q :
  (forall x, reservations s !! q = Some x -> rStatus x = exposureReserved \/ rStatus x = exposureReleased) ->
  (forall v status, ord_status v (ordinal s) q = Some status -> status = exposureReserved) ->
  exists s', releaseAnyExposureReservationTx s now q = Ok s'.
Proof.
  intros Hx Ho. assert (Hord : forall v, ord_has v (ordinal s) q = true -> exists s', ord_release v s now q = Ok s').
  { intros v. rewrite ord_has_status. intros [status E]%bool_decide_eq_true. apply ord_release_open. by rewrite E, (Ho v status E). }
  unfold releaseAnyExposureReservationTx. destruct (ord_has V5 (ordinal s) q) eqn:E5; [by apply Hord|].
  destruct (ord_has V4 (ordinal s) q) eqn:E4; [by apply Hord|]. unfold releaseExposureReservationTx.
  destruct (reservations s !! q) as [x|]; [|eauto]. destruct (same (rStatus x) exposureReleased) eqn:Es; [eauto|].
  destruct (Hx x eq_refl) as [->|E]; [|by rewrite (proj2 (same_true _ _) E) in Es].
  change (same exposureReserved exposureReserved) with true. cbn [negb fail_if mbind result_bind]. cbv zeta.
  unfold appendAuditTx. change (blank "system" || blank "QUERY_EXPOSURE_RELEASED") with false. cbn [fail_if mbind result_bind]. eauto.
Qed.
End theory.

(** ** A family that uses neither V4 nor V5 *)
#[export] Instance no_ordinals : OrdinalExposure unit Empty_set Empty_set := {|
  ord_ensure _ s _ _ _ := Err (ErrNew "ordinal root head requires %s");
  ord_reserve _ s _ _ _ _ _ := Err (ErrNew "sql: no rows in result set");
  ord_has _ _ _ := false;
  ord_status _ _ _ := None;
  ord_settle _ s _ _ _ := Err (ErrNew "sql: no rows in result set");
  ord_release _ s _ _ := Err (ErrNew "sql: no rows in result set") |}.
#[export] Instance no_ordinals_laws : OrdinalLaws unit Empty_set Empty_set.
Proof. split; done. Qed.

Definition empty_store : Store unit := MkStore _ ∅ ∅ ∅ ∅ ∅ ∅ ∅ ∅ ∅ ∅ ∅ ∅ ∅ ∅ [] tt.

(** Query [q1] of task [t] may show three more facts of a kind. *)
Definition sales_task := MkTask "t" "p" "sales" TaskActive "" "v1" "low" "" "" 1 1 None "t" "".
Definition sales_grant := MkGrantRow "ann" "sales" [] ∅ "{}" "low" (MkLimits 5 100 1000) 1 "v1" zeros "db" zeros "r" 1 "" ProfileV2
  (MkExposure 3 3 0) None.
Definition sales_ledger := MkLedger "t" ProfileV2 (MkExposure 3 3 0) zero_limits 1.
Definition reserved_row := MkReservation "t" "t" ProfileV2 exposureReserved (MkExposure 2 2 0) zero_limits zero_limits "" None.
Definition sales_store : Store unit :=
  with_reservations (with_ledgers (with_grants (with_tasks empty_store {[ "t" := sales_task ]})
    {[ "t" := sales_grant ]}) {[ "t" := sales_ledger ]}) {[ "q1" := reserved_row ]}.

Definition settle_sales := settleExposureMeasuredTx (H := text_literals) (O := unit) (fun _ _ => false) sales_store 7 "q1".

Lemma settlement_exact_witness : exists s' c, settle_sales (Some obs_v2) = Ok (s', Some c) /\ cCharged c = MkExposure 2 1 0.
Proof.
  assert (Hok : is_ok (settle_sales (Some obs_v2)) = true) by (vm_compute; reflexivity).
  destruct (settle_sales (Some obs_v2)) as [[s' c]|e] eqn:E; [|discriminate Hok].
  destruct (Normalize (H := text_literals) obs_v2) as [n|e] eqn:En; [|vm_compute in En; discriminate En].
  destruct (settlement_exact (H := text_literals) (fun _ _ => false) sales_store 7 "q1" reserved_row obs_v2 n s' c
    eq_refl eq_refl En E) as (charge & ledger & ledger' & grant & -> & _ & _ & _ & Hall & _).
  exists s', charge. split; [reflexivity|]. apply limits_ext. intros p. etransitivity; [exact (proj1 (proj2 (Hall p)))|].
  clear Hall E Hok. vm_compute in En. injection En as <-. destruct p; vm_compute; reflexivity.
Defined.

Lemma settlement_once_witness :
  is_ok (settle_sales (Some obs_v2)) = true /\
  forall s' c, settle_sales (Some obs_v2) = Ok (s', c) ->
    settleExposureMeasuredTx (H := text_literals) (O := unit) (fun _ _ => false) s' 9 "q1" (Some obs_v2) = Ok (s', c).
Proof.
  split; [vm_compute; reflexivity|]. intros s' c E.
  exact (proj1 (settlement_once (H := text_literals) (fun _ _ => false) _ _ _ _ _ _ 9 E)).
Defined.

Lemma settlement_succeeds_witness : exists s' c, settle_sales (Some obs_v2) = Ok (s', Some c).
Proof.
  destruct (Normalize (H := text_literals) obs_v2) as [n|e] eqn:En; [|vm_compute in En; discriminate En].
  destruct (settlement_succeeds (H := text_literals) (fun _ _ => false) sales_store 7 "q1" reserved_row obs_v2 n sales_ledger
    sales_grant eq_refl eq_refl En) as (s' & c & E & _).
  - clear -En. vm_compute in En. by injection En as <-.
  - clear -En. vm_compute in En. by injection En as <-.
  - reflexivity.
  - reflexivity.
  - intros p f h x row _ _ _ Hrow. vm_compute in Hrow. discriminate Hrow.
  - intros p. clear -En. vm_compute in En. injection En as <-. destruct p; vm_compute; split; intros; discriminate.
  - eauto.
Defined.
End ExposureLedger.
