(* ===== verification/ViewBinding.v ===== *)
(** * View bindings

    [src/internal/viewbinding/binding.go]: the set of product contracts a task
    was approved with, its canonical form and its digest.  Products are sorted;
    [sort.Slice] does not say how it orders equal products, which are refused
    anyway, so ties are broken by the other fields. *)

From S2P Require Import Prelude GoBytes Ordering GoText Sha256.
Import GoText.

Module ViewBinding.

Definition Version := "taskgate-task-view-binding-v1".
Definition digestDomain : bytes := to_bytes "TASKGATE-TASK-VIEW-BINDING-V1" ++ [byte_of 0].

Record ProductContract := MkContract {
  Product : string; CanonicalPlanDigest : string; DependencyDigest : string; InterfaceDigest : string }.
Record BindingSet := MkSet { SetVersion : string; Products : list ProductContract }.

#[export] Instance ProductContract_eq_dec : EqDecision ProductContract.
Proof. solve_decision. Defined.

Definition contract_key (c : ProductContract) := (Product c, (CanonicalPlanDigest c, (DependencyDigest c, InterfaceDigest c))).
#[export] Instance contract_compare : Compare ProductContract := compare_on contract_key.
#[export] Instance contract_compare_laws : CompareLaws ProductContract.
Proof. apply compare_on_laws. intros [] [] [= -> -> -> ->]. done. Qed.

Definition validDigest : string -> bool := valid_sha256_text.

Definition invalid_contract (c : ProductContract) : bool :=
  blank (Product c) || negb (validDigest (CanonicalPlanDigest c)) ||
  negb (validDigest (DependencyDigest c)) || negb (validDigest (InterfaceDigest c)).

(** The loop over the sorted products; [previous] is the product before. *)
Fixpoint check_contracts (previous : option string) (contracts : list ProductContract) : result unit :=
  match contracts with
  | [] => Ok tt
  | contract :: rest =>
      fail_if (invalid_contract contract) (ErrNew "View binding contains an invalid product contract") ≫= fun _ =>
      fail_if (bool_decide (previous = Some (Product contract))) (ErrNew "View binding contains a duplicate product") ≫= fun _ =>
      check_contracts (Some (Product contract)) rest
  end.

Definition New (contracts : list ProductContract) : result BindingSet :=
  fail_if (length contracts =? 0)%nat (ErrNew "View binding requires at least one product") ≫= fun _ =>
  let sorted := go_sort contracts in
  check_contracts None sorted ≫= fun _ => Ok (MkSet Version sorted).

Definition json_contract (c : ProductContract) : bytes :=
  json_object [ ("product", Some (json_string (Product c)));
                ("canonical_plan_digest", Some (json_string (CanonicalPlanDigest c)));
                ("dependency_digest", Some (json_string (DependencyDigest c)));
                ("interface_digest", Some (json_string (InterfaceDigest c))) ].
Definition json_set (set : BindingSet) : bytes :=
  json_object [ ("version", Some (json_string (SetVersion set)));
                ("products", Some (json_array (map json_contract (Products set)))) ].

(** The byte string [Digest] hashes. *)
Definition material (set : BindingSet) : bytes := digestDomain ++ json_set set.

Definition Digest (set : BindingSet) : result string :=
  canonical ← New (Products set);
  fail_if (negb (bool_decide (SetVersion set = Version))) (ErrNew "unsupported View binding version") ≫= fun _ =>
  Ok (Sha256.hex_sum (material canonical)).

(** ** The canonical form *)
Lemma check_contracts_ok previous l : StronglySorted cle l -> (forall c p, c ∈ l -> previous = Some p -> str_leb p (Product c) = true) ->
  check_contracts previous l = Ok tt <->
  Forall (fun c => invalid_contract c = false) l /\ NoDup (map Product l) /\ (forall p, previous = Some p -> p ∉ map Product l).
Proof.
  intros Hs; revert previous; induction Hs as [|c l Hs IH Hc]; intros previous Hp; cbn [check_contracts map].
  { split; [|done]. intros _. split; [done|]. split; [constructor|]. intros p _. apply not_elem_of_nil. }
  assert (Hle : forall d, d ∈ l -> str_leb (Product c) (Product d) = true).
  { intros d Hd. rewrite Forall_forall in Hc. specialize (Hc d Hd).
    unfold str_leb, str_ltb, bytes_ltb. apply negb_true_iff. unfold cle, compare, contract_compare, compare_on in Hc.
    unfold compare, prod_compare, contract_key in Hc. cbn [fst snd] in Hc.
    assert (Ha : compare (Product d) (Product c) = CompOpp (compare (Product c) (Product d))) by apply compare_antisym.
    change (bytes_compare (to_bytes (Product d)) (to_bytes (Product c))) with (compare (Product d) (Product c)).
    rewrite Ha. by destruct (compare (Product c) (Product d)). }
  rewrite !seq_ok, !fail_if_ok, bool_decide_eq_false, IH by (intros d p Hd [= <-]; auto).
  rewrite Forall_cons, NoDup_cons. split.
  - intros (Hi & Hne & Hall & Hnd & Hnew). split; [done|]. split; [split; [by apply Hnew|done]|].
    intros p Hpp Hin. apply elem_of_cons in Hin as [->|Hin]; [done|].
    apply list_elem_of_fmap in Hin as (d & -> & Hd). apply (Hnew (Product c) eq_refl).
    assert (Hdc : Product d = Product c); [|rewrite <- Hdc; by apply (list_elem_of_fmap_2 Product)].
    apply str_leb_antisym; [apply (Hp c (Product d)); [by left|done]|by apply Hle].
  - intros ((Hi & Hall) & (Hni & Hnd) & Hnew). split; [done|]. split.
    + intros E. apply (Hnew (Product c) E). by left.
    + split; [done|]. split; [done|]. by intros p [= <-].
Qed.

Lemma sorted_contracts cs :
  (Forall (fun c => invalid_contract c = false) (go_sort cs) <-> Forall (fun c => invalid_contract c = false) cs) /\
  (NoDup (map Product (go_sort cs)) <-> NoDup (map Product cs)).
Proof.
  pose proof (go_sort_perm cs) as Hp. split; [by rewrite Hp|].
  assert (map Product (go_sort cs) ≡ₚ map Product cs) as E by by apply fmap_Permutation. by rewrite E.
Qed.

(** What [New] accepts: well-formed contracts of distinct products. *)
Lemma New_ok cs s : New cs = Ok s <->
  cs <> [] /\ Forall (fun c => invalid_contract c = false) cs /\ NoDup (map Product cs) /\ s = MkSet Version (go_sort cs).
Proof.
  unfold New. rewrite fail_if_bind_ok, seq_ok, check_contracts_ok by (apply go_sort_sorted || done).
  destruct (sorted_contracts cs) as [-> ->]. rewrite Nat.eqb_neq. split.
  - intros (Hl & (Hall & Hnd & _) & E%Ok_inj). split; [by intros ->|]. done.
  - intros (Hne & Hall & Hnd & ->). split; [by destruct cs|]. done.
Qed.

Lemma New_sorted cs s : New cs = Ok s -> New (Products s) = Ok s.
Proof.
  rewrite !New_ok. intros (Hne & Hall & Hnd & ->). cbn [Products].
  destruct (sorted_contracts cs) as [-> ->]. split; [|split; [done|]; split; [done|]; f_equal; symmetry; apply go_sort_id, go_sort_sorted].
  intros E. apply Hne. apply Permutation_nil. by rewrite <- E, go_sort_perm.
Qed.

(** ** Injectivity of the encoding *)
Lemma digest_plain d : validDigest d = true -> plain d.
Proof. apply sha256_text_plain. Qed.

Lemma contract_inj c d x y : plain (Product c) -> plain (Product d) ->
  invalid_contract c = false -> invalid_contract d = false ->
  json_contract c ++ x = json_contract d ++ y -> c = d /\ x = y.
Proof.
  intros Pc Pd Ic Id E. unfold invalid_contract in Ic, Id. rewrite !orb_false_iff, !negb_false_iff in Ic, Id.
  destruct Ic as [[[_ C1%digest_plain] C2%digest_plain] C3%digest_plain].
  destruct Id as [[[_ D1%digest_plain] D2%digest_plain] D3%digest_plain].
  assert (Hshape : forall c z, json_contract c ++ z =
    ["{"%char] ++ json_string "product" ++ [":"%char] ++ json_string (Product c) ++
    [","%char] ++ json_string "canonical_plan_digest" ++ [":"%char] ++ json_string (CanonicalPlanDigest c) ++
    [","%char] ++ json_string "dependency_digest" ++ [":"%char] ++ json_string (DependencyDigest c) ++
    [","%char] ++ json_string "interface_digest" ++ [":"%char] ++ json_string (InterfaceDigest c) ++ "}"%char :: z).
  { intros e z. unfold json_contract, json_object. cbn [omap list_omap mbind option_bind fst snd map json_join].
    unfold json_member. cbn [fst snd]. rewrite <- !app_assoc. done. }
  rewrite !Hshape in E. do 3 apply app_inv_head in E. apply json_string_inj in E as [E1 E]; [|done..].
  do 3 apply app_inv_head in E. apply json_string_inj in E as [E2 E]; [|done..].
  do 3 apply app_inv_head in E. apply json_string_inj in E as [E3 E]; [|done..].
  do 3 apply app_inv_head in E. apply json_string_inj in E as [E4 E]; [|done..].
  injection E as ->. split; [|done]. clear -E1 E2 E3 E4. destruct c, d; cbn [Product CanonicalPlanDigest DependencyDigest InterfaceDigest] in *. congruence.
Qed.

Definition good (c : ProductContract) : Prop := invalid_contract c = false /\ plain (Product c).

Lemma json_contract_head c : exists r, json_contract c = "{"%char :: r.
Proof. eexists. reflexivity. Qed.

Lemma join_inj l k x y : Forall good l -> Forall good k ->
  json_join (map json_contract l) ++ "]"%char :: x = json_join (map json_contract k) ++ "]"%char :: y -> l = k.
Proof.
  intros Hl; revert k x y; induction Hl as [|c l [Ic Pc] Hl IH]; intros k x y Hk E; destruct Hk as [|d k [Id Pd] Hk].
  - done.
  - exfalso. destruct (json_contract_head d) as [r Hr]. cbn [map] in E. destruct k; cbn [map json_join] in E; rewrite Hr in E; discriminate E.
  - exfalso. destruct (json_contract_head c) as [r Hr]. cbn [map] in E. destruct l; cbn [map json_join] in E; rewrite Hr in E; discriminate E.
  - destruct l as [|c' l], k as [|d' k]; cbn [map json_join] in E; rewrite <- ?app_assoc in E;
      apply contract_inj in E as [-> E]; try done.
    injection E as E. f_equal. by apply (IH (d' :: k) x y).
Qed.

Lemma material_inj s t : SetVersion s = Version -> SetVersion t = Version -> Forall good (Products s) -> Forall good (Products t) ->
  material s = material t -> s = t.
Proof.
  intros Vs Vt Gs Gt E. unfold material in E. apply app_inv_head in E.
  assert (Hshape : forall s, json_set s = ["{"%char] ++ json_string "version" ++ [":"%char] ++ json_string (SetVersion s) ++
    [","%char] ++ json_string "products" ++ [":"%char] ++ ["["%char] ++ json_join (map json_contract (Products s)) ++ ["]"%char; "}"%char]).
  { intros u. unfold json_set, json_object, json_array. cbn [omap list_omap mbind option_bind fst snd map json_join].
    unfold json_member. cbn [fst snd]. rewrite <- !app_assoc. done. }
  rewrite !Hshape, Vs, Vt in E. do 8 apply app_inv_head in E. apply join_inj in E; [|done..].
  clear -E Vs Vt. destruct s, t; cbn [SetVersion Products] in *. congruence.
Qed.

(** ** The properties *)
(** A view binding is its products: whatever order the contracts are listed
    in, the canonical set is the same, it is its own canonical form, and its
    digest is the same exactly when the contracts are, or the two encodings
    hashed for the digests collide (product names of printable ASCII). *)
Theorem binding_digest cs cs' s s' d d' :
  New cs = Ok s -> New cs' = Ok s' -> Forall (fun c => plain (Product c)) (cs ++ cs') ->
  Digest s = Ok d -> Digest s' = Ok d' ->
  New (Products s) = Ok s /\ (cs ≡ₚ cs' -> s = s' /\ d = d') /\
  (d = d' -> cs ≡ₚ cs' \/ Sha256.collides [material s] [material s']).
Proof.
  intros E E' Hp D D'. pose proof (New_sorted _ _ E) as N. pose proof (New_sorted _ _ E') as N'. split; [done|].
  unfold Digest in D, D'. rewrite N in D. rewrite N' in D'. cbn [mbind result_bind] in D, D'.
  apply fail_if_bind_ok in D as [V%negb_false_iff%bool_decide_eq_true D]. apply Ok_inj in D as <-.
  apply fail_if_bind_ok in D' as [V'%negb_false_iff%bool_decide_eq_true D']. apply Ok_inj in D' as <-.
  apply New_ok in E as (Hne & Hall & Hnd & ->). apply New_ok in E' as (Hne' & Hall' & Hnd' & ->). split.
  - intros Hperm. by rewrite (go_sort_proper _ _ Hperm).
  - intros [Em|]%Sha256.hex_sum_eq; [left|by right]. apply Forall_app in Hp as [Hp Hp'].
    assert (Hg : forall l, Forall (fun c => invalid_contract c = false) l -> Forall (fun c => plain (Product c)) l -> Forall good (go_sort l)).
    { intros l H1 H2. rewrite (go_sort_perm l). by apply Forall_and. }
    apply material_inj in Em; cbn [SetVersion Products] in *; [|done|done|by apply Hg..].
    injection Em as Em. by rewrite <- (go_sort_perm cs), Em, go_sort_perm.
Qed.

Definition order_contract := MkContract "orders" (Sha256.hex_sum []) (Sha256.hex_sum []) (Sha256.hex_sum []).
Definition customer_contract := MkContract "customers" (Sha256.hex_sum []) (Sha256.hex_sum (to_bytes "x")) (Sha256.hex_sum []).

Lemma binding_digest_witness : exists s d,
  New [order_contract; customer_contract] = Ok s /\ New [customer_contract; order_contract] = Ok s /\ Digest s = Ok d.
Proof.
  assert (E : exists s, New [order_contract; customer_contract] = Ok s) by (eexists; vm_compute; reflexivity).
  assert (E' : exists s, New [customer_contract; order_contract] = Ok s) by (eexists; vm_compute; reflexivity).
  destruct E as [s E], E' as [s' E'].
  assert (D : exists d, Digest s = Ok d) by (vm_compute in E; injection E as <-; eexists; vm_compute; reflexivity).
  assert (D' : exists d, Digest s' = Ok d) by (vm_compute in E'; injection E' as <-; eexists; vm_compute; reflexivity).
  destruct D as [d D], D' as [d' D'].
  destruct (binding_digest _ _ s s' d d' E E') as (_ & H & _); [|exact D|exact D'|].
  - repeat (constructor; [unfold plain; repeat (constructor; [vm_compute; reflexivity|]); constructor|]). constructor.
  - destruct H as [-> ->]; [constructor|]. eauto.
Defined.
End ViewBinding.
