(* ===== verification/ControlTasks.v ===== *)
(** * Principals, tasks, grants and view bindings

    [src/internal/control/entities.go] and [view_binding.go]: creating and
    changing tasks, recording a grant with its budget and exposure ledger, and
    closing a task whose view semantics changed.  Every operation is one
    transaction: [Ok] commits its store, [Err] rolls back.  JSON texts go
    through [normalizeJSON] and the binding decoder of [encoding/json], which
    are parameters. *)

From S2P Require Import Prelude GoBytes Ordering GoText Sha256 Task ViewBinding FactId LedgerStore ExposureLedger.
Import FactId Store ExposureLedger.

Module ControlTasks.

(** ** Values *)
Record ViewDependency := MkDependency { dProduct : string; dKey : string }.
Record ViewBindingSet := MkBindingSet {
  vbDigest : string; vbProfileVersion : string; vbCanonicalJSON : bytes; vbDependencies : list ViewDependency; vbCreatedAt : Z }.
Record TaskGrant := MkTaskGrant { tgTaskID : string; tgRow : GrantRow; tgViewBindingSet : option ViewBindingSet }.

Definition Exposure (g : GrantRow) : ExposureGrant :=
  MkExposureGrant (gExposureLimits g) (gExposureProfile g) (gPredicateFootprint g).

Definition validSHA256Hex : string -> bool := valid_sha256_text.
Definition IsZero (t : Z) : bool := t =? 0.
Definition nullableTime (t : option Z) : option Z := match t with Some 0 => None | _ => t end.

(** Errors of one operation. *)
Definition wrap {A} (op : string) (kind : goerror) (r : result A) : result A := map_err (fun e => opErr op kind (Some e)) r.
Definition invalid (op text : string) : goerror := opErr op ErrInvalid (Some (ErrNew text)).
(** A row selected by primary key: [isNoRows] gives [ErrNotFound]. *)
Definition find_row {A} (op : string) (row : option A) : result A := wrap op ErrNotFound (select row).

(** [INSERT] into a table with a primary key. *)
Definition insert_new {V} (m : gmap string V) (key : string) (v : V) : result (gmap string V) :=
  fail_if (bool_decide (is_Some (m !! key))) duplicate_key ≫= fun _ => Ok (<[key := v]> m).
(** A foreign key. *)
Definition references {V} (m : gmap string V) (key : string) : result unit :=
  fail_if (negb (bool_decide (is_Some (m !! key)))) foreign_key.

(** ** View bindings of a grant *)
Definition nul : string := of_bytes [byte_of 0].
Definition has_nul (s : string) : bool := bool_decide (byte_of 0 ∈ to_bytes s).
Definition trimmed (s : string) : bool := same (TrimSpace s) s.

(** The approved products: distinct, trimmed, without NUL. *)
Fixpoint check_approved (seen : list string) (products : list string) : result unit :=
  match products with
  | [] => Ok tt
  | product :: rest =>
      fail_if (blank product || negb (trimmed product) || has_nul product)
        (ErrNew "approved product must be a non-empty canonical string") ≫= fun _ =>
      fail_if (in_list product seen) (ErrNew "duplicate approved product %q") ≫= fun _ =>
      check_approved (product :: seen) rest
  end.

Definition dependency_key (d : ViewDependency) : string := dProduct d +:+ nul +:+ dKey d.

Fixpoint check_dependencies (bound : list string) (previous : string) (dependencies : list ViewDependency) : result unit :=
  match dependencies with
  | [] => Ok tt
  | d :: rest =>
      fail_if (same (dProduct d) "" || negb (trimmed (dProduct d)) || same (dKey d) "" || negb (trimmed (dKey d)) ||
               has_nul (dProduct d) || has_nul (dKey d))
        (ErrNew "view dependency product and key must be non-empty canonical strings") ≫= fun _ =>
      fail_if (negb (in_list (dProduct d) bound)) (ErrNew "view dependency product %q is not bound") ≫= fun _ =>
      fail_if (given previous && str_leb (dependency_key d) previous)
        (ErrNew "view dependencies must be strictly sorted and unique") ≫= fun _ =>
      check_dependencies bound (dependency_key d) rest
  end.

Section ops.
Context {O Observed Referenced : Type} `{!OrdinalExposure O Observed Referenced}.
Context (normalizeJSON : string -> string -> result string) (decode_binding : bytes -> result ViewBinding.BindingSet).
Implicit Types s : Store O.

Definition validateGrantViewBinding (grant : TaskGrant) : result unit :=
  let row := tgRow grant in
  let digest := gViewBindingDigest row in
  match tgViewBindingSet grant with
  | None => if same digest "" then Ok tt
            else fail_if (negb (validSHA256Hex digest)) (ErrNew "view binding digest must be lowercase SHA-256") ≫= fun _ =>
                 Err (ErrNew "view binding set is required for a bound grant")
  | Some binding =>
      fail_if (same digest "") (ErrNew "view binding evidence requires a digest") ≫= fun _ =>
      fail_if (negb (validSHA256Hex digest)) (ErrNew "view binding digest must be lowercase SHA-256") ≫= fun _ =>
      fail_if (negb (same (vbDigest binding) digest) || negb (validSHA256Hex (vbDigest binding)) ||
               negb (same (vbProfileVersion binding) ViewBinding.Version) || (length (vbCanonicalJSON binding) =? 0)%nat)
        (ErrNew "view binding set is invalid or disagrees with the grant") ≫= fun _ =>
      fail_if (negb (IsZero (vbCreatedAt binding)) && negb (IsZero (gCreatedAt row)) && negb (vbCreatedAt binding =? gCreatedAt row))
        (ErrNew "view binding evidence time disagrees with the grant") ≫= fun _ =>
      decoded ← map_err (ErrCtx "decode canonical view binding set") (decode_binding (vbCanonicalJSON binding));
      fail_if (negb (same (ViewBinding.SetVersion decoded) ViewBinding.Version) ||
               negb (same (ViewBinding.SetVersion decoded) (vbProfileVersion binding)))
        (ErrNew "view binding profile version is unsupported or inconsistent") ≫= fun _ =>
      canonicalSet ← map_err (ErrCtx "validate canonical view binding set") (ViewBinding.New (ViewBinding.Products decoded));
      fail_if (negb (bool_decide (vbCanonicalJSON binding = ViewBinding.json_set canonicalSet)))
        (ErrNew "view binding set is not in canonical encoding") ≫= fun _ =>
      computedDigest ← map_err (ErrCtx "digest canonical view binding set") (ViewBinding.Digest canonicalSet);
      fail_if (negb (same computedDigest (vbDigest binding)))
        (ErrNew "canonical view binding set does not match its digest") ≫= fun _ =>
      let bound := map ViewBinding.Product (ViewBinding.Products canonicalSet) in
      check_approved [] (gProducts row) ≫= fun _ =>
      fail_if (negb (forallb (fun product => in_list product bound) (gProducts row)))
        (ErrNew "approved product %q is absent from the view binding") ≫= fun _ =>
      fail_if (length (vbDependencies binding) =? 0)%nat (ErrNew "at least one canonical view dependency is required") ≫= fun _ =>
      check_dependencies bound "" (vbDependencies binding) ≫= fun _ =>
      fail_if (negb (forallb (fun product => in_list product (map dProduct (vbDependencies binding))) bound))
        (ErrNew "view dependency evidence is incomplete for product %q")
  end.

Definition insertTaskViewBindingTx s (taskID : string) (binding : ViewBindingSet) : result (Store O) :=
  sets ← match binding_sets s !! vbDigest binding with
         | None => Ok (<[vbDigest binding := (vbProfileVersion binding, vbCanonicalJSON binding)]> (binding_sets s))
         | Some (profile, stored) =>
             fail_if (negb (same profile (vbProfileVersion binding)) || negb (bool_decide (stored = vbCanonicalJSON binding)))
               (ErrNew "view binding digest collision for %s") ≫= fun _ => Ok (binding_sets s)
         end;
  deps ← fold_res (fun deps d =>
           let row := (taskID, dProduct d, dKey d) in
           fail_if (bool_decide (row ∈ deps)) duplicate_key ≫= fun _ => Ok ({[ row ]} ∪ deps))
         (dependencies s) (vbDependencies binding);
  status ← insert_new (view_status s) taskID (MkViewStatus TaskViewBindingActive (vbDigest binding) "" None);
  Ok (with_view_status (with_dependencies (with_binding_sets s sets) deps) status).

(** ** Grants *)
Definition insertGrantAndBudget s (grant : TaskGrant) (scope : string) : result (Store O) :=
  let g := tgRow grant in
  let task := tgTaskID grant in
  let row := MkGrantRow (gSubject g) (gPurpose g) (gProducts g) (gColumns g) scope (gCeiling g) (gBudget g) (gExpiresAt g)
               (gCatalogVersion g) (gCatalogDigest g) (gDatasourceID g) (gSchemaDigest g) (gApprovalReceipt g) (gCreatedAt g)
               (gViewBindingDigest g) (gExposureProfile g) (gExposureLimits g) (gPredicateFootprint g) in
  references (tasks s) task ≫= fun _ =>
  grants' ← insert_new (grants s) task row;
  let s := with_grants s grants' in
  s ← match tgViewBindingSet grant with Some binding => insertTaskViewBindingTx s task binding | None => Ok s end;
  budgets' ← insert_new (budgets s) task (MkBudget task (gBudget g) (MkUsage 0 0 0 0 0 0) (gCreatedAt g));
  ensureExposureLedgerTx (with_budgets s budgets') task (Exposure g) (gCreatedAt g).

Definition positive_budget (b : BudgetLimits) : bool := negb ((Queries b <=? 0) || (Rows b <=? 0) || (DBMS b <=? 0)).

Definition created_at (g : GrantRow) (now : Z) : GrantRow :=
  if IsZero (gCreatedAt g)
  then MkGrantRow (gSubject g) (gPurpose g) (gProducts g) (gColumns g) (gScope g) (gCeiling g) (gBudget g) (gExpiresAt g)
         (gCatalogVersion g) (gCatalogDigest g) (gDatasourceID g) (gSchemaDigest g) (gApprovalReceipt g) now
         (gViewBindingDigest g) (gExposureProfile g) (gExposureLimits g) (gPredicateFootprint g)
  else g.
Definition grant_at (grant : TaskGrant) (now : Z) : TaskGrant :=
  MkTaskGrant (tgTaskID grant) (created_at (tgRow grant) now) (tgViewBindingSet grant).

Definition PutGrant s (now : Z) (grant : TaskGrant) : result (Store O) :=
  let op := "put task grant" in
  let g := tgRow grant in
  fail_if (same (tgTaskID grant) "" || same (gSubject g) "" || same (gPurpose g) "" || same (gCatalogVersion g) "" ||
           negb (validSHA256Hex (gCatalogDigest g)) || same (gDatasourceID g) "" || negb (validSHA256Hex (gSchemaDigest g)) ||
           same (gApprovalReceipt g) "" || IsZero (gExpiresAt g)) (invalid op "required grant field is empty") ≫= fun _ =>
  wrap op ErrInvalid (validateGrantViewBinding grant) ≫= fun _ =>
  fail_if (negb (positive_budget (gBudget g))) (invalid op "all budget limits must be positive") ≫= fun _ =>
  wrap op ErrInvalid (validateExposureGrant (Exposure g)) ≫= fun _ =>
  scope ← wrap op ErrInvalid (normalizeJSON (gScope g) "{}");
  let grant := grant_at grant now in
  task ← find_row op (tasks s !! tgTaskID grant);
  fail_if (negb (same (tState task) TaskAwaitingApproval) && negb (same (tState task) TaskActive))
    (opErr op ErrInvalidStateChange (Some (ErrNew "cannot grant task in state %s"))) ≫= fun _ =>
  s ← wrap op ErrConflict (insertGrantAndBudget s grant scope);
  wrap op ErrConflict (appendAuditTx s (tgTaskID grant) "" (gSubject g) "TASK_GRANT_CREATED" (gCreatedAt (tgRow grant))).

(** ** Principals *)
Definition CreatePrincipal s (now : Z) (p : PrincipalRow) : result (Store O) :=
  let op := "create principal" in
  fail_if (blank (pID p) || blank (pSubject p) || blank (pRole p)) (invalid op "id, subject, and role are required") ≫= fun _ =>
  let created := if IsZero (pCreatedAt p) then now else pCreatedAt p in
  let row := MkPrincipal (pID p) (pSubject p) (pRole p) (pTokenHash p) created (nullableTime (pDisabledAt p)) in
  fail_if (existsb (fun kv => same (pSubject kv.2) (pSubject p)) (map_to_list (principals s)))
    (opErr op ErrConflict (Some duplicate_key)) ≫= fun _ =>
  principals' ← wrap op ErrConflict (insert_new (principals s) (pID p) row);
  wrap op ErrConflict (appendAuditTx (with_principals s principals') "" "" (pSubject p) "PRINCIPAL_CREATED" created).

Definition DisablePrincipal s (now : Z) (principalID : string) (disabledAt : Z) : result (Store O * PrincipalRow) :=
  let op := "disable principal" in
  fail_if (blank principalID) (invalid op "principal id is required") ≫= fun _ =>
  let at_ := if IsZero disabledAt then now else disabledAt in
  p ← find_row op (principals s !! principalID);
  let p' := MkPrincipal (pID p) (pSubject p) (pRole p) (pTokenHash p) (pCreatedAt p)
              (Some (match pDisabledAt p with Some t => t | None => at_ end)) in
  Ok (with_principals s (<[principalID := p']> (principals s)), p').

(** ** Tasks *)
Definition validTaskState (state : string) : bool :=
  in_list state [TaskAwaitingSubmission; TaskAwaitingApproval; TaskActive; TaskArchived].

(** The root of a new task: its own id, or its active parent's root. *)
Definition new_root s (op : string) (task : Task) : result string :=
  if given (tParentTaskID task) then
    parent ← map_err (fun e => opErr op ErrNotFound (Some (ErrCtx "parent task" e))) (select (tasks s !! tParentTaskID task));
    target ← map_err (fun e => opErr op ErrNotFound (Some (ErrCtx "delegated principal" e))) (select (principals s !! tPrincipalID task));
    fail_if (negb (same (tState parent) TaskActive) || negb (same (tCatalogVersion parent) (tCatalogVersion task)) ||
             negb (bool_decide (pDisabledAt target = None)))
      (invalid op "delegation requires an active parent, the same catalog, and an enabled principal") ≫= fun _ =>
    Ok (tRootTaskID parent)
  else
    fail_if (given (tRootTaskID task) && negb (same (tRootTaskID task) (tID task)))
      (invalid op "a root task must identify itself as root") ≫= fun _ => Ok (tID task).

Definition CreateTask s (now : Z) (task : Task) : result (Store O) :=
  let op := "create task" in
  fail_if (blank (tID task) || blank (tPrincipalID task) || blank (tObjective task) || blank (tCatalogVersion task))
    (invalid op "id, principal, objective, and catalog version are required") ≫= fun _ =>
  let state := if same (tState task) "" then TaskAwaitingSubmission else tState task in
  fail_if (negb (validTaskState state) || (negb (same state TaskArchived) && given (tTerminalReason task)) ||
           (same state TaskArchived && same (tTerminalReason task) ""))
    (invalid op "invalid state/terminal reason combination") ≫= fun _ =>
  requestContext ← map_err (fun e => opErr op ErrInvalid (Some (ErrCtx "request context" e))) (normalizeJSON (tRequestContext task) "{}");
  let created := if IsZero (tCreatedAt task) then now else tCreatedAt task in
  let updated := if IsZero (tUpdatedAt task) then created else tUpdatedAt task in
  root ← new_root s op task;
  fail_if (given (tRootTaskID task) && negb (same (tRootTaskID task) root))
    (invalid op "root task does not match parent family") ≫= fun _ =>
  wrap op ErrConflict (references (principals s) (tPrincipalID task)) ≫= fun _ =>
  let row := MkTask (tID task) (tPrincipalID task) (tObjective task) state (tTerminalReason task) (tCatalogVersion task)
               (tSensitivity task) requestContext (tApprovalRef task) created updated (nullableTime (tExpiresAt task))
               root (tParentTaskID task) in
  tasks' ← wrap op ErrConflict (insert_new (tasks s) (tID task) row);
  wrap op ErrConflict (appendAuditTx (with_tasks s tasks') (tID task) "" (tPrincipalID task) "TASK_CREATED" created).

Definition allowedTransition (from to reason : string) : bool :=
  let reason_ok :=
    if same to TaskArchived
    then in_list reason [TerminalCompleted; TerminalBudgetExhausted; TerminalRejected; TerminalExpired; TerminalRevoked; TerminalFailed]
    else same reason "" in
  reason_ok &&
  (if same from TaskAwaitingSubmission then same to TaskAwaitingApproval || same to TaskArchived
   else if same from TaskAwaitingApproval then same to TaskActive || same to TaskArchived
   else if same from TaskActive then same to TaskArchived
   else false).

(** [UPDATE tasks SET state, terminal_reason, updated_at, expires_at]. *)
Definition moved (t : Task) (to reason : string) (now : Z) (expires : option Z) : Task :=
  MkTask (tID t) (tPrincipalID t) (tObjective t) to reason (tCatalogVersion t) (tSensitivity t) (tRequestContext t)
    (tApprovalRef t) (tCreatedAt t) now expires (tRootTaskID t) (tParentTaskID t).

Record TaskTransition := MkTransition {
  chTaskID : string; chExpectedFrom : string; chTo : string; chReason : string; chActor : string; chPayload : string;
  chExpiresAt : option Z }.

Definition TransitionTask s (now : Z) (change : TaskTransition) : result (Store O * Task) :=
  let op := "transition task" in
  fail_if (same (chTaskID change) "" || same (chActor change) "" || negb (validTaskState (chTo change)))
    (invalid op "task, actor, and target state are required") ≫= fun _ =>
  _ ← wrap op ErrInvalid (normalizeJSON (chPayload change) "{}");
  current ← find_row op (tasks s !! chTaskID change);
  fail_if (given (chExpectedFrom change) && negb (same (tState current) (chExpectedFrom change)))
    (opErr op ErrConflict (Some (ErrNew "expected %s, found %s"))) ≫= fun _ =>
  fail_if (negb (allowedTransition (tState current) (chTo change) (chReason change)))
    (opErr op ErrInvalidStateChange (Some (ErrNew "%s -> %s (%s)"))) ≫= fun _ =>
  let expires := match chExpiresAt change with Some _ => chExpiresAt change | None => tExpiresAt current end in
  let row := moved current (chTo change) (chReason change) now (nullableTime expires) in
  s ← wrap op ErrConflict (appendAuditTx (with_tasks s (<[chTaskID change := row]> (tasks s)))
        (chTaskID change) "" (chActor change) "TASK_STATE_CHANGED" now);
  Ok (s, moved current (chTo change) (chReason change) now expires).

Definition RecordApprovalEvent s (now : Z) (eventID : string) (event : ApprovalRow) : result (Store O) :=
  let op := "record approval event" in
  fail_if (same eventID "" || same (apTaskID event) "" || same (apActor event) "" || same (apDecision event) "")
    (invalid op "event, task, actor, and decision are required") ≫= fun _ =>
  payload ← wrap op ErrInvalid (normalizeJSON (apPayload event) "{}");
  let created := if IsZero (apCreatedAt event) then now else apCreatedAt event in
  wrap op ErrConflict (references (tasks s) (apTaskID event)) ≫= fun _ =>
  approvals' ← wrap op ErrConflict (insert_new (approvals s) eventID
    (MkApproval (apTaskID event) (apActor event) (apDecision event) payload created));
  wrap op ErrConflict (appendAuditTx (with_approvals s approvals') (apTaskID event) "" (apActor event) "APPROVAL_EVENT_RECORDED" created).

(** ** Closing a task whose view semantics changed *)
Definition MarkTaskViewSemanticChanged s (now : Z) (taskID observedDigest : string) : result (Store O * ViewBindingStatus) :=
  let op := "mark task view semantic changed" in
  fail_if (blank taskID || negb (validSHA256Hex observedDigest))
    (invalid op "task id and observed view binding digest are required") ≫= fun _ =>
  _ ← find_row op (tasks s !! taskID);
  status ← find_row op (view_status s !! taskID);
  if same (vStatus status) TaskViewBindingRequireRebind || same observedDigest (vBoundDigest status) then Ok (s, status)
  else
    fail_if (negb (same (vStatus status) TaskViewBindingActive))
      (opErr op ErrConflict (Some (ErrNew "view binding status changed concurrently"))) ≫= fun _ =>
    let status' := MkViewStatus TaskViewBindingRequireRebind (vBoundDigest status) observedDigest (Some now) in
    s ← wrap op ErrConflict (appendAuditTx (with_view_status s (<[taskID := status']> (view_status s)))
          taskID "" "system" "TASK_VIEW_SEMANTIC_CHANGED" now);
    Ok (s, status').
End ops.

(** ** The domain's state machine *)
(** The Control store accepts the domain's task transitions.  Every event
    the domain accepts from an open state is a transition the store allows;
    the store allows no other transition between open states, and none that
    leaves the archive. *)
Theorem control_accepts_domain :
  (forall state event next reason, Task.transitionFor state event = Ok (next, reason) ->
     state ∈ [TaskAwaitingSubmission; TaskAwaitingApproval; TaskActive] -> allowedTransition state next reason = true) /\
  (forall from to reason, allowedTransition from to reason = true -> from <> TaskArchived /\
     (to <> TaskArchived -> exists event, Task.transitionFor from event = Ok (to, reason))).
Proof.
  split.
  - intros state event next reason E Hst.
    assert (Hev : event ∈ [Task.TaskEventSubmit; Task.TaskEventApprove; Task.TaskEventReject; Task.TaskEventComplete;
      Task.TaskEventBudgetExhausted; Task.TaskEventExpire; Task.TaskEventRevoke; Task.TaskEventFail]).
    { unfold Task.transitionFor in E. cbv zeta in E. rewrite !elem_of_cons. repeat (destruct (decide (event = _)); [by auto 10|]). done. }
    rewrite !elem_of_cons in Hst. rewrite !elem_of_cons in Hev. destruct Hst as [->|[->|[->|Hst%elem_of_nil]]]; try done;
      destruct Hev as [->|[->|[->|[->|[->|[->|[->|[->|Hev%elem_of_nil]]]]]]]]; try done; vm_compute in E; try discriminate E;
      apply Ok_inj in E; injection E as <- <-; reflexivity.
  - intros from to reason [Hr Hft]%andb_true_iff.
    destruct (same from TaskAwaitingSubmission) eqn:E1; [apply same_true in E1 as ->|
      destruct (same from TaskAwaitingApproval) eqn:E2; [apply same_true in E2 as ->|
        destruct (same from TaskActive) eqn:E3; [apply same_true in E3 as ->|done]]].
    + split; [done|]. intros Hne. rewrite (proj2 (same_false to TaskArchived) Hne) in Hft, Hr. apply same_true in Hr as ->.
      rewrite orb_false_r in Hft. apply same_true in Hft as ->. by exists Task.TaskEventSubmit.
    + split; [done|]. intros Hne. rewrite (proj2 (same_false to TaskArchived) Hne) in Hft, Hr. apply same_true in Hr as ->.
      rewrite orb_false_r in Hft. apply same_true in Hft as ->. by exists Task.TaskEventApprove.
    + split; [done|]. intros Hne. by apply same_true in Hft.
Qed.
End ControlTasks.
