(* ===== verification/Callbacks.v ===== *)
(** * Approval callbacks

    [src/internal/control/callback.go]: a claim table makes every approval
    event of the OA system take effect once, together with its task transition
    and grant. *)

From S2P Require Import Prelude GoBytes Sha256 ViewBinding FactId LedgerStore ExposureLedger ControlTasks.
Import FactId Store ExposureLedger ControlTasks.

Module Callbacks.

Definition CallbackProcessing := "PROCESSING".
Definition CallbackCompleted := "COMPLETED".
Definition CallbackRetryable := "RETRYABLE".
Definition ErrCallbackInProgress := ErrNew "control: callback already in progress".

Record CallbackClaim := MkClaim { clEventID : string; clStatus : string; clClaimed : bool; clReplay : bool; clResponse : bytes }.

Definition callbackPayloadHash (payload : bytes) : string := Sha256.hex_sum payload.

Section ops.
Context {O Observed Referenced : Type} `{!OrdinalExposure O Observed Referenced}.
Context (normalizeJSON : string -> string -> result string) (decode_binding : bytes -> result ViewBinding.BindingSet).
Implicit Types s : Store O.

Definition unknown_status (op : string) : goerror := opErr op ErrConflict (Some (ErrNew "unknown callback status %q")).

Definition LookupCallback s (eventID : string) (rawPayload : bytes) : result CallbackClaim :=
  let op := "lookup callback" in
  fail_if (same eventID "" || (length rawPayload =? 0)%nat) (invalid op "event ID and raw payload are required") ≫= fun _ =>
  row ← find_row op (callbacks s !! eventID);
  fail_if (negb (same (cbPayloadSHA256 row) (callbackPayloadHash rawPayload))) (opErr op ErrIdempotencyConflict None) ≫= fun _ =>
  if same (cbStatus row) CallbackCompleted then Ok (MkClaim eventID (cbStatus row) false true (cbResponse row))
  else if in_list (cbStatus row) [CallbackProcessing; CallbackRetryable] then Ok (MkClaim eventID (cbStatus row) false false [])
  else Err (unknown_status op).

Definition claimCallbackTx s (eventID payloadHash : string) (now : Z) : result (Store O * CallbackClaim) :=
  let op := "claim callback" in
  let claimed row := (with_callbacks s (<[eventID := row]> (callbacks s)), MkClaim eventID CallbackProcessing true false []) in
  match callbacks s !! eventID with
  | None => Ok (claimed (MkCallback payloadHash CallbackProcessing [] "" now None))
  | Some row =>
      fail_if (negb (same (cbPayloadSHA256 row) payloadHash)) (opErr op ErrIdempotencyConflict None) ≫= fun _ =>
      if same (cbStatus row) CallbackCompleted then Ok (s, MkClaim eventID (cbStatus row) false true (cbResponse row))
      else if same (cbStatus row) CallbackProcessing then Err (opErr op ErrCallbackInProgress None)
      else if same (cbStatus row) CallbackRetryable
      then Ok (claimed (MkCallback (cbPayloadSHA256 row) CallbackProcessing (cbResponse row) "" now None))
      else Err (unknown_status op)
  end.

Definition ClaimCallback s (now : Z) (eventID : string) (rawPayload : bytes) : result (Store O * CallbackClaim) :=
  let op := "claim callback" in
  fail_if (same eventID "" || (length rawPayload =? 0)%nat) (invalid op "event ID and raw payload are required") ≫= fun _ =>
  '(s, claim) ← claimCallbackTx s eventID (callbackPayloadHash rawPayload) now;
  if clClaimed claim
  then s ← wrap op ErrConflict (appendAuditTx s "" "" "oa" "CALLBACK_CLAIMED" now); Ok (s, claim)
  else Ok (s, claim).

Definition RetryCallback := ClaimCallback.

Definition completeCallbackTx s (eventID : string) (response : bytes) (now : Z) : result (Store O) :=
  let failed := Err (ErrNew "callback is not processing") in
  match callbacks s !! eventID with
  | Some row =>
      if same (cbStatus row) CallbackProcessing
      then Ok (with_callbacks s (<[eventID := MkCallback (cbPayloadSHA256 row) CallbackCompleted response "" (cbClaimedAt row) (Some now)]>
                 (callbacks s)))
      else failed
  | None => failed
  end.

Definition CompleteCallback s (now : Z) (eventID : string) (rawPayload response : bytes) : result (Store O) :=
  let op := "complete callback" in
  fail_if (same eventID "" || (length rawPayload =? 0)%nat) (invalid op "event ID and raw payload are required") ≫= fun _ =>
  row ← find_row op (callbacks s !! eventID);
  fail_if (negb (same (cbPayloadSHA256 row) (callbackPayloadHash rawPayload))) (opErr op ErrIdempotencyConflict None) ≫= fun _ =>
  if same (cbStatus row) CallbackCompleted then
    fail_if (negb (bool_decide (cbResponse row = response)))
      (opErr op ErrConflict (Some (ErrNew "callback already completed with another response"))) ≫= fun _ => Ok s
  else
    fail_if (negb (same (cbStatus row) CallbackProcessing)) (opErr op ErrConflict (Some (ErrNew "callback is %s"))) ≫= fun _ =>
    s ← wrap op ErrConflict (completeCallbackTx s eventID response now);
    wrap op ErrConflict (appendAuditTx s "" "" "oa" "CALLBACK_COMPLETED" now).

Definition FailCallback s (eventID : string) (rawPayload : bytes) (failure : string) : result (Store O) :=
  let op := "fail callback" in
  fail_if (same eventID "" || (length rawPayload =? 0)%nat || same failure "")
    (invalid op "event ID, raw payload, and failure are required") ≫= fun _ =>
  let failed := Err (opErr op ErrConflict (Some (ErrNew "callback is not processing or payload differs"))) in
  match callbacks s !! eventID with
  | Some row =>
      if same (cbPayloadSHA256 row) (callbackPayloadHash rawPayload) && same (cbStatus row) CallbackProcessing
      then Ok (with_callbacks s (<[eventID := MkCallback (cbPayloadSHA256 row) CallbackRetryable (cbResponse row) failure
                 (cbClaimedAt row) None]> (callbacks s)))
      else failed
  | None => failed
  end.

(** ** Applying an approval decision *)
Record ApprovalCallback := MkApprovalCallback {
  acEventID : string; acRawPayload : bytes; acApprovalID : string; acEvent : ApprovalRow; acExpectedState : string;
  acNewState : string; acReason : string; acGrant : option TaskGrant; acResponse : bytes }.

Definition check_callback_grant (op : string) (grant : TaskGrant) : result unit :=
  let g := tgRow grant in
  fail_if (negb (positive_budget (gBudget g)) || IsZero (gExpiresAt g)) (invalid op "invalid grant budget or expiry") ≫= fun _ =>
  wrap op ErrInvalid (validateExposureGrant (Exposure g)) ≫= fun _ =>
  fail_if (same (gCatalogVersion g) "" || negb (validSHA256Hex (gCatalogDigest g)) || same (gDatasourceID g) "" ||
           negb (validSHA256Hex (gSchemaDigest g)) || same (gApprovalReceipt g) "") (invalid op "invalid grant provenance") ≫= fun _ =>
  wrap op ErrInvalid (validateGrantViewBinding decode_binding grant).

(** The grant of a callback, inserted; the expiry it gives the task. *)
Definition apply_grant s (op : string) (now : Z) (grant : option TaskGrant) : result (Store O * option Z) :=
  match grant with
  | None => Ok (s, None)
  | Some grant =>
      let grant := grant_at grant now in
      check_callback_grant op grant ≫= fun _ =>
      scope ← wrap op ErrInvalid (normalizeJSON (gScope (tgRow grant)) "{}");
      s ← wrap op ErrConflict (insertGrantAndBudget s grant scope);
      Ok (s, Some (gExpiresAt (tgRow grant)))
  end.

Definition ApplyApprovalCallback s (now : Z) (callback : ApprovalCallback) : result (Store O * CallbackClaim) :=
  let op := "apply approval callback" in
  let event := acEvent callback in
  fail_if (same (acEventID callback) "" || (length (acRawPayload callback) =? 0)%nat || same (apTaskID event) "" ||
           same (apActor event) "" || same (apDecision event) "") (invalid op "callback and approval fields are required") ≫= fun _ =>
  let approvalID := if same (acApprovalID callback) "" then acEventID callback else acApprovalID callback in
  fail_if (same (acNewState callback) TaskActive && bool_decide (acGrant callback = None :> option TaskGrant))
    (invalid op "active task requires a grant") ≫= fun _ =>
  fail_if (match acGrant callback with Some g => negb (same (tgTaskID g) (apTaskID event)) | None => false end)
    (invalid op "grant belongs to another task") ≫= fun _ =>
  payload ← wrap op ErrInvalid (normalizeJSON (apPayload event) "{}");
  let created := if IsZero (apCreatedAt event) then now else apCreatedAt event in
  '(s, claim) ← claimCallbackTx s (acEventID callback) (callbackPayloadHash (acRawPayload callback)) now;
  if clReplay claim then Ok (s, claim)
  else
    current ← find_row op (tasks s !! apTaskID event);
    fail_if (given (acExpectedState callback) && negb (same (tState current) (acExpectedState callback)))
      (opErr op ErrInvalidStateChange (Some (ErrNew "expected %s, found %s"))) ≫= fun _ =>
    fail_if (negb (allowedTransition (tState current) (acNewState callback) (acReason callback)))
      (opErr op ErrInvalidStateChange (Some (ErrNew "%s -> %s"))) ≫= fun _ =>
    approvals' ← wrap op ErrConflict (insert_new (approvals s) approvalID
      (MkApproval (apTaskID event) (apActor event) (apDecision event) payload created));
    '(s, expires) ← apply_grant (with_approvals s approvals') op now (acGrant callback);
    let row := moved current (acNewState callback) (acReason callback) now
                 (match expires with Some _ => expires | None => tExpiresAt current end) in
    let s := with_tasks s (<[apTaskID event := row]> (tasks s)) in
    s ← wrap op ErrConflict (appendAuditTx s (apTaskID event) "" (apActor event) "APPROVAL_CALLBACK_APPLIED" now);
    s ← wrap op ErrConflict (completeCallbackTx s (acEventID callback) (acResponse callback) now);
    Ok (s, MkClaim (acEventID callback) CallbackCompleted (clClaimed claim) false (acResponse callback)).
End ops.
End Callbacks.
