(* ===== verification/BudgetLedger.v ===== *)
(** * The budget ledger

    [src/internal/control/budget.go] and [recovery.go]: a query reserves what is
    left of its task's budget, and is settled once, with what it used.  A
    transaction returns the store it commits with its reply, which is an error
    when the code commits before failing (the task archived because it expired
    or ran out of budget).  The receipt builders and the echo of the exposure
    reservation are not modelled. *)

From S2P Require Import Prelude GoBytes Ordering GoText Sha256 ViewBinding FactId FactSet LedgerStore ExposureLedger ControlTasks Callbacks.
Import FactId FactSet Store ExposureLedger ControlTasks Callbacks.

Module BudgetLedger.

Record ReserveRequest := MkReserve {
  rqQueryID : string; rqTaskID : string; rqRequestID : string; rqActor : string; rqRequestDigest : string;
  rqSQLFingerprint : string; rqCatalogVersion : string; rqCatalogDigest : string; rqDatasourceID : string;
  rqSchemaDigest : string; rqViewBindingDigest : string; rqManifestDigest : string; rqGrantDigest : string;
  rqPolicyDecision : string; rqRows : Z; rqDBMS : Z; rqExposure : option ExposureReservationRequest }.

Record BudgetReservation := MkBudgetReservation {
  brQueryID : string; brTaskID : string; brRequestID : string; brAllowedRows : Z; brAllowedDBMS : Z;
  brBefore : BudgetSnapshot; brAfter : option BudgetSnapshot; brReplay : bool; brRecord : option QueryRecord }.

Record BudgetSettlement {Observed Referenced : Type} := MkSettlement {
  seQueryID : string; seRows : Z; seDBMS : Z; seObservedDBMS : Z; seErrorCode : string;
  seEvidence : @ExposureEvidence Observed Referenced; seMaterialization : bool }.
Arguments BudgetSettlement : clear implicits.

Record RecoveryReport := MkReport { InterruptedQueries : Z; ExpiredTasks : Z; RetryableCallbacks : Z }.

(** [strings.Contains]. *)
Definition Contains (s sub : string) : bool := match String.index 0 sub s with Some _ => true | None => false end.

Section ops.
Context `{SQLLiterals} {O Observed Referenced : Type} `{!OrdinalExposure O Observed Referenced}.
Context (sameJSON : bytes -> bytes -> bool).
Implicit Types s : Store O.

(** ** Reserving *)
Definition find_request s (taskID requestID : string) : option QueryRecord :=
  head (filter (fun r => qTaskID r = taskID /\ qRequestID r = requestID) (map_to_list (queries s)).*2).

Definition incomplete_request (rq : ReserveRequest) : bool :=
  same (rqQueryID rq) "" || same (rqTaskID rq) "" || same (rqRequestID rq) "" || same (rqActor rq) "" ||
  same (rqRequestDigest rq) "" || same (rqSQLFingerprint rq) "" || same (rqDatasourceID rq) "" ||
  negb (validSHA256Hex (rqCatalogDigest rq)) || negb (validSHA256Hex (rqSchemaDigest rq)) ||
  (given (rqViewBindingDigest rq) && negb (validSHA256Hex (rqViewBindingDigest rq))) ||
  negb (validSHA256Hex (rqManifestDigest rq)) || negb (validSHA256Hex (rqGrantDigest rq)) || same (rqPolicyDecision rq) "".

Definition negative_request (rq : ReserveRequest) : bool :=
  (rqRows rq <? 0) || (rqDBMS rq <? 0) ||
  match rqExposure rq with
  | Some x => (ReleaseFacts (xEstimated x) <? 0) || (InfluenceFacts (xEstimated x) <? 0) || (OutcomeFacts (xEstimated x) <? 0)
  | None => false
  end.

(** Commit, then fail. *)
Definition archive_and_fail {A} s (op taskID reason : string) (now : Z) (kind : goerror) : result (Store O * result A) :=
  s ← wrap op ErrConflict (archiveTaskTx s taskID reason "system" now);
  Ok (s, Err (opErr op kind None)).

(** What is allowed of a requested amount: all that remains if it is zero or more than remains. *)
Definition allowed (requested remaining : Z) : Z := if (requested =? 0) || (remaining <? requested) then remaining else requested.

Definition check_view_binding s (op : string) (grant : GrantRow) (rq : ReserveRequest) : result unit :=
  let bound := gViewBindingDigest grant in
  let '(status, statusBound) := match view_status s !! rqTaskID rq with
                                | Some v => (vStatus v, vBoundDigest v) | None => ("", "") end in
  if same bound ""
  then fail_if (given (rqViewBindingDigest rq) || given status || given statusBound)
         (opErr op ErrViewSemanticChanged (Some (ErrNew "legacy grant has inconsistent view binding evidence")))
  else fail_if (negb (same (rqViewBindingDigest rq) bound) || negb (same statusBound bound) || negb (same status TaskViewBindingActive))
         (opErr op ErrViewSemanticChanged (Some (ErrNew "task view binding requires rebind"))).

Definition reserved_record (rq : ReserveRequest) (catalogVersion : string) (rows dbms : Z) (before : BudgetSnapshot) (now : Z) : QueryRecord :=
  MkQuery (rqQueryID rq) (rqTaskID rq) (rqRequestID rq) (rqActor rq) (rqRequestDigest rq) (rqSQLFingerprint rq) catalogVersion
    (rqCatalogDigest rq) (rqDatasourceID rq) (rqSchemaDigest rq) (rqViewBindingDigest rq) (rqManifestDigest rq) (rqGrantDigest rq)
    (rqPolicyDecision rq) QueryReserved rows dbms 0 0 0 0 0 0 before None "" "" now None.

Definition reserved_budget (b : BudgetSnapshot) (rows dbms now : Z) : BudgetSnapshot :=
  let u := Usage b in
  MkBudget (bTaskID b) (Limits b)
    (MkUsage (UsedQueries u) (UsedRows u) (UsedDBMS u) (ReservedQueries u + 1) (ReservedRows u + rows) (ReservedDBMS u + dbms)) now.

(** The rest of the transaction, for an active task and a new request. *)
Definition reserve_active s (op : string) (now : Z) (task : Task) (rq : ReserveRequest) : result (Store O * result BudgetReservation) :=
  let taskID := rqTaskID rq in
  fail_if (given (rqCatalogVersion rq) && negb (same (rqCatalogVersion rq) (tCatalogVersion task)))
    (opErr op ErrConflict (Some (ErrNew "catalog version mismatch"))) ≫= fun _ =>
  grant ← map_err (fun e => opErr op ErrNotFound (Some (ErrCtx "grant view binding" e))) (select (grants s !! taskID));
  check_view_binding s op grant rq ≫= fun _ =>
  before ← map_err (fun e => opErr op ErrNotFound (Some (ErrCtx "grant budget" e))) (select (budgets s !! taskID));
  fail_if (negb (ReservedQueries (Usage before) =? 0)) (opErr op ErrQueryInProgress None) ≫= fun _ =>
  let remaining := Remaining before in
  if (Queries remaining <? 1) || (Rows remaining <? 1) || (DBMS remaining <? 1)
  then archive_and_fail s op taskID TerminalBudgetExhausted now ErrBudgetExhausted
  else
    let rows := allowed (rqRows rq) (Rows remaining) in
    let dbms := allowed (rqDBMS rq) (DBMS remaining) in
    let after := reserved_budget before rows dbms now in
    let record := reserved_record rq (tCatalogVersion task) rows dbms before now in
    let s := with_budgets s (<[taskID := after]> (budgets s)) in
    queries' ← wrap op ErrConflict (insert_new (queries s) (rqQueryID rq) record);
    s ← map_err (fun e => opErr op (if errors_is e ErrExposureEvidenceRequired then ErrExposureEvidenceRequired else ErrConflict) (Some e))
          (reserveExposureTx (with_queries s queries') (rqQueryID rq) taskID (rqExposure rq) now);
    s ← wrap op ErrConflict (appendAuditTx s taskID (rqQueryID rq) (rqActor rq) "QUERY_BUDGET_RESERVED" now);
    Ok (s, Ok (MkBudgetReservation (rqQueryID rq) taskID (rqRequestID rq) rows dbms before (Some after) false None)).

(** [clock 0] is read for the expiry check, [clock 1] after it. *)
Definition reserveTx s (clock : nat -> Z) (rq : ReserveRequest) : result (Store O * result BudgetReservation) :=
  let op := "reserve budget" in
  fail_if (incomplete_request rq) (invalid op "query, task, request, policy, and datasource evidence are required") ≫= fun _ =>
  fail_if (negative_request rq) (invalid op "requested budget cannot be negative") ≫= fun _ =>
  task ← find_row op (tasks s !! rqTaskID rq);
  match find_request s (rqTaskID rq) (rqRequestID rq) with
  | Some existing =>
      fail_if (negb (same (qRequestDigest existing) (rqRequestDigest rq)) || negb (same (qActor existing) (rqActor rq)) ||
               negb (same (qViewBindingDigest existing) (rqViewBindingDigest rq)))
        (opErr op ErrIdempotencyConflict (Some (ErrNew "request id is bound to another digest"))) ≫= fun _ =>
      Ok (s, Ok (MkBudgetReservation (qID existing) (qTaskID existing) (qRequestID existing) (qReservedRows existing)
                  (qReservedDBMS existing) (qBudgetBefore existing) None true (Some existing)))
  | None =>
      fail_if (negb (same (tState task) TaskActive)) (opErr op ErrTaskNotActive (Some (ErrNew "state is %s"))) ≫= fun _ =>
      match tExpiresAt task with
      | Some expiresAt =>
          if negb (clock 0%nat <? expiresAt)
          then archive_and_fail s op (rqTaskID rq) TerminalExpired (clock 1%nat) ErrTaskExpired
          else reserve_active s op (clock 1%nat) task rq
      | None => reserve_active s op (clock 1%nat) task rq
      end
  end.

(** A transaction seen from outside: an [Err] leaves the store as it was. *)
Definition commit {A} s (tx : result (Store O * result A)) : Store O * result A :=
  match tx with Ok r => r | Err e => (s, Err e) end.

Definition ReserveBudget s (clock : nat -> Z) (rq : ReserveRequest) : Store O * result BudgetReservation :=
  commit s (reserveTx s clock rq).

(** ** Settling *)
Definition settlementErrorKind (err : goerror) : goerror :=
  if errors_is err ErrNoRows || Contains (error_text err) "reservation not found" then ErrReservationNotFound
  else if Contains (error_text err) "invalid settlement" then ErrInvalid
  else if errors_is err ErrExposureBudgetExhausted then ErrExposureBudgetExhausted
  else if errors_is err ErrExposureEvidenceRequired then ErrExposureEvidenceRequired
  else ErrConflict.

Definition charged_status (status : string) : bool := in_list status [QueryCompleted; QueryFailed; QueryIndeterminate].

Definition budgetSettlementReachesHardLimit (status : string) (after : BudgetSnapshot) : bool :=
  charged_status status &&
  ((Queries (Limits after) <=? UsedQueries (Usage after)) || (Rows (Limits after) <=? UsedRows (Usage after)) ||
   (DBMS (Limits after) <=? UsedDBMS (Usage after))).

Definition notBefore (value lowerBound : Z) : Z := if value <? lowerBound then lowerBound else value.

Definition terminal_events : list string :=
  ["QUERY_COMPLETED"; "QUERY_BUDGET_RELEASED"; "QUERY_FAILED"; "QUERY_INDETERMINATE"; "QUERY_INTERRUPTED"].

Definition terminalAuditForQueryTx s (queryID : string) : result AuditEvent :=
  select (last (filter (fun e => aQueryID e = queryID /\ aEventType e ∈ terminal_events) (audit s))).

Definition event_type (status : string) : string :=
  if same status QueryCompleted then "QUERY_COMPLETED"
  else if same status QueryFailed then "QUERY_FAILED"
  else if same status QueryIndeterminate then "QUERY_INDETERMINATE"
  else "QUERY_BUDGET_RELEASED".

(** The ledger row after the reservation is undone and the use charged. *)
Definition settled_budget (b : BudgetSnapshot) (r : QueryRecord) (queries rows dbms now : Z) : BudgetSnapshot :=
  let u := Usage b in
  MkBudget (bTaskID b) (Limits b)
    (MkUsage (UsedQueries u + queries) (UsedRows u + rows) (UsedDBMS u + dbms)
       (ReservedQueries u - 1) (ReservedRows u - qReservedRows r) (ReservedDBMS u - qReservedDBMS r)) now.

Definition settled_record (r : QueryRecord) (status : string) (rows dbms observed queries chargedRows chargedDBMS : Z)
    (after : BudgetSnapshot) (resultHash errorCode : string) (now : Z) : QueryRecord :=
  MkQuery (qID r) (qTaskID r) (qRequestID r) (qActor r) (qRequestDigest r) (qSQLFingerprint r) (qCatalogVersion r)
    (qCatalogDigest r) (qDatasourceID r) (qSchemaDigest r) (qViewBindingDigest r) (qManifestDigest r) (qGrantDigest r)
    (qPolicyDecision r) status (qReservedRows r) (qReservedDBMS r) rows dbms observed queries chargedRows chargedDBMS
    (qBudgetBefore r) (Some after) resultHash errorCode (qCreatedAt r) (Some now).

Definition over_reserved (b : BudgetSnapshot) (r : QueryRecord) : bool :=
  (ReservedQueries (Usage b) <? 1) || (ReservedRows (Usage b) <? qReservedRows r) || (ReservedDBMS (Usage b) <? qReservedDBMS r).
Definition over_limit (b : BudgetSnapshot) : bool :=
  (Queries (Limits b) <? UsedQueries (Usage b)) || (Rows (Limits b) <? UsedRows (Usage b)) || (DBMS (Limits b) <? UsedDBMS (Usage b)).

Abbreviation Settlement := (BudgetSettlement Observed Referenced).

Definition settleBudgetTx s (now : Z) (settlement : Settlement) (status resultHash : string) (deferBudgetArchive : bool) :
    result (Store O * QueryRecord) :=
  let queryID := seQueryID settlement in
  record ← map_err (ErrCtx "reservation not found") (select (queries s !! queryID));
  if negb (same (qStatus record) QueryReserved) then
    if same (qStatus record) status
    then _ ← terminalAuditForQueryTx s (qID record); Ok (s, record)
    else Err (ErrNew "reservation not found: query is %s")
  else
    let now := notBefore now (qCreatedAt record) in
    fail_if (negb (in_list status [QueryCompleted; QueryReleased; QueryFailed; QueryIndeterminate]))
      (ErrNew "invalid settlement status %q") ≫= fun _ =>
    budget ← select (budgets s !! qTaskID record);
    fail_if (over_reserved budget record) (ErrNew "reservation ledger is inconsistent") ≫= fun _ =>
    fail_if (qReservedRows record <? seRows settlement)
      (ErrNew "invalid settlement: result rows %d exceed reserved rows %d") ≫= fun _ =>
    let '(chargedQueries, chargedRows, chargedDBMS) :=
      if charged_status status then (1, seRows settlement, Z.min (seDBMS settlement) (qReservedDBMS record)) else (0, 0, 0) in
    let observedDBMS := if (seObservedDBMS settlement =? 0) && (0 <? seDBMS settlement) then seDBMS settlement else seObservedDBMS settlement in
    let after := settled_budget budget record chargedQueries chargedRows chargedDBMS now in
    fail_if (over_limit after) (ErrNew "invalid settlement would exceed hard budget") ≫= fun _ =>
    let record' := settled_record record status (seRows settlement) (seDBMS settlement) observedDBMS chargedQueries chargedRows
                     chargedDBMS after resultHash (seErrorCode settlement) now in
    let s := with_queries (with_budgets s (<[qTaskID record := after]> (budgets s))) (<[queryID := record']> (queries s)) in
    s ← appendAuditTx s (qTaskID record) (qID record) (qActor record) (event_type status) now;
    s ← (if negb deferBudgetArchive && budgetSettlementReachesHardLimit status after
         then archiveTaskTx s (qTaskID record) TerminalBudgetExhausted "system" now else Ok s);
    Ok (s, record').

(** [settleWithReceipt] without a receipt builder. *)
Definition settle s (now : Z) (settlement : Settlement) (status : string) : result (Store O * QueryRecord) :=
  let op := "settle budget" in
  let failed {A} := map_err (A := A) (fun e => opErr op (settlementErrorKind e) (Some e)) in
  fail_if (same (seQueryID settlement) "" || (seRows settlement <? 0) || (seDBMS settlement <? 0) || (seObservedDBMS settlement <? 0))
    (invalid op "query is required and use cannot be negative") ≫= fun _ =>
  fail_if (seMaterialization settlement) (invalid op "ordinal materialization requires FinalizeOrdinalQueryWithReceipt") ≫= fun _ =>
  s ← failed (if same status QueryCompleted
              then '(s, _) ← settleAnyExposureMeasuredTx sameJSON s now (seQueryID settlement) (seEvidence settlement); Ok s
              else releaseAnyExposureReservationTx s now (seQueryID settlement));
  failed (settleBudgetTx s now settlement status "" false).

Definition no_evidence : @ExposureEvidence Observed Referenced := MkEvidence None None None.

Definition SettleBudget s (now : Z) (settlement : Settlement) := settle s now settlement QueryCompleted.
Definition FailBudget s (now : Z) (settlement : Settlement) := settle s now settlement QueryFailed.
Definition ReleaseBudget s (now : Z) (queryID errorCode : string) :=
  settle s now (MkSettlement _ _ queryID 0 0 0 errorCode no_evidence false) QueryReleased.
Definition MarkIndeterminate s (now : Z) (queryID errorCode : string) : result (Store O * QueryRecord) :=
  record ← find_row "get query" (queries s !! queryID);
  settle s now (MkSettlement _ _ queryID (qReservedRows record) (qReservedDBMS record) (qReservedDBMS record) errorCode no_evidence false)
    QueryIndeterminate.

(** ** Recovery after a restart *)
Definition interrupted s : list QueryRecord :=
  omap (fun key : Z * string => queries s !! key.2)
    (go_sort (omap (fun kv : string * QueryRecord => if same (qStatus kv.2) QueryReserved then Some (qCreatedAt kv.2, kv.1) else None)
       (map_to_list (queries s)))).

Definition recover_one (now : Z) s (r : QueryRecord) : result (Store O) :=
  s ← releaseAnyExposureReservationTx s now (qID r);
  before ← select (budgets s !! qTaskID r);
  fail_if (over_reserved before r) (ErrNew "reservation ledger is inconsistent for query %s") ≫= fun _ =>
  let after := settled_budget before r 1 (qReservedRows r) (qReservedDBMS r) now in
  fail_if (over_limit after) (ErrNew "recovered reservation would exceed hard budget for query %s") ≫= fun _ =>
  record ← select (queries s !! qID r);
  fail_if (negb (same (qStatus record) QueryReserved)) (ErrNew "reservation changed during recovery for query %s") ≫= fun _ =>
  let record' := settled_record record QueryIndeterminate (qReservedRows r) (qReservedDBMS r) (qReservedDBMS r) 1 (qReservedRows r)
                   (qReservedDBMS r) after "" "GATEWAY_RESTART" now in
  let s := with_queries (with_budgets s (<[qTaskID r := after]> (budgets s))) (<[qID r := record']> (queries s)) in
  s ← appendAuditTx s (qTaskID r) (qID r) (qActor r) "QUERY_INDETERMINATE" now;
  if budgetSettlementReachesHardLimit QueryIndeterminate after
  then archiveTaskTx s (qTaskID r) TerminalBudgetExhausted "system" now else Ok s.

Definition expired_tasks s (now : Z) : list string :=
  go_sort (omap (fun kv : string * Task =>
    match tExpiresAt kv.2 with
    | Some e => if negb (same (tState kv.2) TaskArchived) && (e <=? now) then Some kv.1 else None
    | None => None
    end) (map_to_list (tasks s))).

Definition processing (row : CallbackRow) : bool := same (cbStatus row) CallbackProcessing.
Definition retry_callback (row : CallbackRow) : CallbackRow :=
  if processing row
  then MkCallback (cbPayloadSHA256 row) CallbackRetryable (cbResponse row) "gateway_restart" (cbClaimedAt row) None
  else row.

Definition Recover s (now : Z) : result (Store O * RecoveryReport) :=
  wrap "recover store" ErrConflict (
    let queries' := interrupted s in
    s ← fold_res (recover_one now) s queries';
    let expiring := expired_tasks s now in
    s ← fold_res (fun s task => archiveTaskTx s task TerminalExpired "system" now) s expiring;
    let retryable := count_if (fun kv => processing kv.2) (callbacks s) in
    let s := with_callbacks s (retry_callback <$> callbacks s) in
    s ← (if 0 <? retryable then appendAuditTx s "" "" "system" "CALLBACKS_RECOVERED" now else Ok s);
    Ok (s, MkReport (Z.of_nat (length queries')) (Z.of_nat (length expiring)) retryable)).
End ops.
End BudgetLedger.
