(* ===== verification/BudgetInvariant.v ===== *)
(** * The budget ledger's invariant

    Every operation of the Control store keeps each task's budget within its
    limits, equal to what its queries hold and were charged, and every query
    record final once it is settled. *)

From S2P Require Import Prelude GoBytes Ordering GoText Sha256 ViewBinding FactId FactSet LedgerStore ExposureLedger ControlTasks Callbacks BudgetLedger.
Import FactId FactSet Store ExposureLedger ControlTasks Callbacks BudgetLedger.

Module BudgetInvariant.

(** ** The three dimensions of a budget *)
Inductive dim := DQueries | DRows | DDBMS.
Definition limit_d (d : dim) (l : BudgetLimits) : Z :=
  match d with DQueries => Queries l | DRows => Rows l | DDBMS => DBMS l end.
Definition used_d (d : dim) (b : BudgetSnapshot) : Z :=
  match d with DQueries => UsedQueries (Usage b) | DRows => UsedRows (Usage b) | DDBMS => UsedDBMS (Usage b) end.
Definition held_d (d : dim) (b : BudgetSnapshot) : Z :=
  match d with DQueries => ReservedQueries (Usage b) | DRows => ReservedRows (Usage b) | DDBMS => ReservedDBMS (Usage b) end.
Definition hold_of (d : dim) (r : QueryRecord) : Z :=
  match d with DQueries => 1 | DRows => qReservedRows r | DDBMS => qReservedDBMS r end.
Definition charge_of (d : dim) (r : QueryRecord) : Z :=
  match d with DQueries => qChargedQueries r | DRows => qChargedRows r | DDBMS => qChargedDBMS r end.

(** What a record holds of, and was charged to, a task's budget. *)
Definition holds (d : dim) (task : string) (r : QueryRecord) : Z :=
  if decide (qTaskID r = task /\ qStatus r = QueryReserved) then hold_of d r else 0.
Definition charges (d : dim) (task : string) (r : QueryRecord) : Z :=
  if decide (qTaskID r = task) then charge_of d r else 0.

Section inv.
Context {O : Type}.
Implicit Types s : Store O.

(** A record is well formed: holds are not negative, charges at most the holds,
    nothing is charged before settlement or on release, and a settled record has
    its audit event. *)
Record record_ok s (q : string) (r : QueryRecord) : Prop := {
  ro_id : qID r = q;
  ro_named : q <> "" /\ blank (qActor r) = false;
  ro_budget : is_Some (budgets s !! qTaskID r);
  ro_holds d : 0 <= hold_of d r;
  ro_charges d : 0 <= charge_of d r <= hold_of d r;
  ro_open d : qStatus r = QueryReserved \/ qStatus r = QueryReleased -> charge_of d r = 0;
  ro_status : qStatus r ∈ [QueryReserved; QueryCompleted; QueryReleased; QueryFailed; QueryIndeterminate];
  ro_audit : qStatus r <> QueryReserved -> exists e, e ∈ audit s /\ aQueryID e = q /\ aEventType e = event_type (qStatus r);
}.

(** A budget row is exactly its task's records, and within its limits. *)
Definition budget_ok s (task : string) (b : BudgetSnapshot) : Prop := bTaskID b = task /\ forall d,
  0 <= used_d d b /\ 0 <= held_d d b /\ used_d d b + held_d d b <= limit_d d (Limits b) /\
  held_d d b = msum (holds d task) (queries s) /\ used_d d b = msum (charges d task) (queries s).

Record budget_inv s : Prop := {
  bi_budget task b : budgets s !! task = Some b -> budget_ok s task b;
  bi_record q r : queries s !! q = Some r -> record_ok s q r;
  bi_request q r q' r' : queries s !! q = Some r -> queries s !! q' = Some r' ->
    qTaskID r = qTaskID r' -> qRequestID r = qRequestID r' -> q = q';
}.

Lemma record_ok_later s s' q r : audit s `prefix_of` audit s' -> (forall t, is_Some (budgets s !! t) -> is_Some (budgets s' !! t)) ->
  record_ok s q r -> record_ok s' q r.
Proof.
  intros [x Hx] Hb [? ? ? ? ? ? ? Ha]. split; try done; [by apply Hb|]. intros Hst. destruct (Ha Hst) as (e & He & ?).
  exists e. rewrite Hx. split; [apply elem_of_app; by left|done].
Qed.

(** What does not touch budgets or queries keeps the invariant. *)
Lemma budget_inv_frame s s' : budgets s' = budgets s -> queries s' = queries s -> audit s `prefix_of` audit s' ->
  budget_inv s -> budget_inv s'.
Proof.
  intros Eb Eq Ha [I1 I2 I3]. split; rewrite ?Eb, ?Eq.
  - intros task b Hb. unfold budget_ok. rewrite Eq. by apply I1.
  - intros q r Hr. apply (record_ok_later s); [done|by rewrite Eb|by apply I2].
  - done.
Qed.

(** A new budget row of a task without queries. *)
Lemma budget_inv_new s task b : budgets s !! task = None -> bTaskID b = task -> Usage b = MkUsage 0 0 0 0 0 0 ->
  (forall d, 0 <= limit_d d (Limits b)) -> budget_inv s -> budget_inv (with_budgets s (<[task := b]> (budgets s))).
Proof.
  intros Hn Ht Hu Hl I. assert (Hno : forall q r, queries s !! q = Some r -> qTaskID r <> task).
  { intros q r Hr E. destruct (ro_budget _ _ _ (bi_record s I q r Hr)) as [b' Hb]. congruence. }
  split; cbn [budgets queries with_budgets].
  - intros t' b'. rewrite lookup_insert_Some. intros [[<- <-]|[Hne Hb]]; [|by apply (bi_budget s I)].
    split; [done|]. intros d. pose proof (Hl d). cbn [queries with_budgets]. rewrite !msum_zero.
    + unfold used_d, held_d. rewrite Hu. destruct d; cbn in *; lia.
    + intros q r Hr. unfold charges. rewrite decide_False; [done|by eauto].
    + intros q r Hr. unfold holds. rewrite decide_False; [done|]. intros [E _]. by eapply Hno.
  - intros q r Hr. apply (record_ok_later s); [done| |by apply (bi_record s I)]. cbn. intros t [b' Hb].
    destruct (decide (t = task)) as [->|]; [rewrite lookup_insert_eq; eauto|rewrite lookup_insert_ne by done; eauto].
  - apply (bi_request s I).
Qed.

(** The common step: a record of a task is added or replaced and the task's row
    moves by what the record now holds and is charged. *)
Lemma budget_inv_move s s' q r b b' :
  budget_inv s -> budgets s !! qTaskID r = Some b ->
  budgets s' = <[qTaskID r := b']> (budgets s) -> queries s' = <[q := r]> (queries s) -> audit s `prefix_of` audit s' ->
  Limits b' = Limits b -> bTaskID b' = bTaskID b -> record_ok s' q r ->
  (match queries s !! q with
   | Some old => qTaskID old = qTaskID r /\ qRequestID old = qRequestID r
   | None => forall q' r', queries s !! q' = Some r' -> qTaskID r' = qTaskID r -> qRequestID r' <> qRequestID r
   end) ->
  (forall d, held_d d b' = held_d d b - from_option (holds d (qTaskID r)) 0 (queries s !! q) + holds d (qTaskID r) r /\
             used_d d b' = used_d d b - from_option (charges d (qTaskID r)) 0 (queries s !! q) + charges d (qTaskID r) r /\
             0 <= used_d d b' /\ 0 <= held_d d b' /\ used_d d b' + held_d d b' <= limit_d d (Limits b)) ->
  budget_inv s'.
Proof.
  intros I Hb Eb Eq Ha Hl Ht Hr Hold Hd. split; rewrite ?Eb, ?Eq.
  - intros t c. rewrite lookup_insert_Some. intros [[<- <-]|[Hne Hc]].
    + destruct (bi_budget s I _ _ Hb) as [Hid Hsum]. split; [congruence|]. intros d. rewrite Eq, !msum_set, Hl.
      destruct (Hsum d) as (_ & _ & _ & <- & <-). destruct (Hd d) as (-> & -> & ? & ? & ?). auto with lia.
    + destruct (bi_budget s I _ _ Hc) as [Hid Hsum]. split; [done|]. intros d. rewrite Eq, !msum_set.
      destruct (Hsum d) as (? & ? & ? & <- & <-). do 3 (split; [done|]).
      assert (Hz : holds d t r = 0 /\ charges d t r = 0).
      { unfold holds, charges. rewrite !decide_False by naive_solver. done. }
      assert (Hz' : from_option (holds d t) 0 (queries s !! q) = 0 /\ from_option (charges d t) 0 (queries s !! q) = 0).
      { destruct (queries s !! q) as [old|]; [|done]. destruct Hold as [Eo _]. cbn. unfold holds, charges.
        rewrite !decide_False by (rewrite ?Eo; naive_solver). done. }
      destruct Hz as [-> ->], Hz' as [-> ->]. lia.
  - intros q' r'. rewrite lookup_insert_Some. intros [[<- <-]|[Hne Hr']]; [done|].
    apply (record_ok_later s); [done| |by apply (bi_record s I)]. rewrite Eb. intros t [c Hc].
    destruct (decide (t = qTaskID r)) as [->|]; [rewrite lookup_insert_eq; eauto|rewrite lookup_insert_ne by done; eauto].
  - assert (Hnew : forall q' r', queries s !! q' = Some r' -> q' <> q -> qTaskID r' = qTaskID r -> qRequestID r' <> qRequestID r).
    { intros q' r' Hq' Hne Et. destruct (queries s !! q) as [old|] eqn:Eo; [|by eapply Hold].
      destruct Hold as [Eot <-]. intros Er. apply Hne. eapply (bi_request s I); eauto; congruence. }
    intros q1 r1 q2 r2. rewrite !lookup_insert_Some. intros [[<- <-]|[N1 H1]] [[<- <-]|[N2 H2]] Et Er; [done|..].
    + exfalso. by eapply (Hnew q2 r2).
    + exfalso. by eapply (Hnew q1 r1).
    + by eapply (bi_request s I).
Qed.
End inv.

(** ** What never changes back *)
Definition same_request (r r' : QueryRecord) : Prop :=
  qID r' = qID r /\ qTaskID r' = qTaskID r /\ qRequestID r' = qRequestID r /\ qActor r' = qActor r /\
  qRequestDigest r' = qRequestDigest r /\ qViewBindingDigest r' = qViewBindingDigest r /\
  qReservedRows r' = qReservedRows r /\ qReservedDBMS r' = qReservedDBMS r /\ qBudgetBefore r' = qBudgetBefore r.
Definition record_le (r r' : QueryRecord) : Prop := same_request r r' /\ (qStatus r <> QueryReserved -> r' = r).
Definition task_le (t t' : Task) : Prop :=
  tRootTaskID t' = tRootTaskID t /\ tParentTaskID t' = tParentTaskID t /\ tCatalogVersion t' = tCatalogVersion t /\
  (tState t = TaskArchived -> t' = t).
Definition callback_le (c c' : CallbackRow) : Prop :=
  cbPayloadSHA256 c' = cbPayloadSHA256 c /\ (cbStatus c = CallbackCompleted -> c' = c).
Definition view_le (v v' : ViewBindingStatus) : Prop :=
  vBoundDigest v' = vBoundDigest v /\ (vStatus v = TaskViewBindingRequireRebind -> v' = v).

#[export] Instance record_le_preorder : PreOrder record_le.
Proof.
  split; [by intros r|]. intros r1 r2 r3 [S1 K1] [S2 K2]. unfold same_request in *. destruct_and! S1. destruct_and! S2.
  split; [repeat split; congruence|]. intros Hst. rewrite (K1 Hst) in K2. rewrite (K2 Hst). auto.
Qed.
#[export] Instance task_le_preorder : PreOrder task_le.
Proof.
  split; [by intros t|]. intros t1 t2 t3 (A1 & B1 & C1 & K1) (A2 & B2 & C2 & K2).
  do 3 (split; [congruence|]). intros Hst. rewrite (K1 Hst) in K2. rewrite (K2 Hst). auto.
Qed.
#[export] Instance callback_le_preorder : PreOrder callback_le.
Proof.
  split; [by intros c|]. intros c1 c2 c3 [A1 K1] [A2 K2]. split; [congruence|].
  intros Hst. rewrite (K1 Hst) in K2. rewrite (K2 Hst). auto.
Qed.
#[export] Instance view_le_preorder : PreOrder view_le.
Proof.
  split; [by intros v|]. intros v1 v2 v3 [A1 K1] [A2 K2]. split; [congruence|].
  intros Hst. rewrite (K1 Hst) in K2. rewrite (K2 Hst). auto.
Qed.

(** [s'] can follow [s]: requests keep their identity and settled records,
    archived tasks, completed callbacks, changed views and grants are final. *)
Record later {O} (s s' : Store O) : Prop := {
  lt_record : table_le record_le (queries s) (queries s');
  lt_task : table_le task_le (tasks s) (tasks s');
  lt_callback : table_le callback_le (callbacks s) (callbacks s');
  lt_view : table_le view_le (view_status s) (view_status s');
  lt_grant : table_le eq (grants s) (grants s');
  lt_audit : audit s `prefix_of` audit s';
}.

#[export] Instance later_preorder {O} : PreOrder (@later O).
Proof. split; [by intros s|]. intros s1 s2 s3 [] []. split; by etrans. Qed.

Lemma resource_later {O} (s s' : Store O) : resource_frame s s' -> later s s'.
Proof. intros (Et & _ & Eq & Eg & Ev & _ & Ec & _ & _ & _ & Ha). split; rewrite ?Et, ?Eq, ?Eg, ?Ev, ?Ec; done. Qed.

(** ** The link between queries and their exposure reservations *)
Definition exposure_status (status : string) : string :=
  if same status QueryReserved then exposureReserved
  else if same status QueryCompleted then exposureSettled else exposureReleased.

Section control.
Context `{SQLLiterals} {O Observed Referenced : Type} `{!OrdinalExposure O Observed Referenced} `{!OrdinalLaws O Observed Referenced}.
Context (sameJSON : bytes -> bytes -> bool).
Implicit Types s : Store O.

Record link_inv s : Prop := {
  li_row q x : reservations s !! q = Some x -> plain_query s q /\
    exists r, queries s !! q = Some r /\ qTaskID r = rTaskID x /\ rStatus x = exposure_status (qStatus r);
  li_ord v q status : ord_status v (ordinal s) q = Some status ->
    exists r, queries s !! q = Some r /\ (qStatus r = QueryReserved -> status = exposureReserved);
}.

Record control_inv s : Prop := {
  ci_budget : budget_inv s; ci_exposure : exposure_inv s; ci_link : link_inv s }.

(** What a step of the store does. *)
Definition good_step s s' : Prop := (control_inv s -> control_inv s') /\ later s s'.

#[export] Instance good_step_preorder : PreOrder good_step.
Proof. split; [by intros s|]. intros s1 s2 s3 [I1 L1] [I2 L2]. split; [auto|by etrans]. Qed.

Lemma link_frame s s' : reservations s' = reservations s -> queries s' = queries s -> same_statuses s s' -> link_inv s -> link_inv s'.
Proof.
  intros Er Eq Ho [I1 I2]. pose proof (same_statuses_ordinals s s' Ho) as Hh. split; rewrite ?Er, ?Eq.
  - intros q x Hx. destruct (I1 q x Hx) as [Hp ?]. split; [intros v; by rewrite Hh|done].
  - intros v q status. rewrite Ho. apply I2.
Qed.

(** Steps that leave the ledgers alone. *)
Definition ledger_tables s s' : Prop :=
  budgets s' = budgets s /\ queries s' = queries s /\ ledgers s' = ledgers s /\ reservations s' = reservations s /\
  facts s' = facts s /\ ordinal s' = ordinal s.

Lemma good_tables s s' : ledger_tables s s' -> later s s' -> good_step s s'.
Proof.
  intros (Eb & Eq & El & Er & Ef & Eo) L. split; [|done]. intros [I1 I2 I3]. split.
  - apply (budget_inv_frame s); [done..|apply L|done].
  - by apply (exposure_inv_frame s).
  - apply (link_frame s); [done..| |done]. intros v q. by rewrite Eo.
Qed.

Lemma good_audit s s' task query actor kind at_ : appendAuditTx s task query actor kind at_ = Ok s' -> good_step s s'.
Proof.
  intros E. pose proof (appendAudit_resource _ _ _ _ _ _ _ E) as R. pose proof E as ((Eb & Eq & El & Er & Ef & _) & Et & Eo)%appendAudit_frame.
  apply good_tables; [done|by apply resource_later].
Qed.

Lemma good_archive s s' task reason actor now : archiveTaskTx s task reason actor now = Ok s' -> good_step s s'.
Proof.
  unfold archiveTaskTx. destruct (tasks s !! task) as [t|] eqn:Et; [|by intros E%Ok_inj; subst].
  case_bool_decide as Hst; [by intros E%Ok_inj; subst|]. intros E%good_audit.
  etrans; [|exact E]. apply good_tables; [done|]. split; try done. cbn [tasks with_tasks].
  apply (table_le_insert task_le). rewrite Et. intros old [= <-]. by split.
Qed.

(** ** Closing a query *)
(** What closing the record of [q] does to the store, the exposure ledger apart. *)
Record closes s (q : string) (status : string) s' : Prop := {
  cl_record : exists r r', queries s !! q = Some r /\ qStatus r = QueryReserved /\ queries s' = <[q := r']> (queries s) /\
    qStatus r' = status /\ same_request r r';
  cl_final : status <> QueryReserved;
  cl_budget : budget_inv s -> budget_inv s';
  cl_later : later s s';
  cl_exposure : ledgers s' = ledgers s /\ reservations s' = reservations s /\ facts s' = facts s /\ ordinal s' = ordinal s;
}.

Lemma close_query s q r b status rows dbms observed cq cr cd hash err now s' reason :
  queries s !! q = Some r -> qStatus r = QueryReserved -> budgets s !! qTaskID r = Some b ->
  status ∈ [QueryCompleted; QueryReleased; QueryFailed; QueryIndeterminate] ->
  (budget_inv s -> forall d, let c := match d with DQueries => cq | DRows => cr | DDBMS => cd end in
    0 <= c /\ (c <= hold_of d r) /\ (status = QueryReleased -> c = 0)) ->
  let after := settled_budget b r cq cr cd now in
  let r' := settled_record r status rows dbms observed cq cr cd after hash err now in
  (s1 ← appendAuditTx (with_queries (with_budgets s (<[qTaskID r := after]> (budgets s))) (<[q := r']> (queries s)))
     (qTaskID r) (qID r) (qActor r) (event_type status) now;
   match reason with Some reason => archiveTaskTx s1 (qTaskID r) reason "system" now | None => Ok s1 end) = Ok s' ->
  closes s q status s'.
Proof.
  intros Hr Hst Hb Hs Hc after r' E. apply bind_ok in E as (s1 & Ea & E).
  set (s0 := with_queries _ _) in Ea.
  assert (A01 : audit s1 = audit s ++ [MkAudit (Z.of_nat (length (audit s)) + 1) (qTaskID r) (qID r) (qActor r) (event_type status) now]).
  { unfold appendAuditTx in Ea. apply fail_if_bind_ok in Ea as [_ Ea]. by apply Ok_inj in Ea as <-. }
  pose proof Ea as ((Eb1 & Eq1 & El1 & Er1 & Ef1 & _) & Et1 & Eo1)%appendAudit_frame.
  pose proof (appendAudit_resource _ _ _ _ _ _ _ Ea) as R1.
  assert (Hsame : same_request r r') by done.
  assert (Hstatus : status <> QueryReserved).
  { intros ->. revert Hs. rewrite !elem_of_cons. intros [?|[?|[?|[?|?%elem_of_nil]]]]; done. }
  assert (L01 : later s s1).
  { etrans; [|apply resource_later, R1]. split; try reflexivity. cbn [queries s0 with_queries with_budgets].
    apply (table_le_insert record_le). intros old Hold. rewrite Hr in Hold. injection Hold as <-. split; [done|]. intros H'. by rewrite Hst in H'. }
  assert (E1 : budgets s' = budgets s1 /\ queries s' = queries s1 /\ ledgers s' = ledgers s1 /\ reservations s' = reservations s1 /\
    facts s' = facts s1 /\ ordinal s' = ordinal s1 /\ later s1 s').
  { destruct reason as [reason|]; [|by apply Ok_inj in E as <-]. pose proof (good_archive _ _ _ _ _ _ E) as [_ L].
    apply archiveTask_frame in E as ((? & ? & ? & ? & ? & _) & ?). auto 10. }
  destruct E1 as (Eb & Eq & El & Er & Ef & Eo & L1). cbn [s0 budgets queries with_queries with_budgets] in Eb1, Eq1.
  split.
  - exists r, r'. rewrite Eq, Eq1. auto.
  - done.
  - intros I. specialize (Hc I). destruct (bi_budget s I _ _ Hb) as [Hid Hsum]. pose proof (bi_record s I _ _ Hr) as Ro.
    apply (budget_inv_move s s' q r' b after); try done.
    + rewrite Eb, Eb1. done.
    + rewrite Eq, Eq1. done.
    + etrans; [apply L01|apply L1].
    + split.
      * cbn [qID r' settled_record]. apply (ro_id _ _ _ Ro).
      * apply (ro_named _ _ _ Ro).
      * cbn [qTaskID r' settled_record]. rewrite Eb, Eb1, lookup_insert_eq. eauto.
      * intros d. pose proof (ro_holds _ _ _ Ro d). by destruct d.
      * intros d. destruct (Hc d) as (? & ? & _). by destruct d.
      * intros d [?|Hrel]; [done|]. destruct (Hc d) as (_ & _ & Hz). by destruct d; apply Hz.
      * apply elem_of_cons. by right.
      * intros _. exists (MkAudit (Z.of_nat (length (audit s)) + 1) (qTaskID r) (qID r) (qActor r) (event_type status) now).
        split; [|split; [|done]].
        -- destruct (lt_audit _ _ L1) as [x ->]. rewrite A01. apply elem_of_app. left. apply elem_of_app. right. by left.
        -- cbn [aQueryID]. apply (ro_id _ _ _ Ro).
    + rewrite Hr. done.
    + intros d. rewrite Hr. cbn [from_option qTaskID r' settled_record].
      destruct (Hsum d) as (H1 & H2 & H3 & H4 & H5). destruct (Hc d) as (C1 & C2 & C3).
      assert (Hh : holds d (qTaskID r) r = hold_of d r) by (unfold holds; by rewrite decide_True).
      assert (Hm : hold_of d r <= held_d d b).
      { rewrite H4, <- Hh. apply (msum_member (holds d (qTaskID r)) (queries s) q); [|done]. intros q' x Hx. unfold holds.
        destruct (decide _); [apply (ro_holds _ _ _ (bi_record s I _ _ Hx))|done]. }
      assert (Hz : charges d (qTaskID r) r = 0).
      { unfold charges. rewrite decide_True by done. apply (ro_open _ _ _ Ro). by left. }
      assert (Hh' : holds d (qTaskID r) r' = 0) by (unfold holds; rewrite decide_False; [done|]; by intros [_ ?]).
      assert (Hc' : charges d (qTaskID r) r' = match d with DQueries => cq | DRows => cr | DDBMS => cd end)
        by (unfold charges; rewrite decide_True by done; by destruct d).
      rewrite Hh, Hz, Hh', Hc'. destruct d; cbn in *; lia.
  - by etrans.
  - rewrite El, Er, Ef, Eo, El1, Er1, Ef1, Eo1. done.
Qed.

(** The link after a query closed in both ledgers. *)
Lemma link_closed s s1 s' q status : status <> QueryReserved -> link_inv s -> exposure_step s q s1 -> same_ordinals s s1 ->
  (reservations s1 = reservations s /\ ~ plain_query s q \/ closed_as (exposure_status status) s q s1) ->
  reservations s' = reservations s1 -> ordinal s' = ordinal s1 ->
  (exists r r', queries s !! q = Some r /\ queries s' !! q = Some r' /\ qTaskID r' = qTaskID r /\ qStatus r' = status) ->
  (forall q', q' <> q -> queries s' !! q' = queries s !! q') -> link_inv s'.
Proof.
  intros Hfinal I Es So Hcl Er Eo (r & r' & Hr & Hr' & Ht & Hst) Hoth.
  assert (Hord : forall v q', ord_has v (ordinal s') q' = ord_has v (ordinal s) q') by (intros v q'; by rewrite Eo, So).
  split.
  - intros q' x. rewrite Er. destruct (decide (q' = q)) as [->|Hne].
    + intros Hx. assert (Hold : exists x0, reservations s !! q = Some x0 /\ plain_query s q /\ rTaskID x = rTaskID x0 /\
        (~ plain_query s q \/ rStatus x = exposure_status status)).
      { destruct Hcl as [[Hs Hp]|[[_ Hn]|(x0 & x1 & H0 & H1 & H2 & H3 & _)]].
        - rewrite Hs in Hx. destruct (li_row s I q x Hx) as [? _]. done.
        - congruence.
        - rewrite Hx in H1. injection H1 as <-. destruct (li_row s I q x0 H0) as [? _]. exists x0. auto. }
      destruct Hold as (x0 & H0 & Hp & Htask & [?|Hs]); [done|]. destruct (li_row s I q x0 H0) as [_ (r0 & Hr0 & Ht0 & _)].
      rewrite Hr in Hr0. injection Hr0 as <-. split; [intros v; by rewrite Hord|]. exists r'. split; [done|].
      split; [congruence|]. by rewrite Hst.
    + destruct (es_others _ _ _ Es q' Hne) as [-> _]. intros Hx. destruct (li_row s I q' x Hx) as [Hp (r0 & ? & ?)].
      split; [intros v; by rewrite Hord|]. exists r0. by rewrite Hoth.
  - intros v q' st. rewrite Eo. destruct (decide (q' = q)) as [->|Hne].
    + intros _. exists r'. split; [done|]. congruence.
    + destruct (es_others _ _ _ Es q' Hne) as [_ ->]. rewrite Hoth by done. apply (li_ord s I).
Qed.

(** Both ledgers together. *)
Lemma good_close s s1 s' q status : exposure_step s q s1 -> same_ordinals s s1 ->
  (reservations s1 = reservations s /\ ~ plain_query s q \/ closed_as (exposure_status status) s q s1) ->
  closes s1 q status s' -> good_step s s'.
Proof.
  intros Es So Hcl C. pose proof (es_frame _ _ _ Es) as R. destruct (cl_exposure _ _ _ _ C) as (El & Er & Ef & Eo).
  destruct (cl_record _ _ _ _ C) as (r & r' & Hr & _ & Hq & Hst & Hsame).
  assert (Eq1 : queries s1 = queries s) by apply R. assert (Eb1 : budgets s1 = budgets s) by apply R.
  assert (Ha1 : audit s `prefix_of` audit s1) by apply R.
  split; [|etrans; [apply resource_later, R|apply (cl_later _ _ _ _ C)]].
  intros [I1 I2 I3]. split.
  - apply (cl_budget _ _ _ _ C). by apply (budget_inv_frame s).
  - apply (exposure_inv_frame s1); [done..|]. by apply (es_inv _ _ _ Es).
  - apply (link_closed s s1 s' q status); try done; [by apply (cl_final _ _ _ _ C)|..].
    + exists r, r'. rewrite <- Eq1, Hq, lookup_insert_eq. destruct Hsame as (_ & Ht & _). auto.
    + intros q' Hne. rewrite Hq, Eq1. by rewrite lookup_insert_ne.
Qed.

(** ** Settling *)
Abbreviation Settlement := (BudgetSettlement Observed Referenced).

(** A settlement either replays the outcome of a settled query, or closes a reserved one. *)
Lemma settleBudgetTx_ok s now (se : Settlement) status hash defer s' r' :
  0 <= seRows se -> 0 <= seDBMS se -> settleBudgetTx s now se status hash defer = Ok (s', r') ->
  exists r, queries s !! seQueryID se = Some r /\
    ((qStatus r <> QueryReserved /\ qStatus r = status /\ s' = s /\ r' = r) \/
     (closes s (seQueryID se) status s' /\ queries s' !! seQueryID se = Some r')).
Proof.
  intros Hrows Hdbms. unfold settleBudgetTx. intros E. apply bind_ok in E as (r & Er%map_err_ok%select_ok & E).
  exists r. split; [done|]. destruct (same (qStatus r) QueryReserved) eqn:Est; cbn [negb] in E.
  2:{ left. destruct (same (qStatus r) status) eqn:Es; [|done]. apply bind_ok in E as (e & _ & E). apply Ok_inj in E.
      injection E as <- <-. apply same_true in Es. split; [|done]. intros Hst. by rewrite (proj2 (same_true _ _) Hst) in Est. }
  right. apply same_true in Est. set (now' := notBefore now (qCreatedAt r)) in *.
  apply fail_if_bind_ok in E as [Hin%negb_false_iff E]. apply bind_ok in E as (b & Eb%select_ok & E).
  apply fail_if_bind_ok in E as [_ E]. apply fail_if_bind_ok in E as [Hmax%Z.ltb_ge E].
  destruct (if charged_status status then (1, seRows se, Z.min (seDBMS se) (qReservedDBMS r)) else (0, 0, 0))
    as [[cq cr] cd] eqn:Ec. cbv zeta in E. apply fail_if_bind_ok in E as [_ E].
  assert (Hstatus : status ∈ [QueryCompleted; QueryReleased; QueryFailed; QueryIndeterminate]).
  { unfold in_list in Hin. apply existsb_exists in Hin as (x & Hx & ->%bool_decide_eq_true). by apply list_elem_of_In. }
  assert (Hc : budget_inv s -> forall d, let c := match d with DQueries => cq | DRows => cr | DDBMS => cd end in
    0 <= c /\ (c <= hold_of d r) /\ (status = QueryReleased -> c = 0)).
  { intros I d. pose proof (ro_holds _ _ _ (bi_record s I _ _ Er)) as Hh. pose proof (Hh DRows). pose proof (Hh DDBMS). cbn [hold_of] in *.
    destruct (charged_status status) eqn:Ecs; injection Ec as <- <- <-.
    - assert (status <> QueryReleased) by (intros ->; vm_compute in Ecs; discriminate). destruct d; cbn; (split; [lia|split; [lia|done]]).
    - destruct d; cbn; lia. }
  apply bind_ok in E as (s1 & Ea & E). apply bind_ok in E as (s2 & Earch & E). apply Ok_inj in E. injection E as <- <-.
  assert (Hreason : exists reason, match reason with Some reason => archiveTaskTx s1 (qTaskID r) reason "system" now' | None => Ok s1 end = Ok s2).
  { destruct (negb defer && _) in Earch; [by exists (Some TerminalBudgetExhausted)|by exists None]. }
  destruct Hreason as [reason Hreason].
  split; [eapply (close_query s (seQueryID se) r b status _ _ _ cq cr cd); try done; rewrite Ea; exact Hreason|].
  assert (Eq2 : queries s2 = queries s1).
  { destruct reason as [reason|]; [|by apply Ok_inj in Hreason as <-]. apply archiveTask_frame in Hreason as ((_ & ? & _) & _). done. }
  rewrite Eq2. apply appendAudit_frame in Ea as ((_ & -> & _) & _). cbn [queries with_queries]. by rewrite lookup_insert_eq.
Qed.

Lemma settle_parts s now (se : Settlement) status s' r' : settle sameJSON s now se status = Ok (s', r') ->
  0 <= seRows se /\ 0 <= seDBMS se /\ exists s1,
    exposure_step s (seQueryID se) s1 /\ same_ordinals s s1 /\
    (reservations s1 = reservations s /\ ~ plain_query s (seQueryID se) \/
     closed_as (exposure_status status) s (seQueryID se) s1) /\
    settleBudgetTx s1 now se status "" false = Ok (s', r').
Proof.
  unfold settle. cbv zeta. intros E. apply fail_if_bind_ok in E as [G E]. rewrite !orb_false_iff, !Z.ltb_ge in G.
  apply fail_if_bind_ok in E as [_ E]. apply bind_ok in E as (s1 & E1%map_err_ok & E%map_err_ok).
  do 2 (split; [tauto|]). exists s1. unfold exposure_status.
  destruct (same status QueryReserved) eqn:E0.
  { exfalso. apply same_true in E0 as ->. unfold settleBudgetTx in E. apply bind_ok in E as (r & _ & E).
    destruct (same (qStatus r) QueryReserved); [discriminate E|discriminate E]. }
  destruct (same status QueryCompleted) eqn:Ec.
  - apply bind_ok in E1 as ([s2 c] & E1 & E2). apply Ok_inj in E2 as <-. destruct (settleAnyExposureMeasuredTx_ok _ _ _ _ _ _ _ E1) as (? & ? & ?). done.
  - destruct (releaseAnyExposureReservationTx_ok _ _ _ _ E1) as (? & ? & ?). done.
Qed.

(** Closing the exposure reservation, then the record. *)
Lemma good_settlement s s1 s' now (se : Settlement) status hash defer r' : 0 <= seRows se -> 0 <= seDBMS se ->
  exposure_step s (seQueryID se) s1 -> same_ordinals s s1 ->
  (reservations s1 = reservations s /\ ~ plain_query s (seQueryID se) \/ closed_as (exposure_status status) s (seQueryID se) s1) ->
  settleBudgetTx s1 now se status hash defer = Ok (s', r') -> good_step s s'.
Proof.
  intros Hr Hd Es So Hcl E.
  apply settleBudgetTx_ok in E as (r & Hq & [(Hst & Hs & -> & _)|[C _]]); [|by eapply good_close|done..].
  pose proof (es_frame _ _ _ Es) as R. assert (Eq1 : queries s1 = queries s) by apply R.
  split; [|by apply resource_later]. intros [I1 I2 I3]. split.
  - apply (budget_inv_frame s); [apply R..|done].
  - by apply (es_inv _ _ _ Es).
  - apply (link_closed s s1 s1 (seQueryID se) status); try done; [by rewrite <- Hs|..].
    + exists r, r. rewrite <- Eq1. done.
    + intros q' _. by rewrite Eq1.
Qed.

Lemma good_settle s now (se : Settlement) status s' r' : settle sameJSON s now se status = Ok (s', r') -> good_step s s'.
Proof. intros (Hr & Hd & s1 & Es & So & Hcl & E)%settle_parts. by eapply good_settlement. Qed.

(** ** Recovery *)
Lemma good_recover_one now s r s' : recover_one now s r = Ok s' ->
  (forall record, queries s !! qID r = Some record -> same_request r record) ->
  good_step s s' /\ exists record, queries s' = <[qID r := record]> (queries s) /\ qStatus record = QueryIndeterminate.
Proof.
  unfold recover_one. cbv zeta. intros E Hsame. apply bind_ok in E as (s1 & E1 & E).
  destruct (releaseAnyExposureReservationTx_ok _ _ _ _ E1) as (Es & So & Hcl). pose proof (es_frame _ _ _ Es) as R.
  assert (Eq1 : queries s1 = queries s) by apply R.
  apply bind_ok in E as (b & Hb%select_ok & E). apply fail_if_bind_ok in E as [_ E]. apply fail_if_bind_ok in E as [_ E].
  apply bind_ok in E as (record & Hr%select_ok & E). apply fail_if_bind_ok in E as [Hst%negb_false_iff%same_true E].
  pose proof Hr as Hs. rewrite Eq1 in Hs. apply Hsame in Hs as (Ei & Et & _ & Ea & _ & _ & Erows & Edbms & _).
  assert (Ebudget : settled_budget b r 1 (qReservedRows r) (qReservedDBMS r) now =
                    settled_budget b record 1 (qReservedRows record) (qReservedDBMS record) now).
  { unfold settled_budget. by rewrite Erows, Edbms. }
  rewrite Ebudget, <- Erows, <- Edbms, <- Et, <- Ea, <- Ei in E. rewrite <- Et in Hb. rewrite <- Ei in *.
  match type of E with (x ← appendAuditTx ?a ?b ?c ?d _ _; _) = _ => destruct (appendAuditTx a b c d "QUERY_INDETERMINATE" now) as [s2|] eqn:E2 end;
    [|discriminate E]. cbn [mbind result_bind] in E.
  assert (C : closes s1 (qID record) QueryIndeterminate s').
  { assert (Hreason : exists reason, match reason with Some reason => archiveTaskTx s2 (qTaskID record) reason "system" now | None => Ok s2 end = Ok s').
    { destruct (budgetSettlementReachesHardLimit _ _) in E; [by exists (Some TerminalBudgetExhausted)|by exists None]. }
    destruct Hreason as [reason Hreason]. eapply (close_query s1 (qID record) record b QueryIndeterminate); try done.
    - rewrite !elem_of_cons. auto.
    - intros I d. pose proof (ro_holds _ _ _ (bi_record s1 I _ _ Hr) d) as Hh. split; [exact Hh|]. split; [by destruct d|done].
    - cbv zeta. change (event_type QueryIndeterminate) with "QUERY_INDETERMINATE". rewrite E2. exact Hreason. }
  split; [exact (good_close s s1 s' (qID record) QueryIndeterminate Es So Hcl C)|].
  destruct (cl_record _ _ _ _ C) as (x & r' & _ & _ & -> & ? & _).
  exists r'. by rewrite Eq1.
Qed.

(** ** Reserving *)
Lemma find_request_ok s task request : (forall r, find_request s task request = Some r ->
    exists q, queries s !! q = Some r /\ qTaskID r = task /\ qRequestID r = request) /\
  (find_request s task request = None -> forall q r, queries s !! q = Some r -> qTaskID r = task -> qRequestID r <> request).
Proof.
  unfold find_request. set (l := filter _ _).
  assert (Hl : forall r, r ∈ l <-> (qTaskID r = task /\ qRequestID r = request) /\ exists q, queries s !! q = Some r).
  { intros r. unfold l. rewrite list_elem_of_filter, list_elem_of_fmap. apply and_iff_compat_l. split.
    - intros ([q r'] & -> & Hq%elem_of_map_to_list). by exists q.
    - intros [q Hq]. exists (q, r). split; [done|]. by apply elem_of_map_to_list. }
  split.
  - intros r Hr. destruct l as [|x k]; [done|]. injection Hr as ->. destruct (proj1 (Hl r) (list_elem_of_here _ _)) as ([? ?] & q & ?). eauto.
  - intros Hn q r Hq Ht Hreq. assert (r ∈ l) as Hin by (apply Hl; eauto). destruct l; [by apply elem_of_nil in Hin|done].
Qed.

Lemma remaining_d b d : limit_d d (Remaining b) = Z.max 0 (limit_d d (Limits b) - used_d d b - held_d d b).
Proof. by destruct d. Qed.

Lemma allowed_range requested remaining : 0 <= requested -> 1 <= remaining ->
  1 <= allowed requested remaining <= remaining /\ (requested <> 0 -> allowed requested remaining <= requested).
Proof. intros. unfold allowed. destruct (requested =? 0) eqn:E1, (remaining <? requested) eqn:E2; cbn [orb]; lia. Qed.

(** What reserving for a new request of an active task does. *)
Definition holds_fresh (rq : ReserveRequest) (task : Task) (now : Z) (s : Store O) (b : BudgetSnapshot) (s' : Store O) : Prop :=
  let rows := allowed (rqRows rq) (Rows (Remaining b)) in
  let dbms := allowed (rqDBMS rq) (DBMS (Remaining b)) in
  budgets s !! rqTaskID rq = Some b /\ ReservedQueries (Usage b) = 0 /\ (forall d, 1 <= limit_d d (Remaining b)) /\
  queries s !! rqQueryID rq = None /\
  budgets s' = <[rqTaskID rq := reserved_budget b rows dbms now]> (budgets s) /\
  queries s' = <[rqQueryID rq := reserved_record rq (tCatalogVersion task) rows dbms b now]> (queries s).

Lemma reserve_active_ok s op now task rq s' reply : reserve_active s op now task rq = Ok (s', reply) ->
  (exists e, reply = Err (opErr op ErrBudgetExhausted None) /\ archiveTaskTx s (rqTaskID rq) TerminalBudgetExhausted "system" now = Ok s' /\
     e = ErrBudgetExhausted) \/
  exists b s1 s2, holds_fresh rq task now s b s1 /\
    s1 = with_queries (with_budgets s (budgets s1)) (queries s1) /\
    reserveExposureTx s1 (rqQueryID rq) (rqTaskID rq) (rqExposure rq) now = Ok s2 /\
    appendAuditTx s2 (rqTaskID rq) (rqQueryID rq) (rqActor rq) "QUERY_BUDGET_RESERVED" now = Ok s' /\
    reply = Ok (MkBudgetReservation (rqQueryID rq) (rqTaskID rq) (rqRequestID rq) (allowed (rqRows rq) (Rows (Remaining b)))
              (allowed (rqDBMS rq) (DBMS (Remaining b))) b
              (Some (reserved_budget b (allowed (rqRows rq) (Rows (Remaining b))) (allowed (rqDBMS rq) (DBMS (Remaining b))) now)) false None).
Proof.
  unfold reserve_active. cbv zeta. intros E. apply fail_if_bind_ok in E as [_ E].
  apply bind_ok in E as (g & _ & E). apply seq_ok in E as [_ E]. apply bind_ok in E as (b & Hb%map_err_ok%select_ok & E).
  apply fail_if_bind_ok in E as [Hres%negb_false_iff%Z.eqb_eq E].
  destruct ((Queries (Remaining b) <? 1) || (Rows (Remaining b) <? 1) || (DBMS (Remaining b) <? 1)) eqn:Erem.
  - left. unfold archive_and_fail in E. apply bind_ok in E as (s1 & E1 & E). unfold wrap in E1. apply map_err_ok in E1.
    apply Ok_inj in E. injection E as <- <-. eauto.
  - right. rewrite !orb_false_iff, !Z.ltb_ge in Erem. apply bind_ok in E as (qs & E1 & E). unfold wrap in E1. apply map_err_ok in E1.
    unfold insert_new in E1. apply fail_if_bind_ok in E1 as [Hnew%bool_decide_eq_false E1]. apply Ok_inj in E1 as <-.
    apply bind_ok in E as (s2 & E2%map_err_ok & E). apply bind_ok in E as (s3 & E3 & E). unfold wrap in E3. apply map_err_ok in E3.
    apply Ok_inj in E. injection E as <- <-. cbn [queries with_budgets] in *.
    exists b. eexists (with_queries (with_budgets s _) _), s2. split; [|split; [reflexivity|split; [exact E2|split; [exact E3|done]]]].
    split; [done|]. split; [done|]. split; [intros []; cbn [limit_d]; tauto|]. split; [by apply eq_None_not_Some|]. done.
Qed.

Lemma good_fresh s s1 s2 rq task now b : 0 <= rqRows rq -> 0 <= rqDBMS rq -> rqQueryID rq <> "" -> blank (rqActor rq) = false ->
  (forall q r, queries s !! q = Some r -> qTaskID r = rqTaskID rq -> qRequestID r <> rqRequestID rq) ->
  holds_fresh rq task now s b s1 -> s1 = with_queries (with_budgets s (budgets s1)) (queries s1) ->
  reserveExposureTx s1 (rqQueryID rq) (rqTaskID rq) (rqExposure rq) now = Ok s2 -> good_step s s2.
Proof.
  intros Hrows Hdbms Hid Hactor Hnew (Hb & Hz & Hrem & Hq & Eb & Eq) Es1 E2.
  pose proof (reserveExposureTx_ok _ _ _ _ _ _ E2) as (Es & Hnew_status & Hres). pose proof (es_frame _ _ _ Es) as R.
  set (rows := allowed (rqRows rq) _) in *. set (dbms := allowed (rqDBMS rq) _) in *.
  set (r := reserved_record rq (tCatalogVersion task) rows dbms b now) in *.
  assert (Eq2 : queries s2 = queries s1) by apply R. assert (Eb2 : budgets s2 = budgets s1) by apply R.
  assert (Eo1 : ordinal s1 = ordinal s /\ reservations s1 = reservations s /\ audit s1 = audit s /\ ledgers s1 = ledgers s /\ facts s1 = facts s)
    by (rewrite Es1; done). destruct Eo1 as (Eo1 & Er1 & Ea1 & El1 & Ef1).
  pose proof (allowed_range (rqRows rq) (Rows (Remaining b)) Hrows (Hrem DRows)) as [Rrows _]. fold rows in Rrows.
  pose proof (allowed_range (rqDBMS rq) (DBMS (Remaining b)) Hdbms (Hrem DDBMS)) as [Rdbms _]. fold dbms in Rdbms.
  assert (L : later s s2).
  { etrans; [|apply resource_later, R]. rewrite Es1. split; try reflexivity. cbn [queries with_queries]. rewrite Eq.
    apply (table_le_insert record_le). intros old Hold. congruence. }
  split; [|exact L]. intros [I1 I2 I3]. split.
  - apply (budget_inv_move s s2 (rqQueryID rq) r b (reserved_budget b rows dbms now)); try done.
    + by rewrite Eb2, Eb.
    + by rewrite Eq2, Eq.
    + apply L.
    + split; try done.
      * cbn [qTaskID r reserved_record]. rewrite Eb2, Eb, lookup_insert_eq. eauto.
      * intros []; cbn [hold_of r reserved_record qReservedRows qReservedDBMS]; lia.
      * intros []; cbn [charge_of hold_of r reserved_record qReservedRows qReservedDBMS qChargedQueries qChargedRows qChargedDBMS]; lia.
      * intros [] _; done.
      * by left.
    + rewrite Hq. intros q' r' Hq' Ht. by apply (Hnew q').
    + intros d. rewrite Hq. cbn [from_option qTaskID r reserved_record].
      assert (Hh : holds d (rqTaskID rq) r = hold_of d r) by (unfold holds; by rewrite decide_True).
      assert (Hc : charges d (rqTaskID rq) r = 0) by (unfold charges; rewrite decide_True by done; by destruct d).
      rewrite Hh, Hc. destruct (bi_budget s I1 _ _ Hb) as [_ Hsum]. destruct (Hsum d) as (H1 & H2 & H3 & _ & _).
      pose proof (Hrem d) as Hd. rewrite remaining_d in Hd. unfold rows, dbms in *. clear Hsum Hh Hc.
      pose proof (remaining_d b d) as Hrd. destruct d; cbn in *; lia.
  - apply (es_inv _ _ _ Es). apply (exposure_inv_frame s); done.
  - assert (Hnone : reservations s !! rqQueryID rq = None).
    { destruct (reservations s !! rqQueryID rq) as [x|] eqn:Ex; [|done]. destruct (li_row s I3 _ _ Ex) as [_ (r0 & Hr0 & _)]. congruence. }
    assert (Hhas : forall v, ord_has v (ordinal s) (rqQueryID rq) = false).
    { intros v. rewrite ord_has_status. apply bool_decide_eq_false. intros [st Hv]. destruct (li_ord s I3 v _ _ Hv) as (r0 & Hr0 & _). congruence. }
    split.
    + intros q x Hx. destruct (decide (q = rqQueryID rq)) as [->|Hne].
      * destruct Hres as [Eres|(So%same_statuses_ordinals & _ & x' & Hx' & Hst & Ht)]; [rewrite Eres, Er1 in Hx; congruence|].
        rewrite Hx in Hx'. injection Hx' as <-. split; [intros v; rewrite So, Eo1; apply Hhas|].
        exists r. rewrite Eq2, Eq, lookup_insert_eq. done.
      * destruct (es_others _ _ _ Es q Hne) as [Hr Ho]. rewrite Hr, Er1 in Hx. destruct (li_row s I3 q x Hx) as [Hp (r0 & Hr0 & ?)].
        split; [intros v; rewrite ord_has_status, Ho, Eo1, <- ord_has_status; apply Hp|]. exists r0. rewrite Eq2, Eq, lookup_insert_ne by done. done.
    + intros v q st. destruct (decide (q = rqQueryID rq)) as [->|Hne].
      * intros Hv. exists r. rewrite Eq2, Eq, lookup_insert_eq. split; [done|]. intros _. destruct (Hnew_status v) as [E|E].
        -- rewrite E, Eo1 in Hv. destruct (li_ord s I3 v _ _ Hv) as (r0 & Hr0 & _). congruence.
        -- congruence.
      * destruct (es_others _ _ _ Es q Hne) as [_ ->]. rewrite Eo1. intros Hv. destruct (li_ord s I3 v q _ Hv) as (r0 & Hr0 & ?).
        exists r0. rewrite Eq2, Eq, lookup_insert_ne; done.
Qed.

Lemma good_archive_and_fail {A} s op task reason now kind s' (reply : result A) :
  archive_and_fail s op task reason now kind = Ok (s', reply) -> good_step s s' /\ reply = Err (opErr op kind None).
Proof.
  unfold archive_and_fail. intros E. apply bind_ok in E as (s1 & E1 & E). unfold wrap in E1. apply map_err_ok in E1.
  apply Ok_inj in E. injection E as <- <-. split; [by eapply good_archive|done].
Qed.

Lemma good_reserve_active s op now task rq s' reply : 0 <= rqRows rq -> 0 <= rqDBMS rq -> rqQueryID rq <> "" ->
  (forall q r, queries s !! q = Some r -> qTaskID r = rqTaskID rq -> qRequestID r <> rqRequestID rq) ->
  reserve_active s op now task rq = Ok (s', reply) -> good_step s s'.
Proof.
  intros Hr Hd Hid Hnew [(e & _ & E & _)|(b & s1 & s2 & Hf & Es & E2 & E3 & _)]%reserve_active_ok; [by eapply good_archive|].
  assert (Hactor : blank (rqActor rq) = false).
  { unfold appendAuditTx in E3. apply fail_if_bind_ok in E3 as [G _]. by apply orb_false_iff in G as [? _]. }
  etrans; [exact (good_fresh _ _ _ _ _ _ _ Hr Hd Hid Hactor Hnew Hf Es E2)|]. by eapply good_audit.
Qed.

Lemma good_reserveTx s clock rq s' reply : reserveTx s clock rq = Ok (s', reply) -> good_step s s'.
Proof.
  unfold reserveTx. cbv zeta. intros E. apply fail_if_bind_ok in E as [Hinc E]. apply fail_if_bind_ok in E as [Hneg E].
  assert (Hid : rqQueryID rq <> "") by (intros Hid; unfold incomplete_request in Hinc; rewrite Hid in Hinc; discriminate Hinc).
  unfold negative_request in Hneg. rewrite !orb_false_iff, !Z.ltb_ge in Hneg. destruct Hneg as [[Hr Hd] _].
  apply bind_ok in E as (task & _ & E). destruct (find_request_ok s (rqTaskID rq) (rqRequestID rq)) as [_ Hnew].
  destruct (find_request s (rqTaskID rq) (rqRequestID rq)) as [r|].
  { apply fail_if_bind_ok in E as [_ E]. apply Ok_inj in E. injection E as <- _. reflexivity. }
  specialize (Hnew eq_refl). apply fail_if_bind_ok in E as [_ E].
  destruct (tExpiresAt task) as [e|]; [destruct (negb _)|].
  - by apply good_archive_and_fail in E as [? _].
  - by eapply good_reserve_active.
  - by eapply good_reserve_active.
Qed.

Lemma good_reserve s clock rq : good_step s (ReserveBudget s clock rq).1.
Proof.
  unfold ReserveBudget, commit. destruct (reserveTx s clock rq) as [[s' reply]|e] eqn:E; [by eapply good_reserveTx|reflexivity].
Qed.

(** ** Progress: an open query can be closed *)
Lemma archive_succeeds s task reason now : exists s', archiveTaskTx s task reason "system" now = Ok s' /\
  (forall t, t <> task -> tasks s' !! t = tasks s !! t) /\
  (forall row, tasks s' !! task = Some row -> tState row = TaskArchived).
Proof.
  unfold archiveTaskTx. destruct (tasks s !! task) as [t|] eqn:Et.
  - case_bool_decide as Hst; [exists s; split; [done|]; split; [done|]; intros row Hrow; congruence|].
    unfold appendAuditTx. change (blank "system" || blank "TASK_STATE_CHANGED") with false. cbn [fail_if mbind result_bind].
    eexists. split; [reflexivity|]. cbn [tasks with_audit with_tasks]. split.
    + intros t' Hne. by rewrite lookup_insert_ne.
    + intros row. rewrite lookup_insert_eq. by intros [= <-].
  - exists s. split; [done|]. split; [done|]. intros row Hrow. congruence.
Qed.

(** An open record's hold is in its task's row, so closing it is never refused. *)
Lemma open_fits s q r : budget_inv s -> queries s !! q = Some r -> qStatus r = QueryReserved ->
  exists b, budgets s !! qTaskID r = Some b /\ over_reserved b r = false /\
    forall cq cr cd now, 0 <= cq <= 1 -> 0 <= cr <= qReservedRows r -> 0 <= cd <= qReservedDBMS r ->
      over_limit (settled_budget b r cq cr cd now) = false.
Proof.
  intros I Hr Hst. destruct (ro_budget _ _ _ (bi_record s I _ _ Hr)) as [b Hb]. exists b. split; [done|].
  destruct (bi_budget s I _ _ Hb) as [_ Hsum].
  assert (Hm : forall d, hold_of d r <= held_d d b).
  { intros d. destruct (Hsum d) as (_ & _ & _ & -> & _). replace (hold_of d r) with (holds d (qTaskID r) r) by (unfold holds; by rewrite decide_True).
    apply (msum_member (holds d (qTaskID r)) (queries s) q); [|done]. intros q' x Hx. unfold holds.
    destruct (decide _); [apply (ro_holds _ _ _ (bi_record s I _ _ Hx))|done]. }
  pose proof (Hm DQueries) as M1. pose proof (Hm DRows) as M2. pose proof (Hm DDBMS) as M3.
  destruct (Hsum DQueries) as (_ & _ & L1 & _). destruct (Hsum DRows) as (_ & _ & L2 & _). destruct (Hsum DDBMS) as (_ & _ & L3 & _).
  cbn [hold_of held_d used_d limit_d] in *. split.
  - unfold over_reserved. rewrite !orb_false_iff, !Z.ltb_ge. lia.
  - intros cq cr cd now H1 H2 H3. unfold over_limit. rewrite !orb_false_iff, !Z.ltb_ge. cbn. lia.
Qed.

Lemma settleBudgetTx_succeeds s now (se : Settlement) r status : budget_inv s -> queries s !! seQueryID se = Some r ->
  qStatus r = QueryReserved -> 0 <= seRows se <= qReservedRows r -> 0 <= seDBMS se ->
  status ∈ [QueryCompleted; QueryReleased; QueryFailed; QueryIndeterminate] ->
  exists s' r', settleBudgetTx s now se status "" false = Ok (s', r').
Proof.
  intros I Hr Hst Hrows Hdbms Hs. destruct (open_fits s _ r I Hr Hst) as (b & Hb & Hover & Hlimit).
  pose proof (bi_record s I _ _ Hr) as Ro. pose proof (ro_holds _ _ _ Ro DDBMS) as Hd. cbn [hold_of] in Hd.
  unfold settleBudgetTx. cbv zeta. rewrite Hr. cbn [select map_err mbind result_bind].
  rewrite (proj2 (same_true _ _) Hst). cbn [negb].
  assert (Hin : in_list status [QueryCompleted; QueryReleased; QueryFailed; QueryIndeterminate] = true).
  { unfold in_list. apply existsb_exists. exists status. split; [by apply list_elem_of_In|by apply bool_decide_eq_true]. }
  rewrite Hin. cbn [negb fail_if mbind result_bind]. rewrite Hb. cbn [select mbind result_bind]. rewrite Hover.
  cbn [fail_if mbind result_bind]. rewrite (proj2 (Z.ltb_ge (qReservedRows r) (seRows se))) by lia. cbn [fail_if mbind result_bind].
  destruct (if charged_status status then (1, seRows se, Z.min (seDBMS se) (qReservedDBMS r)) else (0, 0, 0))
    as [[cq cr] cd] eqn:Ec.
  rewrite Hlimit by (destruct (charged_status status); injection Ec as <- <- <-; lia). cbn [fail_if mbind result_bind].
  unfold appendAuditTx at 1. assert (Hev : blank (qActor r) || blank (event_type status) = false).
  { destruct (ro_named _ _ _ Ro) as [_ ->]. cbn [orb].
    rewrite !elem_of_cons in Hs. destruct Hs as [->|[->|[->|[->|Hs%elem_of_nil]]]]; done. }
  rewrite Hev. cbn [fail_if mbind result_bind].
  destruct (_ && budgetSettlementReachesHardLimit _ _); [|cbn [mbind result_bind]; eauto].
  match goal with |- context [archiveTaskTx ?st ?t ?x _ ?n] => destruct (archive_succeeds st t x n) as (s' & -> & _) end.
  cbn [mbind result_bind]. eauto.
Qed.

(** An open query's reservation is open in whichever ledger holds it. *)
Lemma open_releases s now q r : link_inv s -> queries s !! q = Some r -> qStatus r = QueryReserved ->
  exists s', releaseAnyExposureReservationTx s now q = Ok s'.
Proof.
  intros I Hr Hst. apply releaseAny_succeeds.
  - intros x Hx. destruct (li_row s I _ _ Hx) as [_ (r0 & Hr0 & _ & Hs)]. rewrite Hr in Hr0. injection Hr0 as <-. left. by rewrite Hs, Hst.
  - intros v status Hv. destruct (li_ord s I _ _ _ Hv) as (r0 & Hr0 & Hopen). rewrite Hr in Hr0. injection Hr0 as <-. by apply Hopen.
Qed.

Lemma recover_one_succeeds now s r : control_inv s -> queries s !! qID r = Some r -> qStatus r = QueryReserved ->
  exists s', recover_one now s r = Ok s'.
Proof.
  intros I Hr Hst. destruct (open_releases s now (qID r) r (ci_link s I) Hr Hst) as [s1 E1].
  pose proof (releaseAnyExposureReservationTx_ok _ _ _ _ E1) as (Es & _ & _). pose proof (es_frame _ _ _ Es) as R.
  assert (I1 : budget_inv s1) by (apply (budget_inv_frame s); [apply R..|apply I]).
  assert (Eq1 : queries s1 = queries s) by apply R. rewrite <- Eq1 in Hr.
  destruct (open_fits s1 _ r I1 Hr Hst) as (b & Hb & Hover & Hlimit). pose proof (bi_record s1 I1 _ _ Hr) as Ro.
  pose proof (ro_holds _ _ _ Ro DDBMS) as Hd. pose proof (ro_holds _ _ _ Ro DRows) as Hrw. cbn [hold_of] in Hd, Hrw.
  unfold recover_one. cbv zeta. rewrite E1. cbn [mbind result_bind]. rewrite Hb. cbn [select mbind result_bind]. rewrite Hover.
  cbn [fail_if mbind result_bind]. rewrite Hlimit by lia. cbn [fail_if mbind result_bind]. rewrite Hr. cbn [select mbind result_bind].
  rewrite (proj2 (same_true _ _) Hst). cbn [negb fail_if mbind result_bind]. unfold appendAuditTx at 1.
  destruct (ro_named _ _ _ Ro) as [_ ->]. change (false || blank "QUERY_INDETERMINATE") with false. cbn [fail_if mbind result_bind].
  destruct (budgetSettlementReachesHardLimit _ _); [|eauto].
  match goal with |- context [archiveTaskTx ?st ?t ?x _ ?n] => destruct (archive_succeeds st t x n) as (s' & E & _) end. eauto.
Qed.
End control.
End BudgetInvariant.
