(* ===== verification/Results.v ===== *)
(** * Storing results

    [src/internal/control/result.go] and [result_artifact.go]: the transaction
    that settles a query and stores its result, an encrypted result row or the
    metadata of an encrypted object, and the one that stores the result of a
    settled query.  The cipher, the chunk rows of a streamed result, the signed
    receipt and the published materialization, which have tables of their own,
    are not modelled; what they append to the audit log is [AppendAuditEvent].
    A transaction that loses a race on a root head is run again on the newer
    store, so one attempt is one step. *)

From S2P Require Import Prelude GoBytes Ordering GoText Sha256 FactId FactSet LedgerStore ExposureLedger ControlTasks BudgetLedger BudgetInvariant.
Import FactId FactSet Store ExposureLedger ControlTasks BudgetLedger BudgetInvariant.

Module Results.

Definition ResultEncryptionKeyActive := "ACTIVE".
Definition ResultArtifactPending := "PENDING".
Definition ErrCipherUnavailable := ErrNew "control: result cipher unavailable".

(** A row of [encrypted_query_results]; its ciphertext, storage format and sizes
    decide nothing here. *)
Record EncryptedResult := MkEncrypted { erTaskID : string; erKeyID : string; erSHA256 : string; erCreatedAt : Z }.

Record ResultArtifact := MkArtifact {
  arResultID : string; arQueryID : string; arTaskID : string; arKeyID : string; arFormat : string; arEncryption : string;
  arStagingKey : string; arObjectKey : string; arObjectETag : string; arParquetSHA256 : string; arObjectSHA256 : string;
  arParquetSize : Z; arObjectSize : Z; arRowCount : Z; arColumnCount : Z; arSchema : string; arMetadata : string; arACL : string;
  arStatus : string; arCreatedAt : Z; arExpiresAt : option Z; arConsumedAt : option Z; arDeletedAt : option Z }.

(** [result_encryption_keys] by status, [encrypted_query_results] and
    [result_artifacts] by query. *)
Record ResultTables := MkResults {
  result_keys : gmap string string; encrypted_results : gmap string EncryptedResult; result_artifacts : gmap string ResultArtifact }.

(** [preparedEncryptedResult]: a ciphertext row of a query, or an object. *)
Inductive PreparedResult := PreparedCiphertext (queryID : string) (result : EncryptedResult) | PreparedArtifact (artifact : ResultArtifact).

Section ops.
Context `{SQLLiterals} {O Observed Referenced : Type} `{!OrdinalExposure O Observed Referenced}.
Context (sameJSON : bytes -> bytes -> bool) (normalizeJSON : string -> string -> result string).
(** The number of elements of a JSON array. *)
Context (array_length : string -> option Z).
Implicit Types (s : Store O) (t : ResultTables).

Definition normalizeResultEncryptionKeyID (keyID : string) : result string :=
  let trimmed := TrimSpace keyID in
  fail_if (same trimmed "") (ErrNew "result encryption key id is required") ≫= fun _ =>
  fail_if (negb (same trimmed keyID)) (ErrNew "result encryption key id must not have surrounding whitespace") ≫= fun _ => Ok keyID.

Definition ensureActiveResultEncryptionKeyTx t (keyID : string) : result ResultTables :=
  let op := "ensure result encryption key" in
  keyID ← wrap op ErrInvalid (normalizeResultEncryptionKeyID keyID);
  match result_keys t !! keyID with
  | Some status => fail_if (negb (same status ResultEncryptionKeyActive))
                     (opErr op ErrCipherUnavailable (Some (ErrNew "result encryption key %q is %s"))) ≫= fun _ => Ok t
  | None => Ok (MkResults (<[keyID := ResultEncryptionKeyActive]> (result_keys t)) (encrypted_results t) (result_artifacts t))
  end.

(** Whether a row was inserted: not for the same plaintext again. *)
Definition insertEncryptedResultTx t s (queryID : string) (r : EncryptedResult) : result (ResultTables * bool) :=
  let op := "save encrypted result" in
  match encrypted_results t !! queryID with
  | Some existing =>
      if same (erSHA256 existing) (erSHA256 r) then Ok (t, false)
      else Err (opErr op ErrConflict (Some (ErrNew "different result already stored")))
  | None =>
      t ← ensureActiveResultEncryptionKeyTx t (erKeyID r);
      wrap op ErrConflict (fail_if (bool_decide (queries s !! queryID = None) || bool_decide (tasks s !! erTaskID r = None)) foreign_key) ≫= fun _ =>
      Ok (MkResults (result_keys t) (<[queryID := r]> (encrypted_results t)) (result_artifacts t), true)
  end.

(** ** Objects *)
Definition normalizeResultArtifact (a : ResultArtifact) : result ResultArtifact :=
  let status := if same (arStatus a) "" then ResultArtifactPending else arStatus a in
  fail_if (blank (arResultID a) || negb (trimmed (arResultID a)) || blank (arQueryID a) || negb (trimmed (arQueryID a)) ||
           blank (arTaskID a) || negb (trimmed (arTaskID a)) || blank (arStagingKey a) || blank (arObjectKey a) ||
           same (arStagingKey a) (arObjectKey a)) (ErrNew "result, query, task, staging, and canonical object keys are required") ≫= fun _ =>
  keyID ← normalizeResultEncryptionKeyID (arKeyID a);
  fail_if (negb (same (arFormat a) "parquet") || negb (same (arEncryption a) "chunked-aes-gcm-v1") || blank (arObjectETag a) ||
           negb (validSHA256Hex (arParquetSHA256 a)) || negb (validSHA256Hex (arObjectSHA256 a)) ||
           (arParquetSize a <? 0) || (arObjectSize a <=? 0) || (arRowCount a <? 0) || (arColumnCount a <=? 0) ||
           negb (same status ResultArtifactPending) || (arCreatedAt a =? 0) ||
           bool_decide (is_Some (arConsumedAt a)) || bool_decide (is_Some (arDeletedAt a)))
    (ErrNew "invalid pending result artifact evidence") ≫= fun _ =>
  match arExpiresAt a with
  | Some expires => fail_if (expires =? 0) (ErrNew "artifact expiry is invalid") ≫= fun _ =>
                    fail_if (expires <=? arCreatedAt a) (ErrNew "artifact expiry must follow creation")
  | None => Ok tt
  end ≫= fun _ =>
  schema ← map_err (ErrCtx "invalid artifact schema") (normalizeJSON (arSchema a) "[]");
  fail_if (negb (bool_decide (array_length schema = Some (arColumnCount a)))) (ErrNew "artifact schema does not match column count") ≫= fun _ =>
  metadata ← map_err (ErrCtx "invalid result metadata") (normalizeJSON (arMetadata a) "{}");
  acl ← map_err (ErrCtx "invalid artifact ACL") (normalizeJSON (arACL a) "{}");
  Ok (MkArtifact (arResultID a) (arQueryID a) (arTaskID a) keyID (arFormat a) (arEncryption a) (arStagingKey a) (arObjectKey a)
        (arObjectETag a) (arParquetSHA256 a) (arObjectSHA256 a) (arParquetSize a) (arObjectSize a) (arRowCount a) (arColumnCount a)
        schema metadata acl status (arCreatedAt a) (arExpiresAt a) None None).

Definition sameResultArtifactEvidence (a b : ResultArtifact) : bool :=
  same (arResultID a) (arResultID b) && same (arQueryID a) (arQueryID b) && same (arTaskID a) (arTaskID b) && same (arKeyID a) (arKeyID b) &&
  same (arFormat a) (arFormat b) && same (arEncryption a) (arEncryption b) && same (arStagingKey a) (arStagingKey b) &&
  same (arObjectKey a) (arObjectKey b) && same (arObjectETag a) (arObjectETag b) && same (arParquetSHA256 a) (arParquetSHA256 b) &&
  same (arObjectSHA256 a) (arObjectSHA256 b) && (arParquetSize a =? arParquetSize b) && (arObjectSize a =? arObjectSize b) &&
  (arRowCount a =? arRowCount b) && (arColumnCount a =? arColumnCount b) && same (arSchema a) (arSchema b) &&
  same (arMetadata a) (arMetadata b) && same (arACL a) (arACL b) && (arCreatedAt a =? arCreatedAt b) &&
  bool_decide (arExpiresAt a = arExpiresAt b).

(** The unique columns of [result_artifacts]. *)
Definition clashes (a b : ResultArtifact) : bool :=
  same (arResultID a) (arResultID b) || same (arStagingKey a) (arStagingKey b) || same (arObjectKey a) (arObjectKey b).

Definition insertResultArtifactTx t s (artifact : ResultArtifact) : result (ResultTables * bool) :=
  let op := "save result artifact" in
  a ← wrap op ErrInvalid (normalizeResultArtifact artifact);
  match result_artifacts t !! arQueryID a with
  | Some existing =>
      if sameResultArtifactEvidence existing a then Ok (t, false)
      else Err (opErr op ErrConflict (Some (ErrNew "query already has different result artifact evidence")))
  | None =>
      query ← map_err (fun e => opErr op ErrNotFound (Some e)) (select (queries s !! arQueryID a));
      fail_if (negb (same (qTaskID query) (arTaskID a))) (opErr op ErrInvalid (Some (ErrNew "artifact task does not match query task"))) ≫= fun _ =>
      t ← ensureActiveResultEncryptionKeyTx t (arKeyID a);
      wrap op ErrConflict (fail_if (existsb (clashes a) (map_to_list (result_artifacts t)).*2) duplicate_key) ≫= fun _ =>
      Ok (MkResults (result_keys t) (encrypted_results t) (<[arQueryID a := a]> (result_artifacts t)), true)
  end.

(** ** Settling and storing *)

(** [UPDATE query_records SET result_sha256=... WHERE id=...] on a record without one. *)
Definition with_result (resultHash : string) (r : QueryRecord) : QueryRecord :=
  MkQuery (qID r) (qTaskID r) (qRequestID r) (qActor r) (qRequestDigest r) (qSQLFingerprint r) (qCatalogVersion r)
    (qCatalogDigest r) (qDatasourceID r) (qSchemaDigest r) (qViewBindingDigest r) (qManifestDigest r) (qGrantDigest r)
    (qPolicyDecision r) (qStatus r) (qReservedRows r) (qReservedDBMS r) (qResultRows r) (qResultDBMS r) (qResultObservedDBMS r)
    (qChargedQueries r) (qChargedRows r) (qChargedDBMS r) (qBudgetBefore r) (qBudgetAfter r) resultHash (qErrorCode r)
    (qCreatedAt r) (qCompletedAt r).
Definition attach_result s (r : QueryRecord) (resultHash : string) : Store O * QueryRecord :=
  if same (qResultSHA256 r) "" then (with_queries s (alter (with_result resultHash) (qID r) (queries s)), with_result resultHash r) else (s, r).

Definition preparedResultHash (p : PreparedResult) : string :=
  match p with PreparedCiphertext _ r => erSHA256 r | PreparedArtifact a => arParquetSHA256 a end.

(** The result stored, whether it is new, and an object as it was stored. *)
Definition insert_result t s (p : PreparedResult) : result (ResultTables * bool * PreparedResult) :=
  match p with
  | PreparedCiphertext q r => '(t, created) ← insertEncryptedResultTx t s q r; Ok (t, created, p)
  | PreparedArtifact a =>
      '(t, created) ← insertResultArtifactTx t s a;
      stored ← select (result_artifacts t !! arQueryID a);
      Ok (t, created, PreparedArtifact stored)
  end.

(** [resultArtifactRegistrationAuditTx]; the log keeps no payloads to compare. *)
Definition registration_audit s (record : QueryRecord) : result AuditEvent :=
  match filter (fun e => aQueryID e = qID record /\ aEventType e = "QUERY_RESULT_OBJECT_REGISTERED") (audit s) with
  | [event] => fail_if (negb (same (aTaskID event) (qTaskID record)) || negb (same (aActor event) (qActor record)))
                 (ErrNew "artifact registration audit identity does not match query") ≫= fun _ => Ok event
  | _ => Err (ErrNew "expected exactly one artifact registration audit, found %d")
  end.

(** The registration of an object follows the terminal event at once; the rows
    of the model have no chain hash, so their sequence numbers are compared. *)
Definition check_registration s (p : PreparedResult) (record : QueryRecord) (terminal : AuditEvent) (created : bool) (now : Z) : result (Store O) :=
  let op := "finalize query" in
  match p with
  | PreparedCiphertext _ _ =>
      if created then wrap op ErrConflict (appendAuditTx s (qTaskID record) (qID record) (qActor record) "QUERY_RESULT_STORED" now) else Ok s
  | PreparedArtifact _ =>
      s ← (if created then wrap op ErrConflict (appendAuditTx s (qTaskID record) (qID record) (qActor record) "QUERY_RESULT_OBJECT_REGISTERED" now) else Ok s);
      sequence ← (if created then Ok (Z.of_nat (length (audit s)))
                  else event ← wrap op ErrConflict (registration_audit s record); Ok (aSequence event));
      fail_if (negb (sequence =? aSequence terminal + 1))
        (opErr op ErrConflict (Some (ErrNew "artifact registration audit does not immediately follow terminal audit"))) ≫= fun _ => Ok s
  end.

Definition finalizePreparedQueryAttempt t s (now : Z) (settlement : BudgetSettlement Observed Referenced) (prepared : PreparedResult) :
    result (ResultTables * Store O * QueryRecord) :=
  let op := "finalize query" in
  let failed {A} := map_err (A := A) (fun e => opErr op (settlementErrorKind e) (Some e)) in
  '(t, created, prepared) ← insert_result t s prepared;
  '(s, _) ← failed (settleAnyExposureMeasuredTx sameJSON s now (seQueryID settlement) (seEvidence settlement));
  let resultHash := preparedResultHash prepared in
  '(s, record) ← failed (settleBudgetTx s now settlement QueryCompleted resultHash true);
  terminal ← terminalAuditForQueryTx s (qID record);
  fail_if (given (qResultSHA256 record) && negb (same (qResultSHA256 record) resultHash))
    (opErr op ErrConflict (Some (ErrNew "query already finalized with a different result"))) ≫= fun _ =>
  let '(s, record) := attach_result s record resultHash in
  s ← check_registration s prepared record terminal created now;
  s ← (match qBudgetAfter record with
       | Some after => if budgetSettlementReachesHardLimit (qStatus record) after
                       then wrap op ErrConflict (archiveTaskTx s (qTaskID record) TerminalBudgetExhausted "system" now) else Ok s
       | None => Ok s
       end);
  Ok (t, s, record).

(** What the entry points check before the transaction, on the query as it was
    read; a ciphertext row they build themselves, for that query and its task. *)
Definition finalizable (s : Store O) (settlement : BudgetSettlement Observed Referenced) (prepared : PreparedResult) : result unit :=
  let op := "finalize query" in
  fail_if (same (seQueryID settlement) "" || (seRows settlement <? 0) || (seDBMS settlement <? 0) || (seObservedDBMS settlement <? 0) ||
           match prepared with PreparedArtifact a => negb (same (arQueryID a) (seQueryID settlement)) | _ => false end)
    (invalid op "invalid settlement") ≫= fun _ =>
  fail_if (seMaterialization settlement && negb (bool_decide (is_Some (evOrdinal (seEvidence settlement)))) &&
           negb (bool_decide (is_Some (evReference (seEvidence settlement)))))
    (invalid op "ordinal materialization requires V4 exposure evidence") ≫= fun _ =>
  current ← find_row op (queries s !! seQueryID settlement);
  fail_if (in_list (qStatus current) [QueryReleased; "INTERRUPTED"]) (opErr op ErrReservationNotFound (Some (ErrNew "query is %s"))) ≫= fun _ =>
  match prepared with
  | PreparedArtifact a => fail_if (negb (same (arTaskID a) (qTaskID current)) || negb (arRowCount a =? seRows settlement))
                            (invalid op "artifact does not match query settlement")
  | PreparedCiphertext q r => Ok tt
  end.

(** [SaveEncryptedResult] of a plaintext with digest [hash], encrypted under [keyID]. *)
Definition SaveEncryptedResult t s (taskID queryID keyID hash : string) (now : Z) : result (ResultTables * Store O) :=
  let op := "save encrypted result" in
  fail_if (same taskID "" || same queryID "") (invalid op "task and query are required") ≫= fun _ =>
  keyID ← wrap op ErrInvalid (normalizeResultEncryptionKeyID keyID);
  record ← find_row op (queries s !! queryID);
  fail_if (negb (same (qTaskID record) taskID)) (opErr op ErrNotFound (Some (ErrNew "query does not belong to task"))) ≫= fun _ =>
  fail_if (negb (same (qStatus record) QueryCompleted)) (invalid op "query is %s") ≫= fun _ =>
  '(t, created) ← insertEncryptedResultTx t s queryID (MkEncrypted taskID keyID hash now);
  fail_if (given (qResultSHA256 record) && negb (same (qResultSHA256 record) hash))
    (opErr op ErrConflict (Some (ErrNew "query already has a different result hash"))) ≫= fun _ =>
  let s := (attach_result s record hash).1 in
  s ← (if created : bool then wrap op ErrConflict (appendAuditTx s taskID queryID "system" "QUERY_RESULT_STORED" now) else Ok s);
  Ok (t, s).
End ops.

(** ** What the transactions keep *)
Section theory.
Context `{SQLLiterals} {O Observed Referenced : Type} `{!OrdinalExposure O Observed Referenced} `{!OrdinalLaws O Observed Referenced}.
Context (sameJSON : bytes -> bytes -> bool) (normalizeJSON : string -> string -> result string) (array_length : string -> option Z).
Implicit Types (s : Store O) (t : ResultTables).

Abbreviation attempt := (finalizePreparedQueryAttempt sameJSON normalizeJSON array_length).

Lemma with_result_same r : with_result (qResultSHA256 r) r = r.
Proof. by destruct r. Qed.

Lemma with_result_inv s r h : control_inv s -> queries s !! qID r = Some r ->
  control_inv (with_queries s (alter (with_result h) (qID r) (queries s))).
Proof.
  intros [I1 I2 I3] Hr. pose proof (bi_record s I1 _ _ Hr) as Ro. destruct (ro_budget _ _ _ Ro) as [b Hb].
  assert (Eq : alter (with_result h) (qID r) (queries s) = <[qID r := with_result h r]> (queries s)).
  { apply map_eq. intros q. destruct (decide (q = qID r)) as [->|Hne].
    - by rewrite lookup_alter_eq, lookup_insert_eq, Hr.
    - by rewrite lookup_alter_ne, lookup_insert_ne. }
  rewrite Eq. split.
  - apply (budget_inv_move s _ (qID r) (with_result h r) b b); try done.
    + symmetry. by apply insert_id.
    + by destruct Ro.
    + by rewrite Hr.
    + intros d. rewrite Hr. destruct (bi_budget s I1 _ _ Hb) as [_ Hsum]. destruct (Hsum d) as (? & ? & ? & _ & _).
      assert (E1 : holds d (qTaskID (with_result h r)) (with_result h r) = holds d (qTaskID r) r) by (by destruct d).
      assert (E2 : charges d (qTaskID (with_result h r)) (with_result h r) = charges d (qTaskID r) r) by (by destruct d).
      rewrite E1, E2. cbn [from_option]. change (qTaskID (with_result h r)) with (qTaskID r). lia.
  - by apply (exposure_inv_frame s).
  - destruct I3 as [K1 K2]. assert (Hq : forall q x, queries s !! q = Some x -> exists y, <[qID r := with_result h r]> (queries s) !! q = Some y /\
      qTaskID y = qTaskID x /\ qStatus y = qStatus x).
    { intros q x Hx. destruct (decide (q = qID r)) as [->|Hne]; [|rewrite lookup_insert_ne by done; eauto].
      rewrite lookup_insert_eq. rewrite Hr in Hx. injection Hx as <-. by exists (with_result h r). }
    split; cbn [reservations queries ordinal with_queries].
    + intros q x Hx. destruct (K1 q x Hx) as [Hp (r0 & Hr0 & Ht & Hs)]. destruct (Hq q r0 Hr0) as (y & Hy & Ey & Es).
      split; [done|]. exists y. rewrite Es, Ey. done.
    + intros v q status Hv. destruct (K2 v q status Hv) as (r0 & Hr0 & Hs). destruct (Hq q r0 Hr0) as (y & Hy & _ & Es).
      exists y. by rewrite Es.
Qed.

Lemma check_registration_good s p record terminal created now s' :
  check_registration s p record terminal created now = Ok s' -> good_step s s'.
Proof.
  unfold check_registration. destruct p as [q r|a].
  - destruct created; [intros E%map_err_ok; by eapply good_audit|by intros <-%Ok_inj].
  - intros (s1 & E1 & E)%bind_ok. apply bind_ok in E as (n & _ & E). apply fail_if_bind_ok in E as [_ E]. apply Ok_inj in E as <-.
    destruct created; [apply map_err_ok in E1; by eapply good_audit|by apply Ok_inj in E1 as <-].
Qed.

Lemma settled_digest s now (se : BudgetSettlement Observed Referenced) hash defer s' r' r :
  settleBudgetTx s now se QueryCompleted hash defer = Ok (s', r') -> queries s !! seQueryID se = Some r ->
  qStatus r = QueryReserved -> qResultSHA256 r' = hash.
Proof.
  intros E Hr Hst. unfold settleBudgetTx in E. rewrite Hr in E. cbn [select map_err mbind result_bind] in E.
  rewrite (proj2 (same_true _ _) Hst) in E. cbn [negb] in E. cbv zeta in E.
  apply fail_if_bind_ok in E as [_ E]. apply bind_ok in E as (b & _ & E). do 2 (apply fail_if_bind_ok in E as [_ E]).
  destruct (if charged_status QueryCompleted then _ else _) as [[cq cr] cd]. apply fail_if_bind_ok in E as [_ E].
  apply bind_ok in E as (s1 & _ & E). apply bind_ok in E as (s2 & _ & E). apply Ok_inj in E. by injection E as _ <-.
Qed.

Lemma finalizable_use s (se : BudgetSettlement Observed Referenced) p : finalizable s se p = Ok tt -> 0 <= seRows se /\ 0 <= seDBMS se.
Proof. unfold finalizable. intros [E _]%fail_if_bind_ok. rewrite !orb_false_iff, !Z.ltb_ge in E. tauto. Qed.

(** The parts of an attempt: a settlement, the digest, and audited statements. *)
Lemma attempt_parts t s now (se : BudgetSettlement Observed Referenced) p t' s' record' : 0 <= seRows se -> 0 <= seDBMS se ->
  attempt t s now se p = Ok (t', s', record') ->
  exists s1 s2 record hash, good_step s s2 /\ queries s1 = queries s /\ settleBudgetTx s1 now se QueryCompleted hash true = Ok (s2, record) /\
    queries s2 !! seQueryID se = Some record /\ good_step (attach_result s2 record hash).1 s'.
Proof.
  intros Hr Hd. unfold finalizePreparedQueryAttempt. cbv zeta. intros ([[t1 created] p1] & _ & E)%bind_ok.
  apply bind_ok in E as ([s1 c] & E1%map_err_ok & E). apply bind_ok in E as ([s2 record] & E2%map_err_ok & E).
  apply bind_ok in E as (terminal & _ & E). apply fail_if_bind_ok in E as [_ E].
  destruct (settleAnyExposureMeasuredTx_ok _ _ _ _ _ _ _ E1) as (Es & So & Hcl). pose proof (es_frame _ _ _ Es) as R.
  exists s1, s2, record, (preparedResultHash p1). split; [exact (good_settlement s s1 s2 now se QueryCompleted _ true record Hr Hd Es So Hcl E2)|]. split; [apply R|]. split; [done|]. split.
  { destruct (settleBudgetTx_ok _ _ _ _ _ _ _ _ Hr Hd E2) as (r & Hq & [(_ & _ & -> & ->)|[_ ?]]); done. }
  destruct (attach_result s2 record (preparedResultHash p1)) as [s3 record3]. apply bind_ok in E as (s4 & E4 & E).
  apply bind_ok in E as (s5 & E5 & E). apply Ok_inj in E. injection E as <- <- <-. cbn [fst].
  etrans; [by eapply check_registration_good|]. destruct (qBudgetAfter record3) as [after|]; [|by apply Ok_inj in E5 as <-].
  destruct (budgetSettlementReachesHardLimit _ _); [|by apply Ok_inj in E5 as <-]. apply map_err_ok in E5. by eapply good_archive.
Qed.

Lemma attempt_inv t s now (se : BudgetSettlement Observed Referenced) p t' s' record' : 0 <= seRows se -> 0 <= seDBMS se ->
  attempt t s now se p = Ok (t', s', record') -> control_inv s -> control_inv s'.
Proof.
  intros Hr Hd E I. destruct (attempt_parts _ _ _ _ _ _ _ _ Hr Hd E) as (s1 & s2 & record & hash & [G1 _] & _ & _ & Hq & [G2 _]).
  specialize (G1 I). apply G2. unfold attach_result. destruct (same _ _); [|done]. apply with_result_inv; [done|].
  by rewrite (ro_id _ _ _ (bi_record s2 (ci_budget s2 G1) _ _ Hq)).
Qed.

(** An attempt on an open query, or on one whose result is known, changes
    nothing that is final. *)
Lemma attempt_good t s now (se : BudgetSettlement Observed Referenced) p t' s' record' : 0 <= seRows se -> 0 <= seDBMS se ->
  (forall r, queries s !! seQueryID se = Some r -> qStatus r = QueryReserved \/ qResultSHA256 r <> "") ->
  control_inv s -> attempt t s now se p = Ok (t', s', record') -> control_inv s' /\ later s s'.
Proof.
  intros Hr Hd Hopen I E. split; [by eapply attempt_inv|].
  destruct (attempt_parts _ _ _ _ _ _ _ _ Hr Hd E) as (s1 & s2 & record & hash & [G1 L1] & Eq1 & E2 & Hq & [_ L2]).
  etrans; [exact L1|]. enough (Ea : (attach_result s2 record hash).1 = s2) by (by rewrite Ea in L2).
  unfold attach_result. destruct (same (qResultSHA256 record) "") eqn:Ee; [|done]. apply same_true in Ee. cbn [fst].
  destruct (settleBudgetTx_ok _ _ _ _ _ _ _ _ Hr Hd E2) as (r & Hr1 & Hcase). pose proof Hr1 as Hr0. rewrite Eq1 in Hr0.
  assert (hash = "") as ->.
  { destruct (Hopen r Hr0) as [Hst|Hne].
    - rewrite <- Ee. symmetry. by eapply settled_digest.
    - destruct Hcase as [(_ & _ & _ & ->)|[C _]]; [done|]. destruct (cl_record _ _ _ _ C) as (x & y & Hx & Hst & _).
      rewrite Hr1 in Hx. injection Hx as <-. rewrite <- Ee. symmetry. by eapply settled_digest. }
  assert (Eid : qID record = seQueryID se) by apply (ro_id _ _ _ (bi_record s2 (ci_budget s2 (G1 I)) _ _ Hq)).
  rewrite Eid, alter_id; [by destruct s2|]. intros x Hx. rewrite Hq in Hx. injection Hx as <-. rewrite <- Ee at 1. apply with_result_same.
Qed.

Lemma save_inv t s task query key hash now t' s' : SaveEncryptedResult t s task query key hash now = Ok (t', s') -> control_inv s -> control_inv s'.
Proof.
  unfold SaveEncryptedResult. cbv zeta. intros E I. apply fail_if_bind_ok in E as [_ E]. apply bind_ok in E as (k & _ & E).
  apply bind_ok in E as (record & Hr%map_err_ok%select_ok & E). do 2 (apply fail_if_bind_ok in E as [_ E]).
  apply bind_ok in E as ([t1 created] & _ & E). apply fail_if_bind_ok in E as [_ E]. apply bind_ok in E as (s2 & E2 & E).
  apply Ok_inj in E. injection E as _ <-. assert (I1 : control_inv (attach_result s record hash).1).
  { unfold attach_result. destruct (same _ _); [|done]. apply with_result_inv; [done|].
    by rewrite (ro_id _ _ _ (bi_record s (ci_budget s I) _ _ Hr)). }
  destruct created; [|by apply Ok_inj in E2 as <-]. apply map_err_ok in E2. apply (good_audit _ _ _ _ _ _ _ E2) in I1. done.
Qed.
End theory.
End Results.
