(* ===== verification/ControlRuns.v ===== *)
(** * Runs of the Control store

    Every transaction of [ControlTasks], [Callbacks], [BudgetLedger] and
    [Results], in any order and any interleaving of tasks: what each one keeps,
    and what follows for the gateway's accounting. *)

From S2P Require Import Prelude GoBytes Ordering GoText Sha256 ViewBinding FactId FactSet LedgerStore ExposureLedger ControlTasks Callbacks BudgetLedger BudgetInvariant Results.
Import FactId FactSet Store ExposureLedger ControlTasks Callbacks BudgetLedger BudgetInvariant Results.

Module ControlRuns.

Section runs.
Context `{SQLLiterals} {O Observed Referenced : Type} `{!OrdinalExposure O Observed Referenced} `{!OrdinalLaws O Observed Referenced}.
Context (sameJSON : bytes -> bytes -> bool) (normalizeJSON : string -> string -> result string)
  (decode_binding : bytes -> result ViewBinding.BindingSet).
Implicit Types s : Store O.

(** One committed transaction.  A finalization is checked on the query as it was
    read, perhaps earlier; one that finds the query settled without a result
    digest is not a step but an [attach]. *)
Inductive step s : Store O -> Prop :=
  | step_create_principal now p s' : CreatePrincipal s now p = Ok s' -> step s s'
  | step_disable_principal now id at_ r : DisablePrincipal s now id at_ = Ok r -> step s r.1
  | step_create_task now t s' : CreateTask normalizeJSON s now t = Ok s' -> step s s'
  | step_transition now change r : TransitionTask normalizeJSON s now change = Ok r -> step s r.1
  | step_grant now g s' : PutGrant normalizeJSON decode_binding s now g = Ok s' -> step s s'
  | step_approval now id e s' : RecordApprovalEvent normalizeJSON s now id e = Ok s' -> step s s'
  | step_view_changed now t d r : MarkTaskViewSemanticChanged s now t d = Ok r -> step s r.1
  | step_claim now e p r : ClaimCallback s now e p = Ok r -> step s r.1
  | step_complete now e p resp s' : CompleteCallback s now e p resp = Ok s' -> step s s'
  | step_fail e p f s' : FailCallback s e p f = Ok s' -> step s s'
  | step_decide now c r : ApplyApprovalCallback normalizeJSON decode_binding s now c = Ok r -> step s r.1
  | step_reserve clock rq : step s (ReserveBudget s clock rq).1
  | step_settle now se status r : settle sameJSON s now se status = Ok r -> step s r.1
  | step_recover now r : Recover s now = Ok r -> step s r.1
  | step_audit task query actor kind at_ s' : appendAuditTx s task query actor kind at_ = Ok s' -> step s s'
  | step_finalize array_length (read : Store O) t now se p t' s' record : finalizable read se p = Ok tt ->
      (forall r, queries s !! seQueryID se = Some r -> qStatus r = QueryReserved \/ qResultSHA256 r <> "") ->
      finalizePreparedQueryAttempt sameJSON normalizeJSON array_length t s now se p = Ok (t', s', record) -> step s s'.

Inductive steps : Store O -> Store O -> Prop :=
  | steps_refl s : steps s s
  | steps_step s s1 s2 : steps s s1 -> step s1 s2 -> steps s s2.

(** A result stored for any query, also one that settled without a digest, whose
    record then gets one. *)
Inductive attach s : Store O -> Prop :=
  | attach_finalize array_length (read : Store O) t now se p t' s' record : finalizable read se p = Ok tt ->
      finalizePreparedQueryAttempt sameJSON normalizeJSON array_length t s now se p = Ok (t', s', record) -> attach s s'
  | attach_save t task query key hash now t' s' : SaveEncryptedResult t s task query key hash now = Ok (t', s') -> attach s s'.

Inductive runs : Store O -> Store O -> Prop :=
  | runs_refl s : runs s s
  | runs_step s s1 s2 : runs s s1 -> step s1 s2 -> runs s s2
  | runs_attach s s1 s2 : runs s s1 -> attach s1 s2 -> runs s s2.

Definition start (o : O) : Store O := MkStore _ ∅ ∅ ∅ ∅ ∅ ∅ ∅ ∅ ∅ ∅ ∅ ∅ ∅ ∅ [] o.
(** Reachable from an empty store whose V4 and V5 tables know no query. *)
Definition reach s : Prop := exists o, (forall v q, ord_has v o q = false) /\ runs (start o) s.

(** ** Every transaction is a good step *)
Lemma wrap_ok {A} op kind (r : result A) a : wrap op kind r = Ok a <-> r = Ok a.
Proof. apply map_err_ok. Qed.

Lemma insert_new_ok {V} (m : gmap string V) k v m' : insert_new m k v = Ok m' <-> m !! k = None /\ m' = <[k := v]> m.
Proof.
  unfold insert_new. rewrite fail_if_bind_ok, bool_decide_eq_false. split.
  - intros [Hn E%Ok_inj]. split; [by apply eq_None_not_Some|done].
  - intros [-> ->]. split; [by intros [? [=]]|done].
Qed.

(** Changing tables the ledgers do not read, then the audit log. *)
Lemma good_then_audit s s0 s' task query actor kind at_ : ledger_tables s s0 -> later s s0 ->
  appendAuditTx s0 task query actor kind at_ = Ok s' -> good_step s s'.
Proof. intros T L E. etrans; [by apply good_tables|by eapply good_audit]. Qed.

Ltac later_tables := split; try reflexivity.

Lemma good_principals s m : ledger_tables s (with_principals s m) /\ later s (with_principals s m).
Proof. split; [done|]. later_tables. Qed.
Lemma good_approvals s m : ledger_tables s (with_approvals s m) /\ later s (with_approvals s m).
Proof. split; [done|]. later_tables. Qed.
Lemma good_task s t row : (forall old, tasks s !! t = Some old -> task_le old row) ->
  ledger_tables s (with_tasks s (<[t := row]> (tasks s))) /\ later s (with_tasks s (<[t := row]> (tasks s))).
Proof. intros Hle. split; [done|]. later_tables. by apply (table_le_insert task_le). Qed.
Lemma good_callback s e row : (forall old, callbacks s !! e = Some old -> callback_le old row) ->
  ledger_tables s (with_callbacks s (<[e := row]> (callbacks s))) /\ later s (with_callbacks s (<[e := row]> (callbacks s))).
Proof. intros Hle. split; [done|]. later_tables. by apply (table_le_insert callback_le). Qed.
Lemma good_view s t row : (forall old, view_status s !! t = Some old -> view_le old row) ->
  ledger_tables s (with_view_status s (<[t := row]> (view_status s))) /\ later s (with_view_status s (<[t := row]> (view_status s))).
Proof. intros Hle. split; [done|]. later_tables. by apply (table_le_insert view_le). Qed.

Lemma good_CreatePrincipal s now p s' : CreatePrincipal s now p = Ok s' -> good_step s s'.
Proof.
  unfold CreatePrincipal. cbv zeta. intros E. do 2 (apply fail_if_bind_ok in E as [_ E]). apply bind_ok in E as (m & _ & E).
  apply wrap_ok in E. eapply good_then_audit; [apply good_principals..|exact E].
Qed.

Lemma good_DisablePrincipal s now id at_ r : DisablePrincipal s now id at_ = Ok r -> good_step s r.1.
Proof.
  unfold DisablePrincipal. cbv zeta. intros E. apply fail_if_bind_ok in E as [_ E]. apply bind_ok in E as (p & _ & E).
  apply Ok_inj in E as <-. apply good_tables; apply good_principals.
Qed.

Lemma good_CreateTask s now t s' : CreateTask normalizeJSON s now t = Ok s' -> good_step s s'.
Proof.
  unfold CreateTask. cbv zeta. intros E. do 2 (apply fail_if_bind_ok in E as [_ E]). apply bind_ok in E as (ctx & _ & E).
  apply bind_ok in E as (root & _ & E). apply fail_if_bind_ok in E as [_ E]. apply seq_ok in E as [_ E].
  apply bind_ok in E as (m & Hm%wrap_ok & E%wrap_ok). apply insert_new_ok in Hm as [Hn ->].
  eapply good_then_audit; [| |exact E]; apply good_task; intros old Hold; congruence.
Qed.

Lemma moved_le s t row to reason now expires : tasks s !! t = Some row -> allowedTransition (tState row) to reason = true ->
  forall old, tasks s !! t = Some old -> task_le old (moved row to reason now expires).
Proof.
  intros Hr Ha old Hold. rewrite Hr in Hold. injection Hold as <-. do 3 (split; [done|]). intros Hst. exfalso.
  rewrite Hst in Ha. unfold allowedTransition in Ha. apply andb_true_iff in Ha as [_ Ha]. discriminate Ha.
Qed.

Lemma good_TransitionTask s now change r : TransitionTask normalizeJSON s now change = Ok r -> good_step s r.1.
Proof.
  unfold TransitionTask. cbv zeta. intros E. apply fail_if_bind_ok in E as [_ E]. apply bind_ok in E as (p & _ & E).
  apply bind_ok in E as (row & Hr%wrap_ok%select_ok & E). apply fail_if_bind_ok in E as [_ E].
  apply fail_if_bind_ok in E as [Ha%negb_false_iff E]. apply bind_ok in E as (s1 & E1%wrap_ok & E). apply Ok_inj in E as <-.
  eapply good_then_audit; [| |exact E1]; apply good_task; by eapply moved_le.
Qed.

Lemma good_RecordApprovalEvent s now id e s' : RecordApprovalEvent normalizeJSON s now id e = Ok s' -> good_step s s'.
Proof.
  unfold RecordApprovalEvent. cbv zeta. intros E. apply fail_if_bind_ok in E as [_ E]. apply bind_ok in E as (p & _ & E).
  apply seq_ok in E as [_ E]. apply bind_ok in E as (m & _ & E%wrap_ok).
  eapply good_then_audit; [apply good_approvals..|exact E].
Qed.

Lemma good_MarkTask s now t d r : MarkTaskViewSemanticChanged s now t d = Ok r -> good_step s r.1.
Proof.
  unfold MarkTaskViewSemanticChanged. cbv zeta. intros E. apply fail_if_bind_ok in E as [_ E]. apply bind_ok in E as (row & _ & E).
  apply bind_ok in E as (v & Hv%wrap_ok%select_ok & E). destruct (same (vStatus v) _ || same d _); [by apply Ok_inj in E as <-|].
  apply fail_if_bind_ok in E as [Hst%negb_false_iff%same_true E]. apply bind_ok in E as (s1 & E1%wrap_ok & E). apply Ok_inj in E as <-.
  eapply good_then_audit; [| |exact E1]; apply good_view; intros old Hold; rewrite Hv in Hold; injection Hold as <-;
    (split; [done|]; by rewrite Hst).
Qed.

(** ** Grants *)
Lemma good_insertGrant s g scope s' : insertGrantAndBudget s g scope = Ok s' -> positive_budget (gBudget (tgRow g)) = true -> good_step s s'.
Proof.
  unfold insertGrantAndBudget. cbv zeta. intros E Hpos. apply seq_ok in E as [_ E].
  apply bind_ok in E as (gm & Hg & E). apply insert_new_ok in Hg as [Hgn ->].
  apply bind_ok in E as (s1 & E1 & E). apply bind_ok in E as (bm & Hb & E). apply insert_new_ok in Hb as [Hbn ->].
  set (row := MkGrantRow _ _ _ _ _ _ _ _ _ _ _ _ _ _ _ _ _ _) in *.
  assert (G1 : good_step s s1).
  { assert (G0 : good_step s (with_grants s (<[tgTaskID g := row]> (grants s)))).
    { apply good_tables; [done|]. later_tables. apply (table_le_insert eq). intros old Hold. congruence. }
    destruct (tgViewBindingSet g) as [binding|]; [|by apply Ok_inj in E1 as <-].
    unfold insertTaskViewBindingTx in E1. apply bind_ok in E1 as (sets & _ & E1). apply bind_ok in E1 as (deps & _ & E1).
    apply bind_ok in E1 as (st & Hst & E1). apply Ok_inj in E1 as <-. apply insert_new_ok in Hst as [Hsn ->].
    etrans; [exact G0|]. apply good_tables; [done|]. later_tables. apply (table_le_insert view_le).
    intros old Hold. cbn [view_status with_grants] in *. congruence. }
  etrans; [exact G1|]. set (b := MkBudget _ _ _ _) in *.
  apply ensureExposureLedgerTx_ok in E as (R & Hinv & Hres & So).
  split; [|etrans; [|by apply resource_later]; by later_tables]. intros [I1 I2 I3].
  unfold positive_budget in Hpos. apply negb_true_iff in Hpos. rewrite !orb_false_iff, !Z.leb_gt in Hpos. split.
  - apply (budget_inv_frame (with_budgets s1 (<[tgTaskID g := b]> (budgets s1)))); [apply R..|].
    apply budget_inv_new; [done..| |done]. intros []; cbn; lia.
  - apply Hinv. by apply (exposure_inv_frame s1).
  - apply (link_frame (with_budgets s1 (<[tgTaskID g := b]> (budgets s1)))); [done|apply R|done|]. by apply (link_frame s1).
Qed.

Lemma good_PutGrant s now g s' : PutGrant normalizeJSON decode_binding s now g = Ok s' -> good_step s s'.
Proof.
  unfold PutGrant. cbv zeta. intros E. apply fail_if_bind_ok in E as [_ E]. apply seq_ok in E as [_ E].
  apply fail_if_bind_ok in E as [Hpos%negb_false_iff E]. apply seq_ok in E as [_ E]. apply bind_ok in E as (scope & _ & E).
  apply bind_ok in E as (t & _ & E). apply fail_if_bind_ok in E as [_ E]. apply bind_ok in E as (s1 & E1%wrap_ok & E%wrap_ok).
  etrans; [|by eapply good_audit]. eapply good_insertGrant; [exact E1|]. unfold grant_at, created_at. cbn [tgRow].
  by destruct (IsZero _).
Qed.

(** ** Callbacks *)
Lemma claim_ok s e hash now r : claimCallbackTx s e hash now = Ok r ->
  good_step s r.1 /\ ledger_tables s r.1 /\ tasks r.1 = tasks s /\ approvals r.1 = approvals s /\
  ((exists row, clClaimed r.2 = true /\ clReplay r.2 = false /\ callbacks r.1 = <[e := row]> (callbacks s) /\
      cbPayloadSHA256 row = hash /\ cbStatus row = CallbackProcessing) \/
   (exists row, r.1 = s /\ callbacks s !! e = Some row /\ cbPayloadSHA256 row = hash /\ cbStatus row = CallbackCompleted /\
      r.2 = MkClaim e CallbackCompleted false true (cbResponse row))).
Proof.
  assert (Hclaim : forall row, (forall old, callbacks s !! e = Some old -> callback_le old row) ->
    good_step s (with_callbacks s (<[e := row]> (callbacks s)))).
  { intros row Hle. apply good_tables; by apply good_callback. }
  unfold claimCallbackTx. cbv zeta. destruct (callbacks s !! e) as [row|] eqn:Erow.
  2:{ intros E%Ok_inj. subst r. cbn [fst snd]. split; [by apply Hclaim|]. do 3 (split; [done|]). left. eauto 10. }
  intros E. apply fail_if_bind_ok in E as [Hh%negb_false_iff%same_true E].
  destruct (same (cbStatus row) CallbackCompleted) eqn:Ec.
  { apply Ok_inj in E as <-. apply same_true in Ec. split; [reflexivity|]. do 3 (split; [done|]). right. exists row. cbn. rewrite Ec. auto. }
  destruct (same (cbStatus row) CallbackProcessing); [done|]. destruct (same (cbStatus row) CallbackRetryable) eqn:Er; [|done].
  apply Ok_inj in E as <-. cbn [fst snd]. apply same_true in Er. split; [|do 3 (split; [done|]); left; eauto 10].
  apply Hclaim. intros old [= <-]. split; [done|]. by rewrite Er.
Qed.

Lemma good_ClaimCallback s now e p r : ClaimCallback s now e p = Ok r -> good_step s r.1.
Proof.
  unfold ClaimCallback. cbv zeta. intros E. apply fail_if_bind_ok in E as [_ E]. apply bind_ok in E as ([s1 c] & E1 & E).
  apply claim_ok in E1 as [G _]. cbn [fst] in G. destruct (clClaimed c).
  - apply bind_ok in E as (s2 & E2%wrap_ok & E). apply Ok_inj in E as <-. etrans; [exact G|by eapply good_audit].
  - by apply Ok_inj in E as <-.
Qed.

Lemma complete_ok s e response now s' : completeCallbackTx s e response now = Ok s' -> good_step s s' /\
  exists row row', callbacks s !! e = Some row /\ cbStatus row = CallbackProcessing /\ s' = with_callbacks s (<[e := row']> (callbacks s)) /\
    cbPayloadSHA256 row' = cbPayloadSHA256 row /\ cbStatus row' = CallbackCompleted /\ cbResponse row' = response.
Proof.
  unfold completeCallbackTx. cbv zeta. destruct (callbacks s !! e) as [row|] eqn:Er; [|done].
  destruct (same (cbStatus row) CallbackProcessing) eqn:Ep; [|done]. intros E%Ok_inj. apply same_true in Ep. subst s'. split.
  - apply good_tables; apply good_callback; intros old Hold; rewrite Er in Hold; injection Hold as <-; (split; [done|]; by rewrite Ep).
  - eexists row, _. split; [done|]. split; [done|]. split; [reflexivity|]. done.
Qed.

Lemma good_CompleteCallback s now e p resp s' : CompleteCallback s now e p resp = Ok s' -> good_step s s'.
Proof.
  unfold CompleteCallback. cbv zeta. intros E. apply fail_if_bind_ok in E as [_ E]. apply bind_ok in E as (row & _ & E).
  apply fail_if_bind_ok in E as [_ E]. destruct (same (cbStatus row) CallbackCompleted).
  - apply fail_if_bind_ok in E as [_ E]. by apply Ok_inj in E as <-.
  - apply fail_if_bind_ok in E as [_ E]. apply bind_ok in E as (s1 & E1%wrap_ok & E%wrap_ok). apply complete_ok in E1 as [G _].
    etrans; [exact G|by eapply good_audit].
Qed.

Lemma good_FailCallback s e p f s' : FailCallback s e p f = Ok s' -> good_step s s'.
Proof.
  unfold FailCallback. cbv zeta. intros E. apply fail_if_bind_ok in E as [_ E]. destruct (callbacks s !! e) as [row|] eqn:Er; [|done].
  destruct (same (cbPayloadSHA256 row) _ && _) eqn:Ep; [|done]. apply andb_true_iff in Ep as [_ Ep%same_true]. apply Ok_inj in E as <-.
  apply good_tables; apply good_callback; intros old Hold; rewrite Er in Hold; injection Hold as <-; (split; [done|]; by rewrite Ep).
Qed.

Lemma apply_grant_ok s op now g r : apply_grant normalizeJSON decode_binding s op now g = Ok r ->
  good_step s r.1 /\ tasks r.1 = tasks s /\ callbacks r.1 = callbacks s.
Proof.
  unfold apply_grant. destruct g as [g|]; [|by intros E%Ok_inj; subst]. intros E. apply seq_ok in E as [Hc E].
  apply bind_ok in E as (scope & _ & E). apply bind_ok in E as (s1 & E1%wrap_ok & E). apply Ok_inj in E as <-. cbn [fst].
  unfold check_callback_grant in Hc. apply fail_if_bind_ok in Hc as [[Hpos%negb_false_iff _]%orb_false_iff _].
  split; [by eapply good_insertGrant|]. clear Hpos. revert E1. unfold insertGrantAndBudget. cbv zeta. intros E. apply seq_ok in E as [_ E].
  apply bind_ok in E as (gm & _ & E). apply bind_ok in E as (s2 & E2 & E). apply bind_ok in E as (bm & _ & E).
  assert (H2 : tasks s2 = tasks s /\ callbacks s2 = callbacks s).
  { destruct (tgViewBindingSet _) as [binding|]; [|by apply Ok_inj in E2 as <-].
    unfold insertTaskViewBindingTx in E2. apply bind_ok in E2 as (sets & _ & E2). apply bind_ok in E2 as (deps & _ & E2).
    apply bind_ok in E2 as (st & _ & E2). by apply Ok_inj in E2 as <-. }
  apply ensureExposureLedgerTx_ok in E as (R & _). destruct R as (-> & _ & _ & _ & _ & _ & -> & _). done.
Qed.

(** An approval decision: a replay, or the whole decision at once. *)
Lemma ApplyApprovalCallback_ok s now c r : ApplyApprovalCallback normalizeJSON decode_binding s now c = Ok r ->
  let hash := callbackPayloadHash (acRawPayload c) in
  good_step s r.1 /\ exists row, callbacks r.1 !! acEventID c = Some row /\ cbPayloadSHA256 row = hash /\
    cbStatus row = CallbackCompleted /\ clResponse r.2 = cbResponse row /\
    (clReplay r.2 = true /\ r.1 = s \/
     clReplay r.2 = false /\ cbResponse row = acResponse c /\
     exists t, option_map tState (tasks s !! t) <> Some TaskArchived /\ t = apTaskID (acEvent c) /\
       option_map tState (tasks r.1 !! t) = Some (acNewState c)).
Proof.
  unfold ApplyApprovalCallback. cbv zeta. intros E. do 3 (apply fail_if_bind_ok in E as [_ E]). apply bind_ok in E as (payload & _ & E).
  apply bind_ok in E as ([s1 claim] & E1 & E). destruct (claim_ok _ _ _ _ _ E1) as (G1 & _ & T1 & _ & Hc). cbn [fst snd] in *.
  destruct Hc as [(row & Hcl & Hrep & Hcb & Hh & Hst)|(row & Hs & Hrow & Hh & Hst & ->)].
  2:{ cbn [clReplay] in E. apply Ok_inj in E as <-. cbn [fst snd clResponse clReplay]. split; [by rewrite Hs|].
      exists row. rewrite Hs. auto 10. }
  rewrite Hrep in E. apply bind_ok in E as (t & Ht%wrap_ok%select_ok & E). apply fail_if_bind_ok in E as [_ E].
  apply fail_if_bind_ok in E as [Ha%negb_false_iff E]. apply bind_ok in E as (ap & _ & E). apply bind_ok in E as ([s2 expires] & E2 & E).
  apply apply_grant_ok in E2 as (G2 & T2 & C2). cbn [fst] in *. apply bind_ok in E as (s3 & E3%wrap_ok & E).
  apply bind_ok in E as (s4 & E4%wrap_ok & E). apply Ok_inj in E as <-. cbn [fst snd clReplay clResponse].
  set (next := moved _ _ _ _ _) in *. cbn [tasks callbacks with_approvals] in T2, C2.
  pose proof E3 as (_ & T3 & _)%appendAudit_frame. assert (C3 : callbacks s3 = callbacks s2) by (by apply appendAudit_resource in E3 as (_ & _ & _ & _ & _ & _ & ? & _)).
  apply complete_ok in E4 as (G4 & row0 & row' & Hrow0 & _ & Hs4 & Hp & Hst' & Hresp).
  rewrite C3, C2, Hcb, lookup_insert_eq in Hrow0. injection Hrow0 as <-. split.
  - etrans; [exact G1|]. etrans; [apply good_tables; apply good_approvals|]. etrans; [exact G2|]. etrans; [|exact G4].
    eapply good_then_audit; [| |exact E3]; apply good_task; intros old Hold; rewrite T2 in Hold; by eapply moved_le.
  - exists row'. rewrite Hs4. cbn [callbacks with_callbacks tasks]. rewrite lookup_insert_eq, Hp, T3. cbn [tasks with_tasks].
    split; [done|]. split; [done|]. split; [done|]. split; [done|]. right. split; [done|]. split; [done|].
    eexists. split; [|split; [reflexivity|]].
    + rewrite <- T1, Ht. cbn [option_map]. intros [= Hst0]. rewrite Hst0 in Ha. unfold allowedTransition in Ha.
      apply andb_true_iff in Ha as [_ Ha]. discriminate Ha.
    + by rewrite lookup_insert_eq.
Qed.

(** ** Recovery *)
Lemma elem_interrupted s r : r ∈ interrupted s <-> exists q, queries s !! q = Some r /\ qStatus r = QueryReserved.
Proof.
  unfold interrupted. rewrite list_elem_of_omap. split.
  - intros ([created q] & Hk & Hr). rewrite elem_go_sort, list_elem_of_omap in Hk. destruct Hk as ([q' r'] & Hk%elem_of_map_to_list & E).
    cbn [snd fst] in *. destruct (same (qStatus r') QueryReserved) eqn:Es; [|done]. injection E as <- <-. apply same_true in Es. exists q'.
    rewrite Hk in Hr. by injection Hr as <-.
  - intros (q & Hq & Hst). exists (qCreatedAt r, q). split; [|done]. apply elem_go_sort, list_elem_of_omap. exists (q, r).
    split; [by apply elem_of_map_to_list|]. cbn [snd fst]. by rewrite (proj2 (same_true _ _) Hst).
Qed.

Lemma interrupted_same s r : control_inv s -> r ∈ interrupted s -> queries s !! qID r = Some r.
Proof. intros I (q & Hq & _)%elem_interrupted. by rewrite (ro_id _ _ _ (bi_record s (ci_budget s I) _ _ Hq)). Qed.

Lemma same_request_later s s' q r record : later s s' -> queries s !! q = Some r -> queries s' !! q = Some record -> same_request r record.
Proof. intros L Hr Hr'. destruct (lt_record _ _ L q r Hr) as (x & Hx & ? & _). rewrite Hr' in Hx. by injection Hx as <-. Qed.

Lemma good_archives s now l s' : fold_res (fun s task => archiveTaskTx s task TerminalExpired "system" now) s l = Ok s' -> good_step s s'.
Proof.
  intros E. eapply (fold_res_inv _ (good_step s)); [|reflexivity|exact E]. intros s1 t s2 _ G E1. etrans; [exact G|exact (good_archive _ _ _ _ _ _ E1)].
Qed.

Lemma good_retry s : good_step s (with_callbacks s (retry_callback <$> callbacks s)).
Proof.
  apply good_tables; [done|]. later_tables. cbn [callbacks with_callbacks]. intros e c Hc. exists (retry_callback c).
  rewrite lookup_fmap, Hc. split; [done|]. unfold retry_callback, processing. destruct (same (cbStatus c) CallbackProcessing) eqn:Ep; [|done].
  apply same_true in Ep. split; [done|]. by rewrite Ep.
Qed.

Lemma recover_fold s now l s' : (forall r, r ∈ l -> queries s !! qID r = Some r) -> fold_res (recover_one now) s l = Ok s' -> good_step s s'.
Proof.
  intros Hl E. eapply (fold_res_inv _ (good_step s)); [|reflexivity|exact E]. intros s1 r s2 Hr G E1. etrans; [exact G|].
  eapply (good_recover_one now s1 r s2 E1). intros record Hrec. destruct G as [_ L].
  eapply same_request_later; [exact L|by apply Hl|exact Hrec].
Qed.

Lemma good_Recover s now r : control_inv s -> Recover s now = Ok r -> good_step s r.1.
Proof.
  unfold Recover. cbv zeta. intros I E%wrap_ok. apply bind_ok in E as (s1 & E1 & E). apply bind_ok in E as (s2 & E2 & E).
  apply bind_ok in E as (s3 & E3 & E). apply Ok_inj in E as <-. cbn [fst].
  etrans; [eapply recover_fold; [|exact E1]; intros x Hx; by apply interrupted_same|]. etrans; [by eapply good_archives|].
  etrans; [apply good_retry|]. destruct (0 <? _); [by eapply good_audit|by apply Ok_inj in E3 as <-].
Qed.

Lemma step_good s s' : control_inv s -> step s s' -> control_inv s' /\ later s s'.
Proof.
  intros I St. assert (G : good_step s s' \/ control_inv s' /\ later s s'); [|by destruct G as [[G ?]|]; auto].
  destruct St; [left..|right].
  - by eapply good_CreatePrincipal.
  - by eapply good_DisablePrincipal.
  - by eapply good_CreateTask.
  - by eapply good_TransitionTask.
  - by eapply good_PutGrant.
  - by eapply good_RecordApprovalEvent.
  - by eapply good_MarkTask.
  - by eapply good_ClaimCallback.
  - by eapply good_CompleteCallback.
  - by eapply good_FailCallback.
  - match goal with E : ApplyApprovalCallback _ _ _ _ _ = Ok _ |- _ => apply (ApplyApprovalCallback_ok _ _ _ _ E) end.
  - apply good_reserve.
  - destruct r. by eapply good_settle.
  - by eapply good_Recover.
  - by eapply good_audit.
  - match goal with F : finalizable _ _ _ = Ok tt |- _ => destruct (finalizable_use _ _ _ F) end. by eapply attempt_good.
Qed.

Lemma attach_inv s s' : control_inv s -> attach s s' -> control_inv s'.
Proof.
  intros I St. destruct St.
  - match goal with F : finalizable _ _ _ = Ok tt |- _ => destruct (finalizable_use _ _ _ F) end. by eapply attempt_inv.
  - by eapply save_inv.
Qed.

Lemma start_inv o : (forall v q, ord_has v o q = false) -> control_inv (start o).
Proof.
  intros Ho. split; split; cbn [budgets queries ledgers reservations facts ordinal start].
  - intros t b. by rewrite lookup_empty.
  - intros q r. by rewrite lookup_empty.
  - intros q r q' r'. by rewrite lookup_empty.
  - intros root l. by rewrite lookup_empty.
  - intros k v. by rewrite lookup_empty.
  - intros q r. by rewrite lookup_empty.
  - intros q x. by rewrite lookup_empty.
  - intros v q status Hs. specialize (Ho v q). rewrite ord_has_status, Hs in Ho. discriminate Ho.
Qed.

Lemma steps_good s s' : control_inv s -> steps s s' -> control_inv s' /\ later s s'.
Proof.
  intros I St. induction St as [s|s s1 s2 _ IH St]; [done|]. destruct (IH I) as [I1 L1]. destruct (step_good s1 s2 I1 St) as [I2 L2].
  split; [done|by etrans].
Qed.

Lemma reach_inv s : reach s -> control_inv s.
Proof.
  intros (o & Ho & St). pose proof (start_inv o Ho) as I. clear Ho. remember (start o) as s0 eqn:E. clear E.
  induction St as [s|s s1 s2 _ IH St|s s1 s2 _ IH St]; [done|by eapply step_good; [apply IH|]|by eapply attach_inv; [apply IH|]].
Qed.

(** ** The properties *)
(** C1: In every reachable state the accounting is exact.  A task's use and
    reservations are the sums of what its queries were charged and hold, and
    together stay within its limits in queries, rows and database time; a
    family's exposure use of every kind is the number of facts in its ledger,
    the sum of its queries' charges, and within its limit. *)
Theorem accounting_exact s : reach s ->
  (forall task b, budgets s !! task = Some b -> forall d,
    0 <= used_d d b /\ 0 <= held_d d b /\ used_d d b + held_d d b <= limit_d d (Limits b) /\
    held_d d b = msum (holds d task) (queries s) /\ used_d d b = msum (charges d task) (queries s)) /\
  (forall root l, ledgers s !! root = Some l -> forall p,
    limit_of p (lUsed l) = Z.of_nat (size (ledger_hashes (facts s) root (kind_name p))) /\
    limit_of p (lUsed l) = msum (charged_in root p) (reservations s) /\
    limit_of p (lUsed l) <= limit_of p (lLimits l)).
Proof.
  intros [I1 I2 _]%reach_inv. split.
  - intros task b Hb. apply (bi_budget s I1 task b Hb).
  - intros root l Hl p. rewrite size_ledger_hashes. destruct (ei_ledger s I2 root l Hl p) as (? & ? & ?). done.
Qed.

(** C16: What is final stays.  Whatever transactions follow, a request keeps its
    query, digest, hold and budget snapshot, and a settled query its record; an
    archived task, a completed callback, a view binding found changed and a
    grant are never altered; and the audit log is only extended. *)
Theorem history_final s s' : reach s -> steps s s' -> later s s'.
Proof. intros I%reach_inv St. by apply (steps_good s). Qed.
End runs.

(** ** A run

    Ann's task is created, submitted, approved by a callback that carries its
    grant, reserves for one query and settles it. *)
Definition committed (r : result (Store unit)) : Store unit := match r with Ok s => s | Err _ => start tt end.
Definition stored {A} (r : result (Store unit * A)) : Store unit := match r with Ok (s, _) => s | Err _ => start tt end.

Definition same_bytes (a b : bytes) : bool := bool_decide (a = b).
Definition normalize_text (raw default : string) : result string := Ok (if same raw "" then default else raw).
Definition no_bindings (b : bytes) : result ViewBinding.BindingSet := Err (ErrNew "unexpected end of JSON input").
Abbreviation Reach := (reach (H := text_literals) same_bytes normalize_text no_bindings).
Abbreviation Steps := (steps (H := text_literals) same_bytes normalize_text no_bindings).
Abbreviation Step := (step (H := text_literals) same_bytes normalize_text no_bindings).

Definition ann_grant := MkTaskGrant "t" (MkGrantRow "ann" "sales" [] ∅ "{}" "low" (MkLimits 5 100 1000) 90 "v1" zeros "db" zeros "r" 3 ""
  ProfileV2 (MkExposure 3 3 0) None) None.
Definition decision := MkApprovalCallback "e1" (to_bytes "approved") "" (MkApproval "t" "boss" "approve" "" 0) TaskAwaitingApproval TaskActive ""
  (Some ann_grant) (to_bytes "ok").
Definition request := MkReserve "q1" "t" "r1" "ann" "digest" "fp" "v1" zeros "db" zeros "" zeros zeros "allow" 10 0
  (Some (MkExposureRequest ProfileV2 (MkExposure 2 2 0))).
Definition outcome := MkSettlement _ _ "q1" 4 7 7 "" (MkEvidence (Observed := Empty_set) (Referenced := Empty_set) (Some obs_v2) None None) false.

Definition tx1 := CreatePrincipal (start tt) 1 (MkPrincipal "p" "ann" "analyst" "" 0 None).
Definition tx2 := CreateTask normalize_text (committed tx1) 2 (MkTask "t" "p" "sales" "" "" "v1" "low" "" "" 0 0 None "" "").
Definition tx3 := TransitionTask normalize_text (committed tx2) 3 (MkTransition "t" "" TaskAwaitingApproval "" "ann" "" None).
Definition tx4 := ApplyApprovalCallback normalize_text no_bindings (stored tx3) 4 decision.
Definition tx5 := ReserveBudget (stored tx4) (fun _ => 5) request.
Definition tx6 := SettleBudget (H := text_literals) same_bytes tx5.1 6 outcome.

Lemma committed_ok r : is_ok r = true -> r = Ok (committed r).
Proof. by destruct r. Qed.
Lemma stored_ok {A} (r : result (Store unit * A)) : is_ok r = true -> exists a, r = Ok (stored r, a).
Proof. destruct r as [[s a]|]; [by exists a|done]. Qed.

Lemma demo_submitted decode : reach (H := text_literals) same_bytes normalize_text decode (stored tx3).
Proof.
  exists tt. split; [done|]. assert (E1 : is_ok tx1 = true) by (vm_compute; reflexivity). assert (E2 : is_ok tx2 = true) by (vm_compute; reflexivity).
  assert (E3 : is_ok tx3 = true) by (vm_compute; reflexivity). apply committed_ok in E1, E2. apply stored_ok in E3 as [x3 E3].
  eapply runs_step; [eapply runs_step; [eapply runs_step; [apply runs_refl|]|]|].
  - eapply step_create_principal. exact E1.
  - eapply step_create_task. exact E2.
  - exact (step_transition _ _ _ _ _ _ _ E3).
Qed.

Lemma reach_step `{SQLLiterals} {O Observed Referenced : Type} `{!OrdinalExposure O Observed Referenced} sameJSON normalizeJSON decode_binding (s s' : Store O) :
  reach sameJSON normalizeJSON decode_binding s -> step sameJSON normalizeJSON decode_binding s s' -> reach sameJSON normalizeJSON decode_binding s'.
Proof. intros (o & Ho & St) St'. exists o. split; [done|]. by eapply runs_step. Qed.

Lemma demo_active : Reach (stored tx4).
Proof.
  assert (E4 : is_ok tx4 = true) by (vm_compute; reflexivity). apply stored_ok in E4 as [x4 E4].
  eapply reach_step; [apply demo_submitted|]. exact (step_decide _ _ _ _ _ _ _ E4).
Qed.

Lemma demo_reserved : Steps (stored tx4) tx5.1.
Proof. eapply steps_step; [apply steps_refl|apply step_reserve]. Qed.
Lemma demo_tx6 : exists r, settle (H := text_literals) same_bytes tx5.1 6 outcome QueryCompleted = Ok (stored tx6, r).
Proof.
  assert (E : is_ok tx6 = true) by (vm_compute; reflexivity). unfold tx6, SettleBudget in *. by apply stored_ok.
Qed.
Lemma demo_settled : Steps tx5.1 (stored tx6).
Proof. destruct demo_tx6 as [x E]. eapply steps_step; [apply steps_refl|]. exact (step_settle _ _ _ _ _ _ _ _ E). Qed.

Lemma demo_reach5 : Reach tx5.1.
Proof. eapply reach_step; [apply demo_active|apply step_reserve]. Qed.
Lemma demo_reach : Reach (stored tx6).
Proof. destruct demo_tx6 as [x E]. eapply reach_step; [apply demo_reach5|]. exact (step_settle _ _ _ _ _ _ _ _ E). Qed.
Lemma demo_both : Steps (stored tx4) (stored tx6).
Proof. destruct demo_tx6 as [x E]. eapply steps_step; [apply demo_reserved|]. exact (step_settle _ _ _ _ _ _ _ _ E). Qed.

(** The same query finalized instead, its result stored under key [k]. *)
Definition no_results := MkResults ∅ ∅ ∅.
Definition tx7 := finalizePreparedQueryAttempt (H := text_literals) same_bytes normalize_text (fun _ => None) no_results tx5.1 6 outcome
  (PreparedCiphertext "q1" (MkEncrypted "t" "k" zeros 6)).

Lemma demo_finalized : match tx7 with
  | Ok (t, s, record) => qStatus record = QueryCompleted /\ qResultSHA256 record = zeros /\ queries s !! "q1" = Some record /\
      aEventType <$> last (audit s) = Some "QUERY_RESULT_STORED" /\ result_keys t !! "k" = Some ResultEncryptionKeyActive
  | Err _ => False
  end.
Proof. vm_compute. done. Qed.

Lemma accounting_exact_witness : exists b, budgets (stored tx6) !! "t" = Some b /\ held_d DRows b = 0 /\
  used_d DRows b = msum (charges DRows "t") (queries (stored tx6)).
Proof.
  destruct (budgets (stored tx6) !! "t") as [b|] eqn:Eb; [|vm_compute in Eb; discriminate Eb]. exists b. split; [reflexivity|].
  destruct (proj1 (accounting_exact _ _ _ _ demo_reach) "t" b Eb DRows) as (_ & _ & _ & _ & Hu). split; [|exact Hu].
  vm_compute in Eb. injection Eb as <-. reflexivity.
Defined.

Lemma history_final_witness : later (stored tx4) (stored tx6).
Proof. exact (history_final _ _ _ _ _ demo_active demo_both). Defined.
End ControlRuns.
