(* ===== verification/ControlProps.v ===== *)
(** * What the Control store promises its callers

    Theorems about runs of [ControlRuns]: retries, settlements, progress,
    recovery, failed requests, changed views and approval callbacks. *)

From S2P Require Import Prelude GoBytes Ordering GoText Sha256 Task ViewBinding FactId FactSet LedgerStore ExposureLedger ControlTasks Callbacks BudgetLedger BudgetInvariant ControlRuns.
Import FactId FactSet Store ExposureLedger ControlTasks Callbacks BudgetLedger BudgetInvariant ControlRuns.

Module ControlProps.

Lemma same_refl a : same a a = true.
Proof. by apply same_true. Qed.

Section props.
Context `{SQLLiterals} {O Observed Referenced : Type} `{!OrdinalExposure O Observed Referenced} `{!OrdinalLaws O Observed Referenced}.
Context (sameJSON : bytes -> bytes -> bool) (normalizeJSON : string -> string -> result string)
  (decode_binding : bytes -> result ViewBinding.BindingSet).
Implicit Types s : Store O.
Abbreviation reach := (reach sameJSON normalizeJSON decode_binding).
Abbreviation steps := (steps sameJSON normalizeJSON decode_binding).
Abbreviation settle := (settle sameJSON).
Abbreviation ApplyApprovalCallback := (ApplyApprovalCallback normalizeJSON decode_binding).

Lemma reach_later s s' : reach s -> steps s s' -> control_inv s /\ control_inv s' /\ later s s'.
Proof. intros R%reach_inv St. destruct (steps_good _ _ _ s s' R St). auto. Qed.

(** ** Requests *)
(** The record of a request, as its reservation reports it. *)
Definition reported (rq : ReserveRequest) (b : BudgetReservation) (r : QueryRecord) : Prop :=
  qID r = brQueryID b /\ qTaskID r = brTaskID b /\ qRequestID r = brRequestID b /\ qReservedRows r = brAllowedRows b /\
  qReservedDBMS r = brAllowedDBMS b /\ qBudgetBefore r = brBefore b /\ qTaskID r = rqTaskID rq /\ qRequestID r = rqRequestID rq /\
  qRequestDigest r = rqRequestDigest rq /\ qActor r = rqActor rq /\ qViewBindingDigest r = rqViewBindingDigest rq.

Lemma find_request_unique s q r : budget_inv s -> queries s !! q = Some r -> find_request s (qTaskID r) (qRequestID r) = Some r.
Proof.
  intros I Hr. destruct (find_request_ok s (qTaskID r) (qRequestID r)) as [Hs Hn].
  destruct (find_request s (qTaskID r) (qRequestID r)) as [r'|]; [|by destruct (Hn eq_refl q r Hr)].
  destruct (Hs r' eq_refl) as (q' & Hq' & Ht & Hq). assert (q' = q) as -> by (by eapply (bi_request s I)). congruence.
Qed.

(** A new grant: an active, unexpired task without a query in progress. *)
Definition granted s (clock : nat -> Z) (rq : ReserveRequest) s' (b : BudgetReservation) : Prop :=
  exists task before grant,
    tasks s !! rqTaskID rq = Some task /\ tState task = TaskActive /\ (forall e, tExpiresAt task = Some e -> clock 0%nat < e) /\
    grants s !! rqTaskID rq = Some grant /\ check_view_binding s "reserve budget" grant rq = Ok tt /\
    holds_fresh rq task (clock 1%nat) s before s' /\ tasks s' = tasks s /\
    b = MkBudgetReservation (rqQueryID rq) (rqTaskID rq) (rqRequestID rq) (allowed (rqRows rq) (Rows (Remaining before)))
          (allowed (rqDBMS rq) (DBMS (Remaining before))) before (budgets s' !! rqTaskID rq) false None.

Lemma reserve_active_grants s op now task rq s' b : reserve_active s op now task rq = Ok (s', Ok b) ->
  exists before grant, grants s !! rqTaskID rq = Some grant /\ check_view_binding s op grant rq = Ok tt /\
    holds_fresh rq task now s before s' /\ tasks s' = tasks s /\
    b = MkBudgetReservation (rqQueryID rq) (rqTaskID rq) (rqRequestID rq) (allowed (rqRows rq) (Rows (Remaining before)))
          (allowed (rqDBMS rq) (DBMS (Remaining before))) before (budgets s' !! rqTaskID rq) false None.
Proof.
  intros E. destruct (reserve_active_ok _ _ _ _ _ _ _ E) as [(e & [=] & _)|(before & s1 & s2 & Hf & Es & E2 & E3 & Hb)].
  unfold reserve_active in E. cbv zeta in E. apply fail_if_bind_ok in E as [_ E].
  apply bind_ok in E as (grant & Hg%map_err_ok%select_ok & E). apply seq_ok in E as [Hv _].
  destruct (es_frame _ _ _ (proj1 (reserveExposureTx_ok _ _ _ _ _ _ E2))) as (T2 & B2 & Q2 & _).
  apply appendAudit_frame in E3 as ((B3 & Q3 & _) & T3 & _). exists before, grant.
  destruct Hf as (Hb0 & H1 & H2 & H3 & Eb & Eq). do 2 (split; [done|]). split; [|split].
  - unfold holds_fresh. rewrite B3, Q3, B2, Q2. done.
  - rewrite T3, T2, Es. done.
  - rewrite B3, B2, Eb, lookup_insert_eq. by injection Hb as ->.
Qed.

(** A reservation that succeeds replays its request's record or makes it. *)
Lemma reserveTx_grants s clock rq s' b : reserveTx s clock rq = Ok (s', Ok b) ->
  incomplete_request rq = false /\ negative_request rq = false /\ is_Some (tasks s' !! rqTaskID rq) /\
  (s' = s /\ brReplay b = true /\
     (exists r, find_request s (rqTaskID rq) (rqRequestID rq) = Some r /\ reported rq b r /\ brRecord b = Some r /\ brAfter b = None) \/
   brReplay b = false /\ find_request s (rqTaskID rq) (rqRequestID rq) = None /\ granted s clock rq s' b).
Proof.
  unfold reserveTx. cbv zeta. intros E. apply fail_if_bind_ok in E as [Hinc E]. apply fail_if_bind_ok in E as [Hneg E].
  do 2 (split; [done|]). apply bind_ok in E as (task & Ht%wrap_ok%select_ok & E).
  destruct (find_request_ok s (rqTaskID rq) (rqRequestID rq)) as [Hold _].
  destruct (find_request s (rqTaskID rq) (rqRequestID rq)) as [r|].
  - apply fail_if_bind_ok in E as [G E]. rewrite !orb_false_iff, !negb_false_iff, !same_true in G. apply Ok_inj in E. injection E as <- <-.
    split; [by eexists|]. left. split; [done|]. split; [done|]. exists r. destruct (Hold r eq_refl) as (q & _ & ? & ?).
    split; [done|]. split; [|done]. repeat split; try done; tauto.
  - apply fail_if_bind_ok in E as [Hst%negb_false_iff%same_true E].
    assert (Hact : (forall e, tExpiresAt task = Some e -> clock 0%nat < e) /\ reserve_active s "reserve budget" (clock 1%nat) task rq = Ok (s', Ok b)).
    { destruct (tExpiresAt task) as [e|]; [|by split]. destruct (clock 0%nat <? e) eqn:Ee; cbn [negb] in E.
      - split; [|done]. intros e' [= <-]. by apply Z.ltb_lt.
      - by apply good_archive_and_fail in E as [_ ?]. }
    destruct Hact as [Hexp (before & grant & Hg & Hv & Hf & Hts & Hb)%reserve_active_grants].
    split; [rewrite Hts; by eexists|]. right. split; [by subst b|]. split; [done|]. exists task, before, grant. done.
Qed.

Lemma reserve_tx s clock rq s' b : ReserveBudget s clock rq = (s', Ok b) -> reserveTx s clock rq = Ok (s', Ok b).
Proof. unfold ReserveBudget, commit. destruct (reserveTx s clock rq) as [[s1 r]|e]; intros [= <- <-]; done. Qed.

(** A request whose record exists is answered from it. *)
Lemma reserve_known s clock rq r : is_Some (tasks s !! rqTaskID rq) -> find_request s (rqTaskID rq) (rqRequestID rq) = Some r ->
  incomplete_request rq = false -> negative_request rq = false ->
  ReserveBudget s clock rq = (s,
    if negb (same (qRequestDigest r) (rqRequestDigest rq)) || negb (same (qActor r) (rqActor rq)) ||
       negb (same (qViewBindingDigest r) (rqViewBindingDigest rq))
    then Err (opErr "reserve budget" ErrIdempotencyConflict (Some (ErrNew "request id is bound to another digest")))
    else Ok (MkBudgetReservation (qID r) (qTaskID r) (qRequestID r) (qReservedRows r) (qReservedDBMS r) (qBudgetBefore r) None true (Some r))).
Proof.
  intros [task Ht] Hr Hinc Hneg. unfold ReserveBudget, reserveTx. cbv zeta. rewrite Hinc, Hneg. cbn [fail_if mbind result_bind].
  unfold find_row, wrap. rewrite Ht. cbn [select map_err mbind result_bind]. rewrite Hr.
  match goal with |- context [fail_if ?b _] => destruct b end; done.
Qed.

(** C4: A query slot is given only when it is free and inside the budget.  A
    successful reservation that is not a replay was made for an active task,
    before its deadline, with its view binding intact and no query in progress;
    the rows and database time it holds are at least one, at most what remains
    of the budget and at most what was asked for; exactly one record is added,
    under a new query id. *)
Theorem reserve_grants s clock rq s' b : reach s -> ReserveBudget s clock rq = (s', Ok b) -> brReplay b = false ->
  (exists task, tasks s !! rqTaskID rq = Some task /\ tState task = TaskActive /\ forall e, tExpiresAt task = Some e -> clock 0%nat < e) /\
  (forall q r, queries s !! q = Some r -> qTaskID r = rqTaskID rq -> qStatus r <> QueryReserved) /\
  (exists r, queries s !! rqQueryID rq = None /\ queries s' = <[rqQueryID rq := r]> (queries s) /\ qStatus r = QueryReserved /\ reported rq b r) /\
  (forall before d, budgets s !! rqTaskID rq = Some before ->
    let asked := match d with DQueries => 1 | DRows => rqRows rq | DDBMS => rqDBMS rq end in
    let given := match d with DQueries => 1 | DRows => brAllowedRows b | DDBMS => brAllowedDBMS b end in
    1 <= given <= limit_d d (Limits before) - used_d d before /\ (asked <> 0 -> given <= asked)).
Proof.
  intros R E%reserve_tx Hrep. pose proof (reach_inv _ _ _ s R) as I.
  destruct (reserveTx_grants _ _ _ _ _ E) as (_ & Hneg & _ & [(_ & Hrep' & _)|(_ & _ & G)]); [congruence|].
  destruct G as (task & before & grant & Ht & Hst & Hexp & _ & _ & (Hb & Hz & Hrem & Hq & _ & Eq) & _ & ->).
  destruct (bi_budget s (ci_budget s I) _ _ Hb) as [_ Hsum]. unfold negative_request in Hneg. rewrite !orb_false_iff, !Z.ltb_ge in Hneg.
  destruct Hneg as [[Hrows Hdbms] _]. split; [eauto|]. split; [|split].
  - intros q r Hr Htask Hres. destruct (Hsum DQueries) as (_ & _ & _ & Hheld & _). cbn [held_d] in Hheld.
    assert (1 <= msum (holds DQueries (rqTaskID rq)) (queries s)); [|lia].
    replace 1 with (holds DQueries (rqTaskID rq) r) by (unfold holds; by rewrite decide_True).
    apply (msum_member _ (queries s) q); [|done]. intros q' x _. unfold holds. by destruct (decide _).
  - eexists. split; [done|]. split; [exact Eq|]. split; [done|]. repeat split.
  - intros before' d Hb'. rewrite Hb in Hb'. injection Hb' as <-. cbn [brAllowedRows brAllowedDBMS].
    pose proof (Hrem d) as Hd. rewrite remaining_d in Hd. destruct (Hsum d) as (_ & Hh & _).
    destruct d; cbn [limit_d used_d held_d] in *.
    + lia.
    + destruct (allowed_range (rqRows rq) (Rows (Remaining before)) Hrows (Hrem DRows)) as [? ?]. rewrite (remaining_d before DRows : Rows _ = _) in *. cbn in *. lia.
    + destruct (allowed_range (rqDBMS rq) (DBMS (Remaining before)) Hdbms (Hrem DDBMS)) as [? ?]. rewrite (remaining_d before DDBMS : DBMS _ = _) in *. cbn in *. lia.
Qed.

(** C3: A retried request observes the first reservation.  Whatever follows a
    successful reservation, reserving again for the same request returns the
    same query id, hold and budget snapshot with the query's record, and changes
    nothing; and the request id never serves another digest: that request is
    refused as an idempotency conflict and changes nothing. *)
Theorem retry_observes_first s clock rq s1 first s2 : reach s -> ReserveBudget s clock rq = (s1, Ok first) -> steps s1 s2 ->
  exists record, queries s2 !! brQueryID first = Some record /\ reported rq first record /\
    (forall clock', ReserveBudget s2 clock' rq =
      (s2, Ok (MkBudgetReservation (brQueryID first) (brTaskID first) (brRequestID first) (brAllowedRows first)
                 (brAllowedDBMS first) (brBefore first) None true (Some record)))) /\
    (forall clock' rq', rqTaskID rq' = rqTaskID rq -> rqRequestID rq' = rqRequestID rq -> rqRequestDigest rq' <> rqRequestDigest rq ->
      incomplete_request rq' = false -> negative_request rq' = false ->
      ReserveBudget s2 clock' rq' =
        (s2, Err (opErr "reserve budget" ErrIdempotencyConflict (Some (ErrNew "request id is bound to another digest"))))).
Proof.
  intros R E St. assert (I1 : control_inv s1).
  { pose proof (good_reserve s clock rq) as [K _]. rewrite E in K. apply K. by eapply reach_inv. }
  destruct (steps_good _ _ _ s1 s2 I1 St) as [I2 L].
  apply reserve_tx in E. destruct (reserveTx_grants _ _ _ _ _ E) as (Hinc & Hneg & [task Ht] & Hcase).
  assert (Hfirst : exists r, queries s1 !! qID r = Some r /\ reported rq first r).
  { destruct Hcase as [(-> & _ & r & Hr & Hrep & _)|(_ & _ & t & before & grant & _ & _ & _ & _ & _ & (_ & _ & _ & _ & _ & Eq) & _ & ->)].
    - destruct (find_request_ok s (rqTaskID rq) (rqRequestID rq)) as [Hs _]. destruct (Hs r Hr) as (q & Hq & _).
      exists r. split; [|done]. by rewrite (ro_id _ _ _ (bi_record s (ci_budget s I1) _ _ Hq)).
    - eexists (reserved_record rq _ _ _ _ _). split; [|by repeat split]. rewrite Eq. apply lookup_insert_eq. }
  destruct Hfirst as (r & Hr & Hrep). destruct (lt_record _ _ L _ _ Hr) as (record & Hrec & Hsame & _).
  destruct (lt_task _ _ L _ _ Ht) as (task' & Ht' & _).
  assert (Hrep' : reported rq first record).
  { unfold reported, same_request in *. destruct_and! Hsame. destruct_and! Hrep. repeat split; congruence. }
  pose proof (find_request_unique s2 _ _ (ci_budget s2 I2) Hrec) as Hfind.
  destruct Hsame as (Hid & _). rewrite <- Hid in Hrec. clear Hrep Hid.
  destruct Hrep' as (E1 & E2 & E3 & E4 & E5 & E6 & E7 & E8 & E9 & E10 & E11). exists record.
  rewrite <- E1. split; [done|]. split; [by repeat split|]. rewrite E7, E8 in Hfind. split.
  - intros clock'. rewrite (reserve_known s2 clock' rq record) by eauto. rewrite E9, E10, E11, !same_refl. cbn [negb orb].
    by rewrite <- E2, <- E3, <- E4, <- E5, <- E6.
  - intros clock' rq' T Q D Hinc' Hneg'. rewrite (reserve_known s2 clock' rq' record); rewrite ?T, ?Q; eauto.
    destruct (same (qRequestDigest record) (rqRequestDigest rq')) eqn:Es; [|done]. apply same_true in Es. congruence.
Qed.
(** ** Requests that fail *)
Lemma archive_active s task t reason now s' : tasks s !! task = Some t -> tState t = TaskActive ->
  archiveTaskTx s task reason "system" now = Ok s' ->
  tasks s' = <[task := archived t reason now]> (tasks s) /\ ledger_frame s s' /\ ordinal s' = ordinal s.
Proof.
  intros Ht Hst E. pose proof (archiveTask_frame _ _ _ _ _ _ E) as [F Ho]. split; [|done]. unfold archiveTaskTx in E.
  rewrite Ht, bool_decide_false in E by (by rewrite Hst). by apply appendAudit_frame in E as (_ & -> & _).
Qed.

(** C15: A failed request never touches the ledgers.  Reserving fails with the
    store unchanged, except that it archives the active task and says so in two
    cases: the task's deadline has passed (task expired), or a dimension of its
    budget has nothing left and no query is in progress (budget exhausted). *)
Theorem failed_reserve s clock rq s' e : ReserveBudget s clock rq = (s', Err e) ->
  s' = s \/
  exists t reason, tasks s !! rqTaskID rq = Some t /\ tState t = TaskActive /\
    tasks s' = <[rqTaskID rq := archived t reason (clock 1%nat)]> (tasks s) /\ ledger_frame s s' /\ ordinal s' = ordinal s /\
    (reason = TerminalExpired /\ errors_is e ErrTaskExpired = true /\ (exists d, tExpiresAt t = Some d /\ d <= clock 0%nat) \/
     reason = TerminalBudgetExhausted /\ errors_is e ErrBudgetExhausted = true /\
       exists b d, budgets s !! rqTaskID rq = Some b /\ held_d DQueries b = 0 /\ limit_d d (Limits b) - used_d d b - held_d d b <= 0).
Proof.
  unfold ReserveBudget, commit. destruct (reserveTx s clock rq) as [[s1 reply]|e1] eqn:E; [|intros [= <- _]; by left].
  intros [= -> ->]. right. unfold reserveTx in E. cbv zeta in E. do 2 (apply fail_if_bind_ok in E as [_ E]).
  apply bind_ok in E as (t & Ht%wrap_ok%select_ok & E).
  destruct (find_request s (rqTaskID rq) (rqRequestID rq)) as [r|]; [by apply fail_if_bind_ok in E as [_ [=]%Ok_inj]|].
  apply fail_if_bind_ok in E as [Hst%negb_false_iff%same_true E].
  assert (Hexhausted : reserve_active s "reserve budget" (clock 1%nat) t rq = Ok (s', Err e) -> exists t0 reason, tasks s !! rqTaskID rq = Some t0 /\
    tState t0 = TaskActive /\ tasks s' = <[rqTaskID rq := archived t0 reason (clock 1%nat)]> (tasks s) /\ ledger_frame s s' /\ ordinal s' = ordinal s /\
    (reason = TerminalBudgetExhausted /\ errors_is e ErrBudgetExhausted = true /\
       exists b d, budgets s !! rqTaskID rq = Some b /\ held_d DQueries b = 0 /\ limit_d d (Limits b) - used_d d b - held_d d b <= 0)).
  { clear E. intros E. destruct (reserve_active_ok _ _ _ _ _ _ _ E) as [(e0 & [= ->] & Ea & _)|(? & ? & ? & _ & _ & _ & _ & [=])].
    destruct (archive_active _ _ _ _ _ _ Ht Hst Ea) as (? & ? & ?). exists t, TerminalBudgetExhausted. do 5 (split; [done|]). do 2 (split; [done|]).
    unfold reserve_active in E. cbv zeta in E. apply fail_if_bind_ok in E as [_ E]. apply bind_ok in E as (g & _ & E). apply seq_ok in E as [_ E].
    apply bind_ok in E as (b & Hb%map_err_ok%select_ok & E). apply fail_if_bind_ok in E as [Hz%negb_false_iff%Z.eqb_eq E].
    exists b. destruct ((Queries (Remaining b) <? 1) || (Rows (Remaining b) <? 1) || (DBMS (Remaining b) <? 1)) eqn:Er.
    - assert (Hd : exists d, limit_d d (Remaining b) <? 1 = true).
      { apply orb_true_iff in Er as [Er|Er]; [apply orb_true_iff in Er as [Er|Er]|]; [by exists DQueries|by exists DRows|by exists DDBMS]. }
      destruct Hd as [d Hd%Z.ltb_lt]. rewrite remaining_d in Hd. exists d. do 2 (split; [done|]). lia.
    - repeat apply bind_ok in E as (? & _ & E). apply Ok_inj in E. discriminate E. }
  destruct (tExpiresAt t) as [d|] eqn:Ed.
  2:{ destruct (Hexhausted E) as (t0 & reason & ? & ? & ? & ? & ? & ?). eauto 10. }
  destruct (clock 0%nat <? d) eqn:El; cbn [negb] in E.
  { destruct (Hexhausted E) as (t0 & reason & ? & ? & ? & ? & ? & ?). eauto 10. }
  unfold archive_and_fail in E. apply bind_ok in E as (s1 & Ea%wrap_ok & E). apply Ok_inj in E. injection E as <- <-.
  destruct (archive_active _ _ _ _ _ _ Ht Hst Ea) as (? & ? & ?). exists t, TerminalExpired. do 5 (split; [done|]). left.
  do 2 (split; [done|]). exists d. split; [done|]. by apply Z.ltb_ge in El.
Qed.

(** C18: A task whose view changed is closed to new queries.  Once a view binding
    is marked as requiring a rebind, whatever transactions follow, every
    successful reservation of that task only replays an old request. *)
Theorem view_change_closes s now task digest s1 status s2 clock rq s3 b : reach s ->
  MarkTaskViewSemanticChanged s now task digest = Ok (s1, status) -> vStatus status = TaskViewBindingRequireRebind ->
  steps s1 s2 -> rqTaskID rq = task -> ReserveBudget s2 clock rq = (s3, Ok b) -> brReplay b = true.
Proof.
  intros R E Hst St Htask E2%reserve_tx. pose proof (reach_inv _ _ _ s R) as I.
  destruct (good_MarkTask _ _ _ _ _ E) as [K _]. cbn [fst] in K. destruct (steps_good _ _ _ s1 s2 (K I) St) as [_ L].
  assert (Hv : view_status s1 !! task = Some status).
  { unfold MarkTaskViewSemanticChanged in E. cbv zeta in E. apply fail_if_bind_ok in E as [_ E]. apply bind_ok in E as (row & _ & E).
    apply bind_ok in E as (v & Hv%wrap_ok%select_ok & E). destruct (same (vStatus v) _ || same digest _).
    - apply Ok_inj in E. injection E as <- <-. done.
    - apply fail_if_bind_ok in E as [_ E]. apply bind_ok in E as (s4 & E4%wrap_ok & E). apply Ok_inj in E. injection E as <- <-.
      apply appendAudit_resource in E4 as (_ & _ & _ & _ & -> & _). apply lookup_insert_eq. }
  destruct (lt_view _ _ L _ _ Hv) as (v2 & Hv2 & _ & Hfin). rewrite (Hfin Hst) in Hv2.
  destruct (reserveTx_grants _ _ _ _ _ E2) as (_ & _ & _ & [(_ & ? & _)|(_ & _ & t & before & grant & _ & _ & _ & _ & Hc & _)]); [done|].
  exfalso. unfold check_view_binding in Hc. rewrite Htask, Hv2, Hst in Hc. destruct (same (gViewBindingDigest grant) "").
  - apply fail_if_ok in Hc. apply orb_false_iff in Hc as [[_ Hc]%orb_false_iff _]. discriminate Hc.
  - apply fail_if_ok in Hc. apply orb_false_iff in Hc as [_ Hc]. discriminate Hc.
Qed.
(** ** Settlement *)
Abbreviation Settlement := (BudgetSettlement Observed Referenced).

Lemma settle_final s now (se : Settlement) status s' r' : settle s now se status = Ok (s', r') ->
  status <> QueryReserved /\ qStatus r' = status /\ queries s' !! seQueryID se = Some r'.
Proof.
  intros (Hr & Hd & s1 & Es & _ & _ & E)%settle_parts. destruct (settleBudgetTx_ok _ _ _ _ _ _ _ _ Hr Hd E) as (r & Hq & Hcase).
  assert (status <> QueryReserved).
  { intros ->. unfold settleBudgetTx in E. apply bind_ok in E as (x & _ & E). destruct (same (qStatus x) QueryReserved); discriminate E. }
  split; [done|]. destruct Hcase as [(_ & Hs & -> & ->)|[C Hr']]; [by split|]. split; [|done].
  destruct (cl_record _ _ _ _ C) as (x & y & _ & _ & Eq & Hst & _). rewrite Eq, lookup_insert_eq in Hr'. by injection Hr' as ->.
Qed.

(** C2: A query is charged once.  Whatever follows a settlement, settling the
    same query again either fails or, if it asks for the same outcome, returns
    the first record and leaves every budget and every query as it was. *)
Theorem settled_once s now (se : Settlement) status s1 r1 s2 now' (se' : Settlement) status' s3 r3 :
  reach s -> settle s now se status = Ok (s1, r1) -> steps s1 s2 ->
  seQueryID se' = seQueryID se -> settle s2 now' se' status' = Ok (s3, r3) ->
  status' = status /\ r3 = r1 /\ queries s3 = queries s2 /\ budgets s3 = budgets s2 /\ tasks s3 = tasks s2.
Proof.
  intros R E St Hq E2. pose proof (reach_inv _ _ _ s R) as I. destruct (good_settle _ _ _ _ _ _ _ E) as [K _].
  destruct (steps_good _ _ _ s1 s2 (K I) St) as [_ L]. destruct (settle_final _ _ _ _ _ _ E) as (Hfin & Hst & Hr1).
  destruct (lt_record _ _ L _ _ Hr1) as (r2 & Hr2 & _ & Hsame). rewrite Hst in Hsame. rewrite (Hsame Hfin) in Hr2.
  destruct (settle_parts _ _ _ _ _ _ _ E2) as (Hrows & Hdb & s4 & Es & _ & _ & Eb). pose proof (es_frame _ _ _ Es) as F.
  destruct (settleBudgetTx_ok _ _ _ _ _ _ _ _ Hrows Hdb Eb) as (r & Hr & Hcase).
  assert (Er : r = r1). { destruct F as (_ & _ & Eq & _). rewrite Eq, Hq, Hr2 in Hr. by injection Hr. } subst r.
  destruct Hcase as [(_ & Hs & -> & ->)|[C _]].
  - destruct F as (? & ? & ? & _). split; [congruence|]. done.
  - destruct (cl_record _ _ _ _ C) as (x & y & Hx & Hres & _). rewrite Hr in Hx. injection Hx as <-. congruence.
Qed.

(** C14: An open query can always be closed.  In every reachable state, a
    reserved query, whichever ledger holds its reservation, can be released,
    failed or marked indeterminate, at any time and with any use up to its hold:
    the ledgers never refuse.  It keeps exactly its charge: nothing when released,
    else one query, its rows, and its database time up to the hold. *)
Theorem open_query_closes s now (se : Settlement) r status : reach s -> queries s !! seQueryID se = Some r ->
  qStatus r = QueryReserved ->
  0 <= seRows se <= qReservedRows r -> 0 <= seDBMS se -> 0 <= seObservedDBMS se -> seMaterialization se = false ->
  status ∈ [QueryReleased; QueryFailed; QueryIndeterminate] ->
  exists s' r', settle s now se status = Ok (s', r') /\ qStatus r' = status /\
    charge_of DQueries r' = (if same status QueryReleased then 0 else 1) /\
    charge_of DRows r' = (if same status QueryReleased then 0 else seRows se) /\
    charge_of DDBMS r' = (if same status QueryReleased then 0 else Z.min (seDBMS se) (qReservedDBMS r)).
Proof.
  intros R Hr Hst Hrows Hdb Hobs Hmat Hs. pose proof (reach_inv _ _ _ s R) as I.
  pose proof (bi_record s (ci_budget s I) _ _ Hr) as Ro. destruct (open_releases s now _ r (ci_link s I) Hr Hst) as [s1 E1].
  destruct (es_frame _ _ _ (proj1 (releaseAnyExposureReservationTx_ok _ _ _ _ E1))) as (_ & Eb & Eq & _ & _ & _ & _ & _ & _ & _ & Ha).
  assert (I1 : budget_inv s1) by (apply (budget_inv_frame s); [done..|apply I]). rewrite <- Eq in Hr.
  destruct (settleBudgetTx_succeeds s1 now se r status I1 Hr Hst Hrows Hdb) as (s' & r' & E2).
  { rewrite !elem_of_cons in *. naive_solver. }
  exists s', r'. assert (E : settle s now se status = Ok (s', r')).
  { unfold BudgetLedger.settle. cbv zeta. rewrite Hmat, !(proj2 (Z.ltb_ge _ _)) by lia.
    assert (same (seQueryID se) "" = false) as -> by (apply same_false; apply (ro_named _ _ _ Ro)). cbn [orb fail_if mbind result_bind].
    assert (same status QueryCompleted = false) as ->.
    { apply same_false. intros ->. rewrite !elem_of_cons in Hs. destruct Hs as [?|[?|[?|?%elem_of_nil]]]; done. }
    rewrite E1. cbn [map_err mbind result_bind]. by rewrite E2. }
  split; [done|]. destruct (settle_final _ _ _ _ _ _ E) as (_ & Hst' & _). split; [done|]. clear E.
  unfold settleBudgetTx in E2. cbv zeta in E2. rewrite Hr in E2. cbn [select map_err mbind result_bind] in E2. rewrite Hst in E2.
  change (negb (same QueryReserved QueryReserved)) with false in E2. cbn match in E2. apply fail_if_bind_ok in E2 as [_ E2].
  apply bind_ok in E2 as (b & _ & E2). do 2 (apply fail_if_bind_ok in E2 as [_ E2]).
  assert (Hcs : charged_status status = negb (same status QueryReleased)).
  { rewrite !elem_of_cons in Hs. destruct Hs as [->|[->|[->|?%elem_of_nil]]]; done. }
  rewrite Hcs in E2. destruct (same status QueryReleased); cbn [negb] in E2; apply fail_if_bind_ok in E2 as [_ E2];
    apply bind_ok in E2 as (s3 & _ & E2); apply bind_ok in E2 as (s4 & _ & E2); apply Ok_inj in E2; injection E2 as _ <-; done.
Qed.
(** ** Recovery *)
Lemma archive_callbacks s task reason now s' : archiveTaskTx s task reason "system" now = Ok s' -> callbacks s' = callbacks s.
Proof.
  unfold archiveTaskTx. destruct (tasks s !! task) as [t|]; [|by intros <-%Ok_inj]. case_bool_decide; [by intros <-%Ok_inj|].
  intros (_ & _ & _ & _ & _ & _ & -> & _)%appendAudit_resource. done.
Qed.

Lemma recover_one_exact now s r s' : recover_one now s r = Ok s' -> callbacks s' = callbacks s /\
  exists record b, queries s' = <[qID r := settled_record record QueryIndeterminate (qReservedRows r) (qReservedDBMS r) (qReservedDBMS r) 1
                                   (qReservedRows r) (qReservedDBMS r) b "" "GATEWAY_RESTART" now]> (queries s).
Proof.
  unfold recover_one. cbv zeta. intros E. apply bind_ok in E as (s1 & E1 & E).
  destruct (releaseAnyExposureReservationTx_ok _ _ _ _ E1) as (Es & _).
  destruct (es_frame _ _ _ Es) as (_ & _ & Eq & _ & _ & _ & Ec & _). apply bind_ok in E as (b & _ & E).
  do 2 (apply fail_if_bind_ok in E as [_ E]). apply bind_ok in E as (record & _ & E). apply fail_if_bind_ok in E as [_ E].
  apply bind_ok in E as (s2 & E2 & E). pose proof (appendAudit_frame _ _ _ _ _ _ _ E2) as ((_ & Q2 & _) & _ & O2).
  apply appendAudit_resource in E2 as (_ & _ & _ & _ & _ & _ & C2 & _). cbn [queries callbacks ordinal with_queries with_budgets] in *.
  assert (F : queries s' = queries s2 /\ callbacks s' = callbacks s2 /\ ordinal s' = ordinal s2).
  { destruct (budgetSettlementReachesHardLimit _ _); [|by apply Ok_inj in E as <-]. pose proof (archive_callbacks _ _ _ _ _ E).
    by apply archiveTask_frame in E as ((_ & ? & _) & ?). }
  destruct F as (Q3 & C3 & O3). split; [congruence|].
  eexists record, _. rewrite Q3, Q2, Eq. reflexivity.
Qed.

(** Every interrupted query is charged its hold. *)
Definition charged_hold s' (r : QueryRecord) : Prop :=
  exists r', queries s' !! qID r = Some r' /\ qStatus r' = QueryIndeterminate /\ forall d, charge_of d r' = hold_of d r.

Lemma recover_all now l : forall s, control_inv s -> NoDup (qID <$> l) ->
  Forall (fun r => queries s !! qID r = Some r /\ qStatus r = QueryReserved) l ->
  exists s', fold_res (recover_one now) s l = Ok s' /\ callbacks s' = callbacks s /\
    (forall q, q ∉ qID <$> l -> queries s' !! q = queries s !! q) /\ Forall (charged_hold s') l.
Proof.
  induction l as [|r l IH]; intros s I Hnd Hl; [by exists s|]. apply Forall_cons in Hl as [(Hr & Hst) Hl].
  cbn [fmap list_fmap] in Hnd. apply NoDup_cons in Hnd as [Hnin Hnd].
  destruct (recover_one_succeeds now s r I Hr Hst) as [s1 E1]. destruct (recover_one_exact _ _ _ _ E1) as (C1 & record & b & Q1).
  destruct (good_recover_one now s r s1 E1) as [[K _] _]; [intros x Hx; rewrite Hr in Hx; injection Hx as <-; by repeat split|].
  destruct (IH s1 (K I) Hnd) as (s' & E' & C' & Hoth & Hdone).
  { apply Forall_forall. intros x Hx. destruct (proj1 (Forall_forall _ _) Hl x Hx) as (Hxr & Hxs).
    split; [|done]. rewrite Q1, lookup_insert_ne; [done|]. intros Hid. apply Hnin. rewrite Hid.
    by apply list_elem_of_fmap_2. }
  exists s'. cbn [fold_res]. rewrite E1. cbn [mbind result_bind]. split; [done|]. split; [congruence|]. split.
  - intros q Hq. cbn [fmap list_fmap] in Hq. apply not_elem_of_cons in Hq as [Hne Hq]. rewrite Hoth, Q1, lookup_insert_ne; done.
  - apply Forall_cons. split; [|done]. unfold charged_hold. rewrite (Hoth _ Hnin), Q1, lookup_insert_eq. eexists. split; [done|].
    split; [done|]. by intros [].
Qed.

Lemma archive_all now l : forall s, exists s', fold_res (fun s task => archiveTaskTx s task TerminalExpired "system" now) s l = Ok s' /\
  queries s' = queries s /\ callbacks s' = callbacks s /\ (forall t, t ∉ l -> tasks s' !! t = tasks s !! t) /\
  (forall t row, tasks s !! t = Some row -> tState row = TaskArchived -> tasks s' !! t = Some row) /\
  (forall t row, t ∈ l -> tasks s' !! t = Some row -> tState row = TaskArchived).
Proof.
  induction l as [|t l IH]; intros s; [exists s; split; [done|]; do 4 (split; [done|]); intros t row Ht; by apply elem_of_nil in Ht|].
  destruct (archive_succeeds s t TerminalExpired now) as (s1 & E1 & Hoth1 & Harch1). destruct (IH s1) as (s' & E' & Q' & C' & Hoth & Hkeep & Harch).
  exists s'. cbn [fold_res]. rewrite E1. cbn [mbind result_bind]. split; [done|]. split; [|split; [|split; [|split]]].
  - rewrite Q'. by apply archiveTask_frame in E1 as ((_ & ? & _) & _).
  - rewrite C'. by eapply archive_callbacks.
  - intros u Hu. apply not_elem_of_cons in Hu as [Hne Hu]. by rewrite Hoth, Hoth1.
  - intros u row Hrow Hst. apply Hkeep; [|done]. destruct (decide (u = t)) as [->|Hne]; [|by rewrite Hoth1].
    unfold archiveTaskTx in E1. rewrite Hrow, bool_decide_true in E1 by done. by apply Ok_inj in E1 as <-.
  - intros u row Hu Hrow. destruct (decide (u ∈ l)) as [|Hnin]; [by eapply Harch|].
    apply elem_of_cons in Hu as [->|]; [|done]. rewrite Hoth in Hrow by done. by eapply Harch1.
Qed.

Lemma interrupted_nodup s : control_inv s -> NoDup (qID <$> interrupted s).
Proof.
  intros I. unfold interrupted. set (keys := go_sort _).
  assert (Hk : forall k, k ∈ keys -> exists r, queries s !! k.2 = Some r).
  { intros [c q] Hk. unfold keys in Hk. rewrite elem_go_sort, list_elem_of_omap in Hk. destruct Hk as ([q' r'] & Hk%elem_of_map_to_list & E).
    cbn [snd fst] in *. destruct (same _ _); [|done]. injection E as _ <-. eauto. }
  assert (Hnd : NoDup keys.*2).
  { unfold keys. rewrite go_sort_perm. clear Hk keys. pose proof (NoDup_fst_map_to_list (queries s)) as Hnd.
    induction (map_to_list (queries s)) as [|[q r] l IH]; [constructor|]. cbn [omap list_omap fmap list_fmap fst snd] in *.
    apply NoDup_cons in Hnd as [Hnin Hnd]. destruct (same (qStatus r) QueryReserved); [|by apply IH].
    cbn [fmap list_fmap snd]. apply NoDup_cons. split; [|by apply IH]. intros Hin. apply Hnin.
    apply list_elem_of_fmap in Hin as ([c q'] & -> & Hin). apply list_elem_of_omap in Hin as ([q2 r2] & Hin & E). cbn [fst snd] in *.
    destruct (same _ _); [|done]. injection E as _ <-. apply list_elem_of_fmap. by exists (q2, r2). }
  assert (Hid : qID <$> omap (fun key : Z * string => queries s !! key.2) keys = keys.*2); [|by rewrite Hid].
  clear Hnd. induction keys as [|[c q] l IH]; [done|]. cbn [omap list_omap fmap list_fmap fst snd].
  destruct (Hk (c, q) (list_elem_of_here _ _)) as [r Hr]. cbn [snd] in Hr. rewrite Hr. cbn [fmap list_fmap].
  f_equal; [by apply (ro_id _ _ _ (bi_record s (ci_budget s I) _ _ Hr))|]. apply IH. intros k ?. apply Hk. by right.
Qed.

(** C13: Recovery leaves nothing in flight.  In every reachable state,
    whichever ledgers hold its reservations, recovery succeeds; afterwards no
    query is reserved, and each that was is indeterminate and charged its whole
    hold; the other queries are as they were; every task past its deadline is
    archived; and no callback is left processing. *)
Theorem recovery_complete s now : reach s ->
  exists s' report, Recover s now = Ok (s', report) /\
    (forall q r, queries s' !! q = Some r -> qStatus r <> QueryReserved) /\
    (forall q r, queries s !! q = Some r ->
       if same (qStatus r) QueryReserved then charged_hold s' r else queries s' !! q = Some r) /\
    (forall t row e, tasks s' !! t = Some row -> tExpiresAt row = Some e -> e <= now -> tState row = TaskArchived) /\
    (forall id c, callbacks s' !! id = Some c -> cbStatus c <> CallbackProcessing).
Proof.
  intros R. pose proof (reach_inv _ _ _ s R) as I.
  destruct (recover_all now (interrupted s) s I (interrupted_nodup s I)) as (s1 & E1 & C1 & Hoth & Hdone).
  { apply Forall_forall. intros r Hr. pose proof (interrupted_same s r I Hr) as Hq. apply elem_interrupted in Hr as (q & _ & Hst). eauto. }
  destruct (archive_all now (expired_tasks s1 now) s1) as (s2 & E2 & Q2 & C2 & Hkeep & _ & Harch).
  set (s3 := with_callbacks s2 (retry_callback <$> callbacks s2)). set (n := count_if (fun kv => processing kv.2) (callbacks s2)).
  assert (Haudit : exists s4, (if 0 <? n then appendAuditTx s3 "" "" "system" "CALLBACKS_RECOVERED" now else Ok s3) = Ok s4 /\
    queries s4 = queries s2 /\ tasks s4 = tasks s2 /\ callbacks s4 = callbacks s3).
  { destruct (0 <? n); eexists; (split; [reflexivity|done]). }
  destruct Haudit as (s4 & E4 & Q4 & T4 & C4).
  assert (Hcase : forall q r, queries s !! q = Some r ->
    if same (qStatus r) QueryReserved then charged_hold s1 r else queries s1 !! q = Some r).
  { intros q r Hr. destruct (same (qStatus r) QueryReserved) eqn:Es.
    - apply same_true in Es. apply (proj1 (Forall_forall _ _) Hdone). apply elem_interrupted. eauto.
    - rewrite Hoth; [done|]. intros (x & -> & Hx)%list_elem_of_fmap. pose proof (interrupted_same s x I Hx) as Hx'.
      apply elem_interrupted in Hx as (_ & _ & Hst). rewrite Hr in Hx'. injection Hx' as ->. by rewrite (proj2 (same_true _ _) Hst) in Es. }
  exists s4. eexists. split; [|split; [|split; [|split]]].
  - unfold Recover, wrap. cbv zeta. rewrite E1. cbn [mbind result_bind]. rewrite E2. cbn [mbind result_bind]. fold n s3. rewrite E4.
    cbn [mbind result_bind map_err]. reflexivity.
  - rewrite Q4, Q2. intros q r Hr Hst. destruct (decide (q ∈ qID <$> interrupted s)) as [Hin|Hnin].
    + apply list_elem_of_fmap in Hin as (x & -> & Hx). destruct (proj1 (Forall_forall _ _) Hdone x Hx) as (r' & Hr' & Hst' & _). rewrite Hr in Hr'. injection Hr' as <-. by rewrite Hst in Hst'.
    + rewrite Hoth in Hr by done. apply Hnin, list_elem_of_fmap. exists r.
      split; [by rewrite (ro_id _ _ _ (bi_record s (ci_budget s I) _ _ Hr))|]. apply elem_interrupted. eauto.
  - intros q r Hr. specialize (Hcase q r Hr). unfold charged_hold in *. rewrite Q4, Q2. done.
  - rewrite T4. intros t row e Ht He Hle. destruct (decide (t ∈ expired_tasks s1 now)) as [|Hnin]; [by eapply Harch|].
    rewrite Hkeep in Ht by done. destruct (decide (tState row = TaskArchived)) as [|Hst]; [done|]. exfalso. apply Hnin.
    unfold expired_tasks. rewrite elem_go_sort, list_elem_of_omap. exists (t, row). split; [by apply elem_of_map_to_list|]. cbn [fst snd].
    rewrite He, (proj2 (same_false _ _) Hst), (proj2 (Z.leb_le _ _) Hle). done.
  - rewrite C4. intros id c. cbn [s3 callbacks with_callbacks]. rewrite lookup_fmap. intros (x & _ & ->)%fmap_Some.
    unfold retry_callback, processing. destruct (same (cbStatus x) CallbackProcessing) eqn:Ep; [done|by apply same_false].
Qed.
(** ** Approval callbacks *)
(** C17: An approval decision takes effect once.  Whatever follows an applied
    decision, delivering the same event again changes nothing and returns the
    first response as a replay, and the event id with any other payload is
    refused.  A first delivery moves its task, which was not archived, to the
    decided state. *)
Theorem callback_once s now c s1 first s2 : reach s -> ApplyApprovalCallback s now c = Ok (s1, first) -> steps s1 s2 ->
  (forall now', ApplyApprovalCallback s2 now' c = Ok (s2, MkClaim (acEventID c) CallbackCompleted false true (clResponse first))) /\
  (forall now' c' r, acEventID c' = acEventID c -> callbackPayloadHash (acRawPayload c') <> callbackPayloadHash (acRawPayload c) ->
     ApplyApprovalCallback s2 now' c' <> Ok r) /\
  (if clReplay first then s1 = s
   else option_map tState (tasks s !! apTaskID (acEvent c)) <> Some TaskArchived /\
        option_map tState (tasks s1 !! apTaskID (acEvent c)) = Some (acNewState c)).
Proof.
  intros R E St. pose proof (reach_inv _ _ _ s R) as I.
  destruct (ApplyApprovalCallback_ok _ _ _ _ _ _ E) as [[K _] (row & Hrow & Hh & Hst & Hresp & Hcase)]. cbn [fst snd] in *.
  destruct (steps_good _ _ _ s1 s2 (K I) St) as [_ L]. destruct (lt_callback _ _ L _ _ Hrow) as (row2 & Hrow2 & _ & Hsame).
  rewrite (Hsame Hst) in Hrow2. split; [|split].
  - intros now'. clear Hcase. unfold Callbacks.ApplyApprovalCallback in *. cbv zeta in *.
    apply fail_if_bind_ok in E as [-> E]. apply fail_if_bind_ok in E as [-> E]. apply fail_if_bind_ok in E as [-> E].
    apply bind_ok in E as (payload & -> & _). cbn [fail_if mbind result_bind]. unfold claimCallbackTx. rewrite Hrow2, Hh, same_refl, Hst.
    cbn [negb fail_if mbind result_bind]. change (same CallbackCompleted CallbackCompleted) with true. cbn [clReplay]. by rewrite Hresp.
  - intros now' c' r Hid Hne E'. unfold Callbacks.ApplyApprovalCallback in E'. cbv zeta in E'. do 3 (apply fail_if_bind_ok in E' as [_ E']).
    apply bind_ok in E' as (payload & _ & E'). apply bind_ok in E' as ([s3 claim] & E' & _). unfold claimCallbackTx in E'.
    rewrite Hid, Hrow2 in E'. apply fail_if_bind_ok in E' as [Hs%negb_false_iff%same_true _]. congruence.
  - destruct Hcase as [[-> ->]|(-> & _ & t & Ht & -> & Hnew)]; done.
Qed.
End props.

(** ** Witnesses, on the run of [ControlRuns] *)
Definition reservation : BudgetReservation :=
  match tx5.2 with Ok b => b | Err _ => MkBudgetReservation "" "" "" 0 0 (MkBudget "" (MkLimits 0 0 0) (MkUsage 0 0 0 0 0 0) 0) None false None end.
Lemma demo_reservation : tx5 = (tx5.1, Ok reservation).
Proof.
  assert (E : is_ok tx5.2 = true) by (vm_compute; reflexivity). unfold reservation. rewrite (surjective_pairing tx5) at 1.
  by destruct tx5.2.
Qed.
Definition q1_record : QueryRecord := match queries tx5.1 !! "q1" with Some r => r | None => reserved_record request "" 0 0 (brBefore reservation) 0 end.
Lemma demo_record : queries tx5.1 !! "q1" = Some q1_record.
Proof.
  assert (E : bool_decide (is_Some (queries tx5.1 !! "q1")) = true) by (vm_compute; reflexivity). apply bool_decide_eq_true in E as [r Hr].
  unfold q1_record. by rewrite Hr.
Qed.

Lemma reserve_grants_witness : 1 <= brAllowedRows reservation <= 10 /\ queries (stored tx4) !! "q1" = None.
Proof.
  destruct (reserve_grants (H := text_literals) same_bytes normalize_text no_bindings (stored tx4) (fun _ => 5) request tx5.1 reservation
    demo_active demo_reservation ltac:(vm_compute; reflexivity)) as (_ & _ & (r & Hq & _) & Hd).
  split; [|exact Hq]. destruct (budgets (stored tx4) !! "t") as [before|] eqn:Eb; [|vm_compute in Eb; discriminate Eb].
  destruct (Hd before DRows Eb) as [[H1 _] H2]. split; [exact H1|]. apply H2. discriminate.
Defined.

Lemma retry_observes_first_witness : (ReserveBudget (stored tx6) (fun _ => 9) request).1 = stored tx6.
Proof.
  destruct (retry_observes_first (H := text_literals) same_bytes normalize_text no_bindings (stored tx4) (fun _ => 5) request tx5.1 reservation
    (stored tx6) demo_active demo_reservation demo_settled) as (record & _ & _ & Hretry & _).
  rewrite Hretry. reflexivity.
Defined.

Lemma failed_reserve_witness : let s' := (ReserveBudget (stored tx4) (fun _ => 95) request).1 in
  (s' = stored tx4 \/ option_map tState (tasks s' !! "t") = Some TaskArchived) /\
  option_map tState (tasks s' !! "t") = Some TaskArchived.
Proof.
  cbv zeta. split; [|vm_compute; reflexivity].
  assert (Hok : is_ok (ReserveBudget (stored tx4) (fun _ => 95) request).2 = false) by (vm_compute; reflexivity).
  destruct (ReserveBudget (stored tx4) (fun _ => 95) request) as [s' [b|e]] eqn:E; cbn [fst snd] in *; [discriminate Hok|].
  destruct (failed_reserve _ _ _ _ _ E) as [Hs|(t & reason & _ & _ & Ht & _)]; [by left|right].
  rewrite Ht. change (rqTaskID request) with "t". rewrite lookup_insert_eq. reflexivity.
Defined.

Lemma settled_once_witness : exists s r, stored tx6 = s /\ forall s3 r3,
  settle (H := text_literals) same_bytes s 9 outcome QueryCompleted = Ok (s3, r3) -> r3 = r.
Proof.
  destruct demo_tx6 as [r E]. exists (stored tx6), r. split; [reflexivity|]. intros s3 r3 E3.
  destruct (settled_once (H := text_literals) same_bytes normalize_text no_bindings tx5.1 6 outcome QueryCompleted (stored tx6) r (stored tx6)
    9 outcome QueryCompleted s3 r3 demo_reach5 E (steps_refl _ _ _ _) eq_refl E3) as (_ & -> & _). reflexivity.
Defined.

Lemma open_query_closes_witness : exists s' r', settle (H := text_literals) same_bytes tx5.1 8
  (MkSettlement _ _ "q1" 2 3 3 "" no_evidence false) QueryFailed = Ok (s', r') /\ charge_of DRows r' = 2.
Proof.
  destruct (open_query_closes (H := text_literals) same_bytes normalize_text no_bindings tx5.1 8 (MkSettlement _ _ "q1" 2 3 3 "" no_evidence false)
    q1_record QueryFailed demo_reach5 demo_record) as (s' & r' & E & _ & _ & Hc & _).
  - vm_compute. reflexivity.
  - split; [discriminate|]. vm_compute. discriminate.
  - discriminate.
  - discriminate.
  - reflexivity.
  - rewrite !elem_of_cons. auto.
  - exists s', r'. split; [exact E|exact Hc].
Defined.

Lemma recovery_complete_witness : exists s' report, Recover tx5.1 20 = Ok (s', report) /\
  (forall q r, queries s' !! q = Some r -> qStatus r <> QueryReserved).
Proof.
  destruct (recovery_complete (H := text_literals) same_bytes normalize_text no_bindings tx5.1 20 demo_reach5) as (s' & report & E & Hr & _).
  exists s', report. split; [exact E|exact Hr].
Defined.

Lemma demo_tx4 : exists first, ApplyApprovalCallback normalize_text no_bindings (stored tx3) 4 decision = Ok (stored tx4, first).
Proof.
  assert (E : is_ok tx4 = true) by (vm_compute; reflexivity). unfold tx4 in *. by apply stored_ok.
Qed.

Lemma callback_once_witness : exists first, ApplyApprovalCallback normalize_text no_bindings (stored tx6) 9 decision =
  Ok (stored tx6, MkClaim "e1" CallbackCompleted false true (clResponse first)).
Proof.
  destruct demo_tx4 as [first E]. exists first.
  exact (proj1 (callback_once (H := text_literals) same_bytes normalize_text no_bindings (stored tx3) 4 decision (stored tx4) first (stored tx6)
    (demo_submitted _) E demo_both) 9).
Defined.

(** The same run with a grant bound to a view. *)
Definition orders := ViewBinding.MkSet ViewBinding.Version [ViewBinding.order_contract].
Definition orders_digest : string := match ViewBinding.Digest orders with Ok d => d | Err _ => "" end.
Definition decode_orders (b : bytes) : result ViewBinding.BindingSet := Ok orders.
Definition bound_grant := MkTaskGrant "t" (MkGrantRow "ann" "sales" ["orders"] ∅ "{}" "low" (MkLimits 5 100 1000) 90 "v1" zeros "db" zeros "r" 3
  orders_digest "" zero_limits None)
  (Some (MkBindingSet orders_digest ViewBinding.Version (ViewBinding.json_set orders) [MkDependency "orders" "k"] 3)).
Definition bound_decision := MkApprovalCallback "e1" (to_bytes "approved") "" (MkApproval "t" "boss" "approve" "" 0) TaskAwaitingApproval TaskActive ""
  (Some bound_grant) (to_bytes "ok").
Definition bound_request := MkReserve "q1" "t" "r1" "ann" "digest" "fp" "v1" zeros "db" zeros orders_digest zeros zeros "allow" 10 0 None.
Definition tx4b := ApplyApprovalCallback normalize_text decode_orders (stored tx3) 4 bound_decision.
Definition tx5b := ReserveBudget (stored tx4b) (fun _ => 5) bound_request.
Lemma demo_bound : reach (H := text_literals) same_bytes normalize_text decode_orders tx5b.1.
Proof.
  assert (E4 : exists x, tx4b = Ok (stored tx4b, x)) by (apply stored_ok; vm_compute; reflexivity). destruct E4 as [x E4].
  eapply reach_step; [|apply step_reserve]. eapply reach_step; [apply demo_submitted|]. exact (step_decide _ _ _ _ _ _ _ E4).
Qed.
Lemma demo_changed : exists s1 v s3 b, MarkTaskViewSemanticChanged tx5b.1 6 "t" zeros = Ok (s1, v) /\
  vStatus v = TaskViewBindingRequireRebind /\ ReserveBudget s1 (fun _ => 7) bound_request = (s3, Ok b).
Proof.
  assert (E : match MarkTaskViewSemanticChanged tx5b.1 6 "t" zeros with
              | Ok (s1, v) => same (vStatus v) TaskViewBindingRequireRebind && is_ok (ReserveBudget s1 (fun _ => 7) bound_request).2
              | Err _ => false end = true) by (vm_compute; reflexivity).
  destruct (MarkTaskViewSemanticChanged tx5b.1 6 "t" zeros) as [[s1 v]|]; [|discriminate E]. apply andb_true_iff in E as [Ev Eb].
  exists s1, v. destruct (ReserveBudget s1 (fun _ => 7) bound_request) as [s3 [b|]]; [|discriminate Eb]. exists s3, b.
  apply same_true in Ev. done.
Qed.

Lemma view_change_closes_witness : exists s1 v s3 b, MarkTaskViewSemanticChanged tx5b.1 6 "t" zeros = Ok (s1, v) /\
  ReserveBudget s1 (fun _ => 7) bound_request = (s3, Ok b) /\ brReplay b = true.
Proof.
  destruct demo_changed as (s1 & v & s3 & b & E & Hst & Eb). exists s1, v, s3, b. split; [exact E|]. split; [exact Eb|].
  exact (view_change_closes (H := text_literals) same_bytes normalize_text decode_orders tx5b.1 6 "t" zeros s1 v s1
    (fun _ => 7) bound_request s3 b demo_bound E Hst (steps_refl _ _ _ _) eq_refl Eb).
Defined.
End ControlProps.
