(* ===== verification/HybridSet.v ===== *)
(** * Hybrid sets of facts

    The sets of the V4 and V5 exposure ledgers ([src/internal/control/ordinal_exposure.go]):
    the facts a published dictionary numbers are a bitmap set, the others a list
    of hashed payloads in the order of their hashes.  Here are the digest of such
    a set, the checks on dynamic facts, difference, union and the limits; sets
    that differ in the version of the bitmap library are equal up to contents. *)

From S2P Require Import Prelude GoBytes Ordering Sha256 Ordinal Roaring Bitmap Portable OutcomeSet LedgerStore.
Import Sha256 Ordinal Bitmap Portable.
Import OutcomeSet(OrdinalDynamicFact, MkDynamicFact, dynSHA256, dynKind, dynPayload).
Import Store(ExposureLimits, ReleaseFacts, InfluenceFacts, OutcomeFacts).

Module HybridSet.

Definition hybridSetDigestDomain : bytes := to_bytes "TASKGATE-V4-HYBRID-SET-V1" ++ [byte_of 0].
Definition dynamicFactDomainV2 : bytes := to_bytes "TASKGATE-FACT-V2" ++ [byte_of 0].
Definition dynamicFactDomainV3 : bytes := to_bytes "TASKGATE-FACT-V3" ++ [byte_of 0].
Definition OrdinalDynamicDerivedRelease := "DERIVED_RELEASE".
Definition OrdinalDynamicOutcome := "OUTCOME".
Definition OrdinalDynamicPredicateAtom := "PREDICATE_ATOM".
Definition OrdinalDynamicCompositeOutcome := "COMPOSITE_OUTCOME".

Section hybrid.
Context {B : Type} `{!Roaring B}.

Record OrdinalHybridSet := MkHybridSet { hsStatic : BitmapSet B; hsDynamicFacts : list OrdinalDynamicFact }.

Record normalizedOrdinalSet := MkNormalized {
  static : BitmapSet B;
  dynamic : list OrdinalDynamicFact;
  digest : string;
  staticCount : Z;
  dynamicCount : Z;
}.

Definition cardinality (s : normalizedOrdinalSet) : Z := wrap_int64 (staticCount s + dynamicCount s).

Definition ordinalCardinalityInt64 (value : Z) : result Z :=
  fail_if (max_int64 <? value) (ErrNew "ordinal cardinality exceeds int64") ≫= fun _ => Ok value.

(** ** The digest *)
Definition hybrid_material (dictionarySet staticDigest : string) (hashes : list string) : bytes :=
  hybridSetDigestDomain ++ be_string dictionarySet ++ be_string staticDigest ++
  be_uint64 (Z.of_nat (length hashes)) ++ flat_map be_string hashes.

Definition ordinalHybridSetDigest (dictionarySet : string) (s : BitmapSet B) (facts : list OrdinalDynamicFact) : result string :=
  staticDigest ← Digest s;
  Ok (hex_sum (hybrid_material dictionarySet staticDigest (map dynSHA256 facts))).

(** The count, the overflow check and the digest with which every set is made. *)
Definition normalized_of (dictionarySet : string) (s : BitmapSet B) (facts : list OrdinalDynamicFact) : result normalizedOrdinalSet :=
  staticCount ← ordinalCardinalityInt64 (Cardinality s);
  fail_if (max_int64 - staticCount <? Z.of_nat (length facts)) (ErrNew "hybrid set cardinality exceeds int64") ≫= fun _ =>
  digest ← ordinalHybridSetDigest dictionarySet s facts;
  Ok (MkNormalized s facts digest staticCount (Z.of_nat (length facts))).

(** ** Dynamic facts *)
Definition same_fact (a b : OrdinalDynamicFact) : bool :=
  bool_decide (dynKind a = dynKind b) && bool_decide (dynPayload a = dynPayload b).

Definition fact_le (a b : OrdinalDynamicFact) : Prop := cle (dynSHA256 a) (dynSHA256 b).
#[export] Instance fact_le_dec : RelDecision fact_le.
Proof. intros a b. unfold fact_le. apply _. Defined.
Definition sort_facts (facts : list OrdinalDynamicFact) : list OrdinalDynamicFact := merge_sort fact_le facts.

Definition dynamic_material (kind : string) (payload : bytes) : bytes :=
  (if bool_decide (kind = OrdinalDynamicOutcome) then dynamicFactDomainV3 else dynamicFactDomainV2) ++ payload.

(** One fact: [byHash] remembers the first of each hash, [result] keeps them. *)
Definition normalize_fact (allowedKind : string) (st : gmap string OrdinalDynamicFact * list OrdinalDynamicFact)
    (fact : OrdinalDynamicFact) : result (gmap string OrdinalDynamicFact * list OrdinalDynamicFact) :=
  fail_if (negb (valid_sha256_text (dynSHA256 fact)) || negb (bool_decide (dynKind fact = allowedKind)) ||
           (bytes_len (dynPayload fact) =? 0)) (ErrNew "invalid dynamic fact") ≫= fun _ =>
  fail_if (negb (bool_decide (hex_sum (dynamic_material (dynKind fact) (dynPayload fact)) = dynSHA256 fact)))
    (ErrNew "dynamic fact hash does not commit its canonical payload") ≫= fun _ =>
  match st.1 !! dynSHA256 fact with
  | Some previous => fail_if (negb (same_fact previous fact)) (ErrNew "dynamic fact hash collision for %s") ≫= fun _ => Ok st
  | None => Ok (<[dynSHA256 fact := fact]> st.1, st.2 ++ [fact])
  end.

Definition normalizeDynamicFacts (facts : list OrdinalDynamicFact) (allowedKind : string) : result (list OrdinalDynamicFact) :=
  fail_if (bool_decide (allowedKind = "") && negb (Nat.eqb (length facts) 0)) (ErrNew "dynamic facts are not allowed") ≫= fun _ =>
  st ← fold_res (normalize_fact allowedKind) (∅, []) facts;
  Ok (sort_facts st.2).

(** ** Difference and union *)
Definition differenceOrdinalSet (dictionarySet : string) (left right : normalizedOrdinalSet) : result normalizedOrdinalSet :=
  normalized_of dictionarySet (Difference (static left) (static right))
    (filter (fun fact => dynSHA256 fact ∉ map dynSHA256 (dynamic right)) (dynamic left)).

(** The map of both lists, the later fact of a hash in place of the earlier. *)
Definition union_fact (byHash : gmap string OrdinalDynamicFact) (fact : OrdinalDynamicFact) : result (gmap string OrdinalDynamicFact) :=
  fail_if (match byHash !! dynSHA256 fact with Some previous => negb (same_fact previous fact) | None => false end)
    (ErrNew "dynamic fact hash collision for %s") ≫= fun _ =>
  Ok (<[dynSHA256 fact := fact]> byHash).

Definition unionOrdinalSet (dictionarySet : string) (left right : normalizedOrdinalSet) : result normalizedOrdinalSet :=
  byHash ← fold_res union_fact ∅ (dynamic left ++ dynamic right);
  normalized_of dictionarySet (Union (static left) (static right)) (sort_facts (map snd (map_to_list byHash))).

(** [normalizedOrdinalSet{static: empty}]. *)
Definition empty_set : normalizedOrdinalSet := MkNormalized (MkSet ∅) [] "" 0 0.
End hybrid.
Arguments OrdinalHybridSet B : clear implicits.
Arguments normalizedOrdinalSet B : clear implicits.

(** ** Limits *)
Definition exceeds_dimension (delta rootLimit taskLimit used : Z) : bool :=
  (0 <? delta) && ((wrap_int64 (rootLimit - used) <? delta) || (wrap_int64 (taskLimit - used) <? delta)).

Definition exceedsOrdinalLimit (used rootLimits taskLimits delta : ExposureLimits) : bool :=
  exceeds_dimension (ReleaseFacts delta) (ReleaseFacts rootLimits) (ReleaseFacts taskLimits) (ReleaseFacts used) ||
  exceeds_dimension (InfluenceFacts delta) (InfluenceFacts rootLimits) (InfluenceFacts taskLimits) (InfluenceFacts used) ||
  exceeds_dimension (OutcomeFacts delta) (OutcomeFacts rootLimits) (OutcomeFacts taskLimits) (OutcomeFacts used).

End HybridSet.
