(* ===== verification/HybridTheory.v ===== *)
(** * Hybrid sets: what they contain

    A set stands for its dictionary facts and the hashes of its other facts.
    Difference and union are those of the contents, the cardinality is their
    number, and the digest names them. *)

From S2P Require Import Prelude GoBytes Ordering Sha256 Ordinal Roaring Bitmap Portable OutcomeSet OutcomeVerify LedgerStore HybridSet.
Import Sha256 Ordinal Bitmap Portable HybridSet.
Import OutcomeSet(OrdinalDynamicFact, MkDynamicFact, dynSHA256, dynKind, dynPayload).

Module HybridTheory.

Section theory.
Context {B : Type} `{!Roaring B, !RoaringLaws B}.
Implicit Types (h l r : normalizedOrdinalSet B) (fs : list OrdinalDynamicFact).

Definition hashes fs : list string := map dynSHA256 fs.

(** A fact whose hash commits to its kind and payload. *)
Definition committed (f : OrdinalDynamicFact) : Prop := dynSHA256 f = hex_sum (dynamic_material (dynKind f) (dynPayload f)).

(** What a set contains. *)
Abbreviation content := (FactRef + string)%type (only parsing).
Definition contents (s : BitmapSet B) fs : list content := map inl (Refs s) ++ map inr (hashes fs).

Definition elem_content (x : content) (s : BitmapSet B) fs : Prop :=
  match x with inl ref => holds (segments s) ref | inr hash => hash ∈ hashes fs end.

Lemma elem_contents x s fs : wf s -> x ∈ contents s fs <-> elem_content x s fs.
Proof.
  intros Hs. unfold contents. rewrite elem_of_app, !list_elem_of_fmap. destruct x as [ref|hash]; cbn [elem_content]; split.
  - intros [(y & [= ->] & Hy)|(y & ? & _)]; [by apply elem_Refs|done].
  - intros H. left. exists ref. split; [done|]. by apply elem_Refs.
  - intros [(y & ? & _)|(y & [= ->] & Hy)]; done.
  - intros H. right. by exists hash.
Qed.

(** Sets as the ledger makes them. *)
Record parts_ok (s : BitmapSet B) fs : Prop := {
  po_wf : wf s;
  po_sorted : StronglySorted clt (hashes fs);
  po_valid : Forall (fun hash => valid_sha256_text hash = true) (hashes fs);
  po_size : Z.of_nat (length (contents s fs)) <= max_int64;
}.

Record normalized (dict : string) h : Prop := {
  nm_parts : parts_ok (static h) (dynamic h);
  nm_static : staticCount h = Z.of_nat (length (Refs (static h)));
  nm_dynamic : dynamicCount h = Z.of_nat (length (dynamic h));
  nm_digest : ordinalHybridSetDigest dict (static h) (dynamic h) = Ok (digest h);
}.

Lemma contents_length s fs : Z.of_nat (length (contents s fs)) = Z.of_nat (length (Refs s)) + Z.of_nat (length fs).
Proof. unfold contents, hashes. rewrite length_app, !length_map. lia. Qed.

Lemma contents_nodup s fs : wf s -> StronglySorted clt (hashes fs) -> NoDup (contents s fs).
Proof.
  intros Hs Hf. apply NoDup_app. split; [|split].
  - apply NoDup_fmap_2; [intros x y E; by injection E|]. by apply nodup_of_strict, Refs_sorted.
  - intros x (y & -> & _)%list_elem_of_fmap (z & ? & _)%list_elem_of_fmap. done.
  - apply NoDup_fmap_2; [intros x y E; by injection E|]. by apply nodup_of_strict.
Qed.

Lemma Cardinality_exact s fs : parts_ok s fs -> Cardinality s = Z.of_nat (length (Refs s)).
Proof.
  intros [Hs _ _ Hn]. rewrite Cardinality_Refs by done. apply wrap_uint64_id. rewrite contents_length in Hn. unfold uint64_range, max_uint64, max_int64 in *. lia.
Qed.

Lemma cardinality_contents dict h : normalized dict h -> cardinality h = Z.of_nat (length (contents (static h) (dynamic h))).
Proof.
  intros [[_ _ _ Hn] E1 E2 _]. unfold cardinality. rewrite E1, E2. rewrite contents_length in *. apply wrap_int64_id. unfold int64_range, max_int64 in *. lia.
Qed.

Lemma Digest_total s : wf s -> exists d, Digest s = Ok d.
Proof. intros Hs. unfold Digest. rewrite PortableContainers_spec by done. cbn. eauto. Qed.

Lemma normalized_of_ok dict s fs h : wf s -> StronglySorted clt (hashes fs) -> Forall (fun hash => valid_sha256_text hash = true) (hashes fs) ->
  Z.of_nat (length (Refs s)) <= max_uint64 -> normalized_of dict s fs = Ok h ->
  normalized dict h /\ static h = s /\ dynamic h = fs.
Proof.
  intros Hs Hf Hv Hr. unfold normalized_of, ordinalCardinalityInt64. rewrite Cardinality_Refs, wrap_uint64_id by (done || unfold uint64_range; lia).
  intros (n & [Hn%Z.ltb_ge [= <-]]%fail_if_bind_ok & H)%bind_ok. apply fail_if_bind_ok in H as (Hm%Z.ltb_ge & H). apply bind_ok in H as (d & Hd & [= <-]).
  split; [|done]. split; cbn; [|done|done|done]. split; [done|done|done|]. rewrite contents_length. lia.
Qed.

Lemma normalized_of_total dict s fs : parts_ok s fs -> exists h, normalized_of dict s fs = Ok h.
Proof.
  intros Hp. pose proof Hp as [Hs _ _ Hn]. unfold normalized_of, ordinalCardinalityInt64. rewrite (Cardinality_exact s fs) by done. rewrite contents_length in Hn.
  rewrite (proj2 (fail_if_ok _ _)) by (apply Z.ltb_ge; lia). cbn [mbind result_bind].
  rewrite (proj2 (fail_if_ok _ _)) by (apply Z.ltb_ge; lia). cbn [mbind result_bind].
  unfold ordinalHybridSetDigest. destruct (Digest_total s Hs) as [d ->]. cbn [mbind result_bind]. eauto.
Qed.

Lemma empty_normalized dict : exists h, normalized_of dict (MkSet ∅ : BitmapSet B) [] = Ok h.
Proof.
  apply normalized_of_total. split; [by apply map_Forall_empty|constructor|constructor|]. rewrite contents_length. unfold Refs, sortedSegmentRefs. cbn.
  rewrite map_to_list_empty. done.
Qed.

(** ** Sorting facts *)
#[local] Instance fact_le_total : Total fact_le.
Proof. intros a b. unfold fact_le. apply cle_total. Qed.
#[local] Instance fact_le_trans : Transitive fact_le.
Proof. intros a b c. unfold fact_le. apply cle_trans. Qed.

Lemma sort_facts_hashes fs : NoDup (hashes fs) -> StronglySorted clt (hashes (sort_facts fs)) /\ sort_facts fs ≡ₚ fs.
Proof.
  intros Hd. pose proof (merge_sort_Permutation fact_le fs) as Hp. split; [|done]. fold (sort_facts fs) in Hp. apply strict_of_nodup.
  - unfold hashes. by rewrite Hp.
  - pose proof (StronglySorted_merge_sort fact_le fs) as Hs. fold (sort_facts fs) in Hs. clear Hp Hd. induction Hs as [|f gs Hs IH Hf]; [constructor|]. cbn. constructor; [done|].
    rewrite Forall_map. exact Hf.
Qed.

(** ** Difference *)
Lemma difference_spec dict l r : parts_ok (static l) (dynamic l) -> wf (static r) -> exists d,
  differenceOrdinalSet dict l r = Ok d /\ normalized dict d /\
  forall x, x ∈ contents (static d) (dynamic d) <-> x ∈ contents (static l) (dynamic l) /\ ~ elem_content x (static r) (dynamic r).
Proof.
  intros Hl Hr. pose proof Hl as [Hwl Hsl Hvl Hnl]. unfold differenceOrdinalSet. set (fs := filter _ _). set (s := Difference _ _).
  assert (wf s) as Hs by (by apply Difference_wf).
  assert (forall hash, hash ∈ hashes fs <-> hash ∈ hashes (dynamic l) /\ hash ∉ hashes (dynamic r)) as Hfs.
  { intros hash. unfold hashes. rewrite !list_elem_of_fmap. unfold fs. setoid_rewrite list_elem_of_filter. split.
    - intros (f & -> & Hf & Hin). split; [eauto|]. by rewrite <- list_elem_of_fmap.
    - intros [(f & -> & Hin) Hn]. exists f. split; [done|]. split; [|done]. by rewrite <- list_elem_of_fmap in Hn. }
  assert (StronglySorted clt (hashes fs)) as Hsf.
  { unfold hashes, fs in *. revert Hsl. clear. generalize (dynamic l) as fs. induction fs as [|f fs IH]; intros Hs; [constructor|]. cbn in Hs. apply StronglySorted_inv in Hs as [Hs Hf]. rewrite Forall_map in Hf.
    rewrite filter_cons. case_decide; [|by apply IH]. cbn. constructor; [by apply IH|]. rewrite Forall_map. rewrite Forall_forall in *. intros g [_ Hg]%list_elem_of_filter. by apply Hf. }
  assert (forall x, x ∈ contents s fs <-> x ∈ contents (static l) (dynamic l) /\ ~ elem_content x (static r) (dynamic r)) as Hx.
  { intros x. rewrite !elem_contents by done. destruct x as [ref|hash]; cbn [elem_content]; [|apply Hfs]. by apply Difference_holds. }
  assert (Forall (fun hash => valid_sha256_text hash = true) (hashes fs)) as Hvf.
  { rewrite Forall_forall in Hvl |- *. intros hash [Hin _]%Hfs. by apply Hvl. }
  assert (length (contents s fs) <= length (contents (static l) (dynamic l)))%nat as Hlen.
  { apply submseteq_length, NoDup_submseteq; [by apply contents_nodup|]. intros x [Hin _]%Hx. done. }
  destruct (normalized_of_total dict s fs) as [d Hd]; [split; [done|done|done|lia]|]. exists d. split; [done|].
  destruct (normalized_of_ok dict s fs d Hs Hsf Hvf) as (Hd' & -> & ->); [|done|done].
  pose proof (contents_length s fs). unfold max_int64, max_uint64 in *. lia.
Qed.

(** ** Union *)
Definition agree (fs gs : list OrdinalDynamicFact) : Prop := forall f g, f ∈ fs -> g ∈ gs -> dynSHA256 f = dynSHA256 g -> same_fact f g = true.

Lemma same_fact_eq f g : dynSHA256 f = dynSHA256 g -> same_fact f g = true -> f = g.
Proof. unfold same_fact. rewrite andb_true_iff, !bool_decide_eq_true. destruct f, g; cbn. intros -> [-> ->]. done. Qed.

Lemma same_fact_refl f : same_fact f f = true.
Proof. unfold same_fact. by rewrite !bool_decide_eq_true_2. Qed.

Lemma union_facts fs : forall m m', (forall k f, m !! k = Some f -> k = dynSHA256 f) -> fold_res union_fact m fs = Ok m' ->
  (forall k f, m' !! k = Some f <-> k = dynSHA256 f /\ (m !! k = Some f \/ f ∈ fs)).
Proof.
  induction fs as [|f fs IH]; intros m m' Hk.
  - cbn. intros [= <-] k g. rewrite elem_of_nil. split; [|tauto]. intros Hg. split; [by apply Hk|by left].
  - cbn [fold_res]. intros (m1 & [Hg [= <-]]%fail_if_bind_ok & H)%bind_ok.
    assert (forall k g, <[dynSHA256 f := f]> m !! k = Some g -> k = dynSHA256 g) as Hk1 by (intros k g [[<- <-]|[_ Hg']]%lookup_insert_Some; [done|by apply Hk]).
    intros k g. rewrite (IH _ _ Hk1 H), elem_of_cons, lookup_insert_Some. split.
    + intros (-> & [[[E <-]|[_ Hm]]|Hin]); tauto.
    + intros (-> & [Hm|[->|Hin]]); [|split; [done|]; left; by left|tauto]. split; [done|]. left. destruct (decide (dynSHA256 f = dynSHA256 g)) as [E|E]; [|by right].
      left. split; [done|]. rewrite <- E in Hm. rewrite Hm in Hg. apply negb_false_iff in Hg. symmetry. by apply same_fact_eq.
Qed.

Lemma hybrid_union_spec dict l r u : parts_ok (static l) (dynamic l) -> parts_ok (static r) (dynamic r) ->
  unionOrdinalSet dict l r = Ok u ->
  normalized dict u /\ (forall x, x ∈ contents (static u) (dynamic u) <-> x ∈ contents (static l) (dynamic l) \/ x ∈ contents (static r) (dynamic r)) /\
  (forall f, f ∈ dynamic u <-> f ∈ dynamic l \/ f ∈ dynamic r).
Proof.
  intros [Hwl Hsl Hvl Hnl] [Hwr Hsr Hvr Hnr]. unfold unionOrdinalSet. intros (m & Hm & H)%bind_ok.
  pose proof (union_facts _ ∅ m (fun k f (E : ∅ !! k = Some f) => match lookup_empty_Some _ _ E with end) Hm) as Hspec.
  set (fs := map snd (map_to_list m)) in *.
  assert (forall f, f ∈ fs <-> f ∈ dynamic l \/ f ∈ dynamic r) as Hfs.
  { intros f. unfold fs. rewrite list_elem_of_fmap. split.
    - intros ([k g] & -> & Hg%elem_of_map_to_list). apply Hspec in Hg as (_ & [Hg|Hg]); [by rewrite lookup_empty in Hg|by apply elem_of_app].
    - intros Hf. exists (dynSHA256 f, f). split; [done|]. apply elem_of_map_to_list, Hspec. split; [done|]. right. by apply elem_of_app. }
  assert (NoDup (hashes fs)) as Hd.
  { unfold fs, hashes. rewrite <- list_fmap_compose. erewrite list_fmap_ext; [apply (NoDup_fst_map_to_list m)|]. intros i [k g] Hg%list_elem_of_lookup_2%elem_of_map_to_list.
    cbn. by apply Hspec in Hg as [-> _]. }
  destruct (sort_facts_hashes fs Hd) as [Hss Hsp]. assert (wf (Union (static l) (static r))) as Hwu by (by apply Union_wf).
  assert (forall hash, hash ∈ hashes (sort_facts fs) <-> hash ∈ hashes (dynamic l) \/ hash ∈ hashes (dynamic r)) as Hh.
  { intros hash. unfold hashes. rewrite !list_elem_of_fmap. setoid_rewrite Hsp. setoid_rewrite Hfs. naive_solver. }
  assert (forall x, x ∈ contents (Union (static l) (static r)) (sort_facts fs) <-> x ∈ contents (static l) (dynamic l) \/ x ∈ contents (static r) (dynamic r)) as Hx.
  { intros x. rewrite !elem_contents by done. destruct x as [ref|hash]; cbn [elem_content]; [by apply Union_holds|apply Hh]. }
  assert (length (contents (Union (static l) (static r)) (sort_facts fs)) <= length (contents (static l) (dynamic l)) + length (contents (static r) (dynamic r)))%nat as Hlen.
  { rewrite <- length_app. apply submseteq_length, NoDup_submseteq; [by apply contents_nodup|]. intros x Hin%Hx. by apply elem_of_app. }
  apply normalized_of_ok in H as (Hu & -> & ->); [|done|done| |].
  - split; [done|]. split; [done|]. intros f. by rewrite Hsp.
  - rewrite Forall_forall in Hvl, Hvr |- *. intros hash [?|?]%Hh; auto.
  - pose proof (contents_length (Union (static l) (static r)) (sort_facts fs)). unfold max_int64, max_uint64 in *. lia.
Qed.


(** ** Counting *)

(** What a list of contents adds to another. *)
Definition novelty (X obs : list content) : list content := filter (fun x => x ∉ X) obs.

Lemma difference_exact dict l r : parts_ok (static l) (dynamic l) -> wf (static r) -> exists d,
  differenceOrdinalSet dict l r = Ok d /\ cardinality d = Z.of_nat (length (novelty (contents (static r) (dynamic r)) (contents (static l) (dynamic l)))).
Proof.
  intros Hl Hr. destruct (difference_spec dict l r Hl Hr) as (d & Hd & Hn & Hx). exists d. split; [done|]. rewrite (cardinality_contents dict) by done.
  f_equal. apply Permutation_length. pose proof Hn as [[Hw Hs _ _] _ _ _]. pose proof Hl as [Hwl Hsl _ _].
  apply NoDup_Permutation; [by apply contents_nodup|by apply NoDup_filter, contents_nodup|]. intros x. unfold novelty. rewrite Hx, list_elem_of_filter, (elem_contents x (static r) (dynamic r)) by done. tauto.
Qed.

Lemma union_exact dict l r u : parts_ok (static l) (dynamic l) -> parts_ok (static r) (dynamic r) -> unionOrdinalSet dict l r = Ok u ->
  normalized dict u /\ (forall f, f ∈ dynamic u -> f ∈ dynamic l \/ f ∈ dynamic r) /\
  contents (static u) (dynamic u) ≡ₚ contents (static l) (dynamic l) ++ novelty (contents (static l) (dynamic l)) (contents (static r) (dynamic r)).
Proof.
  intros Hl Hr Hu. destruct (hybrid_union_spec dict l r u Hl Hr Hu) as (Hn & Hx & Hf). split; [done|]. split; [intros f; apply Hf|].
  pose proof Hn as [[Hw Hs _ _] _ _ _]. pose proof Hl as [Hwl Hsl _ _]. pose proof Hr as [Hwr Hsr _ _]. unfold novelty. apply NoDup_Permutation.
  - by apply contents_nodup.
  - apply NoDup_app. split; [by apply contents_nodup|]. split; [|by apply NoDup_filter, contents_nodup]. by intros x Hin [Hno _]%list_elem_of_filter.
  - intros x. rewrite Hx, elem_of_app, list_elem_of_filter. destruct (decide (x ∈ contents (static l) (dynamic l))); tauto.
Qed.

(** ** Normalized facts *)
Record facts_ok (kind : string) fs gs : Prop := {
  fo_sorted : StronglySorted clt (hashes gs);
  fo_valid : Forall (fun hash => valid_sha256_text hash = true) (hashes gs);
  fo_kind : Forall (fun f => dynKind f = kind /\ committed f) gs;
  fo_same f : f ∈ gs <-> f ∈ fs;
}.

Record facts_state (kind : string) fs (st : gmap string OrdinalDynamicFact * list OrdinalDynamicFact) : Prop := {
  fs_map hash f : st.1 !! hash = Some f <-> hash = dynSHA256 f /\ f ∈ st.2;
  fs_nodup : NoDup (hashes st.2);
  fs_valid : Forall (fun f => valid_sha256_text (dynSHA256 f) = true /\ dynKind f = kind /\ committed f) st.2;
  fs_same f : f ∈ st.2 <-> f ∈ fs;
}.

Lemma normalize_fact_ok kind fs st f st' : facts_state kind fs st -> normalize_fact kind st f = Ok st' -> facts_state kind (fs ++ [f]) st'.
Proof.
  intros [M D V S]. unfold normalize_fact. intros [G1 E]%fail_if_bind_ok. apply fail_if_bind_ok in E as [G2 E].
  rewrite !orb_false_iff, !negb_false_iff, bool_decide_eq_true in G1. destruct G1 as [[G1 Gk] _]. apply negb_false_iff, bool_decide_eq_true in G2.
  destruct (st.1 !! dynSHA256 f) as [g|] eqn:Eg.
  - apply fail_if_bind_ok in E as [Hs [= <-]]. apply negb_false_iff in Hs. apply M in Eg as [Eh Hg]. apply same_fact_eq in Hs as ->; [|done].
    split; [done|done|done|]. intros x. rewrite S, elem_of_app, list_elem_of_singleton. split; [tauto|]. intros [?| ->]; [done|]. by apply S.
  - apply Ok_inj in E as <-. assert (forall g, g ∈ st.2 -> dynSHA256 g <> dynSHA256 f) as Hnew.
    { intros g Hg Eh. assert (st.1 !! dynSHA256 f = Some g) as E' by (by apply M). congruence. }
    split; cbn [fst snd].
    + intros hash g. rewrite lookup_insert_Some, M, elem_of_app, list_elem_of_singleton. split.
      * intros [[<- ->]|[_ [-> ?]]]; auto.
      * intros [-> [Hg| ->]]; [right; split; [|done]; intros E'; by apply (Hnew g)|by left].
    + unfold hashes. rewrite map_app. cbn [map]. apply NoDup_app. split; [done|]. split; [|apply NoDup_singleton].
      intros x (g & -> & Hg)%list_elem_of_fmap Hx%list_elem_of_singleton. by apply (Hnew g).
    + apply Forall_app. split; [done|]. constructor; [done|constructor].
    + intros g. by rewrite !elem_of_app, S.
Qed.

Lemma normalizeDynamicFacts_ok fs kind gs : normalizeDynamicFacts fs kind = Ok gs -> facts_ok kind fs gs.
Proof.
  unfold normalizeDynamicFacts. intros [_ E]%fail_if_bind_ok. apply bind_ok in E as (st & Hst & [= <-]).
  assert (facts_state kind fs st) as [M D V S].
  { assert (forall rest st0 fs0, facts_state kind fs0 st0 -> fold_res (normalize_fact kind) st0 rest = Ok st -> facts_state kind (fs0 ++ rest) st) as Hf.
    { induction rest as [|f rest IH]; intros st0 fs0 H0; cbn [fold_res]; [intros [= <-]; by rewrite app_nil_r|].
      intros (st1 & H1%(normalize_fact_ok _ fs0) & H2)%bind_ok; [|done]. apply (IH _ (fs0 ++ [f])) in H2; [|done]. by rewrite <- app_assoc in H2. }
    apply (Hf fs (∅, []) []); [|done]. split; cbn [fst snd]; [|apply NoDup_nil_2|constructor|done]. intros hash f. rewrite lookup_empty, elem_of_nil. split; [done|tauto]. }
  destruct (sort_facts_hashes st.2 D) as [Hs Hp]. split; [done| | |].
  - unfold hashes. rewrite Forall_map. rewrite Hp. eapply Forall_impl; [exact V|]. cbn. tauto.
  - rewrite Hp. eapply Forall_impl; [exact V|]. cbn. tauto.
  - intros f. by rewrite Hp, S.
Qed.
End theory.
End HybridTheory.
