(* ===== verification/HybridStore.v ===== *)
(** * Stored hybrid sets

    The tables of migration 014 that hold hybrid sets, and the statements of
    [src/internal/control/ordinal_exposure.go] on them: the bounds of a bitmap
    set against its dictionary, dynamic facts, [persistOrdinalSetTx] and
    [loadOrdinalSetTx].  Row times, which nothing reads, are left out. *)

From S2P Require Import Prelude GoBytes Ordering Sha256 Ordinal Roaring Bitmap OutcomeSet LedgerStore HybridSet.
Import Sha256 Ordinal Bitmap HybridSet.
Import OutcomeSet(OrdinalDynamicFact, MkDynamicFact, dynSHA256, dynKind, dynPayload).
Import Store(ErrNoRows, foreign_key, select).

Module HybridStore.

Definition check_violation := ErrNew "new row violates check constraint".

Record DynamicRow := MkDynamicRow { drKind : string; drPayload : bytes; drDictionarySet : string; drQueryID : string }.
Record ContainerRow := MkContainerRow { crKey : ContainerKey; crCardinality : Z; crPayload : bytes }.
Record SetRow := MkSetRow { srDictionarySet : string; srStatic : Z; srDynamic : Z }.

#[export] Instance ContainerRow_eq_dec : EqDecision ContainerRow.
Proof. solve_decision. Defined.
#[export] Instance SetRow_eq_dec : EqDecision SetRow.
Proof. solve_decision. Defined.

(** [dictionary_sets] has the Catalog digest, [dictionary_segments] the number
    of ordinals and the kind of a segment; [set_containers] is keyed by the set
    and the container's key and has its digest and cardinality. *)
Record HybridTables := MkHybridTables {
  dictionary_sets : gmap string string;
  dictionary_set_members : gset (string * string);
  dictionary_segments : gmap SegmentRef (Z * string);
  dynamic_facts : gmap string DynamicRow;
  bitmap_containers : gmap string ContainerRow;
  bitmap_sets : gmap string SetRow;
  set_containers : gmap (string * ContainerKey) (string * Z);
  set_dynamic_facts : gset (string * string);
}.

Definition with_dynamic_facts (t : HybridTables) x := MkHybridTables (dictionary_sets t) (dictionary_set_members t) (dictionary_segments t) x (bitmap_containers t) (bitmap_sets t) (set_containers t) (set_dynamic_facts t).
Definition with_bitmap_containers (t : HybridTables) x := MkHybridTables (dictionary_sets t) (dictionary_set_members t) (dictionary_segments t) (dynamic_facts t) x (bitmap_sets t) (set_containers t) (set_dynamic_facts t).
Definition with_bitmap_sets (t : HybridTables) x := MkHybridTables (dictionary_sets t) (dictionary_set_members t) (dictionary_segments t) (dynamic_facts t) (bitmap_containers t) x (set_containers t) (set_dynamic_facts t).
Definition with_set_containers (t : HybridTables) x := MkHybridTables (dictionary_sets t) (dictionary_set_members t) (dictionary_segments t) (dynamic_facts t) (bitmap_containers t) (bitmap_sets t) x (set_dynamic_facts t).
Definition with_set_dynamic_facts (t : HybridTables) x := MkHybridTables (dictionary_sets t) (dictionary_set_members t) (dictionary_segments t) (dynamic_facts t) (bitmap_containers t) (bitmap_sets t) (set_containers t) x.

(** ** Bounds and kinds of dictionary facts *)
Definition check_bound (t : HybridTables) (dictionarySet : string) (allowedKinds : list string) (bound : SegmentBound) : result unit :=
  let seg := sbSegment bound in
  match dictionary_segments t !! seg with
  | Some (count, kind) =>
      if bool_decide ((dictionarySet, sDictionaryDigest seg) ∈ dictionary_set_members t) then
        fail_if ((count <=? 0) || (count <=? sbMaxOrdinal bound)) (ErrNew "ordinal %d is outside segment %s/%s cardinality %d") ≫= fun _ =>
        fail_if (negb (bool_decide (kind ∈ allowedKinds))) (ErrNew "segment %s/%s kind %s is invalid for this exposure dimension")
      else Err (ErrNew "unknown dictionary segment %s/%s")
  | None => Err (ErrNew "unknown dictionary segment %s/%s")
  end.

(** ** Dynamic facts *)
Definition insert_dynamic_fact (known_query : bool) (queryID dictionarySet : string) (t : HybridTables) (fact : OrdinalDynamicFact) : result HybridTables :=
  fail_if (negb (valid_sha256_text (dynSHA256 fact)) ||
           negb (bool_decide (dynKind fact ∈ [OrdinalDynamicDerivedRelease; OrdinalDynamicOutcome])) ||
           (bytes_len (dynPayload fact) =? 0)) check_violation ≫= fun _ =>
  match dynamic_facts t !! dynSHA256 fact with
  | Some row =>
      fail_if (negb (bool_decide (drKind row = dynKind fact)) || negb (bool_decide (drPayload row = dynPayload fact)))
        (ErrNew "dynamic fact hash collision for %s") ≫= fun _ => Ok t
  | None =>
      fail_if (negb known_query || bool_decide (dictionary_sets t !! dictionarySet = None)) foreign_key ≫= fun _ =>
      Ok (with_dynamic_facts t (<[dynSHA256 fact := MkDynamicRow (dynKind fact) (dynPayload fact) dictionarySet queryID]> (dynamic_facts t)))
  end.

Definition persistDynamicFactsTx (t : HybridTables) (known_query : bool) (queryID dictionarySet : string) (facts : list OrdinalDynamicFact) : result HybridTables :=
  fold_res (insert_dynamic_fact known_query queryID dictionarySet) t facts.

(** ** Persisting a set *)
Definition container_row (item : PortableContainer) : ContainerRow :=
  MkContainerRow (pcKey item) (wrap_int64 (pcCardinality item)) (pcBitmap item).

Definition container_row_valid (r : ContainerRow) : bool :=
  (0 <=? kHigh16 (crKey r)) && (kHigh16 (crKey r) <=? 65535) && (0 <? crCardinality r) && (crCardinality r <=? 65536) &&
  (0 <? bytes_len (crPayload r)).

Definition insert_container (t : HybridTables) (item : PortableContainer) : result HybridTables :=
  fail_if (negb (valid_sha256_text (pcDigest item)) || negb (container_row_valid (container_row item))) check_violation ≫= fun _ =>
  match bitmap_containers t !! pcDigest item with
  | Some stored => fail_if (negb (bool_decide (stored = container_row item))) (ErrNew "bitmap container digest collision for %s") ≫= fun _ => Ok t
  | None =>
      fail_if (bool_decide (dictionary_segments t !! key_segment (pcKey item) = None)) foreign_key ≫= fun _ =>
      Ok (with_bitmap_containers t (<[pcDigest item := container_row item]> (bitmap_containers t)))
  end.

Definition insert_set (t : HybridTables) (digest : string) (row : SetRow) : result HybridTables :=
  fail_if (negb (valid_sha256_text digest) || (srStatic row <? 0) || (srDynamic row <? 0)) check_violation ≫= fun _ =>
  match bitmap_sets t !! digest with
  | Some stored => fail_if (negb (bool_decide (stored = row))) (ErrNew "bitmap set digest collision for %s") ≫= fun _ => Ok t
  | None =>
      fail_if (bool_decide (dictionary_sets t !! srDictionarySet row = None)) foreign_key ≫= fun _ =>
      Ok (with_bitmap_sets t (<[digest := row]> (bitmap_sets t)))
  end.

Definition insert_set_container (digest : string) (t : HybridTables) (item : PortableContainer) : result HybridTables :=
  let key := (digest, pcKey item) in
  let row := (pcDigest item, wrap_int64 (pcCardinality item)) in
  fail_if (negb (container_row_valid (container_row item))) check_violation ≫= fun _ =>
  match set_containers t !! key with
  | Some stored => fail_if (negb (bool_decide (stored = row))) (ErrNew "bitmap set container collision for %s") ≫= fun _ => Ok t
  | None => Ok (with_set_containers t (<[key := row]> (set_containers t)))
  end.

Definition insert_set_fact (digest : string) (t : HybridTables) (fact : OrdinalDynamicFact) : result HybridTables :=
  if bool_decide ((digest, dynSHA256 fact) ∈ set_dynamic_facts t) then Ok t
  else
    fail_if (bool_decide (dynamic_facts t !! dynSHA256 fact = None)) foreign_key ≫= fun _ =>
    Ok (with_set_dynamic_facts t ({[ (digest, dynSHA256 fact) ]} ∪ set_dynamic_facts t)).

(** The rows of one set. *)
Definition mappings (t : HybridTables) (digest : string) : gmap (string * ContainerKey) (string * Z) :=
  filter (fun kv => kv.1.1 = digest) (set_containers t).
Definition members (t : HybridTables) (digest : string) : gset (string * string) :=
  filter (fun member => member.1 = digest) (set_dynamic_facts t).

Section hybrid.
Context {B : Type} `{!Roaring B}.

Definition validateOrdinalBoundsTx (t : HybridTables) (dictionarySet : string) (set : BitmapSet B) (allowedKinds : list string) : result unit :=
  check_all (check_bound t dictionarySet allowedKinds) (SegmentBounds set).

Definition persistOrdinalSetTx (t : HybridTables) (dictionarySet : string) (set : normalizedOrdinalSet B) : result HybridTables :=
  containers ← PortableContainers (static set);
  t ← fold_res insert_container t containers;
  t ← insert_set t (digest set) (MkSetRow dictionarySet (staticCount set) (dynamicCount set));
  t ← fold_res (insert_set_container (digest set)) t containers;
  t ← fold_res (insert_set_fact (digest set)) t (dynamic set);
  fail_if (negb (Nat.eqb (size (mappings t (digest set))) (length containers)) ||
           negb (Nat.eqb (size (members t (digest set))) (length (dynamic set))))
    (ErrNew "bitmap set %s has different membership") ≫= fun _ =>
  Ok t.

(** ** Loading a set *)
Definition scan_container (t : HybridTables) (containers : list PortableContainer) (row : string * ContainerKey * (string * Z)) :
    result (list PortableContainer) :=
  let '((_, key), (digest, cardinality)) := row in
  match bitmap_containers t !! digest with
  | Some blob =>
      fail_if (negb (bool_decide (crKey blob = key)) || negb (cardinality =? crCardinality blob) ||
               (kHigh16 key <? 0) || (65535 <? kHigh16 key) || (cardinality <=? 0))
        (ErrNew "corrupt bitmap container mapping for set %s") ≫= fun _ =>
      Ok (containers ++ [{| pcKey := key; pcBitmap := crPayload blob; pcCardinality := cardinality; pcDigest := digest |}])
  | None => Ok containers
  end.

Definition scan_fact (t : HybridTables) (member : string * string) : option OrdinalDynamicFact :=
  row ← dynamic_facts t !! member.2; Some (MkDynamicFact member.2 (drKind row) (drPayload row)).

Definition loadOrdinalSetTx (t : HybridTables) (setDigest : string) : result (normalizedOrdinalSet B * string) :=
  row ← select (bitmap_sets t !! setDigest);
  containers ← fold_res (scan_container t) [] (map_to_list (mappings t setDigest));
  static ← ParsePortableContainers containers;
  let dynamic := sort_facts (omap (scan_fact t) (elements (members t setDigest))) in
  actualStatic ← ordinalCardinalityInt64 (Cardinality static);
  fail_if (negb (actualStatic =? srStatic row) || negb (Z.of_nat (length dynamic) =? srDynamic row))
    (ErrNew "bitmap set %s cardinality is corrupt") ≫= fun _ =>
  fail_if (max_int64 - srStatic row <? srDynamic row) (ErrNew "bitmap set %s cardinality overflows") ≫= fun _ =>
  computed ← ordinalHybridSetDigest (srDictionarySet row) static dynamic;
  fail_if (negb (bool_decide (computed = setDigest))) (ErrNew "bitmap set %s content digest mismatch") ≫= fun _ =>
  Ok (MkNormalized static dynamic setDigest (srStatic row) (srDynamic row), srDictionarySet row).

(** ** The sets of an observation *)
Definition normalizeOrdinalSetTx (t : HybridTables) (known_query : bool) (queryID dictionarySet : string) (set : OrdinalHybridSet B)
    (allowedDynamicKind : string) (allowedStaticKinds : list string) : result (HybridTables * normalizedOrdinalSet B) :=
  fail_if (Nat.eqb (length allowedStaticKinds) 0 && negb (IsEmpty (hsStatic set))) (ErrNew "static ordinals are not allowed") ≫= fun _ =>
  validateOrdinalBoundsTx t dictionarySet (hsStatic set) allowedStaticKinds ≫= fun _ =>
  dynamic ← normalizeDynamicFacts (hsDynamicFacts set) allowedDynamicKind;
  t ← persistDynamicFactsTx t known_query queryID dictionarySet dynamic;
  normalized ← normalized_of dictionarySet (hsStatic set) dynamic;
  Ok (t, normalized).
End hybrid.
End HybridStore.
