(* ===== verification/HybridStoreTheory.v ===== *)
(** * Stored hybrid sets: what is written is what is read

    A set that was persisted loads back with the same contents, and whatever is
    persisted later leaves it as it was.  No assumption on SHA-256 is needed: a
    set whose rows would clash with stored ones is refused. *)

From S2P Require Import Prelude GoBytes Ordering Sha256 Ordinal Roaring Bitmap Portable OutcomeSet LedgerStore HybridSet HybridTheory HybridStore.
Import Sha256 Ordinal Bitmap Portable HybridSet HybridTheory HybridStore.
Import OutcomeSet(OrdinalDynamicFact, MkDynamicFact, dynSHA256, dynKind, dynPayload).
Import Store(ErrNoRows, foreign_key, select, select_ok).

Module HybridStoreTheory.

(** A fact with its payload in the table. *)
Definition fact_stored (t : HybridTables) (f : OrdinalDynamicFact) : Prop :=
  exists row, dynamic_facts t !! dynSHA256 f = Some row /\ drKind row = dynKind f /\ drPayload row = dynPayload f.

(** Rows only come; those of a stored set do not change. *)
Record tables_le (t t' : HybridTables) : Prop := {
  tl_sets d row : bitmap_sets t !! d = Some row -> bitmap_sets t' !! d = Some row;
  tl_containers d row : bitmap_containers t !! d = Some row -> bitmap_containers t' !! d = Some row;
  tl_facts d row : dynamic_facts t !! d = Some row -> dynamic_facts t' !! d = Some row;
  tl_mappings d key : is_Some (bitmap_sets t !! d) -> set_containers t' !! (d, key) = set_containers t !! (d, key);
  tl_members d hash : is_Some (bitmap_sets t !! d) -> (d, hash) ∈ set_dynamic_facts t' <-> (d, hash) ∈ set_dynamic_facts t;
}.

#[export] Instance tables_le_preorder : PreOrder tables_le.
Proof.
  split; [by intros t; split|]. intros t1 t2 t3 [A1 A2 A3 A4 A5] [B1 B2 B3 B4 B5].
  assert (forall d, is_Some (bitmap_sets t1 !! d) -> is_Some (bitmap_sets t2 !! d)) as S by (intros d [row Hr]; eauto).
  split; [eauto|eauto|eauto| |].
  - intros d key Hd. rewrite B4 by auto. auto.
  - intros d hash Hd. rewrite B5 by auto. auto.
Qed.

Lemma fact_stored_le t t' f : tables_le t t' -> fact_stored t f -> fact_stored t' f.
Proof. intros H (row & Hr & E). exists row. split; [by apply (tl_facts _ _ H)|done]. Qed.

(** ** Dynamic facts *)
Lemma insert_dynamic_fact_ok known q dict t f t' : insert_dynamic_fact known q dict t f = Ok t' ->
  tables_le t t' /\ fact_stored t' f /\ bitmap_sets t' = bitmap_sets t /\ set_containers t' = set_containers t /\
  set_dynamic_facts t' = set_dynamic_facts t /\ bitmap_containers t' = bitmap_containers t.
Proof.
  unfold insert_dynamic_fact. intros [Hv H]%fail_if_bind_ok. rewrite !orb_false_iff, !negb_false_iff in Hv. destruct Hv as [[Hv _] _].
  destruct (dynamic_facts t !! dynSHA256 f) as [row|] eqn:E.
  - apply fail_if_bind_ok in H as [Hs [= <-]]. rewrite orb_false_iff, !negb_false_iff, !bool_decide_eq_true in Hs.
    split; [done|]. split; [by exists row|]. done.
  - apply fail_if_bind_ok in H as [_ [= <-]]. split; [|split; [|done]].
    + split; cbn; [done|done| |done|done]. intros d row Hr. rewrite lookup_insert_ne; [done|]. intros <-. congruence.
    + eexists. split; [apply lookup_insert_eq|done].
Qed.

Lemma persistDynamicFactsTx_ok known q dict fs : forall t t', persistDynamicFactsTx t known q dict fs = Ok t' ->
  tables_le t t' /\ Forall (fact_stored t') fs /\ bitmap_sets t' = bitmap_sets t /\ set_containers t' = set_containers t /\
  set_dynamic_facts t' = set_dynamic_facts t /\ bitmap_containers t' = bitmap_containers t.
Proof.
  unfold persistDynamicFactsTx. induction fs as [|f fs IH]; intros t t'; cbn [fold_res].
  - intros [= <-]. split; [done|]. split; [constructor|done].
  - intros (t1 & H1 & H2)%bind_ok. apply insert_dynamic_fact_ok in H1 as (L1 & F1 & A1 & B1 & C1 & D1).
    apply IH in H2 as (L2 & F2 & A2 & B2 & C2 & D2). split; [by etrans|]. split; [|repeat split; congruence].
    constructor; [by apply (fact_stored_le _ _ _ L2)|done].
Qed.

(** ** Containers *)
Lemma insert_container_ok t item t' : insert_container t item = Ok t' ->
  exists rows, t' = with_bitmap_containers t rows /\ rows !! pcDigest item = Some (container_row item) /\
    (forall d row, bitmap_containers t !! d = Some row -> rows !! d = Some row).
Proof.
  unfold insert_container. intros [_ H]%fail_if_bind_ok. destruct (bitmap_containers t !! pcDigest item) as [row|] eqn:E.
  - apply fail_if_bind_ok in H as [Hs [= <-]]. apply negb_false_iff, bool_decide_eq_true in Hs as ->. exists (bitmap_containers t). by destruct t.
  - apply fail_if_bind_ok in H as [_ [= <-]]. eexists. split; [done|]. split; [apply lookup_insert_eq|].
    intros d row Hr. rewrite lookup_insert_ne; [done|]. intros <-. congruence.
Qed.

Lemma insert_containers_ok items : forall t t', fold_res insert_container t items = Ok t' ->
  exists rows, t' = with_bitmap_containers t rows /\ (forall item, item ∈ items -> rows !! pcDigest item = Some (container_row item)) /\
    (forall d row, bitmap_containers t !! d = Some row -> rows !! d = Some row).
Proof.
  induction items as [|item items IH]; intros t t'; cbn [fold_res].
  - intros [= <-]. exists (bitmap_containers t). split; [by destruct t|]. split; [by intros item ?%elem_of_nil|done].
  - intros (t1 & (rows1 & -> & H1 & L1)%insert_container_ok & (rows & -> & H2 & L2)%IH)%bind_ok. exists rows. split; [done|]. split; [|auto].
    intros i [->|Hi]%elem_of_cons; auto.
Qed.

Lemma insert_set_container_ok digest t item t' : insert_set_container digest t item = Ok t' ->
  exists rows, t' = with_set_containers t rows /\ rows !! (digest, pcKey item) = Some (pcDigest item, wrap_int64 (pcCardinality item)) /\
    (forall k, k <> (digest, pcKey item) -> rows !! k = set_containers t !! k) /\
    (forall k v, set_containers t !! k = Some v -> rows !! k = Some v).
Proof.
  unfold insert_set_container. intros [_ H]%fail_if_bind_ok. destruct (set_containers t !! _) as [row|] eqn:E.
  - apply fail_if_bind_ok in H as [Hs [= <-]]. apply negb_false_iff, bool_decide_eq_true in Hs as ->. exists (set_containers t). by destruct t.
  - apply Ok_inj in H as <-. eexists. split; [done|]. split; [apply lookup_insert_eq|]. split; [intros k Hk; by apply lookup_insert_ne|].
    intros k v Hv. rewrite lookup_insert_ne; [done|]. intros <-. congruence.
Qed.

Lemma insert_set_containers_ok digest items : forall t t', fold_res (insert_set_container digest) t items = Ok t' ->
  exists rows, t' = with_set_containers t rows /\
    (forall item, item ∈ items -> rows !! (digest, pcKey item) = Some (pcDigest item, wrap_int64 (pcCardinality item))) /\
    (forall k, k.1 <> digest -> rows !! k = set_containers t !! k) /\
    (forall k v, set_containers t !! k = Some v -> rows !! k = Some v).
Proof.
  induction items as [|item items IH]; intros t t'; cbn [fold_res].
  - intros [= <-]. exists (set_containers t). split; [by destruct t|]. split; [by intros item ?%elem_of_nil|done].
  - intros (t1 & (rows1 & -> & H1 & O1 & L1)%insert_set_container_ok & (rows & -> & H2 & O2 & L2)%IH)%bind_ok. exists rows. split; [done|].
    split; [|split; [|auto]].
    + intros i [->|Hi]%elem_of_cons; [by apply L2|auto].
    + intros k Hk. rewrite O2 by done. apply O1. by intros ->.
Qed.

Lemma insert_set_facts_ok digest fs : forall t t', fold_res (insert_set_fact digest) t fs = Ok t' ->
  exists rows, t' = with_set_dynamic_facts t rows /\
    (forall m, m ∈ rows <-> m ∈ set_dynamic_facts t \/ m.1 = digest /\ m.2 ∈ hashes fs).
Proof.
  induction fs as [|f fs IH]; intros t t'; cbn [fold_res].
  - intros [= <-]. exists (set_dynamic_facts t). split; [by destruct t|]. intros m. unfold hashes. cbn. rewrite elem_of_nil. tauto.
  - intros (t1 & H1 & H2)%bind_ok.
    assert (exists rows1, t1 = with_set_dynamic_facts t rows1 /\ forall m, m ∈ rows1 <-> m ∈ set_dynamic_facts t \/ m = (digest, dynSHA256 f)) as (rows1 & -> & E1).
    { unfold insert_set_fact in H1. case_bool_decide.
      - apply Ok_inj in H1 as <-. exists (set_dynamic_facts t). split; [by destruct t|]. intros m. split; [tauto|]. by intros [?| ->].
      - apply fail_if_bind_ok in H1 as [_ [= <-]]. eexists. split; [done|]. intros m. cbn. rewrite elem_of_union, elem_of_singleton. tauto. }
    apply IH in H2 as (rows & -> & E2). exists rows. split; [done|]. intros m. rewrite E2. cbn [set_dynamic_facts with_set_dynamic_facts]. rewrite E1.
    unfold hashes. cbn [map]. rewrite elem_of_cons. destruct m as [d x]. cbn [fst snd]. split.
    + intros [[?|[= -> ->]]|[-> ?]]; auto.
    + intros [?|(-> & [->|?])]; auto.
Qed.

(** ** Counting the rows of a set *)
Lemma exact_keys {K A} `{Countable K} (m : gmap K A) (ks : list K) : NoDup ks -> (forall k, k ∈ ks -> is_Some (m !! k)) -> size m = length ks ->
  forall k, is_Some (m !! k) <-> k ∈ ks.
Proof.
  intros Hd Hin Hs. assert (list_to_set (C := gset K) ks ≡ dom m) as E.
  { apply set_subseteq_size_equiv; [|rewrite size_list_to_set, size_dom by done; lia]. intros k. rewrite elem_of_list_to_set, elem_of_dom. apply Hin. }
  intros k. by rewrite <- elem_of_dom, <- E, elem_of_list_to_set.
Qed.

Lemma exact_members {A} `{Countable A} (m : gset A) (ks : list A) : NoDup ks -> (forall k, k ∈ ks -> k ∈ m) -> size m = length ks ->
  forall k, k ∈ m <-> k ∈ ks.
Proof.
  intros Hd Hin Hs. assert (list_to_set (C := gset A) ks ≡ m) as E.
  { apply set_subseteq_size_equiv; [|rewrite size_list_to_set by done; lia]. intros k. rewrite elem_of_list_to_set. apply Hin. }
  intros k. by rewrite <- E, elem_of_list_to_set.
Qed.

Section theory.
Context {B : Type} `{!Roaring B, !RoaringLaws B}.
Implicit Types (h l r : normalizedOrdinalSet B).

(** The cardinality of a container fits the column. *)
Lemma container_cardinality (s : BitmapSet B) item : wf s -> item ∈ containers s -> wrap_int64 (pcCardinality item) = pcCardinality item.
Proof.
  intros Hs Hi. destruct (containers_good s item Hs Hi) as (seg & g & _ & _ & _ & (_ & _ & [Hss Hr] & _ & _ & -> & _) & _).
  pose proof (ListBitmap.strict_range_length _ Hss Hr). apply wrap_int64_id. unfold int64_range, max_int64. lia.
Qed.

(** ** The rows of a set *)
Record stored (t : HybridTables) (dict : string) h : Prop := {
  st_row : bitmap_sets t !! digest h = Some (MkSetRow dict (staticCount h) (dynamicCount h));
  st_mapping key : forall v, set_containers t !! (digest h, key) = Some v <->
    exists item, item ∈ containers (static h) /\ pcKey item = key /\ v = (pcDigest item, pcCardinality item);
  st_blob item : item ∈ containers (static h) -> bitmap_containers t !! pcDigest item = Some (container_row item);
  st_member hash : (digest h, hash) ∈ set_dynamic_facts t <-> hash ∈ hashes (dynamic h);
  st_facts : Forall (fact_stored t) (dynamic h);
}.

Lemma stored_le t t' dict h : tables_le t t' -> stored t dict h -> stored t' dict h.
Proof.
  intros L [S1 S2 S3 S4 S5]. assert (is_Some (bitmap_sets t !! digest h)) as Hd by (by rewrite S1).
  split; [by apply (tl_sets _ _ L)| | | |].
  - intros key v. rewrite (tl_mappings _ _ L) by done. apply S2.
  - intros item Hi. by apply (tl_containers _ _ L), S3.
  - intros hash. rewrite (tl_members _ _ L) by done. apply S4.
  - eapply Forall_impl; [exact S5|]. intros f. by apply fact_stored_le.
Qed.

(** Every set in the tables is one that was written, whole. *)
Record tables_ok (t : HybridTables) : Prop := {
  to_sets d row : bitmap_sets t !! d = Some row -> exists h, normalized (srDictionarySet row) h /\ digest h = d /\ stored t (srDictionarySet row) h;
  to_mappings d key v : set_containers t !! (d, key) = Some v -> is_Some (bitmap_sets t !! d);
  to_members d hash : (d, hash) ∈ set_dynamic_facts t -> is_Some (bitmap_sets t !! d);
}.

Lemma containers_refs (s : BitmapSet B) ref : wf s -> ref ∈ Refs s <-> in_items (containers s) ref.
Proof. intros Hs. rewrite elem_Refs by done. by destruct (containers_ok s Hs) as [_ ->]. Qed.

(** A set some of whose containers are all those of another of its size. *)
Lemma containers_grow (s o : BitmapSet B) : wf s -> wf o -> containers s ⊆ containers o -> length (Refs s) = length (Refs o) -> containers s = containers o.
Proof.
  intros Hs Ho Hsub Hlen. apply containers_ext; [done..|]. intros ref. rewrite <- !elem_Refs by done.
  assert (Refs s ≡ₚ Refs o) as Hp; [|by rewrite Hp].
  apply submseteq_length_Permutation; [|lia]. apply NoDup_submseteq; [by apply nodup_of_strict, Refs_sorted|].
  intros x. rewrite !containers_refs by done. intros (item & vs & Hi & Hg). exists item, vs. split; [by apply Hsub|done].
Qed.

Lemma hashes_grow (fs gs : list OrdinalDynamicFact) : StronglySorted clt (hashes fs) -> StronglySorted clt (hashes gs) -> hashes fs ⊆ hashes gs -> length fs = length gs -> hashes fs = hashes gs.
Proof.
  intros Hf Hg Hsub Hlen. assert (hashes fs ≡ₚ hashes gs) as Hp.
  { apply submseteq_length_Permutation; [|unfold hashes; rewrite !length_map; lia]. apply NoDup_submseteq; [by apply nodup_of_strict|done]. }
  apply strict_sorted_ext; [done..|]. intros x. by rewrite Hp.
Qed.

(** ** Persisting *)
Lemma insert_set_ok t d row t' : insert_set t d row = Ok t' -> exists rows, t' = with_bitmap_sets t rows /\ rows !! d = Some row /\
  (forall k, k <> d -> rows !! k = bitmap_sets t !! k) /\ (forall k old, bitmap_sets t !! k = Some old -> rows !! k = Some old).
Proof.
  unfold insert_set. intros [_ H]%fail_if_bind_ok. destruct (bitmap_sets t !! d) as [stored|] eqn:E.
  - apply fail_if_bind_ok in H as [Hs [= <-]]. apply negb_false_iff, bool_decide_eq_true in Hs as ->. exists (bitmap_sets t). by destruct t.
  - apply fail_if_bind_ok in H as [_ [= <-]]. eexists. split; [done|]. split; [apply lookup_insert_eq|]. split; [intros k Hk; by apply lookup_insert_ne|].
    intros k r Hr. rewrite lookup_insert_ne; [done|]. intros <-. congruence.
Qed.

(** What the statements leave: the set's rows are its own and only those; other rows stay. *)
Record written (t : HybridTables) (dict : string) h (t' : HybridTables) : Prop := {
  wr_stored : stored t' dict h;
  wr_sets k : k <> digest h -> bitmap_sets t' !! k = bitmap_sets t !! k;
  wr_set_row row : bitmap_sets t !! digest h = Some row -> row = MkSetRow dict (staticCount h) (dynamicCount h);
  wr_blobs d row : bitmap_containers t !! d = Some row -> bitmap_containers t' !! d = Some row;
  wr_facts : dynamic_facts t' = dynamic_facts t;
  wr_mapping_others d key : d <> digest h -> set_containers t' !! (d, key) = set_containers t !! (d, key);
  wr_mappings k v : set_containers t !! k = Some v -> set_containers t' !! k = Some v;
  wr_member_others d hash : d <> digest h -> (d, hash) ∈ set_dynamic_facts t' <-> (d, hash) ∈ set_dynamic_facts t;
  wr_members m : m ∈ set_dynamic_facts t -> m ∈ set_dynamic_facts t';
}.

Lemma hybrid_set_written t dict h t' : normalized dict h -> Forall (fact_stored t) (dynamic h) -> persistOrdinalSetTx t dict h = Ok t' -> written t dict h t'.
Proof.
  intros [[Hwf Hsort _ _] _ _ _] Hfacts. unfold persistOrdinalSetTx. rewrite PortableContainers_spec by done. cbn [mbind result_bind].
  intros (t1 & (rows1 & -> & H1 & L1)%insert_containers_ok & H)%bind_ok.
  apply bind_ok in H as (t2 & (rows2 & -> & H2 & O2 & L2)%insert_set_ok & H).
  apply bind_ok in H as (t3 & (rows3 & -> & H3 & O3 & L3)%insert_set_containers_ok & H).
  apply bind_ok in H as (t4 & (rows4 & -> & H4)%insert_set_facts_ok & H).
  apply fail_if_bind_ok in H as [Hn [= <-]]. rewrite orb_false_iff, !negb_false_iff, !Nat.eqb_eq in Hn. destruct Hn as [Hn1 Hn2].
  cbn [bitmap_containers bitmap_sets set_containers set_dynamic_facts dynamic_facts with_bitmap_containers with_bitmap_sets with_set_containers with_set_dynamic_facts] in *.
  assert (forall item, item ∈ containers (static h) -> rows3 !! (digest h, pcKey item) = Some (pcDigest item, pcCardinality item)) as H3'.
  { intros item Hi. rewrite H3 by done. by rewrite (container_cardinality (static h)). }
  assert (forall key, is_Some (rows3 !! (digest h, key)) <-> key ∈ map pcKey (containers (static h))) as Hkeys.
  { intros key. unfold mappings in Hn1. cbn [set_containers] in Hn1.
    pose proof (exact_keys (filter (fun kv => kv.1.1 = digest h) rows3) (map (fun item => (digest h, pcKey item)) (containers (static h)))) as E.
    rewrite length_map in E. transitivity (is_Some (filter (fun kv => kv.1.1 = digest h) rows3 !! (digest h, key))).
    - split; intros [v Hv]; exists v; [by apply map_lookup_filter_Some|by apply map_lookup_filter_Some in Hv as [? _]].
    - rewrite E; [| | |done].
      + rewrite !list_elem_of_fmap. split; [intros (item & [= ->] & Hi)|intros (item & -> & Hi)]; by exists item.
      + rewrite <- (map_map pcKey (fun key => (digest h, key))). apply NoDup_fmap_2; [by intros x y [= ->]|]. by apply containers_keys.
      + intros k (item & -> & Hi)%list_elem_of_fmap. rewrite map_lookup_filter, H3' by done. cbn. rewrite option_guard_True by done. by eexists. }
  assert (forall hash, (digest h, hash) ∈ rows4 <-> hash ∈ hashes (dynamic h)) as Hmembers.
  { intros hash. unfold members in Hn2. cbn [set_dynamic_facts] in Hn2.
    pose proof (exact_members (filter (fun member => member.1 = digest h) rows4) (map (pair (digest h)) (hashes (dynamic h)))) as E.
    transitivity ((digest h, hash) ∈ (filter (fun member => member.1 = digest h) rows4 : gset (string * string))); [rewrite elem_of_filter; cbn; tauto|].
    rewrite E.
    - rewrite list_elem_of_fmap. split; [intros (x & [= ->] & Hx); done|]. intros Hx. by exists hash.
    - apply NoDup_fmap_2; [by intros x y [= ->]|]. by apply nodup_of_strict.
    - intros k (x & -> & Hx)%list_elem_of_fmap. apply elem_of_filter. split; [done|]. apply H4. by right.
    - unfold hashes. by rewrite !length_map. }
  split; cbn; [|done| |done|done| |done| |].
  - split; cbn; [done| |done|done|done]. intros key v. split.
    + intros Hv. assert (key ∈ map pcKey (containers (static h))) as (item & -> & Hi)%list_elem_of_fmap by (apply Hkeys; by eexists). exists item. split; [done|]. split; [done|]. rewrite H3' in Hv by done. congruence.
    + intros (item & Hi & <- & ->). by apply H3'.
  - intros r Hr. rewrite (L2 _ _ Hr) in H2. congruence.
  - intros d key Hd. by apply O3.
  - intros d hash Hd. rewrite H4. cbn. tauto.
  - intros m Hm. apply H4. by left.
Qed.

Lemma written_same t dict h t' h0 : normalized dict h -> normalized dict h0 -> digest h0 = digest h -> stored t dict h0 -> written t dict h t' ->
  containers (static h0) = containers (static h) /\ hashes (dynamic h0) = hashes (dynamic h).
Proof.
  intros [[Hwf Hs _ _] E1 E2 _] [[Hwf0 Hs0 _ _] F1 F2 _] Ed S0 W. pose proof (wr_stored _ _ _ _ W) as S.
  pose proof (wr_set_row _ _ _ _ W _ (eq_trans (f_equal (fun d => bitmap_sets t !! d) (eq_sym Ed)) (st_row _ _ _ S0))) as [= Es En]. split.
  - apply containers_grow; [done..| |lia]. intros item Hi.
    assert (set_containers t !! (digest h0, pcKey item) = Some (pcDigest item, pcCardinality item)) as Hm by (apply (st_mapping _ _ _ S0); by exists item).
    rewrite Ed in Hm. apply (wr_mappings _ _ _ _ W), (st_mapping _ _ _ S) in Hm as (item' & Hi' & Ek & [= Eg Ec]).
    pose proof (wr_blobs _ _ _ _ W _ _ (st_blob _ _ _ S0 item Hi)) as Hb. rewrite Eg, (st_blob _ _ _ S item' Hi') in Hb. injection Hb as _ _ Eb.
    replace item with item'; [done|]. destruct item, item'; cbn in *; congruence.
  - apply hashes_grow; [done|done| |lia]. intros x Hx. apply (st_member _ _ _ S0) in Hx. rewrite Ed in Hx. by apply (wr_members _ _ _ _ W), (st_member _ _ _ S) in Hx.
Qed.

Lemma hybrid_persist_ok t dict h t' : tables_ok t -> normalized dict h -> Forall (fact_stored t) (dynamic h) -> persistOrdinalSetTx t dict h = Ok t' ->
  tables_ok t' /\ stored t' dict h /\ tables_le t t'.
Proof.
  intros Hok Hn Hf H. apply hybrid_set_written in H as W; [|done|done]. pose proof (wr_stored _ _ _ _ W) as S.
  assert (forall d, is_Some (bitmap_sets t !! d) -> (forall key, set_containers t' !! (d, key) = set_containers t !! (d, key)) /\
    (forall hash, (d, hash) ∈ set_dynamic_facts t' <-> (d, hash) ∈ set_dynamic_facts t)) as Hsame.
  { intros d [row Hrow]. destruct (decide (d = digest h)) as [->|Hne].
    2:{ split; [intros key; by apply (wr_mapping_others _ _ _ _ W)|intros hash; by apply (wr_member_others _ _ _ _ W)]. }
    destruct (to_sets _ Hok _ _ Hrow) as (h0 & Hn0 & Ed & S0). pose proof (wr_set_row _ _ _ _ W _ Hrow) as ->. cbn [srDictionarySet] in *.
    destruct (written_same t dict h t' h0) as [Ec Eh]; [done..|]. split.
    - intros key. apply option_eq. intros v. rewrite (st_mapping _ _ _ S), <- Ec, <- (st_mapping _ _ _ S0). by rewrite Ed.
    - intros hash. rewrite (st_member _ _ _ S), <- Eh, <- (st_member _ _ _ S0). by rewrite Ed. }
  assert (tables_le t t') as L.
  { split; [|apply (wr_blobs _ _ _ _ W)| | |].
    - intros d row Hr. destruct (decide (d = digest h)) as [->|Hne]; [|by rewrite (wr_sets _ _ _ _ W)]. rewrite (wr_set_row _ _ _ _ W _ Hr). apply S.
    - intros d row. by rewrite (wr_facts _ _ _ _ W).
    - intros d key Hd. by apply Hsame.
    - intros d hash Hd. by apply Hsame. }
  split; [|done]. split.
  - intros d row Hrow. destruct (decide (d = digest h)) as [->|Hne].
    + rewrite (st_row _ _ _ S) in Hrow. injection Hrow as <-. by exists h.
    + rewrite (wr_sets _ _ _ _ W) in Hrow by done. destruct (to_sets _ Hok _ _ Hrow) as (h0 & Hn0 & Ed & S0). exists h0. split; [done|]. split; [done|]. by eapply stored_le.
  - intros d key v Hv. destruct (decide (d = digest h)) as [->|Hne]; [rewrite (st_row _ _ _ S); by eexists|].
    rewrite (wr_mapping_others _ _ _ _ W) in Hv by done. destruct (to_mappings _ Hok _ _ _ Hv) as [r Hr]. exists r. by apply (tl_sets _ _ L).
  - intros d hash Hv. destruct (decide (d = digest h)) as [->|Hne]; [rewrite (st_row _ _ _ S); by eexists|].
    rewrite (wr_member_others _ _ _ _ W) in Hv by done. destruct (to_members _ Hok _ _ Hv) as [r Hr]. exists r. by apply (tl_sets _ _ L).
Qed.

(** ** Loading *)

(** Sets that hold the same: the bitmaps may be laid out differently. *)
Record same_set h r : Prop := {
  sa_static : forall ref, holds (segments (static h)) ref <-> holds (segments (static r)) ref;
  sa_dynamic : dynamic h = dynamic r;
  sa_digest : digest h = digest r;
}.

Lemma fact_of_stored t f : fact_stored t f -> scan_fact t ("", dynSHA256 f) = Some f.
Proof. intros (row & Hr & E1 & E2). unfold scan_fact. cbn [snd]. rewrite Hr. destruct f; cbn in *. by rewrite E1, E2. Qed.

Lemma sorted_facts (fs gs : list OrdinalDynamicFact) : StronglySorted clt (hashes fs) -> NoDup (hashes gs) -> (forall f, f ∈ gs <-> f ∈ fs) -> sort_facts gs = fs.
Proof.
  intros Hf Hg Hin. destruct (sort_facts_hashes gs Hg) as [Hs Hp]. unfold hashes in *. apply sorted_map_inv in Hf, Hs.
  apply (strongly_sorted_ext (fun a b => clt (dynSHA256 a) (dynSHA256 b))); [intros f; apply clt_irrefl|intros f g k; apply clt_trans|done|done|].
  intros f. rewrite Hp. apply Hin.
Qed.

Definition load_containers (t : HybridTables) (d : string) : list PortableContainer :=
  omap (fun kv => blob ← bitmap_containers t !! kv.2.1; Some {| pcKey := kv.1.2; pcBitmap := crPayload blob; pcCardinality := kv.2.2; pcDigest := kv.2.1 |})
    (map_to_list (mappings t d)).

Lemma stored_mapping t dict h k v : normalized dict h -> stored t dict h -> (k, v) ∈ map_to_list (mappings t (digest h)) <->
  exists item, item ∈ containers (static h) /\ k = (digest h, pcKey item) /\ v = (pcDigest item, pcCardinality item).
Proof.
  intros Hn S. unfold mappings. rewrite elem_of_map_to_list, map_lookup_filter_Some. destruct k as [d key]. cbn [fst]. split.
  - intros [Hv ->]. apply (st_mapping _ _ _ S) in Hv as (item & Hi & <- & ->). by exists item.
  - intros (item & Hi & [= -> ->] & ->). split; [|done]. apply (st_mapping _ _ _ S). by exists item.
Qed.

Lemma scan_stored t dict h item acc : normalized dict h -> stored t dict h -> item ∈ containers (static h) ->
  scan_container t acc (digest h, pcKey item, (pcDigest item, pcCardinality item)) = Ok (acc ++ [item]).
Proof.
  intros [[Hwf _ _ _] _ _ _] S Hi. unfold scan_container. rewrite (st_blob _ _ _ S item Hi).
  pose proof (container_cardinality _ item Hwf Hi) as Hc. destruct (containers_good _ item Hwf Hi) as (seg & g & -> & [Hne [Hv Hh]] & _).
  unfold container_row. rewrite Hc. cbn [crKey crCardinality crPayload]. rewrite bool_decide_eq_true_2, Z.eqb_refl by done. cbn [negb orb].
  assert (0 <= kHigh16 (pcKey (item_of seg g)) < 2 ^ 16) as Hr.
  { cbn. destruct g.2 as [|v vs]; [done|]. inversion_clear Hh as [|?? <- _]. apply high16_range. }
  assert (0 < pcCardinality (item_of seg g)) as Hp by (cbn; destruct g.2; [done|cbn; lia]).
  rewrite (proj2 (Z.ltb_ge _ 0)) by lia. rewrite (proj2 (Z.ltb_ge 65535 _)) by lia. rewrite (proj2 (Z.leb_gt _ 0)) by lia. done.
Qed.

Lemma scan_all t dict h rows : normalized dict h -> stored t dict h -> (forall kv, kv ∈ rows -> kv ∈ map_to_list (mappings t (digest h))) -> forall acc,
  exists items, fold_res (scan_container t) acc rows = Ok (acc ++ items) /\
    Forall2 (fun kv item => item ∈ containers (static h) /\ kv = (digest h, pcKey item, (pcDigest item, pcCardinality item))) rows items.
Proof.
  intros Hn S. induction rows as [|kv rows IH]; intros Hin acc; [exists []; rewrite app_nil_r; split; [done|constructor]|].
  destruct kv as [k v]. destruct (proj1 (stored_mapping t dict h k v Hn S)) as (item & Hi & -> & ->); [apply Hin; by left|].
  cbn [fold_res]. rewrite (scan_stored t dict h) by done. cbn [mbind result_bind].
  destruct (IH (fun kv Hkv => Hin kv (list_elem_of_further _ _ _ Hkv)) (acc ++ [item])) as (items & -> & F). exists (item :: items). split; [by rewrite <- app_assoc|]. by constructor.
Qed.

Lemma scan_exact t dict h : normalized dict h -> stored t dict h ->
  exists items, fold_res (scan_container t) [] (map_to_list (mappings t (digest h))) = Ok items /\ items ≡ₚ containers (static h).
Proof.
  intros Hn S. destruct (scan_all t dict h (map_to_list (mappings t (digest h))) Hn S (fun _ H => H) []) as (items & -> & F). exists items. split; [done|].
  pose proof Hn as [[Hwf _ _ _] _ _ _]. pose proof (containers_keys _ Hwf) as Hk.
  assert (map (fun kv => kv.1.2) (map_to_list (mappings t (digest h))) = map pcKey items) as Ek.
  { clear -F. induction F as [|kv item rows items [_ ->] F IH]; [done|]. cbn. by rewrite IH. }
  assert (NoDup (map pcKey items)) as Hnd.
  { rewrite <- Ek. pose proof (NoDup_fst_map_to_list (mappings t (digest h))) as Hd.
    assert (map fst (map_to_list (mappings t (digest h))) = map (pair (digest h)) (map (fun kv => kv.1.2) (map_to_list (mappings t (digest h))))) as E.
    { clear -F. induction F as [|kv item rows items [_ ->] F IH]; [done|]. cbn. by rewrite IH. }
    change (NoDup (map fst (map_to_list (mappings t (digest h))))) in Hd. rewrite E in Hd. by apply NoDup_fmap_1 in Hd. }
  apply NoDup_Permutation; [by eapply NoDup_fmap_1|by eapply NoDup_fmap_1|]. intros item. split.
  - intros (i & Hi)%list_elem_of_lookup. destruct (Forall2_lookup_r _ _ _ _ _ F Hi) as (kv & _ & ? & _). done.
  - intros Hi. assert ((digest h, pcKey item, (pcDigest item, pcCardinality item)) ∈ map_to_list (mappings t (digest h))) as Hin by (apply (stored_mapping t dict h); [done..|]; by exists item).
    apply list_elem_of_lookup in Hin as (i & Hin). destruct (Forall2_lookup_l _ _ _ _ _ F Hin) as (item' & Hi' & Hc & [= E1 E2 E3]).
    assert (item = item') as ->; [|by apply (list_elem_of_lookup_2 _ i)].
    assert (forall ci cj, ci ∈ containers (static h) -> cj ∈ containers (static h) -> pcKey ci = pcKey cj -> ci = cj) as Hinj; [|by apply Hinj].
    clear -Hk. intros ci cj (i & Hi)%list_elem_of_lookup (j & Hj)%list_elem_of_lookup E.
    assert (i = j) as ->; [|congruence]. change (NoDup (pcKey <$> containers (static h))) in Hk. eapply NoDup_lookup; [exact Hk| |]; rewrite list_lookup_fmap; [by rewrite Hi|]. by rewrite Hj, E.
Qed.

Lemma load_dynamic t dict h : normalized dict h -> stored t dict h -> sort_facts (omap (scan_fact t) (elements (members t (digest h)))) = dynamic h.
Proof.
  intros [[_ Hs _ _] _ _ _] S. pose proof (st_facts _ _ _ S) as Hf. rewrite Forall_forall in Hf.
  assert (forall f, f ∈ omap (scan_fact t) (elements (members t (digest h))) <-> f ∈ dynamic h) as Hin.
  { intros f. rewrite list_elem_of_omap. unfold members. setoid_rewrite elem_of_elements. setoid_rewrite elem_of_filter. split.
    - intros ([d hash] & [Ed Hm] & Hsc). cbn [fst] in Ed. subst d. apply (st_member _ _ _ S), list_elem_of_fmap in Hm as (g & -> & Hg).
      pose proof (fact_of_stored t g (Hf g Hg)) as E. unfold scan_fact in Hsc, E. cbn [snd] in Hsc, E. rewrite E in Hsc. by injection Hsc as <-.
    - intros Hg. exists (digest h, dynSHA256 f). split; [split; [done|]|exact (fact_of_stored t f (Hf f Hg))]. apply (st_member _ _ _ S). by apply list_elem_of_fmap_2. }
  apply sorted_facts; [done| |done].
  assert (forall ms : list (string * string), NoDup ms -> (forall m, m ∈ ms -> m.1 = digest h) -> NoDup (hashes (omap (scan_fact t) ms))) as Hnd.
  2:{ apply Hnd; [apply NoDup_elements|]. unfold members. by intros m [? _]%elem_of_elements%elem_of_filter. }
  induction ms as [|m ms IH]; intros Hms Hd; [constructor|]. apply NoDup_cons in Hms as [Hm Hms]. cbn [omap list_omap].
  specialize (IH Hms (fun x Hx => Hd x (list_elem_of_further _ _ _ Hx))). destruct (scan_fact t m) as [f|] eqn:E; [|done]. cbn. apply NoDup_cons. split; [|done].
  intros (g & Eg & ([d hash] & Hm' & Eg')%list_elem_of_omap)%list_elem_of_fmap. apply Hm.
  unfold scan_fact in E, Eg'. apply bind_Some in E as (r1 & _ & [= <-]). apply bind_Some in Eg' as (r2 & _ & [= <-]). cbn [dynSHA256 snd] in Eg.
  replace m with (d, hash); [done|]. pose proof (Hd m (list_elem_of_here _ _)) as E1. pose proof (Hd _ (list_elem_of_further _ _ _ Hm')) as E2.
  destruct m; cbn in *; congruence.
Qed.

(** A stored set loads back. *)
Lemma load_stored t dict h : normalized dict h -> stored t dict h ->
  exists r, loadOrdinalSetTx t (digest h) = Ok (r, dict) /\ same_set h r /\ normalized dict r.
Proof.
  intros Hn S. pose proof Hn as [[Hwf Hs Hv Hsz] E1 E2 Ed]. unfold loadOrdinalSetTx. rewrite (st_row _ _ _ S). cbn [select mbind result_bind].
  destruct (scan_exact t dict h Hn S) as (items & -> & Hp). cbn [mbind result_bind].
  destruct (containers_roundtrip (static h) items Hwf Hp) as (_ & s & Hps & Hws & He). rewrite Hps. cbn [mbind result_bind].
  rewrite (load_dynamic t dict h) by done. cbn [srStatic srDynamic srDictionarySet].
  pose proof (proj1 (Equal_iff _ _ Hwf Hws) He) as Hext.
  assert (Refs s = Refs (static h)) as Er.
  { apply strict_sorted_ext; [by apply Refs_sorted..|]. intros ref. rewrite !elem_Refs by done. by rewrite Hext. }
  rewrite contents_length in Hsz. unfold ordinalCardinalityInt64. rewrite Cardinality_Refs, Er, wrap_uint64_id by (done || (unfold uint64_range, max_uint64, max_int64 in *; lia)).
  rewrite (proj2 (fail_if_ok _ _)) by (apply Z.ltb_ge; lia). cbn [mbind result_bind]. rewrite E1, E2, !Z.eqb_refl. cbn [negb orb fail_if mbind result_bind].
  rewrite (proj2 (fail_if_ok _ _)) by (apply Z.ltb_ge; lia). cbn [mbind result_bind].
  assert (ordinalHybridSetDigest dict s (dynamic h) = Ok (digest h)) as Ed'.
  { rewrite <- Ed. unfold ordinalHybridSetDigest, Digest. rewrite !PortableContainers_spec by done. by rewrite (containers_ext s (static h)) by (done || (intros; by rewrite Hext)). }
  rewrite Ed'. cbn [mbind result_bind]. rewrite bool_decide_eq_true_2 by done. rewrite Z.eqb_refl. cbn [negb orb fail_if mbind result_bind].
  eexists. split; [done|]. split; [by split; cbn|]. split; cbn; [|by rewrite Er|done|done].
  split; [done|done|done|]. rewrite contents_length, Er. done.
Qed.

(** Whatever loads is a stored set. *)
Lemma load_ok t d dict r : tables_ok t -> loadOrdinalSetTx t d = Ok (r, dict) ->
  exists h, normalized dict h /\ stored t dict h /\ digest h = d /\ same_set h r /\ normalized dict r.
Proof.
  intros Hok H. assert (exists row, bitmap_sets t !! d = Some row /\ srDictionarySet row = dict) as (row & Hrow & <-).
  { unfold loadOrdinalSetTx in H. apply bind_ok in H as (row & Hrow%select_ok & H). exists row. split; [done|]. ok_inv H. congruence. }
  destruct (to_sets _ Hok _ _ Hrow) as (h & Hn & <- & S). exists h. destruct (load_stored t _ h Hn S) as (r' & Hr' & Hsame & Hnr).
  rewrite Hr' in H. by injection H as <-.
Qed.
End theory.
End HybridStoreTheory.
