(* ===== verification/V5Facts.v ===== *)
(** * The outcome facts of a V5 observation

    [src/internal/control/ordinal_exposure_v5.go]: the payloads of predicate
    atoms and composite outcomes are decoded and re-encoded, the atoms are bound
    to the composite by their set digest, and the digests of V4 and V5
    observations are computed. *)

From S2P Require Import Prelude GoBytes Ordering GoText Sha256 FactId FactSet OutcomeSet HybridSet.
Import GoText Sha256 FactId HybridSet.
Import OutcomeSet(OrdinalDynamicFact, MkDynamicFact, dynSHA256, dynKind, dynPayload, OutcomeHashSetObjectsV5, objSet, SetSHA256, Cardinality, ReadFull, readV5Uint64).

Module V5Facts.

Definition v5FactDomain : bytes := to_bytes "TASKGATE-FACT-V5" ++ [byte_of 0].
Definition v5PredicateSetDomain : bytes := to_bytes "TASKGATE-PREDICATE-SET-V1" ++ [byte_of 0].
Definition v5ObservationDigestDomain : bytes := to_bytes "TASKGATE-V5-OBSERVATION-V1" ++ [byte_of 0].
Definition observationDigestDomain : bytes := to_bytes "TASKGATE-V4-OBSERVATION-V1" ++ [byte_of 0].

Record decodedV5Fact := MkDecoded { dfKind : string; dfContext : string; dfSetDigest : string; dfAtomCount : Z; dfCompositeHash : string }.
Definition no_fact : decodedV5Fact := MkDecoded "" "" "" 0 "".

(** ** Reading a payload *)
Definition readV5String (r : bytes) : result (string * bytes) :=
  match readV5Uint64 r with
  | Ok (length, r) =>
      if bytes_len r <? length then Err (ErrNew "unexpected EOF")
      else '(value, r) ← ReadFull (Z.to_nat length) r; Ok (of_bytes value, r)
  | Err _ => Err (ErrNew "unexpected EOF")
  end.

Fixpoint read_strings (n : nat) (r : bytes) : result (list string * bytes) :=
  match n with
  | O => Ok ([], r)
  | S n => '(value, r) ← readV5String r; '(values, r) ← read_strings n r; Ok (value :: values, r)
  end.

(** [NewPredicateAtomFactV5] and [NewCompositeOutcomeFactV5] of [fact.go], with the default profile and versions. *)
Definition atom_fact_v5 (context product role field expression type collation version operator literal : string) : FactID := {|
  Product := ""; Snapshot := ""; EntityKey := ""; Field := ""; ValueVersion := ""; Profile := ProfileV5;
  Kind := FactPredicateAtom; SourceNamespace := ""; SQLType := type; CanonicalValue := "";
  SnapshotBundle := []; OutputRowKey := ""; NormalizedExpression := ""; WitnessCommitment := "";
  QueryNormalFormVersion := ""; QueryNormalFormSHA256 := ""; OutcomeSHA256 := ""; OutcomeRows := 0;
  AtomizerVersion := PredicateFootprintVersion; PredicateContextSHA256 := context; SemanticProductID := product;
  StableRole := role; PublicFieldID := field; ResolvedExpressionSHA256 := expression; CollationName := collation;
  CollationVersion := version; Operator := operator; CanonicalLiteral := literal; ResultObservationSHA256 := "";
  VisibleRows := 0; PredicateProfileVersion := ""; PredicateSetSHA256 := ""; PredicateAtomCount := 0 |}.

Definition composite_fact_v5 (nfVersion nfSHA256 resultSHA256 : string) (rows : Z) (context setDigest : string) (atoms : Z) : FactID := {|
  Product := ""; Snapshot := ""; EntityKey := ""; Field := ""; ValueVersion := ""; Profile := ProfileV5;
  Kind := FactCompositeOutcome; SourceNamespace := ""; SQLType := ""; CanonicalValue := "";
  SnapshotBundle := []; OutputRowKey := ""; NormalizedExpression := ""; WitnessCommitment := "";
  QueryNormalFormVersion := nfVersion; QueryNormalFormSHA256 := nfSHA256; OutcomeSHA256 := ""; OutcomeRows := 0;
  AtomizerVersion := ""; PredicateContextSHA256 := context; SemanticProductID := ""; StableRole := "";
  PublicFieldID := ""; ResolvedExpressionSHA256 := ""; CollationName := ""; CollationVersion := "";
  Operator := ""; CanonicalLiteral := ""; ResultObservationSHA256 := resultSHA256; VisibleRows := rows;
  PredicateProfileVersion := PredicateFootprintVersion; PredicateSetSHA256 := setDigest; PredicateAtomCount := atoms |}.

Section literals.
Context `{SQLLiterals}.

Definition invalid_payload := ErrNew "invalid V5 fact canonical payload".

(** The closing test [err != nil || reader.Len() != 0 || !validSHA256Hex(result.context)]. *)
Definition finish (rest : bytes) (result : decodedV5Fact) : Prelude.result decodedV5Fact :=
  fail_if (negb (bool_decide (rest = [])) || negb (valid_sha256_text (dfContext result))) invalid_payload ≫= fun _ => Ok result.

(** The fields after the kind and the profile. *)
Definition decode_atom (payload r : bytes) : result decodedV5Fact :=
  match readV5String r with
  | Ok (atomizer, r) =>
      fail_if (negb (same atomizer PredicateFootprintVersion)) (ErrNew "invalid V5 atomizer version") ≫= fun _ =>
      match read_strings 10 r with
      | Ok ([context; product; role; field; expression; type; collation; version; operator; literal], rest) =>
          let fact := atom_fact_v5 context product role field expression type collation version operator literal in
          Validate fact ≫= fun _ =>
          canonical ← CanonicalPayload fact;
          fail_if (negb (bool_decide (canonical = payload))) (ErrNew "non-canonical V5 atom payload") ≫= fun _ =>
          finish rest (MkDecoded FactPredicateAtom context "" 0 "")
      | _ => Err invalid_payload
      end
  | Err _ => Err (ErrNew "invalid V5 atomizer version")
  end.

Definition decode_composite (payload r : bytes) : result decodedV5Fact :=
  match ('(values, r) ← read_strings 3 r; '(rows, r) ← readV5Uint64 r; '(profile, r) ← readV5String r; Ok (values, rows, profile, r)) with
  | Ok ([nfVersion; nfSHA256; resultSHA256], rows, profile, r) =>
      fail_if (negb (same profile PredicateFootprintVersion)) (ErrNew "invalid V5 composite predicate profile") ≫= fun _ =>
      match read_strings 2 r with
      | Ok ([context; setDigest], r) =>
          let count := match readV5Uint64 r with Ok (count, _) => count | Err _ => 0 end in
          fail_if ((max_int64 <? count) || (max_int64 <? rows)) (ErrNew "V5 composite cardinality exceeds int64") ≫= fun _ =>
          match readV5Uint64 r with
          | Ok (_, rest) =>
              let fact := composite_fact_v5 nfVersion nfSHA256 resultSHA256 rows context setDigest count in
              fail_if (negb (is_ok (Validate fact)) || negb (same nfVersion "taskgate-query-normal-form-v4")) (ErrNew "invalid V5 composite payload") ≫= fun _ =>
              canonical ← CanonicalPayload fact;
              fail_if (negb (bool_decide (canonical = payload))) (ErrNew "non-canonical V5 composite payload") ≫= fun _ =>
              finish rest (MkDecoded FactCompositeOutcome context setDigest count "")
          | Err _ => Err invalid_payload
          end
      | _ => Err invalid_payload
      end
  | _ => Err (ErrNew "invalid V5 composite predicate profile")
  end.

Definition decodeV5FactPayload (payload : bytes) : result decodedV5Fact :=
  '(kind, r) ← readV5String payload;
  match readV5String r with
  | Ok (profile, r) =>
      fail_if (negb (same profile ProfileV5)) (ErrNew "invalid V5 fact profile") ≫= fun _ =>
      if same kind FactPredicateAtom then decode_atom payload r
      else if same kind FactCompositeOutcome then decode_composite payload r
      else Err (ErrNew "unknown V5 outcome fact kind")
  | Err _ => Err (ErrNew "invalid V5 fact profile")
  end.

(** ** The set of atoms *)
Fixpoint dedup (previous : option string) (l : list string) : list string :=
  match l with
  | [] => []
  | x :: l => if bool_decide (previous = Some x) then dedup previous l else x :: dedup (Some x) l
  end.
Definition uniqueStringsV5 (input : list string) : list string := dedup None (go_sort input).

Definition v5PredicateHashSet (input : list string) : string :=
  let values := uniqueStringsV5 input in
  hex_sum (v5PredicateSetDomain ++ be_uint64 (Z.of_nat (length values)) ++ flat_map FactSet.hash_bytes values).

(** ** An outcome *)
Record outcome_state := MkOutcomeState {
  osByHash : gmap string OrdinalDynamicFact; osAtoms : list string; osComposite : decodedV5Fact; osCount : Z }.

Definition outcome_fact_step (st : outcome_state) (fact : OrdinalDynamicFact) : result outcome_state :=
  let atom := bool_decide (dynKind fact = OrdinalDynamicPredicateAtom) in
  fail_if (negb (valid_sha256_text (dynSHA256 fact)) || (bytes_len (dynPayload fact) =? 0) ||
           (negb atom && negb (bool_decide (dynKind fact = OrdinalDynamicCompositeOutcome)))) (ErrNew "invalid V5 dynamic outcome fact") ≫= fun _ =>
  fail_if (negb (bool_decide (hex_sum (v5FactDomain ++ dynPayload fact) = dynSHA256 fact))) (ErrNew "V5 fact hash does not commit its payload") ≫= fun _ =>
  decoded ← decodeV5FactPayload (dynPayload fact);
  st ← (if atom then
          fail_if (negb (same (dfKind decoded) FactPredicateAtom)) (ErrNew "V5 atom kind disagrees with payload") ≫= fun _ =>
          let composite := osComposite st in
          fail_if (given (dfContext composite) && (osCount st =? 0) && negb (same (dfContext composite) (dfContext decoded)))
            (ErrNew "V5 atoms use different predicate contexts") ≫= fun _ =>
          let composite := if given (dfContext composite) then composite
                           else MkDecoded (dfKind composite) (dfContext decoded) (dfSetDigest composite) (dfAtomCount composite) (dfCompositeHash composite) in
          Ok (MkOutcomeState (osByHash st) (osAtoms st ++ [dynSHA256 fact]) composite (osCount st))
        else
          fail_if (negb (same (dfKind decoded) FactCompositeOutcome)) (ErrNew "V5 composite kind disagrees with payload") ≫= fun _ =>
          Ok (MkOutcomeState (osByHash st) (osAtoms st)
                (MkDecoded (dfKind decoded) (dfContext decoded) (dfSetDigest decoded) (dfAtomCount decoded) (dynSHA256 fact)) (osCount st + 1)));
  match osByHash st !! dynSHA256 fact with
  | Some previous => fail_if (negb (same_fact previous fact)) (ErrNew "V5 outcome fact SHA-256 collision") ≫= fun _ => Ok st
  | None => Ok (MkOutcomeState (<[dynSHA256 fact := fact]> (osByHash st)) (osAtoms st) (osComposite st) (osCount st))
  end.

Definition normalizeV5OutcomeFacts (input : list OrdinalDynamicFact) : result (list OrdinalDynamicFact * decodedV5Fact) :=
  st ← fold_res outcome_fact_step (MkOutcomeState ∅ [] no_fact 0) input;
  let composite := osComposite st in
  fail_if (negb (osCount st =? 1)) (ErrNew "V5 outcome requires exactly one composite") ≫= fun _ =>
  fail_if (negb (dfAtomCount composite =? Z.of_nat (length (uniqueStringsV5 (osAtoms st)))) ||
           negb (same (dfSetDigest composite) (v5PredicateHashSet (osAtoms st)))) (ErrNew "V5 composite predicate set binding mismatch") ≫= fun _ =>
  check_all (fun fact =>
      if bool_decide (dynKind fact = OrdinalDynamicPredicateAtom) then
        fail_if (match decodeV5FactPayload (dynPayload fact) with
                 | Ok decoded => negb (same (dfContext decoded) (dfContext composite))
                 | Err _ => negb (same "" (dfContext composite))
                 end) (ErrNew "V5 atom/composite context mismatch")
      else Ok tt) input ≫= fun _ =>
  Ok (sort_facts (map snd (map_to_list (osByHash st))), composite).
End literals.

(** ** Digests of observations *)
Section digests.
Context {B : Type}.

Record normalizedOrdinalObservation := MkOrdinalObservation {
  oDictionarySet : string; oRelease : normalizedOrdinalSet B; oInfluence : normalizedOrdinalSet B; oOutcome : normalizedOrdinalSet B; oDigest : string }.

Record normalizedV5Observation := MkV5Observation {
  vDictionarySet : string; vRelease : normalizedOrdinalSet B; vInfluence : normalizedOrdinalSet B;
  vOutcome : OutcomeHashSetObjectsV5; vFacts : list OrdinalDynamicFact; vDigest : string; vContextDigest : string;
  vPredicateSet : string; vAtomCount : Z; vCompositeHash : string }.

(** [uint64(value)] of an [int64]. *)
Definition be_count (value : Z) : bytes := be_uint64 (wrap_uint64 value).

Definition ordinalObservationDigest (dictionarySet : string) (release influence outcome : normalizedOrdinalSet B) : string :=
  hex_sum (observationDigestDomain ++
    flat_map be_string [ProfileV4; dictionarySet; digest release; digest influence; digest outcome] ++
    flat_map be_count [cardinality release; cardinality influence; cardinality outcome]).

Definition v5ObservationDigest (dictionarySet : string) (release influence : normalizedOrdinalSet B) (outcome : OutcomeHashSetObjectsV5)
    (metadata : decodedV5Fact) : string :=
  hex_sum (v5ObservationDigestDomain ++
    flat_map be_string [ProfileV5; dictionarySet; digest release; digest influence; SetSHA256 (objSet outcome); dfContext metadata;
                        dfSetDigest metadata; dfCompositeHash metadata] ++
    flat_map be_count [cardinality release; cardinality influence; Cardinality (objSet outcome); dfAtomCount metadata]).
End digests.
Arguments normalizedOrdinalObservation B : clear implicits.
Arguments normalizedV5Observation B : clear implicits.
End V5Facts.
