(* ===== verification/OrdinalTables.v ===== *)
(** * The tables of the ordinal ledgers

    Root heads, reservations and observations of the V4 and V5 profiles
    (migrations 014 and 018).  Both profiles have the same tables; the columns
    only V5 has are zero in a V4 row, a null digest is empty, and row times that
    nothing reads are left out. *)

From S2P Require Import Prelude GoBytes Ordinal OutcomeSet LedgerStore ExposureLedger OutcomeRadix HybridSet HybridStore.
Import HybridStore.
Import Store(ErrNoRows, ErrConflict, foreign_key, duplicate_key, select, ExposureLimits, MkExposure, ReleaseFacts, InfluenceFacts, OutcomeFacts,
  PredicateFootprintLimitsV1, exposureReserved).
Import ExposureLedger(ordinal_version, V4, V5, zero_limits).
Import OutcomeRadix(ObjectStore).

Module OrdinalTables.

Definition ErrOrdinalCASConflict := ErrW ErrConflict "V4 root epoch changed".

Record OrdinalRootHead := MkHead {
  hRootTaskID : string; hProfileVersion : string; hDictionarySetDigest : string; hEpoch : Z; hLimits : ExposureLimits; hUsed : ExposureLimits;
  hReleaseSet : string; hInfluenceSet : string; hOutcomeSet : string; hPredicate : option PredicateFootprintLimitsV1; hUpdatedAt : Z }.

(** The predicate columns of a V5 observation. *)
Record Predicates := MkPredicates { prContext : string; prSet : string; prAtoms : Z; prComposite : string }.
Definition no_predicates := MkPredicates "" "" 0 "".

Record ReservationRow := MkReservationRow {
  qTask : string; qRoot : string; qProfile : string; qState : string; qEstimated : ExposureLimits; qActual : ExposureLimits;
  qCharged : ExposureLimits; qObservation : string; qEpoch : Z; qPredicates : Predicates; qChargedAtoms : Z; qSettledAt : option Z }.

Record ObservationRow := MkObservationRow {
  bProfile : string; bDictionarySet : string; bRelease : string; bInfluence : string; bOutcome : string; bActual : ExposureLimits;
  bPredicates : Predicates }.

Record RootObservation := MkRootObservation { roFirstQuery : string; roFirstEpoch : Z }.
Record QueryObservation := MkQueryObservation {
  qoRoot : string; qoObservation : string; qoEpoch : Z; qoCharged : ExposureLimits; qoChargedAtoms : Z; qoChargedComposite : Z }.

#[export] Existing Instance ExposureLedger.ordinal_version_eq_dec.
#[export] Instance ExposureLimits_eq_dec : EqDecision ExposureLimits.
Proof. solve_decision. Defined.
#[export] Instance Predicates_eq_dec : EqDecision Predicates.
Proof. solve_decision. Defined.
#[export] Instance ObservationRow_eq_dec : EqDecision ObservationRow.
Proof. solve_decision. Defined.

Record LedgerTables := MkLedgerTables {
  heads : gmap string OrdinalRootHead;
  rows : gmap string ReservationRow;
  observations : gmap string ObservationRow;
  root_observations : gmap (string * string) RootObservation;
  query_observations : gmap string QueryObservation;
}.

Record OutcomeFactRow := MkOutcomeFactRow { ofKind : string; ofPayload : bytes; ofContext : string; ofCatalog : string; ofQuery : string }.

(** [cutover]: the task or the Catalog that activated V4. *)
Record OrdinalTables := MkOrdinalTables {
  cutover : option (string + string);
  hybrid : HybridTables;
  outcome_facts : gmap string OutcomeFactRow;
  outcomes : ObjectStore;
  v4 : LedgerTables;
  v5 : LedgerTables;
}.

Definition with_heads (l : LedgerTables) x := MkLedgerTables x (rows l) (observations l) (root_observations l) (query_observations l).
Definition with_rows (l : LedgerTables) x := MkLedgerTables (heads l) x (observations l) (root_observations l) (query_observations l).
Definition with_observations (l : LedgerTables) x := MkLedgerTables (heads l) (rows l) x (root_observations l) (query_observations l).
Definition with_root_observations (l : LedgerTables) x := MkLedgerTables (heads l) (rows l) (observations l) x (query_observations l).
Definition with_query_observations (l : LedgerTables) x := MkLedgerTables (heads l) (rows l) (observations l) (root_observations l) x.
Definition with_cutover (o : OrdinalTables) x := MkOrdinalTables x (hybrid o) (outcome_facts o) (outcomes o) (v4 o) (v5 o).
Definition with_hybrid (o : OrdinalTables) x := MkOrdinalTables (cutover o) x (outcome_facts o) (outcomes o) (v4 o) (v5 o).
Definition with_outcome_facts (o : OrdinalTables) x := MkOrdinalTables (cutover o) (hybrid o) x (outcomes o) (v4 o) (v5 o).
Definition with_outcomes (o : OrdinalTables) x := MkOrdinalTables (cutover o) (hybrid o) (outcome_facts o) x (v4 o) (v5 o).

Definition ledger (v : ordinal_version) (o : OrdinalTables) : LedgerTables := match v with V4 => v4 o | V5 => v5 o end.
Definition with_ledger (v : ordinal_version) (o : OrdinalTables) x :=
  match v with
  | V4 => MkOrdinalTables (cutover o) (hybrid o) (outcome_facts o) (outcomes o) x (v5 o)
  | V5 => MkOrdinalTables (cutover o) (hybrid o) (outcome_facts o) (outcomes o) (v4 o) x
  end.

(** ** Statements *)
Definition positive_limits (l : ExposureLimits) : bool := (0 <? ReleaseFacts l) && (0 <? InfluenceFacts l) && (0 <? OutcomeFacts l).
Definition nonnegative (l : ExposureLimits) : bool := (0 <=? ReleaseFacts l) && (0 <=? InfluenceFacts l) && (0 <=? OutcomeFacts l).
Definition add_limits (a b : ExposureLimits) : ExposureLimits :=
  MkExposure (ReleaseFacts a + ReleaseFacts b) (InfluenceFacts a + InfluenceFacts b) (OutcomeFacts a + OutcomeFacts b).
Definition within (a b : ExposureLimits) : bool :=
  (ReleaseFacts a <=? ReleaseFacts b) && (InfluenceFacts a <=? InfluenceFacts b) && (OutcomeFacts a <=? OutcomeFacts b).
Definition no_novelty (l : ExposureLimits) : bool := (ReleaseFacts l =? 0) && (InfluenceFacts l =? 0) && (OutcomeFacts l =? 0).

(** [UPDATE ..._exposure_root_heads SET epoch=epoch+1, ... WHERE root_task_id=... AND epoch=... AND used + new <= max]:
    one row or [ErrOrdinalCASConflict]. *)
Definition cas_head (v : ordinal_version) (o : OrdinalTables) (root : string) (epoch : Z) (dictionarySet : string) (charged : ExposureLimits)
    (release influence outcome : string) (now : Z) : result OrdinalTables :=
  head ← match heads (ledger v o) !! root with Some head => Ok head | None => Err ErrOrdinalCASConflict end;
  fail_if (negb (hEpoch head =? epoch) || negb (within (add_limits (hUsed head) charged) (hLimits head))) ErrOrdinalCASConflict ≫= fun _ =>
  fail_if (max_int64 <? hEpoch head + 1) (ErrNew "bigint out of range") ≫= fun _ =>
  fail_if (negb (nonnegative (add_limits (hUsed head) charged))) check_violation ≫= fun _ =>
  Ok (with_ledger v o (with_heads (ledger v o) (<[root := MkHead (hRootTaskID head) (hProfileVersion head) dictionarySet (hEpoch head + 1) (hLimits head)
        (add_limits (hUsed head) charged) release influence outcome (hPredicate head) now]> (heads (ledger v o))))).

(** [SELECT epoch FROM ..._exposure_root_heads WHERE root_task_id=...]. *)
Definition current_epoch (v : ordinal_version) (o : OrdinalTables) (root : string) : result Z :=
  head ← select (heads (ledger v o) !! root); Ok (hEpoch head).

(** [INSERT INTO ..._root_observations ... ON CONFLICT DO NOTHING]: the tables and whether a row was inserted. *)
Definition insert_root_observation (v : ordinal_version) (o : OrdinalTables) (root observation query : string) (epoch : Z) : OrdinalTables * bool :=
  let l := ledger v o in
  match root_observations l !! (root, observation) with
  | Some _ => (o, false)
  | None => (with_ledger v o (with_root_observations l (<[(root, observation) := MkRootObservation query epoch]> (root_observations l))), true)
  end.

Definition insert_query_observation (v : ordinal_version) (o : OrdinalTables) (query : string) (row : QueryObservation) : result OrdinalTables :=
  let l := ledger v o in
  fail_if (negb (nonnegative (qoCharged row)) || (qoEpoch row <? 0) ||
           match v with
           | V4 => false
           | V5 => (qoChargedAtoms row <? 0) || (qoChargedComposite row <? 0) || (1 <? qoChargedComposite row) ||
                   negb (OutcomeFacts (qoCharged row) =? qoChargedAtoms row + qoChargedComposite row)
           end) check_violation ≫= fun _ =>
  fail_if (bool_decide (is_Some (query_observations l !! query))) duplicate_key ≫= fun _ =>
  fail_if (bool_decide (root_observations l !! (qoRoot row, qoObservation row) = None)) foreign_key ≫= fun _ =>
  Ok (with_ledger v o (with_query_observations l (<[query := row]> (query_observations l)))).

(** [UPDATE ..._query_exposure_reservations SET status='SETTLED', ... WHERE query_id=... AND status='RESERVED']: one row or an error. *)
Definition settle_row (v : ordinal_version) (o : OrdinalTables) (query : string) (actual charged : ExposureLimits) (observation : string)
    (predicates : Predicates) (chargedAtoms epoch now : Z) (e : goerror) : result OrdinalTables :=
  let l := ledger v o in
  match rows l !! query with
  | Some r =>
      fail_if (negb (bool_decide (qState r = exposureReserved))) e ≫= fun _ =>
      fail_if (negb (nonnegative actual) || negb (nonnegative charged) || negb (valid_sha256_text observation) || (epoch <? 0) ||
               match v with
               | V4 => false
               | V5 => negb (valid_sha256_text (prContext predicates)) || negb (valid_sha256_text (prSet predicates)) ||
                       negb (valid_sha256_text (prComposite predicates)) || negb (OutcomeFacts actual =? prAtoms predicates + 1) ||
                       (OutcomeFacts charged <? chargedAtoms) || (chargedAtoms <? 0)
               end) check_violation ≫= fun _ =>
      Ok (with_ledger v o (with_rows l (<[query := MkReservationRow (qTask r) (qRoot r) (qProfile r) "SETTLED" (qEstimated r) actual charged
            observation epoch predicates chargedAtoms (Some now)]> (rows l))))
  | None => Err e
  end.

(** [INSERT INTO ..._observations ... ON CONFLICT DO NOTHING], and the comparison with a row that was there. *)
Definition insert_observation (v : ordinal_version) (o : OrdinalTables) (observation : string) (row : ObservationRow) (collision : goerror) : result OrdinalTables :=
  let l := ledger v o in
  fail_if (negb (valid_sha256_text observation) || negb (nonnegative (bActual row)) ||
           match v with
           | V4 => false
           | V5 => negb (valid_sha256_text (prContext (bPredicates row))) || negb (valid_sha256_text (prSet (bPredicates row))) ||
                   negb (valid_sha256_text (prComposite (bPredicates row))) || (prAtoms (bPredicates row) <? 0) ||
                   negb (OutcomeFacts (bActual row) =? prAtoms (bPredicates row) + 1)
           end) check_violation ≫= fun _ =>
  match observations l !! observation with
  | Some stored => fail_if (negb (bool_decide (stored = row))) collision ≫= fun _ => Ok o
  | None => Ok (with_ledger v o (with_observations l (<[observation := row]> (observations l))))
  end.

End OrdinalTables.
