(* ===== verification/OrdinalLedger.v ===== *)
(** * The V4 and V5 exposure ledgers

    [src/internal/control/ordinal_exposure.go] and [ordinal_exposure_v5.go]: one
    head per task family names the sets of facts its queries have shown, an
    epoch orders the heads, and a settlement charges what its observation adds.
    A settlement reads the head without a lock: [read] is the ledger its head
    query saw, [seen] the one its query for the observation saw; in a
    transaction alone both are the current one. *)

From S2P Require Import Prelude GoBytes FactId OutcomeSet LedgerStore ExposureLedger OutcomeRadix Roaring Bitmap HybridSet HybridStore V5Facts OrdinalTables.
Import FactId(same, SQLLiterals, ProfileV4, ProfileV5).
Import Bitmap(BitmapSet, MkSet, IsEmpty).
Import HybridSet HybridStore V5Facts OrdinalTables.
Import OutcomeSet(OrdinalDynamicFact, dynSHA256, dynKind, dynPayload, OutcomeHashSetObjectsV5, objSet, SetSHA256, Cardinality, MkCandidate,
  decodeOutcomeHashV5, OutcomeHashTextV5, BuildOutcomeHashSetV5).
Import OutcomeRadix(persistV5SetObjectsTx, differenceAndUnionV5Tx).
Import Store(Store, ordinal, tasks, grants, queries, ledgers, reservations, facts, links, tRootTaskID, gExposureLimits, gExposureProfile, qStatus, qTaskID,
  qCatalogDigest, with_ordinal, select, appendAuditTx, ErrNoRows, foreign_key, duplicate_key, QueryReserved,
  ErrExposureBudgetExhausted, ErrExposureEvidenceRequired, exposureReserved, exposureSettled, exposureReleased,
  ExposureLimits, MkExposure, ReleaseFacts, InfluenceFacts, OutcomeFacts, ExposureGrant, eProfileVersion, eLimits, ePredicateFootprint,
  PredicateFootprintLimitsV1, pfVersion, MaxRawLiteralsPerQuery, MaxUniqueAtomsPerQuery, MaxAtomPayloadBytes, MaxTotalAtomPayloadBytes).
Import ExposureLedger(ordinal_version, V4, V5, zero_limits, ExposureCharge, MkCharge).

Module OrdinalLedger.

(** [OrdinalExposureObservation] and [OrdinalObservationReference]. *)
Record OrdinalExposureObservation {B : Type} := MkExposureObservation {
  xProfile : string; xDictionarySet : string; xRelease : OrdinalHybridSet B; xInfluence : OrdinalHybridSet B; xOutcome : OrdinalHybridSet B;
  xObservation : string }.
Arguments OrdinalExposureObservation B : clear implicits.
Record OrdinalObservationReference := MkReference { rfObservation : string; rfDictionarySet : string }.

(** The audit events. *)
Definition audited (s : Store OrdinalTables) (task query kind : string) (now : Z) : result (Store OrdinalTables) :=
  appendAuditTx s task query "system" kind now.

Section ledger.
Context `{SQLLiterals} {B : Type} `{!Roaring B}.
Implicit Types (s : Store OrdinalTables) (o : OrdinalTables) (r : ReservationRow).

(** ** Activation and heads *)
Definition in_flight_legacy s : bool :=
  existsb (fun q => same (qStatus q) QueryReserved &&
                    match grants s !! qTaskID q with Some g => negb (same (gExposureProfile g) ProfileV4) | None => false end)
    (map snd (map_to_list (queries s))).

(** The trigger [enforce_v4_clean_cutover]. *)
Definition clean_cutover s : bool :=
  bool_decide (ledgers s = ∅) && bool_decide (reservations s = ∅) && bool_decide (facts s = ∅) && bool_decide (links s = ∅) && negb (in_flight_legacy s).

Definition activateV4CutoverTx s (taskID : string) : result (Store OrdinalTables) :=
  match cutover (ordinal s) with
  | Some _ => Ok s
  | None =>
      fail_if (negb (clean_cutover s)) (ErrNew "TaskGate V4 activation refused: legacy exposure state or in-flight query exists") ≫= fun _ =>
      fail_if (bool_decide (tasks s !! taskID = None)) foreign_key ≫= fun _ =>
      Ok (with_ordinal s (with_cutover (ordinal s) (Some (inl taskID))))
  end.

Definition exceeds_limits (a b : ExposureLimits) : bool :=
  (ReleaseFacts b <? ReleaseFacts a) || (InfluenceFacts b <? InfluenceFacts a) || (OutcomeFacts b <? OutcomeFacts a).

Definition exceeds_predicate_limits (a b : PredicateFootprintLimitsV1) : bool :=
  negb (same (pfVersion a) (pfVersion b)) || (MaxRawLiteralsPerQuery b <? MaxRawLiteralsPerQuery a) ||
  (MaxUniqueAtomsPerQuery b <? MaxUniqueAtomsPerQuery a) || (MaxAtomPayloadBytes b <? MaxAtomPayloadBytes a) ||
  (MaxTotalAtomPayloadBytes b <? MaxTotalAtomPayloadBytes a).

Definition new_head (root profile : string) (limits : ExposureLimits) (predicate : option PredicateFootprintLimitsV1) (now : Z) : OrdinalRootHead :=
  MkHead root profile "" 0 limits zero_limits "" "" "" predicate now.

Definition insert_head (v : ordinal_version) s (head : OrdinalRootHead) : result (Store OrdinalTables) :=
  let l := ledger v (ordinal s) in
  fail_if (negb (positive_limits (hLimits head))) check_violation ≫= fun _ =>
  Ok (with_ordinal s (with_ledger v (ordinal s) (with_heads l (<[hRootTaskID head := head]> (heads l))))).

Definition ensureOrdinalExposureHeadTx s (taskID : string) (grant : ExposureGrant) (now : Z) : result (Store OrdinalTables) :=
  fail_if (negb (same (eProfileVersion grant) ProfileV4)) (ErrNew "ordinal root head requires %s") ≫= fun _ =>
  s ← activateV4CutoverTx s taskID;
  task ← select (tasks s !! taskID);
  let root := tRootTaskID task in
  match heads (v4 (ordinal s)) !! root with
  | Some existing =>
      fail_if (negb (same (hProfileVersion existing) (eProfileVersion grant)) || exceeds_limits (eLimits grant) (hLimits existing))
        (ErrNew "delegated V4 exposure grant expands or changes its root head") ≫= fun _ => Ok s
  | None =>
      fail_if (negb (same root taskID)) (ErrNew "delegated task has no V4 root head") ≫= fun _ =>
      insert_head V4 s (new_head root (eProfileVersion grant) (eLimits grant) None now)
  end.

(** The CHECK constraints on the predicate columns of [v5_exposure_root_heads]. *)
Definition predicate_columns_ok (p : PredicateFootprintLimitsV1) : bool :=
  let between z bound := (1 <=? z) && (z <=? bound) in
  same (pfVersion p) "taskgate-predicate-footprint-v1" && between (MaxRawLiteralsPerQuery p) 1000000 && between (MaxUniqueAtomsPerQuery p) 65536 &&
  between (MaxAtomPayloadBytes p) 1048576 && between (MaxTotalAtomPayloadBytes p) 1073741824.

Definition ensureV5ExposureHeadTx s (taskID : string) (grant : ExposureGrant) (now : Z) : result (Store OrdinalTables) :=
  fail_if (negb (same (eProfileVersion grant) ProfileV5)) (ErrNew "V5 root head requires %s") ≫= fun _ =>
  s ← activateV4CutoverTx s taskID;
  task ← select (tasks s !! taskID);
  let root := tRootTaskID task in
  match heads (v5 (ordinal s)) !! root with
  | Some existing =>
      fail_if (negb (same (hProfileVersion existing) ProfileV5) || exceeds_limits (eLimits grant) (hLimits existing) ||
               match ePredicateFootprint grant, hPredicate existing with
               | Some p, Some q => exceeds_predicate_limits p q
               | _, _ => true
               end) (ErrNew "delegated V5 exposure grant expands or changes its root head") ≫= fun _ => Ok s
  | None =>
      fail_if (negb (same root taskID)) (ErrNew "delegated task has no V5 root head") ≫= fun _ =>
      fail_if (bool_decide (is_Some (heads (v4 (ordinal s)) !! root))) (ErrNew "V4 root cannot be reinterpreted as V5") ≫= fun _ =>
      match ePredicateFootprint grant with
      | Some p =>
          fail_if (negb (predicate_columns_ok p)) check_violation ≫= fun _ =>
          insert_head V5 s (new_head root ProfileV5 (eLimits grant) (Some p) now)
      | None => Err (ErrNew "invalid memory address or nil pointer dereference")
      end
  end.

(** ** Reserving *)
Definition insert_reservation (v : ordinal_version) s (queryID taskID root profile : string) (estimated : ExposureLimits) : result (Store OrdinalTables) :=
  let l := ledger v (ordinal s) in
  fail_if (bool_decide (is_Some (rows l !! queryID))) duplicate_key ≫= fun _ =>
  fail_if (bool_decide (queries s !! queryID = None)) foreign_key ≫= fun _ =>
  Ok (with_ordinal s (with_ledger v (ordinal s) (with_rows l (<[queryID := MkReservationRow taskID root profile exposureReserved estimated zero_limits
        zero_limits "" 0 no_predicates 0 None]> (rows l))))).

Definition bad_estimate (e : ExposureLimits) : bool := (ReleaseFacts e <? 0) || (InfluenceFacts e <? 0) || (OutcomeFacts e <=? 0).

Definition reserveOrdinalExposureTx s (queryID taskID : string) (estimated : option ExposureLimits) (profileVersion : string) : result (Store OrdinalTables) :=
  task ← select (tasks s !! taskID);
  let root := tRootTaskID task in
  head ← select (heads (v4 (ordinal s)) !! root);
  match estimated with
  | None => Err ErrExposureEvidenceRequired
  | Some estimated =>
      fail_if (negb (same profileVersion (hProfileVersion head)) || negb (same (hProfileVersion head) ProfileV4) || bad_estimate estimated)
        (ErrNew "invalid V4 exposure reservation") ≫= fun _ =>
      insert_reservation V4 s queryID taskID root (hProfileVersion head) estimated
  end.

Definition reserveV5ExposureTx s (queryID taskID : string) (estimated : option ExposureLimits) (profileVersion : string) : result (Store OrdinalTables) :=
  task ← select (tasks s !! taskID);
  let root := tRootTaskID task in
  head ← select (heads (v5 (ordinal s)) !! root);
  match estimated with
  | None => Err (ErrNew "invalid V5 exposure reservation")
  | Some estimated =>
      fail_if (negb (same profileVersion ProfileV5) || negb (same (hProfileVersion head) ProfileV5) || bad_estimate estimated)
        (ErrNew "invalid V5 exposure reservation") ≫= fun _ =>
      insert_reservation V5 s queryID taskID root (hProfileVersion head) estimated
  end.

(** ** Normalizing an observation *)
Definition base_cell := "BASE_CELL".
Definition base_row := "BASE_ROW".

(** [... FROM v4_dictionary_sets CROSS JOIN query_records ...]. *)
Definition catalogs s (dictionarySet queryID : string) : option (string * string) :=
  setCatalog ← dictionary_sets (hybrid (ordinal s)) !! dictionarySet; query ← queries s !! queryID; Some (setCatalog, qCatalogDigest query).

(** The release and the influence set, alike in both profiles. *)
Definition normalize_released s (t : HybridTables) (queryID : string) (observation : OrdinalExposureObservation B) :
    result (HybridTables * normalizedOrdinalSet B * normalizedOrdinalSet B) :=
  let known := bool_decide (is_Some (queries s !! queryID)) in
  '(t, release) ← map_err (ErrCtx "release set")
    (normalizeOrdinalSetTx t known queryID (xDictionarySet observation) (xRelease observation) OrdinalDynamicDerivedRelease [base_cell]);
  '(t, influence) ← map_err (ErrCtx "influence set")
    (normalizeOrdinalSetTx t known queryID (xDictionarySet observation) (xInfluence observation) "" [base_row; base_cell]);
  Ok (t, release, influence).

Definition normalizeOrdinalObservationTx s (queryID : string) (observation : OrdinalExposureObservation B) :
    result (HybridTables * normalizedOrdinalObservation B) :=
  fail_if (negb (same (xProfile observation) ProfileV4) || negb (valid_sha256_text (xDictionarySet observation))) (ErrNew "invalid V4 observation identity") ≫= fun _ =>
  match catalogs s (xDictionarySet observation) queryID with
  | None => Err (ErrNew "unknown V4 dictionary set %s")
  | Some (setCatalog, queryCatalog) =>
      fail_if (negb (same setCatalog queryCatalog)) (ErrNew "V4 dictionary set Catalog does not match the query") ≫= fun _ =>
      '(t, release, influence) ← normalize_released s (hybrid (ordinal s)) queryID observation;
      '(t, outcome) ← map_err (ErrCtx "outcome set")
        (normalizeOrdinalSetTx t (bool_decide (is_Some (queries s !! queryID))) queryID (xDictionarySet observation) (xOutcome observation) OrdinalDynamicOutcome []);
      fail_if (negb (staticCount outcome =? 0) || negb (dynamicCount outcome =? 1)) (ErrNew "V4 requires exactly one dynamic outcome fact") ≫= fun _ =>
      let digest := ordinalObservationDigest (xDictionarySet observation) release influence outcome in
      fail_if (negb (same (xObservation observation) "") && negb (same (xObservation observation) digest)) (ErrNew "V4 observation digest mismatch") ≫= fun _ =>
      Ok (t, MkOrdinalObservation (xDictionarySet observation) release influence outcome digest)
  end.

Definition normalizeV5ObservationTx s (queryID : string) (observation : OrdinalExposureObservation B) :
    result (HybridTables * normalizedV5Observation B) :=
  fail_if (negb (same (xProfile observation) ProfileV5) || negb (valid_sha256_text (xDictionarySet observation))) (ErrNew "invalid V5 observation identity") ≫= fun _ =>
  '(setCatalog, queryCatalog) ← select (catalogs s (xDictionarySet observation) queryID);
  fail_if (negb (same setCatalog queryCatalog)) (ErrNew "V5 dictionary set Catalog does not match the query") ≫= fun _ =>
  '(t, release, influence) ← normalize_released s (hybrid (ordinal s)) queryID observation;
  fail_if (negb (IsEmpty (hsStatic (xOutcome observation))) || Nat.eqb (length (hsDynamicFacts (xOutcome observation))) 0)
    (ErrNew "V5 outcome must be a non-empty dynamic set") ≫= fun _ =>
  '(facts, metadata) ← normalizeV5OutcomeFacts (hsDynamicFacts (xOutcome observation));
  outcome ← BuildOutcomeHashSetV5 (map dynSHA256 facts);
  let digest := v5ObservationDigest (xDictionarySet observation) release influence outcome metadata in
  fail_if (negb (same (xObservation observation) "") && negb (same (xObservation observation) digest)) (ErrNew "V5 observation digest mismatch") ≫= fun _ =>
  Ok (t, MkV5Observation (xDictionarySet observation) release influence outcome facts digest (dfContext metadata) (dfSetDigest metadata)
           (dfAtomCount metadata) (dfCompositeHash metadata)).

(** ** Persisting an observation *)
Definition persist_sets (t : HybridTables) (dictionarySet : string) (sets : list (normalizedOrdinalSet B)) : result HybridTables :=
  fold_res (fun t set => persistOrdinalSetTx t dictionarySet set) t sets.

Definition actual_v4 (n : normalizedOrdinalObservation B) : ExposureLimits :=
  MkExposure (cardinality (oRelease n)) (cardinality (oInfluence n)) (cardinality (oOutcome n)).
Definition actual_v5 (n : normalizedV5Observation B) : ExposureLimits :=
  MkExposure (cardinality (vRelease n)) (cardinality (vInfluence n)) (Cardinality (objSet (vOutcome n))).

Definition observation_v4 (n : normalizedOrdinalObservation B) : ObservationRow :=
  MkObservationRow ProfileV4 (oDictionarySet n) (digest (oRelease n)) (digest (oInfluence n)) (digest (oOutcome n)) (actual_v4 n) no_predicates.
Definition predicates_v5 (n : normalizedV5Observation B) : Predicates :=
  MkPredicates (vContextDigest n) (vPredicateSet n) (vAtomCount n) (vCompositeHash n).
Definition observation_v5 (n : normalizedV5Observation B) : ObservationRow :=
  MkObservationRow ProfileV5 (vDictionarySet n) (digest (vRelease n)) (digest (vInfluence n)) (SetSHA256 (objSet (vOutcome n))) (actual_v5 n) (predicates_v5 n).

Definition persistOrdinalObservationTx o (n : normalizedOrdinalObservation B) : result OrdinalTables :=
  t ← persist_sets (hybrid o) (oDictionarySet n) [oRelease n; oInfluence n; oOutcome n];
  insert_observation V4 (with_hybrid o t) (oDigest n) (observation_v4 n) (ErrNew "observation digest collision for %s").

(** [INSERT INTO v5_outcome_facts ... ON CONFLICT DO NOTHING]. *)
Definition insert_outcome_fact (known_query : bool) (catalog query : string) (m : gmap string OutcomeFactRow) (fc : OrdinalDynamicFact * string) :
    result (gmap string OutcomeFactRow) :=
  let '(fact, context) := fc in
  fail_if (negb (valid_sha256_text (dynSHA256 fact)) || negb (bool_decide (dynKind fact ∈ [OrdinalDynamicPredicateAtom; OrdinalDynamicCompositeOutcome])) ||
           negb (valid_sha256_text context) || negb (valid_sha256_text catalog)) check_violation ≫= fun _ =>
  match m !! dynSHA256 fact with
  | Some _ => Ok m
  | None => fail_if (negb known_query) foreign_key ≫= fun _ =>
            Ok (<[dynSHA256 fact := MkOutcomeFactRow (dynKind fact) (dynPayload fact) context catalog query]> m)
  end.

Definition persist_outcome_facts (m : gmap string OutcomeFactRow) (known_query : bool) (catalog query : string) (facts : list OrdinalDynamicFact) :
    result (gmap string OutcomeFactRow) :=
  contexts ← fold_res (fun acc fact => decoded ← decodeV5FactPayload (dynPayload fact); Ok (acc ++ [dfContext decoded])) [] facts;
  m ← fold_res (insert_outcome_fact known_query catalog query) m (zip facts contexts);
  check_all (fun fc : OrdinalDynamicFact * string =>
      let '(fact, context) := fc in
      fail_if (match m !! dynSHA256 fact with
               | Some got => negb (same (ofKind got) (dynKind fact)) || negb (bool_decide (ofPayload got = dynPayload fact)) || negb (same (ofContext got) context)
               | None => true
               end) (ErrNew "V5 outcome fact hash collision for %s")) (zip facts contexts) ≫= fun _ =>
  Ok m.

Definition persistV5OutcomeTx o (known_query : bool) (queryID catalog : string) (n : normalizedV5Observation B) : result OrdinalTables :=
  fail_if (Nat.eqb (length (vFacts n)) 0) (ErrNew "V5 outcome fact set is empty") ≫= fun _ =>
  m ← persist_outcome_facts (outcome_facts o) known_query catalog queryID (vFacts n);
  st ← persistV5SetObjectsTx (outcomes o) (vOutcome n);
  t ← persist_sets (hybrid o) (vDictionarySet n) [vRelease n; vInfluence n];
  insert_observation V5 (with_hybrid (with_outcomes (with_outcome_facts o m) st) t) (vDigest n) (observation_v5 n) (ErrNew "V5 observation SHA-256 collision").

(** ** Novelty *)
Definition load_root_set (t : HybridTables) (dictionarySet set : string) (mismatch : goerror) : result (normalizedOrdinalSet B) :=
  '(root, dictionary) ← loadOrdinalSetTx t set;
  fail_if (negb (same dictionary dictionarySet)) mismatch ≫= fun _ => Ok root.

(** A V5 settlement reports every failure to load as a mismatch. *)
Definition load_root_set_v5 (t : HybridTables) (dictionarySet set : string) (mismatch : goerror) : result (normalizedOrdinalSet B) :=
  map_err (fun _ => mismatch) (load_root_set t dictionarySet set mismatch).

Definition root_sets (t : HybridTables) (dictionarySet : string) (head : OrdinalRootHead) :
    result (normalizedOrdinalSet B * normalizedOrdinalSet B * normalizedOrdinalSet B) :=
  if same (hReleaseSet head) "" then Ok (empty_set, empty_set, empty_set)
  else
    release ← load_root_set t dictionarySet (hReleaseSet head) (ErrNew "release root set dictionary mismatch");
    influence ← load_root_set t dictionarySet (hInfluenceSet head) (ErrNew "influence root set dictionary mismatch");
    outcome ← load_root_set t dictionarySet (hOutcomeSet head) (ErrNew "outcome root set dictionary mismatch");
    Ok (release, influence, outcome).

Definition root_sets_v5 (t : HybridTables) (dictionarySet : string) (head : OrdinalRootHead) : result (normalizedOrdinalSet B * normalizedOrdinalSet B) :=
  if same (hReleaseSet head) "" then Ok (empty_set, empty_set)
  else
    release ← load_root_set_v5 t dictionarySet (hReleaseSet head) (ErrNew "V5 release root set dictionary mismatch");
    influence ← load_root_set_v5 t dictionarySet (hInfluenceSet head) (ErrNew "V5 influence root set dictionary mismatch");
    Ok (release, influence).

Definition check_head (v : ordinal_version) (head : OrdinalRootHead) (dictionarySet : string) : result unit :=
  fail_if (negb (same (hProfileVersion head) (match v with V4 => ProfileV4 | V5 => ProfileV5 end)) ||
           (negb (same (hDictionarySetDigest head) "") && negb (same (hDictionarySetDigest head) dictionarySet)))
    (ErrNew (match v with V4 => "V4 root head dictionary/profile mismatch" | V5 => "V5 root head dictionary/profile mismatch" end)).

(** The branch [!seen] up to the head update: the charge, the new tables and the epoch. *)
Definition charge_v4 s o r (n : normalizedOrdinalObservation B) (head : OrdinalRootHead) (now : Z) : result (OrdinalTables * ExposureLimits * Z) :=
  let dict := oDictionarySet n in
  '(rootRelease, rootInfluence, rootOutcome) ← root_sets (hybrid o) dict head;
  deltaRelease ← differenceOrdinalSet dict (oRelease n) rootRelease;
  deltaInfluence ← differenceOrdinalSet dict (oInfluence n) rootInfluence;
  deltaOutcome ← differenceOrdinalSet dict (oOutcome n) rootOutcome;
  let charged := MkExposure (cardinality deltaRelease) (cardinality deltaInfluence) (cardinality deltaOutcome) in
  grant ← select (grants s !! qTask r);
  fail_if (exceedsOrdinalLimit (hUsed head) (hLimits head) (gExposureLimits grant) charged) ErrExposureBudgetExhausted ≫= fun _ =>
  if no_novelty charged then Ok (o, charged, hEpoch head)
  else
    mergedRelease ← unionOrdinalSet dict rootRelease (oRelease n);
    mergedInfluence ← unionOrdinalSet dict rootInfluence (oInfluence n);
    mergedOutcome ← unionOrdinalSet dict rootOutcome (oOutcome n);
    t ← persist_sets (hybrid o) dict [mergedRelease; mergedInfluence; mergedOutcome];
    o ← cas_head V4 (with_hybrid o t) (qRoot r) (hEpoch head) dict charged (digest mergedRelease) (digest mergedInfluence) (digest mergedOutcome) now;
    Ok (o, charged, hEpoch head + 1).

Definition unseen_v4 s o r (queryID : string) (n : normalizedOrdinalObservation B) (head : OrdinalRootHead) (now : Z) : result (OrdinalTables * ExposureLimits * Z) :=
  '(o, charged, epoch) ← charge_v4 s o r n head now;
  let '(o, inserted) := insert_root_observation V4 o (qRoot r) (oDigest n) queryID epoch in
  if inserted then Ok (o, charged, epoch)
  else
    fail_if (negb (no_novelty charged)) ErrOrdinalCASConflict ≫= fun _ =>
    epoch ← current_epoch V4 o (qRoot r);
    Ok (o, charged, epoch).

(** ** Settling an observation *)
Definition settled_charge_v4 (queryID : string) r (n : normalizedOrdinalObservation B) : ExposureCharge :=
  MkCharge queryID (qRoot r) ProfileV4 (qActual r) (qCharged r) (qObservation r) (oDictionarySet n) (digest (oRelease n)) (digest (oInfluence n))
    (digest (oOutcome n)) (qEpoch r).

Definition settleOrdinalExposureMeasuredTx (read seen : LedgerTables) s (now : Z) (queryID : string) (observation : OrdinalExposureObservation B) :
    result (Store OrdinalTables * ExposureCharge) :=
  r ← match rows (v4 (ordinal s)) !! queryID with Some r => Ok r | None => Err (ErrNew "V4 exposure evidence supplied without a reservation") end;
  '(t, n) ← normalizeOrdinalObservationTx s queryID observation;
  let o := with_hybrid (ordinal s) t in
  if same (qState r) exposureSettled then
    fail_if (negb (same (qObservation r) (oDigest n))) (ErrNew "query already settled with different V4 exposure evidence") ≫= fun _ =>
    Ok (with_ordinal s o, settled_charge_v4 queryID r n)
  else
    fail_if (negb (same (qState r) exposureReserved)) (ErrNew "V4 exposure reservation is %s") ≫= fun _ =>
    o ← persistOrdinalObservationTx o n;
    head ← select (heads read !! qRoot r);
    check_head V4 head (oDictionarySet n) ≫= fun _ =>
    '(o, charged, epoch) ←
      (if bool_decide (is_Some (root_observations seen !! (qRoot r, oDigest n)))
       then epoch ← current_epoch V4 o (qRoot r); Ok (o, zero_limits, epoch)
       else unseen_v4 s o r queryID n head now);
    o ← insert_query_observation V4 o queryID (MkQueryObservation (qRoot r) (oDigest n) epoch charged 0 0);
    o ← settle_row V4 o queryID (actual_v4 n) charged (oDigest n) no_predicates 0 epoch now (ErrNew "V4 exposure reservation changed concurrently");
    s ← audited (with_ordinal s o) (qTask r) queryID "QUERY_ORDINAL_EXPOSURE_SETTLED" now;
    Ok (s, MkCharge queryID (qRoot r) ProfileV4 (actual_v4 n) charged (oDigest n) (oDictionarySet n) (digest (oRelease n)) (digest (oInfluence n))
             (digest (oOutcome n)) epoch).

(** [getOrdinalExposureCharge] and [getV5ExposureCharge]. *)
Definition get_charge (v : ordinal_version) o (queryID : string) : result ExposureCharge :=
  r ← select (rows (ledger v o) !! queryID);
  fail_if (negb (same (qState r) exposureSettled)) ErrNoRows ≫= fun _ =>
  let row := observations (ledger v o) !! qObservation r in
  let column f := match row with Some b => f b | None => "" end in
  Ok (MkCharge queryID (qRoot r) (qProfile r) (qActual r) (qCharged r) (qObservation r) (column bDictionarySet) (column bRelease) (column bInfluence)
        (column bOutcome) (qEpoch r)).
Definition getOrdinalExposureCharge o queryID := get_charge V4 o queryID.
Definition getV5ExposureCharge o queryID := get_charge V5 o queryID.

(** The loop over the novel hashes: charged atoms and composites. *)
Definition count_kind (kinds : gmap string string) (acc : Z * Z) (hash : bytes) : result (Z * Z) :=
  match kinds !! OutcomeHashTextV5 hash with
  | Some kind =>
      if same kind OrdinalDynamicPredicateAtom then Ok (acc.1 + 1, acc.2)
      else if same kind OrdinalDynamicCompositeOutcome then Ok (acc.1, acc.2 + 1)
      else Err (ErrNew "V5 novelty references an unknown outcome fact")
  | None => Err (ErrNew "V5 novelty references an unknown outcome fact")
  end.

Definition fact_hash (fact : OrdinalDynamicFact) : bytes :=
  match decodeOutcomeHashV5 (dynSHA256 fact) with Ok hash => hash | Err _ => replicate 32 (byte_of 0) end.
Definition candidate_hashes (facts : list OrdinalDynamicFact) : list bytes := map fact_hash facts.

Definition fact_kinds (facts : list OrdinalDynamicFact) : gmap string string :=
  foldl (fun m fact => <[dynSHA256 fact := dynKind fact]> m) ∅ facts.

(** From the head to its update: the charge (with its atoms and composites), the new tables and the epoch. *)
Definition charge_v5 s o r (n : normalizedV5Observation B) (head : OrdinalRootHead) (now : Z) :
    result (OrdinalTables * ExposureLimits * (Z * Z) * Z) :=
  let dict := vDictionarySet n in
  '(rootRelease, rootInfluence) ← root_sets_v5 (hybrid o) dict head;
  deltaRelease ← differenceOrdinalSet dict (vRelease n) rootRelease;
  deltaInfluence ← differenceOrdinalSet dict (vInfluence n) rootInfluence;
  '(mergedOutcome, novelHashes, _) ← differenceAndUnionV5Tx (outcomes o) (hOutcomeSet head) (MkCandidate [] (candidate_hashes (vFacts n)));
  let charged := MkExposure (cardinality deltaRelease) (cardinality deltaInfluence) (Z.of_nat (length novelHashes)) in
  kinds ← fold_res (count_kind (fact_kinds (vFacts n))) (0, 0) novelHashes;
  grant ← select (grants s !! qTask r);
  fail_if (exceedsOrdinalLimit (hUsed head) (hLimits head) (gExposureLimits grant) charged) ErrExposureBudgetExhausted ≫= fun _ =>
  mergedRelease ← unionOrdinalSet dict rootRelease (vRelease n);
  mergedInfluence ← unionOrdinalSet dict rootInfluence (vInfluence n);
  t ← persist_sets (hybrid o) dict [mergedRelease; mergedInfluence];
  st ← persistV5SetObjectsTx (outcomes o) mergedOutcome;
  let o := with_outcomes (with_hybrid o t) st in
  if no_novelty charged then
    epoch ← current_epoch V5 o (qRoot r);
    Ok (o, charged, kinds, epoch)
  else
    o ← cas_head V5 o (qRoot r) (hEpoch head) dict charged (digest mergedRelease) (digest mergedInfluence) (SetSHA256 (objSet mergedOutcome)) now;
    Ok (o, charged, kinds, hEpoch head + 1).

Definition settleV5ExposureMeasuredTx (read : LedgerTables) s (now : Z) (queryID : string) (observation : OrdinalExposureObservation B) :
    result (Store OrdinalTables * ExposureCharge) :=
  r ← select (rows (v5 (ordinal s)) !! queryID);
  '(t, n) ← normalizeV5ObservationTx s queryID observation;
  let o := with_hybrid (ordinal s) t in
  fail_if (negb (Cardinality (objSet (vOutcome n)) =? OutcomeFacts (qEstimated r)))
    (ErrNew "V5 outcome cardinality differs from its pre-execution reservation") ≫= fun _ =>
  if same (qState r) exposureSettled then
    fail_if (negb (same (qObservation r) (vDigest n))) (ErrNew "query already settled with different V5 exposure evidence") ≫= fun _ =>
    charge ← getV5ExposureCharge o queryID;
    Ok (with_ordinal s o, charge)
  else
    fail_if (negb (same (qState r) exposureReserved)) (ErrNew "V5 exposure reservation is %s") ≫= fun _ =>
    query ← select (queries s !! queryID);
    o ← persistV5OutcomeTx o true queryID (qCatalogDigest query) n;
    head ← select (heads read !! qRoot r);
    check_head V5 head (vDictionarySet n) ≫= fun _ =>
    '(o, charged, kinds, epoch) ← charge_v5 s o r n head now;
    let '(o, _) := insert_root_observation V5 o (qRoot r) (vDigest n) queryID epoch in
    o ← insert_query_observation V5 o queryID (MkQueryObservation (qRoot r) (vDigest n) epoch charged kinds.1 kinds.2);
    o ← settle_row V5 o queryID (actual_v5 n) charged (vDigest n) (predicates_v5 n) kinds.1 epoch now (ErrNew "V5 exposure reservation changed concurrently");
    s ← audited (with_ordinal s o) (qTask r) queryID "QUERY_V5_EXPOSURE_SETTLED" now;
    Ok (s, MkCharge queryID (qRoot r) ProfileV5 (actual_v5 n) charged (vDigest n) (vDictionarySet n) (digest (vRelease n)) (digest (vInfluence n))
             (SetSHA256 (objSet (vOutcome n))) epoch).

(** ** Settling by reference *)

(** The join of an observation, its root, the head, the dictionary set and the query. *)
Definition referenced (v : ordinal_version) s (root observation queryID : string) : option (ObservationRow * RootObservation * OrdinalRootHead * string * string) :=
  let l := ledger v (ordinal s) in
  seen ← root_observations l !! (root, observation);
  row ← observations l !! observation;
  head ← heads l !! root;
  setCatalog ← dictionary_sets (hybrid (ordinal s)) !! bDictionarySet row;
  query ← queries s !! queryID;
  Some (row, seen, head, setCatalog, qCatalogDigest query).

Definition reference_charge (queryID root profile : string) (row : ObservationRow) (observation : string) (charged : ExposureLimits) (epoch : Z) : ExposureCharge :=
  MkCharge queryID root profile (bActual row) charged observation (bDictionarySet row) (bRelease row) (bInfluence row) (bOutcome row) epoch.

Definition settleOrdinalObservationRefMeasuredTx s (now : Z) (queryID : string) (reference : OrdinalObservationReference) :
    result (Store OrdinalTables * ExposureCharge) :=
  let observation := rfObservation reference in
  fail_if (negb (valid_sha256_text observation) || negb (valid_sha256_text (rfDictionarySet reference))) (ErrNew "invalid V4 observation reference") ≫= fun _ =>
  r ← select (rows (v4 (ordinal s)) !! queryID);
  match referenced V4 s (qRoot r) observation queryID with
  | None => Err (ErrNew "observation %s is not committed for root %s")
  | Some (row, seen, head, setCatalog, queryCatalog) =>
      fail_if (negb (same (bProfile row) ProfileV4) || negb (same (hProfileVersion head) ProfileV4) ||
               negb (same (bDictionarySet row) (rfDictionarySet reference)) || negb (same (hDictionarySetDigest head) (bDictionarySet row)) ||
               negb (same setCatalog queryCatalog) || negb (OutcomeFacts (bActual row) =? 1) || (hEpoch head <? roFirstEpoch seen))
        (ErrNew "observation reference dictionary/profile mismatch") ≫= fun _ =>
      if same (qState r) exposureSettled then
        fail_if (negb (same (qObservation r) observation) || negb (bool_decide (qActual r = bActual row)))
          (ErrNew "query already settled with different V4 exposure evidence") ≫= fun _ =>
        Ok (s, reference_charge queryID (qRoot r) ProfileV4 row observation (qCharged r) (qEpoch r))
      else
        fail_if (negb (same (qState r) exposureReserved)) (ErrNew "V4 exposure reservation is %s") ≫= fun _ =>
        o ← insert_query_observation V4 (ordinal s) queryID (MkQueryObservation (qRoot r) observation (hEpoch head) zero_limits 0 0);
        o ← settle_row V4 o queryID (bActual row) zero_limits observation no_predicates 0 (hEpoch head) now (ErrNew "V4 replay reservation changed concurrently");
        s ← audited (with_ordinal s o) (qTask r) queryID "QUERY_ORDINAL_SEMANTIC_REPLAY" now;
        Ok (s, reference_charge queryID (qRoot r) ProfileV4 row observation zero_limits (hEpoch head))
  end.

Definition settleV5ObservationRefMeasuredTx s (now : Z) (queryID : string) (reference : OrdinalObservationReference) :
    result (Store OrdinalTables * ExposureCharge) :=
  let observation := rfObservation reference in
  fail_if (negb (valid_sha256_text observation) || negb (valid_sha256_text (rfDictionarySet reference))) (ErrNew "invalid V5 observation reference") ≫= fun _ =>
  r ← select (rows (v5 (ordinal s)) !! queryID);
  '(row, seen, head, setCatalog, queryCatalog) ← select (referenced V5 s (qRoot r) observation queryID);
  fail_if (negb (same (bProfile row) ProfileV5) || negb (same (qProfile r) ProfileV5) || negb (same (bDictionarySet row) (rfDictionarySet reference)) ||
           negb (same setCatalog queryCatalog) || negb (OutcomeFacts (bActual row) =? prAtoms (bPredicates row) + 1) ||
           negb (OutcomeFacts (qEstimated r) =? OutcomeFacts (bActual row)) || (hEpoch head <? roFirstEpoch seen))
    (ErrNew "V5 observation reference dictionary/profile mismatch") ≫= fun _ =>
  if same (qState r) exposureSettled then
    fail_if (negb (same (qObservation r) observation) || negb (bool_decide (qActual r = bActual row)))
      (ErrNew "query already settled with different V5 replay evidence") ≫= fun _ =>
    charge ← getV5ExposureCharge (ordinal s) queryID;
    Ok (s, charge)
  else
    fail_if (negb (same (qState r) exposureReserved)) (ErrNew "V5 exposure reservation is %s") ≫= fun _ =>
    o ← insert_query_observation V5 (ordinal s) queryID (MkQueryObservation (qRoot r) observation (hEpoch head) zero_limits 0 0);
    o ← settle_row V5 o queryID (bActual row) zero_limits observation (bPredicates row) 0 (hEpoch head) now (ErrNew "V5 replay reservation changed concurrently");
    s ← audited (with_ordinal s o) (qTask r) queryID "QUERY_V5_SEMANTIC_REPLAY" now;
    Ok (s, reference_charge queryID (qRoot r) ProfileV5 row observation zero_limits (hEpoch head)).

(** ** Releasing *)
Definition release_reservation (v : ordinal_version) s (now : Z) (queryID : string) : result (Store OrdinalTables) :=
  let l := ledger v (ordinal s) in
  r ← select (rows l !! queryID);
  if same (qState r) exposureReleased then Ok s
  else
    fail_if (negb (same (qState r) exposureReserved)) (ErrNew "cannot release %s exposure reservation") ≫= fun _ =>
    let released := MkReservationRow (qTask r) (qRoot r) (qProfile r) exposureReleased (qEstimated r) (qActual r) (qCharged r) (qObservation r) (qEpoch r)
                      (qPredicates r) (qChargedAtoms r) (Some now) in
    audited (with_ordinal s (with_ledger v (ordinal s) (with_rows l (<[queryID := released]> (rows l))))) (qTask r) queryID
      (match v with V4 => "QUERY_ORDINAL_EXPOSURE_RELEASED" | V5 => "QUERY_V5_EXPOSURE_RELEASED" end) now.

(** ** Reading *)

(** [getOrdinalExposureLedger], [GetOrdinalRootHead] and [getV5ExposureLedger]. *)
Definition get_head (v : ordinal_version) s (taskID : string) : result OrdinalRootHead :=
  task ← select (tasks s !! taskID); select (heads (ledger v (ordinal s)) !! tRootTaskID task).

(** ** The V4 and V5 operations of the dispatching ledger *)
Definition some_charge {A C} (r : result (A * C)) : result (A * option C) := '(a, c) ← r; Ok (a, Some c).

#[export] Instance ordinal_ledgers : ExposureLedger.OrdinalExposure OrdinalTables (OrdinalExposureObservation B) OrdinalObservationReference := {|
  ExposureLedger.ord_ensure v s taskID grant now :=
    match v with V4 => ensureOrdinalExposureHeadTx s taskID grant now | V5 => ensureV5ExposureHeadTx s taskID grant now end;
  ExposureLedger.ord_reserve v s queryID taskID estimated profile _ :=
    match v with V4 => reserveOrdinalExposureTx s queryID taskID estimated profile | V5 => reserveV5ExposureTx s queryID taskID estimated profile end;
  ExposureLedger.ord_has v o queryID := bool_decide (is_Some (rows (ledger v o) !! queryID));
  ExposureLedger.ord_status v o queryID := qState <$> rows (ledger v o) !! queryID;
  ExposureLedger.ord_settle v s now queryID evidence :=
    some_charge (match v, evidence with
     | V4, inl observation => settleOrdinalExposureMeasuredTx (v4 (ordinal s)) (v4 (ordinal s)) s now queryID observation
     | V4, inr reference => settleOrdinalObservationRefMeasuredTx s now queryID reference
     | V5, inl observation => settleV5ExposureMeasuredTx (v5 (ordinal s)) s now queryID observation
     | V5, inr reference => settleV5ObservationRefMeasuredTx s now queryID reference
     end);
  ExposureLedger.ord_release v s now queryID := release_reservation v s now queryID |}.
End ledger.
End OrdinalLedger.
