(* ===== verification/OrdinalFrame.v ===== *)
(** * The ordinal ledgers keep to their tables

    Every V4 and V5 operation changes nothing but the ordinal tables and the
    audit log, which grows; it moves the status of one reservation, and an open one
    can be released.  This is what the budget ledger's theorems ask of the two profiles. *)

From S2P Require Import Prelude GoBytes FactId OutcomeSet LedgerStore ExposureLedger OutcomeRadix Roaring Bitmap HybridSet HybridStore V5Facts OrdinalTables OrdinalLedger.
Import FactId(same, SQLLiterals).
Import Store.
Import HybridSet HybridStore V5Facts OrdinalTables OrdinalLedger.
Import ExposureLedger(ordinal_version, V4, V5, OrdinalExposure, OrdinalLaws).

Module OrdinalFrame.

Section frame.
Context `{SQLLiterals} {B : Type} `{!Roaring B}.
Implicit Types (s : Store OrdinalTables) (o : OrdinalTables).

(** The reservations. *)
Definition same_rows o o' : Prop := forall v, rows (ledger v o') = rows (ledger v o).

#[export] Instance same_rows_preorder : PreOrder same_rows.
Proof. split; [by intros o v|]. intros o1 o2 o3 H1 H2 v. by rewrite (H2 v), (H1 v). Qed.

(** The status of one reservation changes. *)
Definition moved v q status o o' : Prop := forall v' q',
  qState <$> rows (ledger v' o') !! q' = if decide (v' = v /\ q' = q) then Some status else qState <$> rows (ledger v' o) !! q'.

Lemma moved_rows v q status o o1 o2 o' : same_rows o o1 -> moved v q status o1 o2 -> same_rows o2 o' -> moved v q status o o'.
Proof. intros H1 H2 H3 v' q'. rewrite (H3 v'), (H2 v' q'). by destruct (decide _); [|rewrite (H1 v')]. Qed.

Lemma moved_update v q r status o l : rows l = <[q := r]> (rows (ledger v o)) -> qState r = status -> moved v q status o (with_ledger v o l).
Proof.
  intros Hl Hs v' q'. destruct (decide _) as [[-> ->]|Hne].
  - destruct v; cbn [ledger with_ledger v4 v5]; by rewrite Hl, lookup_insert_eq; cbn; rewrite Hs.
  - destruct v, v'; cbn [ledger with_ledger v4 v5]; try done; rewrite Hl, lookup_insert_ne; try done; intros ->; by destruct Hne.
Qed.

Lemma moved_already v q r status o o' : rows (ledger v o) !! q = Some r -> same (qState r) status = true -> same_rows o o' ->
  moved v q status o o'.
Proof. intros Hr Hs%FactId.same_true H1 v' q'. rewrite (H1 v'). destruct (decide _) as [[-> ->]|]; [by rewrite Hr; cbn; rewrite Hs|done]. Qed.

(** What an operation may do to the store. *)
Record ordinal_step s s' : Prop := {
  os_ledger : ledger_frame s s';
  os_resource : resource_frame s s';
}.

#[export] Instance ordinal_step_preorder : PreOrder ordinal_step.
Proof. split; [by intros s; split|]. intros s1 s2 s3 [A1 A2] [B1 B2]. split; by etrans. Qed.

Lemma step_ordinal s o : ordinal_step s (with_ordinal s o).
Proof. split; [done|]. by do 10 (split; [done|]). Qed.

Lemma step_audited s task query kind now s' : audited s task query kind now = Ok s' -> ordinal_step s s' /\ ordinal s' = ordinal s.
Proof. unfold audited. intros E. split; [split|]; [by apply appendAudit_frame in E as [? _]|by apply appendAudit_resource in E|by apply appendAudit_frame in E as (_ & _ & ?)]. Qed.

(** The other tables of a ledger. *)
Lemma same_rows_update v o l : rows l = rows (ledger v o) -> same_rows o (with_ledger v o l).
Proof. intros Hl v'. by destruct v, v'. Qed.

Lemma cas_head_rows v o root epoch dict c a1 a2 a3 now o' : cas_head v o root epoch dict c a1 a2 a3 now = Ok o' -> same_rows o o'.
Proof.
  unfold cas_head. intros (h & _ & E)%bind_ok. apply fail_if_bind_ok in E as [_ E]. apply fail_if_bind_ok in E as [_ E].
  apply fail_if_bind_ok in E as [_ [= <-]]. by apply same_rows_update.
Qed.

Lemma insert_root_observation_rows v o root obs q epoch : same_rows o (insert_root_observation v o root obs q epoch).1.
Proof. unfold insert_root_observation. destruct (_ !! _); [done|]. by apply same_rows_update. Qed.

Lemma insert_query_observation_rows v o q row o' : insert_query_observation v o q row = Ok o' -> same_rows o o'.
Proof.
  unfold insert_query_observation. intros [_ E]%fail_if_bind_ok. apply fail_if_bind_ok in E as [_ E]. apply fail_if_bind_ok in E as [_ [= <-]].
  by apply same_rows_update.
Qed.

Lemma settle_row_rows v o q a c obs p ca epoch now e o' : settle_row v o q a c obs p ca epoch now e = Ok o' -> moved v q exposureSettled o o'.
Proof.
  unfold settle_row. destruct (rows (ledger v o) !! q) as [r|] eqn:Er; [|done]. intros [_ E]%fail_if_bind_ok. apply fail_if_bind_ok in E as [_ [= <-]].
  by eapply moved_update.
Qed.

Lemma insert_observation_rows v o obs row e o' : insert_observation v o obs row e = Ok o' -> same_rows o o'.
Proof.
  unfold insert_observation. intros [_ E]%fail_if_bind_ok. destruct (_ !! _); [by apply fail_if_bind_ok in E as [_ [= <-]]|]. apply Ok_inj in E as <-.
  by apply same_rows_update.
Qed.

Lemma hybrid_rows o t : same_rows o (with_hybrid o t).
Proof. by intros []. Qed.

Lemma outcomes_rows o st : same_rows o (with_outcomes o st).
Proof. by intros []. Qed.

(** ** Heads and reservations *)
Lemma activate_ok s task s' : activateV4CutoverTx s task = Ok s' -> ordinal_step s s' /\ same_rows (ordinal s) (ordinal s').
Proof.
  unfold activateV4CutoverTx. destruct (cutover (ordinal s)); [by intros [= <-]|]. intros [_ E]%fail_if_bind_ok. apply fail_if_bind_ok in E as [_ [= <-]].
  split; [apply step_ordinal|]. by intros [].
Qed.

Lemma insert_head_ok v s head s' : insert_head v s head = Ok s' -> ordinal_step s s' /\ same_rows (ordinal s) (ordinal s').
Proof. unfold insert_head. intros [_ [= <-]]%fail_if_bind_ok. split; [apply step_ordinal|]. by apply same_rows_update. Qed.

Lemma ensure_frame v s task grant now s' : ExposureLedger.ord_ensure v s task grant now = Ok s' -> ordinal_step s s' /\ same_rows (ordinal s) (ordinal s').
Proof.
  assert (forall s1, ordinal_step s s1 /\ same_rows (ordinal s) (ordinal s1) -> ordinal_step s1 s' /\ same_rows (ordinal s1) (ordinal s') ->
    ordinal_step s s' /\ same_rows (ordinal s) (ordinal s')) as Ht by (intros s1 [A1 A2] [B1 B2]; split; by etrans).
  destruct v; cbn [ExposureLedger.ord_ensure ordinal_ledgers]; unfold ensureOrdinalExposureHeadTx, ensureV5ExposureHeadTx; intros [_ E]%fail_if_bind_ok;
    apply bind_ok in E as (s1 & H1%activate_ok & E); apply (Ht s1 H1); clear Ht H1; apply bind_ok in E as (t & _ & E); cbv zeta in E; destruct (heads _ !! _).
  - by apply fail_if_bind_ok in E as [_ [= <-]].
  - apply fail_if_bind_ok in E as [_ E]. by apply insert_head_ok in E.
  - by apply fail_if_bind_ok in E as [_ [= <-]].
  - apply fail_if_bind_ok in E as [_ E]. apply fail_if_bind_ok in E as [_ E]. destruct (Store.ePredicateFootprint grant); [|done].
    apply fail_if_bind_ok in E as [_ E]. by apply insert_head_ok in E.
Qed.

Lemma insert_reservation_ok v s q task root profile e s' : insert_reservation v s q task root profile e = Ok s' ->
  ordinal_step s s' /\ moved v q exposureReserved (ordinal s) (ordinal s').
Proof.
  unfold insert_reservation. intros [_ E]%fail_if_bind_ok. apply fail_if_bind_ok in E as [_ [= <-]]. split; [apply step_ordinal|].
  by eapply moved_update.
Qed.

Lemma reserve_frame v s q task e p now s' : ExposureLedger.ord_reserve v s q task e p now = Ok s' ->
  ordinal_step s s' /\ moved v q exposureReserved (ordinal s) (ordinal s').
Proof.
  destruct v; cbn [ExposureLedger.ord_reserve ordinal_ledgers]; unfold reserveOrdinalExposureTx, reserveV5ExposureTx; intros (t & _ & E)%bind_ok;
    apply bind_ok in E as (h & _ & E); destruct e; try done; apply fail_if_bind_ok in E as [_ E]; by apply insert_reservation_ok in E.
Qed.

Lemma release_frame v s now q s' : release_reservation v s now q = Ok s' -> ordinal_step s s' /\ moved v q exposureReleased (ordinal s) (ordinal s').
Proof.
  unfold release_reservation. intros (r & Hr%Store.select_ok & E)%bind_ok. destruct (same _ exposureReleased) eqn:Es.
  { apply Ok_inj in E as <-. split; [done|]. by eapply moved_already. }
  apply fail_if_bind_ok in E as [_ E]. apply step_audited in E as [E ->]. split; [etrans; [apply step_ordinal|exact E]|].
  by eapply moved_update.
Qed.

Lemma release_open v s now q r : rows (ledger v (ordinal s)) !! q = Some r -> qState r = exposureReserved ->
  exists s', release_reservation v s now q = Ok s'.
Proof.
  intros Hr Hs. unfold release_reservation, audited, appendAuditTx. cbv zeta. rewrite Hr. cbn [Store.select mbind result_bind]. rewrite Hs.
  destruct v; cbn; eauto.
Qed.

(** ** Settlements *)
Lemma persist_v4_rows o (n : normalizedOrdinalObservation B) o' : persistOrdinalObservationTx o n = Ok o' -> same_rows o o'.
Proof. unfold persistOrdinalObservationTx. intros (t & _ & E%insert_observation_rows)%bind_ok. etrans; [apply hybrid_rows|exact E]. Qed.

Lemma persist_v5_rows o known q cat (n : normalizedV5Observation B) o' : persistV5OutcomeTx o known q cat n = Ok o' -> same_rows o o'.
Proof.
  unfold persistV5OutcomeTx. intros [_ E]%fail_if_bind_ok. apply bind_ok in E as (m & _ & E). apply bind_ok in E as (st & _ & E).
  apply bind_ok in E as (t & _ & E%insert_observation_rows). etrans; [|exact E]. by intros [].
Qed.

Lemma charge_v4_rows s o r (n : normalizedOrdinalObservation B) head now o' c e : charge_v4 s o r n head now = Ok (o', c, e) -> same_rows o o'.
Proof.
  unfold charge_v4. intros ([[a1 a2] a3] & _ & E)%bind_ok. ok_inv E. destruct (no_novelty _); [by apply Ok_inj in E as [= <- _ _]|].
  ok_inv E. apply Ok_inj in E as [= <- _ _]. etrans; [apply hybrid_rows|by eapply cas_head_rows].
Qed.

Lemma unseen_v4_rows s o r q (n : normalizedOrdinalObservation B) head now o' c e : unseen_v4 s o r q n head now = Ok (o', c, e) -> same_rows o o'.
Proof.
  unfold unseen_v4. intros ([[o1 c1] e1] & H1%charge_v4_rows & E)%bind_ok. pose proof (insert_root_observation_rows V4 o1 (qRoot r) (oDigest n) q e1) as H2.
  destruct (insert_root_observation _ _ _ _ _ _) as [o2 b]. cbn [fst] in H2.
  assert (o' = o2) as ->; [|by etrans]. destruct b; [by apply Ok_inj in E as [= <- _ _]|]. ok_inv E. by apply Ok_inj in E as [= <- _ _].
Qed.

Lemma charge_v5_rows s o r (n : normalizedV5Observation B) head now o' c k e : charge_v5 s o r n head now = Ok (o', c, k, e) -> same_rows o o'.
Proof.
  unfold charge_v5. intros ([a1 a2] & _ & E)%bind_ok. ok_inv E. destruct a3 as [[a3 a4] a5]. ok_inv E. destruct (no_novelty _).
  - ok_inv E. apply Ok_inj in E as [= <- _ _ _]. etrans; [apply hybrid_rows|apply outcomes_rows].
  - ok_inv E. apply Ok_inj in E as [= <- _ _ _]. etrans; [apply hybrid_rows|]. etrans; [apply outcomes_rows|]. by eapply cas_head_rows.
Qed.


(** The closing statements of a settlement. *)
Lemma settle_tail v s o q row a c obs p ca epoch now e s' task kind : 
  (o ← insert_query_observation v o q row; o ← settle_row v o q a c obs p ca epoch now e; audited (with_ordinal s o) task q kind now) = Ok s' ->
  ordinal_step s s' /\ moved v q exposureSettled o (ordinal s').
Proof.
  intros (o1 & H1%insert_query_observation_rows & E)%bind_ok. apply bind_ok in E as (o2 & H2%settle_row_rows & E). apply step_audited in E as [E ->].
  split; [etrans; [apply step_ordinal|exact E]|]. by eapply moved_rows.
Qed.

(** The tail of a settlement, with its result. *)
Lemma settle_tail_result {C} v s o q row a c obs p ca epoch now e task kind (x : C) y : 
  (o ← insert_query_observation v o q row; o ← settle_row v o q a c obs p ca epoch now e; s ← audited (with_ordinal s o) task q kind now; Ok (s, x)) = Ok y ->
  ordinal_step s y.1 /\ moved v q exposureSettled o (ordinal y.1).
Proof.
  intros (o1 & H1 & E)%bind_ok. apply bind_ok in E as (o2 & H2 & E). apply bind_ok in E as (s1 & H3 & [= <-]).
  eapply settle_tail. rewrite H1. cbn [mbind result_bind]. rewrite H2. exact H3.
Qed.

Lemma settle_v4_frame read seen s now q (x : OrdinalExposureObservation B) y : settleOrdinalExposureMeasuredTx read seen s now q x = Ok y ->
  ordinal_step s y.1 /\ moved V4 q exposureSettled (ordinal s) (ordinal y.1).
Proof.
  unfold settleOrdinalExposureMeasuredTx. intros (r & Hrow & E)%bind_ok.
  assert (Hr : rows (v4 (ordinal s)) !! q = Some r) by (destruct (rows _ !! q); [by apply Ok_inj in Hrow as ->|done]). clear Hrow. apply bind_ok in E as ([t n] & _ & E). cbv zeta in E.
  destruct (same (qState r) exposureSettled) eqn:Est.
  { apply fail_if_bind_ok in E as [_ [= <-]]. split; [apply step_ordinal|]. by eapply moved_already; [..|apply hybrid_rows]. }
  apply fail_if_bind_ok in E as [_ E]. apply bind_ok in E as (o1 & H1%persist_v4_rows & E). apply bind_ok in E as (head & _ & E). apply seq_ok in E as [_ E].
  apply bind_ok in E as ([[o2 c] ep] & H2 & E). apply settle_tail_result in E as [Hs Hm]. split; [done|].
  eapply moved_rows; [|exact Hm|reflexivity]. etrans; [apply hybrid_rows|]. etrans; [exact H1|]. case_bool_decide; [|by apply unseen_v4_rows in H2].
  apply bind_ok in H2 as (? & _ & [= <- _ _]). done.
Qed.

Lemma settle_v5_frame read s now q (x : OrdinalExposureObservation B) y : settleV5ExposureMeasuredTx read s now q x = Ok y ->
  ordinal_step s y.1 /\ moved V5 q exposureSettled (ordinal s) (ordinal y.1).
Proof.
  unfold settleV5ExposureMeasuredTx. intros (r & Hr%Store.select_ok & E)%bind_ok. apply bind_ok in E as ([t n] & _ & E). cbv zeta in E. apply fail_if_bind_ok in E as [_ E].
  destruct (same (qState r) exposureSettled) eqn:Est.
  { apply fail_if_bind_ok in E as [_ E]. apply bind_ok in E as (? & _ & [= <-]). split; [apply step_ordinal|]. by eapply moved_already; [..|apply hybrid_rows]. }
  apply fail_if_bind_ok in E as [_ E]. apply bind_ok in E as (query & _ & E). apply bind_ok in E as (o1 & H1%persist_v5_rows & E).
  apply bind_ok in E as (head & _ & E). apply seq_ok in E as [_ E]. apply bind_ok in E as ([[[o2 c] k] ep] & H2%charge_v5_rows & E).
  pose proof (insert_root_observation_rows V5 o2 (qRoot r) (vDigest n) q ep) as H3. destruct (insert_root_observation _ _ _ _ _ _) as [o3 b]. cbn [fst] in H3.
  apply settle_tail_result in E as [Hs Hm]. split; [done|].
  eapply moved_rows; [|exact Hm|reflexivity]. etrans; [apply hybrid_rows|]. etrans; [exact H1|]. etrans; [exact H2|exact H3].
Qed.

Lemma reference_v4_ok s now q x y : settleOrdinalObservationRefMeasuredTx s now q x = Ok y -> ordinal_step s y.1 /\ moved V4 q exposureSettled (ordinal s) (ordinal y.1).
Proof.
  unfold settleOrdinalObservationRefMeasuredTx. intros [_ E]%fail_if_bind_ok. apply bind_ok in E as (r & Hr%Store.select_ok & E).
  destruct (referenced _ _ _ _ _) as [[[[[row seen] head] a] b]|]; [|done]. apply fail_if_bind_ok in E as [_ E]. destruct (same (qState r) exposureSettled) eqn:Est.
  { apply fail_if_bind_ok in E as [_ [= <-]]. split; [done|]. by eapply moved_already. }
  apply fail_if_bind_ok in E as [_ E]. by apply settle_tail_result in E.
Qed.

Lemma reference_v5_ok s now q x y : settleV5ObservationRefMeasuredTx s now q x = Ok y -> ordinal_step s y.1 /\ moved V5 q exposureSettled (ordinal s) (ordinal y.1).
Proof.
  unfold settleV5ObservationRefMeasuredTx. intros [_ E]%fail_if_bind_ok. apply bind_ok in E as (r & Hr%Store.select_ok & E).
  apply bind_ok in E as ([[[[row seen] head] a] b] & _ & E). apply fail_if_bind_ok in E as [_ E]. destruct (same (qState r) exposureSettled) eqn:Est.
  { apply fail_if_bind_ok in E as [_ E]. apply bind_ok in E as (? & _ & [= <-]). split; [done|]. by eapply moved_already. }
  apply fail_if_bind_ok in E as [_ E]. by apply settle_tail_result in E.
Qed.

Lemma settle_ok v s now q x s' c : ExposureLedger.ord_settle v s now q x = Ok (s', c) -> ordinal_step s s' /\ moved v q exposureSettled (ordinal s) (ordinal s').
Proof.
  cbn [ExposureLedger.ord_settle ordinal_ledgers]. unfold some_charge. intros ([s1 c1] & E & [= <- _])%bind_ok.
  destruct v, x; [by apply settle_v4_frame in E|by apply reference_v4_ok in E|by apply settle_v5_frame in E|by apply reference_v5_ok in E].
Qed.

#[export] Instance ordinal_ledgers_laws : OrdinalLaws OrdinalTables (OrdinalExposureObservation B) OrdinalObservationReference.
Proof.
  split.
  - intros v s t g now s' [[? ?] _]%ensure_frame. done.
  - intros v s q t e p now s' [[? ?] _]%reserve_frame. done.
  - intros v s now q e s' c [[? ?] _]%settle_ok. done.
  - intros v s now q s' [[? ?] _]%release_frame. done.
  - intros v o q. cbn [ExposureLedger.ord_has ExposureLedger.ord_status ordinal_ledgers]. apply bool_decide_ext. by rewrite fmap_is_Some.
  - intros v s t g now s' v' q' [_ Hr]%ensure_frame. cbn [ExposureLedger.ord_status ordinal_ledgers]. by rewrite (Hr v').
  - intros v s q t e p now s' v' q' [_ Hr]%reserve_frame. apply Hr.
  - intros v s now q e s' c v' q' [_ Hr]%settle_ok. apply Hr.
  - intros v s now q s' v' q' [_ Hr]%release_frame. apply Hr.
  - intros v s now q (r & Hr & Hs)%fmap_Some. by eapply release_open.
Qed.
End frame.
End OrdinalFrame.
