(* ===== verification/OrdinalTheory.v ===== *)
(** * The ordinal ledgers: what a head stands for

    A head's digests name stored sets; a settlement reads a head, compares its
    observation with the sets it names and moves the head, or learns that the
    head has moved.  The lemmas here follow one settlement whose head query saw
    an earlier head. *)

From S2P Require Import Prelude GoBytes Ordering Sha256 FactId FactSet OutcomeSet LedgerStore ExposureLedger OutcomeLists OutcomeRadix Ordinal Roaring Bitmap Portable HybridSet HybridTheory HybridStore HybridStoreTheory V5Facts OrdinalTables OrdinalLedger.
Import FactId(same, same_true, same_false, SQLLiterals, ProfileV4, ProfileV5).
Import Sha256 Ordinal Bitmap Portable HybridSet HybridTheory HybridStore HybridStoreTheory V5Facts OrdinalTables OrdinalLedger.
Import OutcomeSet(OrdinalDynamicFact, dynSHA256, dynKind, dynPayload, MkCandidate).
Import OutcomeRadix(differenceAndUnionV5Tx).
Import OutcomeLists(elem_unique).
Import Store(Store, ordinal, tasks, grants, queries, with_ordinal, select, select_ok, exposureReserved, exposureSettled, exposureReleased,
  ExposureLimits, MkExposure, ReleaseFacts, InfluenceFacts, OutcomeFacts, gExposureLimits).
Import ExposureLedger(ordinal_version, V4, V5, zero_limits, limit_of, limits_ext).

Import FactSet(part, PRelease, PInfluence, POutcome).

Module OrdinalTheory.

Section theory.
Context `{SQLLiterals} {B : Type} `{!Roaring B, !RoaringLaws B}.
Implicit Types (s : Store OrdinalTables) (o : OrdinalTables) (t : HybridTables) (h : OrdinalRootHead) (r : ReservationRow) (b : ObservationRow)
  (set : normalizedOrdinalSet B) (v : ordinal_version).
Abbreviation content := (Ordinal.FactRef + string)%type (only parsing).

(** ** Observed sets *)
Definition input_ok (x : OrdinalHybridSet B) : Prop := wf (hsStatic x) /\ Z.of_nat (length (Refs (hsStatic x))) <= max_uint64.

Lemma tables_ok_facts t t' : tables_le t t' -> bitmap_sets t' = bitmap_sets t -> set_containers t' = set_containers t ->
  set_dynamic_facts t' = set_dynamic_facts t -> tables_ok (B := B) t -> tables_ok (B := B) t'.
Proof.
  intros L E1 E2 E3 [K1 K2 K3]. split; rewrite ?E1, ?E2, ?E3; [|done|done]. intros d row (h & Hn & Hd & S)%K1. exists h. split; [done|]. split; [done|]. by eapply stored_le.
Qed.

(** A set ready to be stored. *)
Definition ready t (dict : string) set : Prop := normalized dict set /\ Forall (fact_stored t) (dynamic set).

Lemma ready_le t t' dict set : tables_le t t' -> ready t dict set -> ready t' dict set.
Proof. intros L [Hn Hf]. split; [done|]. eapply Forall_impl; [exact Hf|]. intros f. by apply fact_stored_le. Qed.

Lemma normalize_set_ok t known q dict x kind kinds t' set : input_ok x -> normalizeOrdinalSetTx t known q dict x kind kinds = Ok (t', set) ->
  tables_le t t' /\ (tables_ok (B := B) t -> tables_ok (B := B) t') /\ ready t' dict set /\ static set = hsStatic x /\ facts_ok kind (hsDynamicFacts x) (dynamic set) /\
  dictionary_sets t' = dictionary_sets t.
Proof.
  intros [Hwf Hsz]. unfold normalizeOrdinalSetTx. intros [_ E]%fail_if_bind_ok. apply seq_ok in E as [_ E]. apply bind_ok in E as (fs & Hfs%normalizeDynamicFacts_ok & E).
  apply bind_ok in E as (t1 & Ht & E). apply bind_ok in E as (set1 & Hset & [= <- <-]).
  assert (dictionary_sets t1 = dictionary_sets t) as Ed.
  { eapply (fold_res_inv _ (fun t1 => dictionary_sets t1 = dictionary_sets t)); [|done|exact Ht]. intros t2 f t3 _ <- Hi. unfold insert_dynamic_fact in Hi.
    apply fail_if_bind_ok in Hi as [_ Hi]. destruct (_ !! _); [by apply fail_if_bind_ok in Hi as [_ [= <-]]|]. by apply fail_if_bind_ok in Hi as [_ [= <-]]. }
  apply persistDynamicFactsTx_ok in Ht as (L & F & A1 & A2 & A3 & _).
  apply normalized_of_ok in Hset as (Hn & Hs & Hd); [|done|apply Hfs|apply Hfs|done]. split; [done|]. split; [by apply tables_ok_facts|].
  rewrite <- Hd in F, Hfs. done.
Qed.

Lemma persist_sets_ok dict sets : forall t t', tables_ok (B := B) t -> Forall (ready t dict) sets -> persist_sets t dict sets = Ok t' ->
  tables_ok (B := B) t' /\ tables_le t t' /\ Forall (stored t' dict) sets.
Proof.
  unfold persist_sets. induction sets as [|set sets IH]; intros t t' Hok Hr; cbn [fold_res]; [intros [= <-]; done|].
  apply Forall_cons in Hr as [[Hn Hf] Hr]. intros (t1 & H1 & H2)%bind_ok. apply hybrid_persist_ok in H1 as (O1 & S1 & L1); [|done..].
  apply IH in H2 as (O2 & L2 & S2); [|done|eapply Forall_impl; [exact Hr|]; intros x; by apply ready_le]. split; [done|]. split; [by etrans|].
  constructor; [by eapply stored_le|done].
Qed.

(** ** Named sets *)

(** The digest names a stored set with these contents. *)
Definition set_of t (dict d : string) (X : list content) : Prop :=
  exists set, normalized dict set /\ stored t dict set /\ digest set = d /\ contents (static set) (dynamic set) = X.

Lemma set_of_stored t dict set : normalized dict set -> stored t dict set -> set_of t dict (digest set) (contents (static set) (dynamic set)).
Proof. intros Hn S. by exists set. Qed.

Lemma set_of_le t t' dict d X : tables_le t t' -> set_of t dict d X -> set_of t' dict d X.
Proof. intros L (set & Hn & S & Hd & HX). exists set. split; [done|]. split; [by eapply stored_le|done]. Qed.

Lemma same_contents set set' : wf (static set) -> wf (static set') -> same_set set set' -> contents (static set) (dynamic set) = contents (static set') (dynamic set').
Proof.
  intros Hw Hw' [Hs Hd _]. unfold contents. rewrite Hd. f_equal. f_equal. apply Refs_ext; [done..|]. exact Hs.
Qed.

Lemma set_of_load t dict d X : set_of t dict d X ->
  exists set, loadOrdinalSetTx t d = Ok (set, dict) /\ normalized dict set /\ contents (static set) (dynamic set) = X /\ Forall (fact_stored t) (dynamic set) /\ digest set = d.
Proof.
  intros (set & Hn & S & <- & <-). destruct (load_stored t dict set Hn S) as (set' & Hl & Hsame & Hn'). exists set'. split; [done|]. split; [done|].
  split; [|split; [|by rewrite (sa_digest _ _ Hsame)]].
  - symmetry. apply same_contents; [apply Hn|apply Hn'|done].
  - rewrite <- (sa_dynamic _ _ Hsame). apply S.
Qed.

Lemma set_of_unique t dict dict' d X Y : set_of t dict d X -> set_of t dict' d Y -> dict = dict' /\ X = Y.
Proof. intros (x & Hx & _ & HX & _)%set_of_load (y & Hy & _ & HY & _)%set_of_load. rewrite Hx in Hy. injection Hy as -> ->. by subst. Qed.

Lemma set_of_digest t dict d X : set_of t dict d X -> d <> "".
Proof.
  intros (set & [_ _ _ Hd] & _ & <- & _). unfold ordinalHybridSetDigest in Hd. apply bind_ok in Hd as (sd & _ & [= E]). intros E'. rewrite E' in E.
  pose proof (hex_sum_valid (hybrid_material dict sd (map dynSHA256 (dynamic set)))) as Hv. rewrite E in Hv. done.
Qed.

Lemma set_of_nodup t dict d X : set_of t dict d X -> NoDup X /\ Z.of_nat (length X) <= max_int64.
Proof. intros (set & [[Hw Hs _ Hz] _ _ _] & _ & _ & <-). split; [by apply contents_nodup|done]. Qed.

(** ** Heads *)

(** The sets a profile keeps as hybrid sets: V5 keeps outcomes as hash sets. *)
Definition hybrid_part v (p : part) : Prop := v = V4 \/ p <> POutcome.
Definition head_set (p : part) h : string := match p with PRelease => hReleaseSet h | PInfluence => hInfluenceSet h | POutcome => hOutcomeSet h end.
Definition observed_set (p : part) b : string := match p with PRelease => bRelease b | PInfluence => bInfluence b | POutcome => bOutcome b end.

(** A head that no settlement has moved yet stands for empty sets. *)
Definition fresh h : Prop :=
  hDictionarySetDigest h = "" /\ hReleaseSet h = "" /\ hInfluenceSet h = "" /\ hOutcomeSet h = "" /\ hUsed h = zero_limits.
#[export] Instance fresh_dec h : Decision (fresh h).
Proof. unfold fresh. apply _. Defined.

Definition head_contents t h (p : part) (X : list content) : Prop := fresh h /\ X = [] \/ set_of t (hDictionarySetDigest h) (head_set p h) X.

Lemma head_contents_le t t' h p X : tables_le t t' -> head_contents t h p X -> head_contents t' h p X.
Proof. intros L [?|S]; [by left|right]. by eapply set_of_le. Qed.

Lemma fresh_no_set t h p X : fresh h -> ~ set_of t (hDictionarySetDigest h) (head_set p h) X.
Proof. intros (_ & E1 & E2 & E3 & _) S. apply set_of_digest in S. destruct p; done. Qed.

Lemma head_contents_unique t h p X Y : head_contents t h p X -> head_contents t h p Y -> X = Y.
Proof. intros [[F ->]|S] [[F' ->]|S']; [done|by apply fresh_no_set in S'|by apply fresh_no_set in S|by eapply set_of_unique]. Qed.

Record head_ok v t h : Prop := {
  ho_epoch : 0 <= hEpoch h;
  ho_used p : 0 <= limit_of p (hUsed h) <= limit_of p (hLimits h);
  ho_contents p : hybrid_part v p -> exists X, head_contents t h p X /\ limit_of p (hUsed h) = Z.of_nat (length X);
}.

Lemma head_ok_le v t t' h : tables_le t t' -> head_ok v t h -> head_ok v t' h.
Proof. intros L [K1 K2 K3]. split; [done|done|]. intros p Hp. destruct (K3 p Hp) as (X & HX & Hl). exists X. split; [by eapply head_contents_le|done]. Qed.

(** A head and one it may have become: it moved, or it is the same. *)
Record grows v t h h' : Prop := {
  gr_same : h' = h \/ hEpoch h < hEpoch h';
  gr_limits : hLimits h' = hLimits h;
  gr_profile : hProfileVersion h' = hProfileVersion h;
  gr_dictionary : fresh h \/ ~ fresh h' /\ hDictionarySetDigest h' = hDictionarySetDigest h;
  gr_contents p : hybrid_part v p -> exists X Y, head_contents t h p X /\ head_contents t h' p Y /\ X ⊆ Y;
}.

Lemma grows_refl v t h : head_ok v t h -> grows v t h h.
Proof. intros K. split; [by left|done|done|destruct (decide (fresh h)); [by left|by right]|]. intros p Hp. destruct (ho_contents _ _ _ K p Hp) as (X & HX & _). by exists X, X. Qed.

Lemma grows_le v t t' h h' : tables_le t t' -> grows v t h h' -> grows v t' h h'.
Proof.
  intros L [G1 G2 G3 G4 G5]. split; [done..|]. intros p Hp. destruct (G5 p Hp) as (X & Y & HX & HY & Hsub). exists X, Y.
  split; [by eapply head_contents_le|]. split; [by eapply head_contents_le|done].
Qed.

Lemma head_grows_trans v t h1 h2 h3 : grows v t h1 h2 -> grows v t h2 h3 -> grows v t h1 h3.
Proof.
  intros [A1 A2 A3 A4 A5] [B1 B2 B3 B4 B5]. split; [|congruence|congruence| |].
  - destruct A1 as [->|A1], B1 as [->|B1]; [by left|by right|by right|right; lia].
  - destruct A4 as [?|[F A4]]; [by left|]. destruct B4 as [?|[F' B4]]; [done|]. right. split; [done|congruence].
  - intros p Hp. destruct (A5 p Hp) as (X & Y & HX & HY & Hsub). destruct (B5 p Hp) as (Y' & Z & HY' & HZ & Hsub'). rewrite <- (head_contents_unique _ _ _ _ _ HY HY') in Hsub'.
    exists X, Z. split; [done|]. split; [done|]. by etrans.
Qed.

(** ** Reading the sets a head names *)

(** A set as a settlement uses it: well formed, with its facts in the tables. *)
Definition usable t set : Prop := parts_ok (static set) (dynamic set) /\ Forall (fact_stored t) (dynamic set).
Definition set_contents set : list content := contents (static set) (dynamic set).

Lemma ready_usable t dict set : ready t dict set -> usable t set.
Proof. intros [[Hp _ _ _] Hf]. done. Qed.

Lemma empty_usable t : usable t (empty_set (B := B)) /\ set_contents (empty_set (B := B)) = [].
Proof.
  assert (set_contents (empty_set (B := B)) = []) as E.
  { unfold set_contents, contents, empty_set, Refs, sortedSegmentRefs. cbn. by rewrite map_to_list_empty. }
  split; [|done]. split; [|constructor]. split; cbn; [apply map_Forall_empty|constructor|constructor|]. unfold set_contents, empty_set in E. cbn in E. rewrite E. done.
Qed.

Lemma load_root_ok v t h p dict root e : head_ok v t h -> hybrid_part v p -> hReleaseSet h <> "" -> load_root_set t dict (head_set p h) e = Ok root ->
  usable t root /\ head_contents t h p (set_contents root) /\ hDictionarySetDigest h = dict.
Proof.
  intros Hh Hp Hne. unfold load_root_set. intros ([set d] & Hl & E)%bind_ok. apply fail_if_bind_ok in E as [Hd%negb_false_iff%same_true [= ->]]. subst d.
  destruct (ho_contents _ _ _ Hh p Hp) as (X & [[(_ & ? & _) _]|HX] & _); [done|]. pose proof HX as (set' & Hl' & Hn & HX' & Hf & _)%set_of_load.
  rewrite Hl in Hl'. injection Hl' as <- Hd. split; [split; [apply Hn|done]|]. split; [|done]. right. unfold set_contents. by rewrite HX'.
Qed.

Lemma unnamed_fresh v t h : head_ok v t h -> hReleaseSet h = "" -> fresh h.
Proof. intros Hh E. destruct (ho_contents _ _ _ Hh PRelease) as (X & [[? _]|HX] & _); [by right|done|]. by apply set_of_digest in HX. Qed.

Lemma fresh_contents t h p : fresh h -> head_contents t h p [].
Proof. by left. Qed.

Definition root_part (roots : normalizedOrdinalSet B * normalizedOrdinalSet B * normalizedOrdinalSet B) (p : part) : normalizedOrdinalSet B :=
  match p with PRelease => roots.1.1 | PInfluence => roots.1.2 | POutcome => roots.2 end.

Lemma root_sets_ok t h dict roots : head_ok V4 t h -> root_sets t dict h = Ok roots ->
  (forall p, usable t (root_part roots p) /\ head_contents t h p (set_contents (root_part roots p))) /\ (fresh h \/ hDictionarySetDigest h = dict).
Proof.
  intros Hh. unfold root_sets. destruct (same (hReleaseSet h) "") eqn:E.
  - intros [= <-]. apply same_true, (unnamed_fresh _ _ _ Hh) in E. split; [|by left]. destruct (empty_usable t) as [Hu He].
    intros p. assert (root_part (empty_set, empty_set, empty_set) p = empty_set (B := B)) as -> by (by destruct p). rewrite He. split; [done|by apply fresh_contents].
  - apply same_false in E. intros (a & Ha & R)%bind_ok. apply bind_ok in R as (b & Hb & R). apply bind_ok in R as (c & Hc & [= <-]).
    apply (load_root_ok V4 _ _ PRelease) in Ha as (U1 & C1 & D1); [|done|by left|done]. apply (load_root_ok V4 _ _ PInfluence) in Hb as (U2 & C2 & D2); [|done|by left|done].
    apply (load_root_ok V4 _ _ POutcome) in Hc as (U3 & C3 & D3); [|done|by left|done]. split; [|by right]. by intros [].
Qed.

(** ** The charge of a V4 settlement *)
Definition observed (n : normalizedOrdinalObservation B) (p : part) : normalizedOrdinalSet B :=
  match p with PRelease => oRelease n | PInfluence => oInfluence n | POutcome => oOutcome n end.

Lemma novelty_nil (X obs : list content) : novelty X obs = [] <-> obs ⊆ X.
Proof.
  unfold novelty. split.
  - intros E x Hx. destruct (decide (x ∈ X)) as [|Hn]; [done|]. assert (x ∈ filter (fun y => y ∉ X) obs) as Hin by (by apply list_elem_of_filter). rewrite E in Hin. by apply elem_of_nil in Hin.
  - intros Hsub. destruct (filter _ obs) as [|x l] eqn:E; [done|]. assert (x ∈ filter (fun y => y ∉ X) obs) as [Hn Hx]%list_elem_of_filter by (rewrite E; by left). by apply Hsub in Hx.
Qed.

Lemma difference_usable t dict set root d : usable t set -> usable t root -> differenceOrdinalSet dict set root = Ok d ->
  cardinality d = Z.of_nat (length (novelty (set_contents root) (set_contents set))).
Proof. intros [Hs _] [[Hw _ _ _] _] Hd. destruct (difference_exact dict set root Hs Hw) as (d' & Hd' & E). rewrite Hd in Hd'. by injection Hd' as <-. Qed.

Lemma union_usable t dict set root u : usable t root -> usable t set -> unionOrdinalSet dict root set = Ok u ->
  ready t dict u /\ set_contents u ≡ₚ set_contents root ++ novelty (set_contents root) (set_contents set).
Proof.
  intros [Hr Hfr] [Hs Hfs] Hu. destruct (union_exact dict root set u Hr Hs Hu) as (Hn & Hf & Hp). split; [|done]. split; [done|].
  rewrite Forall_forall in Hfr, Hfs |- *. intros f [?|?]%Hf; auto.
Qed.

Lemma limit_add p a c : limit_of p (add_limits a c) = limit_of p a + limit_of p c.
Proof. by destruct p. Qed.
Lemma within_spec a c : within a c = true <-> forall p, limit_of p a <= limit_of p c.
Proof.
  unfold within. rewrite !andb_true_iff, !Z.leb_le. split; [intros [[? ?] ?] []; done|].
  intros Hp. pose proof (Hp PRelease). pose proof (Hp PInfluence). pose proof (Hp POutcome). done.
Qed.
Lemma no_novelty_spec a : no_novelty a = true <-> a = zero_limits.
Proof.
  unfold no_novelty. rewrite !andb_true_iff, !Z.eqb_eq. destruct a; cbn. unfold zero_limits. split; [by intros [[-> ->] ->]|by intros [= -> -> ->]].
Qed.
Lemma limit_zero p : limit_of p zero_limits = 0.
Proof. by destruct p. Qed.

(** How a settlement leaves the head. *)
Record charged_head v t (h : OrdinalRootHead) (dict : string) (obs : part -> list content) (c : ExposureLimits) t' (h' : OrdinalRootHead) : Prop := {
  ch_tables : tables_ok (B := B) t';
  ch_le : tables_le t t';
  ch_head : head_ok v t' h';
  ch_grows : grows v t' h h';
  ch_used : hUsed h' = add_limits (hUsed h) c;
  ch_dictionary : hDictionarySetDigest h' = dict;
  ch_parts p : hybrid_part v p -> exists X Y, head_contents t' h p X /\ head_contents t' h' p Y /\
    Y ≡ₚ X ++ novelty X (obs p) /\ limit_of p c = Z.of_nat (length (novelty X (obs p)));
  ch_moved : c = zero_limits /\ h' = h \/ hEpoch h' = hEpoch h + 1;
}.

Lemma cas_head_ok v o root epoch dict c a1 a2 a3 now o' h : cas_head v o root epoch dict c a1 a2 a3 now = Ok o' -> heads (ledger v o) !! root = Some h ->
  hEpoch h = epoch /\ within (add_limits (hUsed h) c) (hLimits h) = true /\ nonnegative (add_limits (hUsed h) c) = true /\
  o' = with_ledger v o (with_heads (ledger v o) (<[root := MkHead (hRootTaskID h) (hProfileVersion h) dict (hEpoch h + 1) (hLimits h) (add_limits (hUsed h) c)
                                                        a1 a2 a3 (hPredicate h) now]> (heads (ledger v o)))).
Proof.
  unfold cas_head. intros (x & Hx & E)%bind_ok Hh. rewrite Hh in Hx. apply Ok_inj in Hx as <-. apply fail_if_bind_ok in E as [G1 E].
  rewrite orb_false_iff, !negb_false_iff, Z.eqb_eq in G1. destruct G1 as [G1 G2]. apply fail_if_bind_ok in E as [_ E]. apply fail_if_bind_ok in E as [G3%negb_false_iff [= <-]]. done.
Qed.

Lemma grows_same v t h0 h : grows v t h0 h -> hEpoch h = hEpoch h0 -> h = h0.
Proof. intros [[->|Hlt] _ _ _ _] E; [done|lia]. Qed.

Lemma heads_id v o root h : heads (ledger v o) !! root = Some h ->
  with_ledger v (with_hybrid o (hybrid o)) (with_heads (ledger v o) (<[root := h]> (heads (ledger v o)))) = o.
Proof. intros Hh. rewrite insert_id by done. destruct o as [? ? ? ? [] []], v; done. Qed.

(** Nothing new to a head that is no longer current is nothing new to the current one. *)
Lemma stale_nothing v t dict h0 h (obs : part -> list content) : tables_ok (B := B) t -> head_ok v t h -> grows v t h0 h -> hDictionarySetDigest h = dict ->
  (forall p, hybrid_part v p -> exists X, head_contents t h0 p X /\ novelty X (obs p) = []) -> charged_head v t h dict obs zero_limits t h.
Proof.
  intros Hok Hh Hg Hd Hall. split; [done|done|done|by apply grows_refl| |done| |by left].
  - apply limits_ext. intros p. rewrite limit_add, limit_zero. lia.
  - intros p Hp. destruct (Hall p Hp) as (X & HX & Hno). destruct (gr_contents _ _ _ _ Hg p Hp) as (X' & Y & HX' & HY & Hsub).
    rewrite (head_contents_unique _ _ _ _ _ HX' HX) in Hsub. apply novelty_nil in Hno. assert (novelty Y (obs p) = []) as E by (apply novelty_nil; by etrans).
    exists Y, Y. split; [done|]. split; [done|]. rewrite E, app_nil_r, limit_zero. done.
Qed.

(** The head moved by its compare-and-set. *)
Lemma moved_head v t t' h dict (obs : part -> list content) c a1 a2 a3 pr now : tables_ok (B := B) t' -> tables_le t t' -> head_ok v t h ->
  (fresh h \/ hDictionarySetDigest h = dict) -> dict <> "" -> within (add_limits (hUsed h) c) (hLimits h) = true -> nonnegative (add_limits (hUsed h) c) = true ->
  let h' := MkHead (hRootTaskID h) (hProfileVersion h) dict (hEpoch h + 1) (hLimits h) (add_limits (hUsed h) c) a1 a2 a3 pr now in
  (forall p, hybrid_part v p -> exists X Y, head_contents t h p X /\ set_of t' dict (head_set p h') Y /\ Y ≡ₚ X ++ novelty X (obs p) /\
    limit_of p c = Z.of_nat (length (novelty X (obs p)))) ->
  charged_head v t h dict obs c t' h'.
Proof.
  intros Hok L Hh Hd Hne Hw Hnn h' Hp. assert (~ fresh h') as Hnf by (intros (? & _); done).
  assert (forall p, 0 <= limit_of p (add_limits (hUsed h) c)) as Hpos.
  { unfold nonnegative in Hnn. rewrite !andb_true_iff, !Z.leb_le in Hnn. destruct Hnn as [[? ?] ?]. by intros []. }
  split; [done|done| | |done|done| |by right].
  - split; cbn; [pose proof (ho_epoch _ _ _ Hh); lia|intros p; split; [apply Hpos|by apply within_spec]|]. intros p Hv. destruct (Hp p Hv) as (X & Y & HX & HY & HP & Hc).
    exists Y. split; [by right|]. destruct (ho_contents _ _ _ Hh p Hv) as (X' & HX' & Hu). rewrite (head_contents_unique _ _ _ _ _ HX' HX) in Hu.
    apply Permutation_length in HP. rewrite length_app in HP. rewrite limit_add. lia.
  - split; cbn; [right; lia|done|done|destruct Hd as [?| ->]; [by left|by right]|]. intros p Hv. destruct (Hp p Hv) as (X & Y & HX & HY & HP & _). exists X, Y.
    split; [by eapply head_contents_le|]. split; [by right|]. intros x Hx. rewrite HP. apply elem_of_app. by left.
  - intros p Hv. destruct (Hp p Hv) as (X & Y & HX & HY & HP & Hc). exists X, Y. split; [by eapply head_contents_le|]. split; [by right|done].
Qed.

Lemma check_head_ok v h dict : check_head v h dict = Ok tt -> hDictionarySetDigest h = "" \/ hDictionarySetDigest h = dict.
Proof.
  unfold check_head. rewrite fail_if_ok, orb_false_iff, andb_false_iff, !negb_false_iff, !same_true. tauto.
Qed.

(** A settlement that saw head [h0] while the head is [h]. *)
Lemma charge_v4_ok s o r n h0 h now o' c e : tables_ok (B := B) (hybrid o) -> head_ok V4 (hybrid o) h0 -> heads (v4 o) !! qRoot r = Some h -> head_ok V4 (hybrid o) h ->
  grows V4 (hybrid o) h0 h -> (forall p, usable (hybrid o) (observed n p)) -> set_contents (oOutcome n) <> [] -> oDictionarySet n <> "" ->
  charge_v4 s o r n h0 now = Ok (o', c, e) -> exists t' h',
    o' = with_ledger V4 (with_hybrid o t') (with_heads (v4 o) (<[qRoot r := h']> (heads (v4 o)))) /\
    charged_head V4 (hybrid o) h (oDictionarySet n) (fun p => set_contents (observed n p)) c t' h' /\ e <= hEpoch h' /\ 0 <= e.
Proof.
  intros Hok Hh0 Hcur Hh Hg Hobs Hout Hdict. unfold charge_v4. cbv zeta. intros (roots & Hroots & E)%bind_ok. destruct (root_sets_ok _ _ _ _ Hh0 Hroots) as [Hr Hfd].
  destruct roots as [[r1 r2] r3]. apply bind_ok in E as (d1 & D1 & E). apply bind_ok in E as (d2 & D2 & E). apply bind_ok in E as (d3 & D3 & E).
  apply bind_ok in E as (grant & _ & E). apply fail_if_bind_ok in E as [_ E].
  destruct (Hr PRelease) as [U1 C1], (Hr PInfluence) as [U2 C2], (Hr POutcome) as [U3 C3]. cbn [root_part fst snd] in *.
  apply (difference_usable _ _ _ _ _ (Hobs PRelease) U1) in D1. apply (difference_usable _ _ _ _ _ (Hobs PInfluence) U2) in D2. apply (difference_usable _ _ _ _ _ (Hobs POutcome) U3) in D3.
  destruct (no_novelty _) eqn:En.
  - apply Ok_inj in E as [= <- <- <-]. apply no_novelty_spec in En. rewrite En. rewrite D1, D2, D3 in En. injection En as N1 N2 N3.
    exists (hybrid o), h. split; [symmetry; by apply (heads_id V4)|]. split.
    + apply (stale_nothing V4 _ _ h0); [done..| |].
      * assert (~ fresh h0) as Hnf.
        { intros F. apply Hout. change 0 with (Z.of_nat 0) in N3. apply Nat2Z.inj, nil_length_inv in N3. cbn [observed] in N3.
          destruct C3 as [[_ E3]|S]; [|by apply fresh_no_set in S]. rewrite E3 in N3. apply novelty_nil in N3. destruct (set_contents (oOutcome n)) as [|x l]; [done|].
          destruct (not_elem_of_nil x). apply N3. by left. }
        destruct Hfd as [?|Hd]; [done|]. destruct (gr_dictionary _ _ _ _ Hg) as [?|[_ ->]]; done.
      * intros p _. destruct p; eexists; (split; [eassumption|]); apply nil_length_inv; cbn [observed]; lia.
    + destruct (gr_same _ _ _ _ Hg) as [->|?]; pose proof (ho_epoch _ _ _ Hh0); split; lia.
  - apply bind_ok in E as (m1 & M1 & E). apply bind_ok in E as (m2 & M2 & E). apply bind_ok in E as (m3 & M3 & E). apply bind_ok in E as (t' & Ht & E).
    apply bind_ok in E as (o2 & Hcas & [= <- <- <-]).
    apply (union_usable _ _ _ _ _ U1 (Hobs PRelease)) in M1 as [R1 P1]. apply (union_usable _ _ _ _ _ U2 (Hobs PInfluence)) in M2 as [R2 P2].
    apply (union_usable _ _ _ _ _ U3 (Hobs POutcome)) in M3 as [R3 P3]. cbn [observed] in *.
    apply persist_sets_ok in Ht as (Hok' & L & S); [|done|by apply Forall_cons; split; [|apply Forall_cons; split; [|apply Forall_cons; split; [|apply Forall_nil]]]]. apply Forall_cons in S as [S1 S]. apply Forall_cons in S as [S2 S]. apply Forall_cons in S as [S3 _].
    apply (cas_head_ok _ _ _ _ _ _ _ _ _ _ _ h) in Hcas as (Ee & Hw & Hnn & ->); [|done]. pose proof (grows_same _ _ _ _ Hg Ee) as ->. eexists t', _. split; [reflexivity|].
    split; [|cbn; pose proof (ho_epoch _ _ _ Hh); lia]. apply moved_head; [done..|]. intros p _. destruct p; cbn [head_set hReleaseSet hInfluenceSet hOutcomeSet limit_of ReleaseFacts InfluenceFacts OutcomeFacts observed].
    + exists (set_contents r1), (set_contents m1). split; [done|]. split; [apply set_of_stored; [apply R1|done]|done].
    + exists (set_contents r2), (set_contents m2). split; [done|]. split; [apply set_of_stored; [apply R2|done]|done].
    + exists (set_contents r3), (set_contents m3). split; [done|]. split; [apply set_of_stored; [apply R3|done]|done].
Qed.

(** ** The charge of a V5 settlement *)
Lemma load_root_v5_ok t dict d root e : load_root_set_v5 (B := B) t dict d e = Ok root -> load_root_set t dict d e = Ok root.
Proof. unfold load_root_set_v5. by destruct (load_root_set t dict d e). Qed.

Lemma root_sets_v5_ok t h dict u1 u2 : head_ok V5 t h -> root_sets_v5 t dict h = Ok (u1, u2) ->
  (usable t u1 /\ head_contents t h PRelease (set_contents u1)) /\ (usable t u2 /\ head_contents t h PInfluence (set_contents u2)) /\
  (fresh h \/ hDictionarySetDigest h = dict).
Proof.
  intros Hh. unfold root_sets_v5. destruct (same (hReleaseSet h) "") eqn:E.
  - intros [= <- <-]. apply same_true, (unnamed_fresh _ _ _ Hh) in E. destruct (empty_usable t) as [Hu He]. rewrite He.
    split; [by split; [|apply fresh_contents]|]. split; [by split; [|apply fresh_contents]|by left].
  - apply same_false in E. intros (a & Ha%load_root_v5_ok & R)%bind_ok. apply bind_ok in R as (b & Hb%load_root_v5_ok & [= <- <-]).
    apply (load_root_ok V5 _ _ PRelease) in Ha as (U1 & C1 & D1); [|done|by right|done]. apply (load_root_ok V5 _ _ PInfluence) in Hb as (U2 & C2 & _); [|done|by right|done].
    split; [done|]. split; [done|by right].
Qed.

(** The first outcomes are all new. *)
Lemma first_novel st facts objects novel tel : facts <> [] -> differenceAndUnionV5Tx st "" (MkCandidate [] (candidate_hashes facts)) = Ok (objects, novel, tel) -> novel <> [].
Proof.
  intros Hne. unfold differenceAndUnionV5Tx. rewrite bool_decide_true by done. intros (built & _ & [= _ <- _])%bind_ok E. destruct facts as [|f facts]; [done|].
  destruct (not_elem_of_nil (A := bytes) (fact_hash f)). rewrite <- E. apply elem_unique. by left.
Qed.

Definition observed_v5 (n : normalizedV5Observation B) (p : part) : normalizedOrdinalSet B :=
  match p with PRelease => vRelease n | _ => vInfluence n end.

Lemma charge_v5_ok s o r n h0 h now o' c kinds e : tables_ok (B := B) (hybrid o) -> head_ok V5 (hybrid o) h0 -> heads (v5 o) !! qRoot r = Some h -> head_ok V5 (hybrid o) h ->
  grows V5 (hybrid o) h0 h -> usable (hybrid o) (vRelease n) -> usable (hybrid o) (vInfluence n) -> vFacts n <> [] -> vDictionarySet n <> "" ->
  charge_v5 s o r n h0 now = Ok (o', c, kinds, e) -> exists t' st' h',
    o' = with_ledger V5 (with_outcomes (with_hybrid o t') st') (with_heads (v5 o) (<[qRoot r := h']> (heads (v5 o)))) /\
    charged_head V5 (hybrid o) h (vDictionarySet n) (fun p => set_contents (observed_v5 n p)) c t' h' /\ e = hEpoch h'.
Proof.
  intros Hok Hh0 Hcur Hh Hg Hrel Hinf Hne Hdict. unfold charge_v5. cbv zeta. intros ([r1 r2] & Hroots & E)%bind_ok.
  destruct (root_sets_v5_ok _ _ _ _ _ Hh0 Hroots) as ([U1 C1] & [U2 C2] & Hfd). apply bind_ok in E as (d1 & D1 & E). apply bind_ok in E as (d2 & D2 & E).
  apply bind_ok in E as ([[merged novel] tel] & Htx & E). apply bind_ok in E as (ks & _ & E). apply bind_ok in E as (grant & _ & E). apply fail_if_bind_ok in E as [_ E].
  apply bind_ok in E as (m1 & M1 & E). apply bind_ok in E as (m2 & M2 & E). apply bind_ok in E as (t' & Ht & E). apply bind_ok in E as (st' & _ & E).
  apply (difference_usable _ _ _ _ _ Hrel U1) in D1. apply (difference_usable _ _ _ _ _ Hinf U2) in D2.
  apply (union_usable _ _ _ _ _ U1 Hrel) in M1 as [R1 P1]. apply (union_usable _ _ _ _ _ U2 Hinf) in M2 as [R2 P2].
  apply persist_sets_ok in Ht as (Hok' & L & S); [|done|by apply Forall_cons; split; [|apply Forall_cons; split; [|apply Forall_nil]]].
  apply Forall_cons in S as [S1 S]. apply Forall_cons in S as [S2 _].
  destruct (no_novelty _) eqn:En.
  - apply bind_ok in E as (epoch & He & [= <- <- <- <-]). apply no_novelty_spec in En. rewrite En. rewrite D1, D2 in En. injection En as N1 N2 N3.
    unfold current_epoch in He. apply bind_ok in He as (h' & Hs%select_ok & [= <-]). cbn [ledger v5 with_outcomes with_hybrid] in Hs. rewrite Hcur in Hs. injection Hs as <-.
    exists t', st', h. split; [rewrite insert_id by done; by destruct o as [? ? ? ? [] []]|]. split; [|done].
    assert (charged_head V5 (hybrid o) h (vDictionarySet n) (fun p => set_contents (observed_v5 n p)) zero_limits (hybrid o) h) as [K1 K2 K3 K4 K5 K6 K7 K8].
    { apply (stale_nothing V5 _ _ h0); [done..| |].
      - assert (~ fresh h0) as Hnf. { intros (_ & _ & _ & Ho & _). rewrite Ho in Htx. apply first_novel in Htx; [|done]. apply Htx. by destruct novel. }
        destruct Hfd as [?|Hd]; [done|]. destruct (gr_dictionary _ _ _ _ Hg) as [?|[_ ->]]; done.
      - intros p [?|Hp]; [done|]. destruct p; [| |done]; eexists; (split; [eassumption|]); apply nil_length_inv; cbn [observed_v5]; lia. }
    split; [done|done|by eapply head_ok_le|by eapply grows_le|done|done| |by left]. intros p Hp. destruct (K7 p Hp) as (X & Y & HX & HY & HP).
    exists X, Y. split; [by eapply head_contents_le|]. split; [by eapply head_contents_le|done].
  - apply bind_ok in E as (o2 & Hcas & [= <- <- <- <-]).
    apply (cas_head_ok _ _ _ _ _ _ _ _ _ _ _ h) in Hcas as (Ee & Hw & Hnn & ->); [|done]. pose proof (grows_same _ _ _ _ Hg Ee) as ->. eexists t', st', _. split; [reflexivity|].
    split; [|cbn; lia]. apply moved_head; [done..|]. intros p [?|Hp]; [done|]. destruct p; [| |done];
      cbn [head_set hReleaseSet hInfluenceSet hOutcomeSet limit_of ReleaseFacts InfluenceFacts OutcomeFacts observed_v5].
    + exists (set_contents r1), (set_contents m1). split; [done|]. split; [apply set_of_stored; [apply R1|done]|done].
    + exists (set_contents r2), (set_contents m2). split; [done|]. split; [apply set_of_stored; [apply R2|done]|done].
Qed.
End theory.
End OrdinalTheory.
