(* ===== verification/OrdinalOutcomes.v ===== *)
(** * The outcome dimension of a V5 settlement

    V5 keeps a root's outcomes as a hash set: the charge is the set of hashes the
    root has not seen, and the new head names the union. *)

From S2P Require Import Prelude GoBytes Ordering Sha256 FactId OutcomeSet OutcomeLists OutcomeBuild OutcomeVerify OutcomeRadix OutcomeMerge OutcomeLoad OutcomeStore OutcomeProps LedgerStore ExposureLedger Roaring Bitmap HybridSet HybridTheory HybridStore HybridStoreTheory V5Facts OrdinalTables OrdinalLedger OrdinalTheory.
Import OrdinalTheory(no_novelty_spec).
Import FactId(same, SQLLiterals).
Import Sha256 OutcomeSet OutcomeLists OutcomeBuild OutcomeVerify OutcomeRadix OutcomeMerge OutcomeLoad OutcomeStore OutcomeProps HybridSet HybridStore V5Facts OrdinalTables OrdinalLedger.
Import Store(Store, ordinal, OutcomeFacts, ReleaseFacts, InfluenceFacts, MkExposure).
Import ExposureLedger(ordinal_version, V4, V5, zero_limits).

Module OrdinalOutcomes.

Section outcomes.
Context `{SQLLiterals} {B : Type} `{!Roaring B}.
Implicit Types (facts input : list OrdinalDynamicFact) (n : normalizedV5Observation B).

(** ** The facts of an outcome *)
Record by_hash input (st : outcome_state) : Prop := {
  bh_key d f : osByHash st !! d = Some f -> dynSHA256 f = d /\ valid_sha256_text d = true;
  bh_all d : is_Some (osByHash st !! d) <-> d ∈ map dynSHA256 input;
}.

Lemma outcome_step_ok input st fact st' : by_hash input st -> outcome_fact_step st fact = Ok st' -> by_hash (input ++ [fact]) st'.
Proof.
  intros [K1 K2]. unfold outcome_fact_step. cbv zeta. intros [G E]%fail_if_bind_ok. rewrite !orb_false_iff, !negb_false_iff in G. destruct G as [[Gv _] _].
  apply fail_if_bind_ok in E as [_ E]. apply bind_ok in E as (decoded & _ & E). apply bind_ok in E as (st1 & H1 & E). assert (osByHash st1 = osByHash st) as Em.
  { destruct (bool_decide (dynKind fact = OrdinalDynamicPredicateAtom)); apply fail_if_bind_ok in H1 as [_ H1]; [apply fail_if_bind_ok in H1 as [_ H1]|]; apply Ok_inj in H1 as <-; done. }
  rewrite Em in E. destruct (osByHash st !! dynSHA256 fact) as [previous|] eqn:Ep.
  - apply fail_if_bind_ok in E as [_ [= <-]]. split; [rewrite Em; exact K1|]. intros d. rewrite Em, K2, map_app, elem_of_app. cbn [map]. rewrite list_elem_of_singleton. split; [by left|].
    intros [?| ->]; [done|]. apply K2. by eexists.
  - apply Ok_inj in E as <-. split; cbn [osByHash].
    + intros d f [[<- <-]|[_ Hd]]%lookup_insert_Some; [done|]. by apply K1.
    + intros d. rewrite lookup_insert_is_Some', K2, map_app, elem_of_app. cbn [map]. rewrite list_elem_of_singleton. split; [intros [->|?]; auto|]. intros [?| ->]; auto.
Qed.

Lemma outcome_steps_ok l : forall input st st', by_hash input st -> fold_res outcome_fact_step st l = Ok st' -> by_hash (input ++ l) st'.
Proof.
  induction l as [|fact l IH]; intros input st st' K; cbn [fold_res]; [intros [= <-]; by rewrite app_nil_r|]. intros (st1 & H1 & E)%bind_ok.
  apply (outcome_step_ok _ _ _ _ K) in H1. apply (IH _ _ _ H1) in E. by rewrite <- app_assoc in E.
Qed.

(** The normalized facts are those of the input, by hash. *)
Lemma normalized_hashes input facts metadata : normalizeV5OutcomeFacts input = Ok (facts, metadata) ->
  forall d, d ∈ map dynSHA256 facts <-> d ∈ map dynSHA256 input.
Proof.
  unfold normalizeV5OutcomeFacts. intros (st & Hst & E)%bind_ok d. cbv zeta in E. apply fail_if_bind_ok in E as [_ E]. apply fail_if_bind_ok in E as [_ E].
  apply bind_ok in E as (u & _ & [= <- _]). apply (outcome_steps_ok _ []) in Hst as [K1 K2]; [|split; cbn; [intros ? ?; by rewrite lookup_empty|]].
  2: { intros d'. rewrite lookup_empty. split; [by intros []|by intros ?%elem_of_nil]. }
  cbn [app] in K2. rewrite <- K2. unfold sort_facts. rewrite list_elem_of_fmap. setoid_rewrite merge_sort_Permutation. setoid_rewrite list_elem_of_fmap. split.
  - intros (f & -> & ([k f'] & -> & Hin%elem_of_map_to_list)). cbn [snd] in *. destruct (K1 _ _ Hin) as [E _]. rewrite E. by eexists.
  - intros [f Hf]. exists f. split; [symmetry; by apply K1|]. exists (d, f). split; [done|]. by apply elem_of_map_to_list.
Qed.

(** ** The novel hashes, by kind *)
Lemma count_kinds_ok kinds l : forall acc acc', fold_res (count_kind kinds) acc l = Ok acc' -> acc'.1 + acc'.2 = acc.1 + acc.2 + Z.of_nat (length l).
Proof.
  induction l as [|hash l IH]; intros acc acc'; cbn [fold_res length]; [intros [= <-]; lia|]. intros (acc1 & H1 & E%IH)%bind_ok. rewrite E. unfold count_kind in H1.
  destruct (kinds !! _) as [kind|]; [|done]. destruct (same kind OrdinalDynamicPredicateAtom); [apply Ok_inj in H1 as <-; cbn; lia|].
  destruct (same kind OrdinalDynamicCompositeOutcome); [apply Ok_inj in H1 as <-; cbn; lia|done].
Qed.

(** ** The set a head names *)

(** A head that names no outcomes yet, or the set built from [root]: [texts] is
    what its digests commit to. *)
Definition outcome_head (root : list bytes) (texts : list bytes) (digest : string) : Prop :=
  root = [] /\ texts = [] /\ digest = "" \/
  exists base, buildOutcomeHashSetFromBinaryV5 root = Ok base /\ texts = graph_texts base /\ digest = SetSHA256 (objSet base).

Lemma fact_hashes_ext facts input : (forall d, d ∈ map dynSHA256 facts <-> d ∈ map dynSHA256 input) -> forall h, h ∈ candidate_hashes facts <-> h ∈ candidate_hashes input.
Proof.
  intros E h. assert (forall l, candidate_hashes l = map (fun d => match decodeOutcomeHashV5 d with Ok hash => hash | Err _ => replicate 32 (byte_of 0) end) (map dynSHA256 l)) as Em.
  { intros l. unfold candidate_hashes, fact_hash. by rewrite map_map. }
  rewrite !Em, !list_elem_of_fmap. by setoid_rewrite E.
Qed.

Lemma union_sound st root texts digest cand res novel tel : Forall hash32 root -> Forall hash32 cand -> Z.of_nat (length root + length cand) < 2 ^ 31 ->
  outcome_head root texts digest -> ~ collides (texts ++ store_texts st) (texts ++ store_texts st) ->
  differenceAndUnionV5Tx st digest (MkCandidate [] cand) = Ok (res, novel, tel) ->
  novel = spec_novel root cand /\ forall whole, buildOutcomeHashSetFromBinaryV5 (root ++ cand) = Ok whole -> objSet res = objSet whole.
Proof.
  intros HR HC Hn Hhead Hcol Htx. destruct Hhead as [(-> & _ & ->)|(base & Hbase & -> & ->)].
  - unfold differenceAndUnionV5Tx in Htx. rewrite bool_decide_true in Htx by done. cbn [candHashes] in Htx. apply bind_ok in Htx as (built & Hb & [= -> <- _]). split.
    + unfold spec_novel. symmetry. apply filter_all. intros x _. by apply not_elem_of_nil.
    + intros whole Hw. cbn [app] in Hw. rewrite build_unique in Hb. rewrite Hb in Hw. by injection Hw as ->.
  - set (xs := graph_texts base ++ store_texts st) in *. pose proof (no_collision xs Hcol) as nocoll.
    destruct (built_members root base HR ltac:(lia) Hbase) as (HM & HG & _). set (M := uniqueOutcomeHashesV5 root) in *. rewrite (proj1 HG) in Htx.
    assert (members_ok (uniqueOutcomeHashesV5 cand)) as HCM by (apply unique_ok; [done|lia]). assert (spec_union M (uniqueOutcomeHashesV5 cand) = uniqueOutcomeHashesV5 (root ++ cand)) as EN.
    { apply unique_ext. intros x. unfold M. by rewrite !elem_of_app, !elem_unique. }
    assert (members_ok (spec_union M (uniqueOutcomeHashesV5 cand))) as HN by (rewrite EN; apply unique_ok; [by apply Forall_app|rewrite length_app; lia]).
    destruct (tx_sound M (uniqueOutcomeHashesV5 cand) HM HCM HN st xs nocoll) with (cand := MkCandidate [] cand) (res := res) (novel := novel) (tel := tel) as (Er & -> & _); [|by intros x Hx; apply elem_of_app; right|done|done|].
    { intros x Hx. apply elem_of_app. left. by apply (graph_texts_all M base HG). }
    split.
    + unfold M. rewrite (novel_ext _ root) by (intros x; apply elem_unique). unfold spec_novel. by rewrite (unique_id (uniqueOutcomeHashesV5 _)) by apply unique_sorted.
    + intros whole Hw. rewrite Er, EN. symmetry. apply built_set; [by apply Forall_app|rewrite length_app; lia|done].
Qed.

Lemma hex_decode_length k : forall l b, (length l <= k)%nat -> hex_decode_bytes l = Some b -> length l = (2 * length b)%nat.
Proof.
  induction k as [|k IH]; intros l b Hn E; [by destruct l; [injection E as <-|cbn in Hn; lia]|].
  destruct l as [|h [|l r]]; [by injection E as <-|done|]. cbn [hex_decode_bytes] in E. apply bind_Some in E as (u & _ & E). apply bind_Some in E as (w & _ & E).
  apply bind_Some in E as (z & Hz & [= <-]). apply IH in Hz; cbn in *; lia.
Qed.

Lemma fact_hash32 fact : hash32 (fact_hash fact).
Proof.
  unfold fact_hash, decodeOutcomeHashV5, hash32. destruct (negb (str_len _ =? 64) || _) eqn:G; [done|]. apply orb_false_iff in G as [G _]. apply negb_false_iff, Z.eqb_eq in G.
  destruct (hex_decode (dynSHA256 fact)) as [h|] eqn:E; [|done]. unfold hex_decode in E. apply (hex_decode_length _ _ _ (Nat.le_refl _)) in E.
  unfold str_len in G. rewrite ?length_to_bytes in E. lia.
Qed.

(** C12: The outcome dimension of a V5 settlement is exact.  When the head a settlement
    read names no outcomes, or the set built from the hashes of [root], the charge
    of an observation is the number of its distinct fact hashes that are not in
    [root], charged atoms and composites add up to it, and if the head moves it
    names the set built from both lists; or two of the listed texts collide. *)
Theorem v5_outcome_exact s o r q (x : OrdinalExposureObservation B) t n h0 now o' c kinds e root texts (HR : Forall hash32 root)
    (Hsize : Z.of_nat (length root + length (vFacts n)) < 2 ^ 31) (Hhead : outcome_head root texts (hOutcomeSet h0))
    (Hnormal : normalizeV5ObservationTx s q x = Ok (t, n)) (Hcharge : charge_v5 s o r n h0 now = Ok (o', c, kinds, e)) :
  (OutcomeFacts c = Z.of_nat (length (spec_novel root (candidate_hashes (hsDynamicFacts (xOutcome x))))) /\ kinds.1 + kinds.2 = OutcomeFacts c /\
   (c = zero_limits \/ exists h', heads (v5 o') !! qRoot r = Some h' /\
     forall whole, buildOutcomeHashSetFromBinaryV5 (root ++ candidate_hashes (hsDynamicFacts (xOutcome x))) = Ok whole -> hOutcomeSet h' = SetSHA256 (objSet whole))) \/
  collides (texts ++ store_texts (outcomes o)) (texts ++ store_texts (outcomes o)).
Proof.
  destruct (decide (collides (texts ++ store_texts (outcomes o)) (texts ++ store_texts (outcomes o)))) as [|Hc]; [by right|left].
  assert (forall h, h ∈ candidate_hashes (vFacts n) <-> h ∈ candidate_hashes (hsDynamicFacts (xOutcome x))) as Hfacts.
  { apply fact_hashes_ext. unfold normalizeV5ObservationTx in Hnormal. apply fail_if_bind_ok in Hnormal as [_ E]. apply bind_ok in E as ([sc qc] & _ & E).
    apply fail_if_bind_ok in E as [_ E]. apply bind_ok in E as ([[t1 rel] inf] & _ & E). apply fail_if_bind_ok in E as [_ E]. apply bind_ok in E as ([facts metadata] & Hf & E).
    apply bind_ok in E as (out & _ & E). cbv zeta in E. apply fail_if_bind_ok in E as [_ [= _ <-]]. cbn [vFacts]. by eapply normalized_hashes. }
  unfold charge_v5 in Hcharge. cbv zeta in Hcharge. apply bind_ok in Hcharge as ([u1 u2] & _ & E). apply bind_ok in E as (d1 & _ & E). apply bind_ok in E as (d2 & _ & E).
  apply bind_ok in E as ([[merged novel] tel] & Htx & E). apply bind_ok in E as (ks & Hks%count_kinds_ok & E). apply bind_ok in E as (grant & _ & E). apply fail_if_bind_ok in E as [_ E].
  apply bind_ok in E as (m1 & _ & E). apply bind_ok in E as (m2 & _ & E). apply bind_ok in E as (t' & _ & E). apply bind_ok in E as (st' & _ & E).
  assert (Forall hash32 (candidate_hashes (vFacts n))) as HC by (apply Forall_forall; intros h (f & -> & _)%list_elem_of_fmap; apply fact_hash32).
  destruct (union_sound _ _ _ _ _ _ _ _ HR HC ltac:(unfold candidate_hashes; by rewrite length_map) Hhead Hc Htx) as [En Ew].
  assert (novel = spec_novel root (candidate_hashes (hsDynamicFacts (xOutcome x)))) as En' by (rewrite En; unfold spec_novel; by rewrite (unique_ext _ _ Hfacts)).
  assert (c = MkExposure (cardinality d1) (cardinality d2) (Z.of_nat (length novel)) /\ kinds = ks) as [-> ->].
  { destruct (no_novelty _); apply bind_ok in E as (? & _ & [= _ <- <- _]); done. }
  cbn [OutcomeFacts]. rewrite <- En'. split; [done|]. split; [cbn in Hks; lia|]. destruct (no_novelty _) eqn:Ez.
  - left. by apply no_novelty_spec.
  - right. apply bind_ok in E as (o2 & Hcas & [= <- _]). unfold cas_head in Hcas. apply bind_ok in Hcas as (h & _ & E). do 2 apply fail_if_bind_ok in E as [_ E].
    apply fail_if_bind_ok in E as [_ [= <-]]. eexists. split; [cbn; apply lookup_insert_eq|]. cbn [hOutcomeSet]. intros whole Hw. rewrite (Ew whole); [done|].
    rewrite <- Hw, <- (build_unique (root ++ _)), <- (build_unique (root ++ candidate_hashes (hsDynamicFacts _))). f_equal. apply unique_ext. intros h'. by rewrite !elem_of_app, Hfacts.
Qed.
End outcomes.
End OrdinalOutcomes.
