(* ===== verification/OrdinalInvariant.v ===== *)
(** * The invariant of an ordinal ledger

    What a head has used is what its reservations were charged, every settled
    query's observation is inside its head, and every set the ledger names is in
    the tables. *)

From S2P Require Import Prelude GoBytes Ordering FactId FactSet OutcomeSet LedgerStore ExposureLedger OutcomeRadix Ordinal Roaring Bitmap Portable HybridSet HybridTheory HybridStore HybridStoreTheory V5Facts OrdinalTables OrdinalLedger OrdinalTheory.
Import FactId(same, same_true, same_false, SQLLiterals).
Import Ordinal Bitmap Portable HybridSet HybridTheory HybridStore HybridStoreTheory V5Facts OrdinalTables OrdinalLedger OrdinalTheory.
Import Store(exposureReserved, exposureSettled, exposureReleased, ExposureLimits, MkExposure, ReleaseFacts, InfluenceFacts, OutcomeFacts).
Import ExposureLedger(ordinal_version, V4, V5, zero_limits, limit_of, limits_ext).
Import FactSet(part, PRelease, PInfluence, POutcome).

Module OrdinalInvariant.

Section invariant.
Context `{SQLLiterals} {B : Type} `{!Roaring B, !RoaringLaws B}.
Implicit Types (o : OrdinalTables) (t : HybridTables) (l : LedgerTables) (h : OrdinalRootHead) (r : ReservationRow) (b : ObservationRow) (v : ordinal_version).
Abbreviation content := (Ordinal.FactRef + string)%type (only parsing).

Definition charged_in (root : string) (p : part) r : Z := if decide (qRoot r = root) then limit_of p (qCharged r) else 0.

(** An observation whose sets are in the tables, and one a head contains. *)
Definition observation_ok v t b : Prop :=
  bDictionarySet b <> "" /\ forall p, hybrid_part v p -> exists X : list content, set_of (B := B) t (bDictionarySet b) (observed_set p b) X /\ limit_of p (bActual b) = Z.of_nat (length X).

Definition shown v t h b : Prop :=
  hDictionarySetDigest h = bDictionarySet b /\
  forall p, hybrid_part v p -> exists X Y : list content, set_of (B := B) t (bDictionarySet b) (observed_set p b) X /\ head_contents (B := B) t h p Y /\ X ⊆ Y.

Record ledger_ok v t l : Prop := {
  lo_head root h : heads l !! root = Some h -> head_ok (B := B) v t h;
  lo_used root h p : heads l !! root = Some h -> limit_of p (hUsed h) = msum (charged_in root p) (rows l);
  lo_root q r : rows l !! q = Some r -> is_Some (heads l !! qRoot r);
  lo_open q r : rows l !! q = Some r -> qState r <> exposureSettled -> qCharged r = zero_limits;
  lo_settled q r : rows l !! q = Some r -> qState r = exposureSettled -> is_Some (root_observations l !! (qRoot r, qObservation r));
  lo_observation d b : observations l !! d = Some b -> observation_ok v t b;
  lo_seen root d ro : root_observations l !! (root, d) = Some ro ->
    exists h b, heads l !! root = Some h /\ observations l !! d = Some b /\ shown v t h b /\ 0 <= roFirstEpoch ro <= hEpoch h;
}.

Lemma observation_ok_le v t t' b : tables_le t t' -> observation_ok v t b -> observation_ok v t' b.
Proof. intros L [Hd Hp]. split; [done|]. intros p Hv. destruct (Hp p Hv) as (X & HX & E). exists X. split; [by eapply set_of_le|done]. Qed.

Lemma shown_le v t t' h b : tables_le t t' -> shown v t h b -> shown v t' h b.
Proof.
  intros L [Hd Hp]. split; [done|]. intros p Hv. destruct (Hp p Hv) as (X & Y & HX & HY & Hs). exists X, Y.
  split; [by eapply set_of_le|]. split; [by eapply head_contents_le|done].
Qed.

Lemma ledger_ok_le v t t' l : tables_le t t' -> ledger_ok v t l -> ledger_ok v t' l.
Proof.
  intros L [K1 K2 K3 K4 K5 K6 K7]. split; [|done|done|done|done| |].
  - intros root h Hh. eapply head_ok_le; [done|by eapply K1].
  - intros d b Hb. eapply observation_ok_le; [done|by eapply K6].
  - intros root d ro Hr. destruct (K7 root d ro Hr) as (h & b & Hh & Hb & Hs & He). exists h, b. split; [done|]. split; [done|]. split; [by eapply shown_le|done].
Qed.

Lemma shown_grows v t h h' b : bDictionarySet b <> "" -> grows (B := B) v t h h' -> shown v t h b -> shown v t h' b.
Proof.
  intros Hne Hg [Hd Hp]. split.
  - destruct (gr_dictionary _ _ _ _ Hg) as [(E & _)|[_ E]]; [by rewrite E in Hd|by rewrite E].
  - intros p Hv. destruct (Hp p Hv) as (X & Y & HX & HY & Hs). destruct (gr_contents _ _ _ _ Hg p Hv) as (Y' & Z & HY' & HZ & Hs').
    rewrite (head_contents_unique _ _ _ _ _ HY' HY) in Hs'. exists X, Z. split; [done|]. split; [done|]. by etrans.
Qed.

(** ** A ledger and what it may have become *)
Record later v t' l l' : Prop := {
  lt_head root h : heads l !! root = Some h -> exists h', heads l' !! root = Some h' /\ grows (B := B) v t' h h';
  lt_row q r : rows l !! q = Some r -> exists r', rows l' !! q = Some r' /\ qRoot r' = qRoot r /\ (qState r = exposureSettled -> r' = r);
  lt_seen k ro : root_observations l !! k = Some ro -> root_observations l' !! k = Some ro;
}.

Lemma later_refl v t l : ledger_ok v t l -> later v t l l.
Proof. intros K. split; [|by eauto|done]. intros root h Hh. exists h. split; [done|]. apply grows_refl. by eapply (lo_head _ _ _ K). Qed.

Lemma later_le v t t' l l' : tables_le t t' -> later v t l l' -> later v t' l l'.
Proof. intros L [K1 K2 K3]. split; [|done|done]. intros root h (h' & Hh & Hg)%K1. exists h'. split; [done|]. by eapply grows_le. Qed.

Lemma later_trans v t2 t3 l1 l2 l3 : tables_le t2 t3 -> later v t2 l1 l2 -> later v t3 l2 l3 -> later v t3 l1 l3.
Proof.
  intros L K K'. apply (later_le _ _ _ _ _ L) in K. split; [| |].
  - intros root h (h2 & Hh & Hg)%(lt_head _ _ _ _ K). destruct (lt_head _ _ _ _ K' root h2 Hh) as (h3 & Hh' & Hg'). exists h3. split; [done|]. by eapply head_grows_trans.
  - intros q r (r2 & Hr & E & F)%(lt_row _ _ _ _ K). destruct (lt_row _ _ _ _ K' q r2 Hr) as (r3 & Hr' & E' & F'). exists r3. split; [done|]. split; [congruence|].
    intros Hs. rewrite F' by (by rewrite F). by apply F.
  - intros k ro Hk. by apply (lt_seen _ _ _ _ K'), (lt_seen _ _ _ _ K).
Qed.

(** ** A settlement, as the ledger sees it *)
Record settlement v t t' l l' (q : string) r r' h h' (obs : part -> list content) (c : ExposureLimits) (d : string) b : Prop := {
  se_head : heads l !! qRoot r = Some h;
  se_charged : charged_head (B := B) v t h (bDictionarySet b) obs c t' h';
  se_heads : heads l' = <[qRoot r := h']> (heads l);
  se_row : rows l !! q = Some r;
  se_open : qState r <> exposureSettled;
  se_rows : rows l' = <[q := r']> (rows l);
  se_settled : qRoot r' = qRoot r /\ qState r' = exposureSettled /\ qCharged r' = c /\ qObservation r' = d;
  se_kept k x : observations l !! k = Some x -> observations l' !! k = Some x;
  se_new k x : observations l' !! k = Some x -> observations l !! k = Some x \/ k = d /\ x = b;
  se_observation : observations l' !! d = Some b;
  se_dictionary : bDictionarySet b <> "";
  se_sets p : hybrid_part v p -> set_of (B := B) t' (bDictionarySet b) (observed_set p b) (obs p) /\ limit_of p (bActual b) = Z.of_nat (length (obs p));
  se_seen_kept k ro : root_observations l !! k = Some ro -> root_observations l' !! k = Some ro;
  se_seen_new k ro : root_observations l' !! k = Some ro -> root_observations l !! k = Some ro \/ k = (qRoot r, d) /\ 0 <= roFirstEpoch ro <= hEpoch h';
  se_seen : is_Some (root_observations l' !! (qRoot r, d));
}.

Lemma charged_shown v t h obs c t' h' b : charged_head (B := B) v t h (bDictionarySet b) obs c t' h' ->
  (forall p, hybrid_part v p -> set_of (B := B) t' (bDictionarySet b) (observed_set p b) (obs p)) -> shown v t' h' b.
Proof.
  intros Hc Hs. split; [by apply Hc|]. intros p Hv. destruct (ch_parts _ _ _ _ _ _ _ _ Hc p Hv) as (X & Y & _ & HY & HP & _). exists (obs p), Y. split; [by apply Hs|].
  split; [done|]. intros x Hx. rewrite HP, elem_of_app. destruct (decide (x ∈ X)); [by left|right]. unfold novelty. by apply list_elem_of_filter.
Qed.

Section settled.
Context v t t' l l' (q : string) r r' h h' (obs : part -> list content) (c : ExposureLimits) (d : string) b.
Context (K : ledger_ok v t l) (S : settlement v t t' l l' q r r' h h' obs c d b).

Lemma settled_le : tables_le t t'.
Proof. by apply (se_charged _ _ _ _ _ _ _ _ _ _ _ _ _ _ S). Qed.

Lemma settled_heads root : heads l' !! root = if decide (root = qRoot r) then Some h' else heads l !! root.
Proof. rewrite (se_heads _ _ _ _ _ _ _ _ _ _ _ _ _ _ S). destruct (decide _) as [->|?]; [by rewrite lookup_insert_eq|by rewrite lookup_insert_ne]. Qed.

Lemma settled_charges root p : msum (charged_in root p) (rows l') = msum (charged_in root p) (rows l) + (if decide (root = qRoot r) then limit_of p c else 0).
Proof.
  rewrite (se_rows _ _ _ _ _ _ _ _ _ _ _ _ _ _ S), (msum_update _ _ _ _ _ (se_row _ _ _ _ _ _ _ _ _ _ _ _ _ _ S)). unfold charged_in at 2 3.
  destruct (se_settled _ _ _ _ _ _ _ _ _ _ _ _ _ _ S) as (-> & _ & -> & _).
  rewrite (lo_open _ _ _ K q r (se_row _ _ _ _ _ _ _ _ _ _ _ _ _ _ S) (se_open _ _ _ _ _ _ _ _ _ _ _ _ _ _ S)), limit_zero.
  destruct (decide (qRoot r = root)), (decide (root = qRoot r)); try congruence; lia.
Qed.

Lemma settled_ok : ledger_ok v t' l'.
Proof.
  pose proof settled_le as L. pose proof (se_charged _ _ _ _ _ _ _ _ _ _ _ _ _ _ S) as Hc. pose proof (se_head _ _ _ _ _ _ _ _ _ _ _ _ _ _ S) as Hh.
  destruct (se_settled _ _ _ _ _ _ _ _ _ _ _ _ _ _ S) as (Er & Es & Ec & Eo). split.
  - intros root x. rewrite settled_heads. destruct (decide _) as [->|?]; [intros [= <-]; apply Hc|]. intros Hx. eapply head_ok_le; [done|]. by eapply (lo_head _ _ _ K).
  - intros root x p. rewrite settled_heads, settled_charges. destruct (decide _) as [->|?].
    + intros [= <-]. rewrite (ch_used _ _ _ _ _ _ _ _ Hc), limit_add. f_equal. by apply (lo_used _ _ _ K).
    + intros Hx. rewrite Z.add_0_r. by apply (lo_used _ _ _ K).
  - intros q' x. rewrite (se_rows _ _ _ _ _ _ _ _ _ _ _ _ _ _ S), settled_heads. intros [[<- <-]|[_ Hx]]%lookup_insert_Some; [rewrite Er, decide_True by done; by eexists|].
    destruct (decide _); [by eexists|]. by apply (lo_root _ _ _ K q').
  - intros q' x. rewrite (se_rows _ _ _ _ _ _ _ _ _ _ _ _ _ _ S). intros [[<- <-]|[_ Hx]]%lookup_insert_Some; [congruence|]. by apply (lo_open _ _ _ K q').
  - intros q' x. rewrite (se_rows _ _ _ _ _ _ _ _ _ _ _ _ _ _ S). intros [[<- <-]|[_ Hx]]%lookup_insert_Some Hs; [rewrite Er, Eo; apply S|].
    destruct (lo_settled _ _ _ K q' x Hx Hs) as [ro Hro]. exists ro. by apply (se_seen_kept _ _ _ _ _ _ _ _ _ _ _ _ _ _ S).
  - intros k x [Hx|[-> ->]]%(se_new _ _ _ _ _ _ _ _ _ _ _ _ _ _ S); [eapply observation_ok_le; [done|]; by eapply (lo_observation _ _ _ K)|]. split; [apply S|].
    intros p Hv. exists (obs p). by apply S.
  - intros root k ro [Hk|[[= -> ->] He]]%(se_seen_new _ _ _ _ _ _ _ _ _ _ _ _ _ _ S).
    + destruct (lo_seen _ _ _ K root k ro Hk) as (x & y & Hx & Hy & Hs & He). rewrite settled_heads. destruct (decide _) as [->|?].
      * rewrite Hh in Hx. injection Hx as <-. exists h', y. split; [done|]. split; [by apply (se_kept _ _ _ _ _ _ _ _ _ _ _ _ _ _ S)|].
        split; [eapply shown_grows; [by apply (lo_observation _ _ _ K k)|apply Hc|by eapply shown_le]|]. destruct (gr_same _ _ _ _ (ch_grows _ _ _ _ _ _ _ _ Hc)) as [->|?]; lia.
      * exists x, y. split; [done|]. split; [by apply (se_kept _ _ _ _ _ _ _ _ _ _ _ _ _ _ S)|]. split; [by eapply shown_le|done].
    + exists h', b. rewrite settled_heads, decide_True by done. split; [done|].
      split; [by apply (se_observation _ _ _ _ _ _ _ _ _ _ _ _ _ _ S)|]. split; [|done]. eapply charged_shown; [exact Hc|]. intros p Hv. by apply S.
Qed.

Lemma settled_later : later v t' l l'.
Proof.
  pose proof settled_le as L. split.
  - intros root x Hx. rewrite settled_heads. destruct (decide _) as [->|?].
    + exists h'. split; [done|]. rewrite (se_head _ _ _ _ _ _ _ _ _ _ _ _ _ _ S) in Hx. injection Hx as <-. by apply (se_charged _ _ _ _ _ _ _ _ _ _ _ _ _ _ S).
    + exists x. split; [done|]. apply grows_refl. eapply head_ok_le; [done|]. by eapply (lo_head _ _ _ K).
  - intros q' x Hx. rewrite (se_rows _ _ _ _ _ _ _ _ _ _ _ _ _ _ S). destruct (decide (q = q')) as [<-|?].
    + rewrite (se_row _ _ _ _ _ _ _ _ _ _ _ _ _ _ S) in Hx. injection Hx as <-. exists r'. rewrite lookup_insert_eq. split; [done|]. split; [apply S|].
      intros Hs. by destruct (se_open _ _ _ _ _ _ _ _ _ _ _ _ _ _ S).
    + exists x. by rewrite lookup_insert_ne.
  - intros k ro. apply S.
Qed.
End settled.

(** ** The tables *)
Record ordinal_ok o : Prop := { oo_tables : tables_ok (B := B) (hybrid o); oo_ledger v : ledger_ok v (hybrid o) (ledger v o) }.
Record advance o o' : Prop := { ad_tables : tables_le (hybrid o) (hybrid o'); ad_ledger v : later v (hybrid o') (ledger v o) (ledger v o') }.

Lemma advance_refl o : ordinal_ok o -> advance o o.
Proof. intros [K1 K2]. split; [done|]. intros v. by apply later_refl. Qed.

Lemma advance_trans o1 o2 o3 : advance o1 o2 -> advance o2 o3 -> advance o1 o3.
Proof. intros [L1 K1] [L2 K2]. split; [by etrans|]. intros v. by eapply later_trans. Qed.

(** Only the tables of one profile change, and the sets grow. *)
Lemma advance_ledger v o o' : ordinal_ok o -> tables_ok (B := B) (hybrid o') -> tables_le (hybrid o) (hybrid o') -> (forall v', v' <> v -> ledger v' o' = ledger v' o) ->
  ledger_ok v (hybrid o') (ledger v o') -> later v (hybrid o') (ledger v o) (ledger v o') -> ordinal_ok o' /\ advance o o'.
Proof.
  intros [K1 K2] Hok L Hother Kv Hv. assert (forall v', ledger_ok v' (hybrid o') (ledger v' o')) as Kall.
  { intros v'. destruct (decide (v' = v)) as [->|Hne]; [done|]. rewrite Hother by done. by eapply ledger_ok_le. }
  split; [done|]. split; [done|]. intros v'. destruct (decide (v' = v)) as [->|Hne]; [done|]. rewrite <- (Hother v' Hne). by apply later_refl.
Qed.

(** Only the sets grow. *)
Lemma advance_hybrid o o' : ordinal_ok o -> tables_ok (B := B) (hybrid o') -> tables_le (hybrid o) (hybrid o') -> (forall v, ledger v o' = ledger v o) -> ordinal_ok o' /\ advance o o'.
Proof.
  intros K Hok L E. apply (advance_ledger V4); [done..| | |]; [|rewrite E; eapply ledger_ok_le; [done|apply K]|rewrite <- E; apply later_refl; rewrite E; eapply ledger_ok_le; [done|apply K]].
  intros v' _. apply E.
Qed.
End invariant.
End OrdinalInvariant.
