(* ===== verification/OrdinalSteps.v ===== *)
(** * The steps of an ordinal ledger

    Every operation keeps the invariant and only adds: heads grow, what was seen
    stays seen, settled rows are final.  A settlement may have read its head and
    its observation from earlier tables than those it writes to. *)

From S2P Require Import Prelude GoBytes Ordering FactId FactSet OutcomeSet LedgerStore ExposureLedger OutcomeRadix Ordinal Roaring Bitmap Portable HybridSet HybridTheory HybridStore HybridStoreTheory V5Facts OrdinalTables OrdinalLedger OrdinalFrame OrdinalTheory OrdinalInvariant.
Import FactId(same, same_true, same_false, SQLLiterals, ProfileV4, ProfileV5).
Import Ordinal Bitmap Portable HybridSet HybridTheory HybridStore HybridStoreTheory V5Facts OrdinalTables OrdinalLedger OrdinalTheory OrdinalInvariant.
Import OutcomeSet(OrdinalDynamicFact, dynSHA256, dynKind, dynPayload, objSet, SetSHA256, Cardinality).
Import Store(Store, ordinal, with_ordinal, tasks, grants, queries, select, select_ok, tRootTaskID, eLimits, ePredicateFootprint, exposureReserved, exposureSettled, exposureReleased,
  ExposureLimits, MkExposure, ReleaseFacts, InfluenceFacts, OutcomeFacts).
Import ExposureLedger(ordinal_version, V4, V5, zero_limits, limit_of, limits_ext, ExposureCharge).
Import FactSet(part, PRelease, PInfluence, POutcome).

Module OrdinalSteps.

Section steps.
Context `{SQLLiterals} {B : Type} `{!Roaring B, !RoaringLaws B}.
Implicit Types (s : Store OrdinalTables) (o : OrdinalTables) (t : HybridTables) (l : LedgerTables) (h : OrdinalRootHead) (r : ReservationRow) (b : ObservationRow)
  (v : ordinal_version) (x : OrdinalExposureObservation B).
Abbreviation content := (Ordinal.FactRef + string)%type (only parsing).
Abbreviation ordinal_ok := (ordinal_ok (B := B)).
Abbreviation advance := (advance (B := B)).

(** ** Statements *)
Lemma ledger_with v o l : ledger v (with_ledger v o l) = l.
Proof. by destruct v. Qed.
Lemma ledger_other v v' o l : v' <> v -> ledger v' (with_ledger v o l) = ledger v' o.
Proof. by destruct v, v'. Qed.
Lemma hybrid_with v o l : hybrid (with_ledger v o l) = hybrid o.
Proof. by destruct v. Qed.

Lemma insert_query_observation_ok v o q row o' : insert_query_observation v o q row = Ok o' ->
  exists m, o' = with_ledger v o (with_query_observations (ledger v o) m).
Proof.
  unfold insert_query_observation. intros [_ E]%fail_if_bind_ok. apply fail_if_bind_ok in E as [_ E]. apply fail_if_bind_ok in E as [_ [= <-]]. by eexists.
Qed.

Lemma settle_row_ok v o q a c d pr ca e now err o' : settle_row v o q a c d pr ca e now err = Ok o' -> exists r,
  rows (ledger v o) !! q = Some r /\ qState r = exposureReserved /\ valid_sha256_text d = true /\
  o' = with_ledger v o (with_rows (ledger v o) (<[q := MkReservationRow (qTask r) (qRoot r) (qProfile r) "SETTLED" (qEstimated r) a c d e pr ca (Some now)]> (rows (ledger v o)))).
Proof.
  unfold settle_row. destruct (rows (ledger v o) !! q) as [r|]; [|done]. intros [Hs%negb_false_iff%bool_decide_eq_true E]%fail_if_bind_ok.
  apply fail_if_bind_ok in E as [Hc [= <-]]. rewrite !orb_false_iff, !negb_false_iff in Hc. destruct Hc as [[[[_ _] Hv] _] _]. by exists r.
Qed.

Lemma observation_inserted v o d row e o' : insert_observation v o d row e = Ok o' -> exists m, o' = with_ledger v o (with_observations (ledger v o) m) /\
  m !! d = Some row /\ (forall k y, observations (ledger v o) !! k = Some y -> m !! k = Some y) /\
  (forall k y, m !! k = Some y -> observations (ledger v o) !! k = Some y \/ k = d /\ y = row).
Proof.
  unfold insert_observation. intros [_ E]%fail_if_bind_ok. destruct (observations (ledger v o) !! d) as [old|] eqn:Eo.
  - apply fail_if_bind_ok in E as [->%negb_false_iff%bool_decide_eq_true [= <-]]. exists (observations (ledger v o)). split; [by destruct o as [? ? ? ? [] []], v|]. auto.
  - apply Ok_inj in E as <-. eexists. split; [reflexivity|]. split; [apply lookup_insert_eq|]. split.
    + intros k y Hk. rewrite lookup_insert_ne; [done|]. intros <-. congruence.
    + intros k y [[<- <-]|[_ Hk]]%lookup_insert_Some; auto.
Qed.

(** ** An observation in the tables *)
Record persisted v o o1 (d : string) b : Prop := {
  pe_le : tables_le (hybrid o) (hybrid o1);
  pe_ok : tables_ok (B := B) (hybrid o1);
  pe_heads : heads (ledger v o1) = heads (ledger v o);
  pe_rows : rows (ledger v o1) = rows (ledger v o);
  pe_roots : root_observations (ledger v o1) = root_observations (ledger v o);
  pe_kept k y : observations (ledger v o) !! k = Some y -> observations (ledger v o1) !! k = Some y;
  pe_new k y : observations (ledger v o1) !! k = Some y -> observations (ledger v o) !! k = Some y \/ k = d /\ y = b;
  pe_observation : observations (ledger v o1) !! d = Some b;
  pe_other v' : v' <> v -> ledger v' o1 = ledger v' o;
}.

Lemma persisted_already v o d b : ordinal_ok o -> observations (ledger v o) !! d = Some b -> persisted v o o d b.
Proof. intros K Hb. split; [done|apply K|done|done|done|by auto|by auto|done|done]. Qed.

(** The head and the list of what the root has seen move. *)
Record progressed v o o2 (root d : string) h h' (dict : string) (obs : part -> list content) (c : ExposureLimits) : Prop := {
  pg_charged : charged_head (B := B) v (hybrid o) h dict obs c (hybrid o2) h';
  pg_heads : heads (ledger v o2) = <[root := h']> (heads (ledger v o));
  pg_rows : rows (ledger v o2) = rows (ledger v o);
  pg_observations : observations (ledger v o2) = observations (ledger v o);
  pg_kept k ro : root_observations (ledger v o) !! k = Some ro -> root_observations (ledger v o2) !! k = Some ro;
  pg_new k ro : root_observations (ledger v o2) !! k = Some ro -> root_observations (ledger v o) !! k = Some ro \/ k = (root, d) /\ 0 <= roFirstEpoch ro <= hEpoch h';
  pg_seen : is_Some (root_observations (ledger v o2) !! (root, d));
  pg_other v' : v' <> v -> ledger v' o2 = ledger v' o;
}.

(** What a settlement did. *)
Definition settles v o o' (q : string) r h h' (obs : part -> list content) (c : ExposureLimits) (d : string) b : Prop :=
  exists t r', tables_le (hybrid o) t /\ settlement (B := B) v t (hybrid o') (ledger v o) (ledger v o') q r r' h h' obs c d b.

Lemma settle_finish v o o1 o2 o3 o4 q r h h' obs c d b row a pr ca e now err : ordinal_ok o -> persisted v o o1 d b ->
  progressed v o1 o2 (qRoot r) d h h' (bDictionarySet b) obs c -> bDictionarySet b <> "" ->
  (forall p, hybrid_part v p -> set_of (B := B) (hybrid o1) (bDictionarySet b) (observed_set p b) (obs p) /\ limit_of p (bActual b) = Z.of_nat (length (obs p))) ->
  rows (ledger v o) !! q = Some r -> heads (ledger v o) !! qRoot r = Some h ->
  insert_query_observation v o2 q row = Ok o3 -> settle_row v o3 q a c d pr ca e now err = Ok o4 ->
  ordinal_ok o4 /\ advance o o4 /\ settles v o o4 q r h h' obs c d b.
Proof.
  intros K P G Hne Hsets Hr Hh (m & ->)%insert_query_observation_ok (r2 & Hr2 & Hst & _ & ->)%settle_row_ok. rewrite ledger_with in *. cbn [rows with_query_observations] in *.
  rewrite (pg_rows _ _ _ _ _ _ _ _ _ _ G), (pe_rows _ _ _ _ _ P) in *. rewrite Hr in Hr2. injection Hr2 as <-.
  pose proof (pg_charged _ _ _ _ _ _ _ _ _ _ G) as Hc. set (o4 := with_ledger v _ _).
  assert (hybrid o4 = hybrid o2) as Eh by (unfold o4; by rewrite !hybrid_with). assert (ledger_ok (B := B) v (hybrid o1) (ledger v o)) as Kl by (eapply ledger_ok_le; [apply P|apply K]).
  assert (exists r', settlement (B := B) v (hybrid o1) (hybrid o4) (ledger v o) (ledger v o4) q r r' h h' obs c d b) as (r' & S).
  { eexists. rewrite Eh. unfold o4. rewrite !ledger_with. split; cbn [heads rows observations root_observations with_rows with_query_observations];
      rewrite ?(pg_heads _ _ _ _ _ _ _ _ _ _ G), ?(pg_observations _ _ _ _ _ _ _ _ _ _ G), ?(pe_heads _ _ _ _ _ P).
    - done.
    - done.
    - done.
    - done.
    - by rewrite Hst.
    - reflexivity.
    - done.
    - apply P.
    - apply P.
    - by apply (pe_observation _ _ _ _ _ P).
    - done.
    - intros p Hv. destruct (Hsets p Hv) as [Hs Hl]. split; [|done]. eapply set_of_le; [apply Hc|done].
    - intros k ro Hk. apply (pg_kept _ _ _ _ _ _ _ _ _ _ G). by rewrite (pe_roots _ _ _ _ _ P).
    - intros k ro [Hk|Hk]%(pg_new _ _ _ _ _ _ _ _ _ _ G); [left|by right]. by rewrite <- (pe_roots _ _ _ _ _ P).
    - apply G. }
  assert (tables_le (hybrid o) (hybrid o4)) as L by (rewrite Eh; etrans; [apply P|apply Hc]).
  destruct (advance_ledger v o o4 K) as [K' A].
  - rewrite Eh. apply Hc.
  - done.
  - intros v' Hv. unfold o4. rewrite !ledger_other by done. rewrite (pg_other _ _ _ _ _ _ _ _ _ _ G) by done. by apply P.
  - by eapply settled_ok.
  - by eapply settled_later.
  - split; [done|]. split; [done|]. exists (hybrid o1), r'. split; [apply P|done].
Qed.

(** ** Observations *)
Definition observation_input x : Prop := input_ok (xRelease x) /\ input_ok (xInfluence x) /\ input_ok (xOutcome x).

Lemma valid_nonempty d : valid_sha256_text d = true -> d <> "".
Proof. by intros Hv ->. Qed.

Lemma ready_set_of t dict n : ready t dict n -> stored (B := B) t dict n -> set_of t dict (digest n) (set_contents n) /\ cardinality n = Z.of_nat (length (set_contents n)).
Proof. intros [Hn _] S. split; [by apply set_of_stored|by apply (cardinality_contents dict)]. Qed.

Lemma normalize_released_ok s t q x t' rel inf : tables_ok (B := B) t -> observation_input x -> normalize_released s t q x = Ok (t', rel, inf) ->
  tables_le t t' /\ tables_ok (B := B) t' /\ ready t' (xDictionarySet x) rel /\ ready t' (xDictionarySet x) inf.
Proof.
  intros Hok (I1 & I2 & _). unfold normalize_released. intros ([t1 r1] & H1%map_err_ok & E)%bind_ok. apply bind_ok in E as ([t2 r2] & H2%map_err_ok & [= <- <- <-]).
  apply normalize_set_ok in H1 as (L1 & O1 & R1 & _); [|done]. apply normalize_set_ok in H2 as (L2 & O2 & R2 & _); [|done].
  split; [by etrans|]. split; [auto|]. split; [by eapply ready_le|done].
Qed.

Lemma normalize_v4_ok s q x t' n : tables_ok (B := B) (hybrid (ordinal s)) -> observation_input x -> normalizeOrdinalObservationTx s q x = Ok (t', n) ->
  tables_le (hybrid (ordinal s)) t' /\ tables_ok (B := B) t' /\ (forall p, ready t' (oDictionarySet n) (observed n p)) /\ set_contents (oOutcome n) <> [] /\ oDictionarySet n <> "".
Proof.
  intros Hok Hin. unfold normalizeOrdinalObservationTx. intros [G E]%fail_if_bind_ok. rewrite orb_false_iff, !negb_false_iff in G. destruct G as [_ G%valid_nonempty].
  destruct (catalogs _ _ _) as [[sc qc]|]; [|done]. apply fail_if_bind_ok in E as [_ E]. apply bind_ok in E as ([[t1 rel] inf] & H1%normalize_released_ok & E); [|done..].
  destruct H1 as (L1 & O1 & R1 & R2). apply bind_ok in E as ([t2 out] & H2%map_err_ok & E). apply normalize_set_ok in H2 as (L2 & O2 & R3 & _); [|apply Hin].
  apply fail_if_bind_ok in E as [Gc E]. rewrite orb_false_iff, !negb_false_iff, !Z.eqb_eq in Gc. destruct Gc as [_ Gc]. cbv zeta in E. apply fail_if_bind_ok in E as [_ [= <- <-]].
  cbn [oDictionarySet oOutcome observed oRelease oInfluence]. split; [by etrans|]. split; [auto|]. split; [|split; [|done]].
  - intros []; [by eapply ready_le|by eapply ready_le|done].
  - intros E%(f_equal length). unfold set_contents, contents, hashes in E. rewrite length_app, !length_map in E. destruct R3 as [Hn _].
    pose proof (nm_dynamic _ _ Hn). cbn in E. lia.
Qed.

Lemma persist_v4_ok s t n o1 : tables_ok (B := B) t -> tables_le (hybrid (ordinal s)) t -> (forall p, ready t (oDictionarySet n) (observed n p)) ->
  persistOrdinalObservationTx (with_hybrid (ordinal s) t) n = Ok o1 ->
  persisted V4 (ordinal s) o1 (oDigest n) (observation_v4 n) /\ tables_le t (hybrid o1) /\ (forall p, stored (B := B) (hybrid o1) (oDictionarySet n) (observed n p)).
Proof.
  intros Hok L0 Hr. unfold persistOrdinalObservationTx. intros (t' & Ht & E)%bind_ok. cbn [hybrid with_hybrid] in Ht.
  apply persist_sets_ok in Ht as (Hok' & L & S); [|done|].
  2: { apply Forall_cons; split; [apply (Hr PRelease)|]. apply Forall_cons; split; [apply (Hr PInfluence)|]. apply Forall_cons; split; [apply (Hr POutcome)|constructor]. }
  apply Forall_cons in S as [S1 S]. apply Forall_cons in S as [S2 S]. apply Forall_cons in S as [S3 _].
  apply observation_inserted in E as (m & -> & Hm & Hk & Hn). split; [|split; [done|by intros []]].
  split; [by etrans|done|done|done|done|done|done|done|]. by intros [].
Qed.

Lemma v4_sets t n p : ready t (oDictionarySet n) (observed (B := B) n p) -> stored t (oDictionarySet n) (observed n p) ->
  set_of t (bDictionarySet (observation_v4 n)) (observed_set p (observation_v4 n)) (set_contents (observed n p)) /\
  limit_of p (bActual (observation_v4 n)) = Z.of_nat (length (set_contents (observed n p))).
Proof. intros R S. apply (ready_set_of _ _ _ R) in S as [S E]. by destruct p. Qed.

(** A root that has seen an observation contains it. *)
Lemma seen_charged v o root d ro b (obs : part -> list content) t : ordinal_ok o -> tables_le (hybrid o) t -> tables_ok (B := B) t -> root_observations (ledger v o) !! (root, d) = Some ro ->
  (forall y, observations (ledger v o) !! d = Some y -> y = b) ->
  (forall p, hybrid_part v p -> set_of (B := B) t (bDictionarySet b) (observed_set p b) (obs p)) ->
  exists h, heads (ledger v o) !! root = Some h /\ charged_head v t h (bDictionarySet b) obs zero_limits t h.
Proof.
  intros K L Hok Hro Hb Hobs. destruct (lo_seen _ _ _ (oo_ledger _ K v) root d ro Hro) as (h & y & Hh & Hy & [Hd Hs] & _). apply Hb in Hy as ->.
  exists h. split; [done|]. assert (head_ok (B := B) v t h) as Kh by (eapply head_ok_le; [done|by eapply (lo_head _ _ _ (oo_ledger _ K v))]).
  apply (stale_nothing v t _ h); [done|done|by apply grows_refl|done|]. intros p Hv. destruct (Hs p Hv) as (X & Y & HX & HY & Hsub). exists Y. split; [by eapply head_contents_le|].
  apply novelty_nil. destruct (set_of_unique _ _ _ _ _ _ (set_of_le _ _ _ _ _ L HX) (Hobs p Hv)) as [_ <-]. done.
Qed.

(** ** Settlements *)

(** The tables of a profile as an earlier statement saw them. *)
Definition read_from v l o : Prop := exists a, l = ledger v a /\ ordinal_ok a /\ advance a o.

Lemma read_current v o : ordinal_ok o -> read_from v (ledger v o) o.
Proof. intros K. exists o. split; [done|]. split; [done|by apply advance_refl]. Qed.

Lemma read_head v l o root h0 : read_from v l o -> heads l !! root = Some h0 ->
  exists h, heads (ledger v o) !! root = Some h /\ head_ok (B := B) v (hybrid o) h0 /\ grows (B := B) v (hybrid o) h0 h.
Proof.
  intros (a & -> & K & A) Hh. destruct (lt_head _ _ _ _ (ad_ledger _ _ A v) root h0 Hh) as (h & Hh' & G). exists h. split; [done|]. split; [|done].
  eapply head_ok_le; [apply A|]. by eapply (lo_head _ _ _ (oo_ledger _ K v)).
Qed.

Lemma read_seen v l o k : read_from v l o -> is_Some (root_observations l !! k) -> is_Some (root_observations (ledger v o) !! k).
Proof. intros (a & -> & K & A) [ro Hro]. exists ro. by apply (lt_seen _ _ _ _ (ad_ledger _ _ A v)). Qed.

(** A settlement that follows the head but for [insert_root_observation]. *)
Lemma progressed_seen v o o1 root d h h' dict obs c t' st q e : heads (ledger v o) !! root = Some h ->
  charged_head (B := B) v (hybrid o) h dict obs c t' h' ->
  o1 = with_ledger v (with_outcomes (with_hybrid o t') st) (with_heads (ledger v o) (<[root := h']> (heads (ledger v o)))) ->
  0 <= e <= hEpoch h' -> progressed v o (insert_root_observation v o1 root d q e).1 root d h h' dict obs c.
Proof.
  intros Hh Hc -> He. unfold insert_root_observation. rewrite ledger_with. cbn [root_observations with_heads]. destruct (root_observations (ledger v o) !! (root, d)) as [ro|] eqn:Ero; cbn [fst].
  - split; rewrite ?hybrid_with, ?ledger_with; cbn; [done|done|done|done|done|by auto|by eexists|]. intros v' Hv. rewrite ledger_other by done. by destruct v'.
  - split; rewrite ?hybrid_with, ?ledger_with; cbn; [done|done|done|done| | |by rewrite lookup_insert_eq; eexists|].
    + intros k r0 Hk. rewrite lookup_insert_ne; [done|]. intros <-. congruence.
    + intros k r0 [[<- <-]|[_ Hk]]%lookup_insert_Some; [by right|by left].
    + intros v' Hv. rewrite !ledger_other by done. by destruct v'.
Qed.

Lemma progressed_same v o root d h dict obs : heads (ledger v o) !! root = Some h -> charged_head (B := B) v (hybrid o) h dict obs zero_limits (hybrid o) h ->
  is_Some (root_observations (ledger v o) !! (root, d)) -> progressed v o o root d h h dict obs zero_limits.
Proof. intros Hh Hc Hs. split; [done|by rewrite insert_id|done|done|by auto|by auto|done|done]. Qed.

(** The result of a settlement: nothing but new facts, or the settlement of a reserved query. *)
Definition settle_result v o o' (q : string) (charge : ExposureCharge) : Prop := exists r, rows (ledger v o) !! q = Some r /\
  ((qState r = exposureSettled /\ (forall v, ledger v o' = ledger v o)) \/
   (qState r = exposureReserved /\ exists h h' obs c d b, settles v o o' q r h h' obs c d b /\ ExposureLedger.cCharged charge = c /\
      ExposureLedger.cObservationSHA256 charge = d /\ ExposureLedger.cActual charge = bActual b)).

Lemma settle_v4_ok read seen s now q x s' charge : ordinal_ok (ordinal s) -> observation_input x -> read_from V4 read (ordinal s) -> read_from V4 seen (ordinal s) ->
  settleOrdinalExposureMeasuredTx read seen s now q x = Ok (s', charge) ->
  ordinal_ok (ordinal s') /\ advance (ordinal s) (ordinal s') /\ settle_result V4 (ordinal s) (ordinal s') q charge.
Proof.
  intros K Hin Hread Hseen. unfold settleOrdinalExposureMeasuredTx. cbv zeta. intros (r & Hr & E)%bind_ok.
  assert (rows (ledger V4 (ordinal s)) !! q = Some r) as Hrow by (cbn; destruct (rows _ !! q); [by injection Hr as ->|done]). clear Hr.
  apply bind_ok in E as ([t n] & (L0 & Hok & Hready & Hout & Hdict)%normalize_v4_ok & E); [|apply K|done].
  destruct (same (qState r) exposureSettled) eqn:Es.
  - apply same_true in Es. apply fail_if_bind_ok in E as [_ [= <- <-]]. destruct (advance_hybrid (B := B) (ordinal s) (with_hybrid (ordinal s) t) K Hok L0) as [K' A]; [by intros []|].
    split; [exact K'|]. split; [exact A|]. exists r. split; [done|]. left. split; [done|]. by intros [].
  - apply same_false in Es. apply fail_if_bind_ok in E as [Est%negb_false_iff%same_true E].
    apply bind_ok in E as (o1 & (P & L1 & St)%persist_v4_ok & E); [|done..]. apply bind_ok in E as (h0 & Hh0%select_ok & E). apply bind_ok in E as ([] & _ & E).
    apply bind_ok in E as ([[o2 c] e] & Hmid & E). apply bind_ok in E as (o3 & Hq & E). apply bind_ok in E as (o4 & Hs & E). apply bind_ok in E as (s4 & [_ Ha]%OrdinalFrame.step_audited & [= <- <-]).
    rewrite Ha. cbn [ordinal with_ordinal]. assert (exists h, heads (ledger V4 (ordinal s)) !! qRoot r = Some h) as [h Hh] by (by apply (lo_root _ _ _ (oo_ledger _ K V4) q)).
    assert (forall p, ready (hybrid o1) (oDictionarySet n) (observed n p)) as Hready1 by (intros p; by eapply ready_le).
    assert (exists h', progressed V4 o1 o2 (qRoot r) (oDigest n) h h' (oDictionarySet n) (fun p => set_contents (observed n p)) c) as [h' G].
    + assert (heads (ledger V4 o1) !! qRoot r = Some h) as Hh1 by (by rewrite (pe_heads _ _ _ _ _ P)).
      case_bool_decide as Hseen0.
      * apply bind_ok in Hmid as (ep & _ & [= <- <- <-]). apply (read_seen _ _ _ _ Hseen) in Hseen0. pose proof Hseen0 as [ro Hro].
        destruct (seen_charged V4 (ordinal s) (qRoot r) (oDigest n) ro (observation_v4 n) (fun p => set_contents (observed n p)) (hybrid o1) K (pe_le _ _ _ _ _ P) (pe_ok _ _ _ _ _ P) Hro) as (hx & Hhx & Hc).
        { intros y Hy%(pe_kept _ _ _ _ _ P). pose proof (pe_observation _ _ _ _ _ P). congruence. }
        { intros p _. by apply v4_sets. }
        rewrite Hh in Hhx. injection Hhx as <-. exists h. apply progressed_same; [done|done|]. by rewrite (pe_roots _ _ _ _ _ P).
      * unfold unseen_v4 in Hmid. apply bind_ok in Hmid as ([[o2' c'] e'] & Hc & Hmid). destruct (read_head _ _ _ _ _ Hread Hh0) as (hx & Hhx & Kh0 & Hg).
        rewrite Hh in Hhx. injection Hhx as <-. pose proof (pe_le _ _ _ _ _ P) as LP. apply (charge_v4_ok s o1 r n h0 h) in Hc as (t' & h' & -> & Hch & He & He0).
        -- exists h'. assert (o2 = (insert_root_observation V4 (with_ledger V4 (with_hybrid o1 t') (with_heads (v4 o1) (<[qRoot r:=h']> (heads (v4 o1))))) (qRoot r) (oDigest n) q e').1 /\ c' = c) as [-> ->].
           { destruct (insert_root_observation _ _ _ _ _ _) as [oi []]; [by injection Hmid as -> -> _|]. apply fail_if_bind_ok in Hmid as [_ Hmid]. apply bind_ok in Hmid as (? & _ & [= <- <- _]). done. }
           eapply (progressed_seen V4 o1 _ _ _ _ _ _ _ _ t' (outcomes o1)); [done|exact Hch|by destruct o1|lia].
        -- apply P.
        -- by eapply head_ok_le.
        -- done.
        -- eapply head_ok_le; [done|]. by eapply (lo_head _ _ _ (oo_ledger _ K V4)).
        -- by eapply grows_le.
        -- intros p. by eapply ready_usable.
        -- done.
        -- done.
    + destruct (settle_finish V4 (ordinal s) o1 o2 o3 o4 q r h h' (fun p => set_contents (observed n p)) c (oDigest n) (observation_v4 n) _ _ _ _ _ _ _ K P G Hdict
        (fun p _ => v4_sets _ _ p (Hready1 p) (St p)) Hrow Hh Hq Hs) as (K' & A & S).
      split; [done|]. split; [done|]. exists r. split; [done|]. right. split; [done|]. exists h, h', (fun p => set_contents (observed n p)), c, (oDigest n), (observation_v4 n). done.
Qed.

Lemma normalize_v5_ok s q x t' n : tables_ok (B := B) (hybrid (ordinal s)) -> observation_input x -> normalizeV5ObservationTx s q x = Ok (t', n) ->
  tables_le (hybrid (ordinal s)) t' /\ tables_ok (B := B) t' /\ ready t' (vDictionarySet n) (vRelease n) /\ ready t' (vDictionarySet n) (vInfluence n) /\ vDictionarySet n <> "".
Proof.
  intros Hok Hin. unfold normalizeV5ObservationTx. intros [G E]%fail_if_bind_ok. rewrite orb_false_iff, !negb_false_iff in G. destruct G as [_ G%valid_nonempty].
  apply bind_ok in E as ([sc qc] & _ & E). apply fail_if_bind_ok in E as [_ E]. apply bind_ok in E as ([[t1 rel] inf] & H1%normalize_released_ok & E); [|done..].
  destruct H1 as (L1 & O1 & R1 & R2). apply fail_if_bind_ok in E as [_ E]. apply bind_ok in E as ([facts metadata] & _ & E). apply bind_ok in E as (out & _ & E).
  cbv zeta in E. by apply fail_if_bind_ok in E as [_ [= <- <-]].
Qed.

Lemma persist_v5_ok s t known q cat n o1 : tables_ok (B := B) t -> tables_le (hybrid (ordinal s)) t -> ready t (vDictionarySet n) (vRelease n) -> ready t (vDictionarySet n) (vInfluence n) ->
  persistV5OutcomeTx (with_hybrid (ordinal s) t) known q cat n = Ok o1 ->
  vFacts n <> [] /\ persisted V5 (ordinal s) o1 (vDigest n) (observation_v5 n) /\ tables_le t (hybrid o1) /\
  stored (B := B) (hybrid o1) (vDictionarySet n) (vRelease n) /\ stored (B := B) (hybrid o1) (vDictionarySet n) (vInfluence n).
Proof.
  intros Hok L0 R1 R2. unfold persistV5OutcomeTx. intros [Hne E]%fail_if_bind_ok. apply bind_ok in E as (m & _ & E). apply bind_ok in E as (st & _ & E).
  apply bind_ok in E as (t' & Ht & E). cbn [hybrid with_hybrid] in Ht. apply persist_sets_ok in Ht as (Hok' & L & S); [|done|by apply Forall_cons; split; [|apply Forall_cons; split; [|constructor]]].
  apply Forall_cons in S as [S1 S]. apply Forall_cons in S as [S2 _]. apply observation_inserted in E as (ob & -> & Hm & Hk & Hn). split; [intros E0; by rewrite E0 in Hne|]. split; [|done].
  split; [by etrans|done|done|done|done|done|done|done|]. by intros [].
Qed.

Lemma v5_sets t n p : hybrid_part V5 p -> ready t (vDictionarySet n) (observed_v5 (B := B) n p) -> stored t (vDictionarySet n) (observed_v5 n p) ->
  set_of t (bDictionarySet (observation_v5 n)) (observed_set p (observation_v5 n)) (set_contents (observed_v5 n p)) /\
  limit_of p (bActual (observation_v5 n)) = Z.of_nat (length (set_contents (observed_v5 n p))).
Proof. intros [?|Hp] R S; [done|]. apply (ready_set_of _ _ _ R) in S as [S E]. by destruct p. Qed.

Lemma settle_v5_ok read s now q x s' charge : ordinal_ok (ordinal s) -> observation_input x -> read_from V5 read (ordinal s) ->
  settleV5ExposureMeasuredTx read s now q x = Ok (s', charge) ->
  ordinal_ok (ordinal s') /\ advance (ordinal s) (ordinal s') /\ settle_result V5 (ordinal s) (ordinal s') q charge.
Proof.
  intros K Hin Hread. unfold settleV5ExposureMeasuredTx. cbv zeta. intros (r & Hrow%select_ok & E)%bind_ok.
  apply bind_ok in E as ([t n] & (L0 & Hok & R1 & R2 & Hdict)%normalize_v5_ok & E); [|apply K|done]. apply fail_if_bind_ok in E as [_ E].
  destruct (same (qState r) exposureSettled) eqn:Es.
  - apply same_true in Es. apply fail_if_bind_ok in E as [_ E]. apply bind_ok in E as (ch & _ & [= <- <-]).
    destruct (advance_hybrid (B := B) (ordinal s) (with_hybrid (ordinal s) t) K Hok L0) as [K' A]; [by intros []|].
    split; [exact K'|]. split; [exact A|]. exists r. split; [done|]. left. split; [done|]. by intros [].
  - apply same_false in Es. apply fail_if_bind_ok in E as [Est%negb_false_iff%same_true E]. apply bind_ok in E as (query & _ & E).
    apply bind_ok in E as (o1 & (Hfacts & P & L1 & St1 & St2)%persist_v5_ok & E); [|done..]. apply bind_ok in E as (h0 & Hh0%select_ok & E). apply bind_ok in E as ([] & _ & E).
    apply bind_ok in E as ([[[o2 c] kinds] e] & Hmid & E). destruct (insert_root_observation V5 o2 _ _ _ _) as [o2i ins] eqn:Eins.
    apply bind_ok in E as (o3 & Hq & E). apply bind_ok in E as (o4 & Hs & E). apply bind_ok in E as (s4 & [_ Ha]%OrdinalFrame.step_audited & [= <- <-]).
    rewrite Ha. cbn [ordinal with_ordinal]. assert (exists h, heads (ledger V5 (ordinal s)) !! qRoot r = Some h) as [h Hh] by (by apply (lo_root _ _ _ (oo_ledger _ K V5) q)).
    apply (ready_le _ (hybrid o1)) in R1, R2; [|done..]. pose proof (pe_le _ _ _ _ _ P) as LP.
    assert (forall p, ready (hybrid o1) (vDictionarySet n) (observed_v5 n p) /\ stored (hybrid o1) (vDictionarySet n) (observed_v5 n p)) as Hready1 by (by intros []).
    assert (exists h', progressed V5 o1 o2i (qRoot r) (vDigest n) h h' (vDictionarySet n) (fun p => set_contents (observed_v5 n p)) c) as [h' G].
    { assert (heads (ledger V5 o1) !! qRoot r = Some h) as Hh1 by (by rewrite (pe_heads _ _ _ _ _ P)). destruct (read_head _ _ _ _ _ Hread Hh0) as (hx & Hhx & Kh0 & Hg).
      rewrite Hh in Hhx. injection Hhx as <-. apply (charge_v5_ok s o1 r n h0 h) in Hmid as (t' & st' & h' & -> & Hch & ->).
      - exists h'. replace o2i with (insert_root_observation V5 (with_ledger V5 (with_outcomes (with_hybrid o1 t') st') (with_heads (v5 o1) (<[qRoot r:=h']> (heads (v5 o1))))) (qRoot r) (vDigest n) q (hEpoch h')).1 by (by rewrite Eins).
        eapply (progressed_seen V5 o1 _ _ _ _ _ _ _ _ t' st'); [done|exact Hch|done|]. pose proof (ho_epoch _ _ _ (ch_head _ _ _ _ _ _ _ _ Hch)). lia.
      - apply P.
      - by eapply head_ok_le.
      - done.
      - eapply head_ok_le; [done|]. by eapply (lo_head _ _ _ (oo_ledger _ K V5)).
      - by eapply grows_le.
      - by eapply ready_usable.
      - by eapply ready_usable.
      - done.
      - done. }
    destruct (settle_finish V5 (ordinal s) o1 o2i o3 o4 q r h h' (fun p => set_contents (observed_v5 n p)) c (vDigest n) (observation_v5 n) _ _ _ _ _ _ _ K P G Hdict
      (fun p Hp => v5_sets _ _ p Hp (proj1 (Hready1 p)) (proj2 (Hready1 p))) Hrow Hh Hq Hs) as (K' & A & S).
    split; [done|]. split; [done|]. exists r. split; [done|]. right. split; [done|]. exists h, h', (fun p => set_contents (observed_v5 n p)), c, (vDigest n), (observation_v5 n). done.
Qed.

(** ** References *)

Lemma referenced_ok v s root d q b seen head sc qc : referenced v s root d q = Some (b, seen, head, sc, qc) ->
  root_observations (ledger v (ordinal s)) !! (root, d) = Some seen /\ observations (ledger v (ordinal s)) !! d = Some b /\ heads (ledger v (ordinal s)) !! root = Some head.
Proof.
  unfold referenced. cbv zeta. destruct (root_observations _ !! _); cbn; [|done]. destruct (observations _ !! _); cbn; [|done]. destruct (heads _ !! _); cbn; [|done].
  destruct (dictionary_sets _ !! _); cbn; [|done]. destruct (queries s !! q); cbn; [|done]. by intros [= -> -> -> _ _].
Qed.

(** What a reference settles: the observation its root has seen. *)
Lemma reference_ok v s q r d b seen head sc qc o3 o4 row pr ca e now err : ordinal_ok (ordinal s) -> rows (ledger v (ordinal s)) !! q = Some r ->
  referenced v s (qRoot r) d q = Some (b, seen, head, sc, qc) ->
  insert_query_observation v (ordinal s) q row = Ok o3 -> settle_row v o3 q (bActual b) zero_limits d pr ca e now err = Ok o4 ->
  ordinal_ok o4 /\ advance (ordinal s) o4 /\ exists obs, settles v (ordinal s) o4 q r head head obs zero_limits d b.
Proof.
  intros K Hr (Ero & Eb & Eh)%referenced_ok Hq Hs.
  destruct (lo_observation _ _ _ (oo_ledger _ K v) d b Eb) as [Hne Hob].
  assert (exists obs : part -> list content, forall p, hybrid_part v p -> set_of (B := B) (hybrid (ordinal s)) (bDictionarySet b) (observed_set p b) (obs p) /\ limit_of p (bActual b) = Z.of_nat (length (obs p))) as [obs Hobs].
  { exists (fun p => match loadOrdinalSetTx (hybrid (ordinal s)) (observed_set p b) with Ok (set, _) => set_contents (B := B) set | Err _ => [] end).
    intros p Hp. destruct (Hob p Hp) as (X & HX & HE). destruct (set_of_load _ _ _ _ HX) as (set & -> & _ & Hc & _). unfold set_contents. rewrite Hc. done. }
  destruct (seen_charged v (ordinal s) (qRoot r) d seen b obs (hybrid (ordinal s)) K ltac:(done) (oo_tables _ K) Ero) as (h' & Hh & Hc).
  { intros y Hy. congruence. }
  { intros p Hp. by apply Hobs. }
  rewrite Eh in Hh. injection Hh as <-.
  destruct (settle_finish v (ordinal s) (ordinal s) (ordinal s) o3 o4 q r head head obs zero_limits d b _ _ _ _ _ _ _ K (persisted_already v _ d b K Eb)
    (progressed_same v _ _ _ _ _ _ Eh Hc ltac:(by eexists)) Hne Hobs Hr Eh Hq Hs) as (K' & A & S). split; [done|]. split; [done|]. by exists obs.
Qed.

(** The result of a reference, before the query was settled and after. *)
Definition reference_result v s s' (q d : string) (charge : ExposureCharge) : Prop := exists r, rows (ledger v (ordinal s)) !! q = Some r /\
  ((qState r = exposureSettled /\ s' = s) \/
   (qState r = exposureReserved /\ exists head obs b, settles v (ordinal s) (ordinal s') q r head head obs zero_limits d b /\
      observations (ledger v (ordinal s)) !! d = Some b /\ is_Some (root_observations (ledger v (ordinal s)) !! (qRoot r, d)) /\
      ExposureLedger.cCharged charge = zero_limits /\ ExposureLedger.cObservationSHA256 charge = d /\ ExposureLedger.cActual charge = bActual b)).

Lemma reference_settle_result v s s' q d charge : reference_result v s s' q d charge -> settle_result v (ordinal s) (ordinal s') q charge.
Proof.
  intros (r & Hr & [[Hs ->]|(Hs & head & obs & b & S & _ & _ & Ec & Ed & Ea)]); exists r; (split; [done|]); [by left|right]. split; [done|].
  by exists head, head, obs, zero_limits, d, b.
Qed.

(** From the reserved query to the end of a reference. *)
Lemma reference_settled v s q r d b seen head sc qc o3 o4 row pr ca e now err task kind s4 : ordinal_ok (ordinal s) -> rows (ledger v (ordinal s)) !! q = Some r ->
  qState r = exposureReserved -> referenced v s (qRoot r) d q = Some (b, seen, head, sc, qc) ->
  insert_query_observation v (ordinal s) q row = Ok o3 -> settle_row v o3 q (bActual b) zero_limits d pr ca e now err = Ok o4 ->
  audited (with_ordinal s o4) task q kind now = Ok s4 -> forall charge, ExposureLedger.cCharged charge = zero_limits -> ExposureLedger.cObservationSHA256 charge = d ->
  ExposureLedger.cActual charge = bActual b -> ordinal_ok (ordinal s4) /\ advance (ordinal s) (ordinal s4) /\ reference_result v s s4 q d charge.
Proof.
  intros K Hr Est Href Hq Hs [_ Ha]%OrdinalFrame.step_audited charge Ec Ed Ea. destruct (reference_ok v s q r d b seen head sc qc _ _ _ _ _ _ _ _ K Hr Href Hq Hs) as (K' & A & obs & S).
  rewrite Ha. cbn [ordinal with_ordinal]. split; [done|]. split; [done|]. exists r. split; [done|]. right. split; [done|]. apply referenced_ok in Href as (Hro & Hb & _).
  exists head, obs, b. rewrite Ha. cbn [ordinal with_ordinal]. split; [done|]. split; [done|]. split; [by eexists|done].
Qed.

Lemma settle_ref_v4_ok s now q rf s' charge : ordinal_ok (ordinal s) -> settleOrdinalObservationRefMeasuredTx s now q rf = Ok (s', charge) ->
  ordinal_ok (ordinal s') /\ advance (ordinal s) (ordinal s') /\ reference_result V4 s s' q (rfObservation rf) charge.
Proof.
  intros K. unfold settleOrdinalObservationRefMeasuredTx. cbv zeta. intros [_ E]%fail_if_bind_ok. apply bind_ok in E as (r & Hr%select_ok & E).
  destruct (referenced _ _ _ _ _) as [[[[[b seen] head] sc] qc]|] eqn:Href; [|done]. apply fail_if_bind_ok in E as [_ E]. destruct (same (qState r) exposureSettled) eqn:Es.
  - apply same_true in Es. apply fail_if_bind_ok in E as [_ [= <- <-]]. split; [done|]. split; [by apply advance_refl|]. exists r. split; [done|]. by left.
  - apply fail_if_bind_ok in E as [Est%negb_false_iff%same_true E]. apply bind_ok in E as (o3 & Hq & E). apply bind_ok in E as (o4 & Hs & E).
    apply bind_ok in E as (s4 & Ha & [= <- <-]). by eapply (reference_settled V4).
Qed.

Lemma settle_ref_v5_ok s now q rf s' charge : ordinal_ok (ordinal s) -> settleV5ObservationRefMeasuredTx s now q rf = Ok (s', charge) ->
  ordinal_ok (ordinal s') /\ advance (ordinal s) (ordinal s') /\ reference_result V5 s s' q (rfObservation rf) charge.
Proof.
  intros K. unfold settleV5ObservationRefMeasuredTx. cbv zeta. intros [_ E]%fail_if_bind_ok. apply bind_ok in E as (r & Hr%select_ok & E).
  apply bind_ok in E as ([[[[b seen] head] sc] qc] & Href%select_ok & E). apply fail_if_bind_ok in E as [_ E]. destruct (same (qState r) exposureSettled) eqn:Es.
  - apply same_true in Es. apply fail_if_bind_ok in E as [_ E]. apply bind_ok in E as (ch & _ & [= <- <-]). split; [done|]. split; [by apply advance_refl|]. exists r. split; [done|]. by left.
  - apply fail_if_bind_ok in E as [Est%negb_false_iff%same_true E]. apply bind_ok in E as (o3 & Hq & E). apply bind_ok in E as (o4 & Hs & E).
    apply bind_ok in E as (s4 & Ha & [= <- <-]). by eapply (reference_settled V5).
Qed.

(** ** Heads and reservations *)
Lemma activate_v4_ok s task s' : ordinal_ok (ordinal s) -> activateV4CutoverTx s task = Ok s' -> ordinal_ok (ordinal s') /\ advance (ordinal s) (ordinal s').
Proof.
  intros K. unfold activateV4CutoverTx. destruct (cutover (ordinal s)); [intros [= <-]; split; [done|by apply advance_refl]|].
  intros [_ E]%fail_if_bind_ok. apply fail_if_bind_ok in E as [_ [= <-]]. apply advance_hybrid; [done|apply K|done|]. by intros [].
Qed.

Lemma new_head_ok v s root profile limits predicate now s' : ordinal_ok (ordinal s) -> heads (ledger v (ordinal s)) !! root = None ->
  insert_head v s (new_head root profile limits predicate now) = Ok s' -> ordinal_ok (ordinal s') /\ advance (ordinal s) (ordinal s').
Proof.
  intros K Hnone. unfold insert_head. cbv zeta. intros [Hp%negb_false_iff [= <-]]%fail_if_bind_ok. cbn [ordinal with_ordinal]. set (h := new_head root profile limits predicate now) in *.
  pose proof (oo_ledger _ K v) as Kl. assert (forall q r, rows (ledger v (ordinal s)) !! q = Some r -> qRoot r <> root) as Hrows.
  { intros q r Hr <-. destruct (lo_root _ _ _ Kl q r Hr). congruence. }
  assert (head_ok (B := B) v (hybrid (ordinal s)) h) as Kh.
  { unfold positive_limits in Hp. rewrite !andb_true_iff, !Z.ltb_lt in Hp. split; cbn; [done|intros []; cbn in *; lia|]. intros p _. exists []. split; [by left|by rewrite limit_zero]. }
  apply (advance_ledger v); rewrite ?hybrid_with, ?ledger_with; [done|apply K|done|intros v' Hv; by apply ledger_other| |].
  - split; cbn [heads rows observations root_observations with_heads].
    + intros r x [[<- <-]|[_ Hx]]%lookup_insert_Some; [done|]. by eapply (lo_head _ _ _ Kl).
    + intros r x p [[<- <-]|[_ Hx]]%lookup_insert_Some; [|by apply (lo_used _ _ _ Kl)]. cbn [hUsed h new_head]. rewrite limit_zero, msum_zero; [done|].
      intros q y Hy. unfold charged_in. by rewrite decide_False by (by eapply Hrows).
    + intros q r Hr. destruct (lo_root _ _ _ Kl q r Hr) as [x Hx]. cbn [hRootTaskID h new_head]. rewrite lookup_insert_ne by (intros E; by apply (Hrows q r Hr)). by exists x.
    + apply Kl.
    + apply Kl.
    + apply Kl.
    + intros r d ro Hro. destruct (lo_seen _ _ _ Kl r d ro Hro) as (x & b & Hx & Hb). exists x, b. split; [|done]. rewrite lookup_insert_ne; [done|]. cbn. intros <-. congruence.
  - split; cbn [heads rows observations root_observations with_heads]; [|by eauto|done]. intros r x Hx. exists x. split; [|apply grows_refl; by eapply (lo_head _ _ _ Kl)].
    rewrite lookup_insert_ne; [done|]. cbn. intros <-. congruence.
Qed.

Lemma ensure_ok v s task grant now s' : ordinal_ok (ordinal s) -> ExposureLedger.ord_ensure v s task grant now = Ok s' ->
  ordinal_ok (ordinal s') /\ advance (ordinal s) (ordinal s').
Proof.
  intros K. destruct v; cbn [ExposureLedger.ord_ensure ordinal_ledgers]; unfold ensureOrdinalExposureHeadTx, ensureV5ExposureHeadTx; intros [_ E]%fail_if_bind_ok;
    apply bind_ok in E as (s1 & [K1 A1]%activate_v4_ok & E); try done; apply bind_ok in E as (t & _ & E); cbv zeta in E; destruct (heads _ !! _) eqn:Eh.
  - by apply fail_if_bind_ok in E as [_ [= <-]].
  - apply fail_if_bind_ok in E as [_ E]. apply (new_head_ok V4) in E as [K2 A2]; [|done..]. split; [done|]. by eapply advance_trans.
  - by apply fail_if_bind_ok in E as [_ [= <-]].
  - apply fail_if_bind_ok in E as [_ E]. apply fail_if_bind_ok in E as [_ E]. destruct (ePredicateFootprint grant); [|done]. apply fail_if_bind_ok in E as [_ E].
    apply (new_head_ok V5) in E as [K2 A2]; [|done..]. split; [done|]. by eapply advance_trans.
Qed.

(** A row that is not settled, with the root of the row it replaces, if any. *)
Lemma open_row_ok v o q r0 : ordinal_ok o -> qState r0 <> exposureSettled -> qCharged r0 = zero_limits -> is_Some (heads (ledger v o) !! qRoot r0) ->
  (forall r, rows (ledger v o) !! q = Some r -> qRoot r = qRoot r0 /\ qState r <> exposureSettled) ->
  let o' := with_ledger v o (with_rows (ledger v o) (<[q := r0]> (rows (ledger v o)))) in ordinal_ok o' /\ advance o o'.
Proof.
  intros K Hs Hc Hroot Hold o'. pose proof (oo_ledger _ K v) as Kl. apply (advance_ledger v); unfold o'; rewrite ?hybrid_with, ?ledger_with; [done|apply K|done|intros v' Hv; by apply ledger_other| |].
  - split; cbn [heads rows observations root_observations with_rows]; [apply Kl| | | | |apply Kl|apply Kl].
    + intros root h p Hh. rewrite msum_set, (lo_used _ _ _ Kl root h p Hh). unfold charged_in at 4. rewrite Hc, limit_zero. destruct (rows (ledger v o) !! q) as [r|] eqn:Er; cbn.
      * destruct (Hold r eq_refl) as [_ Hr]. unfold charged_in at 3. rewrite (lo_open _ _ _ Kl q r Er Hr), limit_zero. repeat case_decide; lia.
      * repeat case_decide; lia.
    + intros q' r [[<- <-]|[_ Hr]]%lookup_insert_Some; [done|]. by apply (lo_root _ _ _ Kl q').
    + intros q' r [[<- <-]|[_ Hr]]%lookup_insert_Some; [done|]. by apply (lo_open _ _ _ Kl q').
    + intros q' r [[<- <-]|[_ Hr]]%lookup_insert_Some; [done|]. by apply (lo_settled _ _ _ Kl q').
  - split; cbn [heads rows observations root_observations with_rows]; [|  |done].
    + intros root h Hh. exists h. split; [done|]. apply grows_refl. by eapply (lo_head _ _ _ Kl).
    + intros q' r Hr. destruct (decide (q = q')) as [<-|?]; [|exists r; by rewrite lookup_insert_ne]. exists r0. rewrite lookup_insert_eq. split; [done|].
      destruct (Hold r Hr) as [-> Hne]. split; [done|]. by intros ?.
Qed.

Lemma reserve_ok v s q task e profile now s' : ordinal_ok (ordinal s) -> ExposureLedger.ord_reserve v s q task e profile now = Ok s' ->
  ordinal_ok (ordinal s') /\ advance (ordinal s) (ordinal s').
Proof.
  intros K. assert (forall v s' task root profile e, is_Some (heads (ledger v (ordinal s)) !! root) -> insert_reservation v s q task root profile e = Ok s' ->
    ordinal_ok (ordinal s') /\ advance (ordinal s) (ordinal s')) as Hi.
  { clear v s' task e profile. intros v s' task root profile e Hroot. unfold insert_reservation. cbv zeta. intros [Hno%bool_decide_eq_false E]%fail_if_bind_ok.
    apply fail_if_bind_ok in E as [_ [= <-]]. apply (open_row_ok v); [done|done|done|done|]. intros r Hr. destruct Hno. by eexists. }
  destruct v; cbn [ExposureLedger.ord_reserve ordinal_ledgers]; unfold reserveOrdinalExposureTx, reserveV5ExposureTx; intros (t & _ & E)%bind_ok;
    cbv zeta in E; apply bind_ok in E as (h & Hh%select_ok & E); destruct e; try done; apply fail_if_bind_ok in E as [_ E].
  - apply (Hi V4) in E; [done|by eexists].
  - apply (Hi V5) in E; [done|by eexists].
Qed.

Lemma release_ok v s now q s' : ordinal_ok (ordinal s) -> release_reservation v s now q = Ok s' -> ordinal_ok (ordinal s') /\ advance (ordinal s) (ordinal s').
Proof.
  intros K. unfold release_reservation. cbv zeta. intros (r & Hr%select_ok & E)%bind_ok. destruct (same _ exposureReleased); [intros; apply Ok_inj in E as <-; split; [done|by apply advance_refl]|].
  apply fail_if_bind_ok in E as [Hs%negb_false_iff%same_true E]. apply OrdinalFrame.step_audited in E as [_ ->]. cbn [ordinal with_ordinal].
  assert (qState r <> exposureSettled) as Hne by (by rewrite Hs). apply (open_row_ok v); cbn [qState qCharged qRoot]; [done|done|by apply (lo_open _ _ _ (oo_ledger _ K v) q)|by apply (lo_root _ _ _ (oo_ledger _ K v) q)|].
  intros r' Hr'. rewrite Hr in Hr'. by injection Hr' as <-.
Qed.
End steps.
End OrdinalSteps.
