(* ===== verification/OrdinalHashes.v ===== *)
(** * The outcome sets of the V5 ledger

    V5 keeps a root's outcomes as a hash set.  The invariant here says what its
    digest stands for: the hashes of every observation the root has seen, which
    the tables hold, and as many as the root was charged.  Hash sets name their
    members only up to collisions, so the invariant speaks of tables without two
    hashed texts that collide. *)

From S2P Require Import Prelude GoBytes Ordering Sha256 FactId FactSet Witness OutcomeSet OutcomeLists OutcomeBuild OutcomeVerify OutcomeRadix OutcomeLoad OutcomeStore OutcomeNames LedgerStore ExposureLedger Ordinal Roaring Bitmap Portable HybridSet HybridTheory HybridStore HybridStoreTheory V5Facts OrdinalTables OrdinalLedger OrdinalTheory OrdinalInvariant OrdinalSteps OrdinalOutcomes.
Import FactId(same, same_true, same_false, SQLLiterals).
Import HybridSet HybridTheory HybridStore HybridStoreTheory V5Facts OrdinalTables OrdinalLedger OrdinalTheory OrdinalInvariant OrdinalSteps OrdinalOutcomes.
Import Sha256 OutcomeSet OutcomeLists OutcomeBuild OutcomeVerify OutcomeRadix OutcomeLoad OutcomeStore OutcomeNames.
Import Store(Store, ordinal, with_ordinal, select_ok, exposureReserved, exposureSettled, exposureReleased, OutcomeFacts, ReleaseFacts, InfluenceFacts, MkExposure, ExposureLimits).
Import ExposureLedger(ordinal_version, V4, V5, zero_limits, limit_of, ExposureCharge).
Import FactSet(part, PRelease, PInfluence, POutcome).

Module OrdinalHashes.

(** ** What a root has seen *)

(** The hashes of the observations a root has seen. *)
Definition shown_hashes (o : OrdinalTables) (root : string) : list bytes :=
  uniqueOutcomeHashesV5 (flat_map (fun kv : string * string * RootObservation =>
      if decide (kv.1.1 = root) then
        match observations (v5 o) !! kv.1.2 with Some b => stored_hashes (outcomes o) (bOutcome b) | None => [] end
      else []) (map_to_list (root_observations (v5 o)))).

(** The texts hashed so far: those in the tables, and the graph of every root. *)
Definition state_texts (o : OrdinalTables) : list bytes :=
  store_texts (outcomes o) ++ flat_map (fun kv : string * OrdinalRootHead => all_texts (shown_hashes o kv.1)) (map_to_list (heads (v5 o))).

(** Limits and estimates below 2^30, so that every set has fewer than 2^31 members. *)
Record modest (o : OrdinalTables) : Prop := {
  md_limit root h : heads (v5 o) !! root = Some h -> OutcomeFacts (hLimits h) < 2 ^ 30;
  md_estimate q r : rows (v5 o) !! q = Some r -> OutcomeFacts (qEstimated r) < 2 ^ 30;
}.

Lemma elem_shown o root x : x ∈ shown_hashes o root <->
  exists d ro b, root_observations (v5 o) !! (root, d) = Some ro /\ observations (v5 o) !! d = Some b /\ x ∈ stored_hashes (outcomes o) (bOutcome b).
Proof.
  unfold shown_hashes. rewrite elem_unique, Witness.elem_flat_map. split.
  - intros ([[root' d] ro] & Hin%elem_of_map_to_list & Hx). cbn [fst snd] in Hx. case_decide as E; [|by apply elem_of_nil in Hx]. subst root'.
    destruct (observations (v5 o) !! d) as [b|] eqn:Eb; [|by apply elem_of_nil in Hx]. by exists d, ro, b.
  - intros (d & ro & b & Hro & Hb & Hx). exists ((root, d), ro). split; [by apply elem_of_map_to_list|]. cbn [fst snd]. by rewrite decide_True, Hb by done.
Qed.

Lemma shown_sorted o root : uniqueOutcomeHashesV5 (shown_hashes o root) = shown_hashes o root.
Proof. apply unique_id, unique_sorted. Qed.

Lemma shown_ext o M root : StronglySorted clt M -> (forall x, x ∈ shown_hashes o root <-> x ∈ M) -> shown_hashes o root = M.
Proof. intros HM E. rewrite <- (shown_sorted o root), <- (unique_id M HM). by apply unique_ext. Qed.

(** ** The invariant *)
Record outcomes_ok o : Prop := {
  ha_written : written (outcomes o);
  ha_observation d b : observations (v5 o) !! d = Some b ->
    exists C, names (outcomes o) (bOutcome b) C /\ OutcomeFacts (bActual b) = Z.of_nat (length C);
  ha_head root h : heads (v5 o) !! root = Some h ->
    names (outcomes o) (hOutcomeSet h) (shown_hashes o root) /\ OutcomeFacts (hUsed h) = Z.of_nat (length (shown_hashes o root));
}.

(** Nothing that outcome sets depend on is lost. *)
Record hashes_later o o' : Prop := {
  hl_store : store_le (outcomes o) (outcomes o');
  hl_observation d b : observations (v5 o) !! d = Some b -> observations (v5 o') !! d = Some b;
  hl_seen k : is_Some (root_observations (v5 o) !! k) -> is_Some (root_observations (v5 o') !! k);
}.

#[export] Instance hashes_later_preorder : PreOrder hashes_later.
Proof. split; [by intros o; split|]. intros o1 o2 o3 [A1 A2 A3] [B1 B2 B3]. split; [by etrans|auto|auto]. Qed.

Lemma observed_named o d b C : outcomes_ok o -> observations (v5 o) !! d = Some b -> names (outcomes o) (bOutcome b) C -> stored_hashes (outcomes o) (bOutcome b) = C.
Proof. intros K _ HC. by apply named_hashes; [apply K|]. Qed.

Lemma later_observed o o' d b : outcomes_ok o -> outcomes_ok o' -> hashes_later o o' -> observations (v5 o) !! d = Some b ->
  stored_hashes (outcomes o') (bOutcome b) = stored_hashes (outcomes o) (bOutcome b).
Proof.
  intros K K' L Hb. destruct (ha_observation o K d b Hb) as (C & HC & _). rewrite (named_hashes _ _ C (ha_written o K) HC).
  apply named_hashes; [apply K'|]. eapply names_le; [apply L|done].
Qed.

Lemma later_shown o o' root : outcomes_ok o -> outcomes_ok o' -> hashes_later o o' -> shown_hashes o root ⊆ shown_hashes o' root.
Proof.
  intros K K' L x (d & ro & b & Hro & Hb & Hx)%elem_shown. apply elem_shown. destruct (hl_seen _ _ L (root, d)) as [ro' Hro']; [by eexists|].
  exists d, ro', b. split; [done|]. split; [by apply (hl_observation _ _ L)|]. by rewrite (later_observed o o' d b K K' L Hb).
Qed.

(** The head of a root, and the set it names. *)
Lemma head_hashes o root h : outcomes_ok o -> heads (v5 o) !! root = Some h -> stored_hashes (outcomes o) (hOutcomeSet h) = shown_hashes o root.
Proof. intros K Hh. apply named_hashes; [apply K|]. by apply (ha_head o K). Qed.

Lemma head_later o o' root h : outcomes_ok o -> outcomes_ok o' -> hashes_later o o' -> heads (v5 o) !! root = Some h ->
  stored_hashes (outcomes o') (hOutcomeSet h) = shown_hashes o root.
Proof. intros K K' L Hh. apply named_hashes; [apply K'|]. eapply names_le; [apply L|]. by apply (ha_head o K). Qed.

Lemma head_texts o root h : heads (v5 o) !! root = Some h -> all_texts (shown_hashes o root) ⊆ state_texts o.
Proof.
  intros Hh x Hx. unfold state_texts. apply elem_of_app. right. apply Witness.elem_flat_map. exists (root, h). split; [by apply elem_of_map_to_list|done].
Qed.

(** ** Operations that leave outcome sets alone *)
Record still o o' : Prop := {
  sl_outcomes : outcomes o' = outcomes o;
  sl_observations : observations (v5 o') = observations (v5 o);
  sl_roots : root_observations (v5 o') = root_observations (v5 o);
  sl_heads root h : heads (v5 o') !! root = Some h -> heads (v5 o) !! root = Some h \/
    heads (v5 o) !! root = None /\ hOutcomeSet h = "" /\ OutcomeFacts (hUsed h) = 0;
}.

Lemma still_refl o : still o o.
Proof. split; [done|done|done|by left]. Qed.

Lemma still_shown o o' root : still o o' -> shown_hashes o' root = shown_hashes o root.
Proof. intros [E1 E2 E3 _]. unfold shown_hashes. by rewrite E1, E2, E3. Qed.

Lemma still_ok o o' : (forall root d, heads (v5 o) !! root = None -> root_observations (v5 o) !! (root, d) = None) -> still o o' ->
  outcomes_ok o -> outcomes_ok o' /\ hashes_later o o'.
Proof.
  intros Hnew S K. pose proof S as [E1 E2 E3 E4]. split.
  - split.
    + rewrite E1. apply K.
    + intros d b. rewrite E1, E2. apply (ha_observation o K).
    + intros root h Hh. rewrite (still_shown o o' root S), E1. apply E4 in Hh as [Hh|(Hno & Es & Eu)]; [by apply (ha_head o K)|].
      assert (shown_hashes o root = []) as ->.
      { apply list_nil_subseteq. intros x (d & ro & b & Hro & _)%elem_shown. by rewrite (Hnew root d Hno) in Hro. }
      rewrite Es, Eu. split; [|done]. split; [split; [done|constructor|done]|]. left. done.
  - split; rewrite ?E1, ?E2, ?E3; done.
Qed.
End OrdinalHashes.
