(* ===== verification/OrdinalHashSteps.v ===== *)
(** * Outcome sets along the steps of the V5 ledger

    Every operation keeps what the digests of outcome sets stand for.  A
    settlement whose head query saw an earlier head joins its hashes to the set
    that head named, and commits only if the head is still that one or nothing
    was new. *)

From S2P Require Import Prelude GoBytes Ordering Sha256 FactId FactSet Witness OutcomeSet OutcomeLists OutcomeBuild OutcomeVerify OutcomeRadix OutcomeLoad OutcomeStore OutcomeNames LedgerStore ExposureLedger Ordinal Roaring Bitmap Portable HybridSet HybridTheory HybridStore HybridStoreTheory V5Facts OrdinalTables OrdinalLedger OrdinalFrame OrdinalTheory OrdinalInvariant OrdinalSteps OrdinalOutcomes OrdinalHashes.
Import FactId(same, same_true, same_false, SQLLiterals).
Import HybridSet HybridTheory HybridStore HybridStoreTheory V5Facts OrdinalTables OrdinalLedger OrdinalTheory OrdinalInvariant OrdinalSteps OrdinalOutcomes OrdinalHashes.
Import Sha256 OutcomeSet OutcomeLists OutcomeBuild OutcomeVerify OutcomeRadix OutcomeLoad OutcomeStore OutcomeNames.
Import Store(Store, ordinal, with_ordinal, select_ok, exposureReserved, exposureSettled, exposureReleased, OutcomeFacts, ReleaseFacts, InfluenceFacts, MkExposure, ExposureLimits).
Import ExposureLedger(ordinal_version, V4, V5, zero_limits, limit_of, ExposureCharge).
Import FactSet(part, PRelease, PInfluence, POutcome).

Module OrdinalHashSteps.
#[local] Opaque sha256HexV5.

Section steps.
Context `{SQLLiterals} {B : Type} `{!Roaring B, !RoaringLaws B}.
Implicit Types (s : Store OrdinalTables) (o : OrdinalTables) (x : OrdinalExposureObservation B) (r : ReservationRow) (h : OrdinalRootHead).

(** ** Operations that leave outcome sets alone *)
(** Nothing of V5 and of the outcome sets changes. *)
Definition v4_only o o' : Prop := outcomes o' = outcomes o /\ v5 o' = v5 o.

#[local] Instance v4_only_preorder : PreOrder v4_only.
Proof. split; [by intros o|]. intros o1 o2 o3 [A1 A2] [B1 B2]. split; congruence. Qed.

Lemma v4_only_still o o' : v4_only o o' -> still o o'.
Proof. intros [E1 E2]. split; rewrite ?E1, ?E2; [done|done|done|by left]. Qed.

Lemma v4_only_ledger o l : v4_only o (with_ledger V4 o l).
Proof. done. Qed.

Lemma query_observation_v4 o q row o' : insert_query_observation V4 o q row = Ok o' -> v4_only o o'.
Proof. by intros (m & ->)%insert_query_observation_ok. Qed.
Lemma settle_row_v4 o q a c d pr ca e now err o' : settle_row V4 o q a c d pr ca e now err = Ok o' -> v4_only o o'.
Proof. by intros (r & _ & _ & _ & ->)%settle_row_ok. Qed.
Lemma root_observation_v4 o root d q e : v4_only o (insert_root_observation V4 o root d q e).1.
Proof. unfold insert_root_observation. by destruct (_ !! _). Qed.
Lemma observation_v4_only o d row e o' : insert_observation V4 o d row e = Ok o' -> v4_only o o'.
Proof. by intros (m & -> & _)%observation_inserted. Qed.
Lemma cas_head_v4 o root e dict c a1 a2 a3 now o' : cas_head V4 o root e dict c a1 a2 a3 now = Ok o' -> v4_only o o'.
Proof.
  unfold cas_head. intros (h & _ & E)%bind_ok. apply fail_if_bind_ok in E as [_ E]. apply fail_if_bind_ok in E as [_ E]. by apply fail_if_bind_ok in E as [_ [= <-]].
Qed.

Lemma charge_v4_only s o r (n : normalizedOrdinalObservation B) head now o' c e : charge_v4 s o r n head now = Ok (o', c, e) -> v4_only o o'.
Proof.
  unfold charge_v4. intros ([[a1 a2] a3] & _ & E)%bind_ok. ok_inv E. destruct (no_novelty _); [by apply Ok_inj in E as [= <- _ _]|].
  ok_inv E. apply Ok_inj in E as [= <- _ _]. etrans; [|by eapply cas_head_v4]. done.
Qed.

Lemma unseen_v4_only s o r q (n : normalizedOrdinalObservation B) head now o' c e : unseen_v4 s o r q n head now = Ok (o', c, e) -> v4_only o o'.
Proof.
  unfold unseen_v4. intros ([[o1 c1] e1] & H1%charge_v4_only & E)%bind_ok. pose proof (root_observation_v4 o1 (qRoot r) (oDigest n) q e1) as H2.
  destruct (insert_root_observation _ _ _ _ _ _) as [o2 b]. cbn [fst] in H2.
  assert (o' = o2) as ->; [|by etrans]. destruct b; [by apply Ok_inj in E as [= <- _ _]|]. ok_inv E. by apply Ok_inj in E as [= <- _ _].
Qed.

Lemma settle_v4_only read seen s now q x s' charge : settleOrdinalExposureMeasuredTx read seen s now q x = Ok (s', charge) -> v4_only (ordinal s) (ordinal s').
Proof.
  unfold settleOrdinalExposureMeasuredTx. intros (r & _ & E)%bind_ok. apply bind_ok in E as ([t n] & _ & E). cbv zeta in E.
  destruct (same (qState r) exposureSettled); [by apply fail_if_bind_ok in E as [_ [= <- <-]]|].
  apply fail_if_bind_ok in E as [_ E]. apply bind_ok in E as (o1 & H1 & E). apply bind_ok in E as (head & _ & E). apply seq_ok in E as [_ E].
  apply bind_ok in E as ([[o2 c] ep] & H2 & E). apply bind_ok in E as (o3 & H3%query_observation_v4 & E). apply bind_ok in E as (o4 & H4%settle_row_v4 & E).
  apply bind_ok in E as (s4 & [_ Ha]%OrdinalFrame.step_audited & [= <- <-]). rewrite Ha. cbn [ordinal with_ordinal].
  etrans; [|exact H4]. etrans; [|exact H3]. unfold persistOrdinalObservationTx in H1. apply bind_ok in H1 as (t' & _ & H1%observation_v4_only).
  etrans; [exact H1|]. case_bool_decide; [|by apply unseen_v4_only in H2]. by apply bind_ok in H2 as (? & _ & [= <- _ _]).
Qed.

Lemma reference_v4_only s now q rf s' charge : settleOrdinalObservationRefMeasuredTx s now q rf = Ok (s', charge) -> v4_only (ordinal s) (ordinal s').
Proof.
  unfold settleOrdinalObservationRefMeasuredTx. cbv zeta. intros [_ E]%fail_if_bind_ok. apply bind_ok in E as (r & _ & E).
  destruct (referenced _ _ _ _ _) as [[[[[b seen] head] sc] qc]|]; [|done]. apply fail_if_bind_ok in E as [_ E]. destruct (same (qState r) exposureSettled).
  - by apply fail_if_bind_ok in E as [_ [= <- <-]].
  - apply fail_if_bind_ok in E as [_ E]. apply bind_ok in E as (o3 & H3%query_observation_v4 & E). apply bind_ok in E as (o4 & H4%settle_row_v4 & E).
    apply bind_ok in E as (s4 & [_ Ha]%OrdinalFrame.step_audited & [= <- <-]). rewrite Ha. cbn [ordinal with_ordinal]. by etrans.
Qed.

Lemma reference_v5_still s now q rf s' charge : settleV5ObservationRefMeasuredTx s now q rf = Ok (s', charge) -> still (ordinal s) (ordinal s').
Proof.
  unfold settleV5ObservationRefMeasuredTx. cbv zeta. intros [_ E]%fail_if_bind_ok. apply bind_ok in E as (r & _ & E).
  apply bind_ok in E as ([[[[b seen] head] sc] qc] & _ & E). apply fail_if_bind_ok in E as [_ E]. destruct (same (qState r) exposureSettled).
  - apply fail_if_bind_ok in E as [_ E]. apply bind_ok in E as (ch & _ & [= <- <-]). apply still_refl.
  - apply fail_if_bind_ok in E as [_ E]. apply bind_ok in E as (o3 & (m & ->)%insert_query_observation_ok & E). apply bind_ok in E as (o4 & (r4 & _ & _ & _ & ->)%settle_row_ok & E).
    apply bind_ok in E as (s4 & [_ Ha]%OrdinalFrame.step_audited & [= <- <-]). rewrite Ha. split; cbn; auto.
Qed.

Lemma release_still v s now q s' : release_reservation v s now q = Ok s' -> still (ordinal s) (ordinal s').
Proof.
  unfold release_reservation. cbv zeta. intros (r & _ & E)%bind_ok. destruct (same _ exposureReleased); [apply Ok_inj in E as <-; apply still_refl|].
  apply fail_if_bind_ok in E as [_ [_ ->]%OrdinalFrame.step_audited]. destruct v; split; cbn; auto.
Qed.

Lemma reserve_still v s q task e profile now s' : ExposureLedger.ord_reserve v s q task e profile now = Ok s' -> still (ordinal s) (ordinal s').
Proof.
  assert (forall v s' root profile e, insert_reservation v s q task root profile e = Ok s' -> still (ordinal s) (ordinal s')) as Hi.
  { intros v1 s1 root p1 e1. unfold insert_reservation. cbv zeta. intros [_ E]%fail_if_bind_ok. apply fail_if_bind_ok in E as [_ [= <-]]. destruct v1; split; cbn; auto. }
  destruct v; cbn [ExposureLedger.ord_reserve ordinal_ledgers]; unfold reserveOrdinalExposureTx, reserveV5ExposureTx; intros (t & _ & E)%bind_ok;
    cbv zeta in E; apply bind_ok in E as (h & _ & E); destruct e; try done; apply fail_if_bind_ok in E as [_ E]; by apply Hi in E.
Qed.

Lemma ensure_still v s task grant now s' : ExposureLedger.ord_ensure v s task grant now = Ok s' -> still (ordinal s) (ordinal s').
Proof.
  assert (forall s1, activateV4CutoverTx s task = Ok s1 -> v4_only (ordinal s) (ordinal s1)) as Hact.
  { intros s1. unfold activateV4CutoverTx. destruct (cutover (ordinal s)); [by intros [= <-]|]. intros [_ E]%fail_if_bind_ok. by apply fail_if_bind_ok in E as [_ [= <-]]. }
  destruct v; cbn [ExposureLedger.ord_ensure ordinal_ledgers]; unfold ensureOrdinalExposureHeadTx, ensureV5ExposureHeadTx; intros [_ E]%fail_if_bind_ok;
    apply bind_ok in E as (s1 & H1%Hact & E); apply bind_ok in E as (t & _ & E); cbv zeta in E; destruct (heads _ !! _) eqn:Eh.
  - apply fail_if_bind_ok in E as [_ [= <-]]. by apply v4_only_still.
  - apply fail_if_bind_ok in E as [_ E]. apply v4_only_still. etrans; [exact H1|]. unfold insert_head in E. by apply fail_if_bind_ok in E as [_ [= <-]].
  - apply fail_if_bind_ok in E as [_ [= <-]]. by apply v4_only_still.
  - apply fail_if_bind_ok in E as [_ E]. apply fail_if_bind_ok in E as [_ E]. destruct (Store.ePredicateFootprint grant); [|done]. apply fail_if_bind_ok in E as [_ E].
    unfold insert_head in E. apply fail_if_bind_ok in E as [_ [= <-]]. destruct H1 as [E1 E2]. split; cbn; rewrite <- ?E1, <- ?E2; [done|done|done|].
    intros root h [[<- <-]|[_ Hh]]%lookup_insert_Some; [right|by left]. cbn. by rewrite <- Eh.
Qed.

(** ** A V5 settlement, as the outcome sets see it *)
Abbreviation hashes_of n := (candidate_hashes (vFacts (B := B) n)).

(** The statements of a settlement that read or write outcome sets. *)
Record hash_settlement (la : LedgerTables) o o' (q : string) r (n : normalizedV5Observation B) h0 h h' merged novel tel st1 : Prop := {
  hs_row : rows (v5 o) !! q = Some r;
  hs_estimate : Cardinality (objSet (vOutcome n)) = OutcomeFacts (qEstimated r);
  hs_built : buildOutcomeHashSetFromBinaryV5 (hashes_of n) = Ok (vOutcome n);
  hs_observed : persistV5SetObjectsTx (outcomes o) (vOutcome n) = Ok st1;
  hs_read : heads la !! qRoot r = Some h0;
  hs_union : differenceAndUnionV5Tx st1 (hOutcomeSet h0) (MkCandidate [] (hashes_of n)) = Ok (merged, novel, tel);
  hs_merged : persistV5SetObjectsTx st1 merged = Ok (outcomes o');
  hs_head : heads (v5 o) !! qRoot r = Some h;
  hs_heads : heads (v5 o') = <[qRoot r := h']> (heads (v5 o));
  hs_moved : novel = [] /\ h' = h \/
    hEpoch h = hEpoch h0 /\ hOutcomeSet h' = SetSHA256 (objSet merged) /\ OutcomeFacts (hUsed h') = OutcomeFacts (hUsed h) + Z.of_nat (length novel);
  hs_kept k b : observations (v5 o) !! k = Some b -> observations (v5 o') !! k = Some b;
  hs_new k b : observations (v5 o') !! k = Some b -> observations (v5 o) !! k = Some b \/ k = vDigest n /\ b = observation_v5 n;
  hs_row_observed : observations (v5 o') !! vDigest n = Some (observation_v5 n);
  hs_seen_kept k : is_Some (root_observations (v5 o) !! k) -> is_Some (root_observations (v5 o') !! k);
  hs_seen_new k : is_Some (root_observations (v5 o') !! k) -> is_Some (root_observations (v5 o) !! k) \/ k = (qRoot r, vDigest n);
  hs_seen : is_Some (root_observations (v5 o') !! (qRoot r, vDigest n));
}.

Lemma collect_hashes l : forall acc out, fold_res (fun hashes text => decodeOutcomeHashV5 text ≫= fun hash => Ok (hashes ++ [hash])) acc (map dynSHA256 l) = Ok out ->
  out = acc ++ candidate_hashes l.
Proof.
  induction l as [|fact l IH]; intros acc out; cbn [map fold_res]; [intros [= <-]; by rewrite app_nil_r|]. intros (acc1 & H1 & E)%bind_ok.
  apply bind_ok in H1 as (hash & Hd & [= <-]). apply IH in E as ->. unfold candidate_hashes. cbn [map]. unfold fact_hash at 2. rewrite Hd. by rewrite <- app_assoc.
Qed.

Lemma normalized_outcome s q x t n : normalizeV5ObservationTx s q x = Ok (t, n) -> buildOutcomeHashSetFromBinaryV5 (hashes_of n) = Ok (vOutcome n).
Proof.
  unfold normalizeV5ObservationTx. intros [_ E]%fail_if_bind_ok. apply bind_ok in E as ([sc qc] & _ & E). apply fail_if_bind_ok in E as [_ E].
  apply bind_ok in E as ([[t1 rel] inf] & _ & E). apply fail_if_bind_ok in E as [_ E]. apply bind_ok in E as ([facts metadata] & _ & E). apply bind_ok in E as (out & Hb & E).
  cbv zeta in E. apply fail_if_bind_ok in E as [_ [= _ <-]]. cbn [vFacts vOutcome]. unfold BuildOutcomeHashSetV5 in Hb. apply bind_ok in Hb as (hashes & Hh & Hb).
  by apply collect_hashes in Hh as ->.
Qed.

Lemma candidates_hash32 n : Forall hash32 (hashes_of n).
Proof. apply Forall_forall. intros h (f & -> & _)%list_elem_of_fmap. apply fact_hash32. Qed.

Lemma charge_v5_hashes s o r n h0 h now o' c kinds e : heads (v5 o) !! qRoot r = Some h -> charge_v5 s o r n h0 now = Ok (o', c, kinds, e) -> exists merged novel tel h',
  differenceAndUnionV5Tx (outcomes o) (hOutcomeSet h0) (MkCandidate [] (hashes_of n)) = Ok (merged, novel, tel) /\
  persistV5SetObjectsTx (outcomes o) merged = Ok (outcomes o') /\ heads (v5 o') = <[qRoot r := h']> (heads (v5 o)) /\
  (novel = [] /\ h' = h \/ hEpoch h = hEpoch h0 /\ hOutcomeSet h' = SetSHA256 (objSet merged) /\ OutcomeFacts (hUsed h') = OutcomeFacts (hUsed h) + Z.of_nat (length novel)) /\
  observations (v5 o') = observations (v5 o) /\ root_observations (v5 o') = root_observations (v5 o).
Proof.
  intros Hh E. unfold charge_v5 in E. cbv zeta in E. apply bind_ok in E as ([u1 u2] & _ & E). apply bind_ok in E as (d1 & _ & E). apply bind_ok in E as (d2 & _ & E).
  apply bind_ok in E as ([[merged novel] tel] & Htx & E). apply bind_ok in E as (ks & _ & E). apply bind_ok in E as (grant & _ & E). apply fail_if_bind_ok in E as [_ E].
  apply bind_ok in E as (m1 & _ & E). apply bind_ok in E as (m2 & _ & E). apply bind_ok in E as (t' & _ & E). apply bind_ok in E as (st' & Hp & E).
  exists merged, novel, tel. destruct (no_novelty _) eqn:Ez.
  - apply bind_ok in E as (epoch & _ & [= <- _ _ _]). exists h. split; [done|]. split; [done|]. split; [by rewrite insert_id|]. split; [|done]. left. split; [|done].
    apply no_novelty_spec in Ez. injection Ez as _ _ Ez. by destruct novel.
  - apply bind_ok in E as (o2 & Hcas & [= <- _ _ _]). apply (cas_head_ok _ _ _ _ _ _ _ _ _ _ _ h) in Hcas as (Ee & _ & _ & ->); [|done]. eexists.
    split; [done|]. split; [done|]. split; [reflexivity|]. split; [|done]. by right.
Qed.

Lemma settle_v5_hashes read s now q x s' charge : ordinal_ok (B := B) (ordinal s) -> settleV5ExposureMeasuredTx read s now q x = Ok (s', charge) ->
  v4_only (ordinal s) (ordinal s') \/ exists r n h0 h h' merged novel tel st1, hash_settlement read (ordinal s) (ordinal s') q r n h0 h h' merged novel tel st1.
Proof.
  intros K. unfold settleV5ExposureMeasuredTx. cbv zeta. intros (r & Hrow%select_ok & E)%bind_ok. apply bind_ok in E as ([t n] & Hn%normalized_outcome & E).
  apply fail_if_bind_ok in E as [Hest%negb_false_iff%Z.eqb_eq E]. destruct (same (qState r) exposureSettled) eqn:Es.
  - left. apply fail_if_bind_ok in E as [_ E]. by apply bind_ok in E as (ch & _ & [= <- _]).
  - right. apply fail_if_bind_ok in E as [_ E]. apply bind_ok in E as (query & _ & E). apply bind_ok in E as (o1 & Hp & E). apply bind_ok in E as (h0 & Hh0%select_ok & E).
    apply bind_ok in E as ([] & _ & E). apply bind_ok in E as ([[[o2 c] kinds] e] & Hc & E). destruct (insert_root_observation V5 o2 _ _ _ _) as [o2i ins] eqn:Eins.
    apply bind_ok in E as (o3 & (m3 & ->)%insert_query_observation_ok & E). apply bind_ok in E as (o4 & (r4 & _ & _ & _ & ->)%settle_row_ok & E).
    apply bind_ok in E as (s4 & [_ Ha]%OrdinalFrame.step_audited & [= <- _]).
    unfold persistV5OutcomeTx in Hp. apply fail_if_bind_ok in Hp as [_ Hp]. apply bind_ok in Hp as (mf & _ & Hp). apply bind_ok in Hp as (st1 & Hst1 & Hp).
    apply bind_ok in Hp as (t1 & _ & Hp). apply observation_inserted in Hp as (mo & -> & Hm & Hk & Hnew).
    destruct (lo_root _ _ _ (oo_ledger _ K V5) q r Hrow) as [h Hh]. apply (charge_v5_hashes _ _ _ _ _ h) in Hc as (merged & novel & tel & h' & Htx & Hst2 & Hheads & Hmoved & Eo & Er); [|done].
    assert (ledger V5 o2i = with_root_observations (v5 o2) (root_observations (v5 o2i)) /\ outcomes o2i = outcomes o2 /\
      (forall k, is_Some (root_observations (v5 o2) !! k) -> is_Some (root_observations (v5 o2i) !! k)) /\
      (forall k, is_Some (root_observations (v5 o2i) !! k) -> is_Some (root_observations (v5 o2) !! k) \/ k = (qRoot r, vDigest n)) /\
      is_Some (root_observations (v5 o2i) !! (qRoot r, vDigest n))) as (El & Eout & Hk2 & Hn2 & Hs2).
    { unfold insert_root_observation in Eins. destruct (root_observations (ledger V5 o2) !! (qRoot r, vDigest n)) as [ro|] eqn:Ero; injection Eins as <- _.
      - split; [by destruct o2 as [? ? ? ? ? []]|]. split; [done|]. split; [done|]. split; [by left|by eexists].
      - split; [done|]. split; [done|]. split; [|split].
        + intros k Hk'. cbn. apply lookup_insert_is_Some. destruct (decide ((qRoot r, vDigest n) = k)); auto.
        + intros k. cbn. intros [<-|[_ Hk']]%lookup_insert_is_Some; auto.
        + cbn. rewrite lookup_insert_eq. by eexists. }
    exists r, n, h0, h, h', merged, novel, tel, st1. rewrite Ha. cbn [ordinal with_ordinal]. cbn in Eo, Er.
    revert El Hk2 Hn2 Hs2. cbn [ledger]. generalize (root_observations (v5 o2i)). intros roots El Hk2 Hn2 Hs2.
    split; cbn -[candidate_hashes]; rewrite ?El, ?Eout; cbn [observations root_observations with_root_observations]; rewrite ?Eo; try done.
    + intros k Hk'. apply Hk2. by rewrite Er.
    + intros k [Hk'|Hk']%Hn2; [left|by right]. by rewrite Er in Hk'.
Qed.

(** ** The settlement keeps the invariant *)
Section settled.
Context (a o o' : OrdinalTables) (q : string) (r : ReservationRow) (n : normalizedV5Observation B) (h0 h h' : OrdinalRootHead)
  (merged : OutcomeHashSetObjectsV5) (novel : list bytes) (tel : OutcomeRadixTelemetryV5) (st1 : ObjectStore) (xs : list bytes).
Context (nocoll : forall x y : bytes, x ∈ xs -> y ∈ xs -> sha256HexV5 x = sha256HexV5 y -> x = y).
Context (Ka : outcomes_ok a) (K : outcomes_ok o) (L : hashes_later a o) (Oa : ordinal_ok (B := B) a) (Oo : ordinal_ok (B := B) o) (A : advance (B := B) a o).
Context (Ma : modest a) (Mo : modest o) (Ta : state_texts a ⊆ xs) (To : state_texts o' ⊆ xs).
Context (S : hash_settlement (v5 a) o o' q r n h0 h h' merged novel tel st1).
Notation cand := (hashes_of n).
Notation C := (uniqueOutcomeHashesV5 (hashes_of n)).
Notation M0 := (shown_hashes a (qRoot r)).
Notation N := (spec_union M0 (hashes_of n)).

Lemma observed_members : members_ok C /\ Z.of_nat (length C) < 2 ^ 30.
Proof.
  pose proof (build_cardinality _ _ (hs_built _ _ _ _ _ _ _ _ _ _ _ _ _ S)) as Ec. rewrite (hs_estimate _ _ _ _ _ _ _ _ _ _ _ _ _ S) in Ec.
  pose proof (md_estimate o Mo q r (hs_row _ _ _ _ _ _ _ _ _ _ _ _ _ S)) as Hlt. rewrite Ec in Hlt. split; [|done]. split; [|apply unique_sorted|lia].
  apply unique_hashes, candidates_hash32.
Qed.

Lemma observed_written : written st1 /\ holds st1 C /\ objSet (vOutcome n) = the_set C /\ store_le (outcomes o) st1.
Proof.
  pose proof (hs_observed _ _ _ _ _ _ _ _ _ _ _ _ _ S) as Hp. destruct (persist_built _ _ _ _ (proj1 observed_members) (hs_built _ _ _ _ _ _ _ _ _ _ _ _ _ S) (ha_written o K) Hp) as (W & HC & E).
  split; [done|]. split; [done|]. split; [done|]. by eapply persisted_le; [apply K|].
Qed.

Lemma merged_le : store_le st1 (outcomes o').
Proof. eapply persisted_le; [apply observed_written|apply S]. Qed.

Lemma read_named : names st1 (hOutcomeSet h0) M0 /\ Z.of_nat (length M0) < 2 ^ 30.
Proof.
  pose proof (hs_read _ _ _ _ _ _ _ _ _ _ _ _ _ S) as Hh0. destruct (ha_head a Ka _ _ Hh0) as [Hn Hu]. split.
  - eapply names_le; [|exact Hn]. etrans; [apply L|apply observed_written].
  - pose proof (ho_used _ _ _ (lo_head _ _ _ (oo_ledger _ Oa V5) _ _ Hh0) POutcome) as [_ Hl]. cbn in Hl. pose proof (md_limit a Ma _ _ Hh0). lia.
Qed.

Lemma settled_union : objSet merged = the_set N /\ novel = spec_novel M0 cand /\ members_ok N /\ written (outcomes o') /\ (all_texts N ⊆ xs -> holds (outcomes o') N).
Proof.
  destruct observed_members as [HC Hc], read_named as [Hn Hm], observed_written as (W & _). assert (Z.of_nat (length M0 + length C) < 2 ^ 31) as Hsize by lia.
  assert (all_texts M0 ⊆ xs) as HxM. { etrans; [|exact Ta]. by eapply head_texts, (hs_read _ _ _ _ _ _ _ _ _ _ _ _ _ S). }
  assert (store_texts st1 ⊆ xs) as Hxst. { etrans; [apply store_texts_le, merged_le|]. intros x Hx. apply To, elem_of_app. by left. }
  destruct (union_written st1 (hOutcomeSet h0) M0 cand xs nocoll Hn (candidates_hash32 n) Hsize W HxM Hxst merged novel tel (hs_union _ _ _ _ _ _ _ _ _ _ _ _ _ S)) as (Es & En & Hp).
  destruct (Hp _ (hs_merged _ _ _ _ _ _ _ _ _ _ _ _ _ S)) as [W' HN]. split; [done|]. split; [done|]. split; [by apply (union_ok st1 (hOutcomeSet h0) M0 cand Hn (candidates_hash32 n))|]. done.
Qed.

Lemma settled_hashes_later : hashes_later o o'.
Proof. split; [etrans; [apply observed_written|apply merged_le]|apply S|apply S]. Qed.

Lemma settled_old d b : observations (v5 o) !! d = Some b -> stored_hashes (outcomes o') (bOutcome b) = stored_hashes (outcomes o) (bOutcome b).
Proof.
  intros Hb. destruct (ha_observation o K d b Hb) as (D & HD & _). rewrite (named_hashes _ _ D (ha_written o K) HD). apply named_hashes; [apply settled_union|].
  eapply names_le; [apply settled_hashes_later|done].
Qed.

Lemma settled_new : names (outcomes o') (bOutcome (observation_v5 n)) C.
Proof.
  destruct observed_written as (_ & HC & E & _). split; [apply observed_members|]. right. cbn [bOutcome observation_v5]. rewrite E. split; [done|]. eapply holds_le; [apply merged_le|done].
Qed.

Lemma settled_shown root (x : bytes) : x ∈ shown_hashes o' root <-> x ∈ shown_hashes o root \/ root = qRoot r /\ x ∈ cand.
Proof.
  assert (stored_hashes (outcomes o') (bOutcome (observation_v5 n)) = C) as EC by (apply named_hashes; [apply settled_union|apply settled_new]).
  rewrite !elem_shown. split.
  - intros (d & ro & b & Hro & Hb & Hx). destruct (hs_seen_new _ _ _ _ _ _ _ _ _ _ _ _ _ S (root, d)) as [[ro' Hro']|[= -> ->]]; [by eexists|left|right].
    + destruct (lo_seen _ _ _ (oo_ledger _ Oo V5) _ _ _ Hro') as (_ & b' & _ & Hb' & _). cbn in Hb'. pose proof (hs_kept _ _ _ _ _ _ _ _ _ _ _ _ _ S _ _ Hb') as Hb2. rewrite Hb in Hb2. injection Hb2 as <-.
      exists d, ro', b. split; [done|]. split; [done|]. by rewrite <- (settled_old d).
    + split; [done|]. rewrite (hs_row_observed _ _ _ _ _ _ _ _ _ _ _ _ _ S) in Hb. injection Hb as <-. rewrite EC in Hx. by apply elem_unique.
  - intros [(d & ro & b & Hro & Hb & Hx)|[-> Hx]].
    + destruct (hs_seen_kept _ _ _ _ _ _ _ _ _ _ _ _ _ S (root, d)) as [ro' Hro']; [by eexists|]. exists d, ro', b. split; [done|]. split; [by apply S|]. by rewrite (settled_old d).
    + destruct (hs_seen _ _ _ _ _ _ _ _ _ _ _ _ _ S) as [ro Hro]. exists (vDigest n), ro, (observation_v5 n). split; [done|]. split; [exact (hs_row_observed _ _ _ _ _ _ _ _ _ _ _ _ _ S)|]. rewrite EC. by apply elem_unique.
Qed.

Lemma settled_same root : root <> qRoot r \/ (forall x : bytes, x ∈ cand -> x ∈ shown_hashes o root) -> shown_hashes o' root = shown_hashes o root.
Proof.
  intros Hor. apply shown_ext; [rewrite <- shown_sorted; apply unique_sorted|]. intros x. rewrite settled_shown. naive_solver.
Qed.

(** The head is the one the settlement read. *)
Lemma unmoved : hEpoch h = hEpoch h0 -> h = h0 /\ shown_hashes o (qRoot r) = M0.
Proof.
  intros Ee. pose proof (hs_read _ _ _ _ _ _ _ _ _ _ _ _ _ S) as Hh0. pose proof (hs_head _ _ _ _ _ _ _ _ _ _ _ _ _ S) as Hh.
  destruct (lt_head _ _ _ _ (ad_ledger _ _ A V5) _ _ Hh0) as (h1 & Hh1 & G). cbn in Hh1. rewrite Hh in Hh1. injection Hh1 as <-. pose proof (grows_same V5 _ _ _ G Ee) as E0. clear G.
  split; [done|]. rewrite <- (head_hashes o _ h K Hh), E0. by apply (head_later a o).
Qed.

Lemma settled_hashes_ok : outcomes_ok o'.
Proof.
  destruct settled_union as (Es & En & HN & W & Hholds). split; [done| |].
  - intros d b [Hb|[-> ->]]%(hs_new _ _ _ _ _ _ _ _ _ _ _ _ _ S).
    + destruct (ha_observation o K d b Hb) as (D & HD & Hl). exists D. split; [|done]. eapply names_le; [apply settled_hashes_later|done].
    + exists C. split; [apply settled_new|]. cbn. apply build_cardinality, (hs_built _ _ _ _ _ _ _ _ _ _ _ _ _ S).
  - intros root hx Hx. pose proof Hx as Hx'. rewrite (hs_heads _ _ _ _ _ _ _ _ _ _ _ _ _ S) in Hx. apply lookup_insert_Some in Hx as [[E1 E2]|[Hne Hx]].
    2: { rewrite settled_same by (by left). destruct (ha_head o K root hx Hx) as [Hn Hu]. split; [|done]. eapply names_le; [apply settled_hashes_later|done]. }
    subst root hx. destruct (hs_moved _ _ _ _ _ _ _ _ _ _ _ _ _ S) as [[E0 Eh]|(Ee & Ed & Eu)].
    + rewrite settled_same, Eh.
      * destruct (ha_head o K _ _ (hs_head _ _ _ _ _ _ _ _ _ _ _ _ _ S)) as [Hn Hu]. split; [|done]. eapply names_le; [apply settled_hashes_later|done].
      * right. rewrite En in E0. intros x Hx. apply (later_shown a o _ Ka K L). by apply (proj1 (novel_old _ _) E0).
    + destruct (unmoved Ee) as [Eh Eshown]. assert (shown_hashes o' (qRoot r) = N) as EN.
      { apply shown_ext; [apply HN|]. intros x. rewrite settled_shown, Eshown. unfold spec_union. rewrite elem_unique, elem_of_app. naive_solver. }
      rewrite EN. split.
      * split; [done|]. right. rewrite Ed, Es. split; [done|]. apply Hholds. rewrite <- EN. etrans; [|exact To]. by eapply head_texts.
      * rewrite Eu, En. destruct (ha_head o K _ _ (hs_head _ _ _ _ _ _ _ _ _ _ _ _ _ S)) as [_ Hu]. rewrite Hu, Eshown.
        assert (StronglySorted clt M0) as HS by (rewrite <- shown_sorted; apply unique_sorted). pose proof (union_split M0 cand HS) as HP. apply Permutation_length in HP. rewrite length_app in HP. lia.
Qed.
End settled.
End steps.
End OrdinalHashSteps.
