(* ===== verification/OrdinalRuns.v ===== *)
(** * Interleaved settlements

    A history is the list of the states of the store, the latest first, from
    tables that name nothing.  Each step is one operation; a settlement may have
    read its root's head and its observation in any earlier state, for it locks
    neither: what it writes is decided by the tables it commits to. *)

From S2P Require Import Prelude GoBytes Ordering FactId FactSet Witness OutcomeSet LedgerStore ExposureLedger OutcomeRadix Ordinal Roaring Bitmap Portable HybridSet HybridTheory HybridStore HybridStoreTheory V5Facts OrdinalTables OrdinalLedger OrdinalTheory OrdinalInvariant OrdinalSteps OutcomeLists OutcomeBuild OutcomeVerify OutcomeLoad OutcomeStore OutcomeNames Sha256 OrdinalHashes OrdinalHashSteps.
Import FactId(SQLLiterals).
Import OutcomeRadix(ObjectStore, MkObjectStore).
Import Ordinal Bitmap Portable HybridSet HybridTheory HybridStore HybridStoreTheory V5Facts OrdinalTables OrdinalLedger OrdinalTheory OrdinalInvariant OrdinalSteps OrdinalHashes OrdinalHashSteps.
Import Store(Store, ordinal, exposureReserved, exposureSettled, ExposureLimits).
Import ExposureLedger(ordinal_version, V4, V5, zero_limits, limit_of, ExposureCharge, cCharged, cActual, cObservationSHA256).
Import FactSet(part, PRelease, PInfluence, POutcome).

Module OrdinalRuns.

(** Nothing but the dictionaries and the tables of other components changed. *)
Record elsewhere (o o' : OrdinalTables) : Prop := {
  ew_v4 : v4 o' = v4 o;
  ew_v5 : v5 o' = v5 o;
  ew_facts : dynamic_facts (hybrid o') = dynamic_facts (hybrid o);
  ew_containers : bitmap_containers (hybrid o') = bitmap_containers (hybrid o);
  ew_sets : bitmap_sets (hybrid o') = bitmap_sets (hybrid o);
  ew_mappings : set_containers (hybrid o') = set_containers (hybrid o);
  ew_members : set_dynamic_facts (hybrid o') = set_dynamic_facts (hybrid o);
  ew_outcomes : outcomes o' = outcomes o;
}.

Definition empty_ledger : LedgerTables := MkLedgerTables ∅ ∅ ∅ ∅ ∅.

(** No root, no reservation and no set yet. *)
Record untouched (o : OrdinalTables) : Prop := {
  ut_v4 : v4 o = empty_ledger;
  ut_v5 : v5 o = empty_ledger;
  ut_sets : bitmap_sets (hybrid o) = ∅;
  ut_mappings : set_containers (hybrid o) = ∅;
  ut_members : set_dynamic_facts (hybrid o) = ∅;
  ut_outcomes : outcomes o = MkObjectStore ∅ ∅ ∅;
}.

Section runs.
Context `{SQLLiterals} {B : Type} `{!Roaring B, !RoaringLaws B}.
Implicit Types (s a b : Store OrdinalTables) (o : OrdinalTables) (v : ordinal_version) (x : OrdinalExposureObservation B) (past : list (Store OrdinalTables)).
Abbreviation content := (Ordinal.FactRef + string)%type (only parsing).
Abbreviation ordinal_ok := (ordinal_ok (B := B)).
Abbreviation advance := (advance (B := B)).

(** A settlement of profile [v] whose head query read state [a] and whose
    observation query, in V4, read state [b]. *)
Definition settle_from v a b s (now : Z) (q : string) x : result (Store OrdinalTables * ExposureCharge) :=
  match v with
  | V4 => settleOrdinalExposureMeasuredTx (v4 (ordinal a)) (v4 (ordinal b)) s now q x
  | V5 => settleV5ExposureMeasuredTx (v5 (ordinal a)) s now q x
  end.

Definition settle_reference v s (now : Z) (q : string) (rf : OrdinalObservationReference) : result (Store OrdinalTables * ExposureCharge) :=
  match v with V4 => settleOrdinalObservationRefMeasuredTx s now q rf | V5 => settleV5ObservationRefMeasuredTx s now q rf end.

Inductive ordinal_op (past : list (Store OrdinalTables)) s s' : Prop :=
| op_ensure v task grant now : ExposureLedger.ord_ensure v s task grant now = Ok s' -> ordinal_op past s s'
| op_reserve v q task e profile now : ExposureLedger.ord_reserve v s q task e profile now = Ok s' -> ordinal_op past s s'
| op_release v now q : release_reservation v s now q = Ok s' -> ordinal_op past s s'
| op_settle v a b now q x charge : a ∈ past -> b ∈ past -> observation_input x -> settle_from v a b s now q x = Ok (s', charge) -> ordinal_op past s s'
| op_reference v now q rf charge : settle_reference v s now q rf = Ok (s', charge) -> ordinal_op past s s'
| op_other : elsewhere (ordinal s) (ordinal s') -> ordinal_op past s s'.

Inductive history : list (Store OrdinalTables) -> Prop :=
| history_start s : untouched (ordinal s) -> history [s]
| history_step s s' past : history (s :: past) -> ordinal_op (s :: past) s s' -> history (s' :: s :: past).

(** ** The invariant along a history *)
Lemma untouched_ok o : untouched o -> ordinal_ok o.
Proof.
  intros [E4 E5 E1 E2 E3 _]. split.
  - split; rewrite ?E1, ?E2, ?E3; intros *; by rewrite ?lookup_empty.
  - assert (forall v, ledger v o = empty_ledger) as E by (by intros []). intros v. rewrite E. split; cbn; intros *; by rewrite lookup_empty.
Qed.

Lemma fact_stored_ext t t' f : dynamic_facts t' = dynamic_facts t -> fact_stored t f -> fact_stored t' f.
Proof. unfold fact_stored. by intros ->. Qed.

Lemma elsewhere_ok o o' : ordinal_ok o -> elsewhere o o' -> ordinal_ok o' /\ advance o o'.
Proof.
  intros K [E4 E5 E1 E2 E3 E6 E7 _]. assert (tables_le (hybrid o) (hybrid o')) as L by (split; intros *; rewrite ?E1, ?E2, ?E3, ?E6, ?E7; done).
  apply advance_hybrid; [done| |done|by intros []]. by apply (tables_ok_facts (hybrid o)); [..|apply K].
Qed.

Definition good_history (past : list (Store OrdinalTables)) : Prop :=
  match past with [] => False | s :: _ => Forall (fun a => ordinal_ok (ordinal a) /\ advance (ordinal a) (ordinal s)) past end.

Lemma history_read past s a v : good_history (s :: past) -> a ∈ s :: past -> read_from (B := B) v (ledger v (ordinal a)) (ordinal s).
Proof. intros Hg Ha. exists (ordinal a). split; [done|]. unfold good_history in Hg. rewrite Forall_forall in Hg. by apply Hg. Qed.

Lemma settle_from_ok past v a b s now q x s' charge : good_history (s :: past) -> a ∈ s :: past -> b ∈ s :: past -> observation_input x ->
  settle_from v a b s now q x = Ok (s', charge) ->
  ordinal_ok (ordinal s') /\ advance (ordinal s) (ordinal s') /\ settle_result (B := B) v (ordinal s) (ordinal s') q charge.
Proof.
  intros Hg Ha Hb Hin E. assert (ordinal_ok (ordinal s)) as K by (by apply Forall_cons in Hg as [[? _] _]).
  destruct v; [eapply settle_v4_ok|eapply settle_v5_ok]; try done; [by apply (history_read past s a V4)|by apply (history_read past s b V4)|by apply (history_read past s a V5)].
Qed.

Lemma settle_reference_ok v s now q rf s' charge : ordinal_ok (ordinal s) -> settle_reference v s now q rf = Ok (s', charge) ->
  ordinal_ok (ordinal s') /\ advance (ordinal s) (ordinal s') /\ reference_result (B := B) v s s' q (rfObservation rf) charge.
Proof. intros K E. destruct v; [by eapply settle_ref_v4_ok|by eapply settle_ref_v5_ok]. Qed.

Lemma op_ok past s s' : good_history (s :: past) -> ordinal_op (s :: past) s s' -> ordinal_ok (ordinal s') /\ advance (ordinal s) (ordinal s').
Proof.
  intros Hg O. assert (ordinal_ok (ordinal s)) as K by (by apply Forall_cons in Hg as [[? _] _]).
  destruct O as [v task grant now E|v q task e profile now E|v now q E|v a b now q x charge Ha Hb Hin E|v now q rf charge E|E].
  - by eapply ensure_ok.
  - by eapply reserve_ok.
  - by eapply release_ok.
  - apply (settle_from_ok past) in E as (? & ? & _); done.
  - apply settle_reference_ok in E as (? & ? & _); done.
  - by apply elsewhere_ok.
Qed.

Lemma history_good past : history past -> good_history past.
Proof.
  induction 1 as [s Hu|s s' past _ IH O].
  - constructor; [|constructor]. apply untouched_ok in Hu. split; [done|by apply advance_refl].
  - destruct (op_ok past s s' IH O) as [K A]. constructor; [split; [done|by apply advance_refl]|]. eapply Forall_impl; [exact IH|]. intros a [Ka Aa]. split; [done|]. by eapply advance_trans.
Qed.

Lemma history_ok past s : history (s :: past) -> ordinal_ok (ordinal s).
Proof. intros Hh%history_good. by apply Forall_cons in Hh as [[? _] _]. Qed.

(** ** Sets by name *)

(** What a digest names: nothing when there is none. *)
Definition named (t : HybridTables) (d : string) : list content :=
  if bool_decide (d = "") then [] else match loadOrdinalSetTx (B := B) t d with Ok (set, _) => set_contents set | Err _ => [] end.

Lemma named_set t dict d X : set_of (B := B) t dict d X -> named t d = X.
Proof.
  intros S. unfold named. rewrite bool_decide_false by (by eapply set_of_digest). destruct (set_of_load _ _ _ _ S) as (set & -> & _ & HX & _). exact HX.
Qed.

Lemma named_head t h p X : head_contents (B := B) t h p X -> named t (head_set p h) = X.
Proof. intros [[(_ & E1 & E2 & E3 & _) ->]|S]; [by destruct p; cbn; rewrite ?E1, ?E2, ?E3|by eapply named_set]. Qed.

Lemma named_later v t t' h p : tables_le t t' -> head_ok (B := B) v t h -> hybrid_part v p -> named t' (head_set p h) = named t (head_set p h).
Proof.
  intros L K Hp. destruct (ho_contents _ _ _ K p Hp) as (X & HX & _). rewrite (named_head _ _ _ _ HX). apply named_head. by eapply head_contents_le.
Qed.

(** ** Sets of outcomes along a history *)

(** What the hash sets of a history rely on: their sizes stay within a 32-bit
    count, and no two texts hashed on the way collide. *)
Definition history_texts past : list bytes := flat_map (fun s => state_texts (ordinal s)) past.
Record sound_hashes past : Prop := {
  sh_modest : Forall (fun s => modest (ordinal s)) past;
  sh_texts : ~ Sha256.collides (history_texts past) (history_texts past);
}.

Lemma sound_tail s past : sound_hashes (s :: past) -> sound_hashes past.
Proof.
  intros [M T]. split; [by apply Forall_cons in M as [_ M]|]. intros Hc. apply T. assert (history_texts past ⊆ history_texts (s :: past)) as Hs.
  { intros x Hx. apply elem_of_app. by right. }
  by eapply Sha256.collides_sub.
Qed.

Lemma state_texts_in past s : s ∈ past -> state_texts (ordinal s) ⊆ history_texts past.
Proof. intros Hs x Hx. apply Witness.elem_flat_map. by exists s. Qed.

Lemma untouched_outcomes o : untouched o -> outcomes_ok o.
Proof.
  intros [_ E5 _ _ _ E]. split.
  - rewrite E. split; cbn; intros d r'; by rewrite lookup_empty.
  - intros d b. rewrite E5. cbn. by rewrite lookup_empty.
  - intros root h. rewrite E5. cbn. by rewrite lookup_empty.
Qed.

Lemma elsewhere_still o o' : elsewhere o o' -> still o o'.
Proof. intros [_ E5 _ _ _ _ _ E]. split; rewrite ?E5, ?E; [done|done|done|by left]. Qed.

Lemma unseen_root o root d : ordinal_ok o -> heads (v5 o) !! root = None -> root_observations (v5 o) !! (root, d) = None.
Proof.
  intros K Hn. destruct (root_observations (v5 o) !! (root, d)) as [ro|] eqn:E; [|done]. destruct (lo_seen _ _ _ (oo_ledger _ K V5) root d ro E) as (h & _ & Hh & _).
  cbn in Hh. congruence.
Qed.

Definition good_outcomes past : Prop :=
  match past with [] => False | s :: _ => Forall (fun a => outcomes_ok (ordinal a) /\ hashes_later (ordinal a) (ordinal s)) past end.

Lemma op_outcomes past s s' : good_history (s :: past) -> good_outcomes (s :: past) -> sound_hashes (s' :: s :: past) -> ordinal_op (s :: past) s s' ->
  outcomes_ok (ordinal s') /\ hashes_later (ordinal s) (ordinal s').
Proof.
  intros Hg Ho [M T] O. assert (ordinal_ok (ordinal s)) as K by (by apply Forall_cons in Hg as [[? _] _]).
  assert (outcomes_ok (ordinal s)) as Ks by (by apply Forall_cons in Ho as [[? _] _]).
  assert (still (ordinal s) (ordinal s') -> outcomes_ok (ordinal s') /\ hashes_later (ordinal s) (ordinal s')) as Hstill.
  { intros S. apply still_ok; [|done|done]. intros root d. by apply unseen_root. }
  destruct O as [v task grant now E|v q task e profile now E|v now q E|v a b now q x charge Ha Hb Hin E|v now q rf charge E|E].
  - by eapply Hstill, ensure_still.
  - by eapply Hstill, reserve_still.
  - by eapply Hstill, release_still.
  - destruct v; [by eapply Hstill, v4_only_still, settle_v4_only|]. cbn [settle_from] in E.
    apply (settle_v5_hashes (B := B)) in E as [S|(r & n & h0 & h & h' & merged & novel & tel & st1 & S)]; [by apply Hstill, v4_only_still| |done].
    unfold good_history in Hg. unfold good_outcomes in Ho. rewrite Forall_forall in Hg, Ho, M. destruct (Hg a Ha) as [Oa Aa], (Ho a Ha) as [Ka La].
    pose proof (OutcomeLoad.no_collision _ T) as nocoll. split.
    + eapply (settled_hashes_ok (ordinal a) (ordinal s) (ordinal s')); try done; [by apply M; right|by apply M; right; left|by apply state_texts_in; right|by apply state_texts_in; left].
    + eapply (settled_hashes_later (ordinal a) (ordinal s) (ordinal s')); try done. apply M. right. by left.
  - destruct v; [by eapply Hstill, v4_only_still, reference_v4_only|by eapply Hstill, reference_v5_still].
  - by apply Hstill, elsewhere_still.
Qed.

Lemma history_outcomes past : history past -> sound_hashes past -> good_outcomes past.
Proof.
  induction 1 as [s Hu|s s' past Hh IH O]; intros Hs.
  - constructor; [|constructor]. split; [by apply untouched_outcomes|done].
  - pose proof (IH (sound_tail _ _ Hs)) as Ho. destruct (op_outcomes past s s' (history_good _ Hh) Ho Hs O) as [K A]. constructor; [split; [done|done]|].
    eapply Forall_impl; [exact Ho|]. intros a [Ka Aa]. split; [done|]. by etrans.
Qed.

Lemma history_outcomes_ok past s : history (s :: past) -> sound_hashes (s :: past) -> outcomes_ok (ordinal s).
Proof. intros Hh Hs. pose proof (history_outcomes _ Hh Hs) as Ho. by apply Forall_cons in Ho as [[? _] _]. Qed.
End runs.
End OrdinalRuns.
