(* ===== verification/OrdinalProps.v ===== *)
(** * What the ordinal ledgers promise

    Theorems on every interleaved history of the V4 and V5 ledgers. *)

From S2P Require Import Prelude GoBytes Ordering FactId FactSet Sha256 OutcomeSet OutcomeLists OutcomeBuild OutcomeVerify OutcomeLoad OutcomeStore OutcomeNames LedgerStore ExposureLedger OutcomeRadix Ordinal Roaring Bitmap Portable HybridSet HybridTheory HybridStore HybridStoreTheory V5Facts OrdinalTables OrdinalLedger OrdinalTheory OrdinalInvariant OrdinalSteps OrdinalHashes OrdinalHashSteps OrdinalRuns.
Import FactId(SQLLiterals).
Import Ordinal Bitmap Portable HybridSet HybridTheory HybridStore HybridStoreTheory V5Facts OrdinalTables OrdinalLedger OrdinalTheory OrdinalInvariant OrdinalSteps OrdinalRuns.
Import OutcomeSet(dynSHA256, OutcomeHashTextV5, buildOutcomeHashSetFromBinaryV5, objSet, SetSHA256).
Import OutcomeNames(stored_hashes, nm_members, nm_head, named_hashes).
Import OrdinalHashes.
Import Store(Store, ordinal, exposureReserved, exposureSettled, ExposureLimits, OutcomeFacts).
Import ExposureLedger(ordinal_version, V4, V5, zero_limits, limit_of, ExposureCharge, cCharged, cActual, cObservationSHA256).
Import FactSet(part, PRelease, PInfluence, POutcome).

Module OrdinalProps.

Section props.
Context `{SQLLiterals} {B : Type} `{!Roaring B, !RoaringLaws B}.
Implicit Types (s : Store OrdinalTables) (v : ordinal_version) (x : OrdinalExposureObservation B) (past : list (Store OrdinalTables)) (h : OrdinalRootHead).

(** The set a digest names in a state. *)
Abbreviation named_in s d := (named (B := B) (hybrid (ordinal s)) d).
Abbreviation heads_of v s := (heads (ledger v (ordinal s))).
Abbreviation rows_of v s := (rows (ledger v (ordinal s))).
Abbreviation observations_of v s := (observations (ledger v (ordinal s))).

(** The facts a digest names in a dimension.  V5 keeps outcomes as hash sets;
    every other dimension is a hybrid set. *)
Definition content_of (hash : bytes) : Ordinal.FactRef + string := inr (OutcomeHashTextV5 hash).
Definition facts_in v (p : part) s (d : string) : list (Ordinal.FactRef + string) :=
  match v, p with
  | V5, POutcome => map content_of (stored_hashes (outcomes (ordinal s)) d)
  | _, _ => named_in s d
  end.

(** Every dimension, given sound hashes for the outcomes of V5. *)
Definition exact_part v (p : part) past : Prop := hybrid_part v p \/ sound_hashes past.

Lemma facts_hybrid v p s d : hybrid_part v p -> facts_in v p s d = named_in s d.
Proof. by intros [E|Hp]; destruct v, p. Qed.

Lemma part_cases v p past : exact_part v p past -> hybrid_part v p \/ v = V5 /\ p = POutcome /\ sound_hashes past.
Proof. intros [?|S]; [by left|]. destruct v; [left; by left|]. destruct p; [left; by right|left; by right|by right]. Qed.

#[local] Instance content_inj : Inj (=) (=) content_of.
Proof. intros a b [= E]. by apply hex_encode_inj. Qed.

Lemma elem_content (x : bytes) l : content_of x ∈ map content_of l <-> x ∈ l.
Proof. apply (list_elem_of_fmap_inj content_of). Qed.

Lemma content_novelty X Y : novelty (map content_of X) (map content_of Y) = map content_of (filter (fun y => y ∉ X) Y).
Proof.
  unfold novelty. induction Y as [|y Y IH]; [done|]. cbn [map]. destruct (decide (y ∈ X)) as [Hy|Hy].
  - rewrite !filter_cons_False; [done|naive_solver|]. intros Hn. by apply Hn, elem_content.
  - rewrite !filter_cons_True; [cbn [map]; by rewrite IH|done|]. by rewrite elem_content.
Qed.

Lemma shown_nodup o root : NoDup (map content_of (shown_hashes o root)).
Proof. apply (NoDup_fmap_2 content_of), nodup_of_strict. rewrite <- shown_sorted. apply OutcomeLists.unique_sorted. Qed.

(** The outcomes of a V5 head, and of an observation its root has seen. *)
Lemma head_outcomes past s root h : history (B := B) (s :: past) -> sound_hashes (s :: past) -> heads_of V5 s !! root = Some h ->
  facts_in V5 POutcome s (hOutcomeSet h) = map content_of (shown_hashes (ordinal s) root) /\ OutcomeFacts (hUsed h) = Z.of_nat (length (shown_hashes (ordinal s) root)).
Proof.
  intros Hrun Hs Hh. pose proof (history_outcomes_ok _ _ Hrun Hs) as K. cbn [facts_in]. rewrite (head_hashes _ root h K Hh). split; [done|]. by apply (ha_head _ K).
Qed.

Lemma seen_outcomes past s root d b : history (B := B) (s :: past) -> sound_hashes (s :: past) -> is_Some (root_observations (ledger V5 (ordinal s)) !! (root, d)) ->
  observations_of V5 s !! d = Some b -> facts_in V5 POutcome s (bOutcome b) ⊆ map content_of (shown_hashes (ordinal s) root) /\
  OutcomeFacts (bActual b) = Z.of_nat (length (facts_in V5 POutcome s (bOutcome b))).
Proof.
  intros Hrun Hs [ro Hro] Hb. pose proof (history_outcomes_ok _ _ Hrun Hs) as K. cbn [facts_in]. split.
  - intros f (x & -> & Hx)%list_elem_of_fmap. apply elem_content, elem_shown. by exists d, ro, b.
  - destruct (ha_observation _ K d b Hb) as (C & HC & E). by rewrite length_map, (named_hashes _ _ C (ha_written _ K) HC).
Qed.

(** C7: The ordinal ledgers are exact in every interleaving.  In every state of
    every history of heads, reservations, releases, settlements from stale reads
    and references, what a root head has used is in each dimension the sum of
    what the reservations of its family were charged, is within its limit, and is
    the number of distinct facts of the set the head names, which loads back
    whole.  The outcome set of a V5 head is the hash set built from the outcomes
    of all observations its family has seen, as long as no two of the texts hashed
    on the way collide. *)
Theorem heads_exact v past s root h (Hrun : history (B := B) (s :: past)) (Hh : heads_of v s !! root = Some h) :
  (forall p, limit_of p (hUsed h) = msum (charged_in root p) (rows_of v s) /\ 0 <= limit_of p (hUsed h) <= limit_of p (hLimits h)) /\
  (forall p, exact_part v p (s :: past) -> limit_of p (hUsed h) = Z.of_nat (length (facts_in v p s (head_set p h))) /\ NoDup (facts_in v p s (head_set p h))) /\
  (forall p, hybrid_part v p -> head_set p h <> "" -> exists set, loadOrdinalSetTx (B := B) (hybrid (ordinal s)) (head_set p h) = Ok (set, hDictionarySetDigest h) /\
      cardinality set = limit_of p (hUsed h)) /\
  (v = V5 -> sound_hashes (s :: past) -> stored_hashes (outcomes (ordinal s)) (hOutcomeSet h) = shown_hashes (ordinal s) root /\
    (hOutcomeSet h <> "" -> forall g, buildOutcomeHashSetFromBinaryV5 (shown_hashes (ordinal s) root) = Ok g -> hOutcomeSet h = SetSHA256 (objSet g))).
Proof.
  pose proof (history_ok _ _ Hrun) as K. pose proof (oo_ledger _ K v) as Kl. pose proof (lo_head _ _ _ Kl root h Hh) as Kh. split; [|split; [|split]].
  - intros p. split; [by apply (lo_used _ _ _ Kl)|by apply Kh].
  - intros p [Hp|(-> & -> & Hs)]%part_cases.
    + rewrite (facts_hybrid v p s _ Hp). destruct (ho_contents _ _ _ Kh p Hp) as (X & HX & Hu). rewrite (named_head _ _ _ _ HX). split; [done|].
      destruct HX as [[F ->]|S]; [constructor|by apply set_of_nodup in S as [? _]].
    + destruct (head_outcomes past s root h Hrun Hs Hh) as [E Eu]. cbn [head_set limit_of]. rewrite E, length_map. split; [done|apply shown_nodup].
  - intros p Hp Hne. destruct (ho_contents _ _ _ Kh p Hp) as (X & [[F ->]|S] & Hu).
    + destruct F as (_ & E1 & E2 & E3 & _). destruct p; cbn in Hne; congruence.
    + destruct (set_of_load _ _ _ _ S) as (set & Hl & Hn & HX & _). exists set. split; [done|]. rewrite (cardinality_contents _ _ Hn), HX. by rewrite Hu.
  - intros -> Hs. pose proof (history_outcomes_ok _ _ Hrun Hs) as Ko. split; [by apply head_hashes|]. intros Hne g Hg. destruct (ha_head _ Ko root h Hh) as [[HM Hd] _].
    destruct Hd as [[? _]|[-> _]]; [done|]. rewrite <- (shown_sorted (ordinal s) root) in Hg, HM. apply OutcomeBuild.build_graph in Hg as [Eg _]; [|by rewrite shown_sorted].
    by rewrite Eg, !shown_sorted.
Qed.

(** C8: No settled query has shown a fact its family was not charged for: the sets
    of its observation are inside the sets of its root head, over the same
    dictionary, and are as large as the observation says. *)
Theorem settled_inside v past s q r (Hrun : history (B := B) (s :: past)) (Hr : rows_of v s !! q = Some r) (Hsettled : qState r = exposureSettled) :
  exists h b, heads_of v s !! qRoot r = Some h /\ observations_of v s !! qObservation r = Some b /\ hDictionarySetDigest h = bDictionarySet b /\
    forall p, exact_part v p (s :: past) -> facts_in v p s (observed_set p b) ⊆ facts_in v p s (head_set p h) /\
      limit_of p (bActual b) = Z.of_nat (length (facts_in v p s (observed_set p b))).
Proof.
  pose proof (history_ok _ _ Hrun) as K. pose proof (oo_ledger _ K v) as Kl. destruct (lo_settled _ _ _ Kl q r Hr Hsettled) as [ro Hro].
  destruct (lo_seen _ _ _ Kl _ _ ro Hro) as (h & b & Hh & Hb & [Hd Hs] & _). exists h, b. split; [done|]. split; [done|]. split; [done|].
  intros p [Hp|(-> & -> & Hsound)]%part_cases.
  - rewrite !(facts_hybrid v p s _ Hp). destruct (Hs p Hp) as (X & Y & HX & HY & Hsub). destruct (lo_observation _ _ _ Kl _ b Hb) as [_ Hact]. destruct (Hact p Hp) as (X' & HX' & Ha).
    destruct (set_of_unique _ _ _ _ _ _ HX HX') as [_ <-]. by rewrite (named_set _ _ _ _ HX), (named_head _ _ _ _ HY).
  - cbn [observed_set head_set limit_of]. rewrite (proj1 (head_outcomes past s _ h Hrun Hsound Hh)). by apply (seen_outcomes past s _ _ b Hrun Hsound ltac:(by eexists)).
Qed.

(** What a settlement that succeeds did, by the state of its reservation; [past]
    ends with the state it left. *)
Definition settles_exactly v past s s' (q : string) (charge : ExposureCharge) : Prop := exists r, rows_of v s !! q = Some r /\
  ((qState r = exposureSettled /\ forall v', ledger v' (ordinal s') = ledger v' (ordinal s)) \/
   (qState r = exposureReserved /\ exists h h' b r',
     heads_of v s !! qRoot r = Some h /\ heads_of v s' !! qRoot r = Some h' /\
     rows_of v s' !! q = Some r' /\ qState r' = exposureSettled /\ qCharged r' = cCharged charge /\ qObservation r' = cObservationSHA256 charge /\
     observations_of v s' !! cObservationSHA256 charge = Some b /\ cActual charge = bActual b /\
     hUsed h' = add_limits (hUsed h) (cCharged charge) /\
     (hEpoch h' = hEpoch h + 1 \/ h' = h /\ cCharged charge = zero_limits) /\
     forall p, exact_part v p past ->
       limit_of p (cCharged charge) = Z.of_nat (length (novelty (facts_in v p s (head_set p h)) (facts_in v p s' (observed_set p b)))) /\
       facts_in v p s' (head_set p h') ≡ₚ facts_in v p s (head_set p h) ++ novelty (facts_in v p s (head_set p h)) (facts_in v p s' (observed_set p b)))).

(** The outcomes of a root after a settlement: those of before and the new ones. *)
Lemma settlement_shown t t' o o' q r r' h h' obs c d b (x : bytes) : ordinal_ok (B := B) o -> outcomes_ok o -> outcomes_ok o' -> hashes_later o o' ->
  settlement (B := B) V5 t t' (v5 o) (v5 o') q r r' h h' obs c d b ->
  x ∈ shown_hashes o' (qRoot r) <-> x ∈ shown_hashes o (qRoot r) \/ x ∈ stored_hashes (outcomes o') (bOutcome b).
Proof.
  intros K Ko Ko' L S. split.
  - intros (k & ro & y & Hro & Hy & Hx)%elem_shown. destruct (se_seen_new _ _ _ _ _ _ _ _ _ _ _ _ _ _ S _ _ Hro) as [Hro'|[[= ->] _]].
    + left. apply elem_shown. destruct (lo_seen _ _ _ (oo_ledger _ K V5) _ _ _ Hro') as (_ & y' & _ & Hy' & _). cbn in Hy'.
      pose proof (se_kept _ _ _ _ _ _ _ _ _ _ _ _ _ _ S _ _ Hy') as Hy2. rewrite Hy in Hy2. injection Hy2 as <-. exists k, ro, y. split; [done|]. split; [done|].
      by rewrite <- (later_observed o o' k y Ko Ko' L Hy').
    + right. rewrite (se_observation _ _ _ _ _ _ _ _ _ _ _ _ _ _ S) in Hy. by injection Hy as <-.
  - intros [Hx|Hx]; [by apply (later_shown o o' (qRoot r) Ko Ko' L)|]. apply elem_shown. destruct (se_seen _ _ _ _ _ _ _ _ _ _ _ _ _ _ S) as [ro Hro].
    exists d, ro, b. split; [done|]. split; [|done]. exact (se_observation _ _ _ _ _ _ _ _ _ _ _ _ _ _ S).
Qed.

Lemma settlement_outcomes past t t' s s' q r r' h h' obs c d b : history (B := B) (s' :: s :: past) -> history (B := B) (s :: past) -> sound_hashes (s' :: s :: past) ->
  settlement (B := B) V5 t t' (v5 (ordinal s)) (v5 (ordinal s')) q r r' h h' obs c d b ->
  OutcomeFacts c = Z.of_nat (length (novelty (facts_in V5 POutcome s (hOutcomeSet h)) (facts_in V5 POutcome s' (bOutcome b)))) /\
  facts_in V5 POutcome s' (hOutcomeSet h') ≡ₚ facts_in V5 POutcome s (hOutcomeSet h) ++ novelty (facts_in V5 POutcome s (hOutcomeSet h)) (facts_in V5 POutcome s' (bOutcome b)).
Proof.
  intros Hrun' Hrun Hs S. pose proof (history_ok _ _ Hrun) as K. pose proof (history_outcomes _ Hrun' Hs) as Ho. unfold good_outcomes in Ho. rewrite Forall_forall in Ho.
  destruct (Ho s') as [Ko' _]; [by left|]. destruct (Ho s) as [Ko L]; [right; by left|].
  assert (heads_of V5 s' !! qRoot r = Some h') as Hh' by (cbn; by rewrite (se_heads _ _ _ _ _ _ _ _ _ _ _ _ _ _ S), lookup_insert_eq).
  destruct (head_outcomes past s _ h Hrun (sound_tail _ _ Hs) (se_head _ _ _ _ _ _ _ _ _ _ _ _ _ _ S)) as [E Eu].
  destruct (head_outcomes (s :: past) s' _ h' Hrun' Hs Hh') as [E' Eu']. rewrite E, E'.
  assert (map content_of (shown_hashes (ordinal s') (qRoot r)) ≡ₚ map content_of (shown_hashes (ordinal s) (qRoot r)) ++
    novelty (map content_of (shown_hashes (ordinal s) (qRoot r))) (facts_in V5 POutcome s' (bOutcome b))) as HP.
  { cbn [facts_in]. rewrite content_novelty, <- map_app. apply (fmap_Permutation content_of), NoDup_Permutation.
    - apply nodup_of_strict. rewrite <- shown_sorted. apply OutcomeLists.unique_sorted.
    - apply NoDup_app. split; [apply nodup_of_strict; rewrite <- shown_sorted; apply OutcomeLists.unique_sorted|]. split; [by intros x Hx [? _]%list_elem_of_filter|].
      apply NoDup_filter, nodup_of_strict, OutcomeLists.unique_sorted.
    - intros x. rewrite (settlement_shown _ _ _ _ _ _ _ _ _ _ _ _ _ x K Ko Ko' L S), elem_of_app, list_elem_of_filter. destruct (decide (x ∈ shown_hashes (ordinal s) (qRoot r))); naive_solver. }
  split; [|done]. apply Permutation_length in HP. rewrite length_app, !length_map in HP.
  pose proof (ch_used _ _ _ _ _ _ _ _ (se_charged _ _ _ _ _ _ _ _ _ _ _ _ _ _ S)) as Hu. rewrite Hu in Eu'. cbn in Eu'. lia.
Qed.

Lemma settle_result_exact v past s s' q charge : history (B := B) (s :: past) -> history (B := B) (s' :: s :: past) ->
  settle_result (B := B) v (ordinal s) (ordinal s') q charge -> settles_exactly v (s' :: s :: past) s s' q charge.
Proof.
  intros Hrun Hrun' (r & Hr & [Hs|(Hs & h & h' & obs & c & d & b & (t & r' & L & S) & Ec & Ed & Ea)]); exists r; (split; [done|]); [by left|right]. split; [done|].
  pose proof (history_ok _ _ Hrun) as K. assert (advance (B := B) (ordinal s) (ordinal s')) as A.
  { pose proof (history_good _ Hrun') as Hg. unfold good_history in Hg. rewrite Forall_forall in Hg. apply Hg. right. by left. }
  pose proof (se_charged _ _ _ _ _ _ _ _ _ _ _ _ _ _ S) as C. pose proof (se_head _ _ _ _ _ _ _ _ _ _ _ _ _ _ S) as Hh.
  destruct (se_settled _ _ _ _ _ _ _ _ _ _ _ _ _ _ S) as (_ & E1 & E2 & E3). exists h, h', b, r'. split; [done|].
  split; [by rewrite (se_heads _ _ _ _ _ _ _ _ _ _ _ _ _ _ S), lookup_insert_eq|]. split; [by rewrite (se_rows _ _ _ _ _ _ _ _ _ _ _ _ _ _ S), lookup_insert_eq|].
  split; [done|]. split; [by rewrite Ec|]. split; [by rewrite Ed|]. split; [rewrite Ed; by apply (se_observation _ _ _ _ _ _ _ _ _ _ _ _ _ _ S)|]. split; [done|].
  rewrite Ec. split; [by apply C|]. split; [destruct (ch_moved _ _ _ _ _ _ _ _ C) as [[? ?]|?]; auto|]. intros p [Hp|(-> & -> & Hsound)]%part_cases.
  - rewrite !(facts_hybrid v p _ _ Hp). destruct (ch_parts _ _ _ _ _ _ _ _ C p Hp) as (X & Y & HX & HY & HP & Hl). destruct (se_sets _ _ _ _ _ _ _ _ _ _ _ _ _ _ S p Hp) as [Hobs _].
    assert (head_ok (B := B) v (hybrid (ordinal s)) h) as Kh by (by eapply (lo_head _ _ _ (oo_ledger _ K v))).
    rewrite <- (named_later v _ _ h p (ad_tables _ _ A) Kh Hp), (named_head _ _ _ _ HX), (named_head _ _ _ _ HY), (named_set _ _ _ _ Hobs). done.
  - by eapply settlement_outcomes.
Qed.

(** C6: Settlements are linearizable.  In every history, a settlement that reads its
    head and its observation in any earlier states, when it succeeds, charges in
    each dimension exactly the observed facts that are not in the head at the
    moment it commits; the new head names the union, has used that much more and
    is one epoch further, or nothing was new and it is the same; and settling
    again changes no ledger.  For the outcomes of V5 no two of the texts hashed so
    far may collide. *)
Theorem settlement_linear v past s (a b : Store OrdinalTables) now q x s' charge (Hrun : history (B := B) (s :: past)) (Ha : a ∈ s :: past) (Hb : b ∈ s :: past) (Hin : observation_input x)
    (Hs : settle_from v a b s now q x = Ok (s', charge)) : settles_exactly v (s' :: s :: past) s s' q charge.
Proof.
  pose proof (history_good _ Hrun) as Hg. destruct (settle_from_ok past v a b s now q x s' charge Hg Ha Hb Hin Hs) as (_ & _ & R).
  apply settle_result_exact; [done| |done]. apply history_step; [done|]. exact (op_settle _ _ _ v a b now q x charge Ha Hb Hin Hs).
Qed.

(** C9: A reference is free, and rightly so: in every history a reference that
    settles a reserved query charges nothing, leaves every head as it is, and all
    facts of the observation it names are already in the head. *)
Theorem reference_free v past s now q rf s' charge r (Hrun : history (B := B) (s :: past)) (Hr : rows_of v s !! q = Some r) (Hres : qState r = exposureReserved)
    (Hs : settle_reference v s now q rf = Ok (s', charge)) :
  cCharged charge = zero_limits /\ heads_of v s' = heads_of v s /\
  exists h b, heads_of v s !! qRoot r = Some h /\ observations_of v s !! rfObservation rf = Some b /\ cActual charge = bActual b /\
    forall p, exact_part v p (s :: past) -> facts_in v p s (observed_set p b) ⊆ facts_in v p s (head_set p h).
Proof.
  pose proof (history_ok _ _ Hrun) as K. destruct (settle_reference_ok v s now q rf s' charge K Hs) as (_ & _ & r2 & Hr2 & [[E _]|(_ & head & obs & b & S & Hb & [ro Hro] & Ec & _ & Ea)]).
  - rewrite Hr in Hr2. injection Hr2 as <-. by rewrite Hres in E.
  - rewrite Hr in Hr2. injection Hr2 as <-. destruct S as (t & r' & _ & S). pose proof (se_head _ _ _ _ _ _ _ _ _ _ _ _ _ _ S) as Hh. split; [done|].
    split; [by rewrite (se_heads _ _ _ _ _ _ _ _ _ _ _ _ _ _ S), insert_id|]. exists head, b. split; [done|]. split; [done|]. split; [done|].
    intros p [Hp|(-> & -> & Hsound)]%part_cases.
    + rewrite !(facts_hybrid v p s _ Hp). destruct (lo_seen _ _ _ (oo_ledger _ K v) _ _ ro Hro) as (h2 & b2 & Hh2 & Hb2 & [_ Hsh] & _). rewrite Hh in Hh2. injection Hh2 as <-. rewrite Hb in Hb2. injection Hb2 as <-.
      destruct (Hsh p Hp) as (X & Y & HX & HY & Hsub). by rewrite (named_set _ _ _ _ HX), (named_head _ _ _ _ HY).
    + cbn [observed_set head_set]. rewrite (proj1 (head_outcomes past s _ head Hrun Hsound Hh)). by apply (seen_outcomes past s _ _ b Hrun Hsound ltac:(by eexists)).
Qed.

(** C10: Exposure is never forgotten.  Between any two states of a history every head
    keeps its limits, profile and place in the order of epochs, the sets it names
    only grow, in every dimension, a head at the same epoch is the same head, and
    settled reservations are final. *)
Theorem exposure_kept v past s (a : Store OrdinalTables) root h (Hrun : history (B := B) (s :: past)) (Ha : a ∈ s :: past) (Hh : heads_of v a !! root = Some h) :
  (exists h', heads_of v s !! root = Some h' /\ hLimits h' = hLimits h /\ hProfileVersion h' = hProfileVersion h /\ (hEpoch h < hEpoch h' \/ h' = h) /\
    forall p, exact_part v p (s :: past) -> facts_in v p a (head_set p h) ⊆ facts_in v p s (head_set p h')) /\
  forall q r, rows_of v a !! q = Some r -> qState r = exposureSettled -> rows_of v s !! q = Some r.
Proof.
  pose proof (history_good _ Hrun) as Hg. unfold good_history in Hg. rewrite Forall_forall in Hg. pose proof (Hg a Ha) as [Ka A]. clear Hg. pose proof (ad_ledger _ _ A v) as L. split.
  - destruct (lt_head _ _ _ _ L root h Hh) as (h' & Hh' & G). exists h'. split; [done|]. split; [by apply G|]. split; [by apply G|].
    split; [destruct (gr_same _ _ _ _ G) as [?|?]; [by right|by left]|]. intros p [Hp|(-> & -> & Hsound)]%part_cases.
    + rewrite !(facts_hybrid v p _ _ Hp). destruct (gr_contents _ _ _ _ G p Hp) as (X & Y & HX & HY & Hsub).
      rewrite <- (named_later v _ _ h p (ad_tables _ _ A) (lo_head _ _ _ (oo_ledger _ Ka v) root h Hh) Hp), (named_head _ _ _ _ HX), (named_head _ _ _ _ HY). done.
    + pose proof (history_outcomes _ Hrun Hsound) as Ho. unfold good_outcomes in Ho. rewrite Forall_forall in Ho. destruct (Ho a Ha) as [Ko Lo], (Ho s) as [Ks _]; [by left|].
      cbn [head_set]. rewrite (proj1 (head_outcomes past s _ h' Hrun Hsound Hh')). cbn [facts_in]. rewrite (head_hashes _ root h Ko Hh).
      intros f (x & -> & Hx)%list_elem_of_fmap. apply elem_content. by apply (later_shown _ _ root Ko Ks Lo).
  - intros q r Hr Hs. destruct (lt_row _ _ _ _ L q r Hr) as (r' & Hr' & _ & E). by rewrite Hr', (E Hs).
Qed.

(** C11: What is written is what is read.  In every history a set that was normalized
    from an observation and persisted loads back under its digest: the same
    dictionary, the same dictionary facts, and the observation's other facts, each
    once, with their payloads; its size is the number of both. *)
Theorem set_round_trip past s known q dict (x : OrdinalHybridSet B) kind kinds t1 set t2 (Hrun : history (B := B) (s :: past)) (Hin : input_ok x)
    (Hnormal : normalizeOrdinalSetTx (hybrid (ordinal s)) known q dict x kind kinds = Ok (t1, set)) (Hpersist : persistOrdinalSetTx t1 dict set = Ok t2) :
  exists set', loadOrdinalSetTx (B := B) t2 (digest set) = Ok (set', dict) /\ Refs (static set') = Refs (hsStatic x) /\
    (forall f, f ∈ dynamic set' <-> f ∈ hsDynamicFacts x) /\ NoDup (map dynSHA256 (dynamic set')) /\
    cardinality set' = Z.of_nat (length (Refs (hsStatic x)) + length (dynamic set')).
Proof.
  pose proof (history_ok _ _ Hrun) as K. apply normalize_set_ok in Hnormal as (L & Hok & [Hn Hf] & Es & Hfo & _); [|done].
  apply hybrid_persist_ok in Hpersist as (_ & S & _); [|by apply Hok, K|done..]. destruct (load_stored _ _ _ Hn S) as (set' & Hl & Hsame & Hn'). exists set'. split; [done|].
  assert (Refs (static set') = Refs (hsStatic x)) as ER.
  { rewrite <- Es. apply Refs_ext; [apply Hn'|apply Hn|]. intros ref. symmetry. apply (sa_static _ _ Hsame). }
  split; [done|]. rewrite <- (sa_dynamic _ _ Hsame). split; [apply Hfo|]. split; [apply nodup_of_strict, Hfo|].
  rewrite (cardinality_contents _ _ Hn'), contents_length, ER, <- (sa_dynamic _ _ Hsame). lia.
Qed.
End props.
End OrdinalProps.
