(* ===== verification/OrdinalDemo.v ===== *)
(** * A history of the ordinal ledgers

    Task [t] reserves for four queries in V4.  Two settle observations that
    overlap, the third settles the first observation again from a head that has
    moved since, the fourth settles by reference to it.  Task [u] settles one query in V5. *)

From S2P Require Import Prelude GoBytes Ordering Sha256 FactId FactSet OutcomeSet LedgerStore ExposureLedger OutcomeRadix Ordinal Roaring Bitmap Portable HybridSet HybridTheory HybridStore HybridStoreTheory V5Facts OrdinalTables OrdinalLedger OrdinalTheory OrdinalInvariant OrdinalSteps Witness OutcomeLoad OutcomeProps OrdinalHashes OrdinalRuns OrdinalProps.
Import FactId(SQLLiterals, text_literals, ProfileV4, ProfileV5, PredicateFootprintVersion, CanonicalPayload, zeros).
Import Sha256 Ordinal Bitmap Portable HybridSet HybridTheory HybridStore V5Facts OrdinalTables OrdinalLedger OrdinalTheory OrdinalInvariant OrdinalSteps OrdinalHashes OrdinalRuns OrdinalProps.
Import OutcomeSet(OrdinalDynamicFact, MkDynamicFact).
Import Store(Store, MkStore, MkTask, MkGrantRow, MkLimits, MkBudget, MkQuery, MkExposure, MkExposureGrant, PredicateFootprintLimitsV1, TaskActive, QueryCompleted,
  ordinal, tasks, exposureReserved, exposureSettled, ExposureLimits, BudgetSnapshot, QueryRecord, ReleaseFacts, OutcomeFacts, ErrConflict).
Import ExposureLedger(ordinal_version, V4, V5, zero_limits, limit_of, ExposureCharge, cCharged, cActual, cObservationSHA256).
Import FactSet(part, PRelease, PInfluence, POutcome).

Module OrdinalDemo.
#[local] Existing Instance text_literals.
Abbreviation L := ListBitmap.listed.

Definition demo_tables : HybridTables :=
  MkHybridTables {[ zeros := zeros ]} {[ (zeros, demo_dict) ]}
    {[ Seg demo_dict "s2" := (9, base_cell); Seg demo_dict "s3" := (9, base_cell) ]} ∅ ∅ ∅ ∅ ∅.
Definition demo_ordinals : OrdinalTables := MkOrdinalTables None demo_tables ∅ (OutcomeRadix.MkObjectStore ∅ ∅ ∅) empty_ledger empty_ledger.
Definition demo_limits := MkExposure 5 5 5.
Definition demo_predicates := Store.Build_PredicateFootprintLimitsV1 "taskgate-predicate-footprint-v1" 10 10 1000 10000.
Definition demo_grant (profile : string) predicates := MkGrantRow "ann" "sales" [] ∅ "{}" "low" (MkLimits 5 100 1000) 1 "v1" zeros "db" zeros "r" 1 "" profile demo_limits predicates.
Definition demo_task (id : string) := MkTask id "p" "sales" TaskActive "" "v1" "low" "" "" 1 1 None id "".
Definition demo_budget (id : string) := MkBudget id (MkLimits 5 100 1000) (Store.MkUsage 0 0 0 0 0 0) 0.
Definition demo_query (id task : string) : QueryRecord :=
  MkQuery id task id "ann" "d" "fp" "v1" zeros "db" zeros "" zeros zeros "allow" QueryCompleted 10 10 0 0 0 0 0 0 (demo_budget task) None "" "" 1 None.

(** The store before the first head. *)
Definition demo0 : Store OrdinalTables := MkStore _ ∅ {[ "t" := demo_task "t"; "u" := demo_task "u" ]}
  {[ "t" := demo_grant ProfileV4 None; "u" := demo_grant ProfileV5 (Some demo_predicates) ]} ∅ ∅ ∅ ∅ ∅ ∅
  {[ "q1" := demo_query "q1" "t"; "q2" := demo_query "q2" "t"; "q3" := demo_query "q3" "t"; "q4" := demo_query "q4" "u"; "q5" := demo_query "q5" "t" ]} ∅ ∅ ∅ ∅ [] demo_ordinals.

(** Observations: dictionary facts and a fact of the outcome. *)
Definition outcome_fact (payload : string) : OrdinalDynamicFact :=
  MkDynamicFact (hex_sum (dynamic_material OrdinalDynamicOutcome (to_bytes payload))) OrdinalDynamicOutcome (to_bytes payload).
Definition observation_v4_of (refs : list FactRef) (payload : string) : OrdinalExposureObservation L :=
  MkExposureObservation L ProfileV4 zeros (MkHybridSet (built refs) []) (MkHybridSet (built refs) []) (MkHybridSet (MkSet ∅) [outcome_fact payload]) "".
Definition first_refs := [demo_ref "s2" 1].
Definition second_refs := [demo_ref "s2" 1; demo_ref "s3" 5].
Definition demo_first := observation_v4_of first_refs "one row".
Definition demo_second := observation_v4_of second_refs "two rows".

Definition after {A} (r : result (Store OrdinalTables * A)) : Store OrdinalTables := match r with Ok (s, _) => s | Err _ => demo0 end.
Definition then_ (r : result (Store OrdinalTables)) : Store OrdinalTables := match r with Ok s => s | Err _ => demo0 end.

Definition ensure_in s v task predicates :=
  ExposureLedger.ord_ensure (OrdinalExposure := ordinal_ledgers (B := L)) v s task (MkExposureGrant demo_limits (match v with V4 => ProfileV4 | V5 => ProfileV5 end) predicates) 1.
Definition reserve_in s v q task estimated :=
  ExposureLedger.ord_reserve (OrdinalExposure := ordinal_ledgers (B := L)) v s q task (Some (MkExposure 4 4 estimated)) (match v with V4 => ProfileV4 | V5 => ProfileV5 end) 2.

Definition op1 := ensure_in demo0 V4 "t" None.
Definition op2 := reserve_in (then_ op1) V4 "q1" "t" 1.
Definition op3 := reserve_in (then_ op2) V4 "q2" "t" 1.
Definition op4 := reserve_in (then_ op3) V4 "q3" "t" 1.
Definition op5 := reserve_in (then_ op4) V4 "q5" "t" 1.
Definition demo_open : Store OrdinalTables := then_ op5.
Definition op6 := settle_from V4 demo_open demo_open demo_open 5 "q1" demo_first.
Definition demo_one : Store OrdinalTables := after op6.
Definition op7 := settle_from V4 demo_one demo_open demo_one 6 "q2" demo_second.
Definition demo_two : Store OrdinalTables := after op7.
Definition op8 := settle_from V4 demo_one demo_open demo_two 7 "q3" demo_first.
Definition demo_three : Store OrdinalTables := after op8.
Definition demo_reference : OrdinalObservationReference := MkReference (match op6 with Ok (_, c) => cObservationSHA256 c | Err _ => "" end) zeros.
Definition op9 := settle_reference V4 demo_three 8 "q5" demo_reference.
Definition demo_four : Store OrdinalTables := after op9.
Definition charge_of {A} (r : result (A * ExposureCharge)) : ExposureLimits := match r with Ok (_, c) => cCharged c | Err _ => zero_limits end.

(** V5: an atom and the composite that counts it. *)
Definition payload_of (fact : FactId.FactID) : bytes := match CanonicalPayload fact with Ok p => p | Err _ => [] end.
Definition v5_fact (kind : string) (fact : FactId.FactID) : OrdinalDynamicFact := MkDynamicFact (hex_sum (v5FactDomain ++ payload_of fact)) kind (payload_of fact).
Definition demo_atom := v5_fact OrdinalDynamicPredicateAtom (FactSet.north).
Definition demo_composite := v5_fact OrdinalDynamicCompositeOutcome
  (composite_fact_v5 "taskgate-query-normal-form-v4" zeros zeros 2 zeros (v5PredicateHashSet [OutcomeSet.dynSHA256 demo_atom]) 1).
Definition demo_v5 : OrdinalExposureObservation L :=
  MkExposureObservation L ProfileV5 zeros (MkHybridSet (built first_refs) []) (MkHybridSet (MkSet ∅) []) (MkHybridSet (MkSet ∅) [demo_composite; demo_atom]) "".

Definition op10 := ensure_in demo_four V5 "u" (Some demo_predicates).
Definition op11 := reserve_in (then_ op10) V5 "q4" "u" 2.
Definition demo_five : Store OrdinalTables := then_ op11.
Definition op12 := settle_from V5 demo_five demo_five demo_five 9 "q4" demo_v5.
Definition demo_last : Store OrdinalTables := after op12.

(** What the run does, evaluated once. *)
Definition used_in v (s : Store OrdinalTables) (root : string) : option ExposureLimits := hUsed <$> heads (ledger v (ordinal s)) !! root.
Definition row_is v (s : Store OrdinalTables) (q state : string) : bool := match rows (ledger v (ordinal s)) !! q with Some r => bool_decide (qState r = state) | None => false end.
Definition good_input (x : OrdinalExposureObservation L) : bool :=
  forallb (fun set => Z.of_nat (length (Refs (hsStatic set))) <=? max_uint64) [xRelease x; xInfluence x; xOutcome x].
(** The states, the latest first, and what their hash sets rely on. *)
Definition past_open : list (Store OrdinalTables) := [then_ op4; then_ op3; then_ op2; then_ op1; demo0].
Definition past_two : list (Store OrdinalTables) := demo_one :: demo_open :: past_open.
Definition past_four : list (Store OrdinalTables) := demo_three :: demo_two :: past_two.
Definition past_last : list (Store OrdinalTables) := demo_five :: then_ op10 :: demo_four :: past_four.
Definition demo_states : list (Store OrdinalTables) := demo_last :: past_last.

Definition modest_check (o : OrdinalTables) : bool :=
  forallb (fun kh : string * OrdinalRootHead => OutcomeFacts (hLimits kh.2) <? 2 ^ 30) (map_to_list (heads (v5 o))) &&
  forallb (fun kr : string * ReservationRow => OutcomeFacts (qEstimated kr.2) <? 2 ^ 30) (map_to_list (rows (v5 o))).
Definition buildable (hs : list bytes) : bool :=
  forallb (fun h => Nat.eqb (length h) 32) hs && (Z.of_nat (length hs) <? 2 ^ 31) && is_ok (OutcomeSet.buildOutcomeHashSetFromBinaryV5 hs).
Definition shown_check (o : OrdinalTables) : bool := forallb (fun kh : string * OrdinalRootHead => buildable (shown_hashes o kh.1)) (map_to_list (heads (v5 o))).
Definition texts_check (o : OrdinalTables) : list bytes :=
  OutcomeLoad.store_texts (outcomes o) ++ flat_map (fun kh : string * OrdinalRootHead => OutcomeProps.texts_of (shown_hashes o kh.1)) (map_to_list (heads (v5 o))).
Definition distinct_sums (xs : list bytes) : bool :=
  let sums := map (fun x => (x, Sha256.Sum256 x)) xs in
  forallb (fun p => forallb (fun q => bool_decide (p.1 = q.1) || negb (bool_decide (p.2 = q.2))) sums) sums.
Definition sound_check : bool :=
  forallb (fun s => modest_check (ordinal s) && shown_check (ordinal s)) demo_states && distinct_sums (flat_map (fun s => texts_check (ordinal s)) demo_states).

Definition demo_checks : bool :=
  sound_check && (
  is_ok op1 && (is_ok op2 && (is_ok op3 && (is_ok op4 && (is_ok op5 && (is_ok op6 && (is_ok op7 && (is_ok op8 && (is_ok op9 && (is_ok op10 && (is_ok
  op11 && (is_ok op12 && (good_input demo_first && (good_input demo_second && (good_input demo_v5 && (good_refs first_refs && (good_refs second_refs
  && (bool_decide (charge_of op6 = MkExposure 1 1 1) && (bool_decide (charge_of op7 = MkExposure 1 1 1) && (bool_decide (charge_of op8 = zero_limits)
  && (bool_decide (charge_of op9 = zero_limits) && (bool_decide (charge_of op12 = MkExposure 1 0 2) && (bool_decide (used_in V4 demo_last "t" = Some
  (MkExposure 2 2 2)) && (bool_decide (used_in V5 demo_last "u" = Some (MkExposure 1 0 2)) && (row_is V4 demo_one "q1" exposureSettled && (row_is V4
  demo_one "q2" exposureReserved && (row_is V4 demo_three "q5" exposureReserved && (row_is V5 demo_last "q4" exposureSettled
  && (bool_decide (used_in V5 demo_five "u" = Some zero_limits)))))))))))))))))))))))))))))).
Lemma demo_checked : demo_checks = true.
Proof. vm_compute. reflexivity. Qed.

#[local] Opaque op1 op2 op3 op4 op5 op6 op7 op8 op9 op10 op11 op12 demo_first demo_second demo_v5 first_refs second_refs built.

(** ** The history *)
Record run_checked : Prop := {
  rc_sound : sound_check = true;
  rc_1 : is_ok op1 = true;
  rc_2 : is_ok op2 = true;
  rc_3 : is_ok op3 = true;
  rc_4 : is_ok op4 = true;
  rc_5 : is_ok op5 = true;
  rc_6 : is_ok op6 = true;
  rc_7 : is_ok op7 = true;
  rc_8 : is_ok op8 = true;
  rc_9 : is_ok op9 = true;
  rc_10 : is_ok op10 = true;
  rc_11 : is_ok op11 = true;
  rc_12 : is_ok op12 = true;
  rc_13 : good_input demo_first = true;
  rc_14 : good_input demo_second = true;
  rc_15 : good_input demo_v5 = true;
  rc_16 : good_refs first_refs = true;
  rc_17 : good_refs second_refs = true;
  rc_18 : bool_decide (charge_of op6 = MkExposure 1 1 1) = true;
  rc_19 : bool_decide (charge_of op7 = MkExposure 1 1 1) = true;
  rc_20 : bool_decide (charge_of op8 = zero_limits) = true;
  rc_21 : bool_decide (charge_of op9 = zero_limits) = true;
  rc_22 : bool_decide (charge_of op12 = MkExposure 1 0 2) = true;
  rc_23 : bool_decide (used_in V4 demo_last "t" = Some (MkExposure 2 2 2)) = true;
  rc_24 : bool_decide (used_in V5 demo_last "u" = Some (MkExposure 1 0 2)) = true;
  rc_25 : row_is V4 demo_one "q1" exposureSettled = true;
  rc_26 : row_is V4 demo_one "q2" exposureReserved = true;
  rc_27 : row_is V4 demo_three "q5" exposureReserved = true;
  rc_28 : row_is V5 demo_last "q4" exposureSettled = true;
  rc_29 : bool_decide (used_in V5 demo_five "u" = Some zero_limits) = true;
}.
Lemma demo_run : run_checked.
Proof.
  pose proof demo_checked as F0. unfold demo_checks in F0.
  destruct (andb_prop _ _ F0) as [E0 F00]. destruct (andb_prop _ _ F00) as [E1 F1]. destruct (andb_prop _ _ F1) as [E2 F2]. destruct (andb_prop _ _ F2) as [E3 F3].
  destruct (andb_prop _ _ F3) as [E4 F4]. destruct (andb_prop _ _ F4) as [E5 F5]. destruct (andb_prop _ _ F5) as [E6 F6].
  destruct (andb_prop _ _ F6) as [E7 F7]. destruct (andb_prop _ _ F7) as [E8 F8]. destruct (andb_prop _ _ F8) as [E9 F9].
  destruct (andb_prop _ _ F9) as [E10 F10]. destruct (andb_prop _ _ F10) as [E11 F11]. destruct (andb_prop _ _ F11) as [E12 F12].
  destruct (andb_prop _ _ F12) as [E13 F13]. destruct (andb_prop _ _ F13) as [E14 F14]. destruct (andb_prop _ _ F14) as [E15 F15].
  destruct (andb_prop _ _ F15) as [E16 F16]. destruct (andb_prop _ _ F16) as [E17 F17]. destruct (andb_prop _ _ F17) as [E18 F18].
  destruct (andb_prop _ _ F18) as [E19 F19]. destruct (andb_prop _ _ F19) as [E20 F20]. destruct (andb_prop _ _ F20) as [E21 F21].
  destruct (andb_prop _ _ F21) as [E22 F22]. destruct (andb_prop _ _ F22) as [E23 F23]. destruct (andb_prop _ _ F23) as [E24 F24].
  destruct (andb_prop _ _ F24) as [E25 F25]. destruct (andb_prop _ _ F25) as [E26 F26]. destruct (andb_prop _ _ F26) as [E27 F27]. destruct (andb_prop _ _ F27) as [E28 F28].
  exact (Build_run_checked E0 E1 E2 E3 E4 E5 E6 E7 E8 E9 E10 E11 E12 E13 E14 E15 E16 E17 E18 E19 E20 E21 E22 E23 E24 E25 E26 E27 E28 F28).
Qed.

Lemma after_ok {A} (r : result (Store OrdinalTables * A)) : is_ok r = true -> exists x, r = Ok (after r, x).
Proof. destruct r as [[s x]|]; [by exists x|done]. Qed.
Lemma then_ok (r : result (Store OrdinalTables)) : is_ok r = true -> r = Ok (then_ r).
Proof. by destruct r. Qed.

Lemma input_of (x : OrdinalExposureObservation L) : good_input x = true -> wf (hsStatic (xRelease x)) -> wf (hsStatic (xInfluence x)) -> wf (hsStatic (xOutcome x)) -> observation_input x.
Proof. unfold good_input. cbn [forallb]. rewrite !andb_true_iff, !Z.leb_le. intros (? & ? & ? & _) ? ? ?. done. Qed.

Lemma empty_wf : wf (MkSet ∅ : BitmapSet L).
Proof. apply map_Forall_empty. Qed.

Lemma demo_inputs : observation_input demo_first /\ observation_input demo_second /\ observation_input demo_v5.
Proof.
  pose proof (built_wf first_refs (rc_16 demo_run)) as W1. pose proof (built_wf second_refs (rc_17 demo_run)) as W2. split; [|split].
  - apply input_of; [exact (rc_13 demo_run)|exact W1|exact W1|exact empty_wf].
  - apply input_of; [exact (rc_14 demo_run)|exact W2|exact W2|exact empty_wf].
  - apply input_of; [exact (rc_15 demo_run)|exact W1|exact empty_wf|exact empty_wf].
Qed.

(** ** The hash sets of the run are sound *)
Lemma distinct_sums_ok xs : distinct_sums xs = true -> ~ Sha256.collides xs xs.
Proof.
  unfold distinct_sums. cbv zeta. rewrite forallb_forall. intros Hd (x & y & Hx & Hy & Hne & E).
  assert (forall z, z ∈ xs -> In (z, Sha256.Sum256 z) (map (fun x => (x, Sha256.Sum256 x)) xs)) as Hin by (intros z Hz; exact (proj1 (list_elem_of_In _ _) (list_elem_of_fmap_2 (fun x => (x, Sha256.Sum256 x)) xs z Hz))).
  pose proof (Hd _ (Hin x Hx)) as Hx'. rewrite forallb_forall in Hx'. specialize (Hx' _ (Hin y Hy)). cbn [fst snd] in Hx'.
  rewrite bool_decide_false, bool_decide_true in Hx' by done. done.
Qed.

Lemma modest_check_ok o : modest_check o = true -> modest o.
Proof.
  unfold modest_check. rewrite andb_true_iff, !forallb_forall. intros [Hh Hr]. split.
  - intros root h E%elem_of_map_to_list%list_elem_of_In. apply Hh in E. by apply Z.ltb_lt in E.
  - intros q r E%elem_of_map_to_list%list_elem_of_In. apply Hr in E. by apply Z.ltb_lt in E.
Qed.

Lemma texts_check_ok o : shown_check o = true -> state_texts o ⊆ texts_check o.
Proof.
  unfold shown_check. rewrite forallb_forall. intros Hs x. unfold state_texts, texts_check. rewrite !elem_of_app, !Witness.elem_flat_map.
  intros [Hx|([root h] & Hin & Hx)]; [by left|right]. exists (root, h). split; [done|]. cbn [fst] in *. apply list_elem_of_In in Hin. specialize (Hs _ Hin). cbn [fst] in Hs.
  unfold buildable in Hs. rewrite !andb_true_iff, Z.ltb_lt, forallb_forall in Hs. destruct Hs as [[Hl Hn] Hb]. rewrite <- (shown_sorted o root) in Hx.
  apply (OutcomeProps.texts_of_all (shown_hashes o root)); [|done|done|done]. apply Forall_forall. intros y Hy%list_elem_of_In. apply Nat.eqb_eq. by apply Hl.
Qed.

Lemma demo_sound : sound_hashes demo_states.
Proof.
  pose proof (rc_sound demo_run) as E. unfold sound_check in E. apply andb_prop in E as [E T]. rewrite forallb_forall in E.
  assert (forall s, s ∈ demo_states -> modest_check (ordinal s) = true /\ shown_check (ordinal s) = true) as Hall by (intros s Hs%list_elem_of_In; by apply andb_prop, E).
  split.
  - apply Forall_forall. intros s Hs. by apply modest_check_ok, Hall.
  - apply distinct_sums_ok in T. intros Hc. apply T. assert (history_texts demo_states ⊆ flat_map (fun s => texts_check (ordinal s)) demo_states) as Hsub.
    { intros x (s & Hs & Hx)%Witness.elem_flat_map. apply Witness.elem_flat_map. exists s. split; [done|]. apply texts_check_ok; [by apply Hall|done]. }
    by eapply Sha256.collides_sub.
Qed.

End OrdinalDemo.
