(* ===== verification/OrdinalWitness.v ===== *)
(** * The ordinal ledgers' theorems at the demonstration

    The history of [OrdinalDemo], step by step, and each theorem applied to it. *)

From S2P Require Import Prelude GoBytes FactId FactSet OutcomeSet LedgerStore ExposureLedger Ordinal Roaring Bitmap HybridSet HybridTheory HybridStore V5Facts OrdinalTables OrdinalLedger OrdinalTheory OrdinalInvariant OrdinalSteps OrdinalHashes OrdinalRuns OrdinalProps OrdinalOutcomes OrdinalDemo OutcomeLists.
Import FactId(text_literals).
Import HybridSet HybridTheory HybridStore OrdinalTables OrdinalLedger OrdinalTheory OrdinalInvariant OrdinalSteps OrdinalHashes OrdinalRuns OrdinalProps OrdinalOutcomes OrdinalDemo.
Import Store(Store, ordinal, exposureReserved, exposureSettled, ExposureLimits, MkExposure).
Import ExposureLedger(ordinal_version, V4, V5, zero_limits, limit_of, ExposureCharge, cCharged).
Import FactSet(part, PRelease, PInfluence, POutcome).

Module OrdinalWitness.
#[local] Existing Instance text_literals.
Abbreviation demo_history := (history (B := L)).

#[local] Opaque demo0 demo_second demo_v5 demo_reference.

Lemma after_charge (r : result (Store OrdinalTables * ExposureCharge)) d : is_ok r = true -> bool_decide (charge_of r = d) = true ->
  exists c, r = Ok (after r, c) /\ cCharged c = d.
Proof. intros Hr Hd%bool_decide_eq_true. destruct r as [[s c]|]; [by exists c|]. by destruct (Bool.diff_false_true Hr). Qed.

Lemma ran6 : exists c, settle_from V4 demo_open demo_open demo_open 5 "q1" demo_first = Ok (demo_one, c) /\ cCharged c = MkExposure 1 1 1.
Proof. destruct (after_charge op6 _ (rc_6 demo_run) (rc_18 demo_run)) as (c & E & Ec). exists c. split; [|exact Ec]. unfold op6 in E at 1. exact E. Qed.
Lemma ran7 : exists c, settle_from V4 demo_one demo_open demo_one 6 "q2" demo_second = Ok (demo_two, c) /\ cCharged c = MkExposure 1 1 1.
Proof. destruct (after_charge op7 _ (rc_7 demo_run) (rc_19 demo_run)) as (c & E & Ec). exists c. split; [|exact Ec]. unfold op7 in E at 1. exact E. Qed.
Lemma ran8 : exists c, settle_from V4 demo_one demo_open demo_two 7 "q3" demo_first = Ok (demo_three, c) /\ cCharged c = zero_limits.
Proof. destruct (after_charge op8 _ (rc_8 demo_run) (rc_20 demo_run)) as (c & E & Ec). exists c. split; [|exact Ec]. unfold op8 in E at 1. exact E. Qed.
Lemma ran9 : exists c, settle_reference V4 demo_three 8 "q5" demo_reference = Ok (demo_four, c) /\ cCharged c = zero_limits.
Proof. destruct (after_charge op9 _ (rc_9 demo_run) (rc_21 demo_run)) as (c & E & Ec). exists c. split; [|exact Ec]. unfold op9 in E at 1. exact E. Qed.
Lemma ran12 : exists c, settle_from V5 demo_five demo_five demo_five 9 "q4" demo_v5 = Ok (demo_last, c) /\ cCharged c = MkExposure 1 0 2.
Proof. destruct (after_charge op12 _ (rc_12 demo_run) (rc_22 demo_run)) as (c & E & Ec). exists c. split; [|exact Ec]. unfold op12 in E at 1. exact E. Qed.

Lemma history_open : demo_history (demo_open :: past_open).
Proof.
  assert (demo_history [demo0]) as H0 by (constructor; by split).
  assert (demo_history [then_ op1; demo0]) as H1 by (apply history_step; [exact H0|]; exact (op_ensure _ _ _ _ _ _ _ (then_ok op1 (rc_1 demo_run)))).
  assert (demo_history [then_ op2; then_ op1; demo0]) as H2 by (apply history_step; [exact H1|]; exact (op_reserve _ _ _ _ _ _ _ _ _ (then_ok op2 (rc_2 demo_run)))).
  assert (demo_history [then_ op3; then_ op2; then_ op1; demo0]) as H3 by (apply history_step; [exact H2|]; exact (op_reserve _ _ _ _ _ _ _ _ _ (then_ok op3 (rc_3 demo_run)))).
  assert (demo_history past_open) as H4 by (apply history_step; [exact H3|]; exact (op_reserve _ _ _ _ _ _ _ _ _ (then_ok op4 (rc_4 demo_run)))).
  apply history_step; [exact H4|]. exact (op_reserve _ _ _ _ _ _ _ _ _ (then_ok op5 (rc_5 demo_run))).
Qed.

Lemma history_one : demo_history (demo_one :: demo_open :: past_open).
Proof.
  destruct ran6 as (c & E & _). apply history_step; [exact history_open|]. destruct demo_inputs as (I & _).
  refine (op_settle _ _ _ V4 demo_open demo_open 5 "q1" demo_first c _ _ I E); left.
Qed.
Lemma history_two : demo_history (demo_two :: past_two).
Proof.
  destruct ran7 as (c & E & _). apply history_step; [exact history_one|]. destruct demo_inputs as (_ & I & _).
  refine (op_settle _ _ _ V4 demo_one demo_open 6 "q2" demo_second c _ _ I E); [left|right; left].
Qed.
Lemma history_three : demo_history (demo_three :: demo_two :: past_two).
Proof.
  destruct ran8 as (c & E & _). apply history_step; [exact history_two|]. destruct demo_inputs as (I & _).
  refine (op_settle _ _ _ V4 demo_one demo_open 7 "q3" demo_first c _ _ I E); [right; left|right; right; left].
Qed.
Lemma history_four : demo_history (demo_four :: past_four).
Proof.
  destruct ran9 as (c & E & _). apply history_step; [exact history_three|]. exact (op_reference _ _ _ V4 8 "q5" demo_reference c E).
Qed.
Lemma history_five : demo_history past_last.
Proof.
  apply history_step; [|exact (op_reserve _ _ _ _ _ _ _ _ _ (then_ok op11 (rc_11 demo_run)))].
  apply history_step; [exact history_four|exact (op_ensure _ _ _ _ _ _ _ (then_ok op10 (rc_10 demo_run)))].
Qed.
Lemma history_last : demo_history (demo_last :: past_last).
Proof.
  destruct ran12 as (c & E & _). apply history_step; [exact history_five|].
  destruct demo_inputs as (_ & _ & I). refine (op_settle _ _ _ V5 demo_five demo_five 9 "q4" demo_v5 c _ _ I E); left.
Qed.

(** ** The theorems *)
Lemma row_of v s q state : row_is v s q state = true -> exists r, rows (ledger v (ordinal s)) !! q = Some r /\ qState r = state.
Proof. unfold row_is. destruct (rows _ !! q) as [r|]; [|done]. intros E%bool_decide_eq_true. by exists r. Qed.

Lemma used_of v s root used : bool_decide (used_in v s root = Some used) = true -> exists h, heads (ledger v (ordinal s)) !! root = Some h /\ hUsed h = used.
Proof. intros E%bool_decide_eq_true. apply fmap_Some in E as (h & Hh & ->). by exists h. Qed.

Lemma sound_last : sound_hashes (demo_last :: past_last).
Proof. exact demo_sound. Qed.

Lemma length_of z {A} (l : list A) n : z = Z.of_nat (length l) -> z = Z.of_nat n -> length l = n.
Proof. intros -> E. exact (Nat2Z.inj _ _ E). Qed.

(** The V5 row of the run, settled. *)
Lemma settled_u : exists r, rows (ledger V5 (ordinal demo_last)) !! "q4" = Some r /\ qState r = exposureSettled.
Proof. exact (row_of _ _ _ _ (rc_28 demo_run)). Qed.

Lemma heads_exact_witness : exists h h5,
  heads (ledger V4 (ordinal demo_last)) !! "t" = Some h /\ length (facts_in (B := L) V4 PRelease demo_last (hReleaseSet h)) = 2%nat /\
  2 = msum (charged_in "t" POutcome) (rows (ledger V4 (ordinal demo_last))) /\
  heads (ledger V5 (ordinal demo_last)) !! "u" = Some h5 /\ length (facts_in (B := L) V5 PRelease demo_last (hReleaseSet h5)) = 1%nat /\
  length (facts_in (B := L) V5 POutcome demo_last (hOutcomeSet h5)) = 2%nat.
Proof.
  destruct (used_of V4 _ _ _ (rc_23 demo_run)) as (h & Hh & Eh). destruct (used_of V5 _ _ _ (rc_24 demo_run)) as (h5 & Hh5 & Eh5). exists h, h5. split; [exact Hh|].
  destruct (heads_exact V4 past_last demo_last "t" h history_last Hh) as (Hs & Hn & _). destruct (heads_exact V5 past_last demo_last "u" h5 history_last Hh5) as (_ & Hn5 & _).
  split; [|split; [|split; [exact Hh5|split]]].
  - destruct (Hn PRelease (or_introl (or_introl eq_refl))) as [E _]. rewrite Eh in E. exact (length_of 2 _ 2 E eq_refl).
  - destruct (Hs POutcome) as [E _]. rewrite Eh in E. exact E.
  - destruct (Hn5 PRelease (or_intror sound_last)) as [E _]. rewrite Eh5 in E. exact (length_of 1 _ 1 E eq_refl).
  - destruct (Hn5 POutcome (or_intror sound_last)) as [E _]. rewrite Eh5 in E. exact (length_of 2 _ 2 E eq_refl).
Defined.

Lemma settled_inside_witness : exists r h b, rows (ledger V5 (ordinal demo_last)) !! "q4" = Some r /\ heads (ledger V5 (ordinal demo_last)) !! qRoot r = Some h /\
  observations (ledger V5 (ordinal demo_last)) !! qObservation r = Some b /\
  facts_in (B := L) V5 PRelease demo_last (bRelease b) ⊆ facts_in V5 PRelease demo_last (hReleaseSet h) /\
  facts_in (B := L) V5 POutcome demo_last (bOutcome b) ⊆ facts_in V5 POutcome demo_last (hOutcomeSet h).
Proof.
  destruct settled_u as (r & Hr & Hs). destruct (settled_inside V5 _ demo_last "q4" r history_last Hr Hs) as (h & b & Hh & Hb & _ & Hp).
  exists r, h, b. split; [exact Hr|]. split; [exact Hh|]. split; [exact Hb|].
  split; [exact (proj1 (Hp PRelease (or_intror sound_last)))|exact (proj1 (Hp POutcome (or_intror sound_last)))].
Defined.

Lemma settlement_linear_witness : exists c c5, settle_from V4 demo_one demo_open demo_one 6 "q2" demo_second = Ok (demo_two, c) /\ cCharged c = MkExposure 1 1 1 /\
  settles_exactly (B := L) V4 (demo_two :: past_two) demo_one demo_two "q2" c /\
  settle_from V5 demo_five demo_five demo_five 9 "q4" demo_v5 = Ok (demo_last, c5) /\ cCharged c5 = MkExposure 1 0 2 /\
  settles_exactly (B := L) V5 (demo_last :: past_last) demo_five demo_last "q4" c5 /\ sound_hashes (demo_last :: past_last).
Proof.
  destruct ran7 as (c & E & Ec). destruct ran12 as (c5 & E5 & Ec5). exists c, c5. destruct demo_inputs as (_ & I & I5). split; [exact E|]. split; [exact Ec|]. split.
  - refine (settlement_linear V4 _ demo_one demo_one demo_open 6 "q2" demo_second demo_two c history_one _ _ I E); [left|right; left].
  - split; [exact E5|]. split; [exact Ec5|]. split; [|exact sound_last].
    refine (settlement_linear V5 _ demo_five demo_five demo_five 9 "q4" demo_v5 demo_last c5 history_five _ _ I5 E5); left.
Defined.

Lemma reference_free_witness : exists c, settle_reference V4 demo_three 8 "q5" demo_reference = Ok (demo_four, c) /\ cCharged c = zero_limits /\
  heads (ledger V4 (ordinal demo_four)) = heads (ledger V4 (ordinal demo_three)).
Proof.
  destruct (row_of _ _ _ _ (rc_27 demo_run)) as (r & Hr & Hs). destruct ran9 as (c & E & _). exists c. split; [exact E|].
  destruct (reference_free (B := L) V4 _ demo_three 8 "q5" demo_reference demo_four c r history_three Hr Hs E) as (Ec & Eh & _). split; [exact Ec|exact Eh].
Defined.

Lemma exposure_kept_witness : exists r h h' h0 h5, rows (ledger V4 (ordinal demo_one)) !! "q1" = Some r /\ rows (ledger V4 (ordinal demo_last)) !! "q1" = Some r /\
  heads (ledger V4 (ordinal demo_one)) !! qRoot r = Some h /\ heads (ledger V4 (ordinal demo_last)) !! qRoot r = Some h' /\
  facts_in (B := L) V4 PRelease demo_one (hReleaseSet h) ⊆ facts_in V4 PRelease demo_last (hReleaseSet h') /\
  heads (ledger V5 (ordinal demo_five)) !! "u" = Some h0 /\ heads (ledger V5 (ordinal demo_last)) !! "u" = Some h5 /\
  facts_in (B := L) V5 POutcome demo_five (hOutcomeSet h0) ⊆ facts_in V5 POutcome demo_last (hOutcomeSet h5).
Proof.
  destruct (row_of _ _ _ _ (rc_25 demo_run)) as (r & Hr & Hs).
  destruct (lo_root _ _ _ (oo_ledger _ (history_ok (B := L) _ demo_one history_one) V4) "q1" r Hr) as [h Hh].
  destruct (used_of V5 _ _ _ (rc_29 demo_run)) as (h0 & Hh0 & _).
  assert (demo_one ∈ demo_last :: past_last) as Hin by (do 6 right; left). assert (demo_five ∈ demo_last :: past_last) as Hin5 by (right; left).
  destruct (exposure_kept V4 past_last demo_last demo_one (qRoot r) h history_last Hin Hh) as [(h' & Hh' & _ & _ & _ & Hp) Hf].
  destruct (exposure_kept V5 past_last demo_last demo_five "u" h0 history_last Hin5 Hh0) as [(h5 & Hh5 & _ & _ & _ & Hp5) _]. exists r, h, h', h0, h5.
  split; [exact Hr|]. split; [exact (Hf "q1" r Hr Hs)|]. split; [exact Hh|]. split; [exact Hh'|]. split; [exact (Hp PRelease (or_introl (or_introl eq_refl)))|].
  split; [exact Hh0|]. split; [exact Hh5|]. exact (Hp5 POutcome (or_intror sound_last)).
Defined.

Definition normal_outcome := normalizeOrdinalSetTx (hybrid (ordinal demo_open)) true "q1" FactId.zeros (xOutcome demo_first) OrdinalDynamicOutcome [].
Definition persisted_outcome := normal_outcome ≫= fun '(t, set) => t' ← persistOrdinalSetTx t FactId.zeros set; Ok (t', set).

Lemma set_round_trip_witness : exists (set : normalizedOrdinalSet L) t2 set', normal_outcome ≫= (fun '(t, set) => persistOrdinalSetTx t FactId.zeros set) = Ok t2 /\
  loadOrdinalSetTx (B := L) t2 (digest set) = Ok (set', FactId.zeros) /\ (forall f, f ∈ dynamic set' <-> f ∈ [outcome_fact "one row"]).
Proof.
  assert (is_ok persisted_outcome = true) as E by (vm_compute; reflexivity). unfold persisted_outcome in E. destruct normal_outcome as [[t1 set]|] eqn:En; [|discriminate E].
  cbn [mbind result_bind] in E. destruct (persistOrdinalSetTx t1 FactId.zeros set) as [t2|] eqn:Ep; [|discriminate E].
  destruct (set_round_trip past_open demo_open true "q1" FactId.zeros (xOutcome demo_first) OrdinalDynamicOutcome [] t1 set t2 history_open) as (set' & Hl & _ & Hd & _).
  - destruct demo_inputs as [(_ & _ & I) _]. exact I.
  - exact En.
  - exact Ep.
  - exists set, t2, set'. split; [exact Ep|]. split; [exact Hl|exact Hd].
Defined.

(** ** The outcome of the V5 query *)
Definition outcome_head0 : OrdinalRootHead := new_head "u" FactId.ProfileV5 demo_limits (Some demo_predicates) 1.
Definition outcome_row : ReservationRow :=
  MkReservationRow "u" "u" FactId.ProfileV5 exposureReserved (MkExposure 4 4 2) zero_limits zero_limits "" 0 no_predicates 0 None.
Definition outcome_tables : OrdinalTables := with_ledger V5 demo_ordinals (MkLedgerTables {[ "u" := outcome_head0 ]} {[ "q4" := outcome_row ]} ∅ ∅ ∅).
Definition outcome_charge : result (V5Facts.normalizedV5Observation L * (OrdinalTables * ExposureLimits * (Z * Z) * Z)) :=
  '(t, n) ← normalizeV5ObservationTx demo0 "q4" demo_v5;
  c ← charge_v5 demo0 (with_hybrid outcome_tables t) outcome_row n outcome_head0 9;
  Ok (n, c).
Definition outcome_checks : bool := match outcome_charge with Ok (n, c) => Nat.eqb (length (V5Facts.vFacts n)) 2 && bool_decide (c.1.1.2 = MkExposure 1 0 2) && bool_decide (c.1.2 = (1, 1)) | Err _ => false end.
Lemma outcome_checked : outcome_checks = true.
Proof. vm_compute. reflexivity. Qed.

Lemma v5_outcome_exact_witness : exists n c, outcome_charge = Ok (n, c) /\
  2 = Z.of_nat (length (OutcomeLists.spec_novel [] (candidate_hashes (hsDynamicFacts (xOutcome demo_v5))))) /\ c.1.2.1 + c.1.2.2 = 2.
Proof.
  pose proof outcome_checked as E. unfold outcome_checks in E. destruct outcome_charge as [[n c]|] eqn:Eo; [|discriminate E]. exists n, c. split; [reflexivity|].
  destruct (andb_prop _ _ E) as [E1 E3]. destruct (andb_prop _ _ E1) as [En Ec]. apply Nat.eqb_eq in En. apply bool_decide_eq_true_1 in Ec. clear E E1 E3.
  unfold outcome_charge in Eo. destruct (normalizeV5ObservationTx demo0 "q4" demo_v5) as [[t n']|] eqn:Hn; [|discriminate Eo]. cbn [mbind result_bind] in Eo.
  destruct (charge_v5 _ _ _ _ _ _) as [c'|] eqn:Hc; [|discriminate Eo]. injection Eo as -> ->. destruct c as [[[o' c] kinds] e]. cbn [fst snd] in *.
  destruct (v5_outcome_exact demo0 (with_hybrid outcome_tables t) outcome_row "q4" demo_v5 t n outcome_head0 9 o' c kinds e [] [] (Forall_nil_2 _)) as [(E & Ek & _)|Hcol].
  - cbn [length]. rewrite En. reflexivity.
  - left. split; [reflexivity|]. split; reflexivity.
  - exact Hn.
  - exact Hc.
  - rewrite Ec in E, Ek. split; [exact E|exact Ek].
  - exfalso. destruct Hcol as (u & w & Hu & _). change (u ∈ ([] : list bytes)) in Hu. exact (not_elem_of_nil u Hu).
Defined.
End OrdinalWitness.
